(* ===== verification/_CoqProject ===== *)
-Q . S2P
Prelude.v
RustStr.v
BTree.v
PlanCode.v
Errors.v
IpAddr.v
Json.v
Jcs.v
JsonRead.v
JcsFacts.v
Calendar.v
Text.v
Crypto.v
Schema.v
Actions.v
Trust.v
Verify.v
Samples.v
TrustFacts.v
VerifyFacts.v
CronExpr.v
Budget.v
SchemaFacts.v
Store.v
DefinitionStore.v
AdmissionStore.v
F64.v
AlertRules.v
Reconcile.v
Queries.v
StoreSamples.v
StoreFacts.v
StoreLog.v
ReconcileFacts.v
ExecFacts.v
PolicyFacts.v
Proto.v
OpsStore.v
OpsFacts.v
Wire.v
Effects.v
Runner.v
CronJobs.v
Sched.v
CronSched.v
CronFacts.v
CronSamples.v
Exec.v
Change.v
DeployFacts.v
ExecutorFacts.v
RulePlan.v
Events.v
Presence.v
Hooks.v
Pipeline.v
PipelineFacts.v
Intake.v
IntakeFacts.v
HookSamples.v
Redaction.v
AlertDefs.v
Alerts.v
AlertBudget.v
AlertHistory.v
AlertSamples.v
Artifacts.v
ArtifactFacts.v
BackupDefs.v
BackupSched.v
BackupFacts.v
BackupTheorems.v
StoreOpen.v
StoreOpenFacts.v
Telemetry.v
TelemetryFacts.v
TelemetryOps.v
TelemetryScan.v
TelemetryOpen.v
TelemetryLog.v
