(* ===== verification/Prelude.v ===== *)
(** * A verification of permanu-agent

    permanu-agent is the agent of a self-hosted server.  In local mode it
    takes no order that an owner has not signed: a client submits a signed
    plan, the agent verifies it against the trusted keys, admits it once into
    its SQLite store, executes its actions through a root runner on a Unix
    socket, and follows the runner's own log of what was consumed.  Standing
    rules let verified webhooks build and deploy without a new signature;
    cron jobs, backup policies and alert rules are definitions that admitted
    plans record and that the schedulers act on.  This development models
    that local mode (the crate's [src/signed_plan], [src/admissions] and most
    of [src/local]) and proves what makes each part safe to trust.

    ** The parts and their files

    Paths are those of the repository.

    - Foundations.  [Prelude]: the [outcome] monad ([let?], [check?]) for
      code that returns [Result] or can panic, tactics, shared lemmas.
      [RustStr]: [&str] as UTF-8 bytes and the [str] functions the code
      uses.  [BTree]: [BTreeMap] and [serde_json::Map] as sorted entries.
      [F64]: [f64] on the Standard Library's [SpecFloat].  [IpAddr]:
      [std::net::IpAddr] text.  [Effects]: the state monad ([let!], [do!];
      [try!], [run!] for operations that return an error), with [keeps]: a preorder that every primitive keeps is kept by every
      operation.
    - JSON and digests (src/signed_plan/jcs.rs, strict_json.rs, crypto.rs):
      [Json] the values, [Jcs] strict parsing and RFC 8785 text, [Crypto]
      domain-separated digests and keys; [JsonRead] is a reference reader
      that makes everything executable here; [JcsFacts] injectivity and
      round trips.
    - Plan schema (schema.rs, schema/*.rs, text.rs): [Text], [Calendar] (RFC
      3339 time), [Schema], [Actions], with [SchemaFacts].
    - Trust and verification (trust.rs, verify.rs, mod.rs): [PlanCode],
      [Trust], [Verify] (the twelve ordered checks, over the record of
      operations [PolicyContext]), with [TrustFacts] and [VerifyFacts].
    - Admission store (src/admissions): [Store] the tables and statements,
      [DefinitionStore] (definitions.rs), [AdmissionStore] (admit.rs; the
      store as the [PolicyContext] the verifier asks), [Reconcile]
      (reconcile.rs), [Queries] (query.rs, webhooks.rs), with [StoreFacts],
      [StoreLog], [PolicyFacts], [ExecFacts] and [ReconcileFacts].
      [StoreOpen] (mod.rs, the schema files and src/trust_reset.rs: opening,
      migrating, setting aside and recreating the file, and the trust reset,
      over a file system in which any call may fail), with [StoreOpenFacts].
    - Execution (src/local/execution.rs, runner.rs, errors.rs): [Runner] the
      wire client, [Errors], [Exec] the pure decisions, [Change] the core:
      submission, executor, deploys, cancels, completion; with [DeployFacts]
      and [ExecutorFacts].
    - Webhooks (src/local/hooks): [Budget] (limits.rs), [RulePlan]
      (plan.rs), [Hooks] (mod.rs), [Intake] (intake.rs, listener.rs),
      [Pipeline] (pipeline.rs); with [IntakeFacts] and
      [PipelineFacts].
    - Schedulers (src/local/sched): [CronExpr] (cron_expr.rs), [Proto] the
      stored protobuf messages, [OpsStore] (ops_store.rs), [Sched] the world
      the schedulers share (mod.rs), [CronJobs] and [CronSched] (cron.rs),
      [BackupDefs] and [BackupSched] (backup.rs), [AlertRules]
      (alert_spec.rs),
      [AlertDefs] and [Alerts] (alerts.rs), [Redaction]
      (../telemetry/redaction.rs); with [OpsFacts],
      [CronFacts], [BackupFacts], [BackupTheorems],
      [AlertBudget], [AlertHistory].
    - Around them: [Events] (src/local/events.rs, the event log and the
      [Subscribe] stream), [Presence] (presence.rs, sessions and the away
      summary), [Artifacts] (artifacts.rs, the upload of a release bundle and
      its verification) with [ArtifactFacts].
    - Telemetry store (src/local/telemetry/store.rs): [Telemetry] the
      definitions, [TelemetryFacts] what one segment and one append keep,
      [TelemetryOps] the invariant of the store and every operation on it,
      [TelemetryScan] snapshots and scans, [TelemetryOpen] crashes and
      restarts, [TelemetryLog] the records of a kind and sample histories.
    - [Samples], [StoreSamples], [CronSamples], [HookSamples], [AlertSamples],
      the last parts of [ExecutorFacts], [BackupTheorems], [ArtifactFacts]
      and [TelemetryLog], and [Wire] hold concrete keys, plans, stores and
      worlds.  The witnesses of the theorems evaluate them.

    ** How code becomes definitions

    - A pure function is a function; [Result] is [outcome], in which [Panic]
      is a third end, so that "never panics" can be stated.  Integers are [Z]
      at their width where a conversion or wrap is in the code.
    - A SQLite database is a record of row lists.  A transaction is a
      function from the committed content to a result and the new content,
      and a failed one leaves it as it was; constraint violations are errors.
    - A component with a lock is a record of its locked state inside a world
      that also holds what it shares: the stores, the clock, a list of faults
      that says which database calls will fail, the tasks in flight and
      everything it published, asked or logged, in order.  An operation of a
      scheduler is one step of its world.  In the change core and the
      webhook path, which await between writes, other tasks run at every
      await: an arbitrary function of the environment changes the shared
      state there, so their theorems hold for every interleaving at awaits.
    - A file system is what a component finds in it: directories as maps, a
      file as its bytes or nodes, the bytes a writer holds back beside it, and
      a list that says which calls will fail.  A crash forgets memory.
    - Clocks, random ids and answers are numbered readings of an arbitrary
      environment.

    ** What is assumed of code outside the repository

    Third-party code is the fields of type classes; where a theorem needs
    more than the types, the laws are classes of their own: [Crypto]
    (SHA-256, P-256, Ed25519, base64; no collision resistance is assumed, a
    theorem names the collision instead), [JsonReader] (serde_json's
    deserializer), [RegexCrate], [Jiff] and [JiffDb] (civil dates and zones),
    [Prost] (messages; law: decoding an encoding gives the message back),
    [SqliteTime] ([strftime]), [Host], [BackupHost], [Environment],
    [HookEnvironment], [EventWire], [SqliteStamp], [Ed25519], [AlertSource] (the
    telemetry store), [ByteRegex], [JsonWriter].  Each has a concrete
    instance in a samples file, on which the witnesses run.

    ** What the theorems show

    - Plans (C1 to C5 and the schema and trust theorems): what is admitted
      is signed by unrevoked keys that may sign each kind in that scope, with
      presence where it is asked; a rule plan keeps to its rule.  Verifying
      ends in a verdict or a code on every input, never in a panic.  The trust file's
      compromise cascade is a transitive closure, its changes only add, and
      an owner key always remains.
    - The store: one admission per plan id, nonce and operation id; the head
      table refines the fold of the audit log; history is never rewritten;
      a plan admitted before a store was lost is not admitted again; rates,
      deliveries and sealed bytes are as signed; reading the consumed log
      piecewise is reading it at once.  Over any number of starts with any
      call failing, a store that is reported open still knows every plan or is
      quarantined; migrations lose nothing; a trust reset is deliberate.
    - Execution: a deploy refines an abstract contract, activates only what
      was prepared and healthy and recovers at most once; the executor keeps
      the order of the actions; an exchange with the runner succeeds exactly
      on the transcripts of the wire protocol.
    - Webhooks: a request is accepted only after the runner verified it, any
      other leaves the deliveries as they were; a submission is backed by a
      claimed delivery, an active matching rule and built images; the
      pipeline refines an abstract one.
    - Schedulers: every dispatched run is authorized by a recorded
      definition, a fire time starts at most once whatever fails or restarts,
      authority bound to a run is immutable, one backup at a time, a
      completion and its artifact are recorded together, pruning spares what
      it must, and waiting work starts when it can.
    - Alerts: a rule fires only when its condition held for its duration and
      does fire when it did; every state of a rule is well formed; a channel
      gets at most thirty notifications a minute and what is held back is
      counted; a silence is kept.  A private key in a stream leaves as
      replacements.
    - Streams and summaries: a subscriber gets exactly what was published
      since its token or is told of the gap; the away summary is that of the
      latest offline period.
    - Artifacts: what is reported staged was signed by a pinned, unrevoked
      release key and is complete; an upload that fails changes no committed
      set and stays within its bounds.
    - Telemetry store: memory and disk agree after every operation whichever
      call on a directory entry fails ([store_ok]); an append adds exactly its
      record or nothing; retention takes only the first records of a producer
      and only expired ones while the kind fits; a scan yields exactly the
      wanted records in order; a restart keeps exactly the whole frames on
      disk, so nothing flushed is lost.  That a write of data does not fail
      is a hypothesis: a segment whose last bytes could not be written keeps
      counting records it does not have.
    Where the code does not do what its comments say, a theorem of a samples
    file evaluates it: [CronSamples.retry_leaves_chain],
    [fourth_attempt_stops_ticks], [fill_slots_spins],
    [ExecFacts.expire_windows_rules], [HookSamples.first_build_left_deploying],
    [BackupTheorems.waiting_backup_blocks_after_restart],
    [AlertSamples.counterpart_resolves_one],
    [StoreOpenFacts.violating_store_set_aside],
    [ArtifactFacts.leftover_blocks_staging], and in [TelemetryLog]
    [crowded_stays], [index_failure_sticks] and [cursor_returns].

    ** Bounds and fuel

    Recursion that is not structural takes fuel, and each use has enough:
    the PEM loop and the cron item bits ([SchemaFacts], [CronExpr]) take the
    length of the text and the width of the field; [fire_loop] the caller's
    limit, which is in the source; [dec_digits] the bits of the number;
    [latest_before] the doubling steps of the source; [fill_loop] one round
    per waiting chain and failing call ([fill_slots_returns]); [next_loop]
    one round per waiting backup ([waiting_backup_starts]); the runner's
    reader stops at the source's MAX_LINES, the cancel wait at FINISH_POLLS;
    [parse_frames] takes the length of the bytes, eviction one round per
    segment ([evict_round_ok]), and a scan one call of [next] per record and
    one more ([scan_exact]).

    ** Not modelled

    - The hosted v1 mode (command.rs, job_deployment.rs, the *_lifecycle.rs
      files, dwaar_*.rs): handlers that shell out to Docker, systemd and a
      control plane; what they do is what those programs do.
    - Telemetry but its store and redaction (src/local/telemetry): collection
      and query of observations.  The executor and the schedulers see it
      through parameters.
    - gRPC services, sockets, start-up, configuration and self update: I/O
      around the operations modelled here.
    - The container listing and log following of the runner client; the
      read-only views of rpc.rs files.
    - Threads inside one scheduler operation: an operation is one step,
      although the source drops and retakes its lock within some. *)

From Stdlib Require Export ZArith NArith Ascii String List Lia Bool Sorted.
From stdpp Require Export base strings gmap list.
Export List.ListNotations.

#[global] Open Scope Z_scope.

(** ** Outcomes

    A Rust call ends in [Ok], in [Err] with an error value, or in a panic.
    [E] is the error type of the component ([PlanCode], [&'static str], ...). *)

Inductive outcome (E A : Type) : Type :=
| Ok (a : A)
| Err (e : E)
| Panic.

Arguments Ok {E A} a.
Arguments Err {E A} e.
Arguments Panic {E A}.

Definition obind {E A B} (m : outcome E A) (k : A -> outcome E B) : outcome E B :=
  match m with
  | Ok a => k a
  | Err e => Err e
  | Panic => Panic
  end.

Definition omap_err {E F A} (f : E -> F) (m : outcome E A) : outcome F A :=
  match m with
  | Ok a => Ok a
  | Err e => Err (f e)
  | Panic => Panic
  end.

(** [Option::ok_or]. *)
Definition ok_or {E A} (o : option A) (e : E) : outcome E A :=
  match o with
  | Some a => Ok a
  | None => Err e
  end.

Declare Scope outcome_scope.
Delimit Scope outcome_scope with outcome.

Notation "'let?' x ':=' m 'in' k" := (obind m (fun x => k))
  (at level 10, x pattern, m at level 100, k at level 200) : outcome_scope.

Notation "'check?' c 'else' e 'in' k" := (if c then k else Err e)
  (at level 10, c at level 100, e at level 100, k at level 200) : outcome_scope.

#[global] Open Scope outcome_scope.

(** A [for] loop whose body may return early with an error. *)
Fixpoint for_each {E A} (f : A -> outcome E unit) (l : list A) : outcome E unit :=
  match l with
  | [] => Ok tt
  | x :: xs => let? _ := f x in for_each f xs
  end.

(** A [for] loop that carries a mutable variable. *)
Fixpoint fold_each {E A S} (f : S -> A -> outcome E S) (s : S) (l : list A) : outcome E S :=
  match l with
  | [] => Ok s
  | x :: xs => let? s' := f s x in fold_each f s' xs
  end.

(** A loop that collects the result of each iteration. *)
Fixpoint map_each {E A B} (f : A -> outcome E B) (l : list A) : outcome E (list B) :=
  match l with
  | [] => Ok []
  | x :: xs => let? y := f x in let? ys := map_each f xs in Ok (y :: ys)
  end.

Lemma obind_Ok {E A B} (m : outcome E A) (k : A -> outcome E B) b :
  obind m k = Ok b <-> exists a, m = Ok a /\ k a = Ok b.
Proof. destruct m; simpl; naive_solver. Qed.

Lemma obind_Panic {E A B} (m : outcome E A) (k : A -> outcome E B) :
  obind m k = Panic <-> m = Panic \/ exists a, m = Ok a /\ k a = Panic.
Proof. destruct m; simpl; naive_solver. Qed.

Lemma ok_or_Ok {E A} (o : option A) (e : E) a : ok_or o e = Ok a <-> o = Some a.
Proof. destruct o; simpl; naive_solver. Qed.

Lemma ok_or_Panic {E A} (o : option A) (e : E) : ok_or o e <> Panic.
Proof. by destruct o. Qed.

Lemma for_each_Ok {E A} (f : A -> outcome E unit) l :
  for_each f l = Ok tt <-> Forall (fun x => f x = Ok tt) l.
Proof.
  induction l as [|x l IH]; simpl; [by split|].
  rewrite Forall_cons, obind_Ok. split.
  - intros ([] & Hx & Hl). by rewrite <- IH.
  - intros [Hx Hl]. exists tt. by rewrite IH.
Qed.

Lemma for_each_Panic {E A} (f : A -> outcome E unit) l :
  (forall x, x ∈ l -> f x <> Panic) -> for_each f l <> Panic.
Proof.
  induction l as [|x l IH]; simpl; intros H; [done|].
  rewrite obind_Panic. intros [Hp|(u & Hx & Hp)].
  - exact (H x (list_elem_of_here _ _) Hp).
  - apply IH in Hp; [done|]. intros y Hy. apply H. by apply list_elem_of_further.
Qed.

Lemma map_each_Ok {E A B} (f : A -> outcome E B) l ys :
  map_each f l = Ok ys <-> Forall2 (fun x y => f x = Ok y) l ys.
Proof.
  revert ys; induction l as [|x l IH]; simpl; intros ys.
  - split; [by intros [= <-]|]. by inversion 1.
  - rewrite obind_Ok. setoid_rewrite obind_Ok. setoid_rewrite IH. split.
    + intros (y & Hy & zs & Hzs & [= <-]). by constructor.
    + inversion 1; subst. naive_solver.
Qed.

Lemma map_each_Panic {E A B} (f : A -> outcome E B) l :
  (forall x, x ∈ l -> f x <> Panic) -> map_each f l <> Panic.
Proof.
  induction l as [|x l IH]; simpl; intros H; [done|].
  rewrite obind_Panic. intros [Hp|(u & Hx & Hp)].
  - exact (H x (list_elem_of_here _ _) Hp).
  - apply obind_Panic in Hp as [Hp|(v & _ & Hv)]; [|done].
    apply IH in Hp; [done|]. intros y Hy. apply H. by apply list_elem_of_further.
Qed.

(** Loop invariant rule for [fold_each]. *)
Lemma fold_each_inv {E A S} (P : list A -> S -> Prop) (f : S -> A -> outcome E S) l s0 s :
  P [] s0 ->
  (forall pre x post s1 s2, l = pre ++ x :: post -> P pre s1 -> f s1 x = Ok s2 ->
     P (pre ++ [x]) s2) ->
  fold_each f s0 l = Ok s -> P l s.
Proof.
  intros H0 Hstep.
  assert (forall pre post s1, l = pre ++ post -> P pre s1 ->
            fold_each f s1 post = Ok s -> P l s) as Hgen.
  { intros pre post; revert pre; induction post as [|x post IH]; intros pre s1 -> HP; simpl.
    - intros [= <-]. by rewrite app_nil_r.
    - rewrite obind_Ok. intros (s2 & Hx & Hrest).
      apply (IH (pre ++ [x]) s2); [by rewrite <- app_assoc| |done].
      eapply Hstep; eauto. }
  intros Hf. apply (Hgen [] l s0); auto.
Qed.

Lemma fold_each_app {E A S} (f : S -> A -> outcome E S) s l1 l2 :
  fold_each f s (l1 ++ l2) = let? s1 := fold_each f s l1 in fold_each f s1 l2.
Proof.
  revert s; induction l1 as [|x l1 IH]; intros s; [done|]. cbn [fold_each app].
  destruct (f s x); cbn [obind]; [apply IH|done..].
Qed.

Lemma fold_each_Panic {E A S} (I : S -> Prop) (f : S -> A -> outcome E S) l s :
  I s -> (forall s x, x ∈ l -> I s -> f s x <> Panic /\ forall s', f s x = Ok s' -> I s') ->
  fold_each f s l <> Panic.
Proof.
  revert s; induction l as [|x l IH]; intros s Hs Hstep; [done|]. cbn [fold_each].
  destruct (Hstep s x (list_elem_of_here _ _) Hs) as [Hp Hok].
  rewrite obind_Panic. intros [Hx|(s' & Hx & Hr)]; [done|].
  revert Hr. apply IH; [by apply Hok|]. intros s1 y Hy. apply Hstep. by apply list_elem_of_further.
Qed.

(** ** Tactics

    [inv_ok H] opens a chain of binds and guards that ended in [Ok]. *)

Create HintDb agent discriminated.
Create Rewrite HintDb outcome.

#[export] Hint Rewrite @obind_Ok @ok_or_Ok : outcome.

Ltac inv_ok H :=
  repeat match type of H with
  | obind ?m _ = Ok _ => let x := fresh "x" in let Hx := fresh "Hx" in
      apply obind_Ok in H as (x & Hx & H); try apply ok_or_Ok in Hx
  | (if ?c then Err _ else _) = Ok _ => let Hc := fresh "Hc" in
      destruct c eqn:Hc; [discriminate H|]
  | (if ?c then _ else Err _) = Ok _ => let Hc := fresh "Hc" in
      destruct c eqn:Hc; [|discriminate H]
  | Ok _ = Ok _ => injection H as H
  | ok_or ?o _ = Ok _ => apply ok_or_Ok in H
  end.

(** Splits boolean conjunctions and negations in the context. *)
Ltac bsplit :=
  repeat match goal with
  | H : _ && _ = true |- _ => apply andb_true_iff in H as [? ?]
  | H : _ || _ = false |- _ => apply orb_false_iff in H as [? ?]
  | H : negb _ = true |- _ => apply negb_true_iff in H
  | H : negb _ = false |- _ => apply negb_false_iff in H
  end.

(** ** Booleans and lists *)

Lemma forallb_Forall {A} (p : A -> bool) l : forallb p l = true <-> Forall (fun x => p x = true) l.
Proof. rewrite forallb_forall, Forall_forall. setoid_rewrite list_elem_of_In. done. Qed.

Lemma existsb_Exists {A} (p : A -> bool) l : existsb p l = true <-> Exists (fun x => p x = true) l.
Proof. rewrite existsb_exists, Exists_exists. setoid_rewrite list_elem_of_In. done. Qed.

(** [slice.contains(&x)] on string slices. *)
Definition contains_str (l : list string) (s : string) : bool :=
  existsb (String.eqb s) l.

Lemma contains_str_spec l s : contains_str l s = true <-> s ∈ l.
Proof.
  unfold contains_str. rewrite existsb_exists, list_elem_of_In. split.
  - intros (x & Hx & He). apply String.eqb_eq in He. by subst.
  - intros Hin. exists s. by rewrite String.eqb_refl.
Qed.

(** [windows(2).all(|pair| lt(pair[0], pair[1]))]. *)
Fixpoint adjacent {A} (lt : A -> A -> bool) (l : list A) : bool :=
  match l with
  | x :: ((y :: _) as rest) => lt x y && adjacent lt rest
  | _ => true
  end.

Lemma adjacent_StronglySorted {A} (lt : A -> A -> bool) l :
  (forall x y z, lt x y = true -> lt y z = true -> lt x z = true) ->
  adjacent lt l = true <-> StronglySorted (fun x y => lt x y = true) l.
Proof.
  intros Htrans. split.
  - induction l as [|x l IH]; [constructor|].
    destruct l as [|y l].
    + intros _. repeat constructor.
    + change (lt x y && adjacent lt (y :: l) = true -> StronglySorted (fun x y => lt x y = true) (x :: y :: l)).
      intros [Hxy Hl]%andb_true_iff. specialize (IH Hl).
      constructor; [done|]. inversion IH as [|? ? Hs Hf]; subst.
      constructor; [done|]. eapply Forall_impl; [exact Hf|]. simpl. eauto.
  - induction 1 as [|x l Hs IH Hf]; [done|]. destruct l as [|y l]; [done|].
    inversion Hf; subst. change (lt x y && adjacent lt (y :: l) = true).
    by rewrite IH, andb_true_r.
Qed.

(** [filter_map]. *)
Fixpoint filter_map {A B} (f : A -> option B) (l : list A) : list B :=
  match l with
  | [] => []
  | x :: xs => match f x with Some y => y :: filter_map f xs | None => filter_map f xs end
  end.

Lemma elem_of_filter_map {A B} (f : A -> option B) l y :
  y ∈ filter_map f l <-> exists x, x ∈ l /\ f x = Some y.
Proof.
  induction l as [|x l IH]; simpl.
  - set_solver.
  - destruct (f x) eqn:Hf; set_solver.
Qed.

(** [collect::<Option<Vec<_>>>()]. *)
Fixpoint collect_opt {A} (l : list (option A)) : option (list A) :=
  match l with
  | [] => Some []
  | Some x :: xs => match collect_opt xs with Some ys => Some (x :: ys) | None => None end
  | None :: _ => None
  end.

Lemma collect_opt_Some {A} (l : list (option A)) ys :
  collect_opt l = Some ys <-> l = Some <$> ys.
Proof.
  revert ys; induction l as [|[x|] l IH]; intros ys; simpl.
  - destruct ys; naive_solver.
  - destruct (collect_opt l) eqn:Hc.
    + split; [intros [= <-]|]; simpl.
      * by rewrite (proj1 (IH l0)).
      * destruct ys; simpl; [done|]. intros [= -> Hl]. f_equal. f_equal.
        specialize (IH ys). naive_solver.
    + split; [done|]. destruct ys; simpl; [done|]. intros [= -> Hl].
      apply IH in Hl. discriminate.
  - split; [done|]. by destruct ys.
Qed.

(** First element that satisfies a boolean test ([Iterator::find]). *)
Fixpoint find_first {A} (p : A -> bool) (l : list A) : option A :=
  match l with
  | [] => None
  | x :: xs => if p x then Some x else find_first p xs
  end.

Lemma find_first_Some {A} (p : A -> bool) l x :
  find_first p l = Some x -> x ∈ l /\ p x = true.
Proof.
  induction l as [|y l IH]; simpl; [done|].
  destruct (p y) eqn:Hp; [intros [= ->]; set_solver|]. intros H. set_solver.
Qed.

Lemma find_first_None {A} (p : A -> bool) l :
  find_first p l = None <-> Forall (fun x => p x = false) l.
Proof.
  induction l as [|y l IH]; simpl; [naive_solver|].
  rewrite Forall_cons. destruct (p y) eqn:Hp; naive_solver.
Qed.

Lemma find_first_app {A} (q : A -> bool) (l1 l2 : list A) :
  find_first q (l1 ++ l2) = match find_first q l1 with Some x => Some x | None => find_first q l2 end.
Proof. induction l1 as [|x l1 IH]; [done|]. cbn. by destruct (q x). Qed.

Definition is_some {A} (o : option A) : bool := match o with Some _ => true | None => false end.

(** [Option::is_some_and] and [Option::is_none_or]. *)
Definition is_some_and {A} (o : option A) (p : A -> bool) : bool :=
  match o with Some a => p a | None => false end.

Definition is_none_or {A} (o : option A) (p : A -> bool) : bool :=
  match o with Some a => p a | None => true end.

Lemma is_some_and_true {A} (o : option A) p :
  is_some_and o p = true <-> exists a, o = Some a /\ p a = true.
Proof. destruct o; simpl; naive_solver. Qed.

Lemma is_none_or_true {A} (o : option A) p :
  is_none_or o p = true <-> forall a, o = Some a -> p a = true.
Proof. destruct o; simpl; naive_solver. Qed.

(** [(low..=high).contains(&x)]. *)
Definition in_range (low high x : Z) : bool := (low <=? x) && (x <=? high).

Lemma in_range_spec low high x : in_range low high x = true <-> low <= x <= high.
Proof. unfold in_range. lia. Qed.

(** A decidable property of an initial segment of the naturals, by evaluation. *)
Definition check_below (n : nat) (p : Z -> bool) : bool := forallb (fun k => p (Z.of_nat k)) (seq 0 n).

Lemma check_below_true n p : check_below n p = true -> forall z, 0 <= z < Z.of_nat n -> p z = true.
Proof.
  unfold check_below. rewrite forallb_forall. intros H z Hz. specialize (H (Z.to_nat z)).
  rewrite Z2Nat.id in H by lia. apply H, in_seq. lia.
Qed.

(** ** Machine integers *)

Definition i64_max : Z := 2 ^ 63 - 1.
Definition i64_min : Z := - 2 ^ 63.
Definition u64_max : Z := 2 ^ 64 - 1.
Definition fits_i64 (z : Z) : Prop := i64_min <= z <= i64_max.

(** Reflexive transitive closure, for reachable states. *)
Inductive star {A} (R : A -> A -> Prop) : A -> A -> Prop :=
| star_refl a : star R a a
| star_snoc a b c : star R a b -> R b c -> star R a c.

Lemma star_invariant {A} (R : A -> A -> Prop) (I : A -> Prop) a b :
  (forall x y, I x -> R x y -> I y) -> star R a b -> I a -> I b.
Proof. intros Hstep. induction 1; eauto. Qed.
