(* ===== verification/RustStr.v ===== *)
(** * Rust strings

    A Rust [&str] is its UTF-8 bytes: a Rocq [string], one [ascii] per byte.
    This file gives the functions of [str] that the agent uses (splitting,
    stripping, searching, [chars], [encode_utf16], [trim], byte order) and the
    facts the other files need about them.  *)

From S2P Require Import Prelude.

(** ** Bytes *)

Definition code (b : ascii) : N := N_of_ascii b.

Definition between (lo hi : N) (b : ascii) : bool := ((lo <=? code b) && (code b <=? hi))%N.

Definition is_ascii_digit (b : ascii) : bool := between 48 57 b.
Definition is_ascii_uppercase (b : ascii) : bool := between 65 90 b.
Definition is_ascii_lowercase (b : ascii) : bool := between 97 122 b.
Definition is_ascii_alphabetic (b : ascii) : bool := is_ascii_uppercase b || is_ascii_lowercase b.
Definition is_ascii_alphanumeric (b : ascii) : bool := is_ascii_alphabetic b || is_ascii_digit b.

(** [u8::is_ascii_whitespace]: tab, LF, FF, CR and space. *)
Definition is_ascii_whitespace (b : ascii) : bool :=
  let c := code b in ((c =? 9) || (c =? 10) || (c =? 12) || (c =? 13) || (c =? 32))%N.

Definition to_ascii_lowercase_byte (b : ascii) : ascii :=
  if is_ascii_uppercase b then ascii_of_N (code b + 32) else b.

(** [matches!(byte, b'x' | b'y' | ...)]. *)
Definition one_of (chars : string) (b : ascii) : bool :=
  existsb (Ascii.eqb b) (list_ascii_of_string chars).

Lemma code_bound b : (code b < 256)%N.
Proof. apply N_ascii_bounded. Qed.

Lemma code_inj a b : code a = code b -> a = b.
Proof.
  intros H. rewrite <- (ascii_N_embedding a), <- (ascii_N_embedding b). by f_equal.
Qed.

Lemma between_spec lo hi b : between lo hi b = true <-> (lo <= code b <= hi)%N.
Proof. unfold between. rewrite andb_true_iff, !N.leb_le. done. Qed.

(** ** Slices and iteration *)

Definition len (s : string) : Z := Z.of_nat (String.length s).

Fixpoint all_bytes (p : ascii -> bool) (s : string) : bool :=
  match s with
  | EmptyString => true
  | String b r => p b && all_bytes p r
  end.

Definition first_byte (s : string) : option ascii :=
  match s with EmptyString => None | String b _ => Some b end.

Fixpoint last_byte (s : string) : option ascii :=
  match s with
  | EmptyString => None
  | String b EmptyString => Some b
  | String _ r => last_byte r
  end.

Definition is_empty (s : string) : bool := String.eqb s "".

(** [&s[a..b]] in bytes. *)
Definition slice (a b : nat) (s : string) : string := String.substring a (b - a) s.

(** [&s[n..]]. *)
Fixpoint slice_from (n : nat) (s : string) : string :=
  match n, s with
  | O, _ => s
  | S n', String _ r => slice_from n' r
  | S _, EmptyString => EmptyString
  end.

(** [&s[..n]]. *)
Fixpoint slice_to (n : nat) (s : string) : string :=
  match n, s with
  | S n', String b r => String b (slice_to n' r)
  | _, _ => EmptyString
  end.

Fixpoint map_bytes (f : ascii -> ascii) (s : string) : string :=
  match s with
  | EmptyString => EmptyString
  | String b r => String (f b) (map_bytes f r)
  end.

Definition to_ascii_lowercase (s : string) : string := map_bytes to_ascii_lowercase_byte s.

(** ** Splitting and stripping *)

Fixpoint split (sep : ascii) (s : string) : list string :=
  match s with
  | EmptyString => [EmptyString]
  | String b r =>
      if Ascii.eqb b sep then EmptyString :: split sep r
      else match split sep r with
           | h :: t => String b h :: t
           | [] => [String b EmptyString]
           end
  end.

Fixpoint split_once (sep : ascii) (s : string) : option (string * string) :=
  match s with
  | EmptyString => None
  | String b r =>
      if Ascii.eqb b sep then Some (EmptyString, r)
      else match split_once sep r with
           | Some (h, t) => Some (String b h, t)
           | None => None
           end
  end.

Fixpoint strip_prefix (p s : string) : option string :=
  match p, s with
  | EmptyString, _ => Some s
  | String a p', String b s' => if Ascii.eqb a b then strip_prefix p' s' else None
  | String _ _, EmptyString => None
  end.

Fixpoint strip_suffix (suf s : string) : option string :=
  if String.eqb s suf then Some EmptyString
  else match s with
       | EmptyString => None
       | String b r => option_map (String b) (strip_suffix suf r)
       end.

Definition starts_with (p s : string) : bool := is_some (strip_prefix p s).
Definition ends_with (suf s : string) : bool := is_some (strip_suffix suf s).

(** [s.find(needle)], a byte offset. *)
Fixpoint find_sub (needle s : string) : option nat :=
  if starts_with needle s then Some O
  else match s with
       | EmptyString => None
       | String _ r => option_map S (find_sub needle r)
       end.

Definition contains_sub (needle s : string) : bool := is_some (find_sub needle s).

Definition contains_byte (b : ascii) (s : string) : bool := negb (all_bytes (fun x => negb (Ascii.eqb x b)) s).

Fixpoint trim_end_matches (b : ascii) (s : string) : string :=
  match s with
  | EmptyString => EmptyString
  | String x r =>
      match trim_end_matches b r with
      | EmptyString => if Ascii.eqb x b then EmptyString else String x EmptyString
      | r' => String x r'
      end
  end.

(** [lines.concat()]. *)
Fixpoint concat_str (l : list string) : string :=
  match l with
  | [] => EmptyString
  | x :: xs => x +:+ concat_str xs
  end.

(** The text between separators ([join]). *)
Fixpoint join_str (sep : string) (l : list string) : string :=
  match l with
  | [] => EmptyString
  | [x] => x
  | x :: xs => x +:+ sep +:+ join_str sep xs
  end.

(** Decimal value of a text of ASCII digits ([parse::<u32>] and
    [parse::<i64>] on texts the callers have already checked). *)
Definition digit_value (b : ascii) : Z := Z.of_N (code b) - 48.

Fixpoint dec_value_acc (acc : Z) (s : string) : Z :=
  match s with
  | EmptyString => acc
  | String b r => dec_value_acc (10 * acc + digit_value b) r
  end.

Definition dec_value (s : string) : Z := dec_value_acc 0 s.

(** ** UTF-8 *)

Definition cont_byte (b : ascii) : bool := between 128 191 b.

(** Lead and second byte of a well-formed three byte sequence. *)
Definition lead3 (b0 b1 : ascii) : bool :=
  (between 224 224 b0 && between 160 191 b1)
  || (between 225 236 b0 && cont_byte b1)
  || (between 237 237 b0 && between 128 159 b1)
  || (between 238 239 b0 && cont_byte b1).

(** Lead and second byte of a well-formed four byte sequence. *)
Definition lead4 (b0 b1 : ascii) : bool :=
  (between 240 240 b0 && between 144 191 b1)
  || (between 241 243 b0 && cont_byte b1)
  || (between 244 244 b0 && between 128 143 b1).

(** The scalar values of a UTF-8 text, [None] when it is not UTF-8. *)
Fixpoint utf8_decode (s : string) : option (list N) :=
  match s with
  | EmptyString => Some []
  | String b0 r0 =>
      if between 0 127 b0 then option_map (cons (code b0)) (utf8_decode r0)
      else match r0 with
      | EmptyString => None
      | String b1 r1 =>
          if between 194 223 b0 && cont_byte b1
          then option_map (cons ((code b0 - 192) * 64 + (code b1 - 128))%N) (utf8_decode r1)
          else match r1 with
          | EmptyString => None
          | String b2 r2 =>
              if lead3 b0 b1 && cont_byte b2
              then option_map (cons ((code b0 - 224) * 4096 + (code b1 - 128) * 64
                                     + (code b2 - 128))%N) (utf8_decode r2)
              else match r2 with
              | EmptyString => None
              | String b3 r3 =>
                  if lead4 b0 b1 && cont_byte b2 && cont_byte b3
                  then option_map (cons ((code b0 - 240) * 262144 + (code b1 - 128) * 4096
                                         + (code b2 - 128) * 64 + (code b3 - 128))%N)
                         (utf8_decode r3)
                  else None
              end
          end
      end
  end.

Definition utf8_valid (s : string) : bool := is_some (utf8_decode s).

(** [str::chars]. *)
Definition chars (s : string) : list N := default [] (utf8_decode s).

Definition byte_of (n : N) : ascii := ascii_of_N n.

(** [String::push(char)]: the UTF-8 bytes of one scalar value. *)
Definition utf8_char (c : N) : string :=
  if (c <? 128)%N then String (byte_of c) ""
  else if (c <? 2048)%N then
    String (byte_of (192 + c / 64)) (String (byte_of (128 + c mod 64)) "")
  else if (c <? 65536)%N then
    String (byte_of (224 + c / 4096))
      (String (byte_of (128 + c / 64 mod 64)) (String (byte_of (128 + c mod 64)) ""))
  else
    String (byte_of (240 + c / 262144)) (String (byte_of (128 + c / 4096 mod 64))
      (String (byte_of (128 + c / 64 mod 64)) (String (byte_of (128 + c mod 64)) ""))).

Definition utf8_text (cs : list N) : string := concat_str (utf8_char <$> cs).

(** [str::encode_utf16]: the UTF-16 code units. *)
Definition utf16_units (c : N) : list N :=
  if (c <? 65536)%N then [c]
  else [55296 + (c - 65536) / 1024; 56320 + (c - 65536) mod 1024]%N.

Definition encode_utf16 (s : string) : list N := concat (utf16_units <$> chars s).

(** [Iterator::cmp] on code units. *)
Fixpoint cmp_units (a b : list N) : comparison :=
  match a, b with
  | [], [] => Eq
  | [], _ :: _ => Lt
  | _ :: _, [] => Gt
  | x :: a', y :: b' => match N.compare x y with Eq => cmp_units a' b' | c => c end
  end.

(** [char::is_whitespace]: the Unicode property White_Space. *)
Definition is_whitespace (c : N) : bool :=
  ((9 <=? c) && (c <=? 13) || (c =? 32) || (c =? 133) || (c =? 160) || (c =? 5760)
   || (8192 <=? c) && (c <=? 8202) || (c =? 8232) || (c =? 8233) || (c =? 8239)
   || (c =? 8287) || (c =? 12288))%N.

Fixpoint drop_while {A} (p : A -> bool) (l : list A) : list A :=
  match l with
  | [] => []
  | x :: xs => if p x then drop_while p xs else l
  end.

(** [str::trim]. *)
Definition trim (s : string) : string :=
  utf8_text (rev (drop_while is_whitespace (rev (drop_while is_whitespace (chars s))))).

(** ** Appending *)

Lemma str_app_nil_r s : s +:+ "" = s.
Proof. induction s as [|b s IH]; [done|]. change (String b (s +:+ "") = String b s). by rewrite IH. Qed.

Lemma str_app_assoc a b c : a +:+ b +:+ c = (a +:+ b) +:+ c.
Proof.
  induction a as [|x a IH]; [done|].
  change (String x (a +:+ b +:+ c) = String x ((a +:+ b) +:+ c)). by rewrite IH.
Qed.

Lemma str_app_nil_l s : "" +:+ s = s.
Proof. done. Qed.

Lemma str_app_cons b s t : String b s +:+ t = String b (s +:+ t).
Proof. done. Qed.

Lemma str_app_length a b : String.length (a +:+ b) = (String.length a + String.length b)%nat.
Proof.
  induction a as [|x a IH]; [done|]. rewrite str_app_cons. simpl. by rewrite IH.
Qed.

Lemma str_app_inv_len a1 a2 b1 b2 :
  String.length a1 = String.length a2 -> a1 +:+ b1 = a2 +:+ b2 -> a1 = a2 /\ b1 = b2.
Proof.
  revert a2; induction a1 as [|x a1 IH]; intros [|y a2]; simpl; try done.
  rewrite !str_app_cons. intros [= Hl] [= -> H]. by destruct (IH a2 Hl H) as [-> ->].
Qed.

Lemma concat_str_app l1 l2 : concat_str (l1 ++ l2) = concat_str l1 +:+ concat_str l2.
Proof.
  induction l1 as [|x l1 IH]; [done|]. cbn [app concat_str]. by rewrite IH, str_app_assoc.
Qed.

Lemma all_bytes_app p a b : all_bytes p (a +:+ b) = all_bytes p a && all_bytes p b.
Proof.
  induction a as [|x a IH]; [done|]. rewrite str_app_cons. cbn [all_bytes].
  by rewrite IH, andb_assoc.
Qed.

Lemma all_bytes_impl (p q : ascii -> bool) s :
  (forall b, p b = true -> q b = true) -> all_bytes p s = true -> all_bytes q s = true.
Proof.
  intros Hpq. induction s as [|b s IH]; [done|]. cbn [all_bytes].
  intros [Hb Hs]%andb_true_iff. by rewrite Hpq, IH.
Qed.

(** ** Splitting *)

Lemma split_cons_nonempty sep s : split sep s <> [].
Proof.
  induction s as [|b s IH]; [done|]. cbn [split].
  destruct (Ascii.eqb b sep); [done|]. by destruct (split sep s).
Qed.

(** Pieces of a split hold no separator. *)
Lemma split_no_sep sep s :
  Forall (fun p => all_bytes (fun b => negb (Ascii.eqb b sep)) p = true) (split sep s).
Proof.
  induction s as [|b s IH]; [by repeat constructor|]. cbn [split].
  destruct (Ascii.eqb b sep) eqn:Hb; [by constructor|].
  destruct (split sep s) as [|h t] eqn:Hs; [by apply split_cons_nonempty in Hs|]. inversion IH; subst.
  constructor; [|done]. cbn [all_bytes]. by rewrite Hb.
Qed.

(** Joining the pieces of a split gives the text back. *)
Lemma join_split sep s : join_str (String sep "") (split sep s) = s.
Proof.
  induction s as [|b s IH]; [done|]. cbn [split].
  destruct (Ascii.eqb_spec b sep) as [->|Hne].
  - destruct (split sep s) as [|h t] eqn:Hs; [by apply split_cons_nonempty in Hs|].
    change (String sep (join_str (String sep "") (h :: t)) = String sep s). by rewrite IH.
  - destruct (split sep s) as [|h t] eqn:Hs; [by apply split_cons_nonempty in Hs|].
    destruct t; cbn [join_str] in *.
    + by rewrite IH.
    + rewrite str_app_cons. by rewrite IH.
Qed.

Lemma strip_prefix_Some p s r : strip_prefix p s = Some r <-> s = p +:+ r.
Proof.
  revert s; induction p as [|a p IH]; intros s; cbn [strip_prefix].
  - change ("" +:+ r) with r. naive_solver.
  - rewrite str_app_cons. destruct s as [|b s]; [done|].
    destruct (Ascii.eqb_spec a b) as [->|Hne]; [|naive_solver].
    rewrite IH. naive_solver.
Qed.

Lemma strip_suffix_Some suf s r : strip_suffix suf s = Some r -> s = r +:+ suf.
Proof.
  revert r; induction s as [|b s IH]; intros r; cbn [strip_suffix].
  - destruct (String.eqb_spec "" suf) as [<-|]; [by intros [= <-]|done].
  - destruct (String.eqb_spec (String b s) suf) as [<-|].
    + by intros [= <-].
    + destruct (strip_suffix suf s) as [r'|]; [|done]. simpl. intros [= <-].
      by rewrite str_app_cons, <- (IH r').
Qed.

Lemma strip_suffix_app r suf : strip_suffix suf (r +:+ suf) = Some r.
Proof.
  induction r as [|b r IH].
  - change ("" +:+ suf) with suf. destruct suf; cbn [strip_suffix]; by rewrite String.eqb_refl.
  - rewrite str_app_cons. cbn [strip_suffix].
    destruct (String.eqb_spec (String b (r +:+ suf)) suf) as [He|_].
    + apply (f_equal String.length) in He. simpl in He. rewrite str_app_length in He. lia.
    + by rewrite IH.
Qed.

Lemma starts_with_spec p s : starts_with p s = true <-> exists r, s = p +:+ r.
Proof.
  unfold starts_with. destruct (strip_prefix p s) as [r|] eqn:Hs; simpl.
  - apply strip_prefix_Some in Hs. naive_solver.
  - split; [done|]. intros [r Hr]. apply strip_prefix_Some in Hr. congruence.
Qed.

Lemma ends_with_spec p s : ends_with p s = true <-> exists r, s = r +:+ p.
Proof.
  unfold ends_with. destruct (strip_suffix p s) as [r|] eqn:Hs; simpl.
  - apply strip_suffix_Some in Hs. naive_solver.
  - split; [done|]. intros [r ->]. by rewrite strip_suffix_app in Hs.
Qed.

Lemma find_sub_Some needle s n :
  find_sub needle s = Some n ->
  s = slice_to n s +:+ needle +:+ slice_from (n + String.length needle) s.
Proof.
  revert n; induction s as [|b s IH]; intros n; cbn [find_sub].
  - destruct (starts_with needle "") eqn:Hw; [|done]. intros [= <-].
    destruct needle; done.
  - destruct (starts_with needle (String b s)) eqn:Hw.
    + intros [= <-]. apply starts_with_spec in Hw as [r Hr]. rewrite Hr at 1.
      change (slice_to 0 (String b s)) with "". change (0 + ?x)%nat with x.
      change ("" +:+ ?x) with x. f_equal. rewrite Hr. clear.
      induction needle; [done|]. simpl. apply IHneedle.
    + destruct (find_sub needle s) as [m|] eqn:Hf; [|done]. intros [= <-].
      specialize (IH m eq_refl). cbn [slice_to Nat.add slice_from].
      rewrite str_app_cons. by rewrite <- IH.
Qed.

(** ** Byte order

    [Ord for str] compares bytes; [String.ltb] does the same. *)

Lemma ascii_compare_eq a b : Ascii.compare a b = Eq <-> a = b.
Proof.
  unfold Ascii.compare. rewrite N.compare_eq_iff. split; [apply code_inj|by intros ->].
Qed.

Lemma str_compare_refl s : String.compare s s = Eq.
Proof. induction s as [|b s IH]; [done|]. simpl. unfold Ascii.compare. by rewrite N.compare_refl. Qed.

Lemma str_ltb_spec a b : String.ltb a b = true <-> String.compare a b = Lt.
Proof. unfold String.ltb. destruct (String.compare a b); naive_solver. Qed.

Lemma str_ltb_irrefl s : String.ltb s s = false.
Proof. unfold String.ltb. by rewrite str_compare_refl. Qed.

Lemma str_ltb_trans a b c : String.ltb a b = true -> String.ltb b c = true -> String.ltb a c = true.
Proof.
  rewrite !str_ltb_spec.
  revert b c; induction a as [|x a IH]; intros [|y b] [|z c]; simpl; try done.
  unfold Ascii.compare.
  destruct (N.compare_spec (N_of_ascii x) (N_of_ascii y)) as [Hxy|Hxy|Hxy]; [|intros _|done];
    destruct (N.compare_spec (N_of_ascii y) (N_of_ascii z)) as [Hyz|Hyz|Hyz];
    try done.
  - rewrite Hxy, Hyz, N.compare_refl. apply IH.
  - intros _ _. rewrite Hxy. by apply N.compare_lt_iff in Hyz as ->.
  - intros _. rewrite <- Hyz. by apply N.compare_lt_iff in Hxy as ->.
  - intros _. assert (N_of_ascii x < N_of_ascii z)%N as ->%N.compare_lt_iff by lia. done.
Qed.

Lemma str_ltb_total a b : String.ltb a b = true \/ a = b \/ String.ltb b a = true.
Proof.
  rewrite !str_ltb_spec. rewrite (String.compare_antisym b a).
  destruct (String.compare a b) eqn:H; simpl; auto.
  apply String.compare_eq_iff in H. auto.
Qed.

Lemma str_ltb_asym a b : String.ltb a b = true -> String.ltb b a = false.
Proof.
  intros H. destruct (String.ltb b a) eqn:H2; [|done].
  pose proof (str_ltb_trans _ _ _ H H2) as H3. by rewrite str_ltb_irrefl in H3.
Qed.

Lemma str_ltb_ne a b : String.ltb a b = true -> a <> b.
Proof. intros H ->. by rewrite str_ltb_irrefl in H. Qed.

(** ** UTF-8 decoding

    [utf8_ind] is the induction principle on the characters of a valid text. *)

Lemma byte_of_code n b : n = code b -> byte_of n = b.
Proof. intros ->. apply ascii_N_embedding. Qed.

Lemma code_byte_of n : (n < 256)%N -> code (byte_of n) = n.
Proof. apply N_ascii_embedding. Qed.

(** Unicode scalar values. *)
Definition scalar (c : N) : Prop := (c < 55296 \/ 57344 <= c < 1114112)%N.

Ltac zdiv := Z.to_euclidean_division_equations; lia.

Lemma utf8_char_2 b0 b1 r :
  between 194 223 b0 = true -> cont_byte b1 = true ->
  let c := ((code b0 - 192) * 64 + (code b1 - 128))%N in
  scalar c /\ (128 <= c)%N /\ utf8_char c +:+ r = String b0 (String b1 r).
Proof.
  intros H0 H1 c. unfold cont_byte in *. rewrite between_spec in H0, H1. unfold scalar.
  split; [lia|]. split; [lia|]. unfold utf8_char.
  destruct (N.ltb_spec c 128); [lia|]. destruct (N.ltb_spec c 2048); [|lia].
  rewrite !str_app_cons. f_equal; [|f_equal]; try done; apply byte_of_code; zify; zdiv.
Qed.

Lemma utf8_char_3 b0 b1 b2 r :
  lead3 b0 b1 = true -> cont_byte b2 = true ->
  let c := ((code b0 - 224) * 4096 + (code b1 - 128) * 64 + (code b2 - 128))%N in
  scalar c /\ (128 <= c)%N /\ utf8_char c +:+ r = String b0 (String b1 (String b2 r)).
Proof.
  intros H0 H1 c. unfold lead3, cont_byte in *.
  rewrite !orb_true_iff, !andb_true_iff, !between_spec in H0.
  rewrite between_spec in H1. unfold scalar. split; [lia|]. split; [lia|]. unfold utf8_char.
  destruct (N.ltb_spec c 128); [lia|]. destruct (N.ltb_spec c 2048); [lia|].
  destruct (N.ltb_spec c 65536); [|lia].
  rewrite !str_app_cons. f_equal; [|f_equal; [|f_equal]]; try done; apply byte_of_code; zify; zdiv.
Qed.

Lemma utf8_char_4 b0 b1 b2 b3 r :
  lead4 b0 b1 = true -> cont_byte b2 = true -> cont_byte b3 = true ->
  let c := ((code b0 - 240) * 262144 + (code b1 - 128) * 4096
            + (code b2 - 128) * 64 + (code b3 - 128))%N in
  scalar c /\ (128 <= c)%N /\ utf8_char c +:+ r = String b0 (String b1 (String b2 (String b3 r))).
Proof.
  intros H0 H1 H2 c. unfold lead4, cont_byte in *.
  rewrite !orb_true_iff, !andb_true_iff, !between_spec in H0.
  rewrite between_spec in H1, H2. unfold scalar. split; [lia|]. split; [lia|]. unfold utf8_char.
  destruct (N.ltb_spec c 128); [lia|]. destruct (N.ltb_spec c 2048); [lia|].
  destruct (N.ltb_spec c 65536); [lia|].
  rewrite !str_app_cons.
  f_equal; [|f_equal; [|f_equal; [|f_equal]]]; try done; apply byte_of_code; zify; zdiv.
Qed.

Lemma utf8_char_1 b r : between 0 127 b = true -> utf8_char (code b) +:+ r = String b r.
Proof.
  rewrite between_spec. intros H. unfold utf8_char. destruct (N.ltb_spec (code b) 128); [|lia].
  rewrite str_app_cons. change ("" +:+ r) with r. f_equal. by apply byte_of_code.
Qed.

(** One decoded character: its bytes, and what remains. *)
Lemma utf8_decode_step s cs :
  utf8_decode s = Some cs ->
  s = "" /\ cs = [] \/
  exists c cs' s', cs = c :: cs' /\ scalar c /\ s = utf8_char c +:+ s' /\
    utf8_decode s' = Some cs' /\ (String.length s' < String.length s)%nat.
Proof.
  destruct s as [|b0 r0]; cbn [utf8_decode]; [intros [= <-]; by left|]. right.
  destruct (between 0 127 b0) eqn:H0.
  { destruct (utf8_decode r0) as [cs'|] eqn:Hd; [|done]. simpl in *. simplify_eq.
    exists (code b0), cs', r0. rewrite utf8_char_1 by done. apply between_spec in H0.
    unfold scalar. split_and!; try done; try lia; simpl; lia. }
  destruct r0 as [|b1 r1]; [done|].
  destruct (between 194 223 b0 && cont_byte b1) eqn:H1.
  { apply andb_true_iff in H1 as [H1 H1'].
    destruct (utf8_decode r1) as [cs'|] eqn:Hd; [|done]. simpl in *. simplify_eq.
    destruct (utf8_char_2 b0 b1 r1 H1 H1') as (Hs & _ & He).
    eexists _, cs', r1. split_and!; [done|exact Hs|by rewrite He|done|simpl; lia]. }
  destruct r1 as [|b2 r2]; [done|].
  destruct (lead3 b0 b1 && cont_byte b2) eqn:H2.
  { apply andb_true_iff in H2 as [H2 H2'].
    destruct (utf8_decode r2) as [cs'|] eqn:Hd; [|done]. simpl in *. simplify_eq.
    destruct (utf8_char_3 b0 b1 b2 r2 H2 H2') as (Hs & _ & He).
    eexists _, cs', r2. split_and!; [done|exact Hs|by rewrite He|done|simpl; lia]. }
  destruct r2 as [|b3 r3]; [done|].
  destruct (lead4 b0 b1 && cont_byte b2 && cont_byte b3) eqn:H3; [|done].
  apply andb_true_iff in H3 as [[H3 H3']%andb_true_iff H3''].
  destruct (utf8_decode r3) as [cs'|] eqn:Hd; [|done]. simpl in *. simplify_eq.
  destruct (utf8_char_4 b0 b1 b2 b3 r3 H3 H3' H3'') as (Hs & _ & He).
  eexists _, cs', r3. split_and!; [done|exact Hs|by rewrite He|done|simpl; lia].
Qed.

Lemma utf8_ind (P : string -> list N -> Prop) :
  P "" [] ->
  (forall c cs s, scalar c -> utf8_decode s = Some cs -> P s cs ->
     P (utf8_char c +:+ s) (c :: cs)) ->
  forall s cs, utf8_decode s = Some cs -> P s cs.
Proof.
  intros Hnil Hcons s. induction s as [s IH] using (induction_ltof1 _ String.length).
  intros cs [[-> ->]|(c & cs' & s' & -> & Hc & -> & Hd & Hl)]%utf8_decode_step; [done|].
  apply Hcons; [done..|]. by apply IH.
Qed.

(** Decoding then writing every character gives the text back. *)
Lemma utf8_text_chars s : utf8_valid s = true -> utf8_text (chars s) = s.
Proof.
  unfold utf8_valid, chars. destruct (utf8_decode s) as [cs|] eqn:Hd; [|done]. intros _. simpl.
  revert s cs Hd. apply (utf8_ind (fun s cs => utf8_text cs = s)); [done|].
  intros c cs s _ _ IH. unfold utf8_text in *. cbn [fmap list_fmap concat_str]. by rewrite IH.
Qed.

(** Writing the characters one by one is writing the bytes one by one, when
    the writer leaves every non-ASCII character unchanged. *)
Fixpoint concat_bytes (g : ascii -> string) (s : string) : string :=
  match s with
  | EmptyString => EmptyString
  | String b r => g b +:+ concat_bytes g r
  end.

Lemma concat_bytes_app g a b : concat_bytes g (a +:+ b) = concat_bytes g a +:+ concat_bytes g b.
Proof.
  induction a as [|x a IH]; [done|]. rewrite str_app_cons. cbn [concat_bytes].
  by rewrite IH, str_app_assoc.
Qed.

Lemma utf8_char_high c : scalar c -> (128 <= c)%N ->
  all_bytes (fun b => between 128 255 b) (utf8_char c) = true.
Proof.
  unfold scalar. intros Hc Hge. unfold utf8_char.
  destruct (N.ltb_spec c 128); [lia|].
  destruct (N.ltb_spec c 2048); [|destruct (N.ltb_spec c 65536)]; cbn [all_bytes];
    rewrite ?andb_true_iff, ?between_spec, ?code_byte_of; zify; zdiv.
Qed.

Lemma concat_bytes_id g s :
  (forall b, between 128 255 b = true -> g b = String b "") ->
  all_bytes (fun b => between 128 255 b) s = true -> concat_bytes g s = s.
Proof.
  intros Hg. induction s as [|b s IH]; [done|]. cbn [all_bytes concat_bytes].
  intros [Hb Hs]%andb_true_iff. by rewrite Hg, IH.
Qed.

Lemma concat_chars_bytes (f : N -> string) (g : ascii -> string) s :
  (forall c, (128 <= c)%N -> f c = utf8_char c) ->
  (forall b, between 128 255 b = true -> g b = String b "") ->
  (forall b, between 0 127 b = true -> g b = f (code b)) ->
  utf8_valid s = true -> concat_str (f <$> chars s) = concat_bytes g s.
Proof.
  intros Hf Hg Hfg. unfold utf8_valid, chars.
  destruct (utf8_decode s) as [cs|] eqn:Hd; [|done]. intros _. simpl.
  revert s cs Hd. apply (utf8_ind (fun s cs => concat_str (f <$> cs) = concat_bytes g s)); [done|].
  intros c cs s Hc _ IH. cbn [fmap list_fmap concat_str]. rewrite concat_bytes_app. f_equal; [|exact IH].
  destruct (N.lt_ge_cases c 128) as [Hlt|Hge].
  - assert (c = code (byte_of c)) as Hcode by (rewrite code_byte_of; lia).
    unfold utf8_char. destruct (N.ltb_spec c 128); [|lia]. cbn [concat_bytes].
    rewrite str_app_nil_r, Hfg; [by rewrite <- Hcode|]. apply between_spec. lia.
  - rewrite Hf by done. symmetry. apply concat_bytes_id; [done|]. by apply utf8_char_high.
Qed.

Lemma ascii_utf8_valid s : all_bytes (fun b => between 0 127 b) s = true -> utf8_valid s = true.
Proof.
  unfold utf8_valid. induction s as [|b s IH]; [done|]. cbn [all_bytes utf8_decode].
  intros [Hb Hs]%andb_true_iff. rewrite Hb. specialize (IH Hs).
  by destruct (utf8_decode s).
Qed.

(** ** Decimal text of non-negative integers ([Display], [{:0n}]) *)

Definition digit_byte (d : Z) : ascii := ascii_of_N (Z.to_N (48 + d)).

(** [fuel] bounds the number of digits; [dec_string] supplies enough. *)
Fixpoint dec_digits (fuel : nat) (n : Z) (acc : string) : string :=
  match fuel with
  | O => acc
  | S f =>
      let acc' := String (digit_byte (n mod 10)) acc in
      if n <? 10 then acc' else dec_digits f (n / 10) acc'
  end.

Definition dec_string (n : Z) : string := dec_digits (S (Z.to_nat (Z.log2 n))) n "".

(** Zero padding to a width ([{:02}], [{:04}]). *)
Fixpoint repeat_byte (b : ascii) (n : nat) : string :=
  match n with O => "" | S n' => String b (repeat_byte b n') end.

Definition pad_zero (width : nat) (s : string) : string :=
  repeat_byte "0" (width - String.length s) +:+ s.

(** [write!(out, "{byte:02x}")]. *)
Definition hex_digit (d : N) : ascii := ascii_of_N (if (d <? 10)%N then 48 + d else 87 + d).
Definition hex_byte (b : ascii) : string :=
  String (hex_digit (code b / 16)) (String (hex_digit (code b mod 16)) "").

Lemma digit_byte_code d : 0 <= d < 10 -> code (digit_byte d) = Z.to_N (48 + d).
Proof. intros H. unfold digit_byte, code. apply N_ascii_embedding. lia. Qed.

Lemma digit_byte_digit d : 0 <= d < 10 -> is_ascii_digit (digit_byte d) = true.
Proof. intros H. apply between_spec. rewrite digit_byte_code by done. lia. Qed.

Lemma digit_byte_value d : 0 <= d < 10 -> digit_value (digit_byte d) = d.
Proof. intros H. unfold digit_value. rewrite digit_byte_code by done. lia. Qed.

Lemma dec_value_acc_app a s t : dec_value_acc a (s +:+ t) = dec_value_acc (dec_value_acc a s) t.
Proof. revert a; induction s as [|b s IH]; intros a; [done|]. rewrite str_app_cons. apply IH. Qed.

(** The digits written for [n]: they read back as [n], are not empty and have
    no superfluous leading zero. *)
Definition decimal_of (n : Z) (p : string) : Prop :=
  dec_value p = n /\ all_bytes is_ascii_digit p = true /\ p <> "" /\
  (first_byte p = Some "0"%char -> p = "0").

Lemma digit_byte_zero d : 0 <= d < 10 -> digit_byte d = "0"%char -> d = 0.
Proof. intros Hd Hz. apply (f_equal digit_value) in Hz. rewrite digit_byte_value in Hz by done. done. Qed.

Lemma dec_digits_spec fuel n acc :
  0 <= n < 2 ^ Z.of_nat fuel -> (0 < fuel)%nat ->
  exists p, dec_digits fuel n acc = p +:+ acc /\ decimal_of n p.
Proof.
  revert n acc; induction fuel as [|fuel IH]; intros n acc Hn Hf; [lia|]. cbn [dec_digits].
  assert (0 <= n mod 10 < 10) as Hm by (apply Z.mod_pos_bound; lia).
  destruct (Z.ltb_spec n 10) as [Hlt|Hge].
  - exists (String (digit_byte (n mod 10)) ""). split; [done|]. rewrite Z.mod_small by lia.
    unfold decimal_of, dec_value. cbn [dec_value_acc all_bytes first_byte].
    rewrite digit_byte_value, digit_byte_digit by lia. split_and!; try done; try lia.
    intros [= Hz]. by rewrite Hz.
  - destruct fuel as [|fuel]; [simpl in Hn; lia|].
    destruct (IH (n / 10) (String (digit_byte (n mod 10)) acc)) as (p & Hp & Hv & Hd & Hne & Hz).
    { rewrite Nat2Z.inj_succ, Z.pow_succ_r in Hn by lia.
      pose proof (Z.pow_pos_nonneg 2 (Z.of_nat (S fuel)) ltac:(lia) ltac:(lia)).
      split; [apply Z.div_pos; lia|]. apply Z.div_lt_upper_bound; lia. }
    { lia. }
    exists (p +:+ String (digit_byte (n mod 10)) ""). split.
    { rewrite Hp. by rewrite <- str_app_assoc. }
    unfold decimal_of, dec_value in *. rewrite dec_value_acc_app, Hv, all_bytes_app, Hd.
    cbn [dec_value_acc all_bytes]. rewrite digit_byte_value, digit_byte_digit by done.
    split_and!; [|done| |].
    + pose proof (Z.div_mod n 10). lia.
    + destruct p; [done|]. by rewrite str_app_cons.
    + destruct p as [|b p]; [done|]. rewrite str_app_cons. simpl. intros [= ->].
      specialize (Hz eq_refl). simplify_eq. change (dec_value_acc 0 "0") with 0 in Hv.
      assert (1 <= n / 10) by (apply Z.div_le_lower_bound; lia). lia.
Qed.

Lemma dec_string_spec n : 0 <= n -> decimal_of n (dec_string n).
Proof.
  intros Hn. unfold dec_string.
  destruct (dec_digits_spec (S (Z.to_nat (Z.log2 n))) n "") as (p & -> & Hp).
  - rewrite Nat2Z.inj_succ, Z2Nat.id by apply Z.log2_nonneg.
    destruct (Z.eq_dec n 0) as [->|]; [done|]. pose proof (Z.log2_spec n). lia.
  - lia.
  - by rewrite str_app_nil_r.
Qed.

(** ** Encoding then decoding one character *)

Lemma between_false lo hi b : (code b < lo \/ hi < code b)%N -> between lo hi b = false.
Proof.
  intros H. destruct (between lo hi b) eqn:Hb; [|done]. apply between_spec in Hb. lia.
Qed.

Lemma utf8_decode_1 b r : between 0 127 b = true ->
  utf8_decode (String b r) = option_map (cons (code b)) (utf8_decode r).
Proof. intros H. cbn [utf8_decode]. by rewrite H. Qed.

Lemma utf8_decode_2 b0 b1 r : between 194 223 b0 = true -> cont_byte b1 = true ->
  utf8_decode (String b0 (String b1 r)) =
  option_map (cons ((code b0 - 192) * 64 + (code b1 - 128))%N) (utf8_decode r).
Proof.
  intros H0 H1. remember (String b1 r) as s eqn:Hs. cbn [utf8_decode]. rewrite between_false.
  - subst s. by rewrite H0, H1.
  - apply between_spec in H0. lia.
Qed.

Lemma utf8_decode_3 b0 b1 b2 r : between 224 239 b0 = true -> lead3 b0 b1 = true ->
  cont_byte b2 = true ->
  utf8_decode (String b0 (String b1 (String b2 r))) =
  option_map (cons ((code b0 - 224) * 4096 + (code b1 - 128) * 64 + (code b2 - 128))%N)
    (utf8_decode r).
Proof.
  intros H0 H1 H2. apply between_spec in H0.
  remember (String b2 r) as s eqn:Hs. remember (String b1 s) as s' eqn:Hs'.
  cbn [utf8_decode]. rewrite between_false by lia. subst s'.
  rewrite between_false by lia. cbn [andb]. subst s. by rewrite H1, H2.
Qed.

Lemma utf8_decode_4 b0 b1 b2 b3 r : between 240 244 b0 = true -> lead4 b0 b1 = true ->
  cont_byte b2 = true -> cont_byte b3 = true ->
  utf8_decode (String b0 (String b1 (String b2 (String b3 r)))) =
  option_map (cons ((code b0 - 240) * 262144 + (code b1 - 128) * 4096
                    + (code b2 - 128) * 64 + (code b3 - 128))%N) (utf8_decode r).
Proof.
  intros H0 H1 H2 H3. apply between_spec in H0.
  remember (String b3 r) as s eqn:Hs. remember (String b2 s) as s' eqn:Hs'.
  remember (String b1 s') as s'' eqn:Hs''.
  cbn [utf8_decode]. rewrite between_false by lia. subst s''.
  rewrite between_false by lia. cbn [andb]. subst s'.
  replace (lead3 b0 b1) with false.
  2:{ symmetry. unfold lead3. by rewrite !(between_false _ _ b0) by lia. }
  cbn [andb]. subst s. by rewrite H1, H2, H3.
Qed.

Lemma utf8_decode_char c s : scalar c ->
  utf8_decode (utf8_char c +:+ s) = option_map (cons c) (utf8_decode s).
Proof.
  unfold scalar. intros Hc. unfold utf8_char.
  assert (forall a, code (byte_of (128 + a mod 64)) = 128 + a mod 64)%N as Hcode.
  { intros a. apply code_byte_of. zify; zdiv. }
  assert (forall a, cont_byte (byte_of (128 + a mod 64)) = true) as Hcont.
  { intros a. apply between_spec. rewrite Hcode. zify; zdiv. }
  destruct (N.ltb_spec c 128) as [H1|H1]; [|destruct (N.ltb_spec c 2048) as [H2|H2];
    [|destruct (N.ltb_spec c 65536) as [H3|H3]]];
    rewrite !str_app_cons; change ("" +:+ s) with s.
  - rewrite utf8_decode_1; [|apply between_spec]; rewrite code_byte_of; try done; lia.
  - assert (2 <= c / 64 < 32)%N as Hq by (zify; zdiv).
    rewrite utf8_decode_2; [|apply between_spec; rewrite code_byte_of; lia|done].
    rewrite Hcode, code_byte_of by lia. do 2 f_equal. zify; zdiv.
  - assert (0 <= c / 4096 < 16)%N as Hq by (zify; zdiv).
    rewrite utf8_decode_3; [|apply between_spec; rewrite code_byte_of; lia| |done].
    + rewrite !Hcode, code_byte_of by lia. do 2 f_equal. zify; zdiv.
    + unfold lead3, cont_byte. rewrite !orb_true_iff, !andb_true_iff, !between_spec, Hcode.
      rewrite code_byte_of by lia. zify; zdiv.
  - assert (0 <= c / 262144 < 5)%N as Hq by (zify; zdiv).
    rewrite utf8_decode_4; [|apply between_spec; rewrite code_byte_of; lia| |done|done].
    + rewrite !Hcode, code_byte_of by lia. do 2 f_equal. zify; zdiv.
    + unfold lead4, cont_byte. rewrite !orb_true_iff, !andb_true_iff, !between_spec, Hcode.
      rewrite code_byte_of by lia. zify; zdiv.
Qed.

Lemma utf8_valid_app a b : utf8_valid a = true -> utf8_valid b = true -> utf8_valid (a +:+ b) = true.
Proof.
  unfold utf8_valid. destruct (utf8_decode a) as [cs|] eqn:Ha; [|done]. intros _.
  revert a cs Ha. apply (utf8_ind (fun a _ => is_some (utf8_decode b) = true ->
    is_some (utf8_decode (a +:+ b)) = true)); [done|].
  intros c cs s Hc _ IH Hb. specialize (IH Hb). rewrite <- str_app_assoc, utf8_decode_char by done.
  by destruct (utf8_decode (s +:+ b)).
Qed.

Lemma utf8_valid_char c : scalar c -> utf8_valid (utf8_char c) = true.
Proof.
  intros Hc. unfold utf8_valid. rewrite <- (str_app_nil_r (utf8_char c)).
  by rewrite utf8_decode_char.
Qed.

Lemma utf8_valid_concat l : Forall (fun s => utf8_valid s = true) l -> utf8_valid (concat_str l) = true.
Proof. induction 1; [done|]. by apply utf8_valid_app. Qed.

Lemma utf8_valid_join sep l :
  utf8_valid sep = true -> Forall (fun s => utf8_valid s = true) l ->
  utf8_valid (join_str sep l) = true.
Proof.
  intros Hsep. induction 1 as [|x l Hx Hl IH]; [done|]. destruct l as [|y l]; [done|].
  change (utf8_valid (x +:+ sep +:+ join_str sep (y :: l)) = true). by repeat apply utf8_valid_app.
Qed.

Lemma chars_scalar s : Forall scalar (chars s).
Proof.
  unfold chars. destruct (utf8_decode s) as [cs|] eqn:Hd; [|constructor]. simpl.
  revert s cs Hd. apply (utf8_ind (fun _ cs => Forall scalar cs)); [constructor|]. by constructor.
Qed.

(** ** Numbers from text *)

(** [value.parse()] on a non-empty run of ASCII digits. *)
Definition parse_digits (s : string) : option Z :=
  if negb (is_empty s) && all_bytes is_ascii_digit s then Some (dec_value s) else None.

(** [bytes.iter().enumerate()] tested byte by byte. *)
Fixpoint all_indexed (p : nat -> ascii -> bool) (index : nat) (s : string) : bool :=
  match s with
  | EmptyString => true
  | String b r => p index b && all_indexed p (S index) r
  end.

(** [split_last] and [split_first]. *)
Fixpoint split_last {A} (l : list A) : option (A * list A) :=
  match l with
  | [] => None
  | x :: rest =>
      match split_last rest with
      | Some (last, front) => Some (last, x :: front)
      | None => Some (x, [])
      end
  end.

Definition split_first {A} (l : list A) : option (A * list A) :=
  match l with [] => None | x :: rest => Some (x, rest) end.

Definition lenl {A} (l : list A) : Z := Z.of_nat (List.length l).

(** Splitting a joined text gives the pieces back. *)
Lemma split_app_sep sep a s :
  all_bytes (fun b => negb (Ascii.eqb b sep)) a = true ->
  split sep (a +:+ String sep s) = a :: split sep s.
Proof.
  induction a as [|b a IH]; cbn [all_bytes].
  - intros _. change ("" +:+ String sep s) with (String sep s). cbn [split].
    by rewrite Ascii.eqb_refl.
  - intros [Hb Ha]%andb_true_iff. rewrite str_app_cons. cbn [split].
    apply negb_true_iff in Hb. by rewrite Hb, IH.
Qed.

Lemma split_single sep a :
  all_bytes (fun b => negb (Ascii.eqb b sep)) a = true -> split sep a = [a].
Proof.
  induction a as [|b a IH]; cbn [all_bytes]; [done|].
  intros [Hb Ha]%andb_true_iff. cbn [split]. apply negb_true_iff in Hb. by rewrite Hb, IH.
Qed.

Lemma split_join sep l :
  Forall (fun p => all_bytes (fun b => negb (Ascii.eqb b sep)) p = true) l -> l <> [] ->
  split sep (join_str (String sep "") l) = l.
Proof.
  induction 1 as [|x l Hx Hl IH]; intros Hne; [done|]. destruct l as [|y l].
  - by apply split_single.
  - change (split sep (x +:+ String sep (join_str (String sep "") (y :: l))) = x :: y :: l).
    rewrite split_app_sep by done. by rewrite IH.
Qed.

Lemma str_app_inj_r a b s : a +:+ s = b +:+ s -> a = b.
Proof.
  intros H. assert (String.length a = String.length b) as Hl.
  { apply (f_equal String.length) in H. rewrite !str_app_length in H. lia. }
  by apply (str_app_inv_len a b s s) in H as [-> _].
Qed.

Lemma lenl_cons {A} (x : A) l : lenl (x :: l) = lenl l + 1.
Proof. unfold lenl. change (List.length (x :: l)) with (S (List.length l)). lia. Qed.

Lemma lenl_nonneg {A} (l : list A) : 0 <= lenl l.
Proof. unfold lenl. lia. Qed.

Lemma lenl_app {A} (l1 l2 : list A) : lenl (l1 ++ l2) = lenl l1 + lenl l2.
Proof. unfold lenl. rewrite length_app. lia. Qed.

(** [text.chars().take(n).collect()]. *)
Definition take_chars (n : nat) (s : string) : string := utf8_text (take n (chars s)).

(** [str::parse::<u64>()]: an optional [+], then digits of a value that fits. *)
Definition parse_u64 (s : string) : option Z :=
  let digits := match s with String "+" rest => rest | _ => s end in
  match parse_digits digits with
  | Some n => if n <=? u64_max then Some n else None
  | None => None
  end.

Lemma parse_u64_dec n : 0 <= n <= u64_max -> parse_u64 (dec_string n) = Some n.
Proof.
  intros [H0 H1]. destruct (dec_string_spec n H0) as (Hv & Hd & Hne & _). unfold parse_u64.
  replace (match dec_string n with String "+" rest => rest | _ => dec_string n end) with (dec_string n).
  - unfold parse_digits. rewrite Hd. destruct (dec_string n); [done|]. cbn [is_empty negb andb].
    rewrite Hv. cbn. destruct (Z.leb_spec n u64_max); [done|lia].
  - destruct (dec_string n) as [|b r]; [done|]. cbn [all_bytes] in Hd. apply andb_true_iff in Hd as [Hb _].
    destruct b as [[] [] [] [] [] [] [] []]; try reflexivity; discriminate Hb.
Qed.

(** ** Slices *)

Lemma slice_app n s : slice_to n s +:+ slice_from n s = s.
Proof.
  revert s; induction n as [|n IH]; intros [|b s]; cbn [slice_to slice_from]; try done.
  by rewrite str_app_cons, IH.
Qed.

Lemma slice_at a b : slice_to (String.length a) (a +:+ b) = a /\ slice_from (String.length a) (a +:+ b) = b.
Proof.
  induction a as [|x a [IH1 IH2]]; [by destruct b|]. rewrite str_app_cons.
  cbn [String.length slice_to slice_from]. by rewrite IH1, IH2.
Qed.

Lemma substring_slice n m s : String.substring n m s = slice_to m (slice_from n s).
Proof.
  revert n m. induction s as [|b s IH]; intros n m; [by destruct n, m|].
  destruct n as [|n]; [|apply IH]. destruct m as [|m]; [done|]. cbn. f_equal. rewrite IH. by destruct s.
Qed.

Lemma slice_to_length n s : String.length (slice_to n s) = Nat.min n (String.length s).
Proof. revert s. induction n as [|n IH]; intros [|b s]; cbn; try done. by rewrite IH. Qed.

Lemma slice_to_all n s : (String.length s <= n)%nat -> slice_to n s = s.
Proof. revert s. induction n as [|n IH]; intros [|b s]; cbn; intros H; try done; [lia|]. rewrite IH; [done|lia]. Qed.

Lemma len_app a b : len (a +:+ b) = len a + len b.
Proof. unfold len. rewrite str_app_length. lia. Qed.

Lemma len_nonneg s : 0 <= len s.
Proof. unfold len. lia. Qed.
