(* ===== verification/BTree.v ===== *)
(** * Ordered maps

    [BTreeMap<String, V>] (and [serde_json::Map], which is one here: the
    crate's [preserve_order] feature is off) as its entries in ascending byte
    order of the keys.  [bsorted] is the representation invariant; every
    operation keeps it, and two maps with the same lookups are equal. *)

From S2P Require Import Prelude RustStr.

Definition bmap (V : Type) : Type := list (string * V).

Section ops.
Context {V : Type}.
Implicit Types (m : bmap V) (k : string) (v : V).

Fixpoint bget (k : string) (m : bmap V) : option V :=
  match m with
  | [] => None
  | (k', v) :: r => if String.eqb k k' then Some v else bget k r
  end.

Fixpoint binsert (k : string) (v : V) (m : bmap V) : bmap V :=
  match m with
  | [] => [(k, v)]
  | (k', v') :: r =>
      if String.eqb k k' then (k, v) :: r
      else if String.ltb k k' then (k, v) :: (k', v') :: r
      else (k', v') :: binsert k v r
  end.

Fixpoint bremove (k : string) (m : bmap V) : bmap V :=
  match m with
  | [] => []
  | (k', v') :: r => if String.eqb k k' then r else (k', v') :: bremove k r
  end.

Definition bkeys (m : bmap V) : list string := fst <$> m.
Definition bvalues (m : bmap V) : list V := snd <$> m.
Definition blen (m : bmap V) : Z := Z.of_nat (length m).
Definition bcontains (k : string) (m : bmap V) : bool := is_some (bget k m).

(** Inserting entries one by one, later entries replacing earlier ones. *)
Definition bof_list (l : list (string * V)) : bmap V :=
  fold_left (fun m kv => binsert kv.1 kv.2 m) l [].

Definition key_lt (a b : string * V) : Prop := String.ltb a.1 b.1 = true.
Definition bsorted (m : bmap V) : Prop := StronglySorted key_lt m.

Lemma bsorted_nil : bsorted [].
Proof. constructor. Qed.

Lemma bsorted_cons k v m :
  bsorted ((k, v) :: m) <-> bsorted m /\ Forall (fun e => String.ltb k e.1 = true) m.
Proof. split; [inversion 1; subst; done|intros [? ?]; by constructor]. Qed.

Lemma bget_In k v m : bget k m = Some v -> (k, v) ∈ m.
Proof.
  induction m as [|[k' v'] m IH]; simpl; [done|].
  destruct (String.eqb_spec k k') as [->|]; [intros [= ->]|]; set_solver.
Qed.

Lemma bget_None k m : bget k m = None <-> k ∉ bkeys m.
Proof.
  unfold bkeys. induction m as [|[k' v'] m IH]; simpl; [set_solver|].
  destruct (String.eqb_spec k k') as [->|]; set_solver.
Qed.

Lemma bget_above k m : Forall (fun e => String.ltb k e.1 = true) m -> bget k m = None.
Proof.
  intros HF. induction m as [|[k' v'] m IH]; simpl; [done|]. inversion HF; subst; simpl in *.
  destruct (String.eqb_spec k k') as [->|]; [|by apply IH].
  by rewrite str_ltb_irrefl in *.
Qed.

Lemma In_bget k v m : bsorted m -> (k, v) ∈ m -> bget k m = Some v.
Proof.
  induction m as [|[k' v'] m IH]; simpl; [set_solver|].
  intros [Hm HF]%bsorted_cons [He|Hin]%elem_of_cons.
  - simplify_eq. by rewrite String.eqb_refl.
  - destruct (String.eqb_spec k k') as [->|]; [|by apply IH].
    rewrite Forall_forall in HF. specialize (HF _ Hin). simpl in HF.
    by rewrite str_ltb_irrefl in HF.
Qed.

Lemma bsorted_NoDup m : bsorted m -> NoDup (bkeys m).
Proof.
  unfold bkeys. induction m as [|[k v] m IH]; simpl; [constructor|].
  intros [Hm HF]%bsorted_cons. constructor; [|auto].
  intros ([k' v'] & Hk & Hin)%list_elem_of_fmap. simpl in Hk. subst.
  rewrite Forall_forall in HF. specialize (HF _ Hin). simpl in HF. by rewrite str_ltb_irrefl in HF.
Qed.

Lemma binsert_Forall (P : string * V -> Prop) k v m :
  P (k, v) -> Forall P m -> Forall P (binsert k v m).
Proof.
  intros Hk. induction m as [|[k' v'] m IH]; simpl; intros HF; [by repeat constructor|].
  inversion HF; subst. destruct (String.eqb k k'); [by constructor|].
  destruct (String.ltb k k'); repeat (constructor; auto).
Qed.

Lemma binsert_sorted k v m : bsorted m -> bsorted (binsert k v m).
Proof.
  induction m as [|[k' v'] m IH]; simpl.
  { intros _. by repeat constructor. }
  intros [Hm HF]%bsorted_cons. destruct (String.eqb_spec k k') as [->|Hne].
  { by apply bsorted_cons. }
  destruct (String.ltb k k') eqn:Hlt.
  - apply bsorted_cons. split; [by apply bsorted_cons|]. constructor; [done|].
    eapply Forall_impl; [exact HF|]. simpl. intros e. by apply str_ltb_trans.
  - apply bsorted_cons. split; [auto|]. apply binsert_Forall; [|done]. simpl.
    destruct (str_ltb_total k k') as [?|[?|?]]; congruence.
Qed.

Lemma bget_insert k k' v m :
  bget k (binsert k' v m) = if String.eqb k k' then Some v else bget k m.
Proof.
  induction m as [|[k1 v1] m IH]; simpl; [done|].
  destruct (String.eqb_spec k' k1) as [->|Hne]; simpl.
  - by destruct (String.eqb k k1).
  - destruct (String.ltb k' k1); simpl; [done|]. rewrite IH.
    destruct (String.eqb_spec k k1) as [->|]; [|done].
    by destruct (String.eqb_spec k1 k') as [->|].
Qed.

Lemma bremove_Forall (P : string * V -> Prop) k m : Forall P m -> Forall P (bremove k m).
Proof.
  induction m as [|[k' v'] m IH]; simpl; intros HF; [done|]. inversion HF; subst.
  destruct (String.eqb k k'); [done|]. constructor; auto.
Qed.

Lemma bremove_sorted k m : bsorted m -> bsorted (bremove k m).
Proof.
  induction m as [|[k' v'] m IH]; simpl; [done|].
  intros [Hm HF]%bsorted_cons. destruct (String.eqb k k'); [done|].
  apply bsorted_cons. split; [auto|]. by apply bremove_Forall.
Qed.

Lemma bget_remove k k' m : bsorted m ->
  bget k (bremove k' m) = if String.eqb k k' then None else bget k m.
Proof.
  induction m as [|[k1 v1] m IH]; simpl.
  { by destruct (String.eqb k k'). }
  intros [Hm HF]%bsorted_cons. destruct (String.eqb_spec k' k1) as [->|Hne]; simpl.
  - destruct (String.eqb_spec k k1) as [->|]; [|done]. by apply bget_above.
  - rewrite IH by done. destruct (String.eqb_spec k k1) as [->|]; [|done].
    destruct (String.eqb_spec k1 k'); congruence.
Qed.

(** Extensionality. *)
Lemma bmap_eq m1 m2 :
  bsorted m1 -> bsorted m2 -> (forall k, bget k m1 = bget k m2) -> m1 = m2.
Proof.
  revert m2; induction m1 as [|[k1 v1] m1 IH]; intros m2.
  { intros _ _ Hg. destruct m2 as [|[k2 v2] m2]; [done|].
    specialize (Hg k2). simpl in Hg. by rewrite String.eqb_refl in Hg. }
  intros Hs1 Hs2 Hg. destruct m2 as [|[k2 v2] m2].
  { specialize (Hg k1). simpl in Hg. by rewrite String.eqb_refl in Hg. }
  apply bsorted_cons in Hs1 as [Hs1 HF1]. apply bsorted_cons in Hs2 as [Hs2 HF2].
  assert (k1 = k2) as <-.
  { destruct (str_ltb_total k1 k2) as [Hlt|[He|Hlt]]; [|done|].
    - pose proof (Hg k1) as Hk. simpl in Hk. rewrite String.eqb_refl in Hk.
      destruct (String.eqb_spec k1 k2) as [->|]; [by rewrite str_ltb_irrefl in Hlt|].
      rewrite bget_above in Hk; [done|]. eapply Forall_impl; [exact HF2|].
      intros e. by apply str_ltb_trans.
    - pose proof (Hg k2) as Hk. simpl in Hk. rewrite String.eqb_refl in Hk.
      destruct (String.eqb_spec k2 k1) as [->|]; [by rewrite str_ltb_irrefl in Hlt|].
      rewrite bget_above in Hk; [done|]. eapply Forall_impl; [exact HF1|].
      intros e. by apply str_ltb_trans. }
  pose proof (Hg k1) as Hk. simpl in Hk. rewrite String.eqb_refl in Hk. injection Hk as ->.
  f_equal. apply IH; [done..|]. intros k. specialize (Hg k). simpl in Hg.
  destruct (String.eqb_spec k k1) as [He|]; [|done].
  rewrite He. by rewrite !bget_above.
Qed.

Lemma fold_insert_sorted (l : list (string * V)) m :
  bsorted m -> bsorted (fold_left (fun m kv => binsert kv.1 kv.2 m) l m).
Proof. revert m; induction l as [|[k v] l IH]; intros m Hm; simpl; [done|]. by apply IH, binsert_sorted. Qed.

Lemma bof_list_sorted l : bsorted (bof_list l).
Proof. apply fold_insert_sorted, bsorted_nil. Qed.

Lemma fold_insert_get (l : list (string * V)) m k :
  NoDup (l.*1) ->
  bget k (fold_left (fun m kv => binsert kv.1 kv.2 m) l m) =
  match bget k l with Some v => Some v | None => bget k m end.
Proof.
  revert m; induction l as [|[k' v'] l IH]; intros m Hnd; simpl; [done|].
  cbn [fmap list_fmap] in Hnd. apply NoDup_cons in Hnd as [Hni Hnd].
  rewrite IH by done. rewrite bget_insert.
  destruct (String.eqb_spec k k') as [->|]; [|done].
  by rewrite (proj2 (bget_None k' l)).
Qed.

Lemma bget_perm (l1 l2 : bmap V) k :
  NoDup (l1.*1) -> l1 ≡ₚ l2 -> bget k l1 = bget k l2.
Proof.
  intros Hnd Hp. assert (NoDup (l2.*1)) as Hnd2 by (by rewrite <- Hp).
  assert (forall la lb : bmap V, NoDup (la.*1) -> NoDup (lb.*1) -> la ≡ₚ lb ->
    forall v, bget k la = Some v -> bget k lb = Some v) as Hgen.
  { clear. intros la lb Ha Hb Hp v Hg%bget_In. rewrite Hp in Hg.
    clear la Ha Hp. induction lb as [|[k' v'] lb IH]; simpl; [set_solver|].
    cbn [fmap list_fmap] in Hb. apply NoDup_cons in Hb as [Hni Hnd].
    apply elem_of_cons in Hg as [He|Hin].
    - simplify_eq. by rewrite String.eqb_refl.
    - destruct (String.eqb_spec k k') as [->|]; [|by apply IH].
      exfalso. apply Hni. apply list_elem_of_fmap. by exists (k', v). }
  destruct (bget k l1) eqn:H1.
  - symmetry. by apply (Hgen l1 l2).
  - destruct (bget k l2) eqn:H2; [|done]. symmetry in Hp.
    by rewrite (Hgen l2 l1 Hnd2 Hnd Hp _ H2) in H1.
Qed.

(** Inserting the entries of a map in any order rebuilds the map. *)
Lemma bof_list_perm (l : list (string * V)) m : bsorted m -> l ≡ₚ m -> bof_list l = m.
Proof.
  intros Hm Hp. apply bmap_eq; [apply bof_list_sorted|done|]. intros k.
  assert (NoDup (l.*1)) as Hnd by (rewrite Hp; by apply bsorted_NoDup).
  unfold bof_list. rewrite fold_insert_get by done. simpl.
  rewrite (bget_perm l m) by done. by destruct (bget k m).
Qed.

Lemma bof_list_id m : bsorted m -> bof_list m = m.
Proof. intros Hm. by apply bof_list_perm. Qed.

Lemma bcontains_false k m : bcontains k m = false <-> bget k m = None.
Proof. unfold bcontains. destruct (bget k m); simpl; naive_solver. Qed.

Lemma bcontains_true k m : bcontains k m = true <-> exists v, bget k m = Some v.
Proof. unfold bcontains. destruct (bget k m); simpl; naive_solver. Qed.

Lemma blen_insert k v m : bsorted m ->
  blen (binsert k v m) = if bcontains k m then blen m else blen m + 1.
Proof.
  unfold blen, bcontains. induction m as [|[k' v'] m IH]; simpl; [lia|].
  intros [Hm HF]%bsorted_cons. specialize (IH Hm).
  destruct (String.eqb_spec k k') as [->|]; simpl; [done|].
  destruct (String.ltb k k') eqn:Hlt; simpl.
  - rewrite bget_above; simpl; [lia|]. eapply Forall_impl; [exact HF|].
    intros e. by apply str_ltb_trans.
  - destruct (bget k m); simpl in *; lia.
Qed.

End ops.
