(* ===== verification/PlanCode.v ===== *)
(** * Error codes

    The [PlanCode] enum of src/signed_plan/mod.rs, its contract strings and
    the parser the runner's failures go through. *)

From S2P Require Import Prelude.

Module PlanCode.

Inductive t : Type :=
| Parse | Version | SpecMismatch | Target | Author | SigAlg | KeyUnknown | KeyRevoked
| SigInvalid | RuleUnknown | RuleRevoked | Lifetime | NotYetValid | Expired | Replay
| BaseMismatch | ForceForbidden | TouchIdRequired | KindForbidden | KeyScope | RuleWindow
| RuleScope | RuleLimit | RuleEvidence | RuleSpec | Bootstrap | ExecPrecondition
| TrustStoreInvalid | StoreQuarantined | Internal | PlanRequired | PlanNotAdmitted
| PlanWindow | PlanAction | PlanArgs | PlanConsumed | ScopeMismatch
| RollbackTargetUnknown | NotSupportedYet | Cancelled | ShellLimit | ChannelMissing.

#[global] Instance t_eq_dec : EqDecision t.
Proof. solve_decision. Defined.

Definition as_str (c : t) : string :=
  match c with
  | Parse => "E_PARSE"
  | Version => "E_VERSION"
  | SpecMismatch => "E_SPEC_MISMATCH"
  | Target => "E_TARGET"
  | Author => "E_AUTHOR"
  | SigAlg => "E_SIG_ALG"
  | KeyUnknown => "E_KEY_UNKNOWN"
  | KeyRevoked => "E_KEY_REVOKED"
  | SigInvalid => "E_SIG_INVALID"
  | RuleUnknown => "E_RULE_UNKNOWN"
  | RuleRevoked => "E_RULE_REVOKED"
  | Lifetime => "E_LIFETIME"
  | NotYetValid => "E_NOT_YET_VALID"
  | Expired => "E_EXPIRED"
  | Replay => "E_REPLAY"
  | BaseMismatch => "E_BASE_MISMATCH"
  | ForceForbidden => "E_FORCE_FORBIDDEN"
  | TouchIdRequired => "E_TOUCH_ID_REQUIRED"
  | KindForbidden => "E_KIND_FORBIDDEN"
  | KeyScope => "E_KEY_SCOPE"
  | RuleWindow => "E_RULE_WINDOW"
  | RuleScope => "E_RULE_SCOPE"
  | RuleLimit => "E_RULE_LIMIT"
  | RuleEvidence => "E_RULE_EVIDENCE"
  | RuleSpec => "E_RULE_SPEC"
  | Bootstrap => "E_BOOTSTRAP"
  | ExecPrecondition => "E_EXEC_PRECONDITION"
  | TrustStoreInvalid => "trust_store_invalid"
  | StoreQuarantined => "STORE_QUARANTINED"
  | Internal => "E_INTERNAL"
  | PlanRequired => "E_PLAN_REQUIRED"
  | PlanNotAdmitted => "E_PLAN_NOT_ADMITTED"
  | PlanWindow => "E_PLAN_WINDOW"
  | PlanAction => "E_PLAN_ACTION"
  | PlanArgs => "E_PLAN_ARGS"
  | PlanConsumed => "E_PLAN_CONSUMED"
  | ScopeMismatch => "E_SCOPE_MISMATCH"
  | RollbackTargetUnknown => "E_ROLLBACK_TARGET_UNKNOWN"
  | NotSupportedYet => "E_NOT_SUPPORTED_YET"
  | Cancelled => "E_CANCELLED"
  | ShellLimit => "E_SHELL_LIMIT"
  | ChannelMissing => "CHANNEL_MISSING"
  end.

Definition ALL_CODES : list t :=
  [Parse; Version; SpecMismatch; Target; Author; SigAlg; KeyUnknown; KeyRevoked; SigInvalid;
   RuleUnknown; RuleRevoked; Lifetime; NotYetValid; Expired; Replay; BaseMismatch;
   ForceForbidden; TouchIdRequired; KindForbidden; KeyScope; RuleWindow; RuleScope; RuleLimit;
   RuleEvidence; RuleSpec; Bootstrap; ExecPrecondition; TrustStoreInvalid; StoreQuarantined;
   Internal; PlanRequired; PlanNotAdmitted; PlanWindow; PlanAction; PlanArgs; PlanConsumed;
   ScopeMismatch; RollbackTargetUnknown; NotSupportedYet; Cancelled; ShellLimit;
   ChannelMissing].

Definition parse (code : string) : option t :=
  find_first (fun c => String.eqb (as_str c) code) ALL_CODES.

(** Every code is listed in [ALL_CODES], so [parse] can find it. *)
Lemma ALL_CODES_complete c : c ∈ ALL_CODES.
Proof. destruct c; apply list_elem_of_In; simpl; tauto. Qed.

(** [parse] inverts [as_str]: no two codes share a contract string and none is
    missing from the table; and it accepts nothing else. *)
Theorem parse_as_str code c : parse code = Some c <-> code = as_str c.
Proof.
  split.
  - unfold parse. intros [_ H]%find_first_Some. by apply String.eqb_eq in H.
  - intros ->. by destruct c; vm_compute.
Qed.

End PlanCode.

(** A fallible step of plan verification. *)
Abbreviation plan_result := (outcome PlanCode.t).
