(* ===== verification/Errors.v ===== *)
(** * Error reasons

    src/local/errors.rs: what a plan code is on the wire, the [ErrorReason] of
    proto/agent/v2/common.proto, the gRPC status and its two trailers. *)

From S2P Require Import Prelude RustStr PlanCode.

Module ErrorReason.

Inductive t : Type :=
| Unspecified | SignatureInvalid | KeyUntrusted | KeyRevoked | PlanExpired | PlanNotYetValid | PlanReplayed
| PlanWrongServer | PlanMalformed | ActionNotPermitted | StandingRuleMismatch | TrustSetEmpty
| CursorExpired | ResumeTokenExpired | LimitExceeded | RateLimited | CapabilityMissing | Conflict
| ClockSkew | AgentQuarantined | ProtocolVersion | PlanVersion | PlanAuthority | BaseMismatch
| ForceForbidden | TouchIdRequired | RuleRejected | BootstrapRejected | ExecPrecondition
| TrustStoreInvalid | KeyScope | SpecMismatch | StoreQuarantined | Internal | ScopeMismatch | PlanWindow
| PlanConsumed | PlanNotAdmitted | RollbackTargetUnknown | RuleUnknown | RuleScope | NotSupportedYet
| ArtifactRejected | ScheduleRejected | BuildFailed | Cancelled | ChannelMissing | Validation
| ReaderMissing.

#[global] Instance t_eq_dec : EqDecision t.
Proof. solve_decision. Defined.

(** [as i32]. *)
Definition number (r : t) : Z :=
  match r with
  | Unspecified => 0 | SignatureInvalid => 1 | KeyUntrusted => 2 | KeyRevoked => 3 | PlanExpired => 4
  | PlanNotYetValid => 5 | PlanReplayed => 6 | PlanWrongServer => 7 | PlanMalformed => 8
  | ActionNotPermitted => 9 | StandingRuleMismatch => 10 | TrustSetEmpty => 11 | CursorExpired => 12
  | ResumeTokenExpired => 13 | LimitExceeded => 14 | RateLimited => 15 | CapabilityMissing => 16
  | Conflict => 17 | ClockSkew => 18 | AgentQuarantined => 19 | ProtocolVersion => 20 | PlanVersion => 21
  | PlanAuthority => 22 | BaseMismatch => 23 | ForceForbidden => 24 | TouchIdRequired => 25
  | RuleRejected => 26 | BootstrapRejected => 27 | ExecPrecondition => 28 | TrustStoreInvalid => 29
  | KeyScope => 30 | SpecMismatch => 31 | StoreQuarantined => 32 | Internal => 33 | ScopeMismatch => 34
  | PlanWindow => 35 | PlanConsumed => 36 | PlanNotAdmitted => 37 | RollbackTargetUnknown => 38
  | RuleUnknown => 39 | RuleScope => 40 | NotSupportedYet => 41 | ArtifactRejected => 42
  | ScheduleRejected => 43 | BuildFailed => 44 | Cancelled => 45 | ChannelMissing => 46 | Validation => 47
  | ReaderMissing => 48
  end.

(** [as_str_name]. *)
Definition as_str_name (r : t) : string :=
  "ERROR_REASON_" +:+ match r with
  | Unspecified => "UNSPECIFIED" | SignatureInvalid => "SIGNATURE_INVALID" | KeyUntrusted => "KEY_UNTRUSTED"
  | KeyRevoked => "KEY_REVOKED" | PlanExpired => "PLAN_EXPIRED" | PlanNotYetValid => "PLAN_NOT_YET_VALID"
  | PlanReplayed => "PLAN_REPLAYED" | PlanWrongServer => "PLAN_WRONG_SERVER"
  | PlanMalformed => "PLAN_MALFORMED" | ActionNotPermitted => "ACTION_NOT_PERMITTED"
  | StandingRuleMismatch => "STANDING_RULE_MISMATCH" | TrustSetEmpty => "TRUST_SET_EMPTY"
  | CursorExpired => "CURSOR_EXPIRED" | ResumeTokenExpired => "RESUME_TOKEN_EXPIRED"
  | LimitExceeded => "LIMIT_EXCEEDED" | RateLimited => "RATE_LIMITED"
  | CapabilityMissing => "CAPABILITY_MISSING" | Conflict => "CONFLICT" | ClockSkew => "CLOCK_SKEW"
  | AgentQuarantined => "AGENT_QUARANTINED" | ProtocolVersion => "PROTOCOL_VERSION"
  | PlanVersion => "PLAN_VERSION" | PlanAuthority => "PLAN_AUTHORITY" | BaseMismatch => "BASE_MISMATCH"
  | ForceForbidden => "FORCE_FORBIDDEN" | TouchIdRequired => "TOUCH_ID_REQUIRED"
  | RuleRejected => "RULE_REJECTED" | BootstrapRejected => "BOOTSTRAP_REJECTED"
  | ExecPrecondition => "EXEC_PRECONDITION" | TrustStoreInvalid => "TRUST_STORE_INVALID"
  | KeyScope => "KEY_SCOPE" | SpecMismatch => "SPEC_MISMATCH" | StoreQuarantined => "STORE_QUARANTINED"
  | Internal => "INTERNAL" | ScopeMismatch => "SCOPE_MISMATCH" | PlanWindow => "PLAN_WINDOW"
  | PlanConsumed => "PLAN_CONSUMED" | PlanNotAdmitted => "PLAN_NOT_ADMITTED"
  | RollbackTargetUnknown => "ROLLBACK_TARGET_UNKNOWN" | RuleUnknown => "RULE_UNKNOWN"
  | RuleScope => "RULE_SCOPE" | NotSupportedYet => "NOT_SUPPORTED_YET"
  | ArtifactRejected => "ARTIFACT_REJECTED" | ScheduleRejected => "SCHEDULE_REJECTED"
  | BuildFailed => "BUILD_FAILED" | Cancelled => "CANCELLED" | ChannelMissing => "CHANNEL_MISSING"
  | Validation => "VALIDATION" | ReaderMissing => "READER_MISSING"
  end.

End ErrorReason.

Definition reason_for (code : PlanCode.t) : ErrorReason.t :=
  match code with
  | PlanCode.Parse => ErrorReason.PlanMalformed
  | PlanCode.SpecMismatch => ErrorReason.SpecMismatch
  | PlanCode.Version => ErrorReason.PlanVersion
  | PlanCode.Author => ErrorReason.PlanAuthority
  | PlanCode.Target => ErrorReason.PlanWrongServer
  | PlanCode.SigAlg | PlanCode.SigInvalid => ErrorReason.SignatureInvalid
  | PlanCode.KeyUnknown => ErrorReason.KeyUntrusted
  | PlanCode.KeyRevoked => ErrorReason.KeyRevoked
  | PlanCode.Lifetime | PlanCode.Expired => ErrorReason.PlanExpired
  | PlanCode.NotYetValid => ErrorReason.PlanNotYetValid
  | PlanCode.Replay => ErrorReason.PlanReplayed
  | PlanCode.BaseMismatch => ErrorReason.BaseMismatch
  | PlanCode.ForceForbidden => ErrorReason.ForceForbidden
  | PlanCode.TouchIdRequired => ErrorReason.TouchIdRequired
  | PlanCode.KindForbidden => ErrorReason.ActionNotPermitted
  | PlanCode.KeyScope => ErrorReason.KeyScope
  | PlanCode.RuleUnknown => ErrorReason.RuleUnknown
  | PlanCode.RuleScope => ErrorReason.RuleScope
  | PlanCode.RuleRevoked | PlanCode.RuleWindow | PlanCode.RuleLimit | PlanCode.RuleEvidence | PlanCode.RuleSpec => ErrorReason.RuleRejected
  | PlanCode.Bootstrap => ErrorReason.BootstrapRejected
  | PlanCode.ExecPrecondition => ErrorReason.ExecPrecondition
  | PlanCode.TrustStoreInvalid => ErrorReason.TrustStoreInvalid
  | PlanCode.StoreQuarantined => ErrorReason.StoreQuarantined
  | PlanCode.Internal => ErrorReason.Internal
  | PlanCode.ScopeMismatch => ErrorReason.ScopeMismatch
  | PlanCode.PlanWindow => ErrorReason.PlanWindow
  | PlanCode.PlanConsumed => ErrorReason.PlanConsumed
  | PlanCode.PlanNotAdmitted => ErrorReason.PlanNotAdmitted
  | PlanCode.RollbackTargetUnknown => ErrorReason.RollbackTargetUnknown
  | PlanCode.NotSupportedYet => ErrorReason.NotSupportedYet
  | PlanCode.Cancelled => ErrorReason.Cancelled
  | PlanCode.ShellLimit => ErrorReason.LimitExceeded
  | PlanCode.ChannelMissing => ErrorReason.ChannelMissing
  | PlanCode.PlanRequired | PlanCode.PlanAction | PlanCode.PlanArgs => ErrorReason.Internal
  end.

(** [tonic::Code], the codes used here. *)
Inductive Code : Type :=
| InvalidArgument | NotFound | AlreadyExists | PermissionDenied | ResourceExhausted | FailedPrecondition
| Aborted | OutOfRange | Unimplemented | InternalCode | Unavailable.

Definition grpc_code_for (reason : ErrorReason.t) : Code :=
  match reason with
  | ErrorReason.PlanMalformed | ErrorReason.PlanVersion | ErrorReason.SpecMismatch => InvalidArgument
  | ErrorReason.SignatureInvalid | ErrorReason.KeyUntrusted | ErrorReason.KeyRevoked | ErrorReason.KeyScope
  | ErrorReason.ActionNotPermitted | ErrorReason.PlanAuthority | ErrorReason.ForceForbidden
  | ErrorReason.TouchIdRequired | ErrorReason.RuleRejected | ErrorReason.RuleUnknown | ErrorReason.RuleScope
  | ErrorReason.BootstrapRejected | ErrorReason.StandingRuleMismatch => PermissionDenied
  | ErrorReason.PlanReplayed => AlreadyExists
  | ErrorReason.BaseMismatch | ErrorReason.Conflict => Aborted
  | ErrorReason.CursorExpired | ErrorReason.ResumeTokenExpired => OutOfRange
  | ErrorReason.LimitExceeded | ErrorReason.RateLimited => ResourceExhausted
  | ErrorReason.CapabilityMissing | ErrorReason.NotSupportedYet => Unimplemented
  | ErrorReason.Internal => InternalCode
  | _ => FailedPrecondition
  end.

Definition message_for (code : PlanCode.t) : string :=
  match code with
  | PlanCode.StoreQuarantined =>
      "admissions.db was recreated; admissions resume after the 20-minute quarantine"
  | PlanCode.TrustStoreInvalid => "the trusted-keys file is invalid"
  | PlanCode.Internal => "the agent could not read or write its store"
  | PlanCode.Bootstrap => "the plan is not a valid server.add bootstrap for this server"
  | PlanCode.ExecPrecondition => "the plan cannot execute in the server's current state"
  | PlanCode.ChannelMissing => "channel_missing: an alert rule names a channel this server does not hold"
  | _ => "the signed plan was rejected"
  end.

(** [tonic::Status] with the two trailers of a plan failure. *)
Record Status := { st_code : Code; st_message : string; st_reason : string; st_plan_error : option string }.

Definition plan_status (code : PlanCode.t) : Status :=
  let reason := reason_for code in
  {| st_code := grpc_code_for reason;
     st_message := PlanCode.as_str code +:+ ": " +:+ message_for code;
     st_reason := ErrorReason.as_str_name reason;
     st_plan_error := match code with
       | PlanCode.StoreQuarantined | PlanCode.ChannelMissing => None
       | _ => Some (PlanCode.as_str code)
       end |}.

(** ** The status names the code *)

(** The code a client reads back: the plan-error trailer, or the reason. *)
Definition code_of_status (s : Status) : option PlanCode.t :=
  match st_plan_error s with
  | Some text => PlanCode.parse text
  | None => find_first (fun c => String.eqb (ErrorReason.as_str_name (reason_for c)) (st_reason s))
              [PlanCode.StoreQuarantined; PlanCode.ChannelMissing]
  end.

Lemma code_of_plan_status code : code_of_status (plan_status code) = Some code.
Proof. by destruct code. Qed.

(** The numbers of the wire enum are those of the proto file, without a
    collision. *)
Lemma number_inj a b : ErrorReason.number a = ErrorReason.number b -> a = b.
Proof. destruct a; destruct b; (reflexivity || discriminate). Qed.
