(* ===== verification/IpAddr.v ===== *)
(** * Internet addresses

    [std::net::IpAddr]'s [FromStr] and [Display], which the webhook intake
    uses to key its budget: the parser of the standard library, which takes an
    IPv4 address in dotted decimal without leading zeros or an IPv6 address
    with at most one [::] and possibly an IPv4 tail, and the printer, which
    writes one text for each address. *)

From S2P Require Import Prelude RustStr.

Inductive IpAddr : Type := V4 (octets : list Z) | V6 (groups : list Z).

(** ** Parsing

    A parser takes the input and gives a value and the rest; when it fails the
    input is as before. *)
Definition parser (A : Type) : Type := string -> option (A * string).

Definition read_given_char (c : ascii) : parser unit := fun s =>
  match s with
  | String b rest => if Ascii.eqb b c then Some (tt, rest) else None
  | "" => None
  end.

Definition digit_in (radix : Z) (b : ascii) : option Z :=
  if is_ascii_digit b then Some (Z.of_N (code b) - 48)
  else if (radix =? 16) && between 97 102 b then Some (Z.of_N (code b) - 87)
  else if (radix =? 16) && between 65 70 b then Some (Z.of_N (code b) - 55)
  else None.

(** At most [max] digits; a number above [limit] fails the parser. *)
Fixpoint read_digits (radix limit : Z) (max : nat) (count : nat) (value : Z) (s : string)
    : option (Z * nat * string) :=
  match s with
  | "" => Some (value, count, s)
  | String b rest =>
      match digit_in radix b with
      | None => Some (value, count, s)
      | Some d =>
          let value := value * radix + d in
          match max with
          | O => None
          | S max => if limit <? value then None else read_digits radix limit max (S count) value rest
          end
      end
  end.

Definition read_number (radix limit : Z) (max : nat) (allow_zero_prefix : bool) : parser Z := fun s =>
  match read_digits radix limit max 0 0 s with
  | None => None
  | Some (value, count, rest) =>
      if (count =? 0)%nat then None
      else if negb allow_zero_prefix && (match s with String "0" _ => true | _ => false end) && (1 <? count)%nat then None
      else Some (value, rest)
  end.

(** [read_separator]: the separator comes before every item but the first. *)
Definition read_separator {A} (sep : ascii) (index : nat) (p : parser A) : parser A := fun s =>
  match index with
  | O => p s
  | S _ => match read_given_char sep s with Some (_, rest) => p rest | None => None end
  end.

Definition read_octet (index : nat) : parser Z := read_separator "." index (read_number 10 255 3 false).

Definition read_ipv4 : parser (list Z) := fun s =>
  match read_octet 0 s with
  | None => None
  | Some (a, s) =>
      match read_octet 1 s with
      | None => None
      | Some (b, s) =>
          match read_octet 2 s with
          | None => None
          | Some (c, s) =>
              match read_octet 3 s with
              | None => None
              | Some (d, s) => Some ([a; b; c; d], s)
              end
          end
      end
  end.

(** The two groups of an IPv4 tail. *)
Definition tail_groups (octets : list Z) : list Z :=
  match octets with
  | [a; b; c; d] => [a * 256 + b; c * 256 + d]
  | _ => []
  end.

(** [read_groups] from group [index]: the groups read, whether they end with
    an IPv4 tail, and the rest; [left] groups may still be read. *)
Fixpoint read_groups (left index : nat) (s : string) : list Z * bool * string :=
  match left with
  | O => ([], false, s)
  | S left' =>
      match (if (1 <? left)%nat then read_separator ":" index read_ipv4 s else None) with
      | Some (octets, rest) => (tail_groups octets, true, rest)
      | None =>
          match read_separator ":" index (read_number 16 65535 4 true) s with
          | None => ([], false, s)
          | Some (g, rest) =>
              let '(groups, v4, rest) := read_groups left' (S index) rest in (g :: groups, v4, rest)
          end
      end
  end.

Definition read_ipv6 : parser (list Z) := fun s =>
  let '(head, v4, rest) := read_groups 8 0 s in
  if (length head =? 8)%nat then Some (head, rest)
  else if v4 then None
  else match read_given_char ":" rest with
  | None => None
  | Some (_, rest) =>
      match read_given_char ":" rest with
      | None => None
      | Some (_, rest) =>
          let '(tail, _, rest) := read_groups (7 - length head) 0 rest in
          Some (head ++ repeat 0 (8 - length head - length tail) ++ tail, rest)
      end
  end.

(** [s.parse::<IpAddr>().ok()]: the whole text is one address. *)
Definition parse_ip (s : string) : option IpAddr :=
  match (match read_ipv4 s with
         | Some (octets, rest) => Some (V4 octets, rest)
         | None => match read_ipv6 s with Some (groups, rest) => Some (V6 groups, rest) | None => None end
         end) with
  | Some (ip, "") => Some ip
  | _ => None
  end.

(** ** Printing *)

Definition print_ipv4 (octets : list Z) : string := join_str "." (dec_string <$> octets).

(** [{:x}]. *)
Fixpoint hex_digits (fuel : nat) (n : Z) (acc : string) : string :=
  match fuel with
  | O => acc
  | S fuel =>
      let acc := String (hex_digit (Z.to_N (n mod 16))) acc in
      if n <? 16 then acc else hex_digits fuel (n / 16) acc
  end.

Definition hex_text (n : Z) : string := hex_digits 4 n "".

(** The first longest run of zero groups: its start and length. *)
Fixpoint longest_zeros (groups : list Z) (index : nat) (current longest : nat * nat) : nat * nat :=
  match groups with
  | [] => longest
  | g :: rest =>
      if g =? 0 then
        let current := ((if (snd current =? 0)%nat then index else fst current), S (snd current)) in
        longest_zeros rest (S index) current (if (snd longest <? snd current)%nat then current else longest)
      else longest_zeros rest (S index) (0%nat, 0%nat) longest
  end.

Definition print_groups (groups : list Z) : string := join_str ":" (hex_text <$> groups).

Definition print_ipv6 (groups : list Z) : string :=
  match groups with
  | [0; 0; 0; 0; 0; 65535; ab; cd] =>
      "::ffff:" +:+ print_ipv4 [ab / 256; ab mod 256; cd / 256; cd mod 256]
  | _ =>
      let '(start, count) := longest_zeros groups 0 (0%nat, 0%nat) (0%nat, 0%nat) in
      if (1 <? count)%nat then
        print_groups (take start groups) +:+ "::" +:+ print_groups (drop (start + count) groups)
      else print_groups groups
  end.

Definition print_ip (ip : IpAddr) : string :=
  match ip with V4 octets => print_ipv4 octets | V6 groups => print_ipv6 groups end.

(** ** Examples *)

Example parse_v4 : parse_ip "203.0.113.7" = Some (V4 [203; 0; 113; 7]).
Proof. reflexivity. Qed.

Example parse_v4_zeros : parse_ip "203.0.113.007" = None /\ parse_ip "203.0.113.256" = None /\ parse_ip "1.2.3.4 " = None.
Proof. split_and!; reflexivity. Qed.

Example parse_v6 : parse_ip "2001:DB8:0:0::1" = Some (V6 [0x2001; 0xdb8; 0; 0; 0; 0; 0; 1]).
Proof. reflexivity. Qed.

Example print_v6 :
  print_ip (V6 [0x2001; 0xdb8; 0; 0; 0; 0; 0; 1]) = "2001:db8::1" /\
  print_ip (V6 [0; 0; 0; 0; 0; 0; 0; 0]) = "::" /\
  print_ip (V6 [0; 0; 0; 0; 0; 65535; 0x0a00; 1]) = "::ffff:10.0.0.1" /\
  print_ip (V6 [1; 0; 0; 2; 0; 0; 0; 3]) = "1:0:0:2::3".
Proof. split_and!; reflexivity. Qed.

Example spellings_agree :
  option_map print_ip (parse_ip "::FFFF:10.0.0.1") = Some "::ffff:10.0.0.1" /\
  option_map print_ip (parse_ip "0:0:0:0:0:0:0:1") = Some "::1" /\
  option_map print_ip (parse_ip "1:2:3:4:5:6:7::") = Some "1:2:3:4:5:6:7:0".
Proof. split_and!; reflexivity. Qed.
