(* ===== verification/Json.v ===== *)
(** * JSON values

    [serde_json::Value] as the code uses it: the data type, its accessors and
    [PartialEq].  Objects are ordered maps (see BTree.v).  What the crate's
    deserializer shows to a visitor is a [Raw] tree, in which an object keeps
    its members in document order, duplicates included; the deserializer
    itself is third party code and is the field of the class [JsonReader]. *)

From S2P Require Import Prelude RustStr BTree.

Inductive number : Type :=
| PosInt (n : Z)
| NegInt (n : Z)
| Float (bits : Z).

Inductive Value : Type :=
| VNull
| VBool (b : bool)
| VNumber (n : number)
| VString (s : string)
| VArray (items : list Value)
| VObject (map : list (string * Value)).

#[global] Instance number_eq_dec : EqDecision number.
Proof. solve_decision. Defined.

(** Structural induction through arrays and objects. *)
Section value_ind.
Variable P : Value -> Prop.
Hypothesis Hnull : P VNull.
Hypothesis Hbool : forall b, P (VBool b).
Hypothesis Hnumber : forall n, P (VNumber n).
Hypothesis Hstring : forall s, P (VString s).
Hypothesis Harray : forall l, Forall P l -> P (VArray l).
Hypothesis Hobject : forall m, Forall (fun e => P e.2) m -> P (VObject m).

Fixpoint value_ind' (v : Value) : P v :=
  match v with
  | VNull => Hnull
  | VBool b => Hbool b
  | VNumber n => Hnumber n
  | VString s => Hstring s
  | VArray l => Harray l ((fix go l : Forall P l := match l with
      | [] => Forall_nil_2 P
      | x :: r => Forall_cons_2 P x r (value_ind' x) (go r) end) l)
  | VObject m => Hobject m ((fix go m : Forall (fun e => P e.2) m := match m with
      | [] => Forall_nil_2 _
      | e :: r => Forall_cons_2 _ e r (value_ind' e.2) (go r) end) m)
  end.
End value_ind.

(** [PartialEq for Value]. *)
Fixpoint value_eqb (a b : Value) : bool :=
  match a, b with
  | VNull, VNull => true
  | VBool x, VBool y => Bool.eqb x y
  | VNumber x, VNumber y => bool_decide (x = y)
  | VString x, VString y => String.eqb x y
  | VArray x, VArray y =>
      (fix go x y := match x, y with
       | [], [] => true
       | u :: x', v :: y' => value_eqb u v && go x' y'
       | _, _ => false end) x y
  | VObject x, VObject y =>
      (fix go x y := match x, y with
       | [], [] => true
       | (k, u) :: x', (l, v) :: y' => String.eqb k l && value_eqb u v && go x' y'
       | _, _ => false end) x y
  | _, _ => false
  end.

Lemma value_eqb_eq a b : value_eqb a b = true <-> a = b.
Proof.
  revert b; induction a as [|x|x|x|x IH|x IH] using value_ind'; intros b; destruct b; simpl; try done.
  - rewrite eqb_true_iff. naive_solver.
  - rewrite bool_decide_eq_true. naive_solver.
  - rewrite String.eqb_eq. naive_solver.
  - transitivity (x = items); [|naive_solver].
    revert items; induction IH as [|u x Hu Hx IHx]; intros [|v y]; try done.
    rewrite andb_true_iff, Hu, IHx. naive_solver.
  - transitivity (x = map); [|naive_solver].
    revert map; induction IH as [|[k u] x Hu Hx IHx]; intros [|[l v] y]; try done.
    simpl in Hu. rewrite !andb_true_iff, String.eqb_eq, Hu, IHx. naive_solver.
Qed.

#[global] Instance value_eq_dec : EqDecision Value.
Proof.
  intros a b. destruct (value_eqb a b) eqn:H.
  - left. by apply value_eqb_eq.
  - right. intros He%value_eqb_eq. congruence.
Defined.

(** ** Accessors *)

Definition as_str (v : Value) : option string :=
  match v with VString s => Some s | _ => None end.

Definition as_bool (v : Value) : option bool :=
  match v with VBool b => Some b | _ => None end.

Definition as_array (v : Value) : option (list Value) :=
  match v with VArray l => Some l | _ => None end.

Definition as_object (v : Value) : option (bmap Value) :=
  match v with VObject m => Some m | _ => None end.

Definition num_as_i64 (n : number) : option Z :=
  match n with
  | PosInt z => if z <=? i64_max then Some z else None
  | NegInt z => Some z
  | Float _ => None
  end.

Definition num_as_u64 (n : number) : option Z :=
  match n with PosInt z => Some z | _ => None end.

Definition as_i64 (v : Value) : option Z :=
  match v with VNumber n => num_as_i64 n | _ => None end.

Definition as_u64 (v : Value) : option Z :=
  match v with VNumber n => num_as_u64 n | _ => None end.

Definition is_null (v : Value) : bool := match v with VNull => true | _ => false end.
Definition is_boolean (v : Value) : bool := match v with VBool _ => true | _ => false end.
Definition is_object (v : Value) : bool := match v with VObject _ => true | _ => false end.
Definition is_string (v : Value) : bool := match v with VString _ => true | _ => false end.
Definition is_u64 (v : Value) : bool := is_some (as_u64 v).

(** [v.get("k")]. *)
Definition get (v : Value) (k : string) : option Value :=
  match v with VObject m => bget k m | _ => None end.

(** [v["k"]]: [Null] when absent or not an object. *)
Definition idx (v : Value) (k : string) : Value := default VNull (get v k).

(** [v[n]]: [Null] when out of range or not an array. *)
Definition idx_n (v : Value) (n : nat) : Value :=
  match v with VArray l => default VNull (l !! n) | _ => VNull end.

Notation "v .[ k ]" := (idx v k) (at level 2, k at level 200, left associativity, format "v .[ k ]").

(** [v == "text"] and [v == true]. *)
Definition eq_str (v : Value) (s : string) : bool :=
  match v with VString t => String.eqb t s | _ => false end.

Definition eq_bool (v : Value) (b : bool) : bool :=
  match v with VBool c => Bool.eqb c b | _ => false end.

(** [v.as_str().unwrap_or_default()]. *)
Definition str_or_default (v : Value) : string := default "" (as_str v).

(** [v.as_array().map_or(&[][..], Vec::as_slice)]. *)
Definition items_of (v : Value) : list Value := default [] (as_array v).

(** [v["k"] = x]: inserts into an object ([Null] becomes one), panics on any
    other value. *)
Definition set_field {E} (v : Value) (k : string) (x : Value) : outcome E Value :=
  match v with
  | VObject m => Ok (VObject (binsert k x m))
  | VNull => Ok (VObject [(k, x)])
  | _ => Panic
  end.

Lemma eq_str_true v s : eq_str v s = true <-> v = VString s.
Proof. destruct v; simpl; try naive_solver. rewrite String.eqb_eq. naive_solver. Qed.

Lemma eq_bool_true v b : eq_bool v b = true <-> v = VBool b.
Proof. destruct v; simpl; try naive_solver. rewrite eqb_true_iff. naive_solver. Qed.

Lemma as_str_Some v s : as_str v = Some s <-> v = VString s.
Proof. destruct v; simpl; naive_solver. Qed.

Lemma as_array_Some v l : as_array v = Some l <-> v = VArray l.
Proof. destruct v; simpl; naive_solver. Qed.

Lemma as_object_Some v m : as_object v = Some m <-> v = VObject m.
Proof. destruct v; simpl; naive_solver. Qed.

Lemma is_null_true v : is_null v = true <-> v = VNull.
Proof. destruct v; simpl; naive_solver. Qed.

(** ** Well-formed values

    What the crate's types guarantee: text is UTF-8, [PosInt] is a [u64],
    [NegInt] a negative [i64], and a map is ordered without duplicates. *)

Definition wf_number (n : number) : Prop :=
  match n with
  | PosInt z => 0 <= z <= u64_max
  | NegInt z => i64_min <= z < 0
  | Float _ => True
  end.

Fixpoint wf_value (v : Value) : Prop :=
  match v with
  | VNull | VBool _ => True
  | VNumber n => wf_number n
  | VString s => utf8_valid s = true
  | VArray l => (fix all l := match l with [] => True | x :: r => wf_value x /\ all r end) l
  | VObject m => bsorted m /\
      (fix all m := match m with
       | [] => True
       | (k, x) :: r => (utf8_valid k = true /\ wf_value x) /\ all r end) m
  end.

Lemma wf_array l : wf_value (VArray l) <-> Forall wf_value l.
Proof.
  simpl. induction l as [|x l IH]; [naive_solver|]. rewrite Forall_cons, <- IH. done.
Qed.

Lemma wf_object m :
  wf_value (VObject m) <->
  bsorted m /\ Forall (fun e => utf8_valid e.1 = true /\ wf_value e.2) m.
Proof.
  simpl. apply and_iff_compat_l. induction m as [|[k x] m IH]; [naive_solver|].
  rewrite Forall_cons, <- IH. done.
Qed.

Lemma wf_bget m k v : wf_value (VObject m) -> bget k m = Some v -> wf_value v.
Proof.
  rewrite wf_object. intros [_ HF] Hg%bget_In. rewrite Forall_forall in HF.
  by apply HF in Hg as [_ ?].
Qed.

Lemma wf_idx v k : wf_value v -> wf_value v.[k].
Proof.
  intros Hv. unfold idx, get. destruct v; try done.
  destruct (bget k map) eqn:Hg; [|done]. simpl. by eapply wf_bget.
Qed.

(** ** The deserializer *)

Inductive Raw : Type :=
| RNull
| RBool (b : bool)
| RNumber (n : number)
| RString (s : string)
| RSeq (items : list Raw)
| RMap (members : list (string * Raw)).

(** [serde_json]'s reading of one whole document: what it shows a visitor, or
    [None] when the bytes are not one JSON document.  Both the strict visitor
    and [Value] are driven by it. *)
Class JsonReader : Type := { deserialize : string -> option Raw }.

(** [Deserialize for Value]: a repeated key keeps its last value. *)
Fixpoint value_of_raw (r : Raw) : Value :=
  match r with
  | RNull => VNull
  | RBool b => VBool b
  | RNumber n => VNumber n
  | RString s => VString s
  | RSeq l => VArray ((fix go l := match l with [] => [] | x :: t => value_of_raw x :: go t end) l)
  | RMap m => VObject (bof_list
      ((fix go m := match m with [] => [] | (k, x) :: t => (k, value_of_raw x) :: go t end) m))
  end.

(** The tree a canonical text is read as. *)
Fixpoint raw_of_value (order : list (string * Raw) -> list (string * Raw)) (v : Value) : Raw :=
  match v with
  | VNull => RNull
  | VBool b => RBool b
  | VNumber n => RNumber n
  | VString s => RString s
  | VArray l => RSeq ((fix go l := match l with [] => [] | x :: t => raw_of_value order x :: go t end) l)
  | VObject m => RMap (order
      ((fix go m := match m with [] => [] | (k, x) :: t => (k, raw_of_value order x) :: go t end) m))
  end.

Lemma value_of_raw_seq l : value_of_raw (RSeq l) = VArray (value_of_raw <$> l).
Proof. done. Qed.

Lemma value_of_raw_map m :
  value_of_raw (RMap m) = VObject (bof_list (prod_map id value_of_raw <$> m)).
Proof.
  simpl. f_equal. f_equal; try done. induction m as [|[k x] m IH]; [done|]. by rewrite IH.
Qed.

Lemma raw_of_value_seq o l : raw_of_value o (VArray l) = RSeq (raw_of_value o <$> l).
Proof. done. Qed.

Lemma raw_of_value_map o m :
  raw_of_value o (VObject m) = RMap (o (prod_map id (raw_of_value o) <$> m)).
Proof. simpl. do 2 f_equal. induction m as [|[k x] m IH]; [done|]. by rewrite IH. Qed.

(** [json!({...})]. *)
Definition json_object (members : list (string * Value)) : Value := VObject (bof_list members).

(** [serde_json::to_vec]. *)
Class JsonWriter : Type := { to_vec : Value -> string }.
