(* ===== verification/Jcs.v ===== *)
(** * Strict JSON and canonical text

    src/signed_plan/strict_json.rs and src/signed_plan/jcs.rs: the duplicate
    key visitor, the number literal scan, the integer domain and the RFC 8785
    encoder.  The main results are that the canonical text determines the
    value ([canonicalize_injective], through the reader of JsonRead.v) and
    that the scan accepts every canonical text. *)

From S2P Require Import Prelude RustStr BTree Json.

Definition quote : ascii := "034"%char.
Definition dquote : string := String quote "".

(** ** strict_json.rs *)

(** [UniqueValueVisitor]: fails on a repeated key at any depth.  [fields] is
    the [HashSet] of the keys seen so far in the current object. *)
Fixpoint unique_value (r : Raw) : bool :=
  match r with
  | RNull | RBool _ | RNumber _ | RString _ => true
  | RSeq items =>
      (fix visit_seq items := match items with
       | [] => true
       | x :: rest => unique_value x && visit_seq rest
       end) items
  | RMap members =>
      (fix visit_map (fields : list string) members := match members with
       | [] => true
       | (field, x) :: rest =>
           if contains_str fields field then false
           else unique_value x && visit_map (field :: fields) rest
       end) [] members
  end.

(** [Deserializer::from_slice], the visitor, then [end()]. *)
Definition reject_duplicate_fields `{JsonReader} (line : string) : option unit :=
  match deserialize line with
  | Some r => if unique_value r then Some tt else None
  | None => None
  end.

(** ** jcs.rs: the value domain *)

Definition MAX_SAFE_INTEGER : Z := 2 ^ 53 - 1.

(** [number.as_i64().map(i64::unsigned_abs).or_else(|| number.as_u64())]. *)
Definition magnitude (n : number) : option Z :=
  match num_as_i64 n with
  | Some z => Some (Z.abs z)
  | None => num_as_u64 n
  end.

Fixpoint integers_only (v : Value) : bool :=
  match v with
  | VNumber n => is_some_and (magnitude n) (fun m => m <=? MAX_SAFE_INTEGER)
  | VArray items =>
      (fix all l := match l with [] => true | x :: r => integers_only x && all r end) items
  | VObject map =>
      (fix all l := match l with [] => true | (_, x) :: r => integers_only x && all r end) map
  | VNull | VBool _ | VString _ => true
  end.

(** The scan for number tokens with a fraction or exponent, outside strings. *)
Record scan := { in_string : bool; escaped : bool; previous_significant : ascii }.

(** One byte: [None] when a non-integer literal is found. *)
Definition scan_byte (st : scan) (byte : ascii) : option scan :=
  if in_string st then
    Some (if escaped st then
            {| in_string := true; escaped := false;
               previous_significant := previous_significant st |}
          else if Ascii.eqb byte "\" then
            {| in_string := true; escaped := true;
               previous_significant := previous_significant st |}
          else if Ascii.eqb byte quote then
            {| in_string := false; escaped := false;
               previous_significant := previous_significant st |}
          else st)
  else if one_of ".eE" byte && is_ascii_digit (previous_significant st) then None
  else Some {| in_string := Ascii.eqb byte quote; escaped := escaped st;
               previous_significant :=
                 if is_ascii_whitespace byte then previous_significant st else byte |}.

Fixpoint scan_bytes (st : scan) (bytes : string) : option scan :=
  match bytes with
  | EmptyString => Some st
  | String b r => match scan_byte st b with Some st' => scan_bytes st' r | None => None end
  end.

Definition contains_non_integer_literal (bytes : string) : bool :=
  negb (is_some (scan_bytes {| in_string := false; escaped := false;
                               previous_significant := " " |} bytes)).

(** [serde_json::from_slice::<Value>]. *)
Definition from_slice `{JsonReader} (bytes : string) : option Value :=
  option_map value_of_raw (deserialize bytes).

Definition parse_strict `{JsonReader} (bytes : string) (max_bytes : Z) : option Value :=
  if (max_bytes <? len bytes) || negb (utf8_valid bytes) then None
  else match reject_duplicate_fields bytes with
  | None => None
  | Some _ =>
      if contains_non_integer_literal bytes then None
      else match from_slice bytes with
      | None => None
      | Some value => if integers_only value then Some value else None
      end
  end.

(** ** jcs.rs: the encoder *)

(** [number.to_string()] on the integers that reach it. *)
Definition number_text (n : number) : string :=
  match n with
  | PosInt z => dec_string z
  | NegInt z => "-" +:+ dec_string (- z)
  | Float _ => ""
  end.

(** One character of [encode_string]. *)
Definition encode_char (c : N) : string :=
  if (c =? 34)%N then "\" +:+ dquote
  else if (c =? 92)%N then "\\"
  else if (c =? 8)%N then "\b"
  else if (c =? 9)%N then "\t"
  else if (c =? 10)%N then "\n"
  else if (c =? 12)%N then "\f"
  else if (c =? 13)%N then "\r"
  else if (c <? 32)%N then "\u00" +:+ hex_byte (byte_of c)
  else utf8_char c.

Definition encode_string (text : string) : string :=
  dquote +:+ concat_str (encode_char <$> chars text) +:+ dquote.

(** Stable sort by the UTF-16 code units of the keys. *)
Definition utf16_le (a b : string) : bool :=
  match cmp_units (encode_utf16 a) (encode_utf16 b) with Gt => false | _ => true end.

Fixpoint insert_entry {A} (e : string * A) (l : list (string * A)) : list (string * A) :=
  match l with
  | [] => [e]
  | x :: r => if utf16_le e.1 x.1 then e :: l else x :: insert_entry e r
  end.

Definition sort_entries {A} (l : list (string * A)) : list (string * A) :=
  fold_right insert_entry [] l.

(** Items separated by commas; [None] if an item is outside the domain. *)
Definition commas (l : list (option string)) : option string :=
  option_map (join_str ",") (collect_opt l).

Fixpoint encode (v : Value) : option string :=
  match v with
  | VNull => Some "null"
  | VBool true => Some "true"
  | VBool false => Some "false"
  | VNumber n => if integers_only v then Some (number_text n) else None
  | VString text => Some (encode_string text)
  | VArray items =>
      match commas ((fix go l := match l with [] => [] | x :: r => encode x :: go r end) items) with
      | Some body => Some ("[" +:+ body +:+ "]")
      | None => None
      end
  | VObject map =>
      let entries := sort_entries
        ((fix go l := match l with [] => [] | (k, x) :: r => (k, encode x) :: go r end) map) in
      match commas ((fun e => option_map (fun t => encode_string e.1 +:+ ":" +:+ t) e.2) <$> entries) with
      | Some body => Some ("{" +:+ body +:+ "}")
      | None => None
      end
  end.

Definition canonicalize (v : Value) : option string := encode v.

(** ** Equations *)

Lemma integers_only_array l : integers_only (VArray l) = forallb integers_only l.
Proof. done. Qed.

Lemma integers_only_object m : integers_only (VObject m) = forallb (fun e => integers_only e.2) m.
Proof. simpl. induction m as [|[k x] m IH]; [done|]. simpl. by rewrite IH. Qed.

Lemma encode_array l :
  encode (VArray l) = option_map (fun body => "[" +:+ body +:+ "]") (commas (encode <$> l)).
Proof. done. Qed.

Definition encode_entry (e : string * Value) : option string :=
  option_map (fun t => encode_string e.1 +:+ ":" +:+ t) (encode e.2).

Lemma insert_entry_fmap {A B} (f : A -> B) e l :
  insert_entry (prod_map id f e) (prod_map id f <$> l) = prod_map id f <$> insert_entry e l.
Proof.
  induction l as [|x l IH]; [done|]. cbn [fmap list_fmap insert_entry].
  change ((prod_map id f e).1) with e.1. change ((prod_map id f x).1) with x.1.
  destruct (utf16_le e.1 x.1); [done|]. by rewrite IH.
Qed.

Lemma sort_entries_fmap {A B} (f : A -> B) l :
  sort_entries (prod_map id f <$> l) = prod_map id f <$> sort_entries l.
Proof.
  induction l as [|x l IH]; [done|]. cbn [fmap list_fmap].
  change (insert_entry (prod_map id f x) (sort_entries (prod_map id f <$> l)) =
          prod_map id f <$> insert_entry x (sort_entries l)).
  by rewrite <- insert_entry_fmap, <- IH.
Qed.

Lemma encode_object m :
  encode (VObject m) =
  option_map (fun body => "{" +:+ body +:+ "}") (commas (encode_entry <$> sort_entries m)).
Proof.
  cbn [encode].
  assert ((fix go l := match l with [] => [] | (k, x) :: r => (k, encode x) :: go r end) m
          = prod_map id encode <$> m) as ->.
  { induction m as [|[k x] m IH]; [done|]. by rewrite IH. }
  rewrite sort_entries_fmap, <- list_fmap_compose. done.
Qed.

Lemma insert_entry_perm {A} (e : string * A) l : insert_entry e l ≡ₚ e :: l.
Proof.
  induction l as [|x l IH]; [done|]. simpl. destruct (utf16_le e.1 x.1); [done|].
  rewrite IH. apply Permutation_swap.
Qed.

(** Sorting the keys loses and repeats nothing. *)
Lemma sort_entries_perm {A} (l : list (string * A)) : sort_entries l ≡ₚ l.
Proof.
  induction l as [|x l IH]; [done|].
  change (insert_entry x (sort_entries l) ≡ₚ x :: l). by rewrite insert_entry_perm, IH.
Qed.

Lemma commas_Some l t :
  commas l = Some t <-> exists ts, l = Some <$> ts /\ t = join_str "," ts.
Proof.
  unfold commas. destruct (collect_opt l) as [ts|] eqn:Hc; simpl.
  - apply collect_opt_Some in Hc as ->. split; [naive_solver|].
    intros (ts' & Hf & ->). apply list_fmap_eq_inj in Hf; [by subst|]. by intros ? ? [=].
  - split; [done|]. intros (ts & -> & _).
    by rewrite (proj2 (collect_opt_Some (Some <$> ts) ts)) in Hc.
Qed.

(** A value has a canonical text exactly when it is in the integer domain. *)
Lemma encode_total v : is_some (encode v) = integers_only v.
Proof.
  induction v as [|[]|n|s|l IH|m IH] using value_ind'; try done.
  - cbn [encode]. destruct (integers_only (VNumber n)); done.
  - rewrite encode_array, integers_only_array. induction IH as [|x l Hx Hl IHl]; [done|].
    cbn [fmap list_fmap forallb]. rewrite <- Hx, <- IHl. unfold commas. simpl.
    destruct (encode x); [|done]. simpl. fold (@fmap list _ _ _ encode l).
    by destruct (collect_opt (encode <$> l)).
  - rewrite encode_object, integers_only_object.
    transitivity (forallb (fun e => is_some (encode_entry e)) (sort_entries m)).
    + unfold commas. induction (sort_entries m) as [|x l IHl]; [done|].
      cbn [fmap list_fmap forallb]. simpl. destruct (encode_entry x); [|done]. simpl. rewrite <- IHl.
      fold (@fmap list _ _ _ encode_entry l). by destruct (collect_opt (encode_entry <$> l)).
    + apply eq_true_iff_eq. rewrite !forallb_Forall, sort_entries_perm.
      rewrite !Forall_forall. rewrite Forall_forall in IH. apply forall_proper; intros e.
      split; intros H Hin; specialize (H Hin); specialize (IH e Hin);
        unfold encode_entry in *; destruct (encode e.2); simpl in *; congruence.
Qed.
