(* ===== verification/JsonRead.v ===== *)
(** * A reader of canonical text

    A small reference reader for the JSON the encoder writes.  It is not code
    of the agent: it shows that the canonical text determines the value
    ([read_canonical]), and it is a concrete [JsonReader], on which the whole
    verifier runs inside Rocq. *)

From S2P Require Import Prelude RustStr BTree Json Jcs.

(** ** Strings *)

Definition unescape (e : ascii) : option ascii :=
  if Ascii.eqb e quote then Some quote
  else if Ascii.eqb e "\" then Some "\"%char
  else if Ascii.eqb e "b" then Some (ascii_of_N 8)
  else if Ascii.eqb e "t" then Some (ascii_of_N 9)
  else if Ascii.eqb e "n" then Some (ascii_of_N 10)
  else if Ascii.eqb e "f" then Some (ascii_of_N 12)
  else if Ascii.eqb e "r" then Some (ascii_of_N 13)
  else None.

Definition hex_value (b : ascii) : option N :=
  if between 48 57 b then Some (code b - 48)%N
  else if between 97 102 b then Some (code b - 87)%N
  else None.

Definition push_byte (b : ascii) (o : option (string * string)) : option (string * string) :=
  match o with Some (s, r) => Some (String b s, r) | None => None end.

(** The text up to the closing quote, unescaped, and what follows. *)
Fixpoint read_body (s : string) : option (string * string) :=
  match s with
  | EmptyString => None
  | String c r =>
      if Ascii.eqb c quote then Some ("", r)
      else if Ascii.eqb c "\" then
        match r with
        | EmptyString => None
        | String e r1 =>
            if Ascii.eqb e "u" then
              match r1 with
              | String "0" (String "0" (String h (String l r5))) =>
                  match hex_value h, hex_value l with
                  | Some x, Some y => push_byte (ascii_of_N (16 * x + y)) (read_body r5)
                  | _, _ => None
                  end
              | _ => None
              end
            else match unescape e with
                 | Some b => push_byte b (read_body r1)
                 | None => None
                 end
        end
      else push_byte c (read_body r)
  end.

(** ** Numbers *)

Fixpoint read_digits (s : string) : string * string :=
  match s with
  | EmptyString => ("", "")
  | String b r =>
      if is_ascii_digit b then let (d, r') := read_digits r in (String b d, r') else ("", s)
  end.

(** ** Values; [fuel] bounds the recursion *)

Fixpoint read_value (fuel : nat) (s : string) : option (Raw * string) :=
  match fuel, s with
  | S f, String c r =>
      if Ascii.eqb c quote then
        match read_body r with Some (t, r') => Some (RString t, r') | None => None end
      else if Ascii.eqb c "[" then
        match r with
        | String "]" r' => Some (RSeq [], r')
        | _ => match read_items f r with Some (l, r') => Some (RSeq l, r') | None => None end
        end
      else if Ascii.eqb c "{" then
        match r with
        | String "}" r' => Some (RMap [], r')
        | _ => match read_members f r with Some (l, r') => Some (RMap l, r') | None => None end
        end
      else if Ascii.eqb c "-" then
        let (d, r') := read_digits r in
        if is_empty d then None
        else if dec_value d =? 0 then Some (RNumber (Float (2 ^ 63)), r')
        else Some (RNumber (NegInt (- dec_value d)), r')
      else if is_ascii_digit c then
        let (d, r') := read_digits s in Some (RNumber (PosInt (dec_value d)), r')
      else match strip_prefix "null" s with
      | Some r' => Some (RNull, r')
      | None =>
          match strip_prefix "true" s with
          | Some r' => Some (RBool true, r')
          | None =>
              match strip_prefix "false" s with
              | Some r' => Some (RBool false, r')
              | None => None
              end
          end
      end
  | _, _ => None
  end

with read_items (fuel : nat) (s : string) : option (list Raw * string) :=
  match fuel with
  | O => None
  | S f =>
      match read_value f s with
      | Some (x, String c r) =>
          if Ascii.eqb c "," then
            match read_items f r with Some (xs, r') => Some (x :: xs, r') | None => None end
          else if Ascii.eqb c "]" then Some ([x], r)
          else None
      | _ => None
      end
  end

with read_members (fuel : nat) (s : string) : option (list (string * Raw) * string) :=
  match fuel, s with
  | S f, String c s1 =>
      if Ascii.eqb c quote then
        match read_body s1 with
        | Some (k, String ":" s2) =>
            match read_value f s2 with
            | Some (x, String d r) =>
                if Ascii.eqb d "," then
                  match read_members f r with
                  | Some (xs, r') => Some ((k, x) :: xs, r')
                  | None => None
                  end
                else if Ascii.eqb d "}" then Some ([(k, x)], r)
                else None
            | _ => None
            end
        | _ => None
        end
      else None
  | _, _ => None
  end.

Definition read_document (s : string) : option Raw :=
  match read_value (S (String.length s)) s with
  | Some (r, EmptyString) => Some r
  | _ => None
  end.

Definition canonical_reader : JsonReader := {| deserialize := read_document |}.

(** The tree of a value, members in canonical order. *)
Definition raw_of (v : Value) : Raw := raw_of_value sort_entries v.

(** What a reader of JSON documents must do on canonical texts. *)
Class JsonReaderLaws `{JsonReader} : Prop :=
  deserialize_canonical v t :
    wf_value v -> canonicalize v = Some t -> deserialize t = Some (raw_of v).

(** ** Reading back an encoded string *)

Definition escape_byte (b : ascii) : string :=
  if between 0 127 b then encode_char (code b) else String b "".

Lemma encode_string_bytes s :
  utf8_valid s = true -> encode_string s = dquote +:+ concat_bytes escape_byte s +:+ dquote.
Proof.
  intros Hs. unfold encode_string. do 2 f_equal.
  apply concat_chars_bytes; [| | |done].
  - intros c Hc. unfold encode_char.
    repeat match goal with |- context [(?a =? ?b)%N] => destruct (N.eqb_spec a b); [lia|] end.
    by destruct (N.ltb_spec c 32); [lia|].
  - intros b Hb. unfold escape_byte. destruct (between 0 127 b) eqn:H0; [|done].
    rewrite between_spec in *. lia.
  - intros b Hb. unfold escape_byte. by rewrite Hb.
Qed.

Lemma read_body_escape b t : read_body (escape_byte b +:+ t) = push_byte b (read_body t).
Proof. destruct b as [[] [] [] [] [] [] [] []]; reflexivity. Qed.

Lemma read_body_text s rest :
  read_body (concat_bytes escape_byte s +:+ dquote +:+ rest) = Some (s, rest).
Proof.
  induction s as [|b s IH]; [done|]. cbn [concat_bytes].
  rewrite <- str_app_assoc, read_body_escape, IH. done.
Qed.

(** A text that does not go on with a digit. *)
Definition no_digit (s : string) : Prop :=
  match first_byte s with Some b => is_ascii_digit b = false | None => True end.

Lemma read_digits_text p rest :
  all_bytes is_ascii_digit p = true -> no_digit rest -> read_digits (p +:+ rest) = (p, rest).
Proof.
  intros Hp Hr. induction p as [|b p IH].
  - change ("" +:+ rest) with rest. destruct rest as [|b r]; [done|].
    unfold no_digit in Hr. simpl in *. by rewrite Hr.
  - rewrite str_app_cons. cbn [read_digits all_bytes] in *.
    apply andb_true_iff in Hp as [-> Hp]. by rewrite IH.
Qed.

(** Bytes of [value] texts are told apart by their first byte. *)
Lemma read_value_step f c r :
  read_value (S f) (String c r) =
  (if Ascii.eqb c quote then
     match read_body r with Some (t, r') => Some (RString t, r') | None => None end
   else if Ascii.eqb c "[" then
     match r with
     | String "]" r' => Some (RSeq [], r')
     | _ => match read_items f r with Some (l, r') => Some (RSeq l, r') | None => None end
     end
   else if Ascii.eqb c "{" then
     match r with
     | String "}" r' => Some (RMap [], r')
     | _ => match read_members f r with Some (l, r') => Some (RMap l, r') | None => None end
     end
   else if Ascii.eqb c "-" then
     let (d, r') := read_digits r in
     if is_empty d then None
     else if dec_value d =? 0 then Some (RNumber (Float (2 ^ 63)), r')
     else Some (RNumber (NegInt (- dec_value d)), r')
   else if is_ascii_digit c then
     let (d, r') := read_digits (String c r) in Some (RNumber (PosInt (dec_value d)), r')
   else match strip_prefix "null" (String c r) with
   | Some r' => Some (RNull, r')
   | None =>
       match strip_prefix "true" (String c r) with
       | Some r' => Some (RBool true, r')
       | None =>
           match strip_prefix "false" (String c r) with
           | Some r' => Some (RBool false, r')
           | None => None
           end
       end
   end).
Proof. reflexivity. Qed.

(** ** Reading back an encoded value *)

(** [v] is read back from any canonical text of it, with fuel the length of
    the text. *)
Definition reads_back (v : Value) : Prop :=
  forall t rest f, encode v = Some t -> no_digit rest -> (String.length t <= f)%nat ->
  read_value f (t +:+ rest) = Some (raw_of v, rest).

(** A first byte that cannot be mistaken for the end of a list. *)
Definition opens (t : string) : Prop :=
  match t with
  | String c _ => Ascii.eqb c "]" = false /\ Ascii.eqb c "}" = false
  | EmptyString => False
  end.

Lemma digit_first c : is_ascii_digit c = true ->
  Ascii.eqb c quote = false /\ Ascii.eqb c "[" = false /\ Ascii.eqb c "{" = false /\
  Ascii.eqb c "-" = false /\ Ascii.eqb c "]" = false /\ Ascii.eqb c "}" = false.
Proof. destruct c as [[] [] [] [] [] [] [] []]; vm_compute; done. Qed.

Lemma reads_back_number n : wf_number n -> reads_back (VNumber n).
Proof.
  intros Hw t rest f. cbn [encode integers_only].
  destruct (is_some_and (magnitude n) _) eqn:Hi; [|done]. intros [= <-] Hr Hf.
  destruct n as [z|z|b]; cbn [number_text] in *; [| |done].
  - destruct (dec_string_spec z) as (Hv & Hd & Hne & _); [simpl in Hw; lia|].
    destruct (dec_string z) as [|c p] eqn:Hs; [done|]. rewrite str_app_cons.
    destruct f as [|f]; [simpl in Hf; lia|]. rewrite read_value_step.
    pose proof Hd as Hd'. cbn [all_bytes] in Hd'. apply andb_true_iff in Hd' as [Hc _].
    destruct (digit_first c Hc) as (-> & -> & -> & -> & _). rewrite Hc.
    rewrite <- str_app_cons, read_digits_text by done. by rewrite Hv.
  - destruct (dec_string_spec (- z)) as (Hv & Hd & Hne & _); [simpl in Hw; lia|].
    destruct f as [|f]; [simpl in Hf; lia|]. rewrite !str_app_cons.
    change ("" +:+ dec_string (- z)) with (dec_string (- z)).
    rewrite read_value_step. simpl. rewrite read_digits_text by done.
    destruct (dec_string (- z)) as [|c p] eqn:Hs; [done|]. cbn [is_empty String.eqb].
    rewrite Hv. simpl in Hw. destruct (Z.eqb_spec (- z) 0); [lia|].
    by rewrite Z.opp_involutive.
Qed.

Lemma encode_opens v t : wf_value v -> encode v = Some t -> opens t.
Proof.
  destruct v as [|[]|n|s|l|m]; intros Hw.
  - by intros [= <-].
  - by intros [= <-].
  - by intros [= <-].
  - cbn [encode integers_only]. destruct (is_some_and (magnitude n) _) eqn:Hi; [|done].
    intros [= <-]. simpl in Hw. destruct n as [z|z|b]; [| |done].
    + destruct (dec_string_spec z) as (_ & Hd & Hne & _); [simpl in Hw; lia|]. simpl.
      destruct (dec_string z) as [|c p]; [done|]. cbn [all_bytes] in Hd.
      apply andb_true_iff in Hd as [Hc _]. unfold opens.
      by destruct (digit_first c Hc) as (_ & _ & _ & _ & -> & ->).
    + done.
  - by intros [= <-].
  - rewrite encode_array. by destruct (commas _) as [body|]; [intros [= <-]|].
  - rewrite encode_object. by destruct (commas _) as [body|]; [intros [= <-]|].
Qed.

Lemma read_items_encode l ts rest f :
  Forall reads_back l -> encode <$> l = Some <$> ts -> l <> [] ->
  (S (String.length (join_str "," ts)) <= f)%nat ->
  read_items f (join_str "," ts +:+ "]" +:+ rest) = Some (raw_of <$> l, rest).
Proof.
  revert ts f; induction l as [|v l IH]; intros ts f HF Hts Hne Hf; [done|].
  destruct ts as [|t ts]; [done|]. cbn [fmap list_fmap] in Hts. injection Hts as Ht Hts.
  inversion HF as [|? ? Hv HF']; subst. destruct f as [|f]; [lia|]. cbn [read_items].
  destruct l as [|v2 l].
  - destruct ts; [|done]. cbn [join_str] in *. rewrite Hv with (t := t); [done|done|done|lia].
  - destruct ts as [|t2 ts]; [done|].
    change (join_str "," (t :: t2 :: ts)) with (t +:+ "," +:+ join_str "," (t2 :: ts)) in *.
    rewrite !str_app_length in Hf. change (String.length ",") with 1%nat in Hf.
    rewrite <- str_app_assoc, (Hv t); [|done|done|lia].
    rewrite !str_app_cons. change ("" +:+ ?x) with x.
    change (Ascii.eqb "," ",") with true. cbn match.
    by rewrite IH; [|done|done|done|lia].
Qed.

(** A member whose key is UTF-8 and whose value reads back. *)
Definition member_ok (e : string * Value) : Prop := utf8_valid e.1 = true /\ reads_back e.2.

Lemma read_members_encode l ts rest f :
  Forall member_ok l -> encode_entry <$> l = Some <$> ts -> l <> [] ->
  (S (String.length (join_str "," ts)) <= f)%nat ->
  read_members f (join_str "," ts +:+ "}" +:+ rest) = Some (prod_map id raw_of <$> l, rest).
Proof.
  revert ts f; induction l as [|[k v] l IH]; intros ts f HF Hts Hne Hf; [done|].
  destruct ts as [|t ts]; [done|]. cbn [fmap list_fmap] in Hts. injection Hts as Ht Hts.
  inversion HF as [|? ? [Hk Hv] HF']; subst. simpl in Hk, Hv. destruct f as [|f]; [lia|].
  unfold encode_entry in Ht. simpl in Ht. destruct (encode v) as [tv|] eqn:Hev; [|done].
  injection Ht as <-. rewrite encode_string_bytes in * by done.
  set (body := concat_bytes escape_byte k) in *.
  destruct l as [|e2 l].
  - destruct ts; [|done]. cbn [join_str] in *.
    rewrite !str_app_length in Hf.
    change (String.length ":") with 1%nat in Hf. change (String.length dquote) with 1%nat in Hf.
    rewrite <- !str_app_assoc. change (dquote +:+ ?x) with (String quote x) at 1. cbn [read_members].
    change (Ascii.eqb quote quote) with true. cbn match. unfold body. rewrite read_body_text.
    rewrite str_app_cons. cbn match. change ("" +:+ ?x) with x.
    by rewrite (Hv tv); [|done|done|lia].
  - destruct ts as [|t2 ts]; [done|].
    set (more := join_str "," (t2 :: ts)) in *.
    change (join_str "," (((dquote +:+ body +:+ dquote) +:+ ":" +:+ tv) :: t2 :: ts))
      with (((dquote +:+ body +:+ dquote) +:+ ":" +:+ tv) +:+ "," +:+ more) in *.
    rewrite !str_app_length in Hf. change (String.length ",") with 1%nat in Hf.
    change (String.length ":") with 1%nat in Hf. change (String.length dquote) with 1%nat in Hf.
    rewrite <- !str_app_assoc. change (dquote +:+ ?x) with (String quote x) at 1. cbn [read_members].
    change (Ascii.eqb quote quote) with true. cbn match. unfold body. rewrite read_body_text.
    rewrite str_app_cons. cbn match. change ("" +:+ ?x) with x.
    rewrite (Hv tv); [|done|done|lia].
    rewrite (str_app_cons ","). cbn match. change ("" +:+ ?x) with x.
    change (Ascii.eqb "," ",") with true. cbn match. subst more.
    by rewrite IH; [|done|done|done|lia].
Qed.

Lemma opens_app t rest : opens t -> opens (t +:+ rest).
Proof. by destruct t. Qed.

Lemma open_bracket_items f r :
  opens r ->
  read_value (S f) (String "[" r) =
  match read_items f r with Some (l, r') => Some (RSeq l, r') | None => None end.
Proof.
  rewrite read_value_step. cbn [Ascii.eqb]. change (Ascii.eqb "[" quote) with false.
  change (Ascii.eqb "[" "[") with true. cbn match.
  destruct r as [|c r]; [done|]. intros [Hc _].
  destruct c as [[] [] [] [] [] [] [] []]; try done.
Qed.

Lemma open_brace_members f r :
  opens r ->
  read_value (S f) (String "{" r) =
  match read_members f r with Some (l, r') => Some (RMap l, r') | None => None end.
Proof.
  rewrite read_value_step. change (Ascii.eqb "{" quote) with false.
  change (Ascii.eqb "{" "[") with false. change (Ascii.eqb "{" "{") with true. cbn match.
  destruct r as [|c r]; [done|]. intros [_ Hc].
  destruct c as [[] [] [] [] [] [] [] []]; try done.
Qed.

Lemma join_opens ts t ts' : ts = t :: ts' -> opens t -> opens (join_str "," ts).
Proof. intros -> Ht. destruct ts'; [done|]. by apply opens_app. Qed.

(** Every well-formed value is read back from its canonical text. *)
Lemma read_value_encode v : wf_value v -> reads_back v.
Proof.
  induction v as [|[]|n|s|l IH|m IH] using value_ind'; intros Hw.
  1-3: intros t rest f [= <-] _ Hf; destruct f as [|f]; [simpl in Hf; lia|done].
  - by apply reads_back_number.
  - intros t rest f [= <-] _ Hf. rewrite encode_string_bytes in * by done.
    destruct f as [|f]; [simpl in Hf; lia|]. rewrite <- !str_app_assoc.
    change (dquote +:+ ?x) with (String quote x) at 1. rewrite read_value_step.
    change (Ascii.eqb quote quote) with true. cbn match. by rewrite read_body_text.
  - apply wf_array in Hw. intros t rest f. rewrite encode_array.
    destruct (commas _) as [body|] eqn:Hc; [|done]. intros [= <-] _ Hf.
    apply commas_Some in Hc as (ts & Hts & ->). unfold raw_of. rewrite raw_of_value_seq.
    rewrite !str_app_length in Hf. simpl in Hf. rewrite <- !str_app_assoc.
    change ("[" +:+ ?x) with (String "[" x). destruct f as [|f]; [lia|].
    destruct l as [|v l].
    { by destruct ts. }
    destruct ts as [|t ts]; [done|]. pose proof Hts as Hts'. injection Hts' as Ht _.
    rewrite open_bracket_items.
    + rewrite (read_items_encode (v :: l)); [done| |done|done|lia].
      rewrite Forall_forall in *. eauto.
    + apply opens_app. eapply join_opens; [done|]. eapply encode_opens; [|done].
      by inversion Hw.
  - apply wf_object in Hw as [Hs Hw]. intros t rest f. rewrite encode_object.
    destruct (commas _) as [body|] eqn:Hc; [|done]. intros [= <-] _ Hf.
    apply commas_Some in Hc as (ts & Hts & ->). unfold raw_of.
    rewrite raw_of_value_map, sort_entries_fmap.
    rewrite !str_app_length in Hf. simpl in Hf. rewrite <- !str_app_assoc.
    change ("{" +:+ ?x) with (String "{" x). destruct f as [|f]; [lia|].
    assert (Forall member_ok (sort_entries m)) as Hok.
    { rewrite sort_entries_perm. rewrite Forall_forall in *. intros e He. split.
      - by apply Hw. - apply IH; [done|]. by apply Hw. }
    destruct (sort_entries m) as [|e l] eqn:He.
    { by destruct ts. }
    destruct ts as [|t ts]; [done|]. pose proof Hts as Hts'. injection Hts' as Ht _.
    rewrite open_brace_members.
    + by rewrite (read_members_encode (e :: l)); [|done|done|done|lia].
    + apply opens_app. eapply join_opens; [done|].
      unfold encode_entry in Ht. destruct (encode e.2); [|done]. injection Ht as <-. done.
Qed.

(** Reading a tree back as a [Value] undoes the canonical order of members. *)
Lemma value_of_raw_of v : wf_value v -> value_of_raw (raw_of v) = v.
Proof.
  unfold raw_of. induction v as [|b|n|s|l IH|m IH] using value_ind'; intros Hw; try done.
  - apply wf_array in Hw. rewrite raw_of_value_seq, value_of_raw_seq. f_equal.
    rewrite <- list_fmap_compose. rewrite <- (list_fmap_id l) at 2.
    apply list_fmap_ext. intros i x Hx%list_elem_of_lookup_2. simpl.
    rewrite Forall_forall in *. by apply IH; [|apply Hw].
  - apply wf_object in Hw as [Hs Hw]. rewrite raw_of_value_map, value_of_raw_map. f_equal.
    rewrite sort_entries_fmap, <- list_fmap_compose.
    apply bof_list_perm; [done|]. rewrite sort_entries_perm.
    rewrite <- (list_fmap_id m) at 2. apply Permutation_refl'.
    apply list_fmap_ext. intros i [k x] Hx%list_elem_of_lookup_2. simpl. f_equal.
    rewrite Forall_forall in *. apply (IH (k, x)); [done|]. by apply (Hw (k, x)).
Qed.

(** The canonical reader is a lawful reader. *)
#[global] Instance canonical_reader_laws : @JsonReaderLaws canonical_reader.
Proof.
  intros v t Hw Ht. simpl. unfold read_document.
  rewrite <- (str_app_nil_r t) at 2. by rewrite (read_value_encode v Hw t "" _ Ht); [|done|lia].
Qed.
