(* ===== verification/JcsFacts.v ===== *)
(** * Canonical text: injectivity and strict round trip

    Theorems about src/signed_plan/jcs.rs and strict_json.rs. *)

From S2P Require Import Prelude RustStr BTree Json Jcs JsonRead.

(** ** Injectivity *)

Lemma canonical_text_inj v1 v2 t :
  wf_value v1 -> wf_value v2 -> canonicalize v1 = Some t -> canonicalize v2 = Some t -> v1 = v2.
Proof.
  intros Hw1 Hw2 H1 H2.
  pose proof (canonical_reader_laws v1 t Hw1 H1) as R1.
  pose proof (canonical_reader_laws v2 t Hw2 H2) as R2.
  rewrite R1 in R2. injection R2 as R2.
  by rewrite <- (value_of_raw_of v1), <- (value_of_raw_of v2), R2.
Qed.

(** The canonical text determines the value: two well-formed JSON values
    of the integer domain are equal exactly when both have a canonical text
    and it is the same, so a signature over the digest of the text binds
    every field of the plan. *)
Theorem canonicalize_injective v1 v2 :
  wf_value v1 -> wf_value v2 -> integers_only v1 = true ->
  canonicalize v1 = canonicalize v2 <-> v1 = v2.
Proof.
  intros Hw1 Hw2 Hi. split; [|by intros ->]. unfold canonicalize. intros He.
  destruct (encode v1) as [t|] eqn:H1.
  - by apply (canonical_text_inj v1 v2 t).
  - rewrite <- encode_total, H1 in Hi. done.
Qed.

Lemma canonicalize_injective_witness :
  canonicalize (VArray [VNull; VNumber (PosInt 7)]) = canonicalize (VArray [VNull; VNumber (PosInt 7)])
  <-> VArray [VNull; VNumber (PosInt 7)] = VArray [VNull; VNumber (PosInt 7)].
Proof. apply canonicalize_injective; [simpl; unfold u64_max; lia..|reflexivity]. Defined.

(** ** The scan accepts canonical text *)

(** [t] is scanned to the end, from outside a string back to outside one,
    whatever byte came before. *)
Definition scans (t : string) : Prop :=
  forall p, exists q, forall rest,
    scan_bytes {| in_string := false; escaped := false; previous_significant := p |} (t +:+ rest) =
    scan_bytes {| in_string := false; escaped := false; previous_significant := q |} rest.

Lemma scans_app a b : scans a -> scans b -> scans (a +:+ b).
Proof.
  intros Ha Hb p. destruct (Ha p) as [q Hq]. destruct (Hb q) as [r Hr].
  exists r. intros rest. by rewrite <- str_app_assoc, Hq, Hr.
Qed.

(** A byte that opens no string and cannot be part of a fraction or exponent. *)
Lemma scans_byte c :
  Ascii.eqb c quote = false -> one_of ".eE" c = false -> scans (String c "").
Proof.
  intros Hq He p. eexists. intros rest. rewrite str_app_cons. cbn [scan_bytes].
  unfold scan_byte. cbn [in_string escaped previous_significant].
  rewrite He, Hq. simpl. done.
Qed.

Lemma scans_literal_e a : one_of "us" a = true -> scans (String a "e").
Proof.
  intros Ha p. exists "e"%char. intros rest.
  destruct a as [[] [] [] [] [] [] [] []]; try discriminate Ha; done.
Qed.

Lemma scan_string_body s rest p :
  scan_bytes {| in_string := true; escaped := false; previous_significant := p |}
    (concat_bytes escape_byte s +:+ rest) =
  scan_bytes {| in_string := true; escaped := false; previous_significant := p |} rest.
Proof.
  induction s as [|b s IH]; [done|]. cbn [concat_bytes]. rewrite <- str_app_assoc.
  transitivity (scan_bytes {| in_string := true; escaped := false; previous_significant := p |}
    (concat_bytes escape_byte s +:+ rest)); [|exact IH].
  destruct b as [[] [] [] [] [] [] [] []]; reflexivity.
Qed.

Lemma scans_string s : utf8_valid s = true -> scans (encode_string s).
Proof.
  intros Hs p. exists quote. intros rest. rewrite encode_string_bytes by done.
  rewrite <- !str_app_assoc. change (dquote +:+ ?x) with (String quote x).
  cbn [scan_bytes]. unfold scan_byte at 1. cbn [in_string escaped previous_significant].
  change (one_of ".eE" quote) with false. cbn [andb]. change (Ascii.eqb quote quote) with true.
  rewrite scan_string_body. cbn [scan_bytes]. unfold scan_byte. simpl. done.
Qed.

Lemma scans_digits s : all_bytes is_ascii_digit s = true -> scans s.
Proof.
  induction s as [|b s IH]; cbn [all_bytes]; [by intros _ p; exists p|].
  intros [Hb Hs]%andb_true_iff. change (String b s) with (String b "" +:+ s).
  apply scans_app; [|auto]. apply scans_byte; destruct b as [[] [] [] [] [] [] [] []]; done.
Qed.

Lemma scans_join ts : Forall scans ts -> scans (join_str "," ts).
Proof.
  induction 1 as [|t ts Ht Hts IH]; [by intros p; exists p|].
  destruct ts as [|t2 ts]; [done|].
  change (scans (t +:+ "," +:+ join_str "," (t2 :: ts))).
  apply scans_app; [done|]. apply scans_app; [by apply scans_byte|done].
Qed.

Lemma scans_encode v : wf_value v -> forall t, encode v = Some t -> scans t.
Proof.
  induction v as [|[]|n|s|l IH|m IH] using value_ind'; intros Hw t.
  - intros [= <-]. apply (scans_app "n" "ull"); [by apply scans_byte|].
    apply (scans_app "u" "ll"); [by apply scans_byte|].
    apply (scans_app "l" "l"); by apply scans_byte.
  - intros [= <-]. apply (scans_app "t" "rue"); [by apply scans_byte|].
    apply (scans_app "r" "ue"); [by apply scans_byte|]. by apply scans_literal_e.
  - intros [= <-]. apply (scans_app "f" "alse"); [by apply scans_byte|].
    apply (scans_app "a" "lse"); [by apply scans_byte|].
    apply (scans_app "l" "se"); [by apply scans_byte|]. by apply scans_literal_e.
  - cbn [encode integers_only]. destruct (is_some_and (magnitude n) _); [|done].
    intros [= <-]. simpl in Hw. destruct n as [z|z|b]; cbn [number_text]; [| |by intros p; exists p].
    + apply scans_digits. apply dec_string_spec. simpl in Hw. lia.
    + apply scans_app; [by apply scans_byte|]. apply scans_digits, dec_string_spec. simpl in Hw. lia.
  - intros [= <-]. by apply scans_string.
  - apply wf_array in Hw. rewrite encode_array. destruct (commas _) as [body|] eqn:Hc; [|done].
    intros [= <-]. apply commas_Some in Hc as (ts & Hts & ->).
    apply scans_app; [by apply scans_byte|]. apply scans_app; [|by apply scans_byte].
    apply scans_join. apply Forall_forall. intros x Hx.
    assert (Some x ∈ encode <$> l) as (v & Hv & Hin)%list_elem_of_fmap.
    { rewrite Hts. by apply list_elem_of_fmap_2. }
    rewrite Forall_forall in *. eapply IH; eauto.
  - apply wf_object in Hw as [_ Hw]. rewrite encode_object.
    destruct (commas _) as [body|] eqn:Hc; [|done].
    intros [= <-]. apply commas_Some in Hc as (ts & Hts & ->).
    apply scans_app; [by apply scans_byte|]. apply scans_app; [|by apply scans_byte].
    apply scans_join. apply Forall_forall. intros x Hx.
    assert (Some x ∈ encode_entry <$> sort_entries m) as ([k v] & Hv & Hin)%list_elem_of_fmap.
    { rewrite Hts. by apply list_elem_of_fmap_2. }
    rewrite sort_entries_perm in Hin. rewrite Forall_forall in *.
    destruct (Hw _ Hin) as [Hk Hwv]. unfold encode_entry in Hv. simpl in *.
    destruct (encode v) as [tv|] eqn:Hev; [|done]. injection Hv as ->.
    apply scans_app; [by apply scans_string|]. apply scans_app; [by apply scans_byte|].
    by apply (IH (k, v)).
Qed.

(** ** The duplicate key visitor *)

Lemma unique_seq l : unique_value (RSeq l) = forallb unique_value l.
Proof. done. Qed.

Lemma unique_map_NoDup m :
  unique_value (RMap m) = true <-> NoDup (m.*1) /\ Forall (fun e => unique_value e.2 = true) m.
Proof.
  cbn [unique_value].
  match goal with |- ?g [] m = true <-> _ => set (go := g) end.
  assert (forall l fs, go fs l = true <->
    NoDup (l.*1) /\ Forall (fun k => k ∉ fs) (l.*1) /\ Forall (fun e => unique_value e.2 = true) l) as Hgo.
  { induction l as [|[k x] l IH]; intros fs; [simpl; split; [|done]; intros _; split_and!; constructor|].
    cbn [fmap list_fmap]. change (go fs ((k, x) :: l)) with
      (if contains_str fs k then false else unique_value x && go (k :: fs) l).
    rewrite NoDup_cons, !Forall_cons. simpl.
    destruct (contains_str fs k) eqn:Hc.
    - apply contains_str_spec in Hc. split; [done|]. intros (_ & (Hn & _) & _). done.
    - assert (k ∉ fs) as Hk. { intros Hk%contains_str_spec. congruence. }
      rewrite andb_true_iff, IH. rewrite !Forall_forall. set_solver. }
  rewrite Hgo. rewrite !Forall_forall. set_solver.
Qed.

Lemma unique_raw_of v : wf_value v -> unique_value (raw_of v) = true.
Proof.
  unfold raw_of. induction v as [|b|n|s|l IH|m IH] using value_ind'; intros Hw; try done.
  - apply wf_array in Hw. rewrite raw_of_value_seq, unique_seq, forallb_Forall, Forall_fmap.
    rewrite Forall_forall in *. simpl. intros x Hx. by apply IH; [|apply Hw].
  - apply wf_object in Hw as [Hs Hw]. rewrite raw_of_value_map, sort_entries_fmap.
    apply unique_map_NoDup. split.
    + rewrite <- list_fmap_compose. change (fst ∘ prod_map id _) with (@fst string Value).
      rewrite sort_entries_perm. by apply bsorted_NoDup.
    + rewrite Forall_fmap, sort_entries_perm. rewrite Forall_forall in *. intros e He. simpl.
      apply IH; [done|]. by apply Hw.
Qed.

(** ** Strict round trip *)

Lemma encode_char_valid c : scalar c -> utf8_valid (encode_char c) = true.
Proof.
  intros Hc. unfold encode_char.
  repeat match goal with |- context [if (?a =? ?b)%N then _ else _] => destruct (a =? b)%N; [done|] end.
  destruct (N.ltb_spec c 32) as [Hlt|]; [|by apply utf8_valid_char].
  apply ascii_utf8_valid.
  assert (c ∈ (N.of_nat <$> seq 0 32)) as Hin.
  { apply list_elem_of_fmap. exists (N.to_nat c). split; [lia|]. apply elem_of_seq. lia. }
  revert c Hin Hc Hlt.
  apply (Forall_forall (fun c => scalar c -> (c < 32)%N -> _)).
  repeat constructor.
Qed.

Lemma encode_string_valid s : utf8_valid (encode_string s) = true.
Proof.
  unfold encode_string. apply utf8_valid_app; [done|]. apply utf8_valid_app; [|done].
  apply utf8_valid_concat, Forall_fmap. eapply Forall_impl; [apply chars_scalar|].
  apply encode_char_valid.
Qed.

Lemma digits_utf8 s : all_bytes is_ascii_digit s = true -> utf8_valid s = true.
Proof.
  intros H. apply ascii_utf8_valid. eapply all_bytes_impl; [|exact H].
  intros b. unfold is_ascii_digit. rewrite !between_spec. lia.
Qed.

(** A canonical text is UTF-8. *)
Lemma encode_valid v : wf_value v -> forall t, encode v = Some t -> utf8_valid t = true.
Proof.
  induction v as [|[]|n|s|l IH|m IH] using value_ind'; intros Hw t.
  1-3: by intros [= <-].
  - cbn [encode integers_only]. destruct (is_some_and (magnitude n) _); [|done].
    intros [= <-]. simpl in Hw. destruct n as [z|z|b]; cbn [number_text]; [| |done].
    + apply digits_utf8, dec_string_spec. simpl in Hw. lia.
    + apply utf8_valid_app; [done|]. apply digits_utf8, dec_string_spec. simpl in Hw. lia.
  - intros [= <-]. apply encode_string_valid.
  - apply wf_array in Hw. rewrite encode_array. destruct (commas _) as [body|] eqn:Hc; [|done].
    intros [= <-]. apply commas_Some in Hc as (ts & Hts & ->).
    apply utf8_valid_app; [done|]. apply utf8_valid_app; [|done].
    apply utf8_valid_join; [done|]. apply Forall_forall. intros x Hx.
    assert (Some x ∈ encode <$> l) as (v & Hv & Hin)%list_elem_of_fmap.
    { rewrite Hts. by apply list_elem_of_fmap_2. }
    rewrite Forall_forall in *. eapply IH; eauto.
  - apply wf_object in Hw as [_ Hw]. rewrite encode_object.
    destruct (commas _) as [body|] eqn:Hc; [|done].
    intros [= <-]. apply commas_Some in Hc as (ts & Hts & ->).
    apply utf8_valid_app; [done|]. apply utf8_valid_app; [|done].
    apply utf8_valid_join; [done|]. apply Forall_forall. intros x Hx.
    assert (Some x ∈ encode_entry <$> sort_entries m) as ([k v] & Hv & Hin)%list_elem_of_fmap.
    { rewrite Hts. by apply list_elem_of_fmap_2. }
    rewrite sort_entries_perm in Hin. rewrite Forall_forall in *.
    destruct (Hw _ Hin) as [Hk Hwv]. unfold encode_entry in Hv. simpl in *.
    destruct (encode v) as [tv|] eqn:Hev; [|done]. injection Hv as ->.
    apply utf8_valid_app; [apply encode_string_valid|]. apply utf8_valid_app; [done|].
    by apply (IH (k, v)).
Qed.

(** Strict parsing of a canonical text. *)
Lemma parse_canonical `{JsonReaderLaws} v t max_bytes :
  wf_value v -> canonicalize v = Some t -> len t <= max_bytes ->
  parse_strict t max_bytes = Some v.
Proof.
  intros Hw Ht Hl. unfold parse_strict, reject_duplicate_fields, from_slice.
  rewrite (deserialize_canonical v t Hw Ht), (unique_raw_of v Hw).
  rewrite (encode_valid v Hw t Ht). replace (max_bytes <? len t) with false by lia. simpl.
  unfold contains_non_integer_literal.
  destruct (scans_encode v Hw t Ht " "%char) as [q Hq]. specialize (Hq "").
  rewrite str_app_nil_r in Hq. rewrite Hq. simpl.
  rewrite (value_of_raw_of v Hw). rewrite <- encode_total.
  unfold canonicalize in Ht. by rewrite Ht.
Qed.



(** What strict parsing guarantees about its result. *)
Lemma parse_strict_Some `{JsonReader} bytes max_bytes v :
  parse_strict bytes max_bytes = Some v ->
  len bytes <= max_bytes /\ utf8_valid bytes = true /\ integers_only v = true /\
  exists r, deserialize bytes = Some r /\ unique_value r = true /\ v = value_of_raw r.
Proof.
  unfold parse_strict, reject_duplicate_fields, from_slice.
  destruct (_ || _) eqn:H1; [done|]. apply orb_false_iff in H1 as [H1 H2%negb_false_iff].
  destruct (deserialize bytes) as [r|]; [|done].
  destruct (unique_value r) eqn:Hu; [|done]. destruct (contains_non_integer_literal bytes); [done|].
  simpl. destruct (integers_only (value_of_raw r)) eqn:Hi; [|done]. intros [= <-].
  split_and!; try done; [lia|]. by exists r.
Qed.
