(* ===== verification/Calendar.v ===== *)
(** * Time stamps

    [timestamp], [days_from_civil] and [format_timestamp] of
    src/signed_plan/text.rs.  The admission store compares time stamps as
    text, so besides the round trips the order of the texts matters
    ([format_timestamp_lt]). *)

From S2P Require Import Prelude RustStr.

Definition timestamp_byte (index : nat) (byte : ascii) : bool :=
  match index with
  | 4 | 7 => Ascii.eqb byte "-"
  | 10 => Ascii.eqb byte "T"
  | 13 | 16 => Ascii.eqb byte ":"
  | 19 => Ascii.eqb byte "Z"
  | _ => is_ascii_digit byte
  end%nat.

Definition leap_year (year : Z) : bool :=
  (year mod 4 =? 0) && negb (year mod 100 =? 0) || (year mod 400 =? 0).

(** The [match month]: [None] for a number that is no month. *)
Definition days_in_month (leap : bool) (month : Z) : option Z :=
  if existsb (Z.eqb month) [1; 3; 5; 7; 8; 10; 12] then Some 31
  else if existsb (Z.eqb month) [4; 6; 9; 11] then Some 30
  else if (month =? 2) && leap then Some 29
  else if month =? 2 then Some 28
  else None.

Definition days_from_civil (year month day : Z) : Z :=
  let year := if month <=? 2 then year - 1 else year in
  let era := year / 400 in
  let year_of_era := year - era * 400 in
  let month_prime := if 2 <? month then month - 3 else month + 9 in
  let day_of_year := (153 * month_prime + 2) / 5 + day - 1 in
  let day_of_era := year_of_era * 365 + year_of_era / 4 - year_of_era / 100 + day_of_year in
  era * 146097 + day_of_era - 719468.

(** [value[range].parse::<i64>().ok()]. *)
Definition number (value : string) (a b : nat) : option Z := parse_digits (slice a b value).

Definition timestamp (value : string) : option Z :=
  if negb (len value =? 20) then None
  else if negb (all_indexed timestamp_byte 0 value) then None
  else
    match number value 0 4, number value 5 7, number value 8 10,
          number value 11 13, number value 14 16, number value 17 19 with
    | Some year, Some month, Some day, Some hour, Some minute, Some second =>
        match days_in_month (leap_year year) month with
        | None => None
        | Some days =>
            if (year <? 1) || negb (in_range 1 days day) || (23 <? hour) || (59 <? minute)
               || (59 <? second)
            then None
            else Some (days_from_civil year month day * 86400 + hour * 3600 + minute * 60 + second)
        end
    | _, _, _, _, _, _ => None
    end.

(** [{n:02}] and [{n:04}]: the width counts the sign. *)
Definition fmt_zero (width : nat) (n : Z) : string :=
  if n <? 0 then "-" +:+ pad_zero (width - 1) (dec_string (- n)) else pad_zero width (dec_string n).

(** The date of [format_timestamp]: year, month and day of a day number. *)
Definition civil_from_days (days : Z) : Z * Z * Z :=
  let shifted := days + 719468 in
  let era := shifted / 146097 in
  let day_of_era := shifted - era * 146097 in
  let year_of_era :=
    (day_of_era - day_of_era / 1460 + day_of_era / 36524 - day_of_era / 146096) / 365 in
  let day_of_year := day_of_era - (365 * year_of_era + year_of_era / 4 - year_of_era / 100) in
  let month_prime := (5 * day_of_year + 2) / 153 in
  let day := day_of_year - (153 * month_prime + 2) / 5 + 1 in
  let month := if month_prime <? 10 then month_prime + 3 else month_prime - 9 in
  let year := year_of_era + era * 400 + (if month <=? 2 then 1 else 0) in
  (year, month, day).

Definition stamp_text (year month day hour minute second : Z) : string :=
  fmt_zero 4 year +:+ "-" +:+ fmt_zero 2 month +:+ "-" +:+ fmt_zero 2 day +:+ "T"
  +:+ fmt_zero 2 hour +:+ ":" +:+ fmt_zero 2 minute +:+ ":" +:+ fmt_zero 2 second +:+ "Z".

Definition format_timestamp (seconds : Z) : string :=
  let days := seconds / 86400 in
  let second_of_day := seconds mod 86400 in
  let '(year, month, day) := civil_from_days days in
  stamp_text year month day (second_of_day / 3600) (second_of_day mod 3600 / 60) (second_of_day mod 60).

(** ** The calendar *)

(** Days before 1 March of [year], counted from 1 March of year 0. *)
Definition days_before (year : Z) : Z := 365 * year + year / 4 - year / 100 + year / 400.

Definition march_year (year month : Z) : Z := if month <=? 2 then year - 1 else year.
Definition march_month (month : Z) : Z := if 2 <? month then month - 3 else month + 9.
Definition day_index (mp day : Z) : Z := (153 * mp + 2) / 5 + day - 1.

Lemma days_from_civil_eq y m d :
  days_from_civil y m d =
  days_before (march_year y m) + day_index (march_month m) d - 719468.
Proof.
  unfold days_from_civil, days_before, day_index, march_year, march_month.
  destruct (m <=? 2), (2 <? m); zdiv.
Qed.

Lemma days_before_step y :
  days_before (y + 1) = days_before y + (if leap_year (y + 1) then 366 else 365).
Proof.
  unfold days_before, leap_year.
  destruct (Z.eqb_spec ((y + 1) mod 4) 0), (Z.eqb_spec ((y + 1) mod 100) 0),
    (Z.eqb_spec ((y + 1) mod 400) 0); simpl; zdiv.
Qed.

Lemma days_before_mono y z : y <= z -> days_before y <= days_before z.
Proof. intros H. unfold days_before. zdiv. Qed.

(** A calendar date of the proleptic Gregorian calendar. *)
Definition valid_date (y m d : Z) : Prop :=
  exists days, days_in_month (leap_year y) m = Some days /\ 1 <= d <= days.

Lemma days_in_month_cases leap m days :
  days_in_month leap m = Some days ->
  1 <= m <= 12 /\ 28 <= days <= 31 /\ (m = 2 -> days = if leap then 29 else 28).
Proof.
  unfold days_in_month. cbn [existsb]. repeat case_match; intros [= <-]; bsplit; lia.
Qed.

Definition months : list Z := [1; 2; 3; 4; 5; 6; 7; 8; 9; 10; 11; 12].

Lemma month_in m : 1 <= m <= 12 -> m ∈ months.
Proof.
  intros H. apply list_elem_of_In. unfold months.
  assert (m = 1 \/ m = 2 \/ m = 3 \/ m = 4 \/ m = 5 \/ m = 6 \/ m = 7 \/ m = 8 \/ m = 9 \/ m = 10
    \/ m = 11 \/ m = 12) by lia.
  simpl. intuition.
Qed.

(** The month and day found from a day of the year. *)
Lemma month_of_day_index y m d :
  valid_date y m d ->
  (5 * day_index (march_month m) d + 2) / 153 = march_month m /\
  0 <= day_index (march_month m) d < (if leap_year (march_year y m + 1) then 366 else 365).
Proof.
  intros (days & Hd & Hr). destruct (days_in_month_cases _ _ _ Hd) as [Hm _].
  pose proof (month_in m Hm) as Hin.
  assert (m = 2 -> march_year y m + 1 = y) as Hfeb.
  { intros ->. unfold march_year. simpl. lia. }
  unfold months in Hin. unfold day_index.
  repeat (apply elem_of_cons in Hin as [->|Hin]); [..|by apply not_elem_of_nil in Hin].
  all: unfold march_month in *; unfold days_in_month in Hd; cbn in Hd; cbn [Z.leb Z.ltb Z.compare Pos.compare Pos.compare_cont]; simplify_eq.
  2: rewrite Hfeb by done; destruct (leap_year y) in Hd |- *; simplify_eq; zdiv.
  all: case_match; zdiv.
Qed.

Lemma day_index_lt y m d m' d' :
  valid_date y m d -> march_month m < march_month m' <= 11 -> 1 <= d' ->
  day_index (march_month m) d < day_index (march_month m') d'.
Proof.
  intros (days & Hd & Hr) Hm Hd'. destruct (days_in_month_cases _ _ _ Hd) as [Hm1 _].
  pose proof (month_in m Hm1) as Hin. unfold months in Hin. unfold day_index.
  repeat (apply elem_of_cons in Hin as [->|Hin]); [..|by apply not_elem_of_nil in Hin].
  all: unfold march_month in *; unfold days_in_month in Hd; cbn in Hd; cbn [Z.leb Z.ltb Z.compare Pos.compare Pos.compare_cont] in Hm |- *; simplify_eq.
  2: destruct (leap_year y) in Hd; simplify_eq; zdiv.
  all: destruct (2 <? m') eqn:?; zdiv.
Qed.

(** ** Years from day numbers *)

Definition year_of_day (doe : Z) : Z :=
  (doe - doe / 1460 + doe / 36524 - doe / 146096) / 365.

Lemma year_of_day_mono a b : 0 <= a <= b -> b <= 146095 -> year_of_day a <= year_of_day b.
Proof.
  intros Ha Hb. unfold year_of_day. apply Z.div_le_mono; [lia|].
  rewrite (Z.div_small a 146096), (Z.div_small b 146096) by lia. zdiv.
Qed.

Definition year_edges_ok (y : Z) : bool :=
  (year_of_day (days_before y) =? y) && (year_of_day (Z.min 146095 (days_before (y + 1) - 1)) =? y).

Lemma year_of_day_spec y doe :
  0 <= y < 400 -> days_before y <= doe < days_before (y + 1) -> year_of_day doe = y.
Proof.
  intros Hy Hd.
  assert (year_edges_ok y = true) as Hall.
  { apply (check_below_true 400); [vm_compute; reflexivity|lia]. }
  apply andb_true_iff in Hall as [He1 He2].
  pose proof (days_before_mono 0 y ltac:(lia)) as H0.
  pose proof (days_before_mono (y + 1) 400 ltac:(lia)) as H4.
  change (days_before 0) with 0 in H0. change (days_before 400) with 146097 in H4.
  destruct (Z.eq_dec doe 146096) as [->|Hne].
  - assert (y = 399) as ->; [|reflexivity].
    destruct (Z.lt_trichotomy y 399) as [Hlt|[?|?]]; [|done|lia].
    pose proof (days_before_mono (y + 1) 399 ltac:(lia)) as H3.
    change (days_before 399) with 145731 in H3. lia.
  - pose proof (year_of_day_mono (days_before y) doe).
    pose proof (year_of_day_mono doe (Z.min 146095 (days_before (y + 1) - 1))). lia.
Qed.

(** Every day of an era lies in one of its years. *)
Lemma year_exists doe n :
  0 <= doe < days_before (Z.of_nat n) ->
  exists y, 0 <= y < Z.of_nat n /\ days_before y <= doe < days_before (y + 1).
Proof.
  induction n as [|n IH]; intros Hd.
  - change (days_before (Z.of_nat 0)) with 0 in Hd. lia.
  - destruct (Z_lt_ge_dec doe (days_before (Z.of_nat n))) as [Hlt|Hge].
    + destruct IH as (y & Hy & Hr); [lia|]. exists y. split; [lia|done].
    + exists (Z.of_nat n). split; [lia|]. replace (Z.of_nat n + 1) with (Z.of_nat (S n)) by lia. lia.
Qed.

Lemma days_before_era k y : days_before (y + 400 * k) = days_before y + 146097 * k.
Proof. unfold days_before. zdiv. Qed.

Lemma days_before_small y : 0 <= y < 400 -> days_before y = 365 * y + y / 4 - y / 100.
Proof. intros H. unfold days_before. rewrite (Z.div_small y 400); lia. Qed.

(** Day [doy] of the March-based year [my]. *)
Lemma civil_from_days_eq my doy :
  0 <= doy < (if leap_year (my + 1) then 366 else 365) ->
  civil_from_days (days_before my + doy - 719468) =
    (let mp := (5 * doy + 2) / 153 in
     let m := if mp <? 10 then mp + 3 else mp - 9 in
     (my + (if m <=? 2 then 1 else 0), m, doy - (153 * mp + 2) / 5 + 1)).
Proof.
  intros Hdoy. pose proof (Z.div_mod my 400 ltac:(lia)) as Hmy.
  pose proof (Z.mod_pos_bound my 400 ltac:(lia)) as Hb.
  set (k := my / 400) in *. set (y := my mod 400) in *.
  pose proof (days_before_step my) as Hstep.
  rewrite Hmy in Hdoy, Hstep |- *.
  replace (400 * k + y) with (y + 400 * k) in * by lia.
  replace (y + 400 * k + 1) with (y + 1 + 400 * k) in Hstep by lia.
  rewrite !days_before_era in *.
  pose proof (days_before_mono 0 y ltac:(lia)) as H0. change (days_before 0) with 0 in H0.
  pose proof (days_before_mono (y + 1) 400 ltac:(lia)) as H4. change (days_before 400) with 146097 in H4.
  assert (leap_year (y + 1 + 400 * k) = leap_year (y + 400 * k + 1)) as Hl by (f_equal; lia).
  rewrite Hl in Hstep.
  assert (0 <= days_before y + doy < 146097) as Hr by (case_match; lia).
  unfold civil_from_days.
  replace (days_before y + 146097 * k + doy - 719468 + 719468) with (days_before y + doy + k * 146097) by lia.
  rewrite (Z.div_add (days_before y + doy)), (Z.div_small (days_before y + doy)) by lia.
  replace (days_before y + doy + k * 146097 - (0 + k) * 146097) with (days_before y + doy) by lia.
  fold (year_of_day (days_before y + doy)).
  rewrite (year_of_day_spec y) by (case_match; lia).
  rewrite <- (days_before_small y) by lia.
  replace (days_before y + doy - days_before y) with doy by lia.
  cbv zeta. f_equal. f_equal. lia.
Qed.

(** ** Dates and day numbers *)

Lemma civil_from_days_from_civil y m d :
  valid_date y m d -> civil_from_days (days_from_civil y m d) = (y, m, d).
Proof.
  intros Hv. destruct (month_of_day_index y m d Hv) as [Hmp Hdoy].
  destruct Hv as (days & Hd & Hr). destruct (days_in_month_cases _ _ _ Hd) as [Hm _].
  rewrite days_from_civil_eq, civil_from_days_eq by done. cbv zeta. rewrite Hmp.
  assert ((if march_month m <? 10 then march_month m + 3 else march_month m - 9) = m) as ->.
  { unfold march_month. repeat case_match; lia. }
  f_equal; [f_equal|].
  - unfold march_year. destruct (m <=? 2); lia.
  - unfold day_index. lia.
Qed.

Definition doy_ok (leap : bool) (doy : Z) : bool :=
  let mp := (5 * doy + 2) / 153 in
  let m := if mp <? 10 then mp + 3 else mp - 9 in
  match days_in_month leap m with
  | Some days => in_range 1 days (doy - (153 * mp + 2) / 5 + 1)
  | None => false
  end.

Lemma doy_ok_all (leap : bool) doy : 0 <= doy < (if leap then 366 else 365) -> doy_ok leap doy = true.
Proof.
  destruct leap; intros Hd.
  - apply (check_below_true 366); [vm_compute; reflexivity|lia].
  - apply (check_below_true 365); [vm_compute; reflexivity|lia].
Qed.

Lemma days_in_month_leap l1 l2 m : 2 < m -> days_in_month l1 m = days_in_month l2 m.
Proof. intros H. unfold days_in_month. destruct (Z.eqb_spec m 2); [lia|]. done. Qed.

Lemma days_from_civil_from_days n :
  match civil_from_days n with (y, m, d) => valid_date y m d /\ days_from_civil y m d = n end.
Proof.
  pose proof (Z.mod_pos_bound (n + 719468) 146097 ltac:(lia)) as Hb.
  pose proof (Z.div_mod (n + 719468) 146097 ltac:(lia)) as Hn.
  set (k := (n + 719468) / 146097) in *. set (doe := (n + 719468) mod 146097) in *.
  clearbody k doe.
  destruct (year_exists doe 400) as (y & Hy & Hr); [by change (days_before _) with 146097|].
  pose proof (days_before_step (y + 400 * k)) as Hstep.
  replace (y + 400 * k + 1) with (y + 1 + 400 * k) in Hstep by lia.
  rewrite !days_before_era in Hstep.
  replace (y + 1 + 400 * k) with (y + 400 * k + 1) in Hstep by lia.
  set (doy := doe - days_before y) in *. set (my := y + 400 * k) in *.
  assert (0 <= doy < (if leap_year (my + 1) then 366 else 365)) as Hdoy by (case_match; lia).
  assert (n = days_before my + doy - 719468) as ->.
  { unfold my. rewrite days_before_era. lia. }
  rewrite civil_from_days_eq by done. cbv zeta.
  pose proof (doy_ok_all _ _ Hdoy) as Hok. unfold doy_ok in Hok.
  set (mp := (5 * doy + 2) / 153) in *.
  assert (0 <= doy <= 365) as Hdoy2 by (destruct (leap_year (my + 1)); lia).
  assert (0 <= mp <= 11) as Hmp by (clear -Hdoy2; clearbody doy; unfold mp; zdiv).
  set (m := if mp <? 10 then mp + 3 else mp - 9) in *.
  destruct (days_in_month (leap_year (my + 1)) m) as [days|] eqn:Hdm; [|done].
  apply in_range_spec in Hok. split.
  - exists days. split; [|done]. destruct (Z.leb_spec m 2); [done|].
    by rewrite (days_in_month_leap _ (leap_year (my + 1))).
  - rewrite days_from_civil_eq.
    assert (march_month m = mp) as ->.
    { clear -Hmp. unfold march_month, m. clearbody mp.
      destruct (Z.ltb_spec mp 10); case_match; lia. }
    assert (march_year (my + (if m <=? 2 then 1 else 0)) m = my) as ->
      by (unfold march_year; destruct (m <=? 2); lia).
    unfold day_index. lia.
Qed.

(** Dates compared field by field. *)
Definition date_lt (y m d y' m' d' : Z) : Prop := y < y' \/ y = y' /\ (m < m' \/ m = m' /\ d < d').

Lemma days_from_civil_lt y m d y' m' d' :
  valid_date y m d -> valid_date y' m' d' -> date_lt y m d y' m' d' ->
  days_from_civil y m d < days_from_civil y' m' d'.
Proof.
  intros Hv Hv' Hlt. rewrite !days_from_civil_eq.
  destruct (month_of_day_index _ _ _ Hv) as [_ Hi], (month_of_day_index _ _ _ Hv') as [_ Hi'].
  pose proof Hv as (days & Hd & Hr). pose proof Hv' as (days' & Hd' & Hr').
  destruct (days_in_month_cases _ _ _ Hd) as [Hm _], (days_in_month_cases _ _ _ Hd') as [Hm' _].
  assert (march_year y m < march_year y' m' \/ march_year y m = march_year y' m' /\
    (march_month m < march_month m' <= 11 \/ march_month m = march_month m' /\ d < d')) as Hcase.
  { unfold date_lt, march_year, march_month in *. repeat case_match; lia. }
  destruct Hcase as [Hy|[-> [Hlm|[-> Hld]]]].
  - pose proof (days_before_step (march_year y m)) as Hs.
    pose proof (days_before_mono (march_year y m + 1) (march_year y' m') ltac:(lia)).
    case_match; lia.
  - pose proof (day_index_lt y m d m' d' Hv Hlm). lia.
  - unfold day_index. lia.
Qed.

(** ** The texts *)

Definition two (n : Z) : string := String (digit_byte (n / 10)) (String (digit_byte (n mod 10)) "").

Lemma fmt_two n : 0 <= n < 100 -> fmt_zero 2 n = two n.
Proof.
  intros Hn. apply String.eqb_eq.
  apply (check_below_true 100 (fun n => String.eqb (fmt_zero 2 n) (two n)));
    [vm_compute; reflexivity|lia].
Qed.

Lemma fmt_four n : 0 <= n < 10000 -> fmt_zero 4 n = two (n / 100) +:+ two (n mod 100).
Proof.
  intros Hn. apply String.eqb_eq.
  apply (check_below_true (100 * 100)
    (fun n => String.eqb (fmt_zero 4 n) (two (n / 100) +:+ two (n mod 100))));
    [vm_compute; reflexivity|lia].
Qed.

Lemma digit_byte_of_value b : is_ascii_digit b = true -> digit_byte (digit_value b) = b.
Proof. destruct b as [[] [] [] [] [] [] [] []]; done. Qed.

Lemma digit_value_bound b : is_ascii_digit b = true -> 0 <= digit_value b < 10.
Proof. unfold is_ascii_digit, digit_value. rewrite between_spec. lia. Qed.

(** Two digits of a text are the two digits of their value. *)
Lemma two_dec a b :
  is_ascii_digit a = true -> is_ascii_digit b = true ->
  two (dec_value (String a (String b ""))) = String a (String b "").
Proof.
  intros Ha Hb. pose proof (digit_value_bound a Ha). pose proof (digit_value_bound b Hb).
  unfold two, dec_value. cbn [dec_value_acc].
  replace ((10 * (10 * 0 + digit_value a) + digit_value b) / 10) with (digit_value a) by zdiv.
  replace ((10 * (10 * 0 + digit_value a) + digit_value b) mod 10) with (digit_value b) by zdiv.
  by rewrite !digit_byte_of_value.
Qed.

Lemma two_value n : 0 <= n < 100 -> dec_value (two n) = n.
Proof.
  intros Hn. unfold two, dec_value. cbn [dec_value_acc].
  rewrite !digit_byte_value by zdiv. zdiv.
Qed.

Lemma two_digits n : 0 <= n < 100 -> all_bytes is_ascii_digit (two n) = true.
Proof. intros Hn. unfold two. cbn [all_bytes]. rewrite !digit_byte_digit by zdiv. done. Qed.

(** ** Order of the texts *)

Lemma ltb_same b s t : String.ltb (String b s) (String b t) = String.ltb s t.
Proof.
  unfold String.ltb. cbn [String.compare].
  rewrite (proj2 (ascii_compare_eq b b) eq_refl). done.
Qed.

Lemma ltb_digit a b s t : 0 <= a < 10 -> 0 <= b < 10 ->
  String.ltb (String (digit_byte a) s) (String (digit_byte b) t) =
  (a <? b) || (a =? b) && String.ltb s t.
Proof.
  intros Ha Hb. unfold String.ltb. cbn [String.compare]. unfold Ascii.compare.
  change N_of_ascii with code. rewrite !digit_byte_code by done.
  destruct (N.compare_spec (Z.to_N (48 + a)) (Z.to_N (48 + b))).
  - replace (a <? b) with false by lia. replace (a =? b) with true by lia. done.
  - by replace (a <? b) with true by lia.
  - replace (a <? b) with false by lia. by replace (a =? b) with false by lia.
Qed.

Lemma ltb_two n m s t : 0 <= n < 100 -> 0 <= m < 100 ->
  String.ltb (two n +:+ s) (two m +:+ t) = (n <? m) || (n =? m) && String.ltb s t.
Proof.
  intros Hn Hm. unfold two. rewrite !str_app_cons. rewrite !ltb_digit by zdiv.
  change ("" +:+ s) with s. change ("" +:+ t) with t.
  destruct (String.ltb s t); rewrite ?andb_true_r, ?andb_false_r, ?orb_false_r; zdiv.
Qed.

Lemma ltb_four n m s t : 0 <= n < 10000 -> 0 <= m < 10000 ->
  String.ltb (two (n / 100) +:+ two (n mod 100) +:+ s) (two (m / 100) +:+ two (m mod 100) +:+ t) =
  (n <? m) || (n =? m) && String.ltb s t.
Proof.
  intros Hn Hm. rewrite !ltb_two by zdiv.
  destruct (String.ltb s t); rewrite ?andb_true_r, ?andb_false_r, ?orb_false_r; zdiv.
Qed.

Definition stamp_two (y m d h mi s : Z) : string :=
  (two (y / 100) +:+ two (y mod 100)) +:+ "-" +:+ two m +:+ "-" +:+ two d +:+ "T" +:+ two h +:+ ":"
  +:+ two mi +:+ ":" +:+ two s +:+ "Z".

Definition fields_ok (y m d h mi s : Z) : Prop :=
  0 <= y < 10000 /\ 0 <= m < 100 /\ 0 <= d < 100 /\ 0 <= h < 100 /\ 0 <= mi < 100 /\ 0 <= s < 100.

Lemma stamp_text_two y m d h mi s :
  fields_ok y m d h mi s -> stamp_text y m d h mi s = stamp_two y m d h mi s.
Proof.
  intros (Hy & Hm & Hd & Hh & Hmi & Hs). unfold stamp_text, stamp_two.
  by rewrite fmt_four, !fmt_two.
Qed.

Lemma stamp_text_ltb y m d h mi s y' m' d' h' mi' s' :
  fields_ok y m d h mi s -> fields_ok y' m' d' h' mi' s' ->
  String.ltb (stamp_text y m d h mi s) (stamp_text y' m' d' h' mi' s') = true <->
  date_lt y m d y' m' d' \/ (y = y' /\ m = m' /\ d = d' /\ date_lt h mi s h' mi' s').
Proof.
  intros Hf Hf'. rewrite !stamp_text_two by done.
  destruct Hf as (Hy & Hm & Hd & Hh & Hmi & Hs), Hf' as (Hy' & Hm' & Hd' & Hh' & Hmi' & Hs').
  unfold stamp_two. rewrite <- !(str_app_assoc (two (_ / 100))), ltb_four by done.
  rewrite !str_app_cons. change ("" +:+ ?x) with x. rewrite !ltb_same.
  repeat (rewrite ltb_two by done; rewrite ?str_app_cons; change ("" +:+ ?x) with x;
    rewrite ?ltb_same).
  change (String.ltb "" "") with false. unfold date_lt. lia.
Qed.

(** ** Round trips *)

Lemma dec_value_four a b c d :
  is_ascii_digit a = true -> is_ascii_digit b = true -> is_ascii_digit c = true ->
  is_ascii_digit d = true ->
  let n := dec_value (String a (String b (String c (String d "")))) in
  0 <= n < 10000 /\ fmt_zero 4 n = String a (String b (String c (String d ""))).
Proof.
  intros Ha Hb Hc Hd n.
  pose proof (digit_value_bound a Ha). pose proof (digit_value_bound b Hb).
  pose proof (digit_value_bound c Hc). pose proof (digit_value_bound d Hd).
  assert (n = 1000 * digit_value a + 100 * digit_value b + 10 * digit_value c + digit_value d) as Hn.
  { unfold n, dec_value. cbn [dec_value_acc]. lia. }
  split; [lia|]. rewrite fmt_four by lia.
  replace (n / 100) with (dec_value (String a (String b "")))
    by (unfold dec_value; cbn [dec_value_acc]; zdiv).
  replace (n mod 100) with (dec_value (String c (String d "")))
    by (unfold dec_value; cbn [dec_value_acc]; zdiv).
  by rewrite !two_dec.
Qed.

Lemma dec_value_two a b :
  is_ascii_digit a = true -> is_ascii_digit b = true ->
  let n := dec_value (String a (String b "")) in
  0 <= n < 100 /\ fmt_zero 2 n = String a (String b "").
Proof.
  intros Ha Hb n. pose proof (digit_value_bound a Ha). pose proof (digit_value_bound b Hb).
  assert (0 <= n < 100) by (unfold n, dec_value; cbn [dec_value_acc]; lia).
  split; [done|]. rewrite fmt_two by done. by apply two_dec.
Qed.

(** The calendar reading of a time stamp text. *)
Definition stamp_denotes (s : string) (t : Z) : Prop :=
  exists y m d h mi sec, s = stamp_text y m d h mi sec /\ 1 <= y <= 9999 /\ valid_date y m d /\
    0 <= h <= 23 /\ 0 <= mi <= 59 /\ 0 <= sec <= 59 /\
    t = days_from_civil y m d * 86400 + h * 3600 + mi * 60 + sec.

Lemma parse_digits_some s : s <> "" -> all_bytes is_ascii_digit s = true -> parse_digits s = Some (dec_value s).
Proof.
  intros Hs Hd. unfold parse_digits, is_empty. rewrite Hd.
  destruct (String.eqb_spec s ""); done.
Qed.

Lemma parse_two n : 0 <= n < 100 -> parse_digits (two n) = Some n.
Proof. intros Hn. rewrite parse_digits_some, two_value; [done..|]. by apply two_digits. Qed.

Lemma parse_four n : 0 <= n < 10000 -> parse_digits (two (n / 100) +:+ two (n mod 100)) = Some n.
Proof.
  intros Hn. rewrite parse_digits_some; [|done|].
  - f_equal. unfold dec_value. rewrite dec_value_acc_app. fold (dec_value (two (n / 100))).
    rewrite two_value by zdiv. unfold two. cbn [dec_value_acc].
    rewrite !digit_byte_value by zdiv. zdiv.
  - rewrite all_bytes_app, !two_digits by zdiv. done.
Qed.

Lemma all_indexed_20 s :
  len s = 20 -> all_indexed timestamp_byte 0 s = true ->
  exists y1 y2 y3 y4 m1 m2 d1 d2 h1 h2 i1 i2 s1 s2,
    s = String y1 (String y2 (String y3 (String y4 (String "-" (String m1 (String m2 (String "-"
      (String d1 (String d2 (String "T" (String h1 (String h2 (String ":" (String i1 (String i2
      (String ":" (String s1 (String s2 "Z")))))))))))))))))) /\
    forallb is_ascii_digit [y1; y2; y3; y4; m1; m2; d1; d2; h1; h2; i1; i2; s1; s2] = true.
Proof.
  intros Hl Ha.
  do 20 (destruct s as [|? s]; [discriminate Hl|]). destruct s as [|? s].
  2:{ unfold len in Hl. simpl in Hl. lia. }
  clear Hl. cbn [all_indexed timestamp_byte] in Ha. bsplit.
  repeat match goal with H : Ascii.eqb _ _ = true |- _ => apply Ascii.eqb_eq in H as -> end.
  do 14 eexists. split; [reflexivity|]. cbn [forallb]. by rewrite ?andb_true_iff.
Qed.

Lemma timestamp_denotes s t : timestamp s = Some t -> stamp_denotes s t.
Proof.
  unfold timestamp. destruct (len s =? 20) eqn:Hl; [|done]. apply Z.eqb_eq in Hl.
  destruct (all_indexed timestamp_byte 0 s) eqn:Ha; [|done]. cbn [negb].
  destruct (all_indexed_20 s Hl Ha) as (y1&y2&y3&y4&m1&m2&d1&d2&h1&h2&i1&i2&s1&s2&->&Hd).
  clear Hl Ha. cbn [forallb] in Hd. bsplit.
  unfold number, slice.
  cbn [String.substring Nat.sub].
  rewrite !parse_digits_some by (done || (cbn [all_bytes]; rewrite ?andb_true_iff; done)).
  destruct (dec_value_four y1 y2 y3 y4) as [Hy Hy']; [done..|].
  destruct (dec_value_two m1 m2) as [Hm Hm']; [done..|].
  destruct (dec_value_two d1 d2) as [Hd Hd']; [done..|].
  destruct (dec_value_two h1 h2) as [Hh Hh']; [done..|].
  destruct (dec_value_two i1 i2) as [Hi Hi']; [done..|].
  destruct (dec_value_two s1 s2) as [Hs Hs']; [done..|].
  match goal with |- context [days_in_month ?l ?m] => destruct (days_in_month l m) as [days|] eqn:Hdm end;
    [|done].
  destruct (_ || _) eqn:Hc; [done|]. intros [= <-]. bsplit.
  repeat match goal with H : in_range _ _ _ = true |- _ => apply in_range_spec in H end.
  do 6 eexists. split; [unfold stamp_text; rewrite Hy', Hm', Hd', Hh', Hi', Hs'; reflexivity|].
  split; [lia|]. split; [eexists; split; [exact Hdm|lia]|]. split_and!; try lia.
Qed.

Lemma denotes_timestamp s t : stamp_denotes s t -> timestamp s = Some t.
Proof.
  intros (y & m & d & h & mi & sec & -> & Hy & (days & Hdm & Hd) & Hh & Hmi & Hs & ->).
  pose proof (days_in_month_cases _ _ _ Hdm) as (Hm & Hdays & _).
  rewrite stamp_text_two by (unfold fields_ok; lia).
  unfold timestamp.
  assert (len (stamp_two y m d h mi sec) = 20) as -> by done.
  assert (all_indexed timestamp_byte 0 (stamp_two y m d h mi sec) = true) as ->.
  { unfold stamp_two, two. repeat rewrite ?str_app_cons, ?str_app_nil_l.
    cbn [all_indexed timestamp_byte]. rewrite !digit_byte_digit by zdiv. done. }
  change (negb (20 =? 20)) with false. cbn [negb].
  unfold number.
  change (slice 0 4 (stamp_two y m d h mi sec)) with (two (y / 100) +:+ two (y mod 100)).
  change (slice 5 7 (stamp_two y m d h mi sec)) with (two m).
  change (slice 8 10 (stamp_two y m d h mi sec)) with (two d).
  change (slice 11 13 (stamp_two y m d h mi sec)) with (two h).
  change (slice 14 16 (stamp_two y m d h mi sec)) with (two mi).
  change (slice 17 19 (stamp_two y m d h mi sec)) with (two sec).
  rewrite parse_four, !parse_two by lia. rewrite Hdm.
  assert (in_range 1 days d = true) as -> by (apply in_range_spec; lia).
  replace (y <? 1) with false by lia. replace (23 <? h) with false by lia.
  replace (59 <? mi) with false by lia. by replace (59 <? sec) with false by lia.
Qed.

(** First and last second that [timestamp] can denote. *)
Definition stamp_min : Z := -62135596800.
Definition stamp_max : Z := 253402300799.

Lemma year_bounds y m d :
  valid_date y m d -> (days_from_civil 1 1 1 <= days_from_civil y m d <= days_from_civil 9999 12 31 <->
  1 <= y <= 9999).
Proof.
  intros Hv. assert (valid_date 1 1 1) as H1 by (exists 31; split; [done|lia]).
  assert (valid_date 9999 12 31) as H2 by (exists 31; split; [done|lia]).
  pose proof Hv as (days & Hdm & Hd). pose proof (days_in_month_cases _ _ _ Hdm) as (Hm & Hdays & _).
  pose proof (days_from_civil_lt _ _ _ _ _ _ Hv H1) as L1.
  pose proof (days_from_civil_lt _ _ _ _ _ _ H1 Hv) as L1'.
  pose proof (days_from_civil_lt _ _ _ _ _ _ H2 Hv) as L2.
  pose proof (days_from_civil_lt _ _ _ _ _ _ Hv H2) as L2'.
  unfold date_lt in *. split; intros H.
  - destruct (Z_lt_ge_dec y 1); [lia|]. destruct (Z_lt_ge_dec 9999 y); [lia|]. lia.
  - split.
    + destruct (Z.eq_dec y 1) as [->|]; [|lia]. destruct (Z.eq_dec m 1) as [->|]; [|lia].
      destruct (Z.eq_dec d 1) as [->|]; lia.
    + destruct (Z.eq_dec y 9999) as [->|]; [|lia]. destruct (Z.eq_dec m 12) as [->|]; [|lia].
      destruct (Z.eq_dec d 31) as [->|]; lia.
Qed.

Lemma format_denotes t : stamp_min <= t <= stamp_max -> stamp_denotes (format_timestamp t) t.
Proof.
  intros Ht. unfold format_timestamp.
  pose proof (days_from_civil_from_days (t / 86400)) as Hc.
  destruct (civil_from_days (t / 86400)) as [[y m] d]. destruct Hc as [Hv He].
  pose proof (year_bounds y m d Hv) as Hy. rewrite He in Hy.
  change (days_from_civil 1 1 1) with (-719162) in Hy.
  change (days_from_civil 9999 12 31) with 2932896 in Hy. unfold stamp_min, stamp_max in Ht.
  do 6 eexists. split; [reflexivity|]. split; [apply Hy; zdiv|]. split; [exact Hv|].
  rewrite He. clear He Hy Hv. split_and!; zdiv.
Qed.

(** Every second from year 1 to year 9999 is written as a text that
    [timestamp] reads back as the same second. *)
Theorem timestamp_format t :
  stamp_min <= t <= stamp_max -> timestamp (format_timestamp t) = Some t.
Proof. intros Ht. by apply denotes_timestamp, format_denotes. Qed.

Lemma timestamp_format_witness : timestamp (format_timestamp 1790157900) = Some 1790157900.
Proof. apply timestamp_format. unfold stamp_min, stamp_max. lia. Defined.

(** A text that [timestamp] accepts is the one [format_timestamp]
    writes: there is one text per second, and reading then writing changes
    nothing. *)
Theorem format_timestamp_timestamp s t :
  timestamp s = Some t -> format_timestamp t = s /\ stamp_min <= t <= stamp_max.
Proof.
  intros (y & m & d & h & mi & sec & -> & Hy & Hv & Hh & Hmi & Hs & ->)%timestamp_denotes.
  unfold format_timestamp.
  replace ((days_from_civil y m d * 86400 + h * 3600 + mi * 60 + sec) / 86400)
    with (days_from_civil y m d) by zdiv.
  rewrite civil_from_days_from_civil by done. split.
  - f_equal; zdiv.
  - pose proof (proj2 (year_bounds y m d Hv) Hy) as Hb.
    change (days_from_civil 1 1 1) with (-719162) in Hb.
    change (days_from_civil 9999 12 31) with 2932896 in Hb. unfold stamp_min, stamp_max. lia.
Qed.

Lemma format_timestamp_timestamp_witness :
  format_timestamp 1790157900 = "2026-09-23T10:05:00Z" /\ stamp_min <= 1790157900 <= stamp_max.
Proof. apply format_timestamp_timestamp. vm_compute. reflexivity. Defined.

Lemma stamp_denotes_lt s1 t1 s2 t2 :
  stamp_denotes s1 t1 -> stamp_denotes s2 t2 -> t1 < t2 -> String.ltb s1 s2 = true.
Proof.
  intros (y & m & d & h & mi & sec & -> & Hy & Hv & Hh & Hmi & Hs & ->)
    (y' & m' & d' & h' & mi' & sec' & -> & Hy' & Hv' & Hh' & Hmi' & Hs' & ->) Hlt.
  pose proof Hv as (days & Hdm & Hd). pose proof (days_in_month_cases _ _ _ Hdm) as (Hm & Hdays & _).
  pose proof Hv' as (days' & Hdm' & Hd'). pose proof (days_in_month_cases _ _ _ Hdm') as (Hm' & Hdays' & _).
  apply stamp_text_ltb; [unfold fields_ok; lia..|].
  pose proof (days_from_civil_lt _ _ _ _ _ _ Hv' Hv) as Hrev. unfold date_lt in *.
  destruct (Z_lt_ge_dec y y'); [lia|]. destruct (Z_lt_ge_dec y' y); [lia|].
  destruct (Z_lt_ge_dec m m'); [lia|]. destruct (Z_lt_ge_dec m' m); [lia|].
  destruct (Z_lt_ge_dec d d'); [lia|]. destruct (Z_lt_ge_dec d' d); [lia|].
  assert (y = y') as -> by lia. assert (m = m') as -> by lia. assert (d = d') as -> by lia. lia.
Qed.

Lemma format_ltb t1 t2 :
  stamp_min <= t1 <= stamp_max -> stamp_min <= t2 <= stamp_max ->
  String.ltb (format_timestamp t1) (format_timestamp t2) = (t1 <? t2).
Proof.
  intros H1 H2. pose proof (format_denotes t1 H1) as D1. pose proof (format_denotes t2 H2) as D2.
  destruct (Z.lt_trichotomy t1 t2) as [Hlt|[->|Hgt]].
  - rewrite (stamp_denotes_lt _ _ _ _ D1 D2 Hlt). lia.
  - rewrite str_ltb_irrefl. lia.
  - rewrite (str_ltb_asym _ _ (stamp_denotes_lt _ _ _ _ D2 D1 Hgt)). lia.
Qed.

(** The store may compare time stamps as text: on the texts written for
    years 1 to 9999 the byte order is the order of the seconds. *)
Theorem format_timestamp_lt t1 t2 :
  stamp_min <= t1 <= stamp_max -> stamp_min <= t2 <= stamp_max ->
  String.ltb (format_timestamp t1) (format_timestamp t2) = (t1 <? t2).
Proof. apply format_ltb. Qed.

Lemma format_timestamp_lt_witness :
  String.ltb (format_timestamp 999) (format_timestamp 1790157900) = true.
Proof. rewrite format_timestamp_lt; [reflexivity|unfold stamp_min, stamp_max; lia..]. Defined.
