(* ===== verification/Text.v ===== *)
(** * Text patterns

    src/signed_plan/text.rs: the anchored matchers for the string patterns of
    a plan (identifiers, host names, image names, git refs, addresses).  The
    time stamps of the same file are in Calendar.v. *)

From S2P Require Import Prelude RustStr.


Definition is_lower_hex (byte : ascii) : bool := is_ascii_digit byte || between 97 102 byte.

Definition hex_n (value : string) (length : Z) : bool :=
  (len value =? length) && all_bytes is_lower_hex value.

Definition hex64 (value : string) : bool := hex_n value 64.
Definition hex40 (value : string) : bool := hex_n value 40.

Definition uuid7_byte (index : nat) (byte : ascii) : bool :=
  match index with
  | 8 | 13 | 18 | 23 => Ascii.eqb byte "-"
  | 14 => Ascii.eqb byte "7"
  | 19 => one_of "89ab" byte
  | _ => is_lower_hex byte
  end%nat.

Definition uuid7 (value : string) : bool :=
  if negb (len value =? 36) then false else all_indexed uuid7_byte 0 value.

(** [bytes[0]] after a length test. *)
Definition first_is (p : ascii -> bool) (s : string) : bool := is_some_and (first_byte s) p.
Definition last_is (p : ascii -> bool) (s : string) : bool := is_some_and (last_byte s) p.

Definition reference (value : string) : bool :=
  negb (is_empty value) && (len value <=? 64)
  && first_is is_ascii_alphanumeric value
  && all_bytes (fun byte => is_ascii_alphanumeric byte || one_of "._-" byte) value.

Definition is_b64url (byte : ascii) : bool := is_ascii_alphanumeric byte || one_of "_-" byte.

Definition key_id (value : string) : bool := (len value =? 22) && all_bytes is_b64url value.

Definition env_name (value : string) : bool :=
  negb (is_empty value) && (len value <=? 128)
  && first_is (fun b => is_ascii_alphabetic b || Ascii.eqb b "_") value
  && all_bytes (fun byte => is_ascii_alphanumeric byte || Ascii.eqb byte "_") value.

Definition lower_digit (byte : ascii) : bool := is_ascii_lowercase byte || is_ascii_digit byte.

Definition host_label (label : string) (final_label : bool) : bool :=
  if is_empty label || (63 <? len label) then false
  else
    let first_ok := first_is (if final_label then is_ascii_lowercase else lower_digit) label in
    let last_ok := final_label || last_is lower_digit label in
    first_ok && last_ok && all_bytes (fun byte => lower_digit byte || Ascii.eqb byte "-") label.

Definition hostname (value : string) : bool :=
  if is_empty value || (253 <? len value) then false
  else
    let labels := split "." value in
    if lenl labels <? 2 then false
    else match split_last labels with
    | Some (last, rest) => forallb (fun label => host_label label false) rest && host_label last true
    | None => false
    end.

Definition octet (value : string) : option Z :=
  let ok := negb (is_empty value) && (len value <=? 3) && all_bytes is_ascii_digit value
            && ((len value =? 1) || negb (starts_with "0" value)) in
  if ok then
    match parse_digits value with
    | Some n => if n <=? 255 then Some n else None
    | None => None
    end
  else None.

(** [(acc << 8) | octet] on [u32]: the bits shifted out are lost. *)
Definition push_octet (acc n : Z) : Z := Z.lor (Z.land (Z.shiftl acc 8) 4294967295) n.

Fixpoint fold_octets (acc : Z) (parts : list string) : option Z :=
  match parts with
  | [] => Some acc
  | part :: rest =>
      match octet part with Some n => fold_octets (push_octet acc n) rest | None => None end
  end.

Definition ipv4_parts (value : string) (separator : ascii) : option Z :=
  let parts := split separator value in
  if negb (lenl parts =? 4) then None else fold_octets 0 parts.

Definition NON_PUBLIC_IPV4 : list (Z * Z) :=
  [ (0x00000000, 8); (0x0a000000, 8); (0x64400000, 10); (0x7f000000, 8); (0xa9fe0000, 16);
    (0xac100000, 12); (0xc0000000, 24); (0xc0000200, 24); (0xc0586300, 24); (0xc0a80000, 16);
    (0xc6120000, 15); (0xc6336400, 24); (0xcb007100, 24); (0xe0000000, 4); (0xf0000000, 4) ].

Definition public_ipv4 (value : string) : bool :=
  is_some_and (ipv4_parts value ".") (fun ip =>
    forallb (fun '(net, bits) =>
      negb (Z.shiftr ip (32 - bits) =? Z.shiftr net (32 - bits))) NON_PUBLIC_IPV4).

Definition ipv4_shaped (value : string) : bool :=
  negb (is_empty value) && all_bytes (fun byte => is_ascii_digit byte || Ascii.eqb byte ".") value.

Definition default_route (value : string) : bool :=
  match strip_suffix ".sslip.io" value with
  | None => false
  | Some rest =>
      match split_once "." rest with
      | None => false
      | Some (label, ip) =>
          let label_ok :=
            negb (is_empty label) && (len label <=? 63)
            && all_bytes (fun byte => lower_digit byte || Ascii.eqb byte "-") label
            && negb (starts_with "-" label) && negb (ends_with "-" label) in
          label_ok && is_some (ipv4_parts ip "-")
      end
  end.

Definition cron (value : string) : bool :=
  let fields := split " " value in
  (lenl fields =? 5)
  && forallb (fun field => negb (is_empty field)
       && all_bytes (fun byte => is_ascii_digit byte || one_of "*/,-" byte) field) fields.

Definition digits (value : string) : bool := negb (is_empty value) && all_bytes is_ascii_digit value.

Definition semver (value : string) : bool :=
  let '(core, pre) := match split_once "-" value with
    | Some (core, pre) => (core, Some pre)
    | None => (value, None)
    end in
  let parts := split "." core in
  (lenl parts =? 3) && forallb digits parts
  && is_none_or pre (fun pre => negb (is_empty pre)
       && all_bytes (fun byte => is_ascii_alphanumeric byte || one_of ".-" byte) pre).

Definition repo (value : string) : bool :=
  match split_first (split "/" value) with
  | None => false
  | Some (host, path) =>
      negb (is_empty host)
      && all_bytes (fun byte => lower_digit byte || one_of ".-" byte) host
      && in_range 1 4 (lenl path)
      && forallb (fun segment => negb (is_empty segment)
           && all_bytes (fun byte => is_ascii_alphanumeric byte || one_of "._-" byte) segment) path
  end.

Definition delivery_id (value : string) : bool :=
  in_range 1 128 (len value)
  && all_bytes (fun byte => is_ascii_alphanumeric byte || one_of "._:-" byte) value.

Definition abs_path (value : string) : bool :=
  (2 <=? len value) && (len value <=? 256) && starts_with "/" value
  && all_bytes (fun byte => is_ascii_alphanumeric byte || one_of "._/-" byte) (slice_from 1 value).

Definition bucket (value : string) : bool :=
  in_range 3 63 (len value) && first_is lower_digit value && last_is lower_digit value
  && all_bytes (fun byte => lower_digit byte || one_of ".-" byte) value.

Definition timezone (value : string) : bool :=
  if String.eqb value "UTC" then true
  else match split_first (split "/" value) with
  | None => false
  | Some (area, rest) =>
      negb (is_empty area)
      && all_bytes (fun byte => is_ascii_alphabetic byte || Ascii.eqb byte "_") area
      && in_range 1 2 (lenl rest)
      && forallb (fun part => negb (is_empty part)
           && all_bytes (fun byte => is_ascii_alphanumeric byte || one_of "_+-" byte) part) rest
  end.

Definition image_component (value : string) : bool :=
  negb (is_empty value) && first_is lower_digit value && last_is lower_digit value
  && all_bytes (fun byte => lower_digit byte || one_of "._-" byte) value.

Definition image_repository (value : string) : bool :=
  match split_first (split "/" value) with
  | None => false
  | Some (host, path) =>
      let host_ok := match split_once ":" host with
        | Some (name, port) => image_component name && digits port && (len port <=? 5)
        | None => image_component host
        end in
      host_ok && (lenl path <=? 6) && forallb image_component path
  end.

Definition capability (value : string) : bool :=
  in_range 2 32 (len value) && first_is is_ascii_uppercase value
  && all_bytes (fun byte => is_ascii_uppercase byte || Ascii.eqb byte "_") value.

Definition user_part (value : string) : bool :=
  in_range 1 32 (len value)
  && first_is (fun b => is_ascii_alphanumeric b || Ascii.eqb b "_") value
  && all_bytes (fun byte => is_ascii_alphanumeric byte || one_of "_.-" byte) value.

Definition user (value : string) : bool :=
  match split_once ":" value with
  | Some (name, group) => user_part name && user_part group
  | None => user_part value
  end.

Definition forbidden (code : N) : bool :=
  ((code <=? 0x1f)
   || (0x7f <=? code) && (code <=? 0x9f)
   || (code =? 0x061c)
   || (0x200b <=? code) && (code <=? 0x200f)
   || (0x202a <=? code) && (code <=? 0x202e)
   || (0x2060 <=? code) && (code <=? 0x2069)
   || (code =? 0xfeff))%N.

Definition label_chars_ok (value : string) : bool :=
  negb (existsb forbidden (chars value)) && String.eqb (trim value) value.

Definition ref_name_ok (name : string) : bool :=
  in_range 1 200 (len name)
  && all_bytes (fun byte => is_ascii_alphanumeric byte || one_of "._/-" byte) name
  && negb (contains_sub ".." name) && negb (contains_sub "//" name)
  && negb (contains_sub "@{" name)
  && negb (starts_with "/" name) && negb (starts_with "-" name)
  && negb (ends_with "/" name) && negb (ends_with "." name)
  && negb (ends_with ".lock" name)
  && forallb (fun component =>
       negb (starts_with "." component) && negb (ends_with ".lock" component)) (split "/" name).

Definition git_ref (value : string) (pattern : bool) : bool :=
  if 211 <? len value then false
  else match strip_prefix "refs/heads/" value with
  | None => false
  | Some name =>
      ref_name_ok
        (if pattern then match strip_suffix "/*" name with Some prefix => prefix | None => name end
         else name)
  end.

(** * Facts about the text patterns

    IPv4 texts of src/signed_plan/text.rs: which texts are accepted and which
    address they denote. *)

(** ** Octets *)

Definition digit_chars : list ascii := list_ascii_of_string "0123456789".

Lemma digit_in_chars b : is_ascii_digit b = true -> b ∈ digit_chars.
Proof.
  intros H. apply list_elem_of_In. destruct b as [[] [] [] [] [] [] [] []]; try discriminate H;
    simpl; tauto.
Qed.

(** All texts of one, two and three digits. *)
Definition short_digit_texts : list string :=
  let one := (fun b => String b "") <$> digit_chars in
  let add l := digit_chars ≫= (fun b => String b <$> l) in
  one ++ add one ++ add (add one).

Lemma short_digit_texts_complete v :
  is_empty v = false -> len v <= 3 -> all_bytes is_ascii_digit v = true -> v ∈ short_digit_texts.
Proof.
  intros He Hl Hd. unfold short_digit_texts.
  destruct v as [|a [|b [|c [|d v]]]]; [done| | | |unfold len in Hl; simpl in Hl; lia];
    cbn [all_bytes] in Hd; bsplit; rewrite !elem_of_app.
  - left. apply (list_elem_of_fmap_2 (fun b => String b "")). by apply digit_in_chars.
  - right; left. apply list_elem_of_bind. exists a. split; [|by apply digit_in_chars].
    apply list_elem_of_fmap_2, (list_elem_of_fmap_2 (fun b => String b "")). by apply digit_in_chars.
  - right; right. apply list_elem_of_bind. exists a. split; [|by apply digit_in_chars].
    apply list_elem_of_fmap_2, list_elem_of_bind. exists b. split; [|by apply digit_in_chars].
    apply list_elem_of_fmap_2, (list_elem_of_fmap_2 (fun b => String b "")). by apply digit_in_chars.
Qed.

Definition octet_text_ok (v : string) : bool :=
  match octet v with
  | Some n => (0 <=? n) && (n <=? 255) && String.eqb v (dec_string n)
  | None => true
  end.

Definition octet_value_ok (n : Z) : bool :=
  match octet (dec_string n) with Some m => m =? n | None => false end.

Lemma octet_spec v n : octet v = Some n <-> 0 <= n <= 255 /\ v = dec_string n.
Proof.
  split.
  - intros H. assert (v ∈ short_digit_texts) as Hin.
    { unfold octet in H. destruct (_ && _) eqn:Hc in H; [|done]. bsplit.
      apply short_digit_texts_complete; [done|lia|done]. }
    assert (forallb octet_text_ok short_digit_texts = true) as Hall by (vm_compute; reflexivity).
    rewrite forallb_Forall, Forall_forall in Hall. specialize (Hall v Hin).
    unfold octet_text_ok in Hall. rewrite H in Hall. bsplit.
    split; [lia|]. by apply String.eqb_eq.
  - intros [Hn ->].
    assert (octet_value_ok n = true) as Hok.
    { apply (check_below_true 256); [vm_compute; reflexivity|lia]. }
    unfold octet_value_ok in Hok.
    destruct (octet (dec_string n)); [|done]. f_equal. lia.
Qed.

Lemma push_octet_add acc n : 0 <= acc < 2 ^ 24 -> 0 <= n < 256 -> push_octet acc n = acc * 256 + n.
Proof.
  intros Ha Hn. unfold push_octet. change 4294967295 with (Z.ones 32).
  rewrite Z.land_ones, Z.shiftl_mul_pow2 by lia. rewrite Z.mod_small by lia.
  pose proof (Z.add_lor_land (acc * 2 ^ 8) n) as Hadd.
  enough (Z.land (acc * 2 ^ 8) n = 0) as H0 by lia.
  apply Z.bits_inj'. intros i Hi. rewrite Z.land_spec, Z.bits_0.
  destruct (Z.ltb_spec i 8) as [Hlt|Hge].
  - rewrite Z.mul_pow2_bits_low by lia. done.
  - replace (Z.testbit n i) with false; [by rewrite andb_false_r|].
    symmetry. rewrite <- (Z.mod_small n (2 ^ 8)) by lia. by rewrite Z.mod_pow2_bits_high by lia.
Qed.

(** ** Addresses *)

Definition ipv4_text (sep : ascii) (a b c d : Z) : string :=
  join_str (String sep "") [dec_string a; dec_string b; dec_string c; dec_string d].

Definition byte_value (n : Z) : Prop := 0 <= n <= 255.

Lemma no_sep_digits sep n :
  is_ascii_digit sep = false -> 0 <= n ->
  all_bytes (fun b => negb (Ascii.eqb b sep)) (dec_string n) = true.
Proof.
  intros Hs Hn. destruct (dec_string_spec n Hn) as (_ & Hd & _).
  eapply all_bytes_impl; [|exact Hd]. intros b Hb. apply negb_true_iff.
  destruct (Ascii.eqb_spec b sep) as [->|]; congruence.
Qed.

Lemma ipv4_parts_spec value sep ip :
  is_ascii_digit sep = false ->
  ipv4_parts value sep = Some ip <->
  exists a b c d, byte_value a /\ byte_value b /\ byte_value c /\ byte_value d /\
    value = ipv4_text sep a b c d /\ ip = ((a * 256 + b) * 256 + c) * 256 + d.
Proof.
  intros Hsep. unfold ipv4_parts. split.
  - destruct (lenl (split sep value) =? 4) eqn:Hl; [|done]. simpl.
    pose proof (join_split sep value) as Hj.
    destruct (split sep value) as [|pa [|pb [|pc [|pd [|]]]]]; try discriminate Hl;
      [|exfalso; apply Z.eqb_eq in Hl; unfold lenl in Hl; cbn in Hl; lia].
    cbn [fold_octets].
    destruct (octet pa) as [a|] eqn:Ha; [|done]. destruct (octet pb) as [b|] eqn:Hb; [|done].
    destruct (octet pc) as [c|] eqn:Hc; [|done]. destruct (octet pd) as [d|] eqn:Hd; [|done].
    apply octet_spec in Ha as [Ha ->], Hb as [Hb ->], Hc as [Hc ->], Hd as [Hd ->].
    intros [= <-]. exists a, b, c, d. split_and!; [done..|by rewrite <- Hj|].
    unfold byte_value in *. rewrite (push_octet_add 0 a), (push_octet_add _ b), (push_octet_add _ c),
      push_octet_add; lia.
  - intros (a & b & c & d & Ha & Hb & Hc & Hd & -> & ->). unfold ipv4_text, byte_value in *.
    rewrite split_join; [| |done].
    2:{ repeat constructor; apply no_sep_digits; (done || lia). }
    change (lenl _ =? 4) with true. cbn [negb fold_octets].
    rewrite (proj2 (octet_spec _ a)), (proj2 (octet_spec _ b)), (proj2 (octet_spec _ c)),
      (proj2 (octet_spec _ d)) by (split; [lia|done]).
    f_equal. rewrite (push_octet_add 0 a), (push_octet_add _ b), (push_octet_add _ c),
      push_octet_add; lia.
Qed.

(** [ip] is in the block of [bits] leading bits at [net]. *)
Definition in_block (ip : Z) (block : Z * Z) : Prop :=
  block.1 <= ip < block.1 + 2 ^ (32 - block.2).

Lemma outside_block ip net bits :
  0 <= bits <= 32 -> net mod 2 ^ (32 - bits) = 0 ->
  negb (Z.shiftr ip (32 - bits) =? Z.shiftr net (32 - bits)) = true <-> ~ in_block ip (net, bits).
Proof.
  intros Hb Hm. rewrite !Z.shiftr_div_pow2 by lia. unfold in_block. simpl.
  set (k := 2 ^ (32 - bits)) in *. assert (0 < k) as Hk by (apply Z.pow_pos_nonneg; lia).
  rewrite negb_true_iff, Z.eqb_neq.
  pose proof (Z.div_mod net k) as Hn. rewrite Hm in Hn.
  pose proof (Z.div_mod ip k) as Hi. pose proof (Z.mod_pos_bound ip k Hk). nia.
Qed.

Lemma blocks_aligned :
  Forall (fun b => 0 <= b.2 <= 32 /\ b.1 mod 2 ^ (32 - b.2) = 0) NON_PUBLIC_IPV4.
Proof. repeat constructor; simpl; lia. Qed.

(** A webhook host accepted as a public IPv4 address is exactly the
    canonical dotted-quad text of an address outside all fifteen
    special-purpose blocks, each block taken as an interval of addresses. *)
Theorem public_ipv4_spec value :
  public_ipv4 value = true <->
  exists a b c d, byte_value a /\ byte_value b /\ byte_value c /\ byte_value d /\
    value = ipv4_text "." a b c d /\
    Forall (fun block => ~ in_block (((a * 256 + b) * 256 + c) * 256 + d) block) NON_PUBLIC_IPV4.
Proof.
  unfold public_ipv4. rewrite is_some_and_true. setoid_rewrite ipv4_parts_spec; [|done].
  assert (forall ip, forallb (fun '(net, bits) =>
      negb (Z.shiftr ip (32 - bits) =? Z.shiftr net (32 - bits))) NON_PUBLIC_IPV4 = true <->
    Forall (fun block => ~ in_block ip block) NON_PUBLIC_IPV4) as Hf.
  { intros ip. rewrite forallb_Forall, !Forall_forall. pose proof blocks_aligned as Hal.
    rewrite Forall_forall in Hal. split; intros H [net bits] Hin;
      specialize (H _ Hin); destruct (Hal _ Hin); by apply outside_block. }
  split.
  - intros (ip & (a & b & c & d & Ha & Hb & Hc & Hd & Hv & ->) & Hp).
    apply Hf in Hp. by exists a, b, c, d.
  - intros (a & b & c & d & Ha & Hb & Hc & Hd & Hv & Hp).
    eexists. split; [by exists a, b, c, d|]. by apply Hf.
Qed.
