(* ===== verification/Crypto.v ===== *)
(** * Digests, key ids and signatures

    src/signed_plan/crypto.rs and [release_key_id] of
    src/signed_plan/schema/actions_m2.rs.  SHA-256, base64, P-256 and Ed25519
    are third party crates: they are the fields of the class [Crypto].  No
    collision resistance is assumed; the theorems name the collision. *)

From S2P Require Import Prelude RustStr BTree Json Jcs JsonRead JcsFacts.

Class Crypto := {
  (** [Sha256::digest]. *)
  sha256 : string -> string;
  (** [STANDARD] and [URL_SAFE_NO_PAD] of the base64 crate. *)
  std_decode : string -> option string;
  std_encode : string -> string;
  url_decode : string -> option string;
  url_encode : string -> string;
  (** [p256::ecdsa]. *)
  VerifyingKey : Type;
  EcdsaSignature : Type;
  from_sec1_bytes : string -> option VerifyingKey;
  signature_from_slice : string -> option EcdsaSignature;
  ecdsa_verify_prehash : VerifyingKey -> string -> EcdsaSignature -> bool;
  (** [CompressedEdwardsY::decompress] is [Some]. *)
  ed25519_decompresses : string -> bool
}.

Definition bytes_of (l : list N) : string := fold_right (fun n s => String (byte_of n) s) "" l.

Definition PLAN_PREFIX : string := "permanu-plan-v1" +:+ String "010" "".
Definition RULE_PREFIX : string := "permanu-rule-v1" +:+ String "010" "".
Definition SPEC_PREFIX : string := "permanu-spec-v1" +:+ String "010" "".
Definition KEY_ADD_PREFIX : string := "permanu-key-add-v1" +:+ String "010" "".
Definition KEY_REVOKE_PREFIX : string := "permanu-key-revoke-v1" +:+ String "010" "".

Definition SPKI_PREFIX : string := bytes_of
  [0x30; 0x59; 0x30; 0x13; 0x06; 0x07; 0x2a; 0x86; 0x48; 0xce; 0x3d; 0x02; 0x01; 0x06; 0x08; 0x2a;
   0x86; 0x48; 0xce; 0x3d; 0x03; 0x01; 0x07; 0x03; 0x42; 0x00]%N.
Definition SPKI_LENGTH : Z := 91.

Definition ED25519_SPKI_PREFIX : string := bytes_of
  [0x30; 0x2a; 0x30; 0x05; 0x06; 0x03; 0x2b; 0x65; 0x70; 0x03; 0x21; 0x00]%N.

(** [write!(output, "{byte:02x}")] for each byte. *)
Definition hex (bytes : string) : string := concat_bytes hex_byte bytes.

Definition is_lower_hex_byte (b : ascii) : bool := is_ascii_digit b || between 97 102 b.

Section crypto.
Context {CR : Crypto}.

(** [update(prefix)], [update(canonical)], [finalize]. *)
Definition prefixed_digest (prefix canonical : string) : string := sha256 (prefix +:+ canonical).

Definition b64url_decode (value : string) : option string := url_decode value.
Definition b64url_encode (bytes : string) : string := url_encode bytes.

Record PublicKey := { pk_key : VerifyingKey; pk_key_id : string }.

Definition parse_spki_base64 (value : string) : option PublicKey :=
  match std_decode value with
  | None => None
  | Some der =>
      if negb (len der =? SPKI_LENGTH) || negb (String.eqb (slice_to 26 der) SPKI_PREFIX) then None
      else
        let point := slice_from 26 der in
        if negb (bool_decide (first_byte point = Some (byte_of 4))) then None
        else match from_sec1_bytes point with
        | None => None
        | Some key => Some {| pk_key := key; pk_key_id := b64url_encode (slice_to 16 (sha256 der)) |}
        end
  end.

Definition verify_prehash (k : PublicKey) (digest raw_signature : string) : bool :=
  if negb (len raw_signature =? 64) then false
  else match signature_from_slice raw_signature with
  | None => false
  | Some signature => ecdsa_verify_prehash (pk_key k) digest signature
  end.

(** The 32 key bytes with the sign bit cleared are not below the field prime. *)
Definition at_or_above_p (bytes : string) : bool :=
  let y31 := match last_byte bytes with Some b => N.land (code b) 0x7f | None => 0%N end in
  (y31 =? 0x7f)%N
  && all_bytes (fun byte => (code byte =? 0xff)%N) (slice 1 31 bytes)
  && is_some_and (first_byte bytes) (fun b => (0xed <=? code b)%N).

Definition release_key_id (spki : string) : option string :=
  match std_decode spki with
  | None => None
  | Some der =>
      if negb (len der =? 44) || negb (String.eqb (slice_to 12 der) ED25519_SPKI_PREFIX)
         || negb (String.eqb (std_encode der) spki)
      then None
      else
        let bytes := slice_from 12 der in
        if at_or_above_p bytes then None
        else if negb (ed25519_decompresses bytes) then None
        else Some (b64url_encode (slice_to 16 (sha256 der)))
  end.

(** ** Hex text *)

Lemma hex_digit_inj d e : (d < 16)%N -> (e < 16)%N -> hex_digit d = hex_digit e -> d = e.
Proof.
  intros Hd He H. apply (f_equal N_of_ascii) in H. unfold hex_digit in H.
  destruct (N.ltb_spec d 10), (N.ltb_spec e 10); rewrite !N_ascii_embedding in H by lia; lia.
Qed.

Lemma hex_byte_inj a b r s : hex_byte a +:+ r = hex_byte b +:+ s -> a = b /\ r = s.
Proof.
  unfold hex_byte. rewrite !str_app_cons, !str_app_nil_l. intros [= H1 H2 ->]. split; [|done].
  pose proof (code_bound a). pose proof (code_bound b).
  assert (forall c, (c < 256)%N -> (c / 16 < 16)%N) as Hdiv by (intros c Hc; apply N.Div0.div_lt_upper_bound; lia).
  apply hex_digit_inj in H1; [|by apply Hdiv..].
  apply hex_digit_inj in H2; [|by apply N.mod_upper_bound..].
  apply code_inj. rewrite (N.div_mod (code a) 16), (N.div_mod (code b) 16) by done. by rewrite H1, H2.
Qed.

Lemma hex_cons b s : hex (String b s) = hex_byte b +:+ hex s.
Proof. done. Qed.

Lemma hex_inj s t : hex s = hex t -> s = t.
Proof.
  revert t; induction s as [|a s IH]; intros [|b t]; rewrite ?hex_cons; try done.
  intros [-> H]%hex_byte_inj. by rewrite (IH t H).
Qed.

Lemma hex_digit_hex d : (d < 16)%N -> is_lower_hex_byte (hex_digit d) = true.
Proof.
  intros Hd. unfold hex_digit, is_lower_hex_byte, is_ascii_digit. apply orb_true_iff.
  rewrite !between_spec. unfold code.
  destruct (N.ltb_spec d 10); rewrite N_ascii_embedding by lia; lia.
Qed.

Lemma hex_lower s : all_bytes is_lower_hex_byte (hex s) = true.
Proof.
  induction s as [|b s IH]; [done|]. rewrite hex_cons, all_bytes_app, IH, andb_true_r.
  unfold hex_byte. cbn [all_bytes]. pose proof (code_bound b).
  assert (code b / 16 < 16)%N by (apply N.Div0.div_lt_upper_bound; lia).
  assert (code b mod 16 < 16)%N by (by apply N.mod_upper_bound).
  by rewrite !hex_digit_hex.
Qed.

(** ** Domain separation *)

(** Two different inputs with one digest. *)
Definition sha_collision : Prop := exists a b, a <> b /\ sha256 a = sha256 b.

Definition prefixes : list string :=
  [PLAN_PREFIX; RULE_PREFIX; SPEC_PREFIX; KEY_ADD_PREFIX; KEY_REVOKE_PREFIX].

(** No prefix starts another one. *)
Lemma prefixes_free p q : p ∈ prefixes -> q ∈ prefixes -> is_some (strip_prefix p q) = true -> p = q.
Proof.
  assert (forallb (fun p => forallb (fun q =>
    negb (is_some (strip_prefix p q)) || String.eqb p q) prefixes) prefixes = true) as Hall by reflexivity.
  rewrite forallb_Forall, Forall_forall in Hall. intros Hp Hq Hs. specialize (Hall p Hp). simpl in Hall.
  change (forallb (fun q => negb (is_some (strip_prefix p q)) || String.eqb p q) prefixes = true) in Hall.
  rewrite forallb_Forall, Forall_forall in Hall. specialize (Hall q Hq). simpl in Hall.
  rewrite Hs in Hall. by apply String.eqb_eq.
Qed.

Lemma app_prefix_cases (a b s t : string) :
  a +:+ s = b +:+ t -> is_some (strip_prefix a b) = true \/ is_some (strip_prefix b a) = true.
Proof.
  revert b; induction a as [|x a IH]; intros [|y b]; try (by left); try (by right).
  rewrite !str_app_cons. intros [= -> Hs]. simpl. rewrite Ascii.eqb_refl. by apply IH.
Qed.

Lemma prefixed_input_inj p q s t :
  p ∈ prefixes -> q ∈ prefixes -> p +:+ s = q +:+ t -> p = q /\ s = t.
Proof.
  intros Hp Hq He. assert (p = q) as ->.
  { destruct (app_prefix_cases _ _ _ _ He) as [Hs|Hs]; [|symmetry]; by apply prefixes_free. }
  split; [done|]. by apply (str_app_inv_len q q s t) in He as [_ ->].
Qed.

(** Domain separation: digests of two JSON values under two of the five
    prefixes (plan, rule, spec, key-add, key-revoke) are equal only when both
    the prefix and the value are the same, or SHA-256 has a collision.  A
    signature over a rule digest is never one over a plan digest. *)
Theorem prefixed_digest_binds p q v w s t :
  p ∈ prefixes -> q ∈ prefixes -> wf_value v -> wf_value w ->
  canonicalize v = Some s -> canonicalize w = Some t ->
  prefixed_digest p s = prefixed_digest q t -> (p = q /\ v = w) \/ sha_collision.
Proof.
  intros Hp Hq Hv Hw Hs Ht Hd. unfold prefixed_digest in Hd.
  destruct (decide (p +:+ s = q +:+ t)) as [He|Hne]; [left|right; by exists (p +:+ s), (q +:+ t)].
  destruct (prefixed_input_inj p q s t Hp Hq He) as [-> ->]. split; [done|].
  by apply (canonical_text_inj v w t).
Qed.

End crypto.

(** ** A concrete instance, for evaluation

    A toy instance that makes the definitions run on concrete inputs: the
    digest is the last 32 bytes of the input, a key text of at most 64 bytes
    stands for its DER, and a signature is valid when it starts with the last
    32 bytes of the key.  Nothing is proved about it but the witnesses. *)
Definition last_bytes (n : nat) (s : string) : string :=
  let padded := repeat_byte "0" n +:+ s in slice_from (String.length padded - n) padded.

Definition toy_crypto : Crypto := {|
  sha256 := last_bytes 32;
  std_decode := fun s => Some (SPKI_PREFIX +:+ String (byte_of 4) (last_bytes 64 s));
  std_encode := fun s => s;
  url_decode := Some;
  url_encode := fun d => d +:+ "AAAAAA";
  VerifyingKey := string; EcdsaSignature := string;
  from_sec1_bytes := Some; signature_from_slice := Some;
  ecdsa_verify_prehash := fun k d s => String.eqb (slice_to 32 s) (last_bytes 32 k);
  ed25519_decompresses := fun _ => true
|}.

Lemma prefixed_digest_binds_witness :
  (PLAN_PREFIX = PLAN_PREFIX /\ VBool true = VBool true) \/ @sha_collision toy_crypto.
Proof.
  apply (@prefixed_digest_binds toy_crypto PLAN_PREFIX PLAN_PREFIX _ _ "true" "true");
    [left|left|done|done|reflexivity..].
Defined.
