(* ===== verification/Schema.v ===== *)
(** * The plan schema

    src/signed_plan/schema.rs with the build recipe of
    src/signed_plan/schema/spec_build.rs: the shape language, [check], and the
    shapes of keys, rules, specs, signatures and invocations. *)

From S2P Require Import Prelude RustStr BTree Json Calendar Text Crypto.

(** * The build recipe's text patterns

    src/signed_plan/schema/spec_build.rs: the patterns of a signed build
    recipe and the key pattern [K] that refuses secret-looking build argument
    names.  The recipe's JSON shape is in Schema.v. *)

Definition K_KEYWORDS : list string :=
  [ "pass"; "password"; "passwd"; "passphrase"; "pwd"; "secret"; "token"; "apikey"; "api_key";
    "accesskey"; "access_key"; "privatekey"; "private_key"; "clientsecret"; "client_secret";
    "credential"; "credentials"; "authorization"; "authtoken"; "auth_token"; "sessionid";
    "session_id"; "sessiontoken"; "session_token"; "cookie"; "databaseurl"; "database_url"; "dsn";
    "connstring"; "conn_string"; "connectionstring"; "connection_string" ].

(** [!part.is_empty() && part.bytes().all(|b| b.is_ascii_alphanumeric())]. *)
Definition segment_ok (part : string) : bool :=
  negb (is_empty part) && all_bytes is_ascii_alphanumeric part.

Definition prefix_segments (value : string) : bool :=
  is_empty value
  || is_some_and (strip_suffix "_" value) (fun body => forallb segment_ok (split "_" body)).

Definition suffix_segments (value : string) : bool :=
  is_empty value
  || is_some_and (strip_prefix "_" value) (fun body => forallb segment_ok (split "_" body)).

(** [lower.is_char_boundary(start)]: the start, the end, or no continuation byte. *)
Definition is_char_boundary (s : string) (start : nat) : bool :=
  match first_byte (slice_from start s) with
  | None => true
  | Some b => (start =? 0)%nat || negb (cont_byte b)
  end.

Definition secret_looking_name (name : string) : bool :=
  let lower := to_ascii_lowercase name in
  existsb (fun start =>
    is_char_boundary lower start
    && prefix_segments (slice_to start lower)
    && existsb (fun keyword =>
         is_some_and (strip_prefix keyword (slice_from start lower)) suffix_segments) K_KEYWORDS)
    (seq 0 (S (String.length lower))).

Definition path_byte (b : ascii) : bool := is_ascii_alphanumeric b || one_of "._-" b.

Definition relative_path (value : string) : bool :=
  let parts := split "/" value in
  in_range 1 16 (lenl parts)
  && forallb (fun part =>
       in_range 1 64 (len part) && negb (String.eqb part ".") && negb (String.eqb part "..")
       && all_bytes path_byte part) parts.

Definition subdir (value : string) : bool := is_empty value || relative_path value.
Definition context (value : string) : bool := String.eqb value "." || relative_path value.

Definition build_target (value : string) : bool :=
  in_range 1 64 (len value)
  && is_some_and (first_byte value) is_ascii_alphanumeric
  && all_bytes path_byte (slice_from 1 value).

Definition build_ref (value : string) : bool :=
  match strip_prefix "refs/tags/" value with
  | Some tag => git_ref ("refs/heads/" +:+ tag) false
  | None => git_ref value false
  end.

Definition repo_url (value : string) : bool :=
  match strip_prefix "https://" value with
  | None => false
  | Some rest =>
      let '(authority, path) := default (rest, "") (split_once "/" rest) in
      let '(host, port) := match split_once ":" authority with
        | Some (host, port) => (host, Some port)
        | None => (authority, None)
        end in
      let host_ok :=
        in_range 1 253 (len host)
        && all_bytes (fun b => lower_digit b || one_of ".-" b) host
        && is_some_and (first_byte host) is_ascii_alphanumeric
        && is_some_and (last_byte host) is_ascii_alphanumeric in
      let port_ok := is_none_or port (fun port =>
        in_range 1 5 (len port) && all_bytes is_ascii_digit port) in
      let segments := split "/" path in
      let path_ok :=
        negb (is_empty path) && in_range 1 8 (lenl segments)
        && forallb (fun segment => negb (is_empty segment) && all_bytes path_byte segment) segments in
      host_ok && port_ok && path_ok
  end.

Inductive Shape : Type :=
| Pattern (matcher : string -> bool)
| Text (low high : Z)
| Label (low high : Z)
| GitRef (pattern : bool)
| Int (low high : Z)
| Enum (options : list string)
| SBool
| Timestamp
| Sig64
| Nullable (inner : Shape)
| SSet (inner : Shape) (low high : Z)
| Object (fields : list (string * Shape))
| Custom (function : Value -> bool).

(** Key order of the sorted arrays: [Option<String>] and the port tuple. *)
Definition opt_ltb {A} (ltb : A -> A -> bool) (a b : option A) : bool :=
  match a, b with
  | None, Some _ => true
  | Some x, Some y => ltb x y
  | _, None => false
  end.

Definition opt_eqb {A} (eqb : A -> A -> bool) (a b : option A) : bool :=
  match a, b with
  | None, None => true
  | Some x, Some y => eqb x y
  | _, _ => false
  end.

Section schema.
Context {CR : Crypto}.

(** The body of [check_set] once [check(inner, _)] is known. *)
Definition check_set (inner : Value -> bool) (low high : Z) (value : Value) : bool :=
  match as_array value with
  | None => false
  | Some items =>
      if negb (in_range low high (lenl items)) || negb (forallb inner items) then false
      else match collect_opt (as_str <$> items) with
      | None => false
      | Some strings => adjacent String.ltb strings
      end
  end.

Fixpoint check (shape : Shape) (value : Value) {struct shape} : bool :=
  match shape with
  | Pattern matcher => is_some_and (as_str value) matcher
  | Text low high => is_some_and (as_str value) (fun text => in_range low high (len text))
  | Label low high => is_some_and (as_str value) (fun text =>
      in_range low high (len text) && label_chars_ok text)
  | GitRef pattern => is_some_and (as_str value) (fun text => git_ref text pattern)
  | Int low high => is_some_and (as_i64 value) (fun number => in_range low high number)
  | Enum options => is_some_and (as_str value) (fun text => contains_str options text)
  | SBool => is_boolean value
  | Timestamp => is_some_and (as_str value) (fun text => is_some (timestamp text))
  | Sig64 => is_some_and (as_str value) (fun text =>
      is_some_and (b64url_decode text) (fun bytes => len bytes =? 64))
  | Nullable inner => is_null value || check inner value
  | SSet inner low high => check_set (check inner) low high value
  | Object fields =>
      match as_object value with
      | None => false
      | Some map =>
          (blen map =? lenl fields)
          && (fix all fields := match fields with
              | [] => true
              | (name, shape) :: rest =>
                  is_some_and (bget name map) (check shape) && all rest
              end) fields
      end
  | Custom function => function value
  end.

Definition check_object (fields : list (string * Shape)) (value : Value) : bool :=
  match as_object value with
  | None => false
  | Some map =>
      (blen map =? lenl fields)
      && forallb (fun '(name, shape) => is_some_and (bget name map) (check shape)) fields
  end.

Lemma check_Object fields value : check (Object fields) value = check_object fields value.
Proof.
  cbn [check]. unfold check_object. destruct (as_object value) as [map|]; [|done]. f_equal.
  induction fields as [|[name shape] fields IH]; [done|]. cbn [forallb]. by rewrite <- IH.
Qed.

Definition REF : Shape := Pattern reference.
Definition UUID7 : Shape := Pattern uuid7.
Definition HEX64 : Shape := Pattern hex64.
Definition KID : Shape := Pattern key_id.
Definition ENV : Shape := Pattern env_name.
Definition HOST : Shape := Pattern hostname.
Definition CRON : Shape := Pattern cron.
Definition TZ : Shape := Pattern timezone.
Definition PATH : Shape := Pattern abs_path.
Definition BUCKET : Shape := Pattern bucket.
Definition LABEL : Shape := Label 1 128.

Definition argv (value : Value) : bool :=
  is_some_and (as_array value) (fun items =>
    in_range 1 64 (lenl items) && forallb (check (Text 1 1024)) items).

Definition ARGV : Shape := Custom argv.

Definition SIGREF : Shape := Object [("key_id", KID); ("sig", Sig64)].
Definition KEY_SCOPE : Shape := Object
  [("project_ids", SSet UUID7 1 32); ("environments", SSet REF 1 16); ("server_level", SBool)].
Definition KEY_ENTRY : Shape := Object
  [ ("key_id", KID);
    ("alg", Enum ["ES256-raw"]);
    ("spki", Text 1 200);
    ("label", LABEL);
    ("role", Enum ["owner"; "deployer"; "ci"]);
    ("presence", Enum ["biometry"; "user_presence"; "none"]);
    ("scope", Nullable KEY_SCOPE);
    ("added_at", Timestamp);
    ("added_by", Nullable SIGREF) ].
Definition REVOCATION : Shape := Object
  [ ("key_id", KID);
    ("revoked_at", Timestamp);
    ("reason", Enum ["lost"; "compromised"; "rotated"; "other"]);
    ("revoked_by", SIGREF) ].

Definition RULE_FIELDS : list (string * Shape) :=
  [ ("version", Int 1 1);
    ("id", UUID7);
    ("label", LABEL);
    ("trigger", Enum ["git.push"]);
    ("scope", Object
      [ ("project_id", UUID7);
        ("environment", REF);
        ("service_ids", SSet UUID7 1 32);
        ("server_ids", SSet UUID7 1 32);
        ("repo", Pattern repo);
        ("branch_patterns", SSet (GitRef true) 1 8) ]);
    ("allowed_kinds", SSet (Enum ["deploy"; "scale"]) 1 8);
    ("limits", Object
      [ ("max_replicas", Nullable (Int 1 1000)); ("max_invocations_per_hour", Int 1 120) ]);
    ("not_before", Timestamp);
    ("expires_at", Timestamp) ].

Definition standing_rule (value : Value) : bool :=
  if negb (check (Object RULE_FIELDS) value) then false
  else
    let lists_scale :=
      is_some_and (as_array value.["allowed_kinds"]) (fun kinds =>
        existsb (fun kind => eq_str kind "scale") kinds) in
    negb lists_scale
    || is_some_and (as_i64 value.["limits"].["max_replicas"]) (fun max => in_range 1 1000 max).

Definition RULE : Shape := Custom standing_rule.

Definition HEALTHCHECK : Shape := Object
  [ ("kind", Enum ["http"; "tcp"; "cmd"]);
    ("path", Nullable PATH);
    ("port", Nullable (Int 1 65535));
    ("command", Nullable ARGV);
    ("interval_seconds", Int 1 3600);
    ("timeout_seconds", Int 1 600);
    ("retries", Int 0 100);
    ("start_period_seconds", Int 0 3600) ].
Definition PORT : Shape := Object
  [("container_port", Int 1 65535); ("protocol", Enum ["tcp"; "udp"]); ("public", SBool)].
Definition MOUNT : Shape := Object
  [("volume_id", UUID7); ("mount_path", PATH); ("read_only", SBool)].

Definition image_repository_value (value : Value) : bool :=
  is_some_and (as_str value) (fun text => in_range 1 255 (len text) && image_repository text).

Definition BINDING : Shape := Object
  [("kind", Enum ["plain"; "secret"; "reference"]); ("ref", Nullable (Text 1 256))].

Definition spec_env (value : Value) : bool :=
  is_some_and (as_object value) (fun map =>
    (blen map <=? 256)
    && forallb (fun '(name, binding) =>
         env_name name && check BINDING binding
         && Bool.eqb (eq_str binding.["kind"] "plain") (is_null binding.["ref"])) map).

(** [key_lt a b] is [key(a) < key(b)]. *)
Definition sorted_unique_objects (value : Value) (shape : Shape) (high : Z)
    (key_lt : Value -> Value -> bool) : bool :=
  is_some_and (as_array value) (fun items =>
    (lenl items <=? high) && forallb (check shape) items && adjacent key_lt items).

Definition field_lt (field : string) (a b : Value) : bool :=
  opt_ltb String.ltb (as_str a.[field]) (as_str b.[field]).

Definition port_lt (a b : Value) : bool :=
  opt_ltb Z.ltb (as_i64 a.["container_port"]) (as_i64 b.["container_port"])
  || opt_eqb Z.eqb (as_i64 a.["container_port"]) (as_i64 b.["container_port"])
     && field_lt "protocol" a b.

Definition spec_ports (value : Value) : bool := sorted_unique_objects value PORT 32 port_lt.
Definition spec_mounts (value : Value) : bool :=
  sorted_unique_objects value MOUNT 16 (field_lt "mount_path").

Definition ROUTE : Shape := Object [("hostname", HOST); ("source", Enum ["default"; "custom"])].

Definition spec_routes (value : Value) : bool :=
  sorted_unique_objects value ROUTE 16 (field_lt "hostname")
  && is_some_and (as_array value) (fun routes =>
       forallb (fun route =>
         let host := str_or_default route.["hostname"] in
         if eq_str route.["source"] "default" then default_route host
         else negb (ends_with ".sslip.io" host)) routes).

Definition SPEC_FIELDS : list (string * Shape) :=
  [ ("version", Int 1 1);
    ("service_id", UUID7);
    ("image_repository", Custom image_repository_value);
    ("image_digest_hex", HEX64);
    ("entrypoint", Nullable ARGV);
    ("command", Nullable ARGV);
    ("working_dir", Nullable PATH);
    ("user", Nullable (Pattern user));
    ("env", Custom spec_env);
    ("ports", Custom spec_ports);
    ("mounts", Custom spec_mounts);
    ("resources", Object
      [ ("cpu_millis", Nullable (Int 10 256000));
        ("memory_bytes", Nullable (Int (Z.shiftl 1 22) (Z.shiftl 1 40)));
        ("pids_limit", Nullable (Int 16 (Z.shiftl 1 22))) ]);
    ("privileged", SBool);
    ("cap_add", SSet (Pattern capability) 0 16);
    ("network", Object
      [("mode", Enum ["project"; "host"; "none"]); ("aliases", SSet HOST 0 8)]);
    ("healthcheck", Nullable HEALTHCHECK);
    ("replicas", Int 0 1000);
    ("placement", Object [("server_ids", SSet UUID7 1 32)]);
    ("secrets_as_files_only", SBool);
    ("service_kind", Enum ["web"; "worker"; "database"; "bucket"; "cron"; "static"]);
    ("otel_inject", SBool) ].

Definition build_args (value : Value) : bool :=
  is_some_and (as_object value) (fun map =>
    (blen map <=? 64)
    && forallb (fun '(name, literal) =>
         env_name name && check (Text 0 4096) literal && negb (secret_looking_name name)) map).

Definition BUILD : Shape := Object
  [ ("source", Object
      [("repo_url", Pattern repo_url); ("ref", Pattern build_ref); ("subdir", Pattern subdir)]);
    ("dockerfile", Pattern relative_path);
    ("context", Pattern context);
    ("target", Nullable (Pattern build_target));
    ("build_args", Custom build_args);
    ("build_secrets", SSet ENV 0 32) ].

Definition build_recipe (value : Value) : bool :=
  check BUILD value
  && is_some_and (as_array value.["build_secrets"]) (fun secrets =>
       forallb (fun name => is_some_and (as_str name) (fun name =>
         negb (is_some (get value.["build_args"] name)))) secrets).

(** [rest.remove(name)] followed by a test of the removed member. *)
Definition remove_checked (name : string) (test : Value -> bool) (rest : bmap Value) : option (bmap Value) :=
  match bget name rest with
  | Some member => if test member then Some (bremove name rest) else None
  | None => Some rest
  end.

Definition strategy_value (v : Value) : bool := eq_str v "rolling" || eq_str v "recreate".

(** [map["mounts"]] and [map["replicas"]] are only reached when the two keys
    are present (see [spec_shape_indexes]); an absent key is [Null] here. *)
Definition spec_shape (value : Value) : bool :=
  match as_object value with
  | None => false
  | Some map =>
      match remove_checked "build" build_recipe map with
      | None => false
      | Some rest =>
          match remove_checked "routes" spec_routes rest with
          | None => false
          | Some rest =>
              let strategy := bget "strategy" rest in
              match remove_checked "strategy" strategy_value rest with
              | None => false
              | Some rest =>
                  if negb (check (Object SPEC_FIELDS) (VObject rest)) then false
                  else
                    let mounts_volume :=
                      is_some_and (as_array value.["mounts"]) (fun m => negb (lenl m =? 0)) in
                    negb mounts_volume
                    || (negb (is_some_and strategy (fun s => eq_str s "rolling"))
                        && (default 0 (as_i64 value.["replicas"]) <=? 1))
              end
          end
      end
  end.

Definition SPEC : Shape := Custom spec_shape.

Definition spec_elevated (spec : Value) : bool :=
  let extra_capability :=
    is_some_and (as_array spec.["cap_add"]) (fun caps =>
      existsb (fun cap => negb (eq_str cap "NET_BIND_SERVICE")) caps) in
  eq_bool spec.["privileged"] true || extra_capability
  || eq_str spec.["network"].["mode"] "host".

Definition EVIDENCE : Shape := Object
  [ ("provider", Enum ["github"; "gitlab"; "gitea"; "generic"]);
    ("repo", Pattern repo);
    ("ref", GitRef false);
    ("commit_sha", Pattern hex40);
    ("commit_time", Timestamp);
    ("delivery_id", Pattern delivery_id);
    ("body_digest_hex", HEX64);
    ("received_at", Timestamp) ].
Definition INVOCATION : Shape := Object
  [ ("rule_id", UUID7); ("rule_digest_hex", HEX64); ("trigger", Enum ["git.push"]);
    ("evidence", EVIDENCE) ].
Definition SIGNATURE : Shape := Object
  [("key_id", KID); ("alg", Text 1 32); ("sig", Sig64); ("signed_at", Timestamp)].

Definition key_scope_shape_ok (entry : Value) : bool :=
  let role := str_or_default entry.["role"] in
  let scope := entry.["scope"] in
  Bool.eqb (String.eqb role "owner") (is_null scope)
  && negb (String.eqb role "ci" && eq_bool scope.["server_level"] true)
  && Bool.eqb (String.eqb role "ci") (eq_str entry.["presence"] "none").

End schema.

(** [string_set]: the distinct strings of an array. *)
Definition string_set (value : Value) : gset string := list_to_set (filter_map as_str (items_of value)).
