(* ===== verification/Actions.v ===== *)
(** * The action catalog

    src/signed_plan/schema/actions.rs: the parameters of every action kind
    and the plan-level rules of [validate_plan]. *)

From S2P Require Import Prelude RustStr BTree Json Jcs Calendar Text Crypto Schema.

(** * Later action kinds

    src/signed_plan/schema/actions_m2.rs: backup destinations, restores, the
    recovery recipient, release keys, repository credentials, the pinned CA
    text and the five-field cron grammar. *)

(** ** Text patterns *)

Definition age_recipient (value : string) : bool :=
  is_some_and (strip_prefix "age1" value) (fun rest =>
    (len rest =? 58)
    && all_bytes (fun b => Ascii.eqb b "0" || between 50 57 b || Ascii.eqb b "a" || between 99 104 b
                           || between 106 110 b || between 112 122 b) rest).

Definition host_chars (host : string) : bool :=
  in_range 1 253 (len host)
  && all_bytes (fun b => lower_digit b || one_of ".-" b) host
  && is_some_and (first_byte host) is_ascii_alphanumeric
  && is_some_and (last_byte host) is_ascii_alphanumeric.

Definition endpoint (value : string) : bool :=
  match (match strip_prefix "https://" value with
         | Some rest => Some rest
         | None => strip_prefix "sftp://" value
         end) with
  | None => false
  | Some rest =>
      let '(host, port) := match split_once ":" rest with
        | Some (host, port) => (host, Some port)
        | None => (rest, None)
        end in
      host_chars host
      && is_none_or port (fun port => in_range 1 5 (len port) && all_bytes is_ascii_digit port)
  end.

Definition prefix (value : string) : bool :=
  is_empty value
  || let parts := split "/" value in
     (lenl parts <=? 8)
     && forallb (fun part =>
          in_range 1 64 (len part) && negb (contains_str ["."; ".."] part)
          && all_bytes path_byte part) parts.

Definition object_key (value : string) : bool :=
  match strip_prefix "permanu/v1/" value with
  | None => false
  | Some rest =>
      match split "/" rest with
      | [a; b; c] => uuid7 a && uuid7 b && is_some_and (strip_suffix ".age" c) uuid7
      | _ => false
      end
  end.

Definition region (value : string) : bool :=
  in_range 1 64 (len value) && all_bytes (fun b => lower_digit b || Ascii.eqb b "-") value.

Definition fingerprint (value : string) : bool :=
  is_some_and (strip_prefix "SHA256:" value) (fun rest =>
    (len rest =? 43) && all_bytes (fun b => is_ascii_alphanumeric b || one_of "+/" b) rest).

Definition webhook_host (value : string) : bool :=
  if ipv4_shaped value then public_ipv4 value else hostname value.

(** ** Cron grammar *)

Definition CRON_FIELDS : list (Z * Z) := [(0, 59); (0, 23); (1, 31); (1, 12); (0, 7)].

(** The closure [number]: one or two ASCII digits. *)
Definition cron_number (text : string) : option Z :=
  if in_range 1 2 (len text) && all_bytes is_ascii_digit text then parse_digits text else None.

Definition opt_zip {A B} (a : option A) (b : option B) : option (A * B) :=
  match a, b with Some x, Some y => Some (x, y) | _, _ => None end.

Definition cron_item (item : string) (low high : Z) : bool :=
  let '(range, step) := match split_once "/" item with
    | Some (range, step) => (range, Some step)
    | None => (item, None)
    end in
  if is_some_and step (fun step => is_none_or (cron_number step) (fun step => step <? 1)) then false
  else
    let bounds :=
      if String.eqb range "*" then Some (low, high)
      else match split_once "-" range with
      | Some (start, last) => opt_zip (cron_number start) (cron_number last)
      | None =>
          option_map (fun start => (start, if contains_byte "/" item then high else start))
            (cron_number range)
      end in
    is_some_and bounds (fun '(start, last) => (low <=? start) && (start <=? last) && (last <=? high)).

Definition cron_parses (expression : string) : bool :=
  let fields := split " " expression in
  (lenl fields =? 5)
  && forallb (fun '(field, (low, high)) =>
       forallb (fun item => cron_item item low high) (split "," field)) (zip fields CRON_FIELDS).

Section actions_m2.
Context {CR : Crypto}.

Definition DB_CREDENTIALS : Shape := Object
  [("user", Pattern env_name); ("password", Pattern env_name); ("database", Pattern env_name)].

(** ** The pinned CA text *)

Definition CA_PEM_MAX : Z := 16384.
Definition PEM_BEGIN : string := "-----BEGIN CERTIFICATE-----" +:+ String "010" "".
Definition PEM_END : string := "-----END CERTIFICATE-----" +:+ String "010" "".

Fixpoint pem_lines_ok (lines : list string) : bool :=
  match lines with
  | [] => true
  | line :: rest =>
      let data := match rest with [] => trim_end_matches "=" line | _ => line end in
      in_range 1 64 (len line) && (len line - len data <=? 2)
      && all_bytes (fun byte => is_ascii_alphanumeric byte || one_of "+/" byte) data
      && pem_lines_ok rest
  end.

Definition pem_body (body : string) : bool :=
  match strip_suffix (String "010" "") body with
  | None => false
  | Some lines =>
      let lines := split "010" lines in
      pem_lines_ok lines
      && is_some_and (std_decode (concat_str lines)) (fun der =>
           bool_decide (first_byte der = Some (byte_of 0x30)))
  end.

(** The [while] loop: [None] on an early [return false], else the number of
    blocks.  Each round consumes the two markers, so the length of the text
    is fuel enough ([ca_pem_fuel]). *)
Fixpoint ca_pem_loop (fuel : nat) (rest : string) (blocks : Z) : option Z :=
  if is_empty rest then Some blocks
  else match fuel with
  | O => None
  | S fuel =>
      match strip_prefix PEM_BEGIN rest with
      | None => None
      | Some body_and_more =>
          match find_sub PEM_END body_and_more with
          | None => None
          | Some last =>
              if negb (pem_body (slice_to last body_and_more)) then None
              else ca_pem_loop fuel (slice_from (last + String.length PEM_END) body_and_more) (blocks + 1)
          end
      end
  end.

Definition ca_pem (value : Value) : bool :=
  match as_str value with
  | None => false
  | Some rest =>
      if is_empty rest || (CA_PEM_MAX <? len rest) then false
      else is_some_and (ca_pem_loop (String.length rest) rest 0) (in_range 1 8)
  end.

(** ** Parameters *)

Definition optional_params_for (kind : string) : list (string * Shape) :=
  if String.eqb kind "db.upgrade" then [("spec_digest_hex", HEX64)]
  else if String.eqb kind "restore" then
    [("source_resource_id", UUID7); ("destination_ref", REF); ("object_key", Pattern object_key)]
  else if String.eqb kind "backup.policy.set" then
    [("db_credentials_ref", DB_CREDENTIALS); ("channel_ids", SSet UUID7 0 16)]
  else if String.eqb kind "domain.add" then [("source", Enum ["custom"; "default"])]
  else if String.eqb kind "operation.cancel" then [("run_id", UUID7)]
  else if String.eqb kind "backup.destination.set" then [("ca_pem", Custom ca_pem)]
  else [].

Definition params_for_m2 (kind : string) : option (list (string * Shape)) :=
  if String.eqb kind "backup.destination.set" then Some
    [ ("destination_ref", REF);
      ("destination_kind", Enum ["r2"; "s3"; "b2"; "sftp"; "server_local"]);
      ("endpoint", Nullable (Pattern endpoint));
      ("region", Nullable (Pattern region));
      ("bucket", Nullable (Pattern bucket));
      ("prefix", Pattern prefix);
      ("credential_ciphertext_digest_hex", Nullable HEX64) ]
  else if String.eqb kind "backup.destination.delete" then Some [("destination_ref", REF)]
  else if String.eqb kind "recovery_recipient.set" then Some [("recipient", Pattern age_recipient)]
  else if String.eqb kind "recovery_recipient.set+fingerprint" then
    Some [("recipient", Pattern age_recipient); ("fingerprint_hex", HEX64)]
  else if String.eqb kind "env.protection.set" then Some [("environment", REF); ("protected", SBool)]
  else if String.eqb kind "release_key.add" then
    Some [("key_id", Pattern key_id); ("spki", Text 1 100); ("label", LABEL)]
  else if String.eqb kind "release_key.revoke" then
    Some [("key_id", Pattern key_id); ("reason", Enum ["compromised"; "rotated"; "other"])]
  else if String.eqb kind "repo.credential.set" then Some
    [ ("repo", Pattern repo);
      ("credential_kind", Enum ["ssh_deploy_key"; "https_token"]);
      ("fingerprint", Pattern fingerprint);
      ("credential_ciphertext_digest_hex", HEX64) ]
  else if String.eqb kind "repo.credential.delete" then Some [("repo", Pattern repo)]
  else if String.eqb kind "webhook.host.set" then Some [("webhook_host", Pattern webhook_host)]
  else if String.eqb kind "server.accounts.migrate" then Some [("server_id", UUID7)]
  else None.

Definition SERVER_KINDS_M2 : list string :=
  [ "backup.destination.set"; "backup.destination.delete"; "recovery_recipient.set";
    "release_key.add"; "release_key.revoke"; "webhook.host.set"; "server.accounts.migrate" ].

(** ** Plan-level rules *)

(** [key.rsplit('/').next()]. *)
Definition last_segment (key : string) : option string := last (split "/" key).

Definition restore_shape (plan : Value) (index : nat) (params : Value) : bool :=
  let located := is_some (get params "destination_ref") || is_some (get params "object_key") in
  let key_names_backup :=
    is_some_and
      (opt_zip (match as_str params.["object_key"] with Some key => last_segment key | None => None end)
         (as_str params.["backup_id"]))
      (fun '(last, backup) => bool_decide (strip_suffix ".age" last = Some backup)) in
  let location_ok :=
    if eq_str params.["origin"] "imported" then
      is_some (get params "destination_ref") && is_some (get params "object_key")
      && negb (is_some (get params "source_resource_id")) && key_names_backup
    else negb located in
  if negb location_ok then false
  else
    let resource := params.["resource_id"] in
    let source := default resource (get params "source_resource_id") in
    value_eqb source resource
    || is_some_and (as_array plan.["actions"]) (fun actions =>
         existsb (fun earlier =>
           eq_str earlier.["kind"] "deploy" && value_eqb earlier.["params"].["service_id"] resource)
           (take index actions)).

Definition destination_shape (params : Value) : bool :=
  let endpoint := as_str params.["endpoint"] in
  if is_some (get params "ca_pem")
     && (negb (is_some_and (as_str params.["destination_kind"]) (contains_str ["r2"; "s3"; "b2"]))
         || negb (is_some endpoint))
  then false
  else
    let credential := negb (is_null params.["credential_ciphertext_digest_hex"]) in
    let bucket := negb (is_null params.["bucket"]) in
    let region := negb (is_null params.["region"]) in
    let kind := str_or_default params.["destination_kind"] in
    if String.eqb kind "server_local" then
      negb (is_some endpoint) && negb region && negb bucket && negb credential
    else if String.eqb kind "sftp" then
      is_some_and endpoint (starts_with "sftp://") && negb bucket && negb region && credential
    else
      bucket && credential
      && match endpoint with
         | Some url => starts_with "https://" url
         | None => String.eqb kind "s3"
         end.

Definition action_rules_hold_m2 (plan : Value) (kind : string) (params : Value) : bool :=
  if contains_str ["cron.create"; "cron.update"] kind then
    is_some_and (as_str params.["schedule"]) cron_parses
  else if String.eqb kind "backup.policy.set" then
    is_some_and (as_str params.["schedule"]) cron_parses
    && is_none_or (as_str params.["verify_schedule"]) cron_parses
  else if String.eqb kind "env.protection.set" then
    value_eqb params.["environment"] plan.["environment"]
  else if String.eqb kind "domain.add" then
    is_none_or (get params "source") (fun source => negb (eq_str source "default"))
    || (eq_str params.["tls"] "acme" && is_some_and (as_str params.["hostname"]) default_route)
  else if String.eqb kind "backup.destination.set" then destination_shape params
  else if String.eqb kind "release_key.add" then
    is_some_and (as_str params.["spki"]) (fun spki =>
      is_some_and (release_key_id spki) (fun key_id => eq_str params.["key_id"] key_id))
  else if String.eqb kind "recovery_recipient.set" then
    is_none_or (get params "fingerprint_hex") (fun fingerprint =>
      is_some_and (as_str params.["recipient"]) (fun recipient =>
        eq_str fingerprint (hex (sha256 recipient))))
  else if String.eqb kind "server.accounts.migrate" then
    is_some_and (as_array plan.["targets"]) (fun targets =>
      (lenl targets =? 1) && value_eqb (idx_n plan.["targets"] 0) params.["server_id"])
  else true.

End actions_m2.

Section actions.
Context {CR : Crypto}.

Definition CRON_PARAMS : list (string * Shape) :=
  [ ("cron_id", UUID7); ("service_id", UUID7); ("name", LABEL); ("schedule", CRON);
    ("timezone", TZ); ("command", ARGV); ("timeout_seconds", Int 1 86400); ("retries", Int 0 10);
    ("overlap", Enum ["skip"; "queue"; "allow"]); ("heartbeat_alert", SBool) ].
Definition ALERT_RULE : list (string * Shape) :=
  [("alert_rule_id", UUID7); ("name", LABEL); ("spec", Text 2 16384)].
Definition ALERT_CHANNEL : list (string * Shape) :=
  [ ("channel_id", UUID7); ("name", LABEL); ("channel_kind", Enum ["slack"; "discord"; "webhook"]);
    ("credential_ciphertext_digest_hex", HEX64) ].
Definition CRON_ID : list (string * Shape) := [("cron_id", UUID7)].
Definition SIZE : Shape := Int (Z.shiftl 1 30) (Z.shiftl 1 46).
Definition ROLLBACK_LEGACY : list (string * Shape) :=
  [("service_id", UUID7); ("to_release_id", UUID7); ("spec_digest_hex", HEX64)].

Definition env_map (value : Value) : bool :=
  is_some_and (as_object value) (fun map =>
    (blen map <=? 128)
    && forallb (fun '(name, text) => env_name name && check (Text 0 4096) text) map).

(** The arms of [match kind], each with the kinds it lists. *)
Definition PARAMS : list (list string * list (string * Shape)) :=
  [ (["deploy"], [("service_id", UUID7); ("commit_sha", Nullable (Pattern hex40));
       ("spec_digest_hex", HEX64); ("deployment_id", UUID7)]);
    (["rollback"], [("service_id", UUID7); ("to_deployment_id", UUID7); ("spec_digest_hex", HEX64)]);
    (["restart"; "service.elevate"], [("service_id", UUID7); ("spec_digest_hex", HEX64)]);
    (["scale"], [("service_id", UUID7); ("replicas", Int 0 1000); ("spec_digest_hex", HEX64)]);
    (["operation.cancel"], [("plan_id", UUID7); ("plan_digest_hex", HEX64)]);
    (["env.set"], [("service_id", UUID7); ("set", Custom env_map); ("unset", SSet ENV 0 128)]);
    (["secret.set"], [("service_id", Nullable UUID7); ("name", ENV); ("ciphertext_digest_hex", HEX64)]);
    (["secret.unset"], [("service_id", Nullable UUID7); ("name", ENV)]);
    (["service.delete"], [("service_id", UUID7)]);
    (["environment.delete"], [("environment", REF)]);
    (["project.delete"], [("project_id", UUID7)]);
    (["volume.create"], [("volume_id", UUID7); ("service_id", UUID7); ("mount_path", PATH);
       ("size_bytes", SIZE)]);
    (["volume.resize"], [("volume_id", UUID7); ("service_id", UUID7); ("size_bytes", SIZE)]);
    (["volume.delete"], [("volume_id", UUID7); ("service_id", UUID7)]);
    (["bucket.create"; "bucket.delete"; "bucket.credentials.rotate"],
       [("service_id", UUID7); ("bucket", BUCKET)]);
    (["domain.add"], [("service_id", UUID7); ("hostname", HOST); ("tls", Enum ["acme"; "none"])]);
    (["domain.remove"], [("service_id", UUID7); ("hostname", HOST)]);
    (["domain.switch"], [("service_id", UUID7); ("from_hostname", HOST); ("to_hostname", HOST)]);
    (["edge.rule.set"], [("service_id", UUID7); ("edge_rule_id", UUID7); ("spec", Text 2 16384)]);
    (["edge.rule.delete"], [("service_id", UUID7); ("edge_rule_id", UUID7)]);
    (["cron.create"; "cron.update"], CRON_PARAMS);
    (["cron.delete"; "cron.run"; "cron.pause"; "cron.resume"], CRON_ID);
    (["backup.run"; "backup.policy.delete"], [("resource_id", UUID7)]);
    (["backup.verify"; "backup.delete"], [("resource_id", UUID7); ("backup_id", UUID7)]);
    (["backup.policy.set"], [("resource_id", UUID7); ("schedule", CRON); ("timezone", TZ);
       ("keep_daily", Int 0 366); ("keep_weekly", Int 0 260); ("keep_monthly", Int 0 120);
       ("verify_schedule", Nullable CRON); ("destination_ref", REF)]);
    (["restore"], [("resource_id", UUID7); ("backup_id", UUID7); ("backup_digest_hex", HEX64);
       ("origin", Enum ["server"; "imported"])]);
    (["db.upgrade"], [("resource_id", UUID7); ("engine", Enum ["postgres"]);
       ("from_version", Text 1 32); ("to_version", Text 1 32)]);
    (["alert.rule.create"; "alert.rule.update"], ALERT_RULE);
    (["alert.rule.delete"], [("alert_rule_id", UUID7)]);
    (["alert.silence"], [("alert_rule_id", UUID7); ("until", Nullable Timestamp)]);
    (["alert.channel.create"; "alert.channel.update"], ALERT_CHANNEL);
    (["alert.channel.delete"], [("channel_id", UUID7)]);
    (["telemetry.retention.set"],
       [("telemetry_kind", Enum ["logs"; "http"; "traces"; "metrics"; "analytics"]);
        ("max_age_days", Int 1 3650);
        ("max_bytes", Int (Z.shiftl 1 20) (Z.shiftl 1 53 - 1))]);
    (["server.add"], [("server_id", UUID7); ("ssh_host_key_digest_hex", HEX64);
       ("owner_key", KEY_ENTRY); ("bundle_manifest_digest_hex", HEX64);
       ("age_recipient_fingerprint", HEX64)]);
    (["server.remove"], [("server_id", UUID7); ("wipe", SBool)]);
    (["agent.update"], [("version", Pattern semver); ("artifact_digest_hex", HEX64);
       ("bundle_manifest_digest_hex", HEX64); ("allow_downgrade", SBool)]);
    (["component.update"],
       [("component", Enum ["dwaar"; "runner"; "permanu-env"; "os_packages"]);
        ("version", Text 1 64); ("artifact_digest_hex", Nullable HEX64);
        ("bundle_manifest_digest_hex", Nullable HEX64); ("allow_downgrade", SBool)]);
    (["shell.open"], [("service_id", Nullable UUID7); ("ttl_seconds", Int 1 900)]);
    (["rule.create"], [("rule", RULE)]);
    (["rule.revoke"], [("rule_id", UUID7); ("rule_digest_hex", HEX64)]);
    (["key.add"], [("entry", KEY_ENTRY)]);
    (["key.revoke"], [("revocation", REVOCATION)]) ].

Definition params_for (kind : string) : option (list (string * Shape)) :=
  match find_first (fun arm => contains_str arm.1 kind) PARAMS with
  | Some (_, fields) => Some fields
  | None => params_for_m2 kind
  end.

Definition params_of (kind : string) (params : option Value) : option (list (string * Shape)) :=
  if String.eqb kind "rollback" && is_some_and params (fun p => is_some (get p "to_release_id"))
  then Some ROLLBACK_LEGACY
  else if String.eqb kind "recovery_recipient.set"
       && is_some_and params (fun p => is_some (get p "fingerprint_hex"))
  then params_for_m2 "recovery_recipient.set+fingerprint"
  else params_for kind.

Definition rollback_target (params : Value) : option string :=
  match as_str params.["to_deployment_id"] with
  | Some id => Some id
  | None => as_str params.["to_release_id"]
  end.

Definition SPEC_KINDS : list string := ["deploy"; "rollback"; "restart"; "scale"; "service.elevate"].
Definition SERVER_KINDS : list string :=
  [ "server.add"; "server.remove"; "agent.update"; "component.update"; "key.add"; "key.revoke";
    "alert.rule.create"; "alert.rule.update"; "alert.rule.delete"; "alert.silence";
    "alert.channel.create"; "alert.channel.update"; "alert.channel.delete";
    "telemetry.retention.set" ].
Definition NEUTRAL_KIND : string := "operation.cancel".

Definition server_kind (kind : string) : bool :=
  contains_str SERVER_KINDS kind || contains_str SERVER_KINDS_M2 kind.

Definition nonce (value : Value) : bool :=
  is_some_and (as_str value) (fun text =>
    is_some_and (b64url_decode text) (fun bytes => len bytes =? 16)).

(** The loop over the optional members: [None] on [return false]. *)
Fixpoint remove_optional (optional : list (string * Shape)) (base : bmap Value) : option (bmap Value) :=
  match optional with
  | [] => Some base
  | (name, shape) :: rest =>
      match remove_checked name (check shape) base with
      | Some base => remove_optional rest base
      | None => None
      end
  end.

Definition params_ok (kind : string) (params : option Value) : bool :=
  match params_of kind params, params with
  | Some fixed, Some value =>
      match as_object value with
      | None => false
      | Some map =>
          match remove_optional (optional_params_for kind) map with
          | None => false
          | Some base => check (Object fixed) (VObject base)
          end
      end
  | _, _ => false
  end.

Definition actions_shape (value : Value) : bool :=
  is_some_and (as_array value) (fun items =>
    in_range 1 64 (lenl items)
    && forallb (fun action =>
         is_some_and (as_object action) (fun map =>
           (blen map =? 2)
           && is_some_and (match bget "kind" map with Some k => as_str k | None => None end)
                (fun kind => params_ok kind (bget "params" map)))) items).

Definition heads_shape (value : Value) : bool :=
  is_some_and (as_object value) (fun map =>
    forallb (fun '(server, head) => uuid7 server && check HEX64 head) map).

Definition PLAN : Shape := Object
  [ ("version", Int 1 1);
    ("id", UUID7);
    ("project_id", Nullable UUID7);
    ("environment", Nullable REF);
    ("environment_id", Nullable UUID7);
    ("service_ids", SSet UUID7 0 64);
    ("targets", SSet UUID7 1 32);
    ("actions", Custom actions_shape);
    ("base", Object [("force", SBool); ("heads", Custom heads_shape)]);
    ("created_at", Timestamp);
    ("expires_at", Timestamp);
    ("nonce", Custom nonce);
    ("author", Object
      [("kind", Enum ["user"; "rule"; "agent-draft"]); ("agent_session_id", Nullable UUID7)]);
    ("invocation", Nullable INVOCATION) ].

Definition host_shell (action : Value) : bool :=
  eq_str action.["kind"] "shell.open" && is_null action.["params"].["service_id"].

Definition server_action (action : Value) : bool :=
  is_some_and (as_str action.["kind"]) server_kind || host_shell action.

Definition scope_rules_hold (plan : Value) (kinds : list string) : bool :=
  let has_project := negb (is_null plan.["project_id"]) in
  let has_environment := negb (is_null plan.["environment"]) in
  let no_services := is_some_and (as_array plan.["service_ids"]) (fun l => lenl l =? 0) in
  let actions := items_of plan.["actions"] in
  if contains_str kinds NEUTRAL_KIND then
    (lenl kinds =? 1) && no_services && Bool.eqb has_project has_environment
  else if existsb server_kind kinds || (negb has_project && existsb host_shell actions) then
    forallb server_action actions && negb has_project && negb has_environment && no_services
  else has_project && has_environment.

Definition single_target (plan server : Value) : bool :=
  is_some_and (as_array plan.["targets"]) (fun targets =>
    (lenl targets =? 1) && value_eqb (idx_n plan.["targets"] 0) server).

Definition rule_window (rule : Value) : option Z :=
  option_map (fun '(expires, not_before) => expires - not_before)
    (opt_zip (timestamp (str_or_default rule.["expires_at"]))
             (timestamp (str_or_default rule.["not_before"]))).

Definition action_rules_hold (plan : Value) (index : nat) (action : Value) : bool :=
  let params := action.["params"] in
  let kind := str_or_default action.["kind"] in
  if String.eqb kind "server.add" then
    single_target plan params.["server_id"]
    && is_null params.["owner_key"].["added_by"]
    && key_scope_shape_ok params.["owner_key"]
  else if String.eqb kind "server.remove" then single_target plan params.["server_id"]
  else if String.eqb kind "component.update" then
    Bool.eqb (eq_str params.["component"] "os_packages")
             (is_null params.["bundle_manifest_digest_hex"])
  else if String.eqb kind "env.set" then
    let unset := string_set params.["unset"] in
    is_some_and (as_object params.["set"]) (fun set =>
      forallb (fun name => negb (bool_decide (name ∈ unset))) (bkeys set))
  else if String.eqb kind "rule.create" then
    let rule := params.["rule"] in
    value_eqb rule.["scope"].["project_id"] plan.["project_id"]
    && value_eqb rule.["scope"].["environment"] plan.["environment"]
    && is_some_and (rule_window rule) (fun seconds => (0 <? seconds) && (seconds <=? 400 * 86400))
  else if String.eqb kind "key.add" then
    negb (is_null params.["entry"].["added_by"]) && key_scope_shape_ok params.["entry"]
  else if String.eqb kind "project.delete" then value_eqb params.["project_id"] plan.["project_id"]
  else if String.eqb kind "environment.delete" then
    value_eqb params.["environment"] plan.["environment"]
  else if String.eqb kind "domain.switch" then
    negb (value_eqb params.["from_hostname"] params.["to_hostname"])
  else if String.eqb kind "backup.policy.set" then
    existsb (fun keep => 0 <? default 0 (as_i64 params.[keep]))
      ["keep_daily"; "keep_weekly"; "keep_monthly"]
    && action_rules_hold_m2 plan "backup.policy.set" params
  else if String.eqb kind "restore" then restore_shape plan index params
  else action_rules_hold_m2 plan kind params.

(** [iter().enumerate().all(...)]. *)
Fixpoint all_enumerated {A} (f : nat -> A -> bool) (index : nat) (l : list A) : bool :=
  match l with
  | [] => true
  | x :: rest => f index x && all_enumerated f (S index) rest
  end.

Definition plan_rules_hold (plan : Value) : bool :=
  let actions := items_of plan.["actions"] in
  let kinds := filter_map (fun a => as_str a.["kind"]) actions in
  let targets := string_set plan.["targets"] in
  let heads : gset string :=
    list_to_set (match as_object plan.["base"].["heads"] with Some map => bkeys map | None => [] end) in
  let author := plan.["author"] in
  let used : gset string := list_to_set (filter_map (fun action =>
    match get action.["params"] "service_id" with Some v => as_str v | None => None end) actions) in
  let deployment_ids := filter_map (fun action => as_str action.["params"].["deployment_id"])
    (filter (fun action => eq_str action.["kind"] "deploy" = true) actions) in
  if negb (bool_decide (heads = targets)) then false
  else if Bool.eqb (eq_str author.["kind"] "agent-draft") (is_null author.["agent_session_id"]) then false
  else if negb (Bool.eqb (is_null plan.["environment"]) (is_null plan.["environment_id"])) then false
  else if negb (scope_rules_hold plan kinds) then false
  else if negb (bool_decide (used = string_set plan.["service_ids"])) then false
  else if negb (Z.of_nat (size (list_to_set deployment_ids : gset string)) =? lenl deployment_ids)
  then false
  else all_enumerated (action_rules_hold plan) 0 actions && is_some (canonicalize plan).

Definition validate_plan (plan : Value) : bool := check PLAN plan && plan_rules_hold plan.

End actions.
