(* ===== verification/Trust.v ===== *)
(** * The trust store

    src/signed_plan/trust.rs: reading trusted-keys.json, its load-time
    validation, and the changes ([apply_change]) that bootstrap, [key.add] and
    [key.revoke] make to it.  Errors are the texts the code returns. *)

From S2P Require Import Prelude RustStr BTree Json Jcs Crypto Text Schema.

Definition MAX_TRUST_FILE_BYTES : Z := 256 * 1024.

Definition TEST_KEY_IDS : list string :=
  [ "dYLNItf797wK7n5moGt2cw"; "Hph9XRkn48eogeehAgeI9A"; "AqhPUHwy5byXy_JwVWyl7w";
    "cJWnw46mKT4S-FIYD8h8iA"; "TTnId5ZJWi6UIgsNoJGjLA" ].

Inductive TrustMode := Production | TestMode.

Definition is_production (mode : TrustMode) : bool :=
  match mode with Production => true | TestMode => false end.

(** What opening the trust file shows: [open], [metadata] and the bytes. *)
Record metadata := { is_file : bool; uid : Z; mode_bits : Z; file_len : Z }.

Inductive file_view :=
| NotFound
| OpenFailed
| Opened (stat : option metadata) (contents : option string).

Definition read_trust_bytes (file : file_view) (owner_uid : Z) : outcome string (option string) :=
  match file with
  | NotFound => Ok None
  | OpenFailed => Err "cannot open (symlink or permission)"
  | Opened stat contents =>
      let? m := ok_or stat "cannot stat" in
      check? is_file m else "not a regular file" in
      check? uid m =? owner_uid else "not owned by root" in
      check? Z.land (mode_bits m) 18 =? 0 else "group- or world-writable" in
      check? file_len m <=? MAX_TRUST_FILE_BYTES else "larger than 256 KiB" in
      let? all := ok_or contents "cannot read" in
      let bytes := slice_to (Z.to_nat (MAX_TRUST_FILE_BYTES + 1)) all in
      check? len bytes <=? MAX_TRUST_FILE_BYTES else "larger than 256 KiB" in
      Ok (Some bytes)
  end.

Section trust.
Context {CR : Crypto} {JR : JsonReader}.

Record TrustedKey := { public_key : PublicKey; entry : Value }.

Record TrustStore := {
  ts_server_id : string;
  ts_keys : bmap TrustedKey;
  ts_revoked : gset string;
  ts_compromised : gset string;
  ts_revocations : bmap (string * string);
  ts_mode : TrustMode;
  ts_document : Value;
  ts_raw : string
}.

Definition is_test_key (store : TrustStore) (key_id : string) : bool :=
  is_production (ts_mode store) && contains_str TEST_KEY_IDS key_id.

Definition fingerprint_of (document : Value) : string :=
  match canonicalize document with Some jcs => hex (sha256 jcs) | None => "" end.

Definition array_len (v : Value) : Z := match as_array v with Some l => lenl l | None => 0 end.

Definition generation_of (document : Value) : Z :=
  array_len document.["keys"] + array_len document.["revocations"].

Definition generation (store : TrustStore) : Z := generation_of (ts_document store).

Definition active_key_count (store : TrustStore) : Z :=
  let active := lenl (filter (fun id => id ∉ ts_revoked store) (bkeys (ts_keys store))) in
  Z.min active (2 ^ 32 - 1).

Definition is_owner (key : TrustedKey) : bool := eq_str (entry key).["role"] "owner".

Definition active_owner (store : TrustStore) (e : string * TrustedKey) : bool :=
  is_owner e.2 && negb (bool_decide (e.1 ∈ ts_revoked store)).

Definition active_owner_count (store : TrustStore) : Z :=
  lenl (List.filter (active_owner store) (ts_keys store)).

Definition key_entries (value : Value) : bool :=
  is_some_and (as_array value) (forallb (check KEY_ENTRY)).

Definition revocations_shape (value : Value) : bool :=
  is_some_and (as_array value) (forallb (check REVOCATION)).

Definition TRUST_FILE : Shape := Object
  [ ("version", Int 1 1); ("server_id", Pattern uuid7); ("keys", Custom key_entries);
    ("revocations", Custom revocations_shape) ].

Definition statement_digest (e : Value) (prefix field : string) : option string :=
  match as_object e with
  | None => None
  | Some m => option_map (prefixed_digest prefix) (canonicalize (VObject (binsert field VNull m)))
  end.

Definition signed_by_owner (keys : bmap TrustedKey) (signer : Value) (digest : option string) : bool :=
  match as_str signer.["key_id"], digest with
  | Some signer_id, Some digest =>
      match bget signer_id keys with
      | None => false
      | Some owner =>
          is_owner owner
          && is_some_and (as_str signer.["sig"]) (fun text =>
               is_some_and (b64url_decode text) (fun sig => verify_prehash (public_key owner) digest sig))
      end
  | _, _ => false
  end.

(** One round of the loop over [keys]: the map and the file order so far.
    [index == 0] is an empty [order]. *)
Definition load_key (mode : TrustMode) (st : bmap TrustedKey * list string) (e : Value)
    : outcome string (bmap TrustedKey * list string) :=
  let '(keys, order) := st in
  let? key_id := ok_or (as_str e.["key_id"]) "schema: key_id" in
  let? pk := ok_or (parse_spki_base64 (str_or_default e.["spki"]))
               "spki is not an uncompressed P-256 point" in
  check? String.eqb (pk_key_id pk) key_id else "key_id does not match the spki" in
  check? negb (bcontains key_id keys) else "duplicate key_id" in
  check? key_scope_shape_ok e else "scope or presence does not match the role" in
  check? negb (is_production mode && contains_str TEST_KEY_IDS key_id) else "lists a public TEST key" in
  let? _ :=
    match order with
    | [] =>
        check? is_null e.["added_by"] && eq_str e.["role"] "owner" else "keys[0] must be the TOFU owner" in
        Ok tt
    | _ :: _ =>
        let digest := statement_digest e KEY_ADD_PREFIX "added_by" in
        check? signed_by_owner keys e.["added_by"] digest
          else "added_by is not a valid earlier owner signature" in
        Ok tt
    end in
  Ok (binsert key_id {| public_key := pk; entry := e |} keys, order ++ [key_id]).

Record revocation_state := {
  rs_revoked : gset string;
  rs_compromised : gset string;
  rs_map : bmap (string * string)
}.

Definition no_revocations : revocation_state :=
  {| rs_revoked := ∅; rs_compromised := ∅; rs_map := [] |}.

(** One round of the loop over [revocations]. *)
Definition load_revocation (keys : bmap TrustedKey) (st : revocation_state) (r : Value)
    : outcome string revocation_state :=
  let? key_id := ok_or (as_str r.["key_id"]) "schema: key_id" in
  check? bcontains key_id keys else "revocation names an unknown key" in
  let digest := statement_digest r KEY_REVOKE_PREFIX "revoked_by" in
  check? signed_by_owner keys r.["revoked_by"] digest else "revoked_by is not a valid owner signature" in
  check? negb (bool_decide (key_id ∈ rs_revoked st)) else "key revoked twice" in
  Ok {| rs_revoked := {[ key_id ]} ∪ rs_revoked st;
        rs_compromised := if eq_str r.["reason"] "compromised" then {[ key_id ]} ∪ rs_compromised st
                          else rs_compromised st;
        rs_map := binsert key_id (str_or_default r.["revoked_at"], str_or_default r.["reason"])
                    (rs_map st) |}.

(** [entry["added_by"]["key_id"].as_str()]. *)
Definition added_by (key : TrustedKey) : option string :=
  as_str (entry key).["added_by"].["key_id"].

(** One round of the cascade; [keys[key_id]] panics on an absent key. *)
Definition cascade_step (keys : bmap TrustedKey) (compromised : gset string) (key_id : string)
    : outcome string (gset string) :=
  match bget key_id keys with
  | None => Panic
  | Some key =>
      Ok (if is_some_and (added_by key) (fun parent => bool_decide (parent ∈ compromised))
          then {[ key_id ]} ∪ compromised else compromised)
  end.

Definition validate_trust (value : Value) (mode : TrustMode) : outcome string TrustStore :=
  check? check TRUST_FILE value else "schema: unknown, missing or malformed field" in
  let? entries := ok_or (as_array value.["keys"]) "schema: keys" in
  check? negb (lenl entries =? 0) else "keys[0] must be the TOFU owner" in
  let? ks := fold_each (load_key mode) ([], []) entries in
  let '(keys, order) := ks in
  let? revocations := ok_or (as_array value.["revocations"]) "schema: revocations" in
  let? rs := fold_each (load_revocation keys) no_revocations revocations in
  let? compromised := fold_each (cascade_step keys) (rs_compromised rs) order in
  let? server_id := ok_or (as_str value.["server_id"]) "schema: server_id" in
  Ok {| ts_server_id := server_id; ts_keys := keys; ts_revoked := rs_revoked rs ∪ compromised;
        ts_compromised := compromised; ts_revocations := rs_map rs; ts_mode := mode;
        ts_document := value; ts_raw := "" |}.

Inductive TrustState :=
| Absent
| Valid (store : TrustStore)
| Invalid (reason : string) (document : option Value).

Definition set_raw (store : TrustStore) (bytes : string) : TrustStore :=
  {| ts_server_id := ts_server_id store; ts_keys := ts_keys store; ts_revoked := ts_revoked store;
     ts_compromised := ts_compromised store; ts_revocations := ts_revocations store;
     ts_mode := ts_mode store; ts_document := ts_document store; ts_raw := bytes |}.

(** [TrustPaths::load]. *)
Definition load (file : file_view) (owner_uid : Z) (mode : TrustMode) : outcome string TrustState :=
  match read_trust_bytes file owner_uid with
  | Panic => Panic
  | Ok None => Ok Absent
  | Err reason => Ok (Invalid reason None)
  | Ok (Some bytes) =>
      match parse_strict bytes MAX_TRUST_FILE_BYTES with
      | None => Ok (Invalid "not strict JSON" None)
      | Some document =>
          match validate_trust document mode with
          | Ok store => Ok (Valid (set_raw store bytes))
          | Err reason => Ok (Invalid reason (Some document))
          | Panic => Panic
          end
      end
  end.

Inductive TrustWriteError :=
| AlreadyBootstrapped
| CurrentInvalid (reason : string)
| Rejected (reason : string)
| Io (reason : string).

Inductive TrustChange :=
| Bootstrap (server_id : string) (owner_key : Value)
| AddKey (e : Value)
| Revoke (r : Value).

(** [document[field].as_array_mut()...push(value)]. *)
Definition push (document : Value) (field : string) (value : Value) : outcome TrustWriteError Value :=
  match document with
  | VObject m =>
      match bget field m with
      | Some (VArray l) => Ok (VObject (binsert field (VArray (l ++ [value])) m))
      | _ => Err (CurrentInvalid (field +:+ " is not an array"))
      end
  | VNull => Err (CurrentInvalid (field +:+ " is not an array"))
  | _ => Panic
  end.

Definition bootstrap_document (server_id : string) (owner_key : Value) : Value :=
  VObject (bof_list [ ("version", VNumber (PosInt 1)); ("server_id", VString server_id);
                      ("keys", VArray [owner_key]); ("revocations", VArray []) ]).

Definition changed_document (current : option TrustStore) (change : TrustChange)
    : outcome TrustWriteError Value :=
  match change, current with
  | Bootstrap _ _, Some _ => Err AlreadyBootstrapped
  | Bootstrap server_id owner_key, None => Ok (bootstrap_document server_id owner_key)
  | _, None => Err (CurrentInvalid "no valid trust file")
  | AddKey e, Some store =>
      if bcontains (str_or_default e.["key_id"]) (ts_keys store)
      then Err (Rejected "key_id already present")
      else push (ts_document store) "keys" e
  | Revoke r, Some store =>
      if bcontains (str_or_default r.["key_id"]) (ts_revocations store)
      then Err (Rejected "key already revoked")
      else push (ts_document store) "revocations" r
  end.

Definition is_revoke (change : TrustChange) : bool :=
  match change with Revoke _ => true | _ => false end.

Definition apply_change (current : option TrustStore) (change : TrustChange) (mode : TrustMode)
    : outcome TrustWriteError Value :=
  let? document := changed_document current change in
  let? validated := omap_err Rejected (validate_trust document mode) in
  check? negb (is_revoke change && (active_owner_count validated =? 0))
    else Rejected "would leave no active owner key" in
  Ok document.

End trust.
