(* ===== verification/Verify.v ===== *)
(** * Plan verification

    src/signed_plan/verify.rs: the ordered checks of a signed plan (steps 1 to
    12) and the bootstrap.  The server's own state is the trait
    [PolicyContext], here a record of operations; the admission store
    implements it (AdmissionStore.v). *)

From S2P Require Import Prelude RustStr BTree PlanCode Json Jcs Crypto Text Calendar Schema.
From S2P Require Import Actions Trust.

Definition MAX_SIGNED_PLAN_BYTES : Z := 64 * 1024.
Definition MAX_SPEC_BYTES : Z := 16 * 1024.
Definition MAX_SPECS : Z := 64.
Definition SKEW_SECONDS : Z := 120.
Definition MAX_LIFETIME_SECONDS : Z := 900.
Definition WEBHOOK_TTL_SECONDS : Z := 900.
Definition GENESIS_HEAD : string :=
  "0000000000000000000000000000000000000000000000000000000000000000".

Definition TID_KINDS : list string :=
  [ "agent.update"; "component.update"; "secret.set"; "secret.unset"; "restore"; "server.add";
    "shell.open"; "rule.create"; "rule.revoke"; "key.add"; "key.revoke"; "service.elevate";
    "service.delete"; "environment.delete"; "project.delete"; "server.remove";
    "server.accounts.migrate"; "volume.delete"; "bucket.delete"; "bucket.credentials.rotate";
    "backup.delete"; "recovery_recipient.set"; "backup.destination.set"; "env.protection.set";
    "release_key.add"; "release_key.revoke"; "repo.credential.set"; "repo.credential.delete" ].
Definition OWNER_ONLY_PRESENCE : list string :=
  ["db.upgrade"; "backup.policy.delete"; "backup.destination.delete"; "webhook.host.set"].
Definition CI_KINDS : list string := ["deploy"; "rollback"; "restart"; "operation.cancel"].
Definition RULE_ELIGIBLE : list string := ["deploy"; "scale"].

Definition role_allows (role kind : string) : bool :=
  if String.eqb role "owner" then true
  else if String.eqb role "deployer" then
    negb (contains_str TID_KINDS kind) && negb (contains_str OWNER_ONLY_PRESENCE kind)
  else if String.eqb role "ci" then contains_str CI_KINDS kind
  else false.

Inductive Submitter := Client | AgentWebhook.

Definition submitter_str (s : Submitter) : string :=
  match s with Client => "client" | AgentWebhook => "agent_webhook" end.

Definition is_webhook (s : Submitter) : bool :=
  match s with AgentWebhook => true | Client => false end.

Record RuleRecord := {
  rr_rule : Value;
  rr_digest_hex : string;
  rr_created_by_key_id : string;
  rr_revoked : bool
}.

Record DeliveryRecord := {
  dr_body_digest_hex : string;
  dr_repo : string;
  dr_ref : string;
  dr_commit_sha : string;
  dr_commit_time : string;
  dr_received_at : string;
  dr_verified : bool;
  dr_consumed_by_rule_ids : list string;
  dr_environments : list string
}.

Definition SignedScope : Type := string * string * string.

(** [timestamp(&Value)] of verify.rs. *)
Definition value_timestamp (value : Value) : plan_result Z :=
  ok_or (match as_str value with Some t => timestamp t | None => None end) PlanCode.Parse.

Definition check_time (plan : Value) (now : Z) : plan_result unit :=
  let? created := value_timestamp plan.["created_at"] in
  let? expires := value_timestamp plan.["expires_at"] in
  let lifetime := expires - created in
  check? (0 <? lifetime) && (lifetime <=? MAX_LIFETIME_SECONDS) else PlanCode.Lifetime in
  check? created <=? now + SKEW_SECONDS else PlanCode.NotYetValid in
  check? now <=? expires + SKEW_SECONDS else PlanCode.Expired in
  Ok tt.

Definition signed_scope (plan : Value) : SignedScope :=
  (str_or_default plan.["project_id"], str_or_default plan.["environment"],
   str_or_default plan.["environment_id"]).

Definition contains_value (items : Value) (v : Value) : bool :=
  is_some_and (as_array items) (existsb (fun item => value_eqb item v)).

Definition scope_covers (signer plan : Value) : bool :=
  let scope := signer.["scope"] in
  if is_null scope then true
  else if is_null plan.["project_id"] then eq_bool scope.["server_level"] true
  else contains_value scope.["project_ids"] plan.["project_id"]
       && contains_value scope.["environments"] plan.["environment"].

Definition SERVICE_PARAM_KINDS : list (string * string) :=
  [ ("cron.create", "service_id"); ("cron.update", "service_id"); ("backup.run", "resource_id");
    ("backup.verify", "resource_id"); ("backup.policy.set", "resource_id");
    ("backup.policy.delete", "resource_id"); ("backup.delete", "resource_id");
    ("restore", "resource_id") ].
Definition CRON_ID_KINDS : list string :=
  ["cron.update"; "cron.delete"; "cron.pause"; "cron.resume"; "cron.run"].

Definition ref_matches (ref pattern : string) : bool :=
  String.eqb ref pattern
  || is_some_and (strip_suffix "*" pattern) (fun prefix =>
       ends_with "/*" pattern && starts_with prefix ref && (len prefix <? len ref)).

Definition string_in (set value : Value) : bool := contains_value set value.

Section verify.
Context {CR : Crypto} {JR : JsonReader}.

(** The trait [PolicyContext]. *)
Record PolicyContext := {
  ctx_now : Z;
  ctx_trust : TrustStore;
  admission_digest : string -> plan_result (option string);
  admission_signer_key_ids : string -> string -> plan_result (option (list string));
  seen : string -> string -> plan_result bool;
  head : string -> string -> plan_result string;
  ctx_rule : string -> plan_result (option RuleRecord);
  rule_invocations_last_hour : string -> plan_result Z;
  delivery : string -> plan_result (option DeliveryRecord);
  last_admitted_spec : string -> plan_result (option Value);
  build_image : string -> string -> plan_result (option string);
  build_window : string -> string -> plan_result (option Z * option Z);
  deployed_commit : string -> string -> plan_result (option (string * string));
  admission_scope : string -> string -> plan_result (option SignedScope);
  service_scope : string -> plan_result (option SignedScope);
  cron_scope : string -> plan_result (option SignedScope);
  backup_policies : string -> plan_result (list Value);
  environment_protected : string -> string -> plan_result bool
}.

Record VerifiedPlan := {
  vp_plan : Value;
  vp_digest_hex : string;
  vp_signers : list Value;
  vp_specs : bmap (Value * string)
}.

Definition plan_kinds (plan : Value) : list string :=
  filter_map (fun a => as_str a.["kind"]) (items_of plan.["actions"]).

Definition signer_key_ids (vp : VerifiedPlan) : list string :=
  filter_map (fun s => as_str s.["key_id"]) (vp_signers vp).

Definition vp_scope (vp : VerifiedPlan) : string * string :=
  (str_or_default (vp_plan vp).["project_id"], str_or_default (vp_plan vp).["environment"]).

Inductive Verdict :=
| Admit (vp : VerifiedPlan)
| Deduped (plan_id digest_hex : string).

(** ** Steps 1 to 3s *)

Definition parse_spec (spec_text : string) : option (Value * string) :=
  if MAX_SPEC_BYTES <? len spec_text then None
  else match parse_strict spec_text MAX_SPEC_BYTES with
  | None => None
  | Some spec =>
      if negb (check SPEC spec) then None
      else match canonicalize spec with
      | None => None
      | Some canonical =>
          if negb (String.eqb canonical spec_text) then None
          else Some (spec, hex (prefixed_digest SPEC_PREFIX spec_text))
      end
  end.

(** The loop that fills [specs]. *)
Fixpoint collect_specs (specs : bmap (Value * string)) (spec_texts : list string)
    : option (bmap (Value * string)) :=
  match spec_texts with
  | [] => Some specs
  | spec_text :: rest =>
      match parse_spec spec_text with
      | None => None
      | Some (spec, digest) =>
          if bcontains digest specs then None
          else collect_specs (binsert digest (spec, spec_text) specs) rest
      end
  end.

Definition elevations (actions : list Value) : gset string :=
  list_to_set (filter_map (fun action => as_str action.["params"].["spec_digest_hex"])
    (filter (fun action => eq_str action.["kind"] "service.elevate" = true) actions)).

(** The digest one action pins: [Some None] for a kind without a spec. *)
Definition action_spec (specs : bmap (Value * string)) (elevated : gset string) (action : Value)
    : option (option string) :=
  match as_str action.["kind"] with
  | None => None
  | Some kind =>
      let params := action.["params"] in
      let upgrade_spec := String.eqb kind "db.upgrade" && is_some (get params "spec_digest_hex") in
      if negb (contains_str SPEC_KINDS kind) && negb upgrade_spec then Some None
      else match as_str params.["spec_digest_hex"] with
      | None => None
      | Some digest =>
          match bget digest specs with
          | None => None
          | Some (spec, _) =>
              let service := if upgrade_spec then params.["resource_id"] else params.["service_id"] in
              if negb (value_eqb spec.["service_id"] service)
                 || (String.eqb kind "scale" && negb (value_eqb spec.["replicas"] params.["replicas"]))
                 || (negb (String.eqb kind "service.elevate") && spec_elevated spec
                     && negb (bool_decide (digest ∈ elevated)))
              then None
              else Some (Some digest)
          end
      end
  end.

Fixpoint wanted_specs (specs : bmap (Value * string)) (elevated : gset string) (wanted : gset string)
    (actions : list Value) : option (gset string) :=
  match actions with
  | [] => Some wanted
  | action :: rest =>
      match action_spec specs elevated action with
      | None => None
      | Some None => wanted_specs specs elevated wanted rest
      | Some (Some digest) => wanted_specs specs elevated ({[ digest ]} ∪ wanted) rest
      end
  end.

Definition bind_specs (plan : Value) (spec_texts : list string) : option (bmap (Value * string)) :=
  if MAX_SPECS <? lenl spec_texts then None
  else match collect_specs [] spec_texts with
  | None => None
  | Some specs =>
      match as_array plan.["actions"] with
      | None => None
      | Some actions =>
          match wanted_specs specs (elevations actions) ∅ actions with
          | None => None
          | Some wanted => if bool_decide (list_to_set (bkeys specs) = wanted) then Some specs else None
          end
      end
  end.

(** [sig["key_id"].to_string()].  The texts only matter when every signature
    has the shape [SIGNATURE], where the ids are strings and [Display] is
    their canonical text. *)
Definition display (v : Value) : string := default "" (encode v).

Definition parse_envelope (text : string) : plan_result (Value * list Value) :=
  let? value := ok_or (parse_strict text MAX_SIGNED_PLAN_BYTES) PlanCode.Parse in
  let? map := ok_or (as_object value) PlanCode.Parse in
  check? (blen map =? 2) && is_some_and (bget "plan" map) is_object else PlanCode.Parse in
  let? signatures := ok_or (bget "signatures" map) PlanCode.Parse in
  let? plan := ok_or (bget "plan" (bremove "signatures" map)) PlanCode.Parse in
  check? bool_decide ((match get plan "version" with Some v => as_i64 v | None => None end) = Some 1)
    else PlanCode.Version in
  let? signatures := ok_or (as_array signatures) PlanCode.Parse in
  let distinct : gset string := list_to_set ((fun sig => display sig.["key_id"]) <$> signatures) in
  check? validate_plan plan && (lenl signatures <=? 4) && forallb (check SIGNATURE) signatures
         && (Z.of_nat (size distinct) =? lenl signatures) else PlanCode.Parse in
  Ok (plan, signatures).

Definition plan_digest_hex (plan : Value) : plan_result string :=
  let? canonical := ok_or (canonicalize plan) PlanCode.Parse in
  Ok (hex (prefixed_digest PLAN_PREFIX canonical)).

Definition STATE_PREFIX : string := "permanu-state-v1" +:+ String "010" "".

Definition next_head (head_hex plan_digest_hex : string) : string :=
  hex (sha256 (STATE_PREFIX +:+ head_hex +:+ String "010" "" +:+ plan_digest_hex)).

(** ** Signatures and rules *)

Definition verify_signature (signature : Value) (digest : string) (trust : TrustStore)
    : plan_result Value :=
  check? eq_str signature.["alg"] "ES256-raw" else PlanCode.SigAlg in
  let key_id := str_or_default signature.["key_id"] in
  let? key := ok_or (if is_test_key trust key_id then None else bget key_id (ts_keys trust))
                PlanCode.KeyUnknown in
  check? negb (bool_decide (key_id ∈ ts_revoked trust)) else PlanCode.KeyRevoked in
  let? raw := ok_or (match as_str signature.["sig"] with Some t => b64url_decode t | None => None end)
                PlanCode.Parse in
  check? verify_prehash (public_key key) digest raw else PlanCode.SigInvalid in
  Ok (entry key).

Definition verify_rule (invocation : Value) (trust : TrustStore) (ctx : PolicyContext)
    : plan_result RuleRecord :=
  let rule_id := str_or_default invocation.["rule_id"] in
  let claimed := str_or_default invocation.["rule_digest_hex"] in
  let? found := ctx_rule ctx rule_id in
  let? record := ok_or found PlanCode.RuleUnknown in
  let recomputed :=
    option_map (fun canonical => hex (prefixed_digest RULE_PREFIX canonical))
      (canonicalize (rr_rule record)) in
  check? eq_str (rr_rule record).["id"] rule_id && String.eqb (rr_digest_hex record) claimed
         && bool_decide (recomputed = Some claimed) else PlanCode.RuleUnknown in
  check? negb (rr_revoked record
               || bool_decide (rr_created_by_key_id record ∈ ts_compromised trust))
    else PlanCode.RuleRevoked in
  Ok record.

(** ** Named scopes and backup policies *)

(** [found != scope] for a scope the store knows. *)
Definition foreign (scope : SignedScope) (found : option SignedScope) : bool :=
  is_some_and found (fun found => negb (bool_decide (found = scope))).

(** One action: [Ok true] when it names something of another scope. *)
Definition action_foreign (scope : SignedScope) (ctx : PolicyContext) (action : Value)
    : plan_result bool :=
  let kind := str_or_default action.["kind"] in
  let params := action.["params"] in
  let? service := match find_first (fun p => String.eqb p.1 kind) SERVICE_PARAM_KINDS with
    | Some (_, field) => let? found := service_scope ctx (str_or_default params.[field]) in
                         Ok (foreign scope found)
    | None => Ok false
    end in
  if service then Ok true
  else
    let? source :=
      if String.eqb kind "restore" then
        match as_str params.["source_resource_id"] with
        | Some source => let? found := service_scope ctx source in Ok (foreign scope found)
        | None => Ok false
        end
      else Ok false in
    if source then Ok true
    else if contains_str CRON_ID_KINDS kind then
      let? found := cron_scope ctx (str_or_default params.["cron_id"]) in Ok (foreign scope found)
    else Ok false.

Fixpoint all_in_scope (scope : SignedScope) (ctx : PolicyContext) (actions : list Value)
    : plan_result bool :=
  match actions with
  | [] => Ok true
  | action :: rest =>
      let? out := action_foreign scope ctx action in
      if out then Ok false else all_in_scope scope ctx rest
  end.

Definition names_in_scope (plan : Value) (ctx : PolicyContext) : plan_result bool :=
  all_in_scope (signed_scope plan) ctx (items_of plan.["actions"]).

(** A policy of lower retention or another destination than [current]. *)
Definition narrows (params current : Value) : bool :=
  existsb (fun keep => default 0 (as_i64 params.[keep]) <? default 0 (as_i64 current.[keep]))
    ["keep_daily"; "keep_weekly"; "keep_monthly"]
  || negb (value_eqb params.["destination_ref"] current.["destination_ref"]).

Fixpoint any_narrows (ctx : PolicyContext) (actions : list Value) : plan_result bool :=
  match actions with
  | [] => Ok false
  | action :: rest =>
      if negb (eq_str action.["kind"] "backup.policy.set") then any_narrows ctx rest
      else
        let params := action.["params"] in
        let? currents := backup_policies ctx (str_or_default params.["resource_id"]) in
        if existsb (narrows params) currents then Ok true else any_narrows ctx rest
  end.

Definition policy_narrows (plan : Value) (ctx : PolicyContext) : plan_result bool :=
  any_narrows ctx (items_of plan.["actions"]).

(** ** Step 12: rule plans *)

Definition rule_scope_ok (plan rule : Value) : bool :=
  let invocation := plan.["invocation"] in
  let evidence := invocation.["evidence"] in
  let scope := rule.["scope"] in
  let targets := items_of plan.["targets"] in
  let services := items_of plan.["service_ids"] in
  value_eqb invocation.["trigger"] rule.["trigger"]
  && value_eqb plan.["project_id"] scope.["project_id"]
  && value_eqb plan.["environment"] scope.["environment"]
  && (lenl targets =? 1)
  && forallb (string_in scope.["server_ids"]) targets
  && forallb (string_in scope.["service_ids"]) services
  && value_eqb evidence.["repo"] scope.["repo"]
  && is_some_and (as_array scope.["branch_patterns"]) (existsb (fun p =>
       ref_matches (str_or_default evidence.["ref"]) (str_or_default p))).

(** [specs.get(action["params"]["spec_digest_hex"])]. *)
Definition spec_of (specs : bmap (Value * string)) (action : Value) : plan_result Value :=
  let? found := ok_or (bget (str_or_default action.["params"].["spec_digest_hex"]) specs)
                  PlanCode.RuleSpec in
  Ok found.1.

Definition replicas_within (limits : Value) (specs : bmap (Value * string)) (action : Value)
    : plan_result unit :=
  let? spec := spec_of specs action in
  match as_i64 limits.["max_replicas"] with
  | Some max =>
      check? default i64_max (as_i64 spec.["replicas"]) <=? max else PlanCode.RuleLimit in Ok tt
  | None => Ok tt
  end.

Definition evidence_matches (evidence : Value) (environment rule_id : string) (d : DeliveryRecord)
    : bool :=
  negb (existsb (String.eqb rule_id) (dr_consumed_by_rule_ids d))
  && existsb (String.eqb environment) (dr_environments d)
  && eq_str evidence.["body_digest_hex"] (dr_body_digest_hex d)
  && eq_str evidence.["repo"] (dr_repo d)
  && eq_str evidence.["ref"] (dr_ref d)
  && eq_str evidence.["commit_sha"] (dr_commit_sha d)
  && eq_str evidence.["commit_time"] (dr_commit_time d)
  && eq_str evidence.["received_at"] (dr_received_at d).

Definition action_service (action : Value) : string := str_or_default action.["params"].["service_id"].

(** The actions of one kind ([continue] on the others). *)
Definition of_kind (kind : string) (actions : list Value) : list Value :=
  List.filter (fun action => eq_str action.["kind"] kind) actions.

Definition build_fresh (ctx : PolicyContext) (received now : Z) (commit_sha : string) (action : Value)
    : plan_result unit :=
  let? window := build_window ctx (action_service action) commit_sha in
  let fresh := match window with
    | (Some started, Some built) =>
        (started <=? received + WEBHOOK_TTL_SECONDS) && (now <=? built + WEBHOOK_TTL_SECONDS)
    | _ => false
    end in
  check? fresh else PlanCode.RuleEvidence in Ok tt.

Definition commit_newer (ctx : PolicyContext) (commit_time : Z) (commit_sha ref : string)
    (action : Value) : plan_result unit :=
  check? eq_str action.["params"].["commit_sha"] commit_sha else PlanCode.RuleEvidence in
  let? deployed := deployed_commit ctx (action_service action) ref in
  match deployed with
  | Some (sha, time) =>
      let older := is_none_or (timestamp time) (fun deployed => commit_time <? deployed) in
      check? negb (String.eqb sha commit_sha || older) else PlanCode.RuleEvidence in Ok tt
  | None => Ok tt
  end.

(** [rebased = spec with field from base; rebased == base]. *)
Definition differs_only_in (field : string) (spec base : Value) : plan_result unit :=
  let? rebased := set_field spec field base.[field] in
  check? value_eqb rebased base else PlanCode.RuleSpec in Ok tt.

Definition deploy_spec_ok (ctx : PolicyContext) (specs : bmap (Value * string)) (commit_sha : string)
    (action : Value) : plan_result unit :=
  let service := action_service action in
  let? spec := spec_of specs action in
  let? last := last_admitted_spec ctx service in
  let? base := ok_or last PlanCode.RuleSpec in
  let? image := build_image ctx service commit_sha in
  let? build := ok_or image PlanCode.RuleSpec in
  check? eq_str spec.["image_digest_hex"] build else PlanCode.RuleSpec in
  differs_only_in "image_digest_hex" spec base.

Definition scale_spec_ok (ctx : PolicyContext) (specs : bmap (Value * string)) (action : Value)
    : plan_result unit :=
  let? spec := spec_of specs action in
  let? last := last_admitted_spec ctx (action_service action) in
  let? base := ok_or last PlanCode.RuleSpec in
  differs_only_in "replicas" spec base.

Definition lists_scale (rule : Value) : bool :=
  is_some_and (as_array rule.["allowed_kinds"]) (existsb (fun kind => eq_str kind "scale")).

Definition check_rule (plan rule : Value) (ctx : PolicyContext) (now : Z)
    (specs : bmap (Value * string)) : plan_result unit :=
  let evidence := plan.["invocation"].["evidence"] in
  let? not_before := value_timestamp rule.["not_before"] in
  let? rule_expires := value_timestamp rule.["expires_at"] in
  check? (not_before <=? now) && (now <=? rule_expires) else PlanCode.RuleWindow in
  let project := str_or_default plan.["project_id"] in
  let environment := str_or_default plan.["environment"] in
  let? refused :=
    if negb (rule_scope_ok plan rule) then Ok true else environment_protected ctx project environment in
  check? negb refused else PlanCode.RuleScope in
  let actions := items_of plan.["actions"] in
  let limits := rule.["limits"] in
  check? negb (lists_scale rule && is_null limits.["max_replicas"]) else PlanCode.RuleLimit in
  let? _ := for_each (replicas_within limits specs) actions in
  let rule_id := str_or_default rule.["id"] in
  let max_per_hour := default 0 (as_i64 limits.["max_invocations_per_hour"]) in
  let? invocations := rule_invocations_last_hour ctx rule_id in
  check? Z.min invocations i64_max <? max_per_hour else PlanCode.RuleLimit in
  let? found := delivery ctx (str_or_default evidence.["delivery_id"]) in
  let? d := ok_or (match found with Some d => if dr_verified d then Some d else None | None => None end)
              PlanCode.RuleEvidence in
  check? evidence_matches evidence environment rule_id d else PlanCode.RuleEvidence in
  let? received := value_timestamp evidence.["received_at"] in
  check? received - SKEW_SECONDS <=? now else PlanCode.RuleEvidence in
  let commit_sha := str_or_default evidence.["commit_sha"] in
  let? _ :=
    if received + WEBHOOK_TTL_SECONDS <? now
    then for_each (build_fresh ctx received now commit_sha) (of_kind "deploy" actions)
    else Ok tt in
  let? commit_time := value_timestamp evidence.["commit_time"] in
  let? _ := for_each (commit_newer ctx commit_time commit_sha (str_or_default evidence.["ref"]))
              (of_kind "deploy" actions) in
  let? _ := for_each (deploy_spec_ok ctx specs commit_sha) (of_kind "deploy" actions) in
  for_each (scale_spec_ok ctx specs) (of_kind "scale" actions).

(** ** Steps 4 to 12 *)

(** Step 11 for one kind of a rule plan. *)
Definition rule_kind_ok (record : RuleRecord) (kind : string) : plan_result unit :=
  let allowed := is_some_and (as_array (rr_rule record).["allowed_kinds"])
                   (existsb (fun x => eq_str x kind)) in
  check? allowed && contains_str RULE_ELIGIBLE kind else PlanCode.KindForbidden in Ok tt.

(** Step 11 for one kind of a signed plan. *)
Definition signed_kind_ok (plan : Value) (signers : list Value) (ctx : PolicyContext) (kind : string)
    : plan_result unit :=
  let allowed := List.filter (fun s => role_allows (str_or_default s.["role"]) kind) signers in
  let params := (idx_n plan.["actions"] 0).["params"] in
  let cancel_id := str_or_default params.["plan_id"] in
  let cancel_digest := str_or_default params.["plan_digest_hex"] in
  let? _ :=
    if String.eqb kind "operation.cancel" then
      let? cancelled := admission_scope ctx cancel_id cancel_digest in
      check? negb (foreign (signed_scope plan) cancelled) else PlanCode.ScopeMismatch in Ok tt
    else Ok tt in
  let? allowed :=
    if String.eqb kind "operation.cancel" && existsb (fun s => eq_str s.["role"] "ci") allowed then
      let? cancelled := admission_signer_key_ids ctx cancel_id cancel_digest in
      Ok (List.filter (fun s => negb (eq_str s.["role"] "ci")
            || is_some_and cancelled (fun ids =>
                 is_some_and (as_str s.["key_id"]) (contains_str ids))) allowed)
    else Ok allowed in
  check? negb (lenl allowed =? 0) else PlanCode.KindForbidden in
  check? existsb (fun s => scope_covers s plan) allowed else PlanCode.KeyScope in
  Ok tt.

(** An owner signature with presence. *)
Definition owner_present (s : Value) : bool :=
  eq_str s.["role"] "owner" && negb (eq_str s.["presence"] "none").

Definition targets_server (plan : Value) (server_id : string) : bool :=
  is_some_and (as_array plan.["targets"]) (existsb (fun t => eq_str t server_id)).

Definition authority_ok (plan : Value) (signatures : list Value) (submitter : Submitter) : bool :=
  let has_invocation := negb (is_null plan.["invocation"]) in
  if eq_str plan.["author"].["kind"] "rule"
  then (lenl signatures =? 0) && has_invocation && is_webhook submitter
  else negb (lenl signatures =? 0) && negb has_invocation.

(** Step 9. *)
Definition check_base (plan : Value) (is_rule : bool) (signers : list Value) (ctx : PolicyContext)
    : plan_result unit :=
  if eq_bool plan.["base"].["force"] true then
    check? negb (is_rule || negb (existsb (fun s => eq_str s.["role"] "owner") signers))
      else PlanCode.ForceForbidden in Ok tt
  else
    let? h := head ctx (str_or_default plan.["project_id"]) (str_or_default plan.["environment"]) in
    check? eq_str plan.["base"].["heads"].[ts_server_id (ctx_trust ctx)] h
      else PlanCode.BaseMismatch in Ok tt.

(** Step 10. *)
Definition check_presence (plan : Value) (is_rule : bool) (signers : list Value) (ctx : PolicyContext)
    : plan_result unit :=
  let? fresh :=
    if existsb (contains_str TID_KINDS) (plan_kinds plan) then Ok true else policy_narrows plan ctx in
  check? negb (fresh && (is_rule || negb (existsb owner_present signers)))
    else PlanCode.TouchIdRequired in Ok tt.

(** Steps 9 to 12, after the replay check. *)
Definition check_policy (plan : Value) (rule : option RuleRecord) (signers : list Value)
    (specs : bmap (Value * string)) (ctx : PolicyContext) : plan_result unit :=
  let is_rule := is_some rule in
  let? _ := check_base plan is_rule signers ctx in
  let? _ := check_presence plan is_rule signers ctx in
  let? _ := for_each (fun kind => match rule with
              | Some record => rule_kind_ok record kind
              | None => signed_kind_ok plan signers ctx kind
              end) (plan_kinds plan) in
  match rule with
  | None =>
      let? inside := names_in_scope plan ctx in
      check? inside else PlanCode.ScopeMismatch in Ok tt
  | Some record => check_rule plan (rr_rule record) ctx (ctx_now ctx) specs
  end.

Definition verify_signed_plan (text : string) (spec_texts : list string) (submitter : Submitter)
    (ctx : PolicyContext) : plan_result Verdict :=
  let? envelope := parse_envelope text in
  let '(plan, signatures) := envelope in
  let? specs := ok_or (bind_specs plan spec_texts) PlanCode.SpecMismatch in
  let trust := ctx_trust ctx in
  check? targets_server plan (ts_server_id trust) else PlanCode.Target in
  let is_rule := eq_str plan.["author"].["kind"] "rule" in
  check? authority_ok plan signatures submitter else PlanCode.Author in
  let? canonical := ok_or (canonicalize plan) PlanCode.Parse in
  let digest := prefixed_digest PLAN_PREFIX canonical in
  let digest_hex := hex digest in
  let? signers := map_each (fun signature => verify_signature signature digest trust) signatures in
  let? rule :=
    if is_rule then let? record := verify_rule plan.["invocation"] trust ctx in Ok (Some record)
    else Ok None in
  let? _ := check_time plan (ctx_now ctx) in
  let plan_id := str_or_default plan.["id"] in
  let? admitted := admission_digest ctx plan_id in
  if bool_decide (admitted = Some digest_hex) then Ok (Deduped plan_id digest_hex)
  else
    let? reserved := seen ctx (str_or_default plan.["nonce"]) plan_id in
    let? again := if reserved then Ok true
                  else let? a := admission_digest ctx plan_id in Ok (is_some a) in
    check? negb again else PlanCode.Replay in
    let? _ := check_policy plan rule signers specs ctx in
    Ok (Admit {| vp_plan := plan; vp_digest_hex := digest_hex; vp_signers := signers;
                 vp_specs := specs |}).

(** ** Bootstrap *)

Record BootstrapPlan := { bp_server_id : string; bp_owner_key : Value }.

Definition bootstrap_code (code : PlanCode.t) : PlanCode.t :=
  match code with PlanCode.Version => PlanCode.Parse | code => code end.

Definition verify_bootstrap (text : string) (host_key_digests : list string) (age_recipient : string)
    (now : Z) : plan_result BootstrapPlan :=
  let? envelope := omap_err bootstrap_code (parse_envelope text) in
  let '(plan, signatures) := envelope in
  let actions := items_of plan.["actions"] in
  check? (lenl actions =? 1) && eq_str (idx_n plan.["actions"] 0).["kind"] "server.add"
    else PlanCode.Bootstrap in
  let params := (idx_n plan.["actions"] 0).["params"] in
  let server_id := str_or_default params.["server_id"] in
  check? bool_decide (as_array plan.["targets"] = Some [VString server_id]) else PlanCode.Bootstrap in
  let owner := params.["owner_key"] in
  let host_key := str_or_default params.["ssh_host_key_digest_hex"] in
  check? contains_str host_key_digests host_key else PlanCode.Bootstrap in
  check? negb (is_empty age_recipient)
         && eq_str params.["age_recipient_fingerprint"] (hex (sha256 age_recipient))
    else PlanCode.Bootstrap in
  let signature := default VNull (signatures !! 0%nat) in
  check? (lenl signatures =? 1) && value_eqb signature.["key_id"] owner.["key_id"]
         && eq_str signature.["alg"] "ES256-raw" else PlanCode.Bootstrap in
  check? eq_str owner.["role"] "owner" && negb (eq_str owner.["presence"] "none")
         && eq_str plan.["author"].["kind"] "user" else PlanCode.Bootstrap in
  let? key := ok_or (match parse_spki_base64 (str_or_default owner.["spki"]) with
                     | Some key => if eq_str owner.["key_id"] (pk_key_id key) then Some key else None
                     | None => None
                     end) PlanCode.Bootstrap in
  let? canonical := ok_or (canonicalize plan) PlanCode.Parse in
  let digest := prefixed_digest PLAN_PREFIX canonical in
  let? raw := ok_or (match as_str signature.["sig"] with Some t => b64url_decode t | None => None end)
                PlanCode.Parse in
  check? verify_prehash key digest raw else PlanCode.SigInvalid in
  let? _ := check_time plan now in
  Ok {| bp_server_id := server_id; bp_owner_key := owner |}.

End verify.
