(* ===== verification/Samples.v ===== *)
(** * Concrete inputs

    A trust file, plans, a rule, a spec and a policy context on which the
    definitions are evaluated (with the toy instance of Crypto.v and the
    reader of JsonRead.v).  They witness that the hypotheses of the theorems
    can hold. *)

From S2P Require Import Prelude RustStr BTree PlanCode Json Jcs JsonRead Crypto Text Calendar Schema.
From S2P Require Import Actions Trust Verify.

#[local] Existing Instance toy_crypto.
#[local] Existing Instance canonical_reader.

Definition obj (l : list (string * Value)) : Value := VObject (bof_list l).
Definition str (s : string) : Value := VString s.
Definition num (n : Z) : Value := VNumber (PosInt n).
Definition arr (l : list Value) : Value := VArray l.

Definition server_a : string := "01a0cdb5-3500-70a1-8000-000000000001".
Definition project_a : string := "01a0cdb5-3500-70b1-8000-000000000001".
Definition env_id_a : string := "01a0cdb5-3500-70b2-8000-000000000001".
Definition service_a : string := "01a0cdb5-3500-70c1-8000-000000000001".
Definition rule_a : string := "01a0cdb5-3500-70d1-8000-000000000001".
Definition plan_a : string := "01a0cdb5-3500-70e1-8000-000000000001".
Definition plan_b : string := "01a0cdb5-3500-70e1-8000-000000000002".
Definition deployment_a : string := "01a0cdb5-3500-70f1-8000-000000000001".

(** 32 byte key texts; the toy key id is the first 16 bytes and a suffix. *)
Definition owner_spki : string := "OWNERKEY00000001zzzzzzzzzzzzzzzz".
Definition owner_id : string := "OWNERKEY00000001AAAAAA".
Definition ci_spki : string := "CIKEY00000000001zzzzzzzzzzzzzzzz".
Definition ci_id : string := "CIKEY00000000001AAAAAA".
Definition sig_by (spki : string) : string := spki +:+ repeat_byte "s" 32.

Definition stamp_0 : string := "2026-01-01T00:00:00Z".
Definition now_0 : Z := default 0 (timestamp "2026-01-01T00:05:00Z").

Definition owner_entry : Value := obj
  [ ("key_id", str owner_id); ("alg", str "ES256-raw"); ("spki", str owner_spki);
    ("label", str "laptop"); ("role", str "owner"); ("presence", str "biometry"); ("scope", VNull);
    ("added_at", str stamp_0); ("added_by", VNull) ].
Definition ci_entry : Value := obj
  [ ("key_id", str ci_id); ("alg", str "ES256-raw"); ("spki", str ci_spki);
    ("label", str "runner"); ("role", str "ci"); ("presence", str "none");
    ("scope", obj [ ("project_ids", arr [str project_a]); ("environments", arr [str "production"]);
                    ("server_level", VBool false) ]);
    ("added_at", str stamp_0);
    ("added_by", obj [("key_id", str owner_id); ("sig", str (sig_by owner_spki))]) ].
Definition ci_revocation : Value := obj
  [ ("key_id", str ci_id); ("revoked_at", str stamp_0); ("reason", str "compromised");
    ("revoked_by", obj [("key_id", str owner_id); ("sig", str (sig_by owner_spki))]) ].

Definition document_0 : Value := bootstrap_document server_a owner_entry.

Definition get_ok {E A} (m : outcome E A) (d : A) : A := match m with Ok a => a | _ => d end.

Definition no_store : TrustStore :=
  {| ts_server_id := ""; ts_keys := []; ts_revoked := ∅; ts_compromised := ∅; ts_revocations := [];
     ts_mode := Production; ts_document := VNull; ts_raw := "" |}.

Definition store_0 : TrustStore := get_ok (validate_trust document_0 Production) no_store.
Definition document_1 : Value := get_ok (apply_change (Some store_0) (AddKey ci_entry) Production) VNull.
Definition store_1 : TrustStore := get_ok (validate_trust document_1 Production) no_store.
Definition document_2 : Value := get_ok (apply_change (Some store_1) (Revoke ci_revocation) Production) VNull.
Definition store_2 : TrustStore := get_ok (validate_trust document_2 Production) no_store.

(** ** Plans *)

Definition zero_hex : string := GENESIS_HEAD.

Definition plan_of (id : string) (project environment environment_id : Value) (services : list Value)
    (actions : list Value) (author : string) (invocation : Value) : Value := obj
  [ ("version", num 1); ("id", str id); ("project_id", project); ("environment", environment);
    ("environment_id", environment_id); ("service_ids", arr services); ("targets", arr [str server_a]);
    ("actions", arr actions);
    ("base", obj [("force", VBool false); ("heads", obj [(server_a, str zero_hex)])]);
    ("created_at", str stamp_0); ("expires_at", str "2026-01-01T00:15:00Z");
    ("nonce", str "nonce-0123456789"); ("author", obj [("kind", str author); ("agent_session_id", VNull)]);
    ("invocation", invocation) ].

Definition signature_of (key_id spki : string) : Value := obj
  [ ("key_id", str key_id); ("alg", str "ES256-raw"); ("sig", str (sig_by spki));
    ("signed_at", str stamp_0) ].

Definition envelope_text (plan : Value) (signatures : list Value) : string :=
  default "" (canonicalize (obj [("plan", plan); ("signatures", arr signatures)])).

Definition shell_plan : Value := plan_of plan_a VNull VNull VNull []
  [obj [("kind", str "shell.open"); ("params", obj [("service_id", VNull); ("ttl_seconds", num 300)])]]
  "user" VNull.
Definition shell_text : string := envelope_text shell_plan [signature_of owner_id owner_spki].

(** ** A spec, a rule and a rule plan *)

Definition spec_with (image : string) (replicas : Z) : Value := obj
  [ ("version", num 1); ("service_id", str service_a); ("image_repository", str "registry.local/web");
    ("image_digest_hex", str image); ("entrypoint", VNull); ("command", VNull);
    ("working_dir", VNull); ("user", VNull); ("env", obj []); ("ports", arr []); ("mounts", arr []);
    ("resources", obj [("cpu_millis", VNull); ("memory_bytes", VNull); ("pids_limit", VNull)]);
    ("privileged", VBool false); ("cap_add", arr []);
    ("network", obj [("mode", str "project"); ("aliases", arr [])]); ("healthcheck", VNull);
    ("replicas", num replicas); ("placement", obj [("server_ids", arr [str server_a])]);
    ("secrets_as_files_only", VBool true); ("service_kind", str "web"); ("otel_inject", VBool true) ].

Definition image_old : string := repeat_byte "a" 64.
Definition image_new : string := repeat_byte "b" 64.
Definition spec_base : Value := spec_with image_old 2.
Definition spec_new : Value := spec_with image_new 2.
Definition spec_text (spec : Value) : string := default "" (canonicalize spec).
Definition spec_digest (spec : Value) : string := hex (prefixed_digest SPEC_PREFIX (spec_text spec)).

Definition commit_a : string := repeat_byte "c" 40.

Definition rule_value : Value := obj
  [ ("version", num 1); ("id", str rule_a); ("label", str "main"); ("trigger", str "git.push");
    ("scope", obj [ ("project_id", str project_a); ("environment", str "production");
                    ("service_ids", arr [str service_a]); ("server_ids", arr [str server_a]);
                    ("repo", str "git.example.com/acme/web");
                    ("branch_patterns", arr [str "refs/heads/release/*"]) ]);
    ("allowed_kinds", arr [str "deploy"]);
    ("limits", obj [("max_replicas", num 3); ("max_invocations_per_hour", num 2)]);
    ("not_before", str stamp_0); ("expires_at", str "2026-06-01T00:00:00Z") ].
Definition rule_digest : string :=
  hex (prefixed_digest RULE_PREFIX (default "" (canonicalize rule_value))).

Definition evidence_value : Value := obj
  [ ("provider", str "github"); ("repo", str "git.example.com/acme/web");
    ("ref", str "refs/heads/release/1"); ("commit_sha", str commit_a); ("commit_time", str stamp_0);
    ("delivery_id", str "d-1"); ("body_digest_hex", str (repeat_byte "d" 64));
    ("received_at", str "2026-01-01T00:04:00Z") ].
Definition invocation_value : Value := obj
  [ ("rule_id", str rule_a); ("rule_digest_hex", str rule_digest); ("trigger", str "git.push");
    ("evidence", evidence_value) ].

Definition rule_plan : Value :=
  plan_of plan_b (str project_a) (str "production") (str env_id_a) [str service_a]
    [obj [("kind", str "deploy");
          ("params", obj [ ("service_id", str service_a); ("commit_sha", str commit_a);
                           ("spec_digest_hex", str (spec_digest spec_new));
                           ("deployment_id", str deployment_a) ])]]
    "rule" invocation_value.
Definition rule_text : string := envelope_text rule_plan [].

(** ** A policy context *)

Definition delivery_a : DeliveryRecord := {|
  dr_body_digest_hex := repeat_byte "d" 64; dr_repo := "git.example.com/acme/web";
  dr_ref := "refs/heads/release/1"; dr_commit_sha := commit_a; dr_commit_time := stamp_0;
  dr_received_at := "2026-01-01T00:04:00Z"; dr_verified := true; dr_consumed_by_rule_ids := [];
  dr_environments := ["production"] |}.

Definition rule_record_a : RuleRecord := {|
  rr_rule := rule_value; rr_digest_hex := rule_digest; rr_created_by_key_id := owner_id;
  rr_revoked := false |}.

Definition sample_context : PolicyContext := {|
  ctx_now := now_0; ctx_trust := store_1;
  admission_digest := fun _ => Ok None;
  admission_signer_key_ids := fun _ _ => Ok None;
  seen := fun _ _ => Ok false;
  head := fun _ _ => Ok zero_hex;
  ctx_rule := fun id => Ok (if String.eqb id rule_a then Some rule_record_a else None);
  rule_invocations_last_hour := fun _ => Ok 0;
  delivery := fun id => Ok (if String.eqb id "d-1" then Some delivery_a else None);
  last_admitted_spec := fun _ => Ok (Some spec_base);
  build_image := fun _ _ => Ok (Some image_new);
  build_window := fun _ _ => Ok (None, None);
  deployed_commit := fun _ _ => Ok None;
  admission_scope := fun _ _ => Ok None;
  service_scope := fun _ => Ok None;
  cron_scope := fun _ => Ok None;
  backup_policies := fun _ => Ok [];
  environment_protected := fun _ _ => Ok false
|}.

Definition kind_of_verdict (v : plan_result Verdict) : string :=
  match v with
  | Ok (Admit _) => "admit"
  | Ok (Deduped _ _) => "deduped"
  | Err c => PlanCode.as_str c
  | Panic => "panic"
  end.

Example shell_plan_admitted :
  kind_of_verdict (verify_signed_plan shell_text [] Client sample_context) = "admit".
Proof. vm_compute. reflexivity. Qed.

Example rule_plan_admitted :
  kind_of_verdict (verify_signed_plan rule_text [spec_text spec_new] AgentWebhook sample_context) = "admit".
Proof. vm_compute. reflexivity. Qed.

(** The same rule plan from a client is refused. *)
Example rule_plan_from_client :
  kind_of_verdict (verify_signed_plan rule_text [spec_text spec_new] Client sample_context) = "E_AUTHOR".
Proof. vm_compute. reflexivity. Qed.

(** A ci key cannot open a shell. *)
Example shell_plan_by_ci :
  kind_of_verdict (verify_signed_plan (envelope_text shell_plan [signature_of ci_id ci_spki]) []
    Client sample_context) = "E_TOUCH_ID_REQUIRED".
Proof. vm_compute. reflexivity. Qed.

Definition no_plan : VerifiedPlan :=
  {| vp_plan := VNull; vp_digest_hex := ""; vp_signers := []; vp_specs := [] |}.

Definition plan_of_verdict (v : plan_result Verdict) : VerifiedPlan :=
  match v with Ok (Admit vp) => vp | _ => no_plan end.

Definition shell_vp : VerifiedPlan :=
  plan_of_verdict (verify_signed_plan shell_text [] Client sample_context).
Definition rule_vp : VerifiedPlan :=
  plan_of_verdict (verify_signed_plan rule_text [spec_text spec_new] AgentWebhook sample_context).

(** A bootstrap plan of the owner. *)
Definition age_a : string := "age1server".
Definition bootstrap_plan : Value := plan_of plan_a VNull VNull VNull []
  [obj [("kind", str "server.add");
        ("params", obj [ ("server_id", str server_a); ("ssh_host_key_digest_hex", str zero_hex);
                         ("owner_key", owner_entry); ("bundle_manifest_digest_hex", str zero_hex);
                         ("age_recipient_fingerprint", str (hex (sha256 age_a))) ])]]
  "user" VNull.
Definition bootstrap_text : string := envelope_text bootstrap_plan [signature_of owner_id owner_spki].
