(* ===== verification/TrustFacts.v ===== *)
(** * Theorems about the trust store *)

From S2P Require Import Prelude RustStr BTree Json Jcs JsonRead Crypto Text Schema Trust Verify.
From S2P Require Import Samples.

Section facts.
Context {CR : Crypto} {JR : JsonReader}.

(** ** Loading the keys *)

(** What the loop over [keys] has built: the map holds exactly the keys in
    file order, each with the entry it was read from, and each key but the
    first was added by an earlier owner. *)
Record keys_loaded (entries : list Value) (keys : bmap TrustedKey) (order : list string) : Prop := {
  kl_sorted : bsorted keys;
  kl_nodup : NoDup order;
  kl_keys : forall k, is_some (bget k keys) = true <-> k ∈ order;
  kl_entries : Forall2 (fun e k => exists key, bget k keys = Some key /\ entry key = e /\
    as_str e.["key_id"] = Some k) entries order;
  kl_parents : forall pre k post, order = pre ++ k :: post -> pre <> [] ->
    exists key p owner, bget k keys = Some key /\ added_by key = Some p /\ p ∈ pre /\
      bget p keys = Some owner /\ is_owner owner = true /\
      signed_by_owner keys (entry key).["added_by"]
        (statement_digest (entry key) KEY_ADD_PREFIX "added_by") = true;
  kl_root : forall k post, order = k :: post ->
    exists key, bget k keys = Some key /\ added_by key = None /\ is_owner key = true
}.

Lemma load_key_Ok mode keys order e keys' order' :
  load_key mode (keys, order) e = Ok (keys', order') ->
  exists key_id pk, as_str e.["key_id"] = Some key_id /\ bget key_id keys = None /\
    keys' = binsert key_id {| public_key := pk; entry := e |} keys /\ order' = order ++ [key_id] /\
    (order = [] -> is_null e.["added_by"] = true /\ eq_str e.["role"] "owner" = true) /\
    (order <> [] -> signed_by_owner keys e.["added_by"] (statement_digest e KEY_ADD_PREFIX "added_by") = true).
Proof.
  unfold load_key. intros Hl. inv_ok Hl. exists x, x0. bsplit. simplify_eq.
  split_and!; try done.
  - by apply bcontains_false.
  - intros ->. destruct (is_null _ && _) eqn:Hr in Hx1; [|done]. by bsplit.
  - intros Hne. destruct order; [done|]. by destruct (signed_by_owner _ _ _).
Qed.

Lemma signed_by_owner_true keys signer digest :
  signed_by_owner keys signer digest = true ->
  exists p owner, as_str signer.["key_id"] = Some p /\ bget p keys = Some owner /\ is_owner owner = true.
Proof.
  unfold signed_by_owner. destruct (as_str signer.["key_id"]) as [p|]; [|done].
  destruct digest; [|done]. destruct (bget p keys) as [owner|] eqn:Hb; [|done].
  intros [Ho _]%andb_true_iff. by exists p, owner.
Qed.

Lemma signed_by_owner_mono keys keys' signer digest :
  (forall p o, bget p keys = Some o -> bget p keys' = Some o) ->
  signed_by_owner keys signer digest = true -> signed_by_owner keys' signer digest = true.
Proof.
  intros Hk. unfold signed_by_owner. destruct (as_str signer.["key_id"]) as [p|]; [|done].
  destruct digest; [|done]. destruct (bget p keys) as [o|] eqn:Hp; [|done].
  by rewrite (Hk p o Hp).
Qed.

Lemma prefix_snoc {A} (order pre : list A) k post x :
  order ++ [x] = pre ++ k :: post ->
  (post = [] /\ pre = order /\ k = x) \/ exists post', post = post' ++ [x] /\ order = pre ++ k :: post'.
Proof.
  intros Heq. destruct post as [|y post _] using rev_ind.
  - left. by apply app_inj_tail in Heq as [-> ->].
  - right. exists post. rewrite app_comm_cons, app_assoc in Heq.
    apply app_inj_tail in Heq as [-> ->]. done.
Qed.

Lemma load_key_step mode entries keys order e keys' order' :
  keys_loaded entries keys order -> load_key mode (keys, order) e = Ok (keys', order') ->
  keys_loaded (entries ++ [e]) keys' order'.
Proof.
  intros [Hs Hn Hk He Hp Hr] Hl.
  apply load_key_Ok in Hl as (k & pk & Hid & Hnew & -> & -> & H0 & H1).
  set (key := {| public_key := pk; entry := e |}).
  assert (k ∉ order) as Hko. { rewrite <- Hk. by rewrite Hnew. }
  assert (forall j, j ∈ order -> bget j (binsert k key keys) = bget j keys) as Hold.
  { intros j Hj. rewrite bget_insert. destruct (String.eqb_spec j k) as [->|]; done. }
  assert (bget k (binsert k key keys) = Some key) as Hkk.
  { rewrite bget_insert. by rewrite String.eqb_refl. }
  assert (forall p o, bget p keys = Some o -> bget p (binsert k key keys) = Some o) as Hkeep.
  { intros p o Hpo. rewrite bget_insert. destruct (String.eqb_spec p k) as [->|]; congruence. }
  split.
  - by apply binsert_sorted.
  - apply NoDup_app. split_and!; [done| |by apply NoDup_singleton]. set_solver.
  - intros j. rewrite bget_insert, elem_of_app, list_elem_of_singleton.
    destruct (String.eqb_spec j k) as [->|Hne]; [naive_solver|]. rewrite Hk. naive_solver.
  - apply Forall2_app; [|by repeat constructor; exists key].
    eapply Forall2_impl; [exact He|]. intros x j (kx & Hx & Hxe & Hxi). exists kx. eauto.
  - intros pre j post Heq Hpre. apply prefix_snoc in Heq as [(-> & -> & ->)|(post' & -> & ->)].
    + destruct (signed_by_owner_true _ _ _ (H1 Hpre)) as (p & owner & Hps & Hpk & Hpo).
      exists key, p, owner. split_and!; try done; [|by apply Hkeep|].
      * apply Hk. by rewrite Hpk.
      * eapply signed_by_owner_mono; [exact Hkeep|]. by apply H1.
    + destruct (Hp pre j post' eq_refl Hpre) as (kj & p & owner & Hj & Ha & Hin & Hpo & Hio & Hsig).
      exists kj, p, owner. split_and!; eauto using signed_by_owner_mono.
  - intros j post Heq. destruct order as [|i order].
    + injection Heq as <- <-. exists key. destruct (H0 eq_refl) as [Hnull Howner].
      split_and!; [done| |done]. unfold added_by. simpl. apply is_null_true in Hnull. by rewrite Hnull.
    + injection Heq as <- <-. destruct (Hr i order eq_refl) as (ki & Hi & Hrest). eauto.
Qed.

Lemma load_keys_loaded mode entries keys order :
  fold_each (load_key mode) ([], []) entries = Ok (keys, order) -> keys_loaded entries keys order.
Proof.
  intros Hf.
  apply (fold_each_inv (fun l st => keys_loaded l st.1 st.2)) in Hf; [done| |].
  - split; simpl; [apply SSorted_nil|apply NoDup_nil_2| |apply Forall2_nil_2|by intros []|done].
    intros k. split; [done|]. by intros ?%not_elem_of_nil.
  - intros pre x post [k1 o1] [k2 o2] _ Hi Hl. by eapply load_key_step.
Qed.

(** ** Revocations *)

(** The new state depends on the revocation only. *)
Definition add_revocation (st : revocation_state) (r : Value) : revocation_state :=
  let key_id := str_or_default r.["key_id"] in
  {| rs_revoked := {[ key_id ]} ∪ rs_revoked st;
     rs_compromised := if eq_str r.["reason"] "compromised" then {[ key_id ]} ∪ rs_compromised st
                       else rs_compromised st;
     rs_map := binsert key_id (str_or_default r.["revoked_at"], str_or_default r.["reason"])
                 (rs_map st) |}.

Lemma load_revocation_Ok keys st r st' :
  load_revocation keys st r = Ok st' -> st' = add_revocation st r.
Proof.
  unfold load_revocation, add_revocation, str_or_default. intros Hl. inv_ok Hl.
  by rewrite Hx.
Qed.

Lemma load_revocations_Ok keys st l st' :
  fold_each (load_revocation keys) st l = Ok st' -> st' = fold_left add_revocation l st.
Proof.
  revert st; induction l as [|r l IH]; intros st; cbn [fold_each fold_left]; [by intros [= <-]|].
  intros Hl. inv_ok Hl. apply load_revocation_Ok in Hx as ->. by apply IH.
Qed.

Lemma add_revocations_mono l st :
  rs_revoked st ⊆ rs_revoked (fold_left add_revocation l st) /\
  rs_compromised st ⊆ rs_compromised (fold_left add_revocation l st).
Proof.
  revert st; induction l as [|r l IH]; intros st; cbn [fold_left]; [done|].
  destruct (IH (add_revocation st r)) as [H1 H2]. unfold add_revocation in *. simpl in *.
  split; [set_solver|]. case_match; set_solver.
Qed.

(** ** The cascade *)

Lemma cascade_mono keys c1 order c1' :
  fold_each (cascade_step keys) c1 order = Ok c1' -> c1 ⊆ c1'.
Proof.
  revert c1; induction order as [|k order IH]; intros c1; cbn [fold_each]; [by intros [= ->]|].
  intros Hl. inv_ok Hl. unfold cascade_step in Hx. destruct (bget k keys); [|done].
  injection Hx as <-. apply IH in Hl. case_match; set_solver.
Qed.

(** A larger start gives a larger result. *)
Lemma cascade_mono_start keys c1 c2 order c1' c2' :
  c1 ⊆ c2 -> fold_each (cascade_step keys) c1 order = Ok c1' ->
  fold_each (cascade_step keys) c2 order = Ok c2' -> c1' ⊆ c2'.
Proof.
  revert c1 c2; induction order as [|k order IH]; intros c1 c2 Hc; cbn [fold_each].
  - by intros [= <-] [= <-].
  - intros H1 H2. inv_ok H1. inv_ok H2. unfold cascade_step in *. destruct (bget k keys) as [key|]; [|done].
    injection Hx as <-. injection Hx0 as <-. eapply IH; [|exact H1|exact H2].
    destruct (added_by key) as [p|]; simpl; [|done].
    repeat case_bool_decide; set_solver.
Qed.

(** The cascade adds only keys of the list, and does not look beyond it. *)
Lemma cascade_within keys c order c' :
  fold_each (cascade_step keys) c order = Ok c' -> forall k, k ∈ c' -> k ∈ c \/ k ∈ order.
Proof.
  revert c; induction order as [|j order IH]; intros c; cbn [fold_each]; [by intros [= ->]; left|].
  intros Hl. inv_ok Hl. unfold cascade_step in Hx. destruct (bget j keys); [|done].
  injection Hx as <-. intros k Hk. destruct (IH _ Hl k Hk) as [Hin|Hin]; [|set_solver].
  case_match; set_solver.
Qed.

Lemma cascade_ext keys keys' order c :
  (forall k, k ∈ order -> bget k keys = bget k keys') ->
  fold_each (cascade_step keys) c order = fold_each (cascade_step keys') c order.
Proof.
  revert c; induction order as [|k order IH]; intros c Hk; [done|]. cbn [fold_each].
  unfold cascade_step at 1 3. rewrite (Hk k (list_elem_of_here _ _)).
  destruct (bget k keys'); [|done]. cbn [obind]. apply IH. set_solver.
Qed.

Lemma cascade_no_panic keys c order :
  (forall k, k ∈ order -> is_some (bget k keys) = true) -> exists c', fold_each (cascade_step keys) c order = Ok c'.
Proof.
  revert c; induction order as [|k order IH]; intros c Hk; cbn [fold_each]; [by exists c|].
  unfold cascade_step at 1. pose proof (Hk k (list_elem_of_here _ _)) as Hs.
  destruct (bget k keys); [|done]. cbn [obind]. apply IH. set_solver.
Qed.

(** ** Validation *)

Record validated (value : Value) (mode : TrustMode) (store : TrustStore) (entries : list Value)
    (order : list string) (revs : list Value) : Prop := {
  va_keys : as_array value.["keys"] = Some entries;
  va_nonempty : entries <> [];
  va_load : fold_each (load_key mode) ([], []) entries = Ok (ts_keys store, order);
  va_revs : as_array value.["revocations"] = Some revs;
  va_revs_ok : fold_each (load_revocation (ts_keys store)) no_revocations revs =
    Ok (fold_left add_revocation revs no_revocations);
  va_cascade : fold_each (cascade_step (ts_keys store))
    (rs_compromised (fold_left add_revocation revs no_revocations)) order = Ok (ts_compromised store);
  va_revoked : ts_revoked store =
    rs_revoked (fold_left add_revocation revs no_revocations) ∪ ts_compromised store;
  va_map : ts_revocations store = rs_map (fold_left add_revocation revs no_revocations);
  va_document : ts_document store = value
}.

Lemma validate_trust_Ok value mode store :
  validate_trust value mode = Ok store -> exists entries order revs, validated value mode store entries order revs.
Proof.
  unfold validate_trust. intros Hv. inv_ok Hv. destruct x0 as [keys order]. inv_ok Hv. subst store.
  pose proof (load_revocations_Ok _ _ _ _ Hx2) as ->.
  exists x, order, x0. bsplit. split; simpl; try done. by intros ->.
Qed.

Lemma validated_loaded value mode store entries order revs :
  validated value mode store entries order revs -> keys_loaded entries (ts_keys store) order.
Proof. intros Hv. by eapply load_keys_loaded, va_load. Qed.

(** Validating any JSON value as a trust file ends with a store or an
    error text, never with a panic: the map lookups of the cascade always
    find their key. *)
Theorem validate_trust_no_panic value mode : validate_trust value mode <> Panic.
Proof.
  unfold validate_trust. destruct (check TRUST_FILE value); [|done].
  destruct (as_array value.["keys"]) as [entries|]; [|done]. cbn [ok_or obind].
  destruct (negb _); [|done].
  destruct (fold_each (load_key mode) ([], []) entries) as [[keys order]| |] eqn:Hk; [|done|].
  2:{ exfalso. revert Hk. apply (fold_each_Panic (fun _ => True)); [done|].
      intros [ks os] e _ _. split; [|done]. unfold load_key.
      destruct (as_str _); [|done]. destruct (parse_spki_base64 _); [|done]. cbn [ok_or obind].
      repeat (case_match; try done). }
  cbn [obind]. destruct (as_array value.["revocations"]) as [revs|]; [|done]. cbn [ok_or obind].
  destruct (fold_each (load_revocation keys) no_revocations revs) as [rs| |] eqn:Hr; [|done|].
  2:{ exfalso. revert Hr. apply (fold_each_Panic (fun _ => True)); [done|].
      intros st r _ _. split; [|done]. unfold load_revocation.
      destruct (as_str _); [|done]. cbn [ok_or obind]. repeat (case_match; try done). }
  cbn [obind]. pose proof (load_keys_loaded _ _ _ _ Hk) as Hl.
  destruct (cascade_no_panic keys (rs_compromised rs) order) as [c Hc].
  { intros k. apply (kl_keys _ _ _ Hl). }
  rewrite Hc. cbn [obind]. by destruct (as_str value.["server_id"]).
Qed.

(** ** Compromise *)

(** A key is compromised when an owner said so, or when it was added by a
    compromised key. *)
Inductive compromised_by (store : TrustStore) : string -> Prop :=
| compromised_direct k r :
    r ∈ items_of (ts_document store).["revocations"] -> as_str r.["key_id"] = Some k ->
    eq_str r.["reason"] "compromised" = true -> compromised_by store k
| compromised_inherited k key p :
    bget k (ts_keys store) = Some key -> added_by key = Some p -> compromised_by store p ->
    compromised_by store k.

Lemma load_revocation_ids keys st l st' r :
  fold_each (load_revocation keys) st l = Ok st' -> r ∈ l ->
  exists k, as_str r.["key_id"] = Some k /\ is_some (bget k keys) = true.
Proof.
  revert st; induction l as [|x l IH]; intros st; cbn [fold_each]; [by intros _ ?%not_elem_of_nil|].
  intros Hl. inv_ok Hl. intros [->|Hin]%elem_of_cons; [|by eapply IH].
  unfold load_revocation in Hx. inv_ok Hx. by exists x1.
Qed.

Lemma add_revocations_compromised l st k :
  k ∈ rs_compromised (fold_left add_revocation l st) <->
  k ∈ rs_compromised st \/ exists r, r ∈ l /\ str_or_default r.["key_id"] = k /\
    eq_str r.["reason"] "compromised" = true.
Proof.
  revert st; induction l as [|r l IH]; intros st; cbn [fold_left].
  - split; [by left|]. intros [?|(r & ?%not_elem_of_nil & _)]; done.
  - rewrite IH. unfold add_revocation. simpl. setoid_rewrite elem_of_cons.
    destruct (eq_str r.["reason"] "compromised") eqn:Hr.
    + rewrite elem_of_union, elem_of_singleton. split.
      * intros [[->|?]|(r' & Hin & ?)]; [right; by exists r; auto|by left|right; exists r'; auto].
      * intros [?|(r' & [->|Hin] & Hid & Hre)]; [left; by right|left; left; by rewrite Hid|].
        right. by exists r'.
    + split.
      * intros [?|(r' & Hin & ?)]; [by left|right; exists r'; auto].
      * intros [?|(r' & [->|Hin] & Hid & Hre)]; [by left|congruence|right; by exists r'].
Qed.

Lemma cascade_closed entries keys order c c' k key p :
  keys_loaded entries keys order -> fold_each (cascade_step keys) c order = Ok c' ->
  bget k keys = Some key -> added_by key = Some p -> p ∈ c' -> k ∈ c'.
Proof.
  intros Hl Hc Hk Hp Hin.
  assert (k ∈ order) as Hko by (apply (kl_keys _ _ _ Hl); by rewrite Hk).
  apply list_elem_of_split in Hko as (pre & post & Horder).
  destruct pre as [|j pre'] eqn:Hpre.
  - destruct (kl_root _ _ _ Hl k post Horder) as (key' & Hk' & Hno & _). congruence.
  - rewrite <- Hpre in *. assert (pre <> []) as Hne by (by rewrite Hpre).
    destruct (kl_parents _ _ _ Hl pre k post Horder Hne) as (key' & p' & o & Hk' & Hp' & Hpp & _).
    assert (p' = p) as -> by congruence. pose proof (kl_nodup _ _ _ Hl) as Hnd.
    subst order. rewrite fold_each_app in Hc. inv_ok Hc. rename x into c1.
    pose proof (cascade_within _ _ _ _ Hc p Hin) as Hw.
    apply NoDup_app in Hnd as (_ & Hdis & _).
    assert (p ∈ c1) as Hp1. { destruct Hw as [?|Hw]; [done|]. by destruct (Hdis p Hpp Hw). }
    cbn [fold_each] in Hc. unfold cascade_step at 1 in Hc. rewrite Hk, Hp in Hc. cbn [is_some_and] in Hc.
    rewrite bool_decide_true in Hc by done. cbn [obind] in Hc.
    apply cascade_mono in Hc. set_solver.
Qed.

Lemma cascade_sound keys (P : string -> Prop) c order c' :
  (forall k, k ∈ c -> P k) ->
  (forall k key p, bget k keys = Some key -> added_by key = Some p -> P p -> P k) ->
  fold_each (cascade_step keys) c order = Ok c' -> forall k, k ∈ c' -> P k.
Proof.
  intros H0 Hstep. revert c H0; induction order as [|j order IH]; intros c H0; cbn [fold_each].
  - by intros [= <-].
  - intros Hc. inv_ok Hc. refine (IH _ _ Hc). unfold cascade_step in Hx.
    destruct (bget j keys) as [key|] eqn:Hj; [|done]. injection Hx as <-.
    destruct (added_by key) as [p|] eqn:Ha; simpl; [|done].
    case_bool_decide; [|done]. intros k [->%elem_of_singleton|Hk]%elem_of_union; eauto.
Qed.

(** C38.  The single pass over the keys in file order computes the full
    transitive cascade: a key of a validated store is compromised exactly when
    it was revoked as compromised or added, directly or through any chain, by
    such a key; and every compromised key is revoked. *)
Theorem trust_compromised_closure value mode store :
  validate_trust value mode = Ok store ->
  (forall k, k ∈ ts_compromised store <-> compromised_by store k) /\
  ts_compromised store ⊆ ts_revoked store.
Proof.
  intros (entries & order & revs & Hv)%validate_trust_Ok.
  pose proof (validated_loaded _ _ _ _ _ _ Hv) as Hl. destruct Hv as [Hk Hne Hld Hr Hro Hc Hrev Hm Hd].
  split; [|set_solver]. intros k. split.
  - revert k. eapply cascade_sound; [|by eapply compromised_inherited|exact Hc]. intros k.
    rewrite add_revocations_compromised. intros [?|(r & Hin & Hid & Hre)]; [set_solver|].
    destruct (load_revocation_ids _ _ _ _ _ Hro Hin) as (k' & Hk' & _).
    unfold str_or_default in Hid. rewrite Hk' in Hid. simpl in Hid. subst k'.
    eapply compromised_direct; [|done|done]. rewrite Hd. unfold items_of. by rewrite Hr.
  - induction 1 as [k r Hin Hid Hre|k key p Hkk Ha Hcb IH].
    + eapply cascade_mono; [exact Hc|]. apply add_revocations_compromised. right.
      exists r. rewrite Hd in Hin. unfold items_of in Hin. rewrite Hr in Hin.
      split_and!; [done| |done]. unfold str_or_default. by rewrite Hid.
    + by eapply cascade_closed.
Qed.

(** ** The chain of additions *)

(** [k] goes back to [root] through additions that an owner signed. *)
Inductive owner_chain (store : TrustStore) (root : string) : string -> Prop :=
| chain_root key :
    bget root (ts_keys store) = Some key -> is_owner key = true -> added_by key = None ->
    owner_chain store root root
| chain_step k key p :
    bget k (ts_keys store) = Some key -> added_by key = Some p ->
    signed_by_owner (ts_keys store) (entry key).["added_by"]
      (statement_digest (entry key) KEY_ADD_PREFIX "added_by") = true ->
    owner_chain store root p -> owner_chain store root k.

Lemma chain_in_order store entries order root rest :
  keys_loaded entries (ts_keys store) order -> order = root :: rest ->
  forall n k, order !! n = Some k -> owner_chain store root k.
Proof.
  intros Hl Ho n. induction (lt_wf n) as [n _ IH]. intros k Hn.
  apply list_elem_of_split_length in Hn as (pre & post & Horder & Hlen).
  destruct pre as [|j pre'] eqn:Hpre.
  - rewrite Ho in Horder. injection Horder as <- <-.
    destruct (kl_root _ _ _ Hl root rest Ho) as (key & Hk & Hn & Hi). by eapply chain_root.
  - rewrite <- Hpre in *. assert (pre <> []) as Hne by (by rewrite Hpre).
    destruct (kl_parents _ _ _ Hl pre k post Horder Hne) as (key & p & o & Hk & Hp & Hin & Hpo & Hio & Hs).
    eapply chain_step; [done..|]. apply list_elem_of_lookup in Hin as [i Hi].
    apply (IH i); [apply lookup_lt_Some in Hi; lia|].
    rewrite Horder. by apply lookup_app_l_Some.
Qed.

(** Chain of trust: every key of a validated store reaches the first
    key of the file, an owner nobody added, through additions each signed by
    an owner key of the store. *)
Theorem trust_chain_rooted value mode store :
  validate_trust value mode = Ok store ->
  exists root, as_str (idx_n value.["keys"] 0).["key_id"] = Some root /\
    forall k key, bget k (ts_keys store) = Some key -> owner_chain store root k.
Proof.
  intros (entries & order & revs & Hv)%validate_trust_Ok.
  pose proof (validated_loaded _ _ _ _ _ _ Hv) as Hl. destruct Hv as [Hk Hne Hld _ _ _ _ _ _].
  apply as_array_Some in Hk. pose proof (kl_entries _ _ _ Hl) as He.
  destruct He as [|e root entries' rest (key & Hkey & Hent & Hid) He]; [done|].
  exists root. rewrite Hk. split; [done|]. intros k key' Hk'.
  assert (k ∈ root :: rest) as Hin by (apply (kl_keys _ _ _ Hl); by rewrite Hk').
  apply list_elem_of_lookup in Hin as [n Hn].
  by eapply (chain_in_order store _ (root :: rest) root rest Hl eq_refl).
Qed.

(** ** Changes *)

Lemma push_Ok document field v document' :
  push document field v = Ok document' ->
  exists l, document.[field] = VArray l /\ document'.[field] = VArray (l ++ [v]) /\
    forall f, f <> field -> document'.[f] = document.[f].
Proof.
  unfold push. destruct document as [| | | | |m]; try done.
  destruct (bget field m) as [[| | | |l|]|] eqn:Hb; try done. intros [= <-].
  exists l. unfold idx, get. rewrite Hb. split; [done|]. split.
  - by rewrite bget_insert, String.eqb_refl.
  - intros f Hf. rewrite bget_insert. by apply String.eqb_neq in Hf as ->.
Qed.

Lemma active_owner_pos store : bsorted (ts_keys store) ->
  0 < active_owner_count store <->
  exists k key, bget k (ts_keys store) = Some key /\ is_owner key = true /\ k ∉ ts_revoked store.
Proof.
  intros Hs. unfold active_owner_count, lenl. split.
  - intros Hpos. destruct (List.filter _ _) as [|[k key] l] eqn:Hf; [simpl in Hpos; lia|].
    assert (In (k, key) (List.filter (active_owner store) (ts_keys store))) as Hin by (rewrite Hf; by left).
    apply filter_In in Hin as [Hin Ha]. unfold active_owner in Ha. bsplit.
    exists k, key. split_and!; [|done|by case_bool_decide].
    apply In_bget; [done|]. by apply list_elem_of_In.
  - intros (k & key & Hk & Ho & Hr). apply bget_In, list_elem_of_In in Hk.
    assert (In (k, key) (List.filter (active_owner store) (ts_keys store))) as Hin.
    { apply filter_In. split; [done|]. unfold active_owner. simpl. rewrite Ho.
      by rewrite bool_decide_false. }
    destruct (List.filter _ _); [done|]. simpl. lia.
Qed.

(** Adding a key keeps every other key and its standing. *)
Lemma add_key_keeps mode store e document' store' entries order revs :
  validated (ts_document store) mode store entries order revs ->
  push (ts_document store) "keys" e = Ok document' ->
  validate_trust document' mode = Ok store' ->
  exists k, bget k (ts_keys store) = None /\
    (forall j, j <> k -> bget j (ts_keys store') = bget j (ts_keys store)) /\
    (forall j, j <> k -> j ∈ ts_revoked store' <-> j ∈ ts_revoked store) /\
    ts_revoked store ⊆ ts_revoked store'.
Proof.
  intros Hv Hp (entries' & order' & revs' & Hv')%validate_trust_Ok.
  pose proof (validated_loaded _ _ _ _ _ _ Hv) as Hl.
  destruct Hv as [Hk Hne Hld Hr Hro Hc Hrev Hm _]. destruct Hv' as [Hk' _ Hld' Hr' _ Hc' Hrev' _ _].
  apply push_Ok in Hp as (l & Hl0 & Hl1 & Hoth).
  rewrite Hl0 in Hk. injection Hk as ->. rewrite Hl1 in Hk'. injection Hk' as <-.
  rewrite (Hoth "revocations") in Hr' by done. rewrite Hr in Hr'. injection Hr' as <-.
  rewrite fold_each_app, Hld in Hld'. cbn [obind fold_each] in Hld'. inv_ok Hld'.
  destruct x as [k2 o2]. injection Hld' as -> ->.
  apply load_key_Ok in Hx as (k & pk & Hid & Hnew & Hks & -> & _ & _). exists k.
  assert (forall j, j <> k -> bget j (ts_keys store') = bget j (ts_keys store)) as Hsame.
  { intros j Hj. rewrite Hks, bget_insert. by apply String.eqb_neq in Hj as ->. }
  rewrite fold_each_app in Hc'. rewrite (cascade_ext _ (ts_keys store)) in Hc'.
  2:{ intros j Hj. apply Hsame. intros ->. apply (kl_keys _ _ _ Hl) in Hj. by rewrite Hnew in Hj. }
  rewrite Hc in Hc'. cbn [obind] in Hc'.
  assert (ts_compromised store ⊆ ts_compromised store') as Hsub by (by eapply cascade_mono).
  assert (forall j, j <> k -> j ∈ ts_compromised store' -> j ∈ ts_compromised store) as Hback.
  { intros j Hj Hin. destruct (cascade_within _ _ _ _ Hc' j Hin) as [?|Hin']; [done|].
    by apply list_elem_of_singleton in Hin'. }
  split_and!; [done|done| |]; rewrite Hrev, Hrev'; set_solver.
Qed.

(** Revoking keeps every key, and every revoked key revoked. *)
Lemma revoke_keeps mode store r document' store' entries order revs :
  validated (ts_document store) mode store entries order revs ->
  push (ts_document store) "revocations" r = Ok document' ->
  validate_trust document' mode = Ok store' ->
  ts_keys store' = ts_keys store /\ ts_revoked store ⊆ ts_revoked store'.
Proof.
  intros Hv Hp (entries' & order' & revs' & Hv')%validate_trust_Ok.
  destruct Hv as [Hk Hne Hld Hr Hro Hc Hrev Hm _]. destruct Hv' as [Hk' _ Hld' Hr' _ Hc' Hrev' _ _].
  apply push_Ok in Hp as (l & Hl0 & Hl1 & Hoth).
  rewrite Hl0 in Hr. injection Hr as ->. rewrite Hl1 in Hr'. injection Hr' as <-.
  rewrite (Hoth "keys") in Hk' by done. rewrite Hk in Hk'. injection Hk' as <-.
  rewrite Hld in Hld'. injection Hld' as Hks <-. split; [done|].
  rewrite <- Hks in Hc'. rewrite fold_left_app in Hc', Hrev'.
  destruct (add_revocations_mono [r] (fold_left add_revocation revs no_revocations)) as [H1 H2].
  pose proof (cascade_mono_start _ _ _ _ _ _ H2 Hc Hc'). rewrite Hrev, Hrev'. set_solver.
Qed.

Lemma changed_document_cases store change document' :
  changed_document (Some store) change = Ok document' ->
  exists field v, push (ts_document store) field v = Ok document' /\
    (field = "keys" /\ change = AddKey v \/ field = "revocations" /\ change = Revoke v).
Proof.
  destruct change as [sid ok|e|r]; cbn [changed_document]; [done| |]; case_match; try done; eauto 8.
Qed.

Lemma apply_change_Ok current change mode document' :
  apply_change current change mode = Ok document' ->
  changed_document current change = Ok document' /\
  exists store', validate_trust document' mode = Ok store' /\
    (is_revoke change = true -> 0 < active_owner_count store').
Proof.
  unfold apply_change. intros Ha. inv_ok Ha. subst x. split; [done|].
  destruct (validate_trust document' mode) as [st| |] eqn:Hv; try done. exists st. split; [done|].
  intros Hr. simpl in Hx0. injection Hx0 as ->. rewrite Hr in Hc. bsplit. simpl in Hc.
  unfold active_owner_count, lenl in *. lia.
Qed.

(** A change is a strict superset: it raises the generation by exactly
    one, keeps every key entry, and keeps every revoked key revoked, so a
    revocation (cascade included) is never undone. *)
Theorem apply_change_superset mode store change document' store' :
  validate_trust (ts_document store) mode = Ok store ->
  apply_change (Some store) change mode = Ok document' ->
  validate_trust document' mode = Ok store' ->
  generation store' = generation store + 1 /\
  (forall k key, bget k (ts_keys store) = Some key -> bget k (ts_keys store') = Some key) /\
  ts_revoked store ⊆ ts_revoked store'.
Proof.
  intros (entries & order & revs & Hv)%validate_trust_Ok [Hd _]%apply_change_Ok Hv'.
  pose proof Hv' as (entries' & order' & revs' & [_ _ _ _ _ _ _ _ Hdoc])%validate_trust_Ok.
  apply changed_document_cases in Hd as (field & v & Hp & Hcase).
  pose proof (push_Ok _ _ _ _ Hp) as (l & Hl0 & Hl1 & Hoth). split.
  { unfold generation, generation_of. rewrite Hdoc.
    destruct Hcase as [[-> _]|[-> _]]; rewrite Hl1, Hl0;
      [rewrite (Hoth "revocations") by done|rewrite (Hoth "keys") by done];
      unfold array_len, lenl; simpl; rewrite length_app; simpl; lia. }
  destruct Hcase as [[-> ->]|[-> ->]].
  - destruct (add_key_keeps _ _ _ _ _ _ _ _ Hv Hp Hv') as (k & Hnew & Hsame & _ & Hsub).
    split; [|done]. intros j key Hj. rewrite Hsame; [done|]. intros ->. congruence.
  - destruct (revoke_keeps _ _ _ _ _ _ _ _ Hv Hp Hv') as [-> Hsub]. done.
Qed.

(** ** Reachable documents *)

Inductive trust_reachable (mode : TrustMode) : Value -> Prop :=
| reachable_bootstrap server_id owner_key document :
    apply_change None (Bootstrap server_id owner_key) mode = Ok document ->
    trust_reachable mode document
| reachable_change document store change document' :
    trust_reachable mode document -> validate_trust document mode = Ok store ->
    apply_change (Some store) change mode = Ok document' -> trust_reachable mode document'.

Lemma bootstrap_active_owner server_id owner_key mode store :
  validate_trust (bootstrap_document server_id owner_key) mode = Ok store -> 0 < active_owner_count store.
Proof.
  intros (entries & order & revs & Hv)%validate_trust_Ok.
  pose proof (validated_loaded _ _ _ _ _ _ Hv) as Hl. destruct Hv as [Hk _ _ Hr _ Hc Hrev _ _].
  injection Hk as <-. injection Hr as <-. cbn [fold_left] in *.
  pose proof (kl_entries _ _ _ Hl) as He. inversion He as [|? root ? order' (key & Hkey & _) He' E1 E2].
  inversion He'; subst. destruct (kl_root _ _ _ Hl root [] eq_refl) as (key' & Hk' & Hn & Ho).
  apply active_owner_pos; [apply (kl_sorted _ _ _ Hl)|]. exists root, key'. split_and!; [done|done|].
  cbn [fold_each] in Hc. unfold cascade_step in Hc. rewrite Hk', Hn in Hc. simpl in Hc.
  injection Hc as Hc. rewrite Hrev, <- Hc. set_solver.
Qed.

(** C39.  No lockout: every trust document that bootstrap, [key.add] and
    [key.revoke] can produce validates and has at least one owner key that is
    not revoked. *)
Theorem reachable_has_active_owner mode document :
  trust_reachable mode document ->
  exists store, validate_trust document mode = Ok store /\ 0 < active_owner_count store.
Proof.
  induction 1 as [sid ok document Ha|document store change document' Hr IH Hv Ha].
  - apply apply_change_Ok in Ha as (Hd & store & Hv & _). exists store. split; [done|].
    simpl in Hd. injection Hd as <-. by eapply bootstrap_active_owner.
  - destruct IH as (store0 & Hv0 & Hpos). assert (store0 = store) as -> by congruence. clear Hv0.
    pose proof Ha as (Hd & store' & Hv' & Hrev)%apply_change_Ok. exists store'. split; [done|].
    pose proof Hv as (entries & order & revs & Hval)%validate_trust_Ok.
    pose proof (va_document _ _ _ _ _ _ Hval) as Hdoc. rewrite <- Hdoc in Hval.
    apply changed_document_cases in Hd as (field & v & Hp & [[-> ->]|[-> ->]]); [|by apply Hrev].
    pose proof (validated_loaded _ _ _ _ _ _ Hval) as Hl.
    apply active_owner_pos in Hpos as (k & key & Hk & Ho & Hnr); [|apply (kl_sorted _ _ _ Hl)].
    destruct (add_key_keeps _ _ _ _ _ _ _ _ Hval Hp Hv') as (k2 & Hnew & Hsame & Hst & _).
    assert (k <> k2) as Hne by congruence.
    pose proof Hv' as (? & ? & ? & Hval')%validate_trust_Ok. apply validated_loaded in Hval'.
    apply active_owner_pos; [apply (kl_sorted _ _ _ Hval')|].
    exists k, key. rewrite Hsame, Hst by done. done.
Qed.

End facts.

(** ** Witnesses *)

Lemma trust_compromised_closure_witness :
  (forall k, k ∈ ts_compromised (CR := toy_crypto) store_2 <-> compromised_by (CR := toy_crypto) store_2 k) /\
  ts_compromised (CR := toy_crypto) store_2 ⊆ ts_revoked (CR := toy_crypto) store_2.
Proof.
  apply (@trust_compromised_closure toy_crypto document_2 Production store_2). vm_compute. reflexivity.
Defined.

Lemma trust_chain_rooted_witness :
  exists root, as_str (idx_n document_1.["keys"] 0).["key_id"] = Some root /\
    forall k key, bget k (ts_keys (CR := toy_crypto) store_1) = Some key ->
      owner_chain (CR := toy_crypto) store_1 root k.
Proof.
  apply (@trust_chain_rooted toy_crypto document_1 Production store_1). vm_compute. reflexivity.
Defined.

Lemma apply_change_superset_witness :
  generation (CR := toy_crypto) store_2 = generation (CR := toy_crypto) store_1 + 1 /\
  (forall k key, bget k (ts_keys (CR := toy_crypto) store_1) = Some key ->
     bget k (ts_keys (CR := toy_crypto) store_2) = Some key) /\
  ts_revoked (CR := toy_crypto) store_1 ⊆ ts_revoked (CR := toy_crypto) store_2.
Proof.
  apply (@apply_change_superset toy_crypto Production store_1 (Revoke ci_revocation) document_2 store_2);
    vm_compute; reflexivity.
Defined.

Lemma reachable_has_active_owner_witness :
  exists store, @validate_trust toy_crypto document_2 Production = Ok store /\
    0 < active_owner_count (CR := toy_crypto) store.
Proof.
  apply (@reachable_has_active_owner toy_crypto Production document_2).
  apply (@reachable_change toy_crypto Production document_1 store_1 (Revoke ci_revocation) document_2);
    [|vm_compute; reflexivity..].
  apply (@reachable_change toy_crypto Production document_0 store_0 (AddKey ci_entry) document_1);
    [|vm_compute; reflexivity..].
  apply (@reachable_bootstrap toy_crypto Production server_a owner_entry document_0). vm_compute. reflexivity.
Defined.
