(* ===== verification/VerifyFacts.v ===== *)
(** * Theorems about plan verification *)

From S2P Require Import Prelude RustStr BTree PlanCode Json Jcs JsonRead JcsFacts Crypto Text Calendar.
From S2P Require Import Schema Actions Trust Verify Samples.

Section facts.
Context {CR : Crypto} {JR : JsonReader}.

(** ** Inversion of the whole pipeline *)

(** What an admitted plan passed, step by step. *)
Record admitted (text : string) (spec_texts : list string) (submitter : Submitter)
    (ctx : PolicyContext) (vp : VerifiedPlan) (signatures : list Value) (rule : option RuleRecord)
    : Prop := {
  ad_envelope : parse_envelope text = Ok (vp_plan vp, signatures);
  ad_specs : bind_specs (vp_plan vp) spec_texts = Some (vp_specs vp);
  ad_target : targets_server (vp_plan vp) (ts_server_id (ctx_trust ctx)) = true;
  ad_authority : authority_ok (vp_plan vp) signatures submitter = true;
  ad_canonical : exists canonical, canonicalize (vp_plan vp) = Some canonical /\
    vp_digest_hex vp = hex (prefixed_digest PLAN_PREFIX canonical) /\
    Forall2 (fun signature signer =>
      verify_signature signature (prefixed_digest PLAN_PREFIX canonical) (ctx_trust ctx) = Ok signer)
      signatures (vp_signers vp);
  ad_rule : if eq_str (vp_plan vp).["author"].["kind"] "rule"
    then exists record, rule = Some record /\
      verify_rule (vp_plan vp).["invocation"] (ctx_trust ctx) ctx = Ok record
    else rule = None;
  ad_time : check_time (vp_plan vp) (ctx_now ctx) = Ok tt;
  ad_new : admission_digest ctx (str_or_default (vp_plan vp).["id"]) = Ok None;
  ad_unseen : seen ctx (str_or_default (vp_plan vp).["nonce"]) (str_or_default (vp_plan vp).["id"]) = Ok false;
  ad_policy : check_policy (vp_plan vp) rule (vp_signers vp) (vp_specs vp) ctx = Ok tt
}.

Lemma verify_admit text spec_texts submitter ctx vp :
  verify_signed_plan text spec_texts submitter ctx = Ok (Admit vp) ->
  exists signatures rule, admitted text spec_texts submitter ctx vp signatures rule.
Proof.
  unfold verify_signed_plan. intros Hv. inv_ok Hv. destruct x as [plan signatures]. inv_ok Hv.
  destruct (bool_decide _) eqn:Hd in Hv; [done|]. inv_ok Hv. subst vp.
  exists signatures, x2. bsplit. destruct x3, x7.
  assert (x5 = false /\ x4 = None) as [-> ->].
  { subst x6. destruct x5; [done|]. split; [done|]. rewrite Hx5 in Hx7. simpl in Hx7. by destruct x4. }
  split; simpl; try done.
  - exists x0. split_and!; [done..|]. by apply map_each_Ok.
  - destruct (eq_str _ _); [|congruence]. inv_ok Hx3. by exists x3.
Qed.

(** ** Signatures *)

(** An active trusted key whose signature over [digest] is in the envelope. *)
Definition signed_by (trust : TrustStore) (digest : string) (signatures : list Value) (signer : Value)
    : Prop :=
  exists signature key_id key raw, signature ∈ signatures /\
    as_str signature.["key_id"] = Some key_id /\ bget key_id (ts_keys trust) = Some key /\
    entry key = signer /\ key_id ∉ ts_revoked trust /\
    (ts_mode trust = Production -> key_id ∉ TEST_KEY_IDS) /\
    (match as_str signature.["sig"] with Some t => b64url_decode t | None => None end) = Some raw /\
    verify_prehash (public_key key) digest raw = true.

Lemma check_object_field fields v name shape :
  check (Object fields) v = true -> (name, shape) ∈ fields -> check shape v.[name] = true.
Proof.
  rewrite check_Object. unfold check_object. destruct (as_object v) as [m|] eqn:Hm; [|done].
  intros [_ Hf]%andb_true_iff Hin. apply as_object_Some in Hm as ->.
  rewrite forallb_Forall, Forall_forall in Hf. specialize (Hf _ Hin). simpl in Hf.
  apply is_some_and_true in Hf as (x & Hx & Hc). unfold idx, get. by rewrite Hx.
Qed.

Lemma check_Pattern_str m v : check (Pattern m) v = true -> exists s, as_str v = Some s /\ m s = true.
Proof. cbn [check]. by rewrite is_some_and_true. Qed.

Lemma parse_envelope_Ok text plan signatures :
  parse_envelope text = Ok (plan, signatures) ->
  validate_plan plan = true /\ lenl signatures <= 4 /\
  Forall (fun s => check SIGNATURE s = true) signatures /\
  Z.of_nat (size (list_to_set ((fun sig => display sig.["key_id"]) <$> signatures) : gset string))
    = lenl signatures /\
  exists m, parse_strict text MAX_SIGNED_PLAN_BYTES = Some (VObject m) /\ blen m = 2 /\
    bget "signatures" m = Some (VArray signatures) /\ bget "plan" (bremove "signatures" m) = Some plan.
Proof.
  unfold parse_envelope. intros Hp. inv_ok Hp. bsplit. simplify_eq.
  apply as_object_Some in Hx0 as ->. apply as_array_Some in Hx3 as ->.
  rewrite <- forallb_Forall. split_and!; try done; try lia. exists x0. split_and!; try done. lia.
Qed.

Lemma verify_signature_Ok signature digest trust signer signatures :
  verify_signature signature digest trust = Ok signer -> signature ∈ signatures ->
  check SIGNATURE signature = true -> signed_by trust digest signatures signer.
Proof.
  unfold verify_signature. intros Hv Hin Hs. inv_ok Hv.
  assert (exists k, as_str signature.["key_id"] = Some k) as [k Hk].
  { apply check_object_field with (name := "key_id") (shape := KID) in Hs; [|apply list_elem_of_here].
    apply check_Pattern_str in Hs as (k & Hk & _). by exists k. }
  unfold str_or_default in *. rewrite Hk in *. cbn [from_option id] in *.
  destruct (is_test_key trust k) eqn:Ht; [done|]. bsplit. subst signer.
  exists signature, k, x, x0. split_and!; try done.
  - by case_bool_decide.
  - intros Hm. unfold is_test_key in Ht. rewrite Hm in Ht. cbn [is_production andb] in Ht.
    intros Hin'%contains_str_spec. congruence.
Qed.

Lemma signers_signed_by text spec_texts submitter ctx vp signatures rule :
  admitted text spec_texts submitter ctx vp signatures rule ->
  exists canonical, canonicalize (vp_plan vp) = Some canonical /\
    vp_digest_hex vp = hex (prefixed_digest PLAN_PREFIX canonical) /\
    Forall (signed_by (ctx_trust ctx) (prefixed_digest PLAN_PREFIX canonical) signatures) (vp_signers vp).
Proof.
  intros Ha. destruct (ad_canonical _ _ _ _ _ _ _ Ha) as (canonical & Hc & Hd & Hs).
  destruct (parse_envelope_Ok _ _ _ (ad_envelope _ _ _ _ _ _ _ Ha)) as (_ & _ & Hsig & _).
  exists canonical. split_and!; [done..|]. apply Forall_forall. intros signer Hin.
  apply list_elem_of_lookup in Hin as [i Hi].
  destruct (Forall2_lookup_r _ _ _ _ _ Hs Hi) as (signature & Hl & Hv).
  eapply verify_signature_Ok; [exact Hv|by eapply list_elem_of_lookup_2|].
  rewrite Forall_forall in Hsig. apply Hsig. by eapply list_elem_of_lookup_2.
Qed.

(** C1.  Authenticity: a plan admitted without a standing rule carries at
    least one signature, and every signer the verdict names is an unrevoked
    trusted key (never a public TEST key in production) whose signature
    verifies over the domain-separated digest of the plan's canonical text,
    the digest the verdict reports. *)
Theorem admit_authentic text spec_texts submitter ctx vp :
  verify_signed_plan text spec_texts submitter ctx = Ok (Admit vp) ->
  eq_str (vp_plan vp).["author"].["kind"] "rule" = false ->
  vp_signers vp <> [] /\
  exists signatures canonical, parse_envelope text = Ok (vp_plan vp, signatures) /\
    canonicalize (vp_plan vp) = Some canonical /\
    vp_digest_hex vp = hex (prefixed_digest PLAN_PREFIX canonical) /\
    Forall (signed_by (ctx_trust ctx) (prefixed_digest PLAN_PREFIX canonical) signatures) (vp_signers vp).
Proof.
  intros (signatures & rule & Ha)%verify_admit Hauthor. split.
  - intros Hnil. pose proof (ad_authority _ _ _ _ _ _ _ Ha) as Hau. unfold authority_ok in Hau.
    rewrite Hauthor in Hau. destruct (ad_canonical _ _ _ _ _ _ _ Ha) as (c & _ & _ & Hs).
    rewrite Hnil in Hs. inversion Hs; subst. done.
  - destruct (signers_signed_by _ _ _ _ _ _ _ Ha) as (canonical & Hc & Hd & Hs).
    exists signatures, canonical. split_and!; try done. apply (ad_envelope _ _ _ _ _ _ _ Ha).
Qed.

(** ** Presence and roles *)

Lemma check_policy_Ok plan rule signers specs ctx :
  check_policy plan rule signers specs ctx = Ok tt ->
  check_base plan (is_some rule) signers ctx = Ok tt /\
  check_presence plan (is_some rule) signers ctx = Ok tt /\
  Forall (fun kind => match rule with
    | Some record => rule_kind_ok record kind = Ok tt
    | None => signed_kind_ok plan signers ctx kind = Ok tt
    end) (plan_kinds plan) /\
  match rule with
  | Some record => check_rule plan (rr_rule record) ctx (ctx_now ctx) specs = Ok tt
  | None => names_in_scope plan ctx = Ok true
  end.
Proof.
  unfold check_policy. intros Hp. inv_ok Hp. destruct x, x0, x1.
  apply for_each_Ok in Hx1. split_and!; [done..| |].
  - eapply Forall_impl; [exact Hx1|]. simpl. by destruct rule.
  - destruct rule; [done|]. inv_ok Hp. by subst x.
Qed.

Lemma admitted_rule text spec_texts submitter ctx vp signatures rule :
  admitted text spec_texts submitter ctx vp signatures rule ->
  is_some rule = eq_str (vp_plan vp).["author"].["kind"] "rule".
Proof.
  intros Ha. pose proof (ad_rule _ _ _ _ _ _ _ Ha) as Hr.
  destruct (eq_str _ _); [by destruct Hr as (r & -> & _)|by rewrite Hr].
Qed.

(** C2.  Touch-ID kinds: a plan that deletes, elevates, opens a shell, changes
    keys, rules, secrets or updates (any of the always-fresh kinds) is never
    admitted from a standing rule and always names an owner signer with
    presence. *)
Theorem admit_touch_id text spec_texts submitter ctx vp kind :
  verify_signed_plan text spec_texts submitter ctx = Ok (Admit vp) ->
  kind ∈ plan_kinds (vp_plan vp) -> kind ∈ TID_KINDS ->
  eq_str (vp_plan vp).["author"].["kind"] "rule" = false /\
  exists signer, signer ∈ vp_signers vp /\ signer.["role"] = VString "owner" /\
    signer.["presence"] <> VString "none".
Proof.
  intros (signatures & rule & Ha)%verify_admit Hk Htid.
  destruct (check_policy_Ok _ _ _ _ _ (ad_policy _ _ _ _ _ _ _ Ha)) as (_ & Hp & _ & _).
  rewrite (admitted_rule _ _ _ _ _ _ _ Ha) in Hp. unfold check_presence in Hp.
  assert (existsb (contains_str TID_KINDS) (plan_kinds (vp_plan vp)) = true) as Hex.
  { apply existsb_exists. exists kind. split; [by apply list_elem_of_In|by apply contains_str_spec]. }
  rewrite Hex in Hp. cbn [obind andb] in Hp. inv_ok Hp. bsplit. split; [done|].
  match goal with H : existsb owner_present _ = true |- _ =>
    apply existsb_exists in H as (signer & Hin & Ho) end.
  exists signer. unfold owner_present in Ho. bsplit. split_and!.
  - by apply list_elem_of_In.
  - by apply eq_str_true.
  - intros He%eq_str_true. congruence.
Qed.

Lemma signed_kind_ok_Ok plan signers ctx kind :
  signed_kind_ok plan signers ctx kind = Ok tt ->
  exists signer, signer ∈ signers /\ role_allows (str_or_default signer.["role"]) kind = true /\
    scope_covers signer plan = true /\
    (kind = "operation.cancel" -> signer.["role"] = VString "ci" -> exists ids id,
       admission_signer_key_ids ctx (str_or_default (idx_n plan.["actions"] 0).["params"].["plan_id"])
         (str_or_default (idx_n plan.["actions"] 0).["params"].["plan_digest_hex"]) = Ok (Some ids) /\
       as_str signer.["key_id"] = Some id /\ id ∈ ids).
Proof.
  unfold signed_kind_ok. intros Hs. inv_ok Hs.
  apply existsb_exists in Hc0 as (signer & Hin & Hcov). exists signer.
  destruct (String.eqb kind "operation.cancel" && _) eqn:Hci.
  - inv_ok Hx0. subst x0. apply filter_In in Hin as [Hin Hr]. apply filter_In in Hin as [Hin Hrole].
    split_and!; [by apply list_elem_of_In|done|done|]. intros _ Hrc.
    rewrite Hrc in Hr. simpl in Hr. apply is_some_and_true in Hr as (ids & -> & Hr).
    apply is_some_and_true in Hr as (id & Hid & Hids). exists ids, id. split_and!; [done..|].
    by apply contains_str_spec.
  - injection Hx0 as <-. pose proof Hin as Hin0. apply filter_In in Hin as [Hin Hrole].
    split_and!; [by apply list_elem_of_In|done|done|]. intros -> Hrc. simpl in Hci.
    exfalso. assert (existsb (fun s => eq_str s.["role"] "ci")
      (List.filter (fun s => role_allows (str_or_default s.["role"]) "operation.cancel") signers) = true) as Hex.
    { apply existsb_exists. exists signer. split; [done|]. by rewrite Hrc. }
    congruence.
Qed.

(** C3.  Authorization: each action kind of a plan admitted without a rule
    is allowed to the role of one of its signers whose key scope covers the
    plan's project and environment; and a [ci] key that cancels an operation
    signed the cancelled plan itself. *)
Theorem admit_kind_authorized text spec_texts submitter ctx vp kind :
  verify_signed_plan text spec_texts submitter ctx = Ok (Admit vp) ->
  eq_str (vp_plan vp).["author"].["kind"] "rule" = false ->
  kind ∈ plan_kinds (vp_plan vp) ->
  exists signer, signer ∈ vp_signers vp /\ role_allows (str_or_default signer.["role"]) kind = true /\
    scope_covers signer (vp_plan vp) = true /\
    (signer.["role"] = VString "ci" -> kind ∈ CI_KINDS) /\
    (kind = "operation.cancel" -> signer.["role"] = VString "ci" -> exists ids id,
       admission_signer_key_ids ctx
         (str_or_default (idx_n (vp_plan vp).["actions"] 0).["params"].["plan_id"])
         (str_or_default (idx_n (vp_plan vp).["actions"] 0).["params"].["plan_digest_hex"]) = Ok (Some ids) /\
       as_str signer.["key_id"] = Some id /\ id ∈ ids).
Proof.
  intros (signatures & rule & Ha)%verify_admit Hauthor Hk.
  destruct (check_policy_Ok _ _ _ _ _ (ad_policy _ _ _ _ _ _ _ Ha)) as (_ & _ & Hf & _).
  pose proof (admitted_rule _ _ _ _ _ _ _ Ha) as Hr. rewrite Hauthor in Hr.
  destruct rule; [done|]. rewrite Forall_forall in Hf.
  destruct (signed_kind_ok_Ok _ _ _ _ (Hf kind Hk)) as (signer & Hin & Hrole & Hcov & Hcancel).
  exists signer. split_and!; try done. intros Hci. rewrite Hci in Hrole.
  by apply contains_str_spec.
Qed.

(** ** Rule plans *)

Lemma verify_rule_Ok invocation trust ctx record :
  verify_rule invocation trust ctx = Ok record ->
  ctx_rule ctx (str_or_default invocation.["rule_id"]) = Ok (Some record) /\
  (rr_rule record).["id"] = VString (str_or_default invocation.["rule_id"]) /\
  (exists canonical, canonicalize (rr_rule record) = Some canonical /\
     rr_digest_hex record = hex (prefixed_digest RULE_PREFIX canonical) /\
     str_or_default invocation.["rule_digest_hex"] = rr_digest_hex record) /\
  rr_revoked record = false /\ rr_created_by_key_id record ∉ ts_compromised trust.
Proof.
  unfold verify_rule. intros Hv. inv_ok Hv. subst x0. bsplit.
  repeat match goal with H : bool_decide _ = _ |- _ => first
    [apply bool_decide_eq_true in H|apply bool_decide_eq_false in H] end.
  match goal with H : String.eqb _ _ = true |- _ => apply String.eqb_eq in H as Hd end.
  split_and!; try done.
  - by rewrite Hx, Hx0.
  - by apply eq_str_true.
  - destruct (canonicalize (rr_rule record)) as [c|] eqn:Hcn; [|done]. exists c. split; [done|].
    rewrite Hd. simplify_eq/=. done.
Qed.

Record rule_checked (plan rule : Value) (ctx : PolicyContext) (now : Z)
    (specs : bmap (Value * string)) : Prop := {
  rc_window : exists a b, value_timestamp rule.["not_before"] = Ok a /\
    value_timestamp rule.["expires_at"] = Ok b /\ a <= now <= b;
  rc_scope : rule_scope_ok plan rule = true;
  rc_open : environment_protected ctx (str_or_default plan.["project_id"])
    (str_or_default plan.["environment"]) = Ok false;
  rc_scale : lists_scale rule = true -> rule.["limits"].["max_replicas"] <> VNull;
  rc_replicas : Forall (fun a => replicas_within rule.["limits"] specs a = Ok tt) (items_of plan.["actions"]);
  rc_rate : exists n, rule_invocations_last_hour ctx (str_or_default rule.["id"]) = Ok n /\
    Z.min n i64_max < default 0 (as_i64 rule.["limits"].["max_invocations_per_hour"]);
  rc_delivery : exists d, delivery ctx
      (str_or_default plan.["invocation"].["evidence"].["delivery_id"]) = Ok (Some d) /\
    dr_verified d = true /\
    evidence_matches plan.["invocation"].["evidence"] (str_or_default plan.["environment"])
      (str_or_default rule.["id"]) d = true;
  rc_deploy : Forall (fun a => deploy_spec_ok ctx specs
    (str_or_default plan.["invocation"].["evidence"].["commit_sha"]) a = Ok tt)
    (of_kind "deploy" (items_of plan.["actions"]));
  rc_scale_specs : Forall (fun a => scale_spec_ok ctx specs a = Ok tt)
    (of_kind "scale" (items_of plan.["actions"]))
}.

Lemma check_rule_Ok plan rule ctx now specs :
  check_rule plan rule ctx now specs = Ok tt -> rule_checked plan rule ctx now specs.
Proof.
  unfold check_rule. intros Hr. inv_ok Hr. bsplit.
  repeat match goal with u : unit |- _ => destruct u end.
  repeat match goal with H : for_each _ _ = Ok tt |- _ => apply for_each_Ok in H end.
  split; try done.
  - exists x, x0. unfold value_timestamp. rewrite Hx, Hx0. split_and!; try done; lia.
  - by destruct (rule_scope_ok plan rule); [|simplify_eq].
  - destruct (rule_scope_ok plan rule); simplify_eq/=; done.
  - intros Hl Hn. rewrite Hl, Hn in *. done.
  - exists x3. split; [done|lia].
  - destruct x4 as [d|]; [|done]. exists d. destruct (dr_verified d) eqn:Hd; [|done]. by simplify_eq.
Qed.

(** C4.  Standing rules: a rule plan is admitted only from the agent's own
    webhook path, without signatures, under a stored rule whose digest is
    recomputed, that is not revoked and whose creator key is not compromised,
    inside the rule's window and an unprotected environment, for [deploy] and
    [scale] only and only if the rule lists the kind, below the hourly limit. *)
Theorem admit_rule_plan text spec_texts submitter ctx vp :
  verify_signed_plan text spec_texts submitter ctx = Ok (Admit vp) ->
  eq_str (vp_plan vp).["author"].["kind"] "rule" = true ->
  submitter = AgentWebhook /\ vp_signers vp = [] /\
  exists record, ctx_rule ctx (str_or_default (vp_plan vp).["invocation"].["rule_id"]) = Ok (Some record) /\
    (exists canonical, canonicalize (rr_rule record) = Some canonical /\
       rr_digest_hex record = hex (prefixed_digest RULE_PREFIX canonical)) /\
    rr_revoked record = false /\ rr_created_by_key_id record ∉ ts_compromised (ctx_trust ctx) /\
    Forall (fun kind => kind ∈ ["deploy"; "scale"] /\
      VString kind ∈ items_of (rr_rule record).["allowed_kinds"]) (plan_kinds (vp_plan vp)) /\
    (exists a b, value_timestamp (rr_rule record).["not_before"] = Ok a /\
       value_timestamp (rr_rule record).["expires_at"] = Ok b /\ a <= ctx_now ctx <= b) /\
    environment_protected ctx (str_or_default (vp_plan vp).["project_id"])
      (str_or_default (vp_plan vp).["environment"]) = Ok false /\
    exists n, rule_invocations_last_hour ctx (str_or_default (rr_rule record).["id"]) = Ok n /\
      Z.min n i64_max < default 0 (as_i64 (rr_rule record).["limits"].["max_invocations_per_hour"]).
Proof.
  intros (signatures & rule & Ha)%verify_admit Hauthor.
  pose proof (ad_authority _ _ _ _ _ _ _ Ha) as Hau. unfold authority_ok in Hau.
  pose proof (ad_rule _ _ _ _ _ _ _ Ha) as Hr. rewrite Hauthor in Hau, Hr. bsplit.
  destruct Hr as (record & -> & Hvr).
  destruct (check_policy_Ok _ _ _ _ _ (ad_policy _ _ _ _ _ _ _ Ha)) as (_ & _ & Hf & Hcr).
  destruct (check_rule_Ok _ _ _ _ _ Hcr) as [Hw _ Ho _ _ Hrate _ _ _].
  apply verify_rule_Ok in Hvr as (Hget & _ & (c & Hc1 & Hc2 & _) & Hrev & Hcomp).
  split; [by destruct submitter|]. split.
  { destruct (ad_canonical _ _ _ _ _ _ _ Ha) as (c' & _ & _ & Hs).
    destruct signatures; [by inversion Hs|done]. }
  exists record. split_and!; try done; [by exists c|].
  eapply Forall_impl; [exact Hf|]. simpl. intros kind Hk. unfold rule_kind_ok in Hk. inv_ok Hk. bsplit.
  split; [by apply contains_str_spec|].
  match goal with H : is_some_and _ _ = true |- _ => apply is_some_and_true in H as (l & Hl & Hex) end.
  unfold items_of. rewrite Hl. simpl. apply existsb_exists in Hex as (v & Hin & Hv).
  apply eq_str_true in Hv as ->. by apply list_elem_of_In.
Qed.

Lemma set_field_Ok {E} (v x : Value) k w : @set_field E v k x = Ok w ->
  w.[k] = x /\ forall j, j <> k -> w.[j] = v.[j].
Proof.
  destruct v as [| | | | |m]; try done; intros [= <-]; unfold idx, get; simpl.
  - rewrite String.eqb_refl. split; [done|]. intros j Hj. by apply String.eqb_neq in Hj as ->.
  - rewrite bget_insert, String.eqb_refl. split; [done|]. intros j Hj.
    rewrite bget_insert. by apply String.eqb_neq in Hj as ->.
Qed.

Lemma differs_only_in_Ok field spec base :
  differs_only_in field spec base = Ok tt -> forall k, k <> field -> spec.[k] = base.[k].
Proof.
  unfold differs_only_in. intros Hd. inv_ok Hd. apply value_eqb_eq in Hc as ->.
  destruct (set_field_Ok _ _ _ _ Hx) as [_ Hs]. intros k Hk. symmetry. by apply Hs.
Qed.

Lemma in_of_kind kind actions a : a ∈ of_kind kind actions <-> a ∈ actions /\ a.["kind"] = VString kind.
Proof.
  unfold of_kind. rewrite list_elem_of_In, filter_In, <- list_elem_of_In, eq_str_true. done.
Qed.

(** C5.  A rule cannot widen a service: every [deploy] of an admitted rule
    plan uses a spec that equals the last admitted spec of its service in
    every member but the image digest, which is the image the server built
    for the pushed commit; every [scale] changes the replica count only; and
    all replica counts stay within the rule's cap when it has one. *)
Theorem admit_rule_specs text spec_texts submitter ctx vp action kind :
  verify_signed_plan text spec_texts submitter ctx = Ok (Admit vp) ->
  eq_str (vp_plan vp).["author"].["kind"] "rule" = true ->
  action ∈ items_of (vp_plan vp).["actions"] -> action.["kind"] = VString kind ->
  kind ∈ ["deploy"; "scale"] ->
  exists record spec spec_text base,
    ctx_rule ctx (str_or_default (vp_plan vp).["invocation"].["rule_id"]) = Ok (Some record) /\
    bget (str_or_default action.["params"].["spec_digest_hex"]) (vp_specs vp) = Some (spec, spec_text) /\
    last_admitted_spec ctx (action_service action) = Ok (Some base) /\
    (forall k, k <> (if String.eqb kind "deploy" then "image_digest_hex" else "replicas") ->
       spec.[k] = base.[k]) /\
    (kind = "deploy" -> exists image,
       build_image ctx (action_service action)
         (str_or_default (vp_plan vp).["invocation"].["evidence"].["commit_sha"]) = Ok (Some image) /\
       spec.["image_digest_hex"] = VString image) /\
    (forall max, as_i64 (rr_rule record).["limits"].["max_replicas"] = Some max ->
       default i64_max (as_i64 spec.["replicas"]) <= max).
Proof.
  intros (signatures & rule & Ha)%verify_admit Hauthor Hin Hkind Hk.
  pose proof (ad_rule _ _ _ _ _ _ _ Ha) as Hr. rewrite Hauthor in Hr.
  destruct Hr as (record & -> & Hvr).
  destruct (check_policy_Ok _ _ _ _ _ (ad_policy _ _ _ _ _ _ _ Ha)) as (_ & _ & _ & Hcr).
  destruct (check_rule_Ok _ _ _ _ _ Hcr) as [_ _ _ _ Hrep _ _ Hdep Hsc].
  apply verify_rule_Ok in Hvr as (Hget & _). rewrite Forall_forall in Hrep, Hdep, Hsc.
  specialize (Hrep _ Hin). unfold replicas_within in Hrep. inv_ok Hrep.
  unfold spec_of in Hx. inv_ok Hx. destruct x0 as [spec text0]. simpl in Hx. subst x.
  assert (forall max, as_i64 (rr_rule record).["limits"].["max_replicas"] = Some max ->
    default i64_max (as_i64 spec.["replicas"]) <= max) as Hmax.
  { intros max Hm. rewrite Hm in Hrep. inv_ok Hrep. lia. }
  apply elem_of_cons in Hk as [->|Hk%list_elem_of_singleton]; [|subst kind].
  - specialize (Hdep action). rewrite in_of_kind in Hdep. specialize (Hdep (conj Hin Hkind)).
    unfold deploy_spec_ok, spec_of in Hdep. rewrite Hx0 in Hdep. cbn [ok_or obind] in Hdep. inv_ok Hdep.
    subst x x1. exists record, spec, text0, x0. split_and!; try done.
    + by apply differs_only_in_Ok.
    + intros _. exists x2. split; [done|]. by apply eq_str_true.
  - specialize (Hsc action). rewrite in_of_kind in Hsc. specialize (Hsc (conj Hin Hkind)).
    unfold scale_spec_ok, spec_of in Hsc. rewrite Hx0 in Hsc. cbn [ok_or obind] in Hsc. inv_ok Hsc.
    subst x. exists record, spec, text0, x0. split_and!; try done.
    by apply differs_only_in_Ok.
Qed.

(** ** Time and branches *)

(** The time window: step 7 passes exactly for a plan with readable
    stamps, a lifetime of 1 to 900 seconds, and a clock between 120 seconds
    before its creation and 120 seconds after its expiry. *)
Theorem check_time_spec plan now :
  check_time plan now = Ok tt <->
  exists s t created expires, plan.["created_at"] = VString s /\ plan.["expires_at"] = VString t /\
    timestamp s = Some created /\ timestamp t = Some expires /\
    created < expires <= created + MAX_LIFETIME_SECONDS /\
    created - SKEW_SECONDS <= now <= expires + SKEW_SECONDS.
Proof.
  unfold check_time, value_timestamp, MAX_LIFETIME_SECONDS, SKEW_SECONDS. split.
  - intros Hc. inv_ok Hc. bsplit.
    destruct (as_str plan.["created_at"]) as [s|] eqn:Hs; [|done].
    destruct (as_str plan.["expires_at"]) as [t|] eqn:Ht; [|done].
    apply as_str_Some in Hs, Ht. exists s, t, x, x0. split_and!; try done; lia.
  - intros (s & t & c & e & -> & -> & Hc & He & Hl & Hn). simpl. rewrite Hc, He. simpl.
    replace (0 <? e - c) with true by lia. replace (e - c <=? 900) with true by lia. simpl.
    replace (c <=? now + 120) with true by lia. replace (now <=? e + 120) with true by lia. done.
Qed.

(** Branch patterns: a pattern matches a ref exactly when they are equal,
    or when the pattern ends in "/*" and the ref is the text before the star
    followed by at least one more byte; so "refs/heads/a/*" never matches
    "refs/heads/ab" or "refs/heads/a/" itself. *)
Theorem ref_matches_spec ref pattern :
  ref_matches ref pattern = true <->
  ref = pattern \/ exists dir rest, pattern = dir +:+ "/*" /\ ref = dir +:+ "/" +:+ rest /\ rest <> "".
Proof.
  unfold ref_matches. rewrite orb_true_iff, String.eqb_eq, is_some_and_true. apply or_iff_compat_l. split.
  - intros (prefix & Hp & Hc). bsplit. apply strip_suffix_Some in Hp.
    match goal with H : ends_with _ _ = true |- _ => apply ends_with_spec in H as [dir Hd] end.
    match goal with H : starts_with _ _ = true |- _ => apply starts_with_spec in H as [rest Hr] end.
    assert (prefix = dir +:+ "/") as ->.
    { rewrite Hd in Hp. change "/*" with ("/" +:+ "*") in Hp. rewrite str_app_assoc in Hp.
      by apply str_app_inj_r in Hp. }
    exists dir, rest. split_and!; [done|by rewrite Hr, str_app_assoc|].
    intros ->. rewrite str_app_nil_r in Hr. subst ref. lia.
  - intros (dir & rest & -> & -> & Hne). exists (dir +:+ "/").
    change "/*" with ("/" +:+ "*"). rewrite !str_app_assoc. rewrite strip_suffix_app.
    split; [done|]. rewrite !andb_true_iff. split_and!.
    + apply ends_with_spec. exists dir. by rewrite <- str_app_assoc.
    + apply starts_with_spec. by exists rest.
    + apply Z.ltb_lt. unfold len. rewrite (str_app_length (dir +:+ "/") rest).
      destruct rest; [done|]. cbn [String.length]. lia.
Qed.

(** ** Specs *)

Definition spec_entry_ok (spec_texts : list string) (e : string * (Value * string)) : Prop :=
  e.2.2 ∈ spec_texts /\ check SPEC e.2.1 = true /\ canonicalize e.2.1 = Some e.2.2 /\
  e.1 = hex (prefixed_digest SPEC_PREFIX e.2.2).

Lemma parse_spec_Some text spec digest :
  parse_spec text = Some (spec, digest) ->
  check SPEC spec = true /\ canonicalize spec = Some text /\ digest = hex (prefixed_digest SPEC_PREFIX text).
Proof.
  unfold parse_spec. destruct (_ <? _); [done|]. destruct (parse_strict _ _) as [v|]; [|done].
  destruct (check SPEC v) eqn:Hs; [|done]. simpl. destruct (canonicalize v) as [c|] eqn:Hc; [|done].
  destruct (String.eqb_spec c text) as [->|]; [|done]. simpl. by intros [= <- <-].
Qed.

Lemma collect_specs_ok all spec_texts specs specs' :
  Forall (spec_entry_ok all) specs -> Forall (fun t => t ∈ all) spec_texts ->
  collect_specs specs spec_texts = Some specs' -> Forall (spec_entry_ok all) specs'.
Proof.
  revert specs; induction spec_texts as [|t texts IH]; intros specs Hs Ht; cbn [collect_specs].
  - by intros [= <-].
  - apply Forall_cons in Ht as [Hin Ht]. destruct (parse_spec t) as [[spec d]|] eqn:Hp; [|done].
    destruct (bcontains d specs); [done|]. apply IH; [|done]. apply binsert_Forall; [|done].
    apply parse_spec_Some in Hp as (H1 & H2 & H3). by split_and!.
Qed.

Lemma wanted_specs_Some specs elevated w actions w' :
  wanted_specs specs elevated w actions = Some w' ->
  Forall (fun a => exists r, action_spec specs elevated a = Some r /\
    (forall d, r = Some d -> d ∈ w')) actions /\
  w ⊆ w' /\
  (forall d, d ∈ w' -> d ∈ w \/ exists a, a ∈ actions /\ action_spec specs elevated a = Some (Some d)).
Proof.
  revert w; induction actions as [|a actions IH]; intros w; cbn [wanted_specs].
  - intros [= <-]. split_and!; [constructor|done|by left].
  - destruct (action_spec specs elevated a) as [[d|]|] eqn:Ha; [| |done]; intros Hw;
      destruct (IH _ Hw) as (H1 & H2 & H3).
    + split_and!; [|set_solver|].
      * constructor; [|done]. exists (Some d). split; [done|]. intros ? [= <-]. set_solver.
      * intros e He. destruct (H3 e He) as [Hu|(a' & Hin & Has)]; [|right; exists a'; set_solver].
        apply elem_of_union in Hu as [->%elem_of_singleton|]; [right; exists a; set_solver|by left].
    + split_and!; [|done|].
      * constructor; [by exists None|done].
      * intros e He. destruct (H3 e He) as [Hu|(a' & Hin & Has)]; [by left|right; exists a'; set_solver].
Qed.

Lemma in_elevations actions d :
  d ∈ elevations actions <-> exists a, a ∈ actions /\ a.["kind"] = VString "service.elevate" /\
    as_str a.["params"].["spec_digest_hex"] = Some d.
Proof.
  unfold elevations. rewrite elem_of_list_to_set, elem_of_filter_map.
  setoid_rewrite list_elem_of_filter. setoid_rewrite eq_str_true. naive_solver.
Qed.

Lemma bind_specs_entries plan spec_texts specs :
  bind_specs plan spec_texts = Some specs -> Forall (spec_entry_ok spec_texts) specs.
Proof.
  unfold bind_specs. destruct (_ <? _); [done|].
  destruct (collect_specs [] spec_texts) as [specs0|] eqn:Hcs; [|done].
  destruct (as_array plan.["actions"]); [|done]. destruct (wanted_specs _ _ _ _); [|done].
  case_bool_decide; [|done]. intros [= <-].
  eapply collect_specs_ok; [by constructor| |exact Hcs]. by apply Forall_forall.
Qed.

(** Spec binding: when the specs of a plan bind, every action of a kind
    that pins a spec names by digest a spec sent with the plan, whose text is
    canonical and hashes to that digest, for the same service (and replica
    count for [scale]); an elevated spec (privileged, extra capabilities or
    host network) also has a [service.elevate] action for the same digest;
    and no spec is sent that no action names. *)
Theorem bind_specs_sound plan spec_texts specs :
  bind_specs plan spec_texts = Some specs ->
  Forall (spec_entry_ok spec_texts) specs /\
  (forall action kind, action ∈ items_of plan.["actions"] -> action.["kind"] = VString kind ->
     kind ∈ SPEC_KINDS -> exists digest spec text,
       action.["params"].["spec_digest_hex"] = VString digest /\
       bget digest specs = Some (spec, text) /\ spec.["service_id"] = action.["params"].["service_id"] /\
       (kind = "scale" -> spec.["replicas"] = action.["params"].["replicas"]) /\
       (spec_elevated spec = true -> exists elevate, elevate ∈ items_of plan.["actions"] /\
          elevate.["kind"] = VString "service.elevate" /\
          elevate.["params"].["spec_digest_hex"] = VString digest)) /\
  (forall digest, is_some (bget digest specs) = true -> exists action,
     action ∈ items_of plan.["actions"] /\ action.["params"].["spec_digest_hex"] = VString digest).
Proof.
  intros Hbind. pose proof (bind_specs_entries _ _ _ Hbind) as Hentries. revert Hbind.
  unfold bind_specs. destruct (_ <? _); [done|].
  destruct (collect_specs [] spec_texts) as [specs0|] eqn:Hcs; [|done].
  destruct (as_array plan.["actions"]) as [actions|] eqn:Hact; [|done].
  destruct (wanted_specs specs0 _ ∅ actions) as [w|] eqn:Hw; [|done].
  case_bool_decide as Hkeys; [|done]. intros [= <-].
  assert (items_of plan.["actions"] = actions) as -> by (unfold items_of; by rewrite Hact).
  apply wanted_specs_Some in Hw as (Hall & _ & Hback). split_and!.
  - done.
  - intros action kind Hin Hk Hsk. rewrite Forall_forall in Hall.
    destruct (Hall _ Hin) as (r & Hr & _). unfold action_spec in Hr. rewrite Hk in Hr. cbn [as_str] in Hr.
    apply contains_str_spec in Hsk as Hsk'. rewrite Hsk' in Hr. cbn [negb andb] in Hr.
    destruct (as_str action.["params"].["spec_digest_hex"]) as [d|] eqn:Hd; [|done].
    destruct (bget d specs0) as [[spec text]|] eqn:Hb; [|done]. destruct (_ || _) eqn:Hc in Hr; [done|].
    assert (String.eqb kind "db.upgrade" = false) as Hup.
    { apply String.eqb_neq. intros ->. revert Hsk. rewrite <- contains_str_spec. done. }
    rewrite Hup in Hc. cbn [andb] in Hc. bsplit. exists d, spec, text. apply as_str_Some in Hd.
    split_and!; try done.
    + by apply value_eqb_eq.
    + intros ->. by apply value_eqb_eq, negb_false_iff.
    + intros He. destruct (String.eqb_spec kind "service.elevate") as [->|Hne]; [by exists action|].
      match goal with H : _ && spec_elevated _ && _ = false |- _ => rewrite He in H; simpl in H;
        apply negb_false_iff, bool_decide_eq_true in H; apply in_elevations in H as (e & He1 & He2 & He3) end.
      exists e. apply as_str_Some in He3. done.
  - intros d Hd. assert (d ∈ w) as Hdw.
    { rewrite <- Hkeys. apply elem_of_list_to_set. destruct (bget d specs0) eqn:Hb; [|done].
      apply bget_In in Hb. by apply (list_elem_of_fmap_2 fst) in Hb. }
    destruct (Hback d Hdw) as [?|(a & Hin & Ha)]; [set_solver|]. exists a. split; [done|].
    unfold action_spec in Ha. destruct (as_str a.["kind"]); [|done]. destruct (_ && _) in Ha; [done|].
    destruct (as_str a.["params"].["spec_digest_hex"]) as [d'|] eqn:Hd'; [|done].
    destruct (bget d' specs0) as [[??]|]; [|done]. destruct (_ || _) in Ha; [done|].
    injection Ha as ->. by apply as_str_Some.
Qed.

(** ** No panic *)

(** A context whose reads end in a value or an error code. *)
Record context_total (ctx : PolicyContext) : Prop := {
  ct_admission_digest i : admission_digest ctx i <> Panic;
  ct_signer_key_ids i d : admission_signer_key_ids ctx i d <> Panic;
  ct_seen n i : seen ctx n i <> Panic;
  ct_head p e : head ctx p e <> Panic;
  ct_rule r : ctx_rule ctx r <> Panic;
  ct_invocations r : rule_invocations_last_hour ctx r <> Panic;
  ct_delivery d : delivery ctx d <> Panic;
  ct_last_spec s : last_admitted_spec ctx s <> Panic;
  ct_build_image s c : build_image ctx s c <> Panic;
  ct_build_window s c : build_window ctx s c <> Panic;
  ct_deployed s r : deployed_commit ctx s r <> Panic;
  ct_admission_scope i d : admission_scope ctx i d <> Panic;
  ct_service_scope s : service_scope ctx s <> Panic;
  ct_cron_scope c : cron_scope ctx c <> Panic;
  ct_policies r : backup_policies ctx r <> Panic;
  ct_protected p e : environment_protected ctx p e <> Panic
}.

Lemma obind_no_panic {E A B} (m : outcome E A) (k : A -> outcome E B) :
  m <> Panic -> (forall a, m = Ok a -> k a <> Panic) -> obind m k <> Panic.
Proof. destruct m; simpl; naive_solver. Qed.

(** Opens binds, guards and context reads. *)
Ltac no_panic := repeat first
  [ done
  | eassumption
  | apply obind_no_panic; [|intros ? ?]
  | apply ok_or_Panic
  | match goal with Hc : context_total _ |- _ => solve [destruct Hc; eauto] end
  | match goal with |- (if ?c then _ else _) <> Panic => destruct c end
  | match goal with |- match ?x with _ => _ end <> Panic => destruct x end ].

Lemma value_timestamp_no_panic v : value_timestamp v <> Panic.
Proof. apply ok_or_Panic. Qed.

Lemma check_time_no_panic plan now : check_time plan now <> Panic.
Proof. unfold check_time. no_panic. Qed.

Lemma verify_signature_no_panic s d t : verify_signature s d t <> Panic.
Proof. unfold verify_signature. no_panic. Qed.

Lemma parse_envelope_no_panic text : parse_envelope text <> Panic.
Proof. unfold parse_envelope. no_panic. Qed.

Lemma verify_rule_no_panic i t ctx : context_total ctx -> verify_rule i t ctx <> Panic.
Proof. intros Hc. unfold verify_rule. no_panic. Qed.

Lemma names_in_scope_no_panic plan ctx : context_total ctx -> names_in_scope plan ctx <> Panic.
Proof.
  intros Hc. unfold names_in_scope. induction (items_of _) as [|a l IH]; [done|]. cbn [all_in_scope].
  apply obind_no_panic; [unfold action_foreign; no_panic|]. intros [] _; done.
Qed.

Lemma policy_narrows_no_panic plan ctx : context_total ctx -> policy_narrows plan ctx <> Panic.
Proof.
  intros Hc. unfold policy_narrows. induction (items_of _) as [|a l IH]; [done|]. cbn [any_narrows]. no_panic.
Qed.

Lemma signed_kind_no_panic plan signers ctx kind :
  context_total ctx -> signed_kind_ok plan signers ctx kind <> Panic.
Proof. intros Hc. unfold signed_kind_ok. no_panic. Qed.

(** The specs of a bound plan are objects, so assigning a member is safe. *)
Lemma spec_of_object spec_texts specs action spec :
  Forall (spec_entry_ok spec_texts) specs -> spec_of specs action = Ok spec -> exists m, spec = VObject m.
Proof.
  intros Hs. unfold spec_of. intros Hx. inv_ok Hx. apply bget_In in Hx0. rewrite Forall_forall in Hs.
  destruct (Hs _ Hx0) as (_ & Hc & _). subst spec. unfold SPEC in Hc. cbn [check] in Hc.
  unfold spec_shape in Hc. simpl in Hc. destruct (as_object x.1) as [m|] eqn:Hm; [|done].
  exists m. by apply as_object_Some.
Qed.

Lemma spec_of_no_panic specs action : spec_of specs action <> Panic.
Proof. unfold spec_of. no_panic. Qed.

Lemma deploy_spec_no_panic ctx spec_texts specs c action :
  context_total ctx -> Forall (spec_entry_ok spec_texts) specs -> deploy_spec_ok ctx specs c action <> Panic.
Proof.
  intros Hc Hs. unfold deploy_spec_ok. apply obind_no_panic; [apply spec_of_no_panic|]. intros spec Hspec.
  destruct (spec_of_object _ _ _ _ Hs Hspec) as [m ->]. no_panic.
Qed.

Lemma scale_spec_no_panic ctx spec_texts specs action :
  context_total ctx -> Forall (spec_entry_ok spec_texts) specs -> scale_spec_ok ctx specs action <> Panic.
Proof.
  intros Hc Hs. unfold scale_spec_ok. apply obind_no_panic; [apply spec_of_no_panic|]. intros spec Hspec.
  destruct (spec_of_object _ _ _ _ Hs Hspec) as [m ->]. no_panic.
Qed.

Lemma check_rule_no_panic plan rule ctx now spec_texts specs :
  context_total ctx -> Forall (spec_entry_ok spec_texts) specs ->
  check_rule plan rule ctx now specs <> Panic.
Proof.
  intros Hc Hs. unfold check_rule. no_panic; apply for_each_Panic; intros action _.
  - unfold replicas_within. apply obind_no_panic; [apply spec_of_no_panic|]. intros spec _. no_panic.
  - unfold build_fresh. no_panic.
  - unfold commit_newer. no_panic.
  - by eapply deploy_spec_no_panic.
  - by eapply scale_spec_no_panic.
Qed.

(** Verification is total: on any bytes, spec texts and submitter it
    ends in a verdict or one of the error codes, never in a panic, if the
    store's reads do.  The assignments into a spec and the indexing of the
    envelope are always defined. *)
Theorem verify_no_panic text spec_texts submitter ctx :
  context_total ctx -> verify_signed_plan text spec_texts submitter ctx <> Panic.
Proof.
  intros Hc. unfold verify_signed_plan.
  apply obind_no_panic; [apply parse_envelope_no_panic|]. intros [plan signatures] _.
  apply obind_no_panic; [apply ok_or_Panic|]. intros specs Hspecs%ok_or_Ok.
  pose proof (bind_specs_entries _ _ _ Hspecs) as Hs.
  destruct (targets_server _ _); [|done]. destruct (authority_ok _ _ _); [|done].
  apply obind_no_panic; [apply ok_or_Panic|]. intros canonical _.
  apply obind_no_panic; [apply map_each_Panic; intros s _; apply verify_signature_no_panic|].
  intros signers _. apply obind_no_panic.
  { destruct (eq_str _ _); [|done]. apply obind_no_panic; [by apply verify_rule_no_panic|done]. }
  intros rule _. apply obind_no_panic; [apply check_time_no_panic|]. intros _ _.
  apply obind_no_panic; [apply (ct_admission_digest _ Hc)|]. intros admitted _.
  destruct (bool_decide _); [done|]. apply obind_no_panic; [apply (ct_seen _ Hc)|]. intros reserved _.
  apply obind_no_panic; [no_panic|]. intros again _. destruct (negb again); [|done].
  apply obind_no_panic; [|done]. unfold check_policy.
  apply obind_no_panic; [unfold check_base; no_panic|]. intros _ _.
  apply obind_no_panic.
  { unfold check_presence. apply obind_no_panic; [|intros fresh _; no_panic].
    destruct (existsb _ _); [done|]. by apply policy_narrows_no_panic. }
  intros _ _. apply obind_no_panic.
  { apply for_each_Panic. intros kind _. destruct rule; [unfold rule_kind_ok; no_panic|].
    by apply signed_kind_no_panic. }
  intros _ _. destruct rule; [by eapply check_rule_no_panic|].
  apply obind_no_panic; [by apply names_in_scope_no_panic|]. intros inside _. by destruct inside.
Qed.

(** ** Replay and duplicates *)

(** Duplicates: a plan is answered as already admitted only when its own
    digest is the stored digest for its id, after its signatures (or rule) and
    time window passed again. *)
Theorem deduped_sound text spec_texts submitter ctx plan_id digest :
  verify_signed_plan text spec_texts submitter ctx = Ok (Deduped plan_id digest) ->
  admission_digest ctx plan_id = Ok (Some digest) /\
  exists plan signatures canonical signers, parse_envelope text = Ok (plan, signatures) /\
    str_or_default plan.["id"] = plan_id /\ canonicalize plan = Some canonical /\
    digest = hex (prefixed_digest PLAN_PREFIX canonical) /\
    map_each (fun s => verify_signature s (prefixed_digest PLAN_PREFIX canonical) (ctx_trust ctx)) signatures
      = Ok signers /\
    check_time plan (ctx_now ctx) = Ok tt.
Proof.
  unfold verify_signed_plan. intros Hv. inv_ok Hv. destruct x as [plan signatures]. inv_ok Hv.
  destruct (bool_decide _) eqn:Hd in Hv; [|by inv_ok Hv].
  apply bool_decide_eq_true in Hd as ->. simplify_eq. destruct x3.
  split; [done|]. exists plan, signatures, x0, x1. by split_and!.
Qed.

(** ** Heads *)

Definition newline : ascii := "010"%char.
Definition no_newline (s : string) : bool := all_bytes (fun b => negb (Ascii.eqb b newline)) s.

Lemma lower_hex_no_newline s : all_bytes is_lower_hex_byte s = true -> no_newline s = true.
Proof.
  apply all_bytes_impl. intros b Hb. apply negb_true_iff.
  destruct (Ascii.eqb_spec b newline) as [->|]; [vm_compute in Hb; discriminate|done].
Qed.

Lemma cut_at_newline a b s t :
  no_newline a = true -> no_newline b = true ->
  a +:+ String newline s = b +:+ String newline t -> a = b /\ s = t.
Proof.
  revert b; induction a as [|x a IH]; intros [|y b]; unfold no_newline; cbn [all_bytes];
    rewrite ?str_app_nil_l, ?str_app_cons.
  - by intros _ _ [= ->].
  - intros _ Hy [= <- _]. done.
  - intros Hx _ [= -> _]. done.
  - intros [_ Ha]%andb_true_iff [_ Hb]%andb_true_iff [= -> He].
    by destruct (IH b Ha Hb He) as [-> ->].
Qed.

Lemma next_head_hex h d : all_bytes is_lower_hex_byte (next_head h d) = true.
Proof. apply hex_lower. Qed.

Lemma next_head_inj h h' d d' :
  no_newline h = true -> no_newline h' = true -> next_head h d = next_head h' d' ->
  (h = h' /\ d = d') \/ sha_collision.
Proof.
  intros Hn Hn' He. unfold next_head in He. apply hex_inj in He.
  set (a := STATE_PREFIX +:+ h +:+ String "010" "" +:+ d) in *.
  set (b := STATE_PREFIX +:+ h' +:+ String "010" "" +:+ d') in *.
  destruct (decide (a = b)) as [Hab|Hab]; [left|right; by exists a, b].
  unfold a, b in Hab. apply str_app_inv_len in Hab as [_ Hab]; [|done].
  rewrite !str_app_cons, !str_app_nil_l in Hab. by apply cut_at_newline in Hab.
Qed.

(** The head of a scope after the plans with these digests. *)
Definition head_after (digests : list string) : string := fold_left next_head digests GENESIS_HEAD.

Lemma head_after_snoc ds d : head_after (ds ++ [d]) = next_head (head_after ds) d.
Proof. unfold head_after. by rewrite fold_left_app. Qed.

Lemma head_after_no_newline ds : no_newline (head_after ds) = true.
Proof.
  destruct ds as [|d ds _] using rev_ind; [reflexivity|]. rewrite head_after_snoc.
  apply lower_hex_no_newline, next_head_hex.
Qed.

(** Tamper evidence: the head of a scope commits to its whole history.
    Two histories of the same length with the same head are the same sequence
    of plan digests, or SHA-256 has a collision. *)
Theorem head_commits_history ds ds' :
  length ds = length ds' -> head_after ds = head_after ds' -> ds = ds' \/ sha_collision.
Proof.
  revert ds'; induction ds as [|d ds IH] using rev_ind; intros ds' Hl He.
  - destruct ds'; [by left|done].
  - destruct ds' as [|d' ds' _] using rev_ind; [rewrite length_app in Hl; simpl in Hl; lia|].
    rewrite !length_app in Hl. simpl in Hl. rewrite !head_after_snoc in He.
    destruct (next_head_inj _ _ _ _ (head_after_no_newline ds) (head_after_no_newline ds') He)
      as [[Hh ->]|?]; [|by right].
    destruct (IH ds' ltac:(lia) Hh) as [->|?]; [by left|by right].
Qed.

(** ** Bootstrap *)

(** The shape check of each action reaches its parameters. *)
Lemma plan_action_params plan action :
  validate_plan plan = true -> action ∈ items_of plan.["actions"] ->
  exists kind, action.["kind"] = VString kind /\ params_ok kind (get action "params") = true.
Proof.
  unfold validate_plan, PLAN. intros [Hp _]%andb_true_iff Hin.
  apply check_object_field with (name := "actions") (shape := Custom actions_shape) in Hp; [|set_solver].
  cbn [check] in Hp. unfold actions_shape in Hp. apply is_some_and_true in Hp as (items & Hi & Hp).
  unfold items_of in Hin. rewrite Hi in Hin. simpl in Hin. bsplit.
  match goal with H : forallb _ _ = true |- _ =>
    rewrite forallb_Forall, Forall_forall in H; specialize (H _ Hin); simpl in H;
    apply is_some_and_true in H as (m & Hm & H) end.
  apply as_object_Some in Hm as ->. bsplit.
  match goal with H : is_some_and _ _ = true |- _ => apply is_some_and_true in H as (kind & Hk & Hok) end.
  exists kind. unfold idx, get. destruct (bget "kind" m) as [v|]; [|done]. simpl.
  apply as_str_Some in Hk as ->. done.
Qed.

Lemma all_enumerated_head {A} (f : nat -> A -> bool) x l :
  all_enumerated f 0 (x :: l) = true -> f 0%nat x = true.
Proof. cbn [all_enumerated]. by intros [? _]%andb_true_iff. Qed.

(** The parameters of a [server.add] that is the first action of a valid plan. *)
Lemma server_add_params plan action rest :
  validate_plan plan = true -> items_of plan.["actions"] = action :: rest ->
  action.["kind"] = VString "server.add" ->
  check (Pattern uuid7) action.["params"].["server_id"] = true /\
  check KEY_ENTRY action.["params"].["owner_key"] = true /\
  is_null action.["params"].["owner_key"].["added_by"] = true /\
  key_scope_shape_ok action.["params"].["owner_key"] = true.
Proof.
  intros Hv Ha Hk.
  destruct (plan_action_params plan action Hv) as (kind & Hk' & Hp); [rewrite Ha; apply list_elem_of_here|].
  assert (kind = "server.add") as -> by congruence.
  unfold params_ok in Hp. destruct (get action "params") as [p|] eqn:Hg; [|done].
  assert (action.["params"] = p) as Hpar by (unfold idx; by rewrite Hg). rewrite !Hpar.
  destruct (as_object p) as [m|] eqn:Hm; [|done]. apply as_object_Some in Hm as ->.
  change (remove_optional (optional_params_for "server.add") m) with (Some m) in Hp.
  change (params_of "server.add" (Some (VObject m))) with
    (Some [("server_id", UUID7); ("ssh_host_key_digest_hex", HEX64); ("owner_key", KEY_ENTRY);
           ("bundle_manifest_digest_hex", HEX64); ("age_recipient_fingerprint", HEX64)]) in Hp.
  assert (action_rules_hold plan 0 action = true) as Hr.
  { unfold validate_plan in Hv. apply andb_true_iff in Hv as [_ Hv]. unfold plan_rules_hold in Hv.
    rewrite Ha in Hv. repeat (destruct (negb _) in Hv; [done|]).
    destruct (Bool.eqb _ _) in Hv; [done|]. repeat (destruct (negb _) in Hv; [done|]).
    apply andb_true_iff in Hv as [Hv _]. by apply all_enumerated_head in Hv. }
  unfold action_rules_hold in Hr. rewrite Hk, Hpar in Hr. cbn [str_or_default as_str from_option id] in Hr.
  change (str_or_default (VString "server.add")) with "server.add" in Hr. rewrite String.eqb_refl in Hr.
  bsplit. split_and!; try done.
  - apply check_object_field with (name := "server_id") (shape := UUID7) in Hp; [done|set_solver].
  - apply check_object_field with (name := "owner_key") (shape := KEY_ENTRY) in Hp; [done|set_solver].
Qed.

Lemma bootstrap_document_eq sid owner :
  bootstrap_document sid owner =
  VObject [("keys", VArray [owner]); ("revocations", VArray []); ("server_id", VString sid);
           ("version", VNumber (PosInt 1))].
Proof. reflexivity. Qed.

Lemma bootstrap_document_valid sid owner pk key_id mode :
  uuid7 sid = true -> check KEY_ENTRY owner = true -> as_str owner.["key_id"] = Some key_id ->
  parse_spki_base64 (str_or_default owner.["spki"]) = Some pk -> pk_key_id pk = key_id ->
  key_scope_shape_ok owner = true -> is_null owner.["added_by"] = true ->
  eq_str owner.["role"] "owner" = true -> is_production mode && contains_str TEST_KEY_IDS key_id = false ->
  exists store, validate_trust (bootstrap_document sid owner) mode = Ok store.
Proof.
  intros Hsid Hent Hid Hpk Hkid Hscope Hadd Hrole Htest. rewrite bootstrap_document_eq. unfold validate_trust.
  assert (check TRUST_FILE (VObject [("keys", VArray [owner]); ("revocations", VArray []);
    ("server_id", VString sid); ("version", VNumber (PosInt 1))]) = true) as ->.
  { unfold TRUST_FILE. rewrite check_Object. unfold check_object. cbn [as_object forallb].
    rewrite !andb_true_iff. split_and!; try reflexivity; [exact Hsid|].
    change (check KEY_ENTRY owner && true = true). by rewrite Hent. }
  cbn [ok_or obind as_array]. change (as_array _) with (Some [owner]) at 1. cbn [ok_or obind].
  change (negb (lenl [owner] =? 0)) with true. cbn [fold_each]. unfold load_key at 1.
  rewrite Hid, Hpk. cbn [ok_or obind]. rewrite Hkid, String.eqb_refl. cbn [bcontains bget is_some negb].
  change (bcontains key_id []) with false. cbn [negb]. rewrite Hscope, Htest, Hadd, Hrole.
  cbn [negb andb obind]. change (as_array _) with (Some (@nil Value)). cbn [ok_or obind fold_each binsert app].
  unfold cascade_step. cbn [bget]. rewrite String.eqb_refl. cbn [obind].
  change (as_str _) with (Some sid). cbn [ok_or obind]. eauto.
Qed.

Lemma singleton_list {A} (l : list A) : (lenl l =? 1) = true -> exists x, l = [x].
Proof.
  unfold lenl. rewrite Z.eqb_eq. destruct l as [|x [|y l]]; intros H; [done|by exists x|].
  exfalso. cbn in H. lia.
Qed.

(** Bootstrap: an accepted bootstrap plan is the owner's own: it is
    signed by the owner key it installs, in time, for this server's host key
    and age recipient; and (unless it names a public TEST key) the trust file
    it asks for is then valid, so the write that follows cannot be refused. *)
Theorem verify_bootstrap_installs text host_key_digests age_recipient now bp mode :
  verify_bootstrap text host_key_digests age_recipient now = Ok bp ->
  exists plan signature canonical key raw,
    parse_envelope text = Ok (plan, [signature]) /\ canonicalize plan = Some canonical /\
    parse_spki_base64 (str_or_default (bp_owner_key bp).["spki"]) = Some key /\
    (bp_owner_key bp).["key_id"] = VString (pk_key_id key) /\
    (match as_str signature.["sig"] with Some t => b64url_decode t | None => None end) = Some raw /\
    verify_prehash key (prefixed_digest PLAN_PREFIX canonical) raw = true /\
    check_time plan now = Ok tt /\ age_recipient <> "" /\
    (is_production mode && contains_str TEST_KEY_IDS (pk_key_id key) = false ->
     apply_change None (Bootstrap (bp_server_id bp) (bp_owner_key bp)) mode =
       Ok (bootstrap_document (bp_server_id bp) (bp_owner_key bp))).
Proof.
  unfold verify_bootstrap. intros Hb. inv_ok Hb. destruct x as [plan signatures].
  destruct (parse_envelope text) as [[plan' signatures']| |] eqn:Henv; [|done..].
  simpl in Hx. injection Hx as -> ->. inv_ok Hb. subst bp. cbn [bp_owner_key bp_server_id].
  bsplit. destruct (singleton_list signatures) as [signature ->]; [done|].
  destruct (parse_envelope_Ok _ _ _ Henv) as (Hval & _).
  destruct (singleton_list (items_of plan.["actions"])) as [action Hact]; [done|].
  assert (idx_n plan.["actions"] 0 = action) as Hidx.
  { unfold items_of, as_array in Hact. destruct plan.["actions"]; simplify_eq/=; done. }
  rewrite Hidx in *. destruct x2. cbn [lookup list_lookup from_option id] in *.
  repeat match goal with H : eq_str _ _ = true |- _ => apply eq_str_true in H end.
  destruct (server_add_params plan action [] Hval Hact ltac:(done)) as (Hs1 & Hs2 & Hs3 & Hs4).
  destruct (parse_spki_base64 (str_or_default action.["params"].["owner_key"].["spki"])) as [key|] eqn:Hkey; [|done].
  destruct (eq_str action.["params"].["owner_key"].["key_id"] (pk_key_id key)) eqn:Hkid; [|done].
  injection Hx as <-. apply eq_str_true in Hkid.
  exists plan, signature, x0, key, x1. split_and!; try done.
  - match goal with H : is_empty _ = false |- _ => intros ->; done end.
  - intros Htest. unfold apply_change. cbn [changed_document obind].
    apply check_Pattern_str in Hs1 as (sid & Hsid & Huuid).
    unfold str_or_default at 1. rewrite Hsid. cbn [from_option id].
    destruct (bootstrap_document_valid sid action.["params"].["owner_key"] key (pk_key_id key) mode)
      as [store Hstore]; try done; [by rewrite Hkid|by apply eq_str_true|].
    unfold str_or_default. rewrite Hsid. cbn [from_option id]. rewrite Hstore. done.
Qed.

End facts.

(** ** Witnesses *)

#[local] Existing Instance toy_crypto.
#[local] Existing Instance canonical_reader.

Lemma admit_authentic_witness :
  vp_signers shell_vp <> [] /\
  exists signatures canonical, parse_envelope shell_text = Ok (vp_plan shell_vp, signatures) /\
    canonicalize (vp_plan shell_vp) = Some canonical /\
    vp_digest_hex shell_vp = hex (prefixed_digest PLAN_PREFIX canonical) /\
    Forall (signed_by (ctx_trust sample_context) (prefixed_digest PLAN_PREFIX canonical) signatures)
      (vp_signers shell_vp).
Proof.
  apply (admit_authentic shell_text [] Client sample_context shell_vp); vm_compute; reflexivity.
Defined.

Lemma admit_touch_id_witness :
  eq_str (vp_plan shell_vp).["author"].["kind"] "rule" = false /\
  exists signer, signer ∈ vp_signers shell_vp /\ signer.["role"] = VString "owner" /\
    signer.["presence"] <> VString "none".
Proof.
  apply (admit_touch_id shell_text [] Client sample_context shell_vp "shell.open");
    [vm_compute; reflexivity|apply contains_str_spec; vm_compute; reflexivity..].
Defined.

Lemma admit_kind_authorized_witness :
  exists signer, signer ∈ vp_signers shell_vp /\
    role_allows (str_or_default signer.["role"]) "shell.open" = true /\
    scope_covers signer (vp_plan shell_vp) = true /\
    (signer.["role"] = VString "ci" -> "shell.open" ∈ CI_KINDS) /\
    ("shell.open" = "operation.cancel" -> signer.["role"] = VString "ci" -> exists ids id,
       admission_signer_key_ids sample_context
         (str_or_default (idx_n (vp_plan shell_vp).["actions"] 0).["params"].["plan_id"])
         (str_or_default (idx_n (vp_plan shell_vp).["actions"] 0).["params"].["plan_digest_hex"])
           = Ok (Some ids) /\
       as_str signer.["key_id"] = Some id /\ id ∈ ids).
Proof.
  apply (admit_kind_authorized shell_text [] Client sample_context shell_vp "shell.open");
    [vm_compute; reflexivity..|apply contains_str_spec; vm_compute; reflexivity].
Defined.

Lemma admit_rule_plan_witness :
  AgentWebhook = AgentWebhook /\ vp_signers rule_vp = [] /\
  exists record, ctx_rule sample_context (str_or_default (vp_plan rule_vp).["invocation"].["rule_id"])
      = Ok (Some record) /\
    (exists canonical, canonicalize (rr_rule record) = Some canonical /\
       rr_digest_hex record = hex (prefixed_digest RULE_PREFIX canonical)) /\
    rr_revoked record = false /\ rr_created_by_key_id record ∉ ts_compromised (ctx_trust sample_context) /\
    Forall (fun kind => kind ∈ ["deploy"; "scale"] /\
      VString kind ∈ items_of (rr_rule record).["allowed_kinds"]) (plan_kinds (vp_plan rule_vp)) /\
    (exists a b, value_timestamp (rr_rule record).["not_before"] = Ok a /\
       value_timestamp (rr_rule record).["expires_at"] = Ok b /\ a <= ctx_now sample_context <= b) /\
    environment_protected sample_context (str_or_default (vp_plan rule_vp).["project_id"])
      (str_or_default (vp_plan rule_vp).["environment"]) = Ok false /\
    exists n, rule_invocations_last_hour sample_context (str_or_default (rr_rule record).["id"]) = Ok n /\
      Z.min n i64_max < default 0 (as_i64 (rr_rule record).["limits"].["max_invocations_per_hour"]).
Proof.
  apply (admit_rule_plan rule_text [spec_text spec_new] AgentWebhook sample_context rule_vp);
    vm_compute; reflexivity.
Defined.

Definition rule_action : Value := idx_n rule_plan.["actions"] 0.

Lemma admit_rule_specs_witness :
  exists record spec text base,
    ctx_rule sample_context (str_or_default (vp_plan rule_vp).["invocation"].["rule_id"]) = Ok (Some record) /\
    bget (str_or_default rule_action.["params"].["spec_digest_hex"]) (vp_specs rule_vp) = Some (spec, text) /\
    last_admitted_spec sample_context (action_service rule_action) = Ok (Some base) /\
    (forall k, k <> (if String.eqb "deploy" "deploy" then "image_digest_hex" else "replicas") ->
       spec.[k] = base.[k]) /\
    ("deploy" = "deploy" -> exists image,
       build_image sample_context (action_service rule_action)
         (str_or_default (vp_plan rule_vp).["invocation"].["evidence"].["commit_sha"]) = Ok (Some image) /\
       spec.["image_digest_hex"] = VString image) /\
    (forall max, as_i64 (rr_rule record).["limits"].["max_replicas"] = Some max ->
       default i64_max (as_i64 spec.["replicas"]) <= max).
Proof.
  apply (admit_rule_specs rule_text [spec_text spec_new] AgentWebhook sample_context rule_vp
    rule_action "deploy");
    [vm_compute; reflexivity|vm_compute; reflexivity|vm_compute; apply list_elem_of_here
    |vm_compute; reflexivity|apply list_elem_of_here].
Defined.

Lemma bind_specs_sound_witness :
  Forall (spec_entry_ok [spec_text spec_new]) (vp_specs rule_vp) /\
  (forall action kind, action ∈ items_of rule_plan.["actions"] -> action.["kind"] = VString kind ->
     kind ∈ SPEC_KINDS -> exists digest spec text,
       action.["params"].["spec_digest_hex"] = VString digest /\
       bget digest (vp_specs rule_vp) = Some (spec, text) /\
       spec.["service_id"] = action.["params"].["service_id"] /\
       (kind = "scale" -> spec.["replicas"] = action.["params"].["replicas"]) /\
       (spec_elevated spec = true -> exists elevate, elevate ∈ items_of rule_plan.["actions"] /\
          elevate.["kind"] = VString "service.elevate" /\
          elevate.["params"].["spec_digest_hex"] = VString digest)) /\
  (forall digest, is_some (bget digest (vp_specs rule_vp)) = true -> exists action,
     action ∈ items_of rule_plan.["actions"] /\ action.["params"].["spec_digest_hex"] = VString digest).
Proof. apply (bind_specs_sound rule_plan [spec_text spec_new]). vm_compute. reflexivity. Defined.

Lemma sample_context_total : context_total sample_context.
Proof. split; done. Qed.

Lemma verify_no_panic_witness : verify_signed_plan shell_text [] Client sample_context <> Panic.
Proof. apply verify_no_panic. apply sample_context_total. Defined.

(** The context after [shell_plan] was admitted. *)
Definition admitted_context : PolicyContext := {|
  ctx_now := now_0; ctx_trust := store_1;
  admission_digest := fun _ => Ok (Some (vp_digest_hex shell_vp));
  admission_signer_key_ids := admission_signer_key_ids sample_context; seen := seen sample_context;
  head := head sample_context; ctx_rule := ctx_rule sample_context;
  rule_invocations_last_hour := rule_invocations_last_hour sample_context;
  delivery := delivery sample_context; last_admitted_spec := last_admitted_spec sample_context;
  build_image := build_image sample_context; build_window := build_window sample_context;
  deployed_commit := deployed_commit sample_context; admission_scope := admission_scope sample_context;
  service_scope := service_scope sample_context; cron_scope := cron_scope sample_context;
  backup_policies := backup_policies sample_context;
  environment_protected := environment_protected sample_context |}.

Lemma deduped_sound_witness :
  admission_digest admitted_context plan_a = Ok (Some (vp_digest_hex shell_vp)) /\
  exists plan signatures canonical signers, parse_envelope shell_text = Ok (plan, signatures) /\
    str_or_default plan.["id"] = plan_a /\ canonicalize plan = Some canonical /\
    vp_digest_hex shell_vp = hex (prefixed_digest PLAN_PREFIX canonical) /\
    map_each (fun s => verify_signature s (prefixed_digest PLAN_PREFIX canonical)
      (ctx_trust admitted_context)) signatures = Ok signers /\
    check_time plan (ctx_now admitted_context) = Ok tt.
Proof. apply (deduped_sound shell_text [] Client). vm_compute. reflexivity. Defined.

Lemma head_commits_history_witness : ["d1"; "d2"] = ["d1"; "d2"] \/ sha_collision.
Proof. apply head_commits_history; reflexivity. Defined.

Lemma verify_bootstrap_installs_witness :
  exists plan signature canonical key raw,
    parse_envelope bootstrap_text = Ok (plan, [signature]) /\ canonicalize plan = Some canonical /\
    parse_spki_base64 (str_or_default owner_entry.["spki"]) = Some key /\
    owner_entry.["key_id"] = VString (pk_key_id key) /\
    (match as_str signature.["sig"] with Some t => b64url_decode t | None => None end) = Some raw /\
    verify_prehash key (prefixed_digest PLAN_PREFIX canonical) raw = true /\
    check_time plan now_0 = Ok tt /\ age_a <> "" /\
    (is_production Production && contains_str TEST_KEY_IDS (pk_key_id key) = false ->
     apply_change None (Bootstrap server_a owner_entry) Production =
       Ok (bootstrap_document server_a owner_entry)).
Proof.
  apply (verify_bootstrap_installs bootstrap_text [zero_hex] age_a now_0
    {| bp_server_id := server_a; bp_owner_key := owner_entry |} Production). vm_compute. reflexivity.
Defined.
