(* ===== verification/CronExpr.v ===== *)
(** * Cron schedules

    src/local/sched/cron_expr.rs: five-field expressions as bit sets and the
    search for fire times.  The jiff crate (civil dates, time zones) is third
    party code and is the class [Jiff].  The scheduler's parser accepts
    exactly the schedules the plan schema admits ([parse_accepts_admitted]). *)

From S2P Require Import Prelude RustStr Text Schema Actions.

Record Date := { year : Z; month : Z; day : Z }.
Record DateTime := { dt_date : Date; dt_hour : Z; dt_minute : Z }.

(** [AmbiguousOffset]. *)
Inductive offset_kind := Unambiguous | Fold | Gap.

Class Jiff := {
  TimeZone : Type;
  (** [Timestamp::from_second(s).ok()?.to_zoned(tz).date()]. *)
  local_date : TimeZone -> Z -> option Date;
  tomorrow : Date -> option Date;
  (** [date.weekday().to_sunday_zero_offset()]. *)
  sunday_zero_offset : Date -> Z;
  (** [DateTime::new(..).ok()] at second 0. *)
  datetime_new : Date -> Z -> Z -> option DateTime;
  (** [tz.to_ambiguous_timestamp(local)]: its offset, and [compatible()] in seconds. *)
  to_ambiguous : TimeZone -> DateTime -> offset_kind * option Z
}.

Definition SEARCH_DAYS : Z := 366 * 8 + 2.

Record CronExpr := {
  minutes : Z; hours : Z; days : Z; months : Z; weekdays : Z;
  dom_star : bool; dow_star : bool
}.

Definition FIELDS : list (Z * Z) := [(0, 59); (0, 23); (1, 31); (1, 12); (0, 7)].

Definition number (text : string) : option Z :=
  if in_range 1 2 (len text) && all_bytes is_ascii_digit text then parse_digits text else None.

(** The [while value <= end] loop.  Each round raises [value] by at least one,
    so [end - start + 1] rounds are enough ([item_bits_spec]). *)
Fixpoint item_bits (fuel : nat) (value last step bits : Z) : Z :=
  match fuel with
  | O => bits
  | S fuel =>
      if value <=? last
      then item_bits fuel (value + step) last step (Z.lor bits (Z.shiftl 1 value))
      else bits
  end.

(** The range and step of an item, before the bounds check. *)
Definition item_range (item : string) (low high : Z) : option (Z * Z * Z) :=
  let parsed := match split_once "/" item with
    | Some (range, step) =>
        match number step with
        | Some s => if 1 <=? s then Some (range, Some s) else None
        | None => None
        end
    | None => Some (item, None)
    end in
  match parsed with
  | None => None
  | Some (range, step) =>
      let bounds :=
        if String.eqb range "*" then Some (low, high)
        else match split_once "-" range with
        | Some (a, b) => opt_zip (number a) (number b)
        | None =>
            option_map (fun start => (start, if is_some step then high else start)) (number range)
        end in
      option_map (fun '(start, last) => (start, last, default 1 step)) bounds
  end.

Definition item (text : string) (low high : Z) : option Z :=
  match item_range text low high with
  | None => None
  | Some (start, last, step) =>
      if negb ((low <=? start) && (start <=? last) && (last <=? high)) then None
      else Some (item_bits (Z.to_nat (last - start + 1)) start last step 0)
  end.

Fixpoint field_parts (bits : Z) (parts : list string) (low high : Z) : option Z :=
  match parts with
  | [] => Some bits
  | part :: rest =>
      match item part low high with
      | Some b => field_parts (Z.lor bits b) rest low high
      | None => None
      end
  end.

Definition field (text : string) (bounds : Z * Z) : option Z :=
  field_parts 0 (split "," text) bounds.1 bounds.2.

(** The loop over the parts with [FIELDS[index]]. *)
Fixpoint parse_fields (parts : list string) (fields : list (Z * Z)) : option (list Z) :=
  match parts, fields with
  | part :: parts, bounds :: fields =>
      match field part bounds, parse_fields parts fields with
      | Some b, Some bs => Some (b :: bs)
      | _, _ => None
      end
  | _, _ => Some []
  end.

(** [bits as u32] and the like keep the low bits. *)
Definition truncate (width bits : Z) : Z := Z.land bits (Z.ones width).

Definition fold_sunday (weekdays : Z) : Z :=
  if negb (Z.land weekdays (Z.shiftl 1 7) =? 0)
  then Z.ldiff (Z.lor weekdays 1) (Z.shiftl 1 7) else weekdays.

Definition parse (expression : string) : option CronExpr :=
  match split " " expression with
  | [p0; p1; p2; p3; p4] =>
      match parse_fields [p0; p1; p2; p3; p4] FIELDS with
      | Some [b0; b1; b2; b3; b4] =>
          Some {| minutes := b0; hours := truncate 32 b1; days := truncate 32 b2;
                  months := truncate 16 b3; weekdays := truncate 8 (fold_sunday b4);
                  dom_star := starts_with "*" p2; dow_star := starts_with "*" p4 |}
      | _ => None
      end
  | _ => None
  end.

(** [bits & (1 << n) != 0]. *)
Definition has_bit (bits n : Z) : bool := negb (Z.land bits (Z.shiftl 1 n) =? 0).

Section fire.
Context {J : Jiff}.

Definition day_matches (e : CronExpr) (date : Date) : bool :=
  let dom := has_bit (days e) (day date) in
  let dow := has_bit (weekdays e) (sunday_zero_offset date) in
  if dom_star e || dow_star e then dom && dow else dom || dow.

Definition first_occurrence (tz : TimeZone) (local : DateTime) : option Z :=
  match to_ambiguous tz local with
  | (Unambiguous, at_) | (Fold, at_) => at_
  | (Gap, _) => None
  end.

(** What one minute of the day does to the search of [first_on]: go on, or
    return from it. *)
Inductive probe := Continue | Return (result : option Z).

Definition probe_minute (e : CronExpr) (tz : TimeZone) (date : Date) (after hour minute : Z) : probe :=
  if negb (has_bit (minutes e) minute) then Continue
  else match datetime_new date hour minute with
  | None => Return None
  | Some local =>
      match first_occurrence tz local with
      | Some at_ => if after <? at_ then Return (Some at_) else Continue
      | None => Continue
      end
  end.

Fixpoint probe_list {A} (f : A -> probe) (l : list A) : probe :=
  match l with
  | [] => Continue
  | x :: rest => match f x with Continue => probe_list f rest | r => r end
  end.

Definition range (n : nat) : list Z := Z.of_nat <$> seq 0 n.

Definition first_on (e : CronExpr) (tz : TimeZone) (date : Date) (after : Z) : option Z :=
  match probe_list (fun hour =>
          if negb (has_bit (hours e) hour) then Continue
          else probe_list (probe_minute e tz date after hour) (range 60)) (range 24) with
  | Return r => r
  | Continue => None
  end.

Fixpoint search_days (fuel : nat) (e : CronExpr) (tz : TimeZone) (date : Date) (after : Z) : option Z :=
  match fuel with
  | O => None
  | S fuel =>
      let found :=
        if has_bit (months e) (month date) && day_matches e date then first_on e tz date after else None in
      match found with
      | Some at_ => Some at_
      | None =>
          match tomorrow date with
          | Some date => search_days fuel e tz date after
          | None => None
          end
      end
  end.

Definition next_after (e : CronExpr) (tz : TimeZone) (after : Z) : option Z :=
  match local_date tz after with
  | None => None
  | Some date => search_days (Z.to_nat SEARCH_DAYS) e tz date after
  end.

(** The [while count < count_limit] loop, [fuel] rounds left. *)
Fixpoint fire_loop (fuel : nat) (e : CronExpr) (tz : TimeZone) (to limit : Z) (out : list Z)
    (count cursor : Z) : list Z * Z :=
  match fuel with
  | O => (out, count)
  | S fuel =>
      match next_after e tz cursor with
      | None => (out, count)
      | Some next =>
          if to <? next then (out, count)
          else fire_loop fuel e tz to limit (if lenl out <? limit then out ++ [next] else out)
                 (count + 1) next
      end
  end.

Definition fire_times (e : CronExpr) (tz : TimeZone) (from to limit count_limit : Z) : list Z * Z :=
  fire_loop (Z.to_nat count_limit) e tz to limit [] 0 from.

End fire.

(** ** The parser and the plan schema *)

Lemma number_cron_number t : number t = cron_number t.
Proof. done. Qed.

Lemma contains_byte_split_once b s : contains_byte b s = is_some (split_once b s).
Proof.
  unfold contains_byte. induction s as [|x s IH]; [done|]. cbn [all_bytes split_once].
  destruct (Ascii.eqb x b); [done|]. cbn [negb andb]. rewrite IH. by destruct (split_once b s) as [[]|].
Qed.

Lemma item_accepts text low high : is_some (item text low high) = cron_item text low high.
Proof.
  unfold item, item_range, cron_item. rewrite contains_byte_split_once.
  destruct (split_once "/" text) as [[range step]|]; cbn [is_some_and is_some].
  - rewrite number_cron_number. destruct (cron_number step) as [s|]; [|done]. cbn [is_none_or].
    rewrite Z.ltb_antisym. destruct (1 <=? s); [|done]. cbn [negb].
    destruct (String.eqb range "*"); [simpl; by destruct (_ && _)|].
    destruct (split_once "-" range) as [[a b]|]; rewrite ?number_cron_number.
    + destruct (opt_zip _ _) as [[x y]|]; [|done]. simpl. by destruct (_ && _).
    + destruct (cron_number range); [|done]. simpl. by destruct (_ && _).
  - destruct (String.eqb text "*"); [simpl; by destruct (_ && _)|].
    destruct (split_once "-" text) as [[a b]|]; rewrite ?number_cron_number.
    + destruct (opt_zip _ _) as [[x y]|]; [|done]. simpl. by destruct (_ && _).
    + destruct (cron_number text); [|done]. simpl. by destruct (_ && _).
Qed.

Lemma field_parts_accepts parts bits low high :
  is_some (field_parts bits parts low high) = forallb (fun i => cron_item i low high) parts.
Proof.
  revert bits; induction parts as [|p parts IH]; intros bits; [done|]. cbn [field_parts forallb].
  rewrite <- item_accepts. destruct (item p low high); [|done]. simpl. apply IH.
Qed.

Lemma parse_fields_length parts fields bs :
  parse_fields parts fields = Some bs -> length bs = Nat.min (length parts) (length fields).
Proof.
  revert fields bs; induction parts as [|p parts IH]; intros [|b fields] bs; try (by intros [= <-]).
  cbn [parse_fields]. destruct (field p b); [|done]. destruct (parse_fields parts fields) eqn:Hp; [|done].
  intros [= <-]. simpl. f_equal. by apply IH.
Qed.

Lemma parse_fields_accepts parts fields :
  is_some (parse_fields parts fields) =
  forallb (fun '(f, (low, high)) => forallb (fun i => cron_item i low high) (split "," f)) (zip parts fields).
Proof.
  revert fields; induction parts as [|p parts IH]; intros [|[low high] fields]; try done.
  cbn [parse_fields]. change (zip (p :: parts) ((low, high) :: fields)) with ((p, (low, high)) :: zip parts fields).
  cbn [forallb]. rewrite <- IH, <- (field_parts_accepts _ 0). unfold field. cbn [fst snd].
  destruct (field_parts 0 (split "," p) low high); [|done]. by destruct (parse_fields parts fields).
Qed.

(** One grammar: the scheduler parses a cron expression exactly when
    the plan schema admits it, so an admitted schedule always runs and the
    scheduler accepts nothing a plan could not carry. *)
Theorem parse_accepts_admitted expression : is_some (parse expression) = cron_parses expression.
Proof.
  unfold parse, cron_parses. change CRON_FIELDS with FIELDS.
  destruct (split " " expression) as [|p0 [|p1 [|p2 [|p3 [|p4 [|p5 l]]]]]]; try done.
  - change (lenl [p0; p1; p2; p3; p4] =? 5) with true. cbn [andb]. rewrite <- parse_fields_accepts.
    destruct (parse_fields _ FIELDS) as [bs|] eqn:Hp; [|done].
    apply parse_fields_length in Hp. simpl in Hp.
    destruct bs as [|b0 [|b1 [|b2 [|b3 [|b4 [|]]]]]]; done.
  - replace (lenl (p0 :: p1 :: p2 :: p3 :: p4 :: p5 :: l) =? 5) with false; [done|].
    rewrite !lenl_cons. pose proof (lenl_nonneg l). lia.
Qed.

(** ** Bit sets *)

Lemma item_bits_spec fuel value last step bits v :
  1 <= step -> 0 <= value -> Z.max 0 (last - value + 1) <= Z.of_nat fuel -> 0 <= v ->
  Z.testbit (item_bits fuel value last step bits) v =
  Z.testbit bits v || ((value <=? v) && (v <=? last) && ((v - value) mod step =? 0)).
Proof.
  intros Hstep. revert value bits; induction fuel as [|fuel IH]; intros value bits Hv Hf Hp; cbn [item_bits].
  - replace ((value <=? v) && (v <=? last)) with false by lia. by rewrite orb_false_r.
  - destruct (Z.leb_spec value last) as [Hle|Hgt].
    + rewrite IH by lia. rewrite Z.lor_spec, Z.shiftl_spec by lia.
      replace (Z.testbit 1 (v - value)) with (v =? value).
      2:{ destruct (Z.eqb_spec v value) as [->|]; [by rewrite Z.sub_diag|].
          destruct (Z_lt_ge_dec (v - value) 0); [by rewrite Z.testbit_neg_r by lia|].
          change 1 with (Z.ones 1). rewrite Z.ones_spec_high by lia. done. }
      destruct (Z.eqb_spec v value) as [->|Hne].
      * rewrite Z.sub_diag, Z.mod_0_l by lia. rewrite orb_true_r. simpl. lia.
      * rewrite orb_false_r. f_equal. replace (v - (value + step)) with (v - value + (-1) * step) by lia.
        rewrite Z.mod_add by lia. destruct (Z.leb_spec (value + step) v); simpl.
        -- replace (value <=? v) with true by lia. done.
        -- destruct (Z.leb_spec value v); [|done]. simpl. rewrite Z.mod_small by lia. lia.
    + replace ((value <=? v) && (v <=? last)) with false by lia. by rewrite orb_false_r.
Qed.

(** What an item denotes: the values from [start] to [last] in steps. *)
Definition item_denotes (text : string) (low high v : Z) : Prop :=
  exists start last step, item_range text low high = Some (start, last, step) /\
    start <= v <= last /\ (v - start) mod step = 0.

Lemma parse_digits_nonneg t n : parse_digits t = Some n -> 0 <= n.
Proof.
  unfold parse_digits. destruct (_ && _) eqn:Hc; [|done]. intros [= <-]. bsplit.
  unfold dec_value. assert (forall s acc, all_bytes is_ascii_digit s = true -> 0 <= acc ->
    0 <= dec_value_acc acc s) as Hd; [|by apply Hd; [|lia]].
  induction s as [|b s IH]; intros acc Hs Ha; [done|]. cbn [all_bytes dec_value_acc] in *. bsplit.
  apply IH; [done|]. unfold digit_value, is_ascii_digit in *. rewrite between_spec in *. lia.
Qed.

Lemma number_nonneg t n : number t = Some n -> 0 <= n.
Proof. unfold number. destruct (_ && _); [|done]. apply parse_digits_nonneg. Qed.

Lemma item_range_step text low high start last step :
  item_range text low high = Some (start, last, step) -> 1 <= step.
Proof.
  unfold item_range. intros H.
  destruct (split_once "/" text) as [[range s]|].
  - destruct (number s) as [n|]; [|done]. destruct (Z.leb_spec 1 n); [|done].
    destruct (if String.eqb range "*" then _ else _) as [[a b]|]; [|done]. by simplify_eq/=.
  - destruct (if String.eqb text "*" then _ else _) as [[a b]|]; [|done]. by simplify_eq/=.
Qed.

Lemma item_testbit text low high bits v :
  0 <= low -> item text low high = Some bits -> 0 <= v ->
  Z.testbit bits v = true <-> item_denotes text low high v.
Proof.
  intros Hlow. unfold item, item_denotes.
  destruct (item_range text low high) as [[[start last] step]|] eqn:Hr; [|done].
  destruct (_ && _) eqn:Hc; [|done]. intros [= <-] Hv. bsplit.
  rewrite item_bits_spec; [|by eapply item_range_step|lia..].
  rewrite Z.bits_0. simpl. rewrite !andb_true_iff, !Z.leb_le, Z.eqb_eq. split.
  - intros [[? ?] ?]. exists start, last, step. done.
  - intros (? & ? & ? & [= <- <- <-] & ? & ?). done.
Qed.

Lemma field_parts_testbit parts bits low high bits' v :
  0 <= low -> field_parts bits parts low high = Some bits' -> 0 <= v ->
  Z.testbit bits' v = true <-> Z.testbit bits v = true \/ Exists (fun t => item_denotes t low high v) parts.
Proof.
  intros Hlow. revert bits; induction parts as [|t parts IH]; intros bits; cbn [field_parts].
  - intros [= <-] _. rewrite Exists_nil. tauto.
  - destruct (item t low high) as [b|] eqn:Hi; [|done]. intros Hf Hv. rewrite (IH _ Hf Hv).
    rewrite Z.lor_spec, orb_true_iff, Exists_cons, (item_testbit _ _ _ _ _ Hlow Hi Hv). tauto.
Qed.

(** A parsed field is the set it says: bit [v] of the field's word is
    set exactly when one of the comma-separated items covers [v], by range
    and step. *)
Theorem field_testbit text low high bits v :
  0 <= low -> field text (low, high) = Some bits -> 0 <= v ->
  Z.testbit bits v = true <-> Exists (fun t => item_denotes t low high v) (split "," text).
Proof.
  intros Hlow Hf Hv. unfold field in Hf. simpl in Hf.
  rewrite (field_parts_testbit _ _ _ _ _ v Hlow Hf Hv), Z.bits_0. intuition done.
Qed.

Lemma field_testbit_witness :
  Z.testbit 35184372088832 45 = true <-> Exists (fun t => item_denotes t 0 59 45) (split "," "45").
Proof. apply field_testbit; [lia|vm_compute; reflexivity|lia]. Defined.

(** ** Fire times *)

Section fire_facts.
Context {J : Jiff}.

Lemma probe_list_return {A} (f : A -> probe) (P : Z -> Prop) l at_ :
  (forall x, f x = Return (Some at_) -> P at_) -> probe_list f l = Return (Some at_) -> P at_.
Proof.
  intros Hf. induction l as [|x l IH]; [done|]. cbn [probe_list]. destruct (f x) eqn:Hx; [done|].
  intros [= ->]. by apply (Hf x).
Qed.

Lemma next_after_later e tz after at_ : next_after e tz after = Some at_ -> after < at_.
Proof.
  unfold next_after. destruct (local_date tz after) as [date|]; [|done].
  generalize (Z.to_nat SEARCH_DAYS). intros fuel. revert date.
  induction fuel as [|fuel IH]; intros date; cbn [search_days]; [done|].
  destruct (if _ && _ then first_on e tz date after else None) as [a|] eqn:Hf.
  - intros [= ->]. destruct (_ && _); [|done]. unfold first_on in Hf.
    destruct (probe_list _ (range 24)) as [|r] eqn:Hp; [done|]. subst r.
    revert Hp. apply (probe_list_return _ (fun a => after < a)). intros h.
    destruct (negb _); [done|]. apply (probe_list_return _ (fun a => after < a)). intros mi.
    unfold probe_minute. destruct (negb _); [done|]. destruct (datetime_new _ _ _); [|done].
    destruct (first_occurrence _ _) as [a|]; [|done]. destruct (Z.ltb_spec after a); [|done].
    by intros [= ->].
  - destruct (tomorrow date); [|done]. apply IH.
Qed.

(** The fire times after [cursor], one by one. *)
Inductive fires (e : CronExpr) (tz : TimeZone) : Z -> list Z -> Z -> Prop :=
| fires_nil cursor : fires e tz cursor [] cursor
| fires_cons cursor next l last :
    next_after e tz cursor = Some next -> fires e tz next l last -> fires e tz cursor (next :: l) last.

Lemma fires_sorted e tz cursor l last :
  fires e tz cursor l last -> StronglySorted Z.lt l /\ Forall (fun t => cursor < t) l /\ cursor <= last.
Proof.
  induction 1 as [|cursor next l last Hn Hf (IH1 & IH2 & IH3)].
  - split_and!; [constructor|constructor|lia].
  - apply next_after_later in Hn. split_and!.
    + by constructor.
    + constructor; [done|]. eapply Forall_impl; [exact IH2|]. simpl. lia.
    + lia.
Qed.

Lemma fire_loop_fires fuel e tz to limit out count cursor out' count' :
  0 <= limit ->
  fire_loop fuel e tz to limit out count cursor = (out', count') -> lenl out = Z.min count limit -> 0 <= count ->
  exists l last, fires e tz cursor l last /\ count' = count + lenl l /\ lenl l <= Z.of_nat fuel /\
    Forall (fun t => t <= to) l /\
    out' = out ++ take (Z.to_nat (limit - lenl out)) l /\
    (lenl l < Z.of_nat fuel -> next_after e tz last = None \/ exists t, next_after e tz last = Some t /\ to < t).
Proof.
  intros Hlim. revert out count cursor; induction fuel as [|fuel IH]; intros out count cursor; cbn [fire_loop].
  - intros [= <- <-] Hl Hc. exists [], cursor. rewrite take_nil, app_nil_r.
    split_and!; try done; try apply fires_nil; unfold lenl; simpl; lia.
  - destruct (next_after e tz cursor) as [next|] eqn:Hn.
    2:{ intros [= <- <-] Hl Hc. exists [], cursor. rewrite take_nil, app_nil_r.
        split_and!; try done; try apply fires_nil; [unfold lenl; simpl; lia..|by left]. }
    destruct (Z.ltb_spec to next) as [Hto|Hto].
    { intros [= <- <-] Hl Hc. exists [], cursor. rewrite take_nil, app_nil_r.
      split_and!; try done; try apply fires_nil; [unfold lenl; simpl; lia..|].
      intros _. right. by exists next. }
    intros Hf Hl Hc. apply IH in Hf; [|destruct (Z.ltb_spec (lenl out) limit);
      rewrite ?lenl_app; [change (lenl [next]) with 1|]; lia|lia].
    destruct Hf as (l & last & Hfi & -> & Hlen & Hall & -> & Hend).
    exists (next :: l), last. rewrite lenl_cons. split_and!; [by econstructor|lia|lia|by constructor| |].
    + destruct (Z.ltb_spec (lenl out) limit) as [Hlt|Hge].
      * rewrite lenl_app. change (lenl [next]) with 1.
        replace (Z.to_nat (limit - lenl out)) with (S (Z.to_nat (limit - (lenl out + 1)))) by lia.
        rewrite <- app_assoc. done.
      * replace (Z.to_nat (limit - lenl out)) with 0%nat by lia. done.
    + intros Hlt. apply Hend. lia.
Qed.

(** Catch-up: [fire_times] walks the fire times after [from] one by one
    without skipping any: they are strictly increasing, all in [(from, to]],
    the first [limit] of them are returned and all are counted, and when the
    count stays below its limit the next fire time is after [to] (or there is
    none). *)
Theorem fire_times_spec e tz from to limit count_limit out count :
  0 <= limit -> 0 <= count_limit ->
  fire_times e tz from to limit count_limit = (out, count) ->
  exists l last, fires e tz from l last /\ out = take (Z.to_nat limit) l /\ count = lenl l /\
    count <= count_limit /\ StronglySorted Z.lt l /\ Forall (fun t => from < t <= to) l /\
    (count < count_limit -> next_after e tz last = None \/ exists t, next_after e tz last = Some t /\ to < t).
Proof.
  intros Hlim Hcl Hf. unfold fire_times in Hf.
  apply fire_loop_fires in Hf as (l & last & Hfi & -> & Hlen & Hall & -> & Hend); [|done|unfold lenl; simpl; lia|lia].
  destruct (fires_sorted _ _ _ _ _ Hfi) as (Hs & Hgt & _). exists l, last.
  split_and!; try done; try lia.
  - unfold lenl at 1. simpl. by rewrite Z.sub_0_r.
  - rewrite Forall_forall in *. intros t Ht. split; [by apply Hgt|by apply Hall].
  - intros Hlt. apply Hend. lia.
Qed.
End fire_facts.

(** A time zone at UTC on a calendar with one day per date number, for evaluation. *)
Definition toy_jiff : Jiff := {|
  TimeZone := unit;
  local_date := fun _ s => Some {| year := 0; month := 1; day := s / 86400 |};
  tomorrow := fun d => if day d <? 31 then Some {| year := 0; month := 1; day := day d + 1 |} else None;
  sunday_zero_offset := fun d => day d mod 7;
  datetime_new := fun d h mi => Some {| dt_date := d; dt_hour := h; dt_minute := mi |};
  to_ambiguous := fun _ l => (Unambiguous,
    Some (day (dt_date l) * 86400 + dt_hour l * 3600 + dt_minute l * 60))
|}.

Definition sample_cron : CronExpr :=
  default {| minutes := 0; hours := 0; days := 0; months := 0; weekdays := 0; dom_star := true;
             dow_star := true |} (parse "*/20 3 * * *").

Lemma fire_times_spec_witness :
  exists l last, @fires toy_jiff sample_cron tt 86400 l last /\ [97200; 98400] = take (Z.to_nat 2) l /\
    3 = lenl l /\ 3 <= 10 /\ StronglySorted Z.lt l /\ Forall (fun t => 86400 < t <= 100000) l /\
    (3 < 10 -> @next_after toy_jiff sample_cron tt last = None \/
      exists t, @next_after toy_jiff sample_cron tt last = Some t /\ 100000 < t).
Proof. apply (@fire_times_spec toy_jiff); [lia|lia|vm_compute; reflexivity]. Defined.
