(* ===== verification/Budget.v ===== *)
(** * Webhook budgets

    src/local/hooks/limits.rs: the sliding one-minute windows of the webhook
    intake.  The lock makes each [admit_request] atomic, so a run of the intake is a
    sequence of calls; their times are those of the clock, which is assumed
    not to go back within a run. *)

From S2P Require Import Prelude RustStr.

Definition WINDOW_SECONDS : Z := 60.
Definition MAX_KEYS : Z := 4096.

Record State := { keys : gmap string (list Z); server : list Z }.
Record Budget := { per_key : Z; per_server : Z; state : State }.

(** [while front().is_some_and(..) { pop_front() }]. *)
Fixpoint trim (window : list Z) (now : Z) : list Z :=
  match window with
  | at_ :: rest => if WINDOW_SECONDS <=? now - at_ then trim rest now else window
  | [] => []
  end.

Definition new (per_key per_server : Z) : Budget :=
  {| per_key := per_key; per_server := per_server; state := {| keys := ∅; server := [] |} |}.

Definition pre_auth : Budget := new 30 600.
Definition deploy : Budget := new 60 600.

Definition set_state (b : Budget) (s : State) : Budget :=
  {| per_key := per_key b; per_server := per_server b; state := s |}.

(** [keys.retain(|_, window| { trim(window, now); !window.is_empty() })]. *)
Definition retain_keys (m : gmap string (list Z)) (now : Z) : gmap string (list Z) :=
  omap (fun window => match trim window now with [] => None | w => Some w end) m.

Definition admit_request (b : Budget) (key : string) (now : Z) : Budget * bool :=
  let server := trim (server (state b)) now in
  let st := {| keys := keys (state b); server := server |} in
  if per_server b <=? lenl server then (set_state b st, false)
  else
    let full := negb (is_some (keys st !! key)) && (MAX_KEYS <=? Z.of_nat (size (keys st))) in
    let ks := if full then retain_keys (keys st) now else keys st in
    if full && (MAX_KEYS <=? Z.of_nat (size ks))
    then (set_state b {| keys := ks; server := server |}, false)
    else
      let window := trim (default [] (ks !! key)) now in
      if per_key b <=? lenl window
      then (set_state b {| keys := <[key := window]> ks; server := server |}, false)
      else (set_state b {| keys := <[key := window ++ [now]]> ks; server := server ++ [now] |}, true).

(** ** Runs *)

(** A run of calls: the budget after them and the log of those admitted. *)
Inductive run (b0 : Budget) : Budget -> list (string * Z) -> Z -> Prop :=
| run_start now : run b0 b0 [] now
| run_admit b log last key now b' ok :
    run b0 b log last -> last <= now -> admit_request b key now = (b', ok) ->
    run b0 b' (if ok then log ++ [(key, now)] else log) now.

Definition times (log : list (string * Z)) : list Z := snd <$> log.
Definition of_key (key : string) (log : list (string * Z)) : list (string * Z) :=
  filter (fun e => e.1 = key) log.

(** Calls of [l] in the minute that ends at [now]. *)
Definition recent (now : Z) (l : list Z) : list Z := filter (fun t => now - WINDOW_SECONDS < t) l.

(** [w] is what is left of the times [l] once old ones are dropped. *)
Definition covers (last : Z) (l w : list Z) : Prop :=
  exists old, l = old ++ w /\ Forall (fun t => t <= last - WINDOW_SECONDS) old.

Lemma covers_later last now l w : last <= now -> covers last l w -> covers now l w.
Proof.
  intros Hle (old & -> & Hold). exists old. split; [done|]. eapply Forall_impl; [exact Hold|]. simpl. lia.
Qed.

Lemma trim_covers now l w : covers now l w -> covers now l (trim w now).
Proof.
  intros (old & -> & Hold). revert old Hold; induction w as [|t w IH]; intros old Hold; cbn [trim].
  - by exists old.
  - destruct (Z.leb_spec WINDOW_SECONDS (now - t)).
    + rewrite cons_middle, app_assoc. apply IH. apply Forall_app. split; [done|]. by constructor; [lia|].
    + by exists old.
Qed.

Lemma trim_recent now w : StronglySorted Z.le w -> Forall (fun t => now - WINDOW_SECONDS < t) (trim w now).
Proof.
  induction 1 as [|t w Hs IH Hf]; cbn [trim]; [constructor|].
  destruct (Z.leb_spec WINDOW_SECONDS (now - t)); [done|].
  constructor; [lia|]. eapply Forall_impl; [exact Hf|]. simpl. lia.
Qed.

Lemma sorted_app_r (l1 l2 : list Z) : StronglySorted Z.le (l1 ++ l2) -> StronglySorted Z.le l2.
Proof. induction l1 as [|x l1 IH]; [done|]. inversion 1; subst. auto. Qed.

Lemma recent_app now l1 l2 : recent now (l1 ++ l2) = recent now l1 ++ recent now l2.
Proof. apply filter_app. Qed.

Lemma recent_old now l : Forall (fun t => t <= now - WINDOW_SECONDS) l -> recent now l = [].
Proof.
  induction 1 as [|t l Ht Hl IH]; [done|]. unfold recent in *. rewrite filter_cons_False; [done|lia].
Qed.

(** The trimmed window of sorted times is exactly the recent ones. *)
Lemma trim_is_recent now l w : StronglySorted Z.le l -> covers now l w -> trim w now = recent now l.
Proof.
  intros Hs Hc. destruct (trim_covers _ _ _ Hc) as (old & -> & Hold).
  rewrite recent_app, (recent_old _ old Hold). simpl.
  assert (Forall (fun t => now - WINDOW_SECONDS < t) (trim w now)) as Hr.
  { destruct Hc as (old2 & He & _). rewrite He in Hs. apply trim_recent. by eapply sorted_app_r. }
  clear -Hr. unfold recent. induction Hr as [|t l Ht Hl IH]; [done|]. rewrite filter_cons_True by done. by rewrite <- IH.
Qed.

Lemma sorted_snoc l t : StronglySorted Z.le l -> Forall (fun x => x <= t) l -> StronglySorted Z.le (l ++ [t]).
Proof.
  induction 1 as [|x l Hs IH Hf]; intros Hall; simpl; [repeat constructor|].
  apply Forall_cons in Hall as [Hx Hall]. constructor; [by apply IH|].
  apply Forall_app. split; [done|]. by repeat constructor.
Qed.

(** ** The invariant of a run *)

Record budget_inv (b : Budget) (log : list (string * Z)) (last : Z) : Prop := {
  bi_sorted : StronglySorted Z.le (times log);
  bi_past : Forall (fun t => t <= last) (times log);
  bi_server : covers last (times log) (server (state b));
  bi_keys : forall key, covers last (times (of_key key log)) (default [] (keys (state b) !! key))
}.

Lemma sorted_of_key key log : StronglySorted Z.le (times log) -> StronglySorted Z.le (times (of_key key log)).
Proof.
  induction log as [|[k t] log IH]; [done|]. inversion 1 as [|? ? Hs Hf]; subst. unfold of_key.
  destruct (decide (k = key)) as [Hk|Hk].
  - rewrite filter_cons_True by done. constructor; [by apply IH|].
    apply Forall_fmap, Forall_forall. intros x [_ He]%list_elem_of_filter.
    rewrite Forall_forall in Hf. apply Hf. by apply (list_elem_of_fmap_2 snd).
  - rewrite filter_cons_False by done. by apply IH.
Qed.

Lemma times_snoc log key now : times (log ++ [(key, now)]) = times log ++ [now].
Proof. unfold times. by rewrite fmap_app. Qed.

Lemma of_key_snoc key key' log now :
  times (of_key key (log ++ [(key', now)])) =
  if decide (key' = key) then times (of_key key log) ++ [now] else times (of_key key log).
Proof.
  unfold of_key. rewrite filter_app. destruct (decide (key' = key)) as [->|Hne].
  - rewrite (filter_cons_True _ (key, now)) by done. by rewrite filter_nil, times_snoc.
  - rewrite (filter_cons_False _ (key', now)) by done. by rewrite filter_nil, app_nil_r.
Qed.

Lemma covers_snoc now l w : covers now l w -> covers now (l ++ [now]) (w ++ [now]).
Proof. intros (old & -> & Hold). exists old. by rewrite app_assoc. Qed.

Lemma retain_covers now l m key :
  covers now l (default [] (m !! key)) -> covers now l (default [] (retain_keys m now !! key)).
Proof.
  intros Hc. unfold retain_keys. rewrite lookup_omap. destruct (m !! key) as [w|]; [|done]. simpl in *.
  apply trim_covers in Hc. by destruct (trim w now).
Qed.

Lemma covers_nil_recent now l : StronglySorted Z.le l -> covers now l [] -> recent now l = [].
Proof. intros Hs Hc. by rewrite <- (trim_is_recent now l [] Hs Hc). Qed.

(** One call: it keeps the invariant, and if it is admitted both minutes
    that end now, the key's and the server's, are within budget. *)
Lemma admit_step b log last key now b' ok :
  budget_inv b log last -> last <= now -> admit_request b key now = (b', ok) ->
  let log' := if ok then log ++ [(key, now)] else log in
  budget_inv b' log' now /\ per_key b' = per_key b /\ per_server b' = per_server b /\
  (ok = true -> lenl (recent now (times log')) <= per_server b /\
                lenl (recent now (times (of_key key log'))) <= per_key b).
Proof.
  intros [Hs Hp Hsv Hks] Hle Ha log'.
  assert (Forall (fun t => t <= now) (times log)) as Hp'.
  { eapply Forall_impl; [exact Hp|]. simpl. lia. }
  pose proof (trim_covers now _ _ (covers_later _ _ _ _ Hle Hsv)) as Hsv'.
  assert (forall k, covers now (times (of_key k log)) (default [] (keys (state b) !! k))) as Hks'.
  { intros k. by eapply covers_later. }
  unfold admit_request in Ha. cbn [keys server] in Ha.
  destruct (Z.leb_spec (per_server b) (lenl (trim (server (state b)) now))) as [Hfull|Hroom].
  { injection Ha as <- <-. split_and!; [by split|done|done|done]. }
  set (full := negb _ && _) in Ha. set (ks := if full then _ else _) in Ha.
  assert (forall k, covers now (times (of_key k log)) (default [] (ks !! k))) as Hks2.
  { intros k. unfold ks. destruct full; [by apply retain_covers|done]. }
  destruct (full && _).
  { injection Ha as <- <-. split_and!; [by split|done|done|done]. }
  pose proof (trim_covers _ _ _ (Hks2 key)) as Hw.
  set (window := trim _ now) in *.
  assert (forall k w l, covers now l (if decide (key = k) then w else default [] (ks !! k)) ->
    covers now l (default [] (<[key := w]> ks !! k))) as Hins.
  { intros k w l. destruct (decide (key = k)) as [->|Hne].
    - by rewrite lookup_insert_eq.
    - by rewrite lookup_insert_ne. }
  destruct (Z.leb_spec (per_key b) (lenl window)) as [Hkfull|Hkroom].
  { injection Ha as <- <-. split_and!; [|done|done|done]. split; [done|done|done|].
    intros k. apply Hins. by destruct (decide (key = k)) as [->|]. }
  injection Ha as <- <-. split_and!; [|done|done|].
  - split; unfold log'; cbn [state keys server set_state]; rewrite ?times_snoc.
    + by apply sorted_snoc.
    + apply Forall_app. split; [done|]. by repeat constructor.
    + by apply covers_snoc.
    + intros k. rewrite of_key_snoc. apply Hins.
      destruct (decide (key = k)) as [->|]; [by apply covers_snoc|done].
  - intros _. unfold log'. rewrite times_snoc, of_key_snoc, decide_True by done.
    assert (recent now [now] = [now]) as Hnow.
    { unfold recent. rewrite filter_cons_True, filter_nil by (unfold WINDOW_SECONDS; lia). done. }
    rewrite !recent_app, Hnow, !lenl_app. change (lenl [now]) with 1.
    rewrite <- (trim_is_recent now (times log) _ Hs (covers_later _ _ _ _ Hle Hsv)).
    rewrite <- (trim_is_recent now _ _ (sorted_of_key key _ Hs) (Hks2 key)). fold window. lia.
Qed.

Lemma run_inv pk ps b log last :
  run (new pk ps) b log last -> budget_inv b log last /\ per_key b = pk /\ per_server b = ps.
Proof.
  induction 1 as [now|b log last key now b' ok Hr (IH & Hk & Hsv) Hle Ha].
  - split_and!; [|done|done]. split; simpl; [constructor|constructor|by exists []|].
    intros key. rewrite lookup_empty. by exists [].
  - destruct (admit_step _ _ _ _ _ _ _ IH Hle Ha) as (Hi & Hk' & Hs' & _). split_and!; [done|congruence..].
Qed.

(** Rate limit: whatever the sequence of requests, at the moment one is
    admitted the minute that ends then holds at most [per_server] admitted
    requests in all and at most [per_key] for its key; and a refused request
    is not counted. *)
Theorem budget_respected pk ps b log last key now b' :
  run (new pk ps) b log last -> last <= now -> admit_request b key now = (b', true) ->
  lenl (recent now (times (log ++ [(key, now)]))) <= ps /\
  lenl (recent now (times (of_key key (log ++ [(key, now)])))) <= pk.
Proof.
  intros Hr Hle Ha. destruct (run_inv _ _ _ _ _ Hr) as (Hi & Hk & Hs).
  destruct (admit_step _ _ _ _ _ _ _ Hi Hle Ha) as (_ & _ & _ & Hok).
  rewrite <- Hk, <- Hs. by apply Hok.
Qed.

Lemma budget_respected_witness :
  lenl (recent 7 (times ([] ++ [("a", 7)]))) <= 600 /\
  lenl (recent 7 (times (of_key "a" ([] ++ [("a", 7)])))) <= 30.
Proof.
  apply (budget_respected 30 600 pre_auth [] 0 "a" 7
    (set_state pre_auth {| keys := {[ "a" := [7] ]}; server := [7] |})); [apply run_start|lia|reflexivity].
Defined.

(** No starvation: a request is refused only for a reason: the server's
    minute is full, the key's own minute is full, or 4096 other keys were
    active within the minute.  Requests of other keys never use up a key's
    own budget. *)
Theorem refusal_reason pk ps b log last key now b' :
  run (new pk ps) b log last -> last <= now -> admit_request b key now = (b', false) ->
  ps <= lenl (recent now (times log)) \/
  pk <= lenl (recent now (times (of_key key log))) \/
  (keys (state b) !! key = None /\ MAX_KEYS <= Z.of_nat (size (retain_keys (keys (state b)) now))).
Proof.
  intros Hr Hle Ha. destruct (run_inv _ _ _ _ _ Hr) as ([Hs Hp Hsv Hks] & <- & <-).
  unfold admit_request in Ha. cbn [keys server] in Ha.
  rewrite <- (trim_is_recent now (times log) _ Hs (covers_later _ _ _ _ Hle Hsv)).
  destruct (Z.leb_spec (per_server b) (lenl (trim (server (state b)) now))) as [Hfull|Hroom]; [by left|right].
  destruct (negb (is_some (keys (state b) !! key)) && _) eqn:Hf in Ha; cbn [andb] in Ha.
  - bsplit. destruct (keys (state b) !! key) eqn:Hk; [done|].
    destruct (Z.leb_spec MAX_KEYS (Z.of_nat (size (retain_keys (keys (state b)) now)))) as [Hm|Hm]; [by right|].
    left. unfold retain_keys at 1 in Ha. rewrite lookup_omap, Hk in Ha. simpl in Ha.
    destruct (Z.leb_spec (per_key b) (lenl (@nil Z))) as [Hz|Hz]; [|done].
    pose proof (lenl_nonneg (recent now (times (of_key key log)))). unfold lenl in Hz. simpl in Hz. lia.
  - left. rewrite <- (trim_is_recent now _ _ (sorted_of_key key _ Hs) (covers_later _ _ _ _ Hle (Hks key))).
    destruct (Z.leb_spec (per_key b) (lenl (trim (default [] (keys (state b) !! key)) now))); [done|].
    by injection Ha.
Qed.

Lemma refusal_reason_witness :
  0 <= lenl (recent 7 (times [])) \/ 30 <= lenl (recent 7 (times (of_key "a" []))) \/
  (keys (state (new 30 0)) !! "a" = None /\
   MAX_KEYS <= Z.of_nat (size (retain_keys (keys (state (new 30 0))) 7))).
Proof. apply (refusal_reason 30 0 (new 30 0) [] 0 "a" 7 (new 30 0)); [apply run_start|lia|reflexivity]. Defined.
