(* ===== verification/SchemaFacts.v ===== *)
(** * Theorems about the plan schema

    Plans are closed: an accepted plan has exactly the members the catalog
    names.  The secret-name pattern of build arguments is the regular
    expression it stands for, relative paths stay below their base, and the
    loop over pinned certificates has fuel enough. *)

From S2P Require Import Prelude RustStr BTree Json Jcs Crypto Text Calendar Schema Actions Samples.

(** ** Closed objects *)

Section closed.
Context {CR : Crypto}.

Lemma bget_keys {V} k (m : bmap V) v : bget k m = Some v -> k ∈ bkeys m.
Proof. intros Hg%bget_In. by apply (list_elem_of_fmap_2 fst) in Hg. Qed.

Lemma NoDup_keys_bget {V} (m : bmap V) k v : NoDup (bkeys m) -> (k, v) ∈ m -> bget k m = Some v.
Proof.
  induction m as [|[k' v'] m IH]; [by intros _ ?%not_elem_of_nil|]. cbn [bkeys fmap list_fmap fst bget].
  intros [Hk Hnd]%NoDup_cons [[= <- <-]|Hin]%elem_of_cons; [by rewrite String.eqb_refl|].
  destruct (String.eqb_spec k k') as [->|]; [|by apply IH].
  by apply (list_elem_of_fmap_2 fst) in Hin.
Qed.

(** A closed object has the declared keys, no others, and each member has
    its declared shape. *)
Lemma check_object_closed fields v :
  check (Object fields) v = true -> NoDup fields.*1 ->
  exists m, v = VObject m /\ bkeys m ≡ₚ fields.*1 /\
    (forall name shape, (name, shape) ∈ fields -> exists x, bget name m = Some x /\ check shape x = true) /\
    (forall name x, (name, x) ∈ m -> exists shape, (name, shape) ∈ fields /\ check shape x = true).
Proof.
  rewrite check_Object. unfold check_object. intros Hc Hnd.
  destruct (as_object v) as [m|] eqn:Hm; [|done]. apply as_object_Some in Hm as ->. bsplit.
  rewrite forallb_Forall, Forall_forall in *. rename H into Hlen, H0 into Hall.
  assert (forall name shape, (name, shape) ∈ fields -> exists x, bget name m = Some x /\ check shape x = true) as Hf.
  { intros name shape Hin. specialize (Hall _ Hin). simpl in Hall. by apply is_some_and_true in Hall. }
  assert (fields.*1 ≡ₚ bkeys m) as Hp.
  { apply Stdlib.Sorting.Permutation.NoDup_Permutation_bis.
    - by apply NoDup_ListNoDup.
    - unfold bkeys. rewrite !length_fmap. unfold blen, lenl in Hlen. lia.
    - intros k Hk%list_elem_of_In. apply list_elem_of_In.
      apply list_elem_of_fmap in Hk as ([name shape] & -> & Hin).
      destruct (Hf _ _ Hin) as (x & Hx & _). by eapply bget_keys. }
  exists m. split_and!; [done|by symmetry|done|]. intros name x Hin.
  assert (name ∈ fields.*1) as Hn by (rewrite Hp; by apply (list_elem_of_fmap_2 fst) in Hin).
  apply list_elem_of_fmap in Hn as ([name' shape] & -> & Hfield). exists shape. split; [done|].
  destruct (Hf _ _ Hfield) as (y & Hy & Hs). simpl in *.
  apply NoDup_keys_bget in Hin; [congruence|]. by rewrite <- Hp.
Qed.

Lemma bremove_split {V} name (m : bmap V) x k v :
  bget name m = Some x -> (k, v) ∈ m -> (k, v) ∈ bremove name m \/ (k = name /\ v = x).
Proof.
  induction m as [|[k' v'] m IH]; [done|]. cbn [bget bremove].
  destruct (String.eqb_spec name k') as [->|]; intros Hg [He|Hin]%elem_of_cons; simplify_eq; auto.
  - left. apply list_elem_of_here.
  - destruct (IH Hg Hin); [left; by apply list_elem_of_further|auto].
Qed.

Lemma bremove_subset {V} name (m : bmap V) e : e ∈ bremove name m -> e ∈ m.
Proof.
  induction m as [|[k' v'] m IH]; [done|]. cbn [bremove].
  destruct (String.eqb name k'); set_solver.
Qed.

Lemma remove_optional_sound optional base rest :
  remove_optional optional base = Some rest ->
  (forall e, e ∈ rest -> e ∈ base) /\
  (forall k v, (k, v) ∈ base -> (k, v) ∈ rest \/
    exists shape, (k, shape) ∈ optional /\ check shape v = true).
Proof.
  revert base; induction optional as [|[name shape] optional IH]; intros base; cbn [remove_optional].
  { intros [= <-]. auto. }
  unfold remove_checked. destruct (bget name base) as [x|] eqn:Hg.
  - destruct (check shape x) eqn:Hs; [|done]. intros [Hsub Hcov]%IH. split.
    + intros e He. apply (bremove_subset name). auto.
    + intros k v Hin. destruct (bremove_split _ _ _ _ _ Hg Hin) as [Hr|[-> ->]].
      * destruct (Hcov _ _ Hr) as [?|(sh & ? & ?)]; [auto|right; exists sh; set_solver].
      * right. exists shape. split; [apply list_elem_of_here|done].
  - intros [Hsub Hcov]%IH. split; [done|]. intros k v Hin.
    destruct (Hcov _ _ Hin) as [?|(sh & ? & ?)]; [auto|right; exists sh; set_solver].
Qed.

(** No arm of the catalog names a parameter twice. *)
Lemma PARAMS_NoDup : Forall (fun arm => NoDup (arm.2).*1) PARAMS.
Proof. apply (bool_decide_unpack _). vm_compute. exact I. Qed.

Lemma params_for_m2_NoDup kind fixed : params_for_m2 kind = Some fixed -> NoDup fixed.*1.
Proof.
  unfold params_for_m2. intros H.
  repeat match type of H with (if ?c then _ else _) = _ => destruct c end; try discriminate H.
  all: injection H as <-; apply (bool_decide_unpack _); vm_compute; exact I.
Qed.

Lemma params_of_NoDup kind params fixed : params_of kind params = Some fixed -> NoDup fixed.*1.
Proof.
  unfold params_of. destruct (_ && _).
  { intros [= <-]. apply (bool_decide_unpack _). vm_compute. exact I. }
  destruct (_ && _); [apply params_for_m2_NoDup|]. unfold params_for.
  destruct (find_first _ PARAMS) as [[ks fs]|] eqn:Hf; [|apply params_for_m2_NoDup].
  intros [= <-]. apply find_first_Some in Hf as [Hin _].
  pose proof PARAMS_NoDup as Hall. rewrite Forall_forall in Hall. apply (Hall _ Hin).
Qed.

(** What the catalog says of one action: its two members, a known kind, and
    parameters that are exactly the required ones plus declared optional
    ones, each of its declared shape. *)
Definition action_closed (action : Value) : Prop :=
  exists am kind pm fixed, action = VObject am /\ bkeys am ≡ₚ ["kind"; "params"] /\
    bget "kind" am = Some (VString kind) /\ bget "params" am = Some (VObject pm) /\
    params_of kind (Some (VObject pm)) = Some fixed /\
    (forall name, name ∈ fixed.*1 -> name ∈ bkeys pm) /\
    (forall name x, (name, x) ∈ pm -> exists shape,
      (name, shape) ∈ fixed ++ optional_params_for kind /\ check shape x = true).

Lemma params_ok_closed kind params :
  params_ok kind (Some params) = true ->
  exists pm fixed, params = VObject pm /\ params_of kind (Some params) = Some fixed /\
    (forall name, name ∈ fixed.*1 -> name ∈ bkeys pm) /\
    (forall name x, (name, x) ∈ pm -> exists shape,
      (name, shape) ∈ fixed ++ optional_params_for kind /\ check shape x = true).
Proof.
  unfold params_ok. destruct (params_of kind (Some params)) as [fixed|] eqn:Hp; [|done].
  destruct (as_object params) as [pm|] eqn:Hm; [|done]. apply as_object_Some in Hm as ->.
  destruct (remove_optional _ pm) as [base|] eqn:Hr; [|done].
  intros (m & [= <-] & Hk & _ & Hall)%check_object_closed; [|by eapply params_of_NoDup].
  destruct (remove_optional_sound _ _ _ Hr) as [Hsub Hcov].
  exists pm, fixed. split_and!; [done..| |].
  - intros name Hn. rewrite <- Hk in Hn. apply list_elem_of_fmap in Hn as (e & -> & He).
    apply (list_elem_of_fmap_2 fst). auto.
  - intros name x Hin. destruct (Hcov _ _ Hin) as [Hb|(shape & Ho & Hs)].
    + destruct (Hall _ _ Hb) as (shape & Hf & Hs). exists shape. split; [|done]. apply elem_of_app. by left.
    + exists shape. split; [|done]. apply elem_of_app. by right.
Qed.

Lemma actions_shape_closed value items :
  actions_shape value = true -> as_array value = Some items -> Forall action_closed items.
Proof.
  unfold actions_shape. intros Ha Hi. rewrite Hi in Ha. simpl in Ha. bsplit.
  rewrite forallb_Forall in *. eapply Forall_impl; [eassumption|]. simpl. intros action Hc.
  apply is_some_and_true in Hc as (am & Ham & Hc). apply as_object_Some in Ham as ->. bsplit.
  destruct (bget "kind" am) as [kv|] eqn:Hkv; [|done].
  match goal with H : is_some_and (as_str kv) _ = true |- _ =>
    apply is_some_and_true in H as (kind & Hk & Hp) end.
  apply as_str_Some in Hk as ->.
  destruct (bget "params" am) as [params|] eqn:Hpv; [|unfold params_ok in Hp; by destruct (params_of kind None)].
  destruct (params_ok_closed _ _ Hp) as (pm & fixed & -> & Hof & Hreq & Hall).
  exists am, kind, pm, fixed. split_and!; try done.
  symmetry. apply Stdlib.Sorting.Permutation.NoDup_Permutation_bis.
  - apply NoDup_ListNoDup. apply (bool_decide_unpack _). vm_compute. exact I.
  - unfold bkeys. rewrite length_fmap. unfold blen in *. simpl. lia.
  - intros k [<-|[<-|[]]]; apply list_elem_of_In; by eapply bget_keys.
Qed.

(** The members of a plan, as src/signed_plan/schema/actions.rs lists them. *)
Definition PLAN_KEYS : list string :=
  [ "version"; "id"; "project_id"; "environment"; "environment_id"; "service_ids"; "targets";
    "actions"; "base"; "created_at"; "expires_at"; "nonce"; "author"; "invocation" ].

(** Plans are closed: an accepted plan has exactly the fourteen members
    of the catalog, between 1 and 64 actions, and every action has exactly
    [kind] and [params], with a known kind and exactly that kind's required
    parameters and at most its declared optional ones, each of its declared
    shape.  Nothing a signer's client does not know about can ride along. *)
Theorem validate_plan_closed plan :
  validate_plan plan = true ->
  exists m actions, plan = VObject m /\ bkeys m ≡ₚ PLAN_KEYS /\
    bget "actions" m = Some (VArray actions) /\ 1 <= lenl actions <= 64 /\ Forall action_closed actions.
Proof.
  unfold validate_plan. intros [Hc _]%andb_true_iff. unfold PLAN in Hc.
  apply check_object_closed in Hc as (m & -> & Hk & Hall & _);
    [|apply (bool_decide_unpack _); vm_compute; exact I].
  destruct (Hall "actions" (Custom actions_shape)) as (v & Hg & Hv); [set_solver|].
  cbn [check] in Hv. pose proof Hv as Hv'. unfold actions_shape in Hv'.
  apply is_some_and_true in Hv' as (actions & Ha & Hr). bsplit.
  apply as_array_Some in Ha as ->. exists m, actions. split; [done|]. split; [done|]. split; [done|].
  split; [by apply in_range_spec|]. by eapply actions_shape_closed.
Qed.

(** ** The spec's two indexed members *)

(** [spec_shape] indexes [mounts] and [replicas] only in objects that have them. *)
Lemma spec_shape_indexes value :
  spec_shape value = true ->
  exists m, value = VObject m /\ is_some (bget "mounts" m) = true /\ is_some (bget "replicas" m) = true.
Proof.
  unfold spec_shape. destruct (as_object value) as [m|] eqn:Hm; [|done]. apply as_object_Some in Hm as ->.
  assert (forall name test (rest rest' : bmap Value) k, remove_checked name test rest = Some rest' ->
    k ∈ bkeys rest' -> k ∈ bkeys rest) as Hsub.
  { intros name test rest rest' k. unfold remove_checked. destruct (bget name rest) as [x|].
    - destruct (test x); [|done]. intros [= <-] (e & -> & He)%list_elem_of_fmap.
      apply (list_elem_of_fmap_2 fst). by eapply bremove_subset.
    - by intros [= <-]. }
  destruct (remove_checked "build" _ m) as [r1|] eqn:H1; [|done].
  destruct (remove_checked "routes" _ r1) as [r2|] eqn:H2; [|done].
  destruct (remove_checked "strategy" _ r2) as [r3|] eqn:H3; [|done].
  destruct (check (Object SPEC_FIELDS) (VObject r3)) eqn:Hc; [|done]. intros _.
  exists m. split; [done|].
  apply check_object_closed in Hc as (m' & [= <-] & Hk & _);
    [|apply (bool_decide_unpack _); vm_compute; exact I].
  assert (forall k, k ∈ SPEC_FIELDS.*1 -> is_some (bget k m) = true) as Hget.
  { intros k Hin. destruct (bget k m) eqn:Hg; [done|]. apply bget_None in Hg. exfalso. apply Hg.
    eapply Hsub, Hsub, Hsub; [exact H1|exact H2|exact H3|]. by rewrite Hk. }
  split; apply Hget; apply (bool_decide_unpack _); vm_compute; exact I.
Qed.

End closed.

Lemma validate_plan_closed_witness :
  exists m actions, shell_plan = VObject m /\ bkeys m ≡ₚ PLAN_KEYS /\
    bget "actions" m = Some (VArray actions) /\ 1 <= lenl actions <= 64 /\
    Forall (@action_closed toy_crypto) actions.
Proof. apply (@validate_plan_closed toy_crypto shell_plan). vm_compute. reflexivity. Defined.

(** ** Secret-looking names *)

(** [lower] read as [prefix keyword suffix], the parts joined by [_]. *)
Definition segments_ok (l : list string) : Prop := Forall (fun part => segment_ok part = true) l.

(** [(?:[a-z0-9]+_)*]. *)
Definition is_prefix_part (s : string) : Prop :=
  s = "" \/ exists parts, parts <> [] /\ segments_ok parts /\ s = join_str "_" parts +:+ "_".

(** [(?:_[a-z0-9]+)*]. *)
Definition is_suffix_part (s : string) : Prop :=
  s = "" \/ exists parts, parts <> [] /\ segments_ok parts /\ s = "_" +:+ join_str "_" parts.

Lemma segment_no_underscore part :
  segment_ok part = true -> all_bytes (fun b => negb (Ascii.eqb b "_")) part = true.
Proof.
  unfold segment_ok. intros [_ H]%andb_true_iff. eapply all_bytes_impl; [|exact H].
  intros b Hb. destruct (Ascii.eqb_spec b "_") as [->|]; [|done]. vm_compute in Hb. discriminate Hb.
Qed.

Lemma split_segments parts : parts <> [] -> segments_ok parts -> split "_" (join_str "_" parts) = parts.
Proof.
  intros Hne Hs. change "_"%string with (String "_" ""). apply split_join; [|done].
  eapply Forall_impl; [exact Hs|]. apply segment_no_underscore.
Qed.

Lemma segments_body s :
  forallb segment_ok (split "_" s) = true <->
  exists parts, parts <> [] /\ segments_ok parts /\ s = join_str "_" parts.
Proof.
  rewrite forallb_Forall. split.
  - intros Hs. exists (split "_" s). split_and!; [apply split_cons_nonempty|done|].
    by rewrite (join_split "_" s).
  - intros (parts & Hne & Hs & ->). by rewrite split_segments.
Qed.

Lemma prefix_segments_spec s : prefix_segments s = true <-> is_prefix_part s.
Proof.
  unfold prefix_segments, is_prefix_part. rewrite orb_true_iff, is_some_and_true. unfold is_empty.
  rewrite String.eqb_eq. apply or_iff_compat_l. split.
  - intros (body & Hb%strip_suffix_Some & (parts & Hne & Hs & ->)%segments_body). eauto.
  - intros (parts & Hne & Hs & ->). eexists. split; [apply strip_suffix_app|]. apply segments_body. eauto.
Qed.

Lemma suffix_segments_spec s : suffix_segments s = true <-> is_suffix_part s.
Proof.
  unfold suffix_segments, is_suffix_part. rewrite orb_true_iff, is_some_and_true. unfold is_empty.
  rewrite String.eqb_eq. apply or_iff_compat_l. split.
  - intros (body & Hb%strip_prefix_Some & (parts & Hne & Hs & ->)%segments_body). eauto.
  - intros (parts & Hne & Hs & ->). exists (join_str "_" parts).
    split; [by apply strip_prefix_Some|]. apply segments_body. eauto.
Qed.

Lemma keywords_ascii :
  Forall (fun k => is_some_and (first_byte k) (fun b => negb (cont_byte b)) = true) K_KEYWORDS.
Proof. apply forallb_Forall. vm_compute. reflexivity. Qed.

(** The refused build argument names: the scan over every start offset
    finds a match exactly when the lower-cased name reads
    [(?:[a-z0-9]+_)* keyword (?:_[a-z0-9]+)*] for one of the listed
    keywords. *)
Theorem secret_looking_name_spec name :
  secret_looking_name name = true <->
  exists pre keyword post, to_ascii_lowercase name = pre +:+ keyword +:+ post /\
    keyword ∈ K_KEYWORDS /\ is_prefix_part pre /\ is_suffix_part post.
Proof.
  unfold secret_looking_name. set (lower := to_ascii_lowercase name).
  rewrite existsb_exists. split.
  - intros (start & _ & Hm). bsplit. match goal with H : existsb _ _ = true |- _ =>
      apply existsb_exists in H as (keyword & Hk & Hm) end.
    apply is_some_and_true in Hm as (post & Hp%strip_prefix_Some & Hs).
    exists (slice_to start lower), keyword, post. split_and!.
    + by rewrite <- Hp, slice_app.
    + by apply list_elem_of_In.
    + by apply prefix_segments_spec.
    + by apply suffix_segments_spec.
  - intros (pre & keyword & post & Hl & Hk & Hpre & Hpost).
    destruct (slice_at pre (keyword +:+ post)) as [Hto Hfrom]. rewrite <- Hl in *.
    exists (String.length pre). split.
    + apply in_seq. rewrite Hl, !str_app_length. lia.
    + rewrite Hto, Hfrom. apply andb_true_iff. split; [apply andb_true_iff; split|].
      * unfold is_char_boundary. rewrite Hfrom.
        pose proof keywords_ascii as Ha. rewrite Forall_forall in Ha. specialize (Ha _ Hk).
        destruct keyword as [|b keyword]; [done|]. rewrite str_app_cons. simpl in *. rewrite Ha. apply orb_true_r.
      * by apply prefix_segments_spec.
      * apply existsb_exists. exists keyword. split; [by apply list_elem_of_In|].
        apply is_some_and_true. exists post. split; [by apply strip_prefix_Some|by apply suffix_segments_spec].
Qed.

(** ** Relative paths *)

(** Lexical resolution of path components below a directory. *)
Fixpoint resolve (base parts : list string) : list string :=
  match parts with
  | [] => base
  | part :: rest =>
      if String.eqb part "" || String.eqb part "." then resolve base rest
      else if String.eqb part ".." then resolve (removelast base) rest
      else resolve (base ++ [part]) rest
  end.

(** A Dockerfile path, build context or subdirectory that is accepted
    stays below the directory it is resolved in: resolving it appends its
    components one by one and never climbs. *)
Theorem relative_path_below value base :
  relative_path value = true -> resolve base (split "/" value) = base ++ split "/" value.
Proof.
  unfold relative_path. intros [_ Hp]%andb_true_iff. rewrite forallb_Forall in Hp.
  revert base; induction Hp as [|part parts Hpart _ IH]; intros base; cbn [resolve]; [by rewrite app_nil_r|].
  bsplit. destruct (String.eqb_spec part ""); [by subst|].
  rewrite (proj2 (String.eqb_neq part ".")), (proj2 (String.eqb_neq part "..")) by (by apply String.eqb_neq).
  cbn [orb]. by rewrite IH, <- app_assoc.
Qed.

Lemma relative_path_below_witness :
  resolve ["src"] (split "/" "docker/app.Dockerfile") = ["src"; "docker"; "app.Dockerfile"].
Proof. apply (relative_path_below "docker/app.Dockerfile" ["src"]). reflexivity. Defined.

(** ** Fuel of the certificate loop *)

Section pem.
Context {CR : Crypto}.

Lemma ca_pem_round rest body last :
  strip_prefix PEM_BEGIN rest = Some body -> find_sub PEM_END body = Some last ->
  (String.length (slice_from (last + String.length PEM_END) body) < String.length rest)%nat.
Proof.
  intros ->%strip_prefix_Some Hf%find_sub_Some. apply (f_equal String.length) in Hf.
  rewrite !str_app_length in Hf. rewrite str_app_length.
  assert (0 < String.length PEM_BEGIN)%nat by (vm_compute; lia). lia.
Qed.

(** The length of the text is fuel enough: with it or more the loop ends on
    an empty rest or on an early return, never on the fuel. *)
Lemma ca_pem_fuel f1 f2 rest blocks :
  (String.length rest <= f1)%nat -> (String.length rest <= f2)%nat ->
  ca_pem_loop f1 rest blocks = ca_pem_loop f2 rest blocks.
Proof.
  revert f2 rest blocks; induction f1 as [|f1 IH]; intros f2 rest blocks H1 H2.
  { destruct rest; [by destruct f2|simpl in H1; lia]. }
  destruct f2 as [|f2]; [destruct rest; [done|simpl in H2; lia]|].
  cbn [ca_pem_loop]. destruct (is_empty rest); [done|].
  destruct (strip_prefix PEM_BEGIN rest) as [body|] eqn:Hs; [|done].
  destruct (find_sub PEM_END body) as [last|] eqn:Hf; [|done].
  destruct (negb _); [done|]. pose proof (ca_pem_round _ _ _ Hs Hf). apply IH; lia.
Qed.

End pem.
