(* ===== verification/Store.v ===== *)
(** * The admission store

    The tables of src/admissions/schema_v1.sql, schema_v1_agent.sql,
    schema_v2.sql and schema_v3.sql, and the statements the agent runs on them.

    A table is the list of its rows in insertion order, so that the order of a
    query without ORDER BY is some fixed order.  A statement that violates a
    PRIMARY KEY, UNIQUE, CHECK, NOT NULL or REFERENCES clause fails with a
    constraint violation and changes nothing; it is the [None] of the [insert_]
    functions.  A transaction is a chain of functions on the store: when one
    fails the store is what it was.  Text is compared bytewise (the BINARY
    collation).  SQLite's own failures (a full disk, a locked file) are not
    modelled: every one becomes INTERNAL and rolls back.

    The columns [signer_key_ids], [action_kinds] and [environments] hold JSON
    arrays of strings that only the agent writes; here they are the lists. *)

From S2P Require Import Prelude RustStr BTree PlanCode Json Calendar.

Module StoreError.
Inductive t : Type :=
| Sqlite
| Io
| Unsafe (message : string)
| TooNew (version : Z).
End StoreError.

Abbreviation store_result := (outcome StoreError.t).

(** [From<StoreError> for PlanCode]. *)
Definition plan_code_of (e : StoreError.t) : PlanCode.t := PlanCode.Internal.

Definition QUARANTINE_SECONDS : Z := 1200.
Definition EXECUTION_WINDOW_SECONDS : Z := 3600.
Definition OPERATION_EVENT_RETENTION_SECONDS : Z := 7 * 86400.

(** ** Rows *)

Record SeenRow := {
  sn_nonce : string;
  sn_plan_id : string;
  sn_plan_digest_hex : string;
  sn_expires_at : string
}.

Record AdmissionRow := {
  ad_plan_id : string;
  ad_plan_digest_hex : string;
  ad_signed_plan_json : string;
  ad_submitter : string;
  ad_operation_id : string;
  ad_admitted_at : string;
  ad_finished_at : option string;
  ad_outcome : string;
  ad_admission_seq : Z;
  ad_nonce : string;
  ad_author_kind : string;
  ad_signer_key_ids : list string;
  ad_action_kinds : list string;
  ad_project_id : string;
  ad_environment : string;
  ad_head_before_hex : string;
  ad_head_after_hex : string;
  ad_rule_id : option string;
  ad_delivery_id : option string;
  ad_expires_at : string;
  ad_environment_id : string
}.

Record ActionRow := {
  ac_plan_id : string;
  ac_action_index : Z;
  ac_kind : string;
  ac_consumed_at : option string;
  ac_finished_at : option string;
  ac_outcome : string;
  ac_consumed_seq : option Z;
  ac_result_seq : option Z;
  ac_deployment_id : option string
}.

Record SpecRow := {
  sp_spec_digest_hex : string;
  sp_service_id : string;
  sp_spec_jcs : string;
  sp_admitted_plan_id : string;
  sp_admitted_at : string;
  sp_elevated : bool
}.

Record HeadRow := {
  hd_project_id : string;
  hd_environment : string;
  hd_head_digest_hex : string;
  hd_plan_id : string;
  hd_updated_at : string
}.

Record RuleRow := {
  rl_rule : string;
  rl_rule_digest_hex : string;
  rl_created_by_key_id : string;
  rl_created_plan_id : string;
  rl_revoked_at : option string;
  rl_rule_id : string;
  rl_revoked_plan_id : option string
}.

Record InvocationRow := {
  iv_rule_id : string;
  iv_plan_id : string;
  iv_admitted_at : string
}.

Record DeliveryRow := {
  dl_delivery_id : string;
  dl_provider : string;
  dl_event : string;
  dl_body_digest_hex : string;
  dl_repo : string;
  dl_ref : string;
  dl_commit_sha : string;
  dl_commit_time : string;
  dl_environments : list string;
  dl_received_at : string;
  dl_expires_at : string;
  dl_status : string
}.

Record ConsumptionRow := {
  cs_delivery_id : string;
  cs_rule_id : string;
  cs_plan_id : string;
  cs_consumed_at : string
}.

Record BuildRow := {
  bd_build_id : string;
  bd_service_id : string;
  bd_commit_sha : string;
  bd_image_digest_hex : string;
  bd_delivery_id : option string;
  bd_built_at : string
}.

Record SealedRow := {
  se_ciphertext_digest_hex : string;
  se_plan_id : string;
  se_ciphertext : string;
  se_action_index : Z;
  se_project_id : string;
  se_environment : string;
  se_service_id : string;
  se_name : string
}.

Record CursorRow := {
  cu_last_seq : Z;
  cu_log_inode : option Z;
  cu_log_offset : Z;
  cu_reconciled_at : option string
}.

Record ServiceSpecRow := {
  ss_service_id : option string;
  ss_spec_digest_hex : string;
  ss_plan_id : string;
  ss_admitted_at : string
}.

Record DeployedCommitRow := {
  dc_service_id : string;
  dc_ref : string;
  dc_commit_sha : string;
  dc_commit_time : string;
  dc_plan_id : string
}.

Record EventRow := {
  ev_operation_id : string;
  ev_seq : Z;
  ev_at : string;
  ev_event : string
}.

Record RejectedRow := {
  rj_body_digest_hex : string;
  rj_body_bytes : Z;
  rj_project_id : string;
  rj_provider : string;
  rj_received_at : string;
  rj_reason : string
}.

Record MetaRow := {
  me_store_created_at : string;
  me_schema_version : Z;
  me_quarantine_ends_at : option string
}.

(** ** The store *)

Record Db := {
  t_meta : MetaRow;
  t_seen : list SeenRow;
  t_admissions : list AdmissionRow;
  t_actions : list ActionRow;
  t_specs : list SpecRow;
  t_heads : list HeadRow;
  t_rules : list RuleRow;
  t_invocations : list InvocationRow;
  t_deliveries : list DeliveryRow;
  t_consumptions : list ConsumptionRow;
  t_builds : list BuildRow;
  t_sealed : list SealedRow;
  t_cursor : option CursorRow;
  t_service_specs : list ServiceSpecRow;
  t_deployed : list DeployedCommitRow;
  t_events : list EventRow;
  t_rejected : list RejectedRow
}.

Definition with_seen (db : Db) (x : list SeenRow) : Db :=
  {| t_meta := t_meta db; t_seen := x; t_admissions := t_admissions db;
     t_actions := t_actions db; t_specs := t_specs db; t_heads := t_heads db;
     t_rules := t_rules db; t_invocations := t_invocations db; t_deliveries := t_deliveries db;
     t_consumptions := t_consumptions db; t_builds := t_builds db; t_sealed := t_sealed db;
     t_cursor := t_cursor db; t_service_specs := t_service_specs db; t_deployed := t_deployed db;
     t_events := t_events db; t_rejected := t_rejected db |}.

Definition with_admissions (db : Db) (x : list AdmissionRow) : Db :=
  {| t_meta := t_meta db; t_seen := t_seen db; t_admissions := x; t_actions := t_actions db;
     t_specs := t_specs db; t_heads := t_heads db; t_rules := t_rules db;
     t_invocations := t_invocations db; t_deliveries := t_deliveries db;
     t_consumptions := t_consumptions db; t_builds := t_builds db; t_sealed := t_sealed db;
     t_cursor := t_cursor db; t_service_specs := t_service_specs db; t_deployed := t_deployed db;
     t_events := t_events db; t_rejected := t_rejected db |}.

Definition with_actions (db : Db) (x : list ActionRow) : Db :=
  {| t_meta := t_meta db; t_seen := t_seen db; t_admissions := t_admissions db; t_actions := x;
     t_specs := t_specs db; t_heads := t_heads db; t_rules := t_rules db;
     t_invocations := t_invocations db; t_deliveries := t_deliveries db;
     t_consumptions := t_consumptions db; t_builds := t_builds db; t_sealed := t_sealed db;
     t_cursor := t_cursor db; t_service_specs := t_service_specs db; t_deployed := t_deployed db;
     t_events := t_events db; t_rejected := t_rejected db |}.

Definition with_specs (db : Db) (x : list SpecRow) : Db :=
  {| t_meta := t_meta db; t_seen := t_seen db; t_admissions := t_admissions db;
     t_actions := t_actions db; t_specs := x; t_heads := t_heads db; t_rules := t_rules db;
     t_invocations := t_invocations db; t_deliveries := t_deliveries db;
     t_consumptions := t_consumptions db; t_builds := t_builds db; t_sealed := t_sealed db;
     t_cursor := t_cursor db; t_service_specs := t_service_specs db; t_deployed := t_deployed db;
     t_events := t_events db; t_rejected := t_rejected db |}.

Definition with_heads (db : Db) (x : list HeadRow) : Db :=
  {| t_meta := t_meta db; t_seen := t_seen db; t_admissions := t_admissions db;
     t_actions := t_actions db; t_specs := t_specs db; t_heads := x; t_rules := t_rules db;
     t_invocations := t_invocations db; t_deliveries := t_deliveries db;
     t_consumptions := t_consumptions db; t_builds := t_builds db; t_sealed := t_sealed db;
     t_cursor := t_cursor db; t_service_specs := t_service_specs db; t_deployed := t_deployed db;
     t_events := t_events db; t_rejected := t_rejected db |}.

Definition with_rules (db : Db) (x : list RuleRow) : Db :=
  {| t_meta := t_meta db; t_seen := t_seen db; t_admissions := t_admissions db;
     t_actions := t_actions db; t_specs := t_specs db; t_heads := t_heads db; t_rules := x;
     t_invocations := t_invocations db; t_deliveries := t_deliveries db;
     t_consumptions := t_consumptions db; t_builds := t_builds db; t_sealed := t_sealed db;
     t_cursor := t_cursor db; t_service_specs := t_service_specs db; t_deployed := t_deployed db;
     t_events := t_events db; t_rejected := t_rejected db |}.

Definition with_invocations (db : Db) (x : list InvocationRow) : Db :=
  {| t_meta := t_meta db; t_seen := t_seen db; t_admissions := t_admissions db;
     t_actions := t_actions db; t_specs := t_specs db; t_heads := t_heads db;
     t_rules := t_rules db; t_invocations := x; t_deliveries := t_deliveries db;
     t_consumptions := t_consumptions db; t_builds := t_builds db; t_sealed := t_sealed db;
     t_cursor := t_cursor db; t_service_specs := t_service_specs db; t_deployed := t_deployed db;
     t_events := t_events db; t_rejected := t_rejected db |}.

Definition with_deliveries (db : Db) (x : list DeliveryRow) : Db :=
  {| t_meta := t_meta db; t_seen := t_seen db; t_admissions := t_admissions db;
     t_actions := t_actions db; t_specs := t_specs db; t_heads := t_heads db;
     t_rules := t_rules db; t_invocations := t_invocations db; t_deliveries := x;
     t_consumptions := t_consumptions db; t_builds := t_builds db; t_sealed := t_sealed db;
     t_cursor := t_cursor db; t_service_specs := t_service_specs db; t_deployed := t_deployed db;
     t_events := t_events db; t_rejected := t_rejected db |}.

Definition with_consumptions (db : Db) (x : list ConsumptionRow) : Db :=
  {| t_meta := t_meta db; t_seen := t_seen db; t_admissions := t_admissions db;
     t_actions := t_actions db; t_specs := t_specs db; t_heads := t_heads db;
     t_rules := t_rules db; t_invocations := t_invocations db; t_deliveries := t_deliveries db;
     t_consumptions := x; t_builds := t_builds db; t_sealed := t_sealed db;
     t_cursor := t_cursor db; t_service_specs := t_service_specs db; t_deployed := t_deployed db;
     t_events := t_events db; t_rejected := t_rejected db |}.

Definition with_builds (db : Db) (x : list BuildRow) : Db :=
  {| t_meta := t_meta db; t_seen := t_seen db; t_admissions := t_admissions db;
     t_actions := t_actions db; t_specs := t_specs db; t_heads := t_heads db;
     t_rules := t_rules db; t_invocations := t_invocations db; t_deliveries := t_deliveries db;
     t_consumptions := t_consumptions db; t_builds := x; t_sealed := t_sealed db;
     t_cursor := t_cursor db; t_service_specs := t_service_specs db; t_deployed := t_deployed db;
     t_events := t_events db; t_rejected := t_rejected db |}.

Definition with_sealed (db : Db) (x : list SealedRow) : Db :=
  {| t_meta := t_meta db; t_seen := t_seen db; t_admissions := t_admissions db;
     t_actions := t_actions db; t_specs := t_specs db; t_heads := t_heads db;
     t_rules := t_rules db; t_invocations := t_invocations db; t_deliveries := t_deliveries db;
     t_consumptions := t_consumptions db; t_builds := t_builds db; t_sealed := x;
     t_cursor := t_cursor db; t_service_specs := t_service_specs db; t_deployed := t_deployed db;
     t_events := t_events db; t_rejected := t_rejected db |}.

Definition with_cursor (db : Db) (x : option CursorRow) : Db :=
  {| t_meta := t_meta db; t_seen := t_seen db; t_admissions := t_admissions db;
     t_actions := t_actions db; t_specs := t_specs db; t_heads := t_heads db;
     t_rules := t_rules db; t_invocations := t_invocations db; t_deliveries := t_deliveries db;
     t_consumptions := t_consumptions db; t_builds := t_builds db; t_sealed := t_sealed db;
     t_cursor := x; t_service_specs := t_service_specs db; t_deployed := t_deployed db;
     t_events := t_events db; t_rejected := t_rejected db |}.

Definition with_service_specs (db : Db) (x : list ServiceSpecRow) : Db :=
  {| t_meta := t_meta db; t_seen := t_seen db; t_admissions := t_admissions db;
     t_actions := t_actions db; t_specs := t_specs db; t_heads := t_heads db;
     t_rules := t_rules db; t_invocations := t_invocations db; t_deliveries := t_deliveries db;
     t_consumptions := t_consumptions db; t_builds := t_builds db; t_sealed := t_sealed db;
     t_cursor := t_cursor db; t_service_specs := x; t_deployed := t_deployed db;
     t_events := t_events db; t_rejected := t_rejected db |}.

Definition with_deployed (db : Db) (x : list DeployedCommitRow) : Db :=
  {| t_meta := t_meta db; t_seen := t_seen db; t_admissions := t_admissions db;
     t_actions := t_actions db; t_specs := t_specs db; t_heads := t_heads db;
     t_rules := t_rules db; t_invocations := t_invocations db; t_deliveries := t_deliveries db;
     t_consumptions := t_consumptions db; t_builds := t_builds db; t_sealed := t_sealed db;
     t_cursor := t_cursor db; t_service_specs := t_service_specs db; t_deployed := x;
     t_events := t_events db; t_rejected := t_rejected db |}.

Definition with_events (db : Db) (x : list EventRow) : Db :=
  {| t_meta := t_meta db; t_seen := t_seen db; t_admissions := t_admissions db;
     t_actions := t_actions db; t_specs := t_specs db; t_heads := t_heads db;
     t_rules := t_rules db; t_invocations := t_invocations db; t_deliveries := t_deliveries db;
     t_consumptions := t_consumptions db; t_builds := t_builds db; t_sealed := t_sealed db;
     t_cursor := t_cursor db; t_service_specs := t_service_specs db; t_deployed := t_deployed db;
     t_events := x; t_rejected := t_rejected db |}.

Definition with_rejected (db : Db) (x : list RejectedRow) : Db :=
  {| t_meta := t_meta db; t_seen := t_seen db; t_admissions := t_admissions db;
     t_actions := t_actions db; t_specs := t_specs db; t_heads := t_heads db;
     t_rules := t_rules db; t_invocations := t_invocations db; t_deliveries := t_deliveries db;
     t_consumptions := t_consumptions db; t_builds := t_builds db; t_sealed := t_sealed db;
     t_cursor := t_cursor db; t_service_specs := t_service_specs db; t_deployed := t_deployed db;
     t_events := t_events db; t_rejected := x |}.

(** ** Statements *)

(** [SELECT ... WHERE p]. *)
Definition select {A} (p : A -> bool) (rows : list A) : list A := List.filter p rows.

(** [SELECT COUNT( * ) ... WHERE p]. *)
Definition count {A} (p : A -> bool) (rows : list A) : Z := lenl (select p rows).

(** [UPDATE ... SET f WHERE p]: the rows and the number changed. *)
Definition update {A} (p : A -> bool) (f : A -> A) (rows : list A) : list A :=
  (fun r => if p r then f r else r) <$> rows.

(** [DELETE ... WHERE p]. *)
Definition delete_where {A} (p : A -> bool) (rows : list A) : list A := List.filter (fun r => negb (p r)) rows.

(** [INSERT ... ON CONFLICT (key) DO UPDATE SET ...]: [same] tells a row with
    the new row's key, [set] rewrites it. *)
Definition upsert {A} (same : A -> bool) (set : A -> A) (row : A) (rows : list A) : list A :=
  if existsb same rows then update same set rows else rows ++ [row].

(** [ORDER BY key], equal keys in table order; also [sort_by_key]. *)
Fixpoint insert_asc {A} (key : A -> Z) (x : A) (l : list A) : list A :=
  match l with
  | [] => [x]
  | y :: r => if key x <? key y then x :: l else y :: insert_asc key x r
  end.

Definition order_asc {A} (key : A -> Z) (l : list A) : list A :=
  fold_left (fun acc x => insert_asc key x acc) l [].

(** [ORDER BY key DESC]. *)
Definition order_desc {A} (key : A -> Z) (l : list A) : list A := order_asc (fun x => - key x) l.

(** [MAX(column)] of text, NULLs ignored. *)
Definition str_max (a b : string) : string := if String.ltb a b then b else a.

Definition max_text (l : list (option string)) : option string :=
  fold_left (fun acc x => match acc, x with
    | Some a, Some b => Some (str_max a b)
    | None, x => x
    | acc, None => acc
    end) l None.

(** [MAX(column)] of a non-negative integer column, 0 on an empty table. *)
Definition max_int (l : list Z) : Z := fold_left Z.max l 0.

Definition eq_opt (o : option string) (s : string) : bool := is_some_and o (String.eqb s).

(** The clause [REFERENCES admissions (plan_id)]. *)
Definition has_admission (db : Db) (plan_id : string) : bool :=
  existsb (fun a => String.eqb (ad_plan_id a) plan_id) (t_admissions db).

Definition has_delivery (db : Db) (delivery_id : string) : bool :=
  existsb (fun d => String.eqb (dl_delivery_id d) delivery_id) (t_deliveries db).

Definition has_spec_row (db : Db) (digest : string) : bool :=
  existsb (fun s => String.eqb (sp_spec_digest_hex s) digest) (t_specs db).

Definition OUTCOME_CHECK : list string :=
  [""; "succeeded"; "failed"; "rolled_back"; "cancelled"; "expired"].
Definition SUBMITTER_CHECK : list string := ["client"; "agent_webhook"].
Definition AUTHOR_CHECK : list string := ["user"; "agent-draft"; "rule"].
Definition PROVIDER_CHECK : list string := ["github"; "gitlab"; "gitea"].
Definition STATUS_CHECK : list string :=
  ["pending"; "building"; "deployed"; "ignored"; "stale"; "failed"; "expired"].

Definition insert_seen (db : Db) (row : SeenRow) : option Db :=
  if existsb (fun r => String.eqb (sn_nonce r) (sn_nonce row)
                       || String.eqb (sn_plan_id r) (sn_plan_id row)) (t_seen db)
  then None else Some (with_seen db (t_seen db ++ [row])).

Definition insert_admission (db : Db) (row : AdmissionRow) : option Db :=
  if existsb (fun r => String.eqb (ad_plan_id r) (ad_plan_id row)
                       || String.eqb (ad_operation_id r) (ad_operation_id row)
                       || (ad_admission_seq r =? ad_admission_seq row)
                       || String.eqb (ad_nonce r) (ad_nonce row)) (t_admissions db)
     || negb (contains_str SUBMITTER_CHECK (ad_submitter row))
     || negb (contains_str OUTCOME_CHECK (ad_outcome row))
     || negb (contains_str AUTHOR_CHECK (ad_author_kind row))
  then None else Some (with_admissions db (t_admissions db ++ [row])).

Definition insert_action (db : Db) (row : ActionRow) : option Db :=
  if existsb (fun r => String.eqb (ac_plan_id r) (ac_plan_id row)
                       && (ac_action_index r =? ac_action_index row)) (t_actions db)
     || negb (has_admission db (ac_plan_id row))
     || (ac_action_index row <? 0)
     || negb (contains_str OUTCOME_CHECK (ac_outcome row))
  then None else Some (with_actions db (t_actions db ++ [row])).

(** [INSERT OR IGNORE]: a row with the digest is kept; a missing admission
    still fails the statement. *)
Definition insert_spec_or_ignore (db : Db) (row : SpecRow) : option Db :=
  if has_spec_row db (sp_spec_digest_hex row) then Some db
  else if negb (has_admission db (sp_admitted_plan_id row)) then None
  else Some (with_specs db (t_specs db ++ [row])).

Definition insert_sealed_or_ignore (db : Db) (row : SealedRow) : option Db :=
  if existsb (fun r => String.eqb (se_ciphertext_digest_hex r) (se_ciphertext_digest_hex row)) (t_sealed db)
  then Some db
  else if negb (has_admission db (se_plan_id row)) then None
  else Some (with_sealed db (t_sealed db ++ [row])).

Definition insert_rule (db : Db) (row : RuleRow) : option Db :=
  if existsb (fun r => String.eqb (rl_rule_digest_hex r) (rl_rule_digest_hex row)
                       || String.eqb (rl_rule_id r) (rl_rule_id row)) (t_rules db)
     || negb (has_admission db (rl_created_plan_id row))
  then None else Some (with_rules db (t_rules db ++ [row])).

Definition insert_invocation (db : Db) (row : InvocationRow) : option Db :=
  if existsb (fun r => String.eqb (iv_rule_id r) (iv_rule_id row)
                       && String.eqb (iv_plan_id r) (iv_plan_id row)) (t_invocations db)
     || negb (has_admission db (iv_plan_id row))
  then None else Some (with_invocations db (t_invocations db ++ [row])).

Definition insert_consumption (db : Db) (row : ConsumptionRow) : option Db :=
  if existsb (fun r => String.eqb (cs_delivery_id r) (cs_delivery_id row)
                       && String.eqb (cs_rule_id r) (cs_rule_id row)) (t_consumptions db)
     || negb (has_delivery db (cs_delivery_id row))
     || negb (has_admission db (cs_plan_id row))
  then None else Some (with_consumptions db (t_consumptions db ++ [row])).

(** [service_specs.service_id] is a TEXT PRIMARY KEY, which SQLite lets be
    NULL; a NULL key never conflicts. *)
Definition upsert_service_spec (db : Db) (row : ServiceSpecRow) : option Db :=
  if negb (has_spec_row db (ss_spec_digest_hex row)) || negb (has_admission db (ss_plan_id row))
  then None
  else Some (with_service_specs db
    (upsert (fun r => is_some_and (ss_service_id row) (eq_opt (ss_service_id r)))
       (fun r => {| ss_service_id := ss_service_id r; ss_spec_digest_hex := ss_spec_digest_hex row;
                    ss_plan_id := ss_plan_id row; ss_admitted_at := ss_admitted_at row |})
       row (t_service_specs db))).

Definition upsert_deployed_commit (db : Db) (row : DeployedCommitRow) : option Db :=
  if negb (has_admission db (dc_plan_id row)) then None
  else Some (with_deployed db
    (upsert (fun r => String.eqb (dc_service_id r) (dc_service_id row) && String.eqb (dc_ref r) (dc_ref row))
       (fun r => {| dc_service_id := dc_service_id r; dc_ref := dc_ref r;
                    dc_commit_sha := dc_commit_sha row; dc_commit_time := dc_commit_time row;
                    dc_plan_id := dc_plan_id row |})
       row (t_deployed db))).

Definition upsert_head (db : Db) (row : HeadRow) : option Db :=
  if negb (has_admission db (hd_plan_id row)) then None
  else Some (with_heads db
    (upsert (fun r => String.eqb (hd_project_id r) (hd_project_id row)
                      && String.eqb (hd_environment r) (hd_environment row))
       (fun r => {| hd_project_id := hd_project_id r; hd_environment := hd_environment r;
                    hd_head_digest_hex := hd_head_digest_hex row; hd_plan_id := hd_plan_id row;
                    hd_updated_at := hd_updated_at row |})
       row (t_heads db))).

Definition next_seq (db : Db) : Z := max_int (ad_admission_seq <$> t_admissions db) + 1.

(** The store right after [create]: every table empty. *)
Definition empty_db (now : Z) (quarantine_ends_at : option Z) : Db :=
  {| t_meta := {| me_store_created_at := format_timestamp now; me_schema_version := 3;
                  me_quarantine_ends_at := option_map format_timestamp quarantine_ends_at |};
     t_seen := []; t_admissions := []; t_actions := []; t_specs := []; t_heads := []; t_rules := [];
     t_invocations := []; t_deliveries := []; t_consumptions := []; t_builds := []; t_sealed := [];
     t_cursor := None; t_service_specs := []; t_deployed := []; t_events := []; t_rejected := [] |}.

(** ** [AdmissionStore] reads *)

Definition quarantine_ends_at (db : Db) : option Z :=
  match me_quarantine_ends_at (t_meta db) with Some t => timestamp t | None => None end.

(** [AdmissionStore::check_quarantine]. *)
Definition check_quarantine (db : Db) (now : Z) : plan_result unit :=
  match quarantine_ends_at db with
  | Some e => if now <? e then Err PlanCode.StoreQuarantined else Ok tt
  | None => Ok tt
  end.
