(* ===== verification/DefinitionStore.v ===== *)
(** * Admitted definitions

    src/admissions/definitions.rs: what admitted actions say about services,
    cron jobs, backup policies and environments, read back from the stored
    signed envelopes, and the preconditions of the cron and backup kinds. *)

From S2P Require Import Prelude RustStr BTree PlanCode Json Jcs Calendar Crypto Schema Trust Verify Store.

Module Definitions.
Section definitions.
Context {JR : JsonReader}.

Record AdmittedAction := {
  plan_id : string;
  plan_digest_hex : string;
  action_index : Z;
  admission_seq : Z;
  admitted_at : string;
  operation_id : string;
  kind : string;
  params : Value;
  scope : SignedScope;
  outcome_text : string;
  finished_at : option string
}.

Definition succeeded (a : AdmittedAction) : bool := String.eqb (outcome_text a) "succeeded".
Definition void (a : AdmittedAction) : bool := negb (is_empty (outcome_text a)) && negb (succeeded a).

(** [admission_actions x JOIN admissions a ON a.plan_id = x.plan_id], ordered
    by [admission_seq DESC, action_index DESC]. *)
Definition joined (db : Db) (p : ActionRow -> bool) : list (ActionRow * AdmissionRow) :=
  order_desc (fun r => ad_admission_seq r.2) (order_desc (fun r => ac_action_index r.1)
    (x ← select p (t_actions db);
     a ← select (fun a => String.eqb (ad_plan_id a) (ac_plan_id x)) (t_admissions db);
     [(x, a)])).

(** [envelope["plan"]["actions"][index]]. *)
Definition envelope_action (envelope : Value) (index : Z) : Value :=
  idx_n envelope.["plan"].["actions"] (Z.to_nat index).

(** One row of the query, or [None] where the loop continues. *)
Definition admitted_action (row : ActionRow * AdmissionRow) : option AdmittedAction :=
  let '(x, a) := row in
  match parse_strict (ad_signed_plan_json a) MAX_SIGNED_PLAN_BYTES with
  | None => None
  | Some envelope =>
      if ac_action_index x <? 0 then None
      else
        let action := envelope_action envelope (ac_action_index x) in
        if negb (eq_str action.["kind"] (ac_kind x)) then None
        else Some {| plan_id := ad_plan_id a; plan_digest_hex := ad_plan_digest_hex a;
                     action_index := ac_action_index x; admission_seq := ad_admission_seq a;
                     admitted_at := ad_admitted_at a; operation_id := ad_operation_id a;
                     kind := ac_kind x; params := action.["params"];
                     scope := (ad_project_id a, ad_environment a, ad_environment_id a);
                     outcome_text := ac_outcome x; finished_at := ac_finished_at x |}
  end.

Definition admitted_actions (db : Db) (kinds : list string) : list AdmittedAction :=
  filter_map admitted_action (joined db (fun x => contains_str kinds (ac_kind x))).

Fixpoint current_and_pending (actions : list AdmittedAction) : list AdmittedAction :=
  match actions with
  | [] => []
  | action :: rest =>
      if void action then current_and_pending rest
      else if succeeded action then [action]
      else action :: current_and_pending rest
  end.

Definition service_scope (db : Db) (service_id : string) : option SignedScope :=
  let rows :=
    s ← select (fun s => String.eqb (sp_service_id s) service_id) (t_specs db);
    select (fun a => String.eqb (ad_plan_id a) (sp_admitted_plan_id s)) (t_admissions db) in
  option_map (fun a => (ad_project_id a, ad_environment a, ad_environment_id a))
    (order_desc ad_admission_seq rows !! 0%nat).

Definition cron_scope (db : Db) (cron_id : string) : option SignedScope :=
  option_map scope (find_first (fun action => eq_str (params action).["cron_id"] cron_id)
    (reverse (admitted_actions db ["cron.create"]))).

Definition backup_policies (db : Db) (resource_id : string) : list Value :=
  let history := List.filter (fun action => eq_str (params action).["resource_id"] resource_id)
    (admitted_actions db ["backup.policy.set"; "backup.policy.delete"]) in
  params <$> List.filter (fun action => String.eqb (kind action) "backup.policy.set")
    (current_and_pending history).

Definition in_environment (project_id environment : string) (action : AdmittedAction) : bool :=
  String.eqb (scope action).1.1 project_id && String.eqb (scope action).1.2 environment.

Definition environment_protected (db : Db) (project_id environment : string) : bool :=
  let history := List.filter (in_environment project_id environment)
    (admitted_actions db ["env.protection.set"]) in
  existsb (fun action => eq_bool (params action).["protected"] true) (current_and_pending history).

(** ** Cron jobs and destinations *)

Definition MAX_CRON_JOBS : Z := 256.

(** Not void, oldest first. *)
Definition effective (actions : list AdmittedAction) : list AdmittedAction :=
  List.filter (fun a => negb (void a)) (reverse actions).

Definition apply_cron (ids : gset string) (action : AdmittedAction) : gset string :=
  let id := str_or_default (params action).["cron_id"] in
  if String.eqb (kind action) "cron.create" then {[ id ]} ∪ ids else ids ∖ {[ id ]}.

Definition current_cron_ids (db : Db) : gset string :=
  fold_left apply_cron (effective (admitted_actions db ["cron.create"; "cron.delete"])) ∅.

Definition apply_policy (policies : bmap Value) (policy : AdmittedAction) : bmap Value :=
  let resource := str_or_default (params policy).["resource_id"] in
  if String.eqb (kind policy) "backup.policy.set"
  then binsert resource (params policy).["destination_ref"] policies
  else bremove resource policies.

Definition current_destinations (db : Db) : bmap Value :=
  fold_left apply_policy
    (effective (admitted_actions db ["backup.policy.set"; "backup.policy.delete"])) [].

Definition has_spec (db : Db) (id : Value) : bool := is_some (service_scope db (str_or_default id)).

Definition refuse_unless (c : bool) : plan_result unit :=
  if c then Ok tt else Err PlanCode.ExecPrecondition.

(** The loop's state: the current jobs and the jobs run by this plan. *)
Definition jobs_state : Type := gset string * gset string.

(** [actions.iter().take_while(..).any(..)]: [before] holds the earlier actions. *)
Definition deployed_before (before : list Value) (target : Value) : bool :=
  existsb (fun a => eq_str a.["kind"] "deploy" && value_eqb a.["params"].["service_id"] target) before.

Definition precondition (db : Db) (before : list Value) (st : jobs_state) (action : Value)
    : plan_result jobs_state :=
  let '(jobs, manual_jobs) := st in
  let params := action.["params"] in
  let cron_id := str_or_default params.["cron_id"] in
  let kind := str_or_default action.["kind"] in
  if String.eqb kind "cron.create" then
    let? _ := refuse_unless (has_spec db params.["service_id"] && negb (bool_decide (cron_id ∈ jobs))
                             && (Z.of_nat (size jobs) <? MAX_CRON_JOBS)) in
    Ok ({[ cron_id ]} ∪ jobs, manual_jobs)
  else if String.eqb kind "cron.update" then
    let? _ := refuse_unless (has_spec db params.["service_id"] && bool_decide (cron_id ∈ jobs)) in Ok st
  else if String.eqb kind "cron.delete" then
    let? _ := refuse_unless (bool_decide (cron_id ∈ jobs)) in Ok (jobs ∖ {[ cron_id ]}, manual_jobs)
  else if contains_str ["cron.pause"; "cron.resume"; "cron.run"] kind then
    let run := String.eqb kind "cron.run" in
    let? _ := refuse_unless (negb (run && bool_decide (cron_id ∈ manual_jobs))) in
    let? _ := refuse_unless (bool_decide (cron_id ∈ jobs)) in
    Ok (jobs, if run then {[ cron_id ]} ∪ manual_jobs else manual_jobs)
  else if String.eqb kind "restore" then
    let target := params.["resource_id"] in
    let source := default target (get params "source_resource_id") in
    let? _ := refuse_unless ((deployed_before before target || has_spec db target)
                             && has_spec db source) in Ok st
  else if contains_str ["backup.run"; "backup.verify"; "backup.delete"; "backup.policy.set";
                        "backup.policy.delete"] kind then
    let? _ := refuse_unless (has_spec db params.["resource_id"]) in Ok st
  else if String.eqb kind "backup.destination.delete" then
    let reference := params.["destination_ref"] in
    let? _ := refuse_unless (negb (existsb (fun used => value_eqb used reference)
                (bvalues (current_destinations db)))) in Ok st
  else Ok st.

Fixpoint preconditions (db : Db) (before : list Value) (st : jobs_state) (actions : list Value)
    : plan_result jobs_state :=
  match actions with
  | [] => Ok st
  | action :: rest =>
      let? st := precondition db before st action in preconditions db (before ++ [action]) st rest
  end.

Definition definition_preconditions (db : Db) (plan : Value) : plan_result unit :=
  let actions := items_of plan.["actions"] in
  let kinds := filter_map (fun a => as_str a.["kind"]) actions in
  let touches_cron := existsb (starts_with "cron.") kinds in
  let jobs := if touches_cron then current_cron_ids db else ∅ in
  let? _ := preconditions db [] (jobs, ∅) actions in Ok tt.

End definitions.
End Definitions.
