(* ===== verification/AdmissionStore.v ===== *)
(** * Admission

    src/admissions/admit.rs (with [BuildStarts] and [new_uuid7] of
    src/admissions/mod.rs): the store as the [PolicyContext] of plan
    verification, the execution preconditions, and the writes of one
    admission.  A call of [admit_plan] is one IMMEDIATE transaction, so it reads and
    writes one store; when it fails the store is unchanged. *)

From S2P Require Import Prelude RustStr BTree PlanCode Json Jcs Crypto Text Calendar Schema.
From S2P Require Import Actions Trust Verify Store DefinitionStore.

(** What admission needs of src/local/sched/alert_spec.rs: whether an event
    rule is of a kind the agent evaluates, and the channels of a rule spec
    ([None] when it does not parse). *)
Class AlertSpec : Type := {
  event_kind_evaluated : string -> bool;
  alert_channels : string -> string -> string -> option (list string)
}.

Definition MAX_SEALED_SECRETS : Z := 64.
Definition MAX_SEALED_SECRET_BYTES : Z := 64 * 1024.
Definition AGE_HEADER : string := "age-encryption.org/v1" +:+ String "010" "".
Definition LAST_SPEC_KINDS : list string := ["deploy"; "rollback"; "scale"].
Definition INPUT_KINDS : list string :=
  ["env.set"; "secret.set"; "secret.unset"; "domain.add"; "domain.remove"; "domain.switch"].

(** ** Identifiers *)

(** The low 48 bits of [unix_ms], big endian. *)
Definition ms_bytes (unix_ms : Z) : list ascii :=
  (fun i => ascii_of_N (Z.to_N (Z.shiftr unix_ms (8 * i) mod 256))) <$> [5; 4; 3; 2; 1; 0].

Definition nth_byte (random : list ascii) (n : nat) : N := code (nth n random zero).

Definition uuid_bytes (random : list ascii) (unix_ms : Z) : list ascii :=
  ms_bytes unix_ms
  ++ [ascii_of_N (N.lor (N.land (nth_byte random 6) 0x0f) 0x70); ascii_of_N (nth_byte random 7);
      ascii_of_N (N.lor (N.land (nth_byte random 8) 0x3f) 0x80)]
  ++ ((fun n => ascii_of_N (nth_byte random n)) <$> seq 9 7).

(** [random] is what the CSPRNG filled the 16 bytes with. *)
Definition new_uuid7 (random : list ascii) (unix_ms : Z) : string :=
  let hex := concat_str (hex_byte <$> uuid_bytes random unix_ms) in
  slice 0 8 hex +:+ "-" +:+ slice 8 12 hex +:+ "-" +:+ slice 12 16 hex +:+ "-"
  +:+ slice 16 20 hex +:+ "-" +:+ slice 20 32 hex.

(** [u64::try_from(now).unwrap_or(0) * 1_000], which wraps in a release build. *)
Definition unix_ms_of (now : Z) : Z := ((if 0 <=? now then now else 0) * 1000) mod 2 ^ 64.

(** ** Build starts *)

(** The cache and, once it is set, the [build_started] lines of the runner's
    consumed log in log order. *)
Record BuildStarts := { bs_cache : bmap Z; bs_log : option (list Value) }.

(** [while starts.len() >= 1024 { remove the first key }]. *)
Fixpoint evict (starts : bmap Z) : bmap Z :=
  match starts with
  | [] => []
  | _ :: rest => if 1024 <=? blen starts then evict rest else starts
  end.

Definition note (b : BuildStarts) (build_id : string) (started_at : Z) : BuildStarts :=
  {| bs_cache := binsert build_id started_at (evict (bs_cache b)); bs_log := bs_log b |}.

(** The start the consumed log gives: its last line of the build. *)
Definition logged_start (lines : list Value) (build_id : string) : option Z :=
  match find_first (fun line => eq_str line.["build_id"] build_id) (reverse lines) with
  | Some line => match as_str line.["at"] with Some at_ => timestamp at_ | None => None end
  | None => None
  end.

Definition get_start (b : BuildStarts) (build_id : string) : option Z * BuildStarts :=
  match bget build_id (bs_cache b) with
  | Some started => (Some started, b)
  | None =>
      match bs_log b with
      | None => (None, b)
      | Some lines =>
          match logged_start lines build_id with
          | None => (None, b)
          | Some started => (Some started, note b build_id started)
          end
      end
  end.

(** ** Submissions *)

Record AdmitInput := {
  in_envelope : string;
  in_specs : list string;
  in_sealed_secrets : list string;
  in_submitter : Submitter;
  in_now : Z
}.

Record Admission := {
  am_plan_id : string;
  am_plan_digest_hex : string;
  am_operation_id : string;
  am_admitted_at : string;
  am_deduplicated : bool;
  am_deployment_ids : list (option string)
}.

Section admit_plan.
Context {CR : Crypto} {JR : JsonReader}.

(** ** The store as a policy context *)

Definition store_rule (db : Db) (rule_id : string) : plan_result (option RuleRecord) :=
  match find_first (fun r => String.eqb (rl_rule_id r) rule_id) (t_rules db) with
  | None => Ok None
  | Some row =>
      let? rule := ok_or (parse_strict (rl_rule row) (64 * 1024)) PlanCode.Internal in
      Ok (Some {| rr_rule := rule; rr_digest_hex := rl_rule_digest_hex row;
                  rr_created_by_key_id := rl_created_by_key_id row;
                  rr_revoked := is_some (rl_revoked_at row) || is_some (rl_revoked_plan_id row) |})
  end.

Definition VERIFIED_STATUSES : list string := ["pending"; "building"; "deployed"; "failed"].

Definition store_delivery (db : Db) (delivery_id : string) : option DeliveryRecord :=
  option_map (fun d => {|
      dr_body_digest_hex := dl_body_digest_hex d; dr_repo := dl_repo d; dr_ref := dl_ref d;
      dr_commit_sha := dl_commit_sha d; dr_commit_time := dl_commit_time d;
      dr_received_at := dl_received_at d;
      dr_verified := contains_str VERIFIED_STATUSES (dl_status d);
      dr_consumed_by_rule_ids :=
        cs_rule_id <$> select (fun c => String.eqb (cs_delivery_id c) delivery_id) (t_consumptions db);
      dr_environments := dl_environments d |})
    (find_first (fun d => String.eqb (dl_delivery_id d) delivery_id) (t_deliveries db)).

(** [service_specs c JOIN specs s] of one service. *)
Definition last_spec_row (db : Db) (service_id : string) : option SpecRow :=
  (c ← select (fun c => eq_opt (ss_service_id c) service_id) (t_service_specs db);
   select (fun s => String.eqb (sp_spec_digest_hex s) (ss_spec_digest_hex c)) (t_specs db)) !! 0%nat.

Definition store_last_spec (db : Db) (service_id : string) : plan_result (option Value) :=
  match last_spec_row db service_id with
  | None => Ok None
  | Some s =>
      let? spec := ok_or (parse_strict (sp_spec_jcs s) (16 * 1024)) PlanCode.Internal in Ok (Some spec)
  end.

Definition build_row (db : Db) (service_id commit_sha : string) : option BuildRow :=
  find_first (fun b => String.eqb (bd_service_id b) service_id && String.eqb (bd_commit_sha b) commit_sha)
    (t_builds db).

Definition store_build_window (db : Db) (starts : BuildStarts) (service_id commit_sha : string)
    : option Z * option Z :=
  match build_row db service_id commit_sha with
  | None => (None, None)
  | Some b => ((get_start starts (bd_build_id b)).1, timestamp (bd_built_at b))
  end.

Definition admission_row (db : Db) (plan_id : string) : option AdmissionRow :=
  find_first (fun a => String.eqb (ad_plan_id a) plan_id) (t_admissions db).

Definition admission_row_of (db : Db) (plan_id digest : string) : option AdmissionRow :=
  find_first (fun a => String.eqb (ad_plan_id a) plan_id && String.eqb (ad_plan_digest_hex a) digest)
    (t_admissions db).

Definition store_seen (db : Db) (nonce plan_id : string) : bool :=
  0 <? count (fun r => String.eqb (sn_nonce r) nonce || String.eqb (sn_plan_id r) plan_id) (t_seen db)
       + count (fun a => String.eqb (ad_nonce a) nonce || String.eqb (ad_plan_id a) plan_id)
           (t_admissions db).

Definition store_head (db : Db) (project_id environment : string) : string :=
  match find_first (fun h => String.eqb (hd_project_id h) project_id
                             && String.eqb (hd_environment h) environment) (t_heads db) with
  | Some h => hd_head_digest_hex h
  | None => GENESIS_HEAD
  end.

Definition store_deployed_commit (db : Db) (service_id ref : string) : option (string * string) :=
  option_map (fun c => (dc_commit_sha c, dc_commit_time c))
    (find_first (fun c => String.eqb (dc_service_id c) service_id && String.eqb (dc_ref c) ref)
       (t_deployed db)).

Definition row_scope (a : AdmissionRow) : SignedScope :=
  (ad_project_id a, ad_environment a, ad_environment_id a).

Definition store_invocations (db : Db) (now : Z) (rule_id : string) : Z :=
  count (fun i => String.eqb (iv_rule_id i) rule_id
                  && String.ltb (format_timestamp (now - 3600)) (iv_admitted_at i)) (t_invocations db).

(** [impl PolicyContext for TxContext].  The cache fill of [get_start] is a
    memo of the consumed log and is not threaded through the checks. *)
Definition TxContext (db : Db) (trust : TrustStore) (now : Z) (starts : BuildStarts) : PolicyContext := {|
  ctx_now := now;
  ctx_trust := trust;
  admission_digest := fun plan_id => Ok (option_map ad_plan_digest_hex (admission_row db plan_id));
  admission_signer_key_ids := fun plan_id digest =>
    Ok (option_map ad_signer_key_ids (admission_row_of db plan_id digest));
  seen := fun nonce plan_id => Ok (store_seen db nonce plan_id);
  head := fun project_id environment => Ok (store_head db project_id environment);
  ctx_rule := store_rule db;
  rule_invocations_last_hour := fun rule_id => Ok (store_invocations db now rule_id);
  delivery := fun delivery_id => Ok (store_delivery db delivery_id);
  last_admitted_spec := store_last_spec db;
  build_image := fun service_id commit_sha =>
    Ok (option_map bd_image_digest_hex (build_row db service_id commit_sha));
  build_window := fun service_id commit_sha => Ok (store_build_window db starts service_id commit_sha);
  deployed_commit := fun service_id ref => Ok (store_deployed_commit db service_id ref);
  admission_scope := fun plan_id digest => Ok (option_map row_scope (admission_row_of db plan_id digest));
  service_scope := fun service_id => Ok (Definitions.service_scope db service_id);
  cron_scope := fun cron_id => Ok (Definitions.cron_scope db cron_id);
  backup_policies := fun resource_id => Ok (Definitions.backup_policies db resource_id);
  environment_protected := fun project_id environment =>
    Ok (Definitions.environment_protected db project_id environment)
|}.

(** ** Execution preconditions *)

Definition SEALING_KINDS : list string :=
  ["alert.channel.create"; "alert.channel.update"; "backup.destination.set"; "repo.credential.set"].

Definition sealed_digest (action : Value) : option string :=
  match as_str action.["kind"] with
  | None => None
  | Some kind =>
      if String.eqb kind "secret.set" then as_str action.["params"].["ciphertext_digest_hex"]
      else if contains_str SEALING_KINDS kind then
        as_str action.["params"].["credential_ciphertext_digest_hex"]
      else None
  end.

Definition precondition_error : PlanCode.t := PlanCode.ExecPrecondition.

(** One supplied ciphertext, pushed after its checks. *)
Definition supply (supplied : list (string * string)) (ciphertext : string)
    : plan_result (list (string * string)) :=
  check? negb ((MAX_SEALED_SECRET_BYTES <? len ciphertext) || negb (starts_with AGE_HEADER ciphertext))
    else precondition_error in
  let digest := hex (sha256 ciphertext) in
  check? negb (existsb (fun s => String.eqb s.1 digest) supplied) else precondition_error in
  Ok (supplied ++ [(digest, ciphertext)]).

Definition sealed_preconditions (actions : list Value) (sealed_secrets : list string)
    : plan_result (list (string * string)) :=
  let wanted : gset string := list_to_set (filter_map sealed_digest actions) in
  check? lenl sealed_secrets <=? MAX_SEALED_SECRETS else precondition_error in
  let? supplied := fold_each supply [] sealed_secrets in
  check? bool_decide (list_to_set supplied.*1 = wanted) else precondition_error in
  Ok supplied.

(** *** Input kinds *)

(** [env.values().any(|b| b["kind"] == "secret" && b["ref"] == name)]. *)
Definition binds_secret (name : string) (spec : Value) : bool :=
  is_some_and (as_object spec.["env"]) (fun env =>
    existsb (fun b => eq_str b.["kind"] "secret" && eq_str b.["ref"] name) (bvalues env)).

(** The last admitted specs of the scope's services, in table order. *)
Definition scope_specs (db : Db) (project environment : string) : list (option string * string) :=
  c ← t_service_specs db;
  s ← select (fun s => String.eqb (sp_spec_digest_hex s) (ss_spec_digest_hex c)) (t_specs db);
  a ← select (fun a => String.eqb (ad_plan_id a) (ss_plan_id c) && String.eqb (ad_project_id a) project
                       && String.eqb (ad_environment a) environment) (t_admissions db);
  [(ss_service_id c, sp_spec_jcs s)].

Definition insert_scope_spec (specs : bmap Value) (row : option string * string)
    : plan_result (bmap Value) :=
  let? service := ok_or row.1 PlanCode.Internal in
  let? spec := ok_or (parse_strict row.2 (16 * 1024)) PlanCode.Internal in
  Ok (binsert service spec specs).

Definition insert_plan_spec (specs : bmap Value) (entry : string * (Value * string)) : bmap Value :=
  match as_str entry.2.1.["service_id"] with
  | Some service => binsert service entry.2.1 specs
  | None => specs
  end.

Definition composed_later (later : list Value) (service : string) : bool :=
  existsb (fun a => is_some_and (as_str a.["kind"]) (contains_str ["deploy"; "restart"])
                    && eq_str a.["params"].["service_id"] service) later.

Definition affected_services (specs : bmap Value) (params : Value) : list string :=
  match as_str params.["service_id"] with
  | Some service => [service]
  | None => fst <$> List.filter (fun e => binds_secret (str_or_default params.["name"]) e.2) specs
  end.

Definition is_input (action : Value) : bool :=
  contains_str INPUT_KINDS (str_or_default action.["kind"]).

Fixpoint inputs_composed (specs : bmap Value) (actions : list Value) : bool :=
  match actions with
  | [] => true
  | action :: later =>
      (negb (is_input action)
       || forallb (composed_later later) (affected_services specs action.["params"]))
      && inputs_composed specs later
  end.

Definition check_input_composition (db : Db) (vp : VerifiedPlan) : plan_result unit :=
  let actions := items_of (vp_plan vp).["actions"] in
  if negb (existsb is_input actions) then Ok tt
  else
    let '(project, environment) := vp_scope vp in
    let? specs := fold_each insert_scope_spec [] (scope_specs db project environment) in
    let specs := fold_left insert_plan_spec (vp_specs vp) specs in
    check? inputs_composed specs actions else precondition_error in Ok tt.

(** *** Alert channels *)

Context {AS : AlertSpec}.

Definition CHANNEL_KINDS : list string :=
  ["alert.channel.create"; "alert.channel.update"; "alert.channel.delete"].

Definition rule_kind (action : Value) : bool :=
  eq_str action.["kind"] "alert.rule.create" || eq_str action.["kind"] "alert.rule.update".

Definition apply_channel (held : gset string) (kind channel : string) : gset string :=
  if String.eqb kind "alert.channel.delete" then held ∖ {[ channel ]} else {[ channel ]} ∪ held.

Definition held_channels (db : Db) : gset string :=
  fold_left (fun held a =>
      apply_channel held (Definitions.kind a) (str_or_default (Definitions.params a).["channel_id"]))
    (Definitions.effective (Definitions.admitted_actions db CHANNEL_KINDS)) ∅.

Definition channel_step (held : gset string) (action : Value) : plan_result (gset string) :=
  let kind := str_or_default action.["kind"] in
  let params := action.["params"] in
  if contains_str CHANNEL_KINDS kind then
    Ok (apply_channel held kind (str_or_default params.["channel_id"]))
  else if rule_kind action then
    let? channels := ok_or (alert_channels (str_or_default params.["alert_rule_id"])
        (str_or_default params.["name"]) (str_or_default params.["spec"])) precondition_error in
    check? forallb (fun id => bool_decide (id ∈ held)) channels else PlanCode.ChannelMissing in Ok held
  else Ok held.

Definition check_channels_held (db : Db) (actions : list Value) : plan_result unit :=
  if negb (existsb rule_kind actions) then Ok tt
  else let? _ := fold_each channel_step (held_channels db) actions in Ok tt.

(** *** Actions *)

Definition check_cancel (db : Db) (params : Value) : plan_result unit :=
  check? is_some_and (admission_row db (str_or_default params.["plan_id"])) (fun a =>
           eq_str params.["plan_digest_hex"] (ad_plan_digest_hex a)) else precondition_error in Ok tt.

Definition trust_change (kind : string) (params : Value) : TrustChange :=
  if String.eqb kind "key.add" then AddKey params.["entry"] else Revoke params.["revocation"].

Definition change_trust (trust : TrustStore) (change : TrustChange) : plan_result TrustStore :=
  let? document := omap_err (fun _ => precondition_error) (apply_change (Some trust) change (ts_mode trust)) in
  omap_err (fun _ => precondition_error) (validate_trust document (ts_mode trust)).

(** [SELECT spec_digest_hex FROM service_specs WHERE service_id = ?1]. *)
Definition current_spec_digest (db : Db) (service_id : option string) : option string :=
  option_map ss_spec_digest_hex
    (find_first (fun c => is_some_and service_id (eq_opt (ss_service_id c))) (t_service_specs db)).

Definition action_precondition (db : Db) (trust : TrustStore) (action : Value) : plan_result TrustStore :=
  let params := action.["params"] in
  let kind := str_or_default action.["kind"] in
  if contains_str ["key.add"; "key.revoke"] kind then change_trust trust (trust_change kind params)
  else if String.eqb kind "rule.revoke" then
    let? found := store_rule db (str_or_default params.["rule_id"]) in
    let? rule := ok_or found precondition_error in
    check? negb (rr_revoked rule || negb (eq_str params.["rule_digest_hex"] (rr_digest_hex rule)))
      else precondition_error in
    Ok trust
  else if String.eqb kind "rule.create" then
    let? found := store_rule db (str_or_default params.["rule"].["id"]) in
    check? negb (is_some found) else precondition_error in
    Ok trust
  else if String.eqb kind "operation.cancel" then let? _ := check_cancel db params in Ok trust
  else if contains_str ["alert.rule.create"; "alert.rule.update"] kind then
    check? event_kind_evaluated (str_or_default params.["spec"]) else precondition_error in Ok trust
  else if String.eqb kind "deploy" then
    check? count (fun x => is_some_and (as_str params.["deployment_id"]) (eq_opt (ac_deployment_id x)))
             (t_actions db) =? 0 else precondition_error in
    Ok trust
  else if String.eqb kind "restart" then
    check? bool_decide (current_spec_digest db (as_str params.["service_id"])
                        = as_str params.["spec_digest_hex"]) else precondition_error in
    Ok trust
  else Ok trust.

Definition execution_preconditions (db : Db) (trust : TrustStore) (vp : VerifiedPlan)
    (sealed_secrets : list string) : plan_result (list (string * string)) :=
  let actions := items_of (vp_plan vp).["actions"] in
  let? supplied := sealed_preconditions actions sealed_secrets in
  let? _ := check_input_composition db vp in
  let? _ := check_channels_held db actions in
  let? _ := Definitions.definition_preconditions db (vp_plan vp) in
  let? _ := fold_each (action_precondition db) trust actions in
  Ok supplied.

(** ** Writing an admission *)

Definition signed_deployment_id (kind : string) (params : Value) : option string :=
  if String.eqb kind "deploy" then as_str params.["deployment_id"]
  else if String.eqb kind "rollback" then rollback_target params
  else None.

(** Pruning and the replay reservation. *)
Definition reserve (db : Db) (vp : VerifiedPlan) (now : Z) : plan_result Db :=
  let plan := vp_plan vp in
  let db := with_seen db (delete_where (fun r =>
    String.ltb (sn_expires_at r) (format_timestamp (now - SKEW_SECONDS))) (t_seen db)) in
  ok_or (insert_seen db {| sn_nonce := str_or_default plan.["nonce"];
                           sn_plan_id := str_or_default plan.["id"];
                           sn_plan_digest_hex := vp_digest_hex vp;
                           sn_expires_at := str_or_default plan.["expires_at"] |}) PlanCode.Replay.

Definition new_row (db : Db) (vp : VerifiedPlan) (input : AdmitInput) (operation_id : string)
    : AdmissionRow :=
  let plan := vp_plan vp in
  let '(project, environment) := vp_scope vp in
  let head_before := store_head db project environment in
  {| ad_plan_id := str_or_default plan.["id"]; ad_plan_digest_hex := vp_digest_hex vp;
     ad_signed_plan_json := in_envelope input; ad_submitter := submitter_str (in_submitter input);
     ad_operation_id := operation_id; ad_admitted_at := format_timestamp (in_now input);
     ad_finished_at := None; ad_outcome := ""; ad_admission_seq := next_seq db;
     ad_nonce := str_or_default plan.["nonce"]; ad_author_kind := str_or_default plan.["author"].["kind"];
     ad_signer_key_ids := signer_key_ids vp; ad_action_kinds := plan_kinds plan;
     ad_project_id := project; ad_environment := environment; ad_head_before_hex := head_before;
     ad_head_after_hex := next_head head_before (vp_digest_hex vp);
     ad_rule_id := as_str plan.["invocation"].["rule_id"];
     ad_delivery_id := as_str plan.["invocation"].["evidence"].["delivery_id"];
     ad_expires_at := str_or_default plan.["expires_at"];
     ad_environment_id := str_or_default plan.["environment_id"] |}.

(** [for (index, kind) in kinds.iter().enumerate()]; [actions[index]] panics
    beyond the end. *)
Fixpoint write_actions (db : Db) (plan_id : string) (actions : list Value) (index : nat)
    (kinds : list string) : plan_result (Db * list (option string)) :=
  match kinds with
  | [] => Ok (db, [])
  | kind :: rest =>
      match actions !! index with
      | None => Panic
      | Some action =>
          let deployment_id := signed_deployment_id kind action.["params"] in
          let? db := ok_or (insert_action db
            {| ac_plan_id := plan_id; ac_action_index := Z.of_nat index; ac_kind := kind;
               ac_consumed_at := None; ac_finished_at := None; ac_outcome := "";
               ac_consumed_seq := None; ac_result_seq := None; ac_deployment_id := deployment_id |})
            PlanCode.Internal in
          let? written := write_actions db plan_id actions (S index) rest in
          Ok (written.1, deployment_id :: written.2)
      end
  end.

Definition write_spec (plan_id admitted_at : string) (db : Db) (entry : string * (Value * string))
    : plan_result Db :=
  let '(digest, (spec, text)) := entry in
  ok_or (insert_spec_or_ignore db
    {| sp_spec_digest_hex := digest; sp_service_id := str_or_default spec.["service_id"];
       sp_spec_jcs := text; sp_admitted_plan_id := plan_id; sp_admitted_at := admitted_at;
       sp_elevated := spec_elevated spec |}) PlanCode.Internal.

Definition write_service_spec (plan_id admitted_at : string) (db : Db) (action : Value) : plan_result Db :=
  let kind := str_or_default action.["kind"] in
  let params := action.["params"] in
  let upgrade_spec := String.eqb kind "db.upgrade" && is_some (get params "spec_digest_hex") in
  if contains_str LAST_SPEC_KINDS kind || upgrade_spec then
    let? digest := ok_or (as_str params.["spec_digest_hex"]) PlanCode.Internal in
    ok_or (upsert_service_spec db
      {| ss_service_id := if upgrade_spec then as_str params.["resource_id"] else as_str params.["service_id"];
         ss_spec_digest_hex := digest; ss_plan_id := plan_id; ss_admitted_at := admitted_at |})
      PlanCode.Internal
  else Ok db.

Definition write_deployed_commit (plan_id : string) (invocation : Value) (db : Db) (action : Value)
    : plan_result Db :=
  if String.eqb (str_or_default action.["kind"]) "deploy" && negb (is_null invocation) then
    let evidence := invocation.["evidence"] in
    let? service := ok_or (as_str action.["params"].["service_id"]) PlanCode.Internal in
    let? ref := ok_or (as_str evidence.["ref"]) PlanCode.Internal in
    let? sha := ok_or (as_str evidence.["commit_sha"]) PlanCode.Internal in
    let? time := ok_or (as_str evidence.["commit_time"]) PlanCode.Internal in
    ok_or (upsert_deployed_commit db {| dc_service_id := service; dc_ref := ref; dc_commit_sha := sha;
                                        dc_commit_time := time; dc_plan_id := plan_id |}) PlanCode.Internal
  else Ok db.

Definition write_rule (vp : VerifiedPlan) (plan_id : string) (db : Db) (params : Value) : plan_result Db :=
  let rule := params.["rule"] in
  let? text := ok_or (canonicalize rule) PlanCode.Parse in
  let digest := hex (prefixed_digest RULE_PREFIX text) in
  let? creator := ok_or (match find_first owner_present (vp_signers vp) with
                         | Some s => as_str s.["key_id"]
                         | None => None
                         end) PlanCode.TouchIdRequired in
  let? id := ok_or (as_str rule.["id"]) precondition_error in
  ok_or (insert_rule db {| rl_rule := text; rl_rule_digest_hex := digest; rl_created_by_key_id := creator;
                           rl_created_plan_id := plan_id; rl_revoked_at := None; rl_rule_id := id;
                           rl_revoked_plan_id := None |}) precondition_error.

(** The rule a [rule.revoke] marks: named by id and digest, and unmarked. *)
Definition revocable (params : Value) (r : RuleRow) : bool :=
  eq_str params.["rule_id"] (rl_rule_id r) && eq_str params.["rule_digest_hex"] (rl_rule_digest_hex r)
  && negb (is_some (rl_revoked_at r)) && negb (is_some (rl_revoked_plan_id r)).

Definition set_revoked_plan (plan_id : option string) (r : RuleRow) : RuleRow :=
  {| rl_rule := rl_rule r; rl_rule_digest_hex := rl_rule_digest_hex r;
     rl_created_by_key_id := rl_created_by_key_id r; rl_created_plan_id := rl_created_plan_id r;
     rl_revoked_at := rl_revoked_at r; rl_rule_id := rl_rule_id r; rl_revoked_plan_id := plan_id |}.

Definition write_rule_revoke (plan_id : string) (db : Db) (params : Value) : plan_result Db :=
  check? count (revocable params) (t_rules db) =? 1 else precondition_error in
  Ok (with_rules db (update (revocable params) (set_revoked_plan (Some plan_id)) (t_rules db))).

Definition write_action (vp : VerifiedPlan) (plan_id admitted_at : string) (db : Db) (action : Value)
    : plan_result Db :=
  let kind := str_or_default action.["kind"] in
  let? db := write_service_spec plan_id admitted_at db action in
  let? db := write_deployed_commit plan_id (vp_plan vp).["invocation"] db action in
  if String.eqb kind "rule.create" then write_rule vp plan_id db action.["params"]
  else if String.eqb kind "rule.revoke" then write_rule_revoke plan_id db action.["params"]
  else Ok db.

Definition write_invocation (plan_id admitted_at : string) (now : Z) (rule_id delivery_id : option string)
    (db : Db) : plan_result Db :=
  match rule_id, delivery_id with
  | Some rule_id, Some delivery_id =>
      let db := with_invocations db (delete_where (fun i =>
        negb (String.ltb (format_timestamp (now - 3600)) (iv_admitted_at i))) (t_invocations db)) in
      let? db := ok_or (insert_invocation db {| iv_rule_id := rule_id; iv_plan_id := plan_id;
                                                iv_admitted_at := admitted_at |}) PlanCode.Internal in
      ok_or (insert_consumption db {| cs_delivery_id := delivery_id; cs_rule_id := rule_id;
                                      cs_plan_id := plan_id; cs_consumed_at := admitted_at |})
        PlanCode.RuleEvidence
  | _, _ => Ok db
  end.

(** [enumerate().find(|(_, a)| sealed_digest(a) == Some(digest))]. *)
Fixpoint sealing_action (digest : string) (index : nat) (actions : list Value) : option (nat * Value) :=
  match actions with
  | [] => None
  | action :: rest =>
      if eq_opt (sealed_digest action) digest then Some (index, action)
      else sealing_action digest (S index) rest
  end.

Definition write_sealed (vp : VerifiedPlan) (plan_id : string) (db : Db) (entry : string * string)
    : plan_result Db :=
  let '(digest, ciphertext) := entry in
  let? found := ok_or (match as_array (vp_plan vp).["actions"] with
                       | Some actions => sealing_action digest 0 actions
                       | None => None
                       end) precondition_error in
  let '(index, action) := found in
  let secret := eq_str action.["kind"] "secret.set" in
  let text (v : Value) := if secret then str_or_default v else "" in
  let '(project, environment) := vp_scope vp in
  ok_or (insert_sealed_or_ignore db
    {| se_ciphertext_digest_hex := digest; se_plan_id := plan_id; se_ciphertext := ciphertext;
       se_action_index := Z.of_nat index;
       se_project_id := if secret then project else "";
       se_environment := if secret then environment else "";
       se_service_id := text action.["params"].["service_id"];
       se_name := text action.["params"].["name"] |}) PlanCode.Internal.

Definition write_admission (db : Db) (vp : VerifiedPlan) (input : AdmitInput) (operation_id : string)
    (sealed : list (string * string)) : plan_result (Admission * Db) :=
  let plan := vp_plan vp in
  let now := in_now input in
  let admitted_at := format_timestamp now in
  let plan_id := str_or_default plan.["id"] in
  let '(project, environment) := vp_scope vp in
  check? utf8_valid (in_envelope input) else PlanCode.Parse in
  let? db := reserve db vp now in
  let row := new_row db vp input operation_id in
  let? db := ok_or (insert_admission db row) PlanCode.Replay in
  let actions := items_of plan.["actions"] in
  let? written := write_actions db plan_id actions 0 (plan_kinds plan) in
  let? db := fold_each (write_spec plan_id admitted_at) written.1 (vp_specs vp) in
  let? db := fold_each (write_action vp plan_id admitted_at) db actions in
  let? db := ok_or (upsert_head db
    {| hd_project_id := project; hd_environment := environment;
       hd_head_digest_hex := ad_head_after_hex row; hd_plan_id := plan_id;
       hd_updated_at := admitted_at |}) PlanCode.Internal in
  let? db := write_invocation plan_id admitted_at now (ad_rule_id row) (ad_delivery_id row) db in
  let? db := fold_each (write_sealed vp plan_id) db sealed in
  Ok ({| am_plan_id := plan_id; am_plan_digest_hex := vp_digest_hex vp; am_operation_id := operation_id;
         am_admitted_at := admitted_at; am_deduplicated := false; am_deployment_ids := written.2 |}, db).

(** ** [AdmissionStore::admit_plan] and [verify_only] *)

Definition deduplicated (db : Db) (plan_id digest_hex : string) : plan_result Admission :=
  let? row := ok_or (admission_row db plan_id) PlanCode.Internal in
  Ok {| am_plan_id := plan_id; am_plan_digest_hex := digest_hex; am_operation_id := ad_operation_id row;
        am_admitted_at := ad_admitted_at row; am_deduplicated := true; am_deployment_ids := [] |}.

Definition admit_plan (db : Db) (trust : TrustStore) (starts : BuildStarts) (random : list ascii)
    (input : AdmitInput) : plan_result (Admission * Db) :=
  let? _ := check_quarantine db (in_now input) in
  let? verdict := verify_signed_plan (in_envelope input) (in_specs input) (in_submitter input)
                    (TxContext db trust (in_now input) starts) in
  match verdict with
  | Deduped plan_id digest_hex => let? admission := deduplicated db plan_id digest_hex in Ok (admission, db)
  | Admit verified =>
      let? sealed := execution_preconditions db trust verified (in_sealed_secrets input) in
      write_admission db verified input (new_uuid7 random (unix_ms_of (in_now input))) sealed
  end.

Definition verify_only (db : Db) (trust : TrustStore) (starts : BuildStarts) (input : AdmitInput)
    : plan_result Verdict :=
  let? _ := check_quarantine db (in_now input) in
  let? verdict := verify_signed_plan (in_envelope input) (in_specs input) (in_submitter input)
                    (TxContext db trust (in_now input) starts) in
  match verdict with
  | Admit verified =>
      let? _ := execution_preconditions db trust verified (in_sealed_secrets input) in Ok verdict
  | Deduped _ _ => Ok verdict
  end.

End admit_plan.
