(* ===== verification/F64.v ===== *)
(** * f64

    The part of Rust's [f64] the code uses: reading a decimal text
    ([str::parse::<f64>], correctly rounded), conversion of JSON numbers,
    comparison, subtraction, [ceil], the saturating [as] conversions, and the
    text [Display] writes.
    Values are the IEEE 754 binary64 values of the Standard Library's
    [SpecFloat], which is a computable specification without axioms. *)

From Stdlib Require Import SpecFloat.
From S2P Require Import Prelude RustStr Json.

Definition f64 : Type := spec_float.

Definition prec : Z := 53.
Definition emax : Z := 1024.

Definition f64_zero : f64 := S754_zero false.

(** The double nearest to an integer, ties to even. *)
Definition f64_of_Z (n : Z) : f64 := binary_normalize prec emax n 0 false.

(** The double nearest to [n / d]. *)
Definition f64_of_ratio (n d : positive) : f64 :=
  let '(q, e, l) := SFdiv_core_binary prec emax (Zpos n) 0 (Zpos d) 0 in
  binary_round_aux prec emax false q e l.

Definition f64_neg (negative : bool) (x : f64) : f64 := if negative then SFopp x else x.

(** [m * 10 ^ e] with [m] of at most [digits] digits.  Past the guards the
    value is beyond the largest double or below half of the smallest, so the
    power of ten that is computed stays small. *)
Definition f64_of_decimal (m e digits : Z) : f64 :=
  match m with
  | Zpos p =>
      if 400 <? e then S754_infinity false
      else if e + digits <? -400 then f64_zero
      else if 0 <=? e then f64_of_Z (Zpos p * 10 ^ e)
      else f64_of_ratio p (Z.to_pos (10 ^ (- e)))
  | _ => f64_zero
  end.

(** An optional sign. *)
Definition read_sign (s : string) : bool * string :=
  match s with
  | String c r => if Ascii.eqb c "-" then (true, r) else if Ascii.eqb c "+" then (false, r) else (false, s)
  | EmptyString => (false, s)
  end.

(** The longest prefix of digits and the rest. *)
Fixpoint read_digits (s : string) : string * string :=
  match s with
  | String c r => if is_ascii_digit c then let '(d, rest) := read_digits r in (String c d, rest) else ("", s)
  | EmptyString => ("", s)
  end.

(** The exponent part: nothing, or [e], an optional sign and digits. *)
Definition read_exponent (s : string) : option Z :=
  match s with
  | EmptyString => Some 0
  | String c r =>
      if Ascii.eqb c "e" || Ascii.eqb c "E" then
        let '(negative, r) := read_sign r in
        let '(digits, rest) := read_digits r in
        if is_empty digits || negb (is_empty rest) then None
        else Some (if negative then - dec_value digits else dec_value digits)
      else None
  end.

Definition read_fraction (s : string) : string * string :=
  match s with
  | String c r => if Ascii.eqb c "." then read_digits r else ("", s)
  | EmptyString => ("", s)
  end.

Definition parse_decimal (s : string) : option f64 :=
  let '(whole, rest) := read_digits s in
  let '(fraction, rest) := read_fraction rest in
  if is_empty whole && is_empty fraction then None
  else option_map (fun e => f64_of_decimal (dec_value (whole +:+ fraction)) (e - len fraction)
                              (len whole + len fraction))
         (read_exponent rest).

(** [str::parse::<f64>]. *)
Definition parse_f64 (s : string) : option f64 :=
  let '(negative, body) := read_sign s in
  let lower := to_ascii_lowercase body in
  option_map (f64_neg negative)
    (if String.eqb lower "inf" || String.eqb lower "infinity" then Some (S754_infinity false)
     else if String.eqb lower "nan" then Some S754_nan
     else parse_decimal body).

(** [f64::from_bits]. *)
Definition f64_of_bits (bits : Z) : f64 :=
  let sign := Z.testbit bits 63 in
  let exponent := Z.land (Z.shiftr bits 52) 2047 in
  let mantissa := Z.land bits (Z.ones 52) in
  if exponent =? 2047 then if mantissa =? 0 then S754_infinity sign else S754_nan
  else if exponent =? 0 then
    match mantissa with Zpos m => S754_finite sign m (-1074) | _ => S754_zero sign end
  else match mantissa + 2 ^ 52 with Zpos m => S754_finite sign m (exponent - 1075) | _ => S754_zero sign end.

(** [Number::as_f64]. *)
Definition num_as_f64 (n : number) : option f64 :=
  match n with PosInt z | NegInt z => Some (f64_of_Z z) | Float bits => Some (f64_of_bits bits) end.

Definition is_finite (x : f64) : bool :=
  match x with S754_zero _ | S754_finite _ _ _ => true | _ => false end.

(** [(0.0..=max).contains(&x)]; false on NaN. *)
Definition within (max : Z) (x : f64) : bool := SFleb f64_zero x && SFleb x (f64_of_Z max).

(** [x.ceil() as i64] on a finite value in range. *)
Definition f64_ceil (x : f64) : Z :=
  match x with
  | S754_finite sign m e =>
      let v := cond_Zopp sign (Zpos m) in
      if 0 <=? e then v * 2 ^ e else - ((- v) / 2 ^ (- e))
  | _ => 0
  end.

(** [x as u32]: truncated towards zero and saturating; 0 on NaN. *)
Definition f64_as_u32 (x : f64) : Z :=
  match x with
  | S754_finite false m e =>
      Z.min (if 0 <=? e then Zpos m * 2 ^ e else Zpos m / 2 ^ (- e)) (2 ^ 32 - 1)
  | S754_infinity false => 2 ^ 32 - 1
  | _ => 0
  end.

(** [f64::to_bits]. *)
Definition f64_bits (x : f64) : Z :=
  let signed (s : bool) (b : Z) := if s then 2 ^ 63 + b else b in
  match x with
  | S754_zero s => signed s 0
  | S754_infinity s => signed s (2047 * 2 ^ 52)
  | S754_nan => 2047 * 2 ^ 52 + 2 ^ 51
  | S754_finite s m e => signed s (if Zpos m <? 2 ^ 52 then Zpos m else (e + 1075) * 2 ^ 52 + (Zpos m - 2 ^ 52))
  end.

Definition is_nan (x : f64) : bool := match x with S754_nan => true | _ => false end.
Definition f64_sub (x y : f64) : f64 := SFsub prec emax x y.
Definition f64_gt (x y : f64) : bool := SFltb y x.
Definition f64_ge (x y : f64) : bool := SFleb y x.
(** [f64::EPSILON]: 2 ^ -52. *)
Definition EPSILON : f64 := S754_finite false (2 ^ 52) (-104).

(** ** Display

    The shortest digits that read back as the value, the nearest such digits
    and upwards on a tie; written without an exponent. *)

(** [v = num / den] lies in [[10 ^ (k - 1), 10 ^ k)]; scaled by 10 ^ 340 the
    smallest double keeps 16 digits before the point. *)
Definition decimal_point (num den : Z) : Z := len (dec_string (num * 10 ^ 340 / den)) - 340.

Definition reads_back (x : f64) (d e : Z) : bool := SFeqb (f64_of_decimal d e 0) x.

(** The digits of [num / den] down to [10 ^ (k - n)], rounded to a text that
    reads back. *)
Definition round_digits (x : f64) (num den k n : Z) : option (Z * Z) :=
  let e := k - n in
  let '(top, bottom) := if 0 <=? e then (num, den * 10 ^ e) else (num * 10 ^ (- e), den) in
  let d := top / bottom in
  let down := reads_back x d e in
  let up := reads_back x (d + 1) e in
  if up && (negb down || (bottom <=? 2 * (top mod bottom))) then
    Some (if d + 1 =? 10 ^ n then (1, e + n) else (d + 1, e))
  else if down then Some (d, e) else None.

Fixpoint shortest (fuel : nat) (x : f64) (num den k n : Z) : Z * Z :=
  match round_digits x num den k n, fuel with
  | Some r, _ => r
  | None, O => (0, 0)
  | None, S fuel => shortest fuel x num den k (n + 1)
  end.

Fixpoint zeros (n : nat) : string := match n with O => "" | S n => String "0" (zeros n) end.

Definition positional (d e : Z) : string :=
  let digits := dec_string d in
  let point := len digits + e in
  if 0 <=? e then digits +:+ zeros (Z.to_nat e)
  else if 0 <? point then
    String.substring 0 (Z.to_nat point) digits +:+ "." +:+ String.substring (Z.to_nat point) (Z.to_nat (- e)) digits
  else "0." +:+ zeros (Z.to_nat (- point)) +:+ digits.

(** Seventeen digits always read back. *)
Definition f64_text (x : f64) : string :=
  match x with
  | S754_nan => "NaN"
  | S754_infinity s => if s then "-inf" else "inf"
  | S754_zero s => if s then "-0" else "0"
  | S754_finite s m e =>
      let '(num, den) := if 0 <=? e then (Zpos m * 2 ^ e, 1) else (Zpos m, 2 ^ (- e)) in
      let '(d, x) := shortest 17 (S754_finite false m e) num den (decimal_point num den) 1 in
      (if s then "-" else "") +:+ positional d x
  end.

Example text_examples :
  f64_text <$> [f64_of_Z 1; f64_of_Z 0; f64_of_Z 1500; f64_of_Z (-7)] = ["1"; "0"; "1500"; "-7"] /\
  f64_text <$> parse_f64 "0.1" = Some "0.1" /\ f64_text <$> parse_f64 "92.5" = Some "92.5" /\
  f64_text <$> parse_f64 "1e21" = Some "1000000000000000000000" /\ f64_text <$> parse_f64 "1e-7" = Some "0.0000001" /\
  f64_text <$> parse_f64 "0.30000000000000004" = Some "0.30000000000000004" /\
  f64_text <$> parse_f64 "123456.789" = Some "123456.789" /\
  f64_text (f64_of_bits 1) = "0." +:+ zeros 323 +:+ "5".
Proof. vm_compute. done. Qed.

Example bits_examples : f64_bits <$> parse_f64 "0.1" = Some 0x3FB999999999999A /\
  f64_bits (f64_of_bits 1) = 1 /\ f64_bits (f64_of_Z (-2)) = 0xC000000000000000.
Proof. vm_compute. done. Qed.

Example parse_300 : parse_f64 "300" = Some (f64_of_Z 300) /\ f64_ceil (f64_of_Z 300) = 300.
Proof. vm_compute. done. Qed.

Example parse_1_5 : f64_ceil <$> parse_f64 "1.5" = Some 2 /\ f64_ceil <$> parse_f64 "+.5e1" = Some 5.
Proof. vm_compute. done. Qed.

(** 0.1 has the bits 0x3FB999999999999A; 1e23 is below the real value. *)
Example parse_tenth : parse_f64 "0.1" = Some (f64_of_bits 0x3FB999999999999A) /\
  parse_f64 "1e23" = Some (f64_of_bits 0x44B52D02C7E14AF6) /\
  parse_f64 "4.9e-324" = Some (f64_of_bits 1) /\ parse_f64 "1e999999999999" = Some (S754_infinity false) /\
  parse_f64 "." = None /\ parse_f64 "1e" = None /\ parse_f64 "-Inf" = Some (S754_infinity true).
Proof. vm_compute. done. Qed.
