(* ===== verification/AlertRules.v ===== *)
(** * Alert rule specs

    src/local/sched/alert_spec.rs: the signed [spec] text of an alert rule
    read into an [AlertRule] (the enums are those of
    proto/agent/v2/alerts.proto and telemetry.proto), and the instance of
    [AlertSpec] by which admission uses it.  The regular expression crate is
    the parameter [RegexCrate].  A prost [Duration] whose nanos are 0 is its
    seconds. *)

From S2P Require Import Prelude RustStr BTree PlanCode Json Jcs JsonRead F64 Crypto Text Calendar Schema.
From S2P Require Import Actions Trust Verify Samples Store DefinitionStore AdmissionStore.

Class RegexCrate : Type := { regex_compiles : string -> bool }.

Definition alert_result (A : Type) : Type := outcome string A.

(** ** Enums: the names and numbers of the proto files *)

Definition proto_enum : Type := list (string * Z).

Definition AlertSeverity : proto_enum :=
  [ ("ALERT_SEVERITY_UNSPECIFIED", 0); ("ALERT_SEVERITY_INFO", 1); ("ALERT_SEVERITY_WARNING", 2);
    ("ALERT_SEVERITY_CRITICAL", 3) ].
Definition ComparisonOp : proto_enum :=
  [ ("COMPARISON_OP_UNSPECIFIED", 0); ("COMPARISON_OP_GT", 1); ("COMPARISON_OP_GTE", 2);
    ("COMPARISON_OP_LT", 3); ("COMPARISON_OP_LTE", 4); ("COMPARISON_OP_EQ", 5); ("COMPARISON_OP_NEQ", 6);
    ("COMPARISON_OP_ABSENT", 7) ].
Definition EventKind : proto_enum :=
  [ ("KIND_UNSPECIFIED", 0); ("KIND_DEPLOY_FAILED", 1); ("KIND_ROLLBACK", 2);
    ("KIND_HEALTH_CHECK_FAILING", 3); ("KIND_CONTAINER_OOM", 4); ("KIND_CONTAINER_RESTART_LOOP", 5);
    ("KIND_CRON_FAILED", 6); ("KIND_CRON_MISSED", 7); ("KIND_BACKUP_FAILED", 8);
    ("KIND_RESTORE_VERIFICATION_FAILED", 9); ("KIND_CERT_EXPIRING", 10); ("KIND_DISK_PRESSURE", 11);
    ("KIND_MEMORY_PRESSURE", 12); ("KIND_WEBHOOK_BUILD_FAILED", 13); ("KIND_TELEMETRY_DROPPING", 14) ].
Definition LogLevel : proto_enum :=
  [ ("LOG_LEVEL_UNSPECIFIED", 0); ("LOG_LEVEL_TRACE", 1); ("LOG_LEVEL_DEBUG", 2); ("LOG_LEVEL_INFO", 3);
    ("LOG_LEVEL_WARN", 4); ("LOG_LEVEL_ERROR", 5); ("LOG_LEVEL_FATAL", 6) ].
Definition MatcherOp : proto_enum :=
  [ ("OP_UNSPECIFIED", 0); ("OP_EQ", 1); ("OP_NEQ", 2); ("OP_REGEX", 3); ("OP_NOT_REGEX", 4) ].
Definition MetricAggregation : proto_enum :=
  [ ("METRIC_AGGREGATION_UNSPECIFIED", 0); ("METRIC_AGGREGATION_AVG", 1); ("METRIC_AGGREGATION_SUM", 2);
    ("METRIC_AGGREGATION_MIN", 3); ("METRIC_AGGREGATION_MAX", 4); ("METRIC_AGGREGATION_RATE", 5);
    ("METRIC_AGGREGATION_P50", 6); ("METRIC_AGGREGATION_P95", 7); ("METRIC_AGGREGATION_P99", 8) ].

Definition from_str_name (e : proto_enum) (text : string) : option Z := bget text e.
Definition enum_try_from (e : proto_enum) (n : Z) : option Z :=
  if existsb (fun x => x.2 =? n) e then Some n else None.

(** ** Messages *)

Record AlertScope := {
  as_project_id : string; as_service_id : string; as_deployment_id : string; as_app_id : string;
  as_environment : string; as_environment_id : string
}.

Record LabelMatcher := { lm_name : string; lm_op : Z; lm_value : string }.

Record MetricCondition := {
  mc_metric : string; mc_matchers : list LabelMatcher; mc_aggregation : Z; mc_window : Z; mc_op : Z;
  mc_threshold : f64; mc_for_duration : Z
}.

Record LogCondition := {
  lc_scope : option AlertScope; lc_min_level : Z; lc_contains : string; lc_regex : string;
  lc_window : Z; lc_count : Z
}.

Record EventCondition := { ec_kind : Z; ec_scope : option AlertScope }.

Inductive Condition :=
| Metric (m : MetricCondition)
| Log (l : LogCondition)
| Event (e : EventCondition).

(** The fields [parse] sets; the others keep their defaults. *)
Record AlertRule := {
  al_id : string; al_name : string; al_severity : Z; al_condition : Condition;
  al_channel_ids : list string; al_repeat_interval : Z; al_notify_on_resolve : bool; al_enabled : bool
}.

(** ** Fields *)

Definition DEFAULT_REPEAT_SECONDS : Z := 4 * 3600.
Definition REPEAT_RANGE : Z * Z := (300, 7 * 86400).
Definition METRIC_WINDOW : Z * Z := (30, 86400).
Definition DEFAULT_METRIC_WINDOW : Z := 300.
Definition FOR_RANGE : Z * Z := (0, 86400).
Definition LOG_WINDOW : Z * Z := (60, 86400).
Definition MAX_REGEX_BYTES : Z := 512.

Definition to_ascii_uppercase_byte (b : ascii) : ascii :=
  if is_ascii_lowercase b then ascii_of_N (code b - 32) else b.

(** The loop of [camel]; field names are ASCII. *)
Fixpoint camel_from (upper : bool) (name : string) : string :=
  match name with
  | EmptyString => ""
  | String c rest =>
      if Ascii.eqb c "_" then camel_from true rest
      else if upper then String (to_ascii_uppercase_byte c) (camel_from false rest)
      else String c (camel_from false rest)
  end.

Definition camel (name : string) : string := camel_from false name.

Definition alert_field (map : bmap Value) (name : string) : option Value :=
  let found := match bget (camel name) map with Some v => Some v | None => bget name map end in
  match found with Some VNull => None | found => found end.

Definition string_field (map : bmap Value) (name : string) : alert_result string :=
  match alert_field map name with
  | None => Ok ""
  | Some (VString text) => Ok text
  | Some _ => Err (name +:+ " must be a string")
  end.

Definition boolean_field (map : bmap Value) (name : string) : alert_result bool :=
  match alert_field map name with
  | None => Ok false
  | Some (VBool b) => Ok b
  | Some _ => Err (name +:+ " must be a boolean")
  end.

Definition number_field (map : bmap Value) (name : string) : alert_result f64 :=
  match alert_field map name with
  | None => Ok f64_zero
  | Some (VNumber n) => ok_or (num_as_f64 n) (name +:+ " is not a number")
  | Some (VString s) => ok_or (parse_f64 s) (name +:+ " is not a number")
  | Some _ => Err (name +:+ " must be a number")
  end.

Definition dquote_300s : string := String "034" "300s" +:+ String "034" "".

Definition duration_field (map : bmap Value) (name : string) : alert_result (option Z) :=
  match alert_field map name with
  | None => Ok None
  | Some value =>
      let like := name +:+ " must be a duration like " +:+ dquote_300s in
      let? text := ok_or (match as_str value with Some t => strip_suffix "s" t | None => None end) like in
      let? seconds := ok_or (parse_f64 text) like in
      check? is_finite seconds && within (10 ^ 9) seconds else name +:+ " is out of range" in
      Ok (Some (f64_ceil seconds))
  end.

Definition i32_of (n : Z) : option Z := if (- 2 ^ 31 <=? n) && (n <? 2 ^ 31) then Some n else None.

Definition enum_value (map : bmap Value) (name : string) (e : proto_enum) : alert_result (option Z) :=
  let unknown := name +:+ ": unknown value" in
  match alert_field map name with
  | None => Ok None
  | Some (VString text) => let? v := ok_or (from_str_name e text) unknown in Ok (Some v)
  | Some (VNumber n) =>
      let? v := ok_or (match num_as_i64 n with
                       | Some n => match i32_of n with Some n => enum_try_from e n | None => None end
                       | None => None
                       end) unknown in
      Ok (Some v)
  | Some _ => Err unknown
  end.

Definition object_of (value : Value) (name : string) : alert_result (bmap Value) :=
  ok_or (as_object value) (name +:+ " must be an object").

Definition in_range (value : Z) (range : Z * Z) (name : string) : alert_result Z :=
  if (range.1 <=? value) && (value <=? range.2) then Ok value
  else Err (name +:+ " must be " +:+ dec_string range.1 +:+ "-" +:+ dec_string range.2 +:+ " s").

(** ** Conditions *)

Section parse.
Context {JR : JsonReader} {RE : RegexCrate}.

Definition scope_of (map : bmap Value) : alert_result (option AlertScope) :=
  match alert_field map "scope" with
  | None => Ok None
  | Some value =>
      let? map := object_of value "scope" in
      let? project_id := string_field map "project_id" in
      let? service_id := string_field map "service_id" in
      let? deployment_id := string_field map "deployment_id" in
      let? app_id := string_field map "app_id" in
      let? environment := string_field map "environment" in
      let? environment_id := string_field map "environment_id" in
      Ok (Some {| as_project_id := project_id; as_service_id := service_id;
                  as_deployment_id := deployment_id; as_app_id := app_id;
                  as_environment := environment; as_environment_id := environment_id |})
  end.

Definition matcher_of (item : Value) : alert_result LabelMatcher :=
  let? item := object_of item "matcher" in
  let? op := enum_value item "op" MatcherOp in
  let op := default 0 op in
  let? value := string_field item "value" in
  check? negb (((op =? 3) || (op =? 4)) && ((MAX_REGEX_BYTES <? len value) || negb (regex_compiles value)))
    else "matcher regex is invalid" in
  let? name := string_field item "name" in
  Ok {| lm_name := name; lm_op := op; lm_value := value |}.

(** The elements of an optional list field, at most 16 of them. *)
Definition list_field (map : bmap Value) (name error : string) : alert_result (list Value) :=
  match alert_field map name with
  | None => Ok []
  | Some list => let? items := ok_or (as_array list) error in Ok (take 16 items)
  end.

Definition metric_of (map : bmap Value) : alert_result MetricCondition :=
  let? name := string_field map "metric" in
  check? negb (is_empty name || (256 <? len name)) else "metric is required" in
  let? items := list_field map "matchers" "matchers must be a list" in
  let? matchers := map_each matcher_of items in
  let? window := duration_field map "window" in
  let? window := in_range (default DEFAULT_METRIC_WINDOW window) METRIC_WINDOW "window" in
  let? for_duration := duration_field map "for_duration" in
  let? for_duration := in_range (default 0 for_duration) FOR_RANGE "for_duration" in
  let? op := enum_value map "op" ComparisonOp in
  let? op := ok_or (match op with Some 0 => None | op => op end) "op is required" in
  let? aggregation := enum_value map "aggregation" MetricAggregation in
  let? threshold := number_field map "threshold" in
  Ok {| mc_metric := name; mc_matchers := matchers; mc_aggregation := default 0 aggregation;
        mc_window := window; mc_op := op; mc_threshold := threshold; mc_for_duration := for_duration |}.

Definition log_condition_of (map : bmap Value) : alert_result LogCondition :=
  let? regex := string_field map "regex" in
  check? negb ((MAX_REGEX_BYTES <? len regex) || (negb (is_empty regex) && negb (regex_compiles regex)))
    else "regex is invalid" in
  let? window := duration_field map "window" in
  let? window := in_range (default 300 window) LOG_WINDOW "window" in
  let? count := number_field map "count" in
  check? within (10 ^ 9) count else "count is out of range" in
  let? scope := scope_of map in
  let? min_level := enum_value map "min_level" LogLevel in
  let? contains := string_field map "contains" in
  Ok {| lc_scope := scope; lc_min_level := default 0 min_level; lc_contains := contains; lc_regex := regex;
        lc_window := window; lc_count := f64_as_u32 count |}.

Definition event_of (map : bmap Value) : alert_result EventCondition :=
  let? kind := enum_value map "kind" EventKind in
  let? kind := ok_or (match kind with Some 0 => None | kind => kind end) "kind is required" in
  let? scope := scope_of map in
  Ok {| ec_kind := kind; ec_scope := scope |}.

(** ** [parse] *)

Definition condition_of (kind : string) (body : bmap Value) : alert_result Condition :=
  if String.eqb kind "metric" then let? m := metric_of body in Ok (Metric m)
  else if String.eqb kind "log" then let? l := log_condition_of body in Ok (Log l)
  else let? e := event_of body in Ok (Event e).

(** The conditions present, in the order of the names. *)
Definition conditions_of (map : bmap Value) : list (string * Value) :=
  filter_map (fun name => option_map (fun v => (name, v)) (alert_field map name)) ["metric"; "log"; "event"].

Definition channel_id (id : Value) : alert_result string :=
  ok_or (as_str id) "channel_ids must be strings".

Definition parse_alert (rule_id name spec : string) : alert_result AlertRule :=
  let? value := ok_or (from_slice spec) "spec is not JSON" in
  let? map := object_of value "spec" in
  let? condition := ok_or (match conditions_of map with [c] => Some c | _ => None end)
                      "exactly one of metric, log or event is required" in
  let? body := object_of condition.2 condition.1 in
  let? condition := condition_of condition.1 body in
  let? items := list_field map "channel_ids" "channel_ids must be a list" in
  let? channel_ids := map_each channel_id items in
  let? repeat := duration_field map "repeat_interval" in
  let? repeat := in_range (default DEFAULT_REPEAT_SECONDS repeat) REPEAT_RANGE "repeat_interval" in
  let? severity := enum_value map "severity" AlertSeverity in
  let? notify_on_resolve := boolean_field map "notify_on_resolve" in
  let? enabled := boolean_field map "enabled" in
  Ok {| al_id := rule_id; al_name := name; al_severity := default 2 severity; al_condition := condition;
        al_channel_ids := channel_ids; al_repeat_interval := repeat;
        al_notify_on_resolve := notify_on_resolve; al_enabled := enabled |}.

(** CronMissed, CronFailed, BackupFailed, DeployFailed, WebhookBuildFailed,
    RestoreVerificationFailed, TelemetryDropping. *)
Definition EVALUATED_EVENTS : list Z := [7; 6; 8; 1; 13; 9; 14].

Definition event_evaluated (spec : string) : bool :=
  match parse_alert "rule" "rule" spec with
  | Ok {| al_condition := Event condition |} => existsb (Z.eqb (ec_kind condition)) EVALUATED_EVENTS
  | _ => true
  end.

(** What admission uses. *)
#[global] Instance alert_spec : AlertSpec := {|
  event_kind_evaluated := event_evaluated;
  alert_channels := fun rule_id name spec =>
    match parse_alert rule_id name spec with Ok rule => Some (al_channel_ids rule) | _ => None end
|}.

(** ** Bounds *)

(** A condition within the bounds of section 10.3, with regular expressions
    that compile. *)
Definition condition_ok (c : Condition) : Prop :=
  match c with
  | Metric m => 1 <= len (mc_metric m) <= 256 /\ 30 <= mc_window m <= 86400 /\ 0 <= mc_for_duration m <= 86400 /\
      1 <= mc_op m <= 7 /\ 0 <= mc_aggregation m <= 8 /\ (length (mc_matchers m) <= 16)%nat /\
      Forall (fun x => lm_op x ∈ [3; 4] -> len (lm_value x) <= 512 /\ regex_compiles (lm_value x) = true)
        (mc_matchers m)
  | Log l => 60 <= lc_window l <= 86400 /\ 0 <= lc_count l <= 2 ^ 32 - 1 /\ 0 <= lc_min_level l <= 6 /\
      len (lc_regex l) <= 512 /\ (lc_regex l <> "" -> regex_compiles (lc_regex l) = true)
  | Event e => 1 <= ec_kind e <= 14
  end.

Lemma enum_value_range map name e v lo hi :
  Forall (fun x => lo <= x.2 <= hi) e -> lo <= 0 <= hi ->
  enum_value map name e = Ok v -> lo <= default 0 v <= hi.
Proof.
  intros He H0. rewrite Forall_forall in He. unfold enum_value. destruct (alert_field map name) as [[| |n|text| |]|]; intros Hv; inv_ok Hv; try subst v; try done; simpl.
  - destruct (num_as_i64 n) as [k|]; [|done]. destruct (i32_of k) as [k'|]; [|done].
    unfold enum_try_from in *. destruct (existsb _ e) eqn:Hx'; [|done]. simplify_eq/=.
    apply existsb_exists in Hx' as (y & Hy & Hk). apply Z.eqb_eq in Hk as <-. by apply He, list_elem_of_In.
  - apply bget_In in Hx. by apply (He (text, x)).
Qed.

Lemma enum_within (e : proto_enum) hi :
  forallb (fun x => (0 <=? x.2) && (x.2 <=? hi)) e = true -> Forall (fun x => 0 <= x.2 <= hi) e.
Proof.
  intros H. apply Forall_forall. intros x Hx%list_elem_of_In. rewrite forallb_forall in H. specialize (H x Hx). lia.
Qed.

(** A required enum: not the zero value. *)
Lemma required_enum map name e v k hi :
  Forall (fun x => 0 <= x.2 <= hi) e -> 0 <= hi -> enum_value map name e = Ok v ->
  match v with Some 0 => None | op => op end = Some k -> 1 <= k <= hi.
Proof.
  intros He H0 Hv Hk. pose proof (enum_value_range map name e v 0 hi He ltac:(lia) Hv).
  destruct v as [[| |]|]; simplify_eq/=; lia.
Qed.

Lemma in_range_Ok value range name v : in_range value range name = Ok v -> range.1 <= v <= range.2.
Proof. unfold in_range. destruct (_ && _) eqn:H; [|done]. intros [= <-]. bsplit. lia. Qed.

Lemma f64_as_u32_range x : 0 <= f64_as_u32 x <= 2 ^ 32 - 1.
Proof.
  unfold f64_as_u32. destruct x as [|[]| |[] m e]; try lia.
  assert (0 <= (if 0 <=? e then Z.pos m * 2 ^ e else Z.pos m / 2 ^ (- e))); [|lia].
  destruct (Z.leb_spec 0 e); [|apply Z.div_pos]; lia.
Qed.

Lemma list_field_length map name error items : list_field map name error = Ok items -> (length items <= 16)%nat.
Proof.
  unfold list_field. destruct (alert_field map name); intros Hl; inv_ok Hl; subst items; simpl; [|lia].
  rewrite length_take. lia.
Qed.

Lemma map_each_length {E A B} (f : A -> outcome E B) l l' : map_each f l = Ok l' -> length l' = length l.
Proof. intros H%map_each_Ok. symmetry. by eapply Forall2_length. Qed.

Lemma matcher_of_Ok item x : matcher_of item = Ok x ->
  lm_op x ∈ [3; 4] -> len (lm_value x) <= 512 /\ regex_compiles (lm_value x) = true.
Proof.
  unfold matcher_of. intros Hm Hop. inv_ok Hm. subst x. simpl in *.
  assert ((default 0 x1 =? 3) || (default 0 x1 =? 4) = true) as Hr.
  { apply orb_true_iff. rewrite !Z.eqb_eq. set_solver. }
  rewrite Hr in *. simpl in *. bsplit. unfold MAX_REGEX_BYTES in *. split; [lia|done].
Qed.

Lemma metric_of_ok map m : metric_of map = Ok m -> condition_ok (Metric m).
Proof.
  unfold metric_of. intros Hm. inv_ok Hm. subst m. simpl. bsplit.
  repeat match goal with H : in_range _ _ _ = Ok _ |- _ => apply in_range_Ok in H; simpl in H end.
  match goal with H : list_field _ _ _ = Ok _ |- _ => apply list_field_length in H as Hlen end.
  match goal with H : map_each _ _ = Ok _ |- _ => pose proof (map_each_length _ _ _ H) as Hl; apply map_each_Ok in H as Hall end.
  pose proof (required_enum _ _ ComparisonOp _ _ 7 (enum_within ComparisonOp 7 eq_refl) ltac:(lia) Hx6 Hx7).
  pose proof (enum_value_range _ _ MetricAggregation _ 0 8 (enum_within MetricAggregation 8 eq_refl) ltac:(lia) Hx8).
  split_and!; try lia.
  - unfold is_empty in *. destruct x; [done|]. unfold len. simpl. lia.
  - clear - Hall. induction Hall as [|a b la lb Hab _ IH]; constructor; [by eapply matcher_of_Ok|done].
Qed.

Lemma log_condition_ok map l : log_condition_of map = Ok l -> condition_ok (Log l).
Proof.
  unfold log_condition_of. intros Hl. inv_ok Hl. subst l. simpl. bsplit.
  repeat match goal with H : in_range _ _ _ = Ok _ |- _ => apply in_range_Ok in H; simpl in H end.
  pose proof (f64_as_u32_range x2).
  match goal with H : enum_value _ _ LogLevel = Ok _ |- _ =>
    pose proof (enum_value_range _ _ LogLevel _ 0 6 (enum_within LogLevel 6 eq_refl) ltac:(lia) H) end.
  unfold MAX_REGEX_BYTES in *. split_and!; try lia. intros Hne.
  match goal with H : negb (is_empty _) && _ = false |- _ => rename H into Hre end.
  unfold is_empty in Hre. destruct (String.eqb_spec x ""); [done|]. simpl in Hre. by destruct (regex_compiles x).
Qed.

Lemma condition_of_ok kind body c : condition_of kind body = Ok c -> condition_ok c.
Proof.
  unfold condition_of. destruct (String.eqb kind "metric"); [|destruct (String.eqb kind "log")]; intros Hc; inv_ok Hc; subst c.
  - by eapply metric_of_ok.
  - by eapply log_condition_ok.
  - unfold event_of in Hx. inv_ok Hx. subst x. simpl.
    eapply (required_enum _ _ EventKind _ _ 14 (enum_within EventKind 14 eq_refl)); [lia|eassumption|eassumption].
Qed.

(** An alert rule that parses is within the bounds of its documentation:
    one condition with its window, operator and count in range and regular
    expressions that compile, at most 16 channels, and a repeat interval of
    five minutes to seven days. *)
Theorem parse_alert_bounded rule_id name spec rule :
  parse_alert rule_id name spec = Ok rule ->
  al_id rule = rule_id /\ al_name rule = name /\ condition_ok (al_condition rule) /\
  (length (al_channel_ids rule) <= 16)%nat /\ 300 <= al_repeat_interval rule <= 604800 /\
  0 <= al_severity rule <= 3.
Proof.
  unfold parse_alert. intros Hp. inv_ok Hp. subst rule. cbn [al_id al_name al_condition al_channel_ids
    al_repeat_interval al_severity].
  repeat match goal with H : in_range _ _ _ = Ok _ |- _ => apply in_range_Ok in H; simpl in H end.
  match goal with H : condition_of _ _ = Ok _ |- _ => apply condition_of_ok in H end.
  match goal with H : list_field _ _ _ = Ok _ |- _ => apply list_field_length in H as Hlen end.
  match goal with H : map_each _ _ = Ok _ |- _ => pose proof (map_each_length _ _ _ H) as Hl end.
  match goal with H : enum_value _ _ AlertSeverity = Ok ?v |- _ =>
    pose proof (enum_value_range _ _ AlertSeverity v 0 3 (enum_within AlertSeverity 3 eq_refl) ltac:(lia) H) end.
  split_and!; try done; try lia; destruct x8; simpl in *; lia.
Qed.

End parse.

(** ** Witness *)

#[local] Existing Instance toy_crypto.
#[local] Existing Instance canonical_reader.

Definition no_regex : RegexCrate := {| regex_compiles := fun _ => false |}.
#[local] Existing Instance no_regex.

Definition sample_alert : string := default "" (canonicalize (obj
  [ ("event", obj [("kind", str "KIND_CRON_MISSED")]); ("repeatInterval", str "1800s");
    ("channel_ids", arr [str "c-1"]); ("enabled", VBool true) ])).

Definition sample_alert_rule : AlertRule :=
  {| al_id := "r"; al_name := "n"; al_severity := 2;
     al_condition := Event {| ec_kind := 7; ec_scope := None |};
     al_channel_ids := ["c-1"]; al_repeat_interval := 1800; al_notify_on_resolve := false;
     al_enabled := true |}.

Lemma sample_alert_parses : parse_alert "r" "n" sample_alert = Ok sample_alert_rule.
Proof. vm_compute. reflexivity. Qed.

Lemma parse_alert_bounded_witness :
  al_id sample_alert_rule = "r" /\ al_name sample_alert_rule = "n" /\
  condition_ok (al_condition sample_alert_rule) /\ (length (al_channel_ids sample_alert_rule) <= 16)%nat /\
  300 <= al_repeat_interval sample_alert_rule <= 604800 /\ 0 <= al_severity sample_alert_rule <= 3.
Proof. exact (parse_alert_bounded "r" "n" sample_alert sample_alert_rule sample_alert_parses). Defined.

(** A rule of a kind the agent does not evaluate is the only spec refused here. *)
Example unevaluated_kind : event_evaluated (default "" (canonicalize
    (obj [("event", obj [("kind", str "KIND_ROLLBACK")])]))) = false /\
  event_evaluated sample_alert = true /\ event_evaluated "not json" = true.
Proof. vm_compute. done. Qed.
