(* ===== verification/Reconcile.v ===== *)
(** * Execution state

    src/admissions/reconcile.rs and the writes of src/admissions/query.rs: the
    runner's consumed log applied to the store, the agent's own outcomes, the
    end of the execution window, and the operation events. *)

From S2P Require Import Prelude RustStr BTree PlanCode Json Jcs Crypto Calendar Trust Verify Store.

(** ** Reading the consumed log *)

Record ConsumedLine := {
  cl_v : Z;
  cl_seq : Z;
  cl_at : string;
  cl_event : string;
  cl_plan_id : string;
  cl_plan_digest_hex : string;
  cl_action_index : Z;
  cl_op : option string;
  cl_release_id : option string;
  cl_outcome : option string;
  cl_cleanup : option string
}.

Inductive ReconcileEffect :=
| Consumed (plan_id : string) (action_index : Z)
| ActionFinished (plan_id : string) (action_index : Z) (outcome : string) (cleanup : option string)
| AdmissionFinished (plan_id outcome : string)
| Unexplained (detail : string).

Record LogRead := {
  lr_lines : list ConsumedLine;
  lr_problems : list string;
  lr_inode : option Z;
  lr_offset : Z
}.

Definition ACTION_EVENTS : list string := ["consumed"; "op"; "result"].
Definition OUTCOMES : list string := ["succeeded"; "failed"; "rolled_back"; "cancelled"; "expired"].
Definition CLEANUPS : list string := ["done"; "failed"; "none"].

(** *** [Deserialize for ConsumedLine], as serde derives it *)

Definition raw_uint (bound : Z) (r : Raw) : option Z :=
  match r with RNumber (PosInt n) => if n <=? bound then Some n else None | _ => None end.

Definition raw_string (r : Raw) : option string := match r with RString s => Some s | _ => None end.

Definition raw_opt_string (r : Raw) : option (option string) :=
  match r with RNull => Some None | RString s => Some (Some s) | _ => None end.

(** The values of one field name, in document order. *)
Definition field_values (name : string) (members : list (string * Raw)) : list Raw :=
  snd <$> List.filter (fun m => String.eqb m.1 name) members.

(** A field read once; a repeated field is an error, an absent one takes
    [missing]. *)
Definition read_field {A} (read : Raw -> option A) (missing : option A) (name : string)
    (members : list (string * Raw)) : option A :=
  match field_values name members with
  | [] => missing
  | [r] => read r
  | _ => None
  end.

(** One element of an array; [missing] once the array has ended. *)
Definition read_element {A} (read : Raw -> option A) (missing : option A) (n : nat) (items : list Raw)
    : option A :=
  match items !! n with Some r => read r | None => missing end.

Definition u32_max : Z := 2 ^ 32 - 1.

Section line.
(** [f] reads the named field or the numbered element. *)
Variable f : forall A, (Raw -> option A) -> option A -> string -> nat -> option A.

Definition build_line : option ConsumedLine :=
  v ← f _ (raw_uint u32_max) None "v" 0;
  seq ← f _ (raw_uint u64_max) None "seq" 1;
  at_ ← f _ raw_string None "at" 2;
  event ← f _ raw_string None "event" 3;
  plan_id ← f _ raw_string (Some "") "plan_id" 4;
  digest ← f _ raw_string (Some "") "plan_digest_hex" 5;
  index ← f _ (raw_uint u32_max) (Some 0) "action_index" 6;
  op ← f _ raw_opt_string (Some None) "op" 7;
  release ← f _ raw_opt_string (Some None) "release_id" 8;
  outcome ← f _ raw_opt_string (Some None) "outcome" 9;
  cleanup ← f _ raw_opt_string (Some None) "cleanup" 10;
  Some {| cl_v := v; cl_seq := seq; cl_at := at_; cl_event := event; cl_plan_id := plan_id;
          cl_plan_digest_hex := digest; cl_action_index := index; cl_op := op;
          cl_release_id := release; cl_outcome := outcome; cl_cleanup := cleanup |}.
End line.

Definition line_of_raw (r : Raw) : option ConsumedLine :=
  match r with
  | RMap members => build_line (fun A read missing name _ => read_field read missing name members)
  | RSeq items =>
      if 11 <? lenl items then None
      else build_line (fun A read missing _ n => read_element read missing n items)
  | _ => None
  end.

Section reconcile.
Context {JR : JsonReader}.

Definition well_formed (raw : string) (line : ConsumedLine) : bool :=
  if negb (contains_str ACTION_EVENTS (cl_event line)) then negb (is_empty (cl_event line))
  else match deserialize raw with
  | None => false
  | Some r =>
      let value := value_of_raw r in
      is_string value.["plan_id"] && is_string value.["plan_digest_hex"] && is_u64 value.["action_index"]
  end.

(** One raw line: the parsed one, or the problem it is reported as. *)
Definition read_line (raw : string) : ConsumedLine + string :=
  match (match deserialize raw with Some r => line_of_raw r | None => None end) with
  | Some line => if (cl_v line =? 1) && well_formed raw line then inl line
                 else inr "malformed consumed.log line"
  | None => inr "malformed consumed.log line"
  end.

(** The text up to the last newline, it included: a torn last line is cut. *)
Definition complete_lines (bytes : string) : string :=
  join_str (String "010" "") (match split_last (split "010" bytes) with
                              | Some (_, []) => []
                              | Some (_, init) => init ++ [""]
                              | None => []
                              end).

(** What [read_trusted] says of one log file. *)
Inductive TrustedRead :=
| NoFile
| Untrusted (problem : string)
| TrustedBytes (bytes : string) (inode : Z).

Definition read_file (read : LogRead) (live : bool) (file : TrustedRead) : LogRead :=
  match file with
  | NoFile => read
  | Untrusted problem =>
      {| lr_lines := lr_lines read; lr_problems := lr_problems read ++ [problem];
         lr_inode := lr_inode read; lr_offset := lr_offset read |}
  | TrustedBytes bytes inode =>
      let bytes := complete_lines bytes in
      let results := read_line <$> List.filter (fun raw => negb (is_empty raw)) (split "010" bytes) in
      {| lr_lines := lr_lines read ++ filter_map (fun r => match r with inl l => Some l | inr _ => None end) results;
         lr_problems := lr_problems read ++ filter_map (fun r => match r with inr p => Some p | inl _ => None end) results;
         lr_inode := if live then Some inode else lr_inode read;
         lr_offset := if live then len bytes else lr_offset read |}
  end.

Definition no_log : LogRead := {| lr_lines := []; lr_problems := []; lr_inode := None; lr_offset := 0 |}.

(** [read_consumed_log]: the rotated file, then the live one. *)
Definition read_consumed_log (rotated live : TrustedRead) : LogRead :=
  read_file (read_file no_log false rotated) true live.

(** ** Applying lines *)

(** [seq as i64] of an unsigned 64 bit number. *)
Definition as_i64_bits (z : Z) : Z := if i64_max <? z then z - 2 ^ 64 else z.

Definition last_seq (db : Db) : Z :=
  match t_cursor db with Some c => if cu_last_seq c <? 0 then 0 else cu_last_seq c | None => 0 end.

(** [dedup_by_key]: the first of each run of equal keys. *)
Fixpoint dedup_after (seq : Z) (l : list ConsumedLine) : list ConsumedLine :=
  match l with
  | [] => []
  | x :: rest => if cl_seq x =? seq then dedup_after seq rest else x :: dedup_after (cl_seq x) rest
  end.

Definition dedup_lines (l : list ConsumedLine) : list ConsumedLine :=
  match l with [] => [] | x :: rest => x :: dedup_after (cl_seq x) rest end.

Definition new_lines (read : LogRead) (last : Z) : list ConsumedLine :=
  dedup_lines (order_asc cl_seq (List.filter (fun line => last <? cl_seq line) (lr_lines read))).

Definition is_action (plan_id : string) (index : Z) (x : ActionRow) : bool :=
  String.eqb (ac_plan_id x) plan_id && (ac_action_index x =? index).

(** [admission_actions x JOIN admissions a] on the plan, digest and index. *)
Definition named_count (db : Db) (line : ConsumedLine) : Z :=
  lenl (x ← select (is_action (cl_plan_id line) (cl_action_index line)) (t_actions db);
        select (fun a => String.eqb (ad_plan_id a) (ac_plan_id x)
                         && String.eqb (ad_plan_digest_hex a) (cl_plan_digest_hex line)) (t_admissions db)).

Definition set_consumed (at_ : string) (seq : Z) (x : ActionRow) : ActionRow :=
  {| ac_plan_id := ac_plan_id x; ac_action_index := ac_action_index x; ac_kind := ac_kind x;
     ac_consumed_at := Some at_; ac_finished_at := ac_finished_at x; ac_outcome := ac_outcome x;
     ac_consumed_seq := Some seq; ac_result_seq := ac_result_seq x; ac_deployment_id := ac_deployment_id x |}.

Definition set_finished (at_ outcome : string) (result_seq : option Z) (x : ActionRow) : ActionRow :=
  {| ac_plan_id := ac_plan_id x; ac_action_index := ac_action_index x; ac_kind := ac_kind x;
     ac_consumed_at := ac_consumed_at x; ac_finished_at := Some at_; ac_outcome := outcome;
     ac_consumed_seq := ac_consumed_seq x; ac_result_seq := result_seq;
     ac_deployment_id := ac_deployment_id x |}.

Definition set_admission_finished (at_ : option string) (outcome : string) (a : AdmissionRow) : AdmissionRow :=
  {| ad_plan_id := ad_plan_id a; ad_plan_digest_hex := ad_plan_digest_hex a;
     ad_signed_plan_json := ad_signed_plan_json a; ad_submitter := ad_submitter a;
     ad_operation_id := ad_operation_id a; ad_admitted_at := ad_admitted_at a; ad_finished_at := at_;
     ad_outcome := outcome; ad_admission_seq := ad_admission_seq a; ad_nonce := ad_nonce a;
     ad_author_kind := ad_author_kind a; ad_signer_key_ids := ad_signer_key_ids a;
     ad_action_kinds := ad_action_kinds a; ad_project_id := ad_project_id a;
     ad_environment := ad_environment a; ad_head_before_hex := ad_head_before_hex a;
     ad_head_after_hex := ad_head_after_hex a; ad_rule_id := ad_rule_id a;
     ad_delivery_id := ad_delivery_id a; ad_expires_at := ad_expires_at a;
     ad_environment_id := ad_environment_id a |}.

Definition set_revoked (at_ : string) (r : RuleRow) : RuleRow :=
  {| rl_rule := rl_rule r; rl_rule_digest_hex := rl_rule_digest_hex r;
     rl_created_by_key_id := rl_created_by_key_id r; rl_created_plan_id := rl_created_plan_id r;
     rl_revoked_at := Some at_; rl_rule_id := rl_rule_id r; rl_revoked_plan_id := rl_revoked_plan_id r |}.

Definition unmark (r : RuleRow) : RuleRow :=
  {| rl_rule := rl_rule r; rl_rule_digest_hex := rl_rule_digest_hex r;
     rl_created_by_key_id := rl_created_by_key_id r; rl_created_plan_id := rl_created_plan_id r;
     rl_revoked_at := rl_revoked_at r; rl_rule_id := rl_rule_id r; rl_revoked_plan_id := None |}.

(** A rule whose pending revocation is the plan's. *)
Definition pending_revoke (plan_id : string) (r : RuleRow) : bool :=
  eq_opt (rl_revoked_plan_id r) plan_id && negb (is_some (rl_revoked_at r)).

Definition settle_rule_revoke (db : Db) (plan_id : string) (action_index : Z) (outcome at_ : string) : Db :=
  let kind := option_map ac_kind (find_first (is_action plan_id action_index) (t_actions db)) in
  if negb (bool_decide (kind = Some "rule.revoke")) then db
  else if String.eqb outcome "succeeded"
  then with_rules db (update (pending_revoke plan_id) (set_revoked at_) (t_rules db))
  else with_rules db (update (pending_revoke plan_id) unmark (t_rules db)).

Definition plan_actions (db : Db) (plan_id : string) : list ActionRow :=
  select (fun x => String.eqb (ac_plan_id x) plan_id) (t_actions db).

(** [SUM(finished_at IS NULL)], NULL (read as 1) without rows. *)
Definition unfinished (rows : list ActionRow) : Z :=
  match rows with [] => 1 | _ => count (fun x => negb (is_some (ac_finished_at x))) rows end.

Definition combined_outcome (outcomes : list string) : string :=
  default "succeeded" (find_first (fun o => existsb (String.eqb o) outcomes)
                         ["failed"; "expired"; "rolled_back"; "cancelled"]).

(** An admission of the plan without an end. *)
Definition open_admission (plan_id : string) (a : AdmissionRow) : bool :=
  String.eqb (ad_plan_id a) plan_id && negb (is_some (ad_finished_at a)).

Definition finish_admission_if_done (db : Db) (plan_id : string) : Db * option string :=
  let rows := plan_actions db plan_id in
  if negb (unfinished rows =? 0) then (db, None)
  else
    let outcome := combined_outcome (ac_outcome <$> rows) in
    let latest := max_text (ac_finished_at <$> rows) in
    (with_admissions db (update (open_admission plan_id) (set_admission_finished latest outcome)
                           (t_admissions db)),
     if count (open_admission plan_id) (t_admissions db) =? 1 then Some outcome else None).

Definition apply_line (db : Db) (line : ConsumedLine) : Db * list ReconcileEffect :=
  let plan_id := cl_plan_id line in
  let index := cl_action_index line in
  if negb (named_count db line =? 1) then
    (db, [Unexplained ("consumed.log seq " +:+ dec_string (cl_seq line) +:+ " names an unknown admission")])
  else if String.eqb (cl_event line) "consumed" then
    let fresh := fun x => is_action plan_id index x && negb (is_some (ac_consumed_seq x)) in
    (with_actions db (update fresh (set_consumed (cl_at line) (as_i64_bits (cl_seq line))) (t_actions db)),
     if count fresh (t_actions db) =? 1 then [Consumed plan_id index] else [])
  else if String.eqb (cl_event line) "result" then
    let outcome := default "" (cl_outcome line) in
    if negb (contains_str OUTCOMES outcome) then
      (db, [Unexplained ("consumed.log seq " +:+ dec_string (cl_seq line) +:+ " has an unknown outcome")])
    else
      let db := with_actions db (update (is_action plan_id index)
        (set_finished (cl_at line) outcome (Some (as_i64_bits (cl_seq line)))) (t_actions db)) in
      let db := settle_rule_revoke db plan_id index outcome (cl_at line) in
      let cleanup := match cl_cleanup line with
        | Some c => if String.eqb outcome "cancelled" && contains_str CLEANUPS c then Some c else None
        | None => None
        end in
      let '(db, finished) := finish_admission_if_done db plan_id in
      (db, ActionFinished plan_id index outcome cleanup
           :: match finished with Some o => [AdmissionFinished plan_id o] | None => [] end)
  else (db, []).

Definition gap_effect (last : Z) (line : ConsumedLine) : list ReconcileEffect :=
  if cl_seq line =? last + 1 then []
  else [Unexplained ("consumed.log seq gap " +:+ dec_string last +:+ " -> " +:+ dec_string (cl_seq line))].

Fixpoint apply_lines (db : Db) (last : Z) (lines : list ConsumedLine) : Db * Z * list ReconcileEffect :=
  match lines with
  | [] => (db, last, [])
  | line :: rest =>
      let gap := gap_effect last line in
      let '(db, effects) := if contains_str ACTION_EVENTS (cl_event line) then apply_line db line else (db, []) in
      let '(db, last, more) := apply_lines db (cl_seq line) rest in
      (db, last, gap ++ effects ++ more)
  end.

Definition reconcile (db : Db) (read : LogRead) (now : Z) : Db * list ReconcileEffect :=
  let last := last_seq db in
  let '(db, last, effects) := apply_lines db last (new_lines read last) in
  (with_cursor db (Some {| cu_last_seq := as_i64_bits last;
                           cu_log_inode := option_map as_i64_bits (lr_inode read);
                           cu_log_offset := as_i64_bits (lr_offset read);
                           cu_reconciled_at := Some (format_timestamp now) |}),
   (Unexplained <$> lr_problems read) ++ effects).

(** ** The agent's own outcomes *)

(** [finish_action]: a value outside the CHECK of [outcome] fails the
    statement when a row would take it. *)
Definition finish_action (db : Db) (plan_id : string) (action_index : Z) (outcome : string) (now : Z)
    : store_result (bool * Db) :=
  let unfinished_action := fun x => is_action plan_id action_index x && negb (is_some (ac_finished_at x)) in
  let changed := count unfinished_action (t_actions db) in
  if (0 <? changed) && negb (contains_str OUTCOME_CHECK outcome) then Err StoreError.Sqlite
  else
    let at_ := format_timestamp now in
    let db := with_actions db ((fun x => if unfinished_action x
      then set_finished at_ outcome (ac_result_seq x) x else x) <$> t_actions db) in
    let db := if changed =? 1 then settle_rule_revoke db plan_id action_index outcome at_ else db in
    let '(db, _) := finish_admission_if_done db plan_id in
    Ok (changed =? 1, db).

(** ** The execution window *)

Definition untouched (plan_id : string) (x : ActionRow) : bool :=
  String.eqb (ac_plan_id x) plan_id && negb (is_some (ac_consumed_at x)) && negb (is_some (ac_finished_at x)).

Definition window_ended (db : Db) (cutoff : string) (a : AdmissionRow) : bool :=
  negb (is_some (ad_finished_at a)) && String.ltb (ad_admitted_at a) cutoff
  && existsb (untouched (ad_plan_id a)) (t_actions db).

Definition expire_plan (at_ : string) (db : Db) (plan_id : string) : Db :=
  let db := with_actions db ((fun x => if untouched plan_id x
    then set_finished at_ "expired" (ac_result_seq x) x else x) <$> t_actions db) in
  with_admissions db (update (open_admission plan_id) (set_admission_finished (Some at_) "expired")
                        (t_admissions db)).

Definition expire_windows (db : Db) (now : Z) : list string * Db :=
  let cutoff := format_timestamp (now - EXECUTION_WINDOW_SECONDS) in
  let plan_ids := ad_plan_id <$> select (window_ended db cutoff) (t_admissions db) in
  (plan_ids, fold_left (expire_plan (format_timestamp now)) plan_ids db).

Definition execution_deadline (admitted_at : string) : option Z :=
  option_map (fun at_ => at_ + EXECUTION_WINDOW_SECONDS) (timestamp admitted_at).

(** ** Operation events *)

(** [encode] turns the event's number into its text.  The PRIMARY KEY
    (operation_id, seq) cannot be violated by the next number, and
    [CHECK (seq >= 1)] holds of it. *)
Definition append_operation_event (db : Db) (operation_id : string) (now : Z) (encode : Z -> string)
    : Z * Db :=
  let seq := max_int (ev_seq <$> select (fun e => String.eqb (ev_operation_id e) operation_id) (t_events db)) + 1 in
  (seq, with_events db (t_events db ++ [ {| ev_operation_id := operation_id; ev_seq := seq;
                                           ev_at := format_timestamp now; ev_event := encode seq |} ])).

Definition operation_events_after (db : Db) (operation_id : string) (after_seq : Z) : list (Z * string) :=
  (fun e => (ev_seq e, ev_event e)) <$>
  order_asc ev_seq
    (select (fun e => String.eqb (ev_operation_id e) operation_id && (as_i64_bits after_seq <? ev_seq e))
       (t_events db)).

Definition prune_operation_events (db : Db) (now : Z) : Z * Db :=
  let old := fun e => String.ltb (ev_at e) (format_timestamp (now - OPERATION_EVENT_RETENTION_SECONDS)) in
  (count old (t_events db), with_events db (delete_where old (t_events db))).

End reconcile.
