(* ===== verification/Queries.v ===== *)
(** * Reads of the store and webhook bookkeeping

    The read paths of src/admissions/query.rs and the whole of
    src/admissions/webhooks.rs: deliveries, rejected deliveries and builds. *)

From S2P Require Import Prelude RustStr BTree PlanCode Json Jcs Crypto Text Calendar Trust Verify.
From S2P Require Import Store DefinitionStore AdmissionStore Reconcile.

(** ** query.rs *)

Record AdmissionRecord := {
  q_plan_id : string;
  q_plan_digest_hex : string;
  q_signed_plan_json : string;
  q_submitter : string;
  q_operation_id : string;
  q_admitted_at : string;
  q_finished_at : option string;
  q_outcome : string;
  q_admission_seq : Z;
  q_nonce : string;
  q_author_kind : string;
  q_signer_key_ids : list string;
  q_action_kinds : list string;
  q_project_id : string;
  q_environment : string;
  q_head_after_hex : string;
  q_rule_id : option string;
  q_expires_at : string;
  q_environment_id : string
}.

Definition admission_from_row (a : AdmissionRow) : AdmissionRecord :=
  {| q_plan_id := ad_plan_id a; q_plan_digest_hex := ad_plan_digest_hex a;
     q_signed_plan_json := ad_signed_plan_json a; q_submitter := ad_submitter a;
     q_operation_id := ad_operation_id a; q_admitted_at := ad_admitted_at a;
     q_finished_at := ad_finished_at a; q_outcome := ad_outcome a; q_admission_seq := ad_admission_seq a;
     q_nonce := ad_nonce a; q_author_kind := ad_author_kind a; q_signer_key_ids := ad_signer_key_ids a;
     q_action_kinds := ad_action_kinds a; q_project_id := ad_project_id a;
     q_environment := ad_environment a; q_head_after_hex := ad_head_after_hex a;
     q_rule_id := ad_rule_id a; q_expires_at := ad_expires_at a; q_environment_id := ad_environment_id a |}.

Record ActionRecord := {
  qa_action_index : Z;
  qa_kind : string;
  qa_consumed_at : option string;
  qa_finished_at : option string;
  qa_outcome : string;
  qa_deployment_id : option string
}.

Record HeadRecord := { qh_head_digest_hex : string; qh_last_plan_id : string; qh_updated_at : option string }.

Definition head_record (db : Db) (project_id environment : string) : HeadRecord :=
  match find_first (fun h => String.eqb (hd_project_id h) project_id
                             && String.eqb (hd_environment h) environment) (t_heads db) with
  | Some h => {| qh_head_digest_hex := hd_head_digest_hex h; qh_last_plan_id := hd_plan_id h;
                 qh_updated_at := Some (hd_updated_at h) |}
  | None => {| qh_head_digest_hex := GENESIS_HEAD; qh_last_plan_id := ""; qh_updated_at := None |}
  end.

(** [LIMIT ?2] with [limit as i64]: a negative limit is no limit. *)
Definition sql_limit {A} (limit : Z) (l : list A) : list A :=
  let limit := as_i64_bits limit in if limit <? 0 then l else take (Z.to_nat limit) l.

Definition admissions_after (db : Db) (after limit : Z) : list AdmissionRecord :=
  admission_from_row <$> sql_limit limit (order_asc ad_admission_seq
    (select (fun a => after <? ad_admission_seq a) (t_admissions db))).

Definition admissions_before (db : Db) (before limit : Z) : list AdmissionRecord :=
  let bound := if before <=? 0 then i64_max else before in
  admission_from_row <$> sql_limit limit (order_desc ad_admission_seq
    (select (fun a => ad_admission_seq a <? bound) (t_admissions db))).

Definition admission_by_operation (db : Db) (operation_id : string) : option AdmissionRecord :=
  option_map admission_from_row
    (find_first (fun a => String.eqb (ad_operation_id a) operation_id) (t_admissions db)).

Definition admission (db : Db) (plan_id : string) : option AdmissionRecord :=
  option_map admission_from_row (admission_row db plan_id).

Definition actions_of_plan (db : Db) (plan_id : string) : list ActionRecord :=
  (fun x => {| qa_action_index := ac_action_index x; qa_kind := ac_kind x;
               qa_consumed_at := ac_consumed_at x; qa_finished_at := ac_finished_at x;
               qa_outcome := ac_outcome x; qa_deployment_id := ac_deployment_id x |}) <$>
  order_asc ac_action_index (plan_actions db plan_id).

Definition open_admissions (db : Db) : list AdmissionRecord :=
  admission_from_row <$> order_asc ad_admission_seq
    (select (fun a => negb (is_some (ad_finished_at a))) (t_admissions db)).

Section queries.
Context {JR : JsonReader}.

(** [serde_json::from_str::<Value>(text)]. *)
Definition json_value (text : string) : option Value := option_map value_of_raw (deserialize text).

Definition has_previous_release (db : Db) (record : AdmissionRecord) (service_id : string) : bool :=
  existsb (fun row =>
      let envelope := default VNull (json_value (ad_signed_plan_json row.2)) in
      eq_str (Definitions.envelope_action envelope (ac_action_index row.1)).["params"].["service_id"] service_id)
    (List.filter (fun row =>
        String.eqb (ad_project_id row.2) (q_project_id record)
        && String.eqb (ad_environment row.2) (q_environment record)
        && (ad_admission_seq row.2 <? q_admission_seq record)
        && String.eqb (ac_outcome row.1) "succeeded")
      (Definitions.joined db (fun x => contains_str ["deploy"; "rollback"; "restart"] (ac_kind x)))).

Record RuleInfo := {
  qr_rule_id : string;
  qr_rule_jcs : string;
  qr_rule_digest_hex : string;
  qr_created_by_key_id : string;
  qr_created_plan_id : string;
  qr_installed_at : string;
  qr_revoked_at : option string;
  qr_revoke_pending : bool;
  qr_invocations_last_hour : Z;
  qr_match_count : Z;
  qr_last_matched_at : option string
}.

(** [rules r JOIN admissions a ON a.plan_id = r.created_plan_id]. *)
Definition rule_rows (db : Db) : list (RuleRow * AdmissionRow) :=
  order_asc (fun row => ad_admission_seq row.2)
    (r ← t_rules db;
     a ← select (fun a => String.eqb (ad_plan_id a) (rl_created_plan_id r)) (t_admissions db);
     [(r, a)]).

Definition rule_info (db : Db) (now : Z) (row : RuleRow * AdmissionRow) : RuleInfo :=
  let '(r, a) := row in
  let matches := select (fun m => eq_opt (ad_rule_id m) (rl_rule_id r)) (t_admissions db) in
  {| qr_rule_id := rl_rule_id r; qr_rule_jcs := rl_rule r; qr_rule_digest_hex := rl_rule_digest_hex r;
     qr_created_by_key_id := rl_created_by_key_id r; qr_created_plan_id := rl_created_plan_id r;
     qr_installed_at := ad_admitted_at a; qr_revoked_at := rl_revoked_at r;
     qr_revoke_pending := is_some (rl_revoked_plan_id r);
     qr_invocations_last_hour := store_invocations db now (rl_rule_id r);
     qr_match_count := lenl matches;
     qr_last_matched_at := max_text (Some <$> (ad_admitted_at <$> matches)) |}.

Definition rules (db : Db) (include_revoked : bool) (now : Z) : list RuleInfo :=
  List.filter (fun rule => include_revoked || (negb (is_some (qr_revoked_at rule)) && negb (qr_revoke_pending rule)))
    (rule_info db now <$> rule_rows db).

(** ** Deployments *)

Definition MAX_DEPLOYMENT_ROWS : Z := 10000.

Record StoredDeployment := {
  sd_deployment_id : string;
  sd_plan_id : string;
  sd_operation_id : string;
  sd_project_id : string;
  sd_environment : string;
  sd_environment_id : string;
  sd_service_id : string;
  sd_admission_seq : Z;
  sd_admitted_at : string;
  sd_consumed_at : option string;
  sd_finished_at : option string;
  sd_outcome : string;
  sd_commit_sha : string;
  sd_spec_digest_hex : string
}.

Definition stored_deployment (row : ActionRow * AdmissionRow) (service_filter : string)
    : option StoredDeployment :=
  let '(x, a) := row in
  let deployment_id := default "" (ac_deployment_id x) in
  if negb (uuid7 deployment_id) then None
  else match json_value (ad_signed_plan_json a) with
  | None => None
  | Some envelope =>
      if ac_action_index x <? 0 then None
      else
        let params := (Definitions.envelope_action envelope (ac_action_index x)).["params"] in
        let graphic (key : string) (exact : string -> bool) :=
          default "" (match as_str params.[key] with Some v => if exact v then Some v else None | None => None end) in
        match as_str params.["service_id"] with
        | None => None
        | Some service_id =>
            if negb (uuid7 service_id) then None
            else if negb (is_empty service_filter) && negb (String.eqb service_id service_filter) then None
            else Some {| sd_deployment_id := deployment_id; sd_plan_id := ad_plan_id a;
                         sd_operation_id := ad_operation_id a; sd_project_id := ad_project_id a;
                         sd_environment := ad_environment a; sd_environment_id := ad_environment_id a;
                         sd_service_id := service_id; sd_admission_seq := ad_admission_seq a;
                         sd_admitted_at := ad_admitted_at a; sd_consumed_at := ac_consumed_at x;
                         sd_finished_at := ac_finished_at x; sd_outcome := ac_outcome x;
                         sd_commit_sha := graphic "commit_sha" hex40;
                         sd_spec_digest_hex := graphic "spec_digest_hex" hex64 |}
        end
  end.

(** [?1 = '' OR column = ?1]. *)
Definition matches_filter (f column : string) : bool := is_empty f || String.eqb column f.

Definition deployments_in (db : Db) (project_id environment environment_id service_id : string)
    : list StoredDeployment :=
  let rows := order_desc (fun row => ad_admission_seq row.2)
    (x ← select (fun x => is_some_and (ac_deployment_id x) (fun id => negb (is_empty id))) (t_actions db);
     a ← select (fun a => String.eqb (ad_plan_id a) (ac_plan_id x)
                          && matches_filter project_id (ad_project_id a)
                          && matches_filter environment (ad_environment a)
                          && matches_filter environment_id (ad_environment_id a)) (t_admissions db);
     [(x, a)]) in
  filter_map (fun row => stored_deployment row service_id) (sql_limit MAX_DEPLOYMENT_ROWS rows).

(** ** webhooks.rs *)

Inductive RejectReason := Signature | Malformed.

Definition reject_reason_str (r : RejectReason) : string :=
  match r with Signature => "signature" | Malformed => "malformed" end.

Definition DELIVERY_RETENTION_SECONDS : Z := 30 * 86400.
Definition REJECTED_RETENTION_SECONDS : Z := 7 * 86400.
Definition MAX_REJECTED_ROWS : Z := 100000.
Definition MAX_SERVICE_SPECS : Z := 10000.

(** [insert_delivery]: [false] on a constraint violation. *)
Definition insert_delivery (db : Db) (row : DeliveryRow) : bool * Db :=
  if existsb (fun d => String.eqb (dl_delivery_id d) (dl_delivery_id row)
                       || String.eqb (dl_body_digest_hex d) (dl_body_digest_hex row)) (t_deliveries db)
     || negb (contains_str PROVIDER_CHECK (dl_provider row))
     || negb (contains_str STATUS_CHECK (dl_status row))
  then (false, db)
  else (true, with_deliveries db (t_deliveries db ++ [row])).

Definition delivery_row (db : Db) (delivery_id : string) : option DeliveryRow :=
  find_first (fun d => String.eqb (dl_delivery_id d) delivery_id) (t_deliveries db).

Definition set_status (status : string) (d : DeliveryRow) : DeliveryRow :=
  {| dl_delivery_id := dl_delivery_id d; dl_provider := dl_provider d; dl_event := dl_event d;
     dl_body_digest_hex := dl_body_digest_hex d; dl_repo := dl_repo d; dl_ref := dl_ref d;
     dl_commit_sha := dl_commit_sha d; dl_commit_time := dl_commit_time d;
     dl_environments := dl_environments d; dl_received_at := dl_received_at d;
     dl_expires_at := dl_expires_at d; dl_status := status |}.

(** An UPDATE of [status]: the CHECK fails it when a row would take a text
    outside the list. *)
Definition update_status (db : Db) (p : DeliveryRow -> bool) (status : string) : store_result Db :=
  if existsb p (t_deliveries db) && negb (contains_str STATUS_CHECK status) then Err StoreError.Sqlite
  else Ok (with_deliveries db (update p (set_status status) (t_deliveries db))).

Definition set_delivery_status (db : Db) (delivery_id status : string) : store_result Db :=
  update_status db (fun d => String.eqb (dl_delivery_id d) delivery_id) status.

Definition pending (d : DeliveryRow) : bool := String.eqb (dl_status d) "pending".

Definition claim_delivery (db : Db) (delivery_id status : string) : store_result (bool * Db) :=
  let claimable := fun d => String.eqb (dl_delivery_id d) delivery_id && pending d in
  let? db' := update_status db claimable status in
  Ok (existsb claimable (t_deliveries db), db').

Definition insert_rejected_delivery (db : Db) (body_digest_hex : string) (body_bytes : Z)
    (project_id provider received_at : string) (reason : RejectReason) : Db :=
  if lenl (t_rejected db) <? MAX_REJECTED_ROWS then
    with_rejected db (t_rejected db ++ [
      {| rj_body_digest_hex := body_digest_hex; rj_body_bytes := Z.min body_bytes i64_max;
         rj_project_id := project_id; rj_provider := provider; rj_received_at := received_at;
         rj_reason := reject_reason_str reason |} ])
  else db.

Definition rejected_since (db : Db) (since : Z) : Z :=
  Z.min (count (fun r => String.ltb (format_timestamp since) (rj_received_at r)) (t_rejected db)) u32_max.

(** [a <= b] on text. *)
Definition text_le (a b : string) : bool := negb (String.ltb b a).

(** Cited by a consumption, a build or an admission. *)
Definition cited (db : Db) (delivery_id : string) : bool :=
  existsb (fun c => String.eqb (cs_delivery_id c) delivery_id) (t_consumptions db)
  || existsb (fun b => eq_opt (bd_delivery_id b) delivery_id) (t_builds db)
  || existsb (fun a => eq_opt (ad_delivery_id a) delivery_id) (t_admissions db).

Definition expire_deliveries (db : Db) (now : Z) : list string * Db :=
  let at_ := format_timestamp now in
  let due := fun d => pending d && text_le (dl_expires_at d) at_ in
  let expired := dl_delivery_id <$> select due (t_deliveries db) in
  let deliveries := update due (set_status "expired") (t_deliveries db) in
  let rejected := delete_where (fun r =>
    text_le (rj_received_at r) (format_timestamp (now - REJECTED_RETENTION_SECONDS))) (t_rejected db) in
  let deliveries := delete_where (fun d =>
    text_le (dl_received_at d) (format_timestamp (now - DELIVERY_RETENTION_SECONDS))
    && negb (cited db (dl_delivery_id d))) deliveries in
  (expired, with_deliveries (with_rejected db rejected) deliveries).

(** The conflict on (service_id, commit_sha) updates the row; another row
    with the build id, or an unknown delivery, fails the statement. *)
Definition record_build (db : Db) (build_id service_id commit_sha image_digest_hex delivery_id : string)
    (built_at : Z) : store_result Db :=
  let same := fun b => String.eqb (bd_service_id b) service_id && String.eqb (bd_commit_sha b) commit_sha in
  let row := {| bd_build_id := build_id; bd_service_id := service_id; bd_commit_sha := commit_sha;
                bd_image_digest_hex := image_digest_hex; bd_delivery_id := Some delivery_id;
                bd_built_at := format_timestamp built_at |} in
  if existsb (fun b => String.eqb (bd_build_id b) build_id && negb (same b)) (t_builds db)
     || negb (has_delivery db delivery_id)
  then Err StoreError.Sqlite
  else Ok (with_builds db (upsert same (fun _ => row) row (t_builds db))).

Record LastSpec := { ls_spec : Value; ls_spec_digest_hex : string }.

Definition last_spec (db : Db) (service_id : string) : option LastSpec :=
  match last_spec_row db service_id with
  | None => None
  | Some s => option_map (fun spec => {| ls_spec := spec; ls_spec_digest_hex := sp_spec_digest_hex s |})
                (parse_strict (sp_spec_jcs s) (16 * 1024))
  end.

Definition admission_signed_scope (db : Db) (plan_id : string) : option SignedScope :=
  option_map row_scope (admission_row db plan_id).

Definition deployed_commit_on (db : Db) (service_id ref : string) : option (string * string) :=
  store_deployed_commit db service_id ref.

Definition scope_protected (db : Db) (project_id environment : string) : bool :=
  Definitions.environment_protected db project_id environment.

End queries.
