(* ===== verification/StoreSamples.v ===== *)
(** * Sample stores

    Concrete stores for the witnesses: a fresh one, and the one after the
    owner's shell plan is admitted, under the toy primitives of Crypto.v. *)

From S2P Require Import Prelude RustStr BTree PlanCode Json Jcs JsonRead Crypto Text Calendar Schema.
From S2P Require Import Actions Trust Verify Samples Store DefinitionStore AdmissionStore Reconcile Queries.

#[local] Existing Instance toy_crypto.
#[local] Existing Instance canonical_reader.

(** An alert component that evaluates every event and reads no channels. *)
Definition toy_alerts : AlertSpec :=
  {| event_kind_evaluated := fun _ => true; alert_channels := fun _ _ _ => Some [] |}.
#[local] Existing Instance toy_alerts.

Definition no_starts : BuildStarts := {| bs_cache := []; bs_log := None |}.
Definition zero_bytes : list ascii := repeat zero 16.

Definition input_of (text : string) (specs : list string) (submitter : Submitter) (now : Z) : AdmitInput :=
  {| in_envelope := text; in_specs := specs; in_sealed_secrets := []; in_submitter := submitter; in_now := now |}.

Definition created_0 : Z := now_0 - 100.
Definition db_0 : Db := empty_db created_0 None.

Definition shell_input : AdmitInput := input_of shell_text [] Client now_0.

Definition no_admission : Admission :=
  {| am_plan_id := ""; am_plan_digest_hex := ""; am_operation_id := ""; am_admitted_at := "";
     am_deduplicated := false; am_deployment_ids := [] |}.

Definition shell_admitted : Admission * Db :=
  get_ok (admit_plan db_0 store_1 no_starts zero_bytes shell_input) (no_admission, db_0).
Definition shell_admission : Admission := shell_admitted.1.
Definition db_1 : Db := shell_admitted.2.

Lemma db_1_admitted : admit_plan db_0 store_1 no_starts zero_bytes shell_input = Ok (shell_admission, db_1).
Proof. vm_compute. reflexivity. Qed.

Example db_1_has_one_admission : ad_plan_id <$> t_admissions db_1 = [plan_a].
Proof. vm_compute. reflexivity. Qed.

Example shell_admission_is_new : am_deduplicated shell_admission = false.
Proof. vm_compute. reflexivity. Qed.

(** The shell plan's only action ends. *)
Definition db_2 : Db := (get_ok (finish_action db_1 plan_a 0 "succeeded" (now_0 + 10)) (false, db_1)).2.

Lemma db_2_finished : finish_action db_1 plan_a 0 "succeeded" (now_0 + 10) = Ok (true, db_2).
Proof. vm_compute. reflexivity. Qed.

(** ** A rule and its deploy

    The owner deploys a service and creates a standing rule; a push is
    recorded and built; the rule plan deploys the new image. *)

Definition plan_on (plan : Value) (head_hex nonce : string) : Value :=
  match plan with
  | VObject m => VObject (binsert "nonce" (str nonce)
      (binsert "base" (obj [("force", VBool false); ("heads", obj [(server_a, str head_hex)])]) m))
  | v => v
  end.

Definition deployment_0 : string := "01a0cdb5-3500-70f1-8000-000000000000".

Definition setup_plan : Value :=
  plan_of plan_a (str project_a) (str "production") (str env_id_a) [str service_a]
    [ obj [("kind", str "deploy");
           ("params", obj [ ("service_id", str service_a); ("commit_sha", VNull);
                            ("spec_digest_hex", str (spec_digest spec_base));
                            ("deployment_id", str deployment_0) ])];
      obj [("kind", str "rule.create"); ("params", obj [("rule", rule_value)])] ]
    "user" VNull.

Definition setup_input : AdmitInput :=
  input_of (envelope_text setup_plan [signature_of owner_id owner_spki]) [spec_text spec_base] Client now_0.

Definition setup_admitted : Admission * Db :=
  get_ok (admit_plan db_0 store_1 no_starts zero_bytes setup_input) (no_admission, db_0).
Definition setup_admission : Admission := setup_admitted.1.
Definition db_setup : Db := setup_admitted.2.

Lemma db_setup_admitted : admit_plan db_0 store_1 no_starts zero_bytes setup_input = Ok (setup_admission, db_setup).
Proof. vm_compute. reflexivity. Qed.

Definition push_row : DeliveryRow :=
  {| dl_delivery_id := "d-1"; dl_provider := "github"; dl_event := "push";
     dl_body_digest_hex := repeat_byte "d" 64; dl_repo := "git.example.com/acme/web";
     dl_ref := "refs/heads/release/1"; dl_commit_sha := commit_a; dl_commit_time := stamp_0;
     dl_environments := ["production"]; dl_received_at := "2026-01-01T00:04:00Z";
     dl_expires_at := "2026-01-08T00:04:00Z"; dl_status := "pending" |}.

Definition db_push : Db := (insert_delivery db_setup push_row).2.
Definition db_built : Db :=
  get_ok (record_build db_push "b-1" service_a commit_a image_new "d-1" now_0) db_push.

Lemma db_built_recorded : record_build db_push "b-1" service_a commit_a image_new "d-1" now_0 = Ok db_built.
Proof. vm_compute. reflexivity. Qed.

Definition rule_input : AdmitInput :=
  input_of (envelope_text (plan_on rule_plan (store_head db_built project_a "production") "nonce-9876543210") [])
    [spec_text spec_new] AgentWebhook (now_0 + 5).

Definition rule_admitted : Admission * Db :=
  get_ok (admit_plan db_built store_1 no_starts (repeat "001"%char 16) rule_input) (no_admission, db_built).
Definition rule_admission : Admission := rule_admitted.1.
Definition db_rule : Db := rule_admitted.2.

Lemma db_rule_admitted :
  admit_plan db_built store_1 no_starts (repeat "001"%char 16) rule_input = Ok (rule_admission, db_rule).
Proof. vm_compute. reflexivity. Qed.

Example db_rule_state :
  ad_plan_id <$> t_admissions db_rule = [plan_a; plan_b] /\
  iv_plan_id <$> t_invocations db_rule = [plan_b] /\ cs_plan_id <$> t_consumptions db_rule = [plan_b].
Proof. vm_compute. done. Qed.
