(* ===== verification/StoreFacts.v ===== *)
(** * Theorems about the admission store

    The audit log and the heads, replay safety, execution state, and what one
    admission writes. *)

From S2P Require Import Prelude RustStr BTree PlanCode Json Jcs Crypto Text Calendar Schema.
From S2P Require Import Actions Trust Verify Store DefinitionStore AdmissionStore Reconcile Queries.
From S2P Require Import VerifyFacts.

(** ** Statements on tables *)

Lemma insert_Some {A} (c : bool) (x y : A) : (if c then None else Some x) = Some y -> c = false /\ x = y.
Proof. destruct c; [done|]. by intros [= ->]. Qed.

Lemma update_fmap {A B} (g : A -> B) p f (l : list A) :
  (forall x, p x = true -> g (f x) = g x) -> g <$> update p f l = g <$> l.
Proof.
  intros Hg. unfold update. rewrite <- list_fmap_compose. apply list_fmap_ext. intros _ x _. simpl.
  destruct (p x) eqn:Hp; [by apply Hg|done].
Qed.

Lemma existsb_false {A} (p : A -> bool) l : existsb p l = false <-> Forall (fun x => p x = false) l.
Proof.
  induction l as [|x l IH]; [done|]. cbn [existsb]. rewrite orb_false_iff, Forall_cons. by rewrite IH.
Qed.

(** ** Growing tables *)

(** The old rows, each related to its new version, then new rows. *)
Definition grows {A} (R : A -> A -> Prop) (l l' : list A) : Prop :=
  exists l1 l2, l' = l1 ++ l2 /\ Forall2 R l l1.

Lemma grows_app {A} (R : A -> A -> Prop) l l2 : Reflexive R -> grows R l (l ++ l2).
Proof. intros HR. by exists l, l2. Qed.

Lemma grows_refl {A} (R : A -> A -> Prop) l : Reflexive R -> grows R l l.
Proof. intros HR. exists l, []. by rewrite app_nil_r. Qed.

Lemma grows_trans {A} (R : A -> A -> Prop) l1 l2 l3 : Transitive R -> grows R l1 l2 -> grows R l2 l3 -> grows R l1 l3.
Proof.
  intros HR (a & b & -> & Ha) (c & d & -> & Hc). apply Forall2_app_inv_l in Hc as (c1 & c2 & H1 & H2 & ->).
  exists c1, (c2 ++ d). split; [by rewrite app_assoc|]. by transitivity a.
Qed.

Lemma grows_map {A} (R : A -> A -> Prop) (f : A -> A) l : (forall x, R x (f x)) -> grows R l (f <$> l).
Proof.
  intros Hf. exists (f <$> l), []. rewrite app_nil_r. split; [done|]. induction l; by constructor.
Qed.

Lemma grows_update {A} (R : A -> A -> Prop) p f (l : list A) :
  Reflexive R -> (forall x, p x = true -> R x (f x)) -> grows R l (update p f l).
Proof. intros HR Hf. apply grows_map. intros x. destruct (p x) eqn:Hp; [by apply Hf|done]. Qed.

(** A rule keeps what it is, and a recorded revocation. *)
Definition rule_le (r r' : RuleRow) : Prop :=
  rl_rule r' = rl_rule r /\ rl_rule_digest_hex r' = rl_rule_digest_hex r /\
  rl_created_by_key_id r' = rl_created_by_key_id r /\ rl_created_plan_id r' = rl_created_plan_id r /\
  rl_rule_id r' = rl_rule_id r /\
  (forall t, rl_revoked_at r = Some t -> rl_revoked_at r' = Some t).

(** An action keeps what it is; consumption and an end are never undone. *)
Definition action_le (x x' : ActionRow) : Prop :=
  ac_plan_id x' = ac_plan_id x /\ ac_action_index x' = ac_action_index x /\ ac_kind x' = ac_kind x /\
  ac_deployment_id x' = ac_deployment_id x /\
  (forall s, ac_consumed_seq x = Some s -> ac_consumed_seq x' = Some s /\ ac_consumed_at x' = ac_consumed_at x) /\
  (is_Some (ac_finished_at x) -> is_Some (ac_finished_at x')).

(** An admission keeps everything but its end, which is set at most once. *)
Definition admission_le (a a' : AdmissionRow) : Prop :=
  exists at_ o, a' = set_admission_finished at_ o a /\
    (forall t, ad_finished_at a = Some t -> at_ = Some t /\ o = ad_outcome a).

#[export] Instance rule_le_refl : Reflexive rule_le.
Proof. by intros r. Qed.

#[export] Instance rule_le_trans : Transitive rule_le.
Proof.
  intros r1 r2 r3 (? & ? & ? & ? & ? & Ha) (? & ? & ? & ? & ? & Hb). split_and!; try congruence. auto.
Qed.

#[export] Instance action_le_refl : Reflexive action_le.
Proof. by intros x. Qed.

#[export] Instance action_le_trans : Transitive action_le.
Proof.
  intros x1 x2 x3 (? & ? & ? & ? & Hc1 & Hf1) (? & ? & ? & ? & Hc2 & Hf2). split_and!; try congruence; [|auto].
  intros s Hs. destruct (Hc1 _ Hs) as [Hs2 ?]. destruct (Hc2 _ Hs2) as [? ?]. split; congruence.
Qed.

#[export] Instance admission_le_refl : Reflexive admission_le.
Proof. intros a. exists (ad_finished_at a), (ad_outcome a). destruct a. split; [done|]. simpl. auto. Qed.

#[export] Instance admission_le_trans : Transitive admission_le.
Proof.
  intros a1 a2 a3 (t1 & o1 & -> & H1) (t2 & o2 & -> & H2). exists t2, o2. split; [done|].
  intros t Ht. destruct (H1 _ Ht) as [-> ->]. by apply H2.
Qed.

(** ** What an admission leaves alone

    Each write names the one table it replaces. *)

Section frames.
Context {CR : Crypto} {JR : JsonReader} {AS : AlertSpec}.

(** The row of one action, as admission inserts it. *)
Definition new_action (plan_id : string) (index : nat) (ka : string * Value) : ActionRow :=
  {| ac_plan_id := plan_id; ac_action_index := Z.of_nat index; ac_kind := ka.1; ac_consumed_at := None;
     ac_finished_at := None; ac_outcome := ""; ac_consumed_seq := None; ac_result_seq := None;
     ac_deployment_id := signed_deployment_id ka.1 ka.2.["params"] |}.

Definition new_actions (plan_id : string) (index : nat) (kinds : list string) (actions : list Value)
    : list ActionRow :=
  imap (fun i => new_action plan_id (index + i)) (zip kinds (drop index actions)).

Lemma write_actions_rows plan_id actions kinds : forall db index db' ids,
  write_actions db plan_id actions index kinds = Ok (db', ids) ->
  db' = with_actions db (t_actions db ++ new_actions plan_id index kinds actions) /\
  (length kinds <= length (drop index actions))%nat /\
  ids = ac_deployment_id <$> new_actions plan_id index kinds actions.
Proof.
  induction kinds as [|kind kinds IH]; intros db index db' ids Hw; cbn [write_actions] in Hw.
  { injection Hw as <- <-. unfold new_actions. simpl. rewrite app_nil_r. destruct db. split_and!; [done|lia|done]. }
  destruct (actions !! index) as [action|] eqn:Ha; [|done]. inv_ok Hw.
  destruct x0 as [db1 ids1]. apply insert_Some in Hx as [_ <-].
  apply IH in Hx0 as (-> & Hl & ->). simplify_eq/=.
  assert (new_actions plan_id index (kind :: kinds) actions =
    new_action plan_id index (kind, action) :: new_actions plan_id (S index) kinds actions) as ->.
  { unfold new_actions. rewrite (drop_S _ _ _ Ha). cbn [zip zip_with]. rewrite imap_cons, Nat.add_0_r. f_equal.
    apply imap_ext. intros i x _. simpl. by rewrite Nat.add_succ_r. }
  rewrite (drop_S _ _ _ Ha). simpl. split_and!; [|lia|done].
  rewrite <- app_assoc. done.
Qed.

Lemma fold_frame {A X} (wth : Db -> X -> Db) (f : Db -> A -> plan_result Db) l :
  (forall db, exists x, wth db x = db) ->
  (forall db x y, wth (wth db x) y = wth db y) ->
  (forall db a db', f db a = Ok db' -> exists x, db' = wth db x) ->
  forall db db', fold_each f db l = Ok db' -> exists x, db' = wth db x.
Proof.
  intros Hid Hcomp Hf. induction l as [|a l IH]; intros db db' Hw; cbn [fold_each] in Hw.
  { injection Hw as <-. destruct (Hid db) as [x Hx]. by exists x. }
  inv_ok Hw. apply Hf in Hx as [y ->]. apply IH in Hw as [z ->]. exists z. by rewrite Hcomp.
Qed.

Lemma write_specs_frame plan_id at_ l db db' :
  fold_each (write_spec plan_id at_) db l = Ok db' -> exists rows, db' = with_specs db rows.
Proof.
  apply fold_frame.
  - intros d. exists (t_specs d). by destruct d.
  - done.
  - intros d [digest [spec text]] d' Hw. cbn [write_spec] in Hw. inv_ok Hw.
    unfold insert_spec_or_ignore in Hw. destruct (has_spec_row _ _).
    + injection Hw as <-. exists (t_specs d). by destruct d.
    + apply insert_Some in Hw as [_ <-]. by eexists.
Qed.

(** The three tables the actions of a plan may change. *)
Definition with_definitions (db : Db) (x : list ServiceSpecRow * list DeployedCommitRow * list RuleRow) : Db :=
  with_rules (with_deployed (with_service_specs db x.1.1) x.1.2) x.2.

Lemma with_definitions_id db : with_definitions db (t_service_specs db, t_deployed db, t_rules db) = db.
Proof. by destruct db. Qed.

Lemma write_service_spec_frame plan_id at_ db action db' :
  write_service_spec plan_id at_ db action = Ok db' -> exists rows, db' = with_service_specs db rows.
Proof.
  unfold write_service_spec. destruct (_ || _).
  - intros Hw. inv_ok Hw. apply insert_Some in Hw as [_ <-]. by eexists.
  - intros [= <-]. exists (t_service_specs db). by destruct db.
Qed.

Lemma write_deployed_frame plan_id invocation db action db' :
  write_deployed_commit plan_id invocation db action = Ok db' -> exists rows, db' = with_deployed db rows.
Proof.
  unfold write_deployed_commit. destruct (_ && _).
  - intros Hw. inv_ok Hw. apply insert_Some in Hw as [_ <-]. by eexists.
  - intros [= <-]. exists (t_deployed db). by destruct db.
Qed.

Lemma write_action_frame vp plan_id at_ db action db' :
  write_action vp plan_id at_ db action = Ok db' -> exists x, db' = with_definitions db x.
Proof.
  unfold write_action. intros Hw. inv_ok Hw.
  apply write_service_spec_frame in Hx as [ss ->]. apply write_deployed_frame in Hx0 as [dc ->].
  destruct (String.eqb _ "rule.create"); [|destruct (String.eqb _ "rule.revoke")].
  - unfold write_rule in Hw. inv_ok Hw. apply insert_Some in Hw as [_ <-].
    by exists (ss, dc, t_rules db ++ [ {| rl_rule := x; rl_rule_digest_hex := hex (prefixed_digest RULE_PREFIX x);
      rl_created_by_key_id := x0; rl_created_plan_id := plan_id; rl_revoked_at := None; rl_rule_id := x1;
      rl_revoked_plan_id := None |} ]).
  - unfold write_rule_revoke in Hw. inv_ok Hw. subst db'. by eexists (ss, dc, _).
  - injection Hw as <-. by exists (ss, dc, t_rules db).
Qed.

Lemma write_action_rules vp plan_id at_ db action db' :
  write_action vp plan_id at_ db action = Ok db' -> grows rule_le (t_rules db) (t_rules db').
Proof.
  unfold write_action. intros Hw. inv_ok Hw.
  apply write_service_spec_frame in Hx as [ss ->]. apply write_deployed_frame in Hx0 as [dc ->].
  destruct (String.eqb _ "rule.create"); [|destruct (String.eqb _ "rule.revoke")].
  - unfold write_rule in Hw. inv_ok Hw. apply insert_Some in Hw as [_ <-]. apply grows_app, _.
  - unfold write_rule_revoke in Hw. inv_ok Hw. subst db'. simpl. apply grows_update; [apply _|].
    intros r Hr. unfold revocable in Hr. bsplit. split_and!; try done.
  - injection Hw as <-. apply grows_refl, _.
Qed.

Lemma write_actions_rules vp plan_id at_ l : forall db db',
  fold_each (write_action vp plan_id at_) db l = Ok db' -> grows rule_le (t_rules db) (t_rules db').
Proof.
  induction l as [|action l IH]; intros db db' Hw; cbn [fold_each] in Hw.
  - injection Hw as <-. apply grows_refl, _.
  - inv_ok Hw. eapply grows_trans; [apply _|by eapply write_action_rules|by apply IH].
Qed.

(** Neither creates nor revokes a rule. *)
Definition no_rule_action (action : Value) : Prop :=
  str_or_default action.["kind"] <> "rule.create" /\ str_or_default action.["kind"] <> "rule.revoke".

Lemma write_actions_keep_rules vp plan_id at_ l : forall db db',
  fold_each (write_action vp plan_id at_) db l = Ok db' -> Forall no_rule_action l -> t_rules db' = t_rules db.
Proof.
  induction l as [|action l IH]; intros db db' Hw Hall; cbn [fold_each] in Hw.
  { by injection Hw as <-. }
  apply Forall_cons in Hall as [[Hn1 Hn2] Hall]. inv_ok Hw. rewrite (IH _ _ Hw Hall).
  unfold write_action in Hx. inv_ok Hx.
  apply write_service_spec_frame in Hx0 as [ss ->]. apply write_deployed_frame in Hx1 as [dc ->].
  apply String.eqb_neq in Hn1, Hn2. rewrite Hn1, Hn2 in Hx. by injection Hx as <-.
Qed.

Lemma write_action_rows_frame vp plan_id at_ l db db' :
  fold_each (write_action vp plan_id at_) db l = Ok db' -> exists x, db' = with_definitions db x.
Proof.
  apply fold_frame; [|done|apply write_action_frame].
  intros d. eexists. apply with_definitions_id.
Qed.

(** The rows a rule plan adds: its invocation, in a table pruned to the last
    hour, and its use of the delivery, which no row of the rule has. *)
Definition invoked (plan_id at_ : string) (now : Z) (rule_id delivery_id : option string)
    (iv iv' : list InvocationRow) (cs cs' : list ConsumptionRow) : Prop :=
  match rule_id, delivery_id with
  | Some rule_id, Some delivery_id =>
      iv' = delete_where (fun i => negb (String.ltb (format_timestamp (now - 3600)) (iv_admitted_at i))) iv
            ++ [ {| iv_rule_id := rule_id; iv_plan_id := plan_id; iv_admitted_at := at_ |} ] /\
      cs' = cs ++ [ {| cs_delivery_id := delivery_id; cs_rule_id := rule_id; cs_plan_id := plan_id;
                       cs_consumed_at := at_ |} ] /\
      Forall (fun c => cs_delivery_id c <> delivery_id \/ cs_rule_id c <> rule_id) cs
  | _, _ => iv' = iv /\ cs' = cs
  end.

Lemma write_invocation_frame plan_id at_ now rule_id delivery_id db db' :
  write_invocation plan_id at_ now rule_id delivery_id db = Ok db' ->
  exists iv cs, db' = with_consumptions (with_invocations db iv) cs /\
    invoked plan_id at_ now rule_id delivery_id (t_invocations db) iv (t_consumptions db) cs.
Proof.
  unfold write_invocation, invoked. intros Hw.
  assert (db = with_consumptions (with_invocations db (t_invocations db)) (t_consumptions db)) as Hid by (by destruct db).
  destruct rule_id as [rule_id|], delivery_id as [delivery_id|];
    try (injection Hw as <-; by exists (t_invocations db), (t_consumptions db)).
  inv_ok Hw. apply insert_Some in Hx as [_ <-]. apply insert_Some in Hw as [Hc <-]. do 2 eexists.
  split; [reflexivity|]. split_and!; [done..|]. bsplit.
  match goal with H : existsb _ _ = false |- _ => apply existsb_false in H; eapply Forall_impl; [exact H|] end.
  simpl. intros c [Hd|Hr]%andb_false_iff; rewrite String.eqb_neq in *; auto.
Qed.

Lemma write_sealed_frame vp plan_id l db db' :
  fold_each (write_sealed vp plan_id) db l = Ok db' -> exists rows, db' = with_sealed db rows.
Proof.
  apply fold_frame.
  - intros d. exists (t_sealed d). by destruct d.
  - done.
  - intros d [digest text] d' Hw. unfold write_sealed in Hw. inv_ok Hw. destruct x as [index action].
    destruct (vp_scope vp) as [project environment]. inv_ok Hw.
    unfold insert_sealed_or_ignore in Hw. destruct (existsb _ _) in Hw.
    + injection Hw as <-. exists (t_sealed d). by destruct d.
    + apply insert_Some in Hw as [_ <-]. by eexists.
Qed.

(** ** What an admission writes *)

Definition set_head (db : Db) (project environment head_hex plan_id at_ : string) : list HeadRow :=
  upsert (fun r => String.eqb (hd_project_id r) project && String.eqb (hd_environment r) environment)
    (fun r => {| hd_project_id := hd_project_id r; hd_environment := hd_environment r;
                 hd_head_digest_hex := head_hex; hd_plan_id := plan_id; hd_updated_at := at_ |})
    {| hd_project_id := project; hd_environment := environment; hd_head_digest_hex := head_hex;
       hd_plan_id := plan_id; hd_updated_at := at_ |} (t_heads db).

(** The admission's own row is fresh: no row shares its plan id, nonce,
    operation id or sequence number. *)
Definition fresh_row (db : Db) (row : AdmissionRow) : Prop :=
  Forall (fun a => ad_plan_id a <> ad_plan_id row /\ ad_operation_id a <> ad_operation_id row /\
                   ad_admission_seq a <> ad_admission_seq row /\ ad_nonce a <> ad_nonce row) (t_admissions db).

Record written (db : Db) (vp : VerifiedPlan) (input : AdmitInput) (operation_id : string) (db' : Db)
    (ids : list (option string)) : Prop := {
  wr_fresh : fresh_row db (new_row db vp input operation_id);
  wr_admissions : t_admissions db' = t_admissions db ++ [new_row db vp input operation_id];
  wr_heads : t_heads db' = set_head db (vp_scope vp).1 (vp_scope vp).2
    (ad_head_after_hex (new_row db vp input operation_id)) (str_or_default (vp_plan vp).["id"])
    (format_timestamp (in_now input));
  wr_actions : t_actions db' = t_actions db
    ++ new_actions (str_or_default (vp_plan vp).["id"]) 0 (plan_kinds (vp_plan vp))
         (items_of (vp_plan vp).["actions"]);
  wr_ids : ids = ac_deployment_id <$> new_actions (str_or_default (vp_plan vp).["id"]) 0
    (plan_kinds (vp_plan vp)) (items_of (vp_plan vp).["actions"]);
  wr_rules : grows rule_le (t_rules db) (t_rules db');
  wr_invoked : invoked (str_or_default (vp_plan vp).["id"]) (format_timestamp (in_now input)) (in_now input)
    (ad_rule_id (new_row db vp input operation_id)) (ad_delivery_id (new_row db vp input operation_id))
    (t_invocations db) (t_invocations db') (t_consumptions db) (t_consumptions db');
  wr_rules_same : Forall no_rule_action (items_of (vp_plan vp).["actions"]) -> t_rules db' = t_rules db;
  wr_same : t_meta db' = t_meta db /\ t_deliveries db' = t_deliveries db /\ t_builds db' = t_builds db /\
    t_cursor db' = t_cursor db /\ t_events db' = t_events db /\ t_rejected db' = t_rejected db
}.

Lemma insert_admission_Some db row db' :
  insert_admission db row = Some db' ->
  fresh_row db row /\ db' = with_admissions db (t_admissions db ++ [row]).
Proof.
  unfold insert_admission. intros [Hc <-]%insert_Some. split; [|done]. bsplit.
  match goal with H : existsb _ _ = false |- _ => apply existsb_false in H; eapply Forall_impl; [exact H|] end.
  simpl. intros a Ha. bsplit. rewrite !String.eqb_neq, Z.eqb_neq in *. tauto.
Qed.

Lemma new_row_seen db s vp input operation_id :
  new_row (with_seen db s) vp input operation_id = new_row db vp input operation_id.
Proof. done. Qed.

Lemma insert_seen_frame db a row db' : insert_seen (with_seen db a) row = Some db' -> exists s, db' = with_seen db s.
Proof. intros [_ <-]%insert_Some. by eexists. Qed.

Lemma write_admission_written db vp input operation_id sealed adm db' :
  write_admission db vp input operation_id sealed = Ok (adm, db') ->
  written db vp input operation_id db' (am_deployment_ids adm) /\
  adm = {| am_plan_id := str_or_default (vp_plan vp).["id"]; am_plan_digest_hex := vp_digest_hex vp;
           am_operation_id := operation_id; am_admitted_at := format_timestamp (in_now input);
           am_deduplicated := false; am_deployment_ids := am_deployment_ids adm |}.
Proof.
  unfold write_admission. destruct (vp_scope vp) as [project environment] eqn:Hsc. intros Hw. inv_ok Hw.
  destruct x1 as [db1 ids]. apply insert_seen_frame in Hx as [s Hs].
  apply insert_admission_Some in Hx0 as [Hfresh H0]. rewrite Hs, new_row_seen in Hfresh, H0.
  apply write_actions_rows in Hx1 as (H1 & _ & Hids). simpl in Hids.
  apply write_specs_frame in Hx2 as [specs H2]. pose proof (write_actions_rules _ _ _ _ _ _ Hx3) as Hrules.
  pose proof (write_actions_keep_rules _ _ _ _ _ _ Hx3) as Hkeep.
  apply write_action_rows_frame in Hx3 as [defs H3].
  apply insert_Some in Hx4 as [_ H4]. apply write_invocation_frame in Hx5 as (iv & cs & H5 & Hinv).
  apply write_sealed_frame in Hx6 as [se H6]. 
  assert (H4' : x4 = with_heads x3 (set_head x3 project environment
    (ad_head_after_hex (new_row db vp input operation_id)) (str_or_default (vp_plan vp).["id"])
    (format_timestamp (in_now input)))) by (rewrite <- H4, Hs, new_row_seen; reflexivity).
  clear H4. cbn [fst snd] in *. subst adm. split; [|done].
  assert (t_heads x3 = t_heads db) as Hheads.
  { rewrite H3. transitivity (t_heads x2); [done|]. rewrite H2, H1, H0. done. }
  assert (t_rules x2 = t_rules db) as Hr2 by (rewrite H2, H1, H0; done).
  assert (t_rules db' = t_rules x3) as Hr3 by (rewrite <- H, H6, H5, H4'; done).
  assert (t_invocations x4 = t_invocations db /\ t_consumptions x4 = t_consumptions db) as [Hi4 Hc4].
  { rewrite H4', H3, H2, H1, H0. done. }
  assert (t_invocations db' = iv /\ t_consumptions db' = cs) as [Hi5 Hc5] by (rewrite <- H, H6, H5; done).
  split; cbn [am_deployment_ids]; [done| | | |done| | | |].
  - rewrite <- H, H6, H5, H4', H3, H2, H1. transitivity (t_admissions x0); [done|]. by rewrite H0.
  - rewrite <- H, H6, H5, H4'. injection Hsc as <- <-.
    transitivity (set_head x3 (str_or_default (vp_plan vp).["project_id"])
      (str_or_default (vp_plan vp).["environment"]) (ad_head_after_hex (new_row db vp input operation_id))
      (str_or_default (vp_plan vp).["id"]) (format_timestamp (in_now input))); [done|].
    unfold set_head. by rewrite Hheads.
  - rewrite <- H, H6, H5, H4', H3, H2. transitivity (t_actions db1); [done|]. by rewrite H1, H0.
  - by rewrite Hr3, <- Hr2.
  - rewrite Hs, new_row_seen, Hi4, Hc4 in Hinv. by rewrite Hi5, Hc5.
  - intros Hall. rewrite Hr3, (Hkeep Hall). done.
  - rewrite <- H, H6, H5, H4', H3, H2, H1, H0. done.
Qed.

Lemma admit_new db trust starts random input adm db' :
  admit_plan db trust starts random input = Ok (adm, db') -> am_deduplicated adm = false ->
  exists vp sealed, verify_signed_plan (in_envelope input) (in_specs input) (in_submitter input)
               (TxContext db trust (in_now input) starts) = Ok (Admit vp) /\
    execution_preconditions db trust vp (in_sealed_secrets input) = Ok sealed /\
    written db vp input (new_uuid7 random (unix_ms_of (in_now input))) db' (am_deployment_ids adm).
Proof.
  unfold admit_plan. intros Ha Hd. inv_ok Ha. destruct x0 as [vp|plan_id digest]; inv_ok Ha.
  - apply write_admission_written in Ha as [Hw _]. by exists vp, x0.
  - unfold deduplicated in Hx1. inv_ok Hx1. subst. simplify_eq/=.
Qed.

Lemma admit_dedup db trust starts random input adm db' :
  admit_plan db trust starts random input = Ok (adm, db') -> am_deduplicated adm = true -> db' = db.
Proof.
  unfold admit_plan. intros Ha Hd. inv_ok Ha. destruct x0 as [vp|plan_id digest]; inv_ok Ha; [|by simplify_eq/=].
  apply write_admission_written in Ha as [_ Ha]. rewrite Ha in Hd. done.
Qed.

End frames.

(** ** Monotone history *)

(** What every operation keeps of the store's history. *)
Record history_le (db db' : Db) : Prop := {
  hl_admissions : grows admission_le (t_admissions db) (t_admissions db');
  hl_actions : grows action_le (t_actions db) (t_actions db');
  hl_rules : grows rule_le (t_rules db) (t_rules db');
  hl_meta : t_meta db' = t_meta db
}.

#[export] Instance history_refl : Reflexive history_le.
Proof. intros db. split; try apply grows_refl, _. done. Qed.

#[export] Instance history_trans : Transitive history_le.
Proof.
  intros a b c [] []. split; try (eapply grows_trans; [apply _|eassumption|eassumption]). congruence.
Qed.

(** An operation that admits nothing also keeps the heads and the number of
    admissions. *)
Record quiet (db db' : Db) : Prop := {
  qu_history : history_le db db';
  qu_admissions : Forall2 admission_le (t_admissions db) (t_admissions db');
  qu_actions : Forall2 action_le (t_actions db) (t_actions db');
  qu_heads : t_heads db' = t_heads db;
  qu_invocations : t_invocations db' = t_invocations db;
  qu_consumptions : t_consumptions db' = t_consumptions db;
  qu_sealed : t_sealed db' = t_sealed db
}.

#[export] Instance quiet_refl : Reflexive quiet.
Proof. by intros db. Qed.

#[export] Instance quiet_trans : Transitive quiet.
Proof.
  intros a b c [] []. split; [by transitivity b|by transitivity (t_admissions b)|by transitivity (t_actions b)|congruence..].
Qed.

Lemma Forall2_update {A} (R : A -> A -> Prop) p f (l : list A) :
  Reflexive R -> (forall x, p x = true -> R x (f x)) -> Forall2 R l (update p f l).
Proof.
  intros HR Hf. unfold update. induction l as [|x l IH]; constructor; [|done].
  destruct (p x) eqn:Hp; [by apply Hf|done].
Qed.

Lemma Forall2_fmap_le {A} (R : A -> A -> Prop) (f : A -> A) l : (forall x, R x (f x)) -> Forall2 R l (f <$> l).
Proof. intros Hf. induction l; by constructor. Qed.

(** Replacing the actions, the rules or the admissions by later versions. *)
Lemma grows_Forall2 {A} (R : A -> A -> Prop) l l' : Forall2 R l l' -> grows R l l'.
Proof. intros Hl. exists l', []. by rewrite app_nil_r. Qed.

Lemma quiet_actions db rows : Forall2 action_le (t_actions db) rows -> quiet db (with_actions db rows).
Proof.
  intros Hg. split; [split; simpl; [apply grows_refl, _|by apply grows_Forall2|apply grows_refl, _|done]|done..].
Qed.

Lemma quiet_rules db rows : grows rule_le (t_rules db) rows -> quiet db (with_rules db rows).
Proof. intros Hg. by split; [split; simpl; [..|done]|..]; try apply grows_refl, _. Qed.

Lemma quiet_admissions db rows :
  Forall2 admission_le (t_admissions db) rows -> quiet db (with_admissions db rows).
Proof.
  intros Hg. split; [split; simpl; [by apply grows_Forall2|apply grows_refl, _|apply grows_refl, _|done]|done..].
Qed.

Lemma quiet_other db db' :
  t_admissions db' = t_admissions db -> t_actions db' = t_actions db -> t_rules db' = t_rules db ->
  t_meta db' = t_meta db -> t_heads db' = t_heads db -> t_invocations db' = t_invocations db ->
  t_consumptions db' = t_consumptions db -> t_sealed db' = t_sealed db -> quiet db db'.
Proof.
  intros Ha Hx Hr Hm Hh Hi Hc Hse. split; [|by rewrite Ha|by rewrite Hx|done..].
  split; [rewrite Ha|rewrite Hx|rewrite Hr|done]; apply grows_refl, _.
Qed.

Create HintDb store.
#[export] Hint Resolve quiet_actions quiet_rules quiet_admissions : store.

Lemma set_finished_le at_ o s x : action_le x (set_finished at_ o s x).
Proof. split_and!; try done. Qed.

Lemma finish_open_le plan_id at_ o a :
  open_admission plan_id a = true -> admission_le a (set_admission_finished at_ o a).
Proof.
  unfold open_admission. intros Ha. bsplit. exists at_, o. split; [done|]. intros t Ht. rewrite Ht in *. done.
Qed.

Lemma settle_quiet db plan_id index outcome at_ : quiet db (settle_rule_revoke db plan_id index outcome at_).
Proof.
  unfold settle_rule_revoke. destruct (negb _); [done|].
  destruct (String.eqb outcome "succeeded"); apply quiet_rules, grows_update; try apply _;
    intros r Hr; unfold pending_revoke in Hr; bsplit; split_and!; try done;
    intros t Ht; rewrite Ht in *; done.
Qed.

Lemma finish_quiet db plan_id : quiet db (finish_admission_if_done db plan_id).1.
Proof.
  unfold finish_admission_if_done. destruct (negb _); [done|]. cbn [fst].
  apply quiet_admissions, Forall2_update; [apply _|]. intros a. apply finish_open_le.
Qed.

Lemma apply_line_quiet db line : quiet db (apply_line db line).1.
Proof.
  unfold apply_line. destruct (negb (named_count _ _ =? 1)); [done|].
  destruct (String.eqb (cl_event line) "consumed").
  { cbn [fst]. apply quiet_actions, Forall2_update; [apply _|]. intros x Hx. bsplit.
    split_and!; try done. intros s Hs. rewrite Hs in *. done. }
  destruct (String.eqb (cl_event line) "result"); [|done]. destruct (negb (contains_str _ _)); [done|].
  set (db1 := with_actions db _). set (db2 := settle_rule_revoke db1 _ _ _ _).
  pose proof (finish_quiet db2 (cl_plan_id line)) as Hf.
  destruct (finish_admission_if_done db2 _) as [db3 finished]. cbn [fst] in *.
  transitivity db1; [|transitivity db2; [apply settle_quiet|done]].
  apply quiet_actions, Forall2_update; [apply _|]. intros x _. apply set_finished_le.
Qed.

Lemma apply_lines_quiet lines : forall db last, quiet db (apply_lines db last lines).1.1.
Proof.
  induction lines as [|line lines IH]; intros db last; cbn [apply_lines]; [done|].
  destruct (contains_str ACTION_EVENTS (cl_event line)).
  - pose proof (apply_line_quiet db line) as Hq. destruct (apply_line db line) as [db1 effects].
    specialize (IH db1 (cl_seq line)). destruct (apply_lines db1 (cl_seq line) lines) as [[db2 l2] more].
    cbn [fst] in *. by transitivity db1.
  - specialize (IH db (cl_seq line)). by destruct (apply_lines db (cl_seq line) lines) as [[db2 l2] more].
Qed.

Lemma reconcile_quiet db read now : quiet db (reconcile db read now).1.
Proof.
  unfold reconcile. pose proof (apply_lines_quiet (new_lines read (last_seq db)) db (last_seq db)) as Hq.
  destruct (apply_lines _ _ _) as [[db1 last] effects]. cbn [fst] in *.
  transitivity db1; [done|]. by apply quiet_other.
Qed.

Lemma finish_action_quiet db plan_id index outcome now changed db' :
  finish_action db plan_id index outcome now = Ok (changed, db') -> quiet db db'.
Proof.
  unfold finish_action. destruct (_ && _); [done|]. set (db1 := with_actions db _).
  assert (quiet db db1) as H1.
  { apply quiet_actions, Forall2_fmap_le. intros x. destruct (_ && _); [apply set_finished_le|done]. }
  set (db2 := if _ : bool then _ else db1).
  assert (quiet db1 db2) as H2 by (unfold db2; destruct (_ =? 1); [apply settle_quiet|done]).
  pose proof (finish_quiet db2 plan_id) as H3.
  destruct (finish_admission_if_done db2 plan_id) as [db3 finished]. intros [= _ <-].
  cbn [fst] in H3. transitivity db1; [done|]. by transitivity db2.
Qed.

Lemma expire_plan_quiet at_ db plan_id : quiet db (expire_plan at_ db plan_id).
Proof.
  unfold expire_plan. set (db1 := with_actions db _). transitivity db1.
  - apply quiet_actions, Forall2_fmap_le. intros x. destruct (untouched _ _); [apply set_finished_le|done].
  - apply quiet_admissions, Forall2_update; [apply _|]. intros a. apply finish_open_le.
Qed.

Lemma expire_windows_quiet db now : quiet db (expire_windows db now).2.
Proof.
  unfold expire_windows. cbn [snd]. generalize (ad_plan_id <$> select (window_ended db (format_timestamp (now - EXECUTION_WINDOW_SECONDS))) (t_admissions db)).
  intros ids. revert db. induction ids as [|id ids IH]; intros db; [done|]. cbn [fold_left].
  etransitivity; [apply expire_plan_quiet|apply IH].
Qed.

(** ** Operations of the store *)

Section steps.
Context {CR : Crypto} {JR : JsonReader} {AS : AlertSpec}.

(** Every operation that changes the store. *)
Inductive step (db : Db) : Db -> Prop :=
| step_admit trust starts random input adm db' :
    admit_plan db trust starts random input = Ok (adm, db') -> step db db'
| step_reconcile read now : step db (reconcile db read now).1
| step_finish plan_id index outcome now changed db' :
    finish_action db plan_id index outcome now = Ok (changed, db') -> step db db'
| step_expire_windows now : step db (expire_windows db now).2
| step_append_event operation_id now encode :
    step db (append_operation_event db operation_id now encode).2
| step_prune_events now : step db (prune_operation_events db now).2
| step_insert_delivery row : step db (insert_delivery db row).2
| step_delivery_status delivery_id status db' :
    set_delivery_status db delivery_id status = Ok db' -> step db db'
| step_claim delivery_id status claimed db' :
    claim_delivery db delivery_id status = Ok (claimed, db') -> step db db'
| step_reject digest bytes project provider received reason :
    step db (insert_rejected_delivery db digest bytes project provider received reason)
| step_expire_deliveries now : step db (expire_deliveries db now).2
| step_record_build build_id service_id commit_sha image delivery_id built_at db' :
    record_build db build_id service_id commit_sha image delivery_id built_at = Ok db' -> step db db'.

(** A step is quiet or it is the admission of a new plan. *)
Lemma step_cases db db' : step db db' ->
  quiet db db' \/
  exists trust starts random input adm, admit_plan db trust starts random input = Ok (adm, db') /\
    am_deduplicated adm = false.
Proof.
  destruct 1 as [trust starts random input adm db' Ha|read now|? ? ? ? ? ? Hf|now| | |row|id st db' Hs
    |id st c db' Hc| | |? ? ? ? ? ? db' Hb].
  - destruct (am_deduplicated adm) eqn:Hd; [left|right; by exists trust, starts, random, input, adm].
    by rewrite (admit_dedup _ _ _ _ _ _ _ Ha Hd).
  - left. apply reconcile_quiet.
  - left. by eapply finish_action_quiet.
  - left. apply expire_windows_quiet.
  - left. by apply quiet_other.
  - left. by apply quiet_other.
  - left. unfold insert_delivery. destruct (_ || _); [done|by apply quiet_other].
  - left. unfold set_delivery_status, update_status in Hs. destruct (_ && _); [done|].
    injection Hs as <-. by apply quiet_other.
  - left. unfold claim_delivery in Hc. inv_ok Hc. unfold update_status in Hx. destruct (_ && _) in Hx; [done|].
    injection Hx as <-. simplify_eq/=. by apply quiet_other.
  - left. unfold insert_rejected_delivery. destruct (_ <? _); [by apply quiet_other|done].
  - left. by apply quiet_other.
  - left. unfold record_build in Hb. destruct (_ || _); [done|]. injection Hb as <-. by apply quiet_other.
Qed.

Lemma admit_history db trust starts random input adm db' :
  admit_plan db trust starts random input = Ok (adm, db') -> am_deduplicated adm = false -> history_le db db'.
Proof.
  intros Ha Hd. destruct (admit_new _ _ _ _ _ _ _ Ha Hd) as (vp & sealed & _ & _ & [_ Hadm _ Hact _ Hr _ _ (Hm & _)]).
  split; [rewrite Hadm; apply grows_app, _|rewrite Hact; apply grows_app, _|done|done].
Qed.

Lemma history_steps db db' : rtc step db db' -> history_le db db'.
Proof.
  induction 1 as [db|db db1 db' Hs _ IH]; [done|]. etransitivity; [|exact IH].
  destruct (step_cases _ _ Hs) as [Hq|(trust & starts & random & input & adm & Ha & Hd)].
  - apply qu_history. done.
  - by eapply admit_history.
Qed.


End steps.
