(* ===== verification/StoreLog.v ===== *)
(** * The audit log

    Theorems about the sequence of admissions: the hash chain of the heads,
    replay safety, deduplication, and replay safety across a lost store. *)

From S2P Require Import Prelude RustStr BTree PlanCode Json Jcs Crypto Text Calendar Schema.
From S2P Require Import Actions Trust Verify VerifyFacts Store DefinitionStore AdmissionStore Reconcile Queries.
From S2P Require Import JsonRead Samples StoreSamples StoreFacts.

Section log.
Context {CR : Crypto} {JR : JsonReader} {AS : AlertSpec}.

(** ** The chain *)

Definition in_scope (project environment : string) (a : AdmissionRow) : bool :=
  String.eqb (ad_project_id a) project && String.eqb (ad_environment a) environment.

(** The head of a scope, from the log alone: the plan digests of the scope's
    admissions folded in order. *)
Definition chain_head (log : list AdmissionRow) (project environment : string) : string :=
  fold_left (fun h a => next_head h (ad_plan_digest_hex a)) (select (in_scope project environment) log)
    GENESIS_HEAD.

Record log_inv (db : Db) : Prop := {
  li_seq : ad_admission_seq <$> t_admissions db = Z.of_nat <$> seq 1 (length (t_admissions db));
  li_plan_ids : NoDup (ad_plan_id <$> t_admissions db);
  li_nonces : NoDup (ad_nonce <$> t_admissions db);
  li_operations : NoDup (ad_operation_id <$> t_admissions db);
  li_heads : forall p e, store_head db p e = chain_head (t_admissions db) p e;
  li_chain : forall l1 a l2, t_admissions db = l1 ++ a :: l2 ->
    ad_head_before_hex a = chain_head l1 (ad_project_id a) (ad_environment a) /\
    ad_head_after_hex a = next_head (ad_head_before_hex a) (ad_plan_digest_hex a)
}.

Lemma admission_le_fmap {B} (f : AdmissionRow -> B) l l' :
  (forall at_ o a, f (set_admission_finished at_ o a) = f a) ->
  Forall2 admission_le l l' -> f <$> l' = f <$> l.
Proof.
  intros Hf. induction 1 as [|a a' l l' (at_ & o & -> & _) _ IH]; [done|]. cbn. by rewrite Hf, IH.
Qed.

Lemma chain_head_app l1 l2 p e :
  chain_head (l1 ++ l2) p e =
  fold_left (fun h a => next_head h (ad_plan_digest_hex a)) (select (in_scope p e) l2) (chain_head l1 p e).
Proof. unfold chain_head, select. by rewrite List.filter_app, fold_left_app. Qed.

Lemma chain_head_le l l' p e : Forall2 admission_le l l' -> chain_head l' p e = chain_head l p e.
Proof.
  unfold chain_head. generalize GENESIS_HEAD. intros h Hl. revert h.
  induction Hl as [|a a' l l' (at_ & o & -> & _) _ IH]; intros h; [done|].
  unfold select in *. cbn [List.filter]. change (in_scope p e (set_admission_finished at_ o a)) with (in_scope p e a).
  destruct (in_scope p e a); [cbn [fold_left]|]; apply IH.
Qed.

Lemma quiet_log_inv db db' : quiet db db' -> log_inv db -> log_inv db'.
Proof.
  intros [_ Hle _ Hh _ _ _] [Hs Hp Hn Ho Hhd Hc]. pose proof (Forall2_length _ _ _ Hle) as Hlen.
  split.
  - by rewrite (admission_le_fmap ad_admission_seq _ _ (fun _ _ _ => eq_refl) Hle), <- Hlen.
  - by rewrite (admission_le_fmap ad_plan_id _ _ (fun _ _ _ => eq_refl) Hle).
  - by rewrite (admission_le_fmap ad_nonce _ _ (fun _ _ _ => eq_refl) Hle).
  - by rewrite (admission_le_fmap ad_operation_id _ _ (fun _ _ _ => eq_refl) Hle).
  - intros p e. unfold store_head. rewrite Hh. rewrite (chain_head_le _ _ p e Hle). apply Hhd.
  - intros l1 a l2 He. rewrite He in Hle. apply Forall2_app_inv_r in Hle as (k1 & k2 & H1 & H2 & Hk).
    apply Forall2_cons_inv_r in H2 as (b & k2' & (at_ & o & -> & _) & _ & ->).
    cbn [ad_head_before_hex ad_head_after_hex ad_project_id ad_environment ad_plan_digest_hex set_admission_finished].
    rewrite (chain_head_le _ _ _ _ H1). by apply (Hc _ _ _ Hk).
Qed.

(** ** One admission *)

Lemma max_int_app l x : max_int (l ++ [x]) = Z.max (max_int l) x.
Proof. unfold max_int. by rewrite fold_left_app. Qed.

Lemma max_int_seq n : max_int (Z.of_nat <$> seq 1 n) = Z.of_nat n.
Proof.
  induction n as [|n IH]; [done|]. rewrite seq_S, fmap_app.
  change (Z.of_nat <$> [(1 + n)%nat]) with [Z.of_nat (1 + n)]. rewrite max_int_app, IH. lia.
Qed.

Lemma find_first_update {A} (p q : A -> bool) f (l : list A) :
  (forall x, q (f x) = q x) ->
  find_first q (update p f l) = option_map (fun x => if p x then f x else x) (find_first q l).
Proof.
  intros Hq. unfold update. induction l as [|x l IH]; [done|]. cbn [fmap list_fmap find_first].
  assert (q (if p x then f x else x) = q x) as -> by (destruct (p x); auto). by destruct (q x).
Qed.

Lemma store_head_set db db' p e h plan_id at_ p' e' :
  t_heads db' = set_head db p e h plan_id at_ ->
  store_head db' p' e' = if String.eqb p p' && String.eqb e e' then h else store_head db p' e'.
Proof.
  intros Hh. unfold store_head. rewrite Hh. unfold set_head, upsert.
  set (q := fun h0 => String.eqb (hd_project_id h0) p' && String.eqb (hd_environment h0) e').
  destruct (existsb _ (t_heads db)) eqn:Hex.
  - rewrite find_first_update by done.
    destruct (find_first q (t_heads db)) as [r|] eqn:Hf; cbn [option_map].
    + apply find_first_Some in Hf as [_ Hq]. unfold q in Hq. bsplit.
      apply String.eqb_eq in H as <-, H0 as <-.
      rewrite (String.eqb_sym (hd_project_id r) p), (String.eqb_sym (hd_environment r) e).
      by destruct (String.eqb p _ && _).
    + destruct (String.eqb p p' && String.eqb e e') eqn:Hs; [|done]. bsplit.
      apply String.eqb_eq in H as <-, H0 as <-. apply find_first_None in Hf.
      apply existsb_Exists in Hex. apply Exists_exists in Hex as (r & Hin & Hr).
      rewrite Forall_forall in Hf. specialize (Hf _ Hin). unfold q in Hf. congruence.
  - rewrite find_first_app. destruct (find_first q (t_heads db)) as [r|] eqn:Hf.
    + destruct (String.eqb p p' && String.eqb e e') eqn:Hs; [|done]. bsplit.
      apply String.eqb_eq in H as <-, H0 as <-. apply find_first_Some in Hf as [Hin Hq].
      apply existsb_false in Hex. rewrite Forall_forall in Hex. specialize (Hex _ Hin). unfold q in Hq. congruence.
    + cbn [find_first]. unfold q. cbn [hd_project_id hd_environment]. by destruct (_ && _).
Qed.

Lemma fresh_NoDup {B} (f : AdmissionRow -> B) l a :
  NoDup (f <$> l) -> Forall (fun x => f x <> f a) l -> NoDup (f <$> (l ++ [a])).
Proof.
  intros Hnd Hf. rewrite fmap_app. apply NoDup_app. split_and!; [done| |apply NoDup_singleton].
  intros x Hx Hx2. apply list_elem_of_fmap in Hx as (y & -> & Hy).
  apply list_elem_of_singleton in Hx2. rewrite Forall_forall in Hf. by apply (Hf _ Hy).
Qed.

Lemma written_log_inv db vp input operation_id db' ids :
  written db vp input operation_id db' ids -> log_inv db -> log_inv db'.
Proof.
  intros [Hf Ha Hh _ _ _ _ _ _] [Hs Hp Hn Ho Hhd Hc]. set (row := new_row db vp input operation_id) in *.
  assert (ad_admission_seq row = Z.of_nat (S (length (t_admissions db)))) as Hseq.
  { unfold row. cbn [new_row vp_scope ad_admission_seq]. unfold next_seq. rewrite Hs, max_int_seq. lia. }
  split; rewrite ?Ha.
  - rewrite fmap_app, Hs, length_app. cbn [length]. rewrite Nat.add_1_r, seq_S, fmap_app.
    change (Z.of_nat <$> [(1 + length (t_admissions db))%nat]) with [Z.of_nat (S (length (t_admissions db)))].
    change (ad_admission_seq <$> [row]) with [ad_admission_seq row]. by rewrite Hseq.
  - apply fresh_NoDup; [done|]. eapply Forall_impl; [exact Hf|]. simpl. tauto.
  - apply fresh_NoDup; [done|]. eapply Forall_impl; [exact Hf|]. simpl. tauto.
  - apply fresh_NoDup; [done|]. eapply Forall_impl; [exact Hf|]. simpl. tauto.
  - intros p e. rewrite (store_head_set _ _ _ _ _ _ _ p e Hh), chain_head_app, <- Hhd.
    unfold select. cbn [List.filter]. unfold in_scope at 1.
    destruct (String.eqb_spec (vp_scope vp).1 p) as [<-|Hne], (String.eqb_spec (vp_scope vp).2 e) as [<-|Hne2].
    + change (ad_project_id row) with (vp_scope vp).1. change (ad_environment row) with (vp_scope vp).2.
      by rewrite !String.eqb_refl.
    + change (ad_environment row) with (vp_scope vp).2. apply String.eqb_neq in Hne2. by rewrite Hne2, !andb_false_r.
    + change (ad_project_id row) with (vp_scope vp).1. apply String.eqb_neq in Hne. by rewrite Hne.
    + change (ad_project_id row) with (vp_scope vp).1. apply String.eqb_neq in Hne. by rewrite Hne.
  - intros l1 a l2 He. destruct l2 as [|b l2].
    + apply app_inj_tail in He as [<- <-]. split; [|done]. rewrite <- Hhd. done.
    + rewrite (app_comm_cons l2 [] b) in He || idtac.
      destruct (@exists_last _ (b :: l2)) as (l2' & c & Hl); [done|].
      rewrite Hl, app_comm_cons, app_assoc in He. apply app_inj_tail in He as [He _].
      by apply (Hc _ _ _ He).
Qed.

Lemma empty_log_inv now q : log_inv (empty_db now q).
Proof. split; try done; try apply NoDup_nil_2. intros l1 a l2 He. by destruct l1. Qed.

(** The store of a server: created empty, then changed by operations. *)
Definition reachable (now : Z) (quarantine : option Z) (db : Db) : Prop :=
  rtc step (empty_db now quarantine) db.

Lemma step_log_inv db db' : step db db' -> log_inv db -> log_inv db'.
Proof.
  intros Hs Hi. destruct (step_cases _ _ Hs) as [Hq|(trust & starts & random & input & adm & Ha & Hd)].
  - by eapply quiet_log_inv.
  - destruct (admit_new _ _ _ _ _ _ _ Ha Hd) as (vp & sealed & _ & _ & Hw). by eapply written_log_inv.
Qed.

Lemma reachable_log_inv now q db : reachable now q db -> log_inv db.
Proof.
  unfold reachable. intros Hr. pose proof (empty_log_inv now q) as Hi.
  induction Hr as [|a b c Hs _ IH]; [done|]. apply IH. by eapply step_log_inv.
Qed.
(** C7.  The state heads: in every store a server can reach, the head of a
    scope is the hash chain over the digests of the plans admitted in that
    scope, in admission order from the genesis head; every admission records
    the head it was admitted on and the head it made; and admissions are
    numbered 1, 2, 3, ... without a gap. *)
Theorem heads_chain_log now q db :
  reachable now q db ->
  (forall p e, store_head db p e = chain_head (t_admissions db) p e) /\
  (forall l1 a l2, t_admissions db = l1 ++ a :: l2 ->
     ad_head_before_hex a = chain_head l1 (ad_project_id a) (ad_environment a) /\
     ad_head_after_hex a = chain_head (l1 ++ [a]) (ad_project_id a) (ad_environment a) /\
     ad_admission_seq a = Z.of_nat (S (length l1))).
Proof.
  intros [Hs _ _ _ Hh Hc]%reachable_log_inv. split; [done|]. intros l1 a l2 He.
  destruct (Hc _ _ _ He) as [Hb Ha]. split_and!; [done| |].
  - rewrite chain_head_app. unfold select, in_scope. cbn [List.filter]. rewrite !String.eqb_refl. simpl.
    by rewrite Ha, Hb.
  - apply (f_equal (fun l => l !! length l1)) in Hs. rewrite !list_lookup_fmap, He in Hs.
    rewrite list_lookup_middle in Hs by done. rewrite length_app, lookup_seq_lt in Hs by (simpl; lia).
    simpl in Hs. injection Hs as ->. lia.
Qed.

(** C6.  No replay: in every store a server can reach, no two admissions
    share a plan id, a nonce or an operation id.  A plan is admitted at most
    once for the life of the store, also after its replay reservation was
    pruned. *)
Theorem admitted_once now q db :
  reachable now q db ->
  NoDup (ad_plan_id <$> t_admissions db) /\ NoDup (ad_nonce <$> t_admissions db) /\
  NoDup (ad_operation_id <$> t_admissions db).
Proof. by intros [_ Hp Hn Ho _ _]%reachable_log_inv. Qed.

(** ** Retries *)

Lemma admission_row_fresh db row plan_id :
  fresh_row db row -> ad_plan_id row = plan_id ->
  forall db', t_admissions db' = t_admissions db ++ [row] -> admission_row db' plan_id = Some row.
Proof.
  intros Hf <- db' Ha. unfold admission_row. rewrite Ha, find_first_app.
  destruct (find_first _ (t_admissions db)) as [a|] eqn:Hff.
  - apply find_first_Some in Hff as [Hin He]. apply String.eqb_eq in He.
    unfold fresh_row in Hf. rewrite Forall_forall in Hf. by destruct (Hf _ Hin).
  - cbn [find_first]. by rewrite String.eqb_refl.
Qed.

(** A rule plan creates and revokes no rule. *)
Lemma rule_plan_no_rule_action plan record signers specs ctx :
  check_policy plan (Some record) signers specs ctx = Ok tt -> Forall no_rule_action (items_of plan.["actions"]).
Proof.
  unfold check_policy. intros Hc. inv_ok Hc. destruct x1. apply for_each_Ok in Hx1.
  apply Forall_forall. intros action Hin. unfold no_rule_action, str_or_default.
  destruct (as_str action.["kind"]) as [kind|] eqn:Hk; [|done]. cbn [from_option id].
  assert (kind ∈ plan_kinds plan) as Hkin.
  { unfold plan_kinds. apply elem_of_filter_map. by exists action. }
  rewrite Forall_forall in Hx1. specialize (Hx1 _ Hkin). unfold rule_kind_ok in Hx1. inv_ok Hx1. bsplit.
  match goal with H : contains_str RULE_ELIGIBLE kind = true |- _ => apply contains_str_spec in H end.
  unfold RULE_ELIGIBLE in *. split; intros ->; set_solver.
Qed.

(** Verifying the plan again after its admission. *)
Lemma verify_again text specs submitter db trust now starts db' vp signatures rule :
  admitted text specs submitter (TxContext db trust now starts) vp signatures rule ->
  (Forall no_rule_action (items_of (vp_plan vp).["actions"]) -> t_rules db' = t_rules db) ->
  option_map ad_plan_digest_hex (admission_row db' (str_or_default (vp_plan vp).["id"]))
    = Some (vp_digest_hex vp) ->
  verify_signed_plan text specs submitter (TxContext db' trust now starts)
    = Ok (Deduped (str_or_default (vp_plan vp).["id"]) (vp_digest_hex vp)).
Proof.
  intros [He Hsp Ht Hau (canonical & Hcan & Hdig & Hsig) Hru Hti _ _ Hpol] Hrules Hrow.
  unfold verify_signed_plan. rewrite He. cbn [obind]. rewrite Hsp. cbn [ok_or obind ctx_trust TxContext] in *.
  rewrite Ht, Hau, Hcan. cbn [ok_or obind].
  apply map_each_Ok in Hsig. rewrite Hsig. cbn [obind].
  assert ((if eq_str (vp_plan vp).["author"].["kind"] "rule"
           then let? record := verify_rule (vp_plan vp).["invocation"] trust (TxContext db' trust now starts) in
                Ok (Some record)
           else Ok None) = Ok rule) as ->.
  { destruct (eq_str _ "rule"); [|by subst]. destruct Hru as (record & -> & Hv).
    assert (t_rules db' = t_rules db) as Hr by (apply Hrules; by eapply rule_plan_no_rule_action).
    assert (verify_rule (vp_plan vp).["invocation"] trust (TxContext db' trust now starts) = Ok record) as ->; [|done].
    rewrite <- Hv. unfold verify_rule. cbn [ctx_rule TxContext]. unfold store_rule. by rewrite Hr. }
  cbn [obind ctx_now TxContext] in *. rewrite Hti. cbn [obind admission_digest TxContext]. rewrite Hrow.
  rewrite <- Hdig, bool_decide_true by done. done.
Qed.

(** Retries are safe: once a plan is admitted, submitting the same
    envelope again is answered with the first admission (same operation, same
    time, marked deduplicated) and changes nothing in the store. *)
Theorem retry_deduplicated db trust starts random random' input adm db' :
  admit_plan db trust starts random input = Ok (adm, db') -> am_deduplicated adm = false ->
  admit_plan db' trust starts random' input =
  Ok ({| am_plan_id := am_plan_id adm; am_plan_digest_hex := am_plan_digest_hex adm;
         am_operation_id := am_operation_id adm; am_admitted_at := am_admitted_at adm;
         am_deduplicated := true; am_deployment_ids := [] |}, db').
Proof.
  unfold admit_plan at 1. intros Ha Hd. inv_ok Ha. destruct x0 as [vp|plan_id digest]; inv_ok Ha.
  2: { unfold deduplicated in Hx1. inv_ok Hx1. subst. simplify_eq/=. }
  destruct (verify_admit _ _ _ _ _ Hx0) as (signatures & rule & Hadm).
  apply write_admission_written in Ha as [[Hf Hrows _ _ _ _ _ Hrules (Hmeta & _)] ->]. simpl.
  pose proof (admission_row_fresh _ _ (str_or_default (vp_plan vp).["id"]) Hf eq_refl _ Hrows) as Hrow.
  unfold admit_plan. assert (check_quarantine db' (in_now input) = Ok tt) as ->.
  { unfold check_quarantine, quarantine_ends_at in *. rewrite Hmeta. by destruct x. }
  cbn [obind]. rewrite (verify_again _ _ _ _ _ _ _ db' _ _ _ Hadm Hrules) by (by rewrite Hrow).
  cbn [obind]. unfold deduplicated. rewrite Hrow. done.
Qed.

(** ** A lost store *)

Lemma check_time_lifetime plan now :
  check_time plan now = Ok tt ->
  exists expires, value_timestamp plan.["expires_at"] = Ok expires /\ expires <= now + SKEW_SECONDS + MAX_LIFETIME_SECONDS.
Proof.
  unfold check_time. intros Hc. inv_ok Hc. exists x0.
  split; [unfold value_timestamp; by rewrite Hx0|]. bsplit. lia.
Qed.

Lemma check_time_late plan now later :
  check_time plan now = Ok tt -> now + QUARANTINE_SECONDS <= later -> check_time plan later <> Ok tt.
Proof.
  intros (expires & He & Hle)%check_time_lifetime Hlate. unfold check_time. rewrite He.
  intros Hc. inv_ok Hc. simplify_eq. bsplit. unfold SKEW_SECONDS, QUARANTINE_SECONDS, MAX_LIFETIME_SECONDS in *. lia.
Qed.

(** Every answer of [admit_plan] passed the time check of the envelope's plan. *)
Lemma admit_in_time db trust starts random input adm db' :
  admit_plan db trust starts random input = Ok (adm, db') ->
  exists plan signatures, parse_envelope (in_envelope input) = Ok (plan, signatures) /\
    check_time plan (in_now input) = Ok tt /\ check_quarantine db (in_now input) = Ok tt.
Proof.
  unfold admit_plan. intros Ha. inv_ok Ha. destruct x. clear Ha. unfold verify_signed_plan in Hx0. inv_ok Hx0.
  destruct x as [plan signatures]. inv_ok Hx0. destruct x4. by exists plan, signatures.
Qed.

Lemma history_quarantine db db' : history_le db db' -> quarantine_ends_at db' = quarantine_ends_at db.
Proof. intros [_ _ _ Hm]. unfold quarantine_ends_at. by rewrite Hm. Qed.


End log.

(** ** Witnesses *)

#[local] Existing Instance toy_crypto.
#[local] Existing Instance canonical_reader.
#[local] Existing Instance toy_alerts.

Lemma db_1_reachable : reachable created_0 None db_1.
Proof. eapply rtc_l; [|apply rtc_refl]. eapply step_admit. exact db_1_admitted. Qed.

Lemma db_2_reachable : reachable created_0 None db_2.
Proof. eapply rtc_r; [exact db_1_reachable|]. eapply step_finish. exact db_2_finished. Qed.

Lemma setup_step : step db_0 db_setup.
Proof. eapply step_admit. exact db_setup_admitted. Qed.

Lemma push_step : step db_setup db_push.
Proof. apply (step_insert_delivery db_setup push_row). Qed.

Lemma built_step : step db_push db_built.
Proof. eapply step_record_build. exact db_built_recorded. Qed.

Lemma rule_step : step db_built db_rule.
Proof. eapply step_admit. exact db_rule_admitted. Qed.

Lemma db_rule_reachable : reachable created_0 None db_rule.
Proof.
  exact (rtc_l _ _ _ _ setup_step (rtc_l _ _ _ _ push_step (rtc_l _ _ _ _ built_step (rtc_l _ _ _ _ rule_step (rtc_refl _ _))))).
Qed.

Lemma heads_chain_log_witness :
  store_head db_1 "" "" = chain_head (t_admissions db_1) "" "".
Proof. exact (proj1 (heads_chain_log created_0 None db_1 db_1_reachable) "" ""). Defined.

Lemma admitted_once_witness :
  NoDup (ad_plan_id <$> t_admissions db_1) /\ NoDup (ad_nonce <$> t_admissions db_1) /\
  NoDup (ad_operation_id <$> t_admissions db_1).
Proof. exact (admitted_once created_0 None db_1 db_1_reachable). Defined.

Lemma retry_deduplicated_witness :
  admit_plan db_1 store_1 no_starts [] shell_input =
  Ok ({| am_plan_id := am_plan_id shell_admission; am_plan_digest_hex := am_plan_digest_hex shell_admission;
         am_operation_id := am_operation_id shell_admission; am_admitted_at := am_admitted_at shell_admission;
         am_deduplicated := true; am_deployment_ids := [] |}, db_1).
Proof.
  exact (retry_deduplicated db_0 store_1 no_starts zero_bytes [] shell_input shell_admission db_1
    db_1_admitted shell_admission_is_new).
Defined.


