(* ===== verification/ReconcileFacts.v ===== *)
(** * Theorems about execution state

    Reading the consumed log in pieces. *)

From S2P Require Import Prelude RustStr BTree PlanCode Json Jcs JsonRead Crypto Calendar Trust Verify Store Reconcile.
From S2P Require Import AdmissionStore Samples StoreSamples.

(** ** Ordered lists of rows *)

Section order.
Context {A : Type} (key : A -> Z).

Definition ordered (l : list A) : Prop := StronglySorted (fun x y => key x <= key y) l.

Lemma insert_asc_perm x l : insert_asc key x l ≡ₚ x :: l.
Proof.
  induction l as [|y l IH]; [done|]. cbn [insert_asc]. destruct (key x <? key y); [done|].
  rewrite IH. apply Permutation_swap.
Qed.

Lemma insert_asc_ordered x l : ordered l -> ordered (insert_asc key x l).
Proof.
  induction 1 as [|y l Hs IH Hf]; [repeat constructor|]. cbn [insert_asc].
  destruct (Z.ltb_spec (key x) (key y)).
  - repeat constructor; try done; [lia|]. eapply Forall_impl; [exact Hf|]. simpl. lia.
  - constructor; [done|]. rewrite insert_asc_perm. constructor; [lia|done].
Qed.

Lemma order_asc_snoc l x : order_asc key (l ++ [x]) = insert_asc key x (order_asc key l).
Proof. unfold order_asc. by rewrite fold_left_app. Qed.

Lemma order_asc_perm l : order_asc key l ≡ₚ l.
Proof.
  induction l as [|x l IH] using rev_ind; [done|]. rewrite order_asc_snoc, insert_asc_perm, IH.
  symmetry. apply Permutation_app_comm.
Qed.

Lemma order_asc_ordered l : ordered (order_asc key l).
Proof. induction l as [|x l IH] using rev_ind; [constructor|]. rewrite order_asc_snoc. by apply insert_asc_ordered. Qed.

(** A row at or above every earlier one goes behind them. *)
Lemma insert_asc_app x l1 l2 :
  Forall (fun y => key y <= key x) l1 -> insert_asc key x (l1 ++ l2) = l1 ++ insert_asc key x l2.
Proof.
  induction 1 as [|y l1 Hy _ IH]; [done|]. cbn [insert_asc app]. destruct (Z.ltb_spec (key x) (key y)); [lia|].
  by rewrite IH.
Qed.

Lemma order_asc_app l1 l2 :
  (forall x y, x ∈ l1 -> y ∈ l2 -> key x < key y) ->
  order_asc key (l1 ++ l2) = order_asc key l1 ++ order_asc key l2.
Proof.
  induction l2 as [|y l2 IH] using rev_ind; intros Hlt; [by rewrite !app_nil_r|].
  rewrite app_assoc, !order_asc_snoc, IH by set_solver. apply insert_asc_app.
  rewrite order_asc_perm. apply Forall_forall. intros x Hx. apply Z.lt_le_incl, Hlt; set_solver.
Qed.
End order.

Lemma dedup_after_elem seq l x : x ∈ dedup_after seq l -> x ∈ l.
Proof.
  revert seq; induction l as [|y l IH]; intros seq; [done|]. cbn [dedup_after].
  destruct (cl_seq y =? seq); set_solver.
Qed.

Lemma dedup_after_app seq l1 l2 :
  Forall (fun y => seq <> cl_seq y) l2 -> (forall x y, x ∈ l1 -> y ∈ l2 -> cl_seq x <> cl_seq y) ->
  dedup_after seq (l1 ++ l2) = dedup_after seq l1 ++ dedup_lines l2.
Proof.
  revert seq; induction l1 as [|x l1 IH]; intros seq Hs Hne.
  - destruct l2 as [|y l2]; [done|]. cbn [app dedup_after dedup_lines].
    apply Forall_cons in Hs as [Hy _]. destruct (Z.eqb_spec (cl_seq y) seq); [by subst|done].
  - cbn [app dedup_after]. destruct (cl_seq x =? seq).
    + apply IH; [done|]. set_solver.
    + cbn [app]. f_equal. apply IH; [|set_solver]. apply Forall_forall. intros y Hy. apply Hne; set_solver.
Qed.

Lemma dedup_lines_app l1 l2 :
  (forall x y, x ∈ l1 -> y ∈ l2 -> cl_seq x <> cl_seq y) ->
  dedup_lines (l1 ++ l2) = dedup_lines l1 ++ dedup_lines l2.
Proof.
  intros Hne. destruct l1 as [|x l1]; [done|]. cbn [app dedup_lines]. f_equal. apply dedup_after_app; [|set_solver].
  apply Forall_forall. intros y Hy. apply Hne; set_solver.
Qed.

(** ** The cursor *)

Definition final_seq (last : Z) (lines : list ConsumedLine) : Z := fold_left (fun _ line => cl_seq line) lines last.

Lemma apply_lines_last lines : forall db last, (apply_lines db last lines).1.2 = final_seq last lines.
Proof.
  induction lines as [|line lines IH]; intros db last; [done|]. cbn [apply_lines final_seq fold_left].
  destruct (contains_str _ _).
  - destruct (apply_line db line) as [db1 e1]. specialize (IH db1 (cl_seq line)).
    destruct (apply_lines db1 (cl_seq line) lines) as [[db2 l2] more]. done.
  - specialize (IH db (cl_seq line)). destruct (apply_lines db (cl_seq line) lines) as [[db2 l2] more]. done.
Qed.

Lemma apply_lines_app l1 l2 : forall db last,
  apply_lines db last (l1 ++ l2) =
  let '(db1, last1, e1) := apply_lines db last l1 in
  let '(db2, last2, e2) := apply_lines db1 last1 l2 in (db2, last2, e1 ++ e2).
Proof.
  induction l1 as [|line l1 IH]; intros db last; cbn [app apply_lines].
  { by destruct (apply_lines db last l2) as [[? ?] ?]. }
  destruct (if contains_str _ _ then _ else _) as [db1 e1]. rewrite IH.
  destruct (apply_lines db1 (cl_seq line) l1) as [[db2 last2] e2].
  destruct (apply_lines db2 last2 l2) as [[db3 last3] e3]. by rewrite !app_assoc.
Qed.

(** The last of an ordered list is its greatest. *)
Lemma final_seq_max last lines :
  ordered cl_seq lines -> Forall (fun x => cl_seq x <= final_seq last lines) lines.
Proof.
  induction lines as [|x lines IH] using rev_ind; intros Ho; [constructor|].
  unfold final_seq. rewrite fold_left_app. cbn [fold_left]. apply Forall_app. split; [|by repeat constructor].
  clear IH. induction lines as [|y lines IH]; [constructor|]. inversion Ho as [|? ? Hs Hf]; subst.
  constructor; [|by apply IH]. apply Forall_app in Hf as [_ Hf]. by inversion Hf.
Qed.

Lemma final_seq_in last lines : lines = [] \/ exists x, x ∈ lines /\ final_seq last lines = cl_seq x.
Proof.
  destruct lines as [|x lines _] using rev_ind; [by left|right]. exists x.
  unfold final_seq. rewrite fold_left_app. split; [set_solver|done].
Qed.

Lemma dedup_after_ordered seq l : ordered cl_seq l -> ordered cl_seq (dedup_after seq l).
Proof.
  intros Ho. revert seq. induction Ho as [|x l Hs IH Hf]; intros seq; [constructor|]. cbn [dedup_after].
  destruct (cl_seq x =? seq); [apply IH|]. constructor; [apply IH|]. apply Forall_forall. intros y Hy%dedup_after_elem.
  rewrite Forall_forall in Hf. by apply Hf.
Qed.

Lemma dedup_lines_ordered l : ordered cl_seq l -> ordered cl_seq (dedup_lines l).
Proof.
  destruct 1 as [|x l Hs Hf]; [constructor|]. cbn [dedup_lines]. constructor; [by apply dedup_after_ordered|].
  apply Forall_forall. intros y Hy%dedup_after_elem. rewrite Forall_forall in Hf. by apply Hf.
Qed.

Lemma dedup_after_keeps seq l x : x ∈ l -> cl_seq x = seq \/ exists y, y ∈ dedup_after seq l /\ cl_seq y = cl_seq x.
Proof.
  revert seq; induction l as [|y l IH]; intros seq; [by intros ?%not_elem_of_nil|]. cbn [dedup_after].
  destruct (Z.eqb_spec (cl_seq y) seq) as [He|Hne]; intros [->|Hin]%elem_of_cons; auto.
  - right. exists y. split; [set_solver|done].
  - destruct (IH (cl_seq y) Hin) as [Hx|(z & Hz & Hx)]; right; [exists y|exists z]; set_solver.
Qed.

Lemma dedup_lines_keeps l x : x ∈ l -> exists y, y ∈ dedup_lines l /\ cl_seq y = cl_seq x.
Proof.
  destruct l as [|y l]; [by intros ?%not_elem_of_nil|]. cbn [dedup_lines]. intros [->|Hin]%elem_of_cons.
  - exists y. split; [set_solver|done].
  - destruct (dedup_after_keeps (cl_seq y) l x Hin) as [Hx|(z & Hz & Hx)]; [exists y|exists z]; set_solver.
Qed.

Definition newer (last : Z) (l : list ConsumedLine) : list ConsumedLine :=
  List.filter (fun line => last <? cl_seq line) l.

Definition prepared (last : Z) (l : list ConsumedLine) : list ConsumedLine :=
  dedup_lines (order_asc cl_seq (newer last l)).

Lemma newer_elem last l x : x ∈ newer last l <-> x ∈ l /\ last < cl_seq x.
Proof. unfold newer. rewrite list_elem_of_In, filter_In, <- list_elem_of_In, Z.ltb_lt. done. Qed.

(** After a pass the cursor is at or above every line of the log. *)
Lemma final_covers last l x :
  x ∈ l -> cl_seq x <= final_seq last (prepared last l).
Proof.
  intros Hin. destruct (Z_lt_ge_dec last (cl_seq x)) as [Hlt|Hge].
  - destruct (dedup_lines_keeps (order_asc cl_seq (newer last l)) x) as (y & Hy & Hyx).
    { rewrite order_asc_perm. by apply newer_elem. }
    pose proof (final_seq_max last (prepared last l)) as Hmax. rewrite Forall_forall in Hmax.
    rewrite <- Hyx. apply Hmax; [|done]. apply dedup_lines_ordered, order_asc_ordered.
  - destruct (final_seq_in last (prepared last l)) as [He|(y & Hy & ->)].
    + unfold prepared in *. rewrite He. simpl. lia.
    + assert (y ∈ order_asc cl_seq (newer last l)) as Hy'.
      { unfold prepared, dedup_lines in Hy. destruct (order_asc cl_seq (newer last l)); [done|].
        apply elem_of_cons in Hy as [->|Hy%dedup_after_elem]; set_solver. }
      rewrite order_asc_perm in Hy'. apply newer_elem in Hy'. lia.
Qed.

(** ** Reconciliation *)

Section reconcile_facts.
Context {JR : JsonReader}.

Lemma new_lines_prepared read last : new_lines read last = prepared last (lr_lines read).
Proof. done. Qed.

(** The lines of a longer log, when the part is applied first. *)
Lemma prepared_split last part more :
  (forall x y, x ∈ part -> y ∈ more -> cl_seq x < cl_seq y) ->
  prepared last (part ++ more) =
  prepared last part ++ prepared (final_seq last (prepared last part)) (part ++ more).
Proof.
  intros Hlt. set (last1 := final_seq last (prepared last part)).
  assert (newer last1 (part ++ more) = newer last more) as He.
  { unfold newer. rewrite List.filter_app.
    assert (List.filter (fun line => last1 <? cl_seq line) part = []) as ->.
    { rewrite <- (filter_false part). apply filter_ext_in. intros x Hx%list_elem_of_In.
      pose proof (final_covers last part x Hx) as Hc. fold last1 in Hc. lia. }
    cbn [app]. apply filter_ext_in. intros y Hy. apply list_elem_of_In in Hy.
    destruct (final_seq_in last (prepared last part)) as [Hnil|(x & Hx & Hfx)].
    - unfold last1. by rewrite Hnil.
    - assert (x ∈ newer last part) as Hx'.
      { rewrite <- (order_asc_perm cl_seq (newer last part)). unfold prepared, dedup_lines in Hx.
        destruct (order_asc cl_seq (newer last part)); [done|].
        apply elem_of_cons in Hx as [->|Hx%dedup_after_elem]; set_solver. }
      apply newer_elem in Hx' as [Hxp Hxl]. specialize (Hlt _ _ Hxp Hy). unfold last1. lia. }
  unfold prepared at 3. rewrite He. unfold prepared, newer at 1. rewrite List.filter_app.
  fold (newer last part) (newer last more).
  assert (forall x y, x ∈ newer last part -> y ∈ newer last more -> cl_seq x < cl_seq y) as Hlt'.
  { intros x y [? _]%newer_elem [? _]%newer_elem. by apply Hlt. }
  rewrite order_asc_app by done. apply dedup_lines_app. intros x y Hx Hy.
  rewrite order_asc_perm in Hx, Hy. specialize (Hlt' _ _ Hx Hy). lia.
Qed.

Definition fits (line : ConsumedLine) : Prop := 0 <= cl_seq line <= i64_max.

Lemma final_seq_fits last lines : 0 <= last <= i64_max -> Forall fits lines -> 0 <= final_seq last lines <= i64_max.
Proof.
  intros Hl Hf. destruct (final_seq_in last lines) as [->|(x & Hx & ->)]; [done|].
  rewrite Forall_forall in Hf. by apply Hf.
Qed.

(** The cursor is not read while lines are applied. *)
Lemma finish_cursor db c plan_id :
  finish_admission_if_done (with_cursor db c) plan_id =
  (with_cursor (finish_admission_if_done db plan_id).1 c, (finish_admission_if_done db plan_id).2).
Proof.
  unfold finish_admission_if_done. change (plan_actions (with_cursor db c) plan_id) with (plan_actions db plan_id).
  by destruct (negb _).
Qed.

Lemma settle_cursor db c plan_id index outcome at_ :
  settle_rule_revoke (with_cursor db c) plan_id index outcome at_ =
  with_cursor (settle_rule_revoke db plan_id index outcome at_) c.
Proof.
  unfold settle_rule_revoke. change (t_actions (with_cursor db c)) with (t_actions db).
  destruct (negb _); [done|]. by destruct (String.eqb _ _).
Qed.

Lemma apply_line_cursor db c line :
  apply_line (with_cursor db c) line = (with_cursor (apply_line db line).1 c, (apply_line db line).2).
Proof.
  unfold apply_line. change (named_count (with_cursor db c) line) with (named_count db line).
  destruct (negb (named_count db line =? 1)); [done|]. destruct (String.eqb (cl_event line) "consumed"); [done|].
  destruct (String.eqb (cl_event line) "result"); [|done]. destruct (negb (contains_str _ _)); [done|].
  change (with_actions (with_cursor db c) ?rows) with (with_cursor (with_actions db rows) c).
  rewrite settle_cursor, finish_cursor. by destruct (finish_admission_if_done _ _).
Qed.

Lemma apply_lines_cursor c lines : forall db last,
  apply_lines (with_cursor db c) last lines =
  (with_cursor (apply_lines db last lines).1.1 c, (apply_lines db last lines).1.2, (apply_lines db last lines).2).
Proof.
  induction lines as [|line lines IH]; intros db last; [done|]. cbn [apply_lines].
  destruct (contains_str _ _); [rewrite apply_line_cursor; destruct (apply_line db line) as [db1 e1]; cbn [fst snd]|];
    rewrite IH; destruct (apply_lines _ _ lines) as [[db2 l2] more]; done.
Qed.

Lemma as_i64_bits_id z : z <= i64_max -> as_i64_bits z = z.
Proof. unfold as_i64_bits. intros H. destruct (Z.ltb_spec i64_max z); lia. Qed.

(** C37.  Reading the consumed log in pieces changes nothing: applying a part
    of the log and later the whole log (in any line order, with repeats)
    leaves the store that applying the whole log at once leaves.  In
    particular applying the same log twice is applying it once, and a crash
    between passes loses and repeats no line. *)
Theorem reconcile_incremental db part full more now1 now2 :
  lr_lines full = lr_lines part ++ more ->
  (forall x y, x ∈ lr_lines part -> y ∈ more -> cl_seq x < cl_seq y) ->
  Forall fits (lr_lines part) -> last_seq db <= i64_max ->
  (reconcile (reconcile db part now1).1 full now2).1 = (reconcile db full now2).1.
Proof.
  intros Hfull Hlt Hfits Hdb.
  assert (0 <= last_seq db <= i64_max) as Hlast.
  { split; [|done]. unfold last_seq. destruct (t_cursor db); [|lia]. destruct (Z.ltb_spec (cu_last_seq c) 0); lia. }
  assert (Forall fits (prepared (last_seq db) (lr_lines part))) as Hpf.
  { apply Forall_forall. intros x Hx. rewrite Forall_forall in Hfits. apply Hfits.
    assert (x ∈ newer (last_seq db) (lr_lines part)) as [? _]%newer_elem; [|done].
    rewrite <- (order_asc_perm cl_seq (newer _ _)). unfold prepared, dedup_lines in Hx.
    destruct (order_asc cl_seq _); [done|]. apply elem_of_cons in Hx as [->|Hx%dedup_after_elem]; set_solver. }
  pose proof (final_seq_fits _ _ Hlast Hpf) as Hfinal.
  pose proof (apply_lines_last (new_lines part (last_seq db)) db (last_seq db)) as Hl1.
  unfold reconcile at 2. destruct (apply_lines db (last_seq db) (new_lines part _)) as [[db1 last1] e1] eqn:H1.
  cbn [fst snd] in *. set (c := Some _). unfold reconcile.
  assert (last_seq (with_cursor db1 c) = last1) as ->.
  { unfold last_seq, c. cbn [t_cursor with_cursor cu_last_seq]. rewrite new_lines_prepared in Hl1.
    rewrite as_i64_bits_id by lia. destruct (Z.ltb_spec last1 0); lia. }
  rewrite apply_lines_cursor, !new_lines_prepared in *. rewrite Hfull.
  rewrite (prepared_split (last_seq db) _ more Hlt), apply_lines_app, H1, <- Hl1.
  by destruct (apply_lines db1 last1 _) as [[db2 last2] e2].
Qed.
End reconcile_facts.

(** ** Witness *)

#[local] Existing Instance toy_crypto.
#[local] Existing Instance canonical_reader.
#[local] Existing Instance toy_alerts.

Definition shell_line (seq : Z) (event : string) (outcome : option string) : ConsumedLine :=
  {| cl_v := 1; cl_seq := seq; cl_at := "2026-01-01T00:05:10Z"; cl_event := event; cl_plan_id := plan_a;
     cl_plan_digest_hex := am_plan_digest_hex shell_admission; cl_action_index := 0;
     cl_op := Some "shell.open"; cl_release_id := None; cl_outcome := outcome; cl_cleanup := None |}.

Definition log_of (lines : list ConsumedLine) : LogRead :=
  {| lr_lines := lines; lr_problems := []; lr_inode := None; lr_offset := 0 |}.

Definition first_line : ConsumedLine := shell_line 1 "consumed" None.
Definition second_line : ConsumedLine := shell_line 2 "result" (Some "succeeded").

(** The shell plan is consumed in one pass and ends in the next. *)
Lemma reconcile_incremental_witness :
  (reconcile (reconcile db_1 (log_of [first_line]) now_0).1 (log_of [first_line; second_line]) now_0).1 =
  (reconcile db_1 (log_of [first_line; second_line]) now_0).1.
Proof.
  apply (reconcile_incremental db_1 (log_of [first_line]) (log_of [first_line; second_line]) [second_line] now_0 now_0).
  - reflexivity.
  - intros x y Hx Hy. apply list_elem_of_singleton in Hx, Hy. subst. vm_compute. reflexivity.
  - apply Forall_singleton. vm_compute. split; discriminate.
  - vm_compute. discriminate.
Defined.

Example second_line_ends :
  ad_outcome <$> t_admissions (reconcile db_1 (log_of [first_line; second_line]) now_0).1 = ["succeeded"].
Proof. vm_compute. reflexivity. Qed.
