(* ===== verification/ExecFacts.v ===== *)
(** * Theorems about the end of admissions

    When an admission counts as finished, what the end of the execution
    window does, and deployment ids. *)

From S2P Require Import Prelude RustStr BTree PlanCode Json Jcs JsonRead Crypto Text Calendar Schema.
From S2P Require Import Actions Trust Verify VerifyFacts Store DefinitionStore AdmissionStore Reconcile Queries.
From S2P Require Import Samples StoreSamples StoreFacts StoreLog SchemaFacts.

(** ** Finished admissions *)

(** Every action of the plan has an end. *)
Definition all_finished (rows : list ActionRow) (plan_id : string) : Prop :=
  Forall (fun x => ac_plan_id x = plan_id -> is_Some (ac_finished_at x)) rows.

Definition ended_ok (rows : list ActionRow) (a : AdmissionRow) : Prop :=
  is_Some (ad_finished_at a) -> ad_outcome a = "expired" \/ all_finished rows (ad_plan_id a).

Definition done_inv (db : Db) : Prop := Forall (ended_ok (t_actions db)) (t_admissions db).

Lemma all_finished_le rows rows' plan_id :
  Forall2 action_le rows rows' -> all_finished rows plan_id -> all_finished rows' plan_id.
Proof.
  intros Hle Hall. induction Hle as [|x x' rows rows' Hx _ IH]; [constructor|].
  inversion Hall as [|? ? Hf Hr]; subst. constructor; [|by apply IH].
  destruct Hx as (-> & _ & _ & _ & _ & Hfin). auto.
Qed.

Lemma done_actions db rows :
  Forall2 action_le (t_actions db) rows -> done_inv db -> done_inv (with_actions db rows).
Proof.
  intros Hle Hd. eapply Forall_impl; [exact Hd|]. intros a Ha Hs. destruct (Ha Hs) as [?|Hall]; [by left|right].
  by eapply all_finished_le.
Qed.

Lemma done_same db db' :
  t_actions db' = t_actions db -> t_admissions db' = t_admissions db -> done_inv db -> done_inv db'.
Proof. unfold done_inv. by intros -> ->. Qed.

Lemma done_update db p f :
  (forall a, p a = true -> ended_ok (t_actions db) (f a)) -> done_inv db ->
  done_inv (with_admissions db (update p f (t_admissions db))).
Proof.
  intros Hf Hd. unfold done_inv, update. simpl. apply Forall_fmap. eapply Forall_impl; [exact Hd|].
  intros a Ha. simpl. destruct (p a) eqn:Hp; auto.
Qed.

Lemma unfinished_none rows plan_id :
  unfinished (select (fun x => String.eqb (ac_plan_id x) plan_id) rows) = 0 -> all_finished rows plan_id.
Proof.
  intros Hu. apply Forall_forall. intros x Hx <-.
  assert (x ∈ select (fun y => String.eqb (ac_plan_id y) (ac_plan_id x)) rows) as Hin.
  { unfold select. apply list_elem_of_In, filter_In. split; [by apply list_elem_of_In|apply String.eqb_refl]. }
  unfold unfinished in Hu. destruct (select _ rows) as [|y l] eqn:Hs; [by apply not_elem_of_nil in Hin|].
  destruct (ac_finished_at x) eqn:Hf; [done|]. exfalso. unfold count, lenl, select in Hu.
  destruct (List.filter _ (y :: l)) eqn:Hff; [|simpl in Hu; lia].
  assert (In x (List.filter (fun x => negb (is_some (ac_finished_at x))) (y :: l))) as Hin'.
  { apply filter_In. split; [by apply list_elem_of_In|]. by rewrite Hf. }
  rewrite Hff in Hin'. done.
Qed.

Lemma finish_done db plan_id : done_inv db -> done_inv (finish_admission_if_done db plan_id).1.
Proof.
  intros Hd. unfold finish_admission_if_done. destruct (Z.eqb_spec (unfinished (plan_actions db plan_id)) 0) as [Hz|];
    cbn [negb fst]; [|done].
  apply done_update; [|done]. intros a Ha _. right. unfold open_admission in Ha. bsplit.
  match goal with H : String.eqb _ _ = true |- _ => apply String.eqb_eq in H as <- end. by apply unfinished_none.
Qed.

Lemma settle_done db plan_id index outcome at_ : done_inv db -> done_inv (settle_rule_revoke db plan_id index outcome at_).
Proof.
  unfold settle_rule_revoke. destruct (negb _); [done|]. destruct (String.eqb _ _); by apply done_same.
Qed.

Lemma apply_line_done db line : done_inv db -> done_inv (apply_line db line).1.
Proof.
  intros Hd. unfold apply_line. destruct (negb (named_count _ _ =? 1)); [done|].
  destruct (String.eqb (cl_event line) "consumed").
  { cbn [fst]. apply done_actions; [|done]. apply Forall2_update; [apply _|]. intros x Hx. bsplit.
    split_and!; try done. intros s Hs. rewrite Hs in *. done. }
  destruct (String.eqb (cl_event line) "result"); [|done]. destruct (negb (contains_str _ _)); [done|].
  set (db1 := with_actions db _). set (db2 := settle_rule_revoke db1 _ _ _ _).
  pose proof (finish_done db2 (cl_plan_id line)) as Hf.
  destruct (finish_admission_if_done db2 _) as [db3 finished]. cbn [fst] in *. apply Hf, settle_done, done_actions; [|done].
  apply Forall2_update; [apply _|]. intros x _. apply set_finished_le.
Qed.

Lemma apply_lines_done lines : forall db last, done_inv db -> done_inv (apply_lines db last lines).1.1.
Proof.
  induction lines as [|line lines IH]; intros db last Hd; cbn [apply_lines]; [done|].
  destruct (contains_str ACTION_EVENTS (cl_event line)).
  - pose proof (apply_line_done db line Hd) as Hq. destruct (apply_line db line) as [db1 effects].
    specialize (IH db1 (cl_seq line) Hq). by destruct (apply_lines db1 (cl_seq line) lines) as [[db2 l2] more].
  - specialize (IH db (cl_seq line) Hd). by destruct (apply_lines db (cl_seq line) lines) as [[db2 l2] more].
Qed.

Lemma finish_action_done db plan_id index outcome now changed db' :
  finish_action db plan_id index outcome now = Ok (changed, db') -> done_inv db -> done_inv db'.
Proof.
  unfold finish_action. destruct (_ && _); [done|]. set (db1 := with_actions db _). intros Hf Hd.
  assert (done_inv db1) as H1.
  { apply done_actions; [|done]. apply Forall2_fmap_le. intros x. destruct (_ && _); [apply set_finished_le|done]. }
  set (db2 := if _ : bool then _ else db1) in Hf.
  assert (done_inv db2) as H2 by (unfold db2; destruct (_ =? 1); [by apply settle_done|done]).
  pose proof (finish_done db2 plan_id H2) as H3.
  destruct (finish_admission_if_done db2 plan_id) as [db3 finished]. by injection Hf as _ <-.
Qed.

Lemma expire_windows_done db now : done_inv db -> done_inv (expire_windows db now).2.
Proof.
  unfold expire_windows. cbn [snd].
  generalize (ad_plan_id <$> select (window_ended db (format_timestamp (now - EXECUTION_WINDOW_SECONDS))) (t_admissions db)).
  intros ids. revert db. induction ids as [|id ids IH]; intros db Hd; [done|]. cbn [fold_left]. apply IH.
  unfold expire_plan. apply done_update; [by left|]. apply done_actions; [|done].
  apply Forall2_fmap_le. intros x. destruct (untouched _ _); [apply set_finished_le|done].
Qed.

Section exec.
Context {CR : Crypto} {JR : JsonReader} {AS : AlertSpec}.

Lemma written_done db vp input operation_id db' ids :
  written db vp input operation_id db' ids -> done_inv db -> done_inv db'.
Proof.
  intros [Hf Ha _ Hx _ _ _ _ _] Hd. unfold done_inv. rewrite Ha, Hx. apply Forall_app. split.
  - apply Forall_forall. intros a Hin Hs. unfold done_inv in Hd. rewrite Forall_forall in Hd.
    destruct (Hd _ Hin Hs) as [?|Hall]; [by left|right]. apply Forall_app. split; [done|].
    apply Forall_forall. intros x Hxin He. exfalso. unfold fresh_row in Hf. rewrite Forall_forall in Hf.
    destruct (Hf _ Hin) as [Hne _]. apply Hne. rewrite <- He.
    unfold new_actions in Hxin. apply elem_of_lookup_imap in Hxin as (i & ka & -> & _). done.
  - apply Forall_singleton. intros [t Ht]. done.
Qed.

Lemma reachable_done now q db : reachable now q db -> done_inv db.
Proof.
  unfold reachable. intros Hr.
  assert (done_inv (empty_db now q)) as Hi by constructor.
  induction Hr as [|a b c Hs _ IH]; [done|]. apply IH. clear IH.
  destruct Hs as [trust starts random input adm db' Ha|read nw|? ? ? ? ? ? Hf|nw| | |row|id st db' Hs
    |id st cl db' Hc| | |? ? ? ? ? ? db' Hb].
  - destruct (am_deduplicated adm) eqn:Hd; [by rewrite (admit_dedup _ _ _ _ _ _ _ Ha Hd)|].
    destruct (admit_new _ _ _ _ _ _ _ Ha Hd) as (vp & sealed & _ & _ & Hw). by eapply written_done.
  - unfold reconcile. pose proof (apply_lines_done (new_lines read (last_seq a)) a (last_seq a) Hi) as Hq.
    by destruct (apply_lines _ _ _) as [[db1 last] effects].
  - by eapply finish_action_done.
  - by apply expire_windows_done.
  - done.
  - done.
  - unfold insert_delivery. by destruct (_ || _).
  - unfold set_delivery_status, update_status in Hs. destruct (_ && _); [done|]. by injection Hs as <-.
  - unfold claim_delivery in Hc. inv_ok Hc. unfold update_status in Hx. destruct (_ && _) in Hx; [done|].
    injection Hx as <-. by simplify_eq/=.
  - unfold insert_rejected_delivery. by destruct (_ <? _).
  - done.
  - unfold record_build in Hb. destruct (_ || _); [done|]. by injection Hb as <-.
Qed.

(** A finished admission is done: in every store a server can reach, an
    admission with an end whose outcome is not [expired] has an end for every
    one of its actions; so nothing of a plan reported succeeded, failed,
    rolled back or cancelled is still to run. *)
Theorem finished_is_done now q db a :
  reachable now q db -> a ∈ t_admissions db -> is_Some (ad_finished_at a) -> ad_outcome a <> "expired" ->
  forall x, x ∈ t_actions db -> ac_plan_id x = ad_plan_id a -> is_Some (ac_finished_at x).
Proof.
  intros Hr%reachable_done Hin Hs Hne x Hx He. unfold done_inv in Hr. rewrite Forall_forall in Hr.
  destruct (Hr _ Hin Hs) as [?|Hall]; [done|]. unfold all_finished in Hall. rewrite Forall_forall in Hall. by apply Hall.
Qed.

(** ** Deployment ids *)

Definition deploy_id (x : ActionRow) : option string :=
  if String.eqb (ac_kind x) "deploy" then ac_deployment_id x else None.

(** The ids of the admitted deploys. *)
Definition deploy_ids (rows : list ActionRow) : list string := filter_map deploy_id rows.

Lemma filter_map_app {A B} (f : A -> option B) l1 l2 : filter_map f (l1 ++ l2) = filter_map f l1 ++ filter_map f l2.
Proof. induction l1 as [|x l1 IH]; [done|]. cbn. rewrite IH. by destruct (f x). Qed.

Lemma deploy_ids_le rows rows' : Forall2 action_le rows rows' -> deploy_ids rows' = deploy_ids rows.
Proof.
  unfold deploy_ids. induction 1 as [|x x' rows rows' (_ & _ & Hk & Hd & _) _ IH]; [done|].
  assert (deploy_id x' = deploy_id x) as He by (unfold deploy_id; by rewrite Hk, Hd).
  cbn [filter_map]. by rewrite He, IH.
Qed.

Definition plan_deploy_ids (actions : list Value) : list string :=
  filter_map (fun action => as_str action.["params"].["deployment_id"])
    (filter (fun action => eq_str action.["kind"] "deploy" = true) actions).

Lemma new_deploy_ids (g : nat -> string * Value -> ActionRow) actions :
  (forall i ka, ac_kind (g i ka) = ka.1) ->
  (forall i ka, ac_deployment_id (g i ka) = signed_deployment_id ka.1 ka.2.["params"]) ->
  Forall (fun a => is_Some (as_str a.["kind"])) actions ->
  deploy_ids (imap g (zip (filter_map (fun a => as_str a.["kind"]) actions) actions)) = plan_deploy_ids actions.
Proof.
  intros Hk Hd Hall. revert g Hk Hd. induction Hall as [|a actions [k Hs] _ IH]; intros g Hk Hd; [done|].
  cbn [filter_map]. rewrite Hs. cbn [zip zip_with]. rewrite imap_cons. unfold deploy_ids, plan_deploy_ids in *.
  cbn [filter_map]. unfold deploy_id at 1. rewrite Hk, Hd. cbn [fst snd].
  rewrite (IH (g ∘ S)) by (intros; simpl; auto).
  apply as_str_Some in Hs. destruct (String.eqb_spec k "deploy") as [->|Hne].
  - rewrite (filter_cons_True _ a) by (by rewrite Hs). cbn [filter_map]. unfold signed_deployment_id. simpl. done.
  - rewrite (filter_cons_False _ a); [done|]. rewrite Hs, eq_str_true. congruence.
Qed.

Lemma size_NoDup (l : list string) :
  Z.of_nat (size (list_to_set l : gset string)) =? lenl l = true -> NoDup l.
Proof.
  intros Hs. assert (size (list_to_set l : gset string) = length l) as He by (unfold lenl in Hs; lia). clear Hs.
  assert (forall k : list string, (size (list_to_set k : gset string) <= length k)%nat) as Hle.
  { intros k. induction k as [|y k IHk]; [done|]. rewrite list_to_set_cons.
    rewrite size_union_alt, size_singleton.
    pose proof (subseteq_size ((list_to_set k : gset string) ∖ {[y]}) (list_to_set k)) as Hsub.
    specialize (Hsub ltac:(set_solver)). simpl. lia. }
  induction l as [|x l IH]; [apply NoDup_nil_2|]. rewrite list_to_set_cons in He.
  destruct (decide (x ∈ l)) as [Hin|Hnin].
  - assert ({[x]} ∪ list_to_set l = (list_to_set l : gset string)) as Hu by set_solver.
    rewrite Hu in He. pose proof (Hle l). simpl in He. lia.
  - apply NoDup_cons. split; [done|]. apply IH. rewrite size_union in He by set_solver.
    rewrite size_singleton in He. simpl in He. lia.
Qed.

(** A validated plan names each deployment once, and every action its kind. *)
Lemma validated_deploys plan :
  validate_plan plan = true ->
  NoDup (plan_deploy_ids (items_of plan.["actions"])) /\
  Forall (fun a => is_Some (as_str a.["kind"])) (items_of plan.["actions"]).
Proof.
  unfold validate_plan. intros [Hc Hr]%andb_true_iff. split.
  - unfold plan_rules_hold in Hr. repeat match type of Hr with (if negb ?c then false else _) = true =>
      destruct c eqn:?; cbn [negb] in Hr; [|discriminate Hr] | (if ?c then false else _) = true =>
      destruct c eqn:?; [discriminate Hr|] end.
    by apply size_NoDup.
  - apply check_object_field with (name := "actions") (shape := Custom actions_shape) in Hc; [|set_solver].
    cbn [check] in Hc. pose proof Hc as Ha. unfold actions_shape in Ha.
    apply is_some_and_true in Ha as (items & Hi & _). unfold items_of. rewrite Hi. cbn [from_option id].
    eapply Forall_impl; [by eapply actions_shape_closed|].
    intros a (am & kind & pm & fixed & -> & _ & Hk & _). unfold idx, get. rewrite Hk. by eexists.
Qed.

Lemma fold_each_all {E A S} (f : S -> A -> outcome E S) l : forall s s',
  fold_each f s l = Ok s' -> Forall (fun a => exists s1 s2, f s1 a = Ok s2) l.
Proof.
  induction l as [|a l IH]; intros s s' Hf; [constructor|]. cbn [fold_each] in Hf. inv_ok Hf. constructor; eauto.
Qed.

Lemma count_zero {A} (p : A -> bool) l : count p l = 0 <-> Forall (fun x => p x = false) l.
Proof.
  unfold count, select, lenl. induction l as [|x l IH]; [done|]. cbn [List.filter]. rewrite Forall_cons, <- IH.
  destruct (p x); simpl; [split; [lia|by intros [? _]]|naive_solver].
Qed.

(** A deploy whose id is taken fails its precondition. *)
Lemma preconditions_fresh_ids db trust vp secrets sealed :
  execution_preconditions db trust vp secrets = Ok sealed ->
  forall d, d ∈ plan_deploy_ids (items_of (vp_plan vp).["actions"]) -> d ∉ deploy_ids (t_actions db).
Proof.
  unfold execution_preconditions. intros He d Hid Hdb. inv_ok He. apply fold_each_all in Hx3.
  unfold plan_deploy_ids in Hid. apply elem_of_filter_map in Hid as (action & Hin & Has).
  apply list_elem_of_filter in Hin as [Hk Hin]. rewrite Forall_forall in Hx3.
  destruct (Hx3 _ Hin) as (t1 & t2 & Hp). unfold action_precondition in Hp.
  apply eq_str_true in Hk. unfold str_or_default in Hp. rewrite Hk in Hp. cbn [as_str from_option id] in Hp.
  change (contains_str ["key.add"; "key.revoke"] "deploy") with false in Hp.
  change (contains_str ["alert.rule.create"; "alert.rule.update"] "deploy") with false in Hp.
  change (String.eqb "deploy" "deploy") with true in Hp.
  repeat match type of Hp with context [String.eqb "deploy" ?k] =>
    change (String.eqb "deploy" k) with false in Hp end.
  cbn iota in Hp. rewrite !Has in Hp.
  inv_ok Hp. apply elem_of_filter_map in Hdb as (row & Hrow & Hd). unfold deploy_id in Hd.
  destruct (String.eqb (ac_kind row) "deploy"); [|done].
  match goal with H : (count _ _ =? 0) = true |- _ => apply Z.eqb_eq in H;
    pose proof (proj1 (count_zero _ _) H) as Hall end.
  rewrite Forall_forall in Hall. specialize (Hall _ Hrow). unfold eq_opt in Hall. rewrite Hd in Hall.
  cbn [is_some_and] in Hall. by rewrite String.eqb_refl in Hall.
Qed.

Lemma written_deploy_ids db vp input operation_id db' ids :
  written db vp input operation_id db' ids -> Forall (fun a => is_Some (as_str a.["kind"])) (items_of (vp_plan vp).["actions"]) ->
  deploy_ids (t_actions db') = deploy_ids (t_actions db) ++ plan_deploy_ids (items_of (vp_plan vp).["actions"]).
Proof.
  intros [_ _ _ Hx _ _ _ _ _] Hk. rewrite Hx. unfold deploy_ids at 1. rewrite filter_map_app. f_equal.
  unfold new_actions. rewrite drop_0. by apply new_deploy_ids.
Qed.

(** A deployment id names one release: in every store a server can
    reach, no two admitted deploy actions carry the same deployment id. *)
Theorem deploy_ids_unique now q db : reachable now q db -> NoDup (deploy_ids (t_actions db)).
Proof.
  unfold reachable. intros Hr. assert (NoDup (deploy_ids (t_actions (empty_db now q)))) as Hi by apply NoDup_nil_2.
  induction Hr as [|a b c Hs _ IH]; [done|]. apply IH. clear IH.
  destruct (step_cases _ _ Hs) as [Hq|(trust & starts & random & input & adm & Ha & Hd)].
  { by rewrite (deploy_ids_le _ _ (qu_actions _ _ Hq)). }
  destruct (admit_new _ _ _ _ _ _ _ Ha Hd) as (vp & sealed & Hv & He & Hw).
  destruct (verify_admit _ _ _ _ _ Hv) as (signatures & rule & Hadm).
  destruct (parse_envelope_Ok _ _ _ (ad_envelope _ _ _ _ _ _ _ Hadm)) as (Hval & _).
  destruct (validated_deploys _ Hval) as [Hnd Hk].
  rewrite (written_deploy_ids _ _ _ _ _ _ Hw Hk). apply NoDup_app. split_and!; [done| |done].
  intros id Hdb Hid. by apply (preconditions_fresh_ids _ _ _ _ _ He id Hid).
Qed.

End exec.

(** ** The end of the execution window *)

Lemma expire_windows_rules db now : t_rules (expire_windows db now).2 = t_rules db.
Proof.
  unfold expire_windows. cbn [snd].
  generalize (ad_plan_id <$> select (window_ended db (format_timestamp (now - EXECUTION_WINDOW_SECONDS))) (t_admissions db)).
  intros ids. revert db. induction ids as [|id ids IH]; intros db; [done|]. cbn [fold_left]. by rewrite IH.
Qed.

(** ** Witnesses *)

#[local] Existing Instance toy_crypto.
#[local] Existing Instance canonical_reader.
#[local] Existing Instance toy_alerts.

(** The shell plan's row after its action ended. *)
Lemma db_2_rows : ad_outcome <$> t_admissions db_2 = ["succeeded"] /\
  is_some <$> (ad_finished_at <$> t_admissions db_2) = [true].
Proof. split; vm_compute; reflexivity. Qed.

Lemma db_2_row : exists a, a ∈ t_admissions db_2 /\ ad_outcome a = "succeeded" /\ is_Some (ad_finished_at a).
Proof.
  generalize db_2_rows. generalize (t_admissions db_2). intros [|a l] [Ho Hf]; [done|].
  injection Ho as Ho _. injection Hf as Hf _. exists a. split; [apply elem_of_cons; by left|]. split; [exact Ho|].
  destruct (ad_finished_at a); [by eexists|discriminate].
Qed.

Lemma finished_is_done_witness : exists a, ad_outcome a = "succeeded" /\
  forall x, x ∈ t_actions db_2 -> ac_plan_id x = ad_plan_id a -> is_Some (ac_finished_at x).
Proof.
  destruct db_2_row as (a & Hin & Ho & Hs). exists a. split; [exact Ho|].
  assert (ad_outcome a <> "expired") as Hne by (rewrite Ho; discriminate).
  exact (finished_is_done created_0 None db_2 a db_2_reachable Hin Hs Hne).
Defined.

Lemma deploy_ids_unique_witness : NoDup (deploy_ids (t_actions db_rule)).
Proof. exact (deploy_ids_unique created_0 None db_rule db_rule_reachable). Defined.

Example db_rule_deploys : length (deploy_ids (t_actions db_rule)) = 2%nat.
Proof. vm_compute. reflexivity. Qed.
