(* ===== verification/PolicyFacts.v ===== *)
(** * Theorems about admission policy

    Minted identifiers, standing-rule rate limits, one use of a delivery per
    rule, and sealed secrets. *)

From S2P Require Import Prelude RustStr BTree PlanCode Json Jcs JsonRead Calendar Text Crypto.
From S2P Require Import Schema Actions Trust Verify Samples VerifyFacts SchemaFacts.
From S2P Require Import Store DefinitionStore AdmissionStore Reconcile Queries StoreSamples.
From S2P Require Import StoreFacts StoreLog ExecFacts.


(** ** Identifiers *)

Lemma hex_high b : is_lower_hex (hex_digit (code b / 16)) = true.
Proof. by destruct b as [[] [] [] [] [] [] [] []]. Qed.

Lemma hex_low b : is_lower_hex (hex_digit (code b mod 16)) = true.
Proof. by destruct b as [[] [] [] [] [] [] [] []]. Qed.

Lemma version_nibble b :
  Ascii.eqb (hex_digit (code (ascii_of_N (N.lor (N.land (code b) 0x0f) 0x70)) / 16)) "7" = true.
Proof. by destruct b as [[] [] [] [] [] [] [] []]. Qed.

Lemma variant_nibble b :
  one_of "89ab" (hex_digit (code (ascii_of_N (N.lor (N.land (code b) 0x3f) 0x80)) / 16)) = true.
Proof. by destruct b as [[] [] [] [] [] [] [] []]. Qed.

(** Text of 16 bytes whose seventh and ninth carry the version and variant. *)
Lemma uuid_text_valid b0 b1 b2 b3 b4 b5 b6 b7 b8 b9 b10 b11 b12 b13 b14 b15 :
  Ascii.eqb (hex_digit (code b6 / 16)) "7" = true -> one_of "89ab" (hex_digit (code b8 / 16)) = true ->
  let hex := concat_str (hex_byte <$> [b0; b1; b2; b3; b4; b5; b6; b7; b8; b9; b10; b11; b12; b13; b14; b15]) in
  uuid7 (slice 0 8 hex +:+ "-" +:+ slice 8 12 hex +:+ "-" +:+ slice 12 16 hex +:+ "-"
         +:+ slice 16 20 hex +:+ "-" +:+ slice 20 32 hex) = true.
Proof.
  intros Hv Hr hex. unfold hex.
  cbv [fmap list_fmap concat_str hex_byte slice String.substring Nat.sub String.append uuid7 len String.length
       all_indexed uuid7_byte Z.of_nat].
  change (36 =? 36) with true. cbn [negb]. rewrite !hex_high, !hex_low, Hv, Hr. reflexivity.
Qed.

(** Identifiers the agent mints (operation ids) are UUIDv7 texts of the
    form its own checks accept, whatever the clock and the random bytes. *)
Theorem new_uuid7_valid random unix_ms : uuid7 (new_uuid7 random unix_ms) = true.
Proof.
  unfold new_uuid7, uuid_bytes, ms_bytes. cbn [fmap list_fmap app seq].
  apply uuid_text_valid; [apply version_nibble|apply variant_nibble].
Qed.

Section policy.
Context {CR : Crypto} {JR : JsonReader} {AS : AlertSpec}.

(** ** Deliveries *)

Lemma invoked_cases plan_id at_ now rule_id delivery_id iv iv' cs cs' :
  invoked plan_id at_ now rule_id delivery_id iv iv' cs cs' ->
  (iv' = iv /\ cs' = cs) \/
  exists r d, iv' = delete_where (fun i => negb (String.ltb (format_timestamp (now - 3600)) (iv_admitted_at i))) iv
            ++ [ {| iv_rule_id := r; iv_plan_id := plan_id; iv_admitted_at := at_ |} ] /\
      cs' = cs ++ [ {| cs_delivery_id := d; cs_rule_id := r; cs_plan_id := plan_id; cs_consumed_at := at_ |} ] /\
      Forall (fun c => cs_delivery_id c <> d \/ cs_rule_id c <> r) cs.
Proof. unfold invoked. destruct rule_id as [r|], delivery_id as [d|]; auto. intros H. right. by exists r, d. Qed.


(** ** Rate limits *)

(** A run with a clock that does not go back, within the years the time
    stamps cover: the time of the last admission and the store. *)
Inductive timed : Z -> Db -> Prop :=
| timed_start created q : timed created (empty_db created q)
| timed_admit last db trust starts random input adm db' :
    timed last db -> last <= in_now input -> stamp_min <= in_now input - 3600 -> in_now input <= stamp_max ->
    admit_plan db trust starts random input = Ok (adm, db') -> timed (in_now input) db'
| timed_quiet last db db' : timed last db -> step db db' -> quiet db db' -> timed last db'.

Lemma timed_reachable last db : timed last db -> exists created q, reachable created q db.
Proof.
  induction 1 as [created q|? ? ? ? ? ? ? ? _ (created & q & IH) _ _ _ Ha|? ? ? _ (created & q & IH) Hs _].
  - exists created, q. apply rtc_refl.
  - exists created, q. eapply rtc_r; [exact IH|]. by eapply step_admit.
  - exists created, q. by eapply rtc_r.
Qed.

(** An admission of the rule in the hour that ends at [now]. *)
Definition recent_use (rule_id : string) (now : Z) (a : AdmissionRow) : bool :=
  eq_opt (ad_rule_id a) rule_id && String.ltb (format_timestamp (now - 3600)) (ad_admitted_at a).

(** Every use of a rule in the last hour has its invocation row. *)
Definition uses_recorded (last : Z) (db : Db) : Prop :=
  Forall (fun a => exists t, ad_admitted_at a = format_timestamp t /\ t <= last /\ stamp_min <= t <= stamp_max /\
    (forall r, ad_rule_id a = Some r -> last - 3600 < t ->
       {| iv_rule_id := r; iv_plan_id := ad_plan_id a; iv_admitted_at := ad_admitted_at a |} ∈ t_invocations db))
    (t_admissions db).

Lemma uses_recorded_later last now db : last <= now -> uses_recorded last db -> uses_recorded now db.
Proof.
  intros Hle Hu. eapply Forall_impl; [exact Hu|]. intros a (t & Ha & Ht & Hs & Hr). exists t.
  split_and!; [done|lia|lia|lia|]. intros r Hrr Hlt. apply Hr; [done|lia].
Qed.

Lemma quiet_uses last db db' : quiet db db' -> uses_recorded last db -> uses_recorded last db'.
Proof.
  intros [_ Hle _ _ Hi _ _] Hu. unfold uses_recorded in *. rewrite Hi. clear Hi.
  induction Hle as [|a a' l l' (at_ & o & -> & _) _ IH]; [constructor|].
  apply Forall_cons in Hu as [Ha Hu]. constructor; [done|by apply IH].
Qed.

(** A validated plan with a rule id names a delivery. *)
Lemma validated_invocation plan rule_id :
  validate_plan plan = true -> as_str plan.["invocation"].["rule_id"] = Some rule_id ->
  is_Some (as_str plan.["invocation"].["evidence"].["delivery_id"]).
Proof.
  unfold validate_plan. intros [Hc _]%andb_true_iff Hr.
  apply check_object_field with (name := "invocation") (shape := Nullable INVOCATION) in Hc; [|set_solver].
  cbn [check] in Hc. apply orb_true_iff in Hc as [Hn|Hc].
  { apply is_null_true in Hn. by rewrite Hn in Hr. }
  change (check INVOCATION plan.["invocation"] = true) in Hc.
  apply check_object_field with (name := "evidence") (shape := EVIDENCE) in Hc; [|set_solver].
  apply check_object_field with (name := "delivery_id") (shape := Pattern delivery_id) in Hc; [|set_solver].
  apply check_Pattern_str in Hc as (s & Hs & _). by exists s.
Qed.

Lemma written_uses db vp input operation_id db' ids last :
  written db vp input operation_id db' ids -> validate_plan (vp_plan vp) = true ->
  last <= in_now input -> stamp_min <= in_now input - 3600 -> in_now input <= stamp_max ->
  uses_recorded last db -> uses_recorded (in_now input) db'.
Proof.
  intros [_ Ha _ _ _ _ Hinv _ _] Hval Hle Hmin Hmax Hu. set (now := in_now input) in *.
  apply (uses_recorded_later _ now) in Hu; [|done]. unfold uses_recorded in *. rewrite Ha.
  apply Forall_app. split.
  - eapply Forall_impl; [exact Hu|]. intros a (t & Hat & Ht & Hst & Hr). exists t. split_and!; [done|lia..|].
    intros r Hrr Hlt. specialize (Hr r Hrr Hlt).
    apply invoked_cases in Hinv as [[-> _]|(r' & d' & -> & _)]; [done|]. apply elem_of_app. left. unfold delete_where.
    apply list_elem_of_In, filter_In. split; [by apply list_elem_of_In|]. cbn [iv_admitted_at].
    rewrite negb_involutive, Hat, format_ltb by lia. lia.
  - apply Forall_singleton. exists now. split_and!; [done|lia..|]. intros r Hr _.
    change (ad_rule_id (new_row db vp input operation_id)) with (as_str (vp_plan vp).["invocation"].["rule_id"]) in *.
    destruct (validated_invocation _ _ Hval Hr) as [d Hd].
    change (ad_delivery_id (new_row db vp input operation_id))
      with (as_str (vp_plan vp).["invocation"].["evidence"].["delivery_id"]) in *.
    unfold invoked in Hinv. rewrite Hr, Hd in Hinv. destruct Hinv as (-> & _ & _).
    apply elem_of_app. right. by apply list_elem_of_singleton.
Qed.

Lemma timed_uses last db : timed last db -> uses_recorded last db.
Proof.
  induction 1 as [created q|last db trust starts random input adm db' _ IH Hle Hmin Hmax Ha
    |last db db' _ IH _ Hq].
  - constructor.
  - destruct (am_deduplicated adm) eqn:Hd.
    + rewrite (admit_dedup _ _ _ _ _ _ _ Ha Hd). by eapply uses_recorded_later.
    + destruct (admit_new _ _ _ _ _ _ _ Ha Hd) as (vp & sealed & Hv & _ & Hw).
      destruct (verify_admit _ _ _ _ _ Hv) as (signatures & rule & Hadm).
      destruct (parse_envelope_Ok _ _ _ (ad_envelope _ _ _ _ _ _ _ Hadm)) as (Hval & _).
      by eapply written_uses.
  - by eapply quiet_uses.
Qed.

Lemma select_NoDup {A B} (f : A -> B) p (l : list A) : NoDup (f <$> l) -> NoDup (f <$> select p l).
Proof.
  unfold select. induction l as [|a l IH]; [done|]. rewrite fmap_cons. intros [Ha Hl]%NoDup_cons.
  cbn [List.filter]. destruct (p a); [|by apply IH]. rewrite fmap_cons. apply NoDup_cons. split; [|by apply IH].
  intros (b & He & [Hb _]%list_elem_of_In%filter_In)%list_elem_of_fmap. apply Ha. rewrite He.
  apply list_elem_of_fmap. exists b. split; [done|]. by apply list_elem_of_In.
Qed.

(** The uses of the last hour are at most the invocation rows counted. *)
Lemma uses_counted last db now rule_id :
  uses_recorded last db -> NoDup (ad_plan_id <$> t_admissions db) ->
  last <= now -> stamp_min <= now - 3600 -> now <= stamp_max ->
  count (recent_use rule_id now) (t_admissions db) <= store_invocations db now rule_id.
Proof.
  intros Hu Hnd Hle Hmin Hmax. unfold store_invocations, count, lenl. apply inj_le.
  set (uses := select _ (t_admissions db)). set (rows := select _ (t_invocations db)).
  rewrite <- (length_fmap ad_plan_id uses), <- (length_fmap iv_plan_id rows).
  apply NoDup_incl_length.
  - by apply NoDup_ListNoDup, select_NoDup.
  - intros id Hid%list_elem_of_In. apply list_elem_of_In.
    apply list_elem_of_fmap in Hid as (a & -> & Hin). unfold uses, select in Hin.
    apply list_elem_of_In, filter_In in Hin as [Hin Hr]. apply list_elem_of_In in Hin.
    unfold uses_recorded in Hu. rewrite Forall_forall in Hu. destruct (Hu _ Hin) as (t & Hat & Ht & Hst & Hrow).
    unfold recent_use in Hr. bsplit. unfold eq_opt in *. apply is_some_and_true in H as (r & Hr & He).
    apply String.eqb_eq in He as <-. rewrite Hat, format_ltb in H0 by lia.
    specialize (Hrow _ Hr ltac:(lia)).
    change (ad_plan_id a) with (iv_plan_id {| iv_rule_id := rule_id; iv_plan_id := ad_plan_id a; iv_admitted_at := ad_admitted_at a |}).
    apply (list_elem_of_fmap_2 iv_plan_id). unfold rows, select. apply list_elem_of_In, filter_In.
    split; [by apply list_elem_of_In|]. cbn [iv_rule_id iv_admitted_at]. rewrite String.eqb_refl, Hat, format_ltb by lia. lia.
Qed.

(** A number of a document that can be written canonically is a safe integer. *)
Lemma integers_only_field v name : integers_only v = true -> integers_only v.[name] = true.
Proof.
  destruct v as [| | | | |m]; try done. rewrite integers_only_object. intros Hm.
  unfold idx, get. cbn [as_object]. destruct (bget name m) as [x|] eqn:Hg; [|done].
  apply bget_In in Hg. by apply (proj1 (forallb_forall _ _) Hm (name, x)), list_elem_of_In.
Qed.

Lemma as_i64_safe v n : integers_only v = true -> as_i64 v = Some n -> n < i64_max.
Proof.
  destruct v as [| |k| | |]; try done. cbn [integers_only as_i64]. unfold magnitude.
  intros Hm Hk. rewrite Hk in Hm. cbn [is_some_and] in Hm. apply Z.leb_le in Hm.
  unfold MAX_SAFE_INTEGER, i64_max in *. lia.
Qed.

(** A new rule plan: the rule is stored under the plan's rule id and its
    count of the last hour is below its limit. *)
Lemma rule_below_limit text spec_texts submitter db trust now starts vp rule_id :
  verify_signed_plan text spec_texts submitter (TxContext db trust now starts) = Ok (Admit vp) ->
  as_str (vp_plan vp).["invocation"].["rule_id"] = Some rule_id ->
  exists record, store_rule db rule_id = Ok (Some record) /\
    store_invocations db now rule_id <
      default 0 (as_i64 (rr_rule record).["limits"].["max_invocations_per_hour"]).
Proof.
  intros (signatures & rule & Ha)%verify_admit Hid.
  pose proof (ad_authority _ _ _ _ _ _ _ Ha) as Hau. unfold authority_ok in Hau.
  pose proof (ad_rule _ _ _ _ _ _ _ Ha) as Hr.
  destruct (eq_str _ "rule"); bsplit.
  2: { destruct (vp_plan vp).["invocation"]; done. }
  destruct Hr as (record & -> & (Hget & Hrid & (c & Hc & _) & _)%verify_rule_Ok).
  destruct (check_policy_Ok _ _ _ _ _ (ad_policy _ _ _ _ _ _ _ Ha)) as (_ & _ & _ & Hcr).
  destruct (check_rule_Ok _ _ _ _ _ Hcr) as [_ _ _ _ _ (n & [= <-] & Hlt) _ _ _].
  assert (str_or_default (vp_plan vp).["invocation"].["rule_id"] = rule_id) as Hs
    by (unfold str_or_default; by rewrite Hid).
  rewrite Hrid, Hs in *. exists record. split; [done|]. cbn in Hlt.
  assert (integers_only (rr_rule record) = true) as Hio by (rewrite <- encode_total; unfold canonicalize in Hc; by rewrite Hc).
  destruct (as_i64 _) as [max|] eqn:Hmax.
  - apply as_i64_safe in Hmax; [simpl in *; lia|]. by do 2 apply integers_only_field.
  - simpl in *. unfold i64_max in *. lia.
Qed.


End policy.


(** ** Witnesses *)

#[local] Existing Instance toy_crypto.
#[local] Existing Instance canonical_reader.
#[local] Existing Instance toy_alerts.


Lemma push_quiet : quiet db_setup db_push.
Proof. apply quiet_other; vm_compute; reflexivity. Qed.

Lemma built_quiet : quiet db_push db_built.
Proof. apply quiet_other; vm_compute; reflexivity. Qed.

Lemma built_timed : timed now_0 db_built.
Proof.
  apply (timed_quiet now_0 db_push); [|exact built_step|exact built_quiet].
  apply (timed_quiet now_0 db_setup); [|exact push_step|exact push_quiet].
  apply (timed_admit created_0 db_0 store_1 no_starts zero_bytes setup_input setup_admission db_setup
    (timed_start created_0 None)); [vm_compute; discriminate..|exact db_setup_admitted].
Qed.


(** The rule plan of the sample names its rule. *)
Example rule_used : (ad_rule_id <$> t_admissions db_rule) !! 1%nat = Some (as_str rule_plan.["invocation"].["rule_id"])
  /\ is_some (as_str rule_plan.["invocation"].["rule_id"]) = true.
Proof. vm_compute. done. Qed.

(** * Theorems about sealed secrets

    A plan signs the digests of its sealed secrets and the request carries
    the bytes.  The store keeps exactly the bytes that were signed. *)

Section sealed.
Context {CR : Crypto} {JR : JsonReader} {AS : AlertSpec}.

(** Bytes that may be stored under a digest. *)
Definition sealed_ok (digest ciphertext : string) : Prop :=
  digest = hex (sha256 ciphertext) /\ len ciphertext <= MAX_SEALED_SECRET_BYTES /\
  starts_with AGE_HEADER ciphertext = true.

Definition sealed_inv (db : Db) : Prop :=
  Forall (fun r => sealed_ok (se_ciphertext_digest_hex r) (se_ciphertext r)) (t_sealed db).

Lemma supplied_ok secrets supplied :
  fold_each supply [] secrets = Ok supplied -> Forall (fun e => sealed_ok e.1 e.2) supplied.
Proof.
  apply (fold_each_inv (fun _ s => Forall (fun e => sealed_ok e.1 e.2) s)); [constructor|].
  intros ? ? ? s s' _ IH Hs. unfold supply in Hs. inv_ok Hs. subst s'. bsplit.
  apply Forall_app. split; [done|]. apply Forall_singleton. cbn [fst snd]. by rewrite Z.ltb_ge in *.
Qed.

Lemma sealed_preconditions_Ok actions secrets supplied :
  sealed_preconditions actions secrets = Ok supplied ->
  Forall (fun e => sealed_ok e.1 e.2) supplied /\
  forall action digest, action ∈ actions -> sealed_digest action = Some digest -> digest ∈ supplied.*1.
Proof.
  unfold sealed_preconditions. intros Hs. inv_ok Hs. subst x. bsplit. apply supplied_ok in Hx. split; [done|].
  intros action digest Hin Hd. match goal with H : bool_decide _ = true |- _ => apply bool_decide_eq_true in H as Heq end.
  assert (digest ∈ (list_to_set (filter_map sealed_digest actions) : gset string)) as Hw.
  { apply elem_of_list_to_set, elem_of_filter_map. by exists action. }
  rewrite <- Heq in Hw. by apply elem_of_list_to_set in Hw.
Qed.

(** One stored ciphertext: the digest is there afterwards, and every row is
    an old one or holds the bytes of the entry. *)
Lemma write_sealed_rows vp plan_id db e db' :
  write_sealed vp plan_id db e = Ok db' -> sealed_ok e.1 e.2 -> sealed_inv db ->
  sealed_inv db' /\ e.1 ∈ se_ciphertext_digest_hex <$> t_sealed db' /\
  se_ciphertext_digest_hex <$> t_sealed db ⊆ se_ciphertext_digest_hex <$> t_sealed db'.
Proof.
  destruct e as [digest text]. unfold write_sealed. intros Hw Hok Hinv. inv_ok Hw. destruct x as [index action].
  destruct (vp_scope vp) as [project environment]. inv_ok Hw. unfold insert_sealed_or_ignore in Hw.
  destruct (existsb _ _) eqn:He in Hw.
  - injection Hw as <-. split_and!; [done| |done]. apply existsb_exists in He as (r & Hr & He).
    apply String.eqb_eq in He. simpl in *. rewrite <- He. by apply list_elem_of_fmap_2, list_elem_of_In.
  - apply insert_Some in Hw as [_ <-]. unfold sealed_inv. cbn [t_sealed with_sealed]. rewrite fmap_app. split_and!.
    + apply Forall_app. split; [done|]. by apply Forall_singleton.
    + apply elem_of_app. right. by apply list_elem_of_singleton.
    + set_solver.
Qed.

Lemma write_all_sealed vp plan_id l : forall db db',
  fold_each (write_sealed vp plan_id) db l = Ok db' -> Forall (fun e => sealed_ok e.1 e.2) l -> sealed_inv db ->
  sealed_inv db' /\ l.*1 ⊆ se_ciphertext_digest_hex <$> t_sealed db' /\
  se_ciphertext_digest_hex <$> t_sealed db ⊆ se_ciphertext_digest_hex <$> t_sealed db'.
Proof.
  induction l as [|e l IH]; intros db db' Hw Hl Hinv; cbn [fold_each] in Hw; inv_ok Hw.
  - subst db'. split_and!; [done|set_solver|done].
  - apply Forall_cons in Hl as [He Hl]. destruct (write_sealed_rows _ _ _ _ _ Hx He Hinv) as (H1 & H2 & H3).
    destruct (IH _ _ Hw Hl H1) as (H4 & H5 & H6). split_and!; [done| |set_solver].
    rewrite fmap_cons. set_solver.
Qed.

(** The sealed table is untouched until its own writes. *)
Lemma write_admission_sealed db vp input operation_id sealed adm db' :
  write_admission db vp input operation_id sealed = Ok (adm, db') ->
  exists db1 db2, t_sealed db1 = t_sealed db /\
    fold_each (write_sealed vp (str_or_default (vp_plan vp).["id"])) db1 sealed = Ok db2 /\ db' = db2.
Proof.
  unfold write_admission. destruct (vp_scope vp) as [project environment]. intros Hw. inv_ok Hw.
  destruct x1 as [db1 ids]. apply insert_seen_frame in Hx as [s Hs]. apply insert_admission_Some in Hx0 as [_ H0].
  apply write_actions_rows in Hx1 as (H1 & _). apply write_specs_frame in Hx2 as [specs H2].
  apply write_action_rows_frame in Hx3 as [defs H3].
  apply insert_Some in Hx4 as [_ H4]. apply write_invocation_frame in Hx5 as (iv & cs & H5 & _).
  exists x5, x6. split_and!; [|done|done]. cbn [fst] in H2.
  rewrite H5. transitivity (t_sealed x4); [done|]. rewrite <- H4. transitivity (t_sealed x3); [done|]. rewrite H3.
  transitivity (t_sealed x2); [done|]. rewrite H2. transitivity (t_sealed db1); [done|]. rewrite H1.
  transitivity (t_sealed x0); [done|]. rewrite H0. transitivity (t_sealed x); [done|]. by rewrite Hs.
Qed.

(** What a new admission does to the sealed table. *)
Lemma admit_sealed db trust starts random input adm db' :
  admit_plan db trust starts random input = Ok (adm, db') -> am_deduplicated adm = false -> sealed_inv db ->
  exists vp signatures, parse_envelope (in_envelope input) = Ok (vp_plan vp, signatures) /\ sealed_inv db' /\
    forall action digest, action ∈ items_of (vp_plan vp).["actions"] -> sealed_digest action = Some digest ->
      digest ∈ se_ciphertext_digest_hex <$> t_sealed db'.
Proof.
  unfold admit_plan. intros Ha Hd Hinv. inv_ok Ha. destruct x0 as [vp|plan_id digest]; inv_ok Ha.
  2: { unfold deduplicated in Hx1. inv_ok Hx1. subst. simplify_eq/=. }
  destruct (verify_admit _ _ _ _ _ Hx0) as (signatures & rule & Hadm). exists vp, signatures.
  split; [apply (ad_envelope _ _ _ _ _ _ _ Hadm)|].
  apply write_admission_sealed in Ha as (db1 & db2 & Hs & Hf & ->).
  unfold execution_preconditions in Hx1. inv_ok Hx1. subst x0.
  match goal with H : sealed_preconditions _ _ = Ok _ |- _ => apply sealed_preconditions_Ok in H as [Hok Hall] end.
  assert (sealed_inv db1) as Hinv1 by (unfold sealed_inv; by rewrite Hs).
  destruct (write_all_sealed _ _ _ _ _ Hf Hok Hinv1) as (H1 & H2 & _). split; [done|].
  intros action digest Hin Hdg. apply H2. by eapply Hall.
Qed.

Lemma reachable_sealed now q db : reachable now q db -> sealed_inv db.
Proof.
  unfold reachable. intros Hr. assert (sealed_inv (empty_db now q)) as Hi by constructor.
  induction Hr as [|a b c Hs _ IH]; [done|]. apply IH. clear IH.
  destruct (step_cases _ _ Hs) as [Hq|(trust & starts & random & input & adm & Ha & Hd)].
  - unfold sealed_inv. by rewrite (qu_sealed _ _ Hq).
  - by destruct (admit_sealed _ _ _ _ _ _ _ Ha Hd Hi) as (_ & _ & _ & ? & _).
Qed.

(** Sealed secrets: when a plan is admitted, the store holds for every
    ciphertext digest its actions sign the bytes with that digest, an age file of at most
    64 KiB, whether they came with this plan or with an earlier one. *)
Theorem sealed_bytes_signed now q db trust starts random input adm db' :
  reachable now q db -> admit_plan db trust starts random input = Ok (adm, db') -> am_deduplicated adm = false ->
  exists plan signatures, parse_envelope (in_envelope input) = Ok (plan, signatures) /\
    forall action digest, action ∈ items_of plan.["actions"] -> sealed_digest action = Some digest ->
    exists row, row ∈ t_sealed db' /\ se_ciphertext_digest_hex row = digest /\
      digest = hex (sha256 (se_ciphertext row)) /\ len (se_ciphertext row) <= MAX_SEALED_SECRET_BYTES /\
      starts_with AGE_HEADER (se_ciphertext row) = true.
Proof.
  intros Hr Ha Hd. destruct (admit_sealed _ _ _ _ _ _ _ Ha Hd (reachable_sealed _ _ _ Hr))
    as (vp & signatures & Hp & Hinv & Hall).
  exists (vp_plan vp), signatures. split; [done|]. intros action digest Hin Hdg.
  specialize (Hall _ _ Hin Hdg). apply list_elem_of_fmap in Hall as (row & -> & Hrow). exists row.
  unfold sealed_inv in Hinv. rewrite Forall_forall in Hinv. by destruct (Hinv _ Hrow) as (? & ? & ?).
Qed.

End sealed.

(** ** Witness *)

#[local] Existing Instance toy_crypto.
#[local] Existing Instance canonical_reader.
#[local] Existing Instance toy_alerts.

Definition age_file : string := AGE_HEADER +:+ "-> X25519 c2VhbGVk".

Definition secret_plan : Value := plan_of plan_a (str project_a) (str "production") (str env_id_a) []
  [obj [("kind", str "secret.set");
        ("params", obj [ ("service_id", VNull); ("name", str "DB_PASSWORD");
                         ("ciphertext_digest_hex", str (hex (sha256 age_file))) ])]]
  "user" VNull.

Definition secret_input : AdmitInput :=
  {| in_envelope := envelope_text secret_plan [signature_of owner_id owner_spki]; in_specs := [];
     in_sealed_secrets := [age_file]; in_submitter := Client; in_now := now_0 |}.

Definition secret_admitted : Admission * Db :=
  get_ok (admit_plan db_0 store_1 no_starts zero_bytes secret_input) (no_admission, db_0).

Lemma secret_is_admitted :
  admit_plan db_0 store_1 no_starts zero_bytes secret_input = Ok (secret_admitted.1, secret_admitted.2).
Proof. vm_compute. reflexivity. Qed.

Example secret_is_stored : se_ciphertext <$> t_sealed secret_admitted.2 = [age_file].
Proof. vm_compute. reflexivity. Qed.

Lemma sealed_bytes_signed_witness :
  exists plan signatures, parse_envelope (in_envelope secret_input) = Ok (plan, signatures) /\
    forall action digest, action ∈ items_of plan.["actions"] -> sealed_digest action = Some digest ->
    exists row, row ∈ t_sealed secret_admitted.2 /\ se_ciphertext_digest_hex row = digest /\
      digest = hex (sha256 (se_ciphertext row)) /\ len (se_ciphertext row) <= MAX_SEALED_SECRET_BYTES /\
      starts_with AGE_HEADER (se_ciphertext row) = true.
Proof.
  assert (am_deduplicated secret_admitted.1 = false) as Hd by (vm_compute; reflexivity).
  exact (sealed_bytes_signed created_0 None db_0 store_1 no_starts zero_bytes secret_input
    secret_admitted.1 secret_admitted.2 (rtc_refl step _) secret_is_admitted Hd).
Defined.
