(* ===== verification/Proto.v ===== *)
(** * Protocol messages

    The messages of proto/agent/v2 the schedulers and the webhook path store:
    the fields the code reads or writes.  A [google.protobuf.Timestamp] whose
    nanos are 0 is its seconds.  Encoding and decoding are prost's and are
    the fields of the class [Prost]; its documented law is that decoding an
    encoded message gives the message back. *)

From Stdlib Require Import SpecFloat.
From S2P Require Import Prelude RustStr BTree F64.

(** ** Status numbers *)

Module CronRunStatus.
Definition Pending : Z := 1.
Definition Running : Z := 2.
Definition Succeeded : Z := 3.
Definition Failed : Z := 4.
Definition TimedOut : Z := 5.
Definition SkippedOverlap : Z := 6.
Definition Cancelled : Z := 7.
Definition Missed : Z := 8.
End CronRunStatus.

Module CronTrigger.
Definition Schedule : Z := 1.
Definition Manual : Z := 2.
Definition Retry : Z := 3.
End CronTrigger.

Module BackupRunStatus.
Definition Pending : Z := 1.
Definition Dumping : Z := 2.
Definition Encrypting : Z := 3.
Definition Uploading : Z := 4.
Definition Succeeded : Z := 5.
Definition Failed : Z := 6.
Definition Cancelled : Z := 7.
Definition Missed : Z := 8.
End BackupRunStatus.

Module BackupTrigger.
Definition Schedule : Z := 1.
Definition Manual : Z := 2.
Definition PreChange : Z := 3.
End BackupTrigger.

Module VerificationStatus.
Definition Unspecified : Z := 0.
Definition Running : Z := 1.
Definition Passed : Z := 2.
Definition Failed : Z := 3.
Definition Cancelled : Z := 4.
End VerificationStatus.

Module AlertState.
Definition Unspecified : Z := 0.
Definition Ok_ : Z := 1.
Definition Pending : Z := 2.
Definition Firing : Z := 3.
Definition Resolved : Z := 4.
Definition NoData : Z := 5.
Definition Muted : Z := 6.
End AlertState.

Module AlertSeverity.
Definition Unspecified : Z := 0.
Definition Info : Z := 1.
Definition Warning : Z := 2.
Definition Critical : Z := 3.
End AlertSeverity.

Module DeliveryStatus.
Definition Pending : Z := 1.
Definition Building : Z := 3.
Definition Deployed : Z := 4.
Definition Ignored : Z := 5.
Definition Failed : Z := 7.
Definition Expired : Z := 8.
Definition Stale : Z := 10.
End DeliveryStatus.

Module BuildStatus.
Definition Queued : Z := 1.
Definition Building : Z := 3.
Definition Deploying : Z := 4.
Definition Succeeded : Z := 5.
Definition Failed : Z := 6.
Definition RolledBack : Z := 7.
Definition Cancelled : Z := 8.
End BuildStatus.

(** ** Messages *)

Record CronRun := {
  cr_id : string; cr_cron_id : string; cr_attempt : Z; cr_trigger : Z; cr_status : Z;
  cr_scheduled_for : option Z; cr_started_at : option Z; cr_finished_at : option Z;
  cr_exit_code : Z; cr_error : string; cr_output_bytes : Z; cr_operation_id : string;
  cr_missed_count : Z; cr_next_retry_at : option Z; cr_container_name : string;
  cr_plan_id : string; cr_runner_run_id : string
}.

#[global] Instance CronRun_eq_dec : EqDecision CronRun.
Proof. solve_decision. Defined.

(** [CronRun::default()]. *)
Definition default_run : CronRun :=
  {| cr_id := ""; cr_cron_id := ""; cr_attempt := 0; cr_trigger := 0; cr_status := 0;
     cr_scheduled_for := None; cr_started_at := None; cr_finished_at := None; cr_exit_code := 0;
     cr_error := ""; cr_output_bytes := 0; cr_operation_id := ""; cr_missed_count := 0;
     cr_next_retry_at := None; cr_container_name := ""; cr_plan_id := ""; cr_runner_run_id := "" |}.

Record BackupRun := {
  br_id : string; br_policy_id : string; br_status : Z; br_trigger : Z; br_started_at : option Z;
  br_finished_at : option Z; br_size_bytes : Z; br_artifact_id : string; br_error : string;
  br_operation_id : string; br_content_digest_hex : string; br_runner_run_id : string
}.

Record VerificationCheck := { vc_name : string; vc_passed : bool; vc_detail : string }.

Record RestoreVerification := {
  rv_id : string; rv_policy_id : string; rv_artifact_id : string; rv_status : Z; rv_started_at : option Z;
  rv_finished_at : option Z; rv_checks : list VerificationCheck; rv_error : string; rv_trigger : Z;
  rv_operation_id : string; rv_runner_run_id : string; rv_note : string
}.

Record BackupArtifact := {
  ba_id : string; ba_policy_id : string; ba_run_id : string; ba_location : string; ba_size_bytes : Z;
  ba_content_digest_hex : string; ba_encrypted : bool; ba_age_recipients : list string;
  ba_created_at : option Z; ba_expires_at : option Z; ba_last_verification : Z
}.

Record WebhookDelivery := {
  wd_id : string; wd_received_at : option Z; wd_provider : string; wd_event : string;
  wd_delivery_ref : string; wd_repository : string; wd_ref : string; wd_commit_sha : string;
  wd_project_id : string; wd_signature_valid : bool; wd_status : Z; wd_status_reason : string;
  wd_standing_rule_id : string; wd_operation_id : string; wd_attempts : Z;
  wd_processed_at : option Z; wd_body_digest_hex : string; wd_body_bytes : Z;
  wd_verified_at : option Z; wd_consumed : bool; wd_consumed_by_plan_ids : list string;
  wd_consumed_by_rule_ids : list string; wd_commit_time : option Z; wd_expires_at : option Z;
  wd_environments : list string
}.

Record ServerBuild := {
  sb_id : string; sb_delivery_id : string; sb_project_id : string; sb_service_id : string;
  sb_commit_sha : string; sb_ref : string; sb_status : Z; sb_started_at : option Z;
  sb_finished_at : option Z; sb_image_digest_hex : string; sb_deployment_id : string;
  sb_operation_id : string; sb_standing_rule_id : string; sb_error : string; sb_platform : string;
  sb_environment_id : string; sb_failure_reason : string; sb_runner_build_id : string
}.

Record StageFile := { sf_name : string; sf_size_bytes : Z; sf_digest_hex : string }.

Record StagedArtifactSet := {
  st_stage_id : string; st_bundle_manifest_digest_hex : string; st_arch : string; st_files : list StageFile;
  st_staged_at : option Z; st_expires_at : option Z; st_verified : bool; st_release_key_id : string;
  st_components : list string
}.

Record DeliveryResult := {
  dr_channel_id : string; dr_ok : bool; dr_http_status : Z; dr_error : string;
  dr_attempted_at : option Z; dr_attempts : Z
}.

Record AlertEvent := {
  ae_id : string; ae_rule_id : string; ae_rule_name : string; ae_severity : Z; ae_state : Z;
  ae_summary : string; ae_labels : bmap string; ae_value : f64; ae_started_at : option Z;
  ae_resolved_at : option Z; ae_deliveries : list DeliveryResult; ae_cursor : string;
  ae_source : string; ae_subject_id : string
}.

(** ** prost *)

Record Codec (M : Type) := { encode_to_vec : M -> string; decode : string -> option M }.
Arguments encode_to_vec {M} c m.
Arguments decode {M} c body.

Class Prost : Type := {
  cron_run : Codec CronRun;
  backup_run : Codec BackupRun;
  verification : Codec RestoreVerification;
  artifact : Codec BackupArtifact;
  alert_event : Codec AlertEvent;
  webhook_delivery : Codec WebhookDelivery;
  server_build : Codec ServerBuild;
  staged_set : Codec StagedArtifactSet
}.

Definition round_trips {M} (c : Codec M) : Prop := forall m, decode c (encode_to_vec c m) = Some m.

(** A double equal to 0 may be left out of the encoding, and then -0 is read
    back as 0. *)
Definition round_trips_event (c : Codec AlertEvent) : Prop :=
  forall m, ae_value m <> S754_zero true -> decode c (encode_to_vec c m) = Some m.

Class ProstLaws `{Prost} : Prop := {
  cron_run_round : round_trips cron_run;
  backup_run_round : round_trips backup_run;
  verification_round : round_trips verification;
  artifact_round : round_trips artifact;
  alert_event_round : round_trips_event alert_event;
  webhook_delivery_round : round_trips webhook_delivery;
  server_build_round : round_trips server_build;
  staged_set_round : round_trips staged_set
}.
