(* ===== verification/OpsStore.v ===== *)
(** * The schedulers' store

    src/local/sched/ops_store.rs: [ops.db].  One [Ops] value is the committed
    content of the database; each operation is one transaction.  The column
    [binding] of [scheduled_intents] holds the JSON text of a [ScheduleRef]
    that only the agent writes; here it is the [ScheduleRef].  SQLite's
    [strftime('%s', text)] is the parameter [SqliteTime]. *)

From S2P Require Import Prelude RustStr BTree PlanCode Json Jcs Calendar Text Store Proto.

Class SqliteTime : Type := { strftime_seconds : string -> option Z }.

(** The law: on the time stamps the agent writes, [strftime] gives their
    seconds. *)
Class SqliteTimeLaws `{SqliteTime} : Prop :=
  strftime_timestamp slot t : timestamp slot = Some t -> strftime_seconds slot = Some t.

(** ** Rows *)

Definition HISTORY_SECONDS : Z := 90 * 86400.
Definition HISTORY_RECORDS : Z := 1000.
Definition MAX_RECORD_BYTES : Z := 256 * 1024.

Record ManualCronReservation := {
  mr_plan_id : string; mr_cron_id : string; mr_digest_hex : string; mr_expires_at : Z; mr_run_id : string
}.
#[global] Instance reservation_eq_dec : EqDecision ManualCronReservation.
Proof. solve_decision. Defined.

Inductive RecordKind :=
| KCronRun | KBackupRun | KVerification | KArtifact | KAlertEvent | KWebhookDelivery | KServerBuild | KStagedSet.
#[global] Instance RecordKind_eq_dec : EqDecision RecordKind.
Proof. solve_decision. Defined.

Definition kind_name (k : RecordKind) : string :=
  match k with
  | KCronRun => "cron_run" | KBackupRun => "backup_run" | KVerification => "verification"
  | KArtifact => "artifact" | KAlertEvent => "alert_event" | KWebhookDelivery => "webhook_delivery"
  | KServerBuild => "server_build" | KStagedSet => "staged_set"
  end.

(** src/local/runner.rs *)
Record PlanRef := { pr_plan_id : string; pr_plan_digest_hex : string; pr_action_index : Z }.
#[global] Instance PlanRef_eq_dec : EqDecision PlanRef.
Proof. solve_decision. Defined.

Record ScheduleRef := { sr_plan : PlanRef; sr_scheduled_for : string; sr_attempt : Z }.
#[global] Instance ScheduleRef_eq_dec : EqDecision ScheduleRef.
Proof. solve_decision. Defined.

(** [serde_json::to_string] of the struct: its fields in order. *)
Definition schedule_json (s : ScheduleRef) : string :=
  let member (name text : string) := dquote +:+ name +:+ dquote +:+ ":" +:+ text in
  "{" +:+ member "plan" ("{" +:+ member "plan_id" (encode_string (pr_plan_id (sr_plan s))) +:+ ","
    +:+ member "plan_digest_hex" (encode_string (pr_plan_digest_hex (sr_plan s))) +:+ ","
    +:+ member "action_index" (dec_string (pr_action_index (sr_plan s))) +:+ "}") +:+ ","
  +:+ member "scheduled_for" (encode_string (sr_scheduled_for s)) +:+ ","
  +:+ member "attempt" (dec_string (sr_attempt s)) +:+ "}".

(** A row of [records]; [Row] of the source without the kind it was read by. *)
Record OpsRow := {
  or_seq : Z; or_kind : RecordKind; or_id : string; or_subject : string; or_slot : string;
  or_status : Z; or_at : Z; or_body : string
}.

Record Intent := { it_kind : RecordKind; it_id : string; it_binding : ScheduleRef }.
Record ClaimedSlot := { sl_kind : RecordKind; sl_subject : string; sl_slot : string }.

(** [o_next_seq]: the next AUTOINCREMENT value. *)
Record Ops := {
  o_reservations : list ManualCronReservation;
  o_intents : list Intent;
  o_meta : bmap string;
  o_records : list OpsRow;
  o_next_seq : Z;
  o_claimed : list ClaimedSlot
}.

Definition empty_ops : Ops :=
  {| o_reservations := []; o_intents := []; o_meta := []; o_records := []; o_next_seq := 1; o_claimed := [] |}.

Definition ops_reservations (o : Ops) (x : list ManualCronReservation) : Ops :=
  {| o_reservations := x; o_intents := o_intents o; o_meta := o_meta o; o_records := o_records o;
     o_next_seq := o_next_seq o; o_claimed := o_claimed o |}.
Definition ops_intents (o : Ops) (x : list Intent) : Ops :=
  {| o_reservations := o_reservations o; o_intents := x; o_meta := o_meta o; o_records := o_records o;
     o_next_seq := o_next_seq o; o_claimed := o_claimed o |}.
Definition ops_meta (o : Ops) (x : bmap string) : Ops :=
  {| o_reservations := o_reservations o; o_intents := o_intents o; o_meta := x; o_records := o_records o;
     o_next_seq := o_next_seq o; o_claimed := o_claimed o |}.
Definition ops_records (o : Ops) (x : list OpsRow) : Ops :=
  {| o_reservations := o_reservations o; o_intents := o_intents o; o_meta := o_meta o; o_records := x;
     o_next_seq := o_next_seq o; o_claimed := o_claimed o |}.
Definition ops_claimed (o : Ops) (x : list ClaimedSlot) : Ops :=
  {| o_reservations := o_reservations o; o_intents := o_intents o; o_meta := o_meta o;
     o_records := o_records o; o_next_seq := o_next_seq o; o_claimed := x |}.

(** A new row: appended with the next [seq]. *)
Definition append_record (o : Ops) (row : Z -> OpsRow) : Ops :=
  {| o_reservations := o_reservations o; o_intents := o_intents o; o_meta := o_meta o;
     o_records := o_records o ++ [row (o_next_seq o)]; o_next_seq := o_next_seq o + 1;
     o_claimed := o_claimed o |}.

Definition same_kind (a b : RecordKind) : bool := bool_decide (a = b).

Definition is_record (kind : RecordKind) (id : string) (r : OpsRow) : bool :=
  same_kind (or_kind r) kind && String.eqb (or_id r) id.

Definition is_slot (kind : RecordKind) (subject slot : string) (c : ClaimedSlot) : bool :=
  same_kind (sl_kind c) kind && String.eqb (sl_subject c) subject && String.eqb (sl_slot c) slot.

(** ** The slot floor *)

Definition FLOOR_KEY : string := "scheduled_slot_floor".

Definition i64_text (z : Z) : string := if z <? 0 then "-" +:+ dec_string (- z) else dec_string z.

(** [str::parse::<i64>]. *)
Definition parse_i64 (s : string) : option Z :=
  let '(negative, digits) := match s with
    | String c r => if Ascii.eqb c "-" then (true, r) else if Ascii.eqb c "+" then (false, r) else (false, s)
    | EmptyString => (false, s)
    end in
  match parse_digits digits with
  | Some n => let z := if negative then - n else n in
              if (i64_min <=? z) && (z <=? i64_max) then Some z else None
  | None => None
  end.

Definition slot_floor (o : Ops) : store_result (option Z) :=
  match bget FLOOR_KEY (o_meta o) with
  | None => Ok None
  | Some value =>
      let invalid := StoreError.Unsafe "invalid scheduled slot floor" in
      let? floor := ok_or (parse_i64 value) invalid in
      check? String.eqb (i64_text floor) value else invalid in
      Ok (Some floor)
  end.

(** [parse_rfc(slot).is_some_and(|seconds| floor.is_some_and(|floor| seconds < floor))]. *)
Definition below_floor (floor : option Z) (slot : string) : bool :=
  is_some_and (timestamp slot) (fun seconds => is_some_and floor (fun floor => seconds <? floor)).

(** ** Records *)

Section ops.
Context {PB : Prost} {ST : SqliteTime}.

(** A message to be stored: its columns and encoded bytes. *)
Record Entry := {
  en_id : string; en_subject : string; en_slot : string; en_status : Z; en_at : Z; en_body : string
}.

Definition too_large : StoreError.t := StoreError.Unsafe "scheduler record too large".

Definition row_of_entry (kind : RecordKind) (e : Entry) (seq : Z) : OpsRow :=
  {| or_seq := seq; or_kind := kind; or_id := en_id e; or_subject := en_subject e; or_slot := en_slot e;
     or_status := en_status e; or_at := en_at e; or_body := en_body e |}.

Definition write_record (o : Ops) (kind : RecordKind) (e : Entry) : store_result (Z * Ops) :=
  check? len (en_body e) <=? MAX_RECORD_BYTES else too_large in
  match find_first (is_record kind (en_id e)) (o_records o) with
  | Some r => Ok (or_seq r, ops_records o (update (is_record kind (en_id e))
                              (fun r => row_of_entry kind e (or_seq r)) (o_records o)))
  | None => Ok (o_next_seq o, append_record o (row_of_entry kind e))
  end.

Definition put (o : Ops) (kind : RecordKind) (e : Entry) : store_result (Z * Ops) := write_record o kind e.

Definition is_intent (kind : RecordKind) (id : string) (i : Intent) : bool :=
  same_kind (it_kind i) kind && String.eqb (it_id i) id.

Definition bind_schedule (o : Ops) (kind : RecordKind) (id : string) (schedule : ScheduleRef) : store_result Ops :=
  check? len (schedule_json schedule) <=? 4096 else StoreError.Unsafe "schedule intent too large" in
  match find_first (is_intent kind id) (o_intents o) with
  | Some i => check? bool_decide (it_binding i = schedule) else StoreError.Unsafe "scheduled authority changed" in
              Ok o
  | None => Ok (ops_intents o (o_intents o ++ [ {| it_kind := kind; it_id := id; it_binding := schedule |} ]))
  end.

(** [claim_inner]: the slot is the entry's. *)
Definition claim_inner (o : Ops) (kind : RecordKind) (e : Entry) (schedule : option ScheduleRef)
    : store_result (bool * Ops) :=
  check? len (en_body e) <=? MAX_RECORD_BYTES else too_large in
  let? floor := if is_some (timestamp (en_slot e)) then slot_floor o else Ok None in
  if below_floor floor (en_slot e) then Ok (false, o)
  else if existsb (is_slot kind (en_subject e) (en_slot e)) (o_claimed o) then Ok (false, o)
  else
    let o := ops_claimed o (o_claimed o ++
      [ {| sl_kind := kind; sl_subject := en_subject e; sl_slot := en_slot e |} ]) in
    let? o := match schedule with Some s => bind_schedule o kind (en_id e) s | None => Ok o end in
    check? negb (existsb (is_record kind (en_id e)) (o_records o)) else StoreError.Sqlite in
    Ok (true, append_record o (row_of_entry kind e)).

Definition claim_scheduled (o : Ops) (kind : RecordKind) (e : Entry) (schedule : ScheduleRef)
    : store_result (bool * Ops) :=
  claim_inner o kind e (Some schedule).

Definition put_scheduled_record (o : Ops) (kind : RecordKind) (e : Entry) (schedule : ScheduleRef)
    : store_result Ops :=
  let? o := bind_schedule o kind (en_id e) schedule in
  let? written := write_record o kind e in
  Ok written.2.

Definition valid_intent (s : ScheduleRef) : bool :=
  uuid7 (pr_plan_id (sr_plan s)) && hex64 (pr_plan_digest_hex (sr_plan s))
  && is_some (timestamp (sr_scheduled_for s)) && in_range 1 3 (sr_attempt s).

Definition scheduled_intent (o : Ops) (kind : RecordKind) (id : string) : store_result (option ScheduleRef) :=
  match find_first (is_intent kind id) (o_intents o) with
  | None => Ok None
  | Some i =>
      check? len (schedule_json (it_binding i)) <=? 4096 else StoreError.Unsafe "schedule intent too large" in
      check? valid_intent (it_binding i) else StoreError.Unsafe "invalid schedule intent" in
      Ok (Some (it_binding i))
  end.

Definition try_meta (o : Ops) (key : string) : option string := bget key (o_meta o).
Definition try_set_meta (o : Ops) (key value : string) : Ops := ops_meta o (binsert key value (o_meta o)).

(** ** Reading *)

(** [decode(body).is_ok_and(|m| m.id == row.id && ...)]. *)
Definition body_matches {M} (c : Codec M) (row : OpsRow) (id subject : M -> string) (status : M -> Z) : bool :=
  is_some_and (decode c (or_body row)) (fun m =>
    String.eqb (id m) (or_id row) && String.eqb (subject m) (or_subject row) && (status m =? or_status row)).

Definition validate_record (kind : RecordKind) (row : OpsRow) : bool :=
  (len (or_body row) <=? MAX_RECORD_BYTES)
  && match kind with
     | KCronRun => body_matches cron_run row cr_id cr_cron_id cr_status
     | KBackupRun => body_matches backup_run row br_id br_policy_id br_status
     | KVerification => body_matches verification row rv_id rv_policy_id rv_status
     | KArtifact => is_some (decode artifact (or_body row))
     | KAlertEvent => is_some (decode alert_event (or_body row))
     | KWebhookDelivery => is_some (decode webhook_delivery (or_body row))
     | KServerBuild => is_some (decode server_build (or_body row))
     | KStagedSet => is_some (decode staged_set (or_body row))
     end.

Definition invalid_record : StoreError.t := StoreError.Unsafe "scheduler record encoding is invalid".

Definition try_get (o : Ops) (kind : RecordKind) (id : string) : store_result (option OpsRow) :=
  match find_first (is_record kind id) (o_records o) with
  | None => Ok None
  | Some row => check? validate_record kind row else invalid_record in Ok (Some row)
  end.

(** [checked] adds one to the failure generation of a failed call; the
    callers below take the value of a failure. *)
Definition get (o : Ops) (kind : RecordKind) (id : string) : option OpsRow :=
  match try_get o kind id with Ok row => row | _ => None end.

Definition has_slot (o : Ops) (kind : RecordKind) (subject slot : string) : bool :=
  match slot_floor o with
  | Ok floor =>
      below_floor floor slot
      || existsb (fun r => same_kind (or_kind r) kind && String.eqb (or_subject r) subject
                           && String.eqb (or_slot r) slot) (o_records o)
      || existsb (is_slot kind subject slot) (o_claimed o)
  | _ => true
  end.

Definition try_slot_attempts (o : Ops) (kind : RecordKind) (subject slot excluding : string) : Z :=
  count (fun r => same_kind (or_kind r) kind && String.eqb (or_subject r) subject
                  && String.eqb (or_slot r) slot && negb (String.eqb (or_id r) excluding)) (o_records o).

Record Listing := {
  ls_subject : option string; ls_statuses : list Z; ls_from : option Z; ls_to : option Z;
  ls_before : option Z; ls_after : option Z; ls_ascending : bool; ls_limit : Z
}.

Definition status_in (statuses : list Z) (status : Z) : bool :=
  (lenl statuses =? 0) || existsb (Z.eqb status) statuses.

Definition listed (kind : RecordKind) (l : Listing) (r : OpsRow) : bool :=
  same_kind (or_kind r) kind
  && is_none_or (ls_subject l) (String.eqb (or_subject r))
  && is_none_or (ls_from l) (fun from => from <=? or_at r)
  && is_none_or (ls_to l) (fun to => or_at r <=? to)
  && is_none_or (ls_before l) (fun before => or_seq r <? before)
  && is_none_or (ls_after l) (fun after => after <? or_seq r)
  && status_in (ls_statuses l) (or_status r).

Definition try_list (o : Ops) (kind : RecordKind) (l : Listing) : store_result (list OpsRow) :=
  let rows := select (listed kind l) (o_records o) in
  let rows := if ls_ascending l then order_asc or_seq rows else order_desc or_seq rows in
  let rows := take (Z.to_nat (Z.min (Z.max (ls_limit l) 1) i64_max)) rows in
  check? forallb (validate_record kind) rows else invalid_record in Ok rows.

Definition list_records (o : Ops) (kind : RecordKind) (l : Listing) : list OpsRow :=
  match try_list o kind l with Ok rows => rows | _ => [] end.

Definition count_records (o : Ops) (kind : RecordKind) (statuses : list Z) (from : option Z) : Z :=
  Z.min (count (fun r => same_kind (or_kind r) kind && (default i64_min from <=? or_at r)
                         && status_in statuses (or_status r)) (o_records o)) (2 ^ 32 - 1).

Definition try_remove (o : Ops) (kind : RecordKind) (id : string) : Ops :=
  ops_records o (delete_where (is_record kind id) (o_records o)).

(** ** Manual runs *)

(** [ORDER BY column] of a text column, by bytes. *)
Fixpoint insert_text {A} (key : A -> string) (x : A) (l : list A) : list A :=
  match l with
  | [] => [x]
  | y :: r => if String.ltb (key x) (key y) then x :: l else y :: insert_text key x r
  end.

Definition order_text {A} (key : A -> string) (l : list A) : list A :=
  fold_left (fun acc x => insert_text key x acc) l [].

Definition manual_reservations (o : Ops) : list ManualCronReservation :=
  take 256 (order_text mr_plan_id (o_reservations o)).

Definition reserve_manual (o : Ops) (r : ManualCronReservation) : store_result Ops :=
  match find_first (fun x => String.eqb (mr_plan_id x) (mr_plan_id r)) (o_reservations o) with
  | Some existing =>
      check? bool_decide (existing = r) else StoreError.Unsafe "manual reservation authority changed" in Ok o
  | None => Ok (ops_reservations o (o_reservations o ++ [r]))
  end.

Definition remove_manual_reservation (o : Ops) (plan_id : string) : Ops :=
  ops_reservations o (delete_where (fun x => String.eqb (mr_plan_id x) plan_id) (o_reservations o)).

Definition run_entry (run : CronRun) (slot : string) (at_ : Z) : Entry :=
  {| en_id := cr_id run; en_subject := cr_cron_id run; en_slot := slot; en_status := cr_status run;
     en_at := at_; en_body := encode_to_vec cron_run run |}.

Definition manual_slot (plan_id : string) : string := "manual:" +:+ plan_id.

(** The recorded run of the slot, with the new operation id, status and
    start where it has none yet. *)
Definition merge_manual (recorded run : CronRun) : CronRun :=
  let pending := cr_status recorded =? CronRunStatus.Pending in
  {| cr_id := cr_id recorded; cr_cron_id := cr_cron_id recorded; cr_attempt := cr_attempt recorded;
     cr_trigger := cr_trigger recorded;
     cr_status := if pending then cr_status run else cr_status recorded;
     cr_scheduled_for := cr_scheduled_for recorded;
     cr_started_at := if pending then cr_started_at run else cr_started_at recorded;
     cr_finished_at := cr_finished_at recorded; cr_exit_code := cr_exit_code recorded;
     cr_error := cr_error recorded; cr_output_bytes := cr_output_bytes recorded;
     cr_operation_id := if is_empty (cr_operation_id recorded) then cr_operation_id run
                        else cr_operation_id recorded;
     cr_missed_count := cr_missed_count recorded; cr_next_retry_at := cr_next_retry_at recorded;
     cr_container_name := cr_container_name recorded; cr_plan_id := cr_plan_id recorded;
     cr_runner_run_id := cr_runner_run_id recorded |}.

Definition commit_manual_run (o : Ops) (run : CronRun) : store_result (CronRun * Ops) :=
  let slot := manual_slot (cr_plan_id run) in
  let existing := order_asc or_seq (select (fun r => same_kind (or_kind r) KCronRun
    && String.eqb (or_subject r) (cr_cron_id run) && String.eqb (or_slot r) slot) (o_records o)) !! 0%nat in
  let? recorded := match existing with
    | Some row => ok_or (decode cron_run (or_body row)) (StoreError.Unsafe "invalid manual run history")
    | None => Ok run
    end in
  let recorded := merge_manual recorded run in
  let? written := write_record o KCronRun (run_entry recorded slot (default 0 (cr_started_at recorded))) in
  Ok (recorded, remove_manual_reservation written.2 (cr_plan_id run)).

(** ** Backups and staged sets *)

Definition backup_entry (run : BackupRun) (slot : string) : Entry :=
  {| en_id := br_id run; en_subject := br_policy_id run; en_slot := slot; en_status := br_status run;
     en_at := default 0 (match br_started_at run with Some t => Some t | None => br_finished_at run end);
     en_body := encode_to_vec backup_run run |}.

Definition artifact_entry (a : BackupArtifact) : Entry :=
  {| en_id := ba_id a; en_subject := ba_policy_id a; en_slot := ""; en_status := ba_last_verification a;
     en_at := default 0 (ba_created_at a); en_body := encode_to_vec artifact a |}.

Definition put_backup_completion (o : Ops) (run : BackupRun) (slot : string) (a : BackupArtifact)
    : store_result Ops :=
  let? written := write_record o KBackupRun (backup_entry run slot) in
  let? written := write_record written.2 KArtifact (artifact_entry a) in
  Ok written.2.

Definition replace_staged_set (o : Ops) (set : StagedArtifactSet) (at_ : Z) : store_result Ops :=
  let o := ops_records o (delete_where (fun r => same_kind (or_kind r) KStagedSet
    && String.eqb (or_subject r) (st_bundle_manifest_digest_hex set)) (o_records o)) in
  let? written := write_record o KStagedSet
    {| en_id := st_stage_id set; en_subject := st_bundle_manifest_digest_hex set; en_slot := "";
       en_status := 1; en_at := at_; en_body := encode_to_vec staged_set set |} in
  Ok written.2.

(** ** Retention *)

Definition saturating_sub_i64 (a b : Z) : Z := Z.max i64_min (Z.min i64_max (a - b)).

(** The statuses of a kind that may be pruned; [None] is every status. *)
Definition prunable_statuses (kind : RecordKind) : option (list Z) :=
  match kind with
  | KCronRun => Some [3; 4; 5; 6; 7; 8]
  | KBackupRun => Some [5; 6; 7; 8]
  | KVerification => Some [2; 3; 4]
  | KWebhookDelivery => Some [4; 5; 6; 7; 8; 9; 10]
  | KServerBuild => Some [5; 6; 7; 8]
  | KArtifact | KAlertEvent | KStagedSet => None
  end.

Definition newest_seqs (rows : list OpsRow) (kind : RecordKind) (subject : string) : list Z :=
  or_seq <$> take (Z.to_nat HISTORY_RECORDS)
    (order_desc or_seq (select (fun r => same_kind (or_kind r) kind && String.eqb (or_subject r) subject) rows)).

Definition pruned (rows : list OpsRow) (cutoff : Z) (r : OpsRow) : bool :=
  (or_at r <? cutoff)
  && is_none_or (prunable_statuses (or_kind r)) (existsb (Z.eqb (or_status r)))
  && negb (existsb (Z.eqb (or_seq r)) (newest_seqs rows (or_kind r) (or_subject r))).

Definition try_prune (o : Ops) (now : Z) : store_result Ops :=
  let? floor := slot_floor o in
  let cutoff := Z.max (saturating_sub_i64 now HISTORY_SECONDS) (default i64_min floor) in
  let o := try_set_meta o FLOOR_KEY (i64_text cutoff) in
  let o := ops_claimed o (delete_where (fun c => is_some_and (strftime_seconds (sl_slot c))
                                                  (fun t => t <? cutoff)) (o_claimed o)) in
  let rows := o_records o in
  let o := ops_records o (delete_where (pruned rows cutoff) rows) in
  Ok (ops_intents o (List.filter (fun i => existsb (is_record (it_kind i) (it_id i)) (o_records o)) (o_intents o))).

(** The schema script runs at every start: slots of the stored records are
    claimed. *)
Definition claim_recorded (claimed : list ClaimedSlot) (r : OpsRow) : list ClaimedSlot :=
  if is_empty (or_slot r) || existsb (is_slot (or_kind r) (or_subject r) (or_slot r)) claimed then claimed
  else claimed ++ [ {| sl_kind := or_kind r; sl_subject := or_subject r; sl_slot := or_slot r |} ].

Definition open_ops (o : Ops) : Ops :=
  ops_claimed o (fold_left claim_recorded (o_records o) (o_claimed o)).

End ops.
