(* ===== verification/OpsFacts.v ===== *)
(** * Theorems about the schedulers' store

    A fire time is claimed at most once for the life of the store, whatever
    the clock does and however often history is pruned; the authority bound
    to a run never changes; retention never removes an unfinished run; and a
    manual run keeps its identity and its end. *)

From S2P Require Import Prelude RustStr BTree PlanCode Json Jcs Calendar Text Store Proto OpsStore.

(** ** Frames *)

Section facts.
Context {PB : Prost} {ST : SqliteTime}.

Lemma write_record_frame o kind e seq o' : write_record o kind e = Ok (seq, o') ->
  o_claimed o' = o_claimed o /\ o_meta o' = o_meta o /\ o_intents o' = o_intents o /\
  o_reservations o' = o_reservations o.
Proof. unfold write_record. intros Hw. inv_ok Hw. by destruct (find_first _ _); simplify_eq. Qed.

Lemma bind_schedule_frame o kind id s o' : bind_schedule o kind id s = Ok o' ->
  o_claimed o' = o_claimed o /\ o_meta o' = o_meta o /\ o_records o' = o_records o.
Proof.
  unfold bind_schedule. intros Hw. inv_ok Hw. destruct (find_first _ _); [inv_ok Hw|]; by simplify_eq.
Qed.

Lemma is_record_true kind id r : is_record kind id r = true <-> or_kind r = kind /\ or_id r = id.
Proof. unfold is_record, same_kind. rewrite andb_true_iff, bool_decide_eq_true, String.eqb_eq. done. Qed.

(** The record of a kind and id. *)
Definition record_of (o : Ops) (kind : RecordKind) (id : string) : option OpsRow :=
  find_first (is_record kind id) (o_records o).

(** A written record is the one of its key; the others stay. *)
Lemma write_record_of o kind e seq o' k id : write_record o kind e = Ok (seq, o') ->
  record_of o' k id = if same_kind kind k && String.eqb (en_id e) id then Some (row_of_entry kind e seq)
                      else record_of o k id.
Proof.
  unfold write_record, record_of. intros Hw. inv_ok Hw.
  assert (forall s, is_record k id (row_of_entry kind e s) = same_kind kind k && String.eqb (en_id e) id) as Hrow by done.
  destruct (find_first (is_record kind (en_id e)) (o_records o)) as [r|] eqn:Hf; simplify_eq; cbn [o_records ops_records append_record].
  - unfold update. revert Hf. induction (o_records o) as [|y l IH]; cbn [find_first fmap list_fmap]; [done|].
    destruct (is_record kind (en_id e) y) eqn:Hy.
    + intros [= ->]. rewrite Hrow. destruct (same_kind kind k && String.eqb (en_id e) id) eqn:Hk; [done|].
      assert (is_record k id r = false) as ->.
      { apply is_record_true in Hy as [Hy1 Hy2]. unfold is_record. by rewrite Hy1, Hy2. }
      clear IH. induction l as [|z l IH]; [done|]. cbn [find_first fmap list_fmap].
      destruct (is_record kind (en_id e) z) eqn:Hz; [|by rewrite IH]. rewrite Hrow.
      apply is_record_true in Hz as [Hz1 Hz2]. assert (is_record k id z = false) as -> by (unfold is_record; by rewrite Hz1, Hz2). exact IH.
    + intros Hf. specialize (IH Hf). destruct (is_record k id y) eqn:Hk; [|exact IH].
      apply is_record_true in Hk as [<- <-]. unfold is_record, same_kind in Hy.
      destruct (same_kind kind (or_kind y) && String.eqb (en_id e) (or_id y)) eqn:Hs; [|done].
      unfold same_kind in Hs. apply andb_true_iff in Hs as [H1%bool_decide_eq_true H2%String.eqb_eq]. subst kind.
      rewrite H2, bool_decide_true, String.eqb_refl in Hy by done. done.
  - rewrite find_first_app. cbn [find_first]. rewrite Hrow. destruct (find_first (is_record k id) (o_records o)) as [r|] eqn:Hk.
    + destruct (same_kind kind k && String.eqb (en_id e) id) eqn:Hs; [|done].
      apply andb_true_iff in Hs as [H1%bool_decide_eq_true H2%String.eqb_eq]. subst. congruence.
    + by destruct (same_kind kind k && String.eqb (en_id e) id).
Qed.

(** ** The floor *)

Lemma i64_text_parse z : i64_min <= z <= i64_max -> parse_i64 (i64_text z) = Some z.
Proof.
  intros Hz. unfold i64_text.
  assert (forall n, 0 <= n -> exists c r, dec_string n = String c r /\ is_ascii_digit c = true /\
    parse_digits (dec_string n) = Some n) as Hd.
  { intros n Hn. destruct (dec_string_spec n Hn) as (Hv & Ha & Hne & _).
    destruct (dec_string n) as [|c r] eqn:He; [done|]. exists c, r. split; [done|].
    simpl in Ha. apply andb_true_iff in Ha as [Hc Hr]. split; [done|].
    unfold parse_digits. cbn [is_empty String.eqb negb andb all_bytes]. by rewrite Hc, Hr, Hv. }
  destruct (Z.ltb_spec z 0).
  - destruct (Hd (- z) ltac:(lia)) as (c & r & He & _ & Hp).
    change ("-" +:+ dec_string (- z)) with (String "-" (dec_string (- z))).
    unfold parse_i64. change (Ascii.eqb "-" "-") with true. cbv beta iota zeta. rewrite Hp.
    replace (- - z) with z by lia. by replace ((i64_min <=? z) && (z <=? i64_max)) with true by lia.
  - destruct (Hd z ltac:(lia)) as (c & r & He & Hc & Hp). unfold parse_i64. rewrite He.
    destruct (Ascii.eqb c "-") eqn:E1; [apply Ascii.eqb_eq in E1; subst; done|].
    destruct (Ascii.eqb c "+") eqn:E2; [apply Ascii.eqb_eq in E2; subst; done|].
    rewrite <- He, Hp. by replace ((i64_min <=? z) && (z <=? i64_max)) with true by lia.
Qed.

Lemma slot_floor_set o z : i64_min <= z <= i64_max ->
  slot_floor (try_set_meta o FLOOR_KEY (i64_text z)) = Ok (Some z).
Proof.
  intros Hz. unfold slot_floor, try_set_meta. cbn [o_meta ops_meta]. rewrite bget_insert, String.eqb_refl.
  rewrite i64_text_parse by done. cbn [ok_or obind]. by rewrite String.eqb_refl.
Qed.

Lemma slot_floor_range o f : slot_floor o = Ok (Some f) -> i64_min <= f <= i64_max.
Proof.
  unfold slot_floor. destruct (bget _ _) as [v|]; [|done]. intros Hf. inv_ok Hf. simplify_eq.
  unfold parse_i64 in Hx. destruct (match v with "" => _ | String _ _ => _ end) as [neg digits].
  destruct (parse_digits digits); [|done]. destruct (_ && _) eqn:Hr in Hx; [|done]. injection Hx as <-. bsplit. lia.
Qed.

Lemma slot_floor_meta o o' : o_meta o' = o_meta o -> slot_floor o' = slot_floor o.
Proof. unfold slot_floor. by intros ->. Qed.

(** ** Fire times *)

(** The fire time [slot] of [subject] is used up: it is claimed, or below the
    floor. *)
Definition taken (o : Ops) (kind : RecordKind) (subject slot : string) : Prop :=
  existsb (is_slot kind subject slot) (o_claimed o) = true \/
  exists t f, timestamp slot = Some t /\ slot_floor o = Ok (Some f) /\ t < f.

(** One operation of the agent on its store; the caller keys of [meta] are
    checkpoints, never the floor. *)
Inductive ops_step (o : Ops) : Ops -> Prop :=
| ops_claim kind e schedule won o' : claim_inner o kind e schedule = Ok (won, o') -> ops_step o o'
| ops_put kind e seq o' : put o kind e = Ok (seq, o') -> ops_step o o'
| ops_put_scheduled kind e schedule o' : put_scheduled_record o kind e schedule = Ok o' -> ops_step o o'
| ops_set_meta key value : key <> FLOOR_KEY -> ops_step o (try_set_meta o key value)
| ops_remove kind id : ops_step o (try_remove o kind id)
| ops_reserve r o' : reserve_manual o r = Ok o' -> ops_step o o'
| ops_unreserve plan_id : ops_step o (remove_manual_reservation o plan_id)
| ops_commit_manual run recorded o' : commit_manual_run o run = Ok (recorded, o') -> ops_step o o'
| ops_backup run slot a o' : put_backup_completion o run slot a = Ok o' -> ops_step o o'
| ops_staged set at_ o' : replace_staged_set o set at_ = Ok o' -> ops_step o o'
| ops_prune now o' : try_prune o now = Ok o' -> ops_step o o'
| ops_reopen : ops_step o (open_ops o).

Lemma taken_frame o o' kind subject slot :
  o_claimed o' = o_claimed o -> o_meta o' = o_meta o -> taken o kind subject slot -> taken o' kind subject slot.
Proof. unfold taken. intros -> Hm. by rewrite (slot_floor_meta _ _ Hm). Qed.

Lemma claim_inner_cases o kind e schedule won o' : claim_inner o kind e schedule = Ok (won, o') ->
  (won = false /\ o' = o) \/
  (won = true /\ ~ taken o kind (en_subject e) (en_slot e) /\ o_meta o' = o_meta o /\
   o_claimed o' = o_claimed o ++ [ {| sl_kind := kind; sl_subject := en_subject e; sl_slot := en_slot e |} ]).
Proof.
  unfold claim_inner. intros Hc. inv_ok Hc. destruct (below_floor x (en_slot e)) eqn:Hb; [left; by simplify_eq|].
  destruct (existsb _ (o_claimed o)) eqn:He; [left; by simplify_eq|]. right. inv_ok Hc. simplify_eq.
  assert (o_claimed x0 = o_claimed o ++ [ {| sl_kind := kind; sl_subject := en_subject e; sl_slot := en_slot e |} ] /\
          o_meta x0 = o_meta o) as [Hcl Hm].
  { destruct schedule as [s|]; [|by simplify_eq]. by apply bind_schedule_frame in Hx0 as (? & ? & _). }
  split_and!; [done| |done|done]. intros [Ht|(t & f & Ht & Hf & Hlt)]; [by rewrite He in Ht|].
  unfold below_floor in Hb. rewrite Ht in *. cbn [is_some is_some_and] in *. rewrite Hf in Hx. injection Hx as <-.
  simpl in Hb. lia.
Qed.

Lemma claim_recorded_keeps rows : forall claimed p,
  existsb p claimed = true -> existsb p (fold_left claim_recorded rows claimed) = true.
Proof.
  induction rows as [|r rows IH]; intros claimed p Hp; [done|]. cbn [fold_left]. apply IH. unfold claim_recorded.
  destruct (_ || _); [done|]. by rewrite existsb_app, Hp.
Qed.

Context {SL : SqliteTimeLaws}.

Lemma prune_taken o now o' kind subject slot t : timestamp slot = Some t ->
  try_prune o now = Ok o' -> taken o kind subject slot -> taken o' kind subject slot.
Proof.
  intros Ht Hp Htk. unfold try_prune in Hp. inv_ok Hp. rename Hp into Ho. rename x into floor.
  set (cutoff := Z.max _ _) in Ho.
  assert (i64_min <= cutoff <= i64_max) as Hc.
  { unfold cutoff, saturating_sub_i64. destruct floor as [f|]; simpl; [pose proof (slot_floor_range _ _ Hx)|];
      unfold i64_min, i64_max in *; lia. }
  assert (slot_floor o' = Ok (Some cutoff)) as Hf.
  { rewrite <- (slot_floor_set o cutoff Hc). apply slot_floor_meta. by rewrite <- Ho. }
  destruct (Z.lt_ge_cases t cutoff) as [Hlt|Hge]; [right; eauto|].
  destruct Htk as [Hcl|(t' & f & Ht' & Hf' & Hlt)].
  - left. rewrite <- Ho. cbn [o_claimed ops_intents ops_records ops_claimed]. apply existsb_exists in Hcl as (c & Hin & Hs).
    apply existsb_exists. exists c. split; [|done]. unfold delete_where. apply filter_In. split; [done|].
    unfold is_slot in Hs. bsplit. match goal with H : String.eqb (sl_slot c) slot = true |- _ => apply String.eqb_eq in H as -> end.
    rewrite (strftime_timestamp _ _ Ht). simpl. lia.
  - exfalso. rewrite Ht in Ht'. injection Ht' as <-. rewrite Hf' in Hx. injection Hx as <-. unfold cutoff in *. simpl in *. lia.
Qed.

Lemma step_taken o o' kind subject slot t : timestamp slot = Some t ->
  ops_step o o' -> taken o kind subject slot -> taken o' kind subject slot.
Proof.
  intros Ht Hs Htk. destruct Hs as [k e sch won o' Hc|k e seq o' Hp|k e sch o' Hp|key value Hk|k id|r o' Hr|pid
    |run rec o' Hc|run sl a o' Hb|set at_ o' Hr|now o' Hp|].
  - apply claim_inner_cases in Hc as [[_ ->]|(_ & _ & Hm & Hcl)]; [done|].
    destruct Htk as [Hex|(t' & f & H1 & H2 & H3)]; [left; by rewrite Hcl, existsb_app, Hex|].
    right. exists t', f. by rewrite (slot_floor_meta _ _ Hm).
  - apply write_record_frame in Hp as (? & ? & _). by eapply taken_frame.
  - unfold put_scheduled_record in Hp. inv_ok Hp. destruct x0 as [seq o2]. simplify_eq/=.
    apply write_record_frame in Hx0 as (H1 & H2 & _). apply bind_schedule_frame in Hx as (H3 & H4 & _).
    eapply taken_frame; [| |exact Htk]; congruence.
  - destruct Htk as [Hex|(t' & f & H1 & H2 & H3)]; [by left|]. right. exists t', f. split_and!; [done| |done].
    unfold slot_floor, try_set_meta in *. cbn [o_meta ops_meta]. rewrite bget_insert.
    by destruct (String.eqb_spec FLOOR_KEY key).
  - by eapply taken_frame.
  - unfold reserve_manual in Hr. destruct (find_first _ _); [inv_ok Hr|]; simplify_eq; [done|by eapply taken_frame].
  - by eapply taken_frame.
  - unfold commit_manual_run in Hc. inv_ok Hc. destruct x0 as [seq o2]. simplify_eq/=.
    apply write_record_frame in Hx0 as (H1 & H2 & _). eapply taken_frame; [exact H1|exact H2|done].
  - unfold put_backup_completion in Hb. inv_ok Hb. destruct x as [s1 o1], x0 as [s2 o2]. simplify_eq/=.
    apply write_record_frame in Hx as (H1 & H2 & _). apply write_record_frame in Hx0 as (H3 & H4 & _).
    eapply taken_frame; [| |exact Htk]; congruence.
  - unfold replace_staged_set in Hr. inv_ok Hr. destruct x as [s1 o1]. simplify_eq/=.
    apply write_record_frame in Hx as (H1 & H2 & _). eapply taken_frame; [exact H1|exact H2|done].
  - by eapply prune_taken.
  - destruct Htk as [Hex|?]; [left|by right]. cbn [open_ops o_claimed ops_claimed]. by apply claim_recorded_keeps.
Qed.

(** A fire time starts at most one run: after a claim of a fire time
    succeeded, no later claim of it succeeds, through any sequence of store
    operations, pruning at any clock values and restarts included. *)
Theorem slot_claimed_once o kind e schedule o1 o2 e' schedule' o3 t :
  timestamp (en_slot e) = Some t ->
  claim_inner o kind e schedule = Ok (true, o1) -> rtc ops_step o1 o2 ->
  en_subject e' = en_subject e -> en_slot e' = en_slot e ->
  claim_inner o2 kind e' schedule' <> Ok (true, o3).
Proof.
  intros Ht Hc Hr Hsub Hslot Hc'.
  assert (taken o1 kind (en_subject e) (en_slot e)) as Htk.
  { apply claim_inner_cases in Hc as [[? _]|(_ & _ & _ & Hcl)]; [done|]. left. rewrite Hcl, existsb_app.
    cbn [existsb]. unfold is_slot, same_kind. cbn [sl_kind sl_subject sl_slot].
    by rewrite bool_decide_true, !String.eqb_refl, orb_true_r. }
  assert (taken o2 kind (en_subject e) (en_slot e)) as Htk2.
  { clear Hc Hc'. induction Hr as [|a b c Hs _ IH]; [done|]. apply IH. by eapply step_taken. }
  apply claim_inner_cases in Hc' as [[? _]|(_ & Hn & _)]; [done|]. apply Hn. by rewrite Hsub, Hslot.
Qed.

(** ** Authority and retention *)

Definition find_intent (o : Ops) (kind : RecordKind) (id : string) : option Intent :=
  find_first (is_intent kind id) (o_intents o).

Definition recorded (o : Ops) (kind : RecordKind) (id : string) : bool := existsb (is_record kind id) (o_records o).

Lemma find_first_app_Some {A} (p : A -> bool) l r x : find_first p l = Some x -> find_first p (l ++ r) = Some x.
Proof. induction l as [|y l IH]; [done|]. cbn. by destruct (p y). Qed.

Lemma bind_schedule_intent o k i s o' kind id x : bind_schedule o k i s = Ok o' ->
  find_intent o kind id = Some x -> find_intent o' kind id = Some x.
Proof.
  unfold bind_schedule, find_intent. intros Hw. inv_ok Hw. destruct (find_first (is_intent k i) (o_intents o)); [inv_ok Hw|]; simplify_eq; [done|].
  apply find_first_app_Some.
Qed.

Lemma is_intent_record kind id i : is_intent kind id i = true -> it_kind i = kind /\ it_id i = id.
Proof. unfold is_intent, same_kind. intros H. bsplit. by rewrite bool_decide_eq_true, String.eqb_eq in *. Qed.

Lemma find_intent_filter kind id l (q : Intent -> bool) x : find_first (is_intent kind id) l = Some x ->
  (forall i, is_intent kind id i = true -> q i = true) -> find_first (is_intent kind id) (List.filter q l) = Some x.
Proof.
  intros Hf Hq. induction l as [|y l IH]; [done|]. cbn in *. destruct (is_intent kind id y) eqn:Hy.
  - injection Hf as <-. rewrite (Hq y Hy). cbn. by rewrite Hy.
  - destruct (q y); cbn; [rewrite Hy|]; by apply IH.
Qed.

Lemma prune_intent o now o' kind id x : try_prune o now = Ok o' -> find_intent o kind id = Some x ->
  find_intent o' kind id = Some x \/ recorded o' kind id = false.
Proof.
  unfold try_prune. intros H Hx. inv_ok H. unfold find_intent, recorded.
  destruct (existsb (is_record kind id) (o_records o')) eqn:Hr; [left|by right].
  rewrite <- H in Hr |- *. cbn [o_intents ops_intents o_records] in *. apply find_intent_filter; [done|].
  intros i [-> ->]%is_intent_record. exact Hr.
Qed.

(** The authority bound to a run is immutable: whatever operation the
    store performs next, the plan, action, fire time and attempt a run was
    bound to stay bound to it for as long as the run is recorded. *)
Theorem authority_immutable o o' kind id x : ops_step o o' -> find_intent o kind id = Some x ->
  find_intent o' kind id = Some x \/ recorded o' kind id = false.
Proof.
  intros Hs Hx. destruct Hs as [k e sch won o' Hc|k e seq o' Hp|k e sch o' Hp|key value Hk|k i|r o' Hr|pid
    |run rec o' Hc|run sl a o' Hb|set at_ o' Hr|now o' Hp|]; try by left.
  - unfold claim_inner in Hc. inv_ok Hc. destruct (below_floor _ _); [by simplify_eq; left|].
    destruct (existsb _ _); [by simplify_eq; left|]. inv_ok Hc. simplify_eq. left. unfold find_intent. cbn [append_record o_intents].
    destruct sch as [s|]; [|by simplify_eq]. by eapply bind_schedule_intent.
  - left. apply write_record_frame in Hp as (_ & _ & Hi & _). unfold find_intent. by rewrite Hi.
  - left. unfold put_scheduled_record in Hp. inv_ok Hp. destruct x1 as [seq o2]. simplify_eq/=.
    apply write_record_frame in Hx1 as (_ & _ & Hi & _). unfold find_intent. rewrite Hi. by eapply bind_schedule_intent.
  - left. unfold reserve_manual in Hr. destruct (find_first _ _); [inv_ok Hr|]; by simplify_eq.
  - left. unfold commit_manual_run in Hc. inv_ok Hc. destruct x1 as [seq o2]. simplify_eq/=.
    apply write_record_frame in Hx1 as (_ & _ & Hi & _). unfold find_intent. cbn. by rewrite Hi.
  - left. unfold put_backup_completion in Hb. inv_ok Hb. destruct x0 as [s1 o1], x1 as [s2 o2]. simplify_eq/=.
    apply write_record_frame in Hx0 as (_ & _ & H1 & _). apply write_record_frame in Hx1 as (_ & _ & H2 & _).
    unfold find_intent. by rewrite H2, H1.
  - left. unfold replace_staged_set in Hr. inv_ok Hr. destruct x0 as [s1 o1]. simplify_eq/=.
    apply write_record_frame in Hx0 as (_ & _ & H1 & _). unfold find_intent. by rewrite H1.
  - by eapply prune_intent.
Qed.

(** A run that has not ended: its kind is pruned by status, and its status is
    none of those. *)
Definition unfinished (r : OpsRow) : Prop :=
  exists l, prunable_statuses (or_kind r) = Some l /\ existsb (Z.eqb (or_status r)) l = false.

(** Retention never drops a run that has not ended, nor the authority it
    was started under, however old it is. *)
Theorem prune_keeps_unfinished o now o' r x : try_prune o now = Ok o' -> r ∈ o_records o -> unfinished r ->
  find_intent o (or_kind r) (or_id r) = x -> r ∈ o_records o' /\ find_intent o' (or_kind r) (or_id r) = x.
Proof.
  intros Hp Hin (l & Hl & Hst) Hx.
  assert (r ∈ o_records o') as Hin'.
  { unfold try_prune in Hp. inv_ok Hp. rewrite <- Hp. cbn [o_records ops_intents ops_records].
    apply list_elem_of_In, filter_In. split; [by apply list_elem_of_In|]. unfold pruned. rewrite Hl. cbn [is_none_or].
    by rewrite Hst, andb_false_r. }
  split; [done|]. destruct x as [i|].
  - destruct (prune_intent _ _ _ _ _ _ Hp Hx) as [?|Hr]; [done|]. exfalso. unfold recorded in Hr.
    assert (existsb (is_record (or_kind r) (or_id r)) (o_records o') = true) as He; [|congruence].
    apply existsb_exists. exists r. split; [by apply list_elem_of_In|]. unfold is_record, same_kind.
    by rewrite bool_decide_true, String.eqb_refl.
  - unfold find_intent in *. rewrite find_first_None in *. unfold try_prune in Hp. inv_ok Hp. rewrite <- Hp.
    cbn [o_intents ops_intents]. rewrite Forall_forall in *. intros i Hi. apply Hx.
    apply list_elem_of_In in Hi. apply filter_In in Hi as [Hi _]. by apply list_elem_of_In.
Qed.

End facts.
