(* ===== verification/Wire.v ===== *)
(** * A concrete message encoding

    An instance of [Prost] that satisfies [ProstLaws], for evaluation: a
    message is the length-prefixed texts of its fields, in order. *)

From Stdlib Require Import SpecFloat.
From S2P Require Import Prelude RustStr BTree PlanCode Json F64 Jcs Calendar Text Store Proto OpsStore OpsFacts.

(** ** Field texts *)

Fixpoint encode_fields (l : list string) : string :=
  match l with
  | [] => ""
  | s :: rest => dec_string (len s) +:+ ":" +:+ s +:+ encode_fields rest
  end.

Fixpoint decode_fields (fuel : nat) (s : string) : option (list string) :=
  match fuel with
  | O => None
  | S fuel =>
      if is_empty s then Some []
      else match split_once ":" s with
      | Some (n, rest) =>
          match parse_digits n with
          | Some n => option_map (cons (slice_to (Z.to_nat n) rest)) (decode_fields fuel (slice_from (Z.to_nat n) rest))
          | None => None
          end
      | None => None
      end
  end.

Definition z_text (z : Z) : string := i64_text z.
Definition text_z (s : string) : option Z :=
  match strip_prefix "-" s with
  | Some r => option_map Z.opp (parse_digits r)
  | None => parse_digits s
  end.

Definition opt_text (o : option Z) : string := match o with Some z => z_text z | None => "" end.
Definition text_opt (s : string) : option (option Z) :=
  if is_empty s then Some None else option_map Some (text_z s).

Definition bool_text (b : bool) : string := if b then "1" else "0".
Definition text_bool (s : string) : option bool :=
  if String.eqb s "1" then Some true else if String.eqb s "0" then Some false else None.

Definition list_text (l : list string) : string := encode_fields l.
Definition text_list (s : string) : option (list string) := decode_fields (S (String.length s)) s.

(** ** Round trips *)

Lemma dec_string_digits n : 0 <= n -> parse_digits (dec_string n) = Some n /\ is_empty (dec_string n) = false /\
  all_bytes is_ascii_digit (dec_string n) = true.
Proof.
  intros Hn. destruct (dec_string_spec n Hn) as (Hv & Ha & Hne & _). split_and!; [|by apply String.eqb_neq|done].
  by rewrite parse_digits_some, Hv.
Qed.

Lemma digits_no_byte b s : is_ascii_digit b = false -> all_bytes is_ascii_digit s = true ->
  forall rest, split_once b (s +:+ String b rest) = Some (s, rest).
Proof.
  intros Hb. induction s as [|x s IH]; cbn [all_bytes]; intros Ha rest.
  - change (EmptyString +:+ String b rest) with (String b rest). cbn [split_once]. by rewrite Ascii.eqb_refl.
  - apply andb_true_iff in Ha as [Hx Hs]. change (String x s +:+ String b rest) with (String x (s +:+ String b rest)). cbn [split_once].
    destruct (Ascii.eqb_spec x b) as [->|]; [congruence|]. by rewrite (IH Hs rest).
Qed.

Lemma text_z_round z : text_z (z_text z) = Some z.
Proof.
  unfold text_z, z_text, i64_text. destruct (Z.ltb_spec z 0).
  - destruct (dec_string_digits (- z)) as (Hp & _ & _); [lia|].
    transitivity (option_map Z.opp (parse_digits (dec_string (- z)))); [reflexivity|]. rewrite Hp. cbn. f_equal. lia.
  - destruct (dec_string_digits z) as (Hp & He & Ha); [lia|]. destruct (dec_string z) as [|c r] eqn:Hd; [done|].
    cbn [strip_prefix]. destruct (Ascii.eqb_spec "-" c) as [<-|]; [done|]. exact Hp.
Qed.

Lemma text_opt_round o : text_opt (opt_text o) = Some o.
Proof.
  destruct o as [z|]; [|done]. unfold text_opt, opt_text. rewrite text_z_round.
  assert (is_empty (z_text z) = false) as ->; [|done]. unfold z_text, i64_text. destruct (Z.ltb_spec z 0); [done|].
  destruct (dec_string_digits z) as (_ & He & _); [lia|done].
Qed.

Lemma text_bool_round b : text_bool (bool_text b) = Some b.
Proof. by destruct b. Qed.

Lemma slice_to_app s r : slice_to (String.length s) (s +:+ r) = s.
Proof.
  induction s as [|x s IH]; [by destruct r|]. change (String x s +:+ r) with (String x (s +:+ r)).
  cbn [String.length slice_to]. by rewrite IH.
Qed.

Lemma slice_from_app s r : slice_from (String.length s) (s +:+ r) = r.
Proof.
  induction s as [|x s IH]; [by destruct r|]. change (String x s +:+ r) with (String x (s +:+ r)).
  cbn [String.length slice_from]. exact IH.
Qed.

Lemma decode_fields_round l fuel : (length l < fuel)%nat -> decode_fields fuel (encode_fields l) = Some l.
Proof.
  revert fuel; induction l as [|s l IH]; intros [|fuel] Hf; cbn [length] in Hf; try lia; [done|].
  cbn [encode_fields decode_fields]. assert (0 <= len s) as Hl by (unfold len; lia).
  destruct (dec_string_digits _ Hl) as (Hp & He & Ha).
  assert (is_empty (dec_string (len s) +:+ ":" +:+ s +:+ encode_fields l) = false) as -> by (by destruct (dec_string (len s))).
  change (":" +:+ s +:+ encode_fields l) with (String ":" (s +:+ encode_fields l)).
  rewrite digits_no_byte by done. rewrite Hp. unfold len. rewrite Nat2Z.id, slice_from_app, slice_to_app, IH by lia. done.
Qed.

Lemma encode_fields_length l : (length l <= String.length (encode_fields l))%nat.
Proof.
  induction l as [|s l IH]; [done|]. cbn [length encode_fields].
  rewrite !str_app_length. cbn [String.length]. lia.
Qed.

Lemma text_list_round l : text_list (list_text l) = Some l.
Proof. apply decode_fields_round. pose proof (encode_fields_length l). unfold list_text. lia. Qed.

(** ** Messages *)

Definition fields_codec {M} (to : M -> list string) (from : list string -> option M) : Codec M :=
  {| encode_to_vec := fun m => list_text (to m);
     decode := fun s => match text_list s with Some l => from l | None => None end |}.

Lemma fields_codec_round {M} (to : M -> list string) from :
  (forall m, from (to m) = Some m) -> round_trips (fields_codec to from).
Proof. intros H m. cbn [fields_codec encode_to_vec decode]. by rewrite text_list_round. Qed.

Definition cron_run_fields (r : CronRun) : list string :=
  [cr_id r; cr_cron_id r; z_text (cr_attempt r); z_text (cr_trigger r); z_text (cr_status r);
   opt_text (cr_scheduled_for r); opt_text (cr_started_at r); opt_text (cr_finished_at r); z_text (cr_exit_code r);
   cr_error r; z_text (cr_output_bytes r); cr_operation_id r; z_text (cr_missed_count r);
   opt_text (cr_next_retry_at r); cr_container_name r; cr_plan_id r; cr_runner_run_id r].

Definition cron_run_of (l : list string) : option CronRun :=
  match l with
  | [id; cron; attempt; trigger; status; scheduled; started; finished; exit_; error; bytes; op; missed; retry; name; plan; run] =>
      attempt ← text_z attempt; trigger ← text_z trigger; status ← text_z status;
      scheduled ← text_opt scheduled; started ← text_opt started; finished ← text_opt finished;
      exit_ ← text_z exit_; bytes ← text_z bytes; missed ← text_z missed; retry ← text_opt retry;
      Some {| cr_id := id; cr_cron_id := cron; cr_attempt := attempt; cr_trigger := trigger; cr_status := status;
              cr_scheduled_for := scheduled; cr_started_at := started; cr_finished_at := finished;
              cr_exit_code := exit_; cr_error := error; cr_output_bytes := bytes; cr_operation_id := op;
              cr_missed_count := missed; cr_next_retry_at := retry; cr_container_name := name;
              cr_plan_id := plan; cr_runner_run_id := run |}
  | _ => None
  end.

Definition delivery_fields (d : WebhookDelivery) : list string :=
  [wd_id d; opt_text (wd_received_at d); wd_provider d; wd_event d; wd_delivery_ref d; wd_repository d; wd_ref d;
   wd_commit_sha d; wd_project_id d; bool_text (wd_signature_valid d); z_text (wd_status d); wd_status_reason d;
   wd_standing_rule_id d; wd_operation_id d; z_text (wd_attempts d); opt_text (wd_processed_at d);
   wd_body_digest_hex d; z_text (wd_body_bytes d); opt_text (wd_verified_at d); bool_text (wd_consumed d);
   list_text (wd_consumed_by_plan_ids d); list_text (wd_consumed_by_rule_ids d); opt_text (wd_commit_time d);
   opt_text (wd_expires_at d); list_text (wd_environments d)].

Definition delivery_of (l : list string) : option WebhookDelivery :=
  match l with
  | [id; received; provider; event; dref; repo; ref; sha; project; valid; status; reason; rule; op; attempts;
     processed; digest; bytes; verified; consumed; plans; rules; committed; expires; environments] =>
      received ← text_opt received; valid ← text_bool valid; status ← text_z status; attempts ← text_z attempts;
      processed ← text_opt processed; bytes ← text_z bytes; verified ← text_opt verified;
      consumed ← text_bool consumed; plans ← text_list plans; rules ← text_list rules;
      committed ← text_opt committed; expires ← text_opt expires; environments ← text_list environments;
      Some {| wd_id := id; wd_received_at := received; wd_provider := provider; wd_event := event;
              wd_delivery_ref := dref; wd_repository := repo; wd_ref := ref; wd_commit_sha := sha;
              wd_project_id := project; wd_signature_valid := valid; wd_status := status;
              wd_status_reason := reason; wd_standing_rule_id := rule; wd_operation_id := op;
              wd_attempts := attempts; wd_processed_at := processed; wd_body_digest_hex := digest;
              wd_body_bytes := bytes; wd_verified_at := verified; wd_consumed := consumed;
              wd_consumed_by_plan_ids := plans; wd_consumed_by_rule_ids := rules; wd_commit_time := committed;
              wd_expires_at := expires; wd_environments := environments |}
  | _ => None
  end.

Definition build_fields (b : ServerBuild) : list string :=
  [sb_id b; sb_delivery_id b; sb_project_id b; sb_service_id b; sb_commit_sha b; sb_ref b; z_text (sb_status b);
   opt_text (sb_started_at b); opt_text (sb_finished_at b); sb_image_digest_hex b; sb_deployment_id b;
   sb_operation_id b; sb_standing_rule_id b; sb_error b; sb_platform b; sb_environment_id b;
   sb_failure_reason b; sb_runner_build_id b].

Definition build_of (l : list string) : option ServerBuild :=
  match l with
  | [id; delivery; project; service; sha; ref; status; started; finished; image; deployment; op; rule; error;
     platform; environment; reason; runner] =>
      status ← text_z status; started ← text_opt started; finished ← text_opt finished;
      Some {| sb_id := id; sb_delivery_id := delivery; sb_project_id := project; sb_service_id := service;
              sb_commit_sha := sha; sb_ref := ref; sb_status := status; sb_started_at := started;
              sb_finished_at := finished; sb_image_digest_hex := image; sb_deployment_id := deployment;
              sb_operation_id := op; sb_standing_rule_id := rule; sb_error := error; sb_platform := platform;
              sb_environment_id := environment; sb_failure_reason := reason; sb_runner_build_id := runner |}
  | _ => None
  end.

Definition backup_fields (r : BackupRun) : list string :=
  [br_id r; br_policy_id r; z_text (br_status r); z_text (br_trigger r); opt_text (br_started_at r);
   opt_text (br_finished_at r); z_text (br_size_bytes r); br_artifact_id r; br_error r; br_operation_id r;
   br_content_digest_hex r; br_runner_run_id r].

Definition backup_of (l : list string) : option BackupRun :=
  match l with
  | [id; policy; status; trigger; started; finished; size_; artifact_; error; op; digest; run] =>
      status ← text_z status; trigger ← text_z trigger; started ← text_opt started;
      finished ← text_opt finished; size_ ← text_z size_;
      Some {| br_id := id; br_policy_id := policy; br_status := status; br_trigger := trigger;
              br_started_at := started; br_finished_at := finished; br_size_bytes := size_;
              br_artifact_id := artifact_; br_error := error; br_operation_id := op;
              br_content_digest_hex := digest; br_runner_run_id := run |}
  | _ => None
  end.

Definition artifact_fields (a : BackupArtifact) : list string :=
  [ba_id a; ba_policy_id a; ba_run_id a; ba_location a; z_text (ba_size_bytes a); ba_content_digest_hex a;
   bool_text (ba_encrypted a); list_text (ba_age_recipients a); opt_text (ba_created_at a);
   opt_text (ba_expires_at a); z_text (ba_last_verification a)].

Definition artifact_of (l : list string) : option BackupArtifact :=
  match l with
  | [id; policy; run; location; size_; digest; encrypted; recipients; created; expires; last_] =>
      size_ ← text_z size_; encrypted ← text_bool encrypted; recipients ← text_list recipients;
      created ← text_opt created; expires ← text_opt expires; last_ ← text_z last_;
      Some {| ba_id := id; ba_policy_id := policy; ba_run_id := run; ba_location := location;
              ba_size_bytes := size_; ba_content_digest_hex := digest; ba_encrypted := encrypted;
              ba_age_recipients := recipients; ba_created_at := created; ba_expires_at := expires;
              ba_last_verification := last_ |}
  | _ => None
  end.

(** A list of records, each a list of texts. *)
Definition many_text {A} (f : A -> list string) (l : list A) : string := list_text (list_text ∘ f <$> l).
Definition text_many {A} (g : list string -> option A) (s : string) : option (list A) :=
  l ← text_list s; mapM (fun t => l ← text_list t; g l) l.

Lemma text_many_round {A} (f : A -> list string) g l :
  (forall a, g (f a) = Some a) -> text_many g (many_text f l) = Some l.
Proof.
  intros Hg. unfold text_many, many_text. rewrite text_list_round. cbn [mbind option_bind]. apply mapM_Some.
  induction l as [|a l IH]; [constructor|]. rewrite fmap_cons. constructor; [|exact IH].
  cbn [compose]. rewrite text_list_round. apply Hg.
Qed.

Definition check_fields (c : VerificationCheck) : list string := [vc_name c; bool_text (vc_passed c); vc_detail c].

Definition check_of (l : list string) : option VerificationCheck :=
  match l with
  | [name; passed; detail] =>
      passed ← text_bool passed; Some {| vc_name := name; vc_passed := passed; vc_detail := detail |}
  | _ => None
  end.

Lemma check_round c : check_of (check_fields c) = Some c.
Proof. destruct c as [name passed detail]. unfold check_of, check_fields. cbn. by rewrite text_bool_round. Qed.

Definition verification_fields (v : RestoreVerification) : list string :=
  [rv_id v; rv_policy_id v; rv_artifact_id v; z_text (rv_status v); opt_text (rv_started_at v);
   opt_text (rv_finished_at v); many_text check_fields (rv_checks v); rv_error v; z_text (rv_trigger v); rv_operation_id v;
   rv_runner_run_id v; rv_note v].

Definition verification_of (l : list string) : option RestoreVerification :=
  match l with
  | [id; policy; artifact_; status; started; finished; checks; error; trigger; op; run; note] =>
      status ← text_z status; started ← text_opt started; finished ← text_opt finished;
      checks ← text_many check_of checks; trigger ← text_z trigger;
      Some {| rv_id := id; rv_policy_id := policy; rv_artifact_id := artifact_; rv_status := status;
              rv_started_at := started; rv_finished_at := finished; rv_checks := checks; rv_error := error;
              rv_trigger := trigger; rv_operation_id := op; rv_runner_run_id := run; rv_note := note |}
  | _ => None
  end.

Definition f64_fields (x : f64) : list string :=
  match x with
  | S754_zero s => ["0"; bool_text s]
  | S754_infinity s => ["i"; bool_text s]
  | S754_nan => ["n"]
  | S754_finite s m e => ["f"; bool_text s; z_text (Zpos m); z_text e]
  end.

Definition f64_of_fields (l : list string) : option f64 :=
  match l with
  | ["n"] => Some S754_nan
  | ["0"; s] => S754_zero <$> text_bool s
  | ["i"; s] => S754_infinity <$> text_bool s
  | ["f"; s; m; e] =>
      s ← text_bool s; m ← text_z m; e ← text_z e;
      match m with Zpos m => Some (S754_finite s m e) | _ => None end
  | _ => None
  end.

Lemma f64_fields_round x : f64_of_fields (f64_fields x) = Some x.
Proof.
  destruct x; cbn -[text_bool bool_text text_z z_text]; rewrite ?text_bool_round; try done.
  cbn -[text_z z_text]. by rewrite !text_z_round.
Qed.

Definition result_fields (r : DeliveryResult) : list string :=
  [dr_channel_id r; bool_text (dr_ok r); z_text (dr_http_status r); dr_error r; opt_text (dr_attempted_at r);
   z_text (dr_attempts r)].

Definition result_of (l : list string) : option DeliveryResult :=
  match l with
  | [channel; ok; status; error; attempted; attempts] =>
      ok ← text_bool ok; status ← text_z status; attempted ← text_opt attempted; attempts ← text_z attempts;
      Some {| dr_channel_id := channel; dr_ok := ok; dr_http_status := status; dr_error := error;
              dr_attempted_at := attempted; dr_attempts := attempts |}
  | _ => None
  end.

Lemma result_round r : result_of (result_fields r) = Some r.
Proof.
  destruct r. unfold result_of, result_fields. cbn -[text_z z_text text_opt opt_text].
  by rewrite text_bool_round, !text_z_round, text_opt_round.
Qed.

Definition label_of (l : list string) : option (string * string) :=
  match l with [k; v] => Some (k, v) | _ => None end.

Definition label_fields (l : string * string) : list string := [l.1; l.2].

Lemma label_round l : label_of (label_fields l) = Some l.
Proof. by destruct l. Qed.

Definition event_fields (e : AlertEvent) : list string :=
  [ae_id e; ae_rule_id e; ae_rule_name e; z_text (ae_severity e); z_text (ae_state e); ae_summary e;
   many_text label_fields (ae_labels e); list_text (f64_fields (ae_value e)); opt_text (ae_started_at e);
   opt_text (ae_resolved_at e); many_text result_fields (ae_deliveries e); ae_cursor e; ae_source e; ae_subject_id e].

Definition event_of (l : list string) : option AlertEvent :=
  match l with
  | [id; rule; name; severity; state; summary; labels; value; started; resolved; deliveries; cursor; source; subject] =>
      severity ← text_z severity; state ← text_z state; labels ← text_many label_of labels;
      value ← text_list value; value ← f64_of_fields value; started ← text_opt started;
      resolved ← text_opt resolved; deliveries ← text_many result_of deliveries;
      Some {| ae_id := id; ae_rule_id := rule; ae_rule_name := name; ae_severity := severity; ae_state := state;
              ae_summary := summary; ae_labels := labels; ae_value := value; ae_started_at := started;
              ae_resolved_at := resolved; ae_deliveries := deliveries; ae_cursor := cursor; ae_source := source;
              ae_subject_id := subject |}
  | _ => None
  end.

Lemma event_round e : event_of (event_fields e) = Some e.
Proof.
  destruct e as [id rule name severity state summary labels value started resolved deliveries cursor source subject].
  unfold event_of, event_fields. cbn [ae_id ae_rule_id ae_rule_name ae_severity ae_state ae_summary ae_labels ae_value
    ae_started_at ae_resolved_at ae_deliveries ae_cursor ae_source ae_subject_id].
  rewrite !text_z_round. cbn [mbind option_bind]. rewrite (text_many_round label_fields label_of) by apply label_round.
  cbn [mbind option_bind]. rewrite text_list_round. cbn [mbind option_bind]. rewrite f64_fields_round.
  cbn [mbind option_bind]. rewrite !text_opt_round. cbn [mbind option_bind].
  by rewrite (text_many_round result_fields result_of) by apply result_round.
Qed.

Definition file_fields (f : StageFile) : list string := [sf_name f; z_text (sf_size_bytes f); sf_digest_hex f].

Definition file_of (l : list string) : option StageFile :=
  match l with
  | [name; size; digest] =>
      size ← text_z size; Some {| sf_name := name; sf_size_bytes := size; sf_digest_hex := digest |}
  | _ => None
  end.

Lemma file_round f : file_of (file_fields f) = Some f.
Proof. destruct f. unfold file_of, file_fields. cbn -[text_z z_text]. by rewrite text_z_round. Qed.

Definition staged_fields (s : StagedArtifactSet) : list string :=
  [st_stage_id s; st_bundle_manifest_digest_hex s; st_arch s; many_text file_fields (st_files s);
   opt_text (st_staged_at s); opt_text (st_expires_at s); bool_text (st_verified s); st_release_key_id s;
   list_text (st_components s)].

Definition staged_of (l : list string) : option StagedArtifactSet :=
  match l with
  | [id; digest; arch; files; staged; expires; verified; key; components] =>
      files ← text_many file_of files; staged ← text_opt staged; expires ← text_opt expires;
      verified ← text_bool verified; components ← text_list components;
      Some {| st_stage_id := id; st_bundle_manifest_digest_hex := digest; st_arch := arch; st_files := files;
              st_staged_at := staged; st_expires_at := expires; st_verified := verified; st_release_key_id := key;
              st_components := components |}
  | _ => None
  end.

Lemma staged_round s : staged_of (staged_fields s) = Some s.
Proof.
  destruct s as [id digest arch files staged expires verified key components]. unfold staged_of, staged_fields. cbn [st_stage_id st_bundle_manifest_digest_hex st_arch st_files st_staged_at
    st_expires_at st_verified st_release_key_id st_components].
  rewrite (text_many_round file_fields file_of) by apply file_round. cbn [mbind option_bind].
  rewrite !text_opt_round. cbn [mbind option_bind]. rewrite text_bool_round. cbn [mbind option_bind].
  by rewrite text_list_round.
Qed.

Definition wire : Prost := {|
  cron_run := fields_codec cron_run_fields cron_run_of;
  backup_run := fields_codec backup_fields backup_of;
  verification := fields_codec verification_fields verification_of;
  artifact := fields_codec artifact_fields artifact_of;
  alert_event := fields_codec event_fields event_of;
  webhook_delivery := fields_codec delivery_fields delivery_of;
  server_build := fields_codec build_fields build_of;
  staged_set := fields_codec staged_fields staged_of
|}.

Lemma text_checks_round l : text_many check_of (many_text check_fields l) = Some l.
Proof. apply text_many_round, check_round. Qed.

#[global] Instance wire_laws : @ProstLaws wire.
Proof.
  split; [..|intros m _; apply (fields_codec_round event_fields event_of event_round)| | |
    intros m; apply (fields_codec_round staged_fields staged_of staged_round)];
    apply fields_codec_round; intros [];
    cbn -[text_z z_text text_opt opt_text text_bool bool_text text_list list_text text_many many_text];
    repeat first [rewrite text_checks_round|rewrite text_z_round|rewrite text_opt_round|rewrite text_bool_round|rewrite text_list_round|
      progress cbn -[text_z z_text text_opt opt_text text_bool bool_text text_list list_text text_many many_text]]; reflexivity.
Qed.

(** SQLite's reading of a time stamp, on the form the agent writes. *)
Definition plain_time : SqliteTime := {| strftime_seconds := timestamp |}.
#[global] Instance plain_time_laws : @SqliteTimeLaws plain_time.
Proof. intros slot t H. exact H. Qed.
