(* ===== verification/Effects.v ===== *)
(** * Operations on a shared state

    An operation of a component is a function from the state it finds to its
    result and the state it leaves.  A preorder on states that each primitive
    effect keeps is kept by every operation made of them. *)

From S2P Require Import Prelude.

Definition st (S A : Type) : Type := S -> A * S.

Definition ret {S A} (a : A) : st S A := fun s => (a, s).
Definition bind {S A B} (m : st S A) (k : A -> st S B) : st S B := fun s => let '(a, s) := m s in k a s.
Definition asks {S A} (f : S -> A) : st S A := fun s => (f s, s).

Notation "'let!' x ':=' m 'in' k" := (bind m (fun x => k))
  (at level 10, x pattern, m at level 100, k at level 200).
Notation "'do!' m 'in' k" := (bind m (fun _ => k)) (at level 10, m at level 100, k at level 200).

(** An operation that returns an error ends its caller. *)
Definition try_bind {S E A B} (m : st S (outcome E A)) (k : A -> st S (outcome E B)) : st S (outcome E B) :=
  let! r := m in match r with Ok a => k a | Err e => ret (Err e) | Panic => ret Panic end.

Notation "'try!' x ':=' m 'in' k" := (try_bind m (fun x => k))
  (at level 10, x pattern, m at level 100, k at level 200).
Notation "'run!' m 'in' k" := (try_bind m (fun _ => k)) (at level 10, m at level 100, k at level 200).

(** A [for] loop. *)
Fixpoint mfor {S A} (f : A -> st S unit) (l : list A) : st S unit :=
  match l with
  | [] => ret tt
  | x :: rest => do! f x in mfor f rest
  end.

(** A loop that collects the result of each iteration. *)
Fixpoint mmap {S A B} (f : A -> st S B) (l : list A) : st S (list B) :=
  match l with
  | [] => ret []
  | x :: rest => let! y := f x in let! ys := mmap f rest in ret (y :: ys)
  end.

(** ** What operations keep *)

Definition keeps {S} (R : relation S) {A} (m : st S A) : Prop := forall s, R s (m s).2.

Section keeps.
Context {S : Type} {R : relation S} {HR : PreOrder R}.

Lemma keeps_ret {A} (a : A) : keeps R (ret a).
Proof. intros s. reflexivity. Qed.

Lemma keeps_asks {A} (f : S -> A) : keeps R (asks f).
Proof. intros s. reflexivity. Qed.

Lemma keeps_bind {A B} (m : st S A) (k : A -> st S B) :
  keeps R m -> (forall a, keeps R (k a)) -> keeps R (bind m k).
Proof. intros Hm Hk s. unfold bind. specialize (Hm s). destruct (m s) as [a s1]. etrans; [exact Hm|apply Hk]. Qed.

Lemma keeps_try {E A B} (m : st S (outcome E A)) (k : A -> st S (outcome E B)) :
  keeps R m -> (forall a, keeps R (k a)) -> keeps R (try_bind m k).
Proof. intros Hm Hk. apply keeps_bind; [done|]. intros []; [apply Hk|apply keeps_ret..]. Qed.

Lemma keeps_mfor {A} (f : A -> st S unit) l : (forall x, keeps R (f x)) -> keeps R (mfor f l).
Proof. intros Hf. induction l; cbn [mfor]; [apply keeps_ret|]. by apply keeps_bind. Qed.

Lemma keeps_mmap {A B} (f : A -> st S B) l : (forall x, keeps R (f x)) -> keeps R (mmap f l).
Proof.
  intros Hf. induction l; cbn [mmap]; [apply keeps_ret|]. apply keeps_bind; [done|]. intros y.
  apply keeps_bind; [done|]. intros ys. apply keeps_ret.
Qed.

End keeps.

(** One operation of a sequence, with its result in hand. *)
Lemma run_bind {S A B} (P : S -> Prop) (m : st S A) (k : A -> st S B) s :
  (forall a s1, m s = (a, s1) -> P (k a s1).2) -> P (bind m k s).2.
Proof. unfold bind. destruct (m s) as [a s1]. auto. Qed.

(** What an operation does from one state: its trace, read off by [t] and
    only extended, with its result and the state it leaves. *)
Section traces.
Context {S E : Type} (t : S -> list E).

Definition run_from {A} (s : S) (m : st S A) (P : list E -> A -> S -> Prop) : Prop :=
  exists es, t (m s).2 = t s ++ es /\ P es (m s).1 (m s).2.

Lemma run_ret {A} s (a : A) (P : list E -> A -> S -> Prop) : P [] a s -> run_from s (ret a) P.
Proof. intros H. exists []. by rewrite app_nil_r. Qed.

Lemma run_asks {A} s (f : S -> A) (P : list E -> A -> S -> Prop) : P [] (f s) s -> run_from s (asks f) P.
Proof. intros H. exists []. by rewrite app_nil_r. Qed.

Lemma run_then {A B} s (m : st S A) (k : A -> st S B) P Q :
  run_from s m P ->
  (forall es a s1, P es a s1 -> run_from s1 (k a) (fun es2 b s2 => Q (es ++ es2) b s2)) ->
  run_from s (bind m k) Q.
Proof.
  intros (es & Ht & HP) Hk. unfold run_from, bind in *. destruct (m s) as [a s1]. cbn [fst snd] in *.
  destruct (Hk es a s1 HP) as (es2 & Ht2 & HQ). exists (es ++ es2). by rewrite Ht2, Ht, app_assoc.
Qed.

Lemma run_weaken {A} s (m : st S A) (P Q : list E -> A -> S -> Prop) :
  run_from s m P -> (forall es a s1, P es a s1 -> Q es a s1) -> run_from s m Q.
Proof. intros (es & Ht & HP) H. exists es. auto. Qed.

(** Operations that leave the trace as it is. *)
Definition silent : relation S := fun s s1 => t s1 = t s.

#[global] Instance silent_preorder : PreOrder silent.
Proof. split; unfold silent; [intros s; done|intros a b c H1 H2; congruence]. Qed.

Lemma run_silent {A} s (m : st S A) : keeps silent m -> run_from s m (fun es _ _ => es = []).
Proof. intros H. exists []. rewrite app_nil_r. split; [apply H|done]. Qed.

Lemma run_skip {A B} s (m : st S A) (k : A -> st S B) Q :
  keeps silent m -> (forall a s1, run_from s1 (k a) Q) -> run_from s (bind m k) Q.
Proof.
  intros Hm Hk. eapply run_then; [by apply run_silent|]. intros es a s1 ->. cbn [app]. apply Hk.
Qed.

End traces.

(** ** Taking a run apart *)

Lemma bind_inv {S A B} (m : st S A) (k : A -> st S B) s b s' :
  bind m k s = (b, s') -> exists a s1, m s = (a, s1) /\ k a s1 = (b, s').
Proof. unfold bind. destruct (m s) as [a s1]. eauto. Qed.

Lemma ret_inv {S A} (a b : A) (s s' : S) : ret a s = (b, s') -> b = a /\ s' = s.
Proof. intros [= <- <-]. done. Qed.

Lemma try_inv {S E A B} (m : st S (outcome E A)) (k : A -> st S (outcome E B)) s b s' :
  try_bind m k s = (Ok b, s') -> exists a s1, m s = (Ok a, s1) /\ k a s1 = (Ok b, s').
Proof. unfold try_bind, bind. destruct (m s) as [[a|e|] s1]; [eauto|done..]. Qed.

Lemma keeps_eq {S} {R : relation S} {A} (m : st S A) s a s' : keeps R m -> m s = (a, s') -> R s s'.
Proof. intros H Hm. specialize (H s). by rewrite Hm in H. Qed.
