(* ===== verification/Runner.v ===== *)
(** * The runner client

    src/local/runner.rs: the requests of the agent to the root runner, how an
    answer is read from the connection, and what each op makes of it.  What
    the runner answers is the environment's: a connection is the bytes it
    sends and how it ends. *)

From S2P Require Import Prelude RustStr BTree PlanCode Json Jcs JsonRead Store Proto OpsStore.


Definition MAX_LINE_BYTES : Z := 4 * 1024 * 1024.
Definition MAX_REQUEST_BYTES : Z := 256 * 1024.
Definition MAX_LINES : nat := 4096.
Definition MAX_MESSAGE_CHARS : nat := 256.
Definition MAX_PROGRESS_LINES : Z := 256.
Definition TIMED_OUT : string := "runner timed out".

(** ** Failures *)

Record RunnerFailure := {
  rf_code : string; rf_message : string; rf_consumed_at : option string;
  rf_failure_code : option string; rf_state : option string
}.

Definition transport (message : string) : RunnerFailure :=
  {| rf_code := PlanCode.as_str PlanCode.Internal; rf_message := message; rf_consumed_at := None;
     rf_failure_code := None; rf_state := None |}.

Definition failure_plan_code (f : RunnerFailure) : PlanCode.t :=
  default PlanCode.Internal (PlanCode.parse (rf_code f)).

Definition bounded (text : string) : string := take_chars MAX_MESSAGE_CHARS text.

(** [value.as_str().filter(p)]. *)
Definition text_where (p : string -> bool) (v : Value) : option string :=
  match as_str v with Some s => if p s then Some s else None | None => None end.

Definition short (n : Z) (s : string) : bool := negb (is_empty s) && (len s <=? n).

Definition failure_of (result : Value) : RunnerFailure :=
  let error := result.["error"] in
  {| rf_code := default (PlanCode.as_str PlanCode.Internal) (text_where (short 64) error.["code"]);
     rf_message := bounded (default "runner refused the request" (as_str error.["message"]));
     rf_consumed_at := option_map bounded (match as_str error.["consumed_at"] with
                                           | Some t => Some t
                                           | None => as_str result.["consumed_at"]
                                           end);
     rf_failure_code := text_where (short 32) error.["failure_code"];
     rf_state := text_where (fun s => short 32 s
                   && all_bytes (fun b => is_ascii_lowercase b || Ascii.eqb b "_") s) result.["state"] |}.

(** A call's result: [Err] is a [RunnerFailure]. *)
Definition call_result (A : Type) : Type := outcome RunnerFailure A.

Definition ok_or_failure (result : Value) : call_result Value :=
  if eq_bool result.["ok"] true then Ok result else Err (failure_of result).

(** ** Reading an answer *)

Section lines.
Context {JR : JsonReader}.

(** A connection: the bytes still to come and whether a read error, instead
    of the end of the stream, follows them. *)
Record Stream := { sm_bytes : string; sm_broken : bool }.

Definition newline : ascii := "010".

(** [take(budget).read_until(b'\n')]: the bytes read, the rest, and whether
    the read ended before the stream did. *)
Fixpoint read_until (budget : Z) (s : string) : string * string * bool :=
  if budget <=? 0 then ("", s, true)
  else match s with
  | "" => ("", "", false)
  | String b rest =>
      if Ascii.eqb b newline then (String b "", rest, true)
      else let '(raw, rest, complete) := read_until (budget - 1) rest in (String b raw, rest, complete)
  end.

Definition raw_line (s : Stream) : call_result (option Value) * Stream :=
  let '(raw, rest, complete) := read_until (MAX_LINE_BYTES + 1) (sm_bytes s) in
  let s := {| sm_bytes := rest; sm_broken := sm_broken s |} in
  (if negb complete && sm_broken s then Err (transport "read from runner failed")
   else if is_empty raw then Ok None
   else if (MAX_LINE_BYTES <? len raw) || negb (bool_decide (last_byte raw = Some newline))
   then Err (transport "runner line too long or torn")
   else match from_slice raw with
   | None => Err (transport "runner returned invalid JSON")
   | Some value => Ok (Some value)
   end, s).

(** What [next] makes of one line: a progress line, or the result. *)
Inductive EventLine := Progress (line : Value) | Result (line : Value).

Definition event_line (op : string) (line : Value) : call_result EventLine :=
  if is_some_and (Json.get line "op") (fun v => negb (bool_decide (as_str v = Some op)))
  then Err (transport "runner answered another op")
  else if eq_str line.["type"] "progress" then Ok (Progress line)
  else if eq_str line.["type"] "result" then
    if is_boolean line.["ok"] then Ok (Result line) else Err (transport "runner result without ok")
  else Err (transport "runner returned an unknown line").

Definition next (op : string) (s : Stream) : call_result EventLine * Stream :=
  let '(line, s) := raw_line s in
  (let? line := line in
   match line with
   | None => Err (transport "runner closed without a result")
   | Some line => event_line op line
   end, s).

(** [drain]: [slow] when nothing arrives within the drain time. *)
Definition drain (slow : bool) (s : Stream) : call_result unit :=
  if slow then Ok tt
  else match (raw_line s).1 with
  | Ok (Some _) => Err (transport "runner sent a line after its result")
  | _ => Ok tt
  end.

Definition push_progress (progress : list string) (line : Value) : list string :=
  let text := str_or_default line.["message"] in
  if negb (is_empty text) && (lenl progress <? MAX_PROGRESS_LINES) then progress ++ [bounded text] else progress.

(** [answer]: [lines] more lines may be read. *)
Fixpoint answer (op : string) (slow : bool) (lines : nat) (progress : list string) (s : Stream)
    : call_result Value :=
  match lines with
  | O => Err (transport "runner sent too many lines")
  | S lines =>
      let '(event, s) := next op s in
      let? event := event in
      match event with
      | Result line => let? _ := drain slow s in set_field line "progress" (VArray (VString <$> progress))
      | Progress line => answer op slow lines (push_progress progress line) s
      end
  end.

(** ** The socket *)

(** What happens to one exchange: no connection, a failed write, an answer,
    or the caller's timeout first. *)
Inductive Connection :=
| Unreachable (error : string)
| WriteFailed
| Answered (stream : Stream) (slow : bool)
| Late.

Definition socket_exchange `{JsonWriter} (request : Value) (c : Connection) : call_result Value :=
  match c with
  | Unreachable error => Err (transport ("cannot reach the runner: " +:+ error))
  | Late => Err (transport TIMED_OUT)
  | WriteFailed =>
      Err (transport (if MAX_REQUEST_BYTES <? len (to_vec request) then "request line too long"
                      else "write to runner failed"))
  | Answered stream slow =>
      if MAX_REQUEST_BYTES <? len (to_vec request) then Err (transport "request line too long")
      else answer (str_or_default request.["op"]) slow MAX_LINES [] stream
  end.

End lines.

(** ** Ops *)

Definition plan_ref_json (p : PlanRef) : Value :=
  json_object [ ("plan_id", VString (pr_plan_id p)); ("plan_digest_hex", VString (pr_plan_digest_hex p));
                ("action_index", VNumber (PosInt (pr_action_index p))) ].

Definition empty_payload : Value := json_object [].

(** [json!({"op": op, "plan": plan.json(), "payload": {}})]. *)
Definition bound_request (op : string) (plan : PlanRef) : Value :=
  json_object [("op", VString op); ("plan", plan_ref_json plan); ("payload", empty_payload)].

Record Bound := { bo_kind : string; bo_consumed_at : string; bo_execution_deadline : string }.

Definition text_field (result : Value) (name : string) : string := default "" (option_map bounded (as_str result.[name])).

(** [bind_plan], given what the exchange answered. *)
Definition bind_plan (answered : call_result Value) : call_result Bound :=
  let? result := answered in
  let? result := ok_or_failure result in
  Ok {| bo_kind := text_field result "kind"; bo_consumed_at := text_field result "consumed_at";
        bo_execution_deadline := text_field result "execution_deadline" |}.

Record OpDone := { od_progress : list string; od_result : Value }.

Definition run_op (answered : call_result Value) : call_result OpDone :=
  let? result := answered in
  let? result := ok_or_failure result in
  Ok match result with
     | VObject m =>
         {| od_progress := match bget "progress" m with
                           | Some (VArray lines) => filter_map (fun l => option_map bounded (as_str l)) lines
                           | _ => []
                           end;
            od_result := VObject (bremove "progress" m) |}
     | _ => {| od_progress := []; od_result := result |}
     end.

Definition schedule_request (op : string) (s : ScheduleRef) : call_result Value :=
  let? binding := set_field (plan_ref_json (sr_plan s)) "scheduled_for" (VString (sr_scheduled_for s)) in
  let? binding := set_field binding "attempt" (VNumber (PosInt (sr_attempt s))) in
  Ok (json_object [("op", VString op); ("schedule", binding); ("payload", empty_payload)]).

Definition scheduled_answer (result : Value) : call_result Value :=
  match as_str result.["run_outcome"] with
  | None => ok_or_failure result
  | Some run_outcome =>
      let? result := set_field result "outcome" (VString (bounded run_outcome)) in
      if is_object result.["error"] then
        let failure := failure_of result in
        set_field result "error" (VString (rf_code failure +:+ ": " +:+ rf_message failure))
      else Ok result
  end.

Record Notification := {
  no_channel_id : string; no_text : string; no_event_id : string; no_payload_json : option string
}.

Definition notify_request (n : Notification) : Value :=
  json_object [ ("op", VString "notify_channel");
    ("payload", json_object ([ ("channel_id", VString (no_channel_id n)); ("text", VString (no_text n));
       ("event_id", VString (no_event_id n)) ]
       ++ match no_payload_json n with Some body => [("payload_json", VString body)] | None => [] end)) ].

Record NotifyResult := {
  nr_delivered : bool; nr_status_code : Z; nr_target_display : string; nr_error : string
}.

Definition notify_channel (answered : call_result Value) : call_result NotifyResult :=
  let? result := answered in
  let? result := ok_or_failure result in
  Ok {| nr_delivered := eq_bool result.["delivered"] true;
        nr_status_code := match as_i64 result.["status_code"] with
          | Some code => if in_range (- 2 ^ 31) (2 ^ 31 - 1) code then code else 0
          | None => 0
          end;
        nr_target_display := text_field result "target_display"; nr_error := text_field result "error" |}.

Definition bootstrap_request (envelope : string) : Value :=
  json_object [("op", VString "bootstrap_trust"); ("payload", json_object [("signed_plan", VString envelope)])].

Definition bootstrap_trust (answered : call_result Value) : call_result unit :=
  let? result := answered in
  let? _ := ok_or_failure result in Ok tt.

(** * What an answer of the runner is

    The reader of src/local/runner.rs accepts exactly the transcripts of the
    wire protocol: progress lines, then one result line, then nothing. *)

Section facts.
Context {JR : JsonReader}.

(** ** Lines *)

(** The first line of [bytes] is the document [v], and [rest] follows it. *)
Definition takes (bytes : string) (v : Value) (rest : string) : Prop :=
  exists raw, bytes = raw +:+ String newline rest /\ contains_byte newline raw = false /\
    len raw < MAX_LINE_BYTES /\ from_slice (raw +:+ String newline "") = Some v.

Lemma contains_byte_cons b c s : contains_byte b (String c s) = Ascii.eqb c b || contains_byte b s.
Proof. unfold contains_byte. cbn [all_bytes]. by destruct (Ascii.eqb c b). Qed.

(** A read that is not cut short by the budget or the end takes one line. *)
Lemma read_until_line budget s raw rest :
  last_byte raw = Some newline -> read_until budget s = (raw, rest, true) ->
  exists line, raw = line +:+ String newline "" /\ s = line +:+ String newline rest /\
    contains_byte newline line = false /\ len line < budget.
Proof.
  revert budget raw; induction s as [|b s IH]; intros budget raw Hlast Hr; cbn [read_until] in Hr.
  - destruct (budget <=? 0); by simplify_eq.
  - destruct (Z.leb_spec budget 0); [by simplify_eq|].
    destruct (Ascii.eqb_spec b newline) as [->|Hb].
    + simplify_eq. exists "". split_and!; [done|done|done|]. unfold len. simpl. lia.
    + destruct (read_until (budget - 1) s) as [[raw' rest'] c] eqn:Hr'. simplify_eq.
      assert (last_byte raw' = Some newline) as Hlast'.
      { destruct raw' as [|c0 raw']; [|done]. simpl in Hlast. congruence. }
      destruct (IH _ _ Hlast' Hr') as (line & -> & -> & Hc & Hl). exists (String b line). split_and!; [done|done| |].
      * rewrite contains_byte_cons, Hc. by destruct (Ascii.eqb_spec b newline).
      * unfold len in *. cbn [String.length]. lia.
Qed.

Lemma read_until_takes line rest budget :
  contains_byte newline line = false -> len line < budget ->
  read_until budget (line +:+ String newline rest) = (line +:+ String newline "", rest, true).
Proof.
  revert budget; induction line as [|b line IH]; intros budget Hc Hl; rewrite ?str_app_nil_l, ?str_app_cons; cbn [read_until].
  - destruct (Z.leb_spec budget 0); [unfold len in Hl; simpl in Hl; lia|]. by rewrite Ascii.eqb_refl.
  - rewrite contains_byte_cons in Hc. apply orb_false_iff in Hc as [Hb Hc].
    unfold len in Hl. cbn [String.length] in Hl.
    destruct (Z.leb_spec budget 0); [lia|]. rewrite Hb, IH; [done|done|]. unfold len. lia.
Qed.

Lemma last_byte_snoc s b : last_byte (s +:+ String b "") = Some b.
Proof. induction s as [|c s IH]; [done|]. rewrite str_app_cons. cbn [last_byte]. rewrite IH. by destruct s. Qed.

Lemma raw_line_takes s v s' :
  raw_line s = (Ok (Some v), s') <->
  takes (sm_bytes s) v (sm_bytes s') /\ sm_broken s' = sm_broken s.
Proof.
  unfold raw_line. split.
  - destruct (read_until _ _) as [[raw rest] complete] eqn:Hr. intros [= Hv <-]. cbn [sm_bytes sm_broken] in *.
    split; [|done]. destruct (negb complete && sm_broken s); [done|]. destruct (is_empty raw) eqn:He; [done|].
    destruct (_ || _) eqn:Hb; [done|]. apply orb_false_iff in Hb as [Hlen Hlast].
    apply Z.ltb_ge in Hlen. apply negb_false_iff, bool_decide_eq_true in Hlast.
    destruct (from_slice raw) as [v'|] eqn:Hj; [|done]. injection Hv as ->.
    destruct complete.
    + destruct (read_until_line _ _ _ _ Hlast Hr) as (line & -> & -> & Hc & Hl). exists line. split_and!; try done.
      unfold len in *. rewrite str_app_length in Hlen. cbn [String.length] in Hlen. lia.
    + exfalso. clear -Hr Hlast. revert raw rest Hr Hlast. generalize (MAX_LINE_BYTES + 1).
      induction (sm_bytes s) as [|b t IH]; intros budget raw rest Hr Hlast; cbn [read_until] in Hr.
      * destruct (budget <=? 0); by simplify_eq.
      * destruct (budget <=? 0); [done|]. destruct (Ascii.eqb_spec b newline); [done|].
        destruct (read_until (budget - 1) t) as [[raw' rest'] c] eqn:Hr'. simplify_eq.
        eapply IH; [exact Hr'|]. destruct raw'; [simpl in Hlast; congruence|done].
  - destruct s' as [rest broken]. cbn [sm_bytes sm_broken]. intros [(line & Hs & Hc & Hl & Hj) ->].
    rewrite Hs, read_until_takes by (done || lia). cbn [negb andb].
    replace (is_empty _) with false by (by destruct line). rewrite last_byte_snoc, bool_decide_true by done.
    rewrite Hj. destruct (Z.ltb_spec MAX_LINE_BYTES (len (line +:+ String newline ""))) as [Hgt|]; [|done].
    unfold len in *. rewrite str_app_length in Hgt. cbn [String.length] in Hgt. lia.
Qed.

(** ** Transcripts *)

(** The bytes of a whole answer to [op]: progress lines, the result line, and
    what follows it. *)
Inductive transcript (op : string) : string -> list Value -> Value -> string -> Prop :=
| tr_result bytes line rest :
    takes bytes line rest -> event_line op line = Ok (Result line) -> transcript op bytes [] line rest
| tr_progress bytes line more progress result rest :
    takes bytes line more -> event_line op line = Ok (Progress line) ->
    transcript op more progress result rest -> transcript op bytes (line :: progress) result rest.

Lemma event_line_same op line e :
  event_line op line = Ok e -> e = Progress line \/ e = Result line.
Proof. unfold event_line. repeat case_match; naive_solver. Qed.

Lemma drain_ok slow s :
  drain slow s = Ok tt <-> slow = true \/ forall v rest, ~ takes (sm_bytes s) v rest.
Proof.
  unfold drain. destruct slow; [naive_solver|]. split.
  - intros Hd. right. intros v rest Ht.
    assert (raw_line s = (Ok (Some v), {| sm_bytes := rest; sm_broken := sm_broken s |})) as Hr
      by by apply raw_line_takes. by rewrite Hr in Hd.
  - intros [?|Hn]; [done|]. destruct (raw_line s) as [r s'] eqn:Hr. cbn [fst].
    destruct r as [[v|]| |]; try done. apply raw_line_takes in Hr as [Ht _]. by destruct (Hn v (sm_bytes s')).
Qed.

Lemma next_line op s e s' :
  next op s = (Ok e, s') <->
  exists line, takes (sm_bytes s) line (sm_bytes s') /\ event_line op line = Ok e /\ sm_broken s' = sm_broken s.
Proof.
  unfold next. destruct (raw_line s) as [r s1] eqn:Hr. split.
  - intros [= Hn <-]. destruct r as [[line|]| |]; try done. apply raw_line_takes in Hr as [Ht Hb]. by exists line.
  - intros (line & Ht & He & Hb).
    assert (raw_line s = (Ok (Some line), s')) as Hr' by by apply raw_line_takes.
    rewrite Hr in Hr'. simplify_eq. cbn [obind]. by rewrite He.
Qed.

Lemma answer_transcript op slow n acc s v :
  answer op slow n acc s = Ok v <->
  exists progress line rest,
    transcript op (sm_bytes s) progress line rest /\ (length progress < n)%nat /\
    (slow = true \/ forall w more, ~ takes rest w more) /\
    set_field line "progress" (VArray (VString <$> fold_left push_progress progress acc)) = Ok (E := RunnerFailure) v.
Proof.
  revert acc s; induction n as [|n IH]; intros acc s; cbn [answer].
  { split; [done|]. intros (progress & ? & ? & ? & ? & ?). lia. }
  destruct (next op s) as [e s1] eqn:Hn. split.
  - destruct e as [e| |]; [|done..]. cbn [obind]. apply next_line in Hn as (line & Ht & He & Hb).
    destruct (event_line_same _ _ _ He) as [->| ->].
    + intros (progress & line' & rest & Htr & Hlen & Hd & Hv)%IH.
      exists (line :: progress), line', rest. split_and!; [by econstructor|simpl; lia|done|done].
    + destruct (drain slow s1) as [[]| |] eqn:Hd; [|done..]. cbn [obind]. intros Hv. apply drain_ok in Hd.
      exists [], line, (sm_bytes s1). split_and!; [by constructor|simpl; lia|done|done].
  - intros (progress & line & rest & Htr & Hlen & Hd & Hv). inversion Htr as [? ? ? Ht He|? l1 more pr ? ? Ht He Htr']; subst.
    + assert (next op s = (Ok (Result line), {| sm_bytes := rest; sm_broken := sm_broken s |})) as Hn'
        by (apply next_line; by exists line).
      rewrite Hn in Hn'. simplify_eq. cbn [obind]. by rewrite (proj2 (drain_ok slow {| sm_bytes := rest; sm_broken := sm_broken s |}) Hd).
    + assert (next op s = (Ok (Progress l1), {| sm_bytes := more; sm_broken := sm_broken s |})) as Hn'
        by (apply next_line; by exists l1).
      rewrite Hn in Hn'. simplify_eq. cbn [obind]. apply IH. exists pr, line, rest. cbn [sm_bytes].
      split_and!; [done|simpl in Hlen; lia|done|done].
Qed.

(** Only the first 256 messages are kept, each cut to 256 characters. *)
Definition messages (progress : list Value) : list string :=
  take 256 (bounded <$> List.filter (fun t => negb (is_empty t)) ((fun l => str_or_default l.["message"]) <$> progress)).

Lemma fold_push progress acc :
  (length acc <= 256)%nat ->
  fold_left push_progress progress acc =
  take 256 (acc ++ (bounded <$> List.filter (fun t => negb (is_empty t))
                      ((fun l => str_or_default l.["message"]) <$> progress))).
Proof.
  revert acc; induction progress as [|l progress IH]; intros acc Hacc; cbn [fold_left fmap list_fmap List.filter].
  { rewrite app_nil_r, take_ge; [done|lia]. }
  unfold push_progress at 2. destruct (negb (is_empty (str_or_default l.["message"]))); cbn [andb].
  - unfold lenl, MAX_PROGRESS_LINES. destruct (Z.ltb_spec (Z.of_nat (List.length acc)) 256).
    + rewrite IH by (rewrite length_app; simpl; lia). by rewrite <- app_assoc.
    + rewrite IH by done. rewrite !take_app_le by lia. done.
  - by apply IH.
Qed.


(** A refusal's texts are within their bounds. *)
Lemma failure_of_bounded result :
  let f := failure_of result in
  (0 < len (rf_code f) <= 64) /\
  (forall c, rf_failure_code f = Some c -> 0 < len c <= 32) /\
  (forall s, rf_state f = Some s -> 0 < len s <= 32).
Proof.
  assert (forall n s, short n s = true -> 0 < len s <= n) as Hshort.
  { intros n s H. unfold short in H. apply andb_true_iff in H as [He Hl]. apply Z.leb_le in Hl. split; [|done].
    destruct s; [done|]. unfold len. cbn [String.length]. lia. }
  assert (forall p v s, text_where p v = Some s -> p s = true) as Hw.
  { intros p v s. unfold text_where. destruct (as_str v); [|done]. destruct (p s0) eqn:?; naive_solver. }
  cbn zeta. refine (conj _ (conj _ _)).
  - unfold failure_of. cbn [rf_code]. destruct (text_where _ _) eqn:Ht.
    + apply Hw, Hshort in Ht. by destruct Ht.
    + vm_compute. split; [done|discriminate].
  - intros c Hc%Hw. by apply Hshort.
  - intros s [Hs _]%Hw%andb_true_iff. by apply Hshort.
Qed.

End facts.
