(* ===== verification/CronJobs.v ===== *)
(** * Cron jobs

    The parts of src/local/sched/cron.rs and src/local/sched/mod.rs without
    scheduler state: the jobs the recorded definitions put in force, retry
    backoff, the last fire time of a gap, the identity of a run in the
    runner's consumed log and what a runner answer makes of a run. *)

From S2P Require Import Prelude RustStr BTree PlanCode Json Jcs Calendar Text Trust Verify.
From S2P Require Import CronExpr Store DefinitionStore AdmissionStore Queries Proto OpsStore.
From S2P Require Import Runner.

Import Definitions.

(** The tz database of the jiff crate. *)
Class JiffDb `{Jiff} := { tz_utc : TimeZone; tz_get : string -> option TimeZone }.

(** ** sched/mod.rs *)

Definition DOWNTIME_SECONDS : Z := 120.

Definition rfc (seconds : Z) : string := format_timestamp seconds.
Definition parse_rfc (text : string) : option Z := timestamp text.

(** [random] is what the CSPRNG gives, [subsec_millis] the system clock's
    milliseconds within the second. *)
Definition new_id (random : list ascii) (subsec_millis now : Z) : string :=
  let ms := Z.min ((if 0 <=? now then now else 0) * 1000) u64_max + subsec_millis in
  new_uuid7 random (ms mod 2 ^ 64).

Definition runner_run_id_of (line : Value) : option string :=
  match as_str line.["run_id"] with
  | Some id => if uuid7 id then Some id else None
  | None => None
  end.

Definition run_line_matches (plan : PlanRef) (scheduled_for : option Z) (attempt : Z) (line : Value) : bool :=
  eq_str line.["plan_id"] (pr_plan_id plan)
  && eq_str line.["plan_digest_hex"] (pr_plan_digest_hex plan)
  && bool_decide (as_u64 line.["action_index"] = Some (pr_action_index plan))
  && bool_decide (as_u64 line.["attempt"] = Some attempt)
  && match line.["scheduled_for"] with
     | VNull => negb (is_some scheduled_for)
     | value => bool_decide (match as_str value with Some t => parse_rfc t | None => None end = scheduled_for)
     end.

(** The [for] loop over the matching lines: [None] at the first line without
    an id or with another id than the one found before. *)
Fixpoint same_run_id (found : option string) (lines : list Value) : option string :=
  match lines with
  | [] => found
  | line :: rest =>
      match runner_run_id_of line with
      | None => None
      | Some id => if is_some_and found (fun old => negb (String.eqb old id)) then None
                   else same_run_id (Some id) rest
      end
  end.

Definition find_runner_run_id (lines : list Value) (plan : PlanRef) (scheduled_for : option Z) (attempt : Z)
    : option string :=
  same_run_id None (select (run_line_matches plan scheduled_for attempt) lines).

(** src/admissions/reconcile.rs [event_lines] and [run_results], on the
    trusted lines of the consumed log (the rotated file's first) as JSON. *)
Definition event_lines (log : list Value) (event : string) : list Value :=
  select (fun line => bool_decide (line.["v"] = VNumber (PosInt 1)) && eq_str line.["event"] event) log.

Definition run_results (log : list Value) (op : string) : list Value :=
  select (fun line => eq_str line.["op"] op) (event_lines log "run_result").

Definition run_lines (log : list Value) (op : string) : list Value :=
  select (fun line => eq_str line.["op"] op) (event_lines log "run").

(** ** Definitions in force *)

Definition CRON_KINDS : list string :=
  ["cron.create"; "cron.update"; "cron.delete"; "cron.pause"; "cron.resume"; "cron.run"].
Definition MAX_RUNNING : Z := 8.
Definition MAX_ALLOWED_CHAINS : Z := 4.
Definition CHECKPOINT_KEY : string := "cron_checkpoint".
Definition CALL_MARGIN_SECONDS : Z := 60.
Definition MISSED_COUNT_LIMIT : Z := 100000.

Inductive Overlap := Skip | Queue | Allow.
#[global] Instance Overlap_eq_dec : EqDecision Overlap.
Proof. solve_decision. Defined.

Definition overlap_parse (text : string) : Overlap :=
  if String.eqb text "queue" then Queue else if String.eqb text "allow" then Allow else Skip.

(** [OverlapPolicy] of the protocol. *)
Definition overlap_proto (o : Overlap) : Z := match o with Skip => 1 | Allow => 2 | Queue => 3 end.

Section jobs.
Context {J : Jiff} {JD : JiffDb} {JR : JsonReader}.

Definition timezone (name : string) : option TimeZone :=
  if String.eqb name "UTC" then Some tz_utc else tz_get name.

Record JobDef := {
  jd_cron_id : string; jd_name : string; jd_scope : SignedScope; jd_service_id : string;
  jd_schedule_text : string; jd_schedule : option CronExpr; jd_timezone_name : string;
  jd_timezone : option TimeZone; jd_command : list string; jd_timeout_seconds : Z; jd_retries : Z;
  jd_overlap : Overlap; jd_heartbeat_alert : bool; jd_plan : PlanRef; jd_enabled : bool;
  jd_active_from : Z; jd_created_at : Z; jd_updated_at : Z
}.

Definition next_fire (job : JobDef) (after : Z) : option Z :=
  match jd_schedule job, jd_timezone job with
  | Some schedule, Some tz => next_after schedule tz (Z.max after (jd_active_from job))
  | _, _ => None
  end.

Definition applied_at (action : AdmittedAction) : Z :=
  default 0 (match match finished_at action with Some t => parse_rfc t | None => None end with
             | Some t => Some t
             | None => parse_rfc (admitted_at action)
             end).

Definition plan_ref (action : AdmittedAction) : PlanRef :=
  {| pr_plan_id := plan_id action; pr_plan_digest_hex := plan_digest_hex action;
     pr_action_index := if in_range 0 (2 ^ 32 - 1) (action_index action) then action_index action
                        else 2 ^ 32 - 1 |}.

(** [params[name].as_u64().and_then(|n| u32::try_from(n).ok()).unwrap_or_default()]. *)
Definition number_param (params : Value) (name : string) : Z :=
  match as_u64 params.[name] with Some n => if n <? 2 ^ 32 then n else 0 | None => 0 end.

Definition command_param (params : Value) : list string :=
  match as_array params.["command"] with Some argv => filter_map as_str argv | None => [] end.

(** The definition one [cron.create] or [cron.update] makes of the previous one. *)
Definition define_job (action : AdmittedAction) (cron_id : string) (previous : option JobDef) : JobDef :=
  let params := params action in
  let at_ := applied_at action in
  let text (name : string) := str_or_default params.[name] in
  {| jd_cron_id := cron_id; jd_name := text "name"; jd_scope := scope action;
     jd_service_id := text "service_id"; jd_schedule_text := text "schedule";
     jd_schedule := CronExpr.parse (text "schedule"); jd_timezone_name := text "timezone";
     jd_timezone := timezone (text "timezone"); jd_command := command_param params;
     jd_timeout_seconds := number_param params "timeout_seconds"; jd_retries := number_param params "retries";
     jd_overlap := overlap_parse (text "overlap"); jd_heartbeat_alert := eq_bool params.["heartbeat_alert"] true;
     jd_plan := plan_ref action; jd_enabled := is_none_or previous jd_enabled; jd_active_from := at_;
     jd_created_at := match previous with Some job => jd_created_at job | None => at_ end;
     jd_updated_at := at_ |}.

Definition set_enabled (job : JobDef) (enabled : bool) (active_from updated_at : Z) : JobDef :=
  {| jd_cron_id := jd_cron_id job; jd_name := jd_name job; jd_scope := jd_scope job;
     jd_service_id := jd_service_id job; jd_schedule_text := jd_schedule_text job;
     jd_schedule := jd_schedule job; jd_timezone_name := jd_timezone_name job;
     jd_timezone := jd_timezone job; jd_command := jd_command job;
     jd_timeout_seconds := jd_timeout_seconds job; jd_retries := jd_retries job;
     jd_overlap := jd_overlap job; jd_heartbeat_alert := jd_heartbeat_alert job; jd_plan := jd_plan job;
     jd_enabled := enabled; jd_active_from := active_from; jd_created_at := jd_created_at job;
     jd_updated_at := updated_at |}.

(** One round of the loop of [load_jobs]. *)
Definition load_job (jobs : bmap JobDef) (action : AdmittedAction) : bmap JobDef :=
  match as_str (params action).["cron_id"] with
  | None => jobs
  | Some cron_id =>
      let at_ := applied_at action in
      let previous := bget cron_id jobs in
      if contains_str ["cron.create"; "cron.update"] (kind action) then
        if is_some_and previous (fun job => negb (bool_decide (jd_scope job = scope action))) then jobs
        else binsert cron_id (define_job action cron_id previous) jobs
      else if String.eqb (kind action) "cron.delete" then bremove cron_id jobs
      else if String.eqb (kind action) "cron.pause" then
        match previous with
        | Some job => binsert cron_id (set_enabled job false (jd_active_from job) at_) jobs
        | None => jobs
        end
      else if String.eqb (kind action) "cron.resume" then
        match previous with
        | Some job => binsert cron_id (set_enabled job true (Z.max (jd_active_from job) at_) at_) jobs
        | None => jobs
        end
      else jobs
  end.

(** The newest action is first in [actions]. *)
Definition load_jobs (actions : list AdmittedAction) : bmap JobDef :=
  fold_left load_job (select succeeded (rev actions)) [].

(** [10i64 << exponent] with the exponent at most 10. *)
Definition backoff (attempt : Z) : Z :=
  Z.min (Z.shiftl 10 (Z.min (Z.max (attempt - 1) 0) 10)) 600.

(** [latest_before]: one fire time per round, [fuel] rounds left. *)
Fixpoint latest_before (fuel : nat) (schedule : CronExpr) (tz : TimeZone) (latest now : Z) : Z :=
  match fuel with
  | O => latest
  | S fuel =>
      match next_after schedule tz latest with
      | Some next => if now <? next then latest else latest_before fuel schedule tz next now
      | None => latest
      end
  end.

(** ** Runs *)

Definition manual_run (id : string) (action : AdmittedAction) : CronRun :=
  {| cr_id := id; cr_cron_id := str_or_default (params action).["cron_id"]; cr_attempt := 1;
     cr_trigger := CronTrigger.Manual; cr_status := CronRunStatus.Pending; cr_scheduled_for := None;
     cr_started_at := parse_rfc (admitted_at action); cr_finished_at := None; cr_exit_code := 0;
     cr_error := ""; cr_output_bytes := 0; cr_operation_id := operation_id action; cr_missed_count := 0;
     cr_next_retry_at := None; cr_container_name := ""; cr_plan_id := plan_id action;
     cr_runner_run_id := "" |}.

Definition is_final (status : Z) : bool :=
  negb ((status =? CronRunStatus.Pending) || (status =? CronRunStatus.Running)).

Definition status_word (status : Z) : string :=
  if status =? CronRunStatus.Succeeded then "succeeded"
  else if status =? CronRunStatus.Failed then "failed"
  else if status =? CronRunStatus.TimedOut then "timed out"
  else if status =? CronRunStatus.Cancelled then "cancelled"
  else if status =? CronRunStatus.SkippedOverlap then "skipped"
  else if status =? CronRunStatus.Missed then "missed"
  else "ended".

Definition run_status (run : CronRun) (status : Z) : CronRun :=
  {| cr_id := cr_id run; cr_cron_id := cr_cron_id run; cr_attempt := cr_attempt run;
     cr_trigger := cr_trigger run; cr_status := status; cr_scheduled_for := cr_scheduled_for run;
     cr_started_at := cr_started_at run; cr_finished_at := cr_finished_at run;
     cr_exit_code := cr_exit_code run; cr_error := cr_error run; cr_output_bytes := cr_output_bytes run;
     cr_operation_id := cr_operation_id run; cr_missed_count := cr_missed_count run;
     cr_next_retry_at := cr_next_retry_at run; cr_container_name := cr_container_name run;
     cr_plan_id := cr_plan_id run; cr_runner_run_id := cr_runner_run_id run |}.

Definition run_started (run : CronRun) (t : Z) : CronRun :=
  {| cr_id := cr_id run; cr_cron_id := cr_cron_id run; cr_attempt := cr_attempt run;
     cr_trigger := cr_trigger run; cr_status := cr_status run; cr_scheduled_for := cr_scheduled_for run;
     cr_started_at := Some t; cr_finished_at := cr_finished_at run;
     cr_exit_code := cr_exit_code run; cr_error := cr_error run; cr_output_bytes := cr_output_bytes run;
     cr_operation_id := cr_operation_id run; cr_missed_count := cr_missed_count run;
     cr_next_retry_at := cr_next_retry_at run; cr_container_name := cr_container_name run;
     cr_plan_id := cr_plan_id run; cr_runner_run_id := cr_runner_run_id run |}.

Definition run_finished (run : CronRun) (t : Z) (error : string) : CronRun :=
  {| cr_id := cr_id run; cr_cron_id := cr_cron_id run; cr_attempt := cr_attempt run;
     cr_trigger := cr_trigger run; cr_status := cr_status run; cr_scheduled_for := cr_scheduled_for run;
     cr_started_at := cr_started_at run; cr_finished_at := Some t;
     cr_exit_code := cr_exit_code run; cr_error := error; cr_output_bytes := cr_output_bytes run;
     cr_operation_id := cr_operation_id run; cr_missed_count := cr_missed_count run;
     cr_next_retry_at := cr_next_retry_at run; cr_container_name := cr_container_name run;
     cr_plan_id := cr_plan_id run; cr_runner_run_id := cr_runner_run_id run |}.

Definition run_error (run : CronRun) (error : string) : CronRun :=
  {| cr_id := cr_id run; cr_cron_id := cr_cron_id run; cr_attempt := cr_attempt run;
     cr_trigger := cr_trigger run; cr_status := cr_status run; cr_scheduled_for := cr_scheduled_for run;
     cr_started_at := cr_started_at run; cr_finished_at := cr_finished_at run;
     cr_exit_code := cr_exit_code run; cr_error := error; cr_output_bytes := cr_output_bytes run;
     cr_operation_id := cr_operation_id run; cr_missed_count := cr_missed_count run;
     cr_next_retry_at := cr_next_retry_at run; cr_container_name := cr_container_name run;
     cr_plan_id := cr_plan_id run; cr_runner_run_id := cr_runner_run_id run |}.

Definition run_retry_at (run : CronRun) (t : Z) : CronRun :=
  {| cr_id := cr_id run; cr_cron_id := cr_cron_id run; cr_attempt := cr_attempt run;
     cr_trigger := cr_trigger run; cr_status := cr_status run; cr_scheduled_for := cr_scheduled_for run;
     cr_started_at := cr_started_at run; cr_finished_at := cr_finished_at run;
     cr_exit_code := cr_exit_code run; cr_error := cr_error run; cr_output_bytes := cr_output_bytes run;
     cr_operation_id := cr_operation_id run; cr_missed_count := cr_missed_count run;
     cr_next_retry_at := Some t; cr_container_name := cr_container_name run;
     cr_plan_id := cr_plan_id run; cr_runner_run_id := cr_runner_run_id run |}.

Definition run_runner_id (run : CronRun) (id : string) : CronRun :=
  {| cr_id := cr_id run; cr_cron_id := cr_cron_id run; cr_attempt := cr_attempt run;
     cr_trigger := cr_trigger run; cr_status := cr_status run; cr_scheduled_for := cr_scheduled_for run;
     cr_started_at := cr_started_at run; cr_finished_at := cr_finished_at run;
     cr_exit_code := cr_exit_code run; cr_error := cr_error run; cr_output_bytes := cr_output_bytes run;
     cr_operation_id := cr_operation_id run; cr_missed_count := cr_missed_count run;
     cr_next_retry_at := cr_next_retry_at run; cr_container_name := cr_container_name run;
     cr_plan_id := cr_plan_id run; cr_runner_run_id := id |}.

Definition status_of_outcome (outcome : string) : Z * bool :=
  if String.eqb outcome "succeeded" then (CronRunStatus.Succeeded, false)
  else if String.eqb outcome "failed" then (CronRunStatus.Failed, true)
  else if String.eqb outcome "timeout" then (CronRunStatus.TimedOut, true)
  else if String.eqb outcome "cancelled" then (CronRunStatus.Cancelled, false)
  else if String.eqb outcome "skipped" then (CronRunStatus.SkippedOverlap, false)
  else (CronRunStatus.Failed, false).

(** The run an answer leaves and whether a retry may follow. *)
Definition apply_result (run : CronRun) (result : RunnerFailure + Value) : CronRun * bool :=
  match result with
  | inr answer =>
      let '(status, retryable) := status_of_outcome (default "succeeded" (as_str answer.["outcome"])) in
      ({| cr_id := cr_id run; cr_cron_id := cr_cron_id run; cr_attempt := cr_attempt run;
          cr_trigger := cr_trigger run; cr_status := status; cr_scheduled_for := cr_scheduled_for run;
          cr_started_at := cr_started_at run; cr_finished_at := cr_finished_at run;
          cr_exit_code := match as_i64 answer.["exit_code"] with
                          | Some code => if in_range (- 2 ^ 31) (2 ^ 31 - 1) code then code else 0
                          | None => 0
                          end;
          cr_error := cr_error run; cr_output_bytes := default 0 (as_u64 answer.["output_bytes"]);
          cr_operation_id := cr_operation_id run; cr_missed_count := cr_missed_count run;
          cr_next_retry_at := cr_next_retry_at run;
          cr_container_name := match as_str answer.["container_name"] with
                               | Some name => take_chars 128 name
                               | None => cr_container_name run
                               end;
          cr_plan_id := cr_plan_id run;
          cr_runner_run_id := default (cr_runner_run_id run) (runner_run_id_of answer) |}, retryable)
  | inl failure =>
      (run_error (run_status run CronRunStatus.Failed) (rf_code failure +:+ ": " +:+ rf_message failure), false)
  end.

End jobs.

(** * Theorems about cron jobs

    A job in force is its latest recorded definition; catching up after
    downtime accounts for every fire time; retries back off between ten
    seconds and ten minutes; and a runner id comes from lines that name
    exactly the attempt. *)

Import Definitions.

Section facts.
Context {J : Jiff} {JD : JiffDb} {JR : JsonReader}.

(** ** Definitions in force *)

Definition about (cron_id : string) (a : AdmittedAction) : Prop := as_str (params a).["cron_id"] = Some cron_id.
Definition defines (a : AdmittedAction) : bool := contains_str ["cron.create"; "cron.update"] (kind a).

(** What the job takes from the definition [a]. *)
Definition from_definition (a : AdmittedAction) (job : JobDef) : Prop :=
  jd_plan job = plan_ref a /\ jd_scope job = scope a /\
  jd_schedule job = CronExpr.parse (str_or_default (params a).["schedule"]) /\
  jd_timezone job = timezone (str_or_default (params a).["timezone"]) /\
  jd_command job = command_param (params a) /\
  jd_timeout_seconds job = number_param (params a) "timeout_seconds" /\
  jd_retries job = number_param (params a) "retries" /\
  jd_overlap job = overlap_parse (str_or_default (params a).["overlap"]) /\
  applied_at a <= jd_active_from job.

(** Nothing in [later] replaces or deletes the job that [a] defines. *)
Definition stands (cron_id : string) (a : AdmittedAction) (later : list AdmittedAction) : Prop :=
  Forall (fun b => about cron_id b -> kind b <> "cron.delete" /\ (defines b = true -> scope b <> scope a)) later.

Definition in_force (cron_id : string) (history : list AdmittedAction) (job : JobDef) : Prop :=
  exists earlier a later, history = earlier ++ a :: later /\ about cron_id a /\ defines a = true /\
    from_definition a job /\ stands cron_id a later.

Lemma stands_snoc cron_id a later b : stands cron_id a later ->
  (about cron_id b -> kind b <> "cron.delete" /\ (defines b = true -> scope b <> scope a)) ->
  stands cron_id a (later ++ [b]).
Proof. intros Hs Hb. apply Forall_app. split; [done|]. by constructor. Qed.

Lemma in_force_snoc cron_id history b job :
  in_force cron_id history job ->
  (about cron_id b -> kind b <> "cron.delete" /\ (defines b = true -> scope b <> jd_scope job)) ->
  in_force cron_id (history ++ [b]) job.
Proof.
  intros (e & a & l & -> & Ha & Hd & Hf & Hs) Hb. exists e, a, (l ++ [b]). rewrite <- app_assoc. split_and!; try done.
  apply stands_snoc; [done|]. destruct Hf as (_ & <- & _). done.
Qed.

Lemma from_definition_enabled a job enabled active_from updated_at : jd_active_from job <= active_from ->
  from_definition a job -> from_definition a (set_enabled job enabled active_from updated_at).
Proof. unfold from_definition, set_enabled. cbn. intuition lia. Qed.

Lemma in_force_enabled cron_id history job enabled active_from updated_at : jd_active_from job <= active_from ->
  in_force cron_id history job -> in_force cron_id history (set_enabled job enabled active_from updated_at).
Proof.
  intros Hle (e & a & l & -> & Ha & Hd & Hf & Hs). exists e, a, l. split_and!; try done. by apply from_definition_enabled.
Qed.

(** The loop invariant of [load_jobs]. *)
Definition all_in_force (history : list AdmittedAction) (jobs : bmap JobDef) : Prop :=
  bsorted jobs /\ forall cron_id job, bget cron_id jobs = Some job -> in_force cron_id history job.

Lemma define_in_force history b cron_id previous : about cron_id b -> defines b = true ->
  in_force cron_id (history ++ [b]) (define_job b cron_id previous).
Proof.
  intros Hb Hd. exists history, b, []. unfold from_definition, define_job, stands. cbn.
  split_and!; done || lia || constructor.
Qed.

Lemma pause_in_force cron_id history b job enabled active_from updated_at :
  String.eqb (kind b) "cron.delete" = false -> defines b = false -> jd_active_from job <= active_from ->
  in_force cron_id history job -> in_force cron_id (history ++ [b]) (set_enabled job enabled active_from updated_at).
Proof.
  intros Hk Hd Hle Hf. apply in_force_snoc; [by apply in_force_enabled|]. intros _. split; [by apply String.eqb_neq|].
  by rewrite Hd.
Qed.

Lemma load_job_in_force history jobs b : all_in_force history jobs -> all_in_force (history ++ [b]) (load_job jobs b).
Proof.
  intros [Hsort Hall].
  (* the other jobs, and this one where nothing is done *)
  assert (forall id job, bget id jobs = Some job ->
    (about id b -> kind b <> "cron.delete" /\ (defines b = true -> scope b <> jd_scope job)) ->
    in_force id (history ++ [b]) job) as Hkeep by (intros id job Hj Hb; apply in_force_snoc; auto).
  unfold load_job. destruct (as_str _) as [cid|] eqn:Hc.
  2:{ split; [done|]. intros id job Hj. apply Hkeep; [done|]. unfold about. by rewrite Hc. }
  assert (forall id, id <> cid -> ~ about id b) as Hother by (unfold about; intros id Hne; rewrite Hc; congruence).
  destruct (contains_str _ _) eqn:Hdef.
  - change (contains_str _ _) with (defines b) in Hdef. destruct (is_some_and _ _) eqn:Hscope.
    { apply is_some_and_true in Hscope as (old & Hold & Hne). split; [done|]. intros id job Hj. apply Hkeep; [done|].
      intros Hab. unfold about in Hab. rewrite Hc in Hab. injection Hab as <-. rewrite Hold in Hj. injection Hj as <-.
      apply negb_true_iff, bool_decide_eq_false in Hne. split; [|intros _; congruence].
      intros Hk. unfold defines in Hdef. rewrite Hk in Hdef. by vm_compute in Hdef. }
    split; [by apply binsert_sorted|]. intros id job. rewrite bget_insert. destruct (String.eqb_spec id cid) as [->|Hne].
    + intros [= <-]. by apply define_in_force.
    + intros Hj. apply Hkeep; [done|]. intros Hab. by destruct (Hother _ Hne).
  - change (contains_str _ _) with (defines b) in Hdef.
    destruct (String.eqb (kind b) "cron.delete") eqn:Hk.
    { split; [by apply bremove_sorted|]. intros id job. rewrite bget_remove by done.
      destruct (String.eqb_spec id cid) as [->|Hne]; [done|]. intros Hj. apply Hkeep; [done|]. intros Hab. by destruct (Hother _ Hne). }
    assert (forall id job, bget id jobs = Some job -> in_force id (history ++ [b]) job) as Hsame.
    { intros id job Hj. apply Hkeep; [done|]. intros _. split; [by apply String.eqb_neq|by rewrite Hdef]. }
    destruct (String.eqb (kind b) "cron.pause"); [|destruct (String.eqb (kind b) "cron.resume")]; [..|by split].
    all: destruct (bget cid jobs) as [old|] eqn:Hold; [|by split]; split; [by apply binsert_sorted|].
    all: intros id job; rewrite bget_insert; destruct (String.eqb_spec id cid) as [->|Hne]; [intros [= <-]|by apply Hsame].
    all: apply pause_in_force; [done|done|lia|by apply Hall].
Qed.

Lemma load_jobs_fold history done_ jobs : all_in_force done_ jobs ->
  all_in_force (done_ ++ history) (fold_left load_job history jobs).
Proof.
  revert done_ jobs; induction history as [|b history IH]; intros done_ jobs Hj; cbn [fold_left]; [by rewrite app_nil_r|].
  replace (done_ ++ b :: history) with ((done_ ++ [b]) ++ history) by (by rewrite <- app_assoc).
  apply IH. by apply load_job_in_force.
Qed.

(** The job the scheduler runs under a [cron_id] is the one a recorded
    [cron.create] or [cron.update] of that id defines (plan, scope, schedule,
    command, limits), no recorded later action deleted it or replaced it in
    its scope, and it fires only after that definition took effect. *)
Theorem job_in_force actions cron_id job : bget cron_id (load_jobs actions) = Some job ->
  in_force cron_id (select succeeded (rev actions)) job.
Proof.
  assert (all_in_force [] []) as H0 by (split; [constructor|done]).
  apply (load_jobs_fold (select succeeded (rev actions))) in H0 as [_ H]. apply H.
Qed.

(** ** Catching up *)

Lemma latest_before_fires fuel schedule tz latest now : latest <= now -> now - latest <= Z.of_nat fuel ->
  exists l, fires schedule tz latest l (latest_before fuel schedule tz latest now) /\
    Forall (fun t => t <= now) l /\ latest_before fuel schedule tz latest now <= now /\
    (next_after schedule tz (latest_before fuel schedule tz latest now) = None \/
     exists t, next_after schedule tz (latest_before fuel schedule tz latest now) = Some t /\ now < t).
Proof.
  revert latest; induction fuel as [|fuel IH]; intros latest Hle Hf; cbn [latest_before].
  { exists []. split_and!; [constructor|constructor|done|].
    destruct (next_after schedule tz latest) as [t|] eqn:Hn; [right|by left]. exists t. split; [done|].
    apply next_after_later in Hn. lia. }
  destruct (next_after schedule tz latest) as [next|] eqn:Hn.
  2:{ exists []. split_and!; [constructor|constructor|done|by left]. }
  destruct (Z.ltb_spec now next).
  { exists []. split_and!; [constructor|constructor|done|]. right. eauto. }
  pose proof (next_after_later _ _ _ _ Hn). destruct (IH next) as (l & Hl & Hall & Hle2 & Hend); [lia|lia|].
  exists (next :: l). split_and!; [by econstructor|by constructor|done|done].
Qed.

(** Two maximal walks from the same place are the same. *)
Definition walk_ends (e : CronExpr) (tz : TimeZone) (now last : Z) : Prop :=
  next_after e tz last = None \/ exists t, next_after e tz last = Some t /\ now < t.

Lemma fires_unique e tz now c l last l' last' :
  fires e tz c l last -> Forall (fun t => t <= now) l -> walk_ends e tz now last ->
  fires e tz c l' last' -> Forall (fun t => t <= now) l' -> walk_ends e tz now last' -> l = l' /\ last = last'.
Proof.
  intros Hf. revert l' last'. induction Hf as [c|c next l last Hn Hf IH]; intros l' last' Ha He Hf' Ha' He'.
  - inversion Hf' as [|? next' l2 ? Hn' Hf2]; subst; [done|]. exfalso. inversion Ha'; subst.
    destruct He as [He|(t & He & Ht)]; rewrite Hn' in He; [done|]. injection He as <-. lia.
  - inversion Ha; subst. inversion Hf' as [|? next' l2 ? Hn' Hf2]; subst.
    + exfalso. destruct He' as [He'|(t & He' & Ht)]; rewrite Hn in He'; [done|]. injection He' as <-. lia.
    + rewrite Hn in Hn'. injection Hn' as <-. inversion Ha'; subst. destruct (IH l2 last') as [-> ->]; auto.
Qed.

Lemma fires_cons_inv e tz c next l last : fires e tz c (next :: l) last -> fires e tz next l last.
Proof. by inversion 1. Qed.

Lemma catch_up limit schedule tz from now first rest count : 0 <= limit ->
  fire_times schedule tz from now 1 limit = (first :: rest, count) -> count < limit ->
  let latest := latest_before (Z.to_nat (now - first)) schedule tz first now in
  exists l, fires schedule tz from (first :: l) latest /\ count = lenl (first :: l) /\
    StronglySorted Z.lt (first :: l) /\ Forall (fun t => from < t <= now) (first :: l) /\
    walk_ends schedule tz now latest.
Proof.
  intros Hlim Hft Hlt. cbv zeta. unfold fire_times in Hft.
  apply fire_loop_fires in Hft as (l & last & Hfi & Hcount & _ & Hall & Hout & Hend); [|lia|reflexivity|lia].
  destruct l as [|f l]; [discriminate|]. cbn in Hout. injection Hout as <- _.
  destruct (fires_sorted _ _ _ _ _ Hfi) as (Hs & Hgt & _). apply fires_cons_inv in Hfi as Hfi2.
  pose proof Hall as Hall2. apply Forall_cons in Hall2 as [Hfirst Hl].
  destruct (latest_before_fires (Z.to_nat (now - first)) schedule tz first now) as (l2 & Hl2 & Ha2 & _ & He2); [lia|lia|].
  revert Hl2 He2. generalize (latest_before (Z.to_nat (now - first)) schedule tz first now). intros latest Hl2 He2.
  assert (walk_ends schedule tz now last) as Hend2 by (apply Hend; lia).
  destruct (fires_unique schedule tz now first l last l2 latest Hfi2 Hl Hend2 Hl2 Ha2 He2) as [Hll Hla].
  rewrite <- Hla, <- Hll in *. exists l. split_and!; [assumption|lia|assumption| |assumption].
  rewrite Forall_forall in *. intros t Ht. split; [by apply Hgt|by apply Hall].
Qed.

(** Catching up after downtime accounts for every fire time of the gap:
    the list has them all, the count is their number, the fire time that may
    run late is the last of them, and no later one is due.  (The search for
    it ends after at most one round per second.) *)
Theorem catch_up_complete schedule tz from now first rest count :
  fire_times schedule tz from now 1 MISSED_COUNT_LIMIT = (first :: rest, count) -> count < MISSED_COUNT_LIMIT ->
  let latest := latest_before (Z.to_nat (now - first)) schedule tz first now in
  exists l, fires schedule tz from (first :: l) latest /\ count = lenl (first :: l) /\
    StronglySorted Z.lt (first :: l) /\ Forall (fun t => from < t <= now) (first :: l) /\
    walk_ends schedule tz now latest.
Proof. apply catch_up. by vm_compute. Qed.

(** Retries wait at least ten seconds and at most ten minutes, doubling. *)
Lemma backoff_bounds attempt : 10 <= backoff attempt <= 600.
Proof.
  unfold backoff. rewrite Z.shiftl_mul_pow2 by lia. set (e := Z.min _ 10).
  assert (2 ^ 0 <= 2 ^ e) by (apply Z.pow_le_mono_r; lia). lia.
Qed.

(** ** Runner ids *)

Lemma same_run_id_spec lines found id : same_run_id found lines = Some id ->
  Forall (fun line => runner_run_id_of line = Some id) lines /\ (found = None \/ found = Some id).
Proof.
  revert found; induction lines as [|line lines IH]; intros found; cbn [same_run_id].
  { intros ->. by split; [constructor|right]. }
  destruct (runner_run_id_of line) as [x|] eqn:Hx; [|done]. destruct (is_some_and _ _) eqn:Hd; [done|].
  intros [Hf [?|[= ->]]]%IH; [done|]. split; [by constructor|]. destruct found as [y|]; [|by left]. right.
  cbn in Hd. apply negb_false_iff, String.eqb_eq in Hd. by subst.
Qed.

(** The id found names one attempt of one signed action: a matching line
    carries it, and every matching line agrees. *)
Lemma find_runner_run_id_spec lines plan scheduled_for attempt id :
  find_runner_run_id lines plan scheduled_for attempt = Some id ->
  uuid7 id = true /\ (exists line, line ∈ lines /\ run_line_matches plan scheduled_for attempt line = true) /\
  forall line, line ∈ lines -> run_line_matches plan scheduled_for attempt line = true -> runner_run_id_of line = Some id.
Proof.
  unfold find_runner_run_id. intros H. apply same_run_id_spec in H as H2. destruct H2 as [Hall _].
  assert (forall line, line ∈ lines -> run_line_matches plan scheduled_for attempt line = true ->
    runner_run_id_of line = Some id) as Hm.
  { intros line Hin Hl. rewrite Forall_forall in Hall. apply Hall. unfold select. apply list_elem_of_In, filter_In.
    by rewrite <- list_elem_of_In. }
  destruct (select _ lines) as [|line rest] eqn:Hs; [done|].
  assert (line ∈ select (run_line_matches plan scheduled_for attempt) lines) as Hin by (rewrite Hs; constructor).
  unfold select in Hin. apply list_elem_of_In, filter_In in Hin as [Hin Hl]. apply list_elem_of_In in Hin.
  split_and!; [|by exists line|done]. specialize (Hm line Hin Hl). unfold runner_run_id_of in Hm.
  destruct (as_str _); [|done]. destruct (uuid7 s) eqn:Hu; [|done]. by injection Hm as <-.
Qed.

End facts.
