(* ===== verification/Sched.v ===== *)
(** * What the schedulers share

    src/local/sched/mod.rs ([Deps] and the reports to the alert evaluator)
    and the world a scheduler's operation runs in: its locked state, ops.db
    with its failure generation, the admission store, the trusted lines of
    the runner's consumed log, the clock, the database calls that will fail,
    the tasks in flight and what was published, reported and logged.  The
    state [S], the tasks [T] and the published messages [E] are each
    scheduler's own.  An operation is one step and the clock stands still in
    it. *)

From S2P Require Import Prelude RustStr BTree PlanCode Json Jcs Calendar Text Trust Verify.
From S2P Require Import CronExpr Store DefinitionStore AdmissionStore Queries Proto OpsStore.
From S2P Require Import OpsFacts Effects Runner CronJobs.

Import Definitions.

(** What the operating system gives: the random bytes of the [n]th id, the
    clock's milliseconds, the order in which a hash map is iterated; and the
    id of this server at each look at the trust store. *)
Class Host := {
  server_id : nat -> string;
  entropy : nat -> list ascii;
  subsec_millis : nat -> Z;
  iter_order : forall {A : Type}, nat -> list A -> list A
}.

Class HostLaws `{Host} : Prop :=
  iter_order_perm : forall (A : Type) n (l : list A), Permutation (iter_order n l) l.

(** [Scope] of the protocol. *)
Record Scope := { sc_scope : SignedScope; sc_service_id : string }.
Definition scope_of (scope : SignedScope) (service_id : string) : Scope :=
  {| sc_scope := scope; sc_service_id := service_id |}.
Definition default_scope : Scope := scope_of ("", "", "") "".

Inductive LogLevel := LInfo | LWarn | LError.
(** [event_condition::Kind], the kinds that are reported, and their numbers. *)
Inductive ConditionKind :=
| DeployFailed | CronFailed | CronMissed | BackupFailed | RestoreVerificationFailed | WebhookBuildFailed | TelemetryDropping.
Definition condition_number (k : ConditionKind) : Z :=
  match k with
  | DeployFailed => 1 | CronFailed => 6 | CronMissed => 7 | BackupFailed => 8 | RestoreVerificationFailed => 9
  | WebhookBuildFailed => 13 | TelemetryDropping => 14
  end.
#[global] Instance ConditionKind_eq_dec : EqDecision ConditionKind.
Proof. solve_decision. Defined.

Record LogIdentity := { li_source : string; li_scope : SignedScope; li_service_id : string; li_run_id : string }.

Record BuiltinEvent := {
  be_kind : ConditionKind; be_scope : Scope; be_source : string; be_subject_id : string;
  be_occurred : bool; be_standalone : bool; be_channel_ids : list string; be_summary : string
}.

Inductive Output (E : Type) :=
| Published (scope : Scope) (message : E)
| Reported (event : BuiltinEvent)
| Logged (level : LogLevel) (message : string) (identity : LogIdentity).
Arguments Published {E} scope message.
Arguments Reported {E} event.
Arguments Logged {E} level message identity.

Record SchedWorld (S T E : Type) := {
  w_state : S; w_ops : Ops; w_failures : Z; w_db : Db; w_log : option (list Value);
  w_now : Z; w_faults : list bool; w_draws : nat; w_tasks : list T; w_out : list (Output E)
}.
Arguments w_state {S T E} _.
Arguments w_ops {S T E} _.
Arguments w_failures {S T E} _.
Arguments w_db {S T E} _.
Arguments w_log {S T E} _.
Arguments w_now {S T E} _.
Arguments w_faults {S T E} _.
Arguments w_draws {S T E} _.
Arguments w_tasks {S T E} _.
Arguments w_out {S T E} _.
Arguments Build_SchedWorld {S T E} _ _ _ _ _ _ _ _ _ _.

Section world.
Context {PB : Prost} {ST : SqliteTime} {HO : Host} {S T E : Type}.

Definition set_state (x : S) (w : SchedWorld S T E) : SchedWorld S T E :=
  {| w_state := x; w_ops := w_ops w; w_failures := w_failures w; w_db := w_db w; w_log := w_log w;
     w_now := w_now w; w_faults := w_faults w; w_draws := w_draws w; w_tasks := w_tasks w; w_out := w_out w |}.
Definition set_ops (x : Ops) (w : SchedWorld S T E) : SchedWorld S T E :=
  {| w_state := w_state w; w_ops := x; w_failures := w_failures w; w_db := w_db w; w_log := w_log w;
     w_now := w_now w; w_faults := w_faults w; w_draws := w_draws w; w_tasks := w_tasks w; w_out := w_out w |}.
Definition set_failures (x : Z) (w : SchedWorld S T E) : SchedWorld S T E :=
  {| w_state := w_state w; w_ops := w_ops w; w_failures := x; w_db := w_db w; w_log := w_log w;
     w_now := w_now w; w_faults := w_faults w; w_draws := w_draws w; w_tasks := w_tasks w; w_out := w_out w |}.
Definition set_log (x : option (list Value)) (w : SchedWorld S T E) : SchedWorld S T E :=
  {| w_state := w_state w; w_ops := w_ops w; w_failures := w_failures w; w_db := w_db w; w_log := x;
     w_now := w_now w; w_faults := w_faults w; w_draws := w_draws w; w_tasks := w_tasks w; w_out := w_out w |}.
Definition set_faults (x : list bool) (w : SchedWorld S T E) : SchedWorld S T E :=
  {| w_state := w_state w; w_ops := w_ops w; w_failures := w_failures w; w_db := w_db w; w_log := w_log w;
     w_now := w_now w; w_faults := x; w_draws := w_draws w; w_tasks := w_tasks w; w_out := w_out w |}.
Definition set_draws (x : nat) (w : SchedWorld S T E) : SchedWorld S T E :=
  {| w_state := w_state w; w_ops := w_ops w; w_failures := w_failures w; w_db := w_db w; w_log := w_log w;
     w_now := w_now w; w_faults := w_faults w; w_draws := x; w_tasks := w_tasks w; w_out := w_out w |}.
Definition set_tasks (x : list T) (w : SchedWorld S T E) : SchedWorld S T E :=
  {| w_state := w_state w; w_ops := w_ops w; w_failures := w_failures w; w_db := w_db w; w_log := w_log w;
     w_now := w_now w; w_faults := w_faults w; w_draws := w_draws w; w_tasks := x; w_out := w_out w |}.
Definition set_out (x : list (Output E)) (w : SchedWorld S T E) : SchedWorld S T E :=
  {| w_state := w_state w; w_ops := w_ops w; w_failures := w_failures w; w_db := w_db w; w_log := w_log w;
     w_now := w_now w; w_faults := w_faults w; w_draws := w_draws w; w_tasks := w_tasks w; w_out := x |}.

(** ** Operations on the world *)

Definition sact (A : Type) : Type := st (SchedWorld S T E) A.

Definition gets {A} (f : S -> A) : sact A := asks (fun w => f (w_state w)).
Definition modify (f : S -> S) : sact unit := fun w => (tt, set_state (f (w_state w)) w).
Definition emit (o : Output E) : sact unit := fun w => (tt, set_out (w_out w ++ [o]) w).
Definition spawn_task (t : T) : sact unit := fun w => (tt, set_tasks (w_tasks w ++ [t]) w).

(** Whether the next database call fails. *)
Definition fault : sact bool :=
  fun w => match w_faults w with [] => (false, w) | b :: rest => (b, set_faults rest w) end.

Definition count_failure : sact unit := fun w => (tt, set_failures (w_failures w + 1) w).

(** [self.checked(...)]: an ops.db transaction; a failed one changes nothing
    and counts. *)
Definition checked {A} (f : Ops -> store_result (A * Ops)) : sact (option A) :=
  let! failed := fault in
  if (failed : bool) then do! count_failure in ret None
  else
    let! r := asks (fun w => f (w_ops w)) in
    match r with
    | Ok (a, o) => do! (fun w => (tt, set_ops o w)) in ret (Some a)
    | _ => do! count_failure in ret None
    end.

Definition reads {A} (f : Ops -> store_result A) (o : Ops) : store_result (A * Ops) :=
  let? a := f o in Ok (a, o).

Definition writes (f : Ops -> store_result Ops) (o : Ops) : store_result (unit * Ops) :=
  let? o := f o in Ok (tt, o).

(** A read of the admission store. *)
Definition store_read {A} (f : Db -> A) : sact (option A) :=
  let! failed := fault in
  if (failed : bool) then ret None else let! a := asks (fun w => f (w_db w)) in ret (Some a).

Definition now_ : sact Z := asks w_now.
Definition consumed_log : sact (option (list Value)) := asks w_log.
Definition failure_generation : sact Z := asks w_failures.

Definition draw {A} (f : nat -> A) : sact A := fun w => (f (w_draws w), set_draws (Datatypes.S (w_draws w)) w).
Definition fresh_id (now : Z) : sact string := draw (fun n => new_id (entropy n) (subsec_millis n) now).

Definition list_rows (kind : RecordKind) (subject : option string) (statuses : list Z) (limit : Z) : sact (list OpsRow) :=
  let! rows := checked (reads (fun o => try_list o kind
    {| ls_subject := subject; ls_statuses := statuses; ls_from := None; ls_to := None; ls_before := None;
       ls_after := None; ls_ascending := false; ls_limit := limit |})) in
  ret (default [] rows).

(** [ops.has_slot]: a failed look counts as taken. *)
Definition has_slot_ (kind : RecordKind) (subject slot : string) : sact bool :=
  let! taken := checked (reads (fun o => let? _ := slot_floor o in Ok (has_slot o kind subject slot))) in
  ret (default true taken).

(** The matching lines of a plan-bound action. *)
Definition action_line (action : AdmittedAction) (line : Value) : bool :=
  eq_str line.["plan_id"] (plan_id action)
  && eq_str line.["plan_digest_hex"] (plan_digest_hex action)
  && bool_decide (as_u64 line.["action_index"]
                  = if 0 <=? action_index action then Some (action_index action) else None).

(** [try_meta] and [try_set_meta] are not counted as failures. *)
Definition read_meta (key : string) : sact (option (option string)) :=
  let! failed := fault in
  if (failed : bool) then ret None else let! v := asks (fun w => try_meta (w_ops w) key) in ret (Some v).

Definition write_meta (key value : string) : sact unit :=
  let! failed := fault in
  if (failed : bool) then ret tt else fun w => (tt, set_ops (try_set_meta (w_ops w) key value) w).

(** [let Ok(checkpoint) = ... else return] and its parse; a missing one is now. *)
Definition checkpoint_at (now : Z) (stored : option (option string)) : option Z :=
  match stored with
  | None => None
  | Some None => Some now
  | Some (Some text) => parse_i64 text
  end.

End world.

(** * What the schedulers' primitives keep

    A relation between worlds that failing calls and reads keep is kept by
    every reading operation ([Reader]); [quiet] is the strictest one, and
    [checked_cases] says what one ops.db transaction does. *)

Import Definitions.

Section frame.
Context {PB : Prost} {ST : SqliteTime} {HO : Host} {S T E : Type}.

(** Relations that failing calls and reads keep. *)
Class Reader (R : relation (SchedWorld S T E)) : Prop := {
  reader_pre :: PreOrder R;
  reader_faults w x rest : w_faults w = x :: rest -> R w (set_faults rest w);
  reader_failures w : R w (set_failures (w_failures w + 1) w)
}.

(** ** Primitives *)

Section readers.
Context {R : relation (SchedWorld S T E)} {RR : Reader R}.

Lemma keeps_gets {A} (f : S -> A) : keeps R (gets f).
Proof. intros w. reflexivity. Qed.

Lemma keeps_fault : keeps R fault.
Proof. intros w. unfold fault. destruct (w_faults w) as [|b l] eqn:H; [reflexivity|]. by eapply reader_faults. Qed.

Lemma keeps_count_failure : keeps R count_failure.
Proof. intros w. apply reader_failures. Qed.

Lemma keeps_store_read {A} (f : Db -> A) : keeps R (store_read f).
Proof.
  unfold store_read. apply keeps_bind; [apply keeps_fault|]. intros [|]; [apply keeps_ret|].
  apply keeps_bind; [apply keeps_asks|intros; apply keeps_ret].
Qed.

(** A transaction whose effect on ops.db the relation keeps. *)
Lemma keeps_transaction {A} (f : Ops -> store_result (A * Ops)) :
  (forall w a o, f (w_ops w) = Ok (a, o) -> R w (set_ops o w)) -> keeps R (checked f).
Proof.
  intros Hf. unfold checked. apply keeps_bind; [apply keeps_fault|]. intros [|].
  { apply keeps_bind; [apply keeps_count_failure|]. intros _. apply keeps_ret. }
  intros w. unfold bind, asks. destruct (f (w_ops w)) as [[a o]|e|] eqn:He;
    [|apply keeps_count_failure..]. by eapply Hf.
Qed.

Lemma keeps_reads {A} (f : Ops -> store_result A) : keeps R (checked (reads f)).
Proof.
  apply keeps_transaction. unfold reads. intros w a o H. inv_ok H. simplify_eq. by destruct w.
Qed.

End readers.

End frame.

Create HintDb keeps.
#[export] Hint Resolve keeps_ret keeps_asks keeps_gets keeps_fault keeps_count_failure keeps_store_read
  keeps_reads : keeps.

(** Opens an operation down to primitives and operations already lifted. *)
Ltac keep :=
  repeat match goal with
  | |- keeps _ _ => solve [auto with keeps typeclass_instances | eauto with keeps typeclass_instances]
  | |- keeps _ (bind _ _) => apply keeps_bind; [|intros ?]
  | |- keeps _ (mfor _ _) => apply keeps_mfor; intros ?
  | |- keeps _ (let '_ := ?x in _) => destruct x
  | |- keeps _ (if ?x then _ else _) => destruct x
  | |- keeps _ (match ?x with _ => _ end) => destruct x
  end.

Section reading.
Context {PB : Prost} {ST : SqliteTime} {HO : Host} {S T E : Type} {R : relation (SchedWorld S T E)} {RR : Reader R}.

Lemma keeps_list_rows kind subject statuses limit : keeps R (list_rows kind subject statuses limit).
Proof. unfold list_rows. keep. Qed.

Lemma keeps_has_slot kind subject slot : keeps R (has_slot_ kind subject slot).
Proof. unfold has_slot_. keep. Qed.

Lemma keeps_read_meta key : keeps R (read_meta key).
Proof. unfold read_meta. keep. Qed.

End reading.

#[export] Hint Resolve keeps_list_rows keeps_has_slot keeps_read_meta : keeps.

Section calls.
Context {S T E : Type}.
Implicit Types w : SchedWorld S T E.

(** A call that leaves the admission store alone. *)
Lemma checked_db {A} (f : Ops -> store_result (A * Ops)) w : w_db (checked f w).2 = w_db w.
Proof.
  unfold checked, bind, fault, asks. destruct (w_faults w) as [|[] rest]; cbn [fst snd]; try done.
  - by destruct (f (w_ops w)) as [[? ?]|?|].
  - by destruct (f (w_ops (set_faults rest w))) as [[? ?]|?|].
Qed.

Lemma fault_db w : w_db (fault w).2 = w_db w.
Proof. unfold fault. by destruct (w_faults w). Qed.

Lemma store_read_spec {A} (f : Db -> A) w r w' : store_read f w = (r, w') ->
  w_db w' = w_db w /\ (r = None \/ r = Some (f (w_db w))).
Proof.
  unfold store_read, bind, asks. pose proof (fault_db w) as Hd. destruct (fault w) as [[] w1]; cbn [snd] in Hd.
  - intros [= <- <-]. auto.
  - intros [= <- <-]. rewrite Hd. auto.
Qed.

(** The scheduler's own data, the store, the tasks and the outputs are the same. *)
Definition quiet (w w' : SchedWorld S T E) : Prop :=
  w_state w' = w_state w /\ w_ops w' = w_ops w /\ w_tasks w' = w_tasks w /\ w_out w' = w_out w.

Lemma quiet_reader : Reader quiet.
Proof.
  unfold quiet. split; [split|..]; try by (intros w; intros; split_and!).
  intros w1 w2 w3 (?&?&?&?) (?&?&?&?). split_and!; congruence.
Qed.

#[local] Existing Instance quiet_reader.

Lemma checked_cases {A} (f : Ops -> store_result (A * Ops)) w r w' : checked f w = (r, w') ->
  (r = None /\ quiet w w' /\ w_failures w' = w_failures w + 1) \/
  exists a o w1, r = Some a /\ f (w_ops w) = Ok (a, o) /\ quiet w w1 /\ w_failures w1 = w_failures w /\
    w' = set_ops o w1.
Proof.
  assert (forall w1, quiet w w1 -> w_failures w1 = w_failures w ->
    (let! r := asks (fun w => f (w_ops w)) in
     match r with
     | Ok (a, o) => do! (fun w => (tt, set_ops o w)) in ret (Some a)
     | _ => do! count_failure in ret None
     end) w1 = (r, w') ->
    (r = None /\ quiet w w' /\ w_failures w' = w_failures w + 1) \/
    exists a o w1, r = Some a /\ f (w_ops w) = Ok (a, o) /\ quiet w w1 /\ w_failures w1 = w_failures w /\
      w' = set_ops o w1) as Hgo.
  { intros w1 Hq Hfl. unfold bind, asks. rewrite (proj1 (proj2 Hq)).
    destruct (f (w_ops w)) as [[a o]|e|] eqn:Hf; cbn; intros [= <- <-].
    - right. by exists a, o, w1.
    - left. cbn. by rewrite Hfl.
    - left. cbn. by rewrite Hfl. }
  unfold checked, bind at 1, fault. destruct (w_faults w) as [|[] rest].
  - by apply Hgo.
  - intros [= <- <-]. by left.
  - by apply Hgo.
Qed.

(** ** Taken fire times *)

Context {PB : Prost} {ST : SqliteTime} {SL : SqliteTimeLaws}.

Definition keeps_taken w w' : Prop :=
  forall kind subject slot t, timestamp slot = Some t ->
    taken (w_ops w) kind subject slot -> taken (w_ops w') kind subject slot.

Lemma ops_step_taken w o : ops_step (w_ops w) o -> keeps_taken w (set_ops o w).
Proof. intros Ho k s sl t Ht Htk. cbn [w_ops set_ops]. by eapply step_taken. Qed.

Lemma write_meta_taken key value : key <> FLOOR_KEY -> keeps keeps_taken (write_meta key value).
Proof.
  intros Hk w k s sl t Ht Htk. unfold write_meta, bind, fault. destruct (w_faults w) as [|[] ?]; cbn [snd]; try done.
  all: eapply step_taken; [exact Ht|by apply ops_set_meta|exact Htk].
Qed.

End calls.
