(* ===== verification/CronSched.v ===== *)
(** * The cron scheduler

    src/local/sched/cron.rs.  [State] is the scheduler's locked state, [World]
    everything an operation reads or writes: the state, ops.db with its
    failure generation, the admission store, the trusted lines of the
    runner's consumed log, the clock, the database calls that will fail, the
    tasks in flight and what was published, reported and logged.  An
    operation is a [World] transformer; it is one step (the source holds the
    state lock for parts of it) and the clock stands still in it. *)

From S2P Require Import Prelude RustStr BTree PlanCode Json Jcs Calendar Text Trust Verify.
From S2P Require Import Effects Store DefinitionStore AdmissionStore Queries CronExpr Proto OpsStore Runner CronJobs Sched.
Import Definitions.

(** ** State *)

Record Chain := { ch_cron_id : string; ch_run : CronRun; ch_retry_at : option Z; ch_waiting : bool }.

Section scheduler.
Context {J : Jiff} {JD : JiffDb} {JR : JsonReader} {PB : Prost} {ST : SqliteTime} {HO : Host}.

Record State := {
  s_jobs : bmap JobDef;
  s_chains : gmap string Chain;
  s_running : Z;
  s_reservations : gmap string ManualCronReservation;
  s_submitting : gset string;
  s_recovering : gset string;
  s_slots : list string;
  s_queued : gmap string string;
  s_failing : gset string
}.

Definition empty_state : State :=
  {| s_jobs := []; s_chains := ∅; s_running := 0; s_reservations := ∅; s_submitting := ∅;
     s_recovering := ∅; s_slots := []; s_queued := ∅; s_failing := ∅ |}.

Definition with_jobs (x : bmap JobDef) (s : State) : State :=
  {| s_jobs := x; s_chains := s_chains s; s_running := s_running s; s_reservations := s_reservations s;
     s_submitting := s_submitting s; s_recovering := s_recovering s; s_slots := s_slots s;
     s_queued := s_queued s; s_failing := s_failing s |}.
Definition with_chains (x : gmap string Chain) (s : State) : State :=
  {| s_jobs := s_jobs s; s_chains := x; s_running := s_running s; s_reservations := s_reservations s;
     s_submitting := s_submitting s; s_recovering := s_recovering s; s_slots := s_slots s;
     s_queued := s_queued s; s_failing := s_failing s |}.
Definition with_running (x : Z) (s : State) : State :=
  {| s_jobs := s_jobs s; s_chains := s_chains s; s_running := x; s_reservations := s_reservations s;
     s_submitting := s_submitting s; s_recovering := s_recovering s; s_slots := s_slots s;
     s_queued := s_queued s; s_failing := s_failing s |}.
Definition with_reservations (x : gmap string ManualCronReservation) (s : State) : State :=
  {| s_jobs := s_jobs s; s_chains := s_chains s; s_running := s_running s; s_reservations := x;
     s_submitting := s_submitting s; s_recovering := s_recovering s; s_slots := s_slots s;
     s_queued := s_queued s; s_failing := s_failing s |}.
Definition with_submitting (x : gset string) (s : State) : State :=
  {| s_jobs := s_jobs s; s_chains := s_chains s; s_running := s_running s;
     s_reservations := s_reservations s; s_submitting := x; s_recovering := s_recovering s;
     s_slots := s_slots s; s_queued := s_queued s; s_failing := s_failing s |}.
Definition with_recovering (x : gset string) (s : State) : State :=
  {| s_jobs := s_jobs s; s_chains := s_chains s; s_running := s_running s;
     s_reservations := s_reservations s; s_submitting := s_submitting s; s_recovering := x;
     s_slots := s_slots s; s_queued := s_queued s; s_failing := s_failing s |}.
Definition with_slots (x : list string) (s : State) : State :=
  {| s_jobs := s_jobs s; s_chains := s_chains s; s_running := s_running s;
     s_reservations := s_reservations s; s_submitting := s_submitting s; s_recovering := s_recovering s;
     s_slots := x; s_queued := s_queued s; s_failing := s_failing s |}.
Definition with_queued (x : gmap string string) (s : State) : State :=
  {| s_jobs := s_jobs s; s_chains := s_chains s; s_running := s_running s;
     s_reservations := s_reservations s; s_submitting := s_submitting s; s_recovering := s_recovering s;
     s_slots := s_slots s; s_queued := x; s_failing := s_failing s |}.
Definition with_failing (x : gset string) (s : State) : State :=
  {| s_jobs := s_jobs s; s_chains := s_chains s; s_running := s_running s;
     s_reservations := s_reservations s; s_submitting := s_submitting s; s_recovering := s_recovering s;
     s_slots := s_slots s; s_queued := s_queued s; s_failing := x |}.

(** A spawned [run_cron] call. *)
Record Task := { tk_job : JobDef; tk_chain_id : string; tk_run : CronRun; tk_schedule : ScheduleRef; tk_timeout : Z }.

(** The scheduler's world and operations. *)
#[local] Notation World := (SchedWorld State Task CronRun).

Definition act (A : Type) : Type := st World A.

(** The entries of the hash map of chains, in its iteration order. *)
Definition chains_in_order : act (list (string * Chain)) :=
  let! chains := gets s_chains in
  draw (fun n => iter_order n (map_to_list chains)).

Definition run_of_row (row : OpsRow) : option CronRun := decode cron_run (or_body row).

(** ** Authority of a run *)

Definition run_authority (run : CronRun) : act (option PlanRef) :=
  let! intent := checked (reads (fun o => scheduled_intent o KCronRun (cr_id run))) in
  match intent with
  | None => ret None
  | Some (Some intent) =>
      ret (if String.eqb (pr_plan_id (sr_plan intent)) (cr_plan_id run) then Some (sr_plan intent) else None)
  | Some None =>
      let! actions := store_read (fun db => admitted_actions db ["cron.create"; "cron.update"; "cron.run"]) in
      ret match actions with
          | None => None
          | Some actions =>
              match select (fun a => String.eqb (plan_id a) (cr_plan_id run)
                                     && eq_str (params a).["cron_id"] (cr_cron_id run)) actions with
              | [action] => Some (plan_ref action)
              | _ => None
              end
          end
  end.

Definition original_job (run : CronRun) : act (option JobDef) :=
  let! authority := run_authority run in
  match authority with
  | None => ret None
  | Some authority =>
      let! actions := store_read (fun db => admitted_actions db ["cron.create"; "cron.update"]) in
      ret match actions with
          | None => None
          | Some actions =>
              match find_first (fun a => bool_decide (plan_ref a = authority)) actions with
              | Some action => bget (cr_cron_id run) (load_jobs [action])
              | None => None
              end
          end
  end.

(** ** Recording *)

Definition save (run : CronRun) (slot : string) : act bool :=
  let! now := now_ in
  let at_ := match cr_scheduled_for run with
    | Some t => t
    | None => default now (cr_started_at run)
    end in
  let! r := checked (fun o => put o KCronRun (run_entry run slot at_)) in
  ret (is_some r).

Definition publish (job : option JobDef) (run : CronRun) : act unit :=
  emit (Published (match job with
                   | Some job => scope_of (jd_scope job) (jd_service_id job)
                   | None => default_scope
                   end) run).

Definition identity (job : JobDef) (run_id : string) : LogIdentity :=
  {| li_source := "cron:" +:+ (if is_empty (jd_name job) then jd_cron_id job else jd_name job);
     li_scope := jd_scope job; li_service_id := jd_service_id job; li_run_id := run_id |}.

Definition log (job : JobDef) (run : CronRun) (level : LogLevel) (message : string) : act unit :=
  emit (Logged level message (identity job (cr_id run))).

Definition scheduled_slot (run : CronRun) : string :=
  match cr_scheduled_for run with Some t => rfc t | None => "" end.

Definition record (job : option JobDef) (run : CronRun) : act bool :=
  let! saved := save run (scheduled_slot run) in
  if (saved : bool) then do! publish job run in ret true else ret false.

Definition update_chain (chain_id : string) (f : Chain -> Chain) : act unit :=
  modify (fun s => with_chains (alter f chain_id (s_chains s)) s).

Definition set_chain_run (run : CronRun) (c : Chain) : Chain :=
  {| ch_cron_id := ch_cron_id c; ch_run := run; ch_retry_at := ch_retry_at c; ch_waiting := ch_waiting c |}.
Definition set_chain_waiting (waiting : bool) (c : Chain) : Chain :=
  {| ch_cron_id := ch_cron_id c; ch_run := ch_run c; ch_retry_at := ch_retry_at c; ch_waiting := waiting |}.

Definition update_chain_run (chain_id : string) (run : CronRun) : act unit :=
  update_chain chain_id (set_chain_run run).

Definition remove_chain (chain_id : string) : act unit :=
  modify (fun s => with_chains (delete chain_id (s_chains s)) s).

Definition insert_chain (chain_id : string) (c : Chain) : act unit :=
  modify (fun s => with_chains (<[chain_id := c]> (s_chains s)) s).

Definition add_running (n : Z) : act unit := modify (fun s => with_running (s_running s + n) s).
(** [state.running.saturating_sub(1)]. *)
Definition sub_running : act unit := modify (fun s => with_running (Z.max 0 (s_running s - 1)) s).

Definition push_slot_front (chain_id : string) : act unit := modify (fun s => with_slots (chain_id :: s_slots s) s).
Definition push_slot_back (chain_id : string) : act unit :=
  modify (fun s => with_slots (s_slots s ++ [chain_id]) s).

(** ** Reports *)

Definition report (job : JobDef) (kind : ConditionKind) (occurred : bool) (summary : string) : act unit :=
  let! failing := gets s_failing in
  let event k := Reported {| be_kind := k; be_scope := scope_of (jd_scope job) (jd_service_id job);
    be_source := "cron_heartbeat"; be_subject_id := jd_cron_id job; be_occurred := occurred;
    be_standalone := jd_heartbeat_alert job; be_channel_ids := []; be_summary := summary |} in
  if occurred then
    do! modify (with_failing ({[ jd_cron_id job ]} ∪ failing)) in emit (event kind)
  else if bool_decide (jd_cron_id job ∈ failing) then
    do! modify (with_failing (failing ∖ {[ jd_cron_id job ]})) in
    do! emit (event CronFailed) in emit (event CronMissed)
  else ret tt.

(** ** Starting chains *)

(** Chains of the job other than its queued one, and its reservations. *)
Definition active_chains (s : State) (cron_id : string) : Z :=
  count (fun c : string * Chain => String.eqb (ch_cron_id c.2) cron_id
           && negb (is_some_and (s_queued s !! cron_id) (String.eqb c.1))) (map_to_list (s_chains s))
  + count (fun r : string * ManualCronReservation => String.eqb (mr_cron_id r.2) cron_id)
      (map_to_list (s_reservations s)).

Definition occupied (s : State) : Z := s_running s + Z.of_nat (size (s_reservations s)).

Definition schedule_of (job : JobDef) (run : CronRun) : ScheduleRef :=
  {| sr_plan := jd_plan job; sr_scheduled_for := scheduled_slot run; sr_attempt := cr_attempt run |}.

Definition launch (job : JobDef) (chain_id : string) (run : CronRun) : act unit :=
  let! now := now_ in
  let run := run_started (run_status run CronRunStatus.Running) now in
  let! persisted := checked (writes (fun o => put_scheduled_record o KCronRun
    (run_entry run (scheduled_slot run) (default now (cr_scheduled_for run))) (schedule_of job run))) in
  match persisted with
  | None =>
      do! sub_running in
      do! update_chain chain_id (set_chain_waiting true) in
      push_slot_front chain_id
  | Some _ =>
      do! publish (Some job) run in
      do! update_chain_run chain_id run in
      do! log job run LInfo ("cron run started: attempt " +:+ dec_string (cr_attempt run) +:+ " for "
                             +:+ scheduled_slot run) in
      spawn_task {| tk_job := job; tk_chain_id := chain_id; tk_run := run; tk_schedule := schedule_of job run;
                    tk_timeout := jd_timeout_seconds job + 10 + CALL_MARGIN_SECONDS |}
  end.

(** The end of a round: the waiting chain is started under the definition
    that signed it. *)
Definition fill_start (chain_id : string) (chain : Chain) : act bool :=
  let cron_id := ch_cron_id chain in
  let! job := original_job (ch_run chain) in
  match job with
  | None => do! push_slot_front chain_id in ret false
  | Some job =>
      let! s := gets id in
      if (MAX_RUNNING <=? occupied s) || negb (bcontains cron_id (s_jobs s)) then
        do! push_slot_front chain_id in ret false
      else match s_chains s !! chain_id with
      | None => ret true
      | Some current =>
          if negb (ch_waiting current) then ret true
          else
            do! update_chain chain_id (set_chain_waiting false) in
            do! add_running 1 in
            do! launch job chain_id (ch_run chain) in
            ret true
      end
  end.

(** One round of the loop of [fill_slots]; whether it goes on. *)
Definition fill_round : act bool :=
  let! s := gets id in
  if MAX_RUNNING <=? occupied s then ret false
  else match s_slots s with
  | [] => ret false
  | chain_id :: rest =>
      do! modify (with_slots rest) in
      match s_chains s !! chain_id with
      | None => ret true
      | Some chain =>
          let cron_id := ch_cron_id chain in
          if negb (bcontains cron_id (s_jobs s)) then
            let! now := now_ in
            let run := run_finished (run_status (ch_run chain) CronRunStatus.Cancelled) now
                         "the job was deleted before the run started" in
            let! recorded := record None run in
            if (recorded : bool) then do! remove_chain chain_id in ret true
            else do! push_slot_front chain_id in ret false
          else if negb (ch_waiting chain) then ret true
          else fill_start chain_id chain
      end
  end.

(** The loop, [fuel] rounds left; [false] when they run out. *)
Fixpoint fill_loop (fuel : nat) : act bool :=
  match fuel with
  | O => ret false
  | S fuel => let! again := fill_round in if (again : bool) then fill_loop fuel else ret true
  end.

(** A round takes a chain off [slots] or meets a failing database call. *)
Definition fill_fuel (w : World) : nat := S (length (s_slots (w_state w)) + length (w_faults w)).

Definition fill_slots : act unit := fun w => let '(_, w) := fill_loop (fill_fuel w) w in (tt, w).

Definition start_chain (job : JobDef) (run : CronRun) (now : Z) : act unit :=
  let! recorded := record (Some job) run in
  if negb recorded then ret tt
  else
    let! s := gets id in
    let active := active_chains s (jd_cron_id job) in
    let skip := match jd_overlap job with
      | Skip => 0 <? active
      | Queue => (0 <? active) && is_some (s_queued s !! jd_cron_id job)
      | Allow => MAX_ALLOWED_CHAINS <=? active
      end in
    if skip then
      let run := run_finished (run_status run CronRunStatus.SkippedOverlap) now
                   "overlap: a run of this job is still active" in
      do! record (Some job) run in
      log job run LInfo "cron run skipped: a run of this job is still active"
    else
      do! insert_chain (cr_id run) {| ch_cron_id := jd_cron_id job; ch_run := run; ch_retry_at := None;
                                      ch_waiting := true |} in
      if bool_decide (jd_overlap job = Queue) && (0 <? active) then
        do! modify (fun s => with_queued (<[jd_cron_id job := cr_id run]> (s_queued s)) s) in
        do! record (Some job) run in ret tt
      else
        do! push_slot_back (cr_id run) in
        do! record (Some job) run in
        fill_slots.

Definition new_run (id : string) (job : JobDef) (attempt trigger status : Z) (scheduled_for : option Z) : CronRun :=
  {| cr_id := id; cr_cron_id := jd_cron_id job; cr_attempt := attempt; cr_trigger := trigger;
     cr_status := status; cr_scheduled_for := scheduled_for; cr_started_at := None; cr_finished_at := None;
     cr_exit_code := 0; cr_error := ""; cr_output_bytes := 0; cr_operation_id := ""; cr_missed_count := 0;
     cr_next_retry_at := None; cr_container_name := ""; cr_plan_id := pr_plan_id (jd_plan job);
     cr_runner_run_id := "" |}.

Definition start_scheduled (job : JobDef) (scheduled_for now : Z) : act unit :=
  let! taken := has_slot_ KCronRun (jd_cron_id job) (rfc scheduled_for) in
  if (taken : bool) then ret tt
  else
    let! id := fresh_id now in
    let run := new_run id job 1 CronTrigger.Schedule CronRunStatus.Pending (Some scheduled_for) in
    let! claimed := checked (fun o => claim_scheduled o KCronRun
      (run_entry run (rfc scheduled_for) scheduled_for)
      {| sr_plan := jd_plan job; sr_scheduled_for := rfc scheduled_for; sr_attempt := cr_attempt run |}) in
    match claimed with
    | Some true => start_chain job run now
    | _ => ret tt
    end.

(** ** Due fire times *)

Definition missed_run (run : CronRun) (now count : Z) : CronRun :=
  let run := run_finished run now ("the agent was not running at " +:+ dec_string count +:+ " scheduled time(s)") in
  {| cr_id := cr_id run; cr_cron_id := cr_cron_id run; cr_attempt := cr_attempt run;
     cr_trigger := cr_trigger run; cr_status := cr_status run; cr_scheduled_for := cr_scheduled_for run;
     cr_started_at := cr_started_at run; cr_finished_at := cr_finished_at run;
     cr_exit_code := cr_exit_code run; cr_error := cr_error run; cr_output_bytes := cr_output_bytes run;
     cr_operation_id := cr_operation_id run; cr_missed_count := count;
     cr_next_retry_at := cr_next_retry_at run; cr_container_name := cr_container_name run;
     cr_plan_id := cr_plan_id run; cr_runner_run_id := cr_runner_run_id run |}.

Definition record_missed (job : JobDef) (scheduled_for count now : Z) : act unit :=
  let! id := fresh_id now in
  let run := missed_run (new_run id job 1 CronTrigger.Schedule CronRunStatus.Missed (Some scheduled_for)) now count in
  do! record (Some job) run in
  do! log job run LWarn ("cron job missed " +:+ dec_string count +:+ " scheduled run(s) from " +:+ rfc scheduled_for) in
  report job CronMissed true (cr_error run).

Definition fire_due (job : JobDef) (from now : Z) (downtime : bool) : act unit :=
  match jd_schedule job, jd_timezone job with
  | Some schedule, Some tz =>
      let from := Z.max from (jd_active_from job) in
      if negb downtime then
        mfor (fun at_ => start_scheduled job at_ now) (fire_times schedule tz from now 16 16).1
      else
        let '(first, count) := fire_times schedule tz from now 1 MISSED_COUNT_LIMIT in
        match first with
        | [] => ret tt
        | first :: _ =>
            let latest := latest_before (Z.to_nat (now - first)) schedule tz first now in
            let runs_late := now - latest <=? DOWNTIME_SECONDS in
            let missed := if runs_late then count - 1 else count in
            do! (if 0 <? missed then
                   let! taken := has_slot_ KCronRun (jd_cron_id job) (rfc first) in
                   if (taken : bool) then ret tt else record_missed job first missed now
                 else ret tt) in
            if runs_late then start_scheduled job latest now else ret tt
        end
  | _, _ => ret tt
  end.

(** ** The end of an attempt *)

Definition end_chain (job : JobDef) (chain_id : string) (run : CronRun) : act unit :=
  do! remove_chain chain_id in
  let! s := gets id in
  do! (if active_chains s (jd_cron_id job) =? 0 then
         match s_queued s !! jd_cron_id job with
         | Some next =>
             do! modify (fun s => with_queued (delete (jd_cron_id job) (s_queued s)) s) in push_slot_back next
         | None => ret tt
         end
       else ret tt) in
  if cr_status run =? CronRunStatus.Succeeded then report job CronFailed false "succeeded"
  else if (cr_status run =? CronRunStatus.Failed) || (cr_status run =? CronRunStatus.TimedOut) then
    let summary := "cron job failed after " +:+ dec_string (cr_attempt run) +:+ " attempt(s)" in
    report job CronFailed true (if is_empty (cr_error run) then summary else summary +:+ ": " +:+ cr_error run)
  else ret tt.

Definition i32_text (z : Z) : string := i64_text z.

Definition finish_message (run : CronRun) (retry : bool) : string :=
  "cron run " +:+ status_word (cr_status run) +:+ ": attempt " +:+ dec_string (cr_attempt run)
  +:+ (if cr_exit_code run =? 0 then "" else ", exit code " +:+ i32_text (cr_exit_code run))
  +:+ (if is_empty (cr_error run) then "" else ": " +:+ cr_error run)
  +:+ (if retry then ", retry in " +:+ dec_string (backoff (cr_attempt run)) +:+ " s" else "").

Definition finish (job : JobDef) (chain_id : string) (run : CronRun) (result : RunnerFailure + Value) : act unit :=
  let! now := now_ in
  let! s := gets id in
  let run := if is_empty (cr_runner_run_id run)
    then match s_chains s !! chain_id with
         | Some chain => run_runner_id run (cr_runner_run_id (ch_run chain))
         | None => run
         end
    else run in
  let '(run, retryable) := apply_result run result in
  let run := run_finished run now (cr_error run) in
  let retry := retryable && bcontains (jd_cron_id job) (s_jobs s) && (cr_attempt run <=? jd_retries job) in
  let run := if retry then run_retry_at run (now + backoff (cr_attempt run)) else run in
  let! recorded := record (Some job) run in
  if negb recorded then modify (fun s => with_recovering ({[ chain_id ]} ∪ s_recovering s) s)
  else
    do! sub_running in
    do! (if retry then
           update_chain chain_id (fun c => {| ch_cron_id := ch_cron_id c; ch_run := run;
             ch_retry_at := Some (now + backoff (cr_attempt run)); ch_waiting := ch_waiting c |})
         else ret tt) in
    do! log job run (if cr_status run =? CronRunStatus.Succeeded then LInfo else LError)
          (finish_message run retry) in
    do! (if retry then ret tt else end_chain job chain_id run) in
    fill_slots.

(** One look of [lost_answer] at the log: the result line, the failure kept
    ([inl true]) or no line yet ([inl false]). *)
Definition lost_look (run : CronRun) (log : list Value) : act (bool + Value) :=
  let! authority := run_authority run in
  match authority with
  | None => ret (inl true)
  | Some authority =>
      ret match find_runner_run_id (run_lines log "run_cron") authority (cr_scheduled_for run) (cr_attempt run) with
          | None => inl true
          | Some run_id =>
              match find_first (fun line => eq_str line.["run_id"] run_id) (rev (run_results log "run_cron")) with
              | Some line => inr line
              | None => inl false
              end
          end
  end.

(** [lost_answer]: [views] is the log at each look; the deadline has passed
    after the last. *)
Fixpoint lost_answer (run : CronRun) (failure : RunnerFailure) (views : list (list Value))
    : act (RunnerFailure + Value) :=
  match views with
  | [] => ret (inl failure)
  | log :: later =>
      let! look := lost_look run log in
      match look with
      | inr line => ret (inr line)
      | inl true => ret (inl failure)
      | inl false => lost_answer run failure later
      end
  end.

(** The spawned task, from the runner's answer on. *)
Definition complete (t : Task) (answer : RunnerFailure + Value) (views : list (list Value)) : act unit :=
  let! result := match answer with
    | inl failure =>
        let! log := consumed_log in
        match log with
        | None => ret (inl failure)
        | Some _ => lost_answer (tk_run t) failure views
        end
    | inr answer => ret (inr answer)
    end in
  finish (tk_job t) (tk_chain_id t) (tk_run t) result.

Definition retry_chain (now : Z) (due : string * Chain) : act unit :=
  let '(chain_id, chain) := due in
  let! jobs := gets s_jobs in
  if negb (is_some_and (bget (ch_cron_id chain) jobs) jd_enabled) then remove_chain chain_id
  else
    let! job := original_job (ch_run chain) in
    match job with
    | None => ret tt
    | Some job =>
        let! id := fresh_id now in
        let run := new_run id job ((cr_attempt (ch_run chain) + 1) mod 2 ^ 32) CronTrigger.Retry
                     CronRunStatus.Pending (cr_scheduled_for (ch_run chain)) in
        let! recorded := record (Some job) run in
        if negb recorded then ret tt
        else
          do! update_chain chain_id (fun c => {| ch_cron_id := ch_cron_id c; ch_run := run;
                                                 ch_retry_at := None; ch_waiting := true |}) in
          do! push_slot_back chain_id in
          do! record (Some job) run in ret tt
    end.

Definition retries_due (now : Z) : act unit :=
  let! chains := chains_in_order in
  do! mfor (retry_chain now) (select (fun c : string * Chain => is_some_and (ch_retry_at c.2) (fun t => t <=? now)) chains) in
  fill_slots.

(** ** Recovery *)

Definition OUTCOME_UNKNOWN : string := "Execution outcome requires reconciliation after restart".

(** The [result] block of [recover]: the run with the runner's id, and the
    runner's result line. *)
Definition recovered_result (run : CronRun) : act (CronRun * option Value) :=
  let! consumed := consumed_log in
  match consumed with
  | None => ret (run, None)
  | Some log =>
      let! authority := run_authority run in
      ret match authority with
          | None => (run, None)
          | Some authority =>
              match find_runner_run_id (run_lines log "run_cron") authority (cr_scheduled_for run) (cr_attempt run) with
              | None => (run, None)
              | Some id => (run_runner_id run id,
                            find_first (fun line => eq_str line.["run_id"] id) (rev (run_results log "run_cron")))
              end
          end
  end.

Definition recover_row (now : Z) (row : OpsRow) : act unit :=
  match run_of_row row with
  | None => ret tt
  | Some run =>
      if cr_trigger run =? CronTrigger.Manual then ret tt
      else
        let! s := gets id in
        if is_some (s_chains s !! cr_id run) && negb (bool_decide (cr_id run ∈ s_recovering s)) then ret tt
        else
          let! found := recovered_result run in
          let '(run, result) := found in
          match result with
          | Some answer =>
              let run := (apply_result run (inr answer)).1 in
              let run := run_finished run now (cr_error run) in
              let! saved := save run (or_slot row) in
              if negb saved then ret tt
              else
                let! recovering := gets s_recovering in
                do! (if bool_decide (cr_id run ∈ recovering) then
                       do! modify (with_recovering (recovering ∖ {[ cr_id run ]})) in sub_running
                     else ret tt) in
                remove_chain (cr_id run)
          | None =>
              let run := run_error run OUTCOME_UNKNOWN in
              let! saved := save run (or_slot row) in
              if negb saved then ret tt
              else
                let! recovering := gets s_recovering in
                do! (if bool_decide (cr_id run ∈ recovering) then ret tt
                     else do! modify (with_recovering ({[ cr_id run ]} ∪ recovering)) in add_running 1) in
                insert_chain (cr_id run) {| ch_cron_id := cr_cron_id run; ch_run := run; ch_retry_at := None;
                                            ch_waiting := false |}
          end
  end.

(** ** Manual runs *)

Definition admission_of (plan_id : string) : act (option (option AdmissionRecord)) :=
  store_read (fun db => admission db plan_id).

Definition manual_new (id cron_id plan_id operation_id : string) (now : Z) : CronRun :=
  {| cr_id := id; cr_cron_id := cron_id; cr_attempt := 1; cr_trigger := CronTrigger.Manual;
     cr_status := CronRunStatus.Running; cr_scheduled_for := None; cr_started_at := Some now;
     cr_finished_at := None; cr_exit_code := 0; cr_error := ""; cr_output_bytes := 0;
     cr_operation_id := operation_id; cr_missed_count := 0; cr_next_retry_at := None;
     cr_container_name := ""; cr_plan_id := plan_id; cr_runner_run_id := "" |}.

Definition running_chain (cron_id : string) (run : CronRun) : Chain :=
  {| ch_cron_id := cron_id; ch_run := run; ch_retry_at := None; ch_waiting := false |}.

Definition record_manual_locked (cron_id plan_id operation_id : string) : act (option CronRun) :=
  let! now := now_ in
  let! s := gets id in
  let reservation := s_reservations s !! plan_id in
  if is_some_and reservation (fun r => negb (String.eqb (mr_cron_id r) cron_id)) then ret None
  else
    let! id := match reservation with Some r => ret (mr_run_id r) | None => fresh_id now end in
    let! committed := checked (fun o => commit_manual_run o (manual_new id cron_id plan_id operation_id now)) in
    match committed with
    | None => ret None
    | Some recorded =>
        do! modify (fun s => with_submitting (s_submitting s ∖ {[ plan_id ]})
                               (with_reservations (delete plan_id (s_reservations s)) s)) in
        let! chains := gets s_chains in
        do! (if negb (is_final (cr_status recorded)) && negb (is_some (chains !! cr_id recorded)) then
               do! add_running 1 in insert_chain (cr_id recorded) (running_chain cron_id recorded)
             else ret tt) in
        ret (Some recorded)
    end.

Definition record_manual (cron_id plan_id operation_id : string) : act (option CronRun) :=
  let! recorded := record_manual_locked cron_id plan_id operation_id in
  match recorded with
  | None => ret None
  | Some recorded =>
      let! jobs := gets s_jobs in
      do! publish (bget cron_id jobs) recorded in ret (Some recorded)
  end.

(** One reservation of [refresh_manual_reservations]; [false] returns the error. *)
Definition refresh_reservation (r : ManualCronReservation) : act bool :=
  do! modify (fun s => match s_reservations s !! mr_plan_id r with
                       | Some _ => s
                       | None => with_reservations (<[mr_plan_id r := r]> (s_reservations s)) s
                       end) in
  let! found := admission_of (mr_plan_id r) in
  match found with
  | None => ret false
  | Some (Some admission) =>
      if String.eqb (q_plan_digest_hex admission) (mr_digest_hex r) then
        let! recorded := record_manual (mr_cron_id r) (mr_plan_id r) (q_operation_id admission) in
        ret (is_some recorded)
      else ret true
  | Some None =>
      let! now := now_ in
      let! submitting := gets s_submitting in
      if (mr_expires_at r <? now) && negb (bool_decide (mr_plan_id r ∈ submitting)) then
        let! removed := checked (writes (fun o => Ok (OpsStore.remove_manual_reservation o (mr_plan_id r)))) in
        do! (if is_some removed
             then modify (fun s => with_reservations (delete (mr_plan_id r) (s_reservations s)) s)
             else ret tt) in
        ret true
      else ret true
  end.

Fixpoint refresh_each (l : list ManualCronReservation) : act bool :=
  match l with
  | [] => ret true
  | r :: rest => let! ok := refresh_reservation r in if (ok : bool) then refresh_each rest else ret false
  end.

Definition refresh_manual_reservations : act bool :=
  let! reservations := checked (reads (fun o => Ok (OpsStore.manual_reservations o))) in
  match reservations with
  | None => ret false
  | Some l => refresh_each l
  end.

Definition UNFINISHED : list Z := [CronRunStatus.Running; CronRunStatus.Pending].

Definition recover : act unit :=
  do! refresh_manual_reservations in
  let! rows := list_rows KCronRun None UNFINISHED 10000 in
  let! now := now_ in
  mfor (recover_row now) rows.

Definition manual_started (action : AdmittedAction) : act bool :=
  let! consumed := consumed_log in
  ret (is_some_and consumed (fun log =>
    existsb (fun line => action_line action line && is_null line.["scheduled_for"]) (run_lines log "run_cron"))).

Definition manual_result (action : AdmittedAction) : act (option Value) :=
  let! consumed := consumed_log in
  ret match consumed with
      | Some log => find_first (action_line action) (rev (run_results log "run_cron"))
      | None => None
      end.

Definition manual_status (outcome : string) : Z :=
  if String.eqb outcome "succeeded" then CronRunStatus.Succeeded
  else if String.eqb outcome "cancelled" then CronRunStatus.Cancelled
  else CronRunStatus.Failed.

(** The run an action settles: the unfinished row of its slot, a recent row,
    or a new run; [None] where the loop continues. *)
Definition manual_existing (now : Z) (action : AdmittedAction) (recorded : option OpsRow) : act (option CronRun) :=
  let cron_id := str_or_default (params action).["cron_id"] in
  let slot := manual_slot (plan_id action) in
  let! existing := match recorded with
    | Some row => ret (Some row)
    | None => let! rows := list_rows KCronRun (Some cron_id) [] 50 in
              ret (find_first (fun row => String.eqb (or_slot row) slot) rows)
    end in
  match existing with
  | Some row => ret match run_of_row row with
                    | Some run => if is_final (cr_status run) then None else Some run
                    | None => None
                    end
  | None =>
      let! started := if is_empty (outcome_text action) then manual_started action else ret true in
      if (started : bool) then let! id := fresh_id now in ret (Some (manual_run id action)) else ret None
  end.

(** An action without an outcome: its run counts as a chain. *)
Definition manual_open (now : Z) (cron_id slot : string) (job : option JobDef) (run : CronRun) : act unit :=
  let starts := cr_status run =? CronRunStatus.Pending in
  let run := if starts then run_started (run_status run CronRunStatus.Running) now else run in
  let! saved := if starts then save run slot else ret true in
  if negb saved then ret tt
  else
    do! (if starts then publish job run else ret tt) in
    let! chains := gets s_chains in
    if is_some (chains !! cr_id run) then ret tt
    else do! add_running 1 in insert_chain (cr_id run) (running_chain cron_id run).

(** An action that ended: its run ends. *)
Definition manual_end (now : Z) (slot : string) (job : option JobDef) (action : AdmittedAction) (run : CronRun)
    : act unit :=
  let run := run_status run (manual_status (outcome_text action)) in
  let! line := if String.eqb (outcome_text action) "cancelled" then ret None else manual_result action in
  let run := match line with Some line => (apply_result run (inr line)).1 | None => run end in
  let run := run_finished run (default now (match finished_at action with Some t => parse_rfc t | None => None end))
               (cr_error run) in
  let! saved := save run slot in
  if negb saved then ret tt
  else
    do! publish job run in
    let! chains := gets s_chains in
    do! (if is_some (chains !! cr_id run) then do! remove_chain (cr_id run) in sub_running else ret tt) in
    match job with
    | Some job => end_chain job (cr_id run) run
    | None => ret tt
    end.

Definition unfinished_key (cron_id slot : string) (row : OpsRow) : bool :=
  String.eqb (or_subject row) cron_id && String.eqb (or_slot row) slot.

Fixpoint reconcile_actions (now : Z) (jobs : bmap JobDef) (unfinished : list OpsRow) (actions : list AdmittedAction)
    : act unit :=
  match actions with
  | [] => ret tt
  | action :: rest =>
      let cron_id := str_or_default (params action).["cron_id"] in
      let slot := manual_slot (plan_id action) in
      (* the last collected row of a key is the map's *)
      let recorded := find_first (unfinished_key cron_id slot) (rev unfinished) in
      let unfinished := delete_where (unfinished_key cron_id slot) unfinished in
      let recent := is_some_and (parse_rfc (admitted_at action)) (fun t => now - 7200 <=? t) in
      do! (if negb (is_some recorded) && negb recent then ret tt
           else
             let! run := manual_existing now action recorded in
             match run with
             | None => ret tt
             | Some run =>
                 let job := bget cron_id jobs in
                 if is_empty (outcome_text action) then manual_open now cron_id slot job run
                 else manual_end now slot job action run
             end) in
      reconcile_actions now jobs unfinished rest
  end.

Definition reconcile_manual (now : Z) : act unit :=
  let! actions := store_read (fun db => admitted_actions db ["cron.run"]) in
  match actions with
  | None => ret tt
  | Some actions =>
      let! jobs := gets s_jobs in
      let! rows := list_rows KCronRun None UNFINISHED 10000 in
      let unfinished := select (fun row => is_some_and (run_of_row row)
                                             (fun run => cr_trigger run =? CronTrigger.Manual)) rows in
      do! reconcile_actions now jobs unfinished actions in
      fill_slots
  end.

Definition reload : act bool :=
  let! actions := store_read (fun db => admitted_actions db CRON_KINDS) in
  match actions with
  | None => ret false
  | Some actions => do! modify (with_jobs (load_jobs actions)) in ret true
  end.

Definition overlap_limit (o : Overlap) : Z := match o with Allow => MAX_ALLOWED_CHAINS | _ => 1 end.

Definition begin_admitted_manual (cron_id : string) (adm : AdmissionRecord) : act (string + unit) :=
  let! loaded := reload in
  if negb loaded then ret (inl "cron definitions are unavailable")
  else
    let! refreshed := refresh_manual_reservations in
    if negb refreshed then ret (inl "manual capacity is unavailable")
    else
      let! now := now_ in
      do! reconcile_manual now in
      let! s := gets id in
      match bget cron_id (s_jobs s) with
      | None => ret (inl "unknown cron job")
      | Some job =>
          let own := count (fun c : string * Chain => String.eqb (ch_cron_id c.2) cron_id
            && String.eqb (cr_plan_id (ch_run c.2)) (q_plan_id adm)) (map_to_list (s_chains s)) in
          let reserved := if is_some_and (s_reservations s !! q_plan_id adm)
            (fun r => String.eqb (mr_cron_id r) cron_id) then 1 else 0 in
          if overlap_limit (jd_overlap job) <=? Z.max 0 (active_chains s cron_id - (own + reserved)) then
            ret (inl "overlap: a run of this job is still active")
          else if MAX_RUNNING <=? Z.max 0 (occupied s - (own + reserved)) then
            ret (inl "all cron container slots are occupied")
          else
            let! recorded := record_manual_locked cron_id (q_plan_id adm) (q_operation_id adm) in
            ret (if is_some recorded then inr tt else inl "manual cron history could not be committed")
      end.

Definition finish_admitted_manual : act unit := let! now := now_ in reconcile_manual now.

Definition reserve_manual (cron_id plan_id digest_hex : string) (expires_at : Z) : act (string + unit) :=
  let! loaded := reload in
  if negb loaded then ret (inl "cron definitions are unavailable")
  else
    let! refreshed := refresh_manual_reservations in
    if negb refreshed then ret (inl "manual capacity is unavailable")
    else
      let! s := gets id in
      let submit := modify (fun s => with_submitting ({[ plan_id ]} ∪ s_submitting s) s) in
      if bool_decide (plan_id ∈ s_submitting s) then ret (inl "this cron plan is already being admitted")
      else match s_reservations s !! plan_id with
      | Some existing =>
          if negb (String.eqb (mr_cron_id existing) cron_id) || negb (String.eqb (mr_digest_hex existing) digest_hex)
             || negb (mr_expires_at existing =? expires_at)
          then ret (inl "manual reservation authority changed")
          else do! submit in ret (inr tt)
      | None =>
          match bget cron_id (s_jobs s) with
          | None => ret (inl "unknown cron job")
          | Some job =>
              if overlap_limit (jd_overlap job) <=? active_chains s cron_id then
                ret (inl "overlap: a run of this job is still active")
              else if MAX_RUNNING <=? occupied s then ret (inl "all cron container slots are occupied")
              else
                let! now := now_ in
                let! run_id := fresh_id now in
                let r := {| mr_plan_id := plan_id; mr_cron_id := cron_id; mr_digest_hex := digest_hex;
                            mr_expires_at := expires_at; mr_run_id := run_id |} in
                let! reserved := checked (writes (fun o => OpsStore.reserve_manual o r)) in
                if negb (is_some reserved) then ret (inl "manual capacity could not be persisted")
                else
                  do! modify (fun s => with_reservations (<[plan_id := r]> (s_reservations s)) s) in
                  do! submit in ret (inr tt)
          end
      end.

Definition release_unadmitted_manual (plan_id : string) : act unit :=
  do! modify (fun s => with_submitting (s_submitting s ∖ {[ plan_id ]}) s) in
  let! found := admission_of plan_id in
  match found with
  | Some None =>
      let! removed := checked (writes (fun o => Ok (OpsStore.remove_manual_reservation o plan_id))) in
      if is_some removed then modify (fun s => with_reservations (delete plan_id (s_reservations s)) s) else ret tt
  | _ => ret tt
  end.

Definition record_skipped_manual (cron_id reason : string) : act CronRun :=
  let! now := now_ in
  let! id := fresh_id now in
  let run := run_finished (run_status (manual_new id cron_id "" "" now) CronRunStatus.SkippedOverlap) now reason in
  do! save run "" in
  let! jobs := gets s_jobs in
  do! publish (bget cron_id jobs) run in
  ret run.

(** ** The tick *)

Definition needs_runner_id (c : string * Chain) : bool :=
  (cr_status (ch_run c.2) =? CronRunStatus.Running) && is_empty (cr_runner_run_id (ch_run c.2))
  && negb (is_empty (cr_plan_id (ch_run c.2))).

Definition note_runner_id (lines : list Value) (entry : string * Chain) : act unit :=
  let '(chain_id, chain) := entry in
  let run := ch_run chain in
  let! authority := run_authority run in
  match authority with
  | None => ret tt
  | Some authority =>
      match find_runner_run_id lines authority (cr_scheduled_for run) (cr_attempt run) with
      | None => ret tt
      | Some id =>
          let run := run_runner_id run id in
          do! update_chain_run chain_id run in
          let slot := if cr_trigger run =? CronTrigger.Manual then manual_slot (cr_plan_id run)
                      else scheduled_slot run in
          do! save run slot in
          let! jobs := gets s_jobs in
          publish (bget (cr_cron_id run) jobs) run
      end
  end.

Definition note_runner_ids : act unit :=
  let! chains := chains_in_order in
  let missing := select needs_runner_id chains in
  let! consumed := consumed_log in
  match consumed with
  | None => ret tt
  | Some log => mfor (note_runner_id (run_lines log "run_cron")) missing
  end.

Definition fire_job (from now : Z) (downtime : bool) (job : JobDef) : act unit :=
  if jd_enabled job then fire_due job from now downtime else ret tt.

Definition tick : act unit :=
  let! now := now_ in
  let! before := failure_generation in
  let! loaded := reload in
  if negb loaded then ret tt
  else
    do! recover in
    let! g := failure_generation in
    if negb (before =? g) then ret tt
    else
      let! stored := read_meta CHECKPOINT_KEY in
      match checkpoint_at now stored with
      | None => ret tt
      | Some checkpoint =>
          do! reconcile_manual now in
          let! g := failure_generation in
          if negb (before =? g) then ret tt
          else
            let! jobs := gets s_jobs in
            do! mfor (fire_job (Z.min checkpoint now) now (DOWNTIME_SECONDS <? now - checkpoint)) (bvalues jobs) in
            do! retries_due now in
            do! reconcile_manual now in
            do! note_runner_ids in
            let! g := failure_generation in
            if negb (before =? g) then ret tt
            else write_meta CHECKPOINT_KEY (i64_text now)
      end.

(** One round of [spawn]'s loop. *)
Definition spawn_round : act unit :=
  do! tick in
  let! now := now_ in
  do! checked (writes (fun o => try_prune o now)) in ret tt.

(** [CronScheduler::new] on the given stores. *)
Definition new_scheduler : act unit := do! modify (fun _ => empty_state) in recover.

End scheduler.

Notation World := (SchedWorld State Task CronRun).
