(* ===== verification/CronFacts.v ===== *)
(** * Theorems about the cron scheduler

    Every dispatched run is authorized by a recorded definition; a fire time
    starts at most once; the checkpoint moves only past work that was
    recorded; at most eight containers are launched; the overlap policy
    bounds a job's chains; and the loop that starts waiting chains returns. *)

From S2P Require Import Prelude RustStr BTree PlanCode Json Jcs Calendar Text Trust Verify.
From S2P Require Import CronExpr Store DefinitionStore AdmissionStore Queries Proto OpsStore.
From S2P Require Import OpsFacts Effects Runner CronJobs Sched CronSched.

(** * What scheduler operations keep

    A relation between worlds that holds for each primitive effect holds for
    every operation of the cron scheduler: [Frame] lists the primitive
    effects, and the lemmas below lift it to the operations. *)

Import Definitions.

Section frame.
Context {J : Jiff} {JD : JiffDb} {JR : JsonReader} {PB : Prost} {ST : SqliteTime} {HO : Host}.

(** The transactions of the scheduler on ops.db. *)
Inductive cron_ops (o : Ops) : Ops -> Prop :=
| co_claim e schedule won o' : claim_scheduled o KCronRun e schedule = Ok (won, o') -> cron_ops o o'
| co_put e seq o' : put o KCronRun e = Ok (seq, o') -> cron_ops o o'
| co_put_scheduled e schedule o' : put_scheduled_record o KCronRun e schedule = Ok o' -> cron_ops o o'
| co_reserve r o' : OpsStore.reserve_manual o r = Ok o' -> cron_ops o o'
| co_unreserve plan_id : cron_ops o (OpsStore.remove_manual_reservation o plan_id)
| co_commit run recorded o' : commit_manual_run o run = Ok (recorded, o') -> cron_ops o o'
| co_prune now o' : try_prune o now = Ok o' -> cron_ops o o'.

Lemma cron_ops_step o o' : cron_ops o o' -> ops_step o o'.
Proof. destruct 1; [eapply ops_claim|eapply ops_put|eapply ops_put_scheduled|eapply ops_reserve|eapply ops_unreserve
  |eapply ops_commit_manual|eapply ops_prune]; done. Qed.

(** The job is what one recorded [cron.create] or [cron.update] defines. *)
Definition defined_by (db : Db) (job : JobDef) : Prop :=
  exists action cron_id, action ∈ admitted_actions db ["cron.create"; "cron.update"] /\
    succeeded action = true /\ as_str (params action).["cron_id"] = Some cron_id /\
    job = define_job action cron_id None.

Class Frame (R : relation World) : Prop := {
  frame_reader :: Reader R;
  frame_state w s : R w (set_state s w);
  frame_out w x : R w (set_out x w);
  frame_draws w x : R w (set_draws x w);
  frame_ops w o : cron_ops (w_ops w) o -> R w (set_ops o w);
  frame_task w t : defined_by (w_db w) (tk_job t) -> tk_schedule t = schedule_of (tk_job t) (tk_run t) ->
    R w (set_tasks (w_tasks w ++ [t]) w)
}.

Section rules.
Context {R : relation World} {FR : Frame R}.

Lemma keeps_modify f : keeps R (modify f).
Proof. intros w. apply frame_state. Qed.

Lemma keeps_emit o : keeps R (emit o).
Proof. intros w. apply frame_out. Qed.

Lemma keeps_draw {A} (f : nat -> A) : keeps R (draw f).
Proof. intros w. apply frame_draws. Qed.

Lemma keeps_checked {A} (f : Ops -> store_result (A * Ops)) :
  (forall o a o', f o = Ok (a, o') -> cron_ops o o') -> keeps R (checked f).
Proof. intros Hf. apply keeps_transaction. intros w a o H. eapply frame_ops, Hf, H. Qed.

Lemma keeps_writes f : (forall o o', f o = Ok o' -> cron_ops o o') -> keeps R (checked (writes f)).
Proof. intros Hf. apply keeps_checked. unfold writes. intros o a o' H. inv_ok H. simplify_eq. by apply Hf. Qed.

End rules.

(** ** Operations *)

#[local] Hint Resolve keeps_modify keeps_emit keeps_draw : keeps.

Section reading.
Context {R : relation World} {RR : Reader R}.

Lemma keeps_run_authority run : keeps R (run_authority run).
Proof. unfold run_authority. keep. Qed.

Lemma keeps_original_job run : keeps R (original_job run).
Proof. unfold original_job. pose proof keeps_run_authority. keep. Qed.

End reading.

Section operations.
Context {R : relation World} {FR : Frame R}.

Lemma keeps_save run slot : keeps R (save run slot).
Proof.
  unfold save, now_. keep. apply keeps_checked. intros ? ? ? H. by eapply co_put.
Qed.

Lemma keeps_publish job run : keeps R (publish job run).
Proof. apply keeps_emit. Qed.

Lemma keeps_record job run : keeps R (record job run).
Proof. unfold record. pose proof keeps_save. pose proof keeps_publish. keep. Qed.

Lemma keeps_log job run level message : keeps R (log job run level message).
Proof. apply keeps_emit. Qed.

Lemma keeps_report job kind occurred summary : keeps R (report job kind occurred summary).
Proof. unfold report. keep. Qed.

Lemma keeps_fresh_id now : keeps R (fresh_id now).
Proof. apply keeps_draw. Qed.

Lemma keeps_chains_in_order : keeps R chains_in_order.
Proof. unfold chains_in_order. keep. Qed.

#[local] Hint Resolve keeps_run_authority keeps_original_job keeps_save keeps_publish keeps_record
  keeps_log keeps_report keeps_fresh_id keeps_chains_in_order : keeps.
#[local] Hint Unfold now_ consumed_log failure_generation update_chain_run update_chain remove_chain insert_chain
  add_running sub_running push_slot_front push_slot_back admission_of : keeps.

(** ** Launching *)

Lemma run_authority_db run w : w_db (run_authority run w).2 = w_db w.
Proof.
  unfold run_authority, bind. pose proof (checked_db (reads (fun o => scheduled_intent o KCronRun (cr_id run))) w) as Hd.
  destruct (checked _ w) as [[[i|]|] w1]; cbn [snd] in Hd; [done| |done].
  destruct (store_read _ w1) as [r w2] eqn:Hs. apply store_read_spec in Hs as [Hd2 _]. cbn. congruence.
Qed.

Lemma load_one_defined db action cron_id job :
  action ∈ admitted_actions db ["cron.create"; "cron.update"] ->
  bget cron_id (load_jobs [action]) = Some job -> defined_by db job.
Proof.
  intros Hin. unfold load_jobs. cbn [rev app]. unfold select. cbn [List.filter].
  destruct (succeeded action) eqn:Hs; [|done]. cbn [fold_left]. unfold load_job.
  destruct (as_str _) as [cid|] eqn:Hc; [|done]. cbn [bget is_some_and].
  destruct (contains_str _ _); cbn [binsert bget].
  - destruct (String.eqb cron_id cid); [|done]. intros [= <-]. exists action, cid. split_and!; done.
  - destruct (String.eqb _ _); [done|]. destruct (String.eqb _ _); [done|]. by destruct (String.eqb _ _).
Qed.

Lemma original_job_spec run w job w' : original_job run w = (Some job, w') ->
  w_db w' = w_db w /\ defined_by (w_db w) job.
Proof.
  unfold original_job, bind. pose proof (run_authority_db run w) as Hd.
  destruct (run_authority run w) as [[authority|] w1]; cbn [snd] in Hd; [|done].
  destruct (store_read _ w1) as [r w2] eqn:Hs. apply store_read_spec in Hs as [Hd2 Hr]. cbn.
  intros [= Hj <-]. split; [congruence|]. destruct Hr as [->| ->]; [done|].
  destruct (find_first _ _) as [action|] eqn:Hf; [|done]. apply find_first_Some in Hf as [Hin _].
  eapply load_one_defined; [|exact Hj]. by rewrite <- Hd.
Qed.

Lemma launch_keeps job chain_id run w : defined_by (w_db w) job -> R w (launch job chain_id run w).2.
Proof.
  intros Hdef. unfold launch, bind at 1. cbn [now_ asks]. unfold bind at 1.
  match goal with |- context [checked ?f w] =>
    assert (R w (checked f w).2) as Hc; [|pose proof (checked_db f w) as Hd; destruct (checked f w) as [r w1]] end.
  { apply keeps_writes. intros o o' H. by eapply co_put_scheduled. }
  cbn [snd] in Hc, Hd. etrans; [exact Hc|]. destruct r as [[]|].
  - unfold bind, publish, emit, update_chain_run, update_chain, modify, log, spawn_task. cbn [snd].
    etrans; [apply frame_out|]. etrans; [apply frame_state|]. etrans; [apply frame_out|].
    apply frame_task; [|done]. cbn. by rewrite Hd.
  - clear Hc Hd. revert w1. change (keeps R (do! sub_running in
      do! update_chain chain_id (set_chain_waiting true) in push_slot_front chain_id)).
    unfold sub_running, update_chain, push_slot_front. keep.
Qed.

Lemma keeps_fill_start chain_id chain : keeps R (fill_start chain_id chain).
Proof.
  intros w. unfold fill_start, bind at 1.
  match goal with |- context [original_job ?r w] =>
    pose proof (keeps_original_job r w) as Ho; destruct (original_job r w) as [[job|] w1] eqn:Hj end; cbn [snd] in Ho.
  2:{ etrans; [exact Ho|]. clear Hj Ho. revert w1.
      match goal with |- forall w1, R w1 (?m w1).2 => change (keeps R m) end. unfold push_slot_front. keep. }
  apply original_job_spec in Hj as [Hd Hdef]. etrans; [exact Ho|]. clear Ho.
  unfold bind at 1. cbn [gets asks]. cbn [fst snd].
  destruct (_ || _). { unfold push_slot_front, modify, bind, ret. cbn [snd]. apply frame_state. }
  destruct (_ !! _) as [current|]; [|reflexivity]. destruct (negb _); [reflexivity|].
  unfold bind, update_chain, add_running, modify. cbn [snd].
  match goal with |- context [launch job ?c ?r ?w2] => pose proof (launch_keeps job c r w2) as Hl;
    destruct (launch job c r w2) as [u w3] end. cbn [snd] in *. etrans; [|apply Hl; cbn; by rewrite Hd].
  etrans; [apply frame_state|]. apply frame_state.
Qed.

Lemma keeps_fill_round : keeps R fill_round.
Proof. unfold fill_round, now_, remove_chain, push_slot_front. pose proof keeps_fill_start. keep. Qed.

Lemma keeps_fill_slots : keeps R fill_slots.
Proof.
  assert (forall fuel, keeps R (fill_loop fuel)) as H.
  { induction fuel as [|fuel IH]; cbn [fill_loop]; [apply keeps_ret|].
    apply keeps_bind; [apply keeps_fill_round|]. intros [|]; [done|apply keeps_ret]. }
  intros w. unfold fill_slots. specialize (H (fill_fuel w) w). by destruct (fill_loop _ w).
Qed.

#[local] Hint Resolve keeps_fill_slots : keeps.

Lemma keeps_start_chain job run now : keeps R (start_chain job run now).
Proof. unfold start_chain, insert_chain, push_slot_back. keep. Qed.
#[local] Hint Resolve keeps_start_chain : keeps.

Lemma keeps_start_scheduled job t now : keeps R (start_scheduled job t now).
Proof.
  unfold start_scheduled. keep. apply keeps_checked. intros ? ? ? H. by eapply co_claim.
Qed.
#[local] Hint Resolve keeps_start_scheduled : keeps.

Lemma keeps_fire_due job from now downtime : keeps R (fire_due job from now downtime).
Proof. unfold fire_due, record_missed. keep. Qed.

Lemma keeps_end_chain job chain_id run : keeps R (end_chain job chain_id run).
Proof. unfold end_chain, remove_chain, push_slot_back. keep. Qed.
#[local] Hint Resolve keeps_fire_due keeps_end_chain : keeps.

Lemma keeps_finish job chain_id run result : keeps R (finish job chain_id run result).
Proof. unfold finish, now_, sub_running, update_chain. keep. Qed.
#[local] Hint Resolve keeps_finish : keeps.

Lemma keeps_complete t answer views : keeps R (complete t answer views).
Proof.
  assert (forall run failure, keeps R (lost_answer run failure views)).
  { intros run failure. induction views as [|log later IH]; cbn [lost_answer]; unfold lost_look; keep. }
  unfold complete, consumed_log. keep.
Qed.

Lemma keeps_retries_due now : keeps R (retries_due now).
Proof. unfold retries_due, retry_chain, remove_chain, update_chain, push_slot_back. keep. Qed.

Lemma keeps_record_manual_locked cron_id plan_id operation_id :
  keeps R (record_manual_locked cron_id plan_id operation_id).
Proof.
  unfold record_manual_locked, now_, add_running, insert_chain. keep.
  all: apply keeps_checked; intros ? ? ? H; by eapply co_commit.
Qed.
#[local] Hint Resolve keeps_record_manual_locked keeps_retries_due keeps_complete : keeps.

Lemma keeps_record_manual cron_id plan_id operation_id : keeps R (record_manual cron_id plan_id operation_id).
Proof. unfold record_manual. keep. Qed.
#[local] Hint Resolve keeps_record_manual : keeps.

Lemma keeps_unreserve plan_id :
  keeps R (checked (writes (fun o => Ok (OpsStore.remove_manual_reservation o plan_id)))).
Proof. apply keeps_writes. intros o o' [= <-]. apply co_unreserve. Qed.
#[local] Hint Resolve keeps_unreserve : keeps.

Lemma keeps_refresh : keeps R refresh_manual_reservations.
Proof.
  unfold refresh_manual_reservations. keep.
  match goal with |- keeps R (refresh_each ?l) => induction l as [|r rest IH] end; cbn [refresh_each]; [keep|].
  unfold refresh_reservation, admission_of, now_. keep.
Qed.
#[local] Hint Resolve keeps_refresh : keeps.

Lemma keeps_recover : keeps R recover.
Proof.
  unfold recover, recover_row, recovered_result, now_, consumed_log, add_running, sub_running, remove_chain, insert_chain.
  keep.
Qed.

Lemma keeps_reconcile_manual now : keeps R (reconcile_manual now).
Proof.
  assert (forall actions jobs unfinished, keeps R (reconcile_actions now jobs unfinished actions)).
  { induction actions as [|a rest IH]; intros jobs unfinished; cbn [reconcile_actions]; [keep|].
    unfold manual_existing, manual_open, manual_end, manual_started, manual_result, consumed_log, add_running,
      insert_chain, remove_chain, sub_running. keep. }
  unfold reconcile_manual. keep.
Qed.

Lemma keeps_reload : keeps R reload.
Proof. unfold reload. keep. Qed.
#[local] Hint Resolve keeps_recover keeps_reconcile_manual keeps_reload : keeps.

Lemma keeps_begin_admitted_manual cron_id adm : keeps R (begin_admitted_manual cron_id adm).
Proof. unfold begin_admitted_manual, now_. keep. Qed.

Lemma keeps_reserve_manual cron_id plan_id digest expires : keeps R (reserve_manual cron_id plan_id digest expires).
Proof.
  unfold reserve_manual, now_. keep. apply keeps_writes. intros o o' H. by eapply co_reserve.
Qed.

Lemma keeps_release plan_id : keeps R (release_unadmitted_manual plan_id).
Proof. unfold release_unadmitted_manual, admission_of. keep. Qed.

Lemma keeps_skipped cron_id reason : keeps R (record_skipped_manual cron_id reason).
Proof. unfold record_skipped_manual, now_. keep. Qed.

Lemma keeps_note_runner_ids : keeps R note_runner_ids.
Proof. unfold note_runner_ids, note_runner_id, consumed_log, update_chain_run, update_chain. keep. Qed.
#[local] Hint Resolve keeps_note_runner_ids : keeps.

(** The checkpoint is the one write of a tick that is not a [cron_ops]. *)
Lemma keeps_tick : (forall now, keeps R (write_meta CHECKPOINT_KEY (i64_text now))) -> keeps R tick.
Proof. intros Hm. unfold tick, now_, failure_generation, fire_job. keep. Qed.

Lemma keeps_prune now : keeps R (checked (writes (fun o => try_prune o now))).
Proof. apply keeps_writes. intros o o' H. by eapply co_prune. Qed.

Lemma keeps_new_scheduler : keeps R new_scheduler.
Proof. unfold new_scheduler. keep. Qed.

End operations.
End frame.

Import Definitions.

Section facts.
Context {J : Jiff} {JD : JiffDb} {JR : JsonReader} {PB : Prost} {ST : SqliteTime} {HO : Host}.

(** ** Operations of the scheduler *)

Inductive operation : act unit -> Prop :=
| op_new : operation new_scheduler
| op_tick : operation tick
| op_prune now : operation (do! checked (writes (fun o => try_prune o now)) in ret tt)
| op_complete t answer views : operation (complete t answer views)
| op_begin cron_id adm : operation (do! begin_admitted_manual cron_id adm in ret tt)
| op_finish_manual : operation finish_admitted_manual
| op_reserve cron_id plan_id digest expires : operation (do! reserve_manual cron_id plan_id digest expires in ret tt)
| op_release plan_id : operation (release_unadmitted_manual plan_id)
| op_skipped cron_id reason : operation (do! record_skipped_manual cron_id reason in ret tt).

Lemma operation_keeps R `{!Frame R} m :
  (forall now, keeps R (write_meta CHECKPOINT_KEY (i64_text now))) -> operation m -> keeps R m.
Proof.
  intros Hm [].
  - apply keeps_new_scheduler.
  - by apply keeps_tick.
  - apply keeps_bind; [apply keeps_prune|intros; apply keeps_ret].
  - apply keeps_complete.
  - apply keeps_bind; [apply keeps_begin_admitted_manual|intros; apply keeps_ret].
  - apply keeps_bind; [apply keeps_asks|intros; apply keeps_reconcile_manual].
  - apply keeps_bind; [apply keeps_reserve_manual|intros; apply keeps_ret].
  - apply keeps_release.
  - apply keeps_bind; [apply keeps_skipped|intros; apply keeps_ret].
Qed.

(** ** Authority of dispatched runs *)

(** The binding the runner is asked to verify names the plan of the
    definition, the run's fire time and its attempt. *)
Definition authorized (db : Db) (t : Task) : Prop :=
  defined_by db (tk_job t) /\ tk_schedule t = schedule_of (tk_job t) (tk_run t).

Definition adds_authorized (w w' : World) : Prop :=
  w_db w' = w_db w /\ forall t, t ∈ w_tasks w' -> t ∈ w_tasks w \/ authorized (w_db w) t.

#[local] Instance adds_authorized_frame : Frame adds_authorized.
Proof.
  unfold adds_authorized. split; [split; [split|..]|..]; try (intros; split; [done|by left]); try by (intros w; auto).
  - intros w1 w2 w3 [H1 H2] [H3 H4]. split; [congruence|]. intros t [Ht|Ht]%H4; [by apply H2|]. right. by rewrite <- H1.
  - intros w t Hd Hs. split; [done|]. cbn [w_tasks set_tasks]. intros t' [Ht|Ht]%elem_of_app; [by left|].
    apply list_elem_of_singleton in Ht as ->. right. by split.
Qed.

(** C26.  Every run any scheduler operation dispatches is one a recorded
    definition authorizes: its job is exactly what an admitted [cron.create]
    or [cron.update] with a recorded success defines, and the binding sent to
    the runner names that action's plan, the fire time and the attempt. *)
Theorem dispatched_authorized m w t :
  operation m -> t ∈ w_tasks (m w).2 -> t ∈ w_tasks w \/ authorized (w_db w) t.
Proof.
  intros Hm. apply (operation_keeps adds_authorized) in Hm; [by apply Hm|].
  intros now w'. unfold write_meta, bind, fault. destruct (w_faults w') as [|[] ?]; (split; [done|by left]).
Qed.

(** ** Fire times *)

Context {SL : SqliteTimeLaws}.

#[local] Instance keeps_taken_frame : Frame keeps_taken.
Proof.
  unfold keeps_taken. split; [split; [split|..]|..]; try (intros; eauto; done).
  intros w o Ho. by apply ops_step_taken, cron_ops_step.
Qed.

(** What the scheduler and its environment do, one step at a time: an
    operation, a task that ends, a restart, the passing of time and changes
    of the admission store and the consumed log. *)
Inductive cron_step (w : World) : World -> Prop :=
| step_op m : operation m -> cron_step w (m w).2
| step_tasks tasks : cron_step w (set_tasks tasks w)
| step_reopen : cron_step w (set_ops (open_ops (w_ops w)) w)
| step_env db log now faults :
    cron_step w {| w_state := w_state w; w_ops := w_ops w; w_failures := w_failures w; w_db := db; w_log := log;
                   w_now := now; w_faults := faults; w_draws := w_draws w; w_tasks := w_tasks w; w_out := w_out w |}.

Lemma cron_step_taken w w' : cron_step w w' -> keeps_taken w w'.
Proof.
  intros [m Hm|tasks| |db log now faults]; try by (intros k s sl t Ht Htk).
  - apply operation_keeps; [apply _|intros; by apply write_meta_taken|done].
  - intros k s sl t Ht Htk. cbn [w_ops set_ops]. eapply step_taken; [exact Ht|apply ops_reopen|done].
Qed.

#[export] Existing Instance quiet_reader.

(** Starting a fire time changes nothing, or the fire time is taken after it
    and was not before. *)
Lemma start_scheduled_cases job t now w : timestamp (rfc t) = Some t ->
  quiet w (start_scheduled job t now w).2 \/
  (~ taken (w_ops w) KCronRun (jd_cron_id job) (rfc t) /\
   taken (w_ops (start_scheduled job t now w).2) KCronRun (jd_cron_id job) (rfc t)).
Proof.
  intros Ht. destruct (start_scheduled job t now w) as [u w'] eqn:He. cbn [snd]. revert He.
  unfold start_scheduled, bind at 1. pose proof (keeps_has_slot (R := quiet) KCronRun (jd_cron_id job) (rfc t) w) as Hq.
  destruct (has_slot_ _ _ _ w) as [[] w1]; cbn [snd] in Hq; [intros [= _ <-]; by left|].
  unfold bind at 1. cbn [fresh_id draw]. unfold bind at 1.
  set (w2 := set_draws _ w1). assert (quiet w w2) as Hq2 by (etrans; [exact Hq|by split_and!]). clearbody w2.
  destruct (checked _ w2) as [r w3] eqn:Hc. apply checked_cases in Hc as [(-> & Hq3 & _)|(won & o & w4 & -> & Hf & Hq4 & _ & ->)].
  { intros [= _ <-]. left. by etrans. }
  apply claim_inner_cases in Hf as [[-> ->]|(-> & Hnt & _ & Hcl)].
  - intros [= _ <-]. left. destruct Hq2 as (?&?&?&?), Hq4 as (?&?&?&?). split_and!; cbn; congruence.
  - intros He. right. rewrite (proj1 (proj2 Hq2)) in Hnt. split; [exact Hnt|].
    apply (f_equal snd) in He. cbn [snd] in He. rewrite <- He.
    refine (keeps_start_chain (R := keeps_taken) job _ now (set_ops o w4) _ _ _ t Ht _).
    left. cbn [w_ops set_ops]. rewrite Hcl, existsb_app. cbn [existsb]. unfold is_slot, same_kind.
    cbn [sl_kind sl_subject sl_slot en_subject en_slot run_entry cr_cron_id new_run].
    by rewrite bool_decide_true, !String.eqb_refl, orb_true_r.
Qed.

(** C27.  A fire time starts at most once: when starting it had any effect
    (a run recorded, published or dispatched), then after any further
    operations, restarts, clock changes, failing database calls and pruning,
    starting the same fire time of the job again has none. *)
Theorem fire_time_once job t now w job' now' w2 :
  timestamp (rfc t) = Some t -> jd_cron_id job' = jd_cron_id job ->
  ~ quiet w (start_scheduled job t now w).2 -> rtc cron_step (start_scheduled job t now w).2 w2 ->
  quiet w2 (start_scheduled job' t now' w2).2.
Proof.
  intros Ht Hid Hnq Hr. destruct (start_scheduled_cases job t now w Ht) as [?|[_ Htk]]; [done|].
  assert (taken (w_ops w2) KCronRun (jd_cron_id job) (rfc t)) as Htk2.
  { clear Hnq. induction Hr as [|a b c Hs _ IH]; [done|]. eapply IH, cron_step_taken; eauto. }
  destruct (start_scheduled_cases job' t now' w2 Ht) as [?|[Hn _]]; [done|]. by rewrite Hid in Hn.
Qed.

(** ** The checkpoint *)

Definition checkpoint (w : World) : option string := bget CHECKPOINT_KEY (o_meta (w_ops w)).

Lemma cron_ops_meta o o' : cron_ops o o' -> bget CHECKPOINT_KEY (o_meta o') = bget CHECKPOINT_KEY (o_meta o).
Proof.
  intros [e s won o1 H|e seq o1 H|e s o1 H|r o1 H|pid|run rec o1 H|now o1 H]; try done.
  - apply claim_inner_cases in H as [[_ ->]|(_ & _ & -> & _)]; done.
  - by apply write_record_frame in H as (_ & -> & _).
  - unfold put_scheduled_record in H. inv_ok H. destruct x0. simplify_eq/=.
    apply bind_schedule_frame in Hx as (_ & Hm & _). apply write_record_frame in Hx0 as (_ & -> & _). by rewrite Hm.
  - unfold OpsStore.reserve_manual in H. destruct (find_first _ _); [inv_ok H|]; by simplify_eq.
  - unfold commit_manual_run in H. inv_ok H. destruct x0. simplify_eq/=.
    by apply write_record_frame in Hx0 as (_ & -> & _).
  - unfold try_prune in H. inv_ok H. rewrite <- H. cbn [o_meta ops_intents ops_records ops_claimed try_set_meta ops_meta].
    by rewrite bget_insert.
Qed.

(** The checkpoint stays and failed calls only add up. *)
Definition keeps_checkpoint (w w' : World) : Prop :=
  checkpoint w' = checkpoint w /\ w_failures w <= w_failures w' /\ w_now w' = w_now w.

#[local] Instance keeps_checkpoint_frame : Frame keeps_checkpoint.
Proof.
  unfold keeps_checkpoint, checkpoint. split; [split; [split|..]|..]; try by (intros w; intros; cbn; split_and!; [done|lia|done]).
  - intros w1 w2 w3 (?&?&?) (?&?&?). split_and!; [congruence|lia|congruence].
  - intros w o Ho. cbn. split_and!; [by apply cron_ops_meta|lia|done].
Qed.

Lemma write_meta_cases now w : let w' := (write_meta CHECKPOINT_KEY (i64_text now) w).2 in
  w_failures w' = w_failures w /\ (checkpoint w' = checkpoint w \/ checkpoint w' = Some (i64_text now)).
Proof.
  unfold write_meta, bind, fault, checkpoint. destruct (w_faults w) as [|[] ?]; cbn [snd w_failures set_ops set_faults w_ops].
  all: split; [done|]. 2: by left. all: right; cbn [try_set_meta o_meta ops_meta]; by rewrite bget_insert, String.eqb_refl.
Qed.

Definition checkpoint_moved (w w' : World) : Prop :=
  checkpoint w' = checkpoint w \/ (checkpoint w' = Some (i64_text (w_now w)) /\ w_failures w' = w_failures w).

(** One operation of a tick from a world [w1] that kept the checkpoint. *)
Lemma tick_bind {A B} w w1 (m : act A) (k : A -> act B) :
  keeps keeps_checkpoint m -> keeps_checkpoint w w1 ->
  (forall a w2, keeps_checkpoint w w2 -> checkpoint_moved w (k a w2).2) -> checkpoint_moved w (bind m k w1).2.
Proof.
  intros Hm H1 Hk. apply run_bind. intros a w2 He. apply Hk. etrans; [exact H1|]. specialize (Hm w1). by rewrite He in Hm.
Qed.

Lemma tick_stop w w1 : keeps_checkpoint w w1 -> checkpoint_moved w (ret tt w1).2.
Proof. intros [? _]. by left. Qed.

(** The guard on the failure generation. *)
Lemma tick_guard w w1 (m : act unit) : keeps_checkpoint w w1 ->
  (w_failures w1 = w_failures w -> checkpoint_moved w (m w1).2) ->
  checkpoint_moved w ((let! g := failure_generation in if negb (w_failures w =? g) then ret tt else m) w1).2.
Proof.
  intros Hk Hm. unfold failure_generation, bind, asks. destruct (Z.eqb_spec (w_failures w) (w_failures w1));
    [by apply Hm|by apply tick_stop].
Qed.

(** A tick that meets a failed store call leaves the checkpoint where
    it was: the checkpoint moves, to the tick's time, only when every store
    call of the tick succeeded, so no fire time is passed over. *)
Theorem checkpoint_after_success w : checkpoint_moved w (tick w).2.
Proof.
  unfold tick. apply (run_bind (checkpoint_moved w)). intros now w' [= <- <-].
  apply (run_bind (checkpoint_moved w)). intros before w' [= <- <-].
  apply tick_bind; [apply keeps_reload|reflexivity|]. intros [] w1 H1; cbn [negb]; [|by apply tick_stop].
  apply tick_bind; [apply keeps_recover|done|]. intros _ w2 H2. apply tick_guard; [done|intros _].
  apply tick_bind; [apply keeps_read_meta|done|]. intros stored w3 H3.
  destruct (checkpoint_at _ stored) as [cp|]; [|by apply tick_stop].
  apply tick_bind; [apply keeps_reconcile_manual|done|]. intros _ w4 H4. apply tick_guard; [done|intros _].
  apply tick_bind; [apply keeps_gets|done|]. intros jobs w5 H5.
  apply tick_bind; [|done|].
  { apply keeps_mfor. intros job. unfold fire_job. destruct (jd_enabled job); [apply keeps_fire_due|apply keeps_ret]. }
  intros _ w6 H6. apply tick_bind; [apply keeps_retries_due|done|]. intros _ w7 H7.
  apply tick_bind; [apply keeps_reconcile_manual|done|]. intros _ w8 H8.
  apply tick_bind; [apply keeps_note_runner_ids|done|]. intros _ w9 H9. apply tick_guard; [done|intros Hf].
  destruct (write_meta_cases (w_now w) w9) as [Hw [Hc|Hc]]; [left; rewrite Hc; apply H9|].
  right. split; [exact Hc|]. by rewrite Hw.
Qed.

End facts.

(** * Limits of the cron scheduler

    The loop that starts waiting chains returns, launches within the eight
    container slots and never adds to a job's chains; the overlap policy
    bounds the chains a start leaves. *)

Import Definitions.

Section limits.
Context {J : Jiff} {JD : JiffDb} {JR : JsonReader} {PB : Prost} {ST : SqliteTime} {HO : Host}.

(** ** What one round does *)

(** Same scheduler state and tasks; failed calls only add up. *)
Definition same_state (w w' : World) : Prop :=
  w_state w' = w_state w /\ w_tasks w' = w_tasks w /\ w_failures w <= w_failures w'.

#[local] Instance same_state_reader : Reader same_state.
Proof.
  unfold same_state. split; [split|..]; try by (intros w; intros; cbn; split_and!; [done|done|lia]).
  intros w1 w2 w3 (?&?&?) (?&?&?). split_and!; [congruence|congruence|lia].
Qed.

Lemma record_same job run : keeps same_state (record job run).
Proof.
  unfold record, save, now_. apply keeps_bind.
  - apply keeps_bind; [apply keeps_asks|]. intros now. apply keeps_bind; [|intros; apply keeps_ret].
    apply keeps_transaction. intros w a o _. cbn. split_and!; [done|done|cbn; lia].
  - intros [|]; [|apply keeps_ret]. apply keeps_bind; [|intros; apply keeps_ret].
    intros w. unfold publish, emit, same_state. cbn. split_and!; [done|done|lia].
Qed.

(** Chains are removed or keep their job. *)
Definition shrinks (c c' : gmap string Chain) : Prop :=
  forall id x', c' !! id = Some x' -> exists x, c !! id = Some x /\ ch_cron_id x = ch_cron_id x'.

#[local] Instance shrinks_preorder : PreOrder shrinks.
Proof.
  split; [by intros c id x Hx; exists x|]. intros a b c H1 H2 id x Hx.
  apply H2 in Hx as (y & Hy & <-). by apply H1.
Qed.

Lemma shrinks_alter f id c : (forall x, ch_cron_id (f x) = ch_cron_id x) -> shrinks c (alter f id c).
Proof.
  intros Hf k x'. rewrite lookup_alter_Some. intros [(-> & x & Hx & ->)|[_ Hx]]; [|by exists x']. exists x. by rewrite Hf.
Qed.

Lemma shrinks_delete id c : shrinks c (delete id c).
Proof. intros k x'. rewrite lookup_delete_Some. intros [_ Hx]. by exists x'. Qed.

Definition slots_len (w : World) : Z := lenl (s_slots (w_state w)).

(** A part of the loop from [w] to [w']: the tasks it adds are the containers
    it counts. *)
Definition filled (w w' : World) : Prop :=
  exists ts, w_tasks w' = w_tasks w ++ ts /\ s_running (w_state w') = s_running (w_state w) + lenl ts /\
    s_reservations (w_state w') = s_reservations (w_state w) /\ s_queued (w_state w') = s_queued (w_state w) /\
    shrinks (s_chains (w_state w)) (s_chains (w_state w')) /\
    (ts <> [] -> occupied (w_state w') <= MAX_RUNNING) /\ w_failures w <= w_failures w'.

Lemma occupied_eq s s' : s_running s' = s_running s -> s_reservations s' = s_reservations s -> occupied s' = occupied s.
Proof. unfold occupied. by intros -> ->. Qed.

Lemma filled_refl w : filled w w.
Proof. exists []. rewrite app_nil_r. split_and!; try done; unfold lenl; simpl; lia. Qed.

Lemma filled_trans w1 w2 w3 : filled w1 w2 -> filled w2 w3 -> filled w1 w3.
Proof.
  intros (t1 & H1 & R1 & S1 & Q1 & C1 & O1 & F1) (t2 & H2 & R2 & S2 & Q2 & C2 & O2 & F2).
  exists (t1 ++ t2). rewrite lenl_app. split_and!; [by rewrite H2, H1, app_assoc|lia|congruence|congruence
    |by etrans| |lia].
  intros Hne. destruct t2 as [|x t2]; [|by apply O2]. rewrite (occupied_eq (w_state w2)); [|unfold lenl in R2; simpl in R2; lia|done].
  apply O1. by destruct t1.
Qed.

(** A change that dispatches nothing. *)
Lemma filled_quiet w w' : w_tasks w' = w_tasks w -> s_running (w_state w') = s_running (w_state w) ->
  s_reservations (w_state w') = s_reservations (w_state w) -> s_queued (w_state w') = s_queued (w_state w) ->
  shrinks (s_chains (w_state w)) (s_chains (w_state w')) -> w_failures w <= w_failures w' -> filled w w'.
Proof.
  intros Ht Hr Hs Hq Hc Hf. exists []. rewrite app_nil_r. split_and!; try done. rewrite Hr. unfold lenl. simpl. lia.
Qed.

Lemma filled_same w w' : same_state w w' -> filled w w'.
Proof. intros (Hs & Ht & Hf). apply filled_quiet; rewrite ?Hs; done. Qed.

Lemma launch_cases job chain_id run w w' : launch job chain_id run w = (tt, w') ->
  (exists t, w_tasks w' = w_tasks w ++ [t] /\ w_failures w' = w_failures w /\
     w_state w' = with_chains (alter (set_chain_run (tk_run t)) chain_id (s_chains (w_state w))) (w_state w)) \/
  (w_tasks w' = w_tasks w /\ w_failures w' = w_failures w + 1 /\
   exists c, shrinks (s_chains (w_state w)) c /\ w_state w' =
     with_slots (chain_id :: s_slots (w_state w)) (with_chains c
       (with_running (Z.max 0 (s_running (w_state w) - 1)) (w_state w)))).
Proof.
  unfold launch, bind at 1. cbn [now_ asks]. unfold bind at 1. destruct (checked _ w) as [r w1] eqn:Hc.
  apply checked_cases in Hc as [(-> & (Hs & _ & Ht & _) & Hf)|([] & o & w2 & -> & _ & (Hs & _ & Ht & _) & Hf & ->)];
    unfold bind, sub_running, update_chain, push_slot_front, publish, emit, update_chain_run, log, spawn_task, modify.
  - intros [= <-]. right. cbn. rewrite Hs, Ht. split_and!; [done|done|].
    exists (alter (set_chain_waiting true) chain_id (s_chains (w_state w))). split; [by apply shrinks_alter|done].
  - intros [= <-]. left. eexists. cbn. rewrite Hs, Ht. split_and!; [done|done|]. cbn. done.
Qed.

(** A round that goes on took a chain off [slots] or met a failed call. *)
Definition advanced (w w' : World) : Prop := slots_len w' + 1 <= slots_len w + (w_failures w' - w_failures w).

Lemma fill_start_spec chain_id chain w b w' : 0 <= s_running (w_state w) ->
  fill_start chain_id chain w = (b, w') ->
  filled w w' /\ (b = true -> slots_len w' <= slots_len w + (w_failures w' - w_failures w)).
Proof.
  intros Hr. unfold fill_start, bind at 1. pose proof (keeps_original_job (R := same_state) (ch_run chain) w) as Ho.
  destruct (original_job _ w) as [[job|] w1]; cbn [snd] in Ho.
  2:{ unfold bind, push_slot_front, modify, ret. intros [= <- <-]. split; [|done]. destruct Ho as (Hs & Ht & Hf). apply filled_quiet; cbn; rewrite ?Hs; done. }
  destruct Ho as (Hs & Ht & Hf). unfold bind at 1. cbn [gets asks]. rewrite Hs. cbn [id].
  destruct (_ || _) eqn:Hcap.
  { unfold bind, push_slot_front, modify, ret. intros [= <- <-]. split; [|done]. apply filled_quiet; cbn; rewrite ?Hs; done. }
  destruct (_ !! chain_id) as [current|].
  2:{ intros [= <- <-]. split; [apply filled_same; by split_and!|]. intros _. unfold slots_len. rewrite Hs. lia. }
  destruct (negb (ch_waiting current)).
  { intros [= <- <-]. split; [apply filled_same; by split_and!|]. intros _. unfold slots_len. rewrite Hs. lia. }
  unfold bind, update_chain, add_running, modify, ret.
  match goal with |- context [launch job chain_id ?r ?w2] => destruct (launch job chain_id r w2) as [[] w3] eqn:Hl end.
  intros [= <- <-]. apply launch_cases in Hl as [(t & Ht3 & Hf3 & Hs3)|(Ht3 & Hf3 & c & Hc & Hs3)];
    cbn [w_tasks w_failures w_state set_state] in *.
  - split.
    + exists [t]. unfold occupied. rewrite Ht3, Hs3, Ht, Hf3. cbn. rewrite Hs. cbn. unfold lenl. cbn.
      split_and!; try done; [|].
      * etrans; [apply shrinks_alter|apply shrinks_alter]; done.
      * intros _. apply orb_false_iff in Hcap as [Hcap _]. unfold occupied in Hcap. lia.
    + intros _. unfold slots_len. rewrite Hs3, Hf3. cbn. rewrite Hs. cbn. lia.
  - split.
    + apply filled_quiet; rewrite ?Hs3; cbn; rewrite ?Hs; cbn; try done; [congruence|lia| |lia].
      etrans; [apply (shrinks_alter (set_chain_waiting false)); done|]. cbn in Hc. by rewrite Hs in Hc.
    + intros _. unfold slots_len. rewrite Hs3, Hf3. cbn. rewrite Hs. cbn. rewrite lenl_cons. lia.
Qed.

Lemma fill_round_spec w b w' : 0 <= s_running (w_state w) -> fill_round w = (b, w') ->
  filled w w' /\ (b = true -> advanced w w').
Proof.
  intros Hr. unfold fill_round, bind at 1. cbn [gets asks id].
  destruct (MAX_RUNNING <=? _); [intros [= <- <-]; split; [apply filled_refl|done]|].
  destruct (s_slots (w_state w)) as [|chain_id rest] eqn:Hsl; [intros [= <- <-]; split; [apply filled_refl|done]|].
  unfold bind at 1, modify at 1. set (w1 := set_state _ w).
  assert (filled w w1 /\ slots_len w1 + 1 = slots_len w /\ w_failures w1 = w_failures w) as (Hf1 & Hl1 & Hfl).
  { subst w1. split_and!; [by apply filled_quiet| |done]. unfold slots_len. cbn. rewrite Hsl. cbn. by rewrite lenl_cons. }
  destruct (s_chains (w_state w) !! chain_id) as [chain|].
  2:{ intros [= <- <-]. split; [done|]. unfold advanced. lia. }
  destruct (negb (bcontains _ _)).
  - unfold bind at 1. cbn [now_ asks]. unfold bind at 1.
    match goal with |- context [record None ?r w1] => pose proof (record_same None r w1) as Hrec;
      destruct (record None r w1) as [[] w2] end; cbn [snd] in Hrec; destruct Hrec as (Hs2 & Ht2 & Hf2).
    + unfold bind, remove_chain, modify, ret. intros [= <- <-]. split.
      * eapply filled_trans; [exact Hf1|]. apply filled_quiet; cbn; rewrite ?Hs2; try done. apply shrinks_delete.
      * intros _. unfold advanced, slots_len in *. cbn. rewrite Hs2. lia.
    + unfold bind, push_slot_front, modify, ret. intros [= <- <-]. split; [|done]. eapply filled_trans; [exact Hf1|]. apply filled_quiet; cbn; rewrite ?Hs2; done.
  - destruct (negb (ch_waiting chain)); [intros [= <- <-]; split; [done|]; unfold advanced; lia|].
    intros H. apply fill_start_spec in H as [Hf2 Hl2]; [|done].
    split; [exact (filled_trans _ _ _ Hf1 Hf2)|]. intros Hb. specialize (Hl2 Hb). unfold advanced. lia.
Qed.

Lemma filled_running w w' : filled w w' -> 0 <= s_running (w_state w) -> 0 <= s_running (w_state w').
Proof. intros (ts & _ & -> & _). unfold lenl. lia. Qed.

Lemma fill_loop_spec fuel w b w' : 0 <= s_running (w_state w) -> fill_loop fuel w = (b, w') ->
  filled w w' /\ (b = false -> Z.of_nat fuel <= slots_len w + (w_failures w' - w_failures w)).
Proof.
  revert w; induction fuel as [|fuel IH]; intros w Hr; cbn [fill_loop].
  { intros [= <- <-]. split; [apply filled_refl|]. unfold slots_len, lenl. lia. }
  unfold bind. destruct (fill_round w) as [b1 w1] eqn:Hround. apply fill_round_spec in Hround as [Hf Ha]; [|done].
  destruct b1; [|intros [= <- <-]; by split]. intros H. apply IH in H as [Hf2 Hl]; [|by eapply filled_running].
  split; [exact (filled_trans _ _ _ Hf Hf2)|]. intros Hb. specialize (Hl Hb). specialize (Ha eq_refl). unfold advanced in Ha. lia.
Qed.

(** C28.  The loop of [fill_slots] returns: it makes at most one round per
    waiting chain and one per store call that failed in it, so with more
    rounds than that it has returned. *)
Theorem fill_slots_returns fuel w w' : 0 <= s_running (w_state w) ->
  slots_len w + ((fill_loop fuel w).2.(w_failures) - w_failures w) < Z.of_nat fuel -> w' = (fill_loop fuel w).2 ->
  fill_loop fuel w = (true, w') /\ forall more, fill_loop (fuel + more) w = (true, w').
Proof.
  intros Hr Hlt ->. assert ((fill_loop fuel w).1 = true) as Hb.
  { destruct (fill_loop fuel w) as [[] w1] eqn:He; [done|]. apply fill_loop_spec in He as [_ Hl]; [|done].
    cbn in Hlt. specialize (Hl eq_refl). lia. }
  split; [by destruct (fill_loop fuel w); cbn in *; subst|]. intros more. clear Hlt Hr. revert w Hb.
  induction fuel as [|fuel IH]; intros w; cbn [fill_loop Nat.add]; [done|]. unfold bind.
  destruct (fill_round w) as [[] w1]; [apply IH|done].
Qed.

(** At most eight containers: whatever waits and whatever fails,
    starting waiting chains counts every container it launches, and when it
    launches any, running containers and manual reservations together stay
    within the eight slots. *)
Theorem launches_within_capacity w w' : 0 <= s_running (w_state w) -> fill_slots w = (tt, w') ->
  exists ts, w_tasks w' = w_tasks w ++ ts /\ s_running (w_state w') = s_running (w_state w) + lenl ts /\
    (ts <> [] -> s_running (w_state w') + Z.of_nat (size (s_reservations (w_state w'))) <= 8).
Proof.
  intros Hr. unfold fill_slots. destruct (fill_loop _ w) as [b w1] eqn:He. intros [= <-].
  apply fill_loop_spec in He as [(ts & H1 & H2 & _ & _ & _ & H6 & _) _]; [|done]. by exists ts.
Qed.

(** ** Overlap *)

Definition keys_where {V} (p : string * V -> bool) (m : gmap string V) : list string :=
  fst <$> select p (map_to_list m).

Lemma count_keys {V} (p : string * V -> bool) (m : gmap string V) :
  count p (map_to_list m) = Z.of_nat (length (keys_where p m)).
Proof. unfold count, lenl, keys_where. by rewrite length_fmap. Qed.

Lemma elem_of_keys_where {V} (p : string * V -> bool) (m : gmap string V) id :
  id ∈ keys_where p m <-> exists x, m !! id = Some x /\ p (id, x) = true.
Proof.
  unfold keys_where, select. rewrite list_elem_of_fmap. setoid_rewrite list_elem_of_In. setoid_rewrite filter_In.
  setoid_rewrite <- list_elem_of_In. split.
  - intros ([k x] & -> & Hin & Hp). exists x. by apply elem_of_map_to_list in Hin.
  - intros (x & Hx & Hp). exists (id, x). split_and!; [done| |done]. by apply elem_of_map_to_list.
Qed.

Lemma keys_where_NoDup {V} (p : string * V -> bool) (m : gmap string V) : NoDup (keys_where p m).
Proof.
  unfold keys_where, select. pose proof (NoDup_fst_map_to_list m) as Hn. revert Hn.
  generalize (map_to_list m). intros l. induction l as [|[k v] l IH]; cbn; [done|]. intros [Hk Hl]%NoDup_cons.
  destruct (p (k, v)); [|by apply IH]. cbn. constructor; [|by apply IH].
  intros ([k' v'] & He & Hin)%list_elem_of_fmap. apply Hk. apply list_elem_of_fmap. exists (k', v'). split; [done|].
  apply list_elem_of_In in Hin. apply filter_In in Hin as [Hin _]. by apply list_elem_of_In.
Qed.

Lemma count_le {V} (p q : string * V -> bool) (m m' : gmap string V) :
  (forall id x', m' !! id = Some x' -> p (id, x') = true -> exists x, m !! id = Some x /\ q (id, x) = true) ->
  count p (map_to_list m') <= count q (map_to_list m).
Proof.
  intros H. rewrite !count_keys. apply inj_le, submseteq_length, NoDup_submseteq; [apply keys_where_NoDup|].
  intros id. rewrite !elem_of_keys_where. intros (x' & Hx & Hp). eauto.
Qed.

Lemma count_insert_le {V} (p q : string * V -> bool) (m : gmap string V) id v :
  (forall k x, k <> id -> p (k, x) = true -> q (k, x) = true) ->
  count p (map_to_list (<[id := v]> m)) <= count q (map_to_list m) + 1.
Proof.
  intros H. rewrite !count_keys.
  assert (keys_where p (<[id := v]> m) ⊆+ id :: keys_where q m) as Hs.
  { apply NoDup_submseteq; [apply keys_where_NoDup|]. intros k. rewrite elem_of_keys_where, elem_of_cons, elem_of_keys_where.
    destruct (decide (k = id)) as [->|Hne]; [by left|]. rewrite lookup_insert_ne by done. intros (x & Hx & Hp). right. eauto. }
  apply submseteq_length in Hs. cbn in Hs. lia.
Qed.

Lemma active_shrinks s s' cron_id : s_queued s' = s_queued s -> s_reservations s' = s_reservations s ->
  shrinks (s_chains s) (s_chains s') -> active_chains s' cron_id <= active_chains s cron_id.
Proof.
  intros Hq Hr Hs. unfold active_chains. rewrite Hq, Hr. apply Z.add_le_mono_r, count_le. cbn.
  intros id x' Hx Hp. apply Hs in Hx as (x & Hx & Hc). exists x. by rewrite Hc.
Qed.

Lemma fill_slots_active cron_id w w' : 0 <= s_running (w_state w) -> fill_slots w = (tt, w') ->
  active_chains (w_state w') cron_id <= active_chains (w_state w) cron_id.
Proof.
  intros Hr. unfold fill_slots. destruct (fill_loop _ w) as [b w1] eqn:He. intros [= <-].
  apply fill_loop_spec in He as [(ts & _ & _ & H3 & H4 & H5 & _) _]; [|done]. by apply active_shrinks.
Qed.

Lemma record_state job run w : w_state (record job run w).2 = w_state w.
Proof. apply (record_same job run w). Qed.

(** A chain added to the state. *)
Lemma active_insert s cron_id id chain :
  active_chains (with_chains (<[id := chain]> (s_chains s)) s) cron_id <= active_chains s cron_id + 1.
Proof. unfold active_chains. cbn. pose proof (count_insert_le
  (fun c : string * Chain => String.eqb (ch_cron_id c.2) cron_id
     && negb (is_some_and (s_queued s !! cron_id) (String.eqb c.1))) _ (s_chains s) id chain (fun k x _ H => H)). lia. Qed.

(** A chain added as the queued one of a job without one. *)
Lemma active_queue s cron_id id chain : s_queued s !! cron_id = None ->
  active_chains (with_queued (<[cron_id := id]> (s_queued s)) (with_chains (<[id := chain]> (s_chains s)) s)) cron_id
  <= active_chains s cron_id.
Proof.
  intros Hq. unfold active_chains. cbn. rewrite lookup_insert_eq, Hq. cbn. apply Z.add_le_mono_r, count_le.
  intros k x'. destruct (decide (k = id)) as [->|Hne].
  - cbn. rewrite String.eqb_refl. by rewrite andb_false_r.
  - rewrite lookup_insert_ne by done. cbn. intros Hx [Hp _]%andb_true_iff. exists x'. by rewrite Hp.
Qed.

(** The overlap policy: starting a chain of a job leaves at most one
    active chain of it (four under [allow]) unless more were active before;
    the chains of a job waiting behind its active one are not counted. *)
Theorem overlap_respected job run now w w' : 0 <= s_running (w_state w) -> start_chain job run now w = (tt, w') ->
  active_chains (w_state w') (jd_cron_id job)
  <= Z.max (active_chains (w_state w) (jd_cron_id job)) (overlap_limit (jd_overlap job)).
Proof.
  intros Hr. unfold start_chain, bind at 1. pose proof (record_state (Some job) run w) as Hs.
  destruct (record (Some job) run w) as [recorded w1]; cbn [snd] in Hs. destruct recorded; cbn [negb].
  2:{ intros [= <-]. rewrite Hs. lia. }
  unfold bind at 1. cbn [gets asks id]. rewrite Hs. set (active := active_chains (w_state w) (jd_cron_id job)).
  match goal with |- context [if ?c then _ else _] => destruct c eqn:Hskip end.
  { unfold bind, log, emit. match goal with |- context [record ?j ?r w1] => pose proof (record_state j r w1) as Hs2;
      destruct (record j r w1) as [? w2] end. cbn [snd] in Hs2. intros [= <-]. cbn. rewrite Hs2, Hs. fold active. lia. }
  unfold bind at 1, insert_chain, modify at 1.
  set (w2 := set_state _ w1). assert (w_state w2 = with_chains (<[cr_id run := {| ch_cron_id := jd_cron_id job; ch_run := run;
    ch_retry_at := None; ch_waiting := true |}]> (s_chains (w_state w))) (w_state w)) as Hw2 by (subst w2; cbn; by rewrite Hs).
  clearbody w2. destruct (bool_decide _ && _) eqn:Hqueue.
  - apply andb_true_iff in Hqueue as [Ho Ha]. apply bool_decide_eq_true in Ho. rewrite Ho in *. rewrite Ha in Hskip. cbn in Hskip.
    unfold bind, modify. match goal with |- context [record ?j ?r ?w3] => pose proof (record_state j r w3) as Hs3;
      destruct (record j r w3) as [? w4] end. cbn [snd] in Hs3. intros [= <-]. rewrite Hs3. cbn [w_state set_state].
    rewrite Hw2. apply Z.max_le_iff. left. refine (active_queue _ _ _ _ _). by destruct (s_queued (w_state w) !! _).
  - unfold bind at 1, push_slot_back, modify. unfold bind.
    match goal with |- context [record ?j ?r ?w3] => pose proof (record_state j r w3) as Hs3;
      destruct (record j r w3) as [? w4] end. cbn [snd w_state set_state] in Hs3.
    intros Hf. apply (fill_slots_active (jd_cron_id job)) in Hf; [|rewrite Hs3, Hw2; exact Hr].
    etrans; [exact Hf|]. rewrite Hs3, Hw2. pose proof (active_insert (w_state w) (jd_cron_id job) (cr_id run)
      {| ch_cron_id := jd_cron_id job; ch_run := run; ch_retry_at := None; ch_waiting := true |}) as Hi.
    fold active in Hi. change (active_chains (with_slots _ ?s) ?c) with (active_chains s c). etrans; [exact Hi|].
    destruct (jd_overlap job) eqn:Ho; cbn [overlap_limit] in *; unfold MAX_ALLOWED_CHAINS in *.
    + apply Z.ltb_ge in Hskip. lia.
    + rewrite bool_decide_true in Hqueue by done. cbn in Hqueue. lia.
    + lia.
Qed.

End limits.
