(* ===== verification/CronSamples.v ===== *)
(** * A scheduler at work

    A concrete world: one recorded cron job with retries, run every ten
    minutes.  The witnesses of the scheduler's theorems evaluate it, and so
    do the theorems about behaviour that departs from the documentation. *)

From S2P Require Import Prelude RustStr BTree PlanCode Json Jcs JsonRead Calendar Text Trust Verify Samples.
From S2P Require Import Store DefinitionStore AdmissionStore Queries CronExpr Proto OpsStore OpsFacts Wire.
From S2P Require Import Effects Runner CronJobs Sched CronSched CronFacts.
Import Definitions.

#[local] Existing Instance canonical_reader.
#[local] Existing Instance wire.
#[local] Existing Instance plain_time.

(** A calendar in which every day is the first of a January, at UTC. *)
Definition day_jiff : Jiff := {|
  TimeZone := unit;
  local_date := fun _ s => Some {| year := s / 86400; month := 1; day := 1 |};
  tomorrow := fun d => Some {| year := year d + 1; month := 1; day := 1 |};
  sunday_zero_offset := fun d => year d mod 7;
  datetime_new := fun d h mi => Some {| dt_date := d; dt_hour := h; dt_minute := mi |};
  to_ambiguous := fun _ l => (Unambiguous, Some (year (dt_date l) * 86400 + dt_hour l * 3600 + dt_minute l * 60))
|}.
#[local] Existing Instance day_jiff.
Definition utc_only : JiffDb := {| tz_utc := tt; tz_get := fun _ => None |}.
#[local] Existing Instance utc_only.

(** Ids that count, a clock at whole seconds, hash maps in key order. *)
Definition counting_host : Host := {|
  server_id := fun _ => server_a;
  entropy := fun n => repeat zero 15 ++ [ascii_of_nat n];
  subsec_millis := fun _ => 0;
  iter_order := fun A _ l => l
|}.
#[local] Existing Instance counting_host.
#[global] Instance counting_host_laws : @HostLaws counting_host.
Proof. intros A n l. reflexivity. Qed.

(** ** The definition *)

Definition cron_a : string := "01a0cdb5-3500-70d1-8000-000000000001".
Definition hex_a : string := "1111111111111111111111111111111111111111111111111111111111111111".

Definition nat_value (n : Z) : Value := VNumber (PosInt n).

Definition cron_params : Value := obj
  [ ("cron_id", str cron_a); ("name", str "report"); ("service_id", str service_a); ("schedule", str "*/10 * * * *");
    ("timezone", str "UTC"); ("command", VArray [str "run"]); ("timeout_seconds", nat_value 300);
    ("retries", nat_value 5); ("overlap", str "skip"); ("heartbeat_alert", VBool true) ].

Definition cron_envelope : string :=
  default "" (canonicalize (obj [("plan", obj [("actions", VArray
    [obj [("kind", str "cron.create"); ("params", cron_params)]])])])).

Definition cron_admission : AdmissionRow :=
  {| ad_plan_id := plan_a; ad_plan_digest_hex := hex_a; ad_signed_plan_json := cron_envelope; ad_submitter := "client";
     ad_operation_id := plan_a; ad_admitted_at := "2026-01-01T00:00:00Z"; ad_finished_at := Some "2026-01-01T00:00:00Z";
     ad_outcome := "succeeded"; ad_admission_seq := 1; ad_nonce := ""; ad_author_kind := "user";
     ad_signer_key_ids := []; ad_action_kinds := ["cron.create"]; ad_project_id := project_a;
     ad_environment := "production"; ad_head_before_hex := ""; ad_head_after_hex := ""; ad_rule_id := None;
     ad_delivery_id := None; ad_expires_at := "2026-01-01T00:10:00Z"; ad_environment_id := env_id_a |}.

Definition cron_action : ActionRow :=
  {| ac_plan_id := plan_a; ac_action_index := 0; ac_kind := "cron.create"; ac_consumed_at := None;
     ac_finished_at := Some "2026-01-01T00:00:00Z"; ac_outcome := "succeeded"; ac_consumed_seq := None;
     ac_result_seq := None; ac_deployment_id := None |}.

Definition cron_db : Db := with_actions (with_admissions (empty_db 0 None) [cron_admission]) [cron_action].

(** ** Running it *)

Definition world_0 : World :=
  {| w_state := empty_state; w_ops := empty_ops; w_failures := 0; w_db := cron_db; w_log := Some []; w_now := now_0;
     w_faults := []; w_draws := 0; w_tasks := []; w_out := [] |}.

Definition at_time (now : Z) (w : World) : World :=
  {| w_state := w_state w; w_ops := w_ops w; w_failures := w_failures w; w_db := w_db w; w_log := w_log w;
     w_now := now; w_faults := w_faults w; w_draws := w_draws w; w_tasks := w_tasks w; w_out := w_out w |}.

Definition exec {A} (m : act A) (w : World) : World := (m w).2.

(** A tick at [now_0 + s]. *)
Definition tick_at (s : Z) (w : World) : World := exec tick (at_time (now_0 + s) w).

(** The oldest task in flight ends with the answer. *)
Definition answer_at (s : Z) (answer : Value) (w : World) : World :=
  match w_tasks w with
  | t :: rest => exec (complete t (inr answer) []) (at_time (now_0 + s) (set_tasks rest w))
  | [] => w
  end.

Definition failed_answer : Value := obj [("outcome", str "failed"); ("exit_code", nat_value 1)].
Definition good_answer : Value := obj [("outcome", str "succeeded")].

(** The first fire time is 00:10, 300 s after the first tick. *)
Definition world_1 : World := tick_at 300 (tick_at 200 (tick_at 100 (tick_at 0 world_0))).

Example first_run_dispatched :
  (s_running (w_state world_1), length (w_tasks world_1), size (s_chains (w_state world_1)), w_failures world_1)
  = (1, 1%nat, 1%nat, 0).
Proof. vm_compute. reflexivity. Qed.

Definition world_2 : World := answer_at 310 failed_answer world_1.
Definition world_3 : World := tick_at 320 world_2.

Example retry_dispatched :
  (s_running (w_state world_3), length (w_tasks world_3), size (s_chains (w_state world_3)), w_failures world_3)
  = (1, 1%nat, 1%nat, 0).
Proof. vm_compute. reflexivity. Qed.

(** ** Departures from the documentation *)

(** A retry that is still running at the next tick leaves a second chain: the
    tick's [recover] looks the attempt up by its own id, while its chain is
    kept under the id of the first attempt. *)
Definition world_4 : World := tick_at 330 world_3.

(** The retry succeeds and nothing runs any more. *)
Definition world_5 : World := answer_at 335 good_answer world_4.

Definition world_6 : World :=
  tick_at 900 (tick_at 800 (tick_at 700 (tick_at 600 (tick_at 500 (tick_at 400 world_5))))).

Definition statuses_of (slot : string) (w : World) : list Z :=
  or_status <$> select (fun r => String.eqb (or_slot r) slot) (o_records (w_ops w)).

(** After the retry ended, no run is recorded as unfinished and no task is in
    flight, and still a container counts as running and the job as active:
    its next fire time is skipped as an overlap. *)
Theorem retry_leaves_chain :
  length (w_tasks world_5) = 0%nat /\ s_running (w_state world_5) = 1 /\
  active_chains (w_state world_5) cron_a = 1 /\
  statuses_of "2026-01-01T00:10:00Z" world_5 = [CronRunStatus.Failed; CronRunStatus.Succeeded] /\
  statuses_of "2026-01-01T00:20:00Z" world_6 = [CronRunStatus.SkippedOverlap].
Proof. split_and!; vm_compute; reflexivity. Qed.

(** The attempts of a job with five retries, each failing at once. *)
Definition fourth_attempt : World :=
  tick_at 373 (answer_at 333 failed_answer (tick_at 332 (answer_at 312 failed_answer
    (tick_at 311 (answer_at 301 failed_answer world_1))))).

Definition after_fourth : World := tick_at 900 (tick_at 800 (tick_at 700 (tick_at 600 fourth_attempt))).

Definition restarted : World := tick_at 1510 (tick_at 1500 (exec new_scheduler (at_time (now_0 + 1490) after_fourth))).

(** Retries up to ten are admitted, but the stored authority of an attempt is
    only read back for attempts one to three: once the fourth attempt is
    recorded, every tick stops at the unreadable row, no further fire time is
    recorded and the checkpoint stays, also after a restart. *)
Theorem fourth_attempt_stops_ticks :
  cr_attempt <$> (tk_run <$> w_tasks fourth_attempt) = [4] /\
  checkpoint fourth_attempt = Some (i64_text (now_0 + 332)) /\
  w_failures after_fourth = 5 /\ checkpoint after_fourth = Some (i64_text (now_0 + 332)) /\
  statuses_of "2026-01-01T00:20:00Z" after_fourth = [] /\
  checkpoint restarted = Some (i64_text (now_0 + 332)) /\ statuses_of "2026-01-01T00:30:00Z" restarted = [].
Proof. split_and!; vm_compute; reflexivity. Qed.

(** A chain that waits for its container. *)
Definition waiting_world : World :=
  set_tasks [] (set_state (with_slots (bkeys (map_to_list (s_chains (w_state world_1))))
    (with_running 0 (with_chains (set_chain_waiting true <$> s_chains (w_state world_1)) (w_state world_1)))) world_1).

Definition spin_faults (n : nat) : list bool := concat (repeat [false; false; true] n).

(** While the write of a launched run fails, [fill_slots] takes the same
    chain up again at once: twenty failing writes are twenty rounds
    of the loop, without a pause between them, and the chain still waits. *)
Theorem fill_slots_spins : let r := fill_loop 20 (set_faults (spin_faults 20) waiting_world) in
  r.1 = false /\ w_failures r.2 = 20 /\ length (s_slots (w_state r.2)) = 1%nat.
Proof. split_and!; vm_compute; reflexivity. Qed.

(** ** Witnesses *)

Definition before_first : World := at_time (now_0 + 300) (tick_at 200 (tick_at 100 (tick_at 0 world_0))).

Lemma before_first_idle : w_tasks before_first = [].
Proof. apply length_zero_iff_nil. vm_compute. reflexivity. Qed.

Lemma before_first_db : w_db before_first = cron_db.
Proof. vm_compute. reflexivity. Qed.

Lemma dispatched_authorized_witness : exists t, t ∈ w_tasks (tick before_first).2 /\ authorized (w_db before_first) t.
Proof.
  assert (length (w_tasks (tick before_first).2) = 1%nat) as Hl by (vm_compute; reflexivity).
  destruct (w_tasks (tick before_first).2) as [|t l] eqn:Ht; [discriminate Hl|]. exists t.
  assert (t ∈ w_tasks (tick before_first).2) as Hin by (rewrite Ht; constructor). split; [constructor|].
  destruct (dispatched_authorized tick before_first t op_tick Hin) as [H|H]; [|exact H].
  exfalso. rewrite before_first_idle in H. inversion H.
Defined.

Definition sample_job : JobDef :=
  default (define_job {| plan_id := ""; plan_digest_hex := ""; action_index := 0; admission_seq := 0; admitted_at := "";
    operation_id := ""; kind := ""; params := VNull; scope := ("", "", ""); outcome_text := ""; finished_at := None |} "" None)
    (bget cron_a (load_jobs (admitted_actions cron_db CRON_KINDS))).

Definition fire_0 : Z := now_0 + 300.

Lemma first_start_recorded : length (w_out (start_scheduled sample_job fire_0 now_0 world_0).2) <> 0%nat.
Proof. vm_compute. discriminate. Qed.

Lemma first_start_effect : ~ quiet world_0 (start_scheduled sample_job fire_0 now_0 world_0).2.
Proof. intros (_ & _ & _ & Ho). apply first_start_recorded. rewrite Ho. reflexivity. Qed.

Lemma fire_time_once_witness :
  quiet (start_scheduled sample_job fire_0 now_0 world_0).2
    (start_scheduled sample_job fire_0 (now_0 - 5) (start_scheduled sample_job fire_0 now_0 world_0).2).2.
Proof.
  refine (fire_time_once sample_job fire_0 now_0 world_0 sample_job (now_0 - 5) _ _ eq_refl first_start_effect (rtc_refl _ _)).
  vm_compute. reflexivity.
Defined.

Lemma launches_within_capacity_witness :
  exists ts, w_tasks (exec fill_slots waiting_world) = w_tasks waiting_world ++ ts /\
    s_running (w_state (exec fill_slots waiting_world)) = s_running (w_state waiting_world) + lenl ts /\
    (ts <> [] -> s_running (w_state (exec fill_slots waiting_world))
       + Z.of_nat (size (s_reservations (w_state (exec fill_slots waiting_world)))) <= 8).
Proof.
  apply launches_within_capacity; [vm_compute; discriminate|]. unfold exec. by destruct (fill_slots waiting_world) as [[] ?].
Defined.

Lemma fill_slots_returns_witness :
  fill_loop 3 waiting_world = (true, (fill_loop 3 waiting_world).2) /\
  forall more, fill_loop (3 + more) waiting_world = (true, (fill_loop 3 waiting_world).2).
Proof. apply fill_slots_returns; [vm_compute; discriminate|vm_compute; reflexivity|reflexivity]. Defined.

Definition sample_run : CronRun := new_run plan_a sample_job 1 CronTrigger.Schedule CronRunStatus.Pending (Some fire_0).

Lemma overlap_respected_witness :
  active_chains (w_state (exec (start_chain sample_job sample_run now_0) world_0)) (jd_cron_id sample_job)
  <= Z.max (active_chains (w_state world_0) (jd_cron_id sample_job)) (overlap_limit (jd_overlap sample_job)).
Proof.
  apply (overlap_respected sample_job sample_run now_0 world_0); [vm_compute; discriminate|].
  unfold exec. by destruct (start_chain sample_job sample_run now_0 world_0) as [[] ?].
Defined.

Lemma job_in_force_witness :
  in_force cron_a (select succeeded (rev (admitted_actions cron_db CRON_KINDS))) sample_job.
Proof.
  apply job_in_force. unfold sample_job.
  assert (is_some (bget cron_a (load_jobs (admitted_actions cron_db CRON_KINDS))) = true) as Hs by (vm_compute; reflexivity).
  destruct (bget cron_a (load_jobs (admitted_actions cron_db CRON_KINDS))); [reflexivity|discriminate Hs].
Defined.

Definition sample_expr : CronExpr := default sample_cron (CronExpr.parse "*/10 * * * *").

Definition utc : @TimeZone day_jiff := tt.

Lemma catch_up_complete_witness :
  let latest := latest_before (Z.to_nat (now_0 + 2000 - (now_0 + 300))) sample_expr utc (now_0 + 300) (now_0 + 2000) in
  exists l, fires sample_expr utc now_0 (now_0 + 300 :: l) latest /\ 3 = lenl (now_0 + 300 :: l) /\
    StronglySorted Z.lt (now_0 + 300 :: l) /\ Forall (fun t => now_0 < t <= now_0 + 2000) (now_0 + 300 :: l) /\
    walk_ends sample_expr utc (now_0 + 2000) latest.
Proof.
  apply (catch_up_complete sample_expr utc now_0 (now_0 + 2000) (now_0 + 300) [] 3); vm_compute; reflexivity.
Defined.

(** A run in progress, and its store pruned ninety-one days later. *)
Definition open_row : OpsRow :=
  default {| or_seq := 0; or_kind := KStagedSet; or_id := ""; or_subject := ""; or_slot := ""; or_status := 0; or_at := 0;
             or_body := "" |} (o_records (w_ops world_1) !! 0%nat).
Definition open_intent : Intent :=
  default {| it_kind := KStagedSet; it_id := ""; it_binding := {| sr_plan := {| pr_plan_id := ""; pr_plan_digest_hex := "";
    pr_action_index := 0 |}; sr_scheduled_for := ""; sr_attempt := 0 |} |} (o_intents (w_ops world_1) !! 0%nat).
Definition pruned_ops : Ops :=
  match try_prune (w_ops world_1) (now_0 + 91 * 86400) with Ok o => o | _ => empty_ops end.

Lemma pruned_ops_ok : try_prune (w_ops world_1) (now_0 + 91 * 86400) = Ok pruned_ops.
Proof. vm_compute. reflexivity. Qed.

Lemma open_intent_found : find_intent (w_ops world_1) KCronRun (or_id open_row) = Some open_intent.
Proof. vm_compute. reflexivity. Qed.

Lemma authority_immutable_witness :
  find_intent pruned_ops KCronRun (or_id open_row) = Some open_intent \/ recorded pruned_ops KCronRun (or_id open_row) = false.
Proof. exact (authority_immutable _ _ _ _ _ (ops_prune _ _ _ pruned_ops_ok) open_intent_found). Defined.

Lemma open_row_recorded : open_row ∈ o_records (w_ops world_1).
Proof. apply list_elem_of_In. vm_compute. left. reflexivity. Qed.

Lemma open_row_unfinished : unfinished open_row.
Proof. exists [3; 4; 5; 6; 7; 8]. split; vm_compute; reflexivity. Qed.

Lemma prune_keeps_unfinished_witness :
  open_row ∈ o_records pruned_ops /\ find_intent pruned_ops (or_kind open_row) (or_id open_row) = Some open_intent.
Proof.
  refine (prune_keeps_unfinished _ _ _ _ _ pruned_ops_ok open_row_recorded open_row_unfinished _).
  vm_compute. reflexivity.
Defined.
