(* ===== verification/Exec.v ===== *)
(** * Execution: the decisions

    The pure part of src/local/execution.rs: how each action kind is run, what
    a failure is called, the texts of plans, and the sliding windows of the
    submission limits. *)

From S2P Require Import Prelude RustStr BTree PlanCode Json Jcs Calendar Text Crypto Trust Verify.
From S2P Require Import Store DefinitionStore AdmissionStore AlertRules Reconcile Queries Proto OpsStore.
From S2P Require Import Runner Errors.

Definition SUBMISSIONS_PER_MINUTE : Z := 10.
Definition HOST_SHELLS_PER_HOUR : Z := 20.
Definition MAX_LOGGED_CANCELLED : nat := 64.
Definition DEFAULT_START_TIMEOUT_SECONDS : Z := 300.

Definition is_ascii_hexdigit (b : ascii) : bool := is_ascii_digit b || between 65 70 b || between 97 102 b.
Definition is_ascii_graphic (b : ascii) : bool := between 33 126 b.

Definition text_id (id : string) : bool :=
  Prelude.in_range 1 64 (len id) && all_bytes (fun b => is_ascii_hexdigit b || Ascii.eqb b "-") id.

(** ** How a kind runs *)

Inductive Exec : Type :=
| ExAgent | ExInput | ExDeploy | ExOps (ops : list string) | ExDefinition | ExShell | ExNotImplemented.

Definition DEFINITION_KINDS : list string :=
  [ "cron.create"; "cron.update"; "cron.delete"; "cron.pause"; "cron.resume"; "backup.policy.set";
    "backup.policy.delete"; "backup.destination.set"; "backup.destination.delete"; "recovery_recipient.set";
    "env.protection.set"; "repo.credential.set"; "repo.credential.delete"; "rule.revoke" ].

Definition exec_of (kind : string) (params : Value) : Exec :=
  if contains_str ["server.add"; "rule.create"; "service.elevate"; "telemetry.retention.set"] kind then ExAgent
  else if String.eqb kind "deploy" then ExDeploy
  else if String.eqb kind "rollback" then ExOps ["rollback_release"]
  else if contains_str ["restart"; "scale"] kind then ExOps ["restart_release"]
  else if contains_str ["service.delete"; "environment.delete"; "project.delete"] kind then ExOps ["delete_runtime"]
  else if String.eqb kind "operation.cancel" then ExOps ["cancel_running"; "cancel_execution"]
  else if String.eqb kind "webhook.host.set" then ExOps ["set_webhook_route"]
  else if String.eqb kind "server.accounts.migrate" then ExOps ["migrate_accounts"]
  else if String.eqb kind "agent.update" then ExOps ["stage_artifact_verify"; "update_agent"]
  else if String.eqb kind "component.update"
          && is_some_and (as_str params.["component"]) (contains_str ["dwaar"; "runner"; "permanu-env"])
  then ExOps ["stage_artifact_verify"; "install_artifact"]
  else if contains_str ["key.add"; "key.revoke"; "release_key.add"; "release_key.revoke"] kind
  then ExOps ["update_trusted_keys"]
  else if String.eqb kind "cron.run" then ExOps ["run_cron"]
  else if String.eqb kind "backup.run" then ExOps ["backup_run"]
  else if String.eqb kind "backup.verify" then ExOps ["backup_verify"]
  else if String.eqb kind "backup.delete" then ExOps ["backup_delete"]
  else if String.eqb kind "restore" then ExOps ["restore_backup"]
  else if String.eqb kind "db.upgrade" && is_some (Json.get params "spec_digest_hex") then ExOps ["upgrade_database"]
  else if String.eqb kind "shell.open" then ExShell
  else if starts_with "alert." kind then ExAgent
  else if contains_str DEFINITION_KINDS kind then ExDefinition
  else if contains_str INPUT_KINDS kind then ExInput
  else ExNotImplemented.

(** The upgrade path: an op line is progress, not a receipt. *)
Definition is_upgrade (kind : string) (params : Value) : bool :=
  String.eqb kind "db.upgrade" && is_some (Json.get params "spec_digest_hex").

(** ** Failures *)

Definition failure_code_of (kind op : string) : string :=
  if String.eqb op "prepare_release" then "prepare"
  else if String.eqb op "verify_health" then "candidate_health"
  else if String.eqb op "activate_release" then "activate"
  else if String.eqb kind "deploy" && String.eqb op "rollback_release" then "recovery"
  else if contains_str ["restart_release"; "rollback_release"] op then "start"
  else "".

Definition DEPLOY_FAILURE_CODES : list string :=
  ["build"; "prepare"; "start"; "candidate_health"; "activate"; "public_health"; "recovery"].

Definition timed_out (op : string) (failure : RunnerFailure) : bool :=
  contains_str ["prepare_release"; "verify_health"; "restart_release"] op
  && String.eqb (rf_message failure) TIMED_OUT.

Definition op_failure_code (kind op : string) (failure : RunnerFailure) : string :=
  let table := failure_code_of kind op in
  if timed_out op failure then "start"
  else match rf_failure_code failure with
  | Some code => if negb (is_empty table) && contains_str DEPLOY_FAILURE_CODES code then code else table
  | None => table
  end.

Definition reason_of_code (error_code : string) : ErrorReason.t :=
  if is_empty error_code then ErrorReason.Unspecified
  else reason_for (default PlanCode.Internal (PlanCode.parse error_code)).

Definition refused_by_check (failure : RunnerFailure) : bool :=
  is_some_and (PlanCode.parse (rf_code failure)) (fun code =>
    negb (bool_decide (code = PlanCode.Internal) || bool_decide (code = PlanCode.Cancelled))).

Definition describe (failure : RunnerFailure) : string :=
  ErrorReason.as_str_name (reason_for (failure_plan_code failure)) +:+ " (" +:+ rf_code failure +:+ "): "
  +:+ rf_message failure.

(** ** Outcomes *)

Record Outcome := {
  oc_outcome : string; oc_failure_code : string; oc_error : string; oc_error_code : string; oc_activated : bool
}.

Definition outcome_with (outcome failure_code error : string) : Outcome :=
  {| oc_outcome := outcome; oc_failure_code := failure_code; oc_error := error; oc_error_code := "";
     oc_activated := false |}.

Definition outcome_succeeded : Outcome := outcome_with "succeeded" "" "".

(** [Outcome { error_code, ..Outcome::with(..) }]. *)
Definition outcome_coded (outcome failure_code error error_code : string) : Outcome :=
  {| oc_outcome := outcome; oc_failure_code := failure_code; oc_error := error; oc_error_code := error_code;
     oc_activated := false |}.

Definition outcome_runner (outcome failure_code : string) (failure : RunnerFailure) : Outcome :=
  outcome_coded outcome failure_code (describe failure) (rf_code failure).

Definition activated (o : Outcome) : Outcome :=
  {| oc_outcome := oc_outcome o; oc_failure_code := oc_failure_code o; oc_error := oc_error o;
     oc_error_code := oc_error_code o; oc_activated := true |}.

Record StartFailure := {
  sf_failure_code : string; sf_message : string; sf_error_code : string;
  sf_restorable : bool; sf_refused : bool; sf_handed_back : bool
}.

(** ** Plans *)

Section plans.
Context {JR : JsonReader} {RC : RegexCrate}.

Definition alert_spec_error (kind : string) (params : Value) : option string :=
  if negb (contains_str ["alert.rule.create"; "alert.rule.update"] kind) then None
  else match parse_alert (str_or_default params.["alert_rule_id"]) (str_or_default params.["name"])
               (str_or_default params.["spec"]) with
       | Err e => Some e
       | _ => None
       end.

(** The first action the pre-admission refusal names; [find_map] skips an
    action whose kind or component is not a string. *)
Definition refused_update (action : Value) : option string :=
  match as_str action.["kind"] with
  | Some kind =>
      if String.eqb kind "agent.update" then Some "agent.update"
      else if String.eqb kind "component.update" then
        match as_str action.["params"].["component"] with
        | Some component =>
            if contains_str ["runner"; "permanu-env"] component
            then Some ("component.update(" +:+ component +:+ ")") else None
        | None => None
        end
      else None
  | None => None
  end.

Definition not_supported_yet (envelope : string) : option string :=
  if MAX_SIGNED_PLAN_BYTES <? len envelope then None
  else match from_slice envelope with
  | None => None
  | Some parsed =>
      match as_array parsed.["plan"].["actions"] with
      | None => None
      | Some actions => filter_map refused_update actions !! 0%nat
      end
  end.

Definition plan_of (record : AdmissionRecord) : Value :=
  match parse_strict (q_signed_plan_json record) MAX_SIGNED_PLAN_BYTES with
  | Some envelope => envelope.["plan"]
  | None => VNull
  end.

(** [plan["actions"][index]["params"]]. *)
Definition action_params (plan : Value) (index : Z) : Value := (idx_n plan.["actions"] (Z.to_nat index)).["params"].

Definition is_update_action (action : Value) : bool :=
  is_some_and (as_str action.["kind"]) (contains_str ["agent.update"; "component.update"]).

Definition consumed_set (plan : Value) (index : nat) : option string :=
  match as_array plan.["actions"] with
  | None => None
  | Some actions =>
      match actions !! index with
      | None => None
      | Some action =>
          if is_update_action action then
            match as_str action.["params"].["bundle_manifest_digest_hex"] with
            | None => None
            | Some digest =>
                if existsb (fun later => is_update_action later
                     && bool_decide (as_str later.["params"].["bundle_manifest_digest_hex"] = Some digest))
                     (drop (S index) actions)
                then None else Some digest
            end
          else None
      end
  end.

End plans.

Definition plan_ref (record : AdmissionRecord) (action : ActionRecord) : PlanRef :=
  {| pr_plan_id := q_plan_id record; pr_plan_digest_hex := q_plan_digest_hex record;
     pr_action_index := qa_action_index action |}.

Definition spec_texts (specs : list string) : plan_result (list string) :=
  check? lenl specs <=? MAX_SPECS else PlanCode.SpecMismatch in
  map_each (fun bytes => if utf8_valid bytes then Ok bytes else Err PlanCode.SpecMismatch) specs.

(** ** Sliding windows *)

(** [while front().is_some_and(|at| now.duration_since(at) > window)]; the
    instants are those of the monotonic clock. *)
Fixpoint expire_slots (recent : list Z) (window now : Z) : list Z :=
  match recent with
  | at_ :: rest => if window <? now - at_ then expire_slots rest window now else recent
  | [] => []
  end.

Definition slot_open (recent : list Z) (limit window now : Z) : bool * list Z :=
  let recent := expire_slots recent window now in (lenl recent <? limit, recent).

Definition take_slot (recent : list Z) (limit window now : Z) : bool * list Z :=
  let recent := expire_slots recent window now in
  if limit <=? lenl recent then (false, recent) else (true, recent ++ [now]).
