(* ===== verification/Change.v ===== *)
(** * The change core

    src/local/execution.rs: submission, the executor of admitted actions, the
    reconciliation of the runner's consumed log and the operations it shows.
    [Core] is the state the tasks share, [World] what one task sees: the core,
    how far it has read its environment, the store calls that will fail, what
    it asked of the runner and what it published.  At every await other tasks
    run: [others] is any change they make to the core.  The two async locks
    only restrict [others], so they are not part of the model. *)

From S2P Require Import Prelude RustStr BTree PlanCode Json Jcs Calendar Text Crypto Trust Verify.
From S2P Require Import Store DefinitionStore AdmissionStore AlertRules Reconcile Queries Proto OpsStore.
From S2P Require Import Runner Errors Exec Effects.

(** ** Messages of the protocol *)

Module OperationState.
Definition Queued : Z := 1.
Definition Running : Z := 2.
Definition Succeeded : Z := 3.
Definition Failed : Z := 4.
Definition Cancelled : Z := 5.
Definition RolledBack : Z := 6.
End OperationState.

Inductive Phase : Type :=
| PhQueued | PhStarting | PhHealthChecking | PhLive | PhFailed | PhRollingBack | PhRolledBack | PhCancelled.

Record OperationStep := {
  os_index : Z; os_name : string; os_action : string; os_state : Z; os_started_at : option Z;
  os_finished_at : option Z; os_error : string; os_action_index : Z; os_deployment_id : string;
  os_failure_code : string; os_error_code : string; os_error_reason : Z
}.

Record StepLog := { sg_step_index : Z; sg_stream : string; sg_line : string }.

Record Operation := {
  op_id : string; op_plan_digest_hex : string; op_actions : list string; op_state : Z;
  op_submitted_at : option Z; op_started_at : option Z; op_finished_at : option Z;
  op_authorized_key_ids : list string; op_standing_rule_id : string; op_steps : list OperationStep;
  op_error : string; op_initiator : string; op_plan_id : string; op_error_code : string; op_error_reason : Z
}.

Inductive EventPayload := EvStep (s : OperationStep) | EvLog (l : StepLog) | EvFinished (o : Operation).

Record OperationEvent := {
  oe_operation_id : string; oe_seq : Z; oe_timestamp : option Z; oe_event : option EventPayload
}.

(** prost's encoding of an operation event. *)
Class EventWire : Type := { operation_event : Codec OperationEvent }.

Record EventScope := {
  es_project_id : string; es_service_id : string; es_deployment_id : string;
  es_environment : string; es_environment_id : string
}.

Definition no_scope : EventScope :=
  {| es_project_id := ""; es_service_id := ""; es_deployment_id := ""; es_environment := "";
     es_environment_id := "" |}.

Record DeployStatusEvent := {
  ds_deployment_id : string; ds_project_id : string; ds_service_id : string; ds_commit_sha : string;
  ds_phase : Phase; ds_message : string; ds_operation_id : string; ds_environment_id : string;
  ds_failure_code : string
}.

Record TrustChangedEvent := {
  tc_fingerprint_digest_hex : string; tc_generation : Z; tc_change : string; tc_subject_id : string
}.

(** ** State *)

(** (failure_code, error, error_code) of an action. *)
Definition Failure : Type := string * string * string.

Section change.
Context {CR : Crypto} {JR : JsonReader} {RC : RegexCrate} {EW : EventWire}.

Record Core := {
  c_db : Db; c_starts : BuildStarts; c_cancelled : gset string; c_running : gset string;
  c_failures : gmap (string * Z) Failure; c_held : gmap string (list Z)
}.

Definition core_db (c : Core) (x : Db) : Core :=
  {| c_db := x; c_starts := c_starts c; c_cancelled := c_cancelled c; c_running := c_running c;
     c_failures := c_failures c; c_held := c_held c |}.
Definition core_cancelled (c : Core) (x : gset string) : Core :=
  {| c_db := c_db c; c_starts := c_starts c; c_cancelled := x; c_running := c_running c;
     c_failures := c_failures c; c_held := c_held c |}.
Definition core_running (c : Core) (x : gset string) : Core :=
  {| c_db := c_db c; c_starts := c_starts c; c_cancelled := c_cancelled c; c_running := x;
     c_failures := c_failures c; c_held := c_held c |}.
Definition core_failures (c : Core) (x : gmap (string * Z) Failure) : Core :=
  {| c_db := c_db c; c_starts := c_starts c; c_cancelled := c_cancelled c; c_running := c_running c;
     c_failures := x; c_held := c_held c |}.
Definition core_held (c : Core) (x : gmap string (list Z)) : Core :=
  {| c_db := c_db c; c_starts := c_starts c; c_cancelled := c_cancelled c; c_running := c_running c;
     c_failures := c_failures c; c_held := x |}.
Definition core_starts (c : Core) (x : BuildStarts) : Core :=
  {| c_db := c_db c; c_starts := x; c_cancelled := c_cancelled c; c_running := c_running c;
     c_failures := c_failures c; c_held := c_held c |}.

(** A freshly started core on an opened store. *)
Definition new_core (db : Db) (starts : BuildStarts) : Core :=
  {| c_db := db; c_starts := starts; c_cancelled := ∅; c_running := ∅; c_failures := ∅; c_held := ∅ |}.

(** ** The environment

    Each reading is numbered by how many came before it. *)
Class Environment : Type := {
  clock : nat -> Z;
  trust_file : nat -> TrustState;
  (** The consumed log; [None] when the reading task did not end. *)
  log_file : nat -> option LogRead;
  exchange : nat -> Value -> RunnerFailure + Value;
  (** The start timeout ends while this exchange is in flight. *)
  start_elapsed : nat -> bool;
  others : nat -> Core -> Core;
  random_bytes : nat -> list ascii;
  host_keys : list string;
  recipient : string;
  start_timeout_seconds : Z;
  (** Artifact staging, the cron scheduler and the telemetry store are set
      once at start; [None] when they are not. *)
  staging_set : bool;
  begin_admitted_manual : nat -> string -> AdmissionRecord -> option (option string);
  telemetry_set : bool;
  set_retention : nat -> string -> Z -> Z -> bool
}.

Context {EN : Environment}.

(** A request to the runner and what the caller saw of its answer. *)
Record Call := { ca_op : string; ca_plan : PlanRef; ca_answer : option (call_result Value) }.

Inductive Output :=
| Streamed (event : OperationEvent)
| DeployStatus (scope : EventScope) (event : DeployStatusEvent)
| OperationEnded (scope : EventScope) (operation : Operation)
| TrustChanged (event : TrustChangedEvent)
| SetConsumed (digest : string)
| Bootstrapped (envelope : string)
| ManualFinished
| Executes (plan_id : string).

Record World := {
  x_core : Core; x_reads : nat; x_faults : list bool; x_calls : list Call; x_out : list Output
}.

Definition act (A : Type) : Type := st World A.

Definition set_core (x : Core) (w : World) : World :=
  {| x_core := x; x_reads := x_reads w; x_faults := x_faults w; x_calls := x_calls w; x_out := x_out w |}.
Definition set_faults (x : list bool) (w : World) : World :=
  {| x_core := x_core w; x_reads := x_reads w; x_faults := x; x_calls := x_calls w; x_out := x_out w |}.

Definition emit (o : Output) : act unit :=
  fun w => (tt, {| x_core := x_core w; x_reads := x_reads w; x_faults := x_faults w; x_calls := x_calls w;
                   x_out := x_out w ++ [o] |}).
Definition note_call (c : Call) : act unit :=
  fun w => (tt, {| x_core := x_core w; x_reads := x_reads w; x_faults := x_faults w;
                   x_calls := x_calls w ++ [c]; x_out := x_out w |}).

(** One reading of the environment. *)
Definition reading {A} (f : nat -> A) : act A :=
  fun w => (f (x_reads w), {| x_core := x_core w; x_reads := S (x_reads w); x_faults := x_faults w;
                              x_calls := x_calls w; x_out := x_out w |}).

Definition now_ : act Z := reading clock.
Definition load_trust : act TrustState := reading trust_file.

(** An await: the other tasks run. *)
Definition await_ : act unit :=
  let! f := reading others in fun w => (tt, set_core (f (x_core w)) w).

Definition gets {A} (f : Core -> A) : act A := asks (fun w => f (x_core w)).
Definition modify (f : Core -> Core) : act unit := fun w => (tt, set_core (f (x_core w)) w).

(** Whether the next store call fails. *)
Definition fault : act bool :=
  fun w => match x_faults w with [] => (false, w) | b :: rest => (b, set_faults rest w) end.

(** A read of the store; [None] when it fails. *)
Definition query {A} (f : Db -> A) : act (option A) :=
  let! failed := fault in
  if (failed : bool) then ret None else let! a := gets (fun c => f (c_db c)) in ret (Some a).

(** A transaction; a failed one changes nothing. *)
Definition transact {A} (f : Db -> option (A * Db)) : act (option A) :=
  let! failed := fault in
  if (failed : bool) then ret None
  else let! r := gets (fun c => f (c_db c)) in
       match r with
       | None => ret None
       | Some (a, db) => do! modify (fun c => core_db c db) in ret (Some a)
       end.

(** [self.store.admission(plan_id)] as [Ok(Some(record))]. *)
Definition stored_admission (plan_id : string) : act (option AdmissionRecord) :=
  let! r := query (fun db => admission db plan_id) in ret (default None r).

(** [self.store.actions(plan_id).unwrap_or_default()]. *)
Definition stored_actions (plan_id : string) : act (list ActionRecord) :=
  let! r := query (fun db => actions_of_plan db plan_id) in ret (default [] r).

(** ** Trust events *)

Definition trust_changed (change subject : string) : act unit :=
  let! trust := load_trust in
  let '(fingerprint, generation) := match trust with
    | Valid store => (fingerprint_of (ts_document store), generation store)
    | _ => ("", 0)
    end in
  emit (TrustChanged {| tc_fingerprint_digest_hex := fingerprint; tc_generation := generation;
                        tc_change := change; tc_subject_id := subject |}).

Definition store_recreated : act unit := trust_changed "store_recreated" "".

(** ** Operation events *)

Definition decode_event (text : string) : option OperationEvent :=
  match std_decode text with Some bytes => decode operation_event bytes | None => None end.

Definition record_event (operation_id : string) (payload : EventPayload) : act unit :=
  let! now := now_ in
  let event seq := {| oe_operation_id := operation_id; oe_seq := seq; oe_timestamp := Some now;
                      oe_event := Some payload |} in
  let! r := transact (fun db => Some (append_operation_event db operation_id now
              (fun seq => std_encode (encode_to_vec operation_event (event seq))))) in
  match r with
  | Some seq => emit (Streamed (event seq))
  | None => ret tt
  end.

Definition same_step (action_index : Z) (name : string) (s : OperationStep) : bool :=
  (os_action_index s =? action_index) && String.eqb (os_name s) name.

(** The latest state of a step keeps the time it started. *)
Definition restarted (existing step : OperationStep) : OperationStep :=
  {| os_index := os_index step; os_name := os_name step; os_action := os_action step; os_state := os_state step;
     os_started_at := os_started_at existing; os_finished_at := os_finished_at step; os_error := os_error step;
     os_action_index := os_action_index step; os_deployment_id := os_deployment_id step;
     os_failure_code := os_failure_code step; os_error_code := os_error_code step;
     os_error_reason := os_error_reason step |}.

Fixpoint update_step (steps : list OperationStep) (step : OperationStep) : list OperationStep :=
  match steps with
  | [] => [step]
  | s :: rest =>
      if same_step (os_action_index step) (os_name step) s then restarted s step :: rest
      else s :: update_step rest step
  end.

Definition fold_event (steps : list OperationStep) (event : Z * string) : list OperationStep :=
  match decode_event event.2 with
  | Some e => match oe_event e with Some (EvStep step) => update_step steps step | _ => steps end
  | None => steps
  end.

Definition recorded_steps (operation_id : string) : act (list OperationStep) :=
  let! events := query (fun db => operation_events_after db operation_id 0) in
  ret (fold_left fold_event (default [] events) []).

(** [position(..)]. *)
Fixpoint position {A} (p : A -> bool) (l : list A) : option nat :=
  match l with
  | [] => None
  | x :: rest => if p x then Some 0%nat else option_map S (position p rest)
  end.

Definition step_index (operation_id : string) (action_index : Z) (name : string) : act Z :=
  let! steps := recorded_steps operation_id in
  ret (Z.of_nat (default (length steps) (position (same_step action_index name) steps)) mod 2 ^ 32).

Definition is_end_state (state : Z) : bool :=
  (state =? OperationState.Succeeded) || (state =? OperationState.Failed)
  || (state =? OperationState.Cancelled) || (state =? OperationState.RolledBack).

Definition step_coded (record : AdmissionRecord) (action : option ActionRecord) (name : string) (state : Z)
    (error failure_code error_code : string) : act unit :=
  let action_index := match action with Some a => qa_action_index a | None => 0 end in
  let! now := now_ in
  let! index := step_index (q_operation_id record) action_index name in
  record_event (q_operation_id record) (EvStep {|
    os_index := index; os_name := name;
    os_action := match action with Some a => qa_kind a | None => "" end;
    os_state := state; os_started_at := Some now;
    os_finished_at := if is_end_state state then Some now else None;
    os_error := error; os_action_index := action_index;
    os_deployment_id := match action with Some a => default "" (qa_deployment_id a) | None => "" end;
    os_failure_code := failure_code; os_error_code := error_code;
    os_error_reason := ErrorReason.number (reason_of_code error_code) |}).

Definition step (record : AdmissionRecord) (action : option ActionRecord) (name : string) (state : Z)
    (error failure_code : string) : act unit :=
  step_coded record action name state error failure_code "".

Definition log_line (record : AdmissionRecord) (action : ActionRecord) (name line : string) : act unit :=
  let! index := step_index (q_operation_id record) (qa_action_index action) name in
  record_event (q_operation_id record)
    (EvLog {| sg_step_index := index; sg_stream := "agent"; sg_line := line |}).

Definition reader_token (result : Value) (key : string) : option string :=
  text_where (fun t => short 64 t && all_bytes is_ascii_graphic t) result.[key].

Definition reader_line (record : AdmissionRecord) (action : ActionRecord) (result : Value) : act unit :=
  match reader_token result "reader_status" with
  | None => ret tt
  | Some status =>
      log_line record action "activate_release"
        ("database reader permanu_reader: " +:+ status
         +:+ match reader_token result "reader_reason" with
             | Some reason => " (" +:+ reason +:+ ")"
             | None => ""
             end)
  end.

Definition deploy_status (record : AdmissionRecord) (plan : Value) (action : ActionRecord) (phase : Phase)
    (message failure_code : string) : act unit :=
  match qa_deployment_id action with
  | None => ret tt
  | Some deployment_id =>
      let params := action_params plan (qa_action_index action) in
      let service_id := str_or_default params.["service_id"] in
      emit (DeployStatus
        {| es_project_id := q_project_id record; es_service_id := service_id;
           es_deployment_id := deployment_id; es_environment := q_environment record;
           es_environment_id := q_environment_id record |}
        {| ds_deployment_id := deployment_id; ds_project_id := q_project_id record;
           ds_service_id := service_id; ds_commit_sha := str_or_default params.["commit_sha"];
           ds_phase := phase; ds_message := message; ds_operation_id := q_operation_id record;
           ds_environment_id := q_environment_id record;
           ds_failure_code := match phase with PhFailed | PhRolledBack => failure_code | _ => "" end |})
  end.

(** ** Operations *)

(** [Iterator::min] of texts. *)
Definition min_text (l : list string) : option string :=
  match l with
  | [] => None
  | x :: rest => Some (fold_left (fun m t => if String.ltb t m then t else m) rest x)
  end.

Definition state_of (record : AdmissionRecord) (held : bool) (actions : list ActionRecord) : Z :=
  if held then OperationState.Running
  else if String.eqb (q_outcome record) "succeeded" then OperationState.Succeeded
  else if contains_str ["failed"; "expired"] (q_outcome record) then OperationState.Failed
  else if String.eqb (q_outcome record) "cancelled" then OperationState.Cancelled
  else if String.eqb (q_outcome record) "rolled_back" then OperationState.RolledBack
  else if existsb (fun a => is_some (qa_consumed_at a) || is_some (qa_finished_at a)) actions
  then OperationState.Running
  else OperationState.Queued.

(** The last step with an error. *)
Definition ending_step (steps : list OperationStep) : option OperationStep :=
  find_first (fun s => negb (is_empty (os_error s))) (reverse steps).

Definition operation_view (record : AdmissionRecord) (actions : list ActionRecord) (steps : list OperationStep)
    (held : bool) : Operation :=
  let state := state_of record held actions in
  let ending := ending_step steps in
  let reason := match ending with Some s => os_error_reason s | None => 0 end in
  let cancelled := (state =? OperationState.Cancelled) && (reason =? 0) in
  {| op_id := q_operation_id record; op_plan_digest_hex := q_plan_digest_hex record;
     op_actions := q_action_kinds record; op_state := state;
     op_submitted_at := timestamp (q_admitted_at record);
     op_started_at := match min_text (filter_map (fun a =>
         match qa_consumed_at a with Some t => Some t | None => qa_finished_at a end) actions) with
       | Some t => timestamp t
       | None => None
       end;
     op_finished_at := if held then None
       else match q_finished_at record with Some t => timestamp t | None => None end;
     op_authorized_key_ids := q_signer_key_ids record;
     op_standing_rule_id := default "" (q_rule_id record); op_steps := steps;
     op_error := match ending with Some s => os_error s | None => "" end;
     op_initiator := if String.eqb (q_submitter record) "agent_webhook" then "webhook" else "engine";
     op_plan_id := q_plan_id record;
     op_error_code := if cancelled then PlanCode.as_str PlanCode.Cancelled
       else match ending with Some s => os_error_code s | None => "" end;
     op_error_reason := if cancelled then ErrorReason.number ErrorReason.Cancelled else reason |}.

Definition operation (record : AdmissionRecord) : act Operation :=
  let! actions := stored_actions (q_plan_id record) in
  let! steps := recorded_steps (q_operation_id record) in
  let! held := gets (fun c => is_some (c_held c !! q_plan_id record)) in
  ret (operation_view record actions steps held).

Definition finished (record : AdmissionRecord) : act unit :=
  let! fresh := stored_admission (q_plan_id record) in
  match fresh with
  | None => ret tt
  | Some fresh =>
      let! operation := operation fresh in
      do! emit (OperationEnded {| es_project_id := q_project_id fresh; es_service_id := ""; es_deployment_id := "";
                  es_environment := q_environment fresh; es_environment_id := q_environment_id fresh |} operation) in
      record_event (q_operation_id fresh) (EvFinished operation)
  end.

Definition announce_admission (plan_id : string) : act unit :=
  let! record := stored_admission plan_id in
  match record with
  | None => ret tt
  | Some record =>
      let plan := plan_of record in
      do! step record None "admitted" OperationState.Succeeded "" "" in
      let! actions := stored_actions plan_id in
      mfor (fun action =>
        do! step record (Some action) "queued" OperationState.Queued "" "" in
        deploy_status record plan action PhQueued "admitted" "") actions
  end.

Definition deployment_text (action : ActionRecord) : string := default "" (qa_deployment_id action).

Definition cancel_cleanup_step (record : AdmissionRecord) (action : ActionRecord) (cleanup : string) : act unit :=
  let deployment_id := deployment_text action in
  if String.eqb cleanup "done" then
    do! step record (Some action) "cleanup_candidate" OperationState.Succeeded "" "" in
    log_line record action "cleanup_candidate"
      ("cancelled candidate " +:+ deployment_id +:+ " removed with its secrets")
  else if String.eqb cleanup "failed" then
    step record (Some action) "cleanup_candidate" OperationState.Failed
      ("the cancel could not clean up candidate " +:+ deployment_id
       +:+ ": its containers or /run/permanu/secrets/" +:+ deployment_id +:+ "/ may remain on the server") ""
  else ret tt.

Definition end_of (outcome : string) : Z * Phase * string :=
  if String.eqb outcome "succeeded" then (OperationState.Succeeded, PhLive, "")
  else if String.eqb outcome "rolled_back" then (OperationState.RolledBack, PhRolledBack, "")
  else if String.eqb outcome "cancelled" then (OperationState.Cancelled, PhCancelled, "")
  else if String.eqb outcome "expired" then (OperationState.Failed, PhFailed, "execution window expired")
  else (OperationState.Failed, PhFailed, "").

Definition final_step (record : AdmissionRecord) (plan : Value) (action : ActionRecord) (outcome : string) : act unit :=
  do! (if String.eqb outcome "succeeded" && staging_set then
         match consumed_set plan (Z.to_nat (qa_action_index action)) with
         | Some digest => emit (SetConsumed digest)
         | None => ret tt
         end
       else ret tt) in
  let! failures := gets c_failures in
  let '(failure_code, error, error_code) :=
    default ("", "", "") (failures !! (q_plan_id record, qa_action_index action)) in
  let '(state, phase, message) := end_of outcome in
  let message := if is_empty error then message else error in
  let '(code, error_code) :=
    if contains_str ["failed"; "rolled_back"] outcome then (failure_code, error_code) else ("", "") in
  do! step_coded record (Some action) outcome state message code error_code in
  deploy_status record plan action phase message code.

(** ** Reconciliation *)

Definition action_context (plan_id : string) (index : Z) : act (option (AdmissionRecord * Value * ActionRecord)) :=
  let! record := stored_admission plan_id in
  match record with
  | None => ret None
  | Some record =>
      let! actions := query (fun db => actions_of_plan db plan_id) in
      ret match actions with
          | None => None
          | Some actions =>
              option_map (fun action => (record, plan_of record, action))
                (find_first (fun a => qa_action_index a =? index) actions)
          end
  end.

Definition is_held (plan_id : string) : act bool := gets (fun c => is_some (c_held c !! plan_id)).

Definition hold (plan_id : string) : act unit :=
  modify (fun c => core_held c (<[plan_id := default [] (c_held c !! plan_id)]> (c_held c))).

Definition apply_effect (effect : ReconcileEffect) : act unit :=
  match effect with
  | Consumed _ _ => ret tt
  | ActionFinished plan_id index outcome cleanup =>
      let! held := is_held plan_id in
      if (held : bool) then
        do! match cleanup with
            | None => ret tt
            | Some cleanup =>
                let! context := action_context plan_id index in
                match context with
                | Some (record, _, action) => cancel_cleanup_step record action cleanup
                | None => ret tt
                end
            end in
        modify (fun c => core_held c (alter (fun skipped => skipped ++ [index]) plan_id (c_held c)))
      else
        let! context := action_context plan_id index in
        match context with
        | None => ret tt
        | Some (record, plan, action) =>
            do! (if String.eqb (qa_kind action) "rule.revoke" && String.eqb outcome "succeeded"
                 then trust_changed "rule.revoke" (str_or_default (action_params plan index).["rule_id"])
                 else ret tt) in
            do! match cleanup with
                | Some cleanup => cancel_cleanup_step record action cleanup
                | None => ret tt
                end in
            final_step record plan action outcome
        end
  | AdmissionFinished plan_id _ =>
      let! held := is_held plan_id in
      if (held : bool) then ret tt
      else
        let! record := stored_admission plan_id in
        match record with Some record => finished record | None => ret tt end
  | Unexplained _ => trust_changed "file_changed" ""
  end.

(** The final steps and the end of a plan whose window ended. *)
Definition expire_steps (plan_id : string) : act unit :=
  let! record := stored_admission plan_id in
  match record with
  | None => ret tt
  | Some record =>
      let plan := plan_of record in
      let! actions := stored_actions plan_id in
      do! mfor (fun action => if String.eqb (qa_outcome action) "expired"
                              then final_step record plan action "expired" else ret tt) actions in
      finished record
  end.

Definition reconcile_once : act unit :=
  do! await_ in
  do! await_ in
  let! read := reading log_file in
  match read with
  | None => ret tt
  | Some read =>
      let! now := now_ in
      let! effects := transact (fun db => let '(db, effects) := reconcile db read now in Some (effects, db)) in
      match effects with
      | None => ret tt
      | Some effects =>
          do! mfor apply_effect effects in
          let! expired := transact (fun db => Some (expire_windows db now)) in
          mfor expire_steps (default [] expired)
      end
  end.

(** ** Completion *)

Definition release_held (plan_id : string) : act bool :=
  let! skipped := gets (fun c => c_held c !! plan_id) in
  match skipped with
  | None => ret false
  | Some skipped =>
      do! modify (fun c => core_held c (delete plan_id (c_held c))) in
      do! mfor (fun index =>
            let! context := action_context plan_id index in
            match context with
            | Some (record, plan, action) => final_step record plan action (qa_outcome action)
            | None => ret tt
            end) skipped in
      ret true
  end.

Definition note_failure (plan_id : string) (index : Z) (f : Failure) : act unit :=
  modify (fun c => core_failures c (<[(plan_id, index) := f]> (c_failures c))).

(** [finish_action(..)], false when it fails. *)
Definition finish_stored (plan_id : string) (index : Z) (outcome : string) : act bool :=
  let! now := now_ in
  let! r := transact (fun db => match finish_action db plan_id index outcome now with
                                | Ok r => Some r
                                | _ => None
                                end) in
  ret (default false r).

Definition finish_if_ended (plan_id : string) : act unit :=
  let! fresh := stored_admission plan_id in
  match fresh with
  | Some fresh => if is_some (q_finished_at fresh) then finished fresh else ret tt
  | None => ret tt
  end.

Definition complete (record : AdmissionRecord) (plan : Value) (action : ActionRecord) (o : Outcome) : act unit :=
  do! note_failure (q_plan_id record) (qa_action_index action) (oc_failure_code o, oc_error o, oc_error_code o) in
  do! reconcile_once in
  let! recorded := finish_stored (q_plan_id record) (qa_action_index action) (oc_outcome o) in
  do! (if (recorded : bool) then final_step record plan action (oc_outcome o) else ret tt) in
  let! held := release_held (q_plan_id record) in
  if negb recorded && negb held then ret tt else finish_if_ended (q_plan_id record).

(** ** Calls to the runner *)

(** A bound call; inside the start phase the start timeout may end it, and
    then its answer is not seen. *)
Definition call (in_start : bool) (op : string) (plan : PlanRef) : act (option (call_result Value)) :=
  do! await_ in
  let! answered := reading (fun n => exchange n (bound_request op plan)) in
  let! elapsed := (if in_start then reading start_elapsed else ret false) in
  let answer := if (elapsed : bool) then None
                else Some (match answered with inl failure => Err failure | inr value => Ok value end) in
  do! note_call {| ca_op := op; ca_plan := plan; ca_answer := answer |} in
  ret answer.

(** A call outside the start phase. *)
Definition ask (op : string) (plan : PlanRef) : act (call_result Value) :=
  let! answer := call false op plan in
  ret (default (Err (transport TIMED_OUT)) answer).

Definition is_cancelled (plan_id : string) : act bool := gets (fun c => bool_decide (plan_id ∈ c_cancelled c)).

Definition bind (record : AdmissionRecord) (action : ActionRecord) : act (option Outcome) :=
  if is_some (qa_consumed_at action) then ret None
  else
    let! answer := ask "bind_plan" (plan_ref record action) in
    match bind_plan answer with
    | Ok bound =>
        do! step record (Some action) "bound" OperationState.Succeeded "" "" in
        do! log_line record action "bound" ("bound to the runner at " +:+ bo_consumed_at bound) in
        ret None
    | Err failure =>
        if bool_decide (failure_plan_code failure = PlanCode.PlanConsumed) then
          do! step record (Some action) "bound" OperationState.Succeeded "" "" in
          do! log_line record action "bound" "already bound to the runner" in
          ret None
        else ret (Some (outcome_runner "failed" "" failure))
    | Panic => ret None
    end.

Definition op_phase (kind op : string) : option Phase :=
  if contains_str ["prepare_release"; "restart_release"] op then Some PhStarting
  else if contains_str ["verify_health"; "activate_release"] op then Some PhHealthChecking
  else if String.eqb op "rollback_release" then
    Some (if String.eqb kind "deploy" then PhRollingBack else PhStarting)
  else None.

(** [op_result]; [None] when the start timeout ended the call. *)
Definition op_result (in_start : bool) (record : AdmissionRecord) (plan : Value) (action : ActionRecord) (op : string)
    : act (option (call_result Value)) :=
  do! step record (Some action) op OperationState.Running "" "" in
  do! match op_phase (qa_kind action) op with
      | Some phase => deploy_status record plan action phase op ""
      | None => ret tt
      end in
  let! answer := call in_start op (plan_ref record action) in
  match answer with
  | None => ret None
  | Some answer =>
      let result := run_op answer in
      do! match result with
          | Ok done =>
              do! mfor (log_line record action op) (od_progress done) in
              step record (Some action) op OperationState.Succeeded "" ""
          | Err failure =>
              let! cancelled := is_cancelled (q_plan_id record) in
              if (cancelled : bool) then ret tt
              else step_coded record (Some action) op OperationState.Failed (describe failure)
                     (op_failure_code (qa_kind action) op failure) (rf_code failure)
          | Panic => ret tt
          end in
      ret (Some (let? done := result in Ok (od_result done)))
  end.

(** [op] outside the start phase. *)
Definition run_one (record : AdmissionRecord) (plan : Value) (action : ActionRecord) (op : string)
    : act (call_result Value) :=
  let! answer := op_result false record plan action op in
  ret (default (Err (transport TIMED_OUT)) answer).

(** ** Op sequences *)

Fixpoint each_op (record : AdmissionRecord) (plan : Value) (action : ActionRecord) (done : list string)
    (ops : list string) : act (option Outcome) :=
  match ops with
  | [] => ret None
  | op :: rest =>
      if contains_str done op then each_op record plan action done rest
      else
        let! result := run_one record plan action op in
        match result with
        | Ok _ => each_op record plan action done rest
        | Err failure =>
            ret (Some (outcome_runner "failed" (op_failure_code (qa_kind action) op failure) failure))
        | Panic => ret None
        end
  end.

Definition runner_succeeded (record : AdmissionRecord) (action : ActionRecord) : act bool :=
  let! actions := stored_actions (q_plan_id record) in
  ret (existsb (fun a => (qa_action_index a =? qa_action_index action) && is_some (qa_finished_at a)
                         && String.eqb (qa_outcome a) "succeeded") actions).

(** [op] lines of the consumed log for each action of the plan. *)
Definition op_of_line (record : AdmissionRecord) (index : Z) (line : ConsumedLine) : option string :=
  if String.eqb (cl_event line) "op" && String.eqb (cl_plan_id line) (q_plan_id record)
     && String.eqb (cl_plan_digest_hex line) (q_plan_digest_hex record) && (cl_action_index line =? index)
  then cl_op line else None.

Definition logged_ops (record : AdmissionRecord) : act (Z -> list string) :=
  do! await_ in
  let! read := reading log_file in
  ret (fun index => match read with
                    | None => []
                    | Some read => filter_map (op_of_line record index) (lr_lines read)
                    end).

(** *** Cancel *)

Definition log_cancelled (record : AdmissionRecord) (action : ActionRecord) (cancelled : list Value) : act unit :=
  mfor (fun entry =>
    let index := dec_string (default 0 (as_u64 entry.["action_index"])) in
    let cleanup := default "unknown" (text_where (contains_str ["done"; "failed"; "none"]) entry.["cleanup"]) in
    log_line record action "cancel_execution"
      match text_where text_id entry.["deployment_id"] with
      | Some id => "cancelled action " +:+ index +:+ " (deployment " +:+ id +:+ "): cleanup " +:+ cleanup
      | None => "cancelled action " +:+ index +:+ ": cleanup " +:+ cleanup
      end) (take MAX_LOGGED_CANCELLED cancelled).

(** One entry of the rebuilt list, with its index. *)
Definition cancelled_entry (actions : list ActionRecord) (line : ConsumedLine) : Z * Value :=
  let deployment := match find_first (fun a => qa_action_index a =? cl_action_index line) actions with
                    | Some a => qa_deployment_id a
                    | None => None
                    end in
  (cl_action_index line,
   json_object [ ("action_index", VNumber (PosInt (cl_action_index line)));
                 ("deployment_id", match deployment with Some d => VString d | None => VNull end);
                 ("cleanup", VString (default "none" (cl_cleanup line))) ]).

(** [dedup_by_key]. *)
Fixpoint dedup_index (last : option Z) (l : list (Z * Value)) : list (Z * Value) :=
  match l with
  | [] => []
  | e :: rest =>
      if bool_decide (last = Some e.1) then dedup_index last rest else e :: dedup_index (Some e.1) rest
  end.

Definition cancelled_lines (cancelled : AdmissionRecord) (read : LogRead) : list ConsumedLine :=
  List.filter (fun line => String.eqb (cl_event line) "result" && String.eqb (cl_plan_id line) (q_plan_id cancelled)
                 && String.eqb (cl_plan_digest_hex line) (q_plan_digest_hex cancelled)
                 && bool_decide (cl_outcome line = Some "cancelled")) (lr_lines read).

Definition cancelled_in_log (cancelled : AdmissionRecord) : act (list Value) :=
  do! await_ in
  let! read := reading log_file in
  match read with
  | None => ret []
  | Some read =>
      let! actions := stored_actions (q_plan_id cancelled) in
      ret (snd <$> dedup_index None (order_asc fst (cancelled_entry actions <$> cancelled_lines cancelled read)))
  end.

Definition stopped_line (stopped : Value) : string :=
  let text field := default "-" (as_str stopped.[field]) in
  "stopped " +:+ text "op" +:+ " (" +:+ text "binding" +:+ " binding): " +:+ text "outcome".

Definition run_cancel_running (record : AdmissionRecord) (action : ActionRecord) : act unit :=
  do! step record (Some action) "cancel_running" OperationState.Running "" "" in
  let! answer := ask "cancel_running" (plan_ref record action) in
  match run_op answer with
  | Ok done =>
      do! mfor (log_line record action "cancel_running") (od_progress done) in
      do! mfor (fun stopped => log_line record action "cancel_running" (stopped_line stopped))
            (items_of (od_result done).["stopped"]) in
      step record (Some action) "cancel_running" OperationState.Succeeded "" ""
  | Err failure =>
      step_coded record (Some action) "cancel_running" OperationState.Failed (describe failure) "" (rf_code failure)
  | Panic => ret tt
  end.

(** The unfinished actions of the cancelled plan end [cancelled], unless
    their [activate_release] started. *)
Definition cancel_victims (cancelled : AdmissionRecord) : act unit :=
  let plan := plan_of cancelled in
  let! ops := logged_ops cancelled in
  let! victims := stored_actions (q_plan_id cancelled) in
  mfor (fun victim =>
    if negb (is_some (qa_finished_at victim))
       && negb (contains_str (ops (qa_action_index victim)) "activate_release")
    then complete cancelled plan victim
           (outcome_with "cancelled" "" "cancelled by an admitted operation.cancel")
    else ret tt) victims.

(** After the runner's [cancel_execution]: [wire] is its result line. *)
Definition cancel_done (record : AdmissionRecord) (action : ActionRecord) (target : string) (wire : option Value)
    : act Outcome :=
  do! reconcile_once in
  let! cancelled := stored_admission target in
  let! listed := match cancelled with
    | None => ret []
    | Some cancelled => do! cancel_victims cancelled in cancelled_in_log cancelled
    end in
  let list := default listed (match wire with Some result => as_array result.["cancelled"] | None => None end) in
  do! log_cancelled record action list in
  do! step record (Some action) "cancel_execution" OperationState.Succeeded "" "" in
  ret outcome_succeeded.

Definition run_cancel (record : AdmissionRecord) (action : ActionRecord) (params : Value) (done : list string)
    : act Outcome :=
  let target := str_or_default params.["plan_id"] in
  let! known := is_cancelled target in
  do! modify (fun c => core_cancelled c ({[ target ]} ∪ c_cancelled c)) in
  do! hold (q_plan_id record) in
  do! (if existsb (fun d => String.eqb d "cancel_running" || String.eqb d "cancel_execution") done
       then ret tt else run_cancel_running record action) in
  if contains_str done "cancel_execution" then cancel_done record action target None
  else
    do! step record (Some action) "cancel_execution" OperationState.Running "" "" in
    let! answer := ask "cancel_execution" (plan_ref record action) in
    match run_op answer with
    | Ok result =>
        do! mfor (log_line record action "cancel_execution") (od_progress result) in
        cancel_done record action target (Some (od_result result))
    | Err failure =>
        do! reconcile_once in
        let! ended := runner_succeeded record action in
        if (ended : bool) then cancel_done record action target None
        else
          do! (if (known : bool) then ret tt
               else modify (fun c => core_cancelled c (c_cancelled c ∖ {[ target ]}))) in
          do! step_coded record (Some action) "cancel_execution" OperationState.Failed (describe failure) ""
                (rf_code failure) in
          ret (outcome_runner "failed" "" failure)
    | Panic => ret outcome_succeeded
    end.

Definition run_ops (record : AdmissionRecord) (plan : Value) (action : ActionRecord) (ops done : list string)
    : act Outcome :=
  let params := action_params plan (qa_action_index action) in
  if String.eqb (qa_kind action) "operation.cancel" then run_cancel record action params done
  else
    let! failed := each_op record plan action done ops in
    match failed with
    | Some o => ret o
    | None =>
        do! (if String.eqb (qa_kind action) "key.add"
             then trust_changed "key.add" (str_or_default params.["entry"].["key_id"])
             else if String.eqb (qa_kind action) "key.revoke"
             then trust_changed "key.revoke" (str_or_default params.["revocation"].["key_id"])
             else ret tt) in
        ret outcome_succeeded
    end.

(** *** Deploy *)

Definition record_handed_back_rollback (record : AdmissionRecord) (plan : Value) (action : ActionRecord) : act unit :=
  do! step record (Some action) "rollback_release" OperationState.Running "" "" in
  do! deploy_status record plan action PhRollingBack "rollback_release" "" in
  step record (Some action) "rollback_release" OperationState.Succeeded "" "".

Definition prune_releases (record : AdmissionRecord) (plan : Value) (action : ActionRecord) : act unit :=
  let! result := run_one record plan action "prune_releases" in
  match result with
  | Ok result =>
      match as_u64 result.["pruned_releases"] with
      | Some count => log_line record action "prune_releases" ("pruned " +:+ dec_string count +:+ " older releases")
      | None => ret tt
      end
  | _ => ret tt
  end.

Definition start_failure (op : string) (failure : RunnerFailure) : StartFailure :=
  let prepare := String.eqb op "prepare_release" && negb (timed_out op failure) in
  {| sf_failure_code := op_failure_code "deploy" op failure; sf_message := describe failure;
     sf_error_code := rf_code failure; sf_restorable := negb prepare;
     sf_refused := prepare && refused_by_check failure;
     sf_handed_back := String.eqb op "verify_health" && bool_decide (rf_state failure = Some "rolled_back") |}.

(** The start phase ends: nothing failed, or a cancel stopped it; a failure;
    the start timeout during the named op. *)
Inductive StartEnd := Started | StartFailed (f : StartFailure) | StartElapsed (op : string).

Fixpoint start_phase (record : AdmissionRecord) (plan : Value) (action : ActionRecord) (done : list string)
    (ops : list string) : act StartEnd :=
  match ops with
  | [] => ret Started
  | op :: rest =>
      if contains_str done op then start_phase record plan action done rest
      else
        do! (if String.eqb op "verify_health" then hold (q_plan_id record) else ret tt) in
        let! result := op_result true record plan action op in
        match result with
        | None => ret (StartElapsed op)
        | Some (Err failure) => ret (StartFailed (start_failure op failure))
        | Some _ =>
            let! cancelled := is_cancelled (q_plan_id record) in
            if (cancelled : bool) then ret Started else start_phase record plan action done rest
        end
  end.

Definition elapsed_failure (record : AdmissionRecord) (action : ActionRecord) (op : string) : act StartFailure :=
  let message := "start phase exceeded start_timeout_seconds = " +:+ dec_string start_timeout_seconds in
  do! step record (Some action) op OperationState.Failed message "start" in
  ret {| sf_failure_code := "start"; sf_message := message; sf_error_code := ""; sf_restorable := true;
         sf_refused := false; sf_handed_back := false |}.

Definition failed_start (record : AdmissionRecord) (action : ActionRecord) (e : StartEnd) : act (option StartFailure) :=
  match e with
  | Started => ret None
  | StartFailed f => ret (Some f)
  | StartElapsed op => let! f := elapsed_failure record action op in ret (Some f)
  end.

(** The recovery after a failure of the start phase or the activation. *)
Definition recover_deploy (record : AdmissionRecord) (plan : Value) (action : ActionRecord) (failure : StartFailure)
    (is_activated : bool) : act Outcome :=
  let service_id := str_or_default (action_params plan (qa_action_index action)).["service_id"] in
  let! previous := (if sf_restorable failure
                    then query (fun db => has_previous_release db record service_id) else ret (Some false)) in
  let '(recovery, outcome) := if default false previous then ("rollback_release", "rolled_back")
                              else ("cleanup_candidate", "failed") in
  do! note_failure (q_plan_id record) (qa_action_index action)
        (sf_failure_code failure, sf_message failure, sf_error_code failure) in
  let! result := run_one record plan action recovery in
  let ended := match result with
    | Err f => outcome_runner "failed" "recovery" f
    | _ => outcome_coded outcome (sf_failure_code failure) (sf_message failure) (sf_error_code failure)
    end in
  ret (if is_activated then activated ended else ended).

(** The activation of a started candidate. *)
Definition activate (record : AdmissionRecord) (plan : Value) (action : ActionRecord) : act Outcome :=
  do! hold (q_plan_id record) in
  let! result := run_one record plan action "activate_release" in
  match result with
  | Err failure =>
      if bool_decide (rf_state failure = Some "rolled_back") then
        do! record_handed_back_rollback record plan action in
        ret (activated (outcome_coded "rolled_back" (op_failure_code "deploy" "activate_release" failure)
                          (describe failure) (rf_code failure)))
      else
        recover_deploy record plan action
          {| sf_failure_code := op_failure_code "deploy" "activate_release" failure;
             sf_message := describe failure; sf_error_code := rf_code failure; sf_restorable := true;
             sf_refused := false; sf_handed_back := false |} true
  | Ok result =>
      do! reader_line record action result in
      do! prune_releases record plan action in
      ret (activated outcome_succeeded)
  | Panic => ret (activated outcome_succeeded)
  end.

Definition run_deploy (record : AdmissionRecord) (plan : Value) (action : ActionRecord) (done : list string)
    : act Outcome :=
  if contains_str done "rollback_release" || contains_str done "cleanup_candidate"
  then ret (outcome_with "failed" "" "failure path already ran")
  else
    let! started := start_phase record plan action done ["prepare_release"; "verify_health"] in
    let! failure := failed_start record action started in
    if is_some_and failure sf_handed_back then
      match failure with
      | Some f =>
          do! record_handed_back_rollback record plan action in
          ret (outcome_coded "rolled_back" (sf_failure_code f) (sf_message f) (sf_error_code f))
      | None => ret outcome_succeeded
      end
    else
      let! cancelled := is_cancelled (q_plan_id record) in
      if (cancelled : bool) then ret (outcome_with "cancelled" "" "")
      else match failure with
      | Some f =>
          if sf_refused f
          then ret (outcome_coded "failed" (sf_failure_code f) (sf_message f) (sf_error_code f))
          else
            let! cancelled := is_cancelled (q_plan_id record) in
            if (cancelled : bool) then ret (outcome_with "cancelled" "" "")
            else recover_deploy record plan action f false
      | None =>
          if contains_str done "activate_release" then ret (activated outcome_succeeded)
          else activate record plan action
      end.

(** *** Actions the agent applies itself *)

Definition TELEMETRY_KINDS : list string := ["logs"; "traces"; "metrics"; "analytics"; "http"].

Definition apply_retention (params : Value) : act (option Outcome) :=
  let kind := text_where (contains_str TELEMETRY_KINDS) params.["telemetry_kind"] in
  let age := match as_u64 params.["max_age_days"] with
             | Some age => if age <=? u32_max then Some age else None
             | None => None
             end in
  let bytes := as_u64 params.["max_bytes"] in
  if negb telemetry_set then ret (Some (outcome_with "failed" "" "telemetry store unavailable"))
  else match kind, age, bytes with
  | Some kind, Some age, Some bytes =>
      let! set := reading (fun n => set_retention n kind age bytes) in
      ret (if (set : bool) then None
           else Some (outcome_with "failed" "" "telemetry retention policy was not committed"))
  | _, _, _ => ret (Some (outcome_with "failed" "" "invalid telemetry retention policy"))
  end.

Definition apply_agent_action (action : ActionRecord) (params : Value) : act Outcome :=
  let! failed := (if String.eqb (qa_kind action) "telemetry.retention.set" then apply_retention params else ret None) in
  match failed with
  | Some o => ret o
  | None =>
      match alert_spec_error (qa_kind action) params with
      | Some error => ret (outcome_with "failed" "" ("invalid alert rule spec: " +:+ error))
      | None =>
          do! (if String.eqb (qa_kind action) "rule.create"
               then trust_changed (qa_kind action) (str_or_default params.["rule"].["id"]) else ret tt) in
          ret outcome_succeeded
      end
  end.

(** ** The executor *)

Definition run_bound (record : AdmissionRecord) (plan : Value) (action : ActionRecord) (params : Value)
    (ops done : list string) : act Outcome :=
  if String.eqb (qa_kind action) "cron.run" then
    let! begun := reading (fun n => begin_admitted_manual n (str_or_default params.["cron_id"]) record) in
    match begun with
    | None => ret (outcome_with "failed" "" "cron scheduler is unavailable")
    | Some (Some reason) => ret (outcome_with "failed" "" reason)
    | Some None => run_ops record plan action ops done
    end
  else run_ops record plan action ops done.

Definition run_action (record : AdmissionRecord) (plan : Value) (action : ActionRecord) (params : Value)
    (done : list string) : act (option Outcome) :=
  match exec_of (qa_kind action) params with
  | ExAgent => let! o := apply_agent_action action params in ret (Some o)
  | ExNotImplemented =>
      ret (Some (outcome_with "failed" ""
                   ("not_implemented: " +:+ qa_kind action +:+ " is not executed on this server")))
  | ExInput | ExDefinition => bind record action
  | ExShell => ret None
  | ExDeploy =>
      let! failed := bind record action in
      match failed with
      | Some o => ret (Some o)
      | None => let! o := run_deploy record plan action done in ret (Some o)
      end
  | ExOps ops =>
      let! failed := bind record action in
      match failed with
      | Some o => ret (Some o)
      | None => let! o := run_bound record plan action params ops done in ret (Some o)
      end
  end.

Definition window_open (record : AdmissionRecord) : act bool :=
  match execution_deadline (q_admitted_at record) with
  | None => ret false
  | Some deadline => let! now := now_ in ret (now <=? deadline)
  end.

Definition not_ok (outcome : string) : bool := negb (String.eqb outcome "succeeded").

(** The upgrade's receipt: its outcome, or nothing yet. *)
Definition upgrade_receipt (plan_id : string) (index : Z) : act (option string) :=
  do! reconcile_once in
  let! actions := query (fun db => actions_of_plan db plan_id) in
  ret match find_first (fun a => qa_action_index a =? index) (default [] actions) with
      | Some fresh => if is_some (qa_finished_at fresh) then Some (qa_outcome fresh) else None
      | None => None
      end.

(** The loop over the actions: [Some failed] at its end or a break, [None]
    when the executor returns. *)
Fixpoint run_actions (record : AdmissionRecord) (plan : Value) (ops : Z -> list string) (failed : bool)
    (actions : list ActionRecord) : act (option bool) :=
  match actions with
  | [] => ret (Some failed)
  | action :: rest =>
      let next failed := run_actions record plan ops failed rest in
      let! cancelled := is_cancelled (q_plan_id record) in
      if (cancelled : bool) then ret (Some failed)
      else if is_some (qa_finished_at action) then next (failed || not_ok (qa_outcome action))
      else
        let! open := window_open record in
        if negb open then
          do! (if is_some (qa_consumed_at action) then ret tt
               else complete record plan action (outcome_with "expired" "" "execution window ended")) in
          next failed
        else if failed then
          do! (if is_some (qa_consumed_at action) then ret tt
               else complete record plan action (outcome_with "failed" "" "not run: an earlier action failed")) in
          next failed
        else
          let params := action_params plan (qa_action_index action) in
          let upgrade := is_upgrade (qa_kind action) params in
          let done := if upgrade then [] else ops (qa_action_index action) in
          if negb (String.eqb (qa_kind action) "operation.cancel") && contains_str done "cancel_execution" then
            do! modify (fun c => core_cancelled c ({[ q_plan_id record ]} ∪ c_cancelled c)) in
            ret (Some failed)
          else
            let! outcome := run_action record plan action params done in
            match outcome with
            | None => next failed
            | Some o =>
                if upgrade && not_ok (oc_outcome o) then
                  let! receipt := upgrade_receipt (q_plan_id record) (qa_action_index action) in
                  match receipt with
                  | Some outcome => next (failed || not_ok outcome)
                  | None => ret None
                  end
                else
                  let! cancelled := is_cancelled (q_plan_id record) in
                  if cancelled && negb (oc_activated o) then ret (Some failed)
                  else
                    do! complete record plan action o in
                    do! (if String.eqb (qa_kind action) "cron.run" then emit ManualFinished else ret tt) in
                    next (failed || not_ok (oc_outcome o))
            end
  end.

(** Input actions take the composed action's outcome. *)
Definition complete_inputs (record : AdmissionRecord) (plan : Value) (failed : bool) : act unit :=
  let! actions := stored_actions (q_plan_id record) in
  mfor (fun action =>
    if negb (is_some (qa_finished_at action)) && is_some (qa_consumed_at action)
       && contains_str INPUT_KINDS (qa_kind action)
    then complete record plan action (outcome_with (if failed then "failed" else "succeeded") "" "")
    else ret tt) actions.

Definition execute_record (record : AdmissionRecord) : act unit :=
  let plan := plan_of record in
  let! ops := logged_ops record in
  let! actions := stored_actions (q_plan_id record) in
  let! ended := run_actions record plan ops false actions in
  match ended with
  | None => ret tt
  | Some failed =>
      do! reconcile_once in
      let! cancelled := is_cancelled (q_plan_id record) in
      if (cancelled : bool) then ret tt else complete_inputs record plan failed
  end.

Definition execute_inner (plan_id : string) : act unit :=
  let! record := stored_admission plan_id in
  match record with
  | None => ret tt
  | Some record =>
      do! (if bool_decide (q_action_kinds record = ["operation.cancel"]) then ret tt else await_) in
      let! record := stored_admission plan_id in
      match record with
      | None => ret tt
      | Some record => if is_some (q_finished_at record) then ret tt else execute_record record
      end
  end.

Definition execute (plan_id : string) : act unit :=
  let! running := gets (fun c => bool_decide (plan_id ∈ c_running c)) in
  if (running : bool) then ret tt
  else
    do! modify (fun c => core_running c ({[ plan_id ]} ∪ c_running c)) in
    do! execute_inner plan_id in
    let! held := release_held plan_id in
    do! (if (held : bool) then finish_if_ended plan_id else ret tt) in
    modify (fun c => core_running c (c_running c ∖ {[ plan_id ]})).

(** [spawn_background] up to its polling loop: open admissions are resumed,
    cancels first. *)
Definition is_cancel_only (record : AdmissionRecord) : bool :=
  bool_decide (q_action_kinds record = ["operation.cancel"]).

(** The stable [sort_by_key(|r| r.action_kinds != ["operation.cancel"])]. *)
Definition resume_order (pending : list AdmissionRecord) : list AdmissionRecord :=
  List.filter is_cancel_only pending ++ List.filter (fun r => negb (is_cancel_only r)) pending.

Definition resume : act unit :=
  do! reconcile_once in
  let! pending := query open_admissions in
  mfor (fun record => execute (q_plan_id record)) (resume_order (default [] pending)).

(** One round of the polling loop; [ticks] rounds came before it. *)
Definition background_round (ticks : Z) : act unit :=
  do! reconcile_once in
  if (ticks + 1) mod 1800 =? 0 then
    let! now := now_ in
    let! _ := transact (fun db => Some (prune_operation_events db now)) in ret tt
  else ret tt.

(** *** The shell *)

Definition bind_shell (plan_id : string) : act (outcome string (AdmissionRecord * ActionRecord)) :=
  let! record := stored_admission plan_id in
  match record with
  | None => ret (Err "admission not found")
  | Some record =>
      let! actions := stored_actions plan_id in
      match find_first (fun a => (qa_action_index a =? 0) && String.eqb (qa_kind a) "shell.open") actions with
      | None => ret (Err "no shell.open action")
      | Some action =>
          if is_some (qa_finished_at action) then ret (Err "the shell.open action already ended")
          else
            let! failed := bind record action in
            match failed with
            | Some o => ret (Err (oc_error o))
            | None =>
                do! step record (Some action) "shell_open" OperationState.Running "" "" in
                ret (Ok (record, action))
            end
      end
  end.

Definition shell_log (record : AdmissionRecord) (action : ActionRecord) (line : string) : act unit :=
  log_line record action "shell_open" line.

(** ** Submission *)

Record Submission := { su_envelope : string; su_specs : list string; su_sealed_secrets : list string }.

(** [bootstrap_trust] on the runner: unbound, with the envelope's text. *)
Definition ask_bootstrap (envelope : string) : act (call_result unit) :=
  do! await_ in
  let! answered := reading (fun n => exchange n (bootstrap_request envelope)) in
  do! emit (Bootstrapped envelope) in
  ret (bootstrap_trust (match answered with inl failure => Err failure | inr value => Ok value end)).

(** The bootstrap of a server without a trust file. *)
Definition bootstrap (envelope : string) : act (plan_result TrustStore) :=
  let! now := now_ in
  let! quarantine := query (fun db => check_quarantine db now) in
  match default (Err PlanCode.Internal) quarantine with
  | Err code => ret (Err code)
  | Panic => ret Panic
  | Ok _ =>
      let! now := now_ in
      match verify_bootstrap envelope host_keys recipient now with
      | Err code => ret (Err code)
      | Panic => ret Panic
      | Ok _ =>
          if negb (utf8_valid envelope) then ret (Err PlanCode.Parse)
          else
            let! written := ask_bootstrap envelope in
            match written with
            | Err failure => ret (Err (failure_plan_code failure))
            | Panic => ret Panic
            | Ok _ =>
                let! trust := load_trust in
                match trust with
                | Valid store => do! trust_changed "server.add" (ts_server_id store) in ret (Ok store)
                | _ => ret (Err PlanCode.Internal)
                end
            end
      end
  end.

Definition trust_for (envelope : string) : act (plan_result TrustStore) :=
  let! trust := load_trust in
  match trust with
  | Valid store => ret (Ok store)
  | Invalid _ _ => ret (Err PlanCode.TrustStoreInvalid)
  | Absent =>
      do! await_ in
      let! trust := load_trust in
      match trust with
      | Valid store => ret (Ok store)
      | Invalid _ _ => ret (Err PlanCode.TrustStoreInvalid)
      | Absent => bootstrap envelope
      end
  end.

(** [store.admit] in a blocking task: a failed store call or a panic is
    [Internal], and a failed transaction leaves the store as it was. *)
Definition admit_stored (trust : TrustStore) (input : AdmitInput) : act (plan_result Admission) :=
  do! await_ in
  let! failed := fault in
  if (failed : bool) then ret (Err PlanCode.Internal)
  else
    let! random := reading random_bytes in
    let! r := gets (fun c => admit_plan (c_db c) trust (c_starts c) random input) in
    match r with
    | Ok (admission, db) => do! modify (fun c => core_db c db) in ret (Ok admission)
    | Err code => ret (Err code)
    | Panic => ret (Err PlanCode.Internal)
    end.

Definition submit (s : Submission) (submitter : Submitter) : act (plan_result Admission) :=
  match spec_texts (su_specs s) with
  | Err code => ret (Err code)
  | Panic => ret Panic
  | Ok specs =>
      if MAX_SEALED_SECRETS <? lenl (su_sealed_secrets s) then ret (Err PlanCode.ExecPrecondition)
      else if MAX_SIGNED_PLAN_BYTES <? len (su_envelope s) then ret (Err PlanCode.Parse)
      else
        let! trust := trust_for (su_envelope s) in
        match trust with
        | Err code => ret (Err code)
        | Panic => ret Panic
        | Ok trust =>
            let! now := now_ in
            let! admission := admit_stored trust
              {| in_envelope := su_envelope s; in_specs := specs; in_sealed_secrets := su_sealed_secrets s;
                 in_submitter := submitter; in_now := now |} in
            match admission with
            | Ok a =>
                do! (if am_deduplicated a then ret tt
                     else do! announce_admission (am_plan_id a) in emit (Executes (am_plan_id a))) in
                ret (Ok a)
            | _ => ret admission
            end
        end
  end.

(** [VerifySignedPlan]: the plan, its digest and the signers. *)
Definition plan_and_digest (envelope : string) (signers : list string) : plan_result (Value * string * list string) :=
  let? parsed := parse_envelope envelope in
  let? digest := plan_digest_hex parsed.1 in
  Ok (parsed.1, digest, signers).

Definition verify (s : Submission) : act (plan_result (Value * string * list string)) :=
  match spec_texts (su_specs s) with
  | Err code => ret (Err code)
  | Panic => ret Panic
  | Ok specs =>
      let! trust := load_trust in
      match trust with
      | Invalid _ _ => ret (Err PlanCode.TrustStoreInvalid)
      | Absent =>
          let! now := now_ in
          ret (let? bootstrap := verify_bootstrap (su_envelope s) host_keys recipient now in
               plan_and_digest (su_envelope s) [str_or_default (bp_owner_key bootstrap).["key_id"]])
      | Valid trust =>
          let! now := now_ in
          do! await_ in
          let! failed := fault in
          if (failed : bool) then ret (Err PlanCode.Internal)
          else
            let! verdict := gets (fun c => verify_only (c_db c) trust (c_starts c)
              {| in_envelope := su_envelope s; in_specs := specs; in_sealed_secrets := su_sealed_secrets s;
                 in_submitter := Client; in_now := now |}) in
            ret match verdict with
                | Ok (Admit verified) => Ok (vp_plan verified, vp_digest_hex verified, signer_key_ids verified)
                | Ok (Deduped _ _) => plan_and_digest (su_envelope s) []
                | Err code => Err code
                | Panic => Err PlanCode.Internal
                end
      end
  end.

End change.
