(* ===== verification/DeployFacts.v ===== *)
(** * A deploy, step by step

    The contract of a deploy as a small state machine over the calls to the
    runner, and the theorem that [run_deploy] keeps to it in any environment:
    whatever the runner answers, whatever other tasks do at each await, and
    whichever store calls fail. *)

From S2P Require Import Prelude RustStr BTree PlanCode Errors Json Jcs Calendar Text Crypto.
From S2P Require Import Trust Verify Store DefinitionStore AdmissionStore AlertRules Reconcile.
From S2P Require Import Queries Proto OpsStore Effects Runner Exec Change.

(** * Which operations of the change core ask the runner

    Recording, reconciling and completing never call the runner; the lemmas
    below say so, and give the calls of each operation that does. *)

Create HintDb quiet.

(** Opens an operation down to primitives and operations known to be quiet. *)
Ltac hush :=
  repeat match goal with
  | |- keeps _ _ => solve [eauto 2 with quiet typeclass_instances]
  | |- keeps _ (Effects.bind _ _) => apply keeps_bind; [|intros ?]
  | |- keeps _ (mfor _ _) => apply keeps_mfor; intros ?
  | |- keeps _ (let '_ := ?x in _) => destruct x
  | |- keeps _ (if ?x then _ else _) => destruct x
  | |- keeps _ (match ?x with _ => _ end) => destruct x
  end.

Section frame.
Context {CR : Crypto} {JR : JsonReader} {RC : RegexCrate} {EW : EventWire} {EN : Environment}.

(** No call to the runner. *)
Notation quiet := (keeps (silent x_calls)).

Lemma quiet_emit o : quiet (emit o).
Proof. done. Qed.
Lemma quiet_reading {A} (f : nat -> A) : quiet (reading f).
Proof. done. Qed.
Lemma quiet_gets {A} (f : Core -> A) : quiet (gets f).
Proof. done. Qed.
Lemma quiet_modify f : quiet (modify f).
Proof. done. Qed.
Lemma quiet_fault : quiet fault.
Proof. intros w. unfold fault, silent. by destruct (x_faults w). Qed.
Lemma quiet_await : quiet await_.
Proof. done. Qed.

#[local] Hint Resolve keeps_ret keeps_asks quiet_emit quiet_reading quiet_gets quiet_modify quiet_fault
  quiet_await : quiet.

Lemma quiet_query {A} (f : Db -> A) : quiet (query f).
Proof. unfold query. hush. Qed.
Lemma quiet_transact {A} (f : Db -> option (A * Db)) : quiet (transact f).
Proof. unfold transact. hush. Qed.
#[local] Hint Resolve quiet_query quiet_transact : quiet.

Lemma quiet_now : quiet now_.
Proof. apply quiet_reading. Qed.
Lemma quiet_load_trust : quiet load_trust.
Proof. apply quiet_reading. Qed.
#[local] Hint Resolve quiet_now quiet_load_trust : quiet.

Lemma quiet_stored_admission plan_id : quiet (stored_admission plan_id).
Proof. unfold stored_admission. hush. Qed.
Lemma quiet_stored_actions plan_id : quiet (stored_actions plan_id).
Proof. unfold stored_actions. hush. Qed.
Lemma quiet_trust_changed change subject : quiet (trust_changed change subject).
Proof. unfold trust_changed. hush. Qed.
Lemma quiet_record_event operation_id payload : quiet (record_event operation_id payload).
Proof. unfold record_event. hush. Qed.
Lemma quiet_recorded_steps operation_id : quiet (recorded_steps operation_id).
Proof. unfold recorded_steps. hush. Qed.
#[local] Hint Resolve quiet_stored_admission quiet_stored_actions quiet_trust_changed quiet_record_event
  quiet_recorded_steps : quiet.

Lemma quiet_step_index operation_id index name : quiet (step_index operation_id index name).
Proof. unfold step_index. hush. Qed.
#[local] Hint Resolve quiet_step_index : quiet.
Lemma quiet_step_coded record action name state error failure_code error_code :
  quiet (step_coded record action name state error failure_code error_code).
Proof. unfold step_coded. hush. Qed.
#[local] Hint Resolve quiet_step_coded : quiet.
Lemma quiet_step record action name state error failure_code :
  quiet (step record action name state error failure_code).
Proof. apply quiet_step_coded. Qed.
Lemma quiet_log_line record action name line : quiet (log_line record action name line).
Proof. unfold log_line. hush. Qed.
Lemma quiet_deploy_status record plan action phase message code :
  quiet (deploy_status record plan action phase message code).
Proof. unfold deploy_status. hush. Qed.
#[local] Hint Resolve quiet_step quiet_log_line quiet_deploy_status : quiet.

Lemma quiet_reader_line record action result : quiet (reader_line record action result).
Proof. unfold reader_line. hush. Qed.
Lemma quiet_operation record : quiet (operation record).
Proof. unfold operation. hush. Qed.
#[local] Hint Resolve quiet_reader_line quiet_operation : quiet.
Lemma quiet_finished record : quiet (finished record).
Proof. unfold finished. hush. Qed.
Lemma quiet_cancel_cleanup record action cleanup : quiet (cancel_cleanup_step record action cleanup).
Proof. unfold cancel_cleanup_step. hush. Qed.
Lemma quiet_final_step record plan action outcome : quiet (final_step record plan action outcome).
Proof. unfold final_step. hush. Qed.
Lemma quiet_action_context plan_id index : quiet (action_context plan_id index).
Proof. unfold action_context. hush. Qed.
Lemma quiet_is_held plan_id : quiet (is_held plan_id).
Proof. apply quiet_gets. Qed.
Lemma quiet_hold plan_id : quiet (hold plan_id).
Proof. apply quiet_modify. Qed.
Lemma quiet_note_failure plan_id index f : quiet (note_failure plan_id index f).
Proof. apply quiet_modify. Qed.
Lemma quiet_is_cancelled plan_id : quiet (is_cancelled plan_id).
Proof. apply quiet_gets. Qed.
#[local] Hint Resolve quiet_finished quiet_cancel_cleanup quiet_final_step quiet_action_context quiet_is_held
  quiet_hold quiet_note_failure quiet_is_cancelled : quiet.

Lemma quiet_announce plan_id : quiet (announce_admission plan_id).
Proof. unfold announce_admission. hush. Qed.
Lemma quiet_apply_effect effect : quiet (apply_effect effect).
Proof. unfold apply_effect. hush. Qed.
Lemma quiet_expire_steps plan_id : quiet (expire_steps plan_id).
Proof. unfold expire_steps. hush. Qed.
#[local] Hint Resolve quiet_announce quiet_apply_effect quiet_expire_steps : quiet.

Lemma quiet_reconcile_once : quiet reconcile_once.
Proof. unfold reconcile_once. hush. Qed.
Lemma quiet_release_held plan_id : quiet (release_held plan_id).
Proof. unfold release_held. hush. Qed.
Lemma quiet_finish_stored plan_id index outcome : quiet (finish_stored plan_id index outcome).
Proof. unfold finish_stored. hush. Qed.
Lemma quiet_finish_if_ended plan_id : quiet (finish_if_ended plan_id).
Proof. unfold finish_if_ended. hush. Qed.
#[local] Hint Resolve quiet_reconcile_once quiet_release_held quiet_finish_stored quiet_finish_if_ended : quiet.

Lemma quiet_complete record plan action o : quiet (complete record plan action o).
Proof. unfold complete. hush. Qed.
Lemma quiet_logged_ops record : quiet (logged_ops record).
Proof. unfold logged_ops. hush. Qed.
Lemma quiet_runner_succeeded record action : quiet (runner_succeeded record action).
Proof. unfold runner_succeeded. hush. Qed.
Lemma quiet_log_cancelled record action cancelled : quiet (log_cancelled record action cancelled).
Proof. unfold log_cancelled. hush. Qed.
Lemma quiet_cancelled_in_log cancelled : quiet (cancelled_in_log cancelled).
Proof. unfold cancelled_in_log. hush. Qed.
Lemma quiet_handed_back record plan action : quiet (record_handed_back_rollback record plan action).
Proof. unfold record_handed_back_rollback. hush. Qed.
Lemma quiet_window_open record : quiet (window_open record).
Proof. unfold window_open. hush. Qed.
#[local] Hint Resolve quiet_complete quiet_logged_ops quiet_runner_succeeded quiet_log_cancelled
  quiet_cancelled_in_log quiet_handed_back quiet_window_open : quiet.

Lemma quiet_cancel_victims cancelled : quiet (cancel_victims cancelled).
Proof. unfold cancel_victims. hush. Qed.
#[local] Hint Resolve quiet_cancel_victims : quiet.
Lemma quiet_cancel_done record action target wire : quiet (cancel_done record action target wire).
Proof. unfold cancel_done. hush. Qed.
Lemma quiet_agent_action action params : quiet (apply_agent_action action params).
Proof. unfold apply_agent_action, apply_retention. hush. Qed.
Lemma quiet_upgrade_receipt plan_id index : quiet (upgrade_receipt plan_id index).
Proof. unfold upgrade_receipt. hush. Qed.
Lemma quiet_complete_inputs record plan failed : quiet (complete_inputs record plan failed).
Proof. unfold complete_inputs. hush. Qed.
Lemma quiet_elapsed record action op : quiet (elapsed_failure record action op).
Proof. unfold elapsed_failure. hush. Qed.

End frame.

#[export] Hint Resolve quiet_emit quiet_reading quiet_gets quiet_modify quiet_fault quiet_await quiet_query
  quiet_transact quiet_now quiet_load_trust quiet_stored_admission quiet_stored_actions quiet_trust_changed
  quiet_step quiet_step_coded quiet_log_line quiet_deploy_status quiet_reader_line quiet_finished quiet_final_step
  quiet_hold quiet_note_failure quiet_is_cancelled quiet_announce quiet_reconcile_once quiet_release_held
  quiet_finish_stored quiet_finish_if_ended quiet_complete quiet_logged_ops quiet_runner_succeeded
  quiet_log_cancelled quiet_handed_back quiet_window_open quiet_cancel_done quiet_agent_action
  quiet_upgrade_receipt quiet_complete_inputs quiet_elapsed : quiet.
#[export] Hint Resolve keeps_ret keeps_asks : quiet.

(** ** Calls *)

(** What the caller made of a call's answer; [None] when it saw none. *)
Definition call_end (c : Call) : option (call_result OpDone) := option_map run_op (ca_answer c).

Definition call_ok (c : Call) : bool := match call_end c with Some (Ok _) => true | _ => false end.

Definition call_failure (c : Call) : option RunnerFailure :=
  match call_end c with Some (Err f) => Some f | _ => None end.

(** [c] asks the runner for [op] on the action [r]. *)
Definition asks_for (r : PlanRef) (op : string) (c : Call) : Prop := ca_op c = op /\ ca_plan c = r.

Definition answered_ok (r : PlanRef) (op : string) (c : Call) : Prop := asks_for r op c /\ call_ok c = true.

(** ** The contract *)

(** The start phase: what the consumed log does not already hold. *)
Definition start_ops (done : list string) : list string :=
  List.filter (fun op => negb (contains_str done op)) ["prepare_release"; "verify_health"].

(** The recovery and the outcome it gives the action. *)
Inductive recovers (r : PlanRef) : Call -> string -> Prop :=
| rc_rolled_back c : answered_ok r "rollback_release" c -> recovers r c "rolled_back"
| rc_rollback_failed c : asks_for r "rollback_release" c -> call_ok c = false -> recovers r c "failed"
| rc_cleaned_up c : asks_for r "cleanup_candidate" c -> recovers r c "failed".

Definition handed_back (c : Call) : Prop := exists f, call_failure c = Some f /\ rf_state f = Some "rolled_back".

(** The runs of a deploy of action [r] that finds the ops [done] in the log:
    the calls it makes and the outcome it ends with. *)
Inductive deploy_run (r : PlanRef) (done : list string) : list Call -> string -> Prop :=
| dr_recovered_before :
    contains_str done "rollback_release" || contains_str done "cleanup_candidate" = true ->
    deploy_run r done [] "failed"
| dr_cancelled ops rest cs :
    start_ops done = ops ++ rest -> Forall2 (answered_ok r) ops cs -> deploy_run r done cs "cancelled"
| dr_cancelled_failing ops op rest cs c :
    start_ops done = ops ++ op :: rest -> Forall2 (answered_ok r) ops cs -> asks_for r op c -> call_ok c = false ->
    deploy_run r done (cs ++ [c]) "cancelled"
| dr_refused rest c f :
    start_ops done = "prepare_release" :: rest -> asks_for r "prepare_release" c -> call_failure c = Some f ->
    refused_by_check f = true -> deploy_run r done [c] "failed"
| dr_handed_back ops rest cs c :
    start_ops done = ops ++ "verify_health" :: rest -> Forall2 (answered_ok r) ops cs ->
    asks_for r "verify_health" c -> handed_back c -> deploy_run r done (cs ++ [c]) "rolled_back"
| dr_start_recovered ops op rest cs c rc outcome :
    start_ops done = ops ++ op :: rest -> Forall2 (answered_ok r) ops cs -> asks_for r op c -> call_ok c = false ->
    recovers r rc outcome -> deploy_run r done (cs ++ [c; rc]) outcome
| dr_live cs c prune :
    Forall2 (answered_ok r) (start_ops done) cs -> answered_ok r "activate_release" c ->
    asks_for r "prune_releases" prune -> deploy_run r done (cs ++ [c; prune]) "succeeded"
| dr_already_live cs :
    Forall2 (answered_ok r) (start_ops done) cs -> contains_str done "activate_release" = true ->
    deploy_run r done cs "succeeded"
| dr_activation_handed_back cs c :
    Forall2 (answered_ok r) (start_ops done) cs -> asks_for r "activate_release" c -> handed_back c ->
    deploy_run r done (cs ++ [c]) "rolled_back"
| dr_activation_recovered cs c rc outcome :
    Forall2 (answered_ok r) (start_ops done) cs -> asks_for r "activate_release" c -> call_ok c = false ->
    recovers r rc outcome -> deploy_run r done (cs ++ [c; rc]) outcome.

Section deploy.
Context {CR : Crypto} {JR : JsonReader} {RC : RegexCrate} {EW : EventWire} {EN : Environment}.

Notation runs := (run_from x_calls).

(** ** Single calls *)

Lemma run_call w in_start op r :
  runs w (call in_start op r) (fun cs answer w1 =>
    cs = [ {| ca_op := op; ca_plan := r; ca_answer := answer |} ] /\
    (in_start = false -> is_some answer = true) /\ (forall a, answer = Some a -> a <> Panic)).
Proof.
  unfold call. apply run_skip; [hush|]. intros [] w1. apply run_skip; [hush|]. intros answered w2.
  apply (run_then _ _ _ _ (fun es elapsed _ => es = [] /\ (in_start = false -> elapsed = false))).
  { destruct in_start; [|by apply run_ret].
    eapply run_weaken; [apply run_silent; hush|]. intros es a s1 ->. done. }
  intros es elapsed w3 [-> He]. cbn [app].
  eapply run_then with (P := fun es _ _ => es = [_]); [by eexists|]. intros es [] w4 ->. apply run_ret.
  split_and!; [done| |].
  - intros Hs. by rewrite (He Hs).
  - intros a. destruct elapsed; [done|]. destruct answered; naive_solver.
Qed.

Lemma run_op_total answer : answer <> Panic -> run_op answer <> Panic.
Proof.
  unfold run_op, ok_or_failure. destruct answer as [v|f|]; [|done..]. intros _. cbn [obind].
  by destruct (eq_bool v.["ok"] true).
Qed.

(** What an op's caller is given. *)
Definition op_answer (c : Call) : option (call_result Value) :=
  option_map (fun e => let? done := e in Ok (od_result done)) (call_end c).

(** An op makes one call and hands on its answer. *)
Lemma run_op_result w in_start record plan action op :
  runs w (op_result in_start record plan action op) (fun cs result _ =>
    exists c, cs = [c] /\ asks_for (plan_ref record action) op c /\ result = op_answer c /\
      (in_start = false -> is_some (call_end c) = true) /\ call_end c <> Some Panic).
Proof.
  unfold op_result. apply run_skip; [hush|]. intros [] w1. apply run_skip; [hush|]. intros [] w2.
  eapply run_then; [apply run_call|]. intros cs answer w3 (-> & Hseen & Hok). cbn [app].
  set (c := {| ca_op := op; ca_plan := plan_ref record action; ca_answer := answer |}).
  assert (call_end c <> Some Panic) as Hp.
  { unfold call_end, c. cbn [ca_answer]. destruct answer as [a|]; [|done]. cbn [option_map].
    intros [= H]. by apply (run_op_total a); [apply Hok|]. }
  assert (in_start = false -> is_some (call_end c) = true) as Hseen'.
  { intros H. specialize (Hseen H). unfold call_end, c. cbn [ca_answer]. by destruct answer. }
  destruct answer as [a|].
  - apply run_skip; [hush|]. intros [] w4. apply run_ret. exists c. split_and!; done.
  - apply run_ret. exists c. split_and!; done.
Qed.

(** The answer a caller outside the start phase is given. *)
Lemma run_run_one w record plan action op :
  runs w (run_one record plan action op) (fun cs result _ =>
    exists c, cs = [c] /\ asks_for (plan_ref record action) op c /\
      ((exists v, result = Ok v /\ call_ok c = true) \/
       (exists f, result = Err f /\ call_ok c = false /\ call_failure c = Some f))).
Proof.
  unfold run_one. eapply run_then; [apply run_op_result|].
  intros cs result w1 (c & -> & Hc & -> & Hseen & Hp). apply run_ret. cbn [app]. exists c. split_and!; [done|done|].
  specialize (Hseen eq_refl). unfold op_answer, call_ok, call_failure.
  destruct (call_end c) as [[d|f|]|]; [left|right|done|done]; cbn [option_map obind]; by eexists.
Qed.

(** ** The start phase *)

Definition todo (done ops : list string) : list string := List.filter (fun op => negb (contains_str done op)) ops.

Definition start_post (r : PlanRef) (plan_id : string) (ops : list string) (cs : list Call) (e : StartEnd) (w : World)
    : Prop :=
  match e with
  | Started =>
      Forall2 (answered_ok r) ops cs \/
      exists pre rest, ops = pre ++ rest /\ Forall2 (answered_ok r) pre cs /\ plan_id ∈ c_cancelled (x_core w)
  | StartFailed f =>
      exists pre op rest cs' c failure, ops = pre ++ op :: rest /\ cs = cs' ++ [c] /\
        Forall2 (answered_ok r) pre cs' /\ asks_for r op c /\ call_failure c = Some failure /\
        f = start_failure op failure
  | StartElapsed op =>
      exists pre rest cs' c, ops = pre ++ op :: rest /\ cs = cs' ++ [c] /\
        Forall2 (answered_ok r) pre cs' /\ asks_for r op c /\ call_ok c = false
  end.

(** One more op in front of a start phase. *)
Lemma start_post_cons r plan_id op ops c cs e w :
  answered_ok r op c -> start_post r plan_id ops cs e w -> start_post r plan_id (op :: ops) (c :: cs) e w.
Proof.
  intros Hc. destruct e as [|f|op']; cbn [start_post].
  - intros [H|(pre & rest & -> & H & Hcan)]; [left; by constructor|right].
    exists (op :: pre), rest. split_and!; [done|by constructor|done].
  - intros (pre & op' & rest & cs' & c' & failure & -> & -> & H & Hrest).
    exists (op :: pre), op', rest, (c :: cs'), c', failure. split_and!; [done|done|by constructor|apply Hrest..].
  - intros (pre & rest & cs' & c' & -> & -> & H & Hrest).
    exists (op :: pre), rest, (c :: cs'), c'. split_and!; [done|done|by constructor|apply Hrest..].
Qed.

Lemma run_start_phase record plan action done ops w :
  runs w (start_phase record plan action done ops)
    (start_post (plan_ref record action) (q_plan_id record) (todo done ops)).
Proof.
  revert w; induction ops as [|op ops IH]; intros w; cbn [start_phase todo List.filter].
  { apply run_ret. left. constructor. }
  destruct (contains_str done op) eqn:Hdone; cbn [negb].
  { apply IH. }
  apply run_skip; [hush|]. intros [] w1. eapply run_then; [apply run_op_result|].
  intros cs result w2 (c & -> & Hc & -> & _ & Hp). unfold op_answer.
  destruct (call_end c) as [[d|f|]|] eqn:Hend; cbn [option_map obind]; [| |done|].
  - eapply run_then; [by apply run_asks with (P := fun es b s => es = [] /\ s = w2 /\
      b = bool_decide (q_plan_id record ∈ c_cancelled (x_core w2)))|].
    intros es b s (-> & -> & ->). cbn [app].
    assert (answered_ok (plan_ref record action) op c) as Hok by (split; [done|unfold call_ok; by rewrite Hend]).
    case_bool_decide as Hcan.
    + apply run_ret. right. exists [op], (todo done ops). split_and!; [done|by apply Forall2_cons; split|done].
    + eapply run_weaken; [apply IH|]. intros es e s H. cbn [app]. by apply start_post_cons.
  - apply run_ret. exists [], op, (todo done ops), [], c, f. split_and!; try done. unfold call_failure. by rewrite Hend.
  - apply run_ret. exists [], (todo done ops), [], c. split_and!; try done. unfold call_ok. by rewrite Hend.
Qed.

(** ** Recovery and activation *)

Lemma run_recover w record plan action f b :
  runs w (recover_deploy record plan action f b) (fun cs o _ =>
    exists c, cs = [c] /\ recovers (plan_ref record action) c (oc_outcome o)).
Proof.
  unfold recover_deploy. apply run_skip; [hush|]. intros previous w1.
  destruct (default false previous); cbv beta iota zeta.
  all: apply run_skip; [hush|]; intros [] w2.
  all: eapply run_then; [apply run_run_one|]; intros cs result w3 (c & -> & Hc & Hres).
  all: apply run_ret; exists c; split; [done|].
  all: destruct Hres as [(v & -> & Hok)|(failure & -> & Hok & _)]; destruct b; cbn [activated oc_outcome outcome_coded outcome_runner].
  1-2: by apply rc_rolled_back.
  1-2: by apply rc_rollback_failed.
  all: by apply rc_cleaned_up.
Qed.

Lemma run_prune w record plan action :
  runs w (prune_releases record plan action) (fun cs _ _ =>
    exists c, cs = [c] /\ asks_for (plan_ref record action) "prune_releases" c).
Proof.
  unfold prune_releases. eapply run_then; [apply run_run_one|]. intros cs result w1 (c & -> & Hc & _).
  eapply run_weaken; [apply run_silent; hush|]. intros es a s ->. by exists c.
Qed.

Definition activation_post (r : PlanRef) (cs : list Call) (o : Outcome) : Prop :=
  (exists c prune, cs = [c; prune] /\ answered_ok r "activate_release" c /\ asks_for r "prune_releases" prune /\
     oc_outcome o = "succeeded") \/
  (exists c, cs = [c] /\ asks_for r "activate_release" c /\ handed_back c /\ oc_outcome o = "rolled_back") \/
  (exists c rc, cs = [c; rc] /\ asks_for r "activate_release" c /\ call_ok c = false /\
     recovers r rc (oc_outcome o)).

Lemma run_activate w record plan action :
  runs w (activate record plan action) (fun cs o _ => activation_post (plan_ref record action) cs o).
Proof.
  unfold activate. apply run_skip; [hush|]. intros [] w1. eapply run_then; [apply run_run_one|].
  intros cs result w2 (c & -> & Hc & [(v & -> & Hok)|(f & -> & Hok & Hf)]).
  - apply run_skip; [hush|]. intros [] w3. eapply run_then; [apply run_prune|].
    intros cs [] w4 (p & -> & Hp). apply run_ret. left. by exists c, p.
  - case_bool_decide as Hst.
    + apply run_skip; [hush|]. intros [] w3. apply run_ret. right; left. exists c. split_and!; try done. by exists f.
    + eapply run_weaken; [apply run_recover|]. intros es o s (rc & -> & Hrc). right; right. by exists c, rc.
Qed.

Lemma activation_run r done cs cs' o :
  Forall2 (answered_ok r) (start_ops done) cs -> activation_post r cs' o -> deploy_run r done (cs ++ cs') (oc_outcome o).
Proof.
  intros Hcs [(c & p & -> & Hc & Hp & ->)|[(c & -> & Hc & Hh & ->)|(c & rc & -> & Hc & Hok & Hrc)]].
  - by apply dr_live.
  - by apply dr_activation_handed_back.
  - by apply dr_activation_recovered.
Qed.

(** ** The deploy *)

(** A failed start phase, before the checks that follow it. *)
Definition failed_post (r : PlanRef) (done : list string) (cs : list Call) (f : StartFailure) : Prop :=
  exists pre op rest cs' c, start_ops done = pre ++ op :: rest /\ cs = cs' ++ [c] /\
    Forall2 (answered_ok r) pre cs' /\ asks_for r op c /\ call_ok c = false /\
    (sf_handed_back f = true -> op = "verify_health" /\ handed_back c) /\
    (sf_refused f = true -> op = "prepare_release" /\ exists failure, call_failure c = Some failure /\
                            refused_by_check failure = true).

Lemma run_failed_start w record action done (started : StartEnd) cs :
  start_post (plan_ref record action) (q_plan_id record) (start_ops done) cs started w ->
  runs w (failed_start record action started) (fun es failure w1 => es = [] /\
    match failure with
    | Some f => failed_post (plan_ref record action) done cs f
    | None => w1 = w /\ start_post (plan_ref record action) (q_plan_id record) (start_ops done) cs Started w
    end).
Proof.
  intros Hpost. destruct started as [|f|op]; cbn [failed_start].
  - by apply run_ret.
  - apply run_ret. split; [done|].
    destruct Hpost as (pre & op & rest & cs' & c & failure & Hops & -> & Hcs & Hc & Hf & ->).
    exists pre, op, rest, cs', c. unfold start_failure. cbn [sf_handed_back sf_refused]. split_and!; try done.
    + unfold call_ok, call_failure in *. by destruct (call_end c) as [[]|].
    + intros [Hop Hst]%andb_true_iff. apply String.eqb_eq in Hop. apply bool_decide_eq_true in Hst. split; [done|].
      by exists failure.
    + intros [[Hop _]%andb_true_iff Hr]%andb_true_iff. apply String.eqb_eq in Hop. split; [done|]. by exists failure.
  - destruct Hpost as (pre & rest & cs' & c & Hops & -> & Hcs & Hc & Hok).
    apply (run_then _ _ _ _ (fun es f _ => es = [] /\ sf_handed_back f = false /\ sf_refused f = false)).
    { unfold elapsed_failure. apply run_skip; [hush|]. intros [] w1. by apply run_ret. }
    intros es f w1 (-> & Hh & Hr). apply run_ret. split; [done|]. exists pre, op, rest, cs', c.
    rewrite Hh, Hr. split_and!; done.
Qed.

Lemma run_run_deploy w record plan action done :
  runs w (run_deploy record plan action done)
    (fun cs o _ => deploy_run (plan_ref record action) done cs (oc_outcome o)).
Proof.
  unfold run_deploy. destruct (_ || _) eqn:Hbefore.
  { apply run_ret. by apply dr_recovered_before. }
  eapply run_then; [apply run_start_phase|]. intros cs started w1 Hstart.
  eapply run_then; [by apply run_failed_start|]. intros es failure w2 [-> Hf]. cbn [app].
  assert (forall b, bool_decide (q_plan_id record ∈ c_cancelled (x_core w2)) = b ->
    runs w2 (is_cancelled (q_plan_id record)) (fun es x s => es = [] /\ x = b /\ s = w2)) as Hask.
  { intros b Hb. by apply run_asks. }
  destruct failure as [f|]; cbn [is_some_and].
  - destruct Hf as (pre & op & rest & cs' & c & Hops & -> & Hcs & Hc & Hok & Hh & Hr).
    destruct (sf_handed_back f).
    { apply run_skip; [hush|]. intros [] w3. apply run_ret. rewrite app_nil_r.
      destruct (Hh eq_refl) as [-> Hback]. by eapply dr_handed_back. }
    eapply run_then; [exact (Hask _ eq_refl)|]. intros es b w3 (-> & -> & ->). cbn [app]. case_bool_decide as Hcan.
    { apply run_ret. rewrite app_nil_r. by eapply dr_cancelled_failing. }
    destruct (sf_refused f).
    { apply run_ret. rewrite app_nil_r. destruct (Hr eq_refl) as (-> & failure & Hcf & Href).
      destruct pre as [|p pre].
      - apply Forall2_nil_inv_l in Hcs as ->. by eapply dr_refused.
      - exfalso. clear -Hops. unfold start_ops in Hops. cbn [List.filter] in Hops.
        destruct (negb (contains_str done "prepare_release")), (negb (contains_str done "verify_health"));
          try discriminate; injection Hops as ? Hops; destruct pre; try discriminate; destruct pre; discriminate. }
    eapply run_then; [exact (Hask _ eq_refl)|]. intros es b w3 (-> & -> & ->). cbn [app].
    eapply run_weaken; [apply run_recover|].
    intros es o s (rc & -> & Hrc). rewrite <- app_assoc. by eapply dr_start_recovered.
  - destruct Hf as [-> Hf]. eapply run_then; [exact (Hask _ eq_refl)|]. intros es b w3 (-> & -> & ->). cbn [app].
    case_bool_decide as Hcan.
    { apply run_ret. rewrite app_nil_r. destruct Hf as [Hall|(pre & rest & Hops & Hcs & _)].
      - eapply dr_cancelled; [|exact Hall]. symmetry. apply app_nil_r.
      - by eapply dr_cancelled. }
    destruct Hf as [Hall|(pre & rest & _ & _ & Hin)]; [|done].
    destruct (contains_str done "activate_release") eqn:Hact.
    { apply run_ret. rewrite app_nil_r. by apply dr_already_live. }
    eapply run_weaken; [apply run_activate|]. intros es o s Hpost. by apply activation_run.
Qed.

(** C22.  [run_deploy] keeps to the contract of a deploy: in any environment its
    calls to the runner and its outcome are those of a [deploy_run]. *)
Theorem deploy_refines w record plan action done :
  exists cs, x_calls (run_deploy record plan action done w).2 = x_calls w ++ cs /\
    deploy_run (plan_ref record action) done cs (oc_outcome (run_deploy record plan action done w).1).
Proof. apply run_run_deploy. Qed.

End deploy.

(** ** What the contract gives *)

Definition is_recovery (c : Call) : bool := contains_str ["rollback_release"; "cleanup_candidate"] (ca_op c).

Lemma start_ops_in done op : op ∈ start_ops done -> op = "prepare_release" \/ op = "verify_health".
Proof.
  unfold start_ops. cbn [List.filter]. destruct (negb _), (negb _); set_solver.
Qed.

Lemma start_ops_not_done done op :
  op ∈ ["prepare_release"; "verify_health"] -> contains_str done op = true \/ op ∈ start_ops done.
Proof.
  intros H. destruct (contains_str done op) eqn:Hd; [by left|right].
  unfold start_ops. apply list_elem_of_In, filter_In. split; [by apply list_elem_of_In|]. by rewrite Hd.
Qed.

(** Calls of the start phase are neither activations nor recoveries. *)
Lemma start_calls r done pre cs c :
  (exists rest, start_ops done = pre ++ rest) -> Forall2 (answered_ok r) pre cs -> c ∈ cs ->
  ca_op c = "prepare_release" \/ ca_op c = "verify_health".
Proof.
  intros [rest Hpre] Hcs [i Hi]%list_elem_of_lookup_1.
  destruct (Forall2_lookup_r _ _ _ _ _ Hcs Hi) as (op & Hop & [[-> _] _]).
  apply (start_ops_in done). rewrite Hpre. apply elem_of_app. left. by eapply list_elem_of_lookup_2.
Qed.

(** Every op of a finished start phase was answered. *)
Lemma start_complete r done cs op :
  Forall2 (answered_ok r) (start_ops done) cs -> op ∈ ["prepare_release"; "verify_health"] ->
  contains_str done op = true \/ exists c, c ∈ cs /\ answered_ok r op c.
Proof.
  intros Hcs [?|[i Hi]%list_elem_of_lookup_1]%(start_ops_not_done done); [by left|right].
  destruct (Forall2_lookup_l _ _ _ _ _ Hcs Hi) as (c & Hc & Hok). exists c. split; [by eapply list_elem_of_lookup_2|done].
Qed.

(** The calls before the first of a kind hold those known to come first. *)
Lemma before_holds {A} (p : A -> Prop) (cs rest before after : list A) a :
  cs ++ rest = before ++ a :: after -> (forall x, x ∈ cs -> ~ p x) -> p a -> forall x, x ∈ cs -> x ∈ before.
Proof.
  intros He Hno Ha x Hx. apply app_eq_inv in He as [(k & -> & He)|(k & -> & He)].
  - destruct k as [|y k]; [by rewrite app_nil_r in Hx|]. simpl in He. injection He as -> He. exfalso.
    apply (Hno y); [|done]. set_solver.
  - set_solver.
Qed.

Lemma recovers_op r c o : recovers r c o -> ca_op c = "rollback_release" \/ ca_op c = "cleanup_candidate".
Proof. destruct 1 as [c [[-> _] _]|c [-> _] _|c [-> _]]; auto. Qed.

Lemma recovers_outcome r c o :
  recovers r c o -> o <> "succeeded" /\ (o = "rolled_back" -> answered_ok r "rollback_release" c).
Proof. by destruct 1. Qed.

Lemma start_no_recovery r done pre cs :
  (exists rest, start_ops done = pre ++ rest) -> Forall2 (answered_ok r) pre cs -> List.filter is_recovery cs = [].
Proof.
  intros Hpre Hcs. assert (forall c, c ∈ cs -> is_recovery c = false) as Hno.
  { intros c Hc. unfold is_recovery. by destruct (start_calls _ _ _ _ _ Hpre Hcs Hc) as [->| ->]. }
  clear Hpre Hcs pre. induction cs as [|c cs IH]; [done|]. cbn [List.filter]. rewrite Hno by set_solver.
  apply IH. set_solver.
Qed.

Lemma start_no_activation r done pre cs c :
  (exists rest, start_ops done = pre ++ rest) -> Forall2 (answered_ok r) pre cs -> c ∈ cs ->
  ca_op c <> "activate_release".
Proof. intros Hpre Hcs Hc Heq. destruct (start_calls _ _ _ _ _ Hpre Hcs Hc) as [H|H]; rewrite H in Heq; done. Qed.

(** What a run does after its start phase; [all] when the phase finished. *)
Record tail_ok (r : PlanRef) (done : list string) (all : bool) (tail : list Call) (outcome : string) : Prop := {
  to_activation : all = true \/ Forall (fun c => ca_op c <> "activate_release") tail;
  to_recovery : (length (List.filter is_recovery tail) <= 1)%nat;
  to_live : Exists (answered_ok r "activate_release") tail -> List.filter is_recovery tail = [];
  to_succeeded : outcome = "succeeded" ->
    contains_str done "activate_release" = true \/ Exists (answered_ok r "activate_release") tail;
  to_rolled_back : outcome = "rolled_back" ->
    Exists (fun c => answered_ok r "rollback_release" c \/ handed_back c) tail
}.

Lemma tail_nil r done all outcome :
  (outcome = "succeeded" -> contains_str done "activate_release" = true) -> outcome <> "rolled_back" ->
  tail_ok r done all [] outcome.
Proof. intros H1 H2. split; [right; constructor|simpl; lia|done|intros; left; auto|done]. Qed.

Lemma tail_start_failed r done all op c outcome :
  op = "prepare_release" \/ op = "verify_health" -> asks_for r op c -> outcome <> "succeeded" ->
  (outcome = "rolled_back" -> handed_back c) -> tail_ok r done all [c] outcome.
Proof.
  intros Hop [Hc _] Hs Hr. assert (is_recovery c = false) as Hrec.
  { unfold is_recovery. rewrite Hc. by destruct Hop as [->| ->]. }
  split; cbn [List.filter]; rewrite ?Hrec; try done; [|simpl; lia|].
  - right. apply Forall_singleton. rewrite Hc. by destruct Hop as [->| ->].
  - intros H. apply Exists_cons_hd. right. auto.
Qed.

(** A failed call, then the recovery. *)
Lemma tail_recovered r done all op c rc outcome :
  op ∈ ["prepare_release"; "verify_health"; "activate_release"] -> (op = "activate_release" -> all = true) ->
  asks_for r op c -> call_ok c = false -> recovers r rc outcome -> tail_ok r done all [c; rc] outcome.
Proof.
  intros Hop Hall [Hc _] Hok Hrc. destruct (recovers_outcome _ _ _ Hrc) as [Hs Hr].
  assert (is_recovery c = false) as Hrec.
  { unfold is_recovery. rewrite Hc. rewrite !elem_of_cons, elem_of_nil in Hop. by destruct Hop as [->|[->|[->|[]]]]. }
  assert (is_recovery rc = true /\ ca_op rc <> "activate_release") as [Hrec' Hna].
  { unfold is_recovery. by destruct (recovers_op _ _ _ Hrc) as [->| ->]. }
  split; cbn [List.filter]; rewrite ?Hrec, ?Hrec'; try done; [|..|].
  - destruct (decide (op = "activate_release")) as [?|Hne]; [left; auto|right]. by repeat constructor; [congruence|].
  - intros [[_ Hx]|[[[Hx _] _]|H]%Exists_cons]%Exists_cons; [congruence|done|by inversion H].
  - intros H. by apply Exists_cons_tl, Exists_cons_hd; left; apply Hr.
Qed.

Lemma deploy_shape r done cs outcome :
  deploy_run r done cs outcome ->
  exists pre more started tail, start_ops done = pre ++ more /\ Forall2 (answered_ok r) pre started /\
    cs = started ++ tail /\ tail_ok r done (bool_decide (more = [])) tail outcome.
Proof.
  assert (forall op more pre, start_ops done = pre ++ op :: more -> op = "prepare_release" \/ op = "verify_health") as Hin.
  { intros op more pre H. apply (start_ops_in done). rewrite H. set_solver. }
  assert (forall op, op = "prepare_release" \/ op = "verify_health" ->
            op ∈ ["prepare_release"; "verify_health"; "activate_release"] /\ op <> "activate_release") as Hop2.
  { intros op [->| ->]; split; (set_solver || done). }
  destruct 1 as [_|ops rest cs Hops Hall|ops op rest cs c Hops Hall Hc Hok|rest c f Hops Hc Hf _
    |ops rest cs c Hops Hall Hc Hback|ops op rest cs c rc o Hops Hall Hc Hok Hrc|cs c p Hall Hc Hp
    |cs Hall Hdone|cs c Hall Hc Hback|cs c rc o Hall Hc Hok Hrc].
  - exists [], (start_ops done), [], []. split_and!; try done. by apply tail_nil.
  - exists ops, rest, cs, []. rewrite app_nil_r. split_and!; try done. by apply tail_nil.
  - exists ops, (op :: rest), cs, [c]. split_and!; try done. eapply tail_start_failed; [by eapply Hin|done..].
  - exists [], (start_ops done), [], [c]. split_and!; try done. eapply tail_start_failed; [|done..]. by left.
  - exists ops, ("verify_health" :: rest), cs, [c]. split_and!; try done. eapply tail_start_failed; [|done..]. by right.
  - exists ops, (op :: rest), cs, [c; rc]. split_and!; try done.
    destruct (Hop2 op (Hin _ _ _ Hops)). by eapply tail_recovered.
  - exists (start_ops done), [], cs, [c; p]. rewrite app_nil_r. split_and!; try done.
    destruct Hc as [[Hc Hr] Hok], Hp as [Hp _].
    split; cbn [List.filter]; unfold is_recovery; rewrite ?Hc, ?Hp; try done; [by left|simpl; lia|].
    intros _. right. by apply Exists_cons_hd.
  - exists (start_ops done), [], cs, []. rewrite !app_nil_r. split_and!; try done. by apply tail_nil.
  - exists (start_ops done), [], cs, [c]. rewrite app_nil_r. split_and!; try done. destruct Hc as [Hc _].
    split; cbn [List.filter]; unfold is_recovery; rewrite ?Hc; try done; [by left|simpl; lia|].
    intros _. apply Exists_cons_hd. by right.
  - exists (start_ops done), [], cs, [c; rc]. rewrite app_nil_r. split_and!; try done.
    eapply tail_recovered; [|done..]. set_solver.
Qed.

Section safe.
Context {CR : Crypto} {JR : JsonReader} {RC : RegexCrate} {EW : EventWire} {EN : Environment}.


End safe.
