(* ===== verification/ExecutorFacts.v ===== *)
(** * The executor of a plan

    What one run of [execute] asks of the runner: the unfinished actions in
    order, each inside the execution window, bound before anything else, and
    nothing for a later action once one failed.  As for a deploy, the
    environment is arbitrary. *)

From S2P Require Import Prelude RustStr BTree PlanCode Errors Json Jcs JsonRead Calendar Text.
From S2P Require Import Crypto Trust Verify Samples Store DefinitionStore AdmissionStore.
From S2P Require Import AlertRules Reconcile Queries StoreSamples Proto OpsStore Effects Runner.
From S2P Require Import Exec Change DeployFacts.


(** ** Calls that stop a plan *)

(** A bind the executor goes on from: bound now, or before. *)
Definition bind_accepted (c : Call) : bool :=
  match ca_answer c with
  | None => false
  | Some a => match bind_plan a with
              | Ok _ => true
              | Err f => bool_decide (failure_plan_code f = PlanCode.PlanConsumed)
              | Panic => false
              end
  end.

(** Ops whose failure does not fail the action: retention after a deploy, the
    two ops of a cancel (the log may hold its result), and an upgrade, which
    only a receipt ends. *)
Definition EXEMPT : list string := ["prune_releases"; "cancel_running"; "cancel_execution"; "upgrade_database"].

(** A call that fails its action; [upgrade] when the action is an upgrade. *)
Definition stopping (upgrade : bool) (c : Call) : bool :=
  if String.eqb (ca_op c) "bind_plan" then negb upgrade && negb (bind_accepted c)
  else negb (contains_str EXEMPT (ca_op c)) && negb (call_ok c).

(** ** The contract *)

(** The calls of one action: all on it, and after an accepted bind unless it
    was consumed before. *)
Definition bound_first (consumed : bool) (cs : list Call) : Prop :=
  if consumed then Forall (fun c => ca_op c <> "bind_plan") cs
  else cs = [] \/ exists b rest, cs = b :: rest /\ ca_op b = "bind_plan" /\
    Forall (fun c => ca_op c <> "bind_plan") rest /\ (rest = [] \/ bind_accepted b = true).

(** A call for an op of the action [r]. *)
Definition op_call (r : PlanRef) (c : Call) : Prop := ca_plan c = r /\ ca_op c <> "bind_plan".

Section contract.
Context {CR : Crypto} {EN : Environment}.

Record segment (record : AdmissionRecord) (upgrade : bool) (action : ActionRecord) (cs : list Call) (stopped : bool)
    : Prop := {
  sg_unfinished : qa_finished_at action = None;
  sg_window : exists n deadline, execution_deadline (q_admitted_at record) = Some deadline /\ clock n <= deadline;
  sg_plan : Forall (fun c => ca_plan c = plan_ref record action) cs;
  sg_bound : bound_first (is_some (qa_consumed_at action)) cs;
  sg_stop : existsb (stopping upgrade) cs = true -> stopped = true
}.

Definition upgrades (plan : Value) (action : ActionRecord) : bool :=
  is_upgrade (qa_kind action) (action_params plan (qa_action_index action)).

(** The calls of a plan's actions, from a state in which one has failed or
    not. *)
Inductive plan_run (record : AdmissionRecord) (plan : Value) : bool -> list ActionRecord -> list Call -> Prop :=
| pl_end failed actions : plan_run record plan failed actions []
| pl_skip failed failed' action rest cs :
    (failed = true -> failed' = true) -> plan_run record plan failed' rest cs ->
    plan_run record plan failed (action :: rest) cs
| pl_run action rest cs stopped cs' :
    segment record (upgrades plan action) action cs stopped -> plan_run record plan stopped rest cs' ->
    plan_run record plan false (action :: rest) (cs ++ cs').

(** Once an action failed nothing more is asked. *)
Lemma plan_run_failed record plan actions cs : plan_run record plan true actions cs -> cs = [].
Proof.
  remember true as failed eqn:Hf. induction 1 as [|f f' action rest cs Hff _ IH|]; [done| |done]. auto.
Qed.

End contract.

Section executor.
Context {CR : Crypto} {JR : JsonReader} {RC : RegexCrate} {EW : EventWire} {EN : Environment}.

Notation runs := (run_from x_calls).

(** ** One action *)

Lemma run_ask w op r :
  runs w (ask op r) (fun cs answer _ =>
    cs = [ {| ca_op := op; ca_plan := r; ca_answer := Some answer |} ] /\ answer <> Panic).
Proof.
  unfold ask. eapply run_then; [apply run_call|]. intros cs answer w1 (-> & Hseen & Hp). apply run_ret.
  specialize (Hseen eq_refl). destruct answer as [a|]; [|done]. cbn [app]. split; [done|]. by apply Hp.
Qed.

Lemma bind_plan_total a : a <> Panic -> bind_plan a <> Panic.
Proof.
  destruct a as [v|f|]; [|done..]. intros _. unfold bind_plan, ok_or_failure. cbn [obind].
  by destruct (eq_bool v.["ok"] true).
Qed.

(** A bind: no call when the action is consumed, else one, and its failure is
    the action's. *)
Lemma run_bind_action w record action :
  runs w (Change.bind record action) (fun cs failed _ =>
    if is_some (qa_consumed_at action) then cs = [] /\ failed = None
    else exists c, cs = [c] /\ asks_for (plan_ref record action) "bind_plan" c /\
      match failed with
      | None => bind_accepted c = true
      | Some o => bind_accepted c = false /\ oc_outcome o = "failed"
      end).
Proof.
  unfold Change.bind. destruct (is_some (qa_consumed_at action)); [by apply run_ret|].
  eapply run_then; [apply run_ask|]. intros cs answer w1 [-> Hp]. apply bind_plan_total in Hp.
  set (c := {| ca_op := _; ca_plan := _; ca_answer := Some answer |}).
  destruct (bind_plan answer) as [bound|f|] eqn:Hb; [| |done].
  - apply run_skip; [hush|]. intros [] w2. apply run_skip; [hush|]. intros [] w3. apply run_ret.
    exists c. split_and!; try done. unfold bind_accepted, c. cbn [ca_answer]. by rewrite Hb.
  - case_bool_decide as Hf.
    + apply run_skip; [hush|]. intros [] w2. apply run_skip; [hush|]. intros [] w3. apply run_ret.
      exists c. split_and!; try done. unfold bind_accepted, c. cbn [ca_answer]. rewrite Hb. by apply bool_decide_true.
    + apply run_ret. exists c. split_and!; try done. unfold bind_accepted, c. cbn [ca_answer]. rewrite Hb.
      by apply bool_decide_false.
Qed.

(** The ops of an action after its bind: all on it, none a bind; one that
    stops the plan fails the action. *)
Definition ops_post (r : PlanRef) (cs : list Call) (o : Outcome) : Prop :=
  Forall (op_call r) cs /\
  (existsb (stopping false) cs = true -> oc_outcome o <> "succeeded").

Lemma deploy_run_ops r done cs outcome :
  deploy_run r done cs outcome -> Forall (op_call r) cs.
Proof.
  assert (forall pre more cs, start_ops done = pre ++ more -> Forall2 (answered_ok r) pre cs ->
            Forall (op_call r) cs) as Hst.
  { intros pre more cs' Hops Hall. apply Forall_forall. intros c Hc.
    assert (ca_plan c = r) as Hr.
    { apply list_elem_of_lookup_1 in Hc as [i Hi]. by destruct (Forall2_lookup_r _ _ _ _ _ Hall Hi) as (op & _ & [[_ ?] _]). }
    split; [done|]. by destruct (start_calls r done pre cs' c) as [->| ->]; [by exists more|..]. }
  assert (forall op c, asks_for r op c -> op <> "bind_plan" -> op_call r c) as Hc1.
  { intros op c [Hop Hr] Hne. split; [done|congruence]. }
  assert (forall op more pre, start_ops done = pre ++ op :: more -> op <> "bind_plan") as Hin.
  { intros op more pre H. destruct (start_ops_in done op) as [->| ->]; [rewrite H; set_solver|done..]. }
  assert (forall cs, Forall2 (answered_ok r) (start_ops done) cs ->
            Forall (op_call r) cs) as Hfull.
  { intros cs' H. eapply Hst; [|exact H]. symmetry; apply app_nil_r. }
  assert (forall c o, recovers r c o -> op_call r c) as Hrc.
  { intros c o [c' [Hc _]|c' Hc _|c' Hc]; by eapply Hc1. }
  destruct 1 as [_|ops rest cs Hops Hall|ops op rest cs c Hops Hall Hc Hok|rest c f Hops Hc Hf _
    |ops rest cs c Hops Hall Hc Hback|ops op rest cs c rc o Hops Hall Hc Hok Hrec|cs c p Hall [Hc _] Hp
    |cs Hall Hdone|cs c Hall Hc Hback|cs c rc o Hall Hc Hok Hrec];
    rewrite ?Forall_app, ?Forall_cons, ?Forall_nil; split_and?; try done; eauto.
  all: by eapply Hc1.
Qed.

Lemma deploy_run_stops r done cs outcome :
  deploy_run r done cs outcome -> existsb (stopping false) cs = true -> outcome <> "succeeded".
Proof.
  assert (forall ops cs, Forall2 (answered_ok r) ops cs -> existsb (stopping false) cs = true -> exists c, c ∈ cs /\
            ca_op c = "bind_plan") as Hoks.
  { intros ops cs' Hall (c & Hc & Hs)%existsb_exists. apply list_elem_of_In in Hc. exists c. split; [done|].
    apply list_elem_of_lookup_1 in Hc as [i Hi]. destruct (Forall2_lookup_r _ _ _ _ _ Hall Hi) as (op & _ & [_ Hok]).
    unfold stopping in Hs. destruct (String.eqb_spec (ca_op c) "bind_plan"); [done|]. rewrite Hok in Hs.
    by rewrite andb_false_r in Hs. }
  intros Hrun Hs. pose proof (deploy_run_ops _ _ _ _ Hrun) as Hops. rewrite Forall_forall in Hops.
  assert (forall ops cs', Forall2 (answered_ok r) ops cs' -> (forall c, c ∈ cs' -> c ∈ cs) ->
            existsb (stopping false) cs' = false) as Hno.
  { intros ops cs' Hall Hin. destruct (existsb _ cs') eqn:He; [|done].
    destruct (Hoks _ _ Hall He) as (c & Hc & Hb). by destruct (Hops c (Hin c Hc)). }
  destruct Hrun as [_|ops rest cs Hst Hall|ops op rest cs c Hst Hall Hc Hok|rest c f Hst Hc Hf _
    |ops rest cs c Hst Hall Hc Hback|ops op rest cs c rc o Hst Hall Hc Hok Hrec|cs c p Hall [[Hc _] Hok] [Hp _]
    |cs Hall Hdone|cs c Hall Hc Hback|cs c rc o Hall Hc Hok Hrec]; try done.
  - by destruct (recovers_outcome _ _ _ Hrec).
  - rewrite existsb_app, (Hno _ _ Hall) in Hs by (intros x Hx; apply elem_of_app; by left). cbn [existsb] in Hs. unfold stopping in Hs.
    by rewrite Hc, Hp, Hok in Hs.
  - by rewrite (Hno _ _ Hall) in Hs.
  - by destruct (recovers_outcome _ _ _ Hrec).
Qed.

Lemma run_deploy_ops w record plan action done :
  runs w (run_deploy record plan action done) (fun cs o _ => ops_post (plan_ref record action) cs o).
Proof.
  eapply run_weaken; [apply run_run_deploy|]. intros cs o s Hrun. split.
  - exact (deploy_run_ops _ _ _ _ Hrun).
  - exact (deploy_run_stops _ _ _ _ Hrun).
Qed.

(** *** Op sequences *)

Lemma stopping_ok upgrade c : ca_op c <> "bind_plan" -> call_ok c = true -> stopping upgrade c = false.
Proof. intros Hb Hok. unfold stopping. rewrite (proj2 (String.eqb_neq _ _) Hb), Hok. by rewrite andb_false_r. Qed.

Lemma run_each_op w record plan action done ops :
  "bind_plan" ∉ ops ->
  runs w (each_op record plan action done ops) (fun cs failed _ =>
    Forall (fun c => ca_plan c = plan_ref record action /\ ca_op c ∈ ops) cs /\
    match failed with
    | None => existsb (stopping false) cs = false
    | Some o => oc_outcome o = "failed"
    end).
Proof.
  revert w; induction ops as [|op ops IH]; intros w Hb; cbn [each_op].
  { apply run_ret. split; [constructor|done]. }
  apply not_elem_of_cons in Hb as [Hne Hb].
  assert (forall cs, Forall (fun c => ca_plan c = plan_ref record action /\ ca_op c ∈ ops) cs ->
            Forall (fun c => ca_plan c = plan_ref record action /\ ca_op c ∈ op :: ops) cs) as Hmono.
  { intros cs H. eapply Forall_impl; [exact H|]. set_solver. }
  destruct (contains_str done op).
  { eapply run_weaken; [by apply IH|]. intros es o s [H ?]. split; [by apply Hmono|done]. }
  eapply run_then; [apply run_run_one|]. intros cs result w1 (c & -> & [Hc Hr] & Hres).
  destruct Hres as [(v & -> & Hok)|(f & -> & _)].
  - eapply run_weaken; [by apply IH|]. intros es o s [H Ho]. cbn [app].
    split; [apply Forall_cons; split; [split; [done|rewrite Hc; set_solver]|by apply Hmono]|].
    destruct o; [done|]. cbn [existsb]. rewrite stopping_ok; [done|congruence|done].
  - apply run_ret. split; [|done]. apply Forall_singleton. split; [done|]. rewrite Hc. set_solver.
Qed.

Lemma exempt_not_stopping r cs :
  Forall (fun c => ca_plan c = r /\ ca_op c ∈ ["cancel_running"; "cancel_execution"]) cs ->
  existsb (stopping false) cs = false /\ Forall (op_call r) cs.
Proof.
  induction 1 as [|c cs [Hr Hc] _ [IH1 IH2]]; [done|]. cbn [existsb]. rewrite IH1.
  rewrite !elem_of_cons, elem_of_nil in Hc. unfold stopping. split.
  - by destruct Hc as [->|[->|[]]].
  - constructor; [|done]. split; [done|]. by destruct Hc as [->|[->|[]]].
Qed.

Lemma run_cancel_calls w record action params done :
  runs w (run_cancel record action params done) (fun cs _ _ =>
    Forall (fun c => ca_plan c = plan_ref record action /\ ca_op c ∈ ["cancel_running"; "cancel_execution"]) cs).
Proof.
  unfold run_cancel. apply run_skip; [hush|]. intros known w1. apply run_skip; [hush|]. intros [] w2.
  apply run_skip; [hush|]. intros [] w3.
  eapply run_then with (P := fun cs _ _ =>
    Forall (fun c => ca_plan c = plan_ref record action /\ ca_op c ∈ ["cancel_running"; "cancel_execution"]) cs).
  { destruct (existsb _ done); [by apply run_ret; constructor|]. unfold run_cancel_running.
    apply run_skip; [hush|]. intros [] w4. eapply run_then; [apply run_ask|]. intros cs answer w5 [-> _].
    eapply run_weaken; [apply run_silent; hush|]. intros es a s ->. apply Forall_singleton. split; [done|]. set_solver. }
  intros cs [] w4 Hcs. destruct (contains_str done "cancel_execution").
  { eapply run_weaken; [apply run_silent; hush|]. intros es a s ->. by rewrite app_nil_r. }
  apply run_skip; [hush|]. intros [] w5. eapply run_then; [apply run_ask|]. intros cs2 answer w6 [-> _].
  eapply run_weaken; [apply run_silent; hush|]. intros es a s ->. apply Forall_app. split; [done|].
  apply Forall_singleton. split; [done|]. set_solver.
Qed.

Lemma run_run_ops w record plan action ops done :
  "bind_plan" ∉ ops ->
  runs w (run_ops record plan action ops done) (fun cs o _ => ops_post (plan_ref record action) cs o /\
    (String.eqb (qa_kind action) "operation.cancel" = false ->
     Forall (fun c => ca_op c ∈ ops) cs)).
Proof.
  intros Hb. unfold run_ops. destruct (String.eqb_spec (qa_kind action) "operation.cancel").
  { eapply run_weaken; [apply run_cancel_calls|]. intros cs o s [H1 H2]%exempt_not_stopping.
    split; [split; [done|by rewrite H1]|done]. }
  eapply run_then; [by apply run_each_op|]. intros cs failed w1 [Hcs Hf].
  assert (Forall (op_call (plan_ref record action)) cs) as Hcs'.
  { eapply Forall_impl; [exact Hcs|]. intros c [Hr Hin]. split; [done|]. congruence. }
  assert (Forall (fun c => ca_op c ∈ ops) cs) as Hin by (eapply Forall_impl; [exact Hcs|]; naive_solver).
  destruct failed as [o|].
  - apply run_ret. rewrite app_nil_r. split; [split; [done|by rewrite Hf]|done].
  - eapply run_weaken; [apply (run_skip _ _ _ _ (fun es o _ => es = [] /\ o = outcome_succeeded)); [hush|]|].
    { intros [] w2. by apply run_ret. }
    intros es o s [-> ->]. rewrite app_nil_r. split; [split; [done|by rewrite Hf]|done].
Qed.

(** *** Kinds *)

Lemma exec_of_ops kind params ops : exec_of kind params = ExOps ops -> "bind_plan" ∉ ops.
Proof. unfold exec_of. repeat case_match; intros; simplify_eq; set_solver. Qed.

Lemma exec_of_upgrade kind params : is_upgrade kind params = true -> exec_of kind params = ExOps ["upgrade_database"].
Proof.
  unfold is_upgrade. intros [->%String.eqb_eq Hs]%andb_true_iff. unfold exec_of. rewrite Hs. reflexivity.
Qed.

(** *** An action's calls *)

Definition action_post (record : AdmissionRecord) (upgrade : bool) (action : ActionRecord) (cs : list Call)
    (o : option Outcome) : Prop :=
  Forall (fun c => ca_plan c = plan_ref record action) cs /\
  bound_first (is_some (qa_consumed_at action)) cs /\
  (existsb (stopping upgrade) cs = true -> upgrade = false /\ exists o', o = Some o' /\ not_ok (oc_outcome o') = true).

Lemma action_quiet record upgrade action o : action_post record upgrade action [] o.
Proof. split_and!; [constructor| |done]. unfold bound_first. destruct (is_some _); [constructor|by left]. Qed.

(** The bind alone, or the bind and the ops after it. *)
Lemma action_bound record upgrade action cs1 cs2 failed o :
  (if is_some (qa_consumed_at action) then cs1 = [] /\ failed = None
   else exists c, cs1 = [c] /\ asks_for (plan_ref record action) "bind_plan" c /\
     match failed with
     | None => bind_accepted c = true
     | Some o => bind_accepted c = false /\ oc_outcome o = "failed"
     end) ->
  match failed with
  | Some _ => cs2 = [] /\ o = failed
  | None => Forall (op_call (plan_ref record action)) cs2 /\
      (existsb (stopping upgrade) cs2 = true ->
       upgrade = false /\ exists o', o = Some o' /\ not_ok (oc_outcome o') = true)
  end ->
  action_post record upgrade action (cs1 ++ cs2) o.
Proof.
  intros H1 H2. unfold action_post, bound_first. destruct (is_some (qa_consumed_at action)).
  - destruct H1 as [-> ->], H2 as [Hops Hs]. cbn [app]. split_and!; [|by eapply Forall_impl; [exact Hops|]; intros c []|done].
    eapply Forall_impl; [exact Hops|]. by intros c [].
  - destruct H1 as (c & -> & [Hop Hr] & H1). cbn [app]. destruct failed as [o1|].
    + destruct H1 as [Hrej Ho], H2 as [-> ->]. split_and!.
      * by apply Forall_singleton.
      * right. exists c, []. split_and!; [done|done|constructor|by left].
      * cbn [existsb]. unfold stopping. rewrite Hop, Hrej. cbn. destruct upgrade; [done|]. intros _. split; [done|].
        exists o1. split; [done|]. by rewrite Ho.
    + destruct H2 as [Hops Hs]. split_and!.
      * apply Forall_cons. split; [done|]. eapply Forall_impl; [exact Hops|]. by intros d [].
      * right. exists c, cs2. split_and!; [done|done| |by right]. eapply Forall_impl; [exact Hops|]. by intros d [].
      * cbn [existsb]. replace (stopping upgrade c) with false; [done|]. unfold stopping. rewrite Hop, H1. cbn.
        by rewrite andb_false_r.
Qed.

Lemma not_ok_ne outcome : outcome <> "succeeded" -> not_ok outcome = true.
Proof. intros H. unfold not_ok. by rewrite (proj2 (String.eqb_neq _ _) H). Qed.

Lemma run_run_bound w record plan action params ops done :
  "bind_plan" ∉ ops ->
  runs w (run_bound record plan action params ops done) (fun cs o _ => ops_post (plan_ref record action) cs o /\
    (String.eqb (qa_kind action) "operation.cancel" = false -> Forall (fun c => ca_op c ∈ ops) cs)).
Proof.
  intros Hb. unfold run_bound.
  assert (forall o, ops_post (plan_ref record action) [] o) as Hnil by (intros o; split; [constructor|done]).
  destruct (String.eqb (qa_kind action) "cron.run"); [|by apply run_run_ops].
  apply run_skip; [hush|]. intros [[reason|]|] w1; [|by apply run_run_ops|]; apply run_ret; split; try done; intros; constructor.
Qed.

(** An action's ops as what follows its bind. *)
Lemma ops_follow r (o : Outcome) cs :
  ops_post r cs o ->
  Forall (op_call r) cs /\ (existsb (stopping false) cs = true ->
    false = false /\ exists o', Some o = Some o' /\ not_ok (oc_outcome o') = true).
Proof. intros [Hops Hs]. split; [done|]. intros H. split; [done|]. exists o. split; [done|]. by apply not_ok_ne, Hs. Qed.

Lemma run_run_action w record plan action done :
  let params := action_params plan (qa_action_index action) in
  runs w (run_action record plan action params done)
    (fun cs o _ => action_post record (upgrades plan action) action cs o).
Proof.
  intros params. unfold run_action, upgrades. fold params.
  destruct (is_upgrade (qa_kind action) params) eqn:Hup.
  - rewrite (exec_of_upgrade _ _ Hup).
    eapply run_then; [apply run_bind_action|]. intros cs1 [o|] w1 Hbind.
    { apply run_ret. by eapply (action_bound _ _ _ _ _ (Some o)); [exact Hbind|]. }
    eapply run_then; [apply run_run_bound; set_solver|]. intros cs2 o w2 [[Hops _] Hin]. apply run_ret. rewrite app_nil_r.
    eapply (action_bound _ _ _ _ _ None); [exact Hbind|]. cbn. split; [done|].
    assert (qa_kind action = "db.upgrade") as Hk by (unfold is_upgrade in Hup; by apply andb_true_iff in Hup as [->%String.eqb_eq _]).
    rewrite Hk in Hin. specialize (Hin eq_refl). intros (c & Hc & Hs)%existsb_exists. exfalso.
    rewrite Forall_forall in Hin. apply list_elem_of_In in Hc. specialize (Hin c Hc).
    apply list_elem_of_singleton in Hin. unfold stopping in Hs. by rewrite Hin in Hs.
  - destruct (exec_of (qa_kind action) params) as [| | |ops| | |] eqn:Hex.
    + apply run_skip; [hush|]. intros o w1. apply run_ret. apply action_quiet.
    + eapply run_weaken; [apply run_bind_action|]. intros cs [o|] w1 Hbind.
      * rewrite <- (app_nil_r cs). by eapply (action_bound _ _ _ _ _ (Some o)); [exact Hbind|].
      * rewrite <- (app_nil_r cs). eapply (action_bound _ _ _ _ _ None); [exact Hbind|]. cbn. split; [constructor|done].
    + eapply run_then; [apply run_bind_action|]. intros cs1 [o|] w1 Hbind.
      { apply run_ret. by eapply (action_bound _ _ _ _ _ (Some o)); [exact Hbind|]. }
      eapply run_then; [apply run_deploy_ops|]. intros cs2 o w2 Hops%ops_follow. apply run_ret. rewrite app_nil_r.
      by eapply (action_bound _ _ _ _ _ None); [exact Hbind|].
    + eapply run_then; [apply run_bind_action|]. intros cs1 [o|] w1 Hbind.
      { apply run_ret. by eapply (action_bound _ _ _ _ _ (Some o)); [exact Hbind|]. }
      eapply run_then; [apply run_run_bound; by eapply exec_of_ops|]. intros cs2 o w2 [Hops%ops_follow _].
      apply run_ret. rewrite app_nil_r. by eapply (action_bound _ _ _ _ _ None); [exact Hbind|].
    + eapply run_weaken; [apply run_bind_action|]. intros cs [o|] w1 Hbind.
      * rewrite <- (app_nil_r cs). by eapply (action_bound _ _ _ _ _ (Some o)); [exact Hbind|].
      * rewrite <- (app_nil_r cs). eapply (action_bound _ _ _ _ _ None); [exact Hbind|]. cbn. split; [constructor|done].
    + apply run_ret. apply action_quiet.
    + apply run_ret. apply action_quiet.
Qed.

(** ** The loop *)

Lemma run_window w record :
  runs w (window_open record) (fun cs open _ => cs = [] /\ (open = true ->
    exists n deadline, execution_deadline (q_admitted_at record) = Some deadline /\ clock n <= deadline)).
Proof.
  unfold window_open. destruct (execution_deadline _) as [deadline|]; [|by apply run_ret].
  eapply run_then with (P := fun es now _ => es = [] /\ exists n, now = clock n).
  { exists []. rewrite app_nil_r. split; [done|]. split; [done|]. by exists (x_reads w). }
  intros es now w1 (-> & n & ->). apply run_ret. split; [done|]. intros H%Z.leb_le. by exists n, deadline.
Qed.

Lemma segment_of record plan action cs o stopped :
  qa_finished_at action = None ->
  (exists n deadline, execution_deadline (q_admitted_at record) = Some deadline /\ clock n <= deadline) ->
  action_post record (upgrades plan action) action cs o ->
  (forall o', o = Some o' -> upgrades plan action = false -> not_ok (oc_outcome o') = true -> stopped = true) ->
  segment record (upgrades plan action) action cs stopped.
Proof.
  intros Hfin Hw (Hplan & Hbound & Hstop) Hs. split; [done..|]. intros H.
  destruct (Hstop H) as (Hup & o' & -> & Hno). by eapply Hs.
Qed.

Lemma run_run_actions w record plan ops failed actions :
  runs w (run_actions record plan ops failed actions) (fun cs _ _ => plan_run record plan failed actions cs).
Proof.
  revert w failed; induction actions as [|action rest IH]; intros w failed; cbn [run_actions].
  { apply run_ret. constructor. }
  assert (forall w f, (failed = true -> f = true) ->
    runs w (run_actions record plan ops f rest) (fun cs _ _ => plan_run record plan failed (action :: rest) cs)) as Hskip.
  { intros w1 f Hf. eapply run_weaken; [apply IH|]. intros cs a s H. by eapply pl_skip. }
  apply run_skip; [hush|]. intros cancelled w1. destruct cancelled; [apply run_ret; constructor|].
  destruct (is_some (qa_finished_at action)) eqn:Hfin; [apply Hskip; by intros ->|].
  eapply run_then; [apply run_window|]. intros es open w2 [-> Hopen]. cbn [app].
  destruct open; cbn [negb]; [|apply run_skip; [hush|]; intros [] w3; by apply Hskip].
  destruct failed; [apply run_skip; [hush|]; intros [] w3; by apply Hskip|]. specialize (Hopen eq_refl).
  assert (qa_finished_at action = None) as Hnone by by destruct (qa_finished_at action).
  set (params := action_params plan (qa_action_index action)).
  set (done := if is_upgrade (qa_kind action) params then _ else _).
  destruct (_ && contains_str done "cancel_execution").
  { apply run_skip; [hush|]. intros [] w3. apply run_ret. constructor. }
  eapply run_then; [apply run_run_action|]. intros cs1 o w3 Hpost.
  assert (forall w stopped, (forall o', o = Some o' -> upgrades plan action = false -> not_ok (oc_outcome o') = true -> stopped = true) ->
    runs w (run_actions record plan ops stopped rest)
      (fun cs2 _ _ => plan_run record plan false (action :: rest) (cs1 ++ cs2))) as Hnext.
  { intros w4 stopped Hs. eapply run_weaken; [apply IH|]. intros cs2 a s H. eapply pl_run; [|exact H].
    by eapply segment_of; [done|done|exact Hpost|]. }
  assert (plan_run record plan false (action :: rest) (cs1 ++ [])) as Hend.
  { apply pl_run with (stopped := true); [by eapply segment_of; [done|done|exact Hpost|]|constructor]. }
  destruct o as [o|]; [|by apply Hnext].
  change (is_upgrade (qa_kind action) params) with (upgrades plan action).
  destruct (upgrades plan action && not_ok (oc_outcome o)) eqn:Hup.
  - apply run_skip; [hush|]. intros receipt w4. destruct receipt as [outcome|]; [|by apply run_ret].
    apply Hnext. intros o' [= <-] Hno. apply andb_true_iff in Hup as [Hup _]. congruence.
  - apply run_skip; [hush|]. intros cancelled w4. destruct (cancelled && negb (oc_activated o)); [by apply run_ret|].
    apply run_skip; [hush|]. intros [] w5. apply run_skip; [hush|]. intros [] w6. apply Hnext. by intros o' [= <-] _ ->.
Qed.

Lemma run_execute w plan_id :
  runs w (execute plan_id) (fun cs _ _ => cs = [] \/
    exists record actions, plan_run record (plan_of record) false actions cs).
Proof.
  unfold execute. apply run_skip; [hush|]. intros running w1. destruct running; [apply run_ret; by left|].
  apply run_skip; [hush|]. intros [] w2.
  eapply run_then with (P := fun cs _ _ => cs = [] \/ exists record actions, plan_run record (plan_of record) false actions cs).
  - unfold execute_inner. apply run_skip; [hush|]. intros [record|] w3; [|apply run_ret; by left].
    apply run_skip; [hush|]. intros [] w4. apply run_skip; [hush|]. intros [record'|] w5; [|apply run_ret; by left].
    destruct (is_some (q_finished_at record')); [apply run_ret; by left|].
    unfold execute_record. apply run_skip; [hush|]. intros ops w6. apply run_skip; [hush|]. intros actions w7.
    eapply run_then; [apply run_run_actions|]. intros cs ended w8 Hrun.
    eapply run_weaken; [apply run_silent; hush|]. intros es a s ->. rewrite app_nil_r. right. by exists record', actions.
  - intros cs [] w3 Hcs. apply run_skip; [hush|]. intros held w4.
    eapply run_weaken; [apply run_silent; hush|]. intros es a s ->. by rewrite app_nil_r.
Qed.

End executor.

(** ** What the contract gives *)

Section facts.
Context {CR : Crypto} {JR : JsonReader} {RC : RegexCrate} {EW : EventWire} {EN : Environment}.

(** No call for another action follows a call that stops the plan. *)
Lemma plan_run_stops record plan failed actions cs before c after :
  (forall action, action ∈ actions -> upgrades plan action = false) ->
  plan_run record plan failed actions cs -> cs = before ++ c :: after -> stopping false c = true ->
  Forall (fun d => ca_plan d = ca_plan c) after.
Proof.
  intros Hup Hrun. revert before. induction Hrun as [|f f' action rest cs _ _ IH|action rest cs stopped cs' Hseg Hrun IH];
    intros before Hcs Hs.
  - by destruct before.
  - eapply IH; [|done..]. set_solver.
  - destruct Hseg as [_ _ Hplan _ Hstop]. rewrite (Hup action) in Hstop by set_solver.
    apply app_eq_inv in Hcs as [(k & -> & Hcs)|(k & -> & Hcs)].
    + destruct k as [|d k].
      * cbn [app] in Hcs. rewrite app_nil_r in *. eapply (IH ltac:(set_solver) []); [done|done].
      * cbn [app] in Hcs. injection Hcs as -> ->.
        rewrite existsb_app in Hstop. cbn [existsb] in Hstop. rewrite Hs, orb_true_r in Hstop.
        rewrite (Hstop eq_refl) in Hrun. apply plan_run_failed in Hrun as ->. rewrite app_nil_r.
        apply Forall_app in Hplan as [_ [Hd Hk]%Forall_cons]. eapply Forall_impl; [exact Hk|]. simpl. congruence.
    + eapply IH; [set_solver|exact Hcs|done].
Qed.

(** Every op follows an accepted bind of its action, unless the action was
    consumed before. *)
Lemma plan_run_bound record plan failed actions cs before c after :
  plan_run record plan failed actions cs -> cs = before ++ c :: after -> ca_op c <> "bind_plan" ->
  exists action, action ∈ actions /\ ca_plan c = plan_ref record action /\ qa_finished_at action = None /\
    (is_some (qa_consumed_at action) = true \/
     exists b, b ∈ before /\ ca_op b = "bind_plan" /\ ca_plan b = ca_plan c /\ bind_accepted b = true).
Proof.
  intros Hrun. revert before. induction Hrun as [|f f' action rest cs _ _ IH|action rest cs stopped cs' Hseg Hrun IH];
    intros before Hcs Hop.
  - by destruct before.
  - destruct (IH _ Hcs Hop) as (a & Ha & H). exists a. split; [by right|done].
  - destruct Hseg as [Hfin _ Hplan Hbound _].
    assert (forall before', cs' = before' ++ c :: after -> before = cs ++ before' -> exists a, a ∈ action :: rest /\ ca_plan c = plan_ref record a /\
      qa_finished_at a = None /\ (is_some (qa_consumed_at a) = true \/
     exists b, b ∈ before /\ ca_op b = "bind_plan" /\ ca_plan b = ca_plan c /\ bind_accepted b = true)) as Hlater.
    { intros before' Hcs' ->. destruct (IH _ Hcs' Hop) as (a & Ha & Hr & Hf & H). exists a. split_and!; [by right|done|done|].
      destruct H as [?|(b & Hb & H)]; [by left|right]. exists b. split; [|done]. apply elem_of_app. by right. }
    apply app_eq_inv in Hcs as [(k & -> & Hcs)|(k & -> & Hcs)].
    + destruct k as [|d k]; cbn [app] in Hcs; [apply (Hlater []); [by rewrite <- Hcs|by rewrite !app_nil_r]|].
      injection Hcs as -> ->. exists action.
      apply Forall_app in Hplan as [Hpre [Hd Hk]%Forall_cons]. split_and!; [by left|done|done|].
      unfold bound_first in Hbound. destruct (is_some (qa_consumed_at action)); [by left|right].
      destruct Hbound as [Hnil|(b & more & Hb & Hbop & Hno & Hacc)]; [by destruct before|].
      destruct before as [|b' before].
      * cbn [app] in Hb. injection Hb as -> _. done.
      * cbn [app] in Hb. injection Hb as -> Hb. exists b. split_and!; [by left|done| |].
        -- apply Forall_cons in Hpre as [Hpre _]. congruence.
        -- destruct Hacc as [Hnil|?]; [|done]. rewrite <- Hb in Hnil. by destruct before.
    + by apply (Hlater k).
Qed.


End facts.

(** * Sample runs of the change core

    One deploy and one plan run against a runner that answers every op, and
    against one that fails the health check: the witnesses of the safety
    theorems of DeployFacts.v and ExecutorFacts.v. *)

#[local] Existing Instance toy_crypto.
#[local] Existing Instance canonical_reader.
#[local] Existing Instance no_regex.

(** Events are stored as empty bodies. *)
Definition blank_events : EventWire :=
  {| operation_event := {| encode_to_vec := fun _ => ""; decode := fun _ => None |} |}.
#[local] Existing Instance blank_events.

Definition fine : Value := obj [("ok", VBool true); ("consumed_at", str stamp_0)].
Definition unhealthy : Value :=
  obj [("ok", VBool false); ("code", str "execution_failed"); ("message", str "503")].

(** A runner whose answer depends on the op alone, on a server where nothing
    else runs. *)
Definition op_answer (bad : string) (request : Value) : RunnerFailure + Value :=
  inr (if bool_decide (as_str request.["op"] = Some bad) then unhealthy else fine).

Definition quiet_server (bad : string) : Environment :=
  {| clock := fun _ => (now_0 + 1)%Z; trust_file := fun _ => Absent;
     log_file := fun _ => Some {| lr_lines := []; lr_problems := []; lr_inode := None; lr_offset := 0 |};
     exchange := fun _ => op_answer bad; start_elapsed := fun _ => false; others := fun _ c => c;
     random_bytes := fun _ => zero_bytes; host_keys := []; recipient := ""; start_timeout_seconds := 600;
     staging_set := false; begin_admitted_manual := fun _ _ _ => None; telemetry_set := false;
     set_retention := fun _ _ _ _ => false |}.

Definition fresh_world : World :=
  {| x_core := new_core db_setup no_starts; x_reads := 0; x_faults := []; x_calls := []; x_out := [] |}.

(** The plan of the sample store, executed. *)
Notation execute_run bad := (snd (execute (EN := quiet_server bad) plan_a fresh_world)).
Definition ops_of (cs : list Call) : list string := ca_op <$> cs.


Example execute_fine :
  ops_of (x_calls (execute_run "")) =
    ["bind_plan"; "prepare_release"; "verify_health"; "activate_release"; "prune_releases"].
Proof. vm_compute. reflexivity. Qed.

Example execute_unhealthy :
  ops_of (x_calls (execute_run "verify_health")) =
    ["bind_plan"; "prepare_release"; "verify_health"; "cleanup_candidate"].
Proof. vm_compute. reflexivity. Qed.

(** The end of the plan: both actions succeed; or the deploy fails and the
    rule is not created. *)
Definition ended (w : World) : list string := qa_outcome <$> actions_of_plan (c_db (x_core w)) plan_a.

Example execute_outcomes :
  ended (execute_run "") = ["succeeded"; "succeeded"] /\ ended (execute_run "verify_health") = ["failed"; "failed"].
Proof. split; vm_compute; reflexivity. Qed.


Definition deploy_record : AdmissionRecord :=
  {| q_plan_id := plan_a; q_plan_digest_hex := repeat_byte "e" 64; q_signed_plan_json := ""; q_submitter := "client";
     q_operation_id := plan_b; q_admitted_at := stamp_0; q_finished_at := None; q_outcome := "";
     q_admission_seq := 1; q_nonce := ""; q_author_kind := "user"; q_signer_key_ids := [owner_id];
     q_action_kinds := ["deploy"; "rule.create"]; q_project_id := project_a; q_environment := "production";
     q_head_after_hex := zero_hex; q_rule_id := None; q_expires_at := ""; q_environment_id := env_id_a |}.

Definition deploy_action : ActionRecord :=
  {| qa_action_index := 0; qa_kind := "deploy"; qa_consumed_at := Some stamp_0; qa_finished_at := None;
     qa_outcome := ""; qa_deployment_id := Some deployment_0 |}.

Notation deploy_run_fine :=
  (run_deploy (EN := quiet_server "") deploy_record setup_plan deploy_action [] fresh_world).

