(* ===== verification/RulePlan.v ===== *)
(** * The rule-backed plan

    src/local/hooks/plan.rs: the plan the agent writes for a verified push,
    from the admitted rule, the delivery and the images the runner built. *)

From S2P Require Import Prelude RustStr BTree PlanCode Json Jcs JsonRead JcsFacts Calendar Text.
From S2P Require Import Crypto Verify Store DefinitionStore AdmissionStore Queries OpsStore.


Definition RULE_PLAN_LIFETIME_SECONDS : Z := 900.

Record ServiceBuild := { sb_service : string; sb_last_spec : LastSpec; sb_image : string }.

Record RulePlanInput := {
  ri_rule : Value; ri_rule_digest_hex : string; ri_environment_id : string; ri_server_id : string;
  ri_head : string; ri_delivery : DeliveryRow; ri_services : list ServiceBuild; ri_now : Z
}.

Record RulePlan := {
  rp_plan_id : string; rp_envelope : string; rp_specs : list string; rp_deployments : list (string * string)
}.

Section plan.
Context {CR : Crypto}.

(** One service of the loop: its action, spec text and deployment. *)
Definition rule_deploy (commit_sha : string) (unix_ms : Z) (random : list ascii) (service : ServiceBuild)
    : outcome unit (Value * string * (string * string)) :=
  let? spec := set_field (ls_spec (sb_last_spec service)) "image_digest_hex" (VString (sb_image service)) in
  let? text := ok_or (canonicalize spec) tt in
  let digest := hex (prefixed_digest SPEC_PREFIX text) in
  let deployment_id := new_uuid7 random unix_ms in
  Ok (json_object [("kind", VString "deploy"); ("params", json_object [
        ("service_id", VString (sb_service service)); ("commit_sha", VString commit_sha);
        ("spec_digest_hex", VString digest); ("deployment_id", VString deployment_id)])],
      text, (sb_service service, deployment_id)).

Definition rule_evidence (d : DeliveryRow) : Value :=
  json_object [ ("provider", VString (dl_provider d)); ("repo", VString (dl_repo d)); ("ref", VString (dl_ref d));
    ("commit_sha", VString (dl_commit_sha d)); ("commit_time", VString (dl_commit_time d));
    ("delivery_id", VString (dl_delivery_id d)); ("body_digest_hex", VString (dl_body_digest_hex d));
    ("received_at", VString (dl_received_at d)) ].

Definition rule_plan_value (i : RulePlanInput) (plan_id nonce : string) (services : list string) (actions : list Value)
    : Value :=
  let scope := (ri_rule i).["scope"] in
  json_object [
    ("version", VNumber (PosInt 1)); ("id", VString plan_id); ("project_id", scope.["project_id"]);
    ("environment", scope.["environment"]); ("environment_id", VString (ri_environment_id i));
    ("service_ids", VArray (VString <$> services)); ("targets", VArray [VString (ri_server_id i)]);
    ("actions", VArray actions);
    ("base", json_object [("force", VBool false); ("heads", json_object [(ri_server_id i, VString (ri_head i))])]);
    ("created_at", VString (format_timestamp (ri_now i)));
    ("expires_at", VString (format_timestamp (ri_now i + RULE_PLAN_LIFETIME_SECONDS)));
    ("nonce", VString nonce);
    ("author", json_object [("kind", VString "rule"); ("agent_session_id", VNull)]);
    ("invocation", json_object [
      ("rule_id", (ri_rule i).["id"]); ("rule_digest_hex", VString (ri_rule_digest_hex i));
      ("trigger", VString "git.push"); ("evidence", rule_evidence (ri_delivery i))]) ].

(** [services.sort_by(|a, b| a.service_id.cmp(&b.service_id))]. *)
Definition sorted_services (i : RulePlanInput) : list ServiceBuild := order_text sb_service (ri_services i).

(** [u64::try_from(now).unwrap_or(0).saturating_mul(1_000)]. *)
Definition plan_ms (now : Z) : Z := Z.min ((if 0 <=? now then now else 0) * 1000) u64_max.

(** [random n] is what the CSPRNG gives for the [n]th id, [nonce] for the
    nonce ([None] when it fails). *)
Definition build_rule_plan (i : RulePlanInput) (random : nat -> list ascii) (nonce : option (list ascii))
    : outcome unit RulePlan :=
  let unix_ms := plan_ms (ri_now i) in
  let plan_id := new_uuid7 (random 0%nat) unix_ms in
  let services := sorted_services i in
  let? built := map_each (fun e : nat * ServiceBuild =>
                  rule_deploy (dl_commit_sha (ri_delivery i)) unix_ms (random (S e.1)) e.2) (imap pair services) in
  let? bytes := ok_or nonce tt in
  let plan := rule_plan_value i plan_id (b64url_encode (string_of_list_ascii bytes)) (sb_service <$> services)
                ((fun b => b.1.1) <$> built) in
  let? envelope := ok_or (canonicalize (json_object [("plan", plan); ("signatures", VArray [])])) tt in
  Ok {| rp_plan_id := plan_id; rp_envelope := envelope; rp_specs := (fun b => b.1.2) <$> built;
        rp_deployments := snd <$> built |}.

End plan.

(** * Theorems about the rule-backed plan *)

(** ** A field replaced and put back *)

Lemma binsert_back {V} k (v x : V) (m : bmap V) : bsorted m -> bget k m = Some v -> binsert k v (binsert k x m) = m.
Proof.
  intros Hm Hk. apply bmap_eq; [by apply binsert_sorted, binsert_sorted|done|]. intros k'.
  rewrite !bget_insert. destruct (String.eqb_spec k' k) as [->|]; [done|].
  by destruct (String.eqb_spec k' k).
Qed.

Lemma wf_json_object members : Forall (fun e => utf8_valid e.1 = true /\ wf_value e.2) members ->
  wf_value (json_object members).
Proof.
  intros HF. apply wf_object. split; [apply bof_list_sorted|]. unfold bof_list.
  assert (forall m, Forall (fun e => utf8_valid e.1 = true /\ wf_value e.2) m ->
    Forall (fun e => utf8_valid e.1 = true /\ wf_value e.2) (fold_left (fun m e => binsert e.1 e.2 m) members m)) as H.
  { induction HF as [|[k v] l [Hk Hv] HF IH]; intros m Hm; cbn [fold_left]; [done|]. apply IH. by apply binsert_Forall. }
  apply H. constructor.
Qed.

(** Sorting keeps what holds of every element. *)
Lemma insert_text_Forall {A} (P : A -> Prop) key x (l : list A) : P x -> Forall P l -> Forall P (insert_text key x l).
Proof.
  intros Hx. induction 1 as [|y l Hy Hl IH]; cbn [insert_text]; [by constructor|].
  destruct (String.ltb _ _); by repeat constructor.
Qed.

Lemma order_text_Forall {A} (P : A -> Prop) key (l : list A) : Forall P l -> Forall P (order_text key l).
Proof.
  unfold order_text. assert (forall acc, Forall P acc -> Forall P l ->
    Forall P (fold_left (fun acc x => insert_text key x acc) l acc)) as H.
  { induction l as [|x l IH]; intros acc Ha Hl; cbn [fold_left]; [done|].
    apply Forall_cons in Hl as [Hx Hl]. apply IH; [by apply insert_text_Forall|done]. }
  apply H. constructor.
Qed.

Section plan.
Context {CR : Crypto} {JR : JsonReader} {JL : JsonReaderLaws}.

(** A stored spec: a well-formed object with an image. *)
Definition is_spec (base : Value) : Prop :=
  wf_value base /\ exists m image, base = VObject m /\ bget "image_digest_hex" m = Some image.

Lemma wf_replace m k x : wf_value (VObject m) -> utf8_valid k = true -> wf_value x -> wf_value (VObject (binsert k x m)).
Proof.
  rewrite !wf_object. intros [Hs HF] Hk Hx. split; [by apply binsert_sorted|]. by apply binsert_Forall.
Qed.

(** One service of the plan. *)
Lemma rule_deploy_spec commit unix_ms random sb action text dep : is_spec (ls_spec (sb_last_spec sb)) ->
  utf8_valid (sb_image sb) = true -> rule_deploy commit unix_ms random sb = Ok (action, text, dep) ->
  exists spec, (forall max, len text <= max -> parse_strict text max = Some spec) /\
    action.["params"].["spec_digest_hex"] = VString (hex (prefixed_digest SPEC_PREFIX text)) /\
    action.["params"].["service_id"] = VString (sb_service sb) /\
    eq_str spec.["image_digest_hex"] (sb_image sb) = true /\
    differs_only_in "image_digest_hex" spec (ls_spec (sb_last_spec sb)) = Ok tt.
Proof.
  intros [Hw (m & image & Hb & Hi)] Hu. unfold rule_deploy. rewrite Hb in *. cbn [set_field obind].
  destruct (canonicalize _) as [t|] eqn:Hc; cbn [ok_or obind]; [|done]. intros [= <- <- _].
  exists (VObject (binsert "image_digest_hex" (VString (sb_image sb)) m)). split_and!.
  - intros max Hl. apply parse_canonical; [|done|done]. by apply wf_replace.
  - done.
  - done.
  - unfold idx, Json.get. rewrite bget_insert, String.eqb_refl. cbn. apply String.eqb_refl.
  - unfold differs_only_in. cbn [set_field obind]. unfold idx, Json.get at 1. rewrite Hi. cbn [default].
    apply wf_object in Hw as [Hs _]. rewrite binsert_back by done. by rewrite (proj2 (value_eqb_eq _ _) eq_refl).
Qed.

(** The plan the agent builds for a push passes the checks the verifier makes
    of a rule's deploys: for every service, in the order of the actions, the
    spec text under the digest the action signs parses, carries the image
    that was built, and differs from the last admitted spec in nothing else. *)
Theorem rule_plan_only_image i random nonce plan :
  build_rule_plan i random nonce = Ok plan ->
  Forall (fun sb => is_spec (ls_spec (sb_last_spec sb)) /\ utf8_valid (sb_image sb) = true) (ri_services i) ->
  exists plan_id nonce_text actions,
    canonicalize (json_object [("plan", rule_plan_value i plan_id nonce_text
      (sb_service <$> sorted_services i) actions); ("signatures", VArray [])]) = Some (rp_envelope plan) /\
    length actions = length (rp_specs plan) /\
    Forall2 (fun sb at_ => exists spec,
        (forall max, len at_.2 <= max -> parse_strict at_.2 max = Some spec) /\
        at_.1.["params"].["spec_digest_hex"] = VString (hex (prefixed_digest SPEC_PREFIX at_.2)) /\
        at_.1.["params"].["service_id"] = VString (sb_service sb) /\
        eq_str spec.["image_digest_hex"] (sb_image sb) = true /\
        differs_only_in "image_digest_hex" spec (ls_spec (sb_last_spec sb)) = Ok tt)
      (sorted_services i) (zip actions (rp_specs plan)).
Proof.
  unfold build_rule_plan. intros H HF. inv_ok H. apply map_each_Ok in Hx. rename x into built.
  destruct nonce as [bytes|]; [|done]. subst plan. cbn [rp_envelope rp_specs].
  eexists _, _, ((fun b => b.1.1) <$> built). split_and!; [eassumption|by rewrite !length_fmap|].
  apply (order_text_Forall _ sb_service) in HF. fold (sorted_services i) in HF.
  assert (snd <$> imap pair (sorted_services i) = sorted_services i) as Hsnd by (rewrite fmap_imap; etrans; [apply (imap_const id)|apply list_fmap_id]).
  rewrite <- Hsnd. rewrite <- Hsnd in HF. clear Hsnd. revert HF. clear - Hx JL.
  induction Hx as [|[k sb] [[action text] dep] l l' Hd Hall IH]; [constructor|].
  intros [[Hs Hu] HF]%Forall_cons. constructor; [|by apply IH]. by eapply rule_deploy_spec.
Qed.

End plan.
