(* ===== verification/Events.v ===== *)
(** * The event log and its streams

    src/local/events.rs: the agent-wide log of events with resume tokens, and
    the task behind one [Subscribe] stream.  The broadcast channel, the clock
    and the client are tokio's, the host's and the peer's: what they do is the
    input of the task ([Occurrence]).  The guards of [advance] are the
    channel's documented behaviour: a receiver gets the values sent after it
    subscribed, in order, and one that is more than the capacity behind is
    told so and goes on with the oldest value still kept. *)

From S2P Require Import Prelude RustStr Proto Change.

(** ** Messages *)

(** [google.protobuf.Timestamp], with its nanoseconds. *)
Record Timestamp := { ts_seconds : Z; ts_nanos : Z }.

Module EventKind.
Definition Unspecified : Z := 0.
Definition DeployStatus : Z := 1.
Definition Health : Z := 2.
Definition Alert : Z := 3.
Definition CronRun : Z := 4.
Definition BackupRun : Z := 5.
Definition WebhookReceived : Z := 6.
Definition ResourcePressure : Z := 7.
Definition Operation : Z := 8.
Definition TrustChanged : Z := 9.
Definition Keepalive : Z := 10.
Definition ResyncRequired : Z := 11.
Definition AgentStatus : Z := 12.
Definition ServerBuild : Z := 13.
Definition RestoreVerification : Z := 14.
End EventKind.

Record Scope := {
  sc_project_id : string; sc_service_id : string; sc_deployment_id : string; sc_app_id : string;
  sc_environment : string; sc_environment_id : string
}.

(** [event::Payload].  The messages this file and presence.rs do not look
    into are their encoding. *)
Inductive Payload :=
| PDeploy (encoded : string)
| PHealth (encoded : string)
| PAlert (alert : AlertEvent)
| PCronRun (run : CronRun)
| PBackupRun (run : BackupRun)
| PWebhook (delivery : WebhookDelivery)
| PResourcePressure (encoded : string)
| POperation (operation : Change.Operation)
| PTrustChanged (encoded : string)
| PKeepalive (agent_time : option Timestamp)
| PResyncRequired (reason : string) (kinds : list Z)
| PAgentStatus (encoded : string)
| PServerBuild (build : ServerBuild)
| PRestoreVerification (verification : RestoreVerification).

Record Event := {
  e_resume_token : string; e_seq : Z; e_timestamp : option Timestamp; e_kind : Z; e_scope : option Scope;
  e_payload : option Payload
}.

Record SubscribeRequest := { sr_kinds : list Z; sr_scope : option Scope; sr_resume_token : string }.

(** ** The bus *)

Definition RETAINED_EVENTS : nat := N.to_nat 10000.
Definition LIVE_BUFFER : nat := N.to_nat 4096.

(** [u64] addition of a release build. *)
Definition u64_add (a b : Z) : Z := (a + b) mod 2 ^ 64.

Record Ring := { events : list Event; next_seq : Z }.
Record EventBus := { ring : Ring; boot : string; bus_closed : bool }.

Definition new (boot : string) : EventBus :=
  {| ring := {| events := []; next_seq := 1 |}; boot := boot; bus_closed := false |}.

Definition close (bus : EventBus) : EventBus := {| ring := ring bus; boot := boot bus; bus_closed := true |}.

Definition token_of (boot : string) (seq : Z) : string := boot +:+ "." +:+ dec_string seq.

Definition resume_token (bus : EventBus) : string := token_of (boot bus) (next_seq (ring bus) - 1).

(** The bus after the call and the event every live receiver is sent. *)
Definition publish (kind : Z) (scope : Scope) (payload : Payload) (now : Timestamp) (bus : EventBus)
  : EventBus * Event :=
  let seq := next_seq (ring bus) in
  let event := {| e_resume_token := token_of (boot bus) seq; e_seq := seq; e_timestamp := Some now;
                  e_kind := kind; e_scope := Some scope; e_payload := Some payload |} in
  let kept := if (List.length (events (ring bus)) =? RETAINED_EVENTS)%nat then tail (events (ring bus))
              else events (ring bus) in
  ({| ring := {| events := kept ++ [event]; next_seq := u64_add seq 1 |}; boot := boot bus;
      bus_closed := bus_closed bus |}, event).

(** The sequence number a token of this boot names. *)
Definition token_seq (boot token : string) : option Z :=
  match strip_prefix boot token with
  | Some rest => match strip_prefix "." rest with Some seq => parse_u64 seq | None => None end
  | None => None
  end.

Definition replay (bus : EventBus) (token : string) : option (list Event) :=
  if is_empty token then Some []
  else match token_seq (boot bus) token with
       | None => None
       | Some seq =>
           let oldest := match events (ring bus) with e :: _ => e_seq e | [] => next_seq (ring bus) end in
           if (u64_add seq 1 <? oldest) || (next_seq (ring bus) <=? seq) then None
           else Some (List.filter (fun e => seq <? e_seq e) (events (ring bus)))
       end.

Definition field_ok (f v : string) : bool := is_empty f || String.eqb f v.

Definition matches (request : SubscribeRequest) (event : Event) : bool :=
  let kind_ok := match sr_kinds request with [] => true | kinds => existsb (Z.eqb (e_kind event)) kinds end in
  let scope_ok :=
    match sr_scope request, e_scope event with
    | Some filter, Some scope =>
        field_ok (sc_project_id filter) (sc_project_id scope)
        && field_ok (sc_service_id filter) (sc_service_id scope)
        && field_ok (sc_environment filter) (sc_environment scope)
        && field_ok (sc_deployment_id filter) (sc_deployment_id scope)
    | _, _ => true
    end in
  kind_ok && scope_ok.

Definition resync (reason : string) (now : Timestamp) : Event :=
  {| e_resume_token := ""; e_seq := 0; e_timestamp := Some now; e_kind := EventKind.ResyncRequired;
     e_scope := None; e_payload := Some (PResyncRequired reason []) |}.

Definition keepalive (now : Timestamp) : Event :=
  {| e_resume_token := ""; e_seq := 0; e_timestamp := Some now; e_kind := EventKind.Keepalive;
     e_scope := None; e_payload := Some (PKeepalive (Some now)) |}.

(** ** One stream *)

(** Where the task is: it owes the client a gap notice, or the rest of the
    replay; or it is in its loop; or it has returned. *)
Inductive Phase := Gap | Replaying (rest : list Event) | Live | Returned.

(** [s_outstanding]: sent by the bus and not yet received by the task.
    [s_delivered]: what the client was sent, in order. *)
Record Stream := {
  s_bus : EventBus; s_request : SubscribeRequest; s_phase : Phase; s_outstanding : list Event;
  s_delivered : list Event
}.

Inductive Occurrence :=
| Published (kind : Z) (scope : Scope) (payload : Payload) (now : Timestamp)
| Closed
| Sends (accepted : bool) (now : Timestamp)
| Receives (accepted : bool)
| Lags (accepted : bool) (now : Timestamp)
| TimesOut (accepted : bool) (now : Timestamp)
| Ends.

(** [subscribe]: the replay and the receiver's position are taken under one
    lock. *)
Definition subscribe (bus : EventBus) (request : SubscribeRequest) : Stream :=
  {| s_bus := bus; s_request := request;
     s_phase := match replay bus (sr_resume_token request) with None => Gap | Some es => Replaying es end;
     s_outstanding := []; s_delivered := [] |}.

Definition at_phase (phase : Phase) (outstanding delivered : list Event) (s : Stream) : Stream :=
  {| s_bus := s_bus s; s_request := s_request s; s_phase := phase; s_outstanding := outstanding;
     s_delivered := delivered |}.

(** [tx.send(event).await]: the task returns when the client is gone. *)
Definition send (accepted : bool) (event : Event) (phase : Phase) (outstanding : list Event) (s : Stream) : Stream :=
  if accepted then at_phase phase outstanding (s_delivered s ++ [event]) s
  else at_phase Returned outstanding (s_delivered s) s.

(** What happens next; [None] when it cannot. *)
Definition advance (s : Stream) (o : Occurrence) : option Stream :=
  match o, s_phase s with
  | Published kind scope payload now, _ =>
      let '(bus, event) := publish kind scope payload now (s_bus s) in
      Some {| s_bus := bus; s_request := s_request s; s_phase := s_phase s;
              s_outstanding := s_outstanding s ++ [event]; s_delivered := s_delivered s |}
  | Closed, _ =>
      Some {| s_bus := close (s_bus s); s_request := s_request s; s_phase := s_phase s;
              s_outstanding := s_outstanding s; s_delivered := s_delivered s |}
  | Sends accepted now, Gap => Some (send accepted (resync "resume_gap" now) Live (s_outstanding s) s)
  | Sends accepted now, Replaying [] => Some (at_phase Live (s_outstanding s) (s_delivered s) s)
  | Sends accepted now, Replaying (e :: rest) =>
      Some (if matches (s_request s) e then send accepted e (Replaying rest) (s_outstanding s) s
            else at_phase (Replaying rest) (s_outstanding s) (s_delivered s) s)
  | Receives accepted, Live =>
      match s_outstanding s with
      | e :: rest =>
          if (List.length (s_outstanding s) <=? LIVE_BUFFER)%nat
          then Some (if matches (s_request s) e then send accepted e Live rest s
                     else at_phase Live rest (s_delivered s) s)
          else None
      | [] => None
      end
  | Lags accepted now, Live =>
      let behind := (List.length (s_outstanding s) - LIVE_BUFFER)%nat in
      if (0 <? behind)%nat
      then Some (send accepted (resync "overflow" now) Live (drop behind (s_outstanding s)) s)
      else None
  | TimesOut accepted now, Live => Some (send accepted (keepalive now) Live (s_outstanding s) s)
  | Ends, Live => if bus_closed (s_bus s) then Some (at_phase Returned (s_outstanding s) (s_delivered s) s) else None
  | _, _ => None
  end.

Fixpoint stream_run (s : Stream) (os : list Occurrence) : option Stream :=
  match os with
  | [] => Some s
  | o :: rest => match advance s o with Some s' => stream_run s' rest | None => None end
  end.

(** ** The log *)

Record Publication := { pb_kind : Z; pb_scope : Scope; pb_payload : Payload; pb_now : Timestamp }.

Fixpoint publish_all (ps : list Publication) (bus : EventBus) : EventBus * list Event :=
  match ps with
  | [] => (bus, [])
  | p :: rest =>
      let '(bus, e) := publish (pb_kind p) (pb_scope p) (pb_payload p) (pb_now p) bus in
      let '(bus, es) := publish_all rest bus in (bus, e :: es)
  end.

(** What was published while a stream ran. *)
Definition publications (os : list Occurrence) : list Publication :=
  omap (fun o => match o with
                 | Published kind scope payload now =>
                     Some {| pb_kind := kind; pb_scope := scope; pb_payload := payload; pb_now := now |}
                 | _ => None
                 end) os.

(** The ring holds the last [RETAINED_EVENTS] events of [log], everything
    published since the agent started, numbered from 1. *)
Record logged (bus : EventBus) (log : list Event) : Prop := {
  logged_next : next_seq (ring bus) = lenl log + 1;
  logged_events : events (ring bus) = drop (List.length log - RETAINED_EVENTS) log;
  logged_seq : forall i e, log !! i = Some e -> e_seq e = Z.of_nat i + 1
}.

Lemma logged_new boot : logged (new boot) [].
Proof. split; [done|done|]. intros i e H. by rewrite lookup_nil in H. Qed.

Lemma logged_close bus log : logged bus log -> logged (close bus) log.
Proof. by intros []. Qed.

Lemma tail_drop_1 {A} (l : list A) : drop 1 l = tail l.
Proof. by destruct l. Qed.

Lemma publish_logged kind scope payload now bus log :
  logged bus log -> lenl log + 2 <= u64_max ->
  logged (publish kind scope payload now bus).1 (log ++ [(publish kind scope payload now bus).2]).
Proof.
  intros [Hn He Hs] Hb. unfold publish. cbn [fst snd]. split; cbn [ring events next_seq].
  - rewrite Hn, lenl_app. unfold u64_add, u64_max in *. pose proof (lenl_nonneg log).
    rewrite Z.mod_small by lia. change (lenl [_]) with 1. lia.
  - rewrite He, length_drop, length_app. cbn [List.length].
    destruct (Nat.eqb_spec (List.length log - (List.length log - RETAINED_EVENTS)) RETAINED_EVENTS) as [Hr|Hr].
    + rewrite <- tail_drop_1, drop_drop, drop_app_le; [|unfold RETAINED_EVENTS in *; lia].
      do 2 f_equal. unfold RETAINED_EVENTS in *; lia.
    + assert (0 < RETAINED_EVENTS)%nat by (unfold RETAINED_EVENTS; lia). rewrite drop_app_le by lia.
      do 2 f_equal. lia.
  - intros i e [Hi|[Hi Hl]]%lookup_app_Some; [eauto|].
    apply list_lookup_singleton_Some in Hl as [Hl <-]. cbn [e_seq]. rewrite Hn. unfold lenl. lia.
Qed.

Lemma publish_boot kind scope payload now bus : boot (publish kind scope payload now bus).1 = boot bus.
Proof. done. Qed.

Lemma publish_all_logged ps bus log :
  logged bus log -> lenl log + lenl ps + 1 <= u64_max ->
  logged (publish_all ps bus).1 (log ++ (publish_all ps bus).2) /\ boot (publish_all ps bus).1 = boot bus /\
  List.length (publish_all ps bus).2 = List.length ps.
Proof.
  revert bus log; induction ps as [|p ps IH]; intros bus log Hl Hb; cbn [publish_all].
  - rewrite app_nil_r. done.
  - rewrite lenl_cons in Hb. pose proof (lenl_nonneg ps).
    destruct (publish _ _ _ _ bus) as [bus1 e] eqn:Hp.
    pose proof (publish_logged (pb_kind p) (pb_scope p) (pb_payload p) (pb_now p) bus log Hl ltac:(lia)) as H1.
    pose proof (publish_boot (pb_kind p) (pb_scope p) (pb_payload p) (pb_now p) bus) as Hboot.
    rewrite Hp in H1, Hboot. cbn [fst snd] in *.
    destruct (IH bus1 (log ++ [e]) H1) as (H2 & Hb2 & Hlen).
    { rewrite lenl_app. change (lenl [e]) with 1. lia. }
    destruct (publish_all ps bus1) as [bus2 es]. cbn [fst snd] in *. rewrite <- app_assoc in H2.
    split_and!; [done|congruence|]. cbn [List.length]. lia.
Qed.

Lemma publish_all_app ps qs bus :
  publish_all (ps ++ qs) bus =
  let '(bus1, es) := publish_all ps bus in let '(bus2, es') := publish_all qs bus1 in (bus2, es ++ es').
Proof.
  revert bus; induction ps as [|p ps IH]; intros bus; cbn [publish_all app].
  - by destruct (publish_all qs bus).
  - destruct (publish _ _ _ _ bus) as [bus1 e]. rewrite IH. destruct (publish_all ps bus1) as [bus2 es].
    by destruct (publish_all qs bus2).
Qed.

(** Events do not depend on whether the streams were told to end. *)
Lemma publish_all_close ps bus : (publish_all ps (close bus)).2 = (publish_all ps bus).2.
Proof.
  revert bus; induction ps as [|p ps IH]; intros bus; cbn [publish_all]; [done|].
  unfold publish. cbn [ring boot close bus_closed].
  match goal with |- context [publish_all ps {| ring := ?r; boot := ?b; bus_closed := true |}] =>
    pose proof (IH {| ring := r; boot := b; bus_closed := bus_closed bus |}) as H; unfold close in H;
    cbn [ring boot] in H end.
  destruct (publish_all ps {| ring := _; boot := _; bus_closed := true |}) as [? es1].
  destruct (publish_all ps {| ring := _; boot := _; bus_closed := bus_closed bus |}) as [? es2].
  cbn [snd] in *. congruence.
Qed.

(** ** Tokens *)

Lemma token_seq_token boot n : 0 <= n <= u64_max -> token_seq boot (token_of boot n) = Some n.
Proof.
  intros Hn. unfold token_seq, token_of.
  rewrite (proj2 (strip_prefix_Some boot _ ("." +:+ dec_string n)) eq_refl).
  rewrite (proj2 (strip_prefix_Some "." _ (dec_string n)) eq_refl). by apply parse_u64_dec.
Qed.

Lemma token_not_empty boot n : is_empty (token_of boot n) = false.
Proof. unfold token_of. by destruct boot. Qed.

Lemma filter_all {A} (f : A -> bool) l : Forall (fun x => f x = true) l -> List.filter f l = l.
Proof. induction 1 as [|x l Hx Hl IH]; [done|]. cbn [List.filter]. by rewrite Hx, IH. Qed.

Lemma filter_none {A} (f : A -> bool) l : Forall (fun x => f x = false) l -> List.filter f l = [].
Proof. induction 1 as [|x l Hx Hl IH]; [done|]. cbn [List.filter]. by rewrite Hx. Qed.

(** The events of a ring after the [n]-th. *)
Lemma newer_than log k n :
  (forall i e, log !! i = Some e -> e_seq e = Z.of_nat i + 1) -> (k <= n)%nat ->
  List.filter (fun e => Z.of_nat n <? e_seq e) (drop k log) = drop n log.
Proof.
  intros Hs Hk. rewrite <- (take_drop (n - k) (drop k log)), List.filter_app, drop_drop.
  replace (k + (n - k))%nat with n by lia. rewrite filter_none, filter_all; [done|..].
  - apply Forall_lookup. intros i e Hi. rewrite lookup_drop in Hi. apply Hs in Hi. lia.
  - apply Forall_lookup. intros i e Hi. apply lookup_take_Some in Hi as [Hi Hl]. rewrite lookup_drop in Hi.
    apply Hs in Hi. lia.
Qed.

(** A token of this boot is honoured exactly while everything after it is
    still kept. *)
Lemma replay_token bus log n :
  logged bus log -> lenl log < u64_max -> (n <= List.length log)%nat ->
  replay bus (token_of (boot bus) (Z.of_nat n)) =
  if (List.length log - RETAINED_EVENTS <=? n)%nat then Some (drop n log) else None.
Proof.
  intros [Hn He Hs] Hb Hle. unfold replay, lenl in *. rewrite token_not_empty, token_seq_token, Hn, He by lia.
  unfold u64_add. rewrite Z.mod_small by (unfold u64_max in *; lia).
  set (k := (List.length log - RETAINED_EVENTS)%nat).
  assert (match drop k log with e :: _ => e_seq e | [] => Z.of_nat (List.length log) + 1 end = Z.of_nat k + 1) as Ho.
  { destruct (drop k log) as [|e l] eqn:Hd.
    - apply (f_equal List.length) in Hd. rewrite length_drop in Hd. cbn in Hd.
      unfold k, RETAINED_EVENTS in *. lia.
    - assert (log !! k = Some e) as Hlk.
      { rewrite <- (Nat.add_0_r k), <- lookup_drop, Hd. done. }
      by apply Hs. }
  rewrite Ho. replace (Z.of_nat (List.length log) + 1 <=? Z.of_nat n) with false by lia. rewrite orb_false_r.
  destruct (Nat.leb_spec k n).
  - replace (Z.of_nat n + 1 <? Z.of_nat k + 1) with false by lia. f_equal. by apply newer_than.
  - by replace (Z.of_nat n + 1 <? Z.of_nat k + 1) with true by lia.
Qed.

(** ** What a stream delivers *)

(** Published events are numbered from 1; the task's own notices are 0. *)
Definition sent (l : list Event) : list Event := List.filter (fun e => negb (e_seq e =? 0)) l.
Definition is_resync (e : Event) : bool := (e_seq e =? 0) && (e_kind e =? EventKind.ResyncRequired).
Definition resynced (l : list Event) : bool := existsb is_resync l.

(** What came after the last notice that events were lost. *)
Definition since_resync (l : list Event) : list Event :=
  fold_left (fun acc e => if is_resync e then [] else acc ++ [e]) l [].

Definition pending (s : Stream) : list Event :=
  match s_phase s with Replaying rest => rest | _ => [] end ++ s_outstanding s.

Lemma sent_snoc l e : sent (l ++ [e]) = sent l ++ (if e_seq e =? 0 then [] else [e]).
Proof. unfold sent. rewrite List.filter_app. cbn. by destruct (e_seq e =? 0). Qed.

Lemma since_snoc l e : since_resync (l ++ [e]) = if is_resync e then [] else since_resync l ++ [e].
Proof. unfold since_resync. by rewrite fold_left_app. Qed.

Lemma resynced_snoc l e : resynced (l ++ [e]) = resynced l || is_resync e.
Proof. unfold resynced. rewrite existsb_app. cbn. by rewrite orb_false_r. Qed.

(** The matching events of [log] with positions from [a] up to [b]. *)
Definition window (m : Event -> bool) (log : list Event) (a b : nat) : list Event :=
  List.filter m (take (b - a) (drop a log)).

Section window.
Context (m : Event -> bool).

Lemma window_empty log a : window m log a a = [].
Proof. unfold window. by rewrite Nat.sub_diag. Qed.

Lemma window_snoc log a b e :
  (a <= b)%nat -> log !! b = Some e -> window m log a (S b) = window m log a b ++ (if m e then [e] else []).
Proof.
  intros Hab He. unfold window. rewrite Nat.sub_succ_l by done.
  rewrite (take_S_r _ _ e); [by rewrite List.filter_app|]. rewrite lookup_drop. by replace (a + (b - a))%nat with b by lia.
Qed.

Lemma window_grow log a b e : (b <= List.length log)%nat -> window m (log ++ [e]) a b = window m log a b.
Proof.
  intros Hb. unfold window. destruct (decide (a <= List.length log)%nat) as [Ha|Ha].
  - rewrite drop_app_le, take_app_le by (rewrite ?length_drop; lia). done.
  - by replace (b - a)%nat with 0%nat by lia.
Qed.

Lemma sublist_filter_more l k : sublist l k -> sublist (List.filter m l) (List.filter m k).
Proof.
  induction 1 as [|x l k _ IH|x l k _ IH]; cbn [List.filter]; [done| |]; destruct (m x); try done; by constructor.
Qed.

Lemma window_wider log a b c : (b <= c)%nat -> sublist (window m log a b) (window m log a c).
Proof.
  intros Hbc. unfold window. apply sublist_filter_more. replace (b - a)%nat with ((b - a) `min` (c - a))%nat by lia.
  rewrite <- take_take. apply sublist_take.
Qed.

End window.

(** A request that resumed at position [n] of the log: what the task still
    has to look at is the end of the log from some position on. *)
Definition caught (n : nat) (log : list Event) (m : Event -> bool) (phase : Phase) (rest delivered : list Event)
  : Prop :=
  exists p, (n <= p <= List.length log)%nat /\ rest = drop p log /\
    sublist (sent delivered) (window m log n p) /\
    (phase <> Gap -> phase <> Returned -> exists k, (n <= k <= p)%nat /\
      sent (since_resync delivered) = window m log k p /\ (resynced delivered = false -> k = n)).

Lemma drop_cons_inv {A} (l : list A) p x rest :
  drop p l = x :: rest -> l !! p = Some x /\ rest = drop (S p) l.
Proof.
  intros H. split.
  - rewrite <- (Nat.add_0_r p), <- lookup_drop, H. done.
  - rewrite <- Nat.add_1_r, <- drop_drop, H. done.
Qed.

Section caught.
Context (n : nat) (log : list Event) (m : Event -> bool).
Context (Hseq : forall i e, log !! i = Some e -> e_seq e = Z.of_nat i + 1).

Lemma caught_look phase phase' e rest delivered :
  phase <> Gap -> phase <> Returned -> caught n log m phase (e :: rest) delivered ->
  caught n log m phase' rest (if m e then delivered ++ [e] else delivered).
Proof.
  intros Hg Hr (p & Hp & Hd & Hs & Hk). symmetry in Hd. apply drop_cons_inv in Hd as [He ->].
  destruct (Hk Hg Hr) as (k & Hkp & Hw & Hn). pose proof (lookup_lt_Some _ _ _ He).
  assert (e_seq e =? 0 = false) as Hz by (apply Hseq in He; lia).
  assert (is_resync e = false) as Hre by (unfold is_resync; by rewrite Hz).
  exists (S p). split; [lia|]. split; [done|]. rewrite (window_snoc m log n p e) by (done || lia). split.
  - destruct (m e); [rewrite sent_snoc, Hz|rewrite app_nil_r; done]. by apply sublist_skips_r || by apply sublist_app.
  - intros _ _. exists k. split; [lia|]. rewrite (window_snoc m log k p e), <- Hw by (done || lia).
    destruct (m e); [|by rewrite app_nil_r]. by rewrite since_snoc, resynced_snoc, Hre, sent_snoc, Hz, orb_false_r.
Qed.

Lemma caught_return phase rest delivered j :
  caught n log m phase rest delivered -> caught n log m Returned (drop j rest) delivered.
Proof.
  intros (p & Hp & -> & Hs & _). rewrite drop_drop.
  destruct (decide (p + j <= List.length log)%nat) as [Hj|Hj].
  - exists (p + j)%nat. split_and!; [lia|lia|done| |done]. etrans; [exact Hs|]. apply window_wider. lia.
  - exists (List.length log). split_and!; [lia|lia|rewrite !drop_ge; [done|lia|lia]| |done].
    etrans; [exact Hs|]. apply window_wider. lia.
Qed.

Lemma caught_resync phase phase' rest delivered j reason now :
  (j <= List.length rest)%nat -> caught n log m phase rest delivered ->
  caught n log m phase' (drop j rest) (delivered ++ [resync reason now]).
Proof.
  intros Hj (p & Hp & -> & Hs & _). rewrite length_drop in Hj. rewrite drop_drop.
  exists (p + j)%nat. rewrite sent_snoc, since_snoc, resynced_snoc. cbn [resync e_seq Z.eqb app].
  change (is_resync _) with true. rewrite app_nil_r, orb_true_r. split_and!; [lia|lia|done| |].
  - etrans; [exact Hs|]. apply window_wider. lia.
  - intros _ _. exists (p + j)%nat. rewrite window_empty. split_and!; [lia|lia|done|done].
Qed.

Lemma caught_keepalive rest delivered now :
  caught n log m Live rest delivered -> caught n log m Live rest (delivered ++ [keepalive now]).
Proof.
  intros (p & Hp & Hd & Hs & Hk). exists p. rewrite sent_snoc, since_snoc, resynced_snoc.
  change (is_resync _) with false. rewrite orb_false_r, sent_snoc. cbn [keepalive e_seq Z.eqb].
  rewrite !app_nil_r. done.
Qed.

Lemma caught_phase phase phase' rest delivered :
  phase <> Gap -> phase <> Returned -> caught n log m phase rest delivered -> caught n log m phase' rest delivered.
Proof. intros Hg Hr (p & Hp & Hd & Hs & Hk). exists p. auto. Qed.

Lemma caught_publish phase rest delivered e :
  caught n log m phase rest delivered -> caught n (log ++ [e]) m phase (rest ++ [e]) delivered.
Proof.
  intros (p & Hp & -> & Hs & Hk). exists p. rewrite length_app, window_grow by lia.
  split_and!; [lia|lia|by rewrite drop_app_le by lia|done|]. intros Hg Hr. destruct (Hk Hg Hr) as (k & Hkp & Hw & Hn).
  exists k. rewrite window_grow by lia. done.
Qed.

End caught.

(** The state of a stream and the whole log. *)
Record stream_inv (n : nat) (log : list Event) (s : Stream) : Prop := {
  si_logged : logged (s_bus s) log;
  si_caught : caught n log (matches (s_request s)) (s_phase s) (pending s) (s_delivered s)
}.

(** Steps of the task itself: nothing is published. *)
Lemma advance_task n log s o s' :
  stream_inv n log s -> publications [o] = [] -> advance s o = Some s' -> stream_inv n log s' /\ s_request s' = s_request s.
Proof.
  intros [Hl Hc] Hp. pose proof (logged_seq _ _ Hl) as Hseq. unfold pending in Hc.
  destruct o as [| |ok now|ok|ok now|ok now|]; [done|..]; cbn [advance].
  - intros [= <-]. split; [|done]. split; [by apply logged_close|done].
  - destruct (s_phase s) as [|[|e rest]| |] eqn:Hph; intros [= <-].
    + unfold send. destruct ok; (split; [|done]; split; [done|]).
      * by apply (caught_resync n log _ Gap _ _ _ 0%nat); [lia|].
      * by apply (caught_return n log _ Gap _ _ 0%nat).
    + split; [|done]. split; [done|]. by eapply caught_phase; [..|exact Hc].
    + cbn [app] in Hc. assert (caught n log (matches (s_request s)) (Replaying rest) (rest ++ s_outstanding s)
        (if matches (s_request s) e then s_delivered s ++ [e] else s_delivered s)) as Hc' by
        (eapply caught_look; [done|..|exact Hc]; done).
      destruct (matches (s_request s) e); [unfold send; destruct ok|]; (split; [|done]); (split; [done|]); try exact Hc'.
      apply (caught_return n log _ _ _ _ (S (List.length rest))) in Hc. cbn [drop] in Hc. by rewrite drop_app_length in Hc.
  - destruct (s_phase s) eqn:Hph; try done. destruct (s_outstanding s) as [|e rest] eqn:Ho; [done|].
    destruct (_ <=? _)%nat; [|done]. intros [= <-]. cbn [app] in Hc.
    assert (caught n log (matches (s_request s)) Live rest
        (if matches (s_request s) e then s_delivered s ++ [e] else s_delivered s)) as Hc' by
        (eapply caught_look; [done|..|exact Hc]; done).
    destruct (matches (s_request s) e); [unfold send; destruct ok|]; (split; [|done]); (split; [done|]); try exact Hc'.
    by apply (caught_return n log _ _ _ _ 1%nat) in Hc.
  - destruct (s_phase s) eqn:Hph; try done. destruct (_ <? _)%nat; [|done]. intros [= <-].
    unfold send. destruct ok; (split; [|done]; split; [done|]).
    + eapply caught_resync; [|exact Hc]. cbn [app]. lia.
    + by eapply (caught_return n log _ _ _ _ _ Hc).
  - destruct (s_phase s) eqn:Hph; try done. intros [= <-]. unfold send.
    destruct ok; (split; [|done]; split; [done|]); [by apply caught_keepalive|].
    by apply (caught_return n log _ _ _ _ 0%nat) in Hc.
  - destruct (s_phase s) eqn:Hph; try done. destruct (bus_closed _); [|done]. intros [= <-].
    split; [|done]. split; [done|]. by apply (caught_return n log _ _ _ _ 0%nat) in Hc.
Qed.

Lemma advance_bus s o s' :
  publications [o] = [] -> advance s o = Some s' -> s_bus s' = s_bus s \/ s_bus s' = close (s_bus s).
Proof.
  intros Hp Ha. destruct o; [done|..]; cbn [advance] in Ha; destruct (s_phase s) as [|[|]| |];
    repeat (case_match || simplify_eq); unfold send; try (destruct accepted); auto.
Qed.

Lemma publications_cons o os : publications (o :: os) = publications [o] ++ publications os.
Proof. unfold publications. by destruct o. Qed.

(** A whole run: the log grows by what is published meanwhile. *)
Lemma stream_run_inv n os : forall log s s',
  stream_inv n log s -> lenl log + lenl os + 1 <= u64_max -> stream_run s os = Some s' ->
  stream_inv n (log ++ (publish_all (publications os) (s_bus s)).2) s' /\ s_request s' = s_request s.
Proof.
  induction os as [|o os IH]; intros log s s' Hi Hb Hr; cbn [stream_run] in Hr.
  - injection Hr as <-. cbn. by rewrite app_nil_r.
  - destruct (advance s o) as [s1|] eqn:Ha; [|done]. rewrite lenl_cons in Hb. rewrite publications_cons.
    destruct (publications [o]) as [|q qs] eqn:Hp.
    + destruct (advance_task _ _ _ _ _ Hi Hp Ha) as [Hi1 Hq].
      destruct (IH log s1 s' Hi1 ltac:(lia) Hr) as [IH1 Hq2]. cbn [app]. split; [|congruence].
      destruct (advance_bus _ _ _ Hp Ha) as [Hb1|Hb1]; rewrite Hb1 in IH1; [done|]. by rewrite publish_all_close in IH1.
    + destruct o as [kind scope payload now| | | | | |]; try done. injection Hp as <- <-.
      destruct Hi as [Hl Hc]. pose proof (lenl_nonneg os).
      pose proof (publish_logged kind scope payload now _ _ Hl ltac:(lia)) as Hl1. cbn [advance] in Ha.
      cbn [app publish_all pb_kind pb_scope pb_payload pb_now].
      destruct (publish kind scope payload now (s_bus s)) as [bus e]. injection Ha as <-. cbn [fst snd] in *.
      eapply (IH (log ++ [e])) in Hr; [|split; [done|] |rewrite lenl_app; change (lenl [e]) with 1; lia].
      * cbn [s_bus s_request] in Hr. destruct (publish_all (publications os) bus) as [bus2 es]. cbn [snd] in *.
        by rewrite <- app_assoc in Hr.
      * unfold pending. cbn [s_phase s_outstanding s_request s_delivered]. rewrite app_assoc. by apply caught_publish.
Qed.

(** A subscription that resumes at the [n]-th event starts caught up. *)
Lemma subscribe_inv bus log n request :
  logged bus log -> lenl log < u64_max -> (n <= List.length log)%nat ->
  sr_resume_token request = token_of (boot bus) (Z.of_nat n) ->
  stream_inv n log (subscribe bus request) /\
  s_phase (subscribe bus request) =
    (if (List.length log - RETAINED_EVENTS <=? n)%nat then Replaying (drop n log) else Gap).
Proof.
  intros Hl Hb Hn Ht. unfold subscribe. rewrite Ht, (replay_token _ log) by done.
  destruct (_ <=? n)%nat; cbn [s_phase]; (split; [|done]); (split; [done|]); cbn.
  - exists n. rewrite app_nil_r, window_empty. split_and!; [lia|lia|done|done|].
    intros _ _. exists n. rewrite window_empty. split_and!; [lia|lia|done|done].
  - exists (List.length log). rewrite drop_all. split_and!; [lia|lia|done|apply sublist_nil_l|done].
Qed.

(** ** The contract of a stream *)

(** C34. A client that subscribes with the resume token of a state
    snapshot and filters events with [matches] is replayed exactly what was
    published since the snapshot when the log still keeps it, and is told of
    the gap otherwise.  From then on it is sent matching events only, in the
    order they were published and none twice; and between two notices that
    events were lost it misses none: what it got since the last notice, with
    what is on its way, is every matching event from some position of the log
    on, and from the token itself if no notice was sent. *)
Theorem subscription_exact boot before missed request os s :
  let snapshot := (publish_all before (new boot)).1 in
  let bus := (publish_all missed snapshot).1 in
  let log := (publish_all (missed ++ publications os) snapshot).2 in
  sr_resume_token request = resume_token snapshot ->
  lenl before + lenl missed + lenl os + 1 < u64_max ->
  stream_run (subscribe bus request) os = Some s ->
  s_phase (subscribe bus request) =
    (if (List.length missed <=? RETAINED_EVENTS)%nat then Replaying (publish_all missed snapshot).2 else Gap) /\
  sublist (sent (s_delivered s)) (List.filter (matches request) log) /\
  (s_phase s = Live -> exists lost,
     sent (since_resync (s_delivered s)) ++ List.filter (matches request) (s_outstanding s) =
       List.filter (matches request) (drop lost log) /\
     (resynced (s_delivered s) = false -> lost = 0%nat)).
Proof.
  cbv zeta. intros Ht Hb Hr. pose proof (lenl_nonneg missed). pose proof (lenl_nonneg os).
  destruct (publish_all_logged before (new boot) [] (logged_new boot)) as (H1 & Hb1 & Hn1); [change (lenl []) with 0; lia|].
  destruct (publish_all before (new boot)) as [b1 es1]. cbn [fst snd app] in *.
  destruct (publish_all_logged missed b1 es1 H1) as (H2 & Hb2 & Hn2); [unfold lenl in *; lia|].
  rewrite publish_all_app. destruct (publish_all missed b1) as [b2 es2]. cbn [fst snd] in *.
  destruct (subscribe_inv b2 (es1 ++ es2) (List.length es1) request H2) as [Hi Hph].
  { unfold lenl in *. rewrite length_app. lia. }
  { rewrite length_app. lia. }
  { rewrite Ht, Hb2. unfold resume_token. rewrite (logged_next _ _ H1). f_equal. unfold lenl. lia. }
  rewrite drop_app_length in Hph. split.
  { rewrite Hph, length_app, <- Hn2. destruct (Nat.leb_spec (List.length es2) RETAINED_EVENTS) as [Hle|Hle];
      (destruct (Nat.leb_spec (List.length es1 + List.length es2 - RETAINED_EVENTS) (List.length es1)); [|]);
      try done; lia. }
  eapply stream_run_inv in Hr as [[_ (p & Hp & Hd & Hs & Hk)] Hq]; [|exact Hi|unfold lenl in *; rewrite length_app; lia].
  change (s_bus (subscribe b2 request)) with b2 in *. change (s_request (subscribe b2 request)) with request in Hq.
  destruct (publish_all (publications os) b2) as [b3 es3]. cbn [snd] in *. rewrite Hq in *.
  rewrite <- app_assoc in *. unfold window in *. rewrite length_app in Hp. split.
  - etrans; [exact Hs|]. rewrite drop_app_length. apply sublist_filter_more, sublist_take.
  - intros Hlive. unfold pending in Hd. rewrite Hlive in Hd. cbn [app] in Hd. rewrite Hlive in Hk.
    destruct (Hk ltac:(done) ltac:(done)) as (k & Hkp & Hw & Hz). exists (k - List.length es1)%nat.
    rewrite Hw, Hd, <- List.filter_app. split; [|intros Hrs; specialize (Hz Hrs); lia].
    f_equal. rewrite <- (take_drop (p - k) (drop (k - _) _)). rewrite drop_drop. f_equal.
    + rewrite drop_app_ge by lia. done.
    + rewrite drop_app_ge by lia. f_equal. lia.
Qed.

(** One event before the snapshot, two after it of which the filter drops
    one, and a live one. *)
Definition instant : Timestamp := {| ts_seconds := 1700000000; ts_nanos := 0 |}.
Definition no_scope : Scope :=
  {| sc_project_id := ""; sc_service_id := ""; sc_deployment_id := ""; sc_app_id := ""; sc_environment := "";
     sc_environment_id := "" |}.
Definition trust_change : Publication :=
  {| pb_kind := EventKind.TrustChanged; pb_scope := no_scope; pb_payload := PTrustChanged "a"; pb_now := instant |}.
Definition health_change : Publication :=
  {| pb_kind := EventKind.Health; pb_scope := no_scope; pb_payload := PHealth "b"; pb_now := instant |}.
Definition trust_request : SubscribeRequest :=
  {| sr_kinds := [EventKind.TrustChanged]; sr_scope := None; sr_resume_token := "c0ffee.1" |}.
Definition trust_script : list Occurrence :=
  [Sends true instant; Sends true instant; Sends true instant; TimesOut true instant;
   Published EventKind.TrustChanged no_scope (PTrustChanged "d") instant; Receives true].

Lemma subscription_exact_witness :
  exists s, stream_run (subscribe (publish_all [health_change; trust_change]
              (publish_all [trust_change] (new "c0ffee")).1).1 trust_request) trust_script = Some s /\
    List.map e_seq (sent (s_delivered s)) = [3; 4] /\ s_phase s = Live /\
    exists lost, sent (since_resync (s_delivered s)) ++ List.filter (matches trust_request) (s_outstanding s) =
      List.filter (matches trust_request) (drop lost
        (publish_all ([health_change; trust_change] ++ publications trust_script)
           (publish_all [trust_change] (new "c0ffee")).1).2).
Proof.
  eexists. split; [vm_compute; reflexivity|]. split; [reflexivity|]. split; [reflexivity|].
  edestruct (subscription_exact "c0ffee" [trust_change] [health_change; trust_change] trust_request trust_script)
    as (_ & _ & H); [reflexivity|unfold lenl, u64_max; cbn; lia|vm_compute; reflexivity|].
  destruct (H eq_refl) as (lost & Hl & _). exists lost. exact Hl.
Defined.
