(* ===== verification/Presence.v ===== *)
(** * Engine presence and the away summary

    src/local/presence.rs: the sessions of the engine, whether it is online,
    and what the server did while it was not.  Every operation takes the time
    it read before it took the lock. *)

From S2P Require Import Prelude RustStr Proto Change Events.

(** ** What the summary counts *)

Module AwayEvent.
Inductive t :=
| Operation (id : string) (failed : bool)
| RuleDeploy
| ServerBuildFailed
| WebhookDelivery
| AlertFired
| CronRunFailed
| CronRunMissed
| BackupFailed
| VerificationFailed.

#[global] Instance t_eq_dec : EqDecision t.
Proof. solve_decision. Defined.
End AwayEvent.

Module Presence.

Definition SILENCE_SECONDS : Z := 90.
Definition ENGINE_CLIENT_NAME : string := "permanu-engine".
Definition MAX_TRACKED_OPERATIONS : nat := N.to_nat 10000.

(** [u32] addition of a release build. *)
Definition u32_add (a b : Z) : Z := (a + b) mod 2 ^ 32.

(** The counters of [AwaySummary]; [since] and [until] are the state's. *)
Record Counts := {
  operations : Z; operations_failed : Z; rule_deploys : Z; server_builds_failed : Z; webhook_deliveries : Z;
  alerts_fired : Z; cron_runs_failed : Z; cron_runs_missed : Z; backups_failed : Z; verifications_failed : Z
}.

Definition no_counts : Counts :=
  {| operations := 0; operations_failed := 0; rule_deploys := 0; server_builds_failed := 0;
     webhook_deliveries := 0; alerts_fired := 0; cron_runs_failed := 0; cron_runs_missed := 0;
     backups_failed := 0; verifications_failed := 0 |}.

Record Session := { engine_id : string; last_rpc : Z; subscribes : Z }.

Definition default_session : Session := {| engine_id := ""; last_rpc := 0; subscribes := 0 |}.

Record State := {
  sessions : gmap Z Session; online : bool; last_seen : option Z; state_engine_id : string;
  since : option Z; until : option Z; counts : Counts; tracked : gset string
}.

Definition default_state : State :=
  {| sessions := ∅; online := false; last_seen := None; state_engine_id := ""; since := None; until := None;
     counts := no_counts; tracked := ∅ |}.

Definition session_live (now : Z) (s : Session) : bool :=
  (0 <? subscribes s) || (now - last_rpc s <? SILENCE_SECONDS).

Definition live (st : State) (now : Z) : bool :=
  existsb (fun entry => session_live now (snd entry)) (map_to_list (sessions st)).

Definition offline_period (st : State) : bool :=
  negb (online st) && is_some (since st) && negb (is_some (until st)).

Definition set_sessions (sessions' : gmap Z Session) (st : State) : State :=
  {| sessions := sessions'; online := online st; last_seen := last_seen st; state_engine_id := state_engine_id st;
     since := since st; until := until st; counts := counts st; tracked := tracked st |}.

Definition set_engine_id (id : string) (st : State) : State :=
  {| sessions := sessions st; online := online st; last_seen := last_seen st; state_engine_id := id;
     since := since st; until := until st; counts := counts st; tracked := tracked st |}.

Definition set_last_seen (now : Z) (st : State) : State :=
  {| sessions := sessions st; online := online st; last_seen := Some now; state_engine_id := state_engine_id st;
     since := since st; until := until st; counts := counts st; tracked := tracked st |}.

Definition set_counts (counts' : Counts) (tracked' : gset string) (st : State) : State :=
  {| sessions := sessions st; online := online st; last_seen := last_seen st; state_engine_id := state_engine_id st;
     since := since st; until := until st; counts := counts'; tracked := tracked' |}.

(** The state, and whether presence flipped. *)
Definition settle (st : State) (now : Z) : State * bool :=
  let live := live st now in
  let st := if live then set_last_seen now st else st in
  if Bool.eqb live (online st) then (st, false)
  else if live
  then ({| sessions := sessions st; online := true; last_seen := last_seen st;
           state_engine_id := state_engine_id st; since := since st;
           until := match since st with Some _ => Some now | None => until st end;
           counts := counts st; tracked := tracked st |}, true)
  else ({| sessions := sessions st; online := false; last_seen := last_seen st;
           state_engine_id := state_engine_id st; since := Some now; until := None;
           counts := no_counts; tracked := ∅ |}, true).

(** ** Operations *)

(** An operation leaves the state and tells whether [changed] is notified. *)
Definition hello (conn : Z) (client_name id : string) (now : Z) (st : State) : State * bool :=
  if negb (String.eqb client_name ENGINE_CLIENT_NAME) || is_empty id || (64 <? len id) then (st, false)
  else
    let session := default default_session (sessions st !! conn) in
    let st := set_sessions (<[conn := {| engine_id := id; last_rpc := now; subscribes := subscribes session |}]>
                              (sessions st)) st in
    settle (set_engine_id id st) now.

Definition touch (conn now : Z) (st : State) : State * bool :=
  match sessions st !! conn with
  | None => (st, false)
  | Some s =>
      settle (set_sessions (<[conn := {| engine_id := engine_id s; last_rpc := now; subscribes := subscribes s |}]>
                              (sessions st)) st) now
  end.

Definition with_streams (f : Z -> Z) (conn now : Z) (st : State) : State :=
  match sessions st !! conn with
  | Some s =>
      set_sessions (<[conn := {| engine_id := engine_id s; last_rpc := now; subscribes := f (subscribes s) |}]>
                      (sessions st)) st
  | None => st
  end.

Definition subscribe_opened (conn now : Z) (st : State) : State * bool :=
  settle (with_streams (fun n => u32_add n 1) conn now st) now.

(** [saturating_sub(1)]. *)
Definition subscribe_closed (conn now : Z) (st : State) : State * bool :=
  settle (with_streams (fun n => Z.max 0 (n - 1)) conn now st) now.

Definition closed (conn now : Z) (st : State) : State * bool :=
  match sessions st !! conn with
  | None => (st, false)
  | Some _ => settle (set_sessions (delete conn (sessions st)) st) now
  end.

Definition tick (now : Z) (st : State) : State * bool := settle st now.

Definition count (event : AwayEvent.t) (c : Counts) : Counts :=
  let bump (b : bool) (n : Z) := if b then u32_add n 1 else n in
  let counted (e : AwayEvent.t) := bool_decide (event = e) in
  {| operations := bump (match event with AwayEvent.Operation _ _ => true | _ => false end) (operations c);
     operations_failed := bump (match event with AwayEvent.Operation _ failed => failed | _ => false end)
                            (operations_failed c);
     rule_deploys := bump (counted AwayEvent.RuleDeploy) (rule_deploys c);
     server_builds_failed := bump (counted AwayEvent.ServerBuildFailed) (server_builds_failed c);
     webhook_deliveries := bump (counted AwayEvent.WebhookDelivery) (webhook_deliveries c);
     alerts_fired := bump (counted AwayEvent.AlertFired) (alerts_fired c);
     cron_runs_failed := bump (counted AwayEvent.CronRunFailed) (cron_runs_failed c);
     cron_runs_missed := bump (counted AwayEvent.CronRunMissed) (cron_runs_missed c);
     backups_failed := bump (counted AwayEvent.BackupFailed) (backups_failed c);
     verifications_failed := bump (counted AwayEvent.VerificationFailed) (verifications_failed c) |}.

Definition record (event : AwayEvent.t) (st : State) : State :=
  if negb (offline_period st) then st
  else match event with
       | AwayEvent.Operation id _ =>
           if (MAX_TRACKED_OPERATIONS <=? size (tracked st))%nat then st
           else if decide (id ∈ tracked st) then st
           else set_counts (count event (counts st)) ({[id]} ∪ tracked st) st
       | _ => set_counts (count event (counts st)) (tracked st) st
       end.

Record PresenceView := {
  engine_online : bool; engine_last_seen_at : option Z; view_engine_id : string;
  away : Counts; away_since : option Z; away_until : option Z
}.

Definition view (now : Z) (st : State) : PresenceView * (State * bool) :=
  let '(st, flipped) := settle st now in
  ({| engine_online := online st; engine_last_seen_at := last_seen st; view_engine_id := state_engine_id st;
      away := counts st; away_since := since st; away_until := until st |}, (st, flipped)).

(** What an event of the bus counts as. *)
Definition away_of (event : Event) : option AwayEvent.t :=
  match e_payload event with
  | None => None
  | Some payload =>
      match payload with
      | POperation op =>
          if negb (e_kind event =? EventKind.Operation) then None
          else if existsb (Z.eqb (op_state op)) [OperationState.Succeeded; OperationState.Failed; OperationState.Cancelled;
                                              OperationState.RolledBack]
          then Some (AwayEvent.Operation (op_id op) ((op_state op =? OperationState.Failed) || (op_state op =? OperationState.RolledBack)))
          else None
      | PAlert alert =>
          if (e_kind event =? EventKind.Alert) && (ae_state alert =? AlertState.Firing)
          then Some AwayEvent.AlertFired else None
      | PCronRun run =>
          if negb (e_kind event =? EventKind.CronRun) then None
          else if (cr_status run =? CronRunStatus.Failed) || (cr_status run =? CronRunStatus.TimedOut)
          then Some AwayEvent.CronRunFailed
          else if cr_status run =? CronRunStatus.Missed then Some AwayEvent.CronRunMissed
          else None
      | PBackupRun run =>
          if (e_kind event =? EventKind.BackupRun)
             && ((br_status run =? BackupRunStatus.Failed) || (br_status run =? BackupRunStatus.Missed))
          then Some AwayEvent.BackupFailed else None
      | PRestoreVerification v =>
          if (e_kind event =? EventKind.RestoreVerification) && (rv_status v =? VerificationStatus.Failed)
          then Some AwayEvent.VerificationFailed else None
      | _ => None
      end
  end.

Definition observe (event : Event) (st : State) : State :=
  match away_of event with Some away => record away st | None => st end.

(** ** Histories *)

Inductive Op :=
| Hello (conn : Z) (client_name id : string)
| Touch (conn : Z)
| Opened (conn : Z)
| StreamClosed (conn : Z)
| ConnClosed (conn : Z)
| Tick
| View
| Recorded (event : AwayEvent.t)
| Observed (event : Event).

Definition step (op : Op) (now : Z) (st : State) : State * bool :=
  match op with
  | Hello conn client_name id => hello conn client_name id now st
  | Touch conn => touch conn now st
  | Opened conn => subscribe_opened conn now st
  | StreamClosed conn => subscribe_closed conn now st
  | ConnClosed conn => closed conn now st
  | Tick => tick now st
  | View => snd (view now st)
  | Recorded event => (record event st, false)
  | Observed event => (observe event st, false)
  end.

(** What happened, newest first, each with its time. *)
Definition past : Type := list (Z * Op).

Fixpoint after (p : past) : State :=
  match p with [] => default_state | (now, op) :: p => fst (step op now (after p)) end.

(** ** When the engine is online *)

Definition greets (c : Z) (op : Op) : bool :=
  match op with
  | Hello conn client_name id =>
      (conn =? c) && String.eqb client_name ENGINE_CLIENT_NAME && negb (is_empty id) && (len id <=? 64)
  | _ => false
  end.

Definition hangs_up (c : Z) (op : Op) : bool := match op with ConnClosed conn => conn =? c | _ => false end.
Definition opens (c : Z) (op : Op) : bool := match op with Opened conn => conn =? c | _ => false end.
Definition shuts (c : Z) (op : Op) : bool := match op with StreamClosed conn => conn =? c | _ => false end.
Definition calls (c : Z) (op : Op) : bool := match op with Touch conn => conn =? c | _ => false end.

(** The engine introduced itself on the connection, which is still open. *)
Fixpoint greeted (c : Z) (p : past) : bool :=
  match p with
  | [] => false
  | (_, op) :: p => if hangs_up c op then false else greets c op || greeted c p
  end.

(** The last time anything came in on the connection. *)
Fixpoint last_activity (c : Z) (p : past) : option Z :=
  match p with
  | [] => None
  | (now, op) :: p =>
      if greets c op || calls c op || opens c op || shuts c op then Some now else last_activity c p
  end.

Definition occurs (f : Op -> bool) (p : past) : Z := lenl (List.filter (fun entry => f (snd entry)) p).

(** The [Subscribe] streams of the connection. *)
Definition streams (c : Z) (p : past) : Z := occurs (opens c) p - occurs (shuts c) p.

(** Connection ids are not used again; a stream closes once, after it
    opened; an engine says [Hello] before it subscribes. *)
Definition allowed (p : past) (op : Op) : Prop :=
  match op with
  | Hello c _ _ =>
      greets c op = true -> occurs (hangs_up c) p = 0 /\ (greeted c p = true \/ occurs (opens c) p = 0)
  | Opened c => streams c p < 2 ^ 32 - 1
  | StreamClosed c => 0 < streams c p
  | _ => True
  end.

Fixpoint orderly (p : past) : Prop :=
  match p with [] => True | (_, op) :: p => allowed p op /\ orderly p end.

Lemma allowed_at p op c :
  allowed p op ->
  (greets c op = true -> greeted c p = true \/ occurs (opens c) p = 0) /\
  (shuts c op = true -> 0 < streams c p) /\ (opens c op = true -> streams c p < 2 ^ 32 - 1).
Proof.
  intros Ha. destruct op as [conn| |conn|conn| | | | |]; try (by split_and!).
  - split_and!; try done. intros Hg. assert (conn = c) as ->; [cbn in Hg; lia|]. by apply Ha.
  - split_and!; try done. intros Ho. assert (conn = c) as -> by (cbn in Ho; lia). done.
  - split_and!; try done. intros Ho. assert (conn = c) as -> by (cbn in Ho; lia). done.
Qed.

(** A session of the state is a connection of the history. *)
Definition session_of (c : Z) (p : past) : option Session -> Prop := fun s =>
  match s with
  | Some s => greeted c p = true /\ subscribes s = streams c p /\ last_activity c p = Some (last_rpc s)
  | None => greeted c p = false
  end.

Lemma settle_sessions st now : sessions (settle st now).1 = sessions st.
Proof. unfold settle. destruct (live st now); by destruct (Bool.eqb _ _). Qed.

Lemma settle_online st now : online (settle st now).1 = live st now.
Proof.
  unfold settle. destruct (live st now) eqn:Hl; cbn [online set_last_seen];
    destruct (online st) eqn:He; cbn; congruence.
Qed.

Lemma record_sessions e st : sessions (record e st) = sessions st.
Proof. unfold record. repeat case_match; done. Qed.

Lemma occurs_cons f now op p : occurs f ((now, op) :: p) = occurs f p + (if f op then 1 else 0).
Proof. unfold occurs. cbn [List.filter snd]. destruct (f op); [by rewrite lenl_cons|lia]. Qed.

Lemma occurs_nonneg f p : 0 <= occurs f p.
Proof. apply lenl_nonneg. Qed.

(** Streams never close more often than they open. *)
Lemma streams_nonneg c p : orderly p -> 0 <= streams c p.
Proof.
  unfold streams. induction p as [|[now op] p IH]; [done|]. cbn [orderly]. intros [Ha Ho].
  rewrite !occurs_cons. specialize (IH Ho). destruct (allowed_at _ _ c Ha) as (_ & Hs & _). unfold streams in *.
  destruct (opens c op) eqn:Hop, (shuts c op); lia.
Qed.

(** One connection over one operation. *)
Definition next_session (c : Z) (op : Op) (now : Z) (s : option Session) : option Session :=
  if hangs_up c op then None
  else match op with
       | Hello _ _ id =>
           if greets c op
           then Some {| engine_id := id; last_rpc := now; subscribes := subscribes (default default_session s) |}
           else s
       | _ =>
           (fun s => {| engine_id := engine_id s;
                        last_rpc := if calls c op || opens c op || shuts c op then now else last_rpc s;
                        subscribes := if opens c op then u32_add (subscribes s) 1
                                      else if shuts c op then Z.max 0 (subscribes s - 1) else subscribes s |}) <$> s
       end.

(** One session replaced, looked up at another. *)
Lemma update_session f conn c st :
  sessions (match sessions st !! conn with
            | Some s => set_sessions (<[conn := f s]> (sessions st)) st
            | None => st
            end) !! c = (fun s => if conn =? c then f s else s) <$> sessions st !! c.
Proof.
  destruct (Z.eqb_spec conn c) as [->|Hne].
  - destruct (sessions st !! c) eqn:Hs; cbn [sessions set_sessions]; [by rewrite lookup_insert_eq|by rewrite Hs].
  - destruct (sessions st !! conn); cbn [sessions set_sessions]; rewrite ?lookup_insert_ne by done;
      by destruct (sessions st !! c).
Qed.

Lemma settle_or_not (o : option Session) (f : Session -> State) st now c :
  sessions (match o with Some s => settle (f s) now | None => (st, false) end).1 !! c =
  sessions (match o with Some s => f s | None => st end) !! c.
Proof. destruct o; [by rewrite settle_sessions|done]. Qed.

Lemma step_session c op now st :
  sessions (step op now st).1 !! c = next_session c op now (sessions st !! c).
Proof.
  assert (forall (f : Session -> Session) (s : option Session), (forall x, f x = x) -> s = f <$> s) as Hid.
  { intros f [s|] Hf; cbn; by rewrite ?Hf. }
  unfold next_session. destruct op as [conn name id|conn|conn|conn|conn| | |e|e];
    cbn [step hangs_up greets calls opens shuts orb fst].
  - unfold hello. destruct (String.eqb name ENGINE_CLIENT_NAME), (is_empty id); cbn [negb orb andb];
      rewrite ?andb_false_r; try done.
    rewrite andb_true_r. destruct (Z.ltb_spec 64 (len id)), (Z.leb_spec (len id) 64); try lia;
      rewrite ?andb_false_r; [done|].
    rewrite settle_sessions. cbn [sessions set_engine_id set_sessions].
    destruct (Z.eqb_spec conn c) as [->|Hne]; cbn [andb]; [by rewrite lookup_insert_eq|by rewrite lookup_insert_ne].
  - unfold touch. rewrite settle_or_not, update_session. destruct (conn =? c); by destruct (sessions st !! c) as [[]|].
  - unfold subscribe_opened, with_streams. rewrite settle_sessions, update_session.
    destruct (conn =? c); by destruct (sessions st !! c) as [[]|].
  - unfold subscribe_closed, with_streams. rewrite settle_sessions, update_session.
    destruct (conn =? c); by destruct (sessions st !! c) as [[]|].
  - unfold closed. rewrite (settle_or_not _ (fun _ => set_sessions (delete conn (sessions st)) st)).
    destruct (Z.eqb_spec conn c) as [->|Hne].
    + destruct (sessions st !! c) eqn:Hs; [cbn [sessions set_sessions]; by rewrite lookup_delete_eq|done].
    + destruct (sessions st !! conn); cbn [sessions set_sessions]; rewrite ?lookup_delete_ne by done;
        apply Hid; by intros [].
  - unfold tick. rewrite settle_sessions. apply Hid. by intros [].
  - unfold view. pose proof (settle_sessions st now) as H. destruct (settle st now). cbn [snd fst] in *.
    rewrite H. apply Hid. by intros [].
  - rewrite record_sessions. apply Hid. by intros [].
  - unfold observe. destruct (away_of e); rewrite ?record_sessions; apply Hid; by intros [].
Qed.

Lemma session_of_next c op now p s :
  orderly ((now, op) :: p) -> session_of c p s -> session_of c ((now, op) :: p) (next_session c op now s).
Proof.
  intros [Ha Hp]. destruct (allowed_at _ _ c Ha) as (Hg & Hsh & Hop).
  pose proof (streams_nonneg c p Hp) as Hnn. pose proof (occurs_nonneg (shuts c) p).
  unfold next_session, session_of. cbn [greeted last_activity]. unfold streams in *. rewrite !occurs_cons.
  destruct (hangs_up c op) eqn:Hh; [by intros _|]. destruct op; cbn [greets calls opens shuts hangs_up orb] in *.
  all: try (destruct s as [s|]; cbn [fmap option_fmap option_map engine_id last_rpc subscribes]; [|done]; intros (H1 & H2 & H3)).
  all: try (rewrite H1, ?Z.add_0_r; by split_and!).
  - destruct (_ && _) eqn:Hgr; cbn [orb]; rewrite !Z.add_0_r.
    + intros Hs. cbn [last_rpc subscribes]. split_and!; [done| |done]. specialize (Hg eq_refl).
      destruct s as [s|]; [by destruct Hs as (_ & Hs & _)|]. destruct Hg as [Hg|Hg]; [congruence|].
      cbn. lia.
    + by destruct s.
  - rewrite H1, !Z.add_0_r. destruct (conn =? c); by split_and!.
  - rewrite H1. destruct (conn =? c); [|by rewrite !Z.add_0_r]. split_and!; [done| |done].
    specialize (Hop eq_refl). unfold u32_add. rewrite Z.mod_small; lia.
  - rewrite H1. destruct (conn =? c); [|by rewrite !Z.add_0_r]. split_and!; [done| |done].
    specialize (Hsh eq_refl). lia.
Qed.

Lemma after_session c p : orderly p -> session_of c p (sessions (after p) !! c).
Proof.
  induction p as [|[now op] p IH]; [done|]. intros Ho. cbn [after]. rewrite step_session.
  apply session_of_next; [done|]. apply IH, Ho.
Qed.

Lemma live_spec st now :
  live st now = true <-> exists c s, sessions st !! c = Some s /\ session_live now s = true.
Proof.
  unfold live. rewrite existsb_exists. split.
  - intros ([c s] & Hin & Hl). exists c, s. split; [|done]. by apply elem_of_map_to_list, list_elem_of_In.
  - intros (c & s & Hs & Hl). exists (c, s). split; [|done]. by apply list_elem_of_In, elem_of_map_to_list.
Qed.

(** Whatever the connections did before, as long as ids are not reused,
    streams close once and an engine introduces itself before it subscribes:
    the status reported at [now] says the engine is online exactly when some
    connection on which it introduced itself is still open and either has a
    [Subscribe] stream open or had traffic in the last 90 seconds. *)
Theorem engine_online_exact p now :
  orderly p ->
  engine_online (view now (after p)).1 = true <->
  exists c, greeted c p = true /\
    (0 < streams c p \/ exists t, last_activity c p = Some t /\ now - t < SILENCE_SECONDS).
Proof.
  intros Ho. unfold view. pose proof (settle_online (after p) now) as Hs. destruct (settle (after p) now) as [st1 f].
  cbn [fst engine_online] in *. rewrite Hs, live_spec. unfold session_live. split.
  - intros (c & s & Hc & Hl). pose proof (after_session c p Ho) as Hsp. rewrite Hc in Hsp.
    destruct Hsp as (Hg & Hn & Ha). exists c. split; [done|]. apply orb_true_iff in Hl as [Hl|Hl]; [left; lia|].
    right. exists (last_rpc s). split; [done|lia].
  - intros (c & Hg & Hl). pose proof (after_session c p Ho) as Hsp.
    destruct (sessions (after p) !! c) as [s|] eqn:Hc; [|cbn in Hsp; congruence].
    destruct Hsp as (_ & Hn & Ha). exists c, s. split; [done|]. apply orb_true_iff.
    destruct Hl as [Hl|(t & Ht & Hl)]; [left; lia|]. right. rewrite Ha in Ht. injection Ht as ->. lia.
Qed.

(** One session opens a stream, another client opens one too, the session
    hangs up. *)
Definition short_past : past :=
  [(1060, Opened 2); (1050, Opened 1); (1000, Hello 1 ENGINE_CLIENT_NAME "e-1"); (990, Hello 2 "permanu-cli" "e-1")].

Lemma engine_online_exact_witness :
  orderly short_past /\ engine_online (view 9000 (after short_past)).1 = true /\
  greeted 1 short_past = true /\ 0 < streams 1 short_past.
Proof.
  assert (orderly short_past) as Ho by (cbn [orderly short_past allowed]; split_and!; try done; vm_compute; auto).
  split; [exact Ho|]. split; [|by vm_compute].
  apply (engine_online_exact short_past 9000 Ho). exists 1. split; [reflexivity|]. left. vm_compute. reflexivity.
Defined.

(** The protocol says a client calls [Hello] first, and presence relies on
    it: a stream opened before the [Hello] is not counted but its end is.
    Here the second stream of the connection stays open, and yet the engine
    is reported offline after 90 seconds without an RPC. *)
Definition early_subscribe : past :=
  [(1003, StreamClosed 1); (1002, Opened 1); (1001, Hello 1 ENGINE_CLIENT_NAME "e-1"); (1000, Opened 1)].

Theorem early_subscribe_miscounted :
  streams 1 early_subscribe = 1 /\ engine_online (view 1093 (after early_subscribe)).1 = false.
Proof. by vm_compute. Qed.

(** ** What the summary says *)

(** What is told of a history: presence flips and the events offered to the
    counters. *)
Inductive Label := WentOnline (at_ : Z) | WentOffline (at_ : Z) | Saw (event : AwayEvent.t).

Definition offered (op : Op) : list Label :=
  match op with
  | Recorded e => [Saw e]
  | Observed event => match away_of event with Some e => [Saw e] | None => [] end
  | _ => []
  end.

Definition told (op : Op) (now : Z) (st : State) : list Label :=
  let '(st', flipped) := step op now st in
  offered op ++ (if flipped then [if online st' then WentOnline now else WentOffline now] else []).

Fixpoint labels (p : past) : list Label :=
  match p with [] => [] | (now, op) :: p => labels p ++ told op now (after p) end.

(** The most recent offline period: from when, until when, and what was
    offered during it. *)
Record Period := { pd_since : Z; pd_until : option Z; pd_events : list AwayEvent.t }.

Definition note (period : option Period) (l : Label) : option Period :=
  match l, period with
  | WentOffline t, _ => Some {| pd_since := t; pd_until := None; pd_events := [] |}
  | WentOnline t, Some {| pd_since := s; pd_until := None; pd_events := es |} =>
      Some {| pd_since := s; pd_until := Some t; pd_events := es |}
  | Saw e, Some {| pd_since := s; pd_until := None; pd_events := es |} =>
      Some {| pd_since := s; pd_until := None; pd_events := es ++ [e] |}
  | _, period => period
  end.

Definition last_period (ls : list Label) : option Period := fold_left note ls None.

(** The plain counters. *)
Definition counters : list ((Counts -> Z) * AwayEvent.t) :=
  [(rule_deploys, AwayEvent.RuleDeploy); (server_builds_failed, AwayEvent.ServerBuildFailed);
   (webhook_deliveries, AwayEvent.WebhookDelivery); (alerts_fired, AwayEvent.AlertFired);
   (cron_runs_failed, AwayEvent.CronRunFailed); (cron_runs_missed, AwayEvent.CronRunMissed);
   (backups_failed, AwayEvent.BackupFailed); (verifications_failed, AwayEvent.VerificationFailed)].

Definition times (e : AwayEvent.t) (es : list AwayEvent.t) : Z :=
  lenl (List.filter (fun x => bool_decide (x = e)) es).

Definition operation_ids (es : list AwayEvent.t) : gset string :=
  list_to_set (omap (fun e => match e with AwayEvent.Operation id _ => Some id | _ => None end) es).

Definition reports (id : string) (e : AwayEvent.t) : bool :=
  match e with AwayEvent.Operation id' _ => String.eqb id' id | _ => false end.

(** Whether the first report of the operation said it failed. *)
Definition first_failed (id : string) (es : list AwayEvent.t) : bool :=
  match List.find (reports id) es with Some (AwayEvent.Operation _ failed) => failed | _ => false end.

Definition failures (es : list AwayEvent.t) (ids : gset string) : gset string :=
  filter (fun id => first_failed id es = true) ids.

(** The counters count [es]; [ids] are the operations counted. *)
Record tallied (es : list AwayEvent.t) (c : Counts) (ids : gset string) : Prop := {
  ta_ids : ids ⊆ operation_ids es;
  ta_all : (size ids < MAX_TRACKED_OPERATIONS)%nat -> ids = operation_ids es;
  ta_bound : (size ids <= MAX_TRACKED_OPERATIONS)%nat;
  ta_operations : operations c = Z.of_nat (size ids);
  ta_failed : operations_failed c = Z.of_nat (size (failures es ids));
  ta_counters : Forall (fun '(f, e) => f c = times e es mod 2 ^ 32) counters
}.

Lemma tallied_nil : tallied [] no_counts ∅.
Proof.
  split; [done|done|rewrite size_empty; lia|done|by vm_compute|by repeat constructor].
Qed.

Lemma tally_times_snoc e es x : times e (es ++ [x]) = times e es + (if bool_decide (x = e) then 1 else 0).
Proof.
  unfold times. rewrite List.filter_app, lenl_app. cbn [List.filter]. by destruct (bool_decide (x = e)).
Qed.

Lemma u32_add_times n : u32_add (n mod 2 ^ 32) 1 = (n + 1) mod 2 ^ 32.
Proof. unfold u32_add. by rewrite Zplus_mod_idemp_l. Qed.

Lemma counters_snoc es c x :
  Forall (fun '(f, e) => f c = times e es mod 2 ^ 32) counters ->
  Forall (fun '(f, e) => f (count x c) = times e (es ++ [x]) mod 2 ^ 32) counters.
Proof.
  unfold counters. rewrite !Forall_cons, Forall_nil. intros H. decompose [and] H.
  split_and!; try done; rewrite tally_times_snoc; cbn [count rule_deploys server_builds_failed webhook_deliveries
    alerts_fired cron_runs_failed cron_runs_missed backups_failed verifications_failed];
    (case_bool_decide; [rewrite <- u32_add_times; congruence|by rewrite Z.add_0_r]).
Qed.

Lemma operation_ids_snoc es x :
  operation_ids (es ++ [x]) = operation_ids es ∪ match x with AwayEvent.Operation id _ => {[id]} | _ => ∅ end.
Proof.
  unfold operation_ids. rewrite omap_app, list_to_set_app_L. destruct x; cbn; by rewrite ?union_empty_r_L.
Qed.

Lemma find_reports id es x :
  List.find (reports id) (es ++ [x]) =
  match List.find (reports id) es with Some e => Some e | None => if reports id x then Some x else None end.
Proof. induction es as [|e es IH]; cbn; [done|]. by destruct (reports id e). Qed.

Lemma reported id es : id ∈ operation_ids es <-> exists e, List.find (reports id) es = Some e.
Proof.
  unfold operation_ids. rewrite elem_of_list_to_set, list_elem_of_omap. split.
  - intros (e & He & Hid). destruct (find (reports id) es) eqn:Hf; [eauto|].
    apply list_elem_of_In in He. eapply find_none in Hf; [|exact He]. destruct e; simplify_eq. cbn in Hf.
    by rewrite String.eqb_refl in Hf.
  - intros (e & He). apply find_some in He as [Hin He]. exists e. split; [by apply list_elem_of_In|].
    destruct e; try done. cbn in He. by apply String.eqb_eq in He as ->.
Qed.

Lemma first_failed_old id es x : id ∈ operation_ids es -> first_failed id (es ++ [x]) = first_failed id es.
Proof. intros [e He]%reported. unfold first_failed. by rewrite find_reports, He. Qed.

Lemma first_failed_new id es failed :
  id ∉ operation_ids es -> first_failed id (es ++ [AwayEvent.Operation id failed]) = failed.
Proof.
  intros Hn. unfold first_failed. rewrite find_reports. destruct (find (reports id) es) eqn:Hf.
  - destruct Hn. apply reported. eauto.
  - cbn. by rewrite String.eqb_refl.
Qed.

Lemma failures_old es x ids : ids ⊆ operation_ids es -> failures (es ++ [x]) ids = failures es ids.
Proof.
  intros Hs. unfold failures. apply set_eq. intros id. rewrite !elem_of_filter. split; intros [Hf Hi]; (split; [|done]);
    by rewrite first_failed_old in * by set_solver.
Qed.

Lemma failures_new es id failed ids :
  ids ⊆ operation_ids es -> id ∉ operation_ids es ->
  size (failures (es ++ [AwayEvent.Operation id failed]) ({[id]} ∪ ids)) =
  ((if failed then 1 else 0) + size (failures es ids))%nat.
Proof.
  intros Hs Hn. rewrite <- (failures_old es (AwayEvent.Operation id failed) ids Hs). unfold failures.
  set (es' := es ++ [AwayEvent.Operation id failed]).
  assert (first_failed id es' = failed) as Hnew by (by apply first_failed_new). destruct failed.
  - assert (filter (fun i => first_failed i es' = true) ({[id]} ∪ ids) =
            {[id]} ∪ filter (fun i => first_failed i es' = true) ids) as ->.
    { apply set_eq. intros i. rewrite elem_of_union, !elem_of_filter, elem_of_union, !elem_of_singleton. naive_solver. }
    rewrite size_union; [by rewrite size_singleton|].
    apply disjoint_singleton_l. rewrite elem_of_filter. intros [_ Hin]. set_solver.
  - rewrite Nat.add_0_l. f_equal. apply set_eq. intros i. rewrite !elem_of_filter, elem_of_union, !elem_of_singleton.
    split; [|naive_solver]. intros [Hf [->|]]; [congruence|done].
Qed.

(** An operation that is not counted. *)
Lemma tallied_skip es c ids id failed :
  tallied es c ids -> (MAX_TRACKED_OPERATIONS <= size ids)%nat \/ id ∈ ids ->
  tallied (es ++ [AwayEvent.Operation id failed]) c ids.
Proof.
  intros [Hi Ha Hb Ho Hf Hc] Hskip. split; try done.
  - rewrite operation_ids_snoc. set_solver.
  - intros Hs. rewrite operation_ids_snoc, <- Ha by done. destruct Hskip; [lia|]. set_solver.
  - rewrite Hf. f_equal. by rewrite <- (failures_old es (AwayEvent.Operation id failed)).
  - apply (counters_snoc es c (AwayEvent.Operation id failed)) in Hc. unfold counters in *.
    rewrite !Forall_cons, !Forall_nil in *. exact Hc.
Qed.

(** One event during an offline period. *)
Lemma tallied_snoc es st x :
  offline_period st = true -> tallied es (counts st) (tracked st) ->
  tallied (es ++ [x]) (counts (record x st)) (tracked (record x st)).
Proof.
  intros Hoff Ht. pose proof Ht as [Hi Ha Hb Ho Hf Hc]. unfold record. rewrite Hoff. cbn [negb].
  pose proof (counters_snoc es (counts st) x Hc) as Hc'.
  destruct x as [id failed| | | | | | | |].
  2-9: cbn [counts tracked set_counts]; split; rewrite ?operation_ids_snoc, ?union_empty_r_L; try done;
    cbn [count operations operations_failed bool_decide]; rewrite failures_old by done; exact Hf.
  destruct (Nat.leb_spec MAX_TRACKED_OPERATIONS (size (tracked st))) as [Hm|Hm]; [apply tallied_skip; auto|].
  case_decide as Hin; [apply tallied_skip; auto|]. specialize (Ha Hm). rewrite Ha in *.
  assert (Z.of_nat (size (operation_ids es)) < 2 ^ 31) as Hsm by (unfold MAX_TRACKED_OPERATIONS in Hm; lia).
  assert (size (failures es (operation_ids es)) <= size (operation_ids es))%nat as Hle.
  { apply subseteq_size. unfold failures. intros i. rewrite elem_of_filter. tauto. }
  assert (size ({[id]} ∪ operation_ids es) = S (size (operation_ids es))) as Hsz.
  { rewrite size_union, size_singleton by set_solver. done. }
  cbn [counts tracked set_counts]. split; rewrite ?operation_ids_snoc; [set_solver|set_solver|lia| | |exact Hc'].
  - cbn [count operations]. rewrite Ho, Hsz. unfold u32_add. rewrite Z.mod_small; lia.
  - rewrite failures_new by done. cbn [count operations_failed]. rewrite Hf.
    destruct failed; [unfold u32_add; rewrite Z.mod_small; lia|done].
Qed.

(** The state says what the last period says. *)
Definition describes (period : option Period) (st : State) : Prop :=
  match period with
  | None => since st = None /\ until st = None /\ counts st = no_counts
  | Some p =>
      since st = Some (pd_since p) /\ until st = pd_until p /\ tallied (pd_events p) (counts st) (tracked st) /\
      online st = is_some (pd_until p)
  end.

Lemma describes_settle period st now :
  describes period st ->
  describes (fold_left note (if (settle st now).2 then [if online (settle st now).1 then WentOnline now else WentOffline now]
                             else []) period) (settle st now).1.
Proof.
  intros Hd. unfold settle. destruct (live st now), (online st) eqn:Ho; cbn [Bool.eqb online set_last_seen];
    rewrite ?Ho; cbn [Bool.eqb fst snd fold_left note online].
  - destruct period; cbn in *; by rewrite ?Ho in *.
  - destruct period as [[s [u|] es]|]; cbn in *; destruct Hd as (H1 & H2 & H3); rewrite ?Ho, ?H1 in *; try done.
    + by destruct H3.
    + by destruct H3.
  - cbn. split_and!; [done|done|apply tallied_nil|done].
  - done.
Qed.

(** Operations on sessions leave the summary alone until they settle. *)
Lemma describes_sessions period st st' :
  since st' = since st -> until st' = until st -> counts st' = counts st -> tracked st' = tracked st ->
  online st' = online st -> describes period st -> describes period st'.
Proof. intros H1 H2 H3 H4 H5. unfold describes. by rewrite H1, H2, H3, H4, H5. Qed.

Lemma describes_record period st e :
  describes period st -> describes (note period (Saw e)) (record e st).
Proof.
  intros Hd. destruct period as [[s u es]|].
  - destruct Hd as (H1 & H2 & H3 & H4). cbn in *. destruct u as [u|].
    + unfold record, offline_period. rewrite H4. cbn. done.
    + assert (offline_period st = true) as Ho by (unfold offline_period; by rewrite H1, H2, H4).
      cbn. split_and!; [..|by apply tallied_snoc|]; unfold record; rewrite Ho; repeat case_match; done.
  - destruct Hd as (H1 & H2 & H3). unfold record, offline_period. rewrite H1, andb_false_r. cbn. done.
Qed.

Lemma describes_step period st op now :
  describes period st -> describes (fold_left note (told op now st) period) (step op now st).1.
Proof.
  assert (forall st', describes period st' ->
    describes (fold_left note (let '(st2, flipped) := settle st' now in
      if flipped then [if online st2 then WentOnline now else WentOffline now] else []) period) (settle st' now).1) as Hset.
  { intros st' Hd. pose proof (describes_settle period st' now Hd) as H. by destruct (settle st' now). }
  intros Hd. unfold told. destruct op as [conn name id|conn|conn|conn|conn| | |e|e]; cbn [step offered app].
  - unfold hello. destruct (_ || _ || _); [done|]. apply Hset. by eapply describes_sessions; [..|exact Hd].
  - unfold touch. destruct (sessions st !! conn); [|done]. apply Hset. by eapply describes_sessions; [..|exact Hd].
  - apply Hset. unfold with_streams. destruct (sessions st !! conn); [|done]. by eapply describes_sessions; [..|exact Hd].
  - apply Hset. unfold with_streams. destruct (sessions st !! conn); [|done]. by eapply describes_sessions; [..|exact Hd].
  - unfold closed. destruct (sessions st !! conn); [|done]. apply Hset. by eapply describes_sessions; [..|exact Hd].
  - by apply Hset.
  - unfold view. specialize (Hset st Hd). by destruct (settle st now).
  - by apply describes_record.
  - unfold observe. destruct (away_of e); [by apply describes_record|done].
Qed.

(** C35. Over any history of connections, ticks, status reads and events, the
    away summary is that of the most recent offline period: it starts when
    the engine went offline, ends when it came back and is open while it is
    away; each plain counter is the number of such events offered during
    that period, modulo 2^32; the operations counted are distinct ones, all
    of those that finished while fewer than 10,000 were counted, and the
    failed ones are those whose first report said so.  Before the first
    offline period everything is zero and unset. *)
Theorem away_summary_exact p :
  match last_period (labels p) with
  | None => since (after p) = None /\ until (after p) = None /\ counts (after p) = no_counts
  | Some period =>
      since (after p) = Some (pd_since period) /\ until (after p) = pd_until period /\
      tallied (pd_events period) (counts (after p)) (tracked (after p)) /\
      online (after p) = is_some (pd_until period)
  end.
Proof.
  change (describes (last_period (labels p)) (after p)). induction p as [|[now op] p IH]; [done|].
  cbn [labels after]. unfold last_period in *. rewrite fold_left_app. by apply describes_step.
Qed.

End Presence.
