(* ===== verification/Hooks.v ===== *)
(** * The webhook path: state, records and checks

    src/local/hooks/mod.rs.  [Hook] is the state the listener, the pipeline
    and the RPCs share besides the change core: the budgets, the counters,
    the build queue, the two diagnose flags and the operational store.  One
    task sees a [HookWorld]: the change core's world, this state and, in order,
    what it published, asked of the runner, claimed and submitted.  At every await other tasks
    change both the core and the hook state ([others], [hook_others]). *)

From S2P Require Budget.
From S2P Require Import Prelude RustStr BTree PlanCode Errors Json Jcs Calendar Text Crypto.
From S2P Require Import Trust Verify Store DefinitionStore AdmissionStore AlertRules Reconcile.
From S2P Require Import Queries Proto OpsStore Effects Runner Exec Change Presence.


Definition MAX_BODY_BYTES : Z := 1024 * 1024.
Definition PENDING_TTL_SECONDS : Z := 7 * 86400.
Definition STALE_SECONDS : Z := 900.
Definition MAX_QUEUED_BUILDS : Z := 32.

(** [pts]: a time stamp without nanos. *)
Definition pts (seconds : Z) : Z := seconds.

Record Counters := {
  ct_duplicates : list Z; ct_unknown_project : Z; ct_oversize : Z; ct_rate_limited : Z
}.

Record Hook := {
  h_pre_auth : Budget.Budget; h_deploys : Budget.Budget; h_counters : Counters; h_ops : Ops;
  h_waiting : Z; h_buildkit_ok : bool; h_account_ids_migrate : bool
}.

Definition new_hook (ops : Ops) : Hook :=
  {| h_pre_auth := Budget.pre_auth; h_deploys := Budget.deploy;
     h_counters := {| ct_duplicates := []; ct_unknown_project := 0; ct_oversize := 0; ct_rate_limited := 0 |};
     h_ops := ops; h_waiting := 0; h_buildkit_ok := true; h_account_ids_migrate := false |}.

Definition hook_pre_auth (h : Hook) (x : Budget.Budget) : Hook :=
  {| h_pre_auth := x; h_deploys := h_deploys h; h_counters := h_counters h; h_ops := h_ops h;
     h_waiting := h_waiting h; h_buildkit_ok := h_buildkit_ok h; h_account_ids_migrate := h_account_ids_migrate h |}.
Definition hook_deploys (h : Hook) (x : Budget.Budget) : Hook :=
  {| h_pre_auth := h_pre_auth h; h_deploys := x; h_counters := h_counters h; h_ops := h_ops h;
     h_waiting := h_waiting h; h_buildkit_ok := h_buildkit_ok h; h_account_ids_migrate := h_account_ids_migrate h |}.
Definition hook_counters (h : Hook) (x : Counters) : Hook :=
  {| h_pre_auth := h_pre_auth h; h_deploys := h_deploys h; h_counters := x; h_ops := h_ops h;
     h_waiting := h_waiting h; h_buildkit_ok := h_buildkit_ok h; h_account_ids_migrate := h_account_ids_migrate h |}.
Definition hook_ops (h : Hook) (x : Ops) : Hook :=
  {| h_pre_auth := h_pre_auth h; h_deploys := h_deploys h; h_counters := h_counters h; h_ops := x;
     h_waiting := h_waiting h; h_buildkit_ok := h_buildkit_ok h; h_account_ids_migrate := h_account_ids_migrate h |}.
Definition hook_waiting (h : Hook) (x : Z) : Hook :=
  {| h_pre_auth := h_pre_auth h; h_deploys := h_deploys h; h_counters := h_counters h; h_ops := h_ops h;
     h_waiting := x; h_buildkit_ok := h_buildkit_ok h; h_account_ids_migrate := h_account_ids_migrate h |}.
Definition hook_buildkit_ok (h : Hook) (x : bool) : Hook :=
  {| h_pre_auth := h_pre_auth h; h_deploys := h_deploys h; h_counters := h_counters h; h_ops := h_ops h;
     h_waiting := h_waiting h; h_buildkit_ok := x; h_account_ids_migrate := h_account_ids_migrate h |}.
Definition hook_account_ids (h : Hook) (x : bool) : Hook :=
  {| h_pre_auth := h_pre_auth h; h_deploys := h_deploys h; h_counters := h_counters h; h_ops := h_ops h;
     h_waiting := h_waiting h; h_buildkit_ok := h_buildkit_ok h; h_account_ids_migrate := x |}.

Definition count_duplicate (now : Z) (c : Counters) : Counters :=
  {| ct_duplicates := ct_duplicates c ++ [now]; ct_unknown_project := ct_unknown_project c;
     ct_oversize := ct_oversize c; ct_rate_limited := ct_rate_limited c |}.
Definition count_unknown (c : Counters) : Counters :=
  {| ct_duplicates := ct_duplicates c; ct_unknown_project := ct_unknown_project c + 1;
     ct_oversize := ct_oversize c; ct_rate_limited := ct_rate_limited c |}.
Definition count_large (c : Counters) : Counters :=
  {| ct_duplicates := ct_duplicates c; ct_unknown_project := ct_unknown_project c;
     ct_oversize := ct_oversize c + 1; ct_rate_limited := ct_rate_limited c |}.
Definition count_limited (c : Counters) : Counters :=
  {| ct_duplicates := ct_duplicates c; ct_unknown_project := ct_unknown_project c;
     ct_oversize := ct_oversize c; ct_rate_limited := ct_rate_limited c + 1 |}.

(** ** The environment of a hook task *)

Class HookEnvironment : Type := {
  hook_others : nat -> Hook -> Hook;
  (** [probe.server_facts().arch]. *)
  arch : nat -> string;
  (** The milliseconds of the system clock, for [new_id]. *)
  subsec_millis : nat -> Z;
  (** The consumed log's lines as JSON; [None] when the reading task did not
      end. *)
  log_values : nat -> option (list Value);
  (** The text of a store error. *)
  error_text : nat -> string;
  (** The CSPRNG's bytes for the ids of a rule plan, and for its nonce
      ([None] when the CSPRNG fails). *)
  plan_random : nat -> nat -> list ascii;
  nonce_bytes : nat -> option (list ascii);
  (** The build slot was closed. *)
  slot_closed : nat -> bool;
  (** The poll of a rule plan's end reached its deadline. *)
  deadline_passed : nat -> bool;
  alerts_set : bool
}.

Inductive BuildLevel := BInfo | BError.

(** [LogIdentity] of a build. *)
Record BuildIdentity := {
  bi_project_id : string; bi_environment : string; bi_environment_id : string; bi_service_id : string;
  bi_run_id : string
}.

(** [BuiltinEvent] of a failed build. *)
Record BuildAlert := {
  ba_project_id : string; ba_environment_id : string; ba_service_id : string; ba_subject_id : string;
  ba_summary : string
}.

Inductive HookOutput :=
| WebhookReceived (delivery : WebhookDelivery)
| ServerBuildChanged (build : ServerBuild)
| Away (event : AwayEvent.t)
| Enqueued (delivery_id : string)
| Rematched (rule_id : string) (delivery_ids : list string)
| BuildLog (level : BuildLevel) (message : string) (identity : BuildIdentity)
| Alerted (alert : BuildAlert)
| AskedRunner (request : Value) (answer : RunnerFailure + Value)
| Claimed (delivery_id status : string)
| Submitted (submission : Submission).

(** [hw_out] is what the task published and asked, in order. *)
Record HookWorld := { hw_world : World; hw_hook : Hook; hw_out : list HookOutput }.

Definition hact (A : Type) : Type := st HookWorld A.

Definition set_world (x : World) (w : HookWorld) : HookWorld :=
  {| hw_world := x; hw_hook := hw_hook w; hw_out := hw_out w |}.
Definition set_hook (x : Hook) (w : HookWorld) : HookWorld :=
  {| hw_world := hw_world w; hw_hook := x; hw_out := hw_out w |}.

Definition hook_db (w : HookWorld) : Db := c_db (x_core (hw_world w)).

(** An operation of the change core. *)
Definition lift {A} (m : act A) : hact A := fun w => let '(a, x) := m (hw_world w) in (a, set_world x w).

Definition publish (o : HookOutput) : hact unit :=
  fun w => (tt, {| hw_world := hw_world w; hw_hook := hw_hook w; hw_out := hw_out w ++ [o] |}).

Definition hook_gets {A} (f : Hook -> A) : hact A := asks (fun w => f (hw_hook w)).
Definition hook_modify (f : Hook -> Hook) : hact unit := fun w => (tt, set_hook (f (hw_hook w)) w).

Section hooks.
Context {CR : Crypto} {JR : JsonReader} {RC : RegexCrate} {EW : EventWire} {EN : Environment}.
Context {PB : Prost} {ST : SqliteTime} {HE : HookEnvironment}.

Definition hook_now : hact Z := lift now_.

Definition hook_await : hact unit :=
  do! lift await_ in
  let! f := lift (reading hook_others) in
  hook_modify f.

(** [runner.exchange(..).await]. *)
Definition hook_exchange (request : Value) : hact (RunnerFailure + Value) :=
  do! hook_await in
  let! answer := lift (reading (fun n => exchange n request)) in
  do! publish (AskedRunner request answer) in
  ret answer.

Definition count_with (f : Counters -> Counters) : hact unit :=
  hook_modify (fun h => hook_counters h (f (h_counters h))).

Definition away (event : AwayEvent.t) : hact unit := publish (Away event).

(** ** Diagnose *)

Definition diagnose_request (check : string) : Value :=
  json_object [("op", VString "diagnose"); ("payload", json_object [("checks", VArray [VString check])])].

(** The answer's word for a check; [None] leaves the flag as it is. *)
Definition diagnosed (answer : RunnerFailure + Value) (check yes no : string) : option bool :=
  match answer with
  | inl _ => None
  | inr result =>
      if negb (eq_bool result.["ok"] true) then None
      else match as_str result.[check] with
           | Some word => if String.eqb word yes then Some true else if String.eqb word no then Some false else None
           | None => None
           end
  end.

Definition check_buildkit : hact unit :=
  let! answer := hook_exchange (diagnose_request "buildkit_apparmor") in
  match diagnosed answer "buildkit_apparmor" "loaded" "absent" with
  | None => ret tt
  | Some loaded => hook_modify (fun h => hook_buildkit_ok h loaded)
  end.

Definition check_account_ids : hact unit :=
  let! answer := hook_exchange (diagnose_request "account_ids") in
  match diagnosed answer "account_ids" "migrate" "fixed" with
  | None => ret tt
  | Some migrate => hook_modify (fun h => hook_account_ids h migrate)
  end.

(** One round of [spawn_buildkit_watch]. *)
Definition buildkit_watch : hact unit := do! check_buildkit in check_account_ids.

Definition builds_queued : hact Z := hook_gets (fun h => Z.min (h_waiting h) u32_max).
Definition server_builds_enabled : hact bool := hook_gets h_buildkit_ok.
Definition account_ids_degraded : hact bool := hook_gets h_account_ids_migrate.

(** ** Status *)

Definition webhook_host : hact string :=
  let! actions := lift (query (fun db => Definitions.admitted_actions db ["webhook.host.set"])) in
  ret match find_first Definitions.succeeded (default [] actions) with
      | Some action => str_or_default (Definitions.params action).["webhook_host"]
      | None => ""
      end.

Definition pending_count : hact Z :=
  let! failed := lift fault in
  if (failed : bool) then ret 0
  else hook_gets (fun h => count_records (h_ops h) KWebhookDelivery [DeliveryStatus.Pending] None).

(** [while front().is_some_and(..) { pop_front() }]. *)
Fixpoint recent_duplicates (now : Z) (l : list Z) : list Z :=
  match l with
  | at_ :: rest => if 86400 <=? now - at_ then recent_duplicates now rest else l
  | [] => []
  end.

Definition duplicates_24h : hact Z :=
  let! now := hook_now in
  do! count_with (fun c => {| ct_duplicates := recent_duplicates now (ct_duplicates c);
        ct_unknown_project := ct_unknown_project c; ct_oversize := ct_oversize c;
        ct_rate_limited := ct_rate_limited c |}) in
  hook_gets (fun h => Z.min (lenl (ct_duplicates (h_counters h))) u32_max).

Definition count_oversize : hact unit := count_with count_large.

(** ** Records *)

Definition put_record (kind : RecordKind) (e : Entry) : hact unit :=
  let! failed := lift fault in
  if (failed : bool) then ret tt
  else hook_modify (fun h => match put (h_ops h) kind e with Ok (_, o) => hook_ops h o | _ => h end).

Definition delivery_entry (d : WebhookDelivery) : Entry :=
  {| en_id := wd_id d; en_subject := wd_project_id d; en_slot := ""; en_status := wd_status d;
     en_at := default 0 (wd_received_at d); en_body := encode_to_vec webhook_delivery d |}.

Definition put_delivery (d : WebhookDelivery) : hact unit :=
  do! put_record KWebhookDelivery (delivery_entry d) in
  publish (WebhookReceived d).

(** [get(kind, id).and_then(|row| row.decode())]. *)
Definition get_record {M} (c : Codec M) (kind : RecordKind) (id : string) : hact (option M) :=
  let! failed := lift fault in
  if (failed : bool) then ret None
  else
    let! row := hook_gets (fun h => OpsStore.get (h_ops h) kind id) in
    ret match row with Some row => decode c (or_body row) | None => None end.

Definition delivery (id : string) : hact (option WebhookDelivery) := get_record webhook_delivery KWebhookDelivery id.
Definition build (id : string) : hact (option ServerBuild) := get_record server_build KServerBuild id.

(** [enqueue]: the task that matches the delivery is spawned. *)
Definition enqueue (delivery_id : string) : hact unit := publish (Enqueued delivery_id).

Definition FINAL_STATUSES : list Z :=
  [DeliveryStatus.Deployed; DeliveryStatus.Failed; DeliveryStatus.Ignored; DeliveryStatus.Stale;
   DeliveryStatus.Expired].

Definition row_status (status : Z) : string :=
  if status =? DeliveryStatus.Pending then "pending"
  else if status =? DeliveryStatus.Building then "building"
  else if status =? DeliveryStatus.Deployed then "deployed"
  else if status =? DeliveryStatus.Ignored then "ignored"
  else if status =? DeliveryStatus.Stale then "stale"
  else if status =? DeliveryStatus.Expired then "expired"
  else "failed".

Definition with_status (d : WebhookDelivery) (status : Z) (reason : string) (processed_at : option Z)
    : WebhookDelivery :=
  {| wd_id := wd_id d; wd_received_at := wd_received_at d; wd_provider := wd_provider d; wd_event := wd_event d;
     wd_delivery_ref := wd_delivery_ref d; wd_repository := wd_repository d; wd_ref := wd_ref d;
     wd_commit_sha := wd_commit_sha d; wd_project_id := wd_project_id d;
     wd_signature_valid := wd_signature_valid d; wd_status := status;
     wd_status_reason := if is_empty reason then wd_status_reason d else reason;
     wd_standing_rule_id := wd_standing_rule_id d; wd_operation_id := wd_operation_id d;
     wd_attempts := wd_attempts d; wd_processed_at := processed_at;
     wd_body_digest_hex := wd_body_digest_hex d; wd_body_bytes := wd_body_bytes d;
     wd_verified_at := wd_verified_at d; wd_consumed := wd_consumed d;
     wd_consumed_by_plan_ids := wd_consumed_by_plan_ids d;
     wd_consumed_by_rule_ids := wd_consumed_by_rule_ids d; wd_commit_time := wd_commit_time d;
     wd_expires_at := wd_expires_at d; wd_environments := wd_environments d |}.

Definition set_status (delivery_id : string) (status : Z) (reason : string)
    (update : WebhookDelivery -> WebhookDelivery) : hact unit :=
  let! d := delivery delivery_id in
  match d with
  | None => ret tt
  | Some d =>
      let! processed_at := (if existsb (Z.eqb status) FINAL_STATUSES
                            then let! now := hook_now in ret (Some (pts now)) else ret (wd_processed_at d)) in
      let d := update (with_status d status reason processed_at) in
      do! lift (transact (fun db => match set_delivery_status db delivery_id (row_status status) with
                                    | Ok db => Some (tt, db)
                                    | _ => None
                                    end)) in
      put_delivery d
  end.

Definition build_entry (b : ServerBuild) : Entry :=
  {| en_id := sb_id b; en_subject := sb_project_id b; en_slot := ""; en_status := sb_status b;
     en_at := default 0 (sb_started_at b); en_body := encode_to_vec server_build b |}.

Definition put_build (b : ServerBuild) : hact unit :=
  do! put_record KServerBuild (build_entry b) in
  do! (if sb_status b =? BuildStatus.Failed then away AwayEvent.ServerBuildFailed else ret tt) in
  publish (ServerBuildChanged b).

(** ** The sweeper *)

Definition sweep : hact unit :=
  let! now := hook_now in
  let! expired := lift (transact (fun db => Some (expire_deliveries db now))) in
  mfor (fun id => set_status id DeliveryStatus.Expired "expired" (fun d => d)) (default [] expired).

End hooks.

(** * What operations of the webhook path keep

    Lemmas on the primitives of Hooks.v that the facts about intake and
    pipeline share. *)

Create HintDb hook.

(** Opens an operation down to primitives and operations known to keep the
    relation. *)
Ltac hook_frame :=
  repeat match goal with
  | |- keeps _ _ => solve [eauto 2 with hook typeclass_instances]
  | |- keeps _ (Effects.bind _ _) => apply keeps_bind; [|intros ?]
  | |- keeps _ (mfor _ _) => apply keeps_mfor; intros ?
  | |- keeps _ (let '_ := ?x in _) => destruct x
  | |- keeps _ (if ?x then _ else _) => destruct x
  | |- keeps _ (match ?x with _ => _ end) => destruct x
  end.

Section frame.
Context {CR : Crypto} {JR : JsonReader} {RC : RegexCrate} {EW : EventWire} {EN : Environment}.
Context {PB : Prost} {ST : SqliteTime} {HE : HookEnvironment}.

Lemma lift_inv {A} (m : act A) w a w' :
  lift m w = (a, w') -> exists x, m (hw_world w) = (a, x) /\ w' = set_world x w.
Proof. unfold lift. destruct (m (hw_world w)) as [b x]. intros [= <- <-]. eauto. Qed.

(** A transaction: it failed, or it left what its body computed. *)
Lemma transact_inv {A} (f : Db -> option (A * Db)) x r x' : transact f x = (r, x') ->
  (r = None /\ c_db (x_core x') = c_db (x_core x)) \/
  exists a, f (c_db (x_core x)) = Some (a, c_db (x_core x')) /\ r = Some a.
Proof.
  unfold transact, Effects.bind, fault, gets, asks, modify, ret.
  destruct (x_faults x) as [|[] rest]; cbn; [|by intros [= <- <-]; left|];
    (destruct (f (c_db (x_core x))) as [[a db]|] eqn:Hf; intros [= <- <-]; [right|left]; eauto).
Qed.

(** ** The admission store *)

(** An operation that does not write it. *)
Definition same_db (w w' : HookWorld) : Prop := hook_db w' = hook_db w.

#[global] Instance same_db_preorder : PreOrder same_db.
Proof. split; unfold same_db; [done|intros a b c ? ?; congruence]. Qed.

Lemma same_db_lift {A} (m : act A) : (forall x, c_db (x_core (m x).2) = c_db (x_core x)) -> keeps same_db (lift m).
Proof. intros Hm w. unfold lift. specialize (Hm (hw_world w)). by destruct (m (hw_world w)) as [a x]. Qed.

Lemma same_db_reading {A} (f : nat -> A) : keeps same_db (lift (reading f)).
Proof. by apply same_db_lift. Qed.

Lemma same_db_now : keeps same_db hook_now.
Proof. apply same_db_reading. Qed.

Lemma same_db_fault : keeps same_db (lift fault).
Proof. apply same_db_lift. intros x. unfold fault. by destruct (x_faults x). Qed.

Lemma same_db_query {A} (f : Db -> A) : keeps same_db (lift (query f)).
Proof.
  apply same_db_lift. intros x. unfold query, Effects.bind, fault, gets, asks, ret.
  by destruct (x_faults x) as [|[]].
Qed.

Lemma same_db_publish o : keeps same_db (publish o).
Proof. done. Qed.
Lemma same_db_gets {A} (f : Hook -> A) : keeps same_db (hook_gets f).
Proof. done. Qed.
Lemma same_db_modify f : keeps same_db (hook_modify f).
Proof. done. Qed.

#[local] Hint Resolve keeps_ret same_db_reading same_db_now same_db_fault same_db_query same_db_publish
  same_db_gets same_db_modify : hook.

Lemma same_db_count f : keeps same_db (count_with f).
Proof. unfold count_with. hook_frame. Qed.
Lemma same_db_away e : keeps same_db (away e).
Proof. unfold away. hook_frame. Qed.
Lemma same_db_put_record kind e : keeps same_db (put_record kind e).
Proof. unfold put_record. hook_frame. Qed.
#[local] Hint Resolve same_db_count same_db_away same_db_put_record : hook.

Lemma same_db_put_delivery d : keeps same_db (put_delivery d).
Proof. unfold put_delivery. hook_frame. Qed.
Lemma same_db_put_build b : keeps same_db (put_build b).
Proof. unfold put_build. hook_frame. Qed.
Lemma same_db_get_record {M} (c : Codec M) kind id : keeps same_db (get_record c kind id).
Proof. unfold get_record. hook_frame. Qed.
Lemma same_db_enqueue id : keeps same_db (enqueue id).
Proof. unfold enqueue. hook_frame. Qed.

End frame.

#[export] Hint Resolve keeps_ret same_db_reading same_db_now same_db_fault same_db_query same_db_publish same_db_gets
  same_db_modify same_db_count same_db_away same_db_put_record same_db_put_delivery same_db_put_build
  same_db_get_record same_db_enqueue : hook.
