(* ===== verification/Pipeline.v ===== *)
(** * Rule matching, builds and rule deploys

    src/local/hooks/pipeline.rs.  A verified push is matched against the
    admitted rules, each matching rule builds its services through the runner
    and admits a rule plan.  [None] as the end of a rule stands for a task
    that panicked. *)

From S2P Require Import Prelude RustStr BTree PlanCode Json Jcs Calendar Text Crypto Trust Verify.
From S2P Require Import Store DefinitionStore AdmissionStore AlertRules Reconcile Queries CronExpr Proto OpsStore.
From S2P Require Import Runner Errors Exec Effects CronJobs Change RulePlan Hooks Presence.

Definition FAILURE_REASONS : list string :=
  ["source_fetch"; "recipe_missing"; "build"; "timeout"; "cache_full"; "buildkit_unavailable"; "build_queue_full";
   "cancelled"].
Definition CANCELLED : string := "cancelled".

Record ActiveRule := { ar_rule : Value; ar_rule_digest_hex : string; ar_created_plan_id : string }.

Definition ref_matches (ref pattern : string) : bool :=
  String.eqb ref pattern
  || is_some_and (strip_suffix "*" pattern) (fun prefix =>
       ends_with "/*" pattern && starts_with prefix ref && (len prefix <? len ref)).

Definition contains (set : Value) (value : string) : bool :=
  is_some_and (as_array set) (existsb (fun item => eq_str item value)).

Definition still_fresh (received : Z) (started built : option Z) (now : Z) : bool :=
  (now - received <=? STALE_SECONDS)
  || match started, built with
     | Some started, Some built => (started - received <=? STALE_SECONDS) && (now - built <=? STALE_SECONDS)
     | _, _ => false
     end.

(** [value.as_str().and_then(timestamp)]. *)
Definition stamp_of (value : Value) : option Z :=
  match as_str value with Some text => timestamp text | None => None end.

Inductive RuleEnd := Deployed | Ignored (reason : string) | Stale | Failed (reason : string).

Record BuildFailure := { bf_reason : string; bf_error : string }.

(** ** Build records *)

(** [ServerBuild] of a service, queued. *)
Definition queued_build (id : string) (d : DeliveryRow) (project_id service rule_id platform environment_id : string)
    (started : Z) : ServerBuild :=
  {| sb_id := id; sb_delivery_id := dl_delivery_id d; sb_project_id := project_id; sb_service_id := service;
     sb_commit_sha := dl_commit_sha d; sb_ref := dl_ref d; sb_status := BuildStatus.Queued;
     sb_started_at := Some (pts started); sb_finished_at := None; sb_image_digest_hex := "";
     sb_deployment_id := ""; sb_operation_id := ""; sb_standing_rule_id := rule_id; sb_error := "";
     sb_platform := platform; sb_environment_id := environment_id; sb_failure_reason := "";
     sb_runner_build_id := "" |}.

(** The fields a later step sets. *)
Definition build_started (b : ServerBuild) (at_ : Z) : ServerBuild :=
  {| sb_id := sb_id b; sb_delivery_id := sb_delivery_id b; sb_project_id := sb_project_id b;
     sb_service_id := sb_service_id b; sb_commit_sha := sb_commit_sha b; sb_ref := sb_ref b;
     sb_status := BuildStatus.Building; sb_started_at := Some (pts at_); sb_finished_at := sb_finished_at b;
     sb_image_digest_hex := sb_image_digest_hex b; sb_deployment_id := sb_deployment_id b;
     sb_operation_id := sb_operation_id b; sb_standing_rule_id := sb_standing_rule_id b; sb_error := sb_error b;
     sb_platform := sb_platform b; sb_environment_id := sb_environment_id b;
     sb_failure_reason := sb_failure_reason b; sb_runner_build_id := sb_runner_build_id b |}.

Definition build_done (b : ServerBuild) (image runner_build_id : string) : ServerBuild :=
  {| sb_id := sb_id b; sb_delivery_id := sb_delivery_id b; sb_project_id := sb_project_id b;
     sb_service_id := sb_service_id b; sb_commit_sha := sb_commit_sha b; sb_ref := sb_ref b;
     sb_status := BuildStatus.Deploying; sb_started_at := sb_started_at b; sb_finished_at := sb_finished_at b;
     sb_image_digest_hex := image; sb_deployment_id := sb_deployment_id b;
     sb_operation_id := sb_operation_id b; sb_standing_rule_id := sb_standing_rule_id b; sb_error := sb_error b;
     sb_platform := sb_platform b; sb_environment_id := sb_environment_id b;
     sb_failure_reason := sb_failure_reason b; sb_runner_build_id := runner_build_id |}.

Definition build_ended (b : ServerBuild) (status : Z) (failure_reason error : string) (at_ : Z) : ServerBuild :=
  {| sb_id := sb_id b; sb_delivery_id := sb_delivery_id b; sb_project_id := sb_project_id b;
     sb_service_id := sb_service_id b; sb_commit_sha := sb_commit_sha b; sb_ref := sb_ref b;
     sb_status := status; sb_started_at := sb_started_at b; sb_finished_at := Some (pts at_);
     sb_image_digest_hex := sb_image_digest_hex b; sb_deployment_id := sb_deployment_id b;
     sb_operation_id := sb_operation_id b; sb_standing_rule_id := sb_standing_rule_id b; sb_error := error;
     sb_platform := sb_platform b; sb_environment_id := sb_environment_id b;
     sb_failure_reason := failure_reason; sb_runner_build_id := sb_runner_build_id b |}.

Definition build_admitted (b : ServerBuild) (operation_id deployment_id : string) : ServerBuild :=
  {| sb_id := sb_id b; sb_delivery_id := sb_delivery_id b; sb_project_id := sb_project_id b;
     sb_service_id := sb_service_id b; sb_commit_sha := sb_commit_sha b; sb_ref := sb_ref b;
     sb_status := sb_status b; sb_started_at := sb_started_at b; sb_finished_at := sb_finished_at b;
     sb_image_digest_hex := sb_image_digest_hex b; sb_deployment_id := deployment_id;
     sb_operation_id := operation_id; sb_standing_rule_id := sb_standing_rule_id b; sb_error := sb_error b;
     sb_platform := sb_platform b; sb_environment_id := sb_environment_id b;
     sb_failure_reason := sb_failure_reason b; sb_runner_build_id := sb_runner_build_id b |}.

(** A delivery's fields the pipeline updates with its status. *)
Definition delivery_building (rule_id : string) (d : WebhookDelivery) : WebhookDelivery :=
  {| wd_id := wd_id d; wd_received_at := wd_received_at d; wd_provider := wd_provider d; wd_event := wd_event d;
     wd_delivery_ref := wd_delivery_ref d; wd_repository := wd_repository d; wd_ref := wd_ref d;
     wd_commit_sha := wd_commit_sha d; wd_project_id := wd_project_id d;
     wd_signature_valid := wd_signature_valid d; wd_status := wd_status d;
     wd_status_reason := wd_status_reason d; wd_standing_rule_id := rule_id;
     wd_operation_id := wd_operation_id d; wd_attempts := (wd_attempts d + 1) mod 2 ^ 32;
     wd_processed_at := wd_processed_at d; wd_body_digest_hex := wd_body_digest_hex d;
     wd_body_bytes := wd_body_bytes d; wd_verified_at := wd_verified_at d; wd_consumed := wd_consumed d;
     wd_consumed_by_plan_ids := wd_consumed_by_plan_ids d;
     wd_consumed_by_rule_ids := wd_consumed_by_rule_ids d; wd_commit_time := wd_commit_time d;
     wd_expires_at := wd_expires_at d; wd_environments := wd_environments d |}.

Definition push_new (x : string) (l : list string) : list string := if contains_str l x then l else l ++ [x].

Definition delivery_consumed (operation_id plan_id rule_id : string) (d : WebhookDelivery) : WebhookDelivery :=
  {| wd_id := wd_id d; wd_received_at := wd_received_at d; wd_provider := wd_provider d; wd_event := wd_event d;
     wd_delivery_ref := wd_delivery_ref d; wd_repository := wd_repository d; wd_ref := wd_ref d;
     wd_commit_sha := wd_commit_sha d; wd_project_id := wd_project_id d;
     wd_signature_valid := wd_signature_valid d; wd_status := wd_status d;
     wd_status_reason := wd_status_reason d; wd_standing_rule_id := wd_standing_rule_id d;
     wd_operation_id := operation_id; wd_attempts := wd_attempts d; wd_processed_at := wd_processed_at d;
     wd_body_digest_hex := wd_body_digest_hex d; wd_body_bytes := wd_body_bytes d;
     wd_verified_at := wd_verified_at d; wd_consumed := true;
     wd_consumed_by_plan_ids := push_new plan_id (wd_consumed_by_plan_ids d);
     wd_consumed_by_rule_ids := push_new rule_id (wd_consumed_by_rule_ids d);
     wd_commit_time := wd_commit_time d; wd_expires_at := wd_expires_at d; wd_environments := wd_environments d |}.

(** The builds' status and the rule's end for the rule plan's outcome. *)
Definition deploy_end (outcome : option string) : Z * RuleEnd :=
  match outcome with
  | None => (BuildStatus.Failed, Failed "deploy did not finish")
  | Some o =>
      if String.eqb o "succeeded" then (BuildStatus.Succeeded, Deployed)
      else if String.eqb o "rolled_back" then (BuildStatus.RolledBack, Failed "rolled_back")
      else if String.eqb o "cancelled" then (BuildStatus.Cancelled, Failed CANCELLED)
      else (BuildStatus.Failed, Failed o)
  end.

Section pipeline.
Context {CR : Crypto} {JR : JsonReader} {RC : RegexCrate} {EW : EventWire} {EN : Environment}.
Context {PB : Prost} {ST : SqliteTime} {HE : HookEnvironment}.

(** ** Matching *)

(** Everything a rule is matched on but the protection of its scope. *)
Definition rule_matches (delivery : DeliveryRow) (project_id server_id : string) (now : Z) (info : RuleInfo)
    (rule : Value) : bool :=
  let scope := rule.["scope"] in
  eq_str rule.["trigger"] "git.push"
  && contains rule.["allowed_kinds"] "deploy"
  && eq_str scope.["project_id"] project_id
  && eq_str scope.["repo"] (dl_repo delivery)
  && contains scope.["server_ids"] server_id
  && is_some_and (as_array scope.["branch_patterns"])
       (existsb (fun p => ref_matches (dl_ref delivery) (str_or_default p)))
  && existsb (fun env => String.eqb env (str_or_default scope.["environment"])) (dl_environments delivery)
  && match stamp_of rule.["not_before"], stamp_of rule.["expires_at"] with
     | Some start, Some end_ => (start <=? now) && (now <=? end_)
     | _, _ => false
     end
  && (qr_invocations_last_hour info <? default 0 (as_u64 rule.["limits"].["max_invocations_per_hour"])).

(** The rule of a row, when its stored digest is its own and its signer is
    not compromised. *)
Definition stored_rule (compromised : gset string) (info : RuleInfo) : option Value :=
  match parse_strict (qr_rule_jcs info) (64 * 1024) with
  | None => None
  | Some rule =>
      match canonicalize rule with
      | None => None
      | Some text =>
          if negb (String.eqb (hex (prefixed_digest RULE_PREFIX text)) (qr_rule_digest_hex info))
             || bool_decide (qr_created_by_key_id info ∈ compromised)
          then None else Some rule
      end
  end.

Fixpoint match_rules (delivery : DeliveryRow) (project_id server_id : string) (compromised : gset string) (now : Z)
    (rules : list RuleInfo) : hact (list ActiveRule * bool) :=
  match rules with
  | [] => ret ([], false)
  | info :: rest =>
      let next := match_rules delivery project_id server_id compromised now rest in
      match stored_rule compromised info with
      | None => next
      | Some rule =>
          if negb (rule_matches delivery project_id server_id now info rule) then next
          else
            let! protected := lift (query (fun db =>
              scope_protected db project_id (str_or_default rule.["scope"].["environment"]))) in
            let! r := next in
            ret (if default true protected then (r.1, true)
                 else ({| ar_rule := rule; ar_rule_digest_hex := qr_rule_digest_hex info;
                          ar_created_plan_id := qr_created_plan_id info |} :: r.1, r.2))
      end
  end.

Definition matching_rules (delivery : DeliveryRow) (project_id : string) : hact (list ActiveRule * bool) :=
  let! now := hook_now in
  let! trust := lift load_trust in
  match trust with
  | Valid store =>
      let! rules := lift (query (fun db => rules db false now)) in
      match rules with
      | None => ret ([], false)
      | Some rules => match_rules delivery project_id (ts_server_id store) (ts_compromised store) now rules
      end
  | _ => ret ([], false)
  end.

(** One service of [commit_is_newer]. *)
Definition newer_than (delivery : DeliveryRow) (deployed : option (option (string * string))) : bool :=
  match deployed with
  | None => false
  | Some None => true
  | Some (Some (sha, time)) =>
      negb (String.eqb sha (dl_commit_sha delivery))
      && match timestamp (dl_commit_time delivery), timestamp time with
         | Some pushed, Some deployed => deployed <=? pushed
         | _, _ => false
         end
  end.

Fixpoint commit_is_newer (delivery : DeliveryRow) (services : list string) : hact bool :=
  match services with
  | [] => ret true
  | service :: rest =>
      let! deployed := lift (query (fun db => deployed_commit_on db service (dl_ref delivery))) in
      if newer_than delivery deployed then commit_is_newer delivery rest else ret false
  end.

Definition claim (delivery_id status : string) : hact bool :=
  let! claimed := lift (transact (fun db => match claim_delivery db delivery_id status with
                                            | Ok r => Some r
                                            | _ => None
                                            end)) in
  let claimed := default false claimed in
  do! (if (claimed : bool) then publish (Claimed delivery_id status) else ret tt) in
  ret claimed.

(** ** Builds *)

Definition fail_one (status : Z) (reason error : string) (b : ServerBuild) : hact unit :=
  let! now := hook_now in put_build (build_ended b status reason error now).

Definition fail_builds (builds : list ServerBuild) (failure : BuildFailure) : hact unit :=
  let cancelled := String.eqb (bf_reason failure) CANCELLED in
  let status := if cancelled then BuildStatus.Cancelled else BuildStatus.Failed in
  do! mfor (fail_one status (bf_reason failure) (bf_error failure)) builds in
  if cancelled then ret tt
  else match alerts_set, builds with
  | true, first :: _ =>
      publish (Alerted {| ba_project_id := sb_project_id first; ba_environment_id := sb_environment_id first;
                          ba_service_id := sb_service_id first; ba_subject_id := sb_standing_rule_id first;
                          ba_summary := "server build failed: " +:+ bf_reason failure |})
  | _, _ => ret tt
  end.

Definition build_request (rule : ActiveRule) (delivery : DeliveryRow) (service_id : string) : Value :=
  json_object [("op", VString "build_image"); ("payload", json_object [
    ("rule_id", (ar_rule rule).["id"]); ("rule_digest_hex", VString (ar_rule_digest_hex rule));
    ("service_id", VString service_id); ("commit_sha", VString (dl_commit_sha delivery));
    ("delivery_id", VString (dl_delivery_id delivery));
    ("body_digest_hex", VString (dl_body_digest_hex delivery))])].

(** The reason and message of a refused build. *)
Definition refused_build (result : Value) : BuildFailure :=
  let error := result.["error"] in
  let code := default "E_INTERNAL" (as_str error.["code"]) in
  let reason := if String.eqb code (PlanCode.as_str PlanCode.Cancelled) then CANCELLED
                else default "" (text_where (contains_str FAILURE_REASONS) error.["failure_reason"]) in
  let message := take_chars 256 (default "build refused" (as_str error.["message"])) in
  let reason_name := if String.eqb code "E_BUILD_FAILED" then ErrorReason.BuildFailed
                     else reason_for (default PlanCode.Internal (PlanCode.parse code)) in
  {| bf_reason := reason; bf_error := ErrorReason.as_str_name reason_name +:+ " (" +:+ code +:+ "): " +:+ message |}.

(** The [at] of the runner's last [event] line of a build. *)
Definition line_time (lines : list Value) (event build_id : string) : option Z :=
  match find_first (fun line => eq_str line.["build_id"] build_id) (reverse (event_lines lines event)) with
  | Some line => stamp_of line.["at"]
  | None => None
  end.

Definition runner_build_times (build_id : string) : hact (option Z * option Z) :=
  do! hook_await in
  let! lines := lift (reading log_values) in
  ret match lines with
      | None => (None, None)
      | Some lines => (line_time lines "build_started" build_id, line_time lines "build" build_id)
      end.

Definition note_build_started (build_id : string) (started : Z) : hact unit :=
  lift (modify (fun c => core_starts c (note (c_starts c) build_id started))).

(** The recorded build of a verified image, or why it was not recorded. *)
Definition record_image (b : ServerBuild) (delivery : DeliveryRow) (service_id image build_id : string)
    : hact (BuildFailure + (string * ServerBuild)) :=
  let! times := runner_build_times build_id in
  do! match times.1 with Some started => note_build_started build_id started | None => ret tt end in
  let! built_at := match times.2 with Some built => ret built | None => hook_now end in
  let! recorded := lift (transact (fun db =>
    match record_build db build_id service_id (dl_commit_sha delivery) image (dl_delivery_id delivery) built_at with
    | Ok db => Some (tt, db)
    | _ => None
    end)) in
  match recorded with
  | None =>
      let! text := lift (reading error_text) in
      ret (inl {| bf_reason := ""; bf_error := "build not recorded: " +:+ text |})
  | Some _ =>
      let b := build_done b image (if String.eqb build_id (sb_id b) then "" else build_id) in
      do! put_build b in
      ret (inr (image, b))
  end.

(** The runner's answer to [build_image]. *)
Definition built_answer (b : ServerBuild) (identity : BuildIdentity) (delivery : DeliveryRow) (service_id : string)
    (answer : RunnerFailure + Value) : hact (BuildFailure + (string * ServerBuild)) :=
  match answer with
  | inl failure =>
      ret (inl {| bf_reason := if String.eqb (rf_message failure) TIMED_OUT then "timeout" else "buildkit_unavailable";
                  bf_error := rf_message failure |})
  | inr result =>
      do! mfor (fun text => publish (BuildLog BInfo text identity)) (filter_map as_str (items_of result.["progress"])) in
      if negb (eq_bool result.["ok"] true) then
        let failure := refused_build result in
        do! (if String.eqb (bf_reason failure) "buildkit_unavailable"
             then hook_modify (fun h => hook_buildkit_ok h false) else ret tt) in
        do! publish (BuildLog BError (bf_error failure) identity) in
        ret (inl failure)
      else
        do! hook_modify (fun h => hook_buildkit_ok h true) in
        match text_where hex64 result.["image_digest_hex"] with
        | None => ret (inl {| bf_reason := "build"; bf_error := "the runner returned no image digest" |})
        | Some image =>
            let runner_build := str_or_default result.["build_id"] in
            record_image b delivery service_id image (if uuid7 runner_build then runner_build else sb_id b)
        end
  end.

(** The build slot: [None] when the build may run. *)
Definition wait_slot : hact (option BuildFailure) :=
  let! waiting := hook_gets h_waiting in
  do! hook_modify (fun h => hook_waiting h (h_waiting h + 1)) in
  if MAX_QUEUED_BUILDS <=? waiting then
    do! hook_modify (fun h => hook_waiting h (h_waiting h - 1)) in
    ret (Some {| bf_reason := "build_queue_full"; bf_error := "32 builds are already queued" |})
  else
    do! hook_await in
    do! hook_modify (fun h => hook_waiting h (h_waiting h - 1)) in
    let! closed := lift (reading slot_closed) in
    ret (if (closed : bool)
         then Some {| bf_reason := "buildkit_unavailable"; bf_error := "build slot closed" |} else None).

(** [build_one]: the image and the build record as it then is, or the
    failure with the record. *)
Definition build_one (b : ServerBuild) (rule : ActiveRule) (delivery : DeliveryRow) (service_id : string)
    : hact ((BuildFailure * ServerBuild) + (string * ServerBuild)) :=
  let! refused := wait_slot in
  match refused with
  | Some failure => ret (inl (failure, b))
  | None =>
      let! now := hook_now in
      let b := build_started b now in
      do! put_build b in
      let! answer := hook_exchange (build_request rule delivery service_id) in
      let identity := {| bi_project_id := sb_project_id b;
                         bi_environment := str_or_default (ar_rule rule).["scope"].["environment"];
                         bi_environment_id := sb_environment_id b; bi_service_id := service_id; bi_run_id := sb_id b |} in
      let! built := built_answer b identity delivery service_id answer in
      ret match built with inl failure => inl (failure, b) | inr r => inr r end
  end.

(** ** The rule deploy *)

(** The polls [finish_wait] leaves room for: one every [finish_poll]
    seconds and one at the deadline. *)
Definition FINISH_POLLS : nat := 1951.

Fixpoint wait_finished (polls : nat) (plan_id : string) : hact (option string) :=
  match polls with
  | O => ret None
  | S polls =>
      let! record := lift (stored_admission plan_id) in
      let ended := match record with
                   | Some record => if is_some (q_finished_at record) then Some (q_outcome record) else None
                   | None => None
                   end in
      match ended with
      | Some outcome => ret (Some outcome)
      | None =>
          let! passed := lift (reading deadline_passed) in
          if (passed : bool) then ret None
          else do! hook_await in wait_finished polls plan_id
      end
  end.

(** [fail]: every build of the rule ends. *)
Definition end_builds (status : Z) (error : string) (builds : list ServerBuild) : hact unit :=
  mfor (fun b => fail_one status (sb_failure_reason b) error b) builds.

(** [build_window_of]; a start found in the consumed log is cached. *)
Definition build_window_of (service_id commit_sha : string) : act (option Z * option Z) :=
  let! row := query (fun db => find_first (fun b => String.eqb (bd_service_id b) service_id
                                                    && String.eqb (bd_commit_sha b) commit_sha) (t_builds db)) in
  match default None row with
  | None => ret (None, None)
  | Some b =>
      let! start := gets (fun c => get_start (c_starts c) (bd_build_id b)) in
      do! modify (fun c => core_starts c start.2) in
      ret (start.1, timestamp (bd_built_at b))
  end.

(** The admitted rule plan is followed to its end. *)
Definition follow_deploy (delivery : DeliveryRow) (rule_id : string) (plan : RulePlan) (builds : list ServerBuild)
    (admission : Admission) : hact RuleEnd :=
  do! away AwayEvent.RuleDeploy in
  let builds := (fun b => build_admitted b (am_operation_id admission)
    match find_first (fun d => String.eqb d.1 (sb_service_id b)) (rp_deployments plan) with
    | Some d => d.2 | None => "" end) <$> builds in
  do! mfor put_build builds in
  do! Hooks.set_status (dl_delivery_id delivery) DeliveryStatus.Building ""
        (delivery_consumed (am_operation_id admission) (am_plan_id admission) rule_id) in
  let! outcome := wait_finished FINISH_POLLS (am_plan_id admission) in
  let '(status, ended) := deploy_end outcome in
  do! mfor (fun b =>
        fail_one status (if status =? BuildStatus.Cancelled then CANCELLED else sb_failure_reason b)
          (match ended with Failed error => error | _ => sb_error b end) b) builds in
  ret ended.

(** The plan of a rule, submitted. *)
Definition submit_rule (delivery : DeliveryRow) (rule_id : string) (plan : RulePlan) (builds : list ServerBuild)
    (received : Z) : hact (option RuleEnd) :=
  let submission := {| su_envelope := rp_envelope plan; su_specs := rp_specs plan; su_sealed_secrets := [] |} in
  do! publish (Submitted submission) in
  let! submitted := lift (submit submission AgentWebhook) in
  match submitted with
  | Panic => ret None
  | Err code =>
      let error := ErrorReason.as_str_name (reason_for code) +:+ " (" +:+ PlanCode.as_str code +:+ ")" in
      do! end_builds BuildStatus.Failed error builds in
      let! now := hook_now in
      ret (Some (if bool_decide (code = PlanCode.RuleEvidence) && (STALE_SECONDS <? now - received)
                 then Stale else Failed error))
  | Ok admission => let! ended := follow_deploy delivery rule_id plan builds admission in ret (Some ended)
  end.

Definition deploy (delivery : DeliveryRow) (rule : ActiveRule) (environment_id : string) (built : list ServiceBuild)
    (builds : list ServerBuild) : hact (option RuleEnd) :=
  let! now := hook_now in
  let received := default 0 (timestamp (dl_received_at delivery)) in
  let failed error := do! end_builds BuildStatus.Failed error builds in ret (Some (Failed error)) in
  let! windows := mmap (fun b => lift (build_window_of (sb_service b) (dl_commit_sha delivery))) built in
  if negb (forallb (fun w => still_fresh received w.1 w.2 now) windows) then
    do! end_builds BuildStatus.Failed "delivery went stale during the build" builds in
    ret (Some Stale)
  else
    let! trust := lift load_trust in
    match trust with
    | Valid store =>
        let scope := (ar_rule rule).["scope"] in
        let! head := lift (query (fun db => head_record db (str_or_default scope.["project_id"])
                                              (str_or_default scope.["environment"]))) in
        match head with
        | None => failed "state head unavailable"
        | Some head =>
            let! random := lift (reading plan_random) in
            let! nonce := lift (reading nonce_bytes) in
            match build_rule_plan {| ri_rule := ar_rule rule; ri_rule_digest_hex := ar_rule_digest_hex rule;
                    ri_environment_id := environment_id; ri_server_id := ts_server_id store;
                    ri_head := qh_head_digest_hex head; ri_delivery := delivery; ri_services := built;
                    ri_now := now |} random nonce with
            | Ok plan => submit_rule delivery (str_or_default (ar_rule rule).["id"]) plan builds received
            | Err _ => failed "rule plan not built"
            | Panic => ret None
            end
        end
    | _ => failed "trust store unavailable"
    end.

(** ** One rule *)

(** [services.dedup()]. *)
Fixpoint dedup_text (l : list string) : list string :=
  match l with
  | a :: (b :: _) as rest => if String.eqb a b then dedup_text rest else a :: dedup_text rest
  | _ => l
  end.

Definition rule_services (rule : Value) : list string :=
  dedup_text (order_text (fun s => s) (filter_map as_str (items_of rule.["scope"].["service_ids"]))).

(** The loop over the builds: the images built, with the records as they
    then are, or the end of the rule. *)
Fixpoint build_all (rule : ActiveRule) (delivery : DeliveryRow) (builds : list ServerBuild)
    : hact (RuleEnd + (list ServiceBuild * list ServerBuild)) :=
  match builds with
  | [] => ret (inr ([], []))
  | b :: rest =>
      let service := sb_service_id b in
      let! spec := lift (query (fun db => last_spec db service)) in
      match default None spec with
      | None =>
          do! fail_builds (b :: rest) {| bf_reason := "recipe_missing"; bf_error := "no admitted spec for the service" |} in
          ret (inl (Failed "recipe_missing"))
      | Some spec =>
          let! built := build_one b rule delivery service in
          match built with
          | inl (failure, b) =>
              do! fail_builds (b :: rest) failure in
              ret (inl (Failed (if is_empty (bf_reason failure) then bf_error failure else bf_reason failure)))
          | inr (image, b) =>
              let! others := build_all rule delivery rest in
              ret match others with
                  | inl ended => inl ended
                  | inr (images, records) =>
                      inr ({| sb_service := service; sb_last_spec := spec; sb_image := image |} :: images, b :: records)
                  end
          end
      end
  end.

Definition new_build (delivery : DeliveryRow) (project_id rule_id platform environment_id service : string)
    : hact ServerBuild :=
  let! random := lift (reading random_bytes) in
  let! millis := lift (reading subsec_millis) in
  let! now := hook_now in
  let! started := hook_now in
  ret (queued_build (new_id random millis now) delivery project_id service rule_id platform environment_id started).

Definition run_rule (delivery : DeliveryRow) (project_id : string) (rule : ActiveRule) : hact (option RuleEnd) :=
  let rule_id := str_or_default (ar_rule rule).["id"] in
  let services := rule_services (ar_rule rule) in
  let! newer := commit_is_newer delivery services in
  if negb newer then ret (Some (Ignored "commit is not newer than the deployed one"))
  else
    let! scope := lift (query (fun db => admission_signed_scope db (ar_created_plan_id rule))) in
    match default None scope with
    | None => ret (Some (Failed "rule admission missing"))
    | Some (_, _, environment_id) =>
        do! Hooks.set_status (dl_delivery_id delivery) DeliveryStatus.Building "" (delivery_building rule_id) in
        do! hook_await in
        let! arch := lift (reading arch) in
        let! builds := mmap (new_build delivery project_id rule_id ("linux/" +:+ arch) environment_id) services in
        do! mfor put_build builds in
        let! built := build_all rule delivery builds in
        match built with
        | inl ended => ret (Some ended)
        | inr (images, builds) => deploy delivery rule environment_id images builds
        end
    end.

(** ** A delivery *)

Fixpoint run_rules (delivery : DeliveryRow) (project_id : string) (rules : list ActiveRule)
    : hact (option (list RuleEnd)) :=
  match rules with
  | [] => ret (Some [])
  | rule :: rest =>
      let! ended := run_rule delivery project_id rule in
      match ended with
      | None => ret None
      | Some e =>
          let! ends := run_rules delivery project_id rest in
          ret (option_map (cons e) ends)
      end
  end.

Definition is_deployed (e : RuleEnd) : bool := match e with Deployed => true | _ => false end.
Definition is_stale (e : RuleEnd) : bool := match e with Stale => true | _ => false end.
Definition failed_reason (e : RuleEnd) : option string := match e with Failed r => Some r | _ => None end.
Definition ignored_reason (e : RuleEnd) : option string := match e with Ignored r => Some r | _ => None end.

(** The delivery's status and reason from the ends of its rules. *)
Definition delivery_end (ends : list RuleEnd) : Z * string :=
  if existsb is_deployed ends then (DeliveryStatus.Deployed, "")
  else match filter_map failed_reason ends with
  | reason :: _ => (DeliveryStatus.Failed, reason)
  | [] =>
      if existsb is_stale ends then (DeliveryStatus.Stale, "received more than 15 minutes ago")
      else (DeliveryStatus.Ignored, match filter_map ignored_reason ends with r :: _ => r | [] => "" end)
  end.

(** The rules of a delivery are run and its status follows. *)
Definition run_matched (delivery : DeliveryRow) (project_id : string) (rules : list ActiveRule) : hact unit :=
  let! ends := run_rules delivery project_id rules in
  match ends with
  | None => ret tt
  | Some ends =>
      let '(status, reason) := delivery_end ends in
      Hooks.set_status (dl_delivery_id delivery) status reason (fun d => d)
  end.

Definition process_for (delivery_id : string) (only_rule : option string) : hact unit :=
  let! row := lift (query (fun db => delivery_row db delivery_id)) in
  match default None row with
  | None => ret tt
  | Some row =>
      let! now := hook_now in
      if negb (String.eqb (dl_status row) "pending")
         || is_some_and (timestamp (dl_expires_at row)) (fun expires => expires <=? now)
      then ret tt
      else
        let! record := Hooks.delivery delivery_id in
        match record with
        | None => ret tt
        | Some record =>
            let! now := hook_now in
            if STALE_SECONDS <? now - default 0 (timestamp (dl_received_at row)) then
              let! claimed := claim delivery_id "stale" in
              if (claimed : bool)
              then Hooks.set_status delivery_id DeliveryStatus.Stale "received more than 15 minutes ago" (fun d => d)
              else ret tt
            else
              let! matched := matching_rules row (wd_project_id record) in
              let rules := match only_rule with
                           | Some only => List.filter (fun rule => eq_str (ar_rule rule).["id"] only) matched.1
                           | None => matched.1
                           end in
              match rules with
              | [] =>
                  if matched.2 then
                    let! claimed := claim delivery_id "ignored" in
                    if (claimed : bool)
                    then Hooks.set_status delivery_id DeliveryStatus.Ignored "environment protected" (fun d => d)
                    else ret tt
                  else ret tt
              | _ =>
                  let! claimed := claim delivery_id "building" in
                  if (claimed : bool) then run_matched row (wd_project_id record) rules else ret tt
              end
        end
  end.

Definition process (delivery_id : string) : hact unit := process_for delivery_id None.

(** [pending.sort()] of (at, id) pairs. *)
Definition pending_order (rows : list OpsRow) : list string :=
  or_id <$> order_asc or_at (order_text or_id rows).

Definition rule_project (rules : list RuleInfo) (rule_id : string) : option string :=
  match find_first (fun r => String.eqb (qr_rule_id r) rule_id) rules with
  | None => None
  | Some info => match parse_strict (qr_rule_jcs info) (64 * 1024) with
                 | Some rule => as_str rule.["scope"].["project_id"]
                 | None => None
                 end
  end.

(** [rule_admitted]: the ids of the spawned re-match, if any. *)
Definition rule_admitted (rule_id : string) : hact unit :=
  let! now := hook_now in
  let! rules := lift (query (fun db => rules db false now)) in
  match rule_project (default [] rules) rule_id with
  | None => ret tt
  | Some project =>
      let! failed := lift fault in
      let! rows := (if (failed : bool) then ret [] else hook_gets (fun h => list_records (h_ops h) KWebhookDelivery
        {| OpsStore.ls_subject := Some project; ls_statuses := [DeliveryStatus.Pending]; ls_from := None; ls_to := None;
           ls_before := None; ls_after := None; ls_ascending := true; ls_limit := 10000 |})) in
      match pending_order rows with
      | [] => ret tt
      | ids => publish (Rematched rule_id ids)
      end
  end.

(** The spawned re-match. *)
Definition rematch (rule_id : string) (ids : list string) : hact unit :=
  mfor (fun id => process_for id (Some rule_id)) ids.

(** [spawn_rule_watch]: one event of the bus, [None] when events were
    missed. *)
Definition rule_watch (change : option TrustChangedEvent) : hact unit :=
  match change with
  | Some c => if String.eqb (tc_change c) "rule.create" then rule_admitted (tc_subject_id c) else ret tt
  | None =>
      let! now := hook_now in
      let! rules := lift (query (fun db => rules db false now)) in
      mfor (fun r => rule_admitted (qr_rule_id r)) (default [] rules)
  end.

End pipeline.
