(* ===== verification/PipelineFacts.v ===== *)
(** * Theorems about the pipeline

    What one pass of the pipeline over a delivery does, in order: it claims
    the delivery, asks the runner for builds and submits rule plans made of
    what the runner built. *)

From S2P Require Import Prelude RustStr BTree PlanCode Json Jcs Calendar Text Crypto Trust Verify.
From S2P Require Import Store DefinitionStore AdmissionStore AlertRules Reconcile Queries CronExpr Proto OpsStore.
From S2P Require Import Runner Errors Exec Effects CronJobs Change RulePlan Hooks Pipeline.

(** Records, events and logs; not a request, a claim or a submission. *)
Definition inert (o : HookOutput) : Prop :=
  match o with AskedRunner _ _ | Claimed _ _ | Submitted _ => False | _ => True end.

Create HintDb inert.

Ltac inert_frame :=
  repeat match goal with
  | |- keeps _ _ => solve [eauto 2 with inert typeclass_instances]
  | |- keeps _ (Effects.bind _ _) => apply keeps_bind; [|intros ?]
  | |- keeps _ (mfor _ _) => apply keeps_mfor; intros ?
  | |- keeps _ (mmap _ _) => apply keeps_mmap; intros ?
  | |- keeps _ (let '_ := ?x in _) => destruct x
  | |- keeps _ (if ?x then _ else _) => destruct x
  | |- keeps _ (match ?x with _ => _ end) => destruct x
  end.

Section pipeline.
Context {CR : Crypto} {JR : JsonReader} {RC : RegexCrate} {EW : EventWire} {EN : Environment}.
Context {PB : Prost} {ST : SqliteTime} {HE : HookEnvironment}.

(** ** Operations that only record *)

Definition records (w w' : HookWorld) : Prop := exists es, hw_out w' = hw_out w ++ es /\ Forall inert es.

#[local] Instance records_preorder : PreOrder records.
Proof.
  split; unfold records.
  - intros w. exists []. by rewrite app_nil_r.
  - intros a b c (e1 & H1 & F1) (e2 & H2 & F2). exists (e1 ++ e2). rewrite H2, H1, app_assoc.
    split; [done|]. by apply Forall_app.
Qed.

Lemma records_same w w' : hw_out w' = hw_out w -> records w w'.
Proof. intros H. exists []. by rewrite app_nil_r. Qed.

Lemma records_lift {A} (m : act A) : keeps records (lift m).
Proof. intros w. unfold lift. destruct (m (hw_world w)). by apply records_same. Qed.
Lemma records_modify f : keeps records (hook_modify f).
Proof. intros w. by apply records_same. Qed.
Lemma records_gets {A} (f : Hook -> A) : keeps records (hook_gets f).
Proof. intros w. by apply records_same. Qed.
Lemma records_publish o : inert o -> keeps records (publish o).
Proof. intros Ho w. exists [o]. split; [done|by constructor]. Qed.
Lemma records_received d : keeps records (publish (WebhookReceived d)).
Proof. by apply records_publish. Qed.
Lemma records_build b : keeps records (publish (ServerBuildChanged b)).
Proof. by apply records_publish. Qed.
Lemma records_away e : keeps records (publish (Away e)).
Proof. by apply records_publish. Qed.
Lemma records_log l t i : keeps records (publish (BuildLog l t i)).
Proof. by apply records_publish. Qed.
Lemma records_alert a : keeps records (publish (Alerted a)).
Proof. by apply records_publish. Qed.

#[local] Hint Resolve keeps_ret records_lift records_modify records_gets records_received records_build records_away
  records_log records_alert : inert.

Lemma records_now : keeps records hook_now.
Proof. unfold hook_now. inert_frame. Qed.
Lemma records_await : keeps records hook_await.
Proof. unfold hook_await. inert_frame. Qed.
Lemma records_put kind e : keeps records (put_record kind e).
Proof. unfold put_record. inert_frame. Qed.
#[local] Hint Resolve records_now records_await records_put : inert.
Lemma records_put_delivery d : keeps records (put_delivery d).
Proof. unfold put_delivery. inert_frame. Qed.
Lemma records_put_build b : keeps records (put_build b).
Proof. unfold put_build, away. inert_frame. Qed.
Lemma records_get {M} (c : Codec M) kind id : keeps records (get_record c kind id).
Proof. unfold get_record. inert_frame. Qed.
#[local] Hint Resolve records_put_delivery records_put_build records_get : inert.
Lemma records_set_status id status reason update : keeps records (Hooks.set_status id status reason update).
Proof. unfold Hooks.set_status, Hooks.delivery. inert_frame. Qed.
Lemma records_fail_one status reason error b : keeps records (fail_one status reason error b).
Proof. unfold fail_one. inert_frame. Qed.
#[local] Hint Resolve records_set_status records_fail_one : inert.
Lemma records_fail_builds builds failure : keeps records (fail_builds builds failure).
Proof. unfold fail_builds. inert_frame. Qed.
Lemma records_end_builds status error builds : keeps records (end_builds status error builds).
Proof. unfold end_builds. inert_frame. Qed.
Lemma records_wait_slot : keeps records wait_slot.
Proof. unfold wait_slot. inert_frame. Qed.
Lemma records_image b d s i id : keeps records (record_image b d s i id).
Proof. unfold record_image, runner_build_times, note_build_started. inert_frame. Qed.
Lemma records_wait_finished polls plan_id : keeps records (wait_finished polls plan_id).
Proof. induction polls; cbn [wait_finished]; inert_frame. Qed.
#[local] Hint Resolve records_fail_builds records_end_builds records_wait_slot records_image records_wait_finished : inert.
Lemma records_answer b i d s a : keeps records (built_answer b i d s a).
Proof. unfold built_answer. inert_frame. Qed.
Lemma records_follow d r p bs a : keeps records (follow_deploy d r p bs a).
Proof. unfold follow_deploy, away. inert_frame. Qed.
Lemma records_newer d services : keeps records (commit_is_newer d services).
Proof. induction services; cbn [commit_is_newer]; inert_frame. Qed.
Lemma records_new_build d p r pl e s : keeps records (new_build d p r pl e s).
Proof. unfold new_build. inert_frame. Qed.
#[local] Hint Resolve records_answer records_follow records_newer records_new_build : inert.

(** A recording step of a sequence. *)
Lemma run_records {A} w (m : hact A) : keeps records m -> run_from hw_out w m (fun es _ _ => Forall inert es).
Proof. intros H. destruct (H w) as (es & He & Hi). by exists es. Qed.

(** ** Builds *)

Definition build_event (rule : ActiveRule) (delivery : DeliveryRow) (o : HookOutput) : Prop :=
  inert o \/ exists service a, o = AskedRunner (build_request rule delivery service) a.

(** The runner answered the build of a service with this image. *)
Definition built_as (rule : ActiveRule) (delivery : DeliveryRow) (service image : string) (es : list HookOutput)
    : Prop :=
  exists result, AskedRunner (build_request rule delivery service) (inr result) ∈ es /\
    eq_bool result.["ok"] true = true /\ text_where hex64 result.["image_digest_hex"] = Some image.

Lemma built_as_mono rule d service image es es' :
  built_as rule d service image es -> es ⊆ es' -> built_as rule d service image es'.
Proof. intros (result & Hin & H) Hsub. exists result. split; [by apply Hsub|done]. Qed.

Lemma inert_build rule d es : Forall inert es -> Forall (build_event rule d) es.
Proof. intros H. apply (Forall_impl _ _ _ H). intros o Ho. by left. Qed.

Lemma record_image_value b d service image id w r w' :
  record_image b d service image id w = (inr r, w') -> r.1 = image.
Proof.
  unfold record_image. intros (times & w1 & _ & H)%bind_inv. apply bind_inv in H as (u & w2 & _ & H).
  apply bind_inv in H as (at_ & w3 & _ & H). apply bind_inv in H as (recorded & w4 & _ & H).
  destruct recorded.
  - apply bind_inv in H as (u2 & w5 & _ & [[= ->] _]%ret_inv). done.
  - apply bind_inv in H as (u2 & w5 & _ & [[=] _]%ret_inv).
Qed.

Lemma built_answer_value b i d service a w r w' : built_answer b i d service a w = (inr r, w') ->
  exists result, a = inr result /\ eq_bool result.["ok"] true = true /\
    text_where hex64 result.["image_digest_hex"] = Some r.1.
Proof.
  unfold built_answer. destruct a as [failure|result]; [intros [[=] _]%ret_inv|].
  intros (u & w1 & _ & H)%bind_inv. destruct (eq_bool result.["ok"] true) eqn:Hok; cbn [negb] in H.
  - apply bind_inv in H as (u2 & w2 & _ & H). destruct (text_where _ _) as [image|] eqn:Hi; [|by apply ret_inv in H as [[=] _]].
    apply record_image_value in H as ->. by exists result.
  - apply bind_inv in H as (u2 & w2 & _ & H). apply bind_inv in H as (u3 & w3 & _ & [[=] _]%ret_inv).
Qed.

Lemma run_exchange w request : run_from hw_out w (hook_exchange request)
  (fun es a _ => exists pre, es = pre ++ [AskedRunner request a] /\ Forall inert pre).
Proof.
  unfold hook_exchange. eapply run_then; [apply run_records, records_await|]. cbn beta. intros es u w1 He.
  eapply run_then; [apply run_records, records_lift|]. cbn beta. intros es2 a w2 He2.
  exists [AskedRunner request a]. split; [done|]. cbn [fst Effects.bind publish ret]. exists (es ++ es2). 
  rewrite app_assoc. split; [done|]. by apply Forall_app.
Qed.

Lemma run_build_one w b rule d service : run_from hw_out w (build_one b rule d service)
  (fun es r _ => Forall (build_event rule d) es /\
     match r with inr (image, _) => built_as rule d service image es | inl _ => True end).
Proof.
  unfold build_one. eapply run_then; [apply run_records, records_wait_slot|]. cbn beta. intros es [failure|] w1 He.
  { apply run_ret. rewrite app_nil_r. split; [by apply inert_build|done]. }
  eapply run_then; [apply run_records, records_now|]. cbn beta. intros es2 now w2 He2.
  eapply run_then; [apply run_records, records_put_build|]. cbn beta. intros es3 u w3 He3.
  eapply run_then; [apply run_exchange|]. cbn beta. intros es4 a w4 (pre & -> & Hpre).
  set (b' := build_started b now). set (i := {| bi_project_id := _ |}).
  destruct (built_answer b' i d service a w4) as [r w5] eqn:Hb.
  eapply run_then with (P := fun es5 r5 _ => Forall inert es5 /\ r5 = r).
  { destruct (records_answer b' i d service a w4) as (es5 & Hes5 & Hi5). exists es5. by rewrite Hb in *. }
  cbn beta. intros es5 r5 w6 [He5 ->]. apply run_ret. rewrite app_nil_r. split.
  - repeat (apply Forall_app; split); try (by apply inert_build). apply Forall_singleton. right. by eexists _, _.
  - destruct r as [failure|[image b2]]; [done|]. apply built_answer_value in Hb as (result & -> & Hok & Hi).
    exists result. split; [|done]. set_solver.
Qed.

Lemma run_build_all w rule d builds : run_from hw_out w (build_all rule d builds)
  (fun es r _ => Forall (build_event rule d) es /\
     match r with
     | inr (images, _) => Forall (fun sb => built_as rule d (sb_service sb) (sb_image sb) es) images
     | inl _ => True
     end).
Proof.
  revert w; induction builds as [|b rest IH]; intros w; cbn [build_all]; [by apply run_ret|].
  eapply run_then; [apply run_records, records_lift|]. cbn beta. intros es spec w1 He.
  destruct (default None spec) as [spec'|].
  - eapply run_then; [apply run_build_one|]. cbn beta. intros es2 [[failure b']|[image b']] w2 [He2 Hr].
    + eapply run_then; [apply run_records, records_fail_builds|]. cbn beta. intros es3 u w3 He3.
      apply run_ret. rewrite app_nil_r. split; [|done]. repeat (apply Forall_app; split); try done; by apply inert_build.
    + eapply run_then; [apply IH|]. cbn beta. intros es3 r w3 [He3 Hr3]. apply run_ret. rewrite app_nil_r.
      split; [repeat (apply Forall_app; split); try done; by apply inert_build|].
      destruct r as [ended|[images records']]; [done|]. constructor; cbn [sb_service sb_image].
      * eapply built_as_mono; [exact Hr|]. set_solver.
      * eapply Forall_impl; [exact Hr3|]. intros sb Hsb. eapply built_as_mono; [exact Hsb|]. set_solver.
  - eapply run_then; [apply run_records, records_fail_builds|]. cbn beta. intros es2 u w2 He2.
    apply run_ret. rewrite app_nil_r. split; [|done]. apply Forall_app; split; by apply inert_build.
Qed.

(** A recording step first, for a property of traces it does not matter to. *)
Lemma run_after {A B} (Q : list HookOutput -> Prop) w (m : hact A) (k : A -> hact B) :
  (forall pre es, Forall inert pre -> Q es -> Q (pre ++ es)) -> keeps records m ->
  (forall a w1, run_from hw_out w1 (k a) (fun es _ _ => Q es)) ->
  run_from hw_out w (Effects.bind m k) (fun es _ _ => Q es).
Proof.
  intros HQ Hm Hk. eapply run_then; [by apply run_records|]. cbn beta. intros es a w1 He.
  eapply run_weaken; [apply Hk|]. intros es2 b w2 H. by apply HQ.
Qed.

(** ** The submission of a rule plan *)

(** The submission is the plan the agent built for the rule, the delivery and
    these services. *)
Definition planned (rule : ActiveRule) (delivery : DeliveryRow) (services : list ServiceBuild) (s : Submission) : Prop :=
  exists input random nonce plan, build_rule_plan input random nonce = Ok plan /\
    s = {| su_envelope := rp_envelope plan; su_specs := rp_specs plan; su_sealed_secrets := [] |} /\
    ri_rule input = ar_rule rule /\ ri_rule_digest_hex input = ar_rule_digest_hex rule /\
    ri_delivery input = delivery /\ ri_services input = services.

Definition submits (rule : ActiveRule) (delivery : DeliveryRow) (services : list ServiceBuild) (es : list HookOutput)
    : Prop :=
  Forall inert es \/ exists pre s post, es = pre ++ Submitted s :: post /\ Forall inert pre /\ Forall inert post /\
    planned rule delivery services s.

Lemma submits_after rule d services pre es :
  Forall inert pre -> submits rule d services es -> submits rule d services (pre ++ es).
Proof.
  intros Hpre [H|(p & s & post & -> & Hp & Hpost & Hs)]; [left; by apply Forall_app|right].
  exists (pre ++ p), s, post. rewrite app_assoc. split_and!; try done. by apply Forall_app.
Qed.

Lemma run_submit_rule w d id plan builds received : run_from hw_out w (submit_rule d id plan builds received)
  (fun es _ _ => exists post, Forall inert post /\ es = Submitted {| su_envelope := rp_envelope plan;
     su_specs := rp_specs plan; su_sealed_secrets := [] |} :: post).
Proof.
  unfold submit_rule. set (s := {| su_envelope := _ |}).
  eapply run_then with (P := fun es _ _ => es = [Submitted s]); [by exists [Submitted s]|]. cbn beta.
  intros es u w1 ->. eapply run_weaken; [apply run_records|intros es2 r w2 He; by exists es2]. inert_frame.
Qed.

Lemma run_deploy_rule w d rule env built builds : run_from hw_out w (deploy d rule env built builds)
  (fun es _ _ => submits rule d built es).
Proof.
  assert (forall w (m : hact (option RuleEnd)), keeps records m ->
    run_from hw_out w m (fun es _ _ => submits rule d built es)) as Hrec.
  { intros w1 m Hm. eapply run_weaken; [by apply run_records|]. intros es r w2 He. by left. }
  pose proof (submits_after rule d built) as HQ.
  unfold deploy. apply (run_after _ _ _ _ HQ); [inert_frame|]. intros now w1.
  apply (run_after _ _ _ _ HQ); [inert_frame|]. intros windows w2. destruct (negb _); [apply Hrec; inert_frame|].
  apply (run_after _ _ _ _ HQ); [inert_frame|]. intros [|store|] w3; [apply Hrec; inert_frame| |apply Hrec; inert_frame].
  apply (run_after _ _ _ _ HQ); [inert_frame|]. intros [head|] w4; [|apply Hrec; inert_frame].
  apply (run_after _ _ _ _ HQ); [inert_frame|]. intros random w5.
  apply (run_after _ _ _ _ HQ); [inert_frame|]. intros nonce w6.
  destruct (build_rule_plan _ random nonce) as [plan|e|] eqn:Hp; [|apply Hrec; inert_frame..].
  eapply run_weaken; [apply run_submit_rule|]. intros es r w7 (post & Hpost & ->). right.
  eexists [], _, post. split_and!; [done|constructor|done|]. by eexists _, random, nonce, plan.
Qed.

(** ** One rule *)

Inductive rule_run (rule : ActiveRule) (delivery : DeliveryRow) : list HookOutput -> Prop :=
| rule_building es : Forall (build_event rule delivery) es -> rule_run rule delivery es
| rule_submitted before services s after :
    Forall (build_event rule delivery) before -> planned rule delivery services s ->
    Forall (fun sb => built_as rule delivery (sb_service sb) (sb_image sb) before) services ->
    Forall inert after -> rule_run rule delivery (before ++ Submitted s :: after).

Lemma rule_run_after rule d pre es : Forall inert pre -> rule_run rule d es -> rule_run rule d (pre ++ es).
Proof.
  intros Hpre [es' H|before services s after Hb Hp Hs Ha].
  - constructor. apply Forall_app. split; [by apply inert_build|done].
  - rewrite app_assoc. eapply rule_submitted; [|exact Hp| |done].
    + apply Forall_app. split; [by apply inert_build|done].
    + eapply Forall_impl; [exact Hs|]. intros sb Hsb. eapply built_as_mono; [exact Hsb|]. set_solver.
Qed.

Lemma run_run_rule w d project rule : run_from hw_out w (run_rule d project rule) (fun es _ _ => rule_run rule d es).
Proof.
  assert (forall w (r : option RuleEnd), run_from hw_out w (ret r) (fun es _ _ => rule_run rule d es)) as Hret.
  { intros w1 r. apply run_ret. by apply rule_building. }
  pose proof (rule_run_after rule d) as HQ.
  unfold run_rule. apply (run_after _ _ _ _ HQ); [inert_frame|]. intros newer w1. destruct (negb newer); [apply Hret|].
  apply (run_after _ _ _ _ HQ); [inert_frame|]. intros scope w2.
  destruct (default None scope) as [[[p e] env]|]; [|apply Hret].
  apply (run_after _ _ _ _ HQ); [inert_frame|]. intros _ w3.
  apply (run_after _ _ _ _ HQ); [inert_frame|]. intros _ w4.
  apply (run_after _ _ _ _ HQ); [inert_frame|]. intros arch' w5.
  apply (run_after _ _ _ _ HQ); [inert_frame|]. intros builds w6.
  apply (run_after _ _ _ _ HQ); [inert_frame|]. intros _ w7.
  eapply run_then; [apply run_build_all|]. cbn beta. intros es [ended|[images records']] w8 [He Him].
  { apply run_ret. rewrite app_nil_r. by apply rule_building. }
  eapply run_weaken; [apply run_deploy_rule|]. intros es2 r w9 [H|(pre & s & post & -> & Hpre & Hpost & Hs)].
  - apply rule_building. apply Forall_app. split; [done|by apply inert_build].
  - rewrite app_assoc. eapply rule_submitted; [|exact Hs| |done].
    + apply Forall_app. split; [done|by apply inert_build].
    + eapply Forall_impl; [exact Him|]. intros sb Hsb. eapply built_as_mono; [exact Hsb|]. set_solver.
Qed.

(** The rules of a delivery in order, to the last or to one whose task
    panicked. *)
Inductive rules_run (delivery : DeliveryRow) : list ActiveRule -> list HookOutput -> Prop :=
| rules_end rules : rules_run delivery rules []
| rules_next rule rest es es' :
    rule_run rule delivery es -> rules_run delivery rest es' -> rules_run delivery (rule :: rest) (es ++ es').

Lemma run_run_rules w d project rules : run_from hw_out w (run_rules d project rules) (fun es _ _ => rules_run d rules es).
Proof.
  revert w; induction rules as [|rule rest IH]; intros w; cbn [run_rules]; [apply run_ret; constructor|].
  eapply run_then; [apply run_run_rule|]. cbn beta. intros es [ended|] w1 He.
  - eapply run_then; [apply IH|]. cbn beta. intros es2 ends w2 He2. apply run_ret. rewrite app_nil_r. by constructor.
  - apply run_ret. apply rules_next; [done|constructor].
Qed.

Lemma run_run_matched w d project rules : run_from hw_out w (run_matched d project rules)
  (fun es _ _ => exists es1 tail, es = es1 ++ tail /\ rules_run d rules es1 /\ Forall inert tail).
Proof.
  unfold run_matched. eapply run_then; [apply run_run_rules|]. cbn beta. intros es ends w1 He.
  eapply run_weaken; [apply run_records; inert_frame|]. intros es2 u w2 He2. by exists es, es2.
Qed.

(** ** Reads *)

(** An operation that reads: the store and the trace stay. *)
Definition reads (w w' : HookWorld) : Prop := hook_db w' = hook_db w /\ hw_out w' = hw_out w.

#[local] Instance reads_preorder : PreOrder reads.
Proof. split; unfold reads; [done|intros a b c [? ?] [? ?]; split; congruence]. Qed.

Lemma query_inv {A} (f : Db -> A) w r w' : lift (query f) w = (r, w') ->
  reads w w' /\ (r = None \/ r = Some (f (hook_db w))).
Proof.
  intros H. pose proof (keeps_eq _ _ _ _ (same_db_query f) H) as Hd. apply lift_inv in H as (x & Hq & ->).
  split; [done|]. unfold query, Effects.bind, fault, gets, asks, ret in Hq.
  destruct (x_faults (hw_world w)) as [|[]]; injection Hq as <- _; auto.
Qed.

Lemma reads_lift {A} (f : nat -> A) : keeps reads (lift (reading f)).
Proof. done. Qed.

Lemma reads_get {M} (c : Codec M) kind id : keeps reads (get_record c kind id).
Proof.
  intros w. split; [apply same_db_get_record|]. unfold get_record, Effects.bind, lift, hook_gets, asks, ret.
  destruct (fault (hw_world w)) as [[] x]; done.
Qed.

(** ** Matching *)

(** What a matched rule is: an active rule of the store whose stored digest
    is its own, whose signer is not compromised, which matches the push on
    everything, and whose scope is not protected. *)
Definition matched_by (db : Db) (delivery : DeliveryRow) (project_id : string) (rule : ActiveRule) : Prop :=
  exists n store now info, trust_file n = Valid store /\ info ∈ rules db false now /\
    stored_rule (ts_compromised store) info = Some (ar_rule rule) /\
    ar_rule_digest_hex rule = qr_rule_digest_hex info /\ ar_created_plan_id rule = qr_created_plan_id info /\
    rule_matches delivery project_id (ts_server_id store) now info (ar_rule rule) = true /\
    scope_protected db project_id (str_or_default (ar_rule rule).["scope"].["environment"]) = false.

Lemma match_rules_spec d project server compromised now rules w r w' :
  match_rules d project server compromised now rules w = (r, w') -> reads w w' /\
  Forall (fun rule => exists info, info ∈ rules /\ stored_rule compromised info = Some (ar_rule rule) /\
    ar_rule_digest_hex rule = qr_rule_digest_hex info /\ ar_created_plan_id rule = qr_created_plan_id info /\
    rule_matches d project server now info (ar_rule rule) = true /\
    scope_protected (hook_db w) project (str_or_default (ar_rule rule).["scope"].["environment"]) = false) r.1.
Proof.
  revert w r w'; induction rules as [|info rest IH]; intros w r w'; cbn [match_rules].
  { intros [-> ->]%ret_inv. done. }
  assert (forall w r w', match_rules d project server compromised now rest w = (r, w') -> reads w w' /\
    Forall (fun rule => exists i, i ∈ info :: rest /\ stored_rule compromised i = Some (ar_rule rule) /\
    ar_rule_digest_hex rule = qr_rule_digest_hex i /\ ar_created_plan_id rule = qr_created_plan_id i /\
    rule_matches d project server now i (ar_rule rule) = true /\
    scope_protected (hook_db w) project (str_or_default (ar_rule rule).["scope"].["environment"]) = false) r.1) as Hnext.
  { intros w1 r1 w1' H. destruct (IH _ _ _ H) as [Hr HF]. split; [done|]. eapply Forall_impl; [exact HF|].
    intros rule (i & Hi & H'). exists i. split; [by right|done]. }
  destruct (stored_rule compromised info) as [rule|] eqn:Hs; [|apply Hnext].
  destruct (rule_matches d project server now info rule) eqn:Hm; cbn [negb]; [|apply Hnext].
  intros (protected & w1 & [Hr1 Hp]%query_inv & H)%bind_inv. apply bind_inv in H as (r2 & w2 & Hr2 & H).
  apply ret_inv in H as [-> ->]. destruct (Hnext _ _ _ Hr2) as [Hr3 HF].
  pose proof Hr1 as [Hd1 _]. rewrite Hd1 in HF. split; [by etrans|].
  destruct (default true protected) eqn:Hpr; cbn [fst]; [done|]. constructor; [|done]. exists info.
  cbn [ar_rule ar_rule_digest_hex ar_created_plan_id]. split_and!; try done; [by left|].
  destruct Hp as [Hp| Hp]; rewrite Hp in Hpr; [done|]. by cbn in Hpr.
Qed.

Lemma matching_rules_spec d project w r w' : matching_rules d project w = (r, w') ->
  reads w w' /\ Forall (matched_by (hook_db w) d project) r.1.
Proof.
  unfold matching_rules. intros (now & w1 & H1%(keeps_eq _ _ _ _ (reads_lift clock)) & H)%bind_inv.
  apply bind_inv in H as (trust & w2 & Ht & H). pose proof (keeps_eq _ _ _ _ (reads_lift trust_file) Ht) as H2.
  assert (exists n, trust = trust_file n) as [n ->] by (apply lift_inv in Ht as (x & [= <- _] & _); eauto).
  assert (reads w w2) as H12 by by etrans. destruct (trust_file n) as [|store|] eqn:Hn;
    [apply ret_inv in H as [-> ->]; split; done| |apply ret_inv in H as [-> ->]; split; [done|constructor]].
  apply bind_inv in H as (rs & w3 & [H3 Hrs]%query_inv & H). assert (reads w w3) as H13 by by etrans.
  destruct rs as [rs|]; [|apply ret_inv in H as [-> ->]; split; [done|constructor]].
  destruct Hrs as [?|[= ->]]; [done|]. apply match_rules_spec in H as [H4 HF]. split; [by etrans|].
  eapply Forall_impl; [exact HF|]. cbn beta. destruct H12 as [Hd _], H13 as [Hd3 _]. rewrite Hd, Hd3.
  intros rule (info & Hi & H'). exists n, store, now, info. destruct H' as (?&?&?&?&?). done.
Qed.

(** ** A delivery *)

(** The store moved the delivery out of [pending]. *)
Definition claims (db : Db) (id status : string) : Prop :=
  exists db', claim_delivery db id status = Ok (true, db').

Lemma claim_inv id status w ok w' : claim id status w = (ok, w') ->
  (ok = false /\ hw_out w' = hw_out w) \/
  (ok = true /\ hw_out w' = hw_out w ++ [Claimed id status] /\ claims (hook_db w) id status).
Proof.
  unfold claim. intros (claimed & w1 & Ht & H)%bind_inv. apply lift_inv in Ht as (x & Ht & ->).
  apply bind_inv in H as (u & w2 & Hp & [-> ->]%ret_inv).
  apply transact_inv in Ht as [[-> _]|(a & Ha & ->)]; [left; by apply ret_inv in Hp as [_ ->]|].
  cbn [default]. destruct a; [right|left; by apply ret_inv in Hp as [_ ->]].
  injection Hp as _ <-. split_and!; [done|done|]. fold (hook_db w) in Ha. unfold claims.
  destruct (claim_delivery (hook_db w) id status) as [[ok db]| |]; [|done..]. injection Ha as -> _. by exists db.
Qed.

(** One pass of the pipeline over a delivery, from the store it found. *)
Inductive delivery_run (db : Db) (id : string) : list HookOutput -> Prop :=
| delivery_left : delivery_run db id []
| delivery_closed status es :
    status ∈ ["stale"; "ignored"] -> claims db id status -> Forall inert es ->
    delivery_run db id (Claimed id status :: es)
| delivery_matched row project rules es tail :
    delivery_row db id = Some row -> dl_status row = "pending" -> claims db id "building" ->
    Forall (matched_by db row project) rules -> rules_run row rules es -> Forall inert tail ->
    delivery_run db id (Claimed id "building" :: es ++ tail).

(** A claimed delivery that is closed at once. *)
Lemma claim_closes id status code reason w u w' : status ∈ ["stale"; "ignored"] ->
  (let! claimed := claim id status in
   if (claimed : bool) then Hooks.set_status id code reason (fun d => d) else ret tt) w = (u, w') ->
  exists es, hw_out w' = hw_out w ++ es /\ delivery_run (hook_db w) id es.
Proof.
  intros Hst (ok & w1 & Hc & H)%bind_inv. apply claim_inv in Hc as [[-> Ho]|(-> & Ho & Hcl)].
  - apply ret_inv in H as [_ ->]. exists []. rewrite app_nil_r. split; [done|constructor].
  - destruct (keeps_eq _ _ _ _ (records_set_status _ _ _ _) H) as (es & He & Hi).
    exists (Claimed id status :: es). rewrite He, Ho, <- app_assoc. split; [done|]. by apply delivery_closed.
Qed.

Lemma process_for_run id only w :
  exists es, hw_out (process_for id only w).2 = hw_out w ++ es /\ delivery_run (hook_db w) id es.
Proof.
  destruct (process_for id only w) as [u w'] eqn:H. cbn [snd]. unfold process_for in H.
  assert (forall w1, reads w w1 -> w' = w1 ->
    exists es, hw_out w' = hw_out w ++ es /\ delivery_run (hook_db w) id es) as Hidle.
  { intros w1 [_ Ho] ->. exists []. rewrite app_nil_r. split; [done|constructor]. }
  assert (forall w1, reads w w1 -> (exists es, hw_out w' = hw_out w1 ++ es /\ delivery_run (hook_db w1) id es) ->
    exists es, hw_out w' = hw_out w ++ es /\ delivery_run (hook_db w) id es) as Hread.
  { intros w1 [Hd Ho] Hex. by rewrite Hd, Ho in Hex. }
  apply bind_inv in H as (row & w1 & [R1 Hrow]%query_inv & H).
  destruct (default None row) as [row'|] eqn:Hr; [|apply ret_inv in H as [_ ->]; by eapply Hidle].
  assert (delivery_row (hook_db w) id = Some row') as Hrow'.
  { destruct Hrow as [->| ->]; [done|exact Hr]. }
  apply bind_inv in H as (now & w2 & R2%(keeps_eq _ _ _ _ (reads_lift clock)) & H).
  assert (reads w w2) as R12 by by etrans.
  destruct (negb (String.eqb (dl_status row') "pending") || _) eqn:Hp; [apply ret_inv in H as [_ ->]; by eapply Hidle|].
  apply orb_false_iff in Hp as [Hp _]. apply negb_false_iff, String.eqb_eq in Hp.
  apply bind_inv in H as (record & w3 & R3%(keeps_eq _ _ _ _ (reads_get _ _ _)) & H). assert (reads w w3) as R13 by by etrans.
  destruct record as [record|]; [|apply ret_inv in H as [_ ->]; by eapply Hidle].
  apply bind_inv in H as (now2 & w4 & R4%(keeps_eq _ _ _ _ (reads_lift clock)) & H). assert (reads w w4) as R14 by by etrans.
  destruct (STALE_SECONDS <? _).
  { apply (Hread w4 R14). eapply claim_closes; [|exact H]. set_solver. }
  apply bind_inv in H as (matched & w5 & [R5 Hm]%matching_rules_spec & H). assert (reads w w5) as R15 by by etrans.
  set (rules := match only with Some _ => _ | None => _ end) in H.
  assert (Forall (matched_by (hook_db w) row' (wd_project_id record)) rules) as HF.
  { destruct R14 as [<- _]. subst rules. destruct only; [|done]. apply Forall_forall. intros x Hx.
    apply list_elem_of_In, filter_In in Hx as [Hx _]. rewrite Forall_forall in Hm. apply Hm. by apply list_elem_of_In. }
  clearbody rules. destruct rules as [|rule rest].
  { destruct matched.2; [|apply ret_inv in H as [_ ->]; by eapply Hidle].
    apply (Hread w5 R15). eapply claim_closes; [|exact H]. set_solver. }
  apply bind_inv in H as (ok & w6 & Hc & H). destruct R15 as [Hd Ho]. rewrite <- Ho.
  apply claim_inv in Hc as [[-> Ho6]|(-> & Ho6 & Hcl)].
  - apply ret_inv in H as [_ ->]. exists []. rewrite app_nil_r. split; [done|constructor].
  - destruct (run_run_matched w6 row' (wd_project_id record) (rule :: rest)) as (es & He & es1 & tail & -> & Hrun & Ht).
    rewrite H in He. cbn [snd] in He. exists (Claimed id "building" :: es1 ++ tail).
    rewrite He, Ho6, <- app_assoc. split; [done|]. rewrite Hd in Hcl. by eapply delivery_matched.
Qed.


(** ** What the contract gives *)

Lemma rule_run_submitted rule d es before s after : rule_run rule d es -> es = before ++ Submitted s :: after ->
  exists services, planned rule d services s /\
    Forall (fun sb => built_as rule d (sb_service sb) (sb_image sb) before) services.
Proof.
  intros [es' H|b services s' a Hb Hp Hs Ha] He; subst.
  - apply Forall_app in H as [_ [Hs _]%Forall_cons]. destruct Hs as [?|(? & ? & ?)]; done.
  - apply app_eq_inv in He as [(k & -> & Hk)|(k & -> & Hk)].
    + destruct k as [|x k]; cbn [app] in Hk.
      * injection Hk as -> _. rewrite app_nil_r in Hs. by exists services.
      * injection Hk as <- _. apply Forall_app in Hb as [_ [Hx _]%Forall_cons]. by destruct Hx as [?|(? & ? & ?)].
    + destruct k as [|x k]; cbn [app] in Hk.
      * injection Hk as -> _. rewrite app_nil_r. by exists services.
      * injection Hk as <- ->. apply Forall_app in Ha as [_ [Hx _]%Forall_cons]. done.
Qed.

Lemma rules_run_submitted d rules es before s after : rules_run d rules es -> es = before ++ Submitted s :: after ->
  exists rule services, rule ∈ rules /\ planned rule d services s /\
    Forall (fun sb => built_as rule d (sb_service sb) (sb_image sb) before) services.
Proof.
  intros Hr. revert before. induction Hr as [rules|rule rest es es' Hrule Hrest IH]; intros before He; [by destruct before|].
  symmetry in He. apply app_eq_inv in He as [(k & -> & Hk)|(k & -> & Hk)].
  - destruct (IH k Hk) as (r & services & Hin & Hp & Hb). exists r, services. split_and!; [by right|done|].
    eapply Forall_impl; [exact Hb|]. intros sb Hsb. eapply built_as_mono; [exact Hsb|]. set_solver.
  - destruct k as [|x k]; cbn [app] in Hk.
    + destruct (IH [] (eq_sym Hk)) as (r & services & Hin & Hp & Hb). exists r, services. split_and!; [by right|done|].
      eapply Forall_impl; [exact Hb|]. intros sb Hsb. eapply built_as_mono; [exact Hsb|]. set_solver.
    + injection Hk as <- Hk. destruct (rule_run_submitted _ _ _ _ _ _ Hrule eq_refl) as (services & Hp & Hb).
      exists rule, services. split_and!; [by left|done|done].
Qed.

(** Only what the runner built for a claimed delivery is submitted: whenever
    a pass over a delivery submits a plan, the store held that delivery as
    [pending] and the pass moved it out of [pending] before; the plan is the
    one built for an active, unprotected rule of the store that matches the
    push, and each image in it is the one the runner had answered, in this
    pass, to the build of that service for that rule, commit and delivery. *)
Theorem submission_backed id only w before s after :
  hw_out (process_for id only w).2 = hw_out w ++ before ++ Submitted s :: after ->
  exists row project rule services,
    delivery_row (hook_db w) id = Some row /\ dl_status row = "pending" /\ claims (hook_db w) id "building" /\
    Claimed id "building" ∈ before /\ matched_by (hook_db w) row project rule /\ planned rule row services s /\
    Forall (fun sb => built_as rule row (sb_service sb) (sb_image sb) before) services.
Proof.
  destruct (process_for_run id only w) as (es & He & Hrun). rewrite He. intros Hes%app_inv_head.
  destruct Hrun as [|status es Hst Hcl Hi|row project rules es tail Hrow Hp Hcl HF Hr Ht].
  - by destruct before.
  - destruct before as [|x before]; [done|]. cbn [app] in Hes. injection Hes as _ ->.
    apply Forall_app in Hi as [_ [? _]%Forall_cons]. done.
  - destruct before as [|x before]; [done|]. cbn [app] in Hes. injection Hes as <- Hes.
    assert (exists after', es = before ++ Submitted s :: after') as (after' & Hes').
    { symmetry in Hes. apply app_eq_inv in Hes as [(k & -> & Hk)|(k & -> & Hk)].
      - rewrite Hk in Ht. apply Forall_app in Ht as [_ [? _]%Forall_cons]. done.
      - destruct k as [|y k]; cbn [app] in Hk; [rewrite <- Hk in Ht; apply Forall_cons in Ht as [? _]; done|].
        injection Hk as -> _. by exists k. }
    destruct (rules_run_submitted _ _ _ _ _ _ Hr Hes') as (rule & services & Hin & Hpl & Hb).
    exists row, project, rule, services. rewrite Forall_forall in HF. split_and!; try done.
    + by left.
    + by apply HF.
    + eapply Forall_impl; [exact Hb|]. intros sb Hsb. eapply built_as_mono; [exact Hsb|]. set_solver.
Qed.

End pipeline.
