(* ===== verification/Intake.v ===== *)
(** * Webhook intake

    src/local/hooks/intake.rs and the request checks of
    src/local/hooks/listener.rs.  A request's headers are (name, value) pairs
    with lower-case names, as hyper's [HeaderMap] stores them, the values as
    bytes. *)

From S2P Require Import Prelude RustStr IpAddr BTree PlanCode Json Jcs Calendar Text Crypto Trust Verify.
From S2P Require Import Store DefinitionStore AdmissionStore AlertRules Reconcile Queries Proto OpsStore.
From S2P Require Import Runner Errors Exec Effects Change RulePlan Hooks Presence.
From S2P Require Budget.

Definition MAX_SIGNATURE_BYTES : Z := 1024.

Definition HeaderMap : Type := list (string * string).

Record HookRequest := { rq_method : string; rq_path : string; rq_headers : HeaderMap; rq_body : string }.

Record HookResponse := { hr_status : Z; hr_body : string }.

Definition eol : string := String "010" "".
Definition NOT_FOUND : HookResponse := {| hr_status := 404; hr_body := "not found" +:+ eol |}.
Definition UNAUTHORIZED : HookResponse := {| hr_status := 401; hr_body := "unauthorized" +:+ eol |}.
Definition TOO_LARGE : HookResponse := {| hr_status := 413; hr_body := "payload too large" +:+ eol |}.
Definition TOO_MANY : HookResponse := {| hr_status := 429; hr_body := "too many requests" +:+ eol |}.
Definition UNAVAILABLE : HookResponse := {| hr_status := 503; hr_body := "unavailable" +:+ eol |}.
Definition DUPLICATE : HookResponse := {| hr_status := 200; hr_body := "duplicate" +:+ eol |}.
Definition ACCEPTED : HookResponse := {| hr_status := 202; hr_body := "accepted" +:+ eol |}.
Definition BAD_REQUEST : HookResponse := {| hr_status := 400; hr_body := "bad request" +:+ eol |}.

(** ** Headers *)

(** [HeaderValue::to_str]: visible ASCII, space and tab only. *)
Definition to_str (value : string) : option string :=
  if all_bytes (fun b => between 32 126 b || (code b =? 9)%N) value then Some value else None.

Definition header (headers : HeaderMap) (name : string) : option string :=
  match find_first (fun h => String.eqb h.1 name) headers with
  | None => None
  | Some (_, value) =>
      match to_str value with
      | None => None
      | Some value => let value := trim value in if is_empty value then None else Some value
      end
  end.

Definition provider (headers : HeaderMap) : option (string * option string) :=
  if is_some (header headers "x-gitea-event") then Some ("gitea", header headers "x-gitea-signature")
  else if is_some (header headers "x-github-event") then Some ("github", header headers "x-hub-signature-256")
  else if is_some (header headers "x-gitlab-event") then Some ("gitlab", header headers "x-gitlab-token")
  else None.

(** The first header that is present, when it is a safe token. *)
Definition delivery_ref (headers : HeaderMap) : string :=
  match filter_map (header headers) ["x-github-delivery"; "x-gitea-delivery"; "x-gitlab-event-uuid"] with
  | v :: _ => if delivery_id v then v else ""
  | [] => ""
  end.

Definition source (headers : HeaderMap) : string :=
  match header headers "x-real-ip" with
  | Some v => match parse_ip v with Some ip => print_ip ip | None => "unknown" end
  | None => "unknown"
  end.

(** ** The runner's answer *)

Record Push := { ps_repo : string; ps_ref : string; ps_commit_sha : string; ps_commit_time : string }.

Definition no_push : Push := {| ps_repo := ""; ps_ref := ""; ps_commit_sha := ""; ps_commit_time := "" |}.

Definition is_ascii_control (b : ascii) : bool := between 0 31 b || (code b =? 127)%N.

Definition push_ok (p : Push) : bool :=
  repo (ps_repo p) && starts_with "refs/" (ps_ref p) && (len (ps_ref p) <=? 255)
  && all_bytes (fun b => negb (is_ascii_control b || Ascii.eqb b " ")) (ps_ref p)
  && hex40 (ps_commit_sha p) && is_some (timestamp (ps_commit_time p)).

Definition push_fields (result : Value) : option Push :=
  match as_str result.["repo"], as_str result.["ref"], as_str result.["commit_sha"],
        as_str result.["commit_time"] with
  | Some repo, Some ref, Some sha, Some time =>
      let p := {| ps_repo := repo; ps_ref := ref; ps_commit_sha := sha; ps_commit_time := time |} in
      if push_ok p then Some p else None
  | _, _, _, _ => None
  end.

Definition event_name (result : Value) : string :=
  default "unknown" (text_where (fun e => (1 <=? len e) && (len e <=? 64)
    && all_bytes (fun b => is_ascii_alphanumeric b || one_of "_- " b) e) result.["event"]).

Definition environments (result : Value) : option (list string) :=
  match as_array result.["environments"] with
  | None => None
  | Some list =>
      let names := List.filter (fun name => (1 <=? len name) && (len name <=? 64)) (filter_map as_str list) in
      if (lenl names =? lenl list) && (lenl names <=? 64) then Some names else None
  end.

Section intake.
Context {CR : Crypto} {JR : JsonReader} {RC : RegexCrate} {EW : EventWire} {EN : Environment}.
Context {PB : Prost} {ST : SqliteTime} {HE : HookEnvironment}.

(** A request past the checks before the runner is asked. *)
Record Checked := {
  ch_project_id : string; ch_provider : string; ch_signature : string; ch_now : Z
}.

Definition body_digest (body : string) : string := hex (sha256 body).

(** [reject]: a digest of the body is all that is kept. *)
Definition reject (request : HookRequest) (project_id provider : string) (now : Z) (reason : RejectReason)
    : hact HookResponse :=
  do! lift (transact (fun db => Some (tt, insert_rejected_delivery db (body_digest (rq_body request))
        (len (rq_body request)) project_id provider (format_timestamp now) reason))) in
  ret UNAUTHORIZED.

(** [self.<budget>.admit(key, now)]. *)
Definition take_pre_auth (key : string) (now : Z) : hact bool :=
  let! r := hook_gets (fun h => Budget.admit_request (h_pre_auth h) key now) in
  do! hook_modify (fun h => hook_pre_auth h r.1) in ret r.2.
Definition take_deploy (key : string) (now : Z) : hact bool :=
  let! r := hook_gets (fun h => Budget.admit_request (h_deploys h) key now) in
  do! hook_modify (fun h => hook_deploys h r.1) in ret r.2.

Definition project_of (request : HookRequest) : option string :=
  if negb (String.eqb (rq_method request) "POST") then None
  else match strip_prefix "/hooks/" (rq_path request) with
  | None => None
  | Some id => if is_empty id || (64 <? len id) || contains_byte "/" id then None else Some id
  end.

(** The checks up to the call of the runner: an answer, or the request
    checked. *)
Definition check_request (request : HookRequest) : hact (HookResponse + Checked) :=
  match project_of request with
  | None => ret (inl NOT_FOUND)
  | Some project_id =>
      if MAX_BODY_BYTES <? len (rq_body request) then do! count_oversize in ret (inl TOO_LARGE)
      else
        let! now := hook_now in
        let! admitted := take_pre_auth (source (rq_headers request)) now in
        if negb admitted then do! count_with count_limited in ret (inl TOO_MANY)
        else
          let refuse provider := let! r := reject request project_id provider now Malformed in ret (inl r) in
          match provider (rq_headers request) with
          | None => refuse ""
          | Some (provider, signature) =>
              match signature with
              | None => refuse provider
              | Some signature =>
                  if MAX_SIGNATURE_BYTES <? len signature then refuse provider
                  else if negb (uuid7 project_id) then refuse provider
                  else ret (inr {| ch_project_id := project_id; ch_provider := provider;
                                   ch_signature := signature; ch_now := now |})
              end
          end
  end.

Definition verify_request (c : Checked) (body : string) : Value :=
  json_object [("op", VString "webhook_verify"); ("payload", json_object [
    ("project_id", VString (ch_project_id c)); ("provider", VString (ch_provider c));
    ("signature", VString (ch_signature c)); ("body_b64", VString (std_encode body))])].

Definition delivery_row_of (c : Checked) (body : string) (id event : string) (push : option Push)
    (envs : list string) : DeliveryRow :=
  let p := default no_push push in
  {| dl_delivery_id := id; dl_provider := ch_provider c; dl_event := event;
     dl_body_digest_hex := body_digest body; dl_repo := ps_repo p; dl_ref := ps_ref p;
     dl_commit_sha := ps_commit_sha p; dl_commit_time := ps_commit_time p; dl_environments := envs;
     dl_received_at := format_timestamp (ch_now c);
     dl_expires_at := format_timestamp (ch_now c + PENDING_TTL_SECONDS);
     dl_status := if is_some push then "pending" else "ignored" |}.

Definition delivery_of (c : Checked) (request : HookRequest) (row : DeliveryRow) (push : option Push)
    : WebhookDelivery :=
  {| wd_id := dl_delivery_id row; wd_received_at := Some (pts (ch_now c)); wd_provider := dl_provider row;
     wd_event := dl_event row; wd_delivery_ref := delivery_ref (rq_headers request);
     wd_repository := dl_repo row; wd_ref := dl_ref row; wd_commit_sha := dl_commit_sha row;
     wd_project_id := ch_project_id c; wd_signature_valid := true;
     wd_status := if is_some push then DeliveryStatus.Pending else DeliveryStatus.Ignored;
     wd_status_reason := if is_some push then "" else "not a push";
     wd_standing_rule_id := ""; wd_operation_id := ""; wd_attempts := 0;
     wd_processed_at := if is_some push then None else Some (pts (ch_now c));
     wd_body_digest_hex := dl_body_digest_hex row; wd_body_bytes := len (rq_body request);
     wd_verified_at := Some (pts (ch_now c)); wd_consumed := false; wd_consumed_by_plan_ids := [];
     wd_consumed_by_rule_ids := []; wd_commit_time := option_map pts (timestamp (dl_commit_time row));
     wd_expires_at := Some (pts (ch_now c + PENDING_TTL_SECONDS)); wd_environments := dl_environments row |}.

(** A verified delivery is recorded. *)
Definition record_delivery (c : Checked) (request : HookRequest) (result : Value) (envs : list string)
    : hact HookResponse :=
  let event := event_name result in
  let push := if String.eqb event "push" then push_fields result else None in
  let! random := lift (reading random_bytes) in
  let row := delivery_row_of c (rq_body request) (new_uuid7 random (plan_ms (ch_now c))) event push envs in
  let! inserted := lift (transact (fun db => Some (insert_delivery db row))) in
  match inserted with
  | None => ret UNAVAILABLE
  | Some false => do! count_with (count_duplicate (ch_now c)) in ret DUPLICATE
  | Some true =>
      do! put_delivery (delivery_of c request row push) in
      do! away AwayEvent.WebhookDelivery in
      do! (if is_some push then enqueue (dl_delivery_id row) else ret tt) in
      ret ACCEPTED
  end.

(** After the runner's answer. *)
Definition answered (c : Checked) (request : HookRequest) (answer : RunnerFailure + Value) : hact HookResponse :=
  match answer with
  | inl _ => ret UNAVAILABLE
  | inr result =>
      let refuse reason := reject request (ch_project_id c) (ch_provider c) (ch_now c) reason in
      if negb (eq_bool result.["ok"] true) then
        match as_str result.["error"].["code"] with
        | Some code =>
            if String.eqb code "not_found" then do! count_with count_unknown in ret UNAUTHORIZED
            else if String.eqb code "invalid_request" then refuse Malformed
            else ret UNAVAILABLE
        | None => ret UNAVAILABLE
        end
      else if negb (eq_bool result.["verified"] true) then refuse Signature
      else match environments result with
      | Some envs =>
          if negb (eq_str result.["body_digest_hex"] (body_digest (rq_body request))) then ret UNAVAILABLE
          else
            let! admitted := take_deploy (ch_project_id c) (ch_now c) in
            if negb admitted then do! count_with count_limited in ret TOO_MANY
            else record_delivery c request result envs
      | None => ret UNAVAILABLE
      end
  end.

Definition intake (request : HookRequest) : hact HookResponse :=
  let! checked := check_request request in
  match checked with
  | inl response => ret response
  | inr c =>
      let! answer := hook_exchange (verify_request c (rq_body request)) in
      answered c request answer
  end.

(** ** The listener *)

(** What collecting the body gave: the bytes, more than the limit, or an
    error or the body deadline. *)
Inductive Collected := CollectedBody (body : string) | LengthLimit | Broken.

Definition declared_length (headers : HeaderMap) : option Z :=
  match find_first (fun h => String.eqb h.1 "content-length") headers with
  | Some (_, value) => match to_str value with Some v => parse_u64 v | None => None end
  | None => None
  end.

Definition handle (method path : string) (headers : HeaderMap) (collected : Collected) : hact HookResponse :=
  if negb (starts_with "/hooks/" path) then ret NOT_FOUND
  else if is_some_and (declared_length headers) (fun n => MAX_BODY_BYTES <? n)
  then do! count_oversize in ret TOO_LARGE
  else
    do! hook_await in
    match collected with
    | CollectedBody body =>
        intake {| rq_method := method; rq_path := path; rq_headers := headers; rq_body := body |}
    | LengthLimit => do! count_oversize in ret TOO_LARGE
    | Broken => ret BAD_REQUEST
    end.

End intake.
