(* ===== verification/IntakeFacts.v ===== *)
(** * Theorems about webhook intake

    What a request must be to put a delivery in the store, and what every
    other request leaves. *)

From S2P Require Import Prelude RustStr IpAddr BTree PlanCode Json Jcs Calendar Text Crypto Trust Verify.
From S2P Require Import Store DefinitionStore AdmissionStore AlertRules Reconcile Queries Proto OpsStore.
From S2P Require Import Runner Errors Exec Effects Change RulePlan Hooks Intake.
From S2P Require Budget.

Section intake.
Context {CR : Crypto} {JR : JsonReader} {RC : RegexCrate} {EW : EventWire} {EN : Environment}.
Context {PB : Prost} {ST : SqliteTime} {HE : HookEnvironment}.

(** ** What a refused request changes *)

(** The admission store but for the rejected deliveries, the operational
    store and what was published stay as they were. *)
Definition refused (w w' : HookWorld) : Prop :=
  hook_db w' = with_rejected (hook_db w) (t_rejected (hook_db w')) /\ h_ops (hw_hook w') = h_ops (hw_hook w) /\
  hw_out w' = hw_out w.

#[local] Instance refused_preorder : PreOrder refused.
Proof.
  split; unfold refused.
  - intros w. split_and!; try done. by destruct (hook_db w).
  - intros a b c (H1 & H2 & H3) (H4 & H5 & H6). split_and!; [|congruence..]. rewrite H4, H1 at 1. done.
Qed.

Lemma refused_same_db w w' : hook_db w' = hook_db w -> h_ops (hw_hook w') = h_ops (hw_hook w) ->
  hw_out w' = hw_out w -> refused w w'.
Proof. intros H1 H2 H3. split_and!; try done. rewrite H1. by destruct (hook_db w). Qed.

Lemma refused_lift {A} (m : act A) : (forall x, c_db (x_core (m x).2) = c_db (x_core x)) -> keeps refused (lift m).
Proof.
  intros Hm w. unfold lift. specialize (Hm (hw_world w)). destruct (m (hw_world w)) as [a x].
  by apply refused_same_db.
Qed.

Lemma refused_now : keeps refused hook_now.
Proof. by apply refused_lift. Qed.

Lemma refused_reading {A} (f : nat -> A) : keeps refused (lift (reading f)).
Proof. by apply refused_lift. Qed.

Lemma refused_count f : keeps refused (count_with f).
Proof. intros w. by apply refused_same_db. Qed.

Lemma refused_pre_auth key now : keeps refused (take_pre_auth key now).
Proof. intros w. by apply refused_same_db. Qed.

Lemma refused_deploy key now : keeps refused (take_deploy key now).
Proof. intros w. by apply refused_same_db. Qed.

Lemma refused_reject request project provider now reason : keeps refused (reject request project provider now reason).
Proof.
  intros w. unfold reject. destruct (Effects.bind _ _ w) as [r w'] eqn:H. cbn [snd].
  apply bind_inv in H as (a & w1 & Ht & [_ ->]%ret_inv). apply lift_inv in Ht as (x & Ht & ->).
  apply transact_inv in Ht as [[_ Hd]|(b & Hd & _)]; [by apply refused_same_db|]. injection Hd as _ Hd.
  split_and!; [|done..]. unfold hook_db. cbn [hw_world set_world]. rewrite <- Hd. unfold insert_rejected_delivery.
  destruct (_ <? _); [done|]. by destruct (c_db (x_core (hw_world w))).
Qed.

#[local] Hint Resolve keeps_ret refused_now refused_reading refused_count refused_pre_auth refused_deploy
  refused_reject : refused.

Ltac refuse :=
  repeat match goal with
  | |- keeps _ _ => solve [eauto 2 with refused typeclass_instances]
  | |- keeps _ (Effects.bind _ _) => apply keeps_bind; [|intros ?]
  | |- keeps _ (if ?x then _ else _) => destruct x
  | |- keeps _ (match ?x with _ => _ end) => destruct x
  end.

Lemma refused_check request : keeps refused (check_request request).
Proof. unfold check_request, count_oversize. refuse. Qed.

(** ** A delivery that is recorded *)

(** The row written for a verified answer. *)
Record genuine (c : Checked) (request : HookRequest) (result : Value) (row : DeliveryRow) : Prop := {
  gn_ok : eq_bool result.["ok"] true = true;
  gn_verified : eq_bool result.["verified"] true = true;
  gn_digest : eq_str result.["body_digest_hex"] (hex (sha256 (rq_body request))) = true;
  gn_environments : environments result = Some (dl_environments row);
  gn_row_digest : dl_body_digest_hex row = hex (sha256 (rq_body request));
  gn_provider : dl_provider row = ch_provider c;
  gn_received : dl_received_at row = format_timestamp (ch_now c);
  gn_push : dl_status row = "ignored" \/
    dl_status row = "pending" /\ eq_str result.["event"] "push" = true /\
    exists p, push_fields result = Some p /\ dl_repo row = ps_repo p /\ dl_ref row = ps_ref p /\
      dl_commit_sha row = ps_commit_sha p /\ dl_commit_time row = ps_commit_time p
}.

Lemma event_name_push result : event_name result = "push" -> eq_str result.["event"] "push" = true.
Proof.
  unfold event_name, text_where, eq_str. destruct result.["event"]; cbn [as_str default]; try done.
  destruct (_ && _ && _); cbn; [intros ->; apply String.eqb_refl|done].
Qed.

Lemma genuine_row c request result id envs :
  eq_bool result.["ok"] true = true -> eq_bool result.["verified"] true = true ->
  eq_str result.["body_digest_hex"] (hex (sha256 (rq_body request))) = true -> environments result = Some envs ->
  genuine c request result (delivery_row_of c (rq_body request) id (event_name result)
    (if String.eqb (event_name result) "push" then push_fields result else None) envs).
Proof.
  intros Hok Hv Hd He. split; try done.
  destruct (String.eqb_spec (event_name result) "push") as [Hp|]; [|by left].
  destruct (push_fields result) as [p|] eqn:Hf; [right|by left]. split_and!; [done|by apply event_name_push|].
  exists p. done.
Qed.

(** The end of an intake that reached the store. *)
Lemma record_delivery_cases c request result envs w r w' :
  record_delivery c request result envs w = (r, w') ->
  (r <> ACCEPTED /\ refused w w') \/
  (r = ACCEPTED /\ exists id, let row := delivery_row_of c (rq_body request) id (event_name result)
      (if String.eqb (event_name result) "push" then push_fields result else None) envs in
    t_deliveries (hook_db w') = t_deliveries (hook_db w) ++ [row] /\
    Forall (fun d => dl_body_digest_hex d <> dl_body_digest_hex row) (t_deliveries (hook_db w))).
Proof.
  unfold record_delivery. intros (random & w1 & Hr & H)%bind_inv.
  set (row := delivery_row_of _ _ _ _ _ _) in H. apply (keeps_eq _ _ _ _ (refused_reading _)) in Hr as Hk.
  assert (hook_db w1 = hook_db w) as Hdb by (apply lift_inv in Hr as (x & [= _ <-] & ->); done).
  apply bind_inv in H as (inserted & w2 & Hi & H). apply lift_inv in Hi as (x & Hi & ->).
  apply transact_inv in Hi as [[-> Hd]|([] & [= Hd] & ->)].
  - apply ret_inv in H as [-> ->]. left. split; [done|]. etrans; [exact Hk|]. by apply refused_same_db.
  - assert (existsb (fun d => String.eqb (dl_delivery_id d) (dl_delivery_id row)
                       || String.eqb (dl_body_digest_hex d) (dl_body_digest_hex row)) (t_deliveries (hook_db w1)) = false
            /\ t_deliveries (c_db (x_core x)) = t_deliveries (hook_db w1) ++ [row]) as [Hnew Hrow].
    { unfold insert_delivery in Hd. fold (hook_db w1) in Hd. destruct (existsb _ _) eqn:He; cbn in Hd; [done|].
      destruct (_ || _); cbn in Hd; [done|]. injection Hd as <-. done. }
    right. set (w2 := set_world x w1) in *.
    assert (hook_db w' = hook_db w2 /\ r = ACCEPTED) as [Hw Hr2].
    { apply bind_inv in H as (u1 & w3 & H3%(keeps_eq _ _ _ _ (same_db_put_delivery _)) & H).
      apply bind_inv in H as (u2 & w4 & H4%(keeps_eq _ _ _ _ (same_db_away _)) & H).
      apply bind_inv in H as (u3 & w5 & H5 & [-> ->]%ret_inv). split; [|done].
      assert (same_db w4 w5) by (destruct (is_some _); [by apply (keeps_eq _ _ _ _ (same_db_enqueue _)) in H5|];
        apply ret_inv in H5 as [_ ->]; done). unfold same_db in *. congruence. }
    split; [done|]. exists (new_uuid7 random (plan_ms (ch_now c))). fold row. rewrite Hw. cbn [hook_db w2 set_world hw_world].
    unfold hook_db in Hdb |- *. rewrite <- Hdb. split; [done|].
    apply Forall_forall. intros d Hd3 Heq. apply list_elem_of_In in Hd3.
    assert (existsb (fun d => String.eqb (dl_delivery_id d) (dl_delivery_id row)
                       || String.eqb (dl_body_digest_hex d) (dl_body_digest_hex row)) (t_deliveries (hook_db w1)) = true) as Ht.
    { apply existsb_exists. exists d. split; [done|]. rewrite Heq, String.eqb_refl. apply orb_true_r. }
    congruence.
  - left. apply bind_inv in H as (u1 & w3 & H3%(keeps_eq _ _ _ _ (refused_count _)) & [-> ->]%ret_inv). split; [done|].
    etrans; [exact Hk|]. etrans; [|exact H3]. apply refused_same_db; [|done..].
    unfold insert_delivery in Hd. destruct (_ || _); cbn in Hd; [injection Hd as Hd; unfold hook_db; cbn; congruence|done].
Qed.

(** ** What is asked of a request *)

(** A request that reaches the runner. *)
Record well_formed (request : HookRequest) (h : Hook) (c : Checked) : Prop := {
  wf_method : rq_method request = "POST";
  wf_path : rq_path request = "/hooks/" +:+ ch_project_id c;
  wf_project : uuid7 (ch_project_id c) = true;
  wf_body : len (rq_body request) <= MAX_BODY_BYTES;
  wf_provider : provider (rq_headers request) = Some (ch_provider c, Some (ch_signature c));
  wf_signature : len (ch_signature c) <= MAX_SIGNATURE_BYTES;
  wf_budget : (Budget.admit_request (h_pre_auth h) (source (rq_headers request)) (ch_now c)).2 = true
}.

Lemma project_of_spec request id : project_of request = Some id ->
  rq_method request = "POST" /\ rq_path request = "/hooks/" +:+ id.
Proof.
  unfold project_of. destruct (String.eqb_spec (rq_method request) "POST") as [Hm|]; cbn [negb]; [|done].
  destruct (strip_prefix _ _) as [rest|] eqn:Hp; [|done]. apply strip_prefix_Some in Hp.
  destruct (_ || _); [done|]. by intros [= <-].
Qed.

Lemma check_request_spec request w c w' : check_request request w = (inr c, w') -> well_formed request (hw_hook w) c.
Proof.
  unfold check_request. destruct (project_of request) as [id|] eqn:Hp; [|by intros [= ]].
  apply project_of_spec in Hp as [Hm Hpath].
  destruct (Z.ltb_spec MAX_BODY_BYTES (len (rq_body request))) as [|Hbody].
  { intros (u & w1 & _ & [He _]%ret_inv)%bind_inv. done. }
  intros (now & w1 & Hnow & H)%bind_inv.
  assert (hw_hook w1 = hw_hook w) as Hh by (apply lift_inv in Hnow as (x & _ & ->); done).
  apply bind_inv in H as (ok & w2 & Ht & H).
  assert (ok = (Budget.admit_request (h_pre_auth (hw_hook w1)) (source (rq_headers request)) now).2) as Hok.
  { unfold take_pre_auth in Ht. apply bind_inv in Ht as (b & w3 & [= <- <-] & Ht).
    apply bind_inv in Ht as (u & w4 & _ & [-> _]%ret_inv). done. }
  destruct ok; cbn [negb] in H; [|by apply bind_inv in H as (u & w3 & _ & [H _]%ret_inv)].
  assert (forall prov w3, (let! r := reject request id prov now Malformed in
            ret (@inl HookResponse Checked r)) w3 <> (inr c, w')) as Hno.
  { intros prov w3 (r & w4 & _ & [Hr _]%ret_inv)%bind_inv. done. }
  destruct (provider (rq_headers request)) as [[prov [signature|]]|] eqn:Hprov; [|by apply Hno in H..].
  destruct (Z.ltb_spec MAX_SIGNATURE_BYTES (len signature)); [by apply Hno in H|].
  destruct (uuid7 id) eqn:Hu; cbn [negb] in H; [|by apply Hno in H].
  apply ret_inv in H as [[= ->] _]. split; cbn; try done. rewrite <- Hh. done.
Qed.

Lemma check_refuses request w r w' : check_request request w = (inl r, w') -> r <> ACCEPTED.
Proof.
  unfold check_request. destruct (project_of request) as [id|]; [|intros [[= ->] _]%ret_inv; done].
  destruct (_ <? _); [intros (u & w1 & _ & [[= ->] _]%ret_inv)%bind_inv; done|].
  intros (now & w1 & _ & H)%bind_inv. apply bind_inv in H as (ok & w2 & _ & H).
  destruct ok; cbn [negb] in H; [|by apply bind_inv in H as (u & w3 & _ & [[= ->] _]%ret_inv)].
  assert (forall prov, (let! r := reject request id prov now Malformed in
            ret (@inl HookResponse Checked r)) w2 = (inl r, w') -> r <> ACCEPTED) as Hno.
  { intros prov (r2 & w4 & Hr & [[= ->] _]%ret_inv)%bind_inv. unfold reject in Hr.
    apply bind_inv in Hr as (u & w5 & _ & [-> _]%ret_inv). done. }
  destruct (provider (rq_headers request)) as [[prov [signature|]]|]; [|by apply Hno in H..].
  destruct (_ <? _); [by apply Hno in H|]. destruct (negb _); [by apply Hno in H|]. by apply ret_inv in H as [? _].
Qed.

(** ** The answer *)

Lemma answered_cases c request answer w r w' : answered c request answer w = (r, w') ->
  (r <> ACCEPTED /\ refused w w') \/
  (r = ACCEPTED /\ exists result row, answer = inr result /\ genuine c request result row /\
    (Budget.admit_request (h_deploys (hw_hook w)) (ch_project_id c) (ch_now c)).2 = true /\
    t_deliveries (hook_db w') = t_deliveries (hook_db w) ++ [row] /\
    Forall (fun d => dl_body_digest_hex d <> dl_body_digest_hex row) (t_deliveries (hook_db w))).
Proof.
  assert (forall (m : hact HookResponse), keeps refused m -> (forall s, (m s).1 <> ACCEPTED) -> m w = (r, w') ->
    r <> ACCEPTED /\ refused w w') as Hleft.
  { intros m Hk Hne Hm. split; [specialize (Hne w); by rewrite Hm in Hne|by eapply keeps_eq]. }
  assert (forall reason s, (reject request (ch_project_id c) (ch_provider c) (ch_now c) reason s).1 <> ACCEPTED) as Hrej.
  { intros reason s. unfold reject, Effects.bind. by destruct (lift _ s). }
  unfold answered. destruct answer as [failure|result]; [intros H; left; eapply Hleft; [| |exact H]; [refuse|done]|].
  destruct (eq_bool result.["ok"] true) eqn:Hok; cbn [negb].
  2: { intros H; left; eapply Hleft; [| |exact H]; [refuse|]. intros s. destruct (as_str _); [|done].
       destruct (String.eqb _ _); [done|]. destruct (String.eqb _ _); [apply Hrej|done]. }
  destruct (eq_bool result.["verified"] true) eqn:Hv; cbn [negb]; [|intros H; left; eapply Hleft; [| |exact H]; [refuse|apply Hrej]].
  destruct (environments result) as [envs|] eqn:He; [|intros H; left; eapply Hleft; [| |exact H]; [refuse|done]].
  destruct (eq_str _ _) eqn:Hd; cbn [negb]; [|intros H; left; eapply Hleft; [| |exact H]; [refuse|done]].
  intros (ok & w1 & Ht & H)%bind_inv. pose proof (keeps_eq _ _ _ _ (refused_deploy _ _) Ht) as Hk.
  assert (ok = (Budget.admit_request (h_deploys (hw_hook w)) (ch_project_id c) (ch_now c)).2 /\ hook_db w1 = hook_db w)
    as [Hb Hdb].
  { unfold take_deploy in Ht. apply bind_inv in Ht as (b & w3 & [= <- <-] & Ht).
    apply bind_inv in Ht as (u & w4 & [= _ <-] & [-> ->]%ret_inv). done. }
  destruct ok; cbn [negb] in H.
  - destruct (record_delivery_cases _ _ _ _ _ _ _ H) as [[Hr Hf]|(Hr & id & Hrow & Hnew)]; [left|right].
    + split; [done|]. by etrans.
    + split; [done|]. exists result. eexists. split_and!; [done|by apply genuine_row|done| |]; rewrite <- Hdb; done.
  - left. apply bind_inv in H as (u & w2 & H2%(keeps_eq _ _ _ _ (refused_count _)) & [-> ->]%ret_inv).
    split; [done|]. by etrans.
Qed.

(** C25.  Only a verified delivery is recorded: a request answered 202 was a POST
    to the hook of a project, with a body of at most 1 MiB, within the budget
    of its source and of its project; the runner, asked to check the body
    against the signature header under that project's secrets, answered that
    it is verified and hashed it to the same digest; the store then holds one
    more delivery, of that digest and with the checked fields of the answer,
    and held none of that digest before. *)
Theorem intake_verified request w r w' : intake request w = (r, w') -> r = ACCEPTED ->
  exists c w1 result w2 row,
    well_formed request (hw_hook w) c /\ check_request request w = (inr c, w1) /\
    hook_exchange (verify_request c (rq_body request)) w1 = (inr result, w2) /\
    genuine c request result row /\
    (Budget.admit_request (h_deploys (hw_hook w2)) (ch_project_id c) (ch_now c)).2 = true /\
    t_deliveries (hook_db w') = t_deliveries (hook_db w2) ++ [row] /\
    Forall (fun d => dl_body_digest_hex d <> dl_body_digest_hex row) (t_deliveries (hook_db w2)).
Proof.
  unfold intake. intros (checked & w1 & Hc & H)%bind_inv Hr.
  destruct checked as [response|c].
  { apply ret_inv in H as [-> ->]. apply check_refuses in Hc. done. }
  apply bind_inv in H as (answer & w2 & Hx & H).
  destruct (answered_cases _ _ _ _ _ _ H) as [[? _]|(_ & result & row & -> & Hg & Hb & Hrow & Hnew)]; [done|].
  exists c, w1, result, w2, row. split_and!; try done. by eapply check_request_spec.
Qed.

(** Every other request leaves no delivery: whatever the answer but 202, the
    request changes nothing of the admission store but the list of rejected
    digests, nothing of the operational store, and publishes nothing; what
    other tasks did while the runner was asked stands. *)
Theorem intake_refused request w r w' : intake request w = (r, w') -> r <> ACCEPTED ->
  exists seen, refused seen w' /\
    (seen = w \/ exists c w1 answer, check_request request w = (inr c, w1) /\
       hook_exchange (verify_request c (rq_body request)) w1 = (answer, seen)).
Proof.
  unfold intake. intros (checked & w1 & Hc & H)%bind_inv Hr. destruct checked as [response|c].
  - apply ret_inv in H as [-> ->]. exists w. split; [|by left]. by eapply keeps_eq; [apply refused_check|].
  - apply bind_inv in H as (answer & w2 & Hx & H).
    destruct (answered_cases _ _ _ _ _ _ H) as [[_ Hf]|[? _]]; [|done].
    exists w2. split; [done|]. right. by exists c, w1, answer.
Qed.

End intake.
