(* ===== verification/HookSamples.v ===== *)
(** * A push at work

    A GitHub push to the sample project is verified, recorded, matched with
    the sample rule, built and submitted; one build of a rule of two services
    fails. *)

From S2P Require Import Prelude RustStr IpAddr BTree PlanCode Json Jcs JsonRead Crypto Text Calendar Trust Verify Samples.
From S2P Require Import Store DefinitionStore AdmissionStore AlertRules Reconcile Queries StoreSamples CronExpr Proto OpsStore.
From S2P Require Import Wire Runner Errors Exec Effects CronJobs Change ExecutorFacts RulePlan Hooks Intake.
From S2P Require Import IntakeFacts Pipeline PipelineFacts.

#[local] Existing Instance toy_crypto.
#[local] Existing Instance canonical_reader.
#[local] Existing Instance no_regex.
#[local] Existing Instance blank_events.
#[local] Existing Instance wire.
#[local] Existing Instance plain_time.

Definition push_body : string := "{}".

Definition push_answer : Value := obj
  [ ("ok", VBool true); ("verified", VBool true); ("environments", arr [str "production"]);
    ("body_digest_hex", str (hex (sha256 push_body))); ("event", str "push");
    ("repo", str "git.example.com/acme/web"); ("ref", str "refs/heads/release/1"); ("commit_sha", str commit_a);
    ("commit_time", str stamp_0) ].

Definition build_answer : Value := obj [("ok", VBool true); ("image_digest_hex", str image_new); ("build_id", str plan_b)].
Definition build_refusal : Value := obj
  [("ok", VBool false); ("error", obj [("code", str "E_BUILD_FAILED"); ("failure_reason", str "build"); ("message", str "exit 1")])].

(** A runner that verifies every push and builds every service but one. *)
Definition hook_answer (bad : string) (request : Value) : RunnerFailure + Value :=
  inr (if eq_str request.["op"] "webhook_verify" then push_answer
       else if eq_str request.["op"] "build_image"
       then if eq_str request.["payload"].["service_id"] bad then build_refusal else build_answer
       else fine).

Definition hook_server (bad : string) : Environment :=
  {| clock := fun _ => (now_0 + 1)%Z; trust_file := fun _ => Valid store_1;
     log_file := fun _ => Some {| lr_lines := []; lr_problems := []; lr_inode := None; lr_offset := 0 |};
     exchange := fun _ => hook_answer bad; start_elapsed := fun _ => false; others := fun _ c => c;
     random_bytes := fun n => repeat (ascii_of_nat n) 16; host_keys := []; recipient := ""; start_timeout_seconds := 600;
     staging_set := false; begin_admitted_manual := fun _ _ _ => None; telemetry_set := false;
     set_retention := fun _ _ _ _ => false |}.

Definition calm : HookEnvironment :=
  {| hook_others := fun _ h => h; arch := fun _ => "amd64"; subsec_millis := fun _ => 0;
     log_values := fun _ => Some []; error_text := fun _ => "database is locked";
     plan_random := fun n k => repeat (ascii_of_nat (100 + n + k)) 16; nonce_bytes := fun _ => Some (repeat "N"%char 10);
     slot_closed := fun _ => false; deadline_passed := fun _ => true; alerts_set := false |}.
#[local] Existing Instance calm.

Definition push_request : HookRequest :=
  {| rq_method := "POST"; rq_path := "/hooks/" +:+ project_a;
     rq_headers := [("x-github-event", "push"); ("x-hub-signature-256", "sha256=00"); ("x-real-ip", "192.0.2.7")];
     rq_body := push_body |}.

Definition hook_world : HookWorld :=
  {| hw_world := {| x_core := new_core db_setup no_starts; x_reads := 0; x_faults := []; x_calls := []; x_out := [] |};
     hw_hook := new_hook empty_ops; hw_out := [] |}.

Notation taken := (intake (EN := hook_server "") push_request hook_world).

(** The delivery of the push, then the pipeline's pass over it, with the
    trace of the pass alone. *)
Definition push_id : string := "019b76df-3fc8-7404-8404-040404040404".
Definition after_intake : HookWorld :=
  {| hw_world := hw_world taken.2; hw_hook := hw_hook taken.2; hw_out := [] |}.
Notation processed := (process_for (EN := hook_server "") push_id None after_intake).

Definition word (o : HookOutput) : string :=
  match o with
  | AskedRunner request _ => "ask " +:+ str_or_default request.["op"]
  | Claimed _ status => "claim " +:+ status
  | Submitted _ => "submit"
  | ServerBuildChanged b => "build " +:+ sb_service_id b +:+ " " +:+ dec_string (sb_status b)
  | WebhookReceived d => "delivery " +:+ dec_string (wd_status d)
  | Enqueued _ => "enqueue"
  | _ => "other"
  end.

Example push_taken : word <$> hw_out taken.2 = ["ask webhook_verify"; "delivery 1"; "other"; "enqueue"].
Proof. vm_compute. reflexivity. Qed.

(** The submitted plan is admitted, so the builds get its operation. *)
Example push_processed : word <$> hw_out processed.2 =
  [ "claim building"; "delivery 3"; "build 01a0cdb5-3500-70c1-8000-000000000001 1";
    "build 01a0cdb5-3500-70c1-8000-000000000001 3"; "ask build_image";
    "build 01a0cdb5-3500-70c1-8000-000000000001 4"; "submit"; "other";
    "build 01a0cdb5-3500-70c1-8000-000000000001 4"; "delivery 3"; "other";
    "build 01a0cdb5-3500-70c1-8000-000000000001 6"; "delivery 7" ].
Proof. vm_compute. reflexivity. Qed.

Example push_admitted : length (t_admissions (hook_db processed.2)) = 2%nat.
Proof. vm_compute. reflexivity. Qed.

(** ** Witnesses *)

Lemma intake_verified_witness :
  taken.1 = ACCEPTED /\
  exists row w2, t_deliveries (hook_db taken.2) = t_deliveries (hook_db w2) ++ [row] /\
    dl_body_digest_hex row = hex (sha256 push_body).
Proof.
  assert (taken.1 = ACCEPTED) as Hr by (vm_compute; reflexivity). split; [exact Hr|].
  destruct (intake_verified (EN := hook_server "") push_request hook_world _ _ (surjective_pairing _) Hr)
    as (c & w1 & result & w2 & row & _ & _ & _ & Hg & _ & Hd & _).
  exists row, w2. split; [exact Hd|]. exact (gn_row_digest _ _ _ _ Hg).
Defined.

(** A push without a signature header. *)
Definition bare_request : HookRequest :=
  {| rq_method := "POST"; rq_path := "/hooks/" +:+ project_a; rq_headers := [("x-github-event", "push")];
     rq_body := push_body |}.
Notation bare := (intake (EN := hook_server "") bare_request hook_world).

Lemma intake_refused_witness :
  bare.1 = UNAUTHORIZED /\ exists seen, refused seen bare.2.
Proof.
  assert (bare.1 = UNAUTHORIZED) as Hr by (vm_compute; reflexivity). split; [exact Hr|].
  assert (bare.1 <> ACCEPTED) as Hn by (rewrite Hr; discriminate).
  destruct (intake_refused (EN := hook_server "") bare_request hook_world _ _ (surjective_pairing _) Hn) as (seen & H & _).
  exists seen. exact H.
Defined.

(** The trace up to the first submission, it, and the rest. *)
Fixpoint until_submitted (l : list HookOutput) : option (list HookOutput * Submission * list HookOutput) :=
  match l with
  | [] => None
  | Submitted s :: rest => Some ([], s, rest)
  | o :: rest => match until_submitted rest with Some (b, s, a) => Some (o :: b, s, a) | None => None end
  end.

Lemma until_submitted_spec l b s a : until_submitted l = Some (b, s, a) -> l = b ++ Submitted s :: a.
Proof.
  revert b; induction l as [|o l IH]; intros b; cbn [until_submitted]; [done|].
  destruct (until_submitted l) as [[[b' s'] a']|] eqn:He;
    (destruct o; intros [= <- <- <-]; cbn [app]; try done; by rewrite <- (IH b' eq_refl)).
Qed.

Lemma submission_backed_witness :
  exists before s after row, hw_out processed.2 = before ++ Submitted s :: after /\
    delivery_row (hook_db after_intake) push_id = Some row /\ Claimed push_id "building" ∈ before.
Proof.
  assert (is_some (until_submitted (hw_out processed.2)) = true) as Hs by (vm_compute; reflexivity).
  destruct (until_submitted (hw_out processed.2)) as [[[before s] after]|] eqn:He; [|discriminate Hs].
  apply until_submitted_spec in He.
  destruct (submission_backed (EN := hook_server "") push_id None after_intake before s after He)
    as (row & project & rule & services & Hrow & _ & _ & Hc & _).
  exists before, s, after, row. split; [exact He|]. split; [exact Hrow|exact Hc].
Defined.

(** The plan of the sample push. *)
Definition sample_input : RulePlanInput :=
  {| ri_rule := rule_value; ri_rule_digest_hex := rule_digest; ri_environment_id := env_id_a; ri_server_id := server_a;
     ri_head := zero_hex; ri_delivery := push_row;
     ri_services := [ {| sb_service := service_a; sb_image := image_new;
                         sb_last_spec := {| Queries.ls_spec := spec_base; ls_spec_digest_hex := spec_digest spec_base |} |} ];
     ri_now := now_0 |}.

Definition sample_random (n : nat) : list ascii := repeat (ascii_of_nat n) 16.
Definition no_rule_plan : RulePlan := {| rp_plan_id := ""; rp_envelope := ""; rp_specs := []; rp_deployments := [] |}.
Definition sample_plan : RulePlan :=
  Samples.get_ok (build_rule_plan sample_input sample_random (Some zero_bytes)) no_rule_plan.

Lemma spec_base_wf : is_spec spec_base.
Proof.
  split.
  { repeat first [apply (wf_json_object _) | constructor | split]; vm_compute; try done. }
  match eval vm_compute in spec_base with VObject ?m =>
    match eval vm_compute in (bget "image_digest_hex" m) with Some ?image => exists m, image end end.
  split; vm_compute; reflexivity.
Qed.

Lemma rule_plan_only_image_witness :
  exists plan_id nonce_text actions,
    canonicalize (json_object [("plan", rule_plan_value sample_input plan_id nonce_text
      (sb_service <$> sorted_services sample_input) actions); ("signatures", VArray [])]) = Some (rp_envelope sample_plan) /\
    length actions = 1%nat.
Proof.
  assert (build_rule_plan sample_input sample_random (Some zero_bytes) = Ok sample_plan) as Hp by (vm_compute; reflexivity).
  assert (Forall (fun sb => is_spec (Queries.ls_spec (sb_last_spec sb)) /\ utf8_valid (sb_image sb) = true)
            (ri_services sample_input)) as HF.
  { constructor; [split; [exact spec_base_wf|vm_compute; reflexivity]|constructor]. }
  destruct (rule_plan_only_image sample_input sample_random (Some zero_bytes) sample_plan Hp HF)
    as (plan_id & nonce_text & actions & Hc & Hl & _).
  exists plan_id, nonce_text, actions. split; [exact Hc|]. rewrite Hl. vm_compute. reflexivity.
Defined.

(** ** A rule of two services

    The second service has no admitted spec, so its build fails. *)

Definition service_b : string := "01a0cdb5-3500-70c1-8000-000000000002".

Definition two_services : Value :=
  match rule_value with
  | VObject m => VObject (binsert "scope" (obj [ ("project_id", str project_a); ("environment", str "production");
        ("service_ids", arr [str service_a; str service_b]); ("server_ids", arr [str server_a]);
        ("repo", str "git.example.com/acme/web"); ("branch_patterns", arr [str "refs/heads/release/*"]) ]) m)
  | v => v
  end.

Definition two_rule : ActiveRule :=
  {| ar_rule := two_services; ar_rule_digest_hex := rule_digest; ar_created_plan_id := plan_a |}.

Definition two_world : HookWorld :=
  {| hw_world := {| x_core := new_core db_push no_starts; x_reads := 0; x_faults := []; x_calls := []; x_out := [] |};
     hw_hook := new_hook empty_ops; hw_out := [] |}.

(** The first service's build stays [Deploying]: [fail_builds] ends the
    builds from the failed one on, and nothing else ends those before it. *)
Example first_build_left_deploying :
  let r := run_rule (EN := hook_server "") push_row project_a two_rule two_world in
  r.1 = Some (Failed "recipe_missing") /\
  word <$> hw_out r.2 =
    [ "build 01a0cdb5-3500-70c1-8000-000000000001 1"; "build 01a0cdb5-3500-70c1-8000-000000000002 1";
      "build 01a0cdb5-3500-70c1-8000-000000000001 3"; "ask build_image";
      "build 01a0cdb5-3500-70c1-8000-000000000001 4"; "other";
      "build 01a0cdb5-3500-70c1-8000-000000000002 6" ].
Proof. split; vm_compute; reflexivity. Qed.
