(* ===== verification/AlertDefs.v ===== *)
(** * Alert rules in force and their state machine

    src/local/sched/alerts.rs, the parts without the evaluator's lock: the
    applied rules and channels, the state of one rule and how one evaluation
    moves it, comparisons and scopes, and the texts of a notification. *)

From Stdlib Require Import SpecFloat.
From S2P Require Import Prelude RustStr BTree PlanCode Json F64 Jcs Calendar Text Trust Verify Store DefinitionStore.
From S2P Require Import AdmissionStore AlertRules Proto OpsStore Runner CronJobs Sched Redaction.
Import Definitions.

Definition ALERT_KINDS : list string :=
  [ "alert.rule.create"; "alert.rule.update"; "alert.rule.delete"; "alert.silence"; "alert.channel.create";
    "alert.channel.update"; "alert.channel.delete" ].
Definition EVAL_SECONDS : Z := 30.
Definition RESOLVE_AFTER_FALSE : Z := 2.
Definition NO_DATA_AFTER : Z := 3.
Definition EVENT_RESOLVE_SECONDS : Z := 86400.
Definition DROPPING_CLEAR_SECONDS : Z := 300.
Definition MAX_TEXT_BYTES : Z := 4 * 1024.
Definition MAX_SUMMARY_BYTES : Z := 512.
Definition PER_CHANNEL_PER_MINUTE : Z := 30.
Definition TEST_INTERVAL_SECONDS : Z := 10.
(** [retry_delays] of [new]. *)
Definition RETRY_DELAYS : list Z := [10; 60; 300].

(** ** Rules and channels *)

(** The plan's digest is a field of the rule in the source. *)
Record RuleDef := { rd_rule : AlertRule; rd_plan_digest_hex : string; rd_silenced_until : option Z }.

Record ChannelDef := {
  ch_id : string; ch_name : string; ch_kind : string; ch_credential_digest : string; ch_plan_digest_hex : string
}.

Section load.
Context {JR : JsonReader} {RE : RegexCrate}.

Definition load_rule (rules : bmap RuleDef) (action : AdmittedAction) : bmap RuleDef :=
  let p := params action in
  let text name := str_or_default p.[name] in
  let id := text "alert_rule_id" in
  if contains_str ["alert.rule.create"; "alert.rule.update"] (kind action) then
    match parse_alert id (text "name") (text "spec") with
    | Ok rule =>
        binsert id {| rd_rule := rule; rd_plan_digest_hex := plan_digest_hex action;
                      rd_silenced_until := match bget id rules with Some r => rd_silenced_until r | None => None end |}
          rules
    | _ => rules
    end
  else if String.eqb (kind action) "alert.rule.delete" then bremove id rules
  else if String.eqb (kind action) "alert.silence" then
    match bget id rules with
    | Some r =>
        binsert id {| rd_rule := rd_rule r; rd_plan_digest_hex := rd_plan_digest_hex r;
                      rd_silenced_until := match as_str p.["until"] with Some t => parse_rfc t | None => None end |} rules
    | None => rules
    end
  else rules.

Definition load_channel (channels : bmap ChannelDef) (action : AdmittedAction) : bmap ChannelDef :=
  let p := params action in
  let text name := str_or_default p.[name] in
  let id := text "channel_id" in
  if contains_str ["alert.channel.create"; "alert.channel.update"] (kind action) then
    binsert id {| ch_id := id; ch_name := text "name"; ch_kind := text "channel_kind";
                  ch_credential_digest := text "credential_ciphertext_digest_hex";
                  ch_plan_digest_hex := plan_digest_hex action |} channels
  else if String.eqb (kind action) "alert.channel.delete" then bremove id channels
  else channels.

(** The applied rules and channels, oldest action first. *)
Definition load (actions : list AdmittedAction) : bmap RuleDef * bmap ChannelDef :=
  let applied := List.filter succeeded (rev actions) in
  (fold_left load_rule applied [], fold_left load_channel applied []).

End load.

(** ** The state of a rule *)

Record Runtime := {
  rt_state : Z; rt_since : Z; rt_pending_since : option Z; rt_false_streak : Z; rt_no_data_streak : Z;
  rt_last_evaluated : Z; rt_last_value : f64; rt_episode : option string; rt_last_notified : Z;
  rt_last_occurrence : Z; rt_held : bool
}.

Definition no_runtime : Runtime :=
  {| rt_state := 0; rt_since := 0; rt_pending_since := None; rt_false_streak := 0; rt_no_data_streak := 0;
     rt_last_evaluated := 0; rt_last_value := f64_zero; rt_episode := None; rt_last_notified := 0;
     rt_last_occurrence := 0; rt_held := false |}.

Definition enter (state since : Z) (pending : option Z) (r : Runtime) : Runtime :=
  {| rt_state := state; rt_since := since; rt_pending_since := pending; rt_false_streak := rt_false_streak r;
     rt_no_data_streak := rt_no_data_streak r; rt_last_evaluated := rt_last_evaluated r;
     rt_last_value := rt_last_value r; rt_episode := rt_episode r; rt_last_notified := rt_last_notified r;
     rt_last_occurrence := rt_last_occurrence r; rt_held := rt_held r |}.
Definition set_streaks (false_ no_data : Z) (r : Runtime) : Runtime :=
  {| rt_state := rt_state r; rt_since := rt_since r; rt_pending_since := rt_pending_since r;
     rt_false_streak := false_; rt_no_data_streak := no_data; rt_last_evaluated := rt_last_evaluated r;
     rt_last_value := rt_last_value r; rt_episode := rt_episode r; rt_last_notified := rt_last_notified r;
     rt_last_occurrence := rt_last_occurrence r; rt_held := rt_held r |}.
Definition set_evaluated (at_ : Z) (value : f64) (r : Runtime) : Runtime :=
  {| rt_state := rt_state r; rt_since := rt_since r; rt_pending_since := rt_pending_since r;
     rt_false_streak := rt_false_streak r; rt_no_data_streak := rt_no_data_streak r; rt_last_evaluated := at_;
     rt_last_value := value; rt_episode := rt_episode r; rt_last_notified := rt_last_notified r;
     rt_last_occurrence := rt_last_occurrence r; rt_held := rt_held r |}.
Definition set_occurrence (at_ : Z) (r : Runtime) : Runtime :=
  {| rt_state := rt_state r; rt_since := rt_since r; rt_pending_since := rt_pending_since r;
     rt_false_streak := rt_false_streak r; rt_no_data_streak := rt_no_data_streak r;
     rt_last_evaluated := rt_last_evaluated r; rt_last_value := rt_last_value r; rt_episode := rt_episode r;
     rt_last_notified := rt_last_notified r; rt_last_occurrence := at_; rt_held := rt_held r |}.
Definition set_notified (at_ : Z) (held : bool) (r : Runtime) : Runtime :=
  {| rt_state := rt_state r; rt_since := rt_since r; rt_pending_since := rt_pending_since r;
     rt_false_streak := rt_false_streak r; rt_no_data_streak := rt_no_data_streak r;
     rt_last_evaluated := rt_last_evaluated r; rt_last_value := rt_last_value r; rt_episode := rt_episode r;
     rt_last_notified := at_; rt_last_occurrence := rt_last_occurrence r; rt_held := held |}.
Definition set_episode (episode : option string) (r : Runtime) : Runtime :=
  {| rt_state := rt_state r; rt_since := rt_since r; rt_pending_since := rt_pending_since r;
     rt_false_streak := rt_false_streak r; rt_no_data_streak := rt_no_data_streak r;
     rt_last_evaluated := rt_last_evaluated r; rt_last_value := rt_last_value r; rt_episode := episode;
     rt_last_notified := rt_last_notified r; rt_last_occurrence := rt_last_occurrence r; rt_held := rt_held r |}.

(** [AlertState::try_from(n).unwrap_or(AlertState::Ok)]. *)
Definition alert_state_of (n : Z) : Z := if Prelude.in_range 0 6 n then n else AlertState.Ok_.

Inductive Move := Stay | Fire | Resolve.

(** The locked part of [step]: one evaluation of a rule ([None] is no data). *)
Definition advance (holds : option bool) (value : f64) (now for_duration : Z) (r : Runtime) : Runtime * Move :=
  let r := set_evaluated now value r in
  let current := alert_state_of (rt_state r) in
  let firing := current =? AlertState.Firing in
  let count_false r := set_streaks (rt_false_streak r + 1) (rt_no_data_streak r) r in
  let resolved r := if RESOLVE_AFTER_FALSE <=? rt_false_streak r then Resolve else Stay in
  match holds with
  | None =>
      let r := set_streaks (rt_false_streak r) (rt_no_data_streak r + 1) r in
      if firing then let r := count_false r in (r, resolved r)
      else if (NO_DATA_AFTER <=? rt_no_data_streak r) && negb (current =? AlertState.NoData)
      then (enter AlertState.NoData now None r, Stay)
      else (r, Stay)
  | Some true =>
      let r := set_streaks 0 0 r in
      if firing then (r, Stay)
      else if current =? AlertState.Pending then
        (r, if for_duration <=? now - default now (rt_pending_since r) then Fire else Stay)
      else if for_duration =? 0 then (r, Fire)
      else (enter AlertState.Pending now (Some now) r, Stay)
  | Some false =>
      let r := set_streaks (rt_false_streak r) 0 r in
      if firing then let r := count_false r in (r, resolved r)
      else if (current =? AlertState.Pending) || (current =? AlertState.NoData) || (current =? AlertState.Resolved)
      then (enter AlertState.Ok_ now None r, Stay)
      else (enter AlertState.Ok_ (rt_since r) (rt_pending_since r) r, Stay)
  end.

(** What [open_rule_episode] and [resolve_rule_episode] make of the state. *)
Definition opened (id : string) (now : Z) (held : bool) (r : Runtime) : Runtime :=
  set_notified now held (set_occurrence now (set_episode (Some id)
    (set_streaks 0 (rt_no_data_streak r) (enter AlertState.Firing now None r)))).

Definition closed (now : Z) (r : Runtime) : Runtime :=
  set_episode None (set_notified (rt_last_notified r) false
    (set_streaks 0 (rt_no_data_streak r) (enter AlertState.Resolved now (rt_pending_since r) r))).

Definition rested (r : Runtime) : Runtime := enter AlertState.Ok_ (rt_since r) (rt_pending_since r) r.

Definition silenced (def : RuleDef) (now : Z) : bool := is_some_and (rd_silenced_until def) (fun until => now <? until).

(** ** Conditions *)

(** The numbers are those of [ComparisonOp]. *)
Definition compare (op : Z) (value threshold : f64) : bool :=
  if op =? 1 then f64_gt value threshold
  else if op =? 2 then f64_ge value threshold
  else if op =? 3 then SFltb value threshold
  else if op =? 4 then SFleb value threshold
  else if op =? 5 then SFltb (SFabs (f64_sub value threshold)) EPSILON
  else if op =? 6 then f64_ge (SFabs (f64_sub value threshold)) EPSILON
  else false.

Definition OP_ABSENT : Z := 7.

(** What [apply_metric] gives the state machine: whether the condition holds
    and the value it reports. *)
Definition metric_holds (condition : MetricCondition) (values : list f64) : option bool * f64 :=
  if mc_op condition =? OP_ABSENT then (Some match values with [] => true | _ => false end, S754_nan)
  else match values with
  | [] => (None, S754_nan)
  | first :: _ =>
      match find_first (fun value => compare (mc_op condition) value (mc_threshold condition)) values with
      | Some value => (Some true, value)
      | None => (Some false, first)
      end
  end.

(** A rule's scope matches when every field it sets equals the event's. *)
Definition scope_matches (rule : option AlertScope) (event : Scope) : bool :=
  match rule with
  | None => true
  | Some rule =>
      let '(project_id, environment, environment_id) := sc_scope event in
      let same a b := is_empty a || String.eqb a b in
      same (as_project_id rule) project_id && same (as_environment rule) environment
      && same (as_environment_id rule) environment_id && same (as_service_id rule) (sc_service_id event)
  end.

Definition matches (event : BuiltinEvent) (def : RuleDef) : bool :=
  al_enabled (rd_rule def)
  && match al_condition (rd_rule def) with
     | Event condition =>
         (ec_kind condition =? condition_number (be_kind event)) && scope_matches (ec_scope condition) (be_scope event)
     | _ => false
     end.

(** ** Texts *)

Definition severity_word (severity : Z) : string :=
  if severity =? AlertSeverity.Critical then "CRITICAL"
  else if severity =? AlertSeverity.Info then "INFO" else "WARNING".

(** The longest prefix of whole characters of at most [max] bytes. *)
Fixpoint bounded_chars (max : Z) (cs : list N) : string :=
  match cs with
  | [] => ""
  | c :: rest => if max <? len (utf8_char c) then "" else utf8_char c +:+ bounded_chars (max - len (utf8_char c)) rest
  end.
Definition bounded (text : string) (max : Z) : string := bounded_chars max (chars text).

Section texts.
Context {BR : ByteRegex}.

Definition summary_of (def : RuleDef) (value : f64) (extra : string) : string :=
  let name := al_name (rd_rule def) in
  let text :=
    if negb (is_empty extra) then extra
    else if is_nan value then name +:+ ": no data"
    else name +:+ ": value " +:+ f64_text value in
  bounded (redact text) MAX_SUMMARY_BYTES.

End texts.

Definition text_of (server : string) (event : AlertEvent) : string :=
  let state := if ae_state event =? AlertState.Resolved then "RESOLVED" else severity_word (ae_severity event) in
  let name := if is_empty (ae_rule_name event) then ae_source event else ae_rule_name event in
  let text := "[" +:+ state +:+ "] " +:+ name +:+ ": " +:+ ae_summary event in
  let text := if negb (is_nan (ae_value event)) && negb (SFeqb (ae_value event) f64_zero)
              then text +:+ " (value " +:+ f64_text (ae_value event) +:+ ")" else text in
  let text := if negb (is_empty server) then text +:+ " on server " +:+ server else text in
  bounded text MAX_TEXT_BYTES.

Definition ALERT_STATE_NAMES : list string :=
  ["ALERT_STATE_UNSPECIFIED"; "ALERT_STATE_OK"; "ALERT_STATE_PENDING"; "ALERT_STATE_FIRING"; "ALERT_STATE_RESOLVED";
   "ALERT_STATE_NO_DATA"; "ALERT_STATE_MUTED"].
Definition ALERT_SEVERITY_NAMES : list string :=
  ["ALERT_SEVERITY_UNSPECIFIED"; "ALERT_SEVERITY_INFO"; "ALERT_SEVERITY_WARNING"; "ALERT_SEVERITY_CRITICAL"].
(** [try_from(n).unwrap_or(Unspecified).as_str_name()]. *)
Definition name_of (names : list string) (n : Z) : string :=
  default (default "" (names !! 0%nat)) (if 0 <=? n then names !! Z.to_nat n else None).

Definition webhook_body (server : string) (event : AlertEvent) : Value :=
  let time at_ := match at_ with Some t => VString (rfc t) | None => VNull end in
  json_object [
    ("version", VNumber (PosInt 1)); ("type", VString "alert"); ("server_id", VString server);
    ("event", json_object [
      ("id", VString (ae_id event)); ("ruleId", VString (ae_rule_id event)); ("ruleName", VString (ae_rule_name event));
      ("severity", VString (name_of ALERT_SEVERITY_NAMES (ae_severity event)));
      ("state", VString (name_of ALERT_STATE_NAMES (ae_state event)));
      ("summary", VString (ae_summary event));
      ("value", if is_finite (ae_value event) then VNumber (Float (f64_bits (ae_value event))) else VString "NaN");
      ("startedAt", time (ae_started_at event)); ("resolvedAt", time (ae_resolved_at event));
      ("source", VString (ae_source event)); ("subjectId", VString (ae_subject_id event)) ]) ].
