(* ===== verification/Alerts.v ===== *)
(** * The alert evaluator

    src/local/sched/alerts.rs.  [AlertState_] is the evaluator's locked state
    and its world is that of [Sched]; an operation is one step.  Where the
    source awaits, an operation ends and what follows is a task: the rest of
    an evaluation waiting for the telemetry store ([EvalTask]), a
    notification with the runner or asleep before its next attempt
    ([DeliverTask]), a channel test with the runner ([TestTask]).  The
    telemetry store is the class [AlertSource].  A broadcast of an event to
    the live subscribers is the message [LiveAlert]. *)

From Stdlib Require Import SpecFloat.
From S2P Require Import Prelude RustStr BTree PlanCode Json F64 Jcs Calendar Text Crypto Trust Verify.
From S2P Require Import Store DefinitionStore AdmissionStore AlertRules Reconcile Queries CronExpr Proto OpsStore.
From S2P Require Import Runner Errors Exec Effects Change Hooks CronJobs Sched Redaction AlertDefs.
Import Definitions.

(** What the telemetry store answers at each look. *)
Class AlertSource : Type := {
  metric : nat -> MetricCondition -> Z -> list f64;
  log_count : nat -> LogCondition -> Z -> Z;
  dropped_total : nat -> Z
}.

(** ** State *)

Definition BuiltinKey : Type := string * string * Z.

Record AlertState_ := {
  a_rules : bmap RuleDef;
  a_channels : bmap ChannelDef;
  a_runtime : gmap string Runtime;
  a_builtin : gmap BuiltinKey string;
  a_dropped : option Z;
  a_dropping_since : option Z;
  a_last_drop_seen : Z;
  a_sends : gmap string (list Z);
  a_coalesced : gmap string Z;
  a_last_test : gmap string Z;
  a_target_display : gmap string string;
  a_last_delivery : gmap string DeliveryResult
}.

Definition empty_alerts : AlertState_ :=
  {| a_rules := []; a_channels := []; a_runtime := ∅; a_builtin := ∅; a_dropped := None; a_dropping_since := None;
     a_last_drop_seen := 0; a_sends := ∅; a_coalesced := ∅; a_last_test := ∅; a_target_display := ∅;
     a_last_delivery := ∅ |}.

Definition set_definitions (x : bmap RuleDef * bmap ChannelDef) (s : AlertState_) : AlertState_ :=
  {| a_rules := x.1; a_channels := x.2; a_runtime := a_runtime s; a_builtin := a_builtin s; a_dropped := a_dropped s;
     a_dropping_since := a_dropping_since s; a_last_drop_seen := a_last_drop_seen s; a_sends := a_sends s;
     a_coalesced := a_coalesced s; a_last_test := a_last_test s; a_target_display := a_target_display s;
     a_last_delivery := a_last_delivery s |}.
Definition set_runtime (x : gmap string Runtime) (s : AlertState_) : AlertState_ :=
  {| a_rules := a_rules s; a_channels := a_channels s; a_runtime := x; a_builtin := a_builtin s;
     a_dropped := a_dropped s; a_dropping_since := a_dropping_since s; a_last_drop_seen := a_last_drop_seen s;
     a_sends := a_sends s; a_coalesced := a_coalesced s; a_last_test := a_last_test s;
     a_target_display := a_target_display s; a_last_delivery := a_last_delivery s |}.
Definition set_builtin (x : gmap BuiltinKey string) (s : AlertState_) : AlertState_ :=
  {| a_rules := a_rules s; a_channels := a_channels s; a_runtime := a_runtime s; a_builtin := x;
     a_dropped := a_dropped s; a_dropping_since := a_dropping_since s; a_last_drop_seen := a_last_drop_seen s;
     a_sends := a_sends s; a_coalesced := a_coalesced s; a_last_test := a_last_test s;
     a_target_display := a_target_display s; a_last_delivery := a_last_delivery s |}.
Definition set_dropping (dropped since : option Z) (seen : Z) (s : AlertState_) : AlertState_ :=
  {| a_rules := a_rules s; a_channels := a_channels s; a_runtime := a_runtime s; a_builtin := a_builtin s;
     a_dropped := dropped; a_dropping_since := since; a_last_drop_seen := seen; a_sends := a_sends s;
     a_coalesced := a_coalesced s; a_last_test := a_last_test s; a_target_display := a_target_display s;
     a_last_delivery := a_last_delivery s |}.
Definition set_sends (sends : gmap string (list Z)) (coalesced : gmap string Z) (s : AlertState_) : AlertState_ :=
  {| a_rules := a_rules s; a_channels := a_channels s; a_runtime := a_runtime s; a_builtin := a_builtin s;
     a_dropped := a_dropped s; a_dropping_since := a_dropping_since s; a_last_drop_seen := a_last_drop_seen s;
     a_sends := sends; a_coalesced := coalesced; a_last_test := a_last_test s;
     a_target_display := a_target_display s; a_last_delivery := a_last_delivery s |}.
Definition set_last_test (x : gmap string Z) (s : AlertState_) : AlertState_ :=
  {| a_rules := a_rules s; a_channels := a_channels s; a_runtime := a_runtime s; a_builtin := a_builtin s;
     a_dropped := a_dropped s; a_dropping_since := a_dropping_since s; a_last_drop_seen := a_last_drop_seen s;
     a_sends := a_sends s; a_coalesced := a_coalesced s; a_last_test := x;
     a_target_display := a_target_display s; a_last_delivery := a_last_delivery s |}.
Definition set_delivered (display : gmap string string) (last : gmap string DeliveryResult) (s : AlertState_) : AlertState_ :=
  {| a_rules := a_rules s; a_channels := a_channels s; a_runtime := a_runtime s; a_builtin := a_builtin s;
     a_dropped := a_dropped s; a_dropping_since := a_dropping_since s; a_last_drop_seen := a_last_drop_seen s;
     a_sends := a_sends s; a_coalesced := a_coalesced s; a_last_test := a_last_test s;
     a_target_display := display; a_last_delivery := last |}.

(** A delivery has made [attempts] attempts. *)
Inductive AlertTask :=
| EvalTask (now : Z) (rules : list RuleDef)
| DeliverTask (notification : Notification) (event_id : string) (attempts : Z)
| TestTask (notification : Notification) (now : Z).

Inductive AlertMessage := EventAlert (event : AlertEvent) | LiveAlert (event : AlertEvent).

Section evaluator.
Context {JR : JsonReader} {RE : RegexCrate} {BR : ByteRegex} {JW : JsonWriter} {PB : Prost} {ST : SqliteTime}
  {HO : Host} {AS : AlertSource}.

Notation AlertWorld := (SchedWorld AlertState_ AlertTask AlertMessage).
Definition aact (A : Type) : Type := st AlertWorld A.

Definition log (level : LogLevel) (message : string) : aact unit :=
  emit (Logged level message {| li_source := "agent:alerts"; li_scope := ("", "", ""); li_service_id := ""; li_run_id := "" |}).

(** Unreadable definitions keep the last set. *)
Definition reload : aact unit :=
  let! actions := store_read (fun db => admitted_actions db ALERT_KINDS) in
  match actions with
  | Some actions => modify (set_definitions (load actions))
  | None => ret tt
  end.

(** [state.runtime.entry(id).or_default()]. *)
Definition runtime_of (s : AlertState_) (id : string) : Runtime := default no_runtime (a_runtime s !! id).
Definition put_runtime (id : string) (r : Runtime) (s : AlertState_) : AlertState_ :=
  set_runtime (<[id := r]> (a_runtime s)) s.

(** ** Events *)

Definition event_subject (event : AlertEvent) : string :=
  if is_empty (ae_rule_id event) then ae_subject_id event else ae_rule_id event.

Definition event_entry (event : AlertEvent) (at_ : Z) : Entry :=
  {| en_id := ae_id event; en_subject := event_subject event; en_slot := ae_source event;
     en_status := ae_severity event; en_at := at_; en_body := encode_to_vec alert_event event |}.

Definition with_cursor (event : AlertEvent) (cursor : string) : AlertEvent :=
  {| ae_id := ae_id event; ae_rule_id := ae_rule_id event; ae_rule_name := ae_rule_name event;
     ae_severity := ae_severity event; ae_state := ae_state event; ae_summary := ae_summary event;
     ae_labels := ae_labels event; ae_value := ae_value event; ae_started_at := ae_started_at event;
     ae_resolved_at := ae_resolved_at event; ae_deliveries := ae_deliveries event; ae_cursor := cursor;
     ae_source := ae_source event; ae_subject_id := ae_subject_id event |}.
Definition resolved_event (event : AlertEvent) (now : Z) : AlertEvent :=
  {| ae_id := ae_id event; ae_rule_id := ae_rule_id event; ae_rule_name := ae_rule_name event;
     ae_severity := ae_severity event; ae_state := AlertState.Resolved; ae_summary := ae_summary event;
     ae_labels := ae_labels event; ae_value := ae_value event; ae_started_at := ae_started_at event;
     ae_resolved_at := Some now; ae_deliveries := ae_deliveries event; ae_cursor := ae_cursor event;
     ae_source := ae_source event; ae_subject_id := ae_subject_id event |}.
Definition with_delivery (event : AlertEvent) (result : DeliveryResult) : AlertEvent :=
  {| ae_id := ae_id event; ae_rule_id := ae_rule_id event; ae_rule_name := ae_rule_name event;
     ae_severity := ae_severity event; ae_state := ae_state event; ae_summary := ae_summary event;
     ae_labels := ae_labels event; ae_value := ae_value event; ae_started_at := ae_started_at event;
     ae_resolved_at := ae_resolved_at event; ae_deliveries := ae_deliveries event ++ [result];
     ae_cursor := ae_cursor event; ae_source := ae_source event; ae_subject_id := ae_subject_id event |}.

Definition store_event (event : AlertEvent) : aact unit :=
  let! now := now_ in
  let! stored := checked (fun o => put o KAlertEvent (event_entry event (default now (ae_started_at event)))) in
  match stored with
  | Some seq =>
      let published := with_cursor event (i64_text seq) in
      do! emit (Published default_scope (EventAlert published)) in
      emit (Published default_scope (LiveAlert published))
  | None => ret tt
  end.

Definition load_event (id : string) : aact (option AlertEvent) :=
  let! row := checked (reads (fun o => try_get o KAlertEvent id)) in
  ret match row with Some (Some row) => decode alert_event (or_body row) | _ => None end.

(** ** Sending *)

Fixpoint expire_sends (now : Z) (sends : list Z) : list Z :=
  match sends with
  | at_ :: rest => if 60 <=? now - at_ then expire_sends now rest else sends
  | [] => []
  end.

(** [None] when this send is coalesced. *)
Definition admit_send (channel_id : string) (now : Z) : aact (option Z) :=
  let! s := gets id in
  let sends := expire_sends now (default [] (a_sends s !! channel_id)) in
  let coalesced := default 0 (a_coalesced s !! channel_id) in
  if PER_CHANNEL_PER_MINUTE <=? lenl sends then
    do! modify (set_sends (<[channel_id := sends]> (a_sends s)) (<[channel_id := coalesced + 1]> (a_coalesced s))) in
    ret None
  else
    do! modify (set_sends (<[channel_id := sends ++ [now]]> (a_sends s)) (delete channel_id (a_coalesced s))) in
    ret (Some coalesced).

(** The first occurrence of each id. *)
Fixpoint distinct (seen : gset string) (ids : list string) : list string :=
  match ids with
  | [] => []
  | id :: rest => if bool_decide (id ∈ seen) then distinct seen rest else id :: distinct ({[ id ]} ∪ seen) rest
  end.

Definition notification_text (text : string) (coalesced : Z) : string :=
  if 0 <? coalesced then bounded (text +:+ " (+" +:+ dec_string coalesced +:+ " more alerts)") MAX_TEXT_BYTES else text.

Definition send (event : AlertEvent) (now : Z) (channel : ChannelDef) : aact unit :=
  let! coalesced := admit_send (ch_id channel) now in
  match coalesced with
  | None => ret tt
  | Some coalesced =>
      let! server := draw server_id in
      let! payload := if String.eqb (ch_kind channel) "webhook"
                      then let! server := draw server_id in ret (Some (to_vec (webhook_body server event))) else ret None in
      spawn_task (DeliverTask {| no_channel_id := ch_id channel;
                                 no_text := notification_text (text_of server event) coalesced;
                                 no_event_id := ae_id event; no_payload_json := payload |} (ae_id event) 0)
  end.

Definition held_channels (s : AlertState_) (channel_ids : list string) : list ChannelDef :=
  filter_map (fun id => bget id (a_channels s)) (distinct ∅ channel_ids).

Definition notify (event : AlertEvent) (channel_ids : list string) : aact unit :=
  let! now := now_ in
  let! s := gets id in
  mfor (send event now) (held_channels s channel_ids).

Definition note_display (channel_id display : string) : aact unit :=
  if is_empty display then ret tt
  else modify (fun s => set_delivered (<[channel_id := display]> (a_target_display s)) (a_last_delivery s) s).

(** (ok, status, error, retryable) of an answer. *)
Definition sent_result (answer : RunnerFailure + NotifyResult) : bool * Z * string * bool :=
  match answer with
  | inr sent =>
      (nr_delivered sent, nr_status_code sent, nr_error sent,
       negb (nr_delivered sent)
       && ((nr_status_code sent =? 0) || (nr_status_code sent =? 408) || (nr_status_code sent =? 429)
           || (500 <=? nr_status_code sent)))
  | inl failure => (false, 0, rf_code failure +:+ ": " +:+ rf_message failure, String.eqb (rf_code failure) "E_INTERNAL")
  end.

Definition record_delivery (event_id : string) (result : DeliveryResult) : aact unit :=
  do! modify (fun s => set_delivered (a_target_display s) (<[dr_channel_id result := result]> (a_last_delivery s)) s) in
  do! (if negb (dr_ok result) then
         log LWarn ("alert notification to channel " +:+ dr_channel_id result +:+ " failed after "
                    +:+ dec_string (dr_attempts result) +:+ " attempt(s): " +:+ dr_error result)
       else ret tt) in
  let! event := load_event event_id in
  match event with
  | Some event =>
      let event := with_delivery event result in
      do! checked (fun o => put o KAlertEvent (event_entry event (default 0 (ae_started_at event)))) in ret tt
  | None => ret tt
  end.

(** One attempt of [deliver] answered: asleep until the next one, or done. *)
Definition deliver (n : Notification) (event_id : string) (attempts : Z) (answer : RunnerFailure + NotifyResult) : aact unit :=
  let attempts := attempts + 1 in
  let '(ok, status, error, retryable) := sent_result answer in
  do! match answer with inr sent => note_display (no_channel_id n) (nr_target_display sent) | inl _ => ret tt end in
  let! now := now_ in
  let result := {| dr_channel_id := no_channel_id n; dr_ok := ok; dr_http_status := status; dr_error := bounded error 256;
                   dr_attempted_at := Some now; dr_attempts := attempts |} in
  match RETRY_DELAYS !! Z.to_nat (attempts - 1) with
  | Some _ => if retryable then spawn_task (DeliverTask n event_id attempts) else record_delivery event_id result
  | None => record_delivery event_id result
  end.

(** ** Channel tests *)

Inductive TestRefusal := NotFound | RateLimited.

(** [test_channel] up to its await. *)
Definition test_channel (channel_id : string) : aact (option TestRefusal) :=
  do! reload in
  let! now := now_ in
  let! s := gets id in
  if negb (bcontains channel_id (a_channels s)) then ret (Some NotFound)
  else if is_some_and (a_last_test s !! channel_id) (fun at_ => now - at_ <? TEST_INTERVAL_SECONDS)
  then ret (Some RateLimited)
  else
    do! modify (set_last_test (<[channel_id := now]> (a_last_test s))) in
    let! event_id := fresh_id now in
    do! spawn_task (TestTask {| no_channel_id := channel_id; no_text := "Permanu test notification: this channel works.";
                                no_event_id := event_id; no_payload_json := None |} now) in
    ret None.

Definition finish_test (n : Notification) (now : Z) (answer : RunnerFailure + NotifyResult) : aact DeliveryResult :=
  let channel_id := no_channel_id n in
  do! match answer with inr sent => note_display channel_id (nr_target_display sent) | inl _ => ret tt end in
  let '(ok, status, error, _) := sent_result answer in
  let result := {| dr_channel_id := channel_id; dr_ok := ok; dr_http_status := status; dr_error := bounded error 256;
                   dr_attempted_at := Some now; dr_attempts := 1 |} in
  do! modify (fun s => set_delivered (a_target_display s) (<[channel_id := result]> (a_last_delivery s)) s) in
  ret result.

(** ** Episodes of rules *)

Definition rule_event (id : string) (def : RuleDef) (value : f64) (now : Z) (summary : string) : AlertEvent :=
  {| ae_id := id; ae_rule_id := al_id (rd_rule def); ae_rule_name := al_name (rd_rule def);
     ae_severity := al_severity (rd_rule def); ae_state := AlertState.Firing; ae_summary := summary_of def value summary;
     ae_labels := []; ae_value := value; ae_started_at := Some now; ae_resolved_at := None; ae_deliveries := [];
     ae_cursor := ""; ae_source := "rule"; ae_subject_id := "" |}.

Definition open_rule_episode (def : RuleDef) (value : f64) (now : Z) (summary : string) : aact unit :=
  let id := al_id (rd_rule def) in
  let! event_id := fresh_id now in
  let event := rule_event event_id def value now summary in
  do! modify (fun s => put_runtime id (opened event_id now (silenced def now) (runtime_of s id)) s) in
  do! store_event event in
  do! log LWarn ("alert firing: " +:+ ae_summary event) in
  if negb (silenced def now) then notify event (al_channel_ids (rd_rule def)) else ret tt.

Definition resolve_rule_episode (def : RuleDef) (now : Z) : aact unit :=
  let id := al_id (rd_rule def) in
  let! episode := gets (fun s => rt_episode (runtime_of s id)) in
  do! modify (fun s => put_runtime id (closed now (runtime_of s id)) s) in
  let! event := match episode with Some id => load_event id | None => ret None end in
  match event with
  | None => ret tt
  | Some event =>
      let event := resolved_event event now in
      do! store_event event in
      do! log LInfo ("alert resolved: " +:+ ae_summary event) in
      do! (if al_notify_on_resolve (rd_rule def) && negb (silenced def now)
           then notify event (al_channel_ids (rd_rule def)) else ret tt) in
      modify (fun s => match a_runtime s !! id with Some r => put_runtime id (rested r) s | None => s end)
  end.

Definition step (def : RuleDef) (holds : option bool) (value : f64) (now for_duration : Z) : aact unit :=
  let id := al_id (rd_rule def) in
  let! move := gets (fun s => (advance holds value now for_duration (runtime_of s id)).2) in
  do! modify (fun s => put_runtime id (advance holds value now for_duration (runtime_of s id)).1 s) in
  match move with
  | Fire => open_rule_episode def value now ""
  | Resolve => resolve_rule_episode def now
  | Stay => ret tt
  end.

Definition apply_metric (def : RuleDef) (condition : MetricCondition) (values : list f64) (now : Z) : aact unit :=
  let '(holds, value) := metric_holds condition values in step def holds value now (mc_for_duration condition).

(** A firing rule that is due: its notification was held, or it is time to repeat. *)
Definition repeat_due (def : RuleDef) (now : Z) (r : Runtime) : bool :=
  (rt_state r =? AlertState.Firing) && negb (silenced def now)
  && (rt_held r || (al_repeat_interval (rd_rule def) <=? now - rt_last_notified r)).

Definition repeat_or_release (def : RuleDef) (now : Z) : aact unit :=
  let id := al_id (rd_rule def) in
  let! r := gets (fun s => a_runtime s !! id) in
  match r with
  | Some r =>
      if repeat_due def now r then
        do! modify (put_runtime id (set_notified now false r)) in
        let! event := match rt_episode r with Some episode => load_event episode | None => ret None end in
        match event with Some event => notify event (al_channel_ids (rd_rule def)) | None => ret tt end
      else ret tt
  | None => ret tt
  end.

Definition expire_event_rule (def : RuleDef) (now : Z) : aact unit :=
  let! expired := gets (fun s => is_some_and (a_runtime s !! al_id (rd_rule def)) (fun r =>
    (rt_state r =? AlertState.Firing) && (EVENT_RESOLVE_SECONDS <=? now - rt_last_occurrence r))) in
  if expired then resolve_rule_episode def now else ret tt.

(** ** Built-in events *)

Definition standalone_event (id : string) (event : BuiltinEvent) (summary : string) (now : Z) : AlertEvent :=
  let '(project_id, environment, _) := sc_scope (be_scope event) in
  {| ae_id := id; ae_rule_id := ""; ae_rule_name := ""; ae_severity := AlertSeverity.Warning;
     ae_state := AlertState.Firing; ae_summary := summary;
     ae_labels := bof_list (List.filter (fun '(_, v) => negb (is_empty v))
       [("project_id", project_id); ("environment", environment); ("service_id", sc_service_id (be_scope event))]);
     ae_value := S754_nan; ae_started_at := Some now; ae_resolved_at := None; ae_deliveries := []; ae_cursor := "";
     ae_source := be_source event; ae_subject_id := be_subject_id event |}.

(** The episode a counterpart closes: of its own kind, or else one of the
    same source and subject, whichever the map yields first. *)
Definition take_builtin (event : BuiltinEvent) : aact (option string) :=
  let key := (be_source event, be_subject_id event, condition_number (be_kind event)) in
  let! s := gets id in
  match a_builtin s !! key with
  | Some open => do! modify (set_builtin (delete key (a_builtin s))) in ret (Some open)
  | None =>
      let! keys := draw (fun n => iter_order n (map_to_list (a_builtin s))) in
      match find_first (fun '((source, subject, _), _) =>
              String.eqb source (be_source event) && String.eqb subject (be_subject_id event)) keys with
      | Some (other, open) => do! modify (set_builtin (delete other (a_builtin s))) in ret (Some open)
      | None => ret None
      end
  end.

Definition standalone (event : BuiltinEvent) (matching : list RuleDef) (summary : string) (now : Z) : aact unit :=
  let key := (be_source event, be_subject_id event, condition_number (be_kind event)) in
  let channels := be_channel_ids event
    ++ concat ((fun def => al_channel_ids (rd_rule def)) <$> List.filter (fun def => negb (silenced def now)) matching) in
  if be_occurred event then
    let! open := gets (fun s => a_builtin s !! key) in
    match open with
    | Some _ => ret tt
    | None =>
        let! id := fresh_id now in
        let alert := standalone_event id event summary now in
        do! modify (fun s => set_builtin (<[key := id]> (a_builtin s)) s) in
        do! store_event alert in
        notify alert channels
    end
  else
    let! open := take_builtin event in
    let! alert := match open with Some id => load_event id | None => ret None end in
    match alert with
    | Some alert =>
        let alert := resolved_event alert now in
        do! store_event alert in
        notify alert channels
    | None => ret tt
    end.

Definition builtin_rule (event : BuiltinEvent) (summary : string) (now : Z) (def : RuleDef) : aact unit :=
  let id := al_id (rd_rule def) in
  let! firing := gets (fun s => is_some_and (a_runtime s !! id) (fun r => rt_state r =? AlertState.Firing)) in
  if be_occurred event then
    if firing then modify (fun s => put_runtime id (set_occurrence now (runtime_of s id)) s)
    else open_rule_episode def S754_nan now summary
  else if firing then resolve_rule_episode def now else ret tt.

Definition builtin (event : BuiltinEvent) : aact unit :=
  let! now := now_ in
  do! reload in
  let! s := gets id in
  let matching := List.filter (matches event) ((a_rules s).*2) in
  let summary := bounded (redact (be_summary event)) MAX_SUMMARY_BYTES in
  if be_standalone event then standalone event matching summary now
  else mfor (builtin_rule event summary now) matching.

(** The failed deploys of the change core's events. *)
Definition deploy_event (scope : EventScope) (deploy : DeployStatusEvent) : aact unit :=
  let report occurred := builtin
    {| be_kind := DeployFailed;
       be_scope := scope_of (es_project_id scope, es_environment scope, es_environment_id scope) (es_service_id scope);
       be_source := "deploy"; be_subject_id := ds_service_id deploy; be_occurred := occurred; be_standalone := false;
       be_channel_ids := [];
       be_summary := if (occurred : bool) then "deploy failed: " +:+ ds_message deploy else "deploy live" |} in
  match ds_phase deploy with
  | PhFailed | PhRolledBack => report true
  | PhLive => report false
  | _ => ret tt
  end.

(** ** Evaluation *)

Definition check_dropping (now : Z) : aact unit :=
  let! total := draw dropped_total in
  let! s := gets id in
  let increased := is_some_and (a_dropped s) (fun p => p <? total) in
  let seen := if increased then now else a_last_drop_seen s in
  let occurred := increased && negb (is_some (a_dropping_since s)) in
  let since := if occurred then Some now else a_dropping_since s in
  let cleared := negb increased && is_some since && (DROPPING_CLEAR_SECONDS <=? now - seen) in
  do! modify (set_dropping (Some total) (if cleared then None else since) seen) in
  if occurred || cleared then
    builtin {| be_kind := TelemetryDropping; be_scope := default_scope; be_source := "telemetry"; be_subject_id := "";
               be_occurred := occurred; be_standalone := false; be_channel_ids := [];
               be_summary := if occurred then "the telemetry store is dropping records"
                             else "the telemetry store stopped dropping records" |}
  else ret tt.

Definition evaluate_rule (now : Z) (def : RuleDef) : aact unit :=
  if negb (al_enabled (rd_rule def)) then ret tt
  else
    do! match al_condition (rd_rule def) with
        | Metric condition =>
            let! values := draw (fun n => metric n condition now) in
            apply_metric def condition values now
        | Log condition =>
            let! count := draw (fun n => log_count n condition now) in
            step def (Some (lc_count condition <? count)) (f64_of_Z count) now 0
        | Event _ => expire_event_rule def now
        end in
    repeat_or_release def now.

(** [evaluate] up to its loop over the rules, which is the task. *)
Definition evaluate : aact unit :=
  let! now := now_ in
  do! reload in
  do! check_dropping now in
  let! rules := gets (fun s => (a_rules s).*2) in
  spawn_task (EvalTask now rules).

(** The next rule of an evaluation. *)
Definition evaluate_next (now : Z) (rules : list RuleDef) : aact unit :=
  match rules with
  | [] => ret tt
  | def :: rest => do! evaluate_rule now def in spawn_task (EvalTask now rest)
  end.

(** The seconds [spawn] sleeps before the next evaluation. *)
Definition until_next (now : Z) : Z :=
  let wait := (Z.quot now EVAL_SECONDS + 1) * EVAL_SECONDS - now in if 0 <=? wait then wait else 1.

(** A task goes on: the telemetry store answered, or the runner did. *)
Definition resume (t : AlertTask) (answer : RunnerFailure + NotifyResult) : aact unit :=
  match t with
  | EvalTask now rules => evaluate_next now rules
  | DeliverTask n event_id attempts => deliver n event_id attempts answer
  | TestTask n now => do! finish_test n now answer in ret tt
  end.

(** ** Views *)

Record RuleView := {
  vw_def : RuleDef; vw_state : Z; vw_state_since : option Z; vw_last_evaluated_at : option Z; vw_last_value : f64
}.

Definition view_rule (s : AlertState_) (now : Z) (def : RuleDef) : RuleView :=
  let r := default no_runtime (a_runtime s !! al_id (rd_rule def)) in
  {| vw_def := def;
     vw_state := if silenced def now then AlertState.Muted
                 else if rt_state r =? 0 then AlertState.Ok_ else rt_state r;
     vw_state_since := if 0 <? rt_since r then Some (rt_since r) else None;
     vw_last_evaluated_at := if 0 <? rt_last_evaluated r then Some (rt_last_evaluated r) else None;
     vw_last_value := rt_last_value r |}.

Definition rules : aact (list RuleView) :=
  do! reload in
  let! now := now_ in
  let! s := gets id in
  ret (view_rule s now <$> (a_rules s).*2).

Record ChannelView := {
  cv_channel : ChannelDef; cv_kind : Z; cv_target_display : string; cv_last_delivery : option DeliveryResult
}.

Definition channel_kind (kind : string) : Z :=
  if String.eqb kind "slack" then 1 else if String.eqb kind "discord" then 2
  else if String.eqb kind "webhook" then 3 else 0.

Definition channels_view : aact (list ChannelView) :=
  do! reload in
  let! s := gets id in
  ret ((fun c => {| cv_channel := c; cv_kind := channel_kind (ch_kind c);
                    cv_target_display := default "" (a_target_display s !! ch_id c);
                    cv_last_delivery := a_last_delivery s !! ch_id c |}) <$> (a_channels s).*2).

Definition history (after : option Z) (limit : Z) : aact (list AlertEvent) :=
  let! rows := checked (reads (fun o => try_list o KAlertEvent
    {| ls_subject := None; ls_statuses := []; ls_from := None; ls_to := None; ls_before := None; ls_after := after;
       ls_ascending := true; ls_limit := limit |})) in
  ret (filter_map (fun row => (fun e => with_cursor e (i64_text (or_seq row))) <$> decode alert_event (or_body row))
         (default [] rows)).

End evaluator.

Notation AlertWorld := (SchedWorld AlertState_ AlertTask AlertMessage).
