(* ===== verification/AlertBudget.v ===== *)
(** * The send budget of a channel

    Whatever the evaluator is asked and however its tasks, the stores and
    the clock go on, a channel gets at most thirty notifications in any
    minute, and the ones held back are counted in the next that goes out. *)

From Stdlib Require Import SpecFloat.
From S2P Require Import Prelude RustStr BTree PlanCode Errors Json Jcs Calendar Text Crypto.
From S2P Require Import Trust Verify CronExpr Store DefinitionStore AdmissionStore F64.
From S2P Require Import AlertRules Reconcile Queries Proto OpsStore Effects Runner.
From S2P Require Import Exec Change Hooks CronJobs Sched Redaction AlertDefs Alerts.

(** * What operations of the alert evaluator keep

    A relation between worlds that the primitive effects keep is kept by
    every operation.  [AlertFrame] has the effects every relation of interest
    allows, and notifying; [RuleFrame] adds the operations that move the state
    of a rule. *)

Import Definitions.

(** The rules' states and the send windows are the same. *)
Definition same_core (s s' : AlertState_) : Prop :=
  a_runtime s' = a_runtime s /\ a_sends s' = a_sends s /\ a_coalesced s' = a_coalesced s.

(** A task that is not a first attempt. *)
Definition not_first (t : AlertTask) : Prop :=
  match t with DeliverTask _ _ attempts => 1 <= attempts <= 3 | _ => True end.

(** The attempts a delivery has made leave one more. *)
Definition task_ok (t : AlertTask) : Prop :=
  match t with DeliverTask _ _ attempts => 0 <= attempts <= 3 | _ => True end.

Section frame.
Context {JR : JsonReader} {RE : RegexCrate} {BR : ByteRegex} {JW : JsonWriter} {PB : Prost} {ST : SqliteTime}
  {HO : Host} {AS : AlertSource}.

Class AlertFrame (R : relation AlertWorld) : Prop := {
  af_reader :: Reader R;
  af_emit w o : R w (set_out (w_out w ++ [o]) w);
  af_ops w o : R w (set_ops o w);
  af_draws w n : R w (set_draws n w);
  af_core w s : same_core (w_state w) s -> R w (set_state s w);
  af_spawn w t : not_first t -> R w (set_tasks (w_tasks w ++ [t]) w);
  af_notify event ids : keeps R (notify event ids)
}.

Section lift.
Context {R : relation AlertWorld} {AF : AlertFrame R}.

Lemma alert_keeps_emit o : keeps R (emit o).
Proof. intros w. apply af_emit. Qed.

Lemma alert_keeps_draw {A} (f : nat -> A) : keeps R (draw f).
Proof. intros w. apply af_draws. Qed.

Lemma alert_keeps_checked {A} (f : Ops -> store_result (A * Ops)) : keeps R (checked f).
Proof. apply keeps_transaction. intros. apply af_ops. Qed.

Lemma alert_keeps_core f : (forall s, same_core s (f s)) -> keeps R (modify f).
Proof. intros H w. by apply af_core. Qed.

Lemma alert_keeps_spawn t : not_first t -> keeps R (spawn_task t).
Proof. intros H w. by apply af_spawn. Qed.

#[local] Hint Resolve alert_keeps_emit alert_keeps_draw alert_keeps_checked : keeps.
#[local] Hint Extern 1 (keeps _ (modify _)) => apply alert_keeps_core; intros ?; split_and!; reflexivity : keeps.
#[local] Hint Extern 1 (keeps _ (spawn_task _)) => apply alert_keeps_spawn; exact I : keeps.
#[local] Hint Extern 1 (keeps _ now_) => apply keeps_asks : keeps.

Lemma alert_keeps_log level message : keeps R (log level message).
Proof. unfold log. keep. Qed.

Lemma alert_keeps_reload : keeps R reload.
Proof. unfold reload. keep. Qed.

Lemma alert_keeps_fresh_id now : keeps R (fresh_id now).
Proof. unfold fresh_id. keep. Qed.

#[local] Hint Resolve alert_keeps_log alert_keeps_reload alert_keeps_fresh_id : keeps.

Lemma alert_keeps_store_event event : keeps R (store_event event).
Proof. unfold store_event. keep. Qed.

Lemma alert_keeps_load_event id : keeps R (load_event id).
Proof. unfold load_event. keep. Qed.

Lemma alert_keeps_notify event ids : keeps R (notify event ids).
Proof. apply af_notify. Qed.

#[local] Hint Resolve alert_keeps_store_event alert_keeps_load_event alert_keeps_notify : keeps.

Lemma alert_keeps_note_display id display : keeps R (note_display id display).
Proof. unfold note_display. keep. Qed.

Lemma alert_keeps_record_delivery event_id result : keeps R (record_delivery event_id result).
Proof. unfold record_delivery. keep. Qed.

#[local] Hint Resolve alert_keeps_note_display alert_keeps_record_delivery : keeps.

Lemma retry_not_first attempts delay n event_id :
  0 <= attempts -> RETRY_DELAYS !! Z.to_nat (attempts + 1 - 1) = Some delay ->
  not_first (DeliverTask n event_id (attempts + 1)).
Proof.
  intros H0 H. apply lookup_lt_Some in H. cbn [RETRY_DELAYS length] in H. cbn [not_first]. lia.
Qed.

Lemma alert_keeps_deliver n event_id attempts answer : 0 <= attempts -> keeps R (deliver n event_id attempts answer).
Proof.
  intros H0. unfold deliver. destruct (sent_result answer) as [[[ok status] error] retryable].
  destruct (RETRY_DELAYS !! _) as [delay|] eqn:Hd; keep. apply alert_keeps_spawn. by eapply retry_not_first.
Qed.

Lemma alert_keeps_test_channel id : keeps R (test_channel id).
Proof. unfold test_channel. keep. Qed.

Lemma alert_keeps_finish_test n now answer : keeps R (finish_test n now answer).
Proof. unfold finish_test. keep. Qed.

Lemma alert_keeps_take_builtin event : keeps R (take_builtin event).
Proof. unfold take_builtin. keep. Qed.

#[local] Hint Resolve alert_keeps_take_builtin : keeps.

Lemma alert_keeps_standalone event matching summary now : keeps R (standalone event matching summary now).
Proof. unfold standalone. keep. Qed.

Lemma alert_keeps_rules : keeps R rules.
Proof. unfold rules. keep. Qed.

Lemma alert_keeps_channels_view : keeps R channels_view.
Proof. unfold channels_view. keep. Qed.

Lemma alert_keeps_history after limit : keeps R (history after limit).
Proof. unfold history. keep. Qed.

End lift.

(** Relations that moving a rule also keeps. *)
Class RuleFrame (R : relation AlertWorld) : Prop := {
  rf_frame :: AlertFrame R;
  rf_step def holds value now duration : keeps R (step def holds value now duration);
  rf_repeat def now : keeps R (repeat_or_release def now);
  rf_expire def now : keeps R (expire_event_rule def now);
  rf_builtin_rule event summary now def : keeps R (builtin_rule event summary now def)
}.

Section rules.
Context {R : relation AlertWorld} {RF : RuleFrame R}.

#[local] Hint Resolve alert_keeps_emit alert_keeps_draw alert_keeps_checked alert_keeps_log alert_keeps_reload
  alert_keeps_fresh_id alert_keeps_store_event alert_keeps_load_event alert_keeps_notify alert_keeps_standalone
  rf_step rf_repeat rf_expire rf_builtin_rule : keeps.
#[local] Hint Extern 1 (keeps _ (modify _)) => apply alert_keeps_core; intros ?; split_and!; reflexivity : keeps.
#[local] Hint Extern 1 (keeps _ (spawn_task _)) => apply alert_keeps_spawn; exact I : keeps.
#[local] Hint Extern 1 (keeps _ now_) => apply keeps_asks : keeps.

Lemma alert_keeps_builtin event : keeps R (builtin event).
Proof. unfold builtin. keep. Qed.

#[local] Hint Resolve alert_keeps_builtin : keeps.

Lemma alert_keeps_deploy_event scope deploy : keeps R (deploy_event scope deploy).
Proof. unfold deploy_event. keep. Qed.

Lemma alert_keeps_check_dropping now : keeps R (check_dropping now).
Proof. unfold check_dropping. keep. Qed.

Lemma alert_keeps_apply_metric def condition values now : keeps R (apply_metric def condition values now).
Proof. unfold apply_metric. keep. Qed.

#[local] Hint Resolve alert_keeps_check_dropping alert_keeps_apply_metric : keeps.

Lemma alert_keeps_evaluate_rule now def : keeps R (evaluate_rule now def).
Proof. unfold evaluate_rule. keep. Qed.

#[local] Hint Resolve alert_keeps_evaluate_rule : keeps.

Lemma alert_keeps_evaluate : keeps R evaluate.
Proof. unfold evaluate. keep. Qed.

Lemma alert_keeps_resume t answer : task_ok t -> keeps R (resume t answer).
Proof.
  destruct t as [now rules_|n event_id attempts|n now]; cbn [resume task_ok]; intros Ht.
  - unfold evaluate_next. keep.
  - apply alert_keeps_deliver. lia.
  - keep. apply alert_keeps_finish_test.
Qed.

End rules.

(** ** Runs

    What one process of the agent does with the evaluator, and what goes on
    around it: the clock moves on, the stores change and calls fail. *)

(** The parts of the world other code changes, and later times. *)
Definition around (w w' : AlertWorld) : Prop :=
  w_state w' = w_state w /\ w_tasks w' = w_tasks w /\ w_now w <= w_now w'.

Inductive alert_op : aact unit -> Prop :=
| op_evaluate : alert_op evaluate
| op_builtin event : alert_op (builtin event)
| op_deploy scope deploy : alert_op (deploy_event scope deploy)
| op_test id : alert_op (do! test_channel id in ret tt)
| op_rules : alert_op (do! rules in ret tt)
| op_channels : alert_op (do! channels_view in ret tt)
| op_history after limit : alert_op (do! history after limit in ret tt).

(** The notifications first sent, as (channel, time). *)
Definition first_send (now : Z) (t : AlertTask) : option (string * Z) :=
  match t with
  | DeliverTask n _ attempts => if attempts =? 0 then Some (no_channel_id n, now) else None
  | _ => None
  end.
Definition first_sends (now : Z) (tasks : list AlertTask) : list (string * Z) := omap (first_send now) tasks.
(** What an operation from [w] to [w'] sent: it only adds tasks. *)
Definition sent (w w' : AlertWorld) : list (string * Z) :=
  first_sends (w_now w) (drop (length (w_tasks w)) (w_tasks w')).

Inductive alert_step : AlertWorld -> list (string * Z) -> AlertWorld -> Prop :=
| step_op op w : alert_op op -> alert_step w (sent w (op w).2) (op w).2
| step_task before t after answer w :
    w_tasks w = before ++ t :: after ->
    let w1 := set_tasks (before ++ after) w in
    alert_step w (sent w1 (resume t answer w1).2) (resume t answer w1).2
| step_around w w' : around w w' -> alert_step w [] w'.

Inductive alert_run (w : AlertWorld) : list (string * Z) -> AlertWorld -> Prop :=
| run_start : alert_run w [] w
| run_step l l' w1 w2 : alert_run w l w1 -> alert_step w1 l' w2 -> alert_run w (l ++ l') w2.

(** A process starts with no state and no task. *)
Definition started (w : AlertWorld) : Prop := w_state w = empty_alerts /\ w_tasks w = [].

Lemma alert_keeps_op {R} {RF : RuleFrame R} op : alert_op op -> keeps R op.
Proof.
  intros [];
    first [apply alert_keeps_evaluate|apply alert_keeps_builtin|apply alert_keeps_deploy_event|
           apply keeps_bind; [|intros ?; apply keeps_ret]].
  - apply alert_keeps_test_channel.
  - apply alert_keeps_rules.
  - apply alert_keeps_channels_view.
  - apply alert_keeps_history.
Qed.

End frame.

#[export] Hint Resolve alert_keeps_emit alert_keeps_draw alert_keeps_checked alert_keeps_log alert_keeps_reload
  alert_keeps_fresh_id alert_keeps_store_event alert_keeps_load_event alert_keeps_notify : keeps.
#[export] Hint Extern 1 (keeps _ now_) => apply keeps_asks : keeps.

Import Definitions.

Section budget.
Context {JR : JsonReader} {RE : RegexCrate} {BR : ByteRegex} {JW : JsonWriter} {PB : Prost} {ST : SqliteTime}
  {HO : Host} {AS : AlertSource}.
Implicit Types w : AlertWorld.

Definition times (c : string) (l : list (string * Z)) : list Z := (filter (fun x => x.1 = c) l).*2.
Definition window w (c : string) : list Z := default [] (a_sends (w_state w) !! c).

Lemma times_app c l1 l2 : times c (l1 ++ l2) = times c l1 ++ times c l2.
Proof. unfold times. by rewrite filter_app, fmap_app. Qed.

(** The window of [c] after some work: old entries left at the front, the
    first sends came at the end, and it stays within thirty. *)
Definition moved (now : Z) (before added after : list Z) : Prop :=
  exists old, before ++ added = old ++ after /\ Forall (fun t => 60 <= now - t) old /\
    ((length before <= 30)%nat -> (length after <= 30)%nat).

Lemma moved_refl now l : moved now l [] l.
Proof. exists []. by rewrite app_nil_r. Qed.

Lemma moved_trans now a x b y c : moved now a x b -> moved now b y c -> moved now a (x ++ y) c.
Proof.
  intros (o1 & H1 & Ho1 & Hl1) (o2 & H2 & Ho2 & Hl2). exists (o1 ++ o2). split_and!.
  - by rewrite app_assoc, H1, <- app_assoc, H2, app_assoc.
  - by apply Forall_app.
  - auto.
Qed.

(** What every operation does: it adds tasks and moves the windows. *)
Definition paced w w' : Prop :=
  w_now w' = w_now w /\ exists new, w_tasks w' = w_tasks w ++ new /\ Forall task_ok new /\
    forall c, moved (w_now w) (window w c) (times c (first_sends (w_now w) new)) (window w' c).

Lemma paced_same w w' : w_now w' = w_now w -> w_tasks w' = w_tasks w -> a_sends (w_state w') = a_sends (w_state w) ->
  paced w w'.
Proof.
  intros Hn Ht Hs. split; [done|]. exists []. rewrite app_nil_r. split_and!; [done|constructor|]. intros c.
  unfold window. rewrite Hs. apply moved_refl.
Qed.

#[local] Instance paced_preorder : PreOrder paced.
Proof.
  split; [intros w; by apply paced_same|].
  intros w1 w2 w3 (Hn1 & n1 & Ht1 & Ho1 & Hm1) (Hn2 & n2 & Ht2 & Ho2 & Hm2). rewrite Hn1 in Hn2, Hm2. split; [done|].
  exists (n1 ++ n2). split_and!.
  - by rewrite Ht2, Ht1, app_assoc.
  - by apply Forall_app.
  - intros c. unfold first_sends. rewrite omap_app, times_app. by eapply moved_trans.
Qed.

#[local] Instance paced_reader : Reader paced.
Proof. split; [apply _|intros; by apply paced_same..]. Qed.

Lemma paced_modify f : (forall s, a_sends (f s) = a_sends s) -> keeps paced (modify f).
Proof. intros H w. apply paced_same; [done..|]. apply H. Qed.

(** ** Sending *)

Lemma expire_sends_spec now l :
  exists old, l = old ++ expire_sends now l /\ Forall (fun t => 60 <= now - t) old.
Proof.
  induction l as [|t l IH]; cbn [expire_sends]; [by exists []|]. destruct (60 <=? now - t) eqn:Ht; [|by exists []].
  destruct IH as (old & Hl & Ho). exists (t :: old). split; [cbn; congruence|]. constructor; [lia|done].
Qed.

Lemma admit_send_spec c now w r w' : admit_send c now w = (r, w') ->
  w_now w' = w_now w /\ w_tasks w' = w_tasks w /\ (forall c', c' <> c -> window w' c' = window w c') /\
  moved now (window w c) (if r then [now] else []) (window w' c).
Proof.
  destruct (expire_sends_spec now (window w c)) as (old & Hw & Ho).
  unfold admit_send. intros (s & w1 & [= <- <-] & He)%bind_inv. cbn [id] in He. fold (window w c) in He.
  assert (length (expire_sends now (window w c)) <= length (window w c))%nat as Hle
    by (rewrite Hw at 2; rewrite length_app; lia).
  destruct (PER_CHANNEL_PER_MINUTE <=? _) eqn:Hfull; apply bind_inv in He as (? & w1 & Hm & He);
    injection Hm as _ <-; injection He as <- <-.
  - split_and!; [done..| |].
    + intros c' Hc. unfold window. cbn. by rewrite lookup_insert_ne.
    + unfold window at 2. cbn. rewrite lookup_insert_eq. cbn [default id]. exists old. rewrite app_nil_r.
      split_and!; [exact Hw|done|lia].
  - split_and!; [done..| |].
    + intros c' Hc. unfold window. cbn. by rewrite lookup_insert_ne.
    + unfold window at 2. cbn. rewrite lookup_insert_eq. cbn [default id]. exists old. split_and!.
      * by rewrite app_assoc, <- Hw.
      * done.
      * intros _. rewrite length_app. cbn [length]. unfold lenl, PER_CHANNEL_PER_MINUTE in Hfull. lia.
Qed.

Lemma paced_send event now channel w : w_now w = now -> paced w (send event now channel w).2.
Proof.
  intros Hnow. unfold send. apply run_bind. intros r w1 He.
  destruct (admit_send_spec _ _ _ _ _ He) as (Hn & Ht & Hother & Hmv).
  assert (forall new, Forall task_ok new ->
    (forall c, times c (first_sends now new) = if bool_decide (c = ch_id channel) then if r then [now] else [] else []) ->
    forall w2, w_now w2 = w_now w1 -> w_tasks w2 = w_tasks w1 ++ new -> w_state w2 = w_state w1 -> paced w w2) as Hgo.
  { intros new Hok Hs w2 Hn2 Ht2 Hst. split; [congruence|]. exists new. split_and!; [by rewrite Ht2, Ht|done|].
    intros c. rewrite Hnow, Hs. unfold window at 2. rewrite Hst. fold (window w1 c).
    case_bool_decide as Hc; [by subst c|]. rewrite Hother by done. apply moved_refl. }
  destruct r as [coalesced|].
  - set (task := fun server payload => DeliverTask {| no_channel_id := ch_id channel;
      no_text := notification_text (text_of server event) coalesced; no_event_id := ae_id event;
      no_payload_json := payload |} (ae_id event) 0).
    assert (forall server payload c, times c (first_sends now [task server payload])
              = if bool_decide (c = ch_id channel) then [now] else []) as Hone.
    { intros. unfold times, first_sends. cbn [omap list_omap task first_send Z.eqb no_channel_id]. rewrite filter_cons. cbn [fst].
      destruct (decide (ch_id channel = c)) as [->|Hc].
      - by rewrite bool_decide_true.
      - rewrite bool_decide_false by congruence. done. }
    unfold bind, draw, ret, spawn_task. destruct (String.eqb _ _); cbn [fst snd];
      (eapply (Hgo [task _ _]); [by repeat constructor|apply Hone|reflexivity..]).
  - apply (Hgo []); cbn; [constructor| |done|by rewrite app_nil_r|done]. intros c. by case_bool_decide.
Qed.

Lemma paced_notify event ids : keeps paced (notify event ids).
Proof.
  intros w. change (notify event ids w) with (mfor (send event (w_now w)) (held_channels (w_state w) ids) w).
  generalize (held_channels (w_state w) ids). intros l.
  enough (forall w1, w_now w1 = w_now w -> paced w w1 -> paced w (mfor (send event (w_now w)) l w1).2) as H
    by (apply H; [done|reflexivity]).
  induction l as [|channel l IH]; intros w1 Hn Hp; cbn [mfor]; [exact Hp|].
  apply run_bind. intros [] w2 He. pose proof (paced_send event (w_now w) channel w1 Hn) as Hs. rewrite He in Hs.
  cbn [snd] in Hs. apply IH; [|by etrans]. destruct Hs as [-> _]. done.
Qed.

#[local] Instance paced_frame : AlertFrame paced.
Proof.
  split; [apply _|intros; by apply paced_same..| | |].
  - intros w s (_ & Hs & _). by apply paced_same.
  - intros w t Ht. split; [done|]. exists [t]. split_and!; [done| |].
    + constructor; [|constructor]. destruct t; cbn in *; lia.
    + intros c. assert (first_sends (w_now w) [t] = []) as ->.
      { unfold first_sends. cbn. destruct t as [| |]; cbn; try done. cbn in Ht. by rewrite (proj2 (Z.eqb_neq _ 0)) by lia. }
      apply moved_refl.
  - apply paced_notify.
Qed.

#[local] Hint Extern 1 (keeps _ (modify _)) => apply paced_modify; intros ?; reflexivity : keeps.

Lemma paced_open def value now summary : keeps paced (open_rule_episode def value now summary).
Proof. unfold open_rule_episode. keep. Qed.

Lemma paced_resolve def now : keeps paced (resolve_rule_episode def now).
Proof. unfold resolve_rule_episode. keep. apply paced_modify. intros s. by destruct (_ !! _). Qed.

#[local] Hint Resolve paced_open paced_resolve : keeps.

#[local] Instance paced_rules : RuleFrame paced.
Proof.
  split; [apply _|..]; intros; [unfold step|unfold repeat_or_release|unfold expire_event_rule|unfold builtin_rule]; keep.
Qed.

(** ** Runs *)

(** The log's times of a channel end in its window, and those before are old. *)
Definition accounted (l : list (string * Z)) w : Prop :=
  Forall task_ok (w_tasks w) /\
  forall c, exists old, times c l = old ++ window w c /\ Forall (fun t => 60 <= w_now w - t) old /\
    (length (window w c) <= 30)%nat.

Lemma paced_accounted l w w' : paced w w' -> accounted l w -> accounted (l ++ sent w w') w'.
Proof.
  intros (Hn & new & Ht & Hok & Hm) [Hall Hw]. unfold sent. rewrite Ht, drop_app_length. split.
  { rewrite Ht. by apply Forall_app. }
  intros c. destruct (Hw c) as (old & Hl & Ho & Hlen), (Hm c) as (dropped & Hd & Hdo & Hkeep).
  exists (old ++ dropped). rewrite times_app, Hl, <- !app_assoc, Hd, Hn. split_and!; [done| |auto].
  by apply Forall_app.
Qed.

Lemma step_accounted l w l' w' : alert_step w l' w' -> accounted l w -> accounted (l ++ l') w'.
Proof.
  intros [op w1 Hop|before t after answer w1 Ht w2|w1 w2 (Hs & Ht & Hn)] Ha.
  - apply paced_accounted; [|done]. by apply alert_keeps_op.
  - destruct Ha as [Hall Hw]. rewrite Ht in Hall. apply Forall_app in Hall as [Hb (Hok & Haf)%Forall_cons].
    apply paced_accounted; [by apply alert_keeps_resume|]. split; [by apply Forall_app|exact Hw].
  - rewrite app_nil_r. destruct Ha as [Hall Hw]. split; [by rewrite Ht|]. intros c.
    destruct (Hw c) as (old & Hl & Ho & Hlen). exists old. unfold window. rewrite Hs. split_and!; [done| |done].
    eapply Forall_impl; [exact Ho|]. cbn. lia.
Qed.

Lemma run_accounted w0 l w : started w0 -> alert_run w0 l w -> accounted l w.
Proof.
  intros [Hs Ht] Hr. induction Hr as [|l l' w1 w2 _ IH Hstep]; [|by eapply step_accounted].
  split; [by rewrite Ht; constructor|]. intros c. exists []. unfold window. rewrite Hs. cbn. rewrite lookup_empty. cbn.
  split_and!; [done|constructor|lia].
Qed.

(** A relation that operations and what goes on around them keep is kept by runs. *)
Lemma run_keeps {R} {RF : RuleFrame R} w0 l w :
  (forall w w', around w w' -> R w w') -> (forall w t, R w (set_tasks t w)) ->
  started w0 -> alert_run w0 l w -> R w0 w.
Proof.
  intros Ha Ht Hs Hr. induction Hr as [|l l' w1 w2 Hr IH Hstep]; [reflexivity|].
  pose proof (run_accounted _ _ _ Hs Hr) as [Hok _]. etrans; [exact IH|]. clear IH Hr.
  destruct Hstep as [op w1 Hop|before t after answer w1 Htk w2|w1 w2 Hw].
  - by apply alert_keeps_op.
  - rewrite Htk in Hok. apply Forall_app in Hok as [_ [Hok _]%Forall_cons].
    etrans; [apply (Ht w1 (before ++ after))|]. by apply alert_keeps_resume.
  - by apply Ha.
Qed.


(** ** What is held back is counted *)

Definition held_back w (c : string) : Z := default 0 (a_coalesced (w_state w) !! c).

Lemma admit_send_count c now w r w' : admit_send c now w = (r, w') ->
  default 0 r + held_back w' c = held_back w c + (if r then 0 else 1).
Proof.
  unfold admit_send. intros (s & w1 & [= <- <-] & He)%bind_inv. cbn [id] in He. fold (held_back w c) in He.
  destruct (PER_CHANNEL_PER_MINUTE <=? _); apply bind_inv in He as (? & w1 & Hm & He);
    injection Hm as _ <-; injection He as <- <-; unfold held_back;
    cbn [w_state set_state a_coalesced set_sends default].
  - rewrite lookup_insert_eq. cbn. lia.
  - rewrite lookup_delete_eq. cbn. lia.
Qed.

(** Of any sequence of sends to a channel, the counts that go out with the
    sent ones and the count still held back are together the number of sends
    that were held back. *)
Theorem coalesced_reported c ts w rs w' : mmap (admit_send c) ts w = (rs, w') ->
  fold_right (fun r n => default 0 r + n) 0 rs + held_back w' c = held_back w c + lenl (filter (fun r => r = None) rs).
Proof.
  revert w rs. induction ts as [|now ts IH]; intros w rs He; cbn [mmap] in He.
  { injection He as <- <-. rewrite filter_nil. unfold lenl. cbn [fold_right length]. lia. }
  apply bind_inv in He as (r & w1 & Hr & He). apply bind_inv in He as (rs1 & w2 & Hrs & He). injection He as <- <-.
  apply IH in Hrs. apply admit_send_count in Hr. cbn [fold_right]. rewrite filter_cons.
  destruct r as [n|]; cbn [default] in Hr |- *; [rewrite decide_False by done|rewrite decide_True by done];
    unfold lenl in *; cbn [length]; lia.
Qed.

End budget.
