(* ===== verification/AlertHistory.v ===== *)
(** * Why a rule fires

    The evaluations of one rule, newest first, and what they say about its
    state: a firing rule has seen its condition hold for [for_duration]
    without a contradiction and has not missed twice in a row since; and a
    condition that holds at every evaluation for that long fires. *)

From Stdlib Require Import SpecFloat.
From S2P Require Import Prelude RustStr BTree PlanCode Json F64 Jcs Calendar Text Crypto Trust Verify.
From S2P Require Import Store DefinitionStore AdmissionStore AlertRules Reconcile Queries CronExpr Proto OpsStore.
From S2P Require Import Runner Errors Exec Effects Change Hooks CronJobs Sched Redaction AlertDefs Alerts.
From S2P Require Import AlertBudget.

(** * The state of an alert rule

    How each operation moves the state of a rule ([evaluates]), the shape
    every state has ([typed]), and why a rule fires: its condition held for
    [for_duration], and has not missed twice in a row since. *)

Import Definitions.

(** One evaluation of a rule: when, and what it saw. *)
Record obs := { o_now : Z; o_holds : option bool; o_value : f64 }.

(** What one evaluation makes of a rule's state. *)
Inductive evaluates (d : Z) (o : obs) (r : Runtime) : Runtime -> Prop :=
| ev_stay r1 : advance (o_holds o) (o_value o) (o_now o) d r = (r1, Stay) -> evaluates d o r r1
| ev_fire r1 id held : advance (o_holds o) (o_value o) (o_now o) d r = (r1, Fire) ->
    evaluates d o r (opened id (o_now o) held r1)
| ev_resolve r1 : advance (o_holds o) (o_value o) (o_now o) d r = (r1, Resolve) ->
    evaluates d o r (closed (o_now o) r1)
| ev_rest r1 : advance (o_holds o) (o_value o) (o_now o) d r = (r1, Resolve) ->
    evaluates d o r (rested (closed (o_now o) r1)).

(** ** The shape of a state *)

Record typed (r : Runtime) : Prop := {
  ty_state : 0 <= rt_state r <= 5;
  ty_pending : is_some (rt_pending_since r) = (rt_state r =? AlertState.Pending);
  ty_episode : is_some (rt_episode r) = (rt_state r =? AlertState.Firing);
  ty_held : rt_held r = true -> rt_state r = AlertState.Firing;
  ty_false : 0 <= rt_false_streak r <= 1;
  ty_false_firing : 0 < rt_false_streak r -> rt_state r = AlertState.Firing;
  ty_no_data : 0 <= rt_no_data_streak r
}.

Lemma typed_none : typed no_runtime.
Proof. by split; cbn; (lia || done). Qed.

Lemma alert_state_typed r : 0 <= rt_state r <= 5 -> alert_state_of (rt_state r) = rt_state r.
Proof. intros H. unfold alert_state_of. by rewrite (proj2 (in_range_spec 0 6 (rt_state r))) by lia. Qed.

Ltac state_numbers :=
  unfold AlertState.Firing, AlertState.Pending, AlertState.NoData, AlertState.Resolved, AlertState.Ok_,
    RESOLVE_AFTER_FALSE, NO_DATA_AFTER in *.

Lemma opened_typed id now held r : 0 <= rt_no_data_streak r -> typed (opened id now held r).
Proof. intros H. by split; cbn; state_numbers; (lia || done). Qed.

Lemma closed_typed now r : rt_pending_since r = None -> 0 <= rt_no_data_streak r ->
  typed (closed now r) /\ typed (rested (closed now r)).
Proof. intros Hp H. split; split; cbn; rewrite ?Hp; cbn; state_numbers; (lia || done). Qed.

(** An evaluation stays in a typed state, fires a rule that is not firing,
    or resolves a firing one at its second miss. *)
Lemma advance_typed holds value now d r r' move : typed r -> advance holds value now d r = (r', move) ->
  match move with
  | Stay => typed r'
  | Fire => typed r' /\ rt_state r' <> AlertState.Firing
  | Resolve => rt_state r' = AlertState.Firing /\ rt_pending_since r' = None /\ 0 <= rt_no_data_streak r'
  end.
Proof.
  intros [H1 H2 H3 H4 H5 H6 H7]. unfold advance. cbn [rt_state set_evaluated].
  rewrite (alert_state_typed r H1).
  destruct move, holds as [[|]|]; repeat (case_match; try lia); intros [=]; subst r'; state_numbers.
  all: repeat split; try (cbn in *; state_numbers; destruct (rt_pending_since r), (rt_episode r), (rt_held r);
    cbn in *; (lia || done)).
Qed.

Lemma evaluates_typed d o r r' : typed r -> evaluates d o r r' -> typed r'.
Proof.
  intros Ht He. destruct He as [r1 Ha|r1 id held Ha|r1 Ha|r1 Ha]; apply (advance_typed _ _ _ _ _ _ _ Ht) in Ha.
  - done.
  - apply opened_typed, Ha.
  - destruct Ha as (_ & Hp & Hn). apply (closed_typed (o_now o) r1 Hp Hn).
  - destruct Ha as (_ & Hp & Hn). apply (closed_typed (o_now o) r1 Hp Hn).
Qed.

Lemma notified_typed now r : typed r -> rt_state r = AlertState.Firing -> typed (set_notified now false r).
Proof. intros [] Hf. by split. Qed.

Lemma occurrence_typed now r : typed r -> typed (set_occurrence now r).
Proof. intros []. by split. Qed.

Section machine.
Context {JR : JsonReader} {RE : RegexCrate} {BR : ByteRegex} {JW : JsonWriter} {PB : Prost} {ST : SqliteTime}
  {HO : Host} {AS : AlertSource}.
Implicit Types w : AlertWorld.

(** ** Effects on the states *)

Definition states w : gmap string Runtime := a_runtime (w_state w).
Definition state_of w (def : RuleDef) : Runtime := runtime_of (w_state w) (al_id (rd_rule def)).

(** No rule is moved. *)
Definition calm w w' : Prop := states w' = states w.

#[local] Instance calm_preorder : PreOrder calm.
Proof. unfold calm. split; [intros w; done|intros a b c; congruence]. Qed.

#[local] Instance calm_reader : Reader calm.
Proof. by split; [apply _|..]. Qed.

Lemma calm_admit_send c now : keeps calm (admit_send c now).
Proof.
  intros w. unfold admit_send. apply run_bind. intros s w1 [= <- <-]. destruct (_ <=? _); reflexivity.
Qed.

Lemma calm_notify event ids : keeps calm (notify event ids).
Proof.
  unfold notify. apply keeps_bind; [apply keeps_asks|]. intros now. apply keeps_bind; [apply keeps_gets|]. intros s.
  apply keeps_mfor. intros c. unfold send. apply keeps_bind; [apply calm_admit_send|]. intros [n|]; [|apply keeps_ret].
  apply keeps_bind; [done|]. intros server. apply keeps_bind; [|done].
  destruct (String.eqb _ _); [|apply keeps_ret]. by apply keeps_bind.
Qed.

#[local] Instance calm_frame : AlertFrame calm.
Proof. split; [apply _|done..| |done|apply calm_notify]. intros w s (H & _). exact H. Qed.

Lemma calm_load_event id w event w' : load_event id w = (event, w') -> states w' = states w.
Proof. intros H. apply (keeps_eq (R := calm)) in H; [exact H|keep]. Qed.

Lemma open_effect def value now summary w : exists id,
  states (open_rule_episode def value now summary w).2 =
  <[al_id (rd_rule def) := opened id now (silenced def now) (state_of w def)]> (states w).
Proof.
  unfold open_rule_episode. destruct (fresh_id now w) as [id w1] eqn:Hid. exists id.
  unfold Effects.bind at 1. rewrite Hid. injection Hid as _ <-. unfold Effects.bind at 1. cbn [modify fst snd].
  match goal with |- states (?m ?w2).2 = _ => assert (keeps calm m) as Hc by keep; rewrite (Hc w2) end. done.
Qed.

Lemma resolve_effect def now w : exists r, (r = closed now (state_of w def) \/ r = rested (closed now (state_of w def))) /\
  states (resolve_rule_episode def now w).2 = <[al_id (rd_rule def) := r]> (states w).
Proof.
  unfold resolve_rule_episode. unfold Effects.bind at 1. cbn [gets asks fst snd]. unfold Effects.bind at 1. cbn [modify fst snd].
  set (w1 := set_state _ w). assert (states w1 = <[al_id (rd_rule def) := closed now (state_of w def)]> (states w)) as Hw1 by done.
  apply run_bind. intros event w2 He.
  assert (states w2 = states w1) as Hw2.
  { destruct (rt_episode _); [|by injection He as _ <-]. apply (keeps_eq (R := calm)) in He; [exact He|keep]. }
  destruct event as [event|]; [|exists (closed now (state_of w def)); cbn [ret snd]; rewrite Hw2; auto].
  exists (rested (closed now (state_of w def))). split; [by right|].
  apply run_bind. intros u3 w3 H3. apply (keeps_eq (R := calm)) in H3; [|keep].
  apply run_bind. intros u4 w4 H4. apply (keeps_eq (R := calm)) in H4; [|keep].
  apply run_bind. intros u5 w5 H5. apply (keeps_eq (R := calm)) in H5; [|keep].
  assert (states w5 = <[al_id (rd_rule def) := closed now (state_of w def)]> (states w)) as H.
  { unfold calm in *. congruence. }
  unfold states in *. cbn. rewrite H, lookup_insert_eq. cbn. by rewrite H, insert_insert_eq.
Qed.

Definition observation (now : Z) (holds : option bool) (value : f64) : obs :=
  {| o_now := now; o_holds := holds; o_value := value |}.

Lemma step_effect def holds value now d w : exists r,
  evaluates d (observation now holds value) (state_of w def) r /\
  states (step def holds value now d w).2 = <[al_id (rd_rule def) := r]> (states w).
Proof.
  unfold step. unfold Effects.bind at 1. cbn [gets asks fst snd]. unfold Effects.bind at 1. cbn [modify fst snd].
  fold (state_of w def). destruct (advance holds value now d (state_of w def)) as [r1 move] eqn:Ha. cbn [fst snd].
  set (w1 := set_state _ w).
  assert (states w1 = <[al_id (rd_rule def) := r1]> (states w)) as Hw1 by done.
  assert (state_of w1 def = r1) as Hs1.
  { unfold state_of, runtime_of. fold (states w1). by rewrite Hw1, lookup_insert_eq. }
  destruct move; cbn [ret snd].
  - exists r1. split; [by apply ev_stay|done].
  - destruct (open_effect def value now "" w1) as (id & ->). rewrite Hs1, Hw1, insert_insert_eq.
    eexists. split; [by apply ev_fire|done].
  - destruct (resolve_effect def now w1) as (r & Hr & ->). rewrite Hs1 in Hr. rewrite Hw1, insert_insert_eq.
    exists r. split; [|done]. destruct Hr as [->| ->]; [by apply ev_resolve|by apply ev_rest].
Qed.

Lemma repeat_effect def now w : states (repeat_or_release def now w).2 = states w \/
  exists r, states w !! al_id (rd_rule def) = Some r /\ rt_state r = AlertState.Firing /\
    states (repeat_or_release def now w).2 = <[al_id (rd_rule def) := set_notified now false r]> (states w).
Proof.
  unfold repeat_or_release. apply (run_bind (fun w' => states w' = states w \/ exists r,
    states w !! al_id (rd_rule def) = Some r /\ rt_state r = AlertState.Firing /\
    states w' = <[al_id (rd_rule def) := set_notified now false r]> (states w))).
  intros o w1 [= <- <-]. fold (states w). destruct (states w !! _) as [r|] eqn:Hr; [|by left].
  destruct (repeat_due def now r) eqn:Hd; [|by left]. right. exists r. split_and!; [done|unfold repeat_due in Hd; lia|].
  unfold Effects.bind at 1. cbn [modify fst snd].
  match goal with |- states (?m ?w2).2 = _ => assert (keeps calm m) as Hc by keep; rewrite (Hc w2) end. done.
Qed.

(** ** Every state is typed *)

Definition all_typed w : Prop := map_Forall (fun _ r => typed r) (states w).
Definition keeps_typed w w' : Prop := all_typed w -> all_typed w'.

#[local] Instance keeps_typed_preorder : PreOrder keeps_typed.
Proof. unfold keeps_typed. split; [intros w; done|intros a b c; auto]. Qed.

Lemma calm_typed w w' : calm w w' -> keeps_typed w w'.
Proof. unfold calm, keeps_typed, all_typed. by intros ->. Qed.

Lemma state_typed w def : all_typed w -> typed (state_of w def).
Proof.
  intros H. unfold state_of, runtime_of. destruct (a_runtime _ !! _) as [r|] eqn:Hr; [|apply typed_none]. by eapply H.
Qed.

Lemma insert_typed w w' id r : states w' = <[id := r]> (states w) -> typed r -> keeps_typed w w'.
Proof. intros Hs Hr Hw. unfold all_typed. rewrite Hs. by apply map_Forall_insert_2. Qed.

#[local] Instance typed_frame : AlertFrame keeps_typed.
Proof.
  split; [split; [apply _|..]|..]; intros; try by apply calm_typed.
  - apply calm_typed. destruct H as [H _]. exact H.
  - intros w. apply calm_typed, calm_notify.
Qed.

Lemma typed_resolve def now w : all_typed w -> rt_pending_since (state_of w def) = None ->
  all_typed (resolve_rule_episode def now w).2.
Proof.
  intros Hw Hp. destruct (resolve_effect def now w) as (r & Hr & Hs). eapply insert_typed; [exact Hs| |done].
  destruct (closed_typed now (state_of w def) Hp) as [H1 H2]; [apply state_typed, Hw|]. by destruct Hr as [->| ->].
Qed.

Lemma typed_firing_resolve def now w : all_typed w -> rt_state (state_of w def) = AlertState.Firing ->
  all_typed (resolve_rule_episode def now w).2.
Proof.
  intros Hw Hf. apply typed_resolve; [done|]. destruct (state_typed w def Hw) as [_ Hp _ _ _ _ _]. rewrite Hf in Hp.
  by destruct (rt_pending_since _).
Qed.

Lemma firing_state w def (test : Runtime -> bool) :
  is_some_and (states w !! al_id (rd_rule def)) (fun r => (rt_state r =? AlertState.Firing) && test r) = true ->
  rt_state (state_of w def) = AlertState.Firing.
Proof.
  unfold state_of, runtime_of. fold (states w). destruct (states w !! _) as [r|]; cbn [is_some_and default]; [|done].
  rewrite andb_true_iff, Z.eqb_eq. by intros [H _].
Qed.

Lemma typed_expire def now : keeps keeps_typed (expire_event_rule def now).
Proof.
  intros w Hw. unfold expire_event_rule. apply run_bind. intros expired w1 [= Hx <-]. destruct expired; [|done].
  apply typed_firing_resolve; [done|]. eapply firing_state. exact Hx.
Qed.

Lemma typed_builtin_rule event summary now def : keeps keeps_typed (builtin_rule event summary now def).
Proof.
  intros w Hw. unfold builtin_rule. apply run_bind. intros firing w1 [= Hx <-].
  assert (firing = true -> rt_state (state_of w def) = AlertState.Firing) as Hf.
  { intros ->. eapply (firing_state w def (fun _ => true)). revert Hx. unfold states.
    destruct (a_runtime _ !! _); [|done]. unfold is_some_and. by intros ->. }
  destruct (be_occurred event), firing; [| | |done].
  - eapply (insert_typed w); [reflexivity| |done]. apply occurrence_typed. exact (state_typed w def Hw).
  - destruct (open_effect def S754_nan now summary w) as (id & Hs). eapply insert_typed; [exact Hs| |done].
    apply opened_typed. apply (state_typed w def Hw).
  - apply typed_firing_resolve; auto.
Qed.

#[local] Instance typed_rules : RuleFrame keeps_typed.
Proof.
  split; [apply _|intros def holds value now d w Hw|intros def now w Hw|apply typed_expire|apply typed_builtin_rule].
  - destruct (step_effect def holds value now d w) as (r & He & Hs). eapply insert_typed; [exact Hs| |done].
    eapply evaluates_typed; [|exact He]. by apply state_typed.
  - destruct (repeat_effect def now w) as [Hs|(r & Hr & Hf & Hs)]; [by eapply calm_typed|].
    eapply insert_typed; [exact Hs| |done]. apply notified_typed; [|done]. by eapply Hw.
Qed.

(** C33.  Runs from the start of the process: a state reached has a type.  The
    state is one of the five a rule can be in, a pending time is kept exactly
    while pending, an open episode exactly while firing, a notification is
    held back only while firing, and the count of misses is at most one. *)
Theorem rule_states_typed w0 l w id r : started w0 -> alert_run w0 l w ->
  states w !! id = Some r -> typed r.
Proof.
  intros Hs Hr. assert (keeps_typed w0 w) as Hk.
  { eapply run_keeps; [..|exact Hs|exact Hr].
    - intros w1 w2 (Hst & _). apply calm_typed. unfold calm, states. by rewrite Hst.
    - intros w1 t. by apply calm_typed. }
  apply Hk. unfold all_typed, states. rewrite (proj1 Hs). apply map_Forall_empty.
Qed.

End machine.

Import Definitions.

(** ** Histories *)

Definition hit (o : obs) : Prop := o_holds o = Some true.
Definition miss (o : obs) : Prop := o_holds o <> Some true.
Definition contradicted (o : obs) : Prop := o_holds o = Some false.

(** The newest evaluation is a hit, and with a duration an earlier hit is at
    least that old with no contradiction since. *)
Definition ripe (d : Z) (h : list obs) : Prop :=
  exists o past, h = o :: past /\ hit o /\
    (d = 0 \/ exists pre p post, h = pre ++ p :: post /\ hit p /\ d <= o_now o - o_now p /\
       Forall (fun x => ~ contradicted x) pre).

(** Two neighbours are not both misses. *)
Fixpoint no_double_miss (h : list obs) : Prop :=
  match h with
  | a :: (b :: _) as rest => ~ (miss a /\ miss b) /\ no_double_miss rest
  | _ => True
  end.

(** It became ripe, and since then no two misses in a row. *)
Definition firing_since (d : Z) (h : list obs) : Prop :=
  exists recent fired, h = recent ++ fired /\ ripe d fired /\ no_double_miss (recent ++ take 1 fired).

(** ** One evaluation *)

(** Why an evaluation fires, or where one that neither fires nor resolves goes. *)
Definition fires_for (o : obs) (d : Z) (r : Runtime) : Prop :=
  hit o /\ rt_state r <> AlertState.Firing /\
  (d = 0 \/ exists s, rt_state r = AlertState.Pending /\ rt_pending_since r = Some s /\ d <= o_now o - s).

Inductive stays (o : obs) (d : Z) (r r' : Runtime) : Prop :=
| starts_pending : hit o -> rt_state r <> AlertState.Pending -> rt_state r <> AlertState.Firing -> d <> 0 ->
    rt_state r' = AlertState.Pending -> rt_pending_since r' = Some (o_now o) -> stays o d r r'
| stays_pending : ~ contradicted o -> rt_state r = AlertState.Pending -> rt_state r' = AlertState.Pending ->
    rt_pending_since r' = rt_pending_since r ->
    (hit o -> forall s, rt_pending_since r = Some s -> o_now o - s < d) -> stays o d r r'
| stays_firing : rt_state r = AlertState.Firing -> rt_state r' = AlertState.Firing ->
    (hit o /\ rt_false_streak r' = 0 \/ miss o /\ rt_false_streak r = 0 /\ rt_false_streak r' = 1) -> stays o d r r'
| goes_quiet : miss o -> rt_state r' <> AlertState.Pending -> rt_state r' <> AlertState.Firing -> stays o d r r'.

Lemma advance_view o d r r' move : typed r ->
  advance (o_holds o) (o_value o) (o_now o) d r = (r', move) ->
  match move with Fire => fires_for o d r | Resolve => rt_state r = AlertState.Firing /\ miss o | Stay => stays o d r r' end.
Proof.
  intros Ht. destruct Ht as [H1 H2 _ _ H5 _ _]. unfold advance. cbn [rt_state set_evaluated rt_pending_since set_streaks].
  rewrite (alert_state_typed r H1). destruct o as [now holds value]. cbn [o_now o_holds o_value].
  destruct (rt_state r =? AlertState.Firing) eqn:Hf.
  { apply Z.eqb_eq in Hf. destruct holds as [[|]|]; cbn [rt_false_streak set_streaks].
    - intros [= <- <-]. apply stays_firing; [done..|]. by left.
    - destruct (_ <=? _) eqn:Hk; intros [= <- <-]; [done|]. apply stays_firing; [done..|right]. cbn in *. state_numbers.
      split; [done|lia].
    - destruct (_ <=? _) eqn:Hk; intros [= <- <-]; [done|]. apply stays_firing; [done..|right]. cbn in *. state_numbers.
      split; [done|lia]. }
  apply Z.eqb_neq in Hf. destruct (rt_state r =? AlertState.Pending) eqn:Hp.
  { apply Z.eqb_eq in Hp. assert (exists s, rt_pending_since r = Some s) as [s Hs] by (destruct (rt_pending_since r); [by eexists|done]).
    destruct holds as [[|]|].
    - cbn [rt_pending_since set_streaks set_evaluated]. rewrite Hs. cbn [from_option id].
      destruct (d <=? now - s) eqn:Hd; intros [= <- <-].
      + unfold fires_for. split_and!; [done..|right]. exists s. split_and!; [done..|]. cbn. lia.
      + apply stays_pending; [done..|]. cbn. intros _ s' Hs'. rewrite Hs in Hs'. injection Hs' as <-. lia.
    - intros [= <- <-]. by apply goes_quiet.
    - destruct (_ && _); intros [= <- <-]; [by apply goes_quiet|]. apply stays_pending; [done..|]. by intros. }
  apply Z.eqb_neq in Hp. destruct holds as [[|]|].
  - destruct (d =? 0) eqn:Hd; intros [= <- <-].
    + unfold fires_for. split_and!; [done..|left]. lia.
    + apply starts_pending; [done..|lia|done|done].
  - destruct (_ || _); intros [= <- <-]; by apply goes_quiet.
  - destruct (_ && _); intros [= <- <-]; by apply goes_quiet.
Qed.

(** ** What a state says of the history *)

Definition head_counts (h : list obs) (misses : Z) : Prop :=
  match h with o :: _ => hit o /\ misses = 0 \/ miss o /\ misses = 1 | [] => False end.

Record tells (d : Z) (h : list obs) (r : Runtime) : Prop := {
  tl_pending : rt_state r = AlertState.Pending -> exists pre p post, h = pre ++ p :: post /\
    rt_pending_since r = Some (o_now p) /\ hit p /\ Forall (fun x => ~ contradicted x) pre;
  tl_firing : rt_state r = AlertState.Firing -> firing_since d h /\ head_counts h (rt_false_streak r)
}.

Lemma tells_quiet d h r : rt_state r <> AlertState.Pending -> rt_state r <> AlertState.Firing -> tells d h r.
Proof. by split. Qed.

Lemma firing_more d h o : firing_since d h -> hit o \/ head_counts h 0 -> firing_since d (o :: h).
Proof.
  intros (recent & fired & -> & Hr & Hn) Hh. exists (o :: recent), fired. split_and!; [done..|].
  destruct Hr as (o1 & past & -> & Hhit & _). cbn [take app] in *.
  destruct recent as [|x recent]; cbn [app no_double_miss] in *; (split; [|done]).
  - intros [Hm Hm']. by apply Hm'.
  - intros [Hm Hm']. destruct Hh as [Hh|[[Hx _]|[_ H]]]; [by apply Hm|by apply Hm'|lia].
Qed.

Lemma firing_now d h o : hit o ->
  (d = 0 \/ exists pre p post, h = pre ++ p :: post /\ hit p /\ d <= o_now o - o_now p /\
     Forall (fun x => ~ contradicted x) pre) ->
  firing_since d (o :: h).
Proof.
  intros Ho Hd. exists [], (o :: h). split_and!; [done| |done]. exists o, h. split_and!; [done..|].
  destruct Hd as [->|(pre & p & post & -> & Hp & Hle & Hc)]; [by left|right]. exists (o :: pre), p, post.
  split_and!; [done..|]. constructor; [|done]. unfold contradicted. rewrite Ho. discriminate.
Qed.

Lemma evaluates_tells d h o r r' : typed r -> tells d h r -> evaluates d o r r' -> tells d (o :: h) r'.
Proof.
  intros Ht [Hp Hf] He. destruct He as [r1 Ha|r1 id held Ha|r1 Ha|r1 Ha]; apply (advance_view _ _ _ _ _ Ht) in Ha.
  - destruct Ha as [Ho _ _ _ Hs1 Hs2|Ho Hs1 Hs2 Hs3 _|Hs1 Hs2 Hm|Ho Hs1 Hs2].
    + split; [|rewrite Hs1; discriminate]. intros _. exists [], o, h. split_and!; [done..|constructor].
    + split; [|rewrite Hs2; discriminate]. intros _. destruct (Hp Hs1) as (pre & p & post & -> & Hps & Hhit & Hc).
      exists (o :: pre), p, post. rewrite Hs3. split_and!; [done..|by constructor].
    + split; [rewrite Hs2; discriminate|]. intros _. destruct (Hf Hs1) as [Hsince Hhead]. split.
      * apply firing_more; [done|]. destruct Hm as [[Ho _]|(_ & H0 & _)]; [by left|right]. by rewrite H0 in Hhead.
      * destruct Hm as [[Ho ->]|(Ho & _ & ->)]; cbn; auto.
    + by apply tells_quiet.
  - destruct Ha as (Ho & _ & Hd). split; [discriminate|]. intros _. split; [|cbn; auto]. apply firing_now; [done|].
    destruct Hd as [->|(s & Hs & Hps & Hle)]; [by left|right]. destruct (Hp Hs) as (pre & p & post & -> & Hps' & Hhit & Hc).
    exists pre, p, post. split_and!; [done..| |done]. rewrite Hps' in Hps. by injection Hps as ->.
  - by apply tells_quiet.
  - by apply tells_quiet.
Qed.

(** ** A condition that holds *)

Definition older (a b : obs) : Prop := o_now b <= o_now a.

(** If the newest evaluations are all hits, the rule fires, or it is pending
    from before the oldest of them and [d] has not passed yet. *)
Definition holding (d : Z) (h : list obs) (r : Runtime) : Prop :=
  forall newest recent oldest past, h = recent ++ past -> StronglySorted older h -> Forall hit recent ->
    hd_error recent = Some newest -> last recent = Some oldest ->
    rt_state r = AlertState.Firing \/
    rt_state r = AlertState.Pending /\ exists s, rt_pending_since r = Some s /\ s <= o_now oldest /\ o_now newest - s < d.

Lemma pending_before d h o r s : tells d h r -> StronglySorted older (o :: h) -> rt_state r = AlertState.Pending ->
  rt_pending_since r = Some s -> s <= o_now o.
Proof.
  intros [Hp _] Hs Hst Hps. destruct (Hp Hst) as (pre & p & post & -> & Hps' & _). rewrite Hps in Hps'. injection Hps' as ->.
  apply StronglySorted_inv in Hs as [_ Hall]. apply Forall_app in Hall as [_ [Hle _]%Forall_cons]. exact Hle.
Qed.

Lemma evaluates_holding d h o r r' : 0 <= d -> typed r -> tells d h r -> holding d h r -> evaluates d o r r' ->
  holding d (o :: h) r'.
Proof.
  intros Hd Ht Htl Hh He newest recent oldest past Heq Hsort Hhits Hhead Hlast.
  destruct recent as [|o' rest]; [done|]. injection Heq as <- Hrest. injection Hhead as <-.
  apply Forall_cons in Hhits as [Ho Hhits]. pose proof (proj1 (StronglySorted_inv Hsort)) as Hsort'.
  assert (rest = [] /\ oldest = o \/ exists n, hd_error rest = Some n /\ last rest = Some oldest) as Hold.
  { destruct rest as [|n rest]; [left|right].
    - by injection Hlast as ->.
    - exists n. by rewrite last_cons_cons in Hlast. }
  destruct He as [r1 Ha|r1 id held Ha|r1 Ha|r1 Ha]; apply (advance_view _ _ _ _ _ Ht) in Ha;
    [|by left|by destruct Ha as [_ []]..].
  destruct Ha as [_ Hs1 Hs2 Hd0 Hs3 Hs4|Ho' Hs1 Hs2 Hs3 Hlt|Hs1 Hs2 _|[]]; [| |by left|done].
  - right. split; [done|]. exists (o_now o). destruct Hold as [[-> ->]|(n & Hn & Hl)]; [split_and!; [done|lia..]|].
    destruct (Hh n rest oldest past Hrest Hsort' Hhits Hn Hl) as [?|[? _]]; done.
  - right. split; [done|]. rewrite Hs3. pose proof (ty_pending _ Ht) as Hp. rewrite Hs1 in Hp.
    destruct (rt_pending_since r) as [s|] eqn:Hps; [|done]. exists s. split_and!; [done| |by apply Hlt].
    destruct Hold as [[-> ->]|(n & Hn & Hl)]; [by eapply pending_before|].
    destruct (Hh n rest oldest past Hrest Hsort' Hhits Hn Hl) as [Hf|(_ & s' & Hs' & Hle & _)];
      [by rewrite Hf in Hs1|]. rewrite Hps in Hs'. by injection Hs' as ->.
Qed.

(** ** Rules of the evaluator *)

Section histories.
Context {JR : JsonReader} {RE : RegexCrate} {BR : ByteRegex} {JW : JsonWriter} {PB : Prost} {ST : SqliteTime}
  {HO : Host} {AS : AlertSource}.
Implicit Types w : AlertWorld.

(** What only evaluations change: repeats and occurrences do not. *)
Definition phase (r : Runtime) : Z * option Z * Z := (rt_state r, rt_pending_since r, rt_false_streak r).

(** The evaluations of one rule since it has a state, newest first, with
    other work of the agent in between. *)
Inductive observed (def : RuleDef) (d : Z) : list obs -> AlertWorld -> Prop :=
| obs_start w : states w !! al_id (rd_rule def) = None -> observed def d [] w
| obs_other h w w' : observed def d h w -> phase (state_of w' def) = phase (state_of w def) ->
    typed (state_of w' def) -> observed def d h w'
| obs_step h w o : observed def d h w ->
    observed def d (o :: h) (step def (o_holds o) (o_value o) (o_now o) d w).2.

Lemma observed_start w def : states w !! al_id (rd_rule def) = None -> state_of w def = no_runtime.
Proof. unfold state_of, runtime_of. fold (states w). by intros ->. Qed.

Lemma step_evaluates def o d w :
  evaluates d o (state_of w def) (state_of (step def (o_holds o) (o_value o) (o_now o) d w).2 def).
Proof.
  destruct (step_effect def (o_holds o) (o_value o) (o_now o) d w) as (r & He & Hs).
  unfold state_of at 2, runtime_of. fold (states (step def (o_holds o) (o_value o) (o_now o) d w).2).
  rewrite Hs, lookup_insert_eq. by destruct o.
Qed.

Lemma observed_tells def d h w : observed def d h w -> typed (state_of w def) /\ tells d h (state_of w def).
Proof.
  intros Ho. induction Ho as [w Hn|h w w' _ [_ IH] Hp Ht|h w o _ [IH1 IH2]].
  - rewrite (observed_start _ _ Hn). split; [apply typed_none|by apply tells_quiet].
  - split; [done|]. injection Hp as H1 H2 H3. destruct IH as [Hpe Hfi]. split; rewrite H1.
    + rewrite H2. exact Hpe.
    + rewrite H3. exact Hfi.
  - pose proof (step_evaluates def o d w) as He. split; [by eapply evaluates_typed|by eapply evaluates_tells].
Qed.

Lemma observed_holding def d h w : 0 <= d -> observed def d h w -> holding d h (state_of w def).
Proof.
  intros Hd Ho. induction Ho as [w Hn|h w w' Ho IH Hp Ht|h w o Ho IH].
  - intros n recent oldest past Heq _ _ Hh _. by destruct recent.
  - intros n recent oldest past Heq Hs Hhits Hh Hl. injection Hp as H1 H2 H3. rewrite H1, H2. by eapply IH.
  - destruct (observed_tells _ _ _ _ Ho) as [Ht Htl].
    eapply evaluates_holding; [done|exact Ht|exact Htl|exact IH|apply step_evaluates].
Qed.


(** C31.  A condition that holds at every one of the latest evaluations, the oldest
    of them at least [for_duration] before the newest, is FIRING. *)
Theorem held_condition_fires def d recent newest oldest past w :
  0 <= d -> observed def d (recent ++ past) w -> StronglySorted older (recent ++ past) -> Forall hit recent ->
  hd_error recent = Some newest -> last recent = Some oldest -> d <= o_now newest - o_now oldest ->
  rt_state (state_of w def) = AlertState.Firing.
Proof.
  intros Hd Ho Hs Hhits Hh Hl Hle.
  destruct (observed_holding _ _ _ _ Hd Ho newest recent oldest past eq_refl Hs Hhits Hh Hl)
    as [?|(_ & s & _ & Hso & Hlt)]; [done|lia].
Qed.

End histories.

(** * Silences

    While a rule is silenced its state is tracked and nothing is sent; what
    was held back goes out once, at the first evaluation after the silence. *)

Section silence.
Context {JR : JsonReader} {RE : RegexCrate} {BR : ByteRegex} {JW : JsonWriter} {PB : Prost} {ST : SqliteTime}
  {HO : Host} {AS : AlertSource}.
Implicit Types w : AlertWorld.

(** Nothing was sent. *)
Notation unsent := (silent (w_tasks (S := AlertState_) (T := AlertTask) (E := AlertMessage))).

#[local] Instance unsent_reader : Reader unsent.
Proof. by split; [apply _|..]. Qed.

Lemma unsent_modify f : keeps unsent (modify f).
Proof. done. Qed.

Lemma unsent_emit o : keeps unsent (emit o).
Proof. done. Qed.

Lemma unsent_draw {A} (f : nat -> A) : keeps unsent (draw f).
Proof. done. Qed.

Lemma unsent_checked {A} (f : Ops -> store_result (A * Ops)) : keeps unsent (checked f).
Proof. by apply keeps_transaction. Qed.

#[local] Hint Resolve unsent_modify unsent_emit unsent_draw unsent_checked : keeps.

Lemma unsent_store_event event : keeps unsent (store_event event).
Proof. unfold store_event. keep. Qed.

Lemma unsent_load_event id : keeps unsent (load_event id).
Proof. unfold load_event. keep. Qed.

Lemma unsent_log level message : keeps unsent (log level message).
Proof. unfold log. keep. Qed.

#[local] Hint Resolve unsent_store_event unsent_load_event unsent_log : keeps.

Lemma unsent_open def value now summary : silenced def now = true -> keeps unsent (open_rule_episode def value now summary).
Proof. intros Hs. unfold open_rule_episode, fresh_id. rewrite Hs. cbn [negb]. keep. Qed.

Lemma unsent_resolve def now : silenced def now = true -> keeps unsent (resolve_rule_episode def now).
Proof. intros Hs. unfold resolve_rule_episode. rewrite Hs. cbn [negb]. rewrite andb_false_r. keep. Qed.

#[local] Hint Resolve unsent_open unsent_resolve : keeps.

Lemma unsent_step def holds value now d : silenced def now = true -> keeps unsent (step def holds value now d).
Proof. intros Hs. unfold step. keep. Qed.

Lemma unsent_repeat def now : silenced def now = true -> keeps unsent (repeat_or_release def now).
Proof.
  intros Hs. unfold repeat_or_release, repeat_due. rewrite Hs. cbn [negb]. apply keeps_bind; [keep|].
  intros [r|]; [|keep]. rewrite andb_false_r. cbn [andb]. keep.
Qed.

#[local] Hint Resolve unsent_step unsent_repeat : keeps.

Lemma unsent_evaluate_rule now def : silenced def now = true -> keeps unsent (evaluate_rule now def).
Proof. intros Hs. unfold evaluate_rule, apply_metric, expire_event_rule. keep. Qed.

Lemma unsent_builtin_rule event summary now def : silenced def now = true ->
  keeps unsent (builtin_rule event summary now def).
Proof. intros Hs. unfold builtin_rule. keep. Qed.

(** While a rule is silenced, neither its evaluation nor an event it matches
    sends a notification; an episode that opens is marked as held back; and
    at the first evaluation after the silence ends with the rule still
    firing, the recorded event goes to the rule's channels and the mark is
    removed. *)
Theorem silence_respected def now w :
  (silenced def now = true ->
     w_tasks (evaluate_rule now def w).2 = w_tasks w /\
     (forall event summary, w_tasks (builtin_rule event summary now def w).2 = w_tasks w) /\
     (forall value summary, rt_held (state_of (open_rule_episode def value now summary w).2 def) = true)) /\
  (forall r id event w1, silenced def now = false ->
     states w !! al_id (rd_rule def) = Some r -> rt_state r = AlertState.Firing -> rt_held r = true ->
     rt_episode r = Some id ->
     load_event id (set_state (put_runtime (al_id (rd_rule def)) (set_notified now false r) (w_state w)) w) = (Some event, w1) ->
     (repeat_or_release def now w).2 = (notify event (al_channel_ids (rd_rule def)) w1).2 /\
     rt_held (state_of (repeat_or_release def now w).2 def) = false).
Proof.
  split.
  - intros Hs. split_and!.
    + apply (unsent_evaluate_rule now def Hs).
    + intros event summary. apply (unsent_builtin_rule event summary now def Hs).
    + intros value summary. destruct (open_effect def value now summary w) as (id & H). unfold state_of, runtime_of.
      fold (states (open_rule_episode def value now summary w).2). by rewrite H, lookup_insert_eq.
  - intros r id event w1 Hs Hr Hf Hh He Hl.
    assert (repeat_due def now r = true) as Hd by (unfold repeat_due; rewrite Hs, Hf, Hh; done).
    assert ((repeat_or_release def now w).2 = (notify event (al_channel_ids (rd_rule def)) w1).2) as Heq.
    { unfold repeat_or_release. unfold Effects.bind at 1. cbn [gets asks fst snd]. fold (states w). rewrite Hr, Hd.
      unfold Effects.bind at 1. cbn [modify fst snd]. rewrite He. unfold Effects.bind. by rewrite Hl. }
    split; [exact Heq|]. rewrite Heq. unfold state_of, runtime_of. fold (states (notify event (al_channel_ids (rd_rule def)) w1).2).
    rewrite calm_notify. apply calm_load_event in Hl. rewrite Hl. unfold states. cbn. by rewrite lookup_insert_eq.
Qed.

End silence.
