(* ===== verification/AlertSamples.v ===== *)
(** * Alerts at work

    One channel and one metric rule (cpu above 90 for a minute) of an admitted
    plan.  The witnesses of the alert theorems evaluate this world, and so
    does the theorem about a counterpart event that leaves an episode open. *)

From Stdlib Require Import SpecFloat.
From S2P Require Import Prelude RustStr BTree PlanCode Json F64 Jcs JsonRead Calendar Text Crypto Trust Verify Samples.
From S2P Require Import Store DefinitionStore AdmissionStore AlertRules Reconcile Queries CronExpr Proto OpsStore OpsFacts Wire.
From S2P Require Import Runner Errors Exec Effects Change Hooks CronJobs Sched Redaction AlertDefs Alerts.
From S2P Require Import CronSched CronSamples AlertBudget AlertHistory.
Import Definitions.

#[local] Existing Instance canonical_reader.
#[local] Existing Instance wire.
#[local] Existing Instance plain_time.
#[local] Existing Instance counting_host.
#[local] Existing Instance marker_regex.
#[local] Instance all_regex : RegexCrate := {| regex_compiles := fun _ => true |}.
#[local] Instance canonical_writer : JsonWriter := {| to_vec := fun v => default "" (canonicalize v) |}.
(** The cpu stays at 95, nothing is logged and nothing dropped. *)
#[local] Instance busy_source : AlertSource :=
  {| metric := fun _ _ _ => [f64_of_Z 95]; log_count := fun _ _ _ => 0; dropped_total := fun _ => 0 |}.

(** ** The definitions *)

Definition rule_spec : string := default "" (canonicalize (obj
  [ ("metric", obj [("metric", str "cpu"); ("op", str "COMPARISON_OP_GT"); ("threshold", nat_value 90);
                    ("forDuration", str "60s")]);
    ("channel_ids", VArray [str "c-1"]); ("enabled", VBool true) ])).

Definition alert_envelope : string := default "" (canonicalize (obj [("plan", obj [("actions", VArray
  [ obj [("kind", str "alert.channel.create"); ("params", obj
      [("channel_id", str "c-1"); ("name", str "ops"); ("channel_kind", str "webhook");
       ("credential_ciphertext_digest_hex", str hex_a)])];
    obj [("kind", str "alert.rule.create"); ("params", obj
      [("alert_rule_id", str "r-1"); ("name", str "cpu high"); ("spec", str rule_spec)])] ])])])).

Definition alert_admission : AdmissionRow :=
  {| ad_plan_id := plan_a; ad_plan_digest_hex := hex_a; ad_signed_plan_json := alert_envelope; ad_submitter := "client";
     ad_operation_id := plan_a; ad_admitted_at := "2026-01-01T00:00:00Z"; ad_finished_at := Some "2026-01-01T00:00:00Z";
     ad_outcome := "succeeded"; ad_admission_seq := 1; ad_nonce := ""; ad_author_kind := "user";
     ad_signer_key_ids := []; ad_action_kinds := ["alert.channel.create"; "alert.rule.create"]; ad_project_id := project_a;
     ad_environment := "production"; ad_head_before_hex := ""; ad_head_after_hex := ""; ad_rule_id := None;
     ad_delivery_id := None; ad_expires_at := "2026-01-01T00:10:00Z"; ad_environment_id := env_id_a |}.

Definition alert_action (index : Z) (kind : string) : ActionRow :=
  {| ac_plan_id := plan_a; ac_action_index := index; ac_kind := kind; ac_consumed_at := None;
     ac_finished_at := Some "2026-01-01T00:00:00Z"; ac_outcome := "succeeded"; ac_consumed_seq := None;
     ac_result_seq := None; ac_deployment_id := None |}.

Definition alert_db : Db :=
  with_actions (with_admissions (empty_db 0 None) [alert_admission])
    [alert_action 0 "alert.channel.create"; alert_action 1 "alert.rule.create"].

Definition alerts_0 : AlertWorld :=
  {| w_state := empty_alerts; w_ops := empty_ops; w_failures := 0; w_db := alert_db; w_log := None; w_now := now_0;
     w_faults := []; w_draws := 0; w_tasks := []; w_out := [] |}.

(** ** A minute of evaluations *)

Definition alerts_at (s : Z) (w : AlertWorld) : AlertWorld :=
  {| w_state := w_state w; w_ops := w_ops w; w_failures := w_failures w; w_db := w_db w; w_log := w_log w;
     w_now := now_0 + s; w_faults := w_faults w; w_draws := w_draws w; w_tasks := w_tasks w; w_out := w_out w |}.

Definition delivered : RunnerFailure + NotifyResult :=
  inr {| nr_delivered := true; nr_status_code := 200; nr_target_display := "hooks"; nr_error := "" |}.

(** The first task goes on. *)
Definition first_task (w : AlertWorld) : AlertWorld :=
  match w_tasks w with t :: rest => (resume t delivered (set_tasks rest w)).2 | [] => w end.
(** An evaluation and its one rule. *)
Definition evaluated (s : Z) (w : AlertWorld) : AlertWorld :=
  first_task (first_task (evaluate (alerts_at s w)).2).

Definition alerts_30 : AlertWorld := evaluated 30 (evaluated 0 alerts_0).
(** At 60 s the rule fires; the delivery is the only task left. *)
Definition alerts_60 : AlertWorld := first_task (evaluate (alerts_at 60 alerts_30)).2.
Definition rule_1 : Runtime := default no_runtime (states alerts_60 !! "r-1").

Example fires_after_a_minute :
  (rt_state <$> states alerts_30 !! "r-1", rt_state rule_1, rt_episode rule_1) =
    (Some AlertState.Pending, AlertState.Firing, Some (default "" (rt_episode rule_1))) /\
  omap (fun t => match t with DeliverTask n _ attempts => Some (no_channel_id n, no_text n, attempts) | _ => None end)
    (w_tasks alerts_60) =
    [("c-1", "[WARNING] cpu high: cpu high: value 95 (value 95) on server " +:+ server_a, 0)].
Proof. vm_compute. done. Qed.

(** ** The run *)

Lemma run_at w0 l w s : alert_run w0 l w -> (w_now w <=? now_0 + s) = true -> alert_run w0 l (alerts_at s w).
Proof.
  intros Hr Hs. rewrite <- (app_nil_r l). eapply run_step; [exact Hr|]. apply step_around. split_and!; [done..|].
  by apply Z.leb_le.
Qed.

Lemma run_op w0 l w op : alert_run w0 l w -> alert_op op -> alert_run w0 (l ++ sent w (op w).2) (op w).2.
Proof. intros Hr Ho. eapply run_step; [exact Hr|]. by apply step_op. Qed.

Definition task_label (w : AlertWorld) : list (string * Z) :=
  match w_tasks w with t :: rest => sent (set_tasks rest w) (first_task w) | [] => [] end.

Lemma run_task w0 l w : alert_run w0 l w -> alert_run w0 (l ++ task_label w) (first_task w).
Proof.
  intros Hr. unfold task_label, first_task. destruct (w_tasks w) as [|t rest] eqn:Ht; [by rewrite app_nil_r|].
  eapply run_step; [exact Hr|]. by apply (step_task [] t rest delivered w).
Qed.

Definition evaluation_label (s : Z) (w : AlertWorld) : list (string * Z) :=
  sent (alerts_at s w) (evaluate (alerts_at s w)).2 ++ task_label (evaluate (alerts_at s w)).2.

Lemma run_evaluation w0 l w s : alert_run w0 l w -> (w_now w <=? now_0 + s) = true ->
  alert_run w0 (l ++ evaluation_label s w) (first_task (evaluate (alerts_at s w)).2).
Proof.
  intros Hr Hs. unfold evaluation_label. rewrite app_assoc. apply run_task, run_op; [by apply run_at|constructor].
Qed.

Definition whole_label (s : Z) (w : AlertWorld) : list (string * Z) :=
  evaluation_label s w ++ task_label (first_task (evaluate (alerts_at s w)).2).

Lemma run_evaluated w0 l w s : alert_run w0 l w -> (w_now w <=? now_0 + s) = true ->
  alert_run w0 (l ++ whole_label s w) (evaluated s w).
Proof. intros Hr Hs. unfold whole_label, evaluated. rewrite app_assoc. by apply run_task, run_evaluation. Qed.

Definition minute_log : list (string * Z) :=
  (([] ++ whole_label 0 alerts_0) ++ whole_label 30 (evaluated 0 alerts_0)) ++ evaluation_label 60 alerts_30.

Lemma minute_run : alert_run alerts_0 minute_log alerts_60.
Proof.
  refine (run_evaluation alerts_0 _ alerts_30 60 _ _); [|vm_compute; reflexivity].
  refine (run_evaluated alerts_0 _ (evaluated 0 alerts_0) 30 _ _); [|vm_compute; reflexivity].
  refine (run_evaluated alerts_0 _ alerts_0 0 _ _); [apply run_start|vm_compute; reflexivity].
Qed.


Lemma rule_states_typed_witness : rt_state rule_1 = AlertState.Firing /\ typed rule_1.
Proof.
  split; [vm_compute; reflexivity|].
  apply (rule_states_typed alerts_0 minute_log alerts_60 "r-1" rule_1); [done|apply minute_run|vm_compute; reflexivity].
Defined.

(** ** Histories of the rule *)

Definition cpu_rule : RuleDef := default {| rd_rule := sample_alert_rule; rd_plan_digest_hex := ""; rd_silenced_until := None |}
  (bget "r-1" (a_rules (w_state alerts_60))).

Definition saw (s : Z) : obs := {| o_now := now_0 + s; o_holds := Some true; o_value := f64_of_Z 95 |}.
Definition observe (o : obs) (w : AlertWorld) : AlertWorld := (step cpu_rule (o_holds o) (o_value o) (o_now o) 60 w).2.
Definition watched : AlertWorld := observe (saw 60) (observe (saw 30) (observe (saw 0) alerts_0)).

Lemma watched_history : observed cpu_rule 60 [saw 60; saw 30; saw 0] watched.
Proof. do 3 apply (obs_step cpu_rule 60). apply obs_start. vm_compute. reflexivity. Qed.


Lemma held_condition_fires_witness : rt_state (state_of watched cpu_rule) = AlertState.Firing.
Proof.
  apply (held_condition_fires cpu_rule 60 [saw 60; saw 30; saw 0] (saw 60) (saw 0) [] watched).
  - lia.
  - exact watched_history.
  - unfold older. repeat constructor; cbn [saw o_now]; lia.
  - repeat constructor.
  - reflexivity.
  - reflexivity.
  - cbn [saw o_now]. lia.
Defined.

(** ** A silence *)

Definition quiet_rule : RuleDef :=
  {| rd_rule := rd_rule cpu_rule; rd_plan_digest_hex := rd_plan_digest_hex cpu_rule; rd_silenced_until := Some (now_0 + 90) |}.

(** The rule fires at 60 s in a silence until 90 s. *)
Definition silent_60 : AlertWorld := (evaluate_rule (now_0 + 60) quiet_rule alerts_30).2.
Definition silent_runtime : Runtime := default no_runtime (states silent_60 !! "r-1").
Definition silent_event : string := default "" (rt_episode silent_runtime).
(** The silence is over. *)
Notation after_silence := (set_state (put_runtime (al_id (rd_rule quiet_rule)) (set_notified (now_0 + 90) false silent_runtime)
  (w_state silent_60)) silent_60).
Notation released := (load_event silent_event after_silence).

Lemma pair_first {A B} (p : A * B) a : p.1 = a -> p = (a, p.2).
Proof. by destruct p as [x y]; intros <-. Qed.

Lemma silence_respected_witness :
  w_tasks (evaluate_rule (now_0 + 60) quiet_rule alerts_30).2 = w_tasks alerts_30 /\
  (exists event, released.1 = Some event /\
     (repeat_or_release quiet_rule (now_0 + 90) silent_60).2
     = (notify event (al_channel_ids (rd_rule quiet_rule)) released.2).2).
Proof.
  split.
  - assert (silenced quiet_rule (now_0 + 60) = true) as Hs by (vm_compute; reflexivity).
    exact (proj1 (proj1 (silence_respected quiet_rule (now_0 + 60) alerts_30) Hs)).
  - assert (exists event, released.1 = Some event) as [event He].
    { assert (is_some released.1 = true) as H by (vm_compute; reflexivity). destruct (released.1); [by eexists|done]. }
    exists event. split; [exact He|].
    assert (silenced quiet_rule (now_0 + 90) = false) as H1 by (vm_compute; reflexivity).
    assert (states silent_60 !! al_id (rd_rule quiet_rule) = Some silent_runtime) as H2 by (vm_compute; reflexivity).
    assert (rt_state silent_runtime = AlertState.Firing) as H3 by (vm_compute; reflexivity).
    assert (rt_held silent_runtime = true) as H4 by (vm_compute; reflexivity).
    assert (rt_episode silent_runtime = Some silent_event) as H5 by (vm_compute; reflexivity).
    refine (proj1 (proj2 (silence_respected quiet_rule (now_0 + 90) silent_60) silent_runtime silent_event event released.2
      H1 H2 H3 H4 H5 _)).
    exact (pair_first released (Some event) He).
Defined.

(** ** A counterpart closes one episode *)

Definition heartbeat (kind : ConditionKind) (occurred : bool) : BuiltinEvent :=
  {| be_kind := kind; be_scope := default_scope; be_source := "cron_heartbeat"; be_subject_id := "job";
     be_occurred := occurred; be_standalone := true; be_channel_ids := []; be_summary := "job" |}.

Definition both_open : AlertWorld := (builtin (heartbeat CronMissed true) (builtin (heartbeat CronFailed true) alerts_0).2).2.

(** A job missed a fire time and then failed: two episodes are open.  Its
    next success closes only one of them, although the source says that a
    counterpart resolves every kind of the subject's episodes. *)
Theorem counterpart_resolves_one :
  size (a_builtin (w_state both_open)) = 2%nat /\
  (map_to_list (a_builtin (w_state (builtin (heartbeat CronFailed false) both_open).2))).*1 =
    [("cron_heartbeat", "job", condition_number CronMissed)].
Proof. vm_compute. done. Qed.
