(* ===== verification/Artifacts.v ===== *)
(** * Artifact staging

    src/local/artifacts.rs: the release keys file, the checks of a release
    manifest, and the upload of a set of release files into the staging
    directory, with the records of the committed sets in the operational
    store.

    An upload is driven by the messages of its stream, so other operations run
    between two of them: the state keeps the upload in progress (the lock of
    [Artifacts::upload] and the locals of [stage]) and [stage_message] takes it
    one message further.  The staging directory is the tree below each of its
    entries; any call into the kernel or SQLite may fail ([g_faults], one
    answer per call).  The file system is changed by the agent alone, so a file
    read after [metadata] has the length that told. *)

From S2P Require Import Prelude RustStr BTree Json Jcs PlanCode Crypto Text Calendar Errors Effects Store Proto OpsStore.

(** ** Signatures *)

(** [ed25519_dalek]: [VerifyingKey::from_bytes] and
    [VerifyingKey::verify_strict] of a 64 byte signature. *)
Class Ed25519 : Type := {
  EdKey : Type;
  key_from_bytes : string -> option EdKey;
  verify_strict : EdKey -> string -> string -> bool
}.

Definition TEST_RELEASE_KEY_IDS : list string :=
  ["cl98Xxg2voSKlukyuAPKJg"; "RE1jopVSq8Moy0jDftg6Kg"; "MA975uwluIeABZVJLGWMaA"].
Definition MANIFEST_PREFIX : string := "permanu-release-manifest-v1" +:+ String "010" "".
Definition COMPONENT_NAMES : list string :=
  ["permanu-agent"; "permanu-runner"; "dwaar"; "permanu-env"; "buildkitd"; "buildctl"; "rootlesskit";
   "slirp4netns"; "rclone"].
Definition MAX_RELEASE_KEYS_BYTES : Z := 64 * 1024.
Definition MAX_FILES : Z := 16.
Definition MAX_FILE_BYTES : Z := 128 * 1024 * 1024.
Definition MAX_SET_BYTES : Z := 256 * 1024 * 1024.
Definition MAX_CHUNK_BYTES : Z := 1024 * 1024.
Definition MAX_MANIFEST_BYTES : Z := 64 * 1024.
Definition MAX_COMMITTED_SETS : Z := 2.
Definition SET_LIFETIME_SECONDS : Z := 24 * 3600.
Definition ED_SPKI_PREFIX : string := bytes_of
  [0x30; 0x2a; 0x30; 0x05; 0x06; 0x03; 0x2b; 0x65; 0x70; 0x03; 0x21; 0x00]%N.

Record ReleaseMode := { trust_test_keys : bool }.

(** [value == n] of an integer literal. *)
Definition eq_int (v : Value) (n : Z) : bool := is_some_and (as_i64 v) (Z.eqb n).

Section release.
Context {CR : Crypto} {ED : Ed25519} {JR : JsonReader}.

Record ReleaseKeys := { rk_keys : bmap EdKey; rk_revoked : list string; rk_document : Value }.

Definition key_id_of (der : string) : string := b64url_encode (slice_to 16 (sha256 der)).

(** One turn of the loop over [keys]. *)
Definition load_release_key (mode : ReleaseMode) (keys : bmap EdKey) (entry : Value) : outcome string (bmap EdKey) :=
  let? id := ok_or (as_str entry.["key_id"]) "key_id" in
  let? spki := ok_or (as_str entry.["spki"]) "spki" in
  check? eq_str entry.["alg"] "Ed25519" && is_some (as_str entry.["label"]) else "alg or label" in
  let? der := ok_or (std_decode spki) "spki encoding" in
  check? (len der =? 44) && String.eqb (slice_to 12 der) ED_SPKI_PREFIX && String.eqb (key_id_of der) id
  else "key_id does not match spki" in
  let bytes := slice_from 12 der in
  check? len bytes =? 32 else "spki" in
  let? key := ok_or (key_from_bytes bytes) "spki point" in
  check? trust_test_keys mode || negb (contains_str TEST_RELEASE_KEY_IDS id)
  else "TEST release key in production" in
  check? negb (bcontains id keys) else "duplicate key_id" in
  Ok (binsert id key keys).

Definition load_revocation (keys : bmap EdKey) (revoked : list string) (revocation : Value) : outcome string (list string) :=
  let? id := ok_or (as_str revocation.["key_id"]) "revocation key_id" in
  check? bcontains id keys else "revocation of an unknown key" in
  Ok (id :: revoked).

Definition parse_release_keys (raw : string) (mode : ReleaseMode) : outcome string ReleaseKeys :=
  let? document := ok_or (parse_strict raw MAX_RELEASE_KEYS_BYTES) "not strict JSON" in
  let? object := ok_or (as_object document) "not an object" in
  check? (blen object =? 3) && eq_int document.["version"] 1 else "unexpected fields or version" in
  let? entries := ok_or (as_array document.["keys"]) "keys" in
  let? revocations := ok_or (as_array document.["revocations"]) "revocations" in
  check? negb (lenl entries =? 0) else "no release key" in
  let? keys := fold_each (load_release_key mode) [] entries in
  let? revoked := fold_each (load_revocation keys) [] revocations in
  Ok {| rk_keys := keys; rk_revoked := revoked; rk_document := document |}.

(** What is at the path of the release keys; [None] bytes cannot be read. *)
Inductive KeysPath :=
| KeysMissing
| KeysUnopenable
| KeysUnstatable
| KeysFile (regular : bool) (uid mode : Z) (bytes : option string).

Definition read_release_keys (at_path : KeysPath) (owner_uid : Z) : outcome string (option string) :=
  match at_path with
  | KeysMissing => Ok None
  | KeysUnopenable => Err "cannot open"
  | KeysUnstatable => Err "cannot stat"
  | KeysFile regular uid mode bytes =>
      check? regular && (uid =? owner_uid) && (Z.land mode 18 =? 0) (* 0o022 *)
      else "unexpected owner, mode or type" in
      let? bytes := ok_or bytes "cannot read" in
      let bytes := slice_to (Z.to_nat (MAX_RELEASE_KEYS_BYTES + 1)) bytes in
      check? len bytes <=? MAX_RELEASE_KEYS_BYTES else "larger than 64 KiB" in
      Ok (Some bytes)
  end.

(** ** The manifest *)

Record Rejection := { rj_reason : ErrorReason.t; rj_code : string; rj_detail : string }.

Definition rejected (code detail : string) : Rejection :=
  {| rj_reason := if String.eqb code "E_EXEC_PRECONDITION" then ErrorReason.ExecPrecondition
                  else ErrorReason.ArtifactRejected;
     rj_code := code; rj_detail := detail |}.

Record Verified := { vf_release_key_id : string; vf_components : list string }.

(** [<] of [Option<&str>]. *)
Definition opt_ltb (a b : option string) : bool :=
  match a, b with
  | None, Some _ => true
  | Some x, Some y => String.ltb x y
  | _, None => false
  end.

Definition name_arch_ltb (a b : Value) : bool :=
  opt_ltb (as_str a.["name"]) (as_str b.["name"])
  || (bool_decide (as_str a.["name"] = as_str b.["name"]) && opt_ltb (as_str a.["arch"]) (as_str b.["arch"])).

Definition component_ok (c : Value) : bool :=
  is_some_and (as_object c) (fun m => blen m =? 5)
  && is_some_and (as_str c.["name"]) (contains_str COMPONENT_NAMES)
  && is_some_and (as_str c.["arch"]) (contains_str ["amd64"; "arm64"])
  && is_some_and (as_str c.["version"]) (fun v => in_range 1 64 (len v))
  && bool_decide (as_str c.["path"] = Some (str_or_default c.["arch"] +:+ "/" +:+ str_or_default c.["name"]))
  && is_some_and (as_str c.["artifact_digest_hex"]) hex64.

Definition manifest_key_ok (k : Value) : bool :=
  is_some_and (as_object k) (fun m => blen m =? 3)
  && is_string k.["key_id"] && is_string k.["spki"] && is_string k.["label"].

Definition manifest_shape_ok (manifest : Value) : bool :=
  match as_object manifest, as_array manifest.["components"], as_array manifest.["release_keys"] with
  | Some object, Some components, Some keys =>
      (blen object =? 3)
      && eq_int manifest.["version"] 2
      && in_range 1 32 (lenl components)
      && in_range 1 8 (lenl keys)
      && forallb component_ok components
      && adjacent name_arch_ltb components
      && forallb manifest_key_ok keys
      && adjacent (fun a b => opt_ltb (as_str a.["key_id"]) (as_str b.["key_id"])) keys
  | _, _, _ => false
  end.

Definition signature_shape_ok (s : Value) : bool :=
  is_some_and (as_object s) (fun m => blen m =? 4)
  && eq_int s.["version"] 1 && eq_str s.["alg"] "Ed25519" && is_string s.["key_id"].

(** [Option::filter]. *)
Definition opt_filter {A} (p : A -> bool) (o : option A) : option A :=
  match o with Some x => if p x then Some x else None | None => None end.

Definition untrusted (detail : string) : Rejection := rejected "E_ARTIFACT_UNTRUSTED" detail.

(** Step 1. *)
Definition pinned_keys (release_keys : outcome string (option string)) (mode : ReleaseMode) : outcome string ReleaseKeys :=
  let? raw := release_keys in
  match raw with Some raw => parse_release_keys raw mode | None => Err "absent" end.

(** Step 3. *)
Definition parse_manifest (manifest_raw : string) : option Value :=
  opt_filter (fun m => is_some_and (canonicalize m) (String.eqb manifest_raw))
    (opt_filter manifest_shape_ok (parse_strict manifest_raw MAX_MANIFEST_BYTES)).

(** Step 4: the key that signed the manifest. *)
Definition check_signature (keys : ReleaseKeys) (mode : ReleaseMode) (manifest_raw signature_raw : string)
    : outcome Rejection string :=
  let? signature := ok_or (opt_filter signature_shape_ok (parse_strict signature_raw (4 * 1024)))
                      (untrusted "manifest.sig.json is malformed") in
  let key_id := str_or_default signature.["key_id"] in
  let? key := ok_or (opt_filter (fun _ => trust_test_keys mode || negb (contains_str TEST_RELEASE_KEY_IDS key_id))
                      (opt_filter (fun _ => negb (contains_str (rk_revoked keys) key_id)) (bget key_id (rk_keys keys))))
                (untrusted "signing key is not pinned or is revoked") in
  let? sig_bytes := ok_or (sig ← as_str signature.["sig"]; bytes ← b64url_decode sig;
                           opt_filter (fun b => len b =? 64) (Some bytes))
                      (untrusted "signature encoding") in
  check? verify_strict key (MANIFEST_PREFIX +:+ manifest_raw) sig_bytes
  else untrusted "signature does not verify" in
  Ok key_id.

Definition entries_for (manifest : Value) (arch : string) : list Value :=
  List.filter (fun c => eq_str c.["arch"] arch) (items_of manifest.["components"]).

(** Every staged binary is an entry of this arch with the same digest. *)
Definition check_binary (entries : list Value) (arch : string) (file : string * string) : outcome Rejection unit :=
  let '(path, digest) := file in
  check? is_some_and (find_first (fun c => eq_str c.["path"] path) entries)
           (fun c => eq_str c.["artifact_digest_hex"] digest)
  else rejected "E_EXEC_PRECONDITION" (path +:+ " is not the manifest's binary for " +:+ arch) in
  Ok tt.

Definition verify_staged (release_keys : outcome string (option string)) (mode : ReleaseMode)
    (manifest_raw signature_raw bundle_manifest_digest_hex arch : string) (staged : bmap string)
    : outcome Rejection Verified :=
  let? keys := omap_err (rejected "release_keys_invalid") (pinned_keys release_keys mode) in
  check? String.eqb (hex (sha256 manifest_raw)) bundle_manifest_digest_hex
  else rejected "E_EXEC_PRECONDITION" "manifest.json does not hash to bundle_manifest_digest_hex" in
  let? manifest := ok_or (parse_manifest manifest_raw)
                     (untrusted "manifest is not a canonical version 2 manifest") in
  let? key_id := check_signature keys mode manifest_raw signature_raw in
  let entries := entries_for manifest arch in
  let? _ := for_each (check_binary entries arch) staged in
  Ok {| vf_release_key_id := key_id;
        vf_components := (fun c => str_or_default c.["name"] +:+ " " +:+ str_or_default c.["version"]) <$> entries |}.

End release.

(** ** Names *)

(** A file name of a set: the two manifest files or [<arch>/<name>]. *)
Definition file_name_ok (name arch : string) : bool :=
  if String.eqb name "manifest.json" || String.eqb name "manifest.sig.json" then true
  else match split_once "/" name with
       | None => false
       | Some (prefix, rest) =>
           String.eqb prefix arch && in_range 1 128 (len rest)
           && negb (String.eqb rest ".") && negb (String.eqb rest "..")
           && all_bytes (fun b => is_ascii_alphanumeric b || one_of "._-" b) rest
       end.

(** ** The staging directory *)

(** What is below an entry of the staging directory, by path relative to it. *)
Inductive Item :=
| IFile (mode uid : Z) (bytes : string)
| IDir (mode uid : Z)
| IOther.

(** An entry: a directory with what is below it, a symbolic link (and whether
    it leads to a directory), or something else. *)
Inductive Entity :=
| EDir (mode uid : Z) (items : gmap string Item)
| ELink (to_dir : bool)
| EOther.

(** The staging directory itself: whether its path leads to a directory,
    whether the path is a symbolic link, its mode and owner. *)
Record Root := { rt_is_dir : bool; rt_link : bool; rt_mode : Z; rt_uid : Z }.

(** An answer of the system.  A failed [remove_dir_all] leaves some of the
    paths, a failed write some of the bytes. *)
Inductive Answer := Fine | Fails (kept : list string) (written : nat).

(** [hasher] is the bytes hashed so far. *)
Record OpenFile := {
  of_name : string; of_size : Z; of_digest_hex : string; of_written : Z; of_hasher : string;
  of_part : string; of_target : string
}.

Record StageHeader := { sh_stage_id : string; sh_bundle_manifest_digest_hex : string; sh_arch : string }.

(** The locals of [stage] after the header. *)
Record Upload := {
  up_header : StageHeader; up_arch : string; up_seen : list string; up_current : option OpenFile;
  up_done : list (string * string); up_files : list StageFile; up_total : Z
}.

(** Who holds [Artifacts::upload]. *)
Inductive Session := Free | Awaiting | Receiving (u : Upload).

Record Staging := {
  g_root : Root; g_entities : gmap string Entity; g_ops : Ops; g_session : Session; g_faults : list Answer
}.

Inductive Frame := FHeader (header : StageHeader) | FFile (file : StageFile) | FChunk (data : string) | FCommit.

(** A result of [stream.message()]: a message with its frame, the end of the
    stream, or an error. *)
Inductive Message := Received (frame : option Frame) | Ended | Broken (status : Status).

(** What [stage] reads of its surroundings: the clock, the server's arch and
    the release keys file. *)
Record Around := { ar_now : Z; ar_arch : string; ar_release_keys : KeysPath }.

Record ArtifactDeps := { dp_uid : Z; dp_release_keys_owner : Z; dp_mode : ReleaseMode }.

Definition io (A : Type) : Type := st Staging (outcome Status A).

Definition done {A} (a : A) : io A := ret (Ok a).
Definition fail {A} (e : Status) : io A := ret (Err e).
Definition lift {A} (r : outcome Status A) : io A := ret r.

Definition set_entities (m : gmap string Entity) (g : Staging) : Staging :=
  {| g_root := g_root g; g_entities := m; g_ops := g_ops g; g_session := g_session g; g_faults := g_faults g |}.
Definition set_ops (o : Ops) (g : Staging) : Staging :=
  {| g_root := g_root g; g_entities := g_entities g; g_ops := o; g_session := g_session g; g_faults := g_faults g |}.
Definition set_session (s : Session) (g : Staging) : Staging :=
  {| g_root := g_root g; g_entities := g_entities g; g_ops := g_ops g; g_session := s; g_faults := g_faults g |}.
Definition set_faults (l : list Answer) (g : Staging) : Staging :=
  {| g_root := g_root g; g_entities := g_entities g; g_ops := g_ops g; g_session := g_session g; g_faults := l |}.

Definition answer : st Staging Answer := fun g =>
  match g_faults g with
  | a :: rest => (a, set_faults rest g)
  | [] => (Fine, g)
  end.

Definition modify_entities (f : gmap string Entity -> gmap string Entity) : st Staging unit := fun g =>
  (tt, set_entities (f (g_entities g)) g).
Definition put_session (s : Session) : st Staging unit := fun g => (tt, set_session s g).

(** A call that may fail with the status its caller maps the error to. *)
Definition call (e : Status) : io unit := let! a := answer in match a with Fine => done tt | Fails _ _ => fail e end.

(** [tonic::Status] without trailers. *)
Definition plain_status (code : Code) (message : string) : Status :=
  {| st_code := code; st_message := message; st_reason := ""; st_plan_error := None |}.
Definition status_with_reason (code : Code) (message : string) (reason : ErrorReason.t) : Status :=
  {| st_code := code; st_message := message; st_reason := ErrorReason.as_str_name reason; st_plan_error := None |}.

Definition invalid (message : string) : Status := plain_status InvalidArgument message.
Definition internal (message : string) : Status := plain_status InternalCode message.
Definition exhausted (message : string) : Status := plain_status ResourceExhausted message.

(** [fs::remove_dir_all], its result not looked at.  A symbolic link is
    removed itself. *)
Definition remove_dir_all (name : string) : st Staging unit :=
  let! a := answer in
  modify_entities (fun m =>
    match m !! name, a with
    | Some (EDir _ _ _), Fine | Some (ELink _), Fine => delete name m
    | Some (EDir mode uid items), Fails kept _ =>
        <[name := EDir mode uid (filter (fun e => e.1 ∈ kept) items)]> m
    | _, _ => m
    end).

(** The items of a directory; another entry has none. *)
Definition items_of_entity (e : option Entity) : gmap string Item :=
  match e with Some (EDir _ _ items) => items | _ => ∅ end.

Definition items_at (name : string) : st Staging (gmap string Item) :=
  asks (fun g => items_of_entity (g_entities g !! name)).

Definition set_item (dir path : string) (i : Item) : io unit :=
  do! modify_entities (fun m =>
        match m !! dir with
        | Some (EDir mode uid items) => <[dir := EDir mode uid (<[path := i]> items)]> m
        | _ => m
        end) in
  done tt.

Definition upload_dir (stage_id : string) : string := ".upload-" +:+ stage_id.

Definition DIR_MODE : Z := 488. (* 0o750 *)
Definition FILE_MODE : Z := 416. (* 0o640 *)

(** [Path::parent] of a file name of a set, when it is not the set's own
    directory. *)
Definition name_parent (name : string) : option string :=
  match split_once "/" name with Some (prefix, _) => Some prefix | None => None end.

Section staging.
Context {CR : Crypto} {ED : Ed25519} {JR : JsonReader} {PB : Prost} (deps : ArtifactDeps).

(** ** Files of an upload *)

Definition make_parent (dir name : string) : io unit :=
  match name_parent name with
  | None => done tt
  | Some parent =>
      run! call (internal "staging directory not writable") in
      let! items := items_at dir in
      match items !! parent with
      | Some _ => done tt
      | None => set_item dir parent (IDir DIR_MODE (dp_uid deps))
      end
  end.

(** [create_new] at [path]. *)
Definition create_file (dir name path : string) : io unit :=
  run! call (internal "staging file not writable") in
  let! items := items_at dir in
  let parent_ok := match name_parent name with
                   | None => true
                   | Some parent => match items !! parent with Some (IDir _ _) => true | _ => false end
                   end in
  if parent_ok && negb (is_some (items !! path)) then set_item dir path (IFile FILE_MODE (dp_uid deps) "")
  else fail (internal "staging file not writable").

Definition begin_file (dir arch : string) (file : StageFile) (seen : list string) : io OpenFile :=
  let name := sf_name file in
  run! lift (check? file_name_ok name arch && negb (contains_str seen name)
             else invalid "unexpected or repeated file name" in
             check? lenl (name :: seen) <=? MAX_FILES else exhausted "more than 16 files" in
             check? sf_size_bytes file <=? MAX_FILE_BYTES else exhausted "file larger than 128 MiB" in
             check? hex64 (sf_digest_hex file) else invalid "digest_hex is not 64 hex characters" in Ok tt) in
  run! make_parent dir name in
  let part := name +:+ ".part" in
  run! create_file dir name part in
  done {| of_name := name; of_size := sf_size_bytes file; of_digest_hex := sf_digest_hex file; of_written := 0;
          of_hasher := ""; of_part := part; of_target := name |}.

(** [write_all] to the open file. *)
Definition write_all (dir part data : string) : io unit :=
  let! a := answer in
  let! items := items_at dir in
  match items !! part, a with
  | Some (IFile mode uid bytes), Fine => set_item dir part (IFile mode uid (bytes +:+ data))
  | Some (IFile mode uid bytes), Fails _ n =>
      run! set_item dir part (IFile mode uid (bytes +:+ slice_to n data)) in fail (internal "staging write failed")
  | _, _ => fail (internal "staging write failed")
  end.

(** [fs::rename] of a file inside the upload directory. *)
Definition rename_item (dir from to : string) : io unit :=
  run! call (internal "staging file not renamed") in
  let! items := items_at dir in
  match items !! from, items !! to with
  | None, _ | _, Some (IDir _ _) => fail (internal "staging file not renamed")
  | Some i, _ =>
      do! modify_entities (fun m =>
            match m !! dir with
            | Some (EDir mode uid items) => <[dir := EDir mode uid (<[to := i]> (delete from items))]> m
            | _ => m
            end) in
      done tt
  end.

Definition finish_file (dir : string) (open : OpenFile) : io (string * string) :=
  run! lift (check? of_written open =? of_size open else invalid "file ended before its declared size" in
             check? String.eqb (hex (sha256 (of_hasher open))) (of_digest_hex open)
             else invalid "file does not match its digest_hex" in Ok tt) in
  run! call (internal "staging file not synced") in
  run! rename_item dir (of_part open) (of_target open) in
  done (of_name open, of_digest_hex open).

(** [if let Some(open) = current.take() { done.push(finish_file(open)?) }]. *)
Definition finish_current (u : Upload) : io Upload :=
  match up_current u with
  | None => done u
  | Some open =>
      try! entry := finish_file (upload_dir (sh_stage_id (up_header u))) open in
      done {| up_header := up_header u; up_arch := up_arch u; up_seen := up_seen u; up_current := None;
              up_done := up_done u ++ [entry]; up_files := up_files u; up_total := up_total u |}
  end.

(** ** Frames *)

Definition saturating_add_u64 (a b : Z) : Z := Z.min (a + b) u64_max.

Definition receive_file (u : Upload) (file : StageFile) : io Upload :=
  try! u := finish_current u in
  let total := saturating_add_u64 (up_total u) (sf_size_bytes file) in
  run! lift (check? total <=? MAX_SET_BYTES else exhausted "set larger than 256 MiB" in Ok tt) in
  try! open := begin_file (upload_dir (sh_stage_id (up_header u))) (up_arch u) file (up_seen u) in
  done {| up_header := up_header u; up_arch := up_arch u; up_seen := sf_name file :: up_seen u;
          up_current := Some open; up_done := up_done u; up_files := up_files u ++ [file]; up_total := total |}.

Definition receive_chunk (u : Upload) (data : string) : io Upload :=
  try! open := lift (ok_or (up_current u) (invalid "a StageChunk before any StageFile")) in
  run! lift (check? len data <=? MAX_CHUNK_BYTES else exhausted "chunk larger than 1 MiB" in
             check? of_written open + len data <=? of_size open
             else invalid "chunk overruns the declared size" in Ok tt) in
  run! write_all (upload_dir (sh_stage_id (up_header u))) (of_part open) data in
  let open := {| of_name := of_name open; of_size := of_size open; of_digest_hex := of_digest_hex open;
                 of_written := of_written open + len data; of_hasher := of_hasher open +:+ data;
                 of_part := of_part open; of_target := of_target open |} in
  done {| up_header := up_header u; up_arch := up_arch u; up_seen := up_seen u; up_current := Some open;
          up_done := up_done u; up_files := up_files u; up_total := up_total u |}.

(** The frame of the next message; its absence has the given error. *)
Definition next_frame (m : Message) (missing : string) : outcome Status Frame :=
  match m with
  | Received (Some f) => Ok f
  | Received None | Ended => Err (invalid missing)
  | Broken status => Err status
  end.

(** From the header to the loop.  [root.is_dir()] answers [false] when the
    call fails. *)
Definition begin_header (around : Around) (header : StageHeader) : io Upload :=
  let arch := ar_arch around in
  run! lift (check? uuid7 (sh_stage_id header) && hex64 (sh_bundle_manifest_digest_hex header)
             else invalid "stage_id or bundle_manifest_digest_hex is malformed" in
             check? String.eqb (sh_arch header) arch else invalid "arch is not this server's" in Ok tt) in
  run! call (internal "staging history unavailable") in
  try! row := asks (fun g => omap_err (fun _ => internal "staging history unavailable")
                               (try_get (g_ops g) KStagedSet (sh_stage_id header))) in
  run! lift (check? negb (is_some row) else plain_status AlreadyExists "stage_id was already committed" in Ok tt) in
  run! call (plain_status Unavailable "staging directory missing") in
  run! asks (fun g => check? rt_is_dir (g_root g) else plain_status Unavailable "staging directory missing" in Ok tt) in
  let dir := upload_dir (sh_stage_id header) in
  do! remove_dir_all dir in
  run! call (internal "staging directory not writable") in
  try! free := asks (fun g => Ok (negb (is_some (g_entities g !! dir)))) in
  run! lift (check? free else internal "staging directory not writable" in Ok tt) in
  do! modify_entities (fun m => <[dir := EDir DIR_MODE (dp_uid deps) ∅]> m) in
  done {| up_header := header; up_arch := arch; up_seen := []; up_current := None; up_done := []; up_files := [];
          up_total := 0 |}.

Definition begin_upload (around : Around) (m : Message) : io Upload :=
  try! first := lift (next_frame m "the first frame must be a StageHeader") in
  match first with
  | FHeader header => begin_header around header
  | _ => fail (invalid "the first frame must be a StageHeader")
  end.

(** ** Commit *)

(** [fs::read(..).ok()]. *)
Definition read_item (dir name : string) : st Staging (option string) :=
  let! a := answer in
  let! items := items_at dir in
  ret (match a, items !! name with Fine, Some (IFile _ _ bytes) => Some bytes | _, _ => None end).

Definition verify_upload (around : Around) (u : Upload) : io Verified :=
  let dir := upload_dir (sh_stage_id (up_header u)) in
  let! manifest := read_item dir "manifest.json" in
  let! signature := read_item dir "manifest.sig.json" in
  match manifest, signature with
  | Some manifest, Some signature =>
      let staged := bof_list (List.filter (fun f => contains_byte "/" f.1) (up_done u)) in
      lift (omap_err (fun r => status_with_reason FailedPrecondition (rj_code r +:+ ": " +:+ rj_detail r) (rj_reason r))
        (verify_staged (read_release_keys (ar_release_keys around) (dp_release_keys_owner deps)) (dp_mode deps)
           manifest signature (sh_bundle_manifest_digest_hex (up_header u)) (up_arch u) staged))
  | _, _ => fail (invalid "manifest.json and manifest.sig.json are required")
  end.

Definition existing_differs : Status :=
  plain_status FailedPrecondition "existing staged bytes are unavailable or differ from the verified upload".

(** A directory of the set: the set's own, or one below it. *)
Definition stat_dir (target : string) (below : option string) : io unit :=
  run! call existing_differs in
  asks (fun g =>
    let meta := match g_entities g !! target, below with
                | Some (EDir mode uid _), None => Some (mode, uid)
                | Some (EDir _ _ items), Some p => match items !! p with Some (IDir mode uid) => Some (mode, uid) | _ => None end
                | _, _ => None
                end in
    check? is_some_and meta (fun m => (m.2 =? rt_uid (g_root g)) && (Z.land m.1 18 =? 0)) else existing_differs in
    Ok tt).

Definition verify_existing_file (target : string) (entry : StageFile) : io unit :=
  run! stat_dir target None in
  run! stat_dir target (name_parent (sf_name entry)) in
  run! call existing_differs in
  run! call existing_differs in
  run! call existing_differs in
  asks (fun g =>
    check? match items_of_entity (g_entities g !! target) !! sf_name entry with
           | Some (IFile mode uid bytes) =>
               (uid =? rt_uid (g_root g)) && (Z.land mode 18 =? 0) && (len bytes =? sf_size_bytes entry)
               && (sf_size_bytes entry <=? MAX_FILE_BYTES)
               && String.eqb (hex (sha256 bytes)) (sf_digest_hex entry)
           | _ => false
           end else existing_differs in
    Ok tt).

Fixpoint try_each {A} (f : A -> io unit) (l : list A) : io unit :=
  match l with [] => done tt | x :: rest => run! f x in try_each f rest end.

Definition verify_existing_files (target : string) (files : list StageFile) : io unit :=
  run! call existing_differs in
  run! asks (fun g => check? rt_is_dir (g_root g) && negb (rt_link (g_root g)) && (Z.land (rt_mode (g_root g)) 18 =? 0)
                      else existing_differs in Ok tt) in
  try_each (verify_existing_file target) files.

(** Where the verified upload goes; the result is [created]. *)
Definition place (u : Upload) : io bool :=
  let target := sh_bundle_manifest_digest_hex (up_header u) in
  run! call (internal "committed set unavailable") in
  try! there := asks (fun g => Ok (g_entities g !! target)) in
  match there with
  | Some (EDir _ _ _) => run! verify_existing_files target (up_files u) in done false
  | Some _ => fail (internal "invalid committed set directory")
  | None =>
      run! call (internal "set not committed") in
      let dir := upload_dir (sh_stage_id (up_header u)) in
      try! moved := asks (fun g => match g_entities g !! dir with
                                   | Some e => Ok e
                                   | None => Err (internal "set not committed")
                                   end) in
      do! modify_entities (fun m => <[target := moved]> (delete dir m)) in
      done true
  end.

(** ** The committed sets *)

Definition Listing_of (limit : Z) : Listing :=
  {| ls_subject := None; ls_statuses := []; ls_from := None; ls_to := None; ls_before := None; ls_after := None;
     ls_ascending := false; ls_limit := limit |}.

Definition list_sets (limit : Z) : st Staging (option (list OpsRow)) :=
  let! a := answer in
  match a with
  | Fails _ _ => ret None
  | Fine => asks (fun g => match try_list (g_ops g) KStagedSet (Listing_of limit) with Ok rows => Some rows | _ => None end)
  end.

(** [try_remove]; [false] is an error. *)
Definition remove_set (id : string) : st Staging bool :=
  let! a := answer in
  match a with
  | Fails _ _ => ret false
  | Fine => fun g => (true, set_ops (try_remove (g_ops g) KStagedSet id) g)
  end.

Definition unexpired (now : Z) (set : StagedArtifactSet) : bool := is_some_and (st_expires_at set) (fun t => now <? t).

(** The directory of a set whose record [prune] removed; [false] ends the
    pruning. *)
Definition prune_dir (digest : string) : st Staging bool :=
  if hex64 digest then
    let! remaining := list_sets 1000 in
    match remaining with
    | None => ret false
    | Some rows =>
        do! (if existsb (fun r => String.eqb (or_subject r) digest) rows then ret tt else remove_dir_all digest) in
        ret true
    end
  else ret true.

Fixpoint prune_rows (now : Z) (rows : list OpsRow) (kept : Z) : st Staging unit :=
  match rows with
  | [] => ret tt
  | row :: rest =>
      match decode staged_set (or_body row) with
      | None => let! _ := remove_set (or_id row) in prune_rows now rest kept
      | Some set =>
          if unexpired now set && (kept <? MAX_COMMITTED_SETS) then prune_rows now rest (kept + 1)
          else
            let! removed := remove_set (or_id row) in
            if removed : bool then
              let! go_on := prune_dir (st_bundle_manifest_digest_hex set) in
              if go_on : bool then prune_rows now rest kept else ret tt
            else ret tt
      end
  end.

Definition prune (now : Z) : st Staging unit :=
  let! rows := list_sets 1000 in
  match rows with Some rows => prune_rows now rows 0 | None => ret tt end.

Definition set_of (around : Around) (u : Upload) (v : Verified) : StagedArtifactSet :=
  {| st_stage_id := sh_stage_id (up_header u);
     st_bundle_manifest_digest_hex := sh_bundle_manifest_digest_hex (up_header u);
     st_arch := up_arch u; st_files := up_files u; st_staged_at := Some (ar_now around);
     st_expires_at := Some (ar_now around + SET_LIFETIME_SECONDS); st_verified := true;
     st_release_key_id := vf_release_key_id v; st_components := vf_components v |}.

(** [replace_staged_set]; [false] is an error. *)
Definition record_set (set : StagedArtifactSet) (now : Z) : st Staging bool :=
  let! a := answer in
  match a with
  | Fails _ _ => ret false
  | Fine => fun g => match replace_staged_set (g_ops g) set now with
                     | Ok o => (true, set_ops o g)
                     | _ => (false, g)
                     end
  end.

Definition record_upload (around : Around) (u : Upload) (v : Verified) (created : bool) : io StagedArtifactSet :=
  let set := set_of around u v in
  let! recorded := record_set set (ar_now around) in
  if recorded : bool then do! prune (ar_now around) in done set
  else
    do! (if created then remove_dir_all (sh_bundle_manifest_digest_hex (up_header u)) else ret tt) in
    fail (internal "set not recorded").

(** From [StageCommit] to the end of [stage]; the upload directory is dropped
    unless the commit moved it. *)
Definition commit (around : Around) (u : Upload) : io StagedArtifactSet :=
  let dir := upload_dir (sh_stage_id (up_header u)) in
  let! placed := (try! u := finish_current u in
                  try! v := verify_upload around u in
                  try! created := place u in done (u, v, created)) in
  match placed with
  | Ok (u, v, created) =>
      let! result := record_upload around u v created in
      do! (if created then ret tt else remove_dir_all dir) in ret result
  | Err e => do! remove_dir_all dir in fail e
  | Panic => do! remove_dir_all dir in ret Panic
  end.

(** ** The stream *)

(** [stage] takes the lock, or refuses. *)
Definition stage_start : io unit := fun g =>
  match g_session g with
  | Free => (Ok tt, set_session Awaiting g)
  | _ => (Err (status_with_reason ResourceExhausted "another upload is in progress" ErrorReason.LimitExceeded), g)
  end.

(** A frame that is not the last. *)
Definition receive (u : Upload) (f : Frame) : io Upload :=
  match f with
  | FHeader _ => fail (invalid "a second StageHeader")
  | FFile file => receive_file u file
  | FChunk data => receive_chunk u data
  | FCommit => done u
  end.

(** The upload ends without a commit: its directory and the lock are dropped. *)
Definition stage_end {A} (dir : option string) (r : outcome Status A) : io A :=
  do! match dir with Some dir => remove_dir_all dir | None => ret tt end in
  do! put_session Free in
  ret r.

(** The next message of the stream; [Ok None] waits for another. *)
Definition stage_message (around : Around) (m : Message) : io (option StagedArtifactSet) :=
  let! session := asks g_session in
  match session with
  | Free => done None
  | Awaiting =>
      let! r := begin_upload around m in
      match r with
      | Ok u => do! put_session (Receiving u) in done None
      | Err e => stage_end None (Err e)
      | Panic => stage_end None Panic
      end
  | Receiving u =>
      let dir := upload_dir (sh_stage_id (up_header u)) in
      match next_frame m "the upload ended without a StageCommit" with
      | Ok FCommit =>
          let! result := commit around u in
          do! put_session Free in
          try! set := ret result in done (Some set)
      | Ok f =>
          let! r := receive u f in
          match r with
          | Ok u => do! put_session (Receiving u) in done None
          | Err e => stage_end (Some dir) (Err e)
          | Panic => stage_end (Some dir) Panic
          end
      | Err e => stage_end (Some dir) (Err e)
      | Panic => stage_end (Some dir) Panic
      end
  end.

(** ** Queries *)

Definition sets (now : Z) : st Staging (list StagedArtifactSet) :=
  let! rows := list_sets 64 in
  ret (List.filter (unexpired now) (filter_map (fun r => decode staged_set (or_body r)) (default [] rows))).

Definition is_dir (name : string) : st Staging bool :=
  let! a := answer in
  asks (fun g => match a, g_entities g !! name with
                 | Fine, Some (EDir _ _ _) | Fine, Some (ELink true) => true
                 | _, _ => false
                 end).

(** [sets.iter().any(..)]: the directory is looked at for the sets that match. *)
Fixpoint any_staged (digest arch : string) (l : list StagedArtifactSet) : st Staging bool :=
  match l with
  | [] => ret false
  | set :: rest =>
      if st_verified set && String.eqb (st_bundle_manifest_digest_hex set) digest && String.eqb (st_arch set) arch
      then let! there := is_dir digest in if there : bool then ret true else any_staged digest arch rest
      else any_staged digest arch rest
  end.

Definition staged (around : Around) (digest : string) : st Staging bool :=
  let! l := sets (ar_now around) in any_staged digest (ar_arch around) l.

Fixpoint consume_rows (digest : string) (rows : list OpsRow) : st Staging bool :=
  match rows with
  | [] => ret true
  | row :: rest =>
      if is_some_and (decode staged_set (or_body row)) (fun set => String.eqb (st_bundle_manifest_digest_hex set) digest)
      then let! removed := remove_set (or_id row) in if removed : bool then consume_rows digest rest else ret false
      else consume_rows digest rest
  end.

Definition consumed (digest : string) : st Staging unit :=
  if hex64 digest then
    let! rows := list_sets 1000 in
    match rows with
    | None => ret tt
    | Some rows =>
        let! all_removed := consume_rows digest rows in
        if all_removed : bool then remove_dir_all digest else ret tt
    end
  else ret tt.

(** [ListStagedArtifacts]; [page_size] is the request's, 0 when absent. *)
Definition list_staged_artifacts (now page_size : Z) : st Staging (list StagedArtifactSet) :=
  let size := if page_size =? 0 then 50 else Z.min page_size 500 in
  let! l := sets now in ret (take (Z.to_nat size) l).

(** ** Release keys, as clients see them *)

Inductive TrustState := Absent | Valid | Invalid.

Record ReleaseKeysSummary := {
  rs_fingerprint_digest_hex : string; rs_key_ids : list string; rs_state : TrustState; rs_invalid_reason : string;
  rs_test_key_trusted : bool
}.

Definition fingerprint_of (document : Value) : string :=
  match canonicalize document with Some t => hex (sha256 t) | None => "" end.

Definition summary (keys : KeysPath) : ReleaseKeysSummary :=
  let with_state state reason fingerprint ids :=
    {| rs_fingerprint_digest_hex := fingerprint; rs_key_ids := ids; rs_state := state; rs_invalid_reason := reason;
       rs_test_key_trusted := trust_test_keys (dp_mode deps) |} in
  match read_release_keys keys (dp_release_keys_owner deps) with
  | Ok None => with_state Absent "" "" []
  | Ok (Some raw) =>
      match parse_release_keys raw (dp_mode deps) with
      | Ok k => with_state Valid "" (fingerprint_of (rk_document k))
                  (List.filter (fun id => negb (contains_str (rk_revoked k) id)) (bkeys (rk_keys k)))
      | Err reason => with_state Invalid reason "" []
      | Panic => with_state Invalid "" "" []
      end
  | Err reason => with_state Invalid reason "" []
  | Panic => with_state Invalid "" "" []
  end.

Record ReleaseKey := {
  ky_key_id : string; ky_alg : string; ky_spki : string; ky_label : string; ky_added_at : option Z;
  ky_revoked : bool; ky_revoked_at : option Z; ky_test : bool
}.

Record ReleaseKeySet := { ks_keys : list ReleaseKey; ks_fingerprint_digest_hex : string; ks_release_keys_json : string }.

Definition release_key (revocations : bmap string) (k : Value) : ReleaseKey :=
  let id := str_or_default k.["key_id"] in
  let revoked_at := bget id revocations in
  {| ky_key_id := id; ky_alg := str_or_default k.["alg"];
     ky_spki := default "" (s ← as_str k.["spki"]; std_decode s);
     ky_label := str_or_default k.["label"];
     ky_added_at := t ← as_str k.["added_at"]; timestamp t;
     ky_revoked := is_some revoked_at;
     ky_revoked_at := t ← revoked_at; timestamp t;
     ky_test := contains_str TEST_RELEASE_KEY_IDS id |}.

Definition get_release_keys (keys : KeysPath) : outcome Status ReleaseKeySet :=
  let? raw := omap_err (fun reason => status_with_reason FailedPrecondition ("release_keys_invalid: " +:+ reason)
                                        ErrorReason.ArtifactRejected)
                (read_release_keys keys (dp_release_keys_owner deps)) in
  let? raw := ok_or raw (plain_status NotFound "no release-keys.json") in
  let? document := ok_or (parse_strict raw MAX_RELEASE_KEYS_BYTES) (plain_status FailedPrecondition "release_keys_invalid") in
  let revocations := bof_list (filter_map (fun r =>
    id ← as_str r.["key_id"]; t ← as_str r.["revoked_at"]; Some (id, t)) (items_of document.["revocations"])) in
  Ok {| ks_keys := release_key revocations <$> items_of document.["keys"];
        ks_fingerprint_digest_hex := fingerprint_of document; ks_release_keys_json := raw |}.

End staging.
