(* ===== verification/ArtifactFacts.v ===== *)
(** * What staging guarantees

    A digest that is reported as staged names a directory whose files have
    the bytes of a release manifest signed by a pinned key; an upload that
    fails leaves the committed sets and their records as they were; and an
    upload in progress stays within its limits. *)

From S2P Require Import Prelude RustStr BTree Json Jcs PlanCode Crypto Text Errors Effects Store Proto OpsStore OpsFacts.
From S2P Require Import ReconcileFacts JsonRead Wire Artifacts.

(** ** Names *)

Lemma upload_dir_not_hex id : hex64 (upload_dir id) = false.
Proof. unfold hex64, hex_n, upload_dir. cbn [String.append all_bytes]. apply andb_false_r. Qed.

Lemma part_other name : name +:+ ".part" <> name.
Proof. intros H. apply (f_equal String.length) in H. rewrite str_app_length in H. cbn in H. lia. Qed.

(** ** What an upload touches *)

(** Nothing but the directory [dir] changed. *)
Definition apart (dir : string) : relation Staging := fun g g' =>
  g_root g' = g_root g /\ g_ops g' = g_ops g /\ g_session g' = g_session g
  /\ forall k, k <> dir -> g_entities g' !! k = g_entities g !! k.

#[export] Instance apart_preorder dir : PreOrder (apart dir).
Proof.
  split; [by intros g; split_and!|].
  intros a b c (R1 & O1 & S1 & E1) (R2 & O2 & S2 & E2). split_and!; try congruence.
  intros k Hk. by rewrite E2, E1.
Qed.

Create HintDb apart.

Section footprint.
Context {CR : Crypto} {ED : Ed25519} {JR : JsonReader} {PB : Prost} (deps : ArtifactDeps) (dir : string).

Lemma apart_answer : keeps (apart dir) answer.
Proof. intros g. unfold answer. destruct (g_faults g) as [|a rest]; cbn; [reflexivity|by split_and!]. Qed.

Lemma apart_entities f : (forall m k, k <> dir -> f m !! k = m !! k) -> keeps (apart dir) (modify_entities f).
Proof. intros Hf g. split_and!; try done. intros k Hk. by apply Hf. Qed.

Lemma apart_done {A} (a : A) : keeps (apart dir) (done a).
Proof. apply keeps_ret. Qed.
Lemma apart_fail {A} e : keeps (apart dir) (@fail A e).
Proof. apply keeps_ret. Qed.
Lemma apart_lift {A} (r : outcome Status A) : keeps (apart dir) (lift r).
Proof. apply keeps_ret. Qed.

Hint Resolve apart_answer apart_done apart_fail apart_lift keeps_ret keeps_asks : apart.

Ltac apart_steps :=
  repeat match goal with
  | |- keeps _ _ => solve [eauto 2 with apart typeclass_instances]
  | |- keeps _ (try_bind _ _) => apply keeps_try; [|intros ?]
  | |- keeps _ (Effects.bind _ _) => apply keeps_bind; [|intros ?]
  | |- keeps _ (let '_ := ?x in _) => destruct x
  | |- keeps _ (match ?x with _ => _ end) => destruct x
  end.

Lemma apart_call e : keeps (apart dir) (call e).
Proof. unfold call. apart_steps. Qed.

Lemma apart_items_at d : keeps (apart dir) (items_at d).
Proof. apply keeps_asks. Qed.

Lemma apart_set_item path i : keeps (apart dir) (set_item dir path i).
Proof.
  unfold set_item. apply keeps_bind; [|auto with apart]. apply apart_entities. intros m k Hk.
  destruct (m !! dir) as [[]|]; try done. by rewrite lookup_insert_ne.
Qed.

Lemma apart_remove : keeps (apart dir) (remove_dir_all dir).
Proof.
  unfold remove_dir_all. apply keeps_bind; [auto with apart|]. intros a. apply apart_entities. intros m k Hk.
  destruct (m !! dir) as [[]|], a; try done; by rewrite ?lookup_insert_ne, ?lookup_delete_ne.
Qed.

Hint Resolve apart_call apart_items_at apart_set_item apart_remove : apart.

Lemma apart_begin arch file seen : keeps (apart dir) (begin_file deps dir arch file seen).
Proof. unfold begin_file, make_parent, create_file. apart_steps. Qed.

Lemma apart_write part data : keeps (apart dir) (write_all dir part data).
Proof. unfold write_all. apart_steps. Qed.

Lemma apart_finish open : keeps (apart dir) (finish_file dir open).
Proof.
  unfold finish_file, rename_item. apart_steps; apply apart_entities; intros m k Hk;
    destruct (m !! dir) as [[]|]; try done; by rewrite lookup_insert_ne.
Qed.

Hint Resolve apart_begin apart_write apart_finish : apart.

Lemma apart_read name : keeps (apart dir) (read_item dir name).
Proof. unfold read_item. apart_steps. Qed.

Lemma apart_each {A} (f : A -> io unit) l : (forall x, keeps (apart dir) (f x)) -> keeps (apart dir) (try_each f l).
Proof. intros Hf. induction l; cbn [try_each]; apart_steps; auto. Qed.

Lemma apart_existing target files : keeps (apart dir) (verify_existing_files target files).
Proof.
  unfold verify_existing_files. apart_steps. apply apart_each. intros f. unfold verify_existing_file, stat_dir. apart_steps.
Qed.

End footprint.

Ltac apart_steps :=
  repeat match goal with
  | |- keeps _ _ => solve [eauto 2 with apart typeclass_instances]
  | |- keeps _ (try_bind _ _) => apply keeps_try; [|intros ?]
  | |- keeps _ (Effects.bind _ _) => apply keeps_bind; [|intros ?]
  | |- keeps _ (let '_ := ?x in _) => destruct x
  | |- keeps _ (match ?x with _ => _ end) => destruct x
  end.

#[export] Hint Resolve apart_answer apart_done apart_fail apart_lift apart_call apart_items_at apart_set_item apart_remove
  apart_begin apart_write apart_finish apart_read apart_existing keeps_ret keeps_asks : apart.

Section uploads.
Context {CR : Crypto} {ED : Ed25519} {JR : JsonReader} {PB : Prost} (deps : ArtifactDeps).

Notation dir_of u := (upload_dir (sh_stage_id (up_header u))).

Lemma apart_finish_current u : keeps (apart (dir_of u)) (finish_current u).
Proof. unfold finish_current. apart_steps. Qed.

Lemma finish_current_header u g u' g' : finish_current u g = (Ok u', g') -> up_header u' = up_header u.
Proof.
  unfold finish_current. destruct (up_current u); [|by intros [= -> _]].
  intros (e & s & _ & H)%try_inv. by injection H as <- _.
Qed.

Lemma apart_receive u f : keeps (apart (dir_of u)) (receive deps u f).
Proof.
  destruct f; cbn [receive]; [apart_steps| |unfold receive_chunk; apart_steps|apart_steps].
  intros g. unfold receive_file. unfold try_bind at 1, bind at 1.
  pose proof (apart_finish_current u g) as Hf. destruct (finish_current u g) as [[u1|e|] g1] eqn:Hu; cbn in Hf |- *; [|done..].
  etrans; [exact Hf|]. apply finish_current_header in Hu. rewrite <- Hu.
  match goal with |- apart ?d g1 (?m g1).2 => enough (keeps (apart d) m) as Hm by apply Hm end. apart_steps.
Qed.

Lemma apart_verify around u : keeps (apart (dir_of u)) (verify_upload deps around u).
Proof. unfold verify_upload. apart_steps. Qed.

End uploads.

(** ** The bytes of an upload *)

Definition item_bytes (i : Item) : Z := match i with IFile _ _ bytes => len bytes | _ => 0 end.

(** The bytes the files of a directory take. *)
Definition used (items : gmap string Item) : Z := map_fold (fun _ i n => item_bytes i + n) 0 items.

Lemma used_insert items k i : items !! k = None -> used (<[k := i]> items) = item_bytes i + used items.
Proof. intros Hk. unfold used. rewrite map_fold_insert_L; [done| |done]. intros. lia. Qed.

Lemma used_delete items k i : items !! k = Some i -> used items = item_bytes i + used (delete k items).
Proof. intros Hk. rewrite <- (used_insert _ k) by apply lookup_delete_eq. by rewrite insert_delete_id. Qed.

Lemma used_update items k i i' : items !! k = Some i -> used (<[k := i']> items) = used items - item_bytes i + item_bytes i'.
Proof.
  intros Hk. rewrite <- insert_delete_eq, used_insert by apply lookup_delete_eq. rewrite (used_delete _ _ _ Hk). lia.
Qed.

Definition total_size (files : list StageFile) : Z := fold_right (fun f n => sf_size_bytes f + n) 0 files.

Lemma total_size_snoc files f : total_size (files ++ [f]) = total_size files + sf_size_bytes f.
Proof. unfold total_size. induction files; cbn [app fold_right] in *; lia. Qed.

(** The directory at [dir] and what is in it. *)
Definition holds (dir : string) (g : Staging) (items : gmap string Item) : Prop :=
  exists mode uid, g_entities g !! dir = Some (EDir mode uid items).

Lemma holds_items dir g items : holds dir g items -> items_of_entity (g_entities g !! dir) = items.
Proof. intros (m & u & ->). done. Qed.

Section contents.
Context {CR : Crypto} {ED : Ed25519} {JR : JsonReader} {PB : Prost} (deps : ArtifactDeps).

(** A file of a set, with the declared size and digest. *)
Definition finished (items : gmap string Item) (f : StageFile) : Prop :=
  exists mode uid bytes, items !! sf_name f = Some (IFile mode uid bytes)
    /\ len bytes = sf_size_bytes f /\ hex (sha256 bytes) = sf_digest_hex f.

Definition entry_of (f : StageFile) : string * string := (sf_name f, sf_digest_hex f).

(** The directory holds [files], the file being written with its bytes so far
    ([part]), and no other file. *)
Record settled (items : gmap string Item) (files : list StageFile) (part : option (string * string)) : Prop := {
  se_files : Forall (finished items) files;
  se_part : forall k b, part = Some (k, b) ->
    k ∉ sf_name <$> files /\ exists mode uid, items !! k = Some (IFile mode uid b);
  se_only : forall k i, items !! k = Some i ->
    (exists mode uid, i = IDir mode uid)
    \/ (exists mode uid b, i = IFile mode uid b /\ (k ∈ sf_name <$> files \/ part = Some (k, b)));
  se_used : used items = total_size files + match part with Some (_, b) => len b | None => 0 end
}.

Definition file_ok (arch : string) (f : StageFile) : Prop :=
  file_name_ok (sf_name f) arch = true /\ hex64 (sf_digest_hex f) = true /\ 0 <= sf_size_bytes f <= MAX_FILE_BYTES.

Definition opened (f : StageFile) (open : OpenFile) : Prop :=
  of_name open = sf_name f /\ of_size open = sf_size_bytes f /\ of_digest_hex open = sf_digest_hex f
  /\ of_target open = sf_name f /\ of_part open = sf_name f +:+ ".part" /\ of_written open = len (of_hasher open)
  /\ of_written open <= of_size open.

(** The locals of [stage] and the upload directory. *)
Record uploading (u : Upload) (items : gmap string Item) : Prop := {
  ul_digest : hex64 (sh_bundle_manifest_digest_hex (up_header u)) = true;
  ul_seen : up_seen u = rev (sf_name <$> up_files u);
  ul_names : NoDup (sf_name <$> up_files u);
  ul_count : lenl (up_files u) <= MAX_FILES;
  ul_files : Forall (file_ok (up_arch u)) (up_files u);
  ul_total : up_total u = total_size (up_files u);
  ul_bound : up_total u <= MAX_SET_BYTES;
  ul_state : match up_current u with
    | None => up_done u = entry_of <$> up_files u /\ settled items (up_files u) None
    | Some open => exists files f, up_files u = files ++ [f] /\ up_done u = entry_of <$> files /\ opened f open
                   /\ settled items files (Some (of_part open, of_hasher open))
    end
}.

(** *** One call *)

Lemma call_ok e g g' : call e g = (Ok tt, g') -> g_entities g' = g_entities g.
Proof.
  unfold call, bind, answer. unfold done, fail, ret.
  destruct (g_faults g) as [|[] rest]; intros [= <-]; done.
Qed.

Lemma try_call_inv {B} e (k : unit -> io B) g b g' :
  try_bind (call e) k g = (Ok b, g') -> exists g1, g_entities g1 = g_entities g /\ k tt g1 = (Ok b, g').
Proof. intros ([] & g1 & Hc & Hk)%try_inv. exists g1. split; [by eapply call_ok|done]. Qed.

Lemma try_lift_inv {A B} (r : outcome Status A) (k : A -> io B) g b g' :
  try_bind (lift r) k g = (Ok b, g') -> exists a, r = Ok a /\ k a g = (Ok b, g').
Proof. intros (a & s & [<- ->]%ret_inv & Hk)%try_inv. eauto. Qed.

Lemma set_item_ok dir path i g items : holds dir g items ->
  exists g', set_item dir path i g = (Ok tt, g') /\ holds dir g' (<[path := i]> items).
Proof.
  intros (m & u & Hd). unfold set_item, bind, modify_entities. eexists; split; [reflexivity|]. cbn. rewrite Hd.
  exists m, u. cbn. by rewrite lookup_insert_eq.
Qed.

Lemma make_parent_ok dir name g g' items : holds dir g items -> make_parent deps dir name g = (Ok tt, g') ->
  holds dir g' items
  \/ exists parent, items !! parent = None /\ holds dir g' (<[parent := IDir DIR_MODE (dp_uid deps)]> items).
Proof.
  intros Hd. unfold make_parent. destruct (name_parent name) as [parent|]; [|by intros [= <-]; left].
  intros (g1 & He & H)%try_call_inv. assert (holds dir g1 items) as Hd1 by (unfold holds; by rewrite He).
  unfold bind, items_at, asks in H. rewrite (holds_items _ _ _ Hd1) in H.
  destruct (items !! parent) eqn:Hp; [injection H as <-; by left|].
  destruct (set_item_ok dir parent (IDir DIR_MODE (dp_uid deps)) g1 items Hd1) as (g2 & Hs & H2).
  right. exists parent. rewrite Hs in H. by injection H as <-.
Qed.

Lemma create_file_ok dir name path g g' items : holds dir g items -> create_file deps dir name path g = (Ok tt, g') ->
  items !! path = None /\ holds dir g' (<[path := IFile FILE_MODE (dp_uid deps) ""]> items).
Proof.
  intros Hd. unfold create_file. intros (g1 & He & H)%try_call_inv.
  assert (holds dir g1 items) as Hd1 by (unfold holds; by rewrite He).
  unfold bind, items_at, asks in H. rewrite (holds_items _ _ _ Hd1) in H.
  match type of H with (if ?c then _ else _) _ = _ => destruct c eqn:Hc; [|done] end. bsplit.
  split; [by destruct (items !! path)|].
  destruct (set_item_ok dir path (IFile FILE_MODE (dp_uid deps) "") g1 items Hd1) as (g2 & Hs & H2).
  rewrite Hs in H. by injection H as <-.
Qed.

Lemma write_all_ok dir part data g g' items mode uid bytes : holds dir g items ->
  items !! part = Some (IFile mode uid bytes) -> write_all dir part data g = (Ok tt, g') ->
  holds dir g' (<[part := IFile mode uid (bytes +:+ data)]> items).
Proof.
  intros Hd Hp. unfold write_all. intros (a & g1 & Ha & H)%bind_inv.
  assert (holds dir g1 items) as Hd1.
  { unfold holds. unfold answer in Ha. by destruct (g_faults g); injection Ha as _ <-. }
  unfold bind at 1, items_at, asks in H. rewrite (holds_items _ _ _ Hd1), Hp in H. destruct a.
  - destruct (set_item_ok dir part (IFile mode uid (bytes +:+ data)) g1 items Hd1) as (g2 & Hs & H2).
    rewrite Hs in H. by injection H as <-.
  - apply try_inv in H as (? & ? & _ & [=]).
Qed.

Lemma finish_file_ok dir open g g' items entry : holds dir g items ->
  finish_file dir open g = (Ok entry, g') ->
  of_written open = of_size open /\ hex (sha256 (of_hasher open)) = of_digest_hex open
  /\ entry = (of_name open, of_digest_hex open)
  /\ exists i, items !! of_part open = Some i /\ (forall m u, items !! of_target open <> Some (IDir m u))
     /\ holds dir g' (<[of_target open := i]> (delete (of_part open) items)).
Proof.
  intros Hd. unfold finish_file. intros ([] & Hl & H)%try_lift_inv. inv_ok Hl.
  apply try_call_inv in H as (g1 & He1 & H). apply try_inv in H as ([] & g2 & Hr & H). injection H as <- <-.
  unfold rename_item in Hr. apply try_call_inv in Hr as (g3 & He3 & H).
  assert (holds dir g3 items) as Hd3 by (unfold holds; by rewrite He3, He1).
  split; [by apply Z.eqb_eq|]. split; [by apply String.eqb_eq|]. split; [done|].
  unfold bind at 1, items_at, asks in H. rewrite (holds_items _ _ _ Hd3) in H.
  destruct (items !! of_part open) as [i|] eqn:Hp; [|done]. exists i. split; [done|].
  destruct Hd3 as (m & u & Hd3). unfold bind, modify_entities in H.
  assert (holds dir g2 (<[of_target open := i]> (delete (of_part open) items))) as Hg2.
  { destruct (items !! of_target open) as [[]|]; try done; injection H as <-; exists m, u; cbn; rewrite Hd3;
      apply lookup_insert_eq. }
  split; [|done]. intros m' u' Ht. rewrite Ht in H. done.
Qed.

(** *** The directory *)

Lemma finished_insert items k i f : items !! k = None -> finished items f -> finished (<[k := i]> items) f.
Proof.
  intros Hk (m & u & b & Hf & Hl & Hd). exists m, u, b. split; [|done]. rewrite lookup_insert_ne; [done|]. congruence.
Qed.

Lemma settled_mkdir items files part parent mode uid : items !! parent = None ->
  settled items files part -> settled (<[parent := IDir mode uid]> items) files part.
Proof.
  intros Hp [Hf Hpart Ho Hu]. split.
  - eapply Forall_impl; [exact Hf|]. intros f. by apply finished_insert.
  - intros k b Hk. destruct (Hpart k b Hk) as (Hn & m & u & Hl). split; [done|]. exists m, u.
    rewrite lookup_insert_ne; [done|]. congruence.
  - intros k i [[-> <-]|[Hk Hi]]%lookup_insert_Some; [left; eauto|by apply Ho].
  - rewrite used_insert by done. cbn [item_bytes]. lia.
Qed.

Lemma settled_create items files path mode uid : items !! path = None ->
  settled items files None -> settled (<[path := IFile mode uid ""]> items) files (Some (path, "")).
Proof.
  intros Hp [Hf Hpart Ho Hu]. split.
  - eapply Forall_impl; [exact Hf|]. intros f. by apply finished_insert.
  - intros k b [= <- <-]. split; [|exists mode, uid; apply lookup_insert_eq].
    intros (f & -> & Hin)%list_elem_of_fmap. rewrite Forall_forall in Hf. destruct (Hf f Hin) as (? & ? & ? & H & _). congruence.
  - intros k i [[-> <-]|[Hk Hi]]%lookup_insert_Some; [right; exists mode, uid, ""; auto|].
    destruct (Ho k i Hi) as [H|(m & u & b & -> & [H|H])]; [by left|right; exists m, u, b; auto|done].
  - rewrite used_insert by done. cbn [item_bytes]. change (len "") with 0. lia.
Qed.

Lemma settled_write items files part mode uid bytes data : items !! part = Some (IFile mode uid bytes) ->
  settled items files (Some (part, bytes)) ->
  settled (<[part := IFile mode uid (bytes +:+ data)]> items) files (Some (part, bytes +:+ data)).
Proof.
  intros Hp [Hf Hpart Ho Hu]. destruct (Hpart part bytes eq_refl) as [Hn _]. split.
  - rewrite Forall_forall in Hf |- *. intros f Hin. destruct (Hf f Hin) as (m & u & b & Hl & H).
    exists m, u, b. split; [|done]. rewrite lookup_insert_ne; [done|]. intros ->. apply Hn, list_elem_of_fmap. eauto.
  - intros k b [= <- <-]. split; [done|]. exists mode, uid. apply lookup_insert_eq.
  - intros k i [[-> <-]|[Hk Hi]]%lookup_insert_Some; [right; exists mode, uid, (bytes +:+ data); auto|].
    destruct (Ho k i Hi) as [H|(m & u & b & -> & [H|H])]; [by left|right; exists m, u, b; auto|congruence].
  - rewrite (used_update _ _ _ _ Hp). cbn [item_bytes]. unfold len in *. rewrite str_app_length. lia.
Qed.

Lemma settled_finish items files f part bytes i : sf_name f ∉ sf_name <$> files -> part <> sf_name f ->
  items !! part = Some i -> (forall m u, items !! sf_name f <> Some (IDir m u)) ->
  len bytes = sf_size_bytes f -> hex (sha256 bytes) = sf_digest_hex f ->
  settled items files (Some (part, bytes)) -> settled (<[sf_name f := i]> (delete part items)) (files ++ [f]) None.
Proof.
  intros Hfresh Hne Hp Hdir Hlen Hsha [Hf Hpart Ho Hu].
  destruct (Hpart part bytes eq_refl) as (Hn & mode & uid & Hl). rewrite Hl in Hp. injection Hp as <-.
  assert (items !! sf_name f = None) as Htarget.
  { destruct (items !! sf_name f) as [i|] eqn:Hi; [|done]. exfalso.
    destruct (Ho _ _ Hi) as [(m & u & ->)|(m & u & b & -> & [H|H])]; [by eapply Hdir|done|congruence]. }
  split.
  - apply Forall_app. split.
    + rewrite Forall_forall in Hf |- *. intros f' Hin. destruct (Hf f' Hin) as (m & u & b & Hl' & H).
      exists m, u, b. split; [|done]. rewrite lookup_insert_ne by congruence. rewrite lookup_delete_ne; [done|].
      intros ->. apply Hn, list_elem_of_fmap. eauto.
    + constructor; [|done]. exists mode, uid, bytes. by rewrite lookup_insert_eq.
  - done.
  - intros k i [[<- <-]|[Hk [Hk' Hi]%lookup_delete_Some]]%lookup_insert_Some.
    + right. exists mode, uid, bytes. split; [done|]. left. rewrite fmap_app. set_solver.
    + destruct (Ho k i Hi) as [H|(m & u & b & -> & [H|H])]; [by left| |congruence].
      right. exists m, u, b. split; [done|]. left. rewrite fmap_app. set_solver.
  - rewrite used_insert by (rewrite lookup_delete_ne; done). rewrite (used_delete _ _ _ Hl) in Hu.
    cbn [item_bytes] in *. rewrite total_size_snoc. lia.
Qed.

(** *** Messages *)

Lemma finish_current_ok u g u' g' items : uploading u items -> holds (upload_dir (sh_stage_id (up_header u))) g items ->
  finish_current u g = (Ok u', g') ->
  exists items', uploading u' items' /\ holds (upload_dir (sh_stage_id (up_header u))) g' items'
    /\ up_current u' = None /\ up_header u' = up_header u /\ up_files u' = up_files u /\ up_arch u' = up_arch u
    /\ up_seen u' = up_seen u /\ up_total u' = up_total u.
Proof.
  intros HU Hd. unfold finish_current. destruct (up_current u) as [open|] eqn:Hc.
  2:{ intros [= <- <-]. exists items. by split_and!. }
  intros (entry & g1 & Hf & H)%try_inv. injection H as <- <-.
  destruct (finish_file_ok _ _ _ _ _ _ Hd Hf) as (Hw & Hs & -> & i & Hp & Hdir & Hg1).
  destruct HU as [H1 H2 H3 H4 H5 H6 H7 Hstate]. rewrite Hc in Hstate.
  destruct Hstate as (files & f & Hfiles & Hdone & (Hname & Hsize & Hdig & Htarget & Hpart & Hwr & Hle) & Hset).
  rewrite Htarget in *. eexists. split; [|by split_and!]. split; cbn [up_header up_seen up_files up_arch up_total]; try done.
  cbn [up_current up_done]. rewrite Hfiles, Hdone, fmap_app, Hname, Hdig. split; [done|].
  rewrite Hfiles, fmap_app in H3. apply NoDup_app in H3 as (_ & Hnd & _).
  eapply settled_finish; try done.
  - intros Hin. by apply (Hnd _ Hin), list_elem_of_here.
  - rewrite Hpart. apply part_other.
  - congruence.
  - congruence.
Qed.

Definition wf_file (f : StageFile) : Prop := 0 <= sf_size_bytes f <= u64_max.

Definition wf_frame (f : Frame) : Prop := match f with FFile file => wf_file file | _ => True end.

Lemma begin_file_ok dir arch file seen g g' items files open : holds dir g items -> settled items files None ->
  begin_file deps dir arch file seen g = (Ok open, g') ->
  (file_name_ok (sf_name file) arch = true /\ sf_name file ∉ seen /\ lenl (sf_name file :: seen) <= MAX_FILES
   /\ sf_size_bytes file <= MAX_FILE_BYTES /\ hex64 (sf_digest_hex file) = true)
  /\ (0 <= sf_size_bytes file -> opened file open) /\ exists items', holds dir g' items' /\ settled items' files (Some (of_part open, of_hasher open)).
Proof.
  intros Hd Hs. unfold begin_file. intros ([] & Hl & H)%try_lift_inv. inv_ok Hl. bsplit.
  apply try_inv in H as ([] & g1 & Hmk & H). apply try_inv in H as ([] & g2 & Hcr & H). injection H as <- <-.
  split; [|split].
  - split_and!; try done; try by apply Z.leb_le. rewrite <- contains_str_spec. by destruct (contains_str _ _).
  - intros Hpos. by split_and!.
  - cbn [of_part of_hasher].
    assert (exists items1, holds dir g1 items1 /\ settled items1 files None) as (items1 & Hd1 & Hs1).
    { destruct (make_parent_ok _ _ _ _ _ Hd Hmk) as [?|(parent & Hp & ?)]; [by eauto|].
      eexists; split; [done|]. by apply settled_mkdir. }
    destruct (create_file_ok _ _ _ _ _ _ Hd1 Hcr) as [Hp Hd2]. eexists. split; [exact Hd2|]. by apply settled_create.
Qed.

Lemma total_size_pos arch files : Forall (file_ok arch) files -> 0 <= total_size files.
Proof.
  unfold total_size. induction 1 as [|f files (_ & _ & Hf) _ IH]; cbn [fold_right]; lia.
Qed.

Lemma receive_ok u f g u' g' items : uploading u items -> holds (upload_dir (sh_stage_id (up_header u))) g items ->
  wf_frame f -> receive deps u f g = (Ok u', g') ->
  exists items', uploading u' items' /\ holds (upload_dir (sh_stage_id (up_header u'))) g' items'.
Proof.
  intros HU Hd Hwf. destruct f as [h|file|data|]; cbn [receive]; [done| | |by intros [= <- <-]; eauto].
  - unfold receive_file. intros (u1 & g1 & Hfin & H)%try_inv.
    destruct (finish_current_ok _ _ _ _ _ HU Hd Hfin) as (items1 & HU1 & Hd1 & Hc1 & Hh1 & _).
    apply try_lift_inv in H as ([] & Hl & H). inv_ok Hl. apply try_inv in H as (open & g2 & Hb & H). injection H as <- <-.
    destruct HU1 as [H1 H2 H3 H4 H5 H6 H7 Hst]. rewrite Hc1 in Hst. destruct Hst as [Hdone Hs]. rewrite <- Hh1 in Hd1.
    destruct (begin_file_ok _ _ _ _ _ _ _ _ _ Hd1 Hs Hb) as ((B1 & B2 & B3 & B4 & B5) & Hop & items2 & Hd2 & Hs2).
    cbn in Hwf. unfold wf_file in Hwf. exists items2. cbn [up_header]. split; [|done].
    assert (up_total u1 + sf_size_bytes file <= u64_max) as Hsat.
    { unfold MAX_SET_BYTES, MAX_FILE_BYTES, u64_max in *. lia. }
    unfold saturating_add_u64 in *. rewrite Z.min_l in * by done.
    split; cbn [up_header up_seen up_files up_arch up_total]; try done.
    + by rewrite fmap_app, rev_app_distr, <- H2.
    + rewrite fmap_app. apply NoDup_app. split_and!; [done| |apply NoDup_singleton].
      intros k Hk ->%list_elem_of_singleton. apply B2. rewrite H2. apply list_elem_of_In. rewrite <- in_rev.
      by apply list_elem_of_In.
    + unfold lenl in *. rewrite H2 in B3. cbn [length] in B3. rewrite length_rev, length_fmap in B3. rewrite length_app. cbn [length]. lia.
    + apply Forall_app. split; [done|]. constructor; [|done]. split_and!; try done. lia.
    + rewrite total_size_snoc. lia.
    + by apply Z.leb_le.
    + cbn [up_current up_done]. exists (up_files u1), file. split_and!; try done. apply Hop. lia.
  - unfold receive_chunk. intros (open & Ho & H)%try_lift_inv. inv_ok Ho.
    apply try_lift_inv in H as ([] & Hl & H). inv_ok Hl. apply try_inv in H as ([] & g1 & Hw & H). injection H as <- <-.
    destruct HU as [H1 H2 H3 H4 H5 H6 H7 Hst]. rewrite Ho in Hst.
    destruct Hst as (files & f & Hfiles & Hdone & (O1 & O2 & O3 & O4 & O5 & O6 & O7) & Hs).
    destruct (se_part _ _ _ Hs _ _ eq_refl) as (Hn & mode & uid & Hp).
    pose proof (write_all_ok _ _ _ _ _ _ _ _ _ Hd Hp Hw) as Hd1. eexists. cbn [up_header]. split; [|exact Hd1].
    split; cbn [up_header up_seen up_files up_arch up_total]; try done.
    cbn [up_current up_done of_part of_hasher]. exists files, f. split_and!; try done; [|by apply settled_write].
    unfold opened. cbn. split_and!; try done; [|by apply Z.leb_le]. rewrite O6. unfold len. rewrite str_app_length. lia.
Qed.

End contents.

(** ** What was verified *)

Section verified.
Context {CR : Crypto} {ED : Ed25519} {JR : JsonReader} {PB : Prost} (deps : ArtifactDeps).

(** A key of a release keys file signed a manifest: the key is pinned and not
    revoked, and in production it is no TEST key. *)
Definition signed_by (keys_raw : string) (id manifest_raw : string) : Prop :=
  exists keys key sig, parse_release_keys keys_raw (dp_mode deps) = Ok keys
    /\ bget id (rk_keys keys) = Some key /\ id ∉ rk_revoked keys
    /\ (trust_test_keys (dp_mode deps) = false -> id ∉ TEST_RELEASE_KEY_IDS)
    /\ verify_strict key (MANIFEST_PREFIX +:+ manifest_raw) sig = true.

(** A manifest lists a binary for an arch. *)
Definition lists (manifest : Value) (arch path digest : string) : Prop :=
  exists c, c ∈ items_of manifest.["components"] /\ as_str c.["arch"] = Some arch
    /\ as_str c.["path"] = Some path /\ as_str c.["artifact_digest_hex"] = Some digest.

(** What a record of a committed set says of the files below its directory. *)
Record authentic (set : StagedArtifactSet) (items : gmap string Item) : Prop := {
  au_files : Forall (finished items) (st_files set);
  au_manifest : exists f, f ∈ st_files set /\ sf_name f = "manifest.json"
    /\ sf_digest_hex f = st_bundle_manifest_digest_hex set;
  au_signed : exists keys_path keys_raw manifest_raw manifest,
    read_release_keys keys_path (dp_release_keys_owner deps) = Ok (Some keys_raw)
    /\ hex (sha256 manifest_raw) = st_bundle_manifest_digest_hex set
    /\ signed_by keys_raw (st_release_key_id set) manifest_raw
    /\ parse_manifest manifest_raw = Some manifest
    /\ forall f, f ∈ st_files set -> contains_byte "/" (sf_name f) = true ->
       lists manifest (st_arch set) (sf_name f) (sf_digest_hex f)
}.

Lemma opt_filter_Some {A} (p : A -> bool) o x : opt_filter p o = Some x -> o = Some x /\ p x = true.
Proof. destruct o as [y|]; cbn; [|done]. destruct (p y) eqn:Hp; [|done]. by intros [= ->]. Qed.

Lemma contains_str_false l s : contains_str l s = false -> s ∉ l.
Proof. rewrite <- contains_str_spec. by intros ->. Qed.

Lemma check_signature_ok keys mode manifest_raw signature_raw id :
  check_signature keys mode manifest_raw signature_raw = Ok id ->
  exists key sig, bget id (rk_keys keys) = Some key /\ id ∉ rk_revoked keys
    /\ (trust_test_keys mode = false -> id ∉ TEST_RELEASE_KEY_IDS)
    /\ verify_strict key (MANIFEST_PREFIX +:+ manifest_raw) sig = true.
Proof.
  unfold check_signature. intros H. inv_ok H. subst id.
  apply opt_filter_Some in Hx0 as [Hx0 Htest]. apply opt_filter_Some in Hx0 as [Hget Hrev]. bsplit.
  exists x0, x1. split_and!; try done; [by apply contains_str_false|].
  intros Hmode. rewrite Hmode in Htest. apply contains_str_false. by apply negb_true_iff in Htest.
Qed.

Lemma verify_staged_ok keys_path manifest_raw signature_raw digest arch staged v :
  verify_staged (read_release_keys keys_path (dp_release_keys_owner deps)) (dp_mode deps) manifest_raw signature_raw
    digest arch staged = Ok v ->
  hex (sha256 manifest_raw) = digest /\ exists keys_raw manifest,
    read_release_keys keys_path (dp_release_keys_owner deps) = Ok (Some keys_raw)
    /\ signed_by keys_raw (vf_release_key_id v) manifest_raw
    /\ parse_manifest manifest_raw = Some manifest
    /\ forall path d, (path, d) ∈ staged -> lists manifest arch path d.
Proof.
  unfold verify_staged, pinned_keys. intros H. inv_ok H. apply String.eqb_eq in Hc. split; [done|].
  destruct (read_release_keys _ _) as [[keys_raw|]|e|]; try done. cbn [obind] in Hx.
  destruct (parse_release_keys _ _) as [keys|e|] eqn:Hk; try done. injection Hx as ->.
  subst v. cbn [vf_release_key_id]. apply check_signature_ok in Hx1 as (key & sig & Hsig).
  exists keys_raw, x0. split; [done|]. split; [by exists x, key, sig|]. split; [done|].
  intros path d Hin. destruct x2. apply for_each_Ok in Hx2. rewrite Forall_forall in Hx2. specialize (Hx2 _ Hin).
  cbn in Hx2. inv_ok Hx2. destruct (find_first _ _) as [c|] eqn:Hf; [|done]. cbn in Hc0.
  apply find_first_Some in Hf as [Hc1 Hpath]. unfold entries_for in Hc1. apply list_elem_of_In, filter_In in Hc1 as [Hc1 Harch].
  exists c. split; [by apply list_elem_of_In|]. apply eq_str_true in Harch, Hpath, Hc0. rewrite Harch, Hpath, Hc0. by split_and!.
Qed.

Lemma bof_list_elem {V} k (v : V) l : NoDup (l.*1) -> (k, v) ∈ l -> (k, v) ∈ bof_list l.
Proof.
  intros Hnd Hin. apply bget_In. unfold bof_list. rewrite fold_insert_get by done.
  assert (bget k l = Some v) as ->; [|done].
  induction l as [|[k' v'] l IH]; [set_solver|]. cbn [bget]. cbn [fmap list_fmap] in Hnd. apply NoDup_cons in Hnd as [Hni Hnd].
  apply elem_of_cons in Hin as [[= <- <-]|Hin]; [by rewrite String.eqb_refl|].
  destruct (String.eqb_spec k k') as [->|]; [|by apply IH]. exfalso. apply Hni, list_elem_of_fmap. by exists (k', v).
Qed.

Lemma filter_keys_NoDup {V} (p : string * V -> bool) l : NoDup (l.*1) -> NoDup ((List.filter p l).*1).
Proof.
  induction l as [|e l IH]; cbn [fmap list_fmap List.filter]; [done|]. intros [Hni Hnd]%NoDup_cons.
  destruct (p e); [|by apply IH]. cbn [fmap list_fmap]. constructor; [|by apply IH].
  intros (x & Hx & Hin)%list_elem_of_fmap. apply Hni. rewrite Hx. apply list_elem_of_fmap. exists x. split; [done|].
  apply list_elem_of_In, filter_In in Hin as [Hin _]. by apply list_elem_of_In.
Qed.

Lemma staged_elem files f : NoDup (sf_name <$> files) -> f ∈ files -> contains_byte "/" (sf_name f) = true ->
  entry_of f ∈ bof_list (List.filter (fun e => contains_byte "/" e.1) (entry_of <$> files)).
Proof.
  intros Hnd Hin Hs. apply bof_list_elem.
  - apply filter_keys_NoDup. rewrite <- list_fmap_compose. done.
  - apply list_elem_of_In, filter_In. split; [|done]. apply list_elem_of_In, list_elem_of_fmap. eauto.
Qed.

Lemma read_item_ok dir name g items r g' : holds dir g items -> read_item dir name g = (Some r, g') ->
  (exists mode uid, items !! name = Some (IFile mode uid r)) /\ holds dir g' items.
Proof.
  intros Hd. unfold read_item. intros (a & g1 & Ha & H)%bind_inv.
  assert (holds dir g1 items) as Hd1.
  { unfold holds. unfold answer in Ha. by destruct (g_faults g); injection Ha as _ <-. }
  unfold bind, items_at, asks in H. rewrite (holds_items _ _ _ Hd1) in H. injection H as H <-. split; [|done].
  destruct a; [|done]. destruct (items !! name) as [[]|]; try done. injection H as ->. eauto.
Qed.

Lemma verify_upload_ok around u g v g' items : uploading u items -> up_current u = None ->
  holds (upload_dir (sh_stage_id (up_header u))) g items -> verify_upload deps around u g = (Ok v, g') ->
  forall items', Forall (finished items') (up_files u) -> authentic (set_of around u v) items'.
Proof.
  intros HU Hc Hd. unfold verify_upload. intros (m & g1 & Hm & H)%bind_inv. apply bind_inv in H as (s & g2 & Hs & H).
  destruct m as [m|]; [|done]. destruct s as [s|]; [|done]. apply ret_inv in H as [H ->].
  destruct (verify_staged _ _ _ _ _ _ _) as [v'|r|] eqn:Hv; try done. injection H as ->.
  destruct (read_item_ok _ _ _ _ _ _ Hd Hm) as [(mode & uid & Hitem) _].
  apply verify_staged_ok in Hv as (Hdig & keys_raw & manifest & Hkeys & Hsigned & Hparse & Hlists).
  pose proof (ul_state _ _ HU) as Hst. rewrite Hc in Hst. destruct Hst as [Hdone Hset].
  intros items' Hfin. split; cbn [st_files st_bundle_manifest_digest_hex st_release_key_id st_arch set_of]; [done| |].
  - destruct (se_only _ _ _ Hset _ _ Hitem) as [(? & ? & ?)|(? & ? & ? & [= <- <- <-] & [Hin|?])]; [done| |done].
    apply list_elem_of_fmap in Hin as (f & Hname & Hin). exists f. split_and!; [done|done|].
    pose proof (se_files _ _ _ Hset) as Hf. rewrite Forall_forall in Hf.
    destruct (Hf f Hin) as (m1 & u1 & b & Hb & _ & Hb2). rewrite <- Hname, Hitem in Hb. injection Hb as <- <- <-.
    congruence.
  - exists (ar_release_keys around), keys_raw, m, manifest. split_and!; try done. intros f Hin Hslash.
    apply Hlists. rewrite Hdone. apply staged_elem; [apply (ul_names _ _ HU)|done|done].
Qed.

Lemma try_each_ok {A} (f : A -> io unit) (P : A -> Prop) (I : Staging -> Prop) l g g' :
  (forall x g g', I g -> f x g = (Ok tt, g') -> I g' /\ P x) -> I g -> try_each f l g = (Ok tt, g') -> Forall P l /\ I g'.
Proof.
  intros Hf. revert g. induction l as [|x l IH]; intros g HI; cbn [try_each].
  - by intros [= <-].
  - intros ([] & g1 & Hx & H)%try_inv. destruct (Hf x g g1 HI Hx) as [HI1 HP]. destruct (IH g1 HI1 H). auto.
Qed.

Lemma existing_ok target files g g' items : holds target g items ->
  verify_existing_files target files g = (Ok tt, g') -> Forall (finished items) files /\ holds target g' items.
Proof.
  intros Hd. unfold verify_existing_files. intros (g1 & He1 & H)%try_call_inv.
  apply try_inv in H as ([] & g2 & Hr & H). injection Hr as _ <-.
  eapply (try_each_ok _ _ (fun g => holds target g items)); [| |exact H]; [|unfold holds; by rewrite He1].
  clear. intros f g g' Hd. unfold verify_existing_file, stat_dir. intros ([] & g1 & H1 & H)%try_inv.
  apply try_call_inv in H1 as (g2 & He2 & H1). injection H1 as _ <-.
  apply try_inv in H as ([] & g3 & H1 & H). apply try_call_inv in H1 as (g4 & He4 & H1). injection H1 as _ <-.
  apply try_call_inv in H as (g5 & He5 & H). apply try_call_inv in H as (g6 & He6 & H).
  apply try_call_inv in H as (g7 & He7 & H). unfold asks in H. injection H as H <-.
  assert (holds target g7 items) as Hd7 by (destruct Hd as (m & u & Hd); exists m, u; congruence). split; [done|].
  rewrite (holds_items _ _ _ Hd7) in H. destruct (items !! sf_name f) as [[m u b| |]|] eqn:Hi; try done.
  inv_ok H. bsplit. exists m, u, b. split; [done|]. split; [by apply Z.eqb_eq|by apply String.eqb_eq].
Qed.

End verified.

(** ** The records of the committed sets *)

Section records.
Context {CR : Crypto} {ED : Ed25519} {JR : JsonReader} {PB : Prost} {PL : ProstLaws} (deps : ArtifactDeps).

Definition staged_rows (o : Ops) : list OpsRow := select (fun r => same_kind (or_kind r) KStagedSet) (o_records o).

Lemma staged_rows_elem o r : r ∈ staged_rows o <-> r ∈ o_records o /\ or_kind r = KStagedSet.
Proof.
  unfold staged_rows, select. rewrite !list_elem_of_In, filter_In. unfold same_kind. by rewrite bool_decide_eq_true.
Qed.

(** A record and the directory of its set. *)
Definition row_ok (g : Staging) (r : OpsRow) : Prop :=
  exists set items, or_body r = encode_to_vec staged_set set /\ or_subject r = st_bundle_manifest_digest_hex set
    /\ hex64 (or_subject r) = true /\ holds (or_subject r) g items /\ authentic deps set items.

Record sound (g : Staging) : Prop := {
  so_rows : forall r, r ∈ staged_rows (g_ops g) -> row_ok g r;
  so_subject : forall r r', r ∈ staged_rows (g_ops g) -> r' ∈ staged_rows (g_ops g) -> or_subject r = or_subject r' -> r = r';
  so_id : forall r r', r ∈ staged_rows (g_ops g) -> r' ∈ staged_rows (g_ops g) -> or_id r = or_id r' -> r = r'
}.

Lemma sound_subset g g' : sound g ->
  (forall r, r ∈ staged_rows (g_ops g') -> r ∈ staged_rows (g_ops g)
     /\ (hex64 (or_subject r) = true -> g_entities g' !! or_subject r = g_entities g !! or_subject r)) -> sound g'.
Proof.
  intros [H1 H2 H3] Hs. split; [|naive_solver..].
  intros r Hr. destruct (Hs r Hr) as [Hin He]. destruct (H1 r Hin) as (set & items & Hb & Hsub & Hhex & Hd & Ha).
  exists set, items. split_and!; try done. unfold holds. by rewrite He.
Qed.

Lemma sound_apart dir g g' : hex64 dir = false -> apart dir g g' -> sound g -> sound g'.
Proof.
  intros Hdir (_ & Ho & _ & He) Hs. apply (sound_subset g); [done|]. rewrite Ho. intros r Hr. split; [done|].
  intros Hhex. apply He. congruence.
Qed.

(** *** Removing *)

(** Records only go, and directories only where a digest says. *)
Definition clears (d : string) : relation Staging := fun g g' =>
  g_root g' = g_root g /\ g_session g' = g_session g
  /\ (forall r, r ∈ staged_rows (g_ops g') -> r ∈ staged_rows (g_ops g))
  /\ forall k, k <> d -> g_entities g' !! k = g_entities g !! k.

Lemma sound_clears d g g' : sound g -> clears d g g' ->
  (forall r, r ∈ staged_rows (g_ops g') -> or_subject r <> d) -> sound g'.
Proof.
  intros Hs (_ & _ & Hr & He) Hd. apply (sound_subset g); [done|]. intros r Hin. split; [by apply Hr|].
  intros _. apply He. by apply Hd.
Qed.

Lemma remove_rows o id r : r ∈ staged_rows (try_remove o KStagedSet id) <-> r ∈ staged_rows o /\ or_id r <> id.
Proof.
  rewrite !staged_rows_elem. unfold try_remove, delete_where. cbn [o_records ops_records].
  rewrite !list_elem_of_In, filter_In, negb_true_iff, <- not_true_iff_false, is_record_true. naive_solver.
Qed.

Lemma answer_inv a g g1 : answer g = (a, g1) ->
  g_root g1 = g_root g /\ g_session g1 = g_session g /\ g_ops g1 = g_ops g /\ g_entities g1 = g_entities g.
Proof. unfold answer. destruct (g_faults g); intros [= <- <-]; by split_and!. Qed.

Lemma remove_set_ok id g b g' : remove_set id g = (b, g') ->
  g_root g' = g_root g /\ g_session g' = g_session g /\ g_entities g' = g_entities g
  /\ (forall r, r ∈ staged_rows (g_ops g') -> r ∈ staged_rows (g_ops g))
  /\ (b = true -> forall r, r ∈ staged_rows (g_ops g') -> or_id r <> id).
Proof.
  unfold remove_set. intros (a & g1 & (R & S & O & E)%answer_inv & H)%bind_inv. destruct a; injection H as <- <-.
  - cbn. split_and!; try done; intros; rewrite ?O in *; by apply (remove_rows (g_ops g) id).
  - rewrite O. by split_and!.
Qed.

Lemma remove_dir_clears d : keeps (clears d) (remove_dir_all d).
Proof.
  intros g. destruct (apart_remove d g) as (R & O & S & E). split_and!; try done.
  intros r. by rewrite O.
Qed.

Lemma list_sets_inv limit g rows g' : list_sets limit g = (rows, g') ->
  g_root g' = g_root g /\ g_session g' = g_session g /\ g_ops g' = g_ops g /\ g_entities g' = g_entities g
  /\ forall l, rows = Some l -> exists all, all ≡ₚ staged_rows (g_ops g)
       /\ l = take (Z.to_nat (Z.min (Z.max limit 1) i64_max)) all.
Proof.
  unfold list_sets. intros (a & g1 & (R & S & O & E)%answer_inv & H)%bind_inv. destruct a; injection H as <- <-; [|by split_and!].
  split_and!; try done. intros l. rewrite O. unfold try_list.
  match goal with |- context [forallb ?p ?l'] => destruct (forallb p l'); [|done] end. intros [= <-].
  eexists. split; [|reflexivity]. cbn [ls_ascending Listing_of]. unfold order_desc. rewrite order_asc_perm.
  unfold staged_rows. erewrite (List.filter_ext _ _); [reflexivity|]. intros r. unfold listed. cbn. by rewrite !andb_true_r.
Qed.

Lemma list_sets_elem limit g l g' r : list_sets limit g = (Some l, g') -> r ∈ l -> r ∈ staged_rows (g_ops g).
Proof.
  intros (_ & _ & _ & _ & Hl)%list_sets_inv Hr. destruct (Hl l eq_refl) as (all & Hp & ->). rewrite <- Hp.
  rewrite <- (take_drop (Z.to_nat (Z.min (Z.max limit 1) i64_max)) all). set_solver.
Qed.

Lemma list_sets_all limit g l g' r : list_sets limit g = (Some l, g') -> 1 <= limit <= i64_max ->
  lenl (staged_rows (g_ops g)) <= limit -> r ∈ staged_rows (g_ops g) -> r ∈ l.
Proof.
  intros (_ & _ & _ & _ & Hl)%list_sets_inv Hlim Hlen Hr. destruct (Hl l eq_refl) as (all & Hp & ->).
  rewrite take_ge; [by rewrite Hp|]. rewrite (Permutation_length Hp). unfold lenl in Hlen. lia.
Qed.

(** What no upload looks at. *)
Definition tidies : relation Staging := fun g g' =>
  g_root g' = g_root g /\ g_session g' = g_session g
  /\ forall k, hex64 k = false -> g_entities g' !! k = g_entities g !! k.

#[local] Instance tidies_preorder : PreOrder tidies.
Proof.
  split; [by intros g; split_and!|]. intros a b c (R1 & S1 & E1) (R2 & S2 & E2). split_and!; try congruence.
  intros k Hk. by rewrite E2, E1.
Qed.

Lemma tidies_remove d : hex64 d = true -> keeps tidies (remove_dir_all d).
Proof.
  intros Hd g. destruct (apart_remove d g) as (R & O & S & E). split_and!; try done. intros k Hk. apply E. congruence.
Qed.

Lemma tidies_list limit : keeps tidies (list_sets limit).
Proof.
  intros g. destruct (list_sets limit g) as [rows g'] eqn:Hl. apply list_sets_inv in Hl as (R & S & O & E & _).
  split_and!; try done. cbn. by rewrite E.
Qed.

Lemma tidies_remove_set id : keeps tidies (remove_set id).
Proof.
  intros g. destruct (remove_set id g) as [b g'] eqn:Hr. apply remove_set_ok in Hr as (R & S & E & _).
  split_and!; try done. cbn. by rewrite E.
Qed.

Hint Resolve tidies_remove tidies_list tidies_remove_set : apart.

Lemma tidies_prune_dir d : keeps tidies (prune_dir d).
Proof. unfold prune_dir. destruct (hex64 d) eqn:Hd; apart_steps. Qed.

Hint Resolve tidies_prune_dir : apart.

Lemma tidies_prune_rows now l : forall kept, keeps tidies (prune_rows now l kept).
Proof. induction l as [|r l IH]; intros kept; cbn [prune_rows]; apart_steps. Qed.

Lemma tidies_prune now : keeps tidies (prune now).
Proof. unfold prune. apart_steps. apply tidies_prune_rows. Qed.

Lemma tidies_consumed d : keeps tidies (consumed d).
Proof.
  assert (forall l, keeps tidies (consume_rows d l)) as Hc.
  { induction l as [|r l IH]; cbn [consume_rows]; apart_steps. }
  unfold consumed. destruct (hex64 d) eqn:Hd; apart_steps.
Qed.

(** [prune] removes a directory after the one record that names it. *)
Lemma prune_rows_sound now l : forall g0 g kept, sound g0 -> (forall r, r ∈ l -> r ∈ staged_rows (g_ops g0)) ->
  (forall r, r ∈ staged_rows (g_ops g) -> r ∈ staged_rows (g_ops g0)) -> sound g -> sound (prune_rows now l kept g).2.
Proof.
  induction l as [|row l IH]; intros g0 g kept H0 Hl Hsub Hs; cbn [prune_rows]; [done|].
  assert (row ∈ staged_rows (g_ops g0)) as Hrow by (apply Hl; set_solver).
  destruct (so_rows _ H0 _ Hrow) as (set & items & Hb & Hdig & Hhex & _). rewrite Hb, staged_set_round.
  destruct (unexpired now set && (kept <? MAX_COMMITTED_SETS)); [apply (IH g0); set_solver|].
  apply run_bind. intros removed g1 Hr%remove_set_ok. destruct Hr as (R1 & S1 & E1 & Hin1 & Hid).
  assert (sound g1) as Hs1 by (apply (sound_subset g); [done|]; intros r Hr; split; [by apply Hin1|by rewrite E1]).
  destruct removed; [|done]. specialize (Hid eq_refl). apply run_bind. intros go_on g2 Hd.
  assert (sound g2 /\ forall r, r ∈ staged_rows (g_ops g2) -> r ∈ staged_rows (g_ops g1)) as [Hs2 Hin2].
  { unfold prune_dir in Hd. rewrite <- Hdig, Hhex in Hd. apply bind_inv in Hd as (rows & g3 & Hls & Hd).
    apply list_sets_inv in Hls as (R3 & S3 & O3 & E3 & _).
    assert (sound g3) as Hs3.
    { apply (sound_subset g1); [done|]. rewrite O3, E3. done. }
    destruct rows as [rows|]; [|apply ret_inv in Hd as [_ ->]; by rewrite O3].
    apply bind_inv in Hd as ([] & g4 & Hd & H). apply ret_inv in H as [_ ->].
    destruct (existsb _ rows); [apply ret_inv in Hd as [_ ->]; by rewrite O3|].
    pose proof (remove_dir_clears (or_subject row) g3) as Hc. rewrite Hd in Hc. cbn in Hc.
    split; [|intros r Hr; destruct Hc as (_ & _ & Hc & _); rewrite <- O3; by apply Hc].
    eapply sound_clears; [exact Hs3|exact Hc|]. intros r Hr Heq.
    assert (r ∈ staged_rows (g_ops g1)) as Hr1 by (destruct Hc as (_ & _ & Hc & _); rewrite <- O3; by apply Hc).
    apply (Hid r Hr1). f_equal. apply (so_subject _ H0); auto. }
  destruct go_on; [|done]. apply (IH g0); set_solver.
Qed.

Lemma prune_sound now g : sound g -> sound (prune now g).2.
Proof.
  intros Hs. unfold prune. apply run_bind. intros rows g1 Hls.
  pose proof Hls as (R & S & O & E & _)%list_sets_inv.
  assert (sound g1) as Hs1 by (apply (sound_subset g); [done|]; by rewrite O, E).
  destruct rows as [rows|]; [|done]. apply (prune_rows_sound now rows g1 g1); try done. rewrite O.
  intros r. by eapply list_sets_elem.
Qed.

(** [consumed] sees every record when there are no more than it lists. *)
Lemma consume_rows_ok d l : forall g b g', consume_rows d l g = (b, g') ->
  g_entities g' = g_entities g /\ (forall r, r ∈ staged_rows (g_ops g') -> r ∈ staged_rows (g_ops g))
  /\ (b = true -> forall row set, row ∈ l -> decode staged_set (or_body row) = Some set ->
        st_bundle_manifest_digest_hex set = d -> forall r, r ∈ staged_rows (g_ops g') -> or_id r <> or_id row).
Proof.
  induction l as [|row l IH]; intros g b g'; cbn [consume_rows]; [intros [_ ->]%ret_inv; split_and!; set_solver|].
  destruct (is_some_and _ _) eqn:Hd.
  - intros (removed & g1 & (_ & _ & E1 & Hin1 & Hid)%remove_set_ok & H)%bind_inv. destruct removed.
    + destruct (IH _ _ _ H) as (E2 & Hin2 & Hall). split; [congruence|]. split; [auto|].
      intros Hb row' set [->|Hrow']%elem_of_cons Hdec Hdig r Hr; [|by eapply Hall]. apply (Hid eq_refl). auto.
    + apply ret_inv in H as [-> ->]. by split_and!.
  - intros H. destruct (IH _ _ _ H) as (E2 & Hin2 & Hall). split_and!; [done|done|].
    intros Hb row' set [->|Hrow']%elem_of_cons Hdec Hdig r Hr; [|by eapply Hall]. exfalso.
    rewrite Hdec in Hd. cbn in Hd. rewrite Hdig, String.eqb_refl in Hd. done.
Qed.

Lemma consumed_sound d g : lenl (staged_rows (g_ops g)) <= 1000 -> sound g -> sound (consumed d g).2.
Proof.
  intros Hlen Hs. unfold consumed. destruct (hex64 d); [|done]. apply run_bind. intros rows g1 Hls.
  pose proof Hls as (R & S & O & E & _)%list_sets_inv.
  assert (sound g1) as Hs1 by (apply (sound_subset g); [done|]; by rewrite O, E).
  destruct rows as [rows|]; [|done]. apply run_bind. intros all g2 (E2 & Hin2 & Hall)%consume_rows_ok.
  assert (sound g2) as Hs2 by (apply (sound_subset g1); [done|]; intros r Hr; split; [auto|by rewrite E2]).
  destruct all; [|done]. eapply sound_clears; [exact Hs2|apply remove_dir_clears|]. intros r Hr Heq.
  assert (r ∈ staged_rows (g_ops g2)) as Hr2 by (by apply (remove_dir_clears d g2) in Hr).
  destruct (so_rows _ Hs2 _ Hr2) as (set & items & Hb & Hdig & _).
  refine (Hall eq_refl r set _ _ _ r Hr2 eq_refl); [|by rewrite Hb, staged_set_round|congruence].
  eapply list_sets_all; [exact Hls|unfold i64_max; lia|done|rewrite <- O; auto].
Qed.

(** *** Recording *)

Definition set_row (set : StagedArtifactSet) (now seq : Z) : OpsRow :=
  row_of_entry KStagedSet {| en_id := st_stage_id set; en_subject := st_bundle_manifest_digest_hex set; en_slot := "";
    en_status := 1; en_at := now; en_body := encode_to_vec staged_set set |} seq.

Lemma replace_rows o set now o' :
  (forall r r', r ∈ staged_rows o -> r' ∈ staged_rows o -> or_id r = or_id r' -> r = r') ->
  replace_staged_set o set now = Ok o' -> exists seq, forall r, r ∈ staged_rows o' ->
    r = set_row set now seq
    \/ r ∈ staged_rows o /\ or_subject r <> st_bundle_manifest_digest_hex set /\ or_id r <> st_stage_id set.
Proof.
  intros Hid. unfold replace_staged_set. set (rest := delete_where _ _). intros H. inv_ok H. destruct x as [s o1]. subst o'.
  cbn [snd]. unfold write_record in Hx. inv_ok Hx. cbn [o_records ops_records en_id] in Hx.
  assert (forall r, r ∈ rest -> or_kind r = KStagedSet ->
    r ∈ staged_rows o /\ or_subject r <> st_bundle_manifest_digest_hex set) as Hrest.
  { intros r Hr Hk. unfold rest, delete_where in Hr. apply list_elem_of_In, filter_In in Hr as [Hr Hn].
    split; [apply staged_rows_elem; split; [by apply list_elem_of_In|done]|]. intros Heq. unfold same_kind in Hn.
    rewrite Hk, Heq, String.eqb_refl in Hn. done. }
  destruct (find_first (is_record KStagedSet (st_stage_id set)) rest) as [r0|] eqn:Hf; injection Hx as _ <-.
  - apply find_first_Some in Hf as [Hr0 [Hk0 Hid0]%is_record_true]. destruct (Hrest r0 Hr0 Hk0) as [Hs0 _].
    exists (or_seq r0). intros r [Hr Hk]%staged_rows_elem. cbn [o_records ops_records] in Hr. unfold update in Hr.
    apply list_elem_of_fmap in Hr as (r1 & -> & Hr1).
    destruct (is_record KStagedSet (st_stage_id set) r1) eqn:Hm.
    + apply is_record_true in Hm as [Hk1 Hid1]. destruct (Hrest r1 Hr1 Hk1) as [Hs1 _].
      rewrite (Hid r1 r0 Hs1 Hs0) by congruence. by left.
    + right. destruct (Hrest r1 Hr1 Hk). split_and!; try done. intros Heq.
      by rewrite (proj2 (is_record_true _ _ _) (conj Hk Heq)) in Hm.
  - eexists. intros r [Hr Hk]%staged_rows_elem. cbn [o_records append_record ops_records] in Hr.
    apply elem_of_app in Hr as [Hr| ->%list_elem_of_singleton]; [|left; reflexivity].
    right. destruct (Hrest r Hr Hk). split_and!; try done. intros Heq.
    apply find_first_None in Hf. rewrite Forall_forall in Hf. specialize (Hf r Hr).
    by rewrite (proj2 (is_record_true _ _ _) (conj Hk Heq)) in Hf.
Qed.

Lemma replace_sound g set items now o' : sound g -> hex64 (st_bundle_manifest_digest_hex set) = true ->
  holds (st_bundle_manifest_digest_hex set) g items -> authentic deps set items ->
  replace_staged_set (g_ops g) set now = Ok o' -> sound (set_ops o' g).
Proof.
  intros [H1 H2 H3] Hhex Hd Ha Hr. destruct (replace_rows _ _ _ _ H3 Hr) as (seq & Hrows). split; cbn [g_ops set_ops].
  - intros r [->|(Hin & _)]%Hrows.
    + exists set, items. by split_and!.
    + destruct (H1 r Hin) as (s & i & H). by exists s, i.
  - intros r r' [->|(Hin & Hn & _)]%Hrows [->|(Hin' & Hn' & _)]%Hrows Heq; [done|cbn in Heq; congruence..|auto].
  - intros r r' [->|(Hin & _ & Hn)]%Hrows [->|(Hin' & _ & Hn')]%Hrows Heq; [done|cbn in Heq; congruence..|auto].
Qed.

End records.

(** ** Committing *)

Section commits.
Context {CR : Crypto} {ED : Ed25519} {JR : JsonReader} {PB : Prost} {PL : ProstLaws} (deps : ArtifactDeps).

Notation dir_of u := (upload_dir (sh_stage_id (up_header u))).
Notation target_of u := (sh_bundle_manifest_digest_hex (up_header u)).

(** The upload directory became the set's, which did not exist. *)
Definition moved (u : Upload) (g g' : Staging) : Prop :=
  g_entities g !! target_of u = None /\ g_ops g' = g_ops g /\ g_session g' = g_session g
  /\ exists e, g_entities g !! dir_of u = Some e /\ g_entities g' = <[target_of u := e]> (delete (dir_of u) (g_entities g)).

Lemma apart_eq dir {A} (m : st Staging A) g a g' : keeps (apart dir) m -> m g = (a, g') -> apart dir g g'.
Proof. intros Hk Hm. specialize (Hk g). by rewrite Hm in Hk. Qed.

Lemma place_cases u g r g' : place u g = (r, g') ->
  r <> Ok true /\ apart (dir_of u) g g' \/ r = Ok true /\ exists g1, apart (dir_of u) g g1 /\ moved u g1 g'.
Proof.
  unfold place. intros (c & g1 & Hc & H)%bind_inv. pose proof (apart_eq (dir_of u) _ _ _ _ (apart_call _ _) Hc) as Ha1.
  destruct c as [[]|e|]; [|apply ret_inv in H as [-> ->]; by left..].
  unfold try_bind at 1, bind at 1, asks in H. destruct (g_entities g1 !! target_of u) as [[]|] eqn:Ht.
  - left. apply bind_inv in H as (x & g2 & Hx & H). pose proof (apart_eq (dir_of u) _ _ _ _ (apart_existing _ _ _) Hx) as Ha2.
    destruct x as [[]|e|]; apply ret_inv in H as [-> ->]; (split; [done|by etrans]).
  - apply ret_inv in H as [-> ->]. by left.
  - apply ret_inv in H as [-> ->]. by left.
  - apply bind_inv in H as (c & g2 & Hc2 & H). pose proof (apart_eq (dir_of u) _ _ _ _ (apart_call _ _) Hc2) as Ha2.
    destruct c as [[]|e|]; [|apply ret_inv in H as [-> ->]; left; (split; [done|by etrans])..].
    unfold try_bind, bind, asks in H. destruct (g_entities g2 !! dir_of u) as [e|] eqn:He.
    + injection H as <- <-. right. split; [done|]. exists g2. split; [by etrans|].
      assert (g_entities g2 = g_entities g1) as Heq.
      { unfold call in Hc2. apply bind_inv in Hc2 as (a & g3 & (_ & _ & _ & E)%answer_inv & Hc2).
        destruct a; apply ret_inv in Hc2 as [? ->]; done. }
      split; [by rewrite Heq|]. split_and!; try done. by exists e.
    + injection H as <- <-. left. split; [done|by etrans].
Qed.

(** From [StageCommit] to the directory's last change. *)
Definition prepare (around : Around) (u : Upload) : io (Upload * Verified * bool) :=
  try! u := finish_current u in
  try! v := verify_upload deps around u in
  try! created := place u in done (u, v, created).

Lemma prepare_cases around u g r g' : prepare around u g = (r, g') ->
  (forall u' v, r <> Ok (u', v, true)) /\ (forall u' v b, r = Ok (u', v, b) -> up_header u' = up_header u) /\ apart (dir_of u) g g'
  \/ exists u' v g1, r = Ok (u', v, true) /\ up_header u' = up_header u /\ apart (dir_of u) g g1 /\ moved u g1 g'.
Proof.
  unfold prepare. intros (c & g1 & Hc & H)%bind_inv. pose proof (apart_eq (dir_of u) _ _ _ _ (apart_finish_current _) Hc) as Ha1.
  destruct c as [u1|e|]; [|apply ret_inv in H as [-> ->]; by left..]. apply finish_current_header in Hc.
  apply bind_inv in H as (c & g2 & Hc2 & H). pose proof (apart_eq (dir_of u1) _ _ _ _ (apart_verify _ _ _) Hc2) as Ha2. rewrite Hc in Ha2.
  destruct c as [v|e|]; [|apply ret_inv in H as [-> ->]; left; (split_and!; [done|done|by etrans])..].
  apply bind_inv in H as (c & g3 & Hc3 & H). apply place_cases in Hc3. unfold moved in *. rewrite Hc in Hc3.
  destruct Hc3 as [[Hn Ha3]|(-> & g4 & Ha4 & Hm)].
  - left. destruct c as [b|e|]; apply ret_inv in H as [-> ->];
      (split_and!; [naive_solver|naive_solver|etrans; [exact Ha1|by etrans]]).
  - apply ret_inv in H as [-> ->]. right. exists u1, v, g4.
    split; [done|]. split; [done|]. split; [|exact Hm]. etrans; [exact Ha1|by etrans].
Qed.

Lemma commit_eq around u : commit deps around u =
  (let! placed := prepare around u in
   match placed with
   | Ok (u', v, created) =>
       let! result := record_upload around u' v created in
       do! (if created then ret tt else remove_dir_all (dir_of u)) in ret result
   | Err e => do! remove_dir_all (dir_of u) in fail e
   | Panic => do! remove_dir_all (dir_of u) in ret Panic
   end).
Proof. done. Qed.

(** *** A commit that fails *)

(** Records and existing committed directories are as they were. *)
Definition harmless (g g' : Staging) : Prop :=
  g_ops g' = g_ops g
  /\ forall d, hex64 d = true -> is_Some (g_entities g !! d) -> g_entities g' !! d = g_entities g !! d.

Lemma apart_harmless id g g' : apart (upload_dir id) g g' -> harmless g g'.
Proof.
  intros (_ & O & _ & E). split; [done|]. intros d Hd _. apply E. intros ->. by rewrite upload_dir_not_hex in Hd.
Qed.

Lemma harmless_trans g1 g2 g3 : harmless g1 g2 -> harmless g2 g3 -> harmless g1 g3.
Proof.
  intros [O1 E1] [O2 E2]. split; [congruence|]. intros d Hd Hs. rewrite E2; [by apply E1|done|]. by rewrite E1.
Qed.

Lemma record_upload_err around u v created g r g' : record_upload around u v created g = (r, g') ->
  (forall set, r <> Ok set) ->
  g_ops g' = g_ops g /\ forall k, created = false \/ k <> target_of u -> g_entities g' !! k = g_entities g !! k.
Proof.
  unfold record_upload. intros (recorded & g1 & Hr & H)%bind_inv Hn. unfold record_set in Hr.
  apply bind_inv in Hr as (a & g2 & (_ & _ & O & E)%answer_inv & Hr).
  destruct recorded.
  { apply bind_inv in H as ([] & g3 & _ & [-> _]%ret_inv). by destruct (Hn (set_of around u v)). }
  assert (g1 = g2) as ->.
  { destruct a; [|by apply ret_inv in Hr as [_ ->]]. destruct (replace_staged_set _ _ _); by simplify_eq/=. }
  apply bind_inv in H as ([] & g3 & Hd & H). apply ret_inv in H as [_ ->]. rewrite <- O, <- E. destruct created.
  - destruct (apart_eq _ _ _ _ _ (apart_remove _) Hd) as (_ & O3 & _ & E3). split; [done|]. intros k [?|Hk]; [done|auto].
  - by apply ret_inv in Hd as [_ ->].
Qed.

Lemma commit_harmless around u g r g' : commit deps around u g = (r, g') -> (forall set, r <> Ok set) -> harmless g g'.
Proof.
  rewrite commit_eq. intros (placed & g1 & Hp%prepare_cases & H)%bind_inv Hr.
  assert (forall g2 g3 x, remove_dir_all (dir_of u) g2 = (x, g3) -> harmless g2 g3) as Hdrop.
  { intros g2 g3 x Hd. eapply apart_harmless, apart_eq; [apply apart_remove|exact Hd]. }
  destruct Hp as [(Hn & Hh & Ha)|(u' & v & g2 & -> & Hh & Ha & Hm)].
  - apply apart_harmless in Ha. destruct placed as [[[u' v] created]|e'|].
    + apply bind_inv in H as (result & g3 & Hrec & H). apply bind_inv in H as ([] & g4 & Hd & H).
      apply ret_inv in H as [-> ->]. apply record_upload_err in Hrec as [O E]; [|done].
      destruct created; [by destruct (Hn u' v)|]. eapply harmless_trans; [exact Ha|]. eapply harmless_trans; [|by eapply Hdrop].
      split; [exact O|]. intros d _ _. apply E. by left.
    + apply bind_inv in H as ([] & g3 & Hd & [_ ->]%ret_inv). eapply harmless_trans; [exact Ha|by eapply Hdrop].
    + apply bind_inv in H as ([] & g3 & Hd & [_ ->]%ret_inv). eapply harmless_trans; [exact Ha|by eapply Hdrop].
  - apply apart_harmless in Ha. apply bind_inv in H as (result & g3 & Hrec & H).
    apply bind_inv in H as ([] & g4 & [_ ->]%ret_inv & H). apply ret_inv in H as [-> ->].
    apply record_upload_err in Hrec as [O E]; [|done]. rewrite Hh in E. destruct Hm as (Ht & O1 & _ & en & He & Hg1).
    eapply harmless_trans; [exact Ha|]. split; [congruence|]. intros d Hd Hs.
    assert (d <> target_of u) as Hne by (intros ->; rewrite Ht in Hs; by destruct Hs).
    rewrite E by (by right). rewrite Hg1, lookup_insert_ne by congruence. apply lookup_delete_ne. intros <-.
    by rewrite upload_dir_not_hex in Hd.
Qed.

(** *** A commit that succeeds *)

Lemma place_ok u items g created g' : uploading u items -> up_current u = None -> holds (dir_of u) g items ->
  place u g = (Ok created, g') -> exists items', holds (target_of u) g' items' /\ Forall (finished items') (up_files u).
Proof.
  intros HU Hc Hd Hp. pose proof (ul_state _ _ HU) as Hst. rewrite Hc in Hst. destruct Hst as [_ Hset].
  pose proof Hp as [[Hn _]|([= ->] & g1 & _)]%place_cases.
  - unfold place in Hp. apply try_call_inv in Hp as (g1 & E1 & H). unfold try_bind at 1, bind at 1, asks in H.
    destruct (g_entities g1 !! target_of u) as [[mode uid items1| |]|] eqn:Ht; try done.
    + apply try_inv in H as ([] & g2 & He & H). injection H as _ <-.
      apply existing_ok with (items := items1) in He as [Hf Hh]; [by exists items1|]. by exists mode, uid.
    + apply try_call_inv in H as (g2 & _ & H). unfold try_bind, bind, asks in H.
      destruct (g_entities g2 !! dir_of u); [|done]. injection H as <- _. done.
  - unfold place in Hp. apply try_call_inv in Hp as (g2 & E2 & H). unfold try_bind at 1, bind at 1, asks in H.
    destruct (g_entities g2 !! target_of u) as [[]|] eqn:Ht; try done.
    + apply try_inv in H as ([] & ? & _ & H). done.
    + apply try_call_inv in H as (g3 & E3 & H). unfold try_bind, bind, asks in H.
      destruct Hd as (mode & uid & Hd). rewrite E3, E2, Hd in H. injection H as <-.
      exists items. split; [|exact (se_files _ _ _ Hset)]. exists mode, uid. cbn. apply lookup_insert_eq.
Qed.

Lemma sound_moved u g g' : sound deps g -> moved u g g' ->
  sound deps g' /\ forall r, r ∈ staged_rows (g_ops g') -> or_subject r <> target_of u.
Proof.
  intros Hs (Ht & O & _ & e & He & Hg'). rewrite O.
  assert (forall r, r ∈ staged_rows (g_ops g) -> or_subject r <> target_of u) as Hne.
  { intros r Hr Heq. destruct (so_rows _ _ Hs r Hr) as (set & items & _ & _ & _ & (m & ui & Hd) & _). congruence. }
  split; [|done]. apply (sound_subset _ g); [done|]. rewrite O. intros r Hr. split; [done|]. intros Hhex.
  rewrite Hg', lookup_insert_ne by (intros Heq; by apply (Hne r Hr)). apply lookup_delete_ne. intros Heq.
  rewrite <- Heq, upload_dir_not_hex in Hhex. done.
Qed.

Lemma prepare_ok around u items g u' v created g' : sound deps g -> uploading u items -> holds (dir_of u) g items ->
  prepare around u g = (Ok (u', v, created), g') ->
  sound deps g' /\ up_header u' = up_header u
  /\ (created = true -> forall r, r ∈ staged_rows (g_ops g') -> or_subject r <> target_of u)
  /\ exists items', holds (target_of u) g' items' /\ authentic deps (set_of around u' v) items'.
Proof.
  intros Hs HU Hd Hp. pose proof Hp as Hcases%prepare_cases.
  unfold prepare in Hp. apply try_inv in Hp as (u1 & g1 & Hf & H). apply try_inv in H as (v1 & g2 & Hv & H).
  apply try_inv in H as (c & g3 & Hpl & H). injection H as <- <- <- <-.
  destruct (finish_current_ok _ _ _ _ _ HU Hd Hf) as (items1 & HU1 & Hd1 & Hc1 & Hh1 & _).
  rewrite <- Hh1 in Hd1. pose proof (apart_eq (dir_of u1) _ _ _ _ (apart_verify _ _ _) Hv) as (_ & O2 & _ & _).
  assert (holds (dir_of u1) g2 items1) as Hd2.
  { unfold verify_upload in Hv. apply bind_inv in Hv as (m & ga & Hm & Hv). apply bind_inv in Hv as (sg & gb & Hsg & Hv).
    destruct m as [m|]; [|by apply ret_inv in Hv as [? _]]. destruct sg as [sg|]; [|by apply ret_inv in Hv as [? _]].
    apply ret_inv in Hv as [_ ->]. destruct (read_item_ok _ _ _ _ _ _ Hd1 Hm) as [_ Hda].
    by destruct (read_item_ok _ _ _ _ _ _ Hda Hsg) as [_ Hdb]. }
  destruct (place_ok _ _ _ _ _ HU1 Hc1 Hd2 Hpl) as (items' & Ht & Hfin). rewrite Hh1 in Ht.
  assert (authentic deps (set_of around u1 v1) items') as Hauth.
  { exact (verify_upload_ok _ _ _ _ _ _ _ HU1 Hc1 Hd1 Hv _ Hfin). }
  split; [|split; [done|split; [|by eauto]]].
  - destruct Hcases as [(_ & _ & Ha)|(? & ? & g4 & [= -> -> ->] & _ & Ha & Hm)].
    + eapply sound_apart; [apply upload_dir_not_hex|exact Ha|done].
    + eapply (sound_moved u g4); [|done]. eapply sound_apart; [apply upload_dir_not_hex|exact Ha|done].
  - intros ->. destruct Hcases as [(Hn & _)|(? & ? & g4 & _ & _ & Ha & Hm)]; [by destruct (Hn u1 v1)|].
    eapply (sound_moved u g4); [|done]. eapply sound_apart; [apply upload_dir_not_hex|exact Ha|done].
Qed.

Lemma record_upload_sound around u v created g items : sound deps g -> hex64 (target_of u) = true ->
  (created = true -> forall r, r ∈ staged_rows (g_ops g) -> or_subject r <> target_of u) ->
  holds (target_of u) g items -> authentic deps (set_of around u v) items ->
  sound deps (record_upload around u v created g).2.
Proof.
  intros Hs Hhex Hfresh Hd Ha. unfold record_upload. apply run_bind. intros recorded g1 Hr. unfold record_set in Hr.
  apply bind_inv in Hr as (a & g2 & (R & S & O & E)%answer_inv & Hr).
  assert (sound deps g2) as Hs2 by (apply (sound_subset _ g); [done|]; by rewrite O, E).
  assert (recorded = true /\ sound deps g1 \/ recorded = false /\ g1 = g2) as [[-> Hs1]|[-> ->]].
  { destruct a; [|apply ret_inv in Hr as [-> ->]; by right].
    destruct (replace_staged_set (g_ops g2) (set_of around u v) (ar_now around)) as [o'|e|] eqn:Hrep;
      injection Hr as <- <-; [left|by right..]. split; [done|].
    apply (replace_sound _ g2 (set_of around u v) items (ar_now around)); try done. unfold holds. by rewrite E. }
  - apply run_bind. intros [] g3 Hp. pose proof (prune_sound _ (ar_now around) g1 Hs1) as Hs3. by rewrite Hp in Hs3.
  - apply run_bind. intros [] g3 Hdrop. destruct created; [|by apply ret_inv in Hdrop as [_ ->]].
    pose proof (remove_dir_clears (target_of u) g2) as Hc. rewrite Hdrop in Hc. cbn [snd] in Hc.
    eapply sound_clears; [exact Hs2|exact Hc|]. intros r Hr'. apply Hfresh; [done|]. rewrite <- O. by apply Hc.
Qed.

Lemma commit_sound around u g items : sound deps g -> uploading u items -> holds (dir_of u) g items ->
  sound deps (commit deps around u g).2.
Proof.
  intros Hs HU Hd. rewrite commit_eq. apply run_bind. intros placed g1 Hp.
  assert (forall g2, sound deps g2 -> sound deps (remove_dir_all (dir_of u) g2).2) as Hdrop.
  { intros g2 Hs2. eapply sound_apart; [apply upload_dir_not_hex|apply apart_remove|done]. }
  destruct placed as [[[u' v] created]|e|].
  - destruct (prepare_ok _ _ _ _ _ _ _ _ Hs HU Hd Hp) as (Hs1 & Hh & Hfresh & items' & Ht & Ha).
    apply run_bind. intros result g2 Hr. pose proof (record_upload_sound around u' v created g1 items') as Hs2.
    rewrite Hr, Hh in Hs2. specialize (Hs2 Hs1 (ul_digest _ _ HU) Hfresh Ht Ha). cbn [snd] in Hs2.
    apply run_bind. intros [] g3 Hd3. destruct created; [by apply ret_inv in Hd3 as [_ ->]|].
    specialize (Hdrop g2 Hs2). by rewrite Hd3 in Hdrop.
  - apply prepare_cases in Hp as [(_ & _ & Ha)|(? & ? & ? & ? & _)]; [|done].
    apply run_bind. intros [] g2 Hd2. assert (sound deps g1) as Hs1.
    { eapply sound_apart; [apply upload_dir_not_hex|exact Ha|done]. }
    specialize (Hdrop g1 Hs1). by rewrite Hd2 in Hdrop.
  - apply prepare_cases in Hp as [(_ & _ & Ha)|(? & ? & ? & ? & _)]; [|done].
    apply run_bind. intros [] g2 Hd2. assert (sound deps g1) as Hs1.
    { eapply sound_apart; [apply upload_dir_not_hex|exact Ha|done]. }
    specialize (Hdrop g1 Hs1). by rewrite Hd2 in Hdrop.
Qed.

End commits.

(** ** Uploads and everything around them *)

Section machine.
Context {CR : Crypto} {ED : Ed25519} {JR : JsonReader} {PB : Prost} {PL : ProstLaws} (deps : ArtifactDeps).

Definition wf_message (m : Message) : Prop := match m with Received (Some f) => wf_frame f | _ => True end.

(** What happens to staging: uploads start and receive messages, an install
    consumes a set ([consumed] lists at most 1,000 records), clients ask,
    other components change the operational store (its retention drops
    records), calls fail or not, and the agent restarts. *)
Inductive step : Staging -> Staging -> Prop :=
| step_start g : step g (stage_start g).2
| step_message around m g : wf_message m -> step g (stage_message deps around m g).2
| step_consumed d g : lenl (staged_rows (g_ops g)) <= 1000 -> step g (consumed d g).2
| step_asked around d g : step g (staged around d g).2
| step_others g o : (forall r, r ∈ staged_rows o -> r ∈ staged_rows (g_ops g)) -> step g (set_ops o g)
| step_faults g l : step g (set_faults l g)
| step_restart g : step g (set_session Free g).

Notation dir_of u := (upload_dir (sh_stage_id (up_header u))).

(** The upload in progress and its directory. *)
Definition in_progress (g : Staging) : Prop :=
  match g_session g with
  | Receiving u => exists items, uploading u items /\ holds (dir_of u) g items
  | _ => True
  end.

Lemma begin_header_apart around header : keeps (apart (upload_dir (sh_stage_id header))) (begin_header deps around header).
Proof. unfold begin_header. apart_steps. apply apart_entities. intros m k Hk. by rewrite lookup_insert_ne. Qed.

Lemma begin_header_ok around header g u g' : begin_header deps around header g = (Ok u, g') ->
  up_header u = header /\ uploading u ∅ /\ holds (dir_of u) g' ∅.
Proof.
  unfold begin_header. intros ([] & Hl & H)%try_lift_inv. inv_ok Hl. bsplit.
  apply try_inv in H as ([] & g1 & _ & H). apply try_inv in H as (row & g2 & _ & H).
  apply try_inv in H as ([] & g3 & _ & H). apply try_inv in H as ([] & g4 & _ & H).
  apply try_inv in H as ([] & g5 & _ & H). apply bind_inv in H as ([] & g6 & _ & H).
  apply try_inv in H as ([] & g7 & _ & H). apply try_inv in H as (free & g8 & _ & H).
  apply try_inv in H as ([] & g9 & _ & H). injection H as <- <-. split; [done|]. split.
  - split; cbn [up_header up_seen up_files up_arch up_total up_current up_done]; try done; try constructor.
  - eexists _, _. cbn. apply lookup_insert_eq.
Qed.

Lemma begin_upload_cases around m g r g' : begin_upload deps around m g = (r, g') ->
  exists id, apart (upload_dir id) g g' /\ forall u, r = Ok u -> uploading u ∅ /\ holds (dir_of u) g' ∅.
Proof.
  unfold begin_upload. intros (first & g1 & [-> ->]%ret_inv & H)%bind_inv.
  destruct (next_frame _ _) as [f|e|]; [|apply ret_inv in H as [-> ->]; by exists ""..].
  destruct f as [header| | |]; [|apply ret_inv in H as [-> ->]; by exists ""..].
  exists (sh_stage_id header). split; [by eapply apart_eq; [apply begin_header_apart|]|].
  intros u ->. by apply begin_header_ok in H as (_ & H).
Qed.

Lemma stage_end_apart {A} id (r : outcome Status A) g x g' : stage_end (Some (upload_dir id)) r g = (x, g') ->
  x = r /\ g_session g' = Free /\ exists g1, apart (upload_dir id) g g1 /\ g' = set_session Free g1.
Proof.
  unfold stage_end. intros ([] & g1 & Hd & H)%bind_inv. apply bind_inv in H as ([] & g2 & Hp & [-> ->]%ret_inv).
  injection Hp as <-. split_and!; try done. exists g1. split; [|done]. eapply apart_eq; [apply apart_remove|exact Hd].
Qed.

Lemma sound_session s g : sound deps g -> sound deps (set_session s g).
Proof. intros H. by apply (sound_subset _ g). Qed.

Definition in_order (g : Staging) : Prop := sound deps g /\ in_progress g.

(** One message keeps the records sound and the upload in order. *)
Lemma stage_message_keeps around m g : wf_message m -> in_order g -> in_order (stage_message deps around m g).2.
Proof.
  intros Hm [Hs Hp]. unfold stage_message. apply run_bind. intros session g1 [= <- <-]. unfold in_progress in Hp.
  destruct (g_session g) as [| |u] eqn:Hsess.
  - split; [done|]. unfold in_progress. cbn. by rewrite Hsess.
  - apply run_bind. intros r g1 Hb. apply begin_upload_cases in Hb as (id & Ha & Hok).
    assert (sound deps g1) as Hs1 by (eapply sound_apart; [apply upload_dir_not_hex|exact Ha|done]).
    destruct r as [u|e|]; (split; [by apply sound_session|]); try done. destruct (Hok u eq_refl) as [HU Hh]. by exists ∅.
  - destruct Hp as (items & HU & Hd).
    assert (forall g1 (r : outcome Status (option StagedArtifactSet)), apart (dir_of u) g g1 ->
      in_order (stage_end (Some (dir_of u)) r g1).2) as Hend.
    { intros g1 r Ha. destruct (stage_end _ _ g1) as [x g2] eqn:He. apply stage_end_apart in He as (_ & Hf & g3 & Ha3 & ->).
      split; [|done]. apply sound_session. eapply sound_apart; [apply upload_dir_not_hex| |exact Hs]. by etrans. }
    destruct (next_frame m _) as [f|e|] eqn:Hn; [|by apply Hend..].
    assert (wf_frame f) as Hf by (destruct m as [[f'|]| |]; try done; by injection Hn as <-).
    assert (forall r g1, receive deps u f g = (r, g1) -> in_order
      (match r with
       | Ok u => do! put_session (Receiving u) in done (@None StagedArtifactSet)
       | Err e => stage_end (Some (dir_of u)) (Err e)
       | Panic => stage_end (Some (dir_of u)) Panic
       end g1).2) as Hrec.
    { intros r g1 Hr. pose proof (apart_eq (dir_of u) _ _ _ _ (apart_receive _ _ _) Hr) as Ha.
      destruct r as [u'|e|]; [|by apply Hend..]. destruct (receive_ok _ _ _ _ _ _ _ HU Hd Hf Hr) as (items' & HU' & Hd').
      split; [apply sound_session; eapply sound_apart; [apply upload_dir_not_hex|exact Ha|done]|]. by exists items'. }
    destruct f; try (apply run_bind; exact Hrec).
    apply run_bind. intros r g1 Hc. pose proof (commit_sound deps around u g items Hs HU Hd) as Hs1. rewrite Hc in Hs1.
    destruct r; (split; [by apply sound_session|done]).
Qed.

Lemma in_progress_tidies g g' : tidies g g' -> in_progress g -> in_progress g'.
Proof.
  intros (_ & S & E). unfold in_progress. rewrite S. destruct (g_session g) as [| |u]; try done.
  intros (items & HU & m & ui & Hd). exists items. split; [done|]. exists m, ui. rewrite E; [done|apply upload_dir_not_hex].
Qed.

(** Questions change nothing but the answers to come. *)
Definition asked (g g' : Staging) : Prop :=
  g_root g' = g_root g /\ g_session g' = g_session g /\ g_ops g' = g_ops g /\ g_entities g' = g_entities g.

#[local] Instance asked_preorder : PreOrder asked.
Proof. split; [by intros g|]. intros a b c (? & ? & ? & ?) (? & ? & ? & ?). split_and!; congruence. Qed.

Lemma asked_list limit : keeps asked (list_sets limit).
Proof.
  intros g. destruct (list_sets limit g) as [rows g'] eqn:Hl. apply list_sets_inv in Hl as (R & S & O & E & _). by split_and!.
Qed.

Lemma asked_is_dir d : keeps asked (is_dir d).
Proof.
  unfold is_dir. apply keeps_bind; [|intros a; apply keeps_asks]. intros g. destruct (answer g) as [a g'] eqn:Ha.
  apply answer_inv in Ha as (R & S & O & E). by split_and!.
Qed.

Hint Resolve asked_list asked_is_dir : apart.

Lemma asked_any d arch l : keeps asked (any_staged d arch l).
Proof. induction l as [|set l IH]; cbn [any_staged]; apart_steps. Qed.

Lemma asked_staged around d : keeps asked (staged around d).
Proof. unfold staged, sets. apart_steps. apply asked_any. Qed.

Lemma step_keeps g g' : step g g' -> in_order g -> in_order g'.
Proof.
  destruct 1 as [g|around m g Hm|d g Hlen|around d g|g o Ho|g l|g]; intros [Hs Hp].
  - unfold stage_start. destruct (g_session g) eqn:Hsess; cbn [snd]; [|done..]. split; [by apply sound_session|done].
  - by apply stage_message_keeps.
  - split; [by apply consumed_sound|]. eapply in_progress_tidies; [apply tidies_consumed|done].
  - destruct (asked_staged around d g) as (R & S & O & E). split.
    + apply (sound_subset _ g); [done|]. by rewrite O, E.
    + eapply in_progress_tidies; [|exact Hp]. split_and!; try done. by rewrite E.
  - split; [|done]. apply (sound_subset _ g); [done|]. auto.
  - split; [by apply (sound_subset _ g)|done].
  - split; [by apply sound_session|done].
Qed.

Lemma reachable_keeps g0 g : star step g0 g -> staged_rows (g_ops g0) = [] -> g_session g0 = Free ->
  in_order g.
Proof.
  intros Hstar H0 Hsess. eapply (star_invariant step in_order); [|exact Hstar|].
  - intros x y Hx Hstep. by eapply step_keeps.
  - split; [split; rewrite H0; set_solver|]. unfold in_progress. by rewrite Hsess.
Qed.

(** ** Theorems *)

Lemma any_staged_elem d arch l : forall g g', any_staged d arch l g = (true, g') -> exists set, set ∈ l
  /\ st_bundle_manifest_digest_hex set = d /\ st_arch set = arch.
Proof.
  induction l as [|set l IH]; intros g g'; cbn [any_staged]; [done|].
  destruct (_ && _) eqn:Hc.
  - intros _. exists set. bsplit. split; [set_solver|]. split; by apply String.eqb_eq.
  - intros (set' & Hin & H)%IH. exists set'. split; [set_solver|done].
Qed.


(** C13. A message that does not commit its upload, whatever call fails, leaves
    every record as it was, and every committed set that existed with the same
    files and bytes. *)
Theorem failed_upload_harmless around m g r g' : stage_message deps around m g = (r, g') ->
  (forall set, r <> Ok (Some set)) ->
  g_ops g' = g_ops g
  /\ forall d e, hex64 d = true -> g_entities g !! d = Some e -> g_entities g' !! d = Some e.
Proof.
  intros Hm Hr. enough (harmless g g') as [O E] by (split; [done|]; intros d e Hd He; rewrite E, He; done).
  unfold stage_message in Hm. apply bind_inv in Hm as (session & g0 & [= <- <-] & H).
  destruct (g_session g) as [| |u].
  - apply ret_inv in H as [_ ->]. done.
  - apply bind_inv in H as (b & g1 & (id & Ha & _)%begin_upload_cases & H). apply apart_harmless in Ha.
    enough (exists s, g' = set_session s g1) as [s ->] by done.
    destruct b; apply bind_inv in H as ([] & g2 & Hp & H); [apply ret_inv in H as [_ ->]; injection Hp as <-; eauto|..];
      apply ret_inv in Hp as [_ ->]; apply bind_inv in H as ([] & g3 & Hp & [_ ->]%ret_inv); injection Hp as <-; eauto.
  - assert (forall g1 (x : outcome Status (option StagedArtifactSet)) y, harmless g g1 ->
      stage_end (Some (dir_of u)) x g1 = (y, g') -> harmless g g') as Hend.
    { intros g1 x y Hg1 (_ & _ & g2 & Ha & ->)%stage_end_apart. apply apart_harmless in Ha. by eapply harmless_trans. }
    destruct (next_frame m _) as [f|e|]; [|by eapply Hend..].
    assert (forall x g1, receive deps u f g = (x, g1) ->
      match x with
      | Ok u => do! put_session (Receiving u) in done (@None StagedArtifactSet)
      | Err e => stage_end (Some (dir_of u)) (Err e)
      | Panic => stage_end (Some (dir_of u)) Panic
      end g1 = (r, g') -> harmless g g') as Hrec.
    { intros x g1 Hx Hy. pose proof (apart_eq (dir_of u) _ _ _ _ (apart_receive _ _ _) Hx) as Ha%apart_harmless.
      destruct x; [|by eapply Hend..]. by injection Hy as _ <-. }
    destruct f; try (apply bind_inv in H as (x & g1 & Hx & H); by eapply Hrec).
    apply bind_inv in H as (x & g1 & Hx & H). apply bind_inv in H as ([] & g2 & Hp & H). injection Hp as <-.
    apply (commit_harmless deps around u g x g1) in Hx; [|intros set ->; injection H as <- _; by eapply Hr].
    destruct x; injection H as _ <-; exact Hx.
Qed.

(** While an upload is received, after any messages and failed calls, it
    has at most 16 files; its directory holds at most 256 MiB, no file of more
    than 128 MiB, and no file but those announced, under the names a set may
    use. *)
Theorem upload_bounded g0 g u :
  staged_rows (g_ops g0) = [] -> g_session g0 = Free -> star step g0 g -> g_session g = Receiving u ->
  exists items, holds (dir_of u) g items /\ lenl (up_files u) <= MAX_FILES /\ used items <= MAX_SET_BYTES
    /\ forall k mode uid b, items !! k = Some (IFile mode uid b) -> len b <= MAX_FILE_BYTES
       /\ exists f, f ∈ up_files u /\ file_name_ok (sf_name f) (up_arch u) = true
                     /\ (k = sf_name f \/ k = sf_name f +:+ ".part").
Proof.
  intros H0 Hsess Hstar Hu. destruct (reachable_keeps _ _ Hstar H0 Hsess) as [_ Hp]. unfold in_progress in Hp.
  rewrite Hu in Hp. destruct Hp as (items & HU & Hd). exists items. split; [done|].
  destruct HU as [_ _ _ Hcount Hfiles Htotal Hbound Hst]. split; [done|]. rewrite Htotal in Hbound.
  rewrite Forall_forall in Hfiles.
  assert (forall files part, (forall f, f ∈ files -> f ∈ up_files u) -> settled items files part ->
    (forall k b, part = Some (k, b) -> exists f, f ∈ up_files u /\ k = sf_name f +:+ ".part" /\ len b <= sf_size_bytes f) ->
    total_size files + match part with Some (_, b) => len b | None => 0 end <= total_size (up_files u) ->
    used items <= MAX_SET_BYTES /\ forall k mode uid b, items !! k = Some (IFile mode uid b) -> len b <= MAX_FILE_BYTES
       /\ exists f, f ∈ up_files u /\ file_name_ok (sf_name f) (up_arch u) = true
                     /\ (k = sf_name f \/ k = sf_name f +:+ ".part")) as Hall.
  { intros files part Hin [Hf _ Ho Hused] Hpart Hle. split; [lia|]. intros k mode uid b Hk.
    destruct (Ho _ _ Hk) as [(? & ? & ?)|(? & ? & ? & [= <- <- <-] & [Hname| ->])]; [done|..].
    - apply list_elem_of_fmap in Hname as (f & -> & Hf'). rewrite Forall_forall in Hf.
      destruct (Hf f Hf') as (? & ? & b' & Hb' & Hlen & _). rewrite Hk in Hb'. injection Hb' as <- <- <-.
      destruct (Hfiles f (Hin f Hf')) as (Hok & _ & Hsize). split; [lia|]. exists f. auto.
    - destruct (Hpart k b eq_refl) as (f & Hf' & -> & Hb). destruct (Hfiles f Hf') as (Hok & _ & Hsize).
      split; [lia|]. exists f. auto. }
  destruct (up_current u) as [open|].
  - destruct Hst as (files & f & Hup & _ & (_ & O2 & _ & _ & O5 & O6 & O7) & Hset).
    eapply (Hall files); [intros f'; rewrite Hup, elem_of_app; auto|exact Hset| |rewrite Hup, total_size_snoc; lia].
    intros k b [= <- <-]. exists f. split_and!; [rewrite Hup; apply elem_of_app; right; apply list_elem_of_here|done|lia].
  - destruct Hst as [_ Hset]. eapply (Hall (up_files u)); [done|exact Hset|done|cbv beta iota; lia].
Qed.

End machine.

(** ** A concrete upload *)

Module Sample.

#[local] Instance crypto : Crypto := {|
  sha256 := last_bytes 32;
  std_decode := fun s => Some (ED_SPKI_PREFIX +:+ last_bytes 32 s);
  std_encode := fun s => s; url_decode := Some; url_encode := fun d => d +:+ "AAAAAA";
  VerifyingKey := string; EcdsaSignature := string; from_sec1_bytes := Some; signature_from_slice := Some;
  ecdsa_verify_prehash := fun _ _ _ => false; ed25519_decompresses := fun _ => true
|}.

(** A signature is the key and the last bytes of the message. *)
#[local] Instance ed25519 : Ed25519 := {|
  EdKey := string; key_from_bytes := Some; verify_strict := fun k m s => String.eqb s (k +:+ last_bytes 32 m)
|}.

#[local] Existing Instance canonical_reader.
#[local] Existing Instance wire.

Definition text (members : list (string * Value)) : string := default "" (canonicalize (json_object members)).

Definition spki : string := "0123456789abcdefghijklmnopqrstuv".
Definition id : string := "0123456789abcdefAAAAAA".
Definition binary : string := "the bytes of permanu-agent 1.2.3, amd64".

Definition keys : string := text
  [ ("version", VNumber (PosInt 1)); ("revocations", VArray []);
    ("keys", VArray [json_object [("key_id", VString id); ("spki", VString spki); ("alg", VString "Ed25519");
                                  ("label", VString "release")]]) ].

Definition manifest : string := text
  [ ("version", VNumber (PosInt 2));
    ("components", VArray [json_object [("name", VString "permanu-agent"); ("arch", VString "amd64");
       ("version", VString "1.2.3"); ("path", VString "amd64/permanu-agent");
       ("artifact_digest_hex", VString (hex (sha256 binary)))]]);
    ("release_keys", VArray [json_object [("key_id", VString id); ("spki", VString spki); ("label", VString "release")]]) ].

Definition signature : string := text
  [ ("version", VNumber (PosInt 1)); ("alg", VString "Ed25519"); ("key_id", VString id);
    ("sig", VString (spki +:+ last_bytes 32 manifest)) ].

Definition digest : string := hex (sha256 manifest).

Definition deps : ArtifactDeps := {| dp_uid := 990; dp_release_keys_owner := 0; dp_mode := {| trust_test_keys := false |} |}.

Definition around : Around :=
  {| ar_now := 1760000000; ar_arch := "amd64"; ar_release_keys := KeysFile true 0 420 (Some keys) |}.

Definition announced (name bytes : string) : list Message :=
  [ Received (Some (FFile {| sf_name := name; sf_size_bytes := len bytes; sf_digest_hex := hex (sha256 bytes) |}));
    Received (Some (FChunk bytes)) ].

Definition header (id : string) : Message :=
  Received (Some (FHeader {| sh_stage_id := id; sh_bundle_manifest_digest_hex := digest; sh_arch := "amd64" |})).

Definition first_id : string := "01890a5d-ac96-774b-bcce-b302099a8057".
Definition second_id : string := "01890a5d-ac96-774b-bcce-b302099a8058".

Definition messages : list Message :=
  header first_id :: announced "manifest.json" manifest ++ announced "manifest.sig.json" signature
    ++ announced "amd64/permanu-agent" binary.

Definition fresh : Staging :=
  {| g_root := {| rt_is_dir := true; rt_link := false; rt_mode := 488; rt_uid := 990 |}; g_entities := ∅;
     g_ops := empty_ops; g_session := Free; g_faults := [] |}.

Definition run (ms : list Message) (g : Staging) : Staging := fold_left (fun g m => (stage_message deps around m g).2) ms g.

(** The set while it is received, and committed. *)
Definition receiving : Staging := run messages (stage_start fresh).2.
Definition committed : Staging := run [Received (Some FCommit)] receiving.

(** A second upload of the same set, with a call that failed. *)
Definition again : Staging := set_faults [Fails [] 0] (run [header second_id] (stage_start committed).2).

Definition wf_messageb (m : Message) : bool :=
  match m with Received (Some (FFile f)) => in_range 0 u64_max (sf_size_bytes f) | _ => true end.

Lemma wf_messageb_ok m : wf_messageb m = true -> wf_message m.
Proof. destruct m as [[[]|]| |]; cbn; try done. unfold wf_file, in_range. intros H. bsplit. lia. Qed.

Lemma run_reaches ms g0 : forall g, forallb wf_messageb ms = true -> star (step deps) g0 g -> star (step deps) g0 (run ms g).
Proof.
  induction ms as [|m ms IH]; intros g Hm Hg; [done|]. cbn in Hm. bsplit. apply IH; [done|].
  eapply star_snoc; [exact Hg|]. constructor. by apply wf_messageb_ok.
Qed.

Lemma receiving_reachable : star (step deps) fresh receiving.
Proof. apply run_reaches; [vm_compute; reflexivity|]. eapply star_snoc; [apply star_refl|apply step_start]. Qed.

Lemma committed_reachable : star (step deps) fresh committed.
Proof. apply run_reaches; [vm_compute; reflexivity|apply receiving_reachable]. Qed.


Lemma upload_bounded_witness : exists u items, g_session receiving = Receiving u
  /\ holds (upload_dir (sh_stage_id (up_header u))) receiving items /\ used items <= MAX_SET_BYTES.
Proof.
  destruct (g_session receiving) as [| |u] eqn:Hu; [exfalso; vm_compute in Hu; discriminate Hu..|].
  destruct (upload_bounded deps fresh receiving u) as (items & Hd & _ & Hused & _).
  - reflexivity.
  - reflexivity.
  - apply receiving_reachable.
  - exact Hu.
  - exists u, items. auto.
Defined.

Lemma failed_upload_harmless_witness :
  let g' := (stage_message deps around (Received (Some (FChunk "x"))) again).2 in
  g_ops g' = g_ops again /\ g_entities again !! digest <> None /\ g_entities g' !! digest = g_entities again !! digest.
Proof.
  intros g'.
  destruct (failed_upload_harmless deps around (Received (Some (FChunk "x"))) again
              (stage_message deps around (Received (Some (FChunk "x"))) again).1 g') as [Ho He].
  - apply surjective_pairing.
  - intros set. vm_compute. discriminate.
  - split; [exact Ho|]. destruct (g_entities again !! digest) as [e|] eqn:Hd.
    + split; [discriminate|]. apply He; [vm_compute; reflexivity|exact Hd].
    + exfalso. vm_compute in Hd. discriminate Hd.
Defined.

(** The set was installed and its record removed, but removing its directory
    failed half way. *)
Definition leftover : Staging := (consumed digest (set_faults [Fine; Fine; Fails ["manifest.json"] 0] committed)).2.

(** What is left of a directory is not replaced: every later upload of that
    bundle is refused, with no record of the set and no call failing. *)
Example leftover_blocks_staging :
  staged_rows (g_ops leftover) = [] /\ g_faults leftover = []
  /\ (stage_message deps around (Received (Some FCommit))
        (run (header second_id :: tail messages) (stage_start leftover).2)).1 = Err existing_differs.
Proof. vm_compute. split_and!; reflexivity. Qed.

End Sample.
