(* ===== verification/BackupDefs.v ===== *)
(** * Backup policies and results

    src/local/sched/backup.rs: the recorded policies and destinations, where
    an artifact lives, and what an answer of the runner makes of a run or of
    a verification. *)

From S2P Require Import Prelude RustStr BTree PlanCode Json Jcs Calendar Text Crypto Trust Verify.
From S2P Require Import Effects Store DefinitionStore AdmissionStore Queries CronExpr Proto OpsStore Runner CronJobs Sched.
Import Definitions.

Definition BACKUP_KINDS : list string :=
  ["backup.policy.set"; "backup.policy.delete"; "backup.destination.set"; "backup.destination.delete";
   "recovery_recipient.set"].
Definition MANUAL_KINDS : list string := ["backup.run"; "backup.verify"].
Definition RUN_ATTEMPTS : Z := 3.
Definition LATE_START_SECONDS : Z := 3600.
Definition BACKUP_CHECKPOINT_KEY : string := "backup_checkpoint".
Definition LOCAL_ROOT : string := "/var/lib/permanu/backups".

(** ** Definitions *)

Record DestinationDef := {
  de_destination_ref : string; de_kind : string; de_endpoint : string; de_region : string; de_bucket : string;
  de_prefix : string; de_credential_digest : string; de_plan_digest_hex : string
}.

Section defs.
Context {CR : Crypto} {J : Jiff} {JD : JiffDb} {JR : JsonReader}.

Record PolicyDef := {
  po_resource_id : string; po_scope : SignedScope; po_schedule_text : string; po_schedule : option CronExpr;
  po_timezone_name : string; po_timezone : option TimeZone; po_keep : Z * Z * Z; po_verify_text : string;
  po_verify : option CronExpr; po_destination_ref : string; po_plan : PlanRef; po_active_from : Z;
  po_channel_ids : list string
}.

Record Definitions := {
  df_policies : bmap PolicyDef; df_destinations : bmap DestinationDef; df_recovery_recipient : option string
}.

Definition no_definitions : Definitions :=
  {| df_policies := []; df_destinations := []; df_recovery_recipient := None |}.

Definition text (params : Value) (name : string) : string := str_or_default params.[name].

Definition channel_ids_of (params : Value) : list string :=
  match as_array params.["channel_ids"] with Some ids => take 16 (filter_map as_str ids) | None => [] end.

(** What one [backup.policy.set] defines. *)
Definition define_policy (action : AdmittedAction) : PolicyDef :=
  let params := params action in
  {| po_resource_id := text params "resource_id"; po_scope := scope action;
     po_schedule_text := text params "schedule"; po_schedule := CronExpr.parse (text params "schedule");
     po_timezone_name := text params "timezone"; po_timezone := timezone (text params "timezone");
     po_keep := (number_param params "keep_daily", number_param params "keep_weekly",
                 number_param params "keep_monthly");
     po_verify_text := text params "verify_schedule"; po_verify := CronExpr.parse (text params "verify_schedule");
     po_destination_ref := text params "destination_ref"; po_plan := plan_ref action;
     po_active_from := applied_at action; po_channel_ids := channel_ids_of params |}.

Definition define_destination (action : AdmittedAction) : DestinationDef :=
  let params := params action in
  {| de_destination_ref := text params "destination_ref"; de_kind := text params "destination_kind";
     de_endpoint := text params "endpoint"; de_region := text params "region"; de_bucket := text params "bucket";
     de_prefix := text params "prefix"; de_credential_digest := text params "credential_ciphertext_digest_hex";
     de_plan_digest_hex := plan_digest_hex action |}.

(** One round of the loop of [load]. *)
Definition load_one (defs : Definitions) (action : AdmittedAction) : Definitions :=
  let '{| df_policies := policies; df_destinations := destinations; df_recovery_recipient := recipient |} := defs in
  let p := params action in
  if String.eqb (kind action) "backup.policy.set" then
    {| df_policies := binsert (text p "resource_id") (define_policy action) policies;
       df_destinations := destinations; df_recovery_recipient := recipient |}
  else if String.eqb (kind action) "backup.policy.delete" then
    {| df_policies := bremove (text p "resource_id") policies;
       df_destinations := destinations; df_recovery_recipient := recipient |}
  else if String.eqb (kind action) "backup.destination.set" then
    {| df_policies := policies;
       df_destinations := binsert (text p "destination_ref") (define_destination action) destinations;
       df_recovery_recipient := recipient |}
  else if String.eqb (kind action) "backup.destination.delete" then
    {| df_policies := policies; df_destinations := bremove (text p "destination_ref") destinations;
       df_recovery_recipient := recipient |}
  else if String.eqb (kind action) "recovery_recipient.set" then
    {| df_policies := policies; df_destinations := destinations; df_recovery_recipient := as_str p.["recipient"] |}
  else defs.

(** The newest action is first in [actions]. *)
Definition load (actions : list AdmittedAction) : Definitions :=
  fold_left load_one (select succeeded (rev actions)) no_definitions.

(** ** Artifacts *)

Definition fingerprint (recipient : string) : string := hex (sha256 recipient).

Definition object_key (prefix server_id resource_id backup_id : string) : string :=
  let key := "permanu/v1/" +:+ server_id +:+ "/" +:+ resource_id +:+ "/" +:+ backup_id +:+ ".age" in
  if is_empty prefix then key else prefix +:+ "/" +:+ key.

Definition location (dest : DestinationDef) (server_id resource_id backup_id : string) : string :=
  let key := object_key (de_prefix dest) server_id resource_id backup_id in
  if String.eqb (de_kind dest) "server_local" then LOCAL_ROOT +:+ "/" +:+ key
  else if String.eqb (de_kind dest) "sftp" then de_endpoint dest +:+ "/" +:+ key
  else de_kind dest +:+ "://" +:+ de_bucket dest +:+ "/" +:+ key.

Definition backup_identity (policy : PolicyDef) (run_id : string) : LogIdentity :=
  {| li_source := "backup:" +:+ po_resource_id policy; li_scope := po_scope policy;
     li_service_id := po_resource_id policy; li_run_id := run_id |}.

Definition policy_fire_times (expr : option CronExpr) (tz : option TimeZone) (from to : Z) : list Z :=
  match expr, tz with
  | Some expr, Some tz => (fire_times expr tz from to 64 100000).1
  | _, _ => []
  end.

End defs.

(** ** Runs *)

Definition backup_of_status (run : BackupRun) (status : Z) (started finished : option Z) (error : string) : BackupRun :=
  {| br_id := br_id run; br_policy_id := br_policy_id run; br_status := status; br_trigger := br_trigger run;
     br_started_at := started; br_finished_at := finished; br_size_bytes := br_size_bytes run;
     br_artifact_id := br_artifact_id run; br_error := error; br_operation_id := br_operation_id run;
     br_content_digest_hex := br_content_digest_hex run; br_runner_run_id := br_runner_run_id run |}.

Definition backup_runner_id (run : BackupRun) (id : string) : BackupRun :=
  {| br_id := br_id run; br_policy_id := br_policy_id run; br_status := br_status run; br_trigger := br_trigger run;
     br_started_at := br_started_at run; br_finished_at := br_finished_at run; br_size_bytes := br_size_bytes run;
     br_artifact_id := br_artifact_id run; br_error := br_error run; br_operation_id := br_operation_id run;
     br_content_digest_hex := br_content_digest_hex run; br_runner_run_id := id |}.

Definition backup_artifact (run : BackupRun) (trigger : Z) (id digest : string) (size_ : Z) : BackupRun :=
  {| br_id := br_id run; br_policy_id := br_policy_id run; br_status := br_status run; br_trigger := trigger;
     br_started_at := br_started_at run; br_finished_at := br_finished_at run; br_size_bytes := size_;
     br_artifact_id := id; br_error := br_error run; br_operation_id := br_operation_id run;
     br_content_digest_hex := digest; br_runner_run_id := br_runner_run_id run |}.

Definition backup_status (run : BackupRun) (status : Z) : BackupRun :=
  backup_of_status run status (br_started_at run) (br_finished_at run) (br_error run).
Definition backup_error (run : BackupRun) (error : string) : BackupRun :=
  backup_of_status run (br_status run) (br_started_at run) (br_finished_at run) error.
Definition backup_finished (run : BackupRun) (at_ : option Z) : BackupRun :=
  backup_of_status run (br_status run) (br_started_at run) at_ (br_error run).

(** [BackupRun { id, policy_id, status, trigger, ..Default::default() }]. *)
Definition new_backup (id policy_id : string) (status trigger : Z) : BackupRun :=
  {| br_id := id; br_policy_id := policy_id; br_status := status; br_trigger := trigger; br_started_at := None;
     br_finished_at := None; br_size_bytes := 0; br_artifact_id := ""; br_error := ""; br_operation_id := "";
     br_content_digest_hex := ""; br_runner_run_id := "" |}.

(** The run an answer leaves, whether a retry may follow and the id of a
    recorded backup. *)
Definition apply_backup_result (run : BackupRun) (result : RunnerFailure + Value) : BackupRun * bool * option string :=
  match result with
  | inr answer =>
      let run := match runner_run_id_of answer with Some id => backup_runner_id run id | None => run end in
      let outcome := default "succeeded" (as_str answer.["outcome"]) in
      if String.eqb outcome "succeeded" then
        let backup_id := str_or_default answer.["backup_id"] in
        (backup_artifact (backup_status run BackupRunStatus.Succeeded) (br_trigger run) backup_id
           (str_or_default answer.["backup_digest_hex"]) (default 0 (as_u64 answer.["size_bytes"])),
         false, if uuid7 backup_id then Some backup_id else None)
      else if contains_str ["failed"; "timeout"] outcome then
        (backup_error (backup_status run BackupRunStatus.Failed)
           match as_str answer.["error"] with Some e => take_chars 256 e | None => outcome end, true, None)
      else if String.eqb outcome "cancelled" then (backup_status run BackupRunStatus.Cancelled, false, None)
      else (backup_error (backup_status run BackupRunStatus.Failed) ("unknown outcome " +:+ take_chars 32 outcome),
            false, None)
  | inl failure =>
      (backup_error (backup_status run BackupRunStatus.Failed) (rf_code failure +:+ ": " +:+ rf_message failure),
       false, None)
  end.

(** ** Verifications *)

Definition verify_with (v : RestoreVerification) (artifact : string) (status : Z) (checks : list VerificationCheck)
    (error note : string) : RestoreVerification :=
  {| rv_id := rv_id v; rv_policy_id := rv_policy_id v; rv_artifact_id := artifact; rv_status := status;
     rv_started_at := rv_started_at v; rv_finished_at := rv_finished_at v; rv_checks := checks; rv_error := error;
     rv_trigger := rv_trigger v; rv_operation_id := rv_operation_id v; rv_runner_run_id := rv_runner_run_id v;
     rv_note := note |}.

Definition verify_status (v : RestoreVerification) (status : Z) (error : string) : RestoreVerification :=
  verify_with v (rv_artifact_id v) status (rv_checks v) error (rv_note v).

Definition verify_finished (v : RestoreVerification) (at_ : option Z) : RestoreVerification :=
  {| rv_id := rv_id v; rv_policy_id := rv_policy_id v; rv_artifact_id := rv_artifact_id v; rv_status := rv_status v;
     rv_started_at := rv_started_at v; rv_finished_at := at_; rv_checks := rv_checks v; rv_error := rv_error v;
     rv_trigger := rv_trigger v; rv_operation_id := rv_operation_id v; rv_runner_run_id := rv_runner_run_id v;
     rv_note := rv_note v |}.

Definition verify_runner_id (v : RestoreVerification) (id : string) : RestoreVerification :=
  {| rv_id := rv_id v; rv_policy_id := rv_policy_id v; rv_artifact_id := rv_artifact_id v; rv_status := rv_status v;
     rv_started_at := rv_started_at v; rv_finished_at := rv_finished_at v; rv_checks := rv_checks v;
     rv_error := rv_error v; rv_trigger := rv_trigger v; rv_operation_id := rv_operation_id v; rv_runner_run_id := id;
     rv_note := rv_note v |}.

Definition verify_cancelled (result : RunnerFailure + Value) : bool :=
  match result with
  | inr answer => eq_str answer.["run_outcome"] "cancelled" || eq_str answer.["outcome"] "cancelled"
                  || eq_str answer.["error"].["code"] (PlanCode.as_str PlanCode.Cancelled)
  | inl failure => String.eqb (rf_code failure) (PlanCode.as_str PlanCode.Cancelled)
  end.

Definition verify_run_id (result : RunnerFailure + Value) : option string :=
  match result with inr answer => runner_run_id_of answer | inl _ => None end.

Definition verify_check (name : string) (passed : bool) (detail : string) : VerificationCheck :=
  {| vc_name := take_chars 128 name; vc_passed := passed; vc_detail := take_chars 256 detail |}.

Definition verify_checks (checks : Value) : list VerificationCheck :=
  match checks with
  | VObject m => (fun e => verify_check e.1 (eq_bool e.2 true) "") <$> take 32 m
  | VArray l => (fun c => verify_check (str_or_default c.["name"]) (eq_bool c.["passed"] true)
                            (str_or_default c.["detail"])) <$> take 32 l
  | _ => []
  end.

(** [Vec<String>::join]. *)
Fixpoint join (separator : string) (l : list string) : string :=
  match l with
  | [] => ""
  | [s] => s
  | s :: rest => s +:+ separator +:+ join separator rest
  end.

Definition apply_verify_result (v : RestoreVerification) (result : RunnerFailure + Value) : RestoreVerification :=
  if verify_cancelled result then verify_status v VerificationStatus.Cancelled "cancelled"
  else match result with
  | inr answer =>
      let artifact := match as_str answer.["backup_id"] with Some id => take_chars 64 id | None => rv_artifact_id v end in
      let checks := verify_checks answer.["checks"] in
      let note := match as_str answer.["note"] with Some note => take_chars 128 note | None => "" end in
      let passed := String.eqb (default "succeeded" (as_str answer.["outcome"])) "succeeded"
                    && forallb vc_passed checks in
      let failures := join ", " (vc_name <$> List.filter (fun c => negb (vc_passed c)) checks) in
      if passed then verify_with v artifact VerificationStatus.Passed checks (rv_error v) note
      else verify_with v artifact VerificationStatus.Failed checks
             (if is_empty failures then default "failed" (as_str answer.["outcome"]) else failures) note
  | inl failure => verify_status v VerificationStatus.Failed (rf_code failure +:+ ": " +:+ rf_message failure)
  end.
