(* ===== verification/BackupSched.v ===== *)
(** * The backup scheduler

    src/local/sched/backup.rs.  [BackupState] is the scheduler's locked
    state; its world is that of [Sched], with the calls of the runner in
    flight as [BackupTask]s.  An operation is one step (the source holds the
    state lock for parts of it).  [finish_backup] awaits the runner once
    more for [backup_prune]: what follows that answer is [finish_prune]. *)

From S2P Require Import Prelude RustStr BTree PlanCode Json Jcs Calendar Text Crypto Trust Verify.
From S2P Require Import Effects Store DefinitionStore AdmissionStore Queries CronExpr Proto OpsStore Runner CronJobs Sched.
From S2P Require Import BackupDefs.
Import Definitions.

(** This server's age recipient. *)
Class BackupHost := { server_recipient : string }.

Section scheduler.
Context {CR : Crypto} {J : Jiff} {JD : JiffDb} {JR : JsonReader} {PB : Prost} {ST : SqliteTime} {HO : Host}
  {BH : BackupHost}.

(** ** State *)

Record Pending := {
  pn_resource_id : string; pn_policy : PolicyDef; pn_run : BackupRun; pn_scheduled_for : Z; pn_retry_at : option Z
}.

Record BackupState := {
  b_defs : Definitions;
  b_busy : gset string;
  b_verifying : gset string;
  b_server_busy : bool;
  b_queue : list Pending;
  b_retries : list Pending;
  b_recovering : gset string;
  b_running : option (BackupRun * string * Z * Z);
  b_verifies : gmap string (RestoreVerification * string * Z)
}.

Definition empty_backups : BackupState :=
  {| b_defs := no_definitions; b_busy := ∅; b_verifying := ∅; b_server_busy := false; b_queue := []; b_retries := [];
     b_recovering := ∅; b_running := None; b_verifies := ∅ |}.

Definition set_defs (x : Definitions) (s : BackupState) : BackupState :=
  {| b_defs := x; b_busy := b_busy s; b_verifying := b_verifying s; b_server_busy := b_server_busy s;
     b_queue := b_queue s; b_retries := b_retries s; b_recovering := b_recovering s; b_running := b_running s;
     b_verifies := b_verifies s |}.
Definition set_busy (x : gset string) (s : BackupState) : BackupState :=
  {| b_defs := b_defs s; b_busy := x; b_verifying := b_verifying s; b_server_busy := b_server_busy s;
     b_queue := b_queue s; b_retries := b_retries s; b_recovering := b_recovering s; b_running := b_running s;
     b_verifies := b_verifies s |}.
Definition set_verifying (x : gset string) (s : BackupState) : BackupState :=
  {| b_defs := b_defs s; b_busy := b_busy s; b_verifying := x; b_server_busy := b_server_busy s;
     b_queue := b_queue s; b_retries := b_retries s; b_recovering := b_recovering s; b_running := b_running s;
     b_verifies := b_verifies s |}.
Definition set_server_busy (x : bool) (s : BackupState) : BackupState :=
  {| b_defs := b_defs s; b_busy := b_busy s; b_verifying := b_verifying s; b_server_busy := x;
     b_queue := b_queue s; b_retries := b_retries s; b_recovering := b_recovering s; b_running := b_running s;
     b_verifies := b_verifies s |}.
Definition set_queue (x : list Pending) (s : BackupState) : BackupState :=
  {| b_defs := b_defs s; b_busy := b_busy s; b_verifying := b_verifying s; b_server_busy := b_server_busy s;
     b_queue := x; b_retries := b_retries s; b_recovering := b_recovering s; b_running := b_running s;
     b_verifies := b_verifies s |}.
Definition set_retries (x : list Pending) (s : BackupState) : BackupState :=
  {| b_defs := b_defs s; b_busy := b_busy s; b_verifying := b_verifying s; b_server_busy := b_server_busy s;
     b_queue := b_queue s; b_retries := x; b_recovering := b_recovering s; b_running := b_running s;
     b_verifies := b_verifies s |}.
Definition set_recovering (x : gset string) (s : BackupState) : BackupState :=
  {| b_defs := b_defs s; b_busy := b_busy s; b_verifying := b_verifying s; b_server_busy := b_server_busy s;
     b_queue := b_queue s; b_retries := b_retries s; b_recovering := x; b_running := b_running s;
     b_verifies := b_verifies s |}.
Definition set_running (x : option (BackupRun * string * Z * Z)) (s : BackupState) : BackupState :=
  {| b_defs := b_defs s; b_busy := b_busy s; b_verifying := b_verifying s; b_server_busy := b_server_busy s;
     b_queue := b_queue s; b_retries := b_retries s; b_recovering := b_recovering s; b_running := x;
     b_verifies := b_verifies s |}.
Definition set_verifies (x : gmap string (RestoreVerification * string * Z)) (s : BackupState) : BackupState :=
  {| b_defs := b_defs s; b_busy := b_busy s; b_verifying := b_verifying s; b_server_busy := b_server_busy s;
     b_queue := b_queue s; b_retries := b_retries s; b_recovering := b_recovering s; b_running := b_running s;
     b_verifies := x |}.

(** The calls of the runner in flight, with what the task does after them. *)
Inductive BackupTask :=
| RunTask (policy : PolicyDef) (pending : Pending) (run : BackupRun) (attempt : Z)
| PruneTask (policy : PolicyDef) (scheduled_for : Z) (backup_id : string)
| VerifyTask (policy : PolicyDef) (verification : RestoreVerification) (scheduled_for : Z).

Inductive BackupMessage := RunMessage (run : BackupRun) | VerificationMessage (verification : RestoreVerification).

#[local] Notation BackupWorld := (SchedWorld BackupState BackupTask BackupMessage).

Definition bact (A : Type) : Type := st BackupWorld A.

Definition binding (policy : PolicyDef) (scheduled_for attempt : Z) : ScheduleRef :=
  {| sr_plan := po_plan policy; sr_scheduled_for := rfc scheduled_for; sr_attempt := attempt |}.

(** The operation and the schedule binding the runner is asked for. *)
Definition task_op (t : BackupTask) : string :=
  match t with RunTask _ _ _ _ => "backup_run" | PruneTask _ _ _ => "backup_prune" | VerifyTask _ _ _ => "backup_verify" end.
Definition task_schedule (t : BackupTask) : ScheduleRef :=
  match t with
  | RunTask policy pending _ attempt => binding policy (pn_scheduled_for pending) attempt
  | PruneTask policy scheduled_for _ => binding policy scheduled_for 1
  | VerifyTask policy _ scheduled_for => binding policy scheduled_for 1
  end.

(** ** Recording *)

Definition backup_run_entry (run : BackupRun) (slot : string) (at_ : Z) : Entry :=
  {| en_id := br_id run; en_subject := br_policy_id run; en_slot := slot; en_status := br_status run; en_at := at_;
     en_body := encode_to_vec backup_run run |}.

Definition verification_entry (v : RestoreVerification) (slot : string) (at_ : Z) : Entry :=
  {| en_id := rv_id v; en_subject := rv_policy_id v; en_slot := slot; en_status := rv_status v; en_at := at_;
     en_body := encode_to_vec verification v |}.

Definition save_run (run : BackupRun) (slot : string) : bact bool :=
  let! now := now_ in
  let! r := checked (fun o => put o KBackupRun (backup_run_entry run slot (default now (br_started_at run)))) in
  ret (is_some r).

Definition save_verification (v : RestoreVerification) (slot : string) : bact bool :=
  let! now := now_ in
  let! r := checked (fun o => put o KVerification (verification_entry v slot (default now (rv_started_at v)))) in
  ret (is_some r).

Definition scope_for (s : BackupState) (resource_id : string) : Scope :=
  match bget resource_id (df_policies (b_defs s)) with
  | Some p => scope_of (po_scope p) resource_id
  | None => default_scope
  end.

Definition publish_run (run : BackupRun) : bact unit :=
  let! s := gets id in emit (Published (scope_for s (br_policy_id run)) (RunMessage run)).

Definition record_run (run : BackupRun) (slot : string) : bact bool :=
  let! saved := save_run run slot in
  if (saved : bool) then do! publish_run run in ret true else ret false.

Definition record_verification (v : RestoreVerification) (slot : string) : bact bool :=
  let! saved := save_verification v slot in
  if (saved : bool) then
    let! s := gets id in
    do! emit (Published (scope_for s (rv_policy_id v)) (VerificationMessage v)) in ret true
  else ret false.

Definition log (policy : PolicyDef) (run_id : string) (level : LogLevel) (message : string) : bact unit :=
  emit (Logged level message (backup_identity policy run_id)).

Definition report (policy : PolicyDef) (kind : ConditionKind) (occurred : bool) (summary : string) : bact unit :=
  emit (Reported {| be_kind := kind; be_scope := scope_of (po_scope policy) (po_resource_id policy);
    be_source := "backup"; be_subject_id := po_resource_id policy; be_occurred := occurred;
    be_standalone := match po_channel_ids policy with [] => false | _ => true end;
    be_channel_ids := po_channel_ids policy; be_summary := summary |}).

Definition reload : bact bool :=
  let! actions := store_read (fun db => admitted_actions db BACKUP_KINDS) in
  match actions with
  | None => ret false
  | Some actions => do! modify (set_defs (load actions)) in ret true
  end.

(** ** Artifacts *)

Definition make_artifact (policy : PolicyDef) (run : BackupRun) (backup_id : string) (now : Z) : bact BackupArtifact :=
  let! s := gets id in
  let! location := match bget (po_destination_ref policy) (df_destinations (b_defs s)) with
    | Some dest => let! server := draw server_id in
                   ret (location dest server (po_resource_id policy) backup_id)
    | None => ret ""
    end in
  ret {| ba_id := backup_id; ba_policy_id := po_resource_id policy; ba_run_id := br_id run; ba_location := location;
         ba_size_bytes := br_size_bytes run; ba_content_digest_hex := br_content_digest_hex run; ba_encrypted := true;
         ba_age_recipients := fingerprint server_recipient ::
           match df_recovery_recipient (b_defs s) with Some recovery => [fingerprint recovery] | None => [] end;
         ba_created_at := Some now; ba_expires_at := None; ba_last_verification := VerificationStatus.Unspecified |}.

Definition save_result (policy : PolicyDef) (run : BackupRun) (slot : string) (now : Z) : bact bool :=
  if negb (br_status run =? BackupRunStatus.Succeeded) || negb (uuid7 (br_artifact_id run)) then save_run run slot
  else
    let! artifact := make_artifact policy run (br_artifact_id run) now in
    let! r := checked (writes (fun o => put_backup_completion o run slot artifact)) in
    ret (is_some r).

Definition put_artifact (a : BackupArtifact) : bact unit :=
  do! checked (fun o => put o KArtifact (artifact_entry a)) in ret tt.

Definition get_artifact (id : string) : bact (option BackupArtifact) :=
  let! row := checked (reads (fun o => try_get o KArtifact id)) in
  ret match row with Some (Some row) => decode artifact (or_body row) | _ => None end.

Definition with_last_verification (a : BackupArtifact) (status : Z) : BackupArtifact :=
  {| ba_id := ba_id a; ba_policy_id := ba_policy_id a; ba_run_id := ba_run_id a; ba_location := ba_location a;
     ba_size_bytes := ba_size_bytes a; ba_content_digest_hex := ba_content_digest_hex a;
     ba_encrypted := ba_encrypted a; ba_age_recipients := ba_age_recipients a; ba_created_at := ba_created_at a;
     ba_expires_at := ba_expires_at a; ba_last_verification := status |}.

Definition with_expires (a : BackupArtifact) (at_ : Z) : BackupArtifact :=
  {| ba_id := ba_id a; ba_policy_id := ba_policy_id a; ba_run_id := ba_run_id a; ba_location := ba_location a;
     ba_size_bytes := ba_size_bytes a; ba_content_digest_hex := ba_content_digest_hex a;
     ba_encrypted := ba_encrypted a; ba_age_recipients := ba_age_recipients a; ba_created_at := ba_created_at a;
     ba_expires_at := Some at_; ba_last_verification := ba_last_verification a |}.

Definition note_verified (v : RestoreVerification) : bact unit :=
  let! a := get_artifact (rv_artifact_id v) in
  match a with
  | Some a => put_artifact (with_last_verification a (rv_status v))
  | None => ret tt
  end.

(** ** The authority of a recorded run *)

Definition policy_action (authority : PlanRef) (a : AdmittedAction) : bool :=
  String.eqb (plan_id a) (pr_plan_id authority) && String.eqb (plan_digest_hex a) (pr_plan_digest_hex authority)
  && (action_index a =? pr_action_index authority).

(** The policy the action of a binding set. *)
Definition policy_of (authority : PlanRef) : bact (option PolicyDef) :=
  let! actions := store_read (fun db => admitted_actions db ["backup.policy.set"]) in
  ret match actions with
      | None => None
      | Some actions =>
          match find_first (policy_action authority) actions with
          | Some action => match df_policies (load [action]) with [] => None | e :: _ => Some e.2 end
          | None => None
          end
      end.

Definition intent_of (kind : RecordKind) (id : string) : bact (option (option ScheduleRef)) :=
  checked (reads (fun o => scheduled_intent o kind id)).

Definition recovery_policy (kind : RecordKind) (id : string) : bact (option (PolicyDef * ScheduleRef)) :=
  let! intent := intent_of kind id in
  match intent with
  | Some (Some intent) =>
      let! policy := policy_of (sr_plan intent) in
      ret match policy with Some policy => Some (policy, intent) | None => None end
  | _ => ret None
  end.

(** The binding one start line of the runner names. *)
Definition line_binding (line : Value) : option ScheduleRef :=
  scheduled_for ← as_str line.["scheduled_for"];
  _ ← parse_rfc scheduled_for;
  attempt ← as_u64 line.["attempt"];
  if negb (in_range 1 3 attempt) then None
  else
    plan ← as_str line.["plan_id"];
    digest ← as_str line.["plan_digest_hex"];
    index ← as_u64 line.["action_index"];
    if index <? 2 ^ 32 then
      Some {| sr_plan := {| pr_plan_id := plan; pr_plan_digest_hex := digest; pr_action_index := index |};
              sr_scheduled_for := scheduled_for; sr_attempt := attempt |}
    else None.

(** The [for] loop over the start lines: they must all name one binding. *)
Fixpoint same_binding (found : option ScheduleRef) (lines : list Value) : option ScheduleRef :=
  match lines with
  | [] => found
  | line :: rest =>
      match line_binding line with
      | None => None
      | Some candidate => if is_some_and found (fun old => negb (bool_decide (old = candidate))) then None
                          else same_binding (Some candidate) rest
      end
  end.

Definition bound_op (kind : RecordKind) : option string :=
  match kind with KBackupRun => Some "backup_run" | KVerification => Some "backup_verify" | _ => None end.

Definition own_policy (resource_id : string) (found : option (PolicyDef * ScheduleRef))
    : option (PolicyDef * ScheduleRef) :=
  match found with
  | Some (policy, intent) => if String.eqb (po_resource_id policy) resource_id then Some (policy, intent) else None
  | None => None
  end.

Definition recover_bound_policy (kind : RecordKind) (id resource_id runner_id : string)
    : bact (option (PolicyDef * ScheduleRef)) :=
  let! intent := intent_of kind id in
  match intent with
  | None => ret None
  | Some (Some _) => let! original := recovery_policy kind id in ret (own_policy resource_id original)
  | Some None =>
      if negb (uuid7 runner_id) then ret None
      else
        let! consumed := consumed_log in
        match bound_op kind, consumed with
        | Some op, Some lines =>
            match same_binding None (select (fun line => eq_str line.["run_id"] runner_id) (run_lines lines op)) with
            | None => ret None
            | Some intent =>
                let! policy := policy_of (sr_plan intent) in
                ret (own_policy resource_id match policy with Some policy => Some (policy, intent) | None => None end)
            end
        | _, _ => ret None
        end
  end.

(** ** Recovery *)

Definition OUTCOME_UNKNOWN : string := "Execution outcome requires reconciliation after restart".

Definition UNFINISHED : list Z :=
  [BackupRunStatus.Pending; BackupRunStatus.Dumping; BackupRunStatus.Encrypting; BackupRunStatus.Uploading].

(** The [result] block of [recover]: the runner's id of the run, once known,
    and its result line. *)
Definition recovered_line (op runner_run_id : string) (original : option (PolicyDef * ScheduleRef))
    : bact (string * option Value) :=
  let! consumed := consumed_log in
  ret match consumed with
      | None => (runner_run_id, None)
      | Some lines =>
          let id := if is_empty runner_run_id then
              match original with
              | Some (_, intent) => find_runner_run_id (run_lines lines op) (sr_plan intent)
                                      (parse_rfc (sr_scheduled_for intent)) (sr_attempt intent)
              | None => None
              end
            else Some runner_run_id in
          match id with
          | Some id => (id, find_first (fun line => eq_str line.["run_id"] id) (rev (run_results lines op)))
          | None => (runner_run_id, None)
          end
      end.

Definition in_flight (s : BackupState) (id : string) : bool :=
  is_some_and (b_running s) (fun r => String.eqb (br_id r.1.1.1) id)
  || existsb (fun p => String.eqb (br_id (pn_run p)) id) (b_queue s).

(** The run recovered with its answer: its chain ends. *)
Definition settle_run (run : BackupRun) : bact unit :=
  modify (fun s =>
    let s := set_busy (b_busy s ∖ {[ br_policy_id run ]}) (set_recovering (b_recovering s ∖ {[ br_id run ]}) s) in
    if bool_decide (b_recovering s = ∅) && negb (is_some (b_running s)) then set_server_busy false s else s).

Definition hold_run (run : BackupRun) : bact unit :=
  modify (fun s => set_server_busy true (set_busy ({[ br_policy_id run ]} ∪ b_busy s)
                     (set_recovering ({[ br_id run ]} ∪ b_recovering s) s))).

Definition recover_run (now : Z) (row : OpsRow) : bact unit :=
  match decode backup_run (or_body row) with
  | None => ret tt
  | Some run =>
      if br_trigger run =? BackupTrigger.Manual then ret tt
      else
        let! s := gets id in
        if in_flight s (br_id run) then ret tt
        else
          let! original := recover_bound_policy KBackupRun (br_id run) (br_policy_id run) (br_runner_run_id run) in
          let! found := recovered_line "backup_run" (br_runner_run_id run) original in
          let run := backup_runner_id run found.1 in
          match found.2, original with
          | Some answer, Some (policy, _) =>
              let! generation := failure_generation in
              let run := backup_finished (apply_backup_result run (inr answer)).1.1 (Some now) in
              let! after := failure_generation in
              if negb (generation =? after) then ret tt
              else
                let! saved := save_result policy run (or_slot row) now in
                if (saved : bool) then settle_run run else ret tt
          | _, _ =>
              let run := backup_error run OUTCOME_UNKNOWN in
              let! saved := save_run run (or_slot row) in
              if (saved : bool) then hold_run run else ret tt
          end
  end.

Definition recover_verification (now : Z) (row : OpsRow) : bact unit :=
  match decode verification (or_body row) with
  | None => ret tt
  | Some v =>
      if rv_trigger v =? BackupTrigger.Manual then ret tt
      else
        let! verifies := gets b_verifies in
        if is_some (verifies !! rv_id v) then ret tt
        else
          let! original := recover_bound_policy KVerification (rv_id v) (rv_policy_id v) (rv_runner_run_id v) in
          let! found := recovered_line "backup_verify" (rv_runner_run_id v) original in
          let v := verify_runner_id v found.1 in
          match found.2, original with
          | Some answer, Some _ =>
              let v := verify_finished (apply_verify_result v (inr answer)) (Some now) in
              let! saved := save_verification v (or_slot row) in
              if (saved : bool)
              then modify (fun s => set_verifying (b_verifying s ∖ {[ rv_policy_id v ]}) s) else ret tt
          | _, _ =>
              let v := verify_status v (rv_status v) OUTCOME_UNKNOWN in
              let! saved := save_verification v (or_slot row) in
              if (saved : bool)
              then modify (fun s => set_verifying ({[ rv_policy_id v ]} ∪ b_verifying s) s) else ret tt
          end
  end.

Definition recover : bact unit :=
  let! now := now_ in
  let! rows := list_rows KBackupRun None UNFINISHED 10000 in
  do! mfor (recover_run now) rows in
  let! rows := list_rows KVerification None [VerificationStatus.Running] 10000 in
  mfor (recover_verification now) rows.

Definition new_scheduler : bact unit :=
  do! modify (fun _ => empty_backups) in
  do! reload in recover.

(** ** Starting backups *)

(** [attempt_of]: attempts of a fire time are counted from its records. *)
Definition attempt_of (pending : Pending) : bact (option Z) :=
  let! earlier := checked (reads (fun o => Ok (try_slot_attempts o KBackupRun (pn_resource_id pending)
                                                 (rfc (pn_scheduled_for pending)) (br_id (pn_run pending))))) in
  ret match earlier with
      | Some earlier => if earlier + 1 <=? 3 then Some (earlier + 1) else None
      | None => None
      end.

(** The waiting backup goes back to the front of the queue. *)
Definition put_back (pending : Pending) : bact unit :=
  modify (fun s => set_queue (pending :: b_queue s) (set_server_busy false s)).

(** The start of one backup, the server slot taken. *)
Definition launch_backup (pending : Pending) : bact unit :=
  let policy := pn_policy pending in
  let! attempt := attempt_of pending in
  match attempt with
  | None => put_back pending
  | Some attempt =>
      let! now := now_ in
      let run := backup_of_status (pn_run pending) BackupRunStatus.Dumping (Some now) (br_finished_at (pn_run pending))
                   (br_error (pn_run pending)) in
      let slot := rfc (pn_scheduled_for pending) in
      let! persisted := checked (writes (fun o => put_scheduled_record o KBackupRun (backup_run_entry run slot now)
                                                    (binding policy (pn_scheduled_for pending) attempt))) in
      let! recorded := match persisted with Some _ => record_run run slot | None => ret false end in
      if negb recorded then put_back pending
      else
        do! modify (set_running (Some (run, pr_plan_id (po_plan policy), pn_scheduled_for pending, attempt))) in
        do! log policy (br_id run) LInfo ("backup started: attempt " +:+ dec_string attempt +:+ " for " +:+ slot) in
        spawn_task (RunTask policy pending run attempt)
  end.

(** One call of [next_backup]; whether it calls itself again. *)
Definition next_round : bact bool :=
  let! s := gets id in
  if b_server_busy s then ret false
  else match b_queue s with
  | [] => ret false
  | pending :: rest =>
      do! modify (fun s => set_server_busy true (set_queue rest s)) in
      if negb (bcontains (pn_resource_id pending) (df_policies (b_defs s))) then
        let! now := now_ in
        let run := backup_of_status (pn_run pending) BackupRunStatus.Cancelled (br_started_at (pn_run pending)) (Some now)
                     "the policy was deleted before the run started" in
        let! recorded := record_run run (rfc (pn_scheduled_for pending)) in
        if negb recorded then do! put_back pending in ret false
        else
          do! modify (fun s => set_busy (b_busy s ∖ {[ pn_resource_id pending ]}) (set_server_busy false s)) in
          ret true
      else do! launch_backup pending in ret false
  end.

(** Each further call has one waiting backup less. *)
Fixpoint next_loop (fuel : nat) : bact bool :=
  match fuel with
  | O => ret false
  | S fuel => let! again := next_round in if (again : bool) then next_loop fuel else ret true
  end.

Definition next_backup : bact unit :=
  fun w => let '(_, w) := next_loop (S (length (b_queue (w_state w)))) w in (tt, w).

Definition start_backup (policy : PolicyDef) (scheduled_for : Z) : bact unit :=
  let slot := rfc scheduled_for in
  let! taken := has_slot_ KBackupRun (po_resource_id policy) slot in
  if (taken : bool) then ret tt
  else
    let! now := now_ in
    let! s := gets id in
    if bool_decide (po_resource_id policy ∈ b_busy s) then
      log policy "" LInfo ("scheduled backup at " +:+ slot +:+ " skipped: a run of this policy is in progress")
    else
      do! modify (fun s => set_busy ({[ po_resource_id policy ]} ∪ b_busy s) s) in
      let! id := fresh_id now in
      let run := new_backup id (po_resource_id policy) BackupRunStatus.Pending BackupTrigger.Schedule in
      let! claimed := checked (fun o => claim_scheduled o KBackupRun (backup_run_entry run slot scheduled_for)
                                          (binding policy scheduled_for 1)) in
      match claimed with
      | Some true =>
          do! modify (fun s => set_queue (b_queue s ++
            [ {| pn_resource_id := po_resource_id policy; pn_policy := policy; pn_run := run;
                 pn_scheduled_for := scheduled_for; pn_retry_at := None |} ]) s) in
          do! record_run run slot in
          next_backup
      | _ => modify (fun s => set_busy (b_busy s ∖ {[ po_resource_id policy ]}) s)
      end.

Definition missed_message (times : list Z) (slot : string) : string :=
  "missed: the agent was not running at " +:+ dec_string (lenl times) +:+ " scheduled time(s), the last at " +:+ slot.

Definition after_downtime (policy : PolicyDef) (times : list Z) (now : Z) : bact unit :=
  match last times with
  | None => ret tt
  | Some latest =>
      if now - latest <=? LATE_START_SECONDS then start_backup policy latest
      else
        let slot := rfc latest in
        let! taken := has_slot_ KBackupRun (po_resource_id policy) slot in
        if (taken : bool) then ret tt
        else
          let! id := fresh_id now in
          let run := backup_of_status (new_backup id (po_resource_id policy) BackupRunStatus.Missed BackupTrigger.Schedule)
                       BackupRunStatus.Missed (Some latest) (Some now) (missed_message times slot) in
          do! record_run run slot in
          do! log policy (br_id run) LWarn (br_error run) in
          report policy BackupFailed true (br_error run)
  end.

(** ** The end of a backup *)

Definition status_text (status : Z) : string :=
  if status =? BackupRunStatus.Succeeded then "succeeded"
  else if status =? BackupRunStatus.Cancelled then "cancelled" else "failed".

Definition finish_message (run : BackupRun) (attempt : Z) (retry : bool) : string :=
  "backup " +:+ status_text (br_status run) +:+ ": attempt " +:+ dec_string attempt
  +:+ (if is_empty (br_error run) then "" else ": " +:+ br_error run)
  +:+ (if retry then ", retry in " +:+ dec_string (backoff attempt) +:+ " s" else "").

Definition finish_backup (policy : PolicyDef) (pending : Pending) (run : BackupRun) (attempt : Z)
    (result : RunnerFailure + Value) : bact unit :=
  let! now := now_ in
  let slot := rfc (pn_scheduled_for pending) in
  let! before := failure_generation in
  let! s := gets id in
  do! modify (set_running None) in
  let run := match b_running s with
    | Some (learned, _, _, _) =>
        if is_empty (br_runner_run_id run) && String.eqb (br_id learned) (br_id run)
        then backup_runner_id run (br_runner_run_id learned) else run
    | None => run
    end in
  let '(run, retryable, backup_id) := apply_backup_result run result in
  let run := backup_finished run (Some now) in
  let! generation := failure_generation in
  let! saved := if negb (before =? generation) then ret false else save_result policy run slot now in
  if negb saved then modify (fun s => set_recovering ({[ br_id run ]} ∪ b_recovering s) s)
  else
    do! publish_run run in
    let! defs := gets b_defs in
    let retry := retryable && bcontains (po_resource_id policy) (df_policies defs) && (attempt <? RUN_ATTEMPTS) in
    do! log policy (br_id run) (if br_status run =? BackupRunStatus.Succeeded then LInfo else LError)
          (finish_message run attempt retry) in
    do! modify (set_server_busy false) in
    do! (if retry then
           let! id := fresh_id now in
           modify (fun s => set_retries (b_retries s ++
             [ {| pn_resource_id := pn_resource_id pending; pn_policy := policy;
                  pn_run := new_backup id (po_resource_id policy) BackupRunStatus.Pending BackupTrigger.Schedule;
                  pn_scheduled_for := pn_scheduled_for pending; pn_retry_at := Some (now + backoff attempt) |} ]) s)
         else modify (fun s => set_busy (b_busy s ∖ {[ pn_resource_id pending ]}) s)) in
    if br_status run =? BackupRunStatus.Succeeded then
      do! report policy BackupFailed false "succeeded" in
      match backup_id with
      | Some backup_id => spawn_task (PruneTask policy (pn_scheduled_for pending) backup_id)
      | None => next_backup
      end
    else
      do! (if negb retry && negb (br_status run =? BackupRunStatus.Cancelled)
           then report policy BackupFailed true
                  ("backup failed after " +:+ dec_string attempt +:+ " attempt(s): " +:+ br_error run)
           else ret tt) in
      next_backup.

(** [prune] after the runner's answer. *)
Definition pruned_artifact (policy : PolicyDef) (now : Z) (id : string) : bact unit :=
  let! a := get_artifact id in
  match a with
  | Some a => if String.eqb (ba_policy_id a) (po_resource_id policy) then put_artifact (with_expires a now) else ret tt
  | None => ret tt
  end.

Definition deleted_ids (answer : Value) (backup_id : string) : list string :=
  match as_array answer.["deleted"] with
  | Some ids => List.filter (fun id => negb (String.eqb id backup_id)) (filter_map as_str ids)
  | None => []
  end.

Definition prune_answered (policy : PolicyDef) (backup_id : string) (answer : RunnerFailure + Value) : bact unit :=
  match answer with
  | inr answer =>
      let! now := now_ in
      let deleted := deleted_ids answer backup_id in
      do! mfor (pruned_artifact policy now) deleted in
      log policy "" LInfo ("backup prune removed " +:+ dec_string (lenl deleted) +:+ " artifact(s)")
  | inl failure => log policy "" LError ("backup prune failed: " +:+ rf_code failure +:+ ": " +:+ rf_message failure)
  end.

Definition finish_prune (policy : PolicyDef) (backup_id : string) (answer : RunnerFailure + Value) : bact unit :=
  do! prune_answered policy backup_id answer in
  next_backup.

(** ** Verifications *)

Definition new_verification (id policy_id artifact_id operation_id : string) (started_at : option Z) (trigger : Z)
    : RestoreVerification :=
  {| rv_id := id; rv_policy_id := policy_id; rv_artifact_id := artifact_id; rv_status := VerificationStatus.Running;
     rv_started_at := started_at; rv_finished_at := None; rv_checks := []; rv_error := ""; rv_trigger := trigger;
     rv_operation_id := operation_id; rv_runner_run_id := ""; rv_note := "" |}.

Definition stop_verifying (resource_id : string) : bact unit :=
  modify (fun s => set_verifying (b_verifying s ∖ {[ resource_id ]}) s).

Definition start_verify (policy : PolicyDef) (scheduled_for : Z) : bact unit :=
  let slot := rfc scheduled_for in
  let! taken := has_slot_ KVerification (po_resource_id policy) slot in
  if (taken : bool) then ret tt
  else
    let! verifying := gets b_verifying in
    if bool_decide (po_resource_id policy ∈ verifying) then ret tt
    else
      do! modify (set_verifying ({[ po_resource_id policy ]} ∪ verifying)) in
      let! now := now_ in
      let! id := fresh_id now in
      let v := new_verification id (po_resource_id policy) "" "" (Some now) BackupTrigger.Schedule in
      let! claimed := checked (fun o => claim_scheduled o KVerification (verification_entry v slot scheduled_for)
                                          (binding policy scheduled_for 1)) in
      match claimed with
      | Some true =>
          let! persisted := checked (writes (fun o => put_scheduled_record o KVerification
            (verification_entry v slot scheduled_for) (binding policy scheduled_for 1))) in
          let! recorded := match persisted with Some _ => record_verification v slot | None => ret false end in
          if negb recorded then stop_verifying (po_resource_id policy)
          else
            do! modify (fun s => set_verifies (<[rv_id v := (v, pr_plan_id (po_plan policy), scheduled_for)]> (b_verifies s)) s) in
            do! log policy (rv_id v) LInfo ("verify-restore started for " +:+ slot) in
            spawn_task (VerifyTask policy v scheduled_for)
      | _ => stop_verifying (po_resource_id policy)
      end.

Definition finish_verify (policy : PolicyDef) (v : RestoreVerification) (scheduled_for : Z)
    (result : RunnerFailure + Value) : bact unit :=
  let! now := now_ in
  let! verifies := gets b_verifies in
  do! modify (set_verifies (delete (rv_id v) verifies)) in
  let v := match verifies !! rv_id v with
    | Some (noted, _, _) => verify_runner_id v (rv_runner_run_id noted)
    | None => v
    end in
  let v := match verify_run_id result with Some id => verify_runner_id v id | None => v end in
  let v := verify_finished (apply_verify_result v result) (Some now) in
  let! recorded := record_verification v (rfc scheduled_for) in
  if negb recorded then ret tt
  else
    do! stop_verifying (po_resource_id policy) in
    if verify_cancelled result then log policy (rv_id v) LInfo "verify-restore cancelled"
    else
      do! note_verified v in
      let passed := rv_status v =? VerificationStatus.Passed in
      let message := if passed then "verify-restore passed" else "verify-restore failed: " +:+ rv_error v in
      do! log policy (rv_id v) (if passed then LInfo else LError) message in
      report policy RestoreVerificationFailed (negb passed) message.

(** The spawned task, from the runner's answer on. *)
Definition complete (t : BackupTask) (answer : RunnerFailure + Value) : bact unit :=
  match t with
  | RunTask policy pending run attempt => finish_backup policy pending run attempt answer
  | PruneTask policy _ backup_id => finish_prune policy backup_id answer
  | VerifyTask policy v scheduled_for => finish_verify policy v scheduled_for answer
  end.

Definition retry_one (pending : Pending) : bact unit :=
  let pending := {| pn_resource_id := pn_resource_id pending; pn_policy := pn_policy pending; pn_run := pn_run pending;
                    pn_scheduled_for := pn_scheduled_for pending; pn_retry_at := None |} in
  do! record_run (pn_run pending) (rfc (pn_scheduled_for pending)) in
  modify (fun s => set_queue (b_queue s ++ [pending]) s).

Definition retry_due (now : Z) (p : Pending) : bool := is_some_and (pn_retry_at p) (fun at_ => at_ <=? now).

Definition retries_due (now : Z) : bact unit :=
  let! retries := gets b_retries in
  do! modify (set_retries (List.filter (fun p => negb (retry_due now p)) retries)) in
  do! mfor retry_one (List.filter (retry_due now) retries) in
  next_backup.

(** ** Manual backups and verifications *)

Definition manual_backup_slot (action : AdmittedAction) : string :=
  "manual:" +:+ plan_id action +:+ ":" +:+ i64_text (action_index action).

Definition manual_row (kind : RecordKind) (resource slot : string) : bact (option OpsRow) :=
  let! rows := list_rows kind (Some resource) [] 100 in
  ret (find_first (fun row => String.eqb (or_slot row) slot) rows).

Definition manual_runner_run_id (op : string) (action : AdmittedAction) : bact (option string) :=
  let! consumed := consumed_log in
  ret match consumed with
      | None => None
      | Some lines =>
          if in_range 0 (2 ^ 32 - 1) (action_index action) then
            find_runner_run_id (select (fun line => bool_decide (as_u64 line.["action_index"] = Some (action_index action)))
                                  (run_lines lines op))
              {| pr_plan_id := plan_id action; pr_plan_digest_hex := plan_digest_hex action;
                 pr_action_index := action_index action |} None 1
          else None
      end.

(** The latest result line of the action. *)
Definition result_line (op : string) (accept : Value -> bool) (action : AdmittedAction) : bact (option Value) :=
  let! consumed := consumed_log in
  ret match consumed with
      | Some lines => find_first (fun line => action_line action line && accept line) (rev (run_results lines op))
      | None => None
      end.

Definition artifact_of_line (run : BackupRun) (line : Value) : BackupRun :=
  let backup_id := str_or_default line.["backup_id"] in
  if negb (uuid7 backup_id) then run
  else backup_artifact run
         (match as_str line.["trigger"] with
          | Some trigger => if contains_str ["pre_restore"; "pre_deploy"] trigger then BackupTrigger.PreChange
                            else br_trigger run
          | None => br_trigger run
          end) backup_id
         (match as_str line.["backup_digest_hex"] with
          | Some digest => if hex64 digest then digest else ""
          | None => ""
          end) (default 0 (as_u64 line.["size_bytes"])).

Definition record_manual_artifact (action : AdmittedAction) (run : BackupRun) : bact BackupRun :=
  let! line := result_line "backup_run" (fun line => eq_str line.["outcome"] "succeeded") action in
  ret match line with Some line => artifact_of_line run line | None => run end.

(** A success without [verified_at] counts as failed. *)
Definition verified_line (line : Value) : Value :=
  if is_null line.["verified_at"] && eq_str line.["outcome"] "succeeded" then
    match line with VObject m => VObject (binsert "outcome" (VString "failed") m) | _ => line end
  else line.

Definition apply_manual_verify (action : AdmittedAction) (v : RestoreVerification) : bact RestoreVerification :=
  let! line := result_line "backup_verify" (fun _ => true) action in
  match line with
  | None => ret v
  | Some line =>
      let v := apply_verify_result v (inr (verified_line line)) in
      do! (if rv_status v =? VerificationStatus.Cancelled then ret tt else note_verified v) in
      ret v
  end.

Definition manual_backup_status (outcome : string) : Z :=
  if is_empty outcome then BackupRunStatus.Dumping
  else if String.eqb outcome "succeeded" then BackupRunStatus.Succeeded
  else if String.eqb outcome "cancelled" then BackupRunStatus.Cancelled
  else BackupRunStatus.Failed.

Definition manual_verify_status (outcome : string) : Z :=
  if is_empty outcome then VerificationStatus.Running
  else if String.eqb outcome "succeeded" then VerificationStatus.Passed
  else if String.eqb outcome "cancelled" then VerificationStatus.Cancelled
  else VerificationStatus.Failed.

Definition action_end (now : Z) (action : AdmittedAction) : option Z :=
  Some (default now (match finished_at action with Some t => parse_rfc t | None => None end)).

Definition or_row (existing : option OpsRow) (kind : RecordKind) (resource slot : string) : bact (option OpsRow) :=
  match existing with Some row => ret (Some row) | None => manual_row kind resource slot end.

(** The unfinished run to settle, a new one, or [None] for a finished one. *)
Definition manual_backup (now : Z) (resource : string) (action : AdmittedAction) (row : option OpsRow)
    : bact (option BackupRun) :=
  match match row with Some row => decode backup_run (or_body row) | None => None end with
  | Some run => ret (if is_some (br_finished_at run) then None else Some run)
  | None =>
      let! id := fresh_id now in
      let run := new_backup id resource BackupRunStatus.Pending BackupTrigger.Manual in
      ret (Some {| br_id := br_id run; br_policy_id := resource; br_status := br_status run;
        br_trigger := br_trigger run; br_started_at := parse_rfc (admitted_at action); br_finished_at := None;
        br_size_bytes := 0; br_artifact_id := ""; br_error := ""; br_operation_id := operation_id action;
        br_content_digest_hex := ""; br_runner_run_id := "" |})
  end.

Definition report_manual (resource outcome : string) : bact unit :=
  let! defs := gets b_defs in
  match bget resource (df_policies defs) with
  | Some policy =>
      if String.eqb outcome "succeeded" then report policy BackupFailed false "succeeded"
      else if String.eqb outcome "failed" then report policy BackupFailed true "manual backup failed"
      else ret tt
  | None => ret tt
  end.

Definition settle_backup (now : Z) (resource slot : string) (action : AdmittedAction) (run : BackupRun) : bact unit :=
  let outcome := outcome_text action in
  let run := backup_status run (manual_backup_status outcome) in
  let run := if is_empty outcome then run else backup_finished run (action_end now action) in
  let! learned := if is_empty (br_runner_run_id run) then manual_runner_run_id "backup_run" action else ret None in
  let run := match learned with Some id => backup_runner_id run id | None => run end in
  let! run := if String.eqb outcome "succeeded" then record_manual_artifact action run else ret run in
  let! defs := gets b_defs in
  let! saved := match bget resource (df_policies defs) with
    | Some policy => save_result policy run slot now
    | None => save_run run slot
    end in
  if negb saved then ret tt
  else do! publish_run run in report_manual resource outcome.

Definition manual_verification (now : Z) (resource : string) (action : AdmittedAction) (row : option OpsRow)
    : bact (option RestoreVerification) :=
  match match row with Some row => decode verification (or_body row) | None => None end with
  | Some v => ret (if is_some (rv_finished_at v) then None else Some v)
  | None =>
      let! id := fresh_id now in
      ret (Some (new_verification id resource (text (params action) "backup_id") (operation_id action)
                   (parse_rfc (admitted_at action)) BackupTrigger.Manual))
  end.

Definition settle_verification (now : Z) (slot : string) (action : AdmittedAction) (v : RestoreVerification) : bact unit :=
  let outcome := outcome_text action in
  let v := verify_status v (manual_verify_status outcome)
             (if String.eqb outcome "cancelled" then "cancelled" else rv_error v) in
  let! learned := if is_empty (rv_runner_run_id v) then manual_runner_run_id "backup_verify" action else ret None in
  let v := match learned with Some id => verify_runner_id v id | None => v end in
  let! v := if is_empty outcome then ret v
            else apply_manual_verify action (verify_finished v (action_end now action)) in
  do! record_verification v slot in ret tt.

Definition unfinished_row (kind : RecordKind) (resource slot : string) (row : OpsRow) : bool :=
  same_kind (or_kind row) kind && String.eqb (or_subject row) resource && String.eqb (or_slot row) slot.

Definition reconcile_action (now : Z) (unfinished : list OpsRow) (action : AdmittedAction) : bact unit :=
  let resource := text (params action) "resource_id" in
  let slot := manual_backup_slot action in
  let is_run := String.eqb (kind action) "backup.run" in
  let record_kind := if is_run then KBackupRun else KVerification in
  (* the last collected row of a key is the map's *)
  let existing := find_first (unfinished_row record_kind resource slot) (rev unfinished) in
  let recent := is_some_and (parse_rfc (admitted_at action)) (fun t => now - 7200 <=? t) in
  if negb recent && negb (is_some existing) then ret tt
  else
    let! row := or_row existing record_kind resource slot in
    if is_run then
      let! run := manual_backup now resource action row in
      match run with Some run => settle_backup now resource slot action run | None => ret tt end
    else
      let! v := manual_verification now resource action row in
      match v with Some v => settle_verification now slot action v | None => ret tt end.

Definition reconcile_manual (now : Z) : bact unit :=
  let! actions := store_read (fun db => admitted_actions db MANUAL_KINDS) in
  match actions with
  | None => ret tt
  | Some actions =>
      let! runs := list_rows KBackupRun None UNFINISHED 10000 in
      let! verifications := list_rows KVerification None [VerificationStatus.Running] 10000 in
      mfor (reconcile_action now (select (fun row => starts_with "manual:" (or_slot row)) (runs ++ verifications))) actions
  end.

(** ** The tick *)

Definition note_verify_id (lines : list Value) (entry : RestoreVerification * string * Z) : bact unit :=
  let '(v, plan_id, scheduled_for) := entry in
  let! authority := recovery_policy KVerification (rv_id v) in
  match authority with
  | None => ret tt
  | Some (_, authority) =>
      if negb (String.eqb (pr_plan_id (sr_plan authority)) plan_id) then ret tt
      else match find_runner_run_id lines (sr_plan authority) (Some scheduled_for) 1 with
      | None => ret tt
      | Some id =>
          let v := verify_runner_id v id in
          let! verifies := gets b_verifies in
          match verifies !! rv_id v with
          | None => ret tt
          | Some (current, p, t) =>
              do! modify (set_verifies (<[rv_id v := (verify_runner_id current id, p, t)]> verifies)) in
              do! record_verification v (rfc scheduled_for) in ret tt
          end
      end
  end.

Definition note_verify_runner_ids : bact unit :=
  let! verifies := gets b_verifies in
  let! entries := draw (fun n => iter_order n (map_to_list verifies)) in
  let waiting := select (fun e => is_empty (rv_runner_run_id e.1.1)) (snd <$> entries) in
  match waiting with
  | [] => ret tt
  | _ =>
      let! consumed := consumed_log in
      match consumed with
      | None => ret tt
      | Some lines => mfor (note_verify_id (run_lines lines "backup_verify")) waiting
      end
  end.

Definition note_run_id (run : BackupRun) (plan_id : string) (scheduled_for attempt : Z) (lines : list Value) : bact unit :=
  let! authority := recovery_policy KBackupRun (br_id run) in
  match authority with
  | None => ret tt
  | Some (_, authority) =>
      if negb (String.eqb (pr_plan_id (sr_plan authority)) plan_id) then ret tt
      else match find_runner_run_id (run_lines lines "backup_run") (sr_plan authority) (Some scheduled_for) attempt with
      | None => ret tt
      | Some id =>
          let run := backup_runner_id run id in
          let! running := gets b_running in
          match running with
          | Some (current, p, t, a) =>
              if String.eqb (br_id current) (br_id run) then
                do! modify (set_running (Some (run, p, t, a))) in
                do! record_run run (rfc scheduled_for) in ret tt
              else ret tt
          | None => ret tt
          end
      end
  end.

Definition note_runner_id : bact unit :=
  do! note_verify_runner_ids in
  let! running := gets b_running in
  match running with
  | Some (run, plan_id, scheduled_for, attempt) =>
      if is_empty (br_runner_run_id run) then
        let! consumed := consumed_log in
        match consumed with
        | None => ret tt
        | Some lines => note_run_id run plan_id scheduled_for attempt lines
        end
      else ret tt
  | None => ret tt
  end.

Definition fire_policy (from now : Z) (downtime : bool) (policy : PolicyDef) : bact unit :=
  let from := Z.max from (po_active_from policy) in
  let times := policy_fire_times (po_schedule policy) (po_timezone policy) from now in
  let verify_times := policy_fire_times (po_verify policy) (po_timezone policy) from now in
  if downtime then
    do! after_downtime policy times now in
    match last verify_times with
    | Some latest => if now - latest <=? LATE_START_SECONDS then start_verify policy latest else ret tt
    | None => ret tt
    end
  else
    do! mfor (start_backup policy) times in
    mfor (start_verify policy) verify_times.

Definition tick : bact unit :=
  let! now := now_ in
  let! before := failure_generation in
  let! loaded := reload in
  if negb loaded then ret tt
  else
    do! recover in
    let! g := failure_generation in
    if negb (before =? g) then ret tt
    else
      let! stored := read_meta BACKUP_CHECKPOINT_KEY in
      match checkpoint_at now stored with
      | None => ret tt
      | Some checkpoint =>
          let! defs := gets b_defs in
          do! mfor (fire_policy (Z.min checkpoint now) now (DOWNTIME_SECONDS <? now - checkpoint))
                (snd <$> df_policies defs) in
          do! retries_due now in
          do! reconcile_manual now in
          do! note_runner_id in
          let! g := failure_generation in
          if negb (before =? g) then ret tt else write_meta BACKUP_CHECKPOINT_KEY (i64_text now)
      end.

End scheduler.

Notation BackupWorld := (SchedWorld BackupState BackupTask BackupMessage).
