(* ===== verification/BackupFacts.v ===== *)
(** * Theorems about the backup scheduler

    One backup runs at a time and every call of the runner is bound to a
    recorded policy; a fire time starts at most once; pruning spares the new
    backup; the loop that starts waiting backups returns. *)

From S2P Require Import Prelude RustStr BTree PlanCode Json Jcs Calendar Text Crypto Trust.
From S2P Require Import Verify CronExpr Store DefinitionStore AdmissionStore Queries Proto.
From S2P Require Import OpsStore OpsFacts Effects Runner CronJobs Sched BackupDefs BackupSched.

(** * What backup operations keep

    Relations between worlds that the primitive effects of the backup
    scheduler keep, lifted to its operations.  [NFrame] allows the effects
    that leave the definitions, the queue, the retries and the server slot
    alone; [Frame] allows every effect. *)

Import Definitions.

Section frame.
Context {CR : Crypto} {J : Jiff} {JD : JiffDb} {JR : JsonReader} {PB : Prost} {ST : SqliteTime} {HO : Host}
  {BH : BackupHost}.

(** The definitions, the waiting backups and the server slot are the same. *)
Definition neutral (s s' : BackupState) : Prop :=
  b_defs s' = b_defs s /\ b_queue s' = b_queue s /\ b_retries s' = b_retries s /\
  b_server_busy s' = b_server_busy s /\ b_running s' = b_running s.

Class NFrame (R : relation BackupWorld) : Prop := {
  nframe_reader :: Reader R;
  nframe_state w s : neutral (w_state w) s -> R w (set_state s w);
  nframe_out w x : R w (set_out x w);
  nframe_draws w x : R w (set_draws x w);
  nframe_ops w o : ops_step (w_ops w) o -> R w (set_ops o w)
}.

Class Frame (R : relation BackupWorld) : Prop := {
  frame_neutral :: NFrame R;
  frame_state w s : R w (set_state s w);
  frame_task w t : R w (set_tasks (w_tasks w ++ [t]) w)
}.

Section neutral.
Context {R : relation BackupWorld} {FR : NFrame R}.

Lemma keeps_neutral f : (forall s, neutral s (f s)) -> keeps R (modify f).
Proof. intros Hf w. by apply nframe_state. Qed.

Lemma backup_keeps_emit o : keeps R (emit o).
Proof. intros w. apply nframe_out. Qed.

Lemma backup_keeps_draw {A} (f : nat -> A) : keeps R (draw f).
Proof. intros w. apply nframe_draws. Qed.

Lemma backup_keeps_checked {A} (f : Ops -> store_result (A * Ops)) :
  (forall o a o', f o = Ok (a, o') -> ops_step o o') -> keeps R (checked f).
Proof. intros Hf. apply keeps_transaction. intros w a o H. eapply nframe_ops, Hf, H. Qed.

Lemma backup_keeps_writes f : (forall o o', f o = Ok o' -> ops_step o o') -> keeps R (checked (writes f)).
Proof. intros Hf. apply backup_keeps_checked. unfold writes. intros o a o' H. inv_ok H. simplify_eq. by apply Hf. Qed.

Lemma keeps_put kind e : keeps R (checked (fun o => put o kind e)).
Proof. apply backup_keeps_checked. intros ? ? ? H. by eapply ops_put. Qed.

Lemma keeps_claim kind e schedule : keeps R (checked (fun o => claim_scheduled o kind e schedule)).
Proof. apply backup_keeps_checked. intros ? ? ? H. by eapply ops_claim. Qed.

Lemma keeps_put_scheduled kind e schedule : keeps R (checked (writes (fun o => put_scheduled_record o kind e schedule))).
Proof. apply backup_keeps_writes. intros ? ? H. by eapply ops_put_scheduled. Qed.

Lemma keeps_completion run slot a : keeps R (checked (writes (fun o => put_backup_completion o run slot a))).
Proof. apply backup_keeps_writes. intros ? ? H. by eapply ops_backup. Qed.

End neutral.

#[local] Hint Resolve backup_keeps_emit backup_keeps_draw keeps_put keeps_claim keeps_put_scheduled keeps_completion : keeps.
#[local] Hint Extern 5 (keeps _ (modify _)) => apply keeps_neutral; intros; by split_and! : keeps.
#[local] Hint Unfold now_ consumed_log failure_generation log report fresh_id intent_of : keeps.

Section neutral_operations.
Context {R : relation BackupWorld} {FR : NFrame R}.

Lemma keeps_save_run run slot : keeps R (save_run run slot).
Proof. unfold save_run, now_. keep. Qed.

Lemma keeps_save_verification v slot : keeps R (save_verification v slot).
Proof. unfold save_verification, now_. keep. Qed.
#[local] Hint Resolve keeps_save_run keeps_save_verification : keeps.

Lemma keeps_publish_run run : keeps R (publish_run run).
Proof. unfold publish_run. keep. Qed.
#[local] Hint Resolve keeps_publish_run : keeps.

Lemma keeps_record_run run slot : keeps R (record_run run slot).
Proof. unfold record_run. keep. Qed.

Lemma keeps_record_verification v slot : keeps R (record_verification v slot).
Proof. unfold record_verification. keep. Qed.

Lemma backup_keeps_log policy id level message : keeps R (log policy id level message).
Proof. apply backup_keeps_emit. Qed.

Lemma backup_keeps_report policy kind occurred summary : keeps R (report policy kind occurred summary).
Proof. apply backup_keeps_emit. Qed.

Lemma backup_keeps_fresh_id now : keeps R (fresh_id now).
Proof. apply backup_keeps_draw. Qed.
#[local] Hint Resolve keeps_record_run keeps_record_verification backup_keeps_log backup_keeps_report backup_keeps_fresh_id : keeps.

Lemma keeps_save_result policy run slot now : keeps R (save_result policy run slot now).
Proof. unfold save_result, make_artifact. keep. Qed.

Lemma keeps_put_artifact a : keeps R (put_artifact a).
Proof. unfold put_artifact. keep. Qed.

Lemma keeps_get_artifact id : keeps R (get_artifact id).
Proof. unfold get_artifact. keep. Qed.
#[local] Hint Resolve keeps_save_result keeps_put_artifact keeps_get_artifact : keeps.

Lemma keeps_note_verified v : keeps R (note_verified v).
Proof. unfold note_verified. keep. Qed.

Lemma keeps_policy_of authority : keeps R (policy_of authority).
Proof. unfold policy_of. keep. Qed.
#[local] Hint Resolve keeps_note_verified keeps_policy_of : keeps.

Lemma keeps_recovery_policy kind id : keeps R (recovery_policy kind id).
Proof. unfold recovery_policy, intent_of. keep. Qed.
#[local] Hint Resolve keeps_recovery_policy : keeps.

Lemma keeps_recover_bound_policy kind id resource runner : keeps R (recover_bound_policy kind id resource runner).
Proof. unfold recover_bound_policy, intent_of, consumed_log. keep. Qed.

Lemma keeps_recovered_line op id original : keeps R (recovered_line op id original).
Proof. unfold recovered_line, consumed_log. keep. Qed.
#[local] Hint Resolve keeps_recover_bound_policy keeps_recovered_line : keeps.

Lemma keeps_recover_verification now row : keeps R (recover_verification now row).
Proof. unfold recover_verification. keep. Qed.

Lemma keeps_attempt_of pending : keeps R (attempt_of pending).
Proof. unfold attempt_of. keep. Qed.

Lemma keeps_stop_verifying resource : keeps R (stop_verifying resource).
Proof. unfold stop_verifying. keep. Qed.

Lemma keeps_pruned_artifact policy now id : keeps R (pruned_artifact policy now id).
Proof. unfold pruned_artifact. keep. Qed.
#[local] Hint Resolve keeps_recover_verification keeps_attempt_of keeps_stop_verifying keeps_pruned_artifact : keeps.

Lemma keeps_finish_verify policy v t result : keeps R (finish_verify policy v t result).
Proof. unfold finish_verify, now_. keep. Qed.

Lemma backup_keeps_reconcile_manual now : keeps R (reconcile_manual now).
Proof.
  unfold reconcile_manual. keep. unfold reconcile_action, or_row, manual_row, manual_backup, manual_verification,
    settle_backup, settle_verification, report_manual, record_manual_artifact, apply_manual_verify, result_line,
    manual_runner_run_id, consumed_log. keep.
Qed.

Lemma keeps_note_verify_runner_ids : keeps R note_verify_runner_ids.
Proof. unfold note_verify_runner_ids, note_verify_id, consumed_log. keep. Qed.

End neutral_operations.

#[local] Hint Resolve keeps_save_run keeps_save_verification keeps_publish_run keeps_record_run
  keeps_record_verification backup_keeps_log backup_keeps_report backup_keeps_fresh_id keeps_save_result keeps_get_artifact
  keeps_recovery_policy keeps_recover_bound_policy keeps_recovered_line keeps_recover_verification keeps_attempt_of
  keeps_stop_verifying keeps_pruned_artifact keeps_finish_verify backup_keeps_reconcile_manual
  keeps_note_verify_runner_ids : keeps.

(** ** Every operation *)

Section operations.
Context {R : relation BackupWorld} {FR : Frame R}.

Lemma backup_keeps_modify f : keeps R (modify f).
Proof. intros w. apply frame_state. Qed.

Lemma keeps_spawn t : keeps R (spawn_task t).
Proof. intros w. apply frame_task. Qed.
#[local] Hint Resolve backup_keeps_modify keeps_spawn : keeps.

Lemma backup_keeps_reload : keeps R reload.
Proof. unfold reload. keep. Qed.

Lemma backup_keeps_recover : keeps R recover.
Proof. unfold recover, recover_run, settle_run, hold_run, now_, failure_generation. keep. Qed.

Lemma keeps_next_backup : keeps R next_backup.
Proof.
  assert (forall fuel, keeps R (next_loop fuel)) as H.
  { induction fuel as [|fuel IH]; cbn [next_loop]; [keep|].
    unfold next_round, launch_backup, put_back, now_. keep. }
  intros w. unfold next_backup. specialize (H (S (length (b_queue (w_state w)))) w). by destruct (next_loop _ w).
Qed.
#[local] Hint Resolve backup_keeps_reload backup_keeps_recover keeps_next_backup : keeps.

Lemma keeps_start_backup policy t : keeps R (start_backup policy t).
Proof. unfold start_backup, now_. keep. Qed.

Lemma keeps_start_verify policy t : keeps R (start_verify policy t).
Proof. unfold start_verify, now_. keep. Qed.
#[local] Hint Resolve keeps_start_backup keeps_start_verify : keeps.

Lemma backup_keeps_complete t answer : keeps R (complete t answer).
Proof.
  destruct t; cbn [complete]; [unfold finish_backup, now_, failure_generation|unfold finish_prune, prune_answered, now_|]; keep.
Qed.

Lemma backup_keeps_new_scheduler : keeps R new_scheduler.
Proof. unfold new_scheduler. keep. Qed.

(** The checkpoint is the one write of a tick that is not a transaction of
    the frame. *)
Lemma backup_keeps_tick : (forall now, keeps R (write_meta BACKUP_CHECKPOINT_KEY (i64_text now))) -> keeps R tick.
Proof.
  intros Hm. unfold tick, fire_policy, after_downtime, retries_due, retry_one, note_runner_id, note_run_id, now_,
    consumed_log, failure_generation. keep.
Qed.

End operations.
End frame.

#[export] Hint Resolve backup_keeps_emit backup_keeps_draw keeps_put keeps_claim keeps_put_scheduled keeps_completion
  keeps_save_run keeps_save_verification keeps_publish_run keeps_record_run keeps_record_verification backup_keeps_log
  backup_keeps_report backup_keeps_fresh_id keeps_save_result keeps_get_artifact keeps_put_artifact keeps_note_verified
  keeps_recovery_policy keeps_recover_bound_policy keeps_recovered_line keeps_recover_verification keeps_attempt_of
  keeps_stop_verifying keeps_pruned_artifact keeps_finish_verify backup_keeps_reconcile_manual
  keeps_note_verify_runner_ids : keeps.
#[export] Hint Extern 5 (keeps _ (modify _)) => apply keeps_neutral; intros; by split_and! : keeps.

Import Definitions.

Section facts.
Context {CR : Crypto} {J : Jiff} {JD : JiffDb} {JR : JsonReader} {PB : Prost} {ST : SqliteTime} {HO : Host}
  {BH : BackupHost}.

(** ** Recorded policies *)

(** The policy is what a recorded [backup.policy.set] defines. *)
Definition set_by (db : Db) (policy : PolicyDef) : Prop :=
  exists action, action ∈ admitted_actions db BACKUP_KINDS /\ kind action = "backup.policy.set" /\
    succeeded action = true /\ policy = define_policy action.

Lemma load_set_by db : Forall (fun e => set_by db e.2) (df_policies (load (admitted_actions db BACKUP_KINDS))).
Proof.
  unfold load. assert (forall l defs, (forall a, a ∈ l -> a ∈ admitted_actions db BACKUP_KINDS /\ succeeded a = true) ->
    Forall (fun e => set_by db e.2) (df_policies defs) ->
    Forall (fun e => set_by db e.2) (df_policies (fold_left load_one l defs))) as H.
  { induction l as [|a l IH]; intros defs Hl Hd; [done|]. cbn [fold_left]. apply IH; [intros b Hb; apply Hl; by right|].
    destruct (Hl a) as [Ha Hs]; [by left|]. unfold load_one. destruct defs as [policies dests recipient].
    destruct (String.eqb_spec (kind a) "backup.policy.set"); cbn [df_policies];
      [apply binsert_Forall; [by exists a|done]|].
    repeat (destruct (String.eqb _ _); cbn [df_policies]; [try by apply bremove_Forall|]; try done). }
  apply H; [|constructor]. intros a. unfold select. rewrite list_elem_of_In, filter_In, <- in_rev, <- list_elem_of_In. done.
Qed.

(** ** One backup at a time *)

Definition is_run (t : BackupTask) : bool := match t with RunTask _ _ _ _ => true | _ => false end.
Definition runs_in_flight (w : BackupWorld) : list BackupTask := List.filter is_run (w_tasks w).

Definition task_policy (t : BackupTask) : PolicyDef :=
  match t with RunTask p _ _ _ => p | PruneTask p _ _ => p | VerifyTask p _ _ => p end.

(** The binding names the plan that set the policy and an attempt the runner
    accepts. *)
Definition bound (db : Db) (t : BackupTask) : Prop :=
  set_by db (task_policy t) /\ sr_plan (task_schedule t) = po_plan (task_policy t) /\
  1 <= sr_attempt (task_schedule t) <= (if is_run t then RUN_ATTEMPTS else 1).

Record Inv (w : BackupWorld) : Prop := {
  inv_defs : Forall (fun e => set_by (w_db w) e.2) (df_policies (b_defs (w_state w)));
  inv_queue : Forall (fun p => set_by (w_db w) (pn_policy p)) (b_queue (w_state w));
  inv_retries : Forall (fun p => set_by (w_db w) (pn_policy p)) (b_retries (w_state w));
  inv_tasks : Forall (bound (w_db w)) (w_tasks w);
  inv_slot : runs_in_flight w = [] \/
    exists t, runs_in_flight w = [t] /\ b_server_busy (w_state w) = true /\ is_some (b_running (w_state w)) = true
}.

(** The store, the tasks and the slots are the same. *)
Definition calm (w w' : BackupWorld) : Prop :=
  w_db w' = w_db w /\ w_tasks w' = w_tasks w /\ neutral (w_state w) (w_state w').

#[local] Instance calm_frame : NFrame calm.
Proof.
  unfold calm, neutral. split; [split; [split|..]|..]; try by (intros w; intros; split_and!).
  - intros w1 w2 w3 (?&?&?&?&?&?&?) (?&?&?&?&?&?&?). split_and!; congruence.
  - intros w s (?&?&?&?&?). by split_and!.
Qed.

Lemma calm_inv w w' : calm w w' -> Inv w -> Inv w'.
Proof.
  intros (Hd & Ht & H1 & H2 & H3 & H4 & H5) [I1 I2 I3 I4 I5].
  split; unfold runs_in_flight; rewrite ?Hd, ?Ht, ?H1, ?H2, ?H3, ?H4, ?H5; done.
Qed.

(** What an operation on the store [d] keeps. *)
Definition safe (d : Db) (w w' : BackupWorld) : Prop := w_db w = d -> Inv w -> w_db w' = d /\ Inv w'.

#[local] Instance safe_frame d : NFrame (safe d).
Proof.
  assert (forall w w', calm w w' -> safe d w w') as Hc.
  { intros w w' H Hd Hi. split; [by rewrite (proj1 H)|by eapply calm_inv]. }
  split; [split; [split|..]|..]; try (intros; apply Hc; split_and!; done).
  - by intros w Hd Hi.
  - intros w1 w2 w3 H1 H2 Hd Hi. destruct (H1 Hd Hi). by apply H2.
Qed.

(** Opens an operation down to what [safe] is known to keep. *)
Local Ltac keep_safe d :=
  pose proof (safe_frame d); pose proof (_ : Reader (safe d)); pose proof (_ : PreOrder (safe d)); keep.

Lemma keeps_safe_modify d f : (forall w, w_db w = d -> Inv w -> Inv (set_state (f (w_state w)) w)) ->
  keeps (safe d) (modify f).
Proof. intros Hf w Hd Hi. split; [done|]. by apply Hf. Qed.

Lemma safe_reload d : keeps (safe d) reload.
Proof.
  intros w Hd Hi. destruct (reload w) as [b w2] eqn:He. cbn [snd].
  apply bind_inv in He as (r & w1 & Hs & He).
  pose proof (keeps_eq (R := calm) _ _ _ _ (keeps_store_read _) Hs) as Hc.
  apply store_read_spec in Hs as [Hd1 [->| ->]].
  { apply ret_inv in He as [_ ->]. split; [congruence|by eapply calm_inv]. }
  eapply calm_inv in Hi as [I1 I2 I3 I4 I5]; [|exact Hc]. injection He as _ <-. split; [cbn; congruence|].
  split; try done. cbn. rewrite Hd1. apply load_set_by.
Qed.

Lemma safe_settle d run : keeps (safe d) (settle_run run).
Proof.
  apply keeps_safe_modify. intros w _ [I1 I2 I3 I4 I5]. cbn zeta. destruct (_ && _) eqn:H; split; try done.
  apply andb_true_iff in H as [_ H]. apply negb_true_iff in H. destruct I5 as [|(t & _ & _ & Hr)]; [by left|].
  cbn in *. congruence.
Qed.

Lemma safe_hold d run : keeps (safe d) (hold_run run).
Proof.
  apply keeps_safe_modify. intros w _ [I1 I2 I3 I4 I5]. split; try done. destruct I5 as [|(t & ? & _ & ?)]; [by left|].
  right. by exists t.
Qed.

Lemma safe_recover d : keeps (safe d) recover.
Proof. unfold recover, recover_run, now_, failure_generation. pose proof (safe_settle d). pose proof (safe_hold d). keep_safe d. Qed.


(** *** Starting *)

(** No backup runs; the slot is the caller's. *)
Definition claimed (d : Db) (w : BackupWorld) : Prop := w_db w = d /\ Inv w /\ runs_in_flight w = [].

Lemma claimed_calm d w w' : claimed d w -> calm w w' -> claimed d w'.
Proof.
  intros (Hd & Hi & Hr) Hc. split_and!; [by rewrite (proj1 Hc)|by eapply calm_inv|].
  unfold runs_in_flight. by rewrite (proj1 (proj2 Hc)).
Qed.

Lemma claimed_state d w s : claimed d w -> b_defs s = b_defs (w_state w) ->
  Forall (fun p => set_by d (pn_policy p)) (b_queue s) -> b_retries s = b_retries (w_state w) ->
  claimed d (set_state s w).
Proof.
  intros (Hd & [I1 I2 I3 I4 I5] & Hr) H1 H2 H3. split_and!; [done| |done].
  split; cbn; rewrite ?H1, ?H3, ?Hd in *; try done. by left.
Qed.

Lemma put_back_claimed d pending w : claimed d w -> set_by d (pn_policy pending) ->
  claimed d (put_back pending w).2.
Proof.
  intros Hw Hp. apply claimed_state; try done. constructor; [done|].
  destruct Hw as (<- & Hi & _). apply Hi.
Qed.

Lemma attempt_of_range pending w a w' : attempt_of pending w = (Some a, w') -> 1 <= a <= RUN_ATTEMPTS.
Proof.
  unfold attempt_of. intros (r & w1 & Hc & He)%bind_inv. apply ret_inv in He as [He _].
  apply checked_cases in Hc as [(-> & _)|(e & o & w2 & -> & Hf & _)]; [done|].
  assert (0 <= e) as He0 by (unfold reads in Hf; cbn in Hf; injection Hf as <- _; unfold try_slot_attempts, count, lenl; lia).
  destruct (Z.leb_spec (e + 1) 3); [|done]. injection He as ->. unfold RUN_ATTEMPTS. lia.
Qed.

Lemma launch_inv d pending w : claimed d w -> set_by d (pn_policy pending) -> b_server_busy (w_state w) = true ->
  w_db (launch_backup pending w).2 = d /\ Inv (launch_backup pending w).2.
Proof.
  intros Hw Hp Hb. destruct (launch_backup pending w) as [u w'] eqn:He. cbn [snd]. revert He. unfold launch_backup.
  assert (forall w1 u w', claimed d w1 -> put_back pending w1 = (u, w') -> w_db w' = d /\ Inv w') as Hback.
  { intros w1 u1 w1' H1 H. pose proof (put_back_claimed d pending w1 H1 Hp) as H2. rewrite H in H2. cbn in H2.
    by destruct H2 as (? & ? & _). }
  intros (a & w1 & Ha & He)%bind_inv.
  pose proof (keeps_eq (R := calm) _ _ _ _ (keeps_attempt_of pending) Ha) as C1.
  destruct a as [a|]; [|by eapply Hback, He; eapply claimed_calm]. apply attempt_of_range in Ha.
  apply bind_inv in He as (now & w2 & [= <- <-] & He). apply bind_inv in He as (r & w2 & Hr & He).
  pose proof (keeps_eq (R := calm) _ _ _ _ (keeps_put_scheduled _ _ _) Hr) as C2.
  apply bind_inv in He as (recorded & w3 & Hrec & He).
  assert (calm w2 w3) as C3.
  { destruct r; [exact (keeps_eq (R := calm) _ _ _ _ (keeps_record_run _ _) Hrec)|]. apply ret_inv in Hrec as [_ ->]. done. }
  assert (calm w w3) as C by (etrans; [exact C1|]; etrans; [exact C2|exact C3]). clear C1 C2 C3 Hr Hrec.
  pose proof (claimed_calm _ _ _ Hw C) as Hw3. destruct recorded; cbn [negb] in He; [|by eapply Hback].
  destruct Hw3 as (Hd & [I1 I2 I3 I4 I5] & Hruns). injection He as _ <-. split; [done|].
  assert (b_server_busy (w_state w3) = true) as Hb3 by (destruct C as (_ & _ & _ & _ & _ & H & _); congruence).
  split; try done; cbn.
  - apply Forall_app. split; [done|]. apply Forall_singleton. unfold bound. cbn. rewrite Hd. split_and!; try done; apply Ha.
  - right. unfold runs_in_flight in *. cbn [w_tasks set_tasks set_out set_state]. rewrite List.filter_app, Hruns.
    eexists. by split_and!.
Qed.

Lemma safe_next_round d : keeps (safe d) next_round.
Proof.
  intros w Hd Hi. destruct (next_round w) as [b w'] eqn:He. cbn [snd]. revert He. unfold next_round.
  intros (s & w1 & [= <- <-] & He)%bind_inv. destruct (b_server_busy (w_state w)) eqn:Hb.
  { apply ret_inv in He as [_ ->]. done. }
  destruct (b_queue (w_state w)) as [|pending rest] eqn:Hq; [apply ret_inv in He as [_ ->]; done|].
  assert (claimed d w) as Hw.
  { split_and!; try done. destruct Hi as [_ _ _ _ [|(t & _ & H & _)]]; [done|congruence]. }
  assert (set_by d (pn_policy pending) /\ Forall (fun p => set_by d (pn_policy p)) rest) as [Hp Hrest].
  { destruct Hi as [_ I2 _ _ _]. rewrite Hq, Hd in I2. by inversion I2. }
  apply bind_inv in He as (? & w1 & Hm & He). injection Hm as _ <-.
  match type of He with context [set_state ?s w] => assert (claimed d (set_state s w)) as Hw1;
    [apply claimed_state; done|set (w1 := set_state s w) in *] end.
  assert (b_server_busy (w_state w1) = true) as Hb1 by done. clearbody w1. destruct (negb _).
  2:{ apply bind_inv in He as (? & w2 & Hl & He). apply ret_inv in He as [_ ->].
      pose proof (launch_inv d pending w1 Hw1 Hp Hb1) as H. by rewrite Hl in H. }
  apply bind_inv in He as (now & w2 & [= <- <-] & He). apply bind_inv in He as (rec & w2 & Hr & He).
  pose proof (keeps_eq (R := calm) _ _ _ _ (keeps_record_run _ _) Hr) as C.
  pose proof (claimed_calm _ _ _ Hw1 C) as Hw2. destruct rec; cbn [negb] in He.
  - injection He as _ <-. destruct (claimed_state d w2 (set_busy (b_busy (w_state w2) ∖ {[pn_resource_id pending]})
      (set_server_busy false (w_state w2))) Hw2) as (? & ? & _); try done. destruct Hw2 as (<- & H2 & _). apply H2.
  - apply bind_inv in He as (? & w3 & Hpb & He). apply ret_inv in He as [_ ->].
    pose proof (put_back_claimed d pending w2 Hw2 Hp) as H. rewrite Hpb in H. by destruct H as (? & ? & _).
Qed.

Lemma safe_next_backup d : keeps (safe d) next_backup.
Proof.
  assert (forall fuel, keeps (safe d) (next_loop fuel)) as H.
  { pose proof (safe_next_round d). induction fuel as [|fuel IH]; cbn [next_loop]; keep_safe d. }
  intros w. unfold next_backup. specialize (H (S (length (b_queue (w_state w)))) w). by destruct (next_loop _ w).
Qed.

Lemma safe_push d pending : set_by d (pn_policy pending) ->
  keeps (safe d) (modify (fun s => set_queue (b_queue s ++ [pending]) s)).
Proof.
  intros Hp. apply keeps_safe_modify. intros w Hd [I1 I2 I3 I4 I5]. split; try done. cbn. apply Forall_app.
  split; [done|]. apply Forall_singleton. by rewrite Hd.
Qed.

Lemma safe_retries d retries : Forall (fun p => set_by d (pn_policy p)) retries -> keeps (safe d) (modify (set_retries retries)).
Proof. intros Hr. apply keeps_safe_modify. intros w Hd [I1 I2 I3 I4 I5]. split; try done. cbn. by rewrite Hd. Qed.

Lemma safe_running d x : keeps (safe d) (modify (set_running (Some x))).
Proof.
  apply keeps_safe_modify. intros w _ [I1 I2 I3 I4 I5]. split; try done.
  destruct I5 as [|(t & ? & ? & _)]; [by left|]. right. by exists t.
Qed.

Lemma safe_spawn d t : bound d t -> is_run t = false -> keeps (safe d) (spawn_task t).
Proof.
  intros Hb Ht w Hd [I1 I2 I3 I4 I5]. split; [done|]. split; try done; cbn.
  - apply Forall_app. split; [done|]. apply Forall_singleton. by rewrite Hd.
  - unfold runs_in_flight in *. cbn [w_tasks set_tasks w_state]. rewrite List.filter_app. cbn [List.filter].
    by rewrite Ht, app_nil_r.
Qed.

Lemma safe_start_backup d policy t : set_by d policy -> keeps (safe d) (start_backup policy t).
Proof.
  intros Hp. unfold start_backup, now_. pose proof (safe_next_backup d). pose proof (safe_push d). keep_safe d.
Qed.

Lemma safe_start_verify d policy t : set_by d policy -> keeps (safe d) (start_verify policy t).
Proof. intros Hp. unfold start_verify, now_. keep_safe d. all: apply safe_spawn; [by split_and!|done]. Qed.

Lemma safe_fire_policy d from now downtime policy : set_by d policy ->
  keeps (safe d) (fire_policy from now downtime policy).
Proof.
  intros Hp. unfold fire_policy, after_downtime. pose proof (fun t => safe_start_backup d policy t Hp).
  pose proof (fun t => safe_start_verify d policy t Hp). keep_safe d.
Qed.

Lemma keeps_mfor_Forall {S A} (R : relation S) `{!PreOrder R} (P : A -> Prop) (f : A -> st S unit) l :
  (forall x, P x -> keeps R (f x)) -> Forall P l -> keeps R (mfor f l).
Proof. intros Hf. induction 1; cbn [mfor]; [apply keeps_ret|]. apply keeps_bind; auto. Qed.

Lemma Forall_List_filter {A} (P : A -> Prop) (f : A -> bool) l : Forall P l -> Forall P (List.filter f l).
Proof. induction 1; cbn [List.filter]; [done|]. destruct (f x); [by constructor|done]. Qed.

(** A look at the state, with what the invariant says of it. *)
Lemma safe_gets {A B} d (f : BackupState -> A) (P : A -> Prop) (k : A -> bact B) :
  (forall w, w_db w = d -> Inv w -> P (f (w_state w))) -> (forall a, P a -> keeps (safe d) (k a)) ->
  keeps (safe d) (bind (gets f) k).
Proof. intros Hf Hk w Hd Hi. exact (Hk _ (Hf w Hd Hi) w Hd Hi). Qed.

Lemma safe_retries_due d now : keeps (safe d) (retries_due now).
Proof.
  unfold retries_due. apply (safe_gets _ _ (Forall (fun p => set_by d (pn_policy p)))).
  { intros w <- Hi. apply Hi. }
  intros retries Hr. apply keeps_bind; [apply safe_retries; by apply Forall_List_filter|]. intros _.
  apply keeps_bind; [|intros _; apply safe_next_backup].
  eapply keeps_mfor_Forall; [apply _| |by apply Forall_List_filter]. intros p Hp. unfold retry_one.
  pose proof (safe_push d). keep_safe d.
Qed.

Lemma safe_note_runner_id d : keeps (safe d) note_runner_id.
Proof. unfold note_runner_id, note_run_id, consumed_log. pose proof (safe_running d). keep_safe d. Qed.

Lemma safe_tick d : keeps (safe d) tick.
Proof.
  unfold tick, now_, failure_generation. pose proof (safe_reload d). pose proof (safe_recover d).
  pose proof (safe_retries_due d). pose proof (safe_note_runner_id d).
  assert (forall now, keeps (safe d) (write_meta BACKUP_CHECKPOINT_KEY (i64_text now))) as Hm.
  { intros now w Hd Hi. unfold write_meta, bind, fault. destruct (w_faults w) as [|[] ?]; cbn [snd];
      (split; [done|]); (eapply calm_inv; [|exact Hi]); by split_and!. }
  pose proof (safe_frame d). pose proof (_ : Reader (safe d)). pose proof (_ : PreOrder (safe d)).
  do 2 (apply keeps_bind; [keep|intros ?]). apply keeps_bind; [done|]. intros []; cbn [negb]; [|keep].
  apply keeps_bind; [done|intros _]. apply keeps_bind; [keep|intros ?]. destruct (negb _); [keep|].
  apply keeps_bind; [apply keeps_read_meta|intros stored]. destruct (checkpoint_at _ _); [|keep].
  apply (safe_gets _ _ (fun defs => Forall (fun e => set_by d e.2) (df_policies defs))).
  { intros w <- Hi. apply Hi. }
  intros defs Hdefs. apply keeps_bind; [|intros _; keep].
  eapply keeps_mfor_Forall; [done|apply safe_fire_policy|]. by apply Forall_fmap.
Qed.

(** *** Ending *)

Definition idle (d : Db) (w w' : BackupWorld) : Prop := claimed d w -> claimed d w'.

#[local] Instance idle_frame d : NFrame (idle d).
Proof.
  split; [split; [split|..]|..]; try (intros; intros Hc; eapply claimed_calm; [exact Hc|split_and!; done]).
  - by intros w Hc.
  - intros w1 w2 w3 H1 H2 Hc. auto.
Qed.

(** From a world without a running backup, an operation that may start one. *)
Definition ends (d : Db) {A} (m : bact A) : Prop := forall w, claimed d w -> w_db (m w).2 = d /\ Inv (m w).2.

Lemma ends_bind {A B} d (m : bact A) (k : A -> bact B) :
  keeps (idle d) m -> (forall a, ends d (k a)) -> ends d (bind m k).
Proof. intros Hm Hk w Hw. specialize (Hm w Hw). unfold bind. destruct (m w) as [a w1]. by apply Hk. Qed.

Lemma ends_idle {A} d (m : bact A) : keeps (idle d) m -> ends d m.
Proof. intros Hm w Hw. by destruct (Hm w Hw) as (? & ? & _). Qed.

Lemma ends_safe {A} d (m : bact A) : keeps (safe d) m -> ends d m.
Proof. intros Hm w (? & ? & _). by apply Hm. Qed.

Lemma idle_modify d f : (forall s, Forall (fun p => set_by d (pn_policy p)) (b_queue s) -> Forall (fun p => set_by d (pn_policy p)) (b_retries s) ->
    b_defs (f s) = b_defs s /\ Forall (fun p => set_by d (pn_policy p)) (b_queue (f s)) /\
    Forall (fun p => set_by d (pn_policy p)) (b_retries (f s))) -> keeps (idle d) (modify f).
Proof.
  intros Hf w (Hd & [I1 I2 I3 I4 I5] & Hr). rewrite Hd in *. destruct (Hf (w_state w) I2 I3) as (H1 & H2 & H3).
  split_and!; [done| |done]. split; cbn; rewrite ?H1, ?Hd; try done. by left.
Qed.

Lemma ends_finish_backup d policy pending run attempt result : set_by d policy ->
  ends d (finish_backup policy pending run attempt result).
Proof.
  intros Hp. unfold finish_backup, now_, failure_generation. pose proof (idle_frame d). pose proof (_ : Reader (idle d)).
  pose proof (_ : PreOrder (idle d)).
  do 3 (apply ends_bind; [keep|intros ?]). apply ends_bind; [apply idle_modify; intros; by split_and!|intros _].
  destruct (apply_backup_result _ _) as [[run' retryable] backup_id]. apply ends_bind; [keep|intros ?].
  apply ends_bind; [keep|intros saved]. destruct (negb saved); [apply ends_idle, idle_modify; intros; by split_and!|].
  do 3 (apply ends_bind; [keep|intros ?]). apply ends_bind; [apply idle_modify; intros; by split_and!|intros _].
  apply ends_bind.
  { destruct (_ && _ && _); [|apply idle_modify; intros; by split_and!]. apply keeps_bind; [keep|intros id].
    apply idle_modify. intros s Hq Hr. split_and!; try done. cbn. apply Forall_app. split; [done|]. by apply Forall_singleton. }
  intros _. destruct (_ =? _); (apply ends_bind; [keep|intros _]); [|apply ends_safe, safe_next_backup].
  destruct backup_id; [|apply ends_safe, safe_next_backup]. apply ends_safe, safe_spawn; [by split_and!|done].
Qed.

Lemma safe_finish_prune d policy backup_id answer : keeps (safe d) (finish_prune policy backup_id answer).
Proof. unfold finish_prune, prune_answered, now_. pose proof (safe_next_backup d). keep_safe d. Qed.

Lemma safe_complete d l t l' answer w : w_tasks w = l ++ t :: l' -> w_db w = d -> Inv w ->
  w_db (complete t answer (set_tasks (l ++ l') w)).2 = d /\ Inv (complete t answer (set_tasks (l ++ l') w)).2.
Proof.
  intros Ht Hd [I1 I2 I3 I4 I5]. rewrite Ht in I4. apply Forall_app in I4 as [I4 [Hb I6]%Forall_cons].
  unfold runs_in_flight in I5. rewrite Ht, List.filter_app in I5. cbn [List.filter] in I5.
  assert (Forall (bound (w_db w)) (l ++ l')) as I4' by by apply Forall_app.
  assert (forall x y : list BackupTask, x ++ t :: y = [] -> False) as Hnil by (intros [] ?; done).
  assert (forall u x y, x ++ t :: y = [u] -> x ++ y = ([] : list BackupTask)) as Hone.
  { intros u [|a x] y H; [by injection H|]. injection H as _ H. by apply Hnil in H. }
  destruct t as [policy pending run attempt|policy t backup_id|policy v t]; cbn [complete is_run] in *.
  - apply ends_finish_backup; [rewrite <- Hd; apply Hb|]. split_and!; [done| |].
    + split; try done. left. unfold runs_in_flight. cbn [w_tasks set_tasks]. rewrite List.filter_app.
      destruct I5 as [H|(u & H & _)]; [by apply Hnil in H|by eapply Hone].
    + unfold runs_in_flight. cbn [w_tasks set_tasks]. rewrite List.filter_app.
      destruct I5 as [H|(u & H & _)]; [by apply Hnil in H|by eapply Hone].
  - apply safe_finish_prune; [done|]. split; try done. unfold runs_in_flight. cbn [w_tasks set_tasks]. by rewrite List.filter_app.
  - refine (keeps_finish_verify (R := safe d) policy v t answer (set_tasks (l ++ l') w) Hd _). split; try done. unfold runs_in_flight. cbn [w_tasks set_tasks].
    by rewrite List.filter_app.
Qed.

Lemma safe_new_scheduler d w : w_db w = d -> w_tasks w = [] -> w_db (new_scheduler w).2 = d /\ Inv (new_scheduler w).2.
Proof.
  intros Hd Ht. unfold new_scheduler, bind, modify. set (w1 := set_state _ w).
  assert (Inv w1) as Hi.
  { split; unfold runs_in_flight; cbn; rewrite ?Ht; by constructor. }
  pose proof (safe_reload d w1 Hd Hi) as H. destruct (reload w1) as [b w2]. cbn [snd] in H. exact (safe_recover d w2 (proj1 H) (proj2 H)).
Qed.

End facts.
