(* ===== verification/BackupTheorems.v ===== *)
(** * What the backup scheduler promises

    Worlds reached from a start of the scheduler by its operations, ends of
    its tasks, restarts, other users of the stores and the passing of time:
    one backup at a time, bound to recorded policies; a fire time starts at
    most once; a free slot is used; pruning spares what it must not touch. *)

From S2P Require Import Prelude RustStr BTree PlanCode Json Jcs JsonRead Calendar Text Crypto.
From S2P Require Import Trust Verify Samples CronExpr Store DefinitionStore AdmissionStore.
From S2P Require Import Queries Proto OpsStore OpsFacts Wire Effects Runner CronJobs Sched.
From S2P Require Import CronSched CronSamples BackupDefs BackupSched BackupFacts.


Import Definitions.

Section theorems.
Context {CR : Crypto} {J : Jiff} {JD : JiffDb} {JR : JsonReader} {PB : Prost} {ST : SqliteTime} {HO : Host}
  {BH : BackupHost}.

(** A policy recorded once stays recorded in the admission store. *)
Inductive backup_step (w : BackupWorld) : BackupWorld -> Prop :=
| bs_tick : backup_step w (tick w).2
| bs_complete l t l' answer : w_tasks w = l ++ t :: l' ->
    backup_step w (complete t answer (set_tasks (l ++ l') w)).2
| bs_restart : backup_step w (new_scheduler (set_tasks [] (set_ops (open_ops (w_ops w)) w))).2
| bs_ops o : ops_step (w_ops w) o -> backup_step w (set_ops o w)
| bs_env db log now faults : (forall policy, set_by (w_db w) policy -> set_by db policy) ->
    backup_step w {| w_state := w_state w; w_ops := w_ops w; w_failures := w_failures w; w_db := db; w_log := log;
                     w_now := now; w_faults := faults; w_draws := w_draws w; w_tasks := w_tasks w; w_out := w_out w |}.

Lemma backup_step_inv w w' : backup_step w w' -> Inv w -> Inv w'.
Proof.
  intros [|l t l' answer Ht| |o Ho|db lg now faults Hdb] Hi.
  - by apply (safe_tick (w_db w)).
  - by apply (safe_complete (w_db w)).
  - by apply (safe_new_scheduler (w_db w)).
  - destruct Hi as [I1 I2 I3 I4 I5]. by split.
  - destruct Hi as [I1 I2 I3 I4 I5].
    split; cbn; [eapply Forall_impl; [exact I1|]|eapply Forall_impl; [exact I2|]|eapply Forall_impl; [exact I3|]
      |eapply Forall_impl; [exact I4|]|exact I5]; try (intros; by apply Hdb).
    intros t (? & ? & ?). split; [by apply Hdb|]. by split.
Qed.


(** ** Fire times *)

Section fire_times.
Context {SL : SqliteTimeLaws}.

#[local] Instance keeps_taken_frame : Frame keeps_taken.
Proof.
  assert (forall w w' : BackupWorld, w_ops w' = w_ops w -> keeps_taken w w') as Hs.
  { intros w w' Hw k s sl t Ht Htk. by rewrite Hw. }
  split; [split; [split; [split|..]|..]|..]; try (intros; by apply Hs).
  - intros w. by apply Hs.
  - intros w1 w2 w3 H1 H2 k s sl t Ht Htk. eapply H2, H1; eauto.
  - intros w o. apply ops_step_taken.
Qed.

Lemma backup_step_taken w w' : backup_step w w' -> keeps_taken w w'.
Proof.
  intros [|l t l' answer Ht| |o Ho|db lg now faults Hdb]; try (intros k s sl tt Htt Htk; exact Htk).
  - apply backup_keeps_tick. intros now. by apply write_meta_taken.
  - intros k s sl tt Htt Htk. refine (backup_keeps_complete (R := keeps_taken) t answer _ k s sl tt Htt _). exact Htk.
  - intros k s sl tt Htt Htk. refine (backup_keeps_new_scheduler (R := keeps_taken) _ k s sl tt Htt _).
    eapply step_taken; [exact Htt|apply ops_reopen|exact Htk].
  - by apply ops_step_taken.
Qed.

(** The scheduler's data, ops.db and the tasks are the same. *)
Definition unmoved (w w' : BackupWorld) : Prop :=
  w_state w' = w_state w /\ w_ops w' = w_ops w /\ w_tasks w' = w_tasks w.

Lemma quiet_unmoved w w' : quiet w w' -> unmoved w w'.
Proof. intros (?&?&?&?). by split_and!. Qed.

#[local] Existing Instance quiet_reader.

Lemma busy_restored (s : BackupState) id : id ∉ b_busy s ->
  set_busy (b_busy (set_busy ({[id]} ∪ b_busy s) s) ∖ {[id]}) (set_busy ({[id]} ∪ b_busy s) s) = s.
Proof.
  intros Hid. destruct s; cbn in *. unfold set_busy. cbn. f_equal. apply set_eq. intros x.
  rewrite elem_of_difference, elem_of_union, elem_of_singleton. split; [naive_solver|]. intros Hx. split; [by right|].
  intros ->. done.
Qed.

Lemma start_backup_cases policy t w : timestamp (rfc t) = Some t ->
  unmoved w (start_backup policy t w).2 \/
  (~ taken (w_ops w) KBackupRun (po_resource_id policy) (rfc t) /\
   taken (w_ops (start_backup policy t w).2) KBackupRun (po_resource_id policy) (rfc t)).
Proof.
  intros Ht. destruct (start_backup policy t w) as [u w'] eqn:He. cbn [snd]. revert He. unfold start_backup.
  intros (b & w1 & Hs & He)%bind_inv.
  pose proof (keeps_eq (R := quiet) _ _ _ _ (keeps_has_slot _ _ _) Hs) as (Q1 & Q2 & Q3 & Q4).
  destruct b; [apply ret_inv in He as [_ ->]; left; by split_and!|].
  apply bind_inv in He as (now & w2 & [= <- <-] & He). apply bind_inv in He as (s & w2 & [= <- <-] & He).
  case_bool_decide as Hb; [injection He as _ <-; left; by split_and!|].
  apply bind_inv in He as (? & w2 & Hm & He). injection Hm as _ <-.
  apply bind_inv in He as (id & w2 & Hf & He). injection Hf as _ <-.
  apply bind_inv in He as (r & w3 & Hc & He).
  apply checked_cases in Hc as [(-> & (Q5 & Q6 & Q7 & Q8) & _)|(won & o & w4 & -> & Hf & (Q5 & Q6 & Q7 & Q8) & _ & ->)].
  { injection He as _ <-. left. cbn in Q6, Q7. split_and!; [|cbn; congruence..].
    cbn [w_state set_state set_ops]. rewrite Q5. cbn [w_state set_state set_draws]. rewrite busy_restored; done. }
  apply claim_inner_cases in Hf as [[-> Hs2]|(-> & Hnt & _ & Hcl)].
  { injection He as _ <-. left. cbn in Hs2, Q6, Q7. split_and!; [|cbn; congruence..].
    cbn [w_state set_state set_ops]. rewrite Q5. cbn [w_state set_state set_draws]. rewrite busy_restored; done. }
  right. cbn in Hnt. rewrite Q2 in Hnt. split; [exact Hnt|]. apply (f_equal snd) in He. cbn [snd] in He. rewrite <- He.
  match goal with |- context [bind ?m ?k (set_ops o w4)] =>
    assert (keeps keeps_taken (bind m k)) as Hk end.
  { apply keeps_bind; [apply backup_keeps_modify|intros _]. apply keeps_bind; [apply keeps_record_run|intros _].
    apply keeps_next_backup. }
  eapply Hk; [exact Ht|]. left. cbn [w_ops set_ops]. rewrite Hcl, existsb_app. cbn [existsb]. unfold is_slot, same_kind.
  cbn [sl_kind sl_subject sl_slot en_subject en_slot backup_run_entry br_policy_id new_backup].
  by rewrite bool_decide_true, !String.eqb_refl, orb_true_r.
Qed.

(** A fire time of a policy starts at most one chain: when starting it had
    any effect on the scheduler, ops.db or the tasks, then after any further
    steps starting the same fire time again has none. *)
Theorem backup_fire_time_once policy t w policy' w2 :
  timestamp (rfc t) = Some t -> po_resource_id policy' = po_resource_id policy ->
  ~ unmoved w (start_backup policy t w).2 -> rtc backup_step (start_backup policy t w).2 w2 ->
  unmoved w2 (start_backup policy' t w2).2.
Proof.
  intros Ht Hid Hnq Hr. destruct (start_backup_cases policy t w Ht) as [?|[_ Htk]]; [done|].
  assert (taken (w_ops w2) KBackupRun (po_resource_id policy) (rfc t)) as Htk2.
  { clear Hnq. induction Hr as [|a b c Hs _ IH]; [done|]. eapply IH, backup_step_taken; eauto. }
  destruct (start_backup_cases policy' t w2 Ht) as [?|[Hn _]]; [done|]. by rewrite Hid in Hn.
Qed.

End fire_times.

(** ** Progress *)

(** The first waiting backup has three recorded attempts before it. *)
Definition exhausted (w : BackupWorld) : Prop :=
  exists pending rest, b_queue (w_state w) = pending :: rest /\
    RUN_ATTEMPTS <= try_slot_attempts (w_ops w) KBackupRun (pn_resource_id pending) (rfc (pn_scheduled_for pending))
                      (br_id (pn_run pending)).

(** The slot is used, nobody waits, a store call failed, or the first in the
    queue may not be attempted again. *)
Definition progressed (w w' : BackupWorld) : Prop :=
  b_server_busy (w_state w') = true \/ b_queue (w_state w') = [] \/ w_failures w < w_failures w' \/ exhausted w'.

Definition failures_grow (w w' : BackupWorld) : Prop :=
  w_failures w <= w_failures w' /\ b_server_busy (w_state w') = b_server_busy (w_state w) /\
  b_queue (w_state w') = b_queue (w_state w).

#[local] Instance failures_grow_frame : NFrame failures_grow.
Proof.
  unfold failures_grow. split; [split; [split|..]|..]; try (intros; cbn; split_and!; [lia|done..]).
  - intros w. split_and!; [lia|done..].
  - intros w1 w2 w3 (?&?&?) (?&?&?). split_and!; [lia|congruence..].
  - intros w s (_&?&_&?&_). by split_and!.
Qed.

Lemma record_run_failed run slot w w' : record_run run slot w = (false, w') ->
  w_failures w < w_failures w' /\ w_ops w' = w_ops w.
Proof.
  unfold record_run. intros (b & w1 & Hs & He)%bind_inv. unfold save_run in Hs.
  apply bind_inv in Hs as (now & w2 & [= <- <-] & Hs). apply bind_inv in Hs as (r & w3 & Hc & Hs).
  apply ret_inv in Hs as [-> ->]. apply checked_cases in Hc as [(-> & (_&Ho&_&_) & Hf)|(a & o & w4 & -> & _)]; cbn in He.
  - apply ret_inv in He as [_ ->]. split; [lia|done].
  - apply ret_inv in He as [? _]. done.
Qed.

Lemma launch_progress pending w : b_server_busy (w_state w) = true ->
  w_failures w <= w_failures (launch_backup pending w).2 /\ progressed w (launch_backup pending w).2.
Proof.
  intros Hb. destruct (launch_backup pending w) as [u w'] eqn:He. cbn [snd]. revert He. unfold launch_backup.
  intros (a & w1 & Ha & He)%bind_inv. pose proof (keeps_eq (R := failures_grow) _ _ _ _ (keeps_attempt_of pending) Ha) as (F1 & B1 & _).
  destruct a as [a|].
  2:{ injection He as _ <-. split; [exact F1|]. unfold attempt_of in Ha. apply bind_inv in Ha as (e & w2 & Hc & Hr).
      apply ret_inv in Hr as [Hr ->]. apply checked_cases in Hc as [(-> & _ & Hf)|(n & o & w3 & -> & Hf & _ & _ & ->)].
      { right. right. left. cbn. lia. }
      right. right. right. unfold reads in Hf. cbn [obind] in Hf. injection Hf as Hn Ho.
      destruct (Z.leb_spec (n + 1) 3); [done|]. eexists _, _. split; [done|]. unfold RUN_ATTEMPTS.
      cbn [put_back modify snd set_state w_ops set_ops]. rewrite <- Ho, Hn. lia. }
  apply bind_inv in He as (now & w2 & [= <- <-] & He). apply bind_inv in He as (r & w2 & Hr & He).
  pose proof (keeps_eq (R := failures_grow) _ _ _ _ (keeps_put_scheduled _ _ _) Hr) as (F2 & B2 & _).
  apply bind_inv in He as (rec & w3 & Hrec & He). destruct rec.
  - assert (w_failures w2 <= w_failures w3 /\ b_server_busy (w_state w3) = b_server_busy (w_state w2)) as [F3 B3].
    { destruct r; [|by apply ret_inv in Hrec as [? _]].
      by destruct (keeps_eq (R := failures_grow) _ _ _ _ (keeps_record_run _ _) Hrec) as (? & ? & _). }
    injection He as _ <-. split; [cbn; lia|]. left. cbn. congruence.
  - injection He as _ <-. split; [|right; right; left]; cbn.
    all: destruct r; [apply record_run_failed in Hrec; lia|]; apply ret_inv in Hrec as [_ ->];
      apply checked_cases in Hr as [(_ & _ & Hf)|(? & ? & ? & ? & _)]; [lia|done].
Qed.

Lemma next_round_cases w b w' : next_round w = (b, w') -> w_failures w <= w_failures w' /\
  if b then (length (b_queue (w_state w')) < length (b_queue (w_state w)))%nat else progressed w w'.
Proof.
  unfold next_round. intros (s & w1 & [= <- <-] & He)%bind_inv. destruct (b_server_busy (w_state w)) eqn:Hb.
  { apply ret_inv in He as [-> ->]. split; [lia|by left]. }
  destruct (b_queue (w_state w)) as [|pending rest] eqn:Hq.
  { apply ret_inv in He as [-> ->]. split; [lia|right; by left]. }
  apply bind_inv in He as (? & w1 & Hm & He). injection Hm as _ <-.
  match type of He with context [set_state ?s w] => set (w1 := set_state s w) in * end.
  assert (b_server_busy (w_state w1) = true /\ b_queue (w_state w1) = rest /\ w_failures w1 = w_failures w) as (Hb1 & Hq1 & Hw1) by done.
  clearbody w1. destruct (negb _).
  - apply bind_inv in He as (now & w2 & [= <- <-] & He). apply bind_inv in He as (rec & w2 & Hr & He).
    pose proof (keeps_eq (R := failures_grow) _ _ _ _ (keeps_record_run _ _) Hr) as (F & B & Q). destruct rec; cbn [negb] in He.
    + injection He as <- <-. split; [cbn; lia|]. cbn. rewrite Q, Hq1. lia.
    + apply record_run_failed in Hr as [Hf _]. injection He as <- <-. split; [cbn; lia|]. right. right. left. cbn. lia.
  - apply bind_inv in He as (? & w2 & Hl & He). apply ret_inv in He as [-> ->].
    pose proof (launch_progress pending w1 Hb1) as H. rewrite Hl in H. unfold progressed in *. rewrite Hw1 in H. done.
Qed.

Lemma next_loop_progress fuel : forall w, (length (b_queue (w_state w)) < fuel)%nat ->
  (next_loop fuel w).1 = true /\ progressed w (next_loop fuel w).2.
Proof.
  induction fuel as [|fuel IH]; intros w Hf; [lia|]. cbn [next_loop]. unfold bind.
  destruct (next_round w) as [b w1] eqn:He. apply next_round_cases in He as [Hg Hc]. destruct b; [|done].
  destruct (IH w1) as [H1 H2]; [lia|]. split; [done|]. unfold progressed in *. intuition lia.
Qed.

(** A waiting backup starts as soon as the server slot is free: [next_backup]
    returns, and after it the slot is used, nobody waits, one of its store
    calls failed, or the first in the queue has used its three attempts. *)
Theorem waiting_backup_starts w :
  (next_loop (S (length (b_queue (w_state w)))) w).1 = true /\ progressed w (next_backup w).2.
Proof.
  destruct (next_loop_progress (S (length (b_queue (w_state w)))) w) as [H1 H2]; [lia|].
  split; [exact H1|]. unfold next_backup. by destruct (next_loop _ w).
Qed.

End theorems.

(** * What a backup leaves in ops.db

    A succeeded backup is recorded together with its artifact or not at all;
    pruning marks only what the runner deleted, never the new backup nor
    another policy's artifact; a verification passes exactly on an answer
    that says so. *)

Import Definitions.

Section records.
Context {CR : Crypto} {J : Jiff} {JD : JiffDb} {JR : JsonReader} {PB : Prost} {ST : SqliteTime} {HO : Host}
  {BH : BackupHost}.

(** ** Completion *)

(** The records a completed backup has: its run, succeeded, and its artifact. *)
Definition completed (o : Ops) (policy : PolicyDef) (run : BackupRun) (backup_id digest : string) : Prop :=
  exists row a, record_of o KBackupRun (br_id run) = Some row /\ or_status row = BackupRunStatus.Succeeded /\
    option_map or_body (record_of o KArtifact backup_id) = Some (encode_to_vec artifact a) /\
    ba_id a = backup_id /\ ba_policy_id a = po_resource_id policy /\ ba_run_id a = br_id run /\
    ba_content_digest_hex a = digest.

Lemma put_backup_completion_records o run slot a o' : put_backup_completion o run slot a = Ok o' ->
  (exists seq, record_of o' KBackupRun (br_id run) = Some (row_of_entry KBackupRun (backup_entry run slot) seq)) /\
  option_map or_body (record_of o' KArtifact (ba_id a)) = Some (encode_to_vec artifact a).
Proof.
  unfold put_backup_completion. intros Hw. inv_ok Hw. destruct x as [s1 o1], x0 as [s2 o2]. simplify_eq/=.
  pose proof (fun k id => write_record_of _ _ _ _ _ k id Hx) as H1.
  pose proof (fun k id => write_record_of _ _ _ _ _ k id Hx0) as H2. split.
  - exists s1. rewrite H2. cbn [same_kind]. rewrite H1. cbn [en_id backup_entry]. by rewrite String.eqb_refl.
  - rewrite H2. cbn [en_id artifact_entry]. by rewrite String.eqb_refl.
Qed.

Lemma make_artifact_spec policy run backup_id now w a w' : make_artifact policy run backup_id now w = (a, w') ->
  ba_id a = backup_id /\ ba_policy_id a = po_resource_id policy /\ ba_run_id a = br_id run /\
  ba_content_digest_hex a = br_content_digest_hex run /\ w_ops w' = w_ops w /\ w_tasks w' = w_tasks w /\
  w_state w' = w_state w.
Proof.
  unfold make_artifact. intros (s & w1 & [= <- <-] & He)%bind_inv. apply bind_inv in He as (l & w1 & Hl & He).
  apply ret_inv in He as [-> ->]. cbn. split_and!; try done; destruct (bget _ _); by injection Hl as _ <-.
Qed.

Lemma apply_succeeded run answer backup_id :
  default "succeeded" (as_str answer.["outcome"]) = "succeeded" -> as_str answer.["backup_id"] = Some backup_id ->
  uuid7 backup_id = true ->
  exists run', apply_backup_result run (inr answer) = (run', false, Some backup_id) /\ br_id run' = br_id run /\
    br_status run' = BackupRunStatus.Succeeded /\ br_artifact_id run' = backup_id /\
    br_content_digest_hex run' = str_or_default answer.["backup_digest_hex"].
Proof.
  intros Ho Hid Hu. unfold apply_backup_result. rewrite Ho. assert (str_or_default answer.["backup_id"] = backup_id) as ->.
  { unfold str_or_default. by rewrite Hid. }
  rewrite Hu. eexists. split; [reflexivity|]. split_and!; try done. by destruct (runner_run_id_of answer).
Qed.

Lemma save_result_cases policy run slot now w b w' :
  br_status run = BackupRunStatus.Succeeded -> uuid7 (br_artifact_id run) = true ->
  save_result policy run slot now w = (b, w') ->
  w_tasks w' = w_tasks w /\
  if b then completed (w_ops w') policy run (br_artifact_id run) (br_content_digest_hex run) else w_ops w' = w_ops w.
Proof.
  intros Hs Hu. unfold save_result. rewrite Hs, Hu. cbn [negb orb Z.eqb Pos.eqb BackupRunStatus.Succeeded].
  intros (a & w1 & Ha & He)%bind_inv. apply make_artifact_spec in Ha as (Hid & Hp & Hr & Hd & Ho & Ht & _).
  apply bind_inv in He as (r & w2 & Hc & He). apply ret_inv in He as [-> ->].
  apply checked_cases in Hc as [(-> & (_ & Q2 & Q3 & _) & _)|(v & o & w3 & -> & Hf & (_ & _ & Q3 & _) & _ & ->)].
  { split; [congruence|]. cbn. congruence. }
  split; [cbn; congruence|]. cbn [is_some w_ops set_ops]. unfold writes in Hf. inv_ok Hf. simplify_eq.
  apply put_backup_completion_records in Hx as [[seq Hrow] Hart]. rewrite Hid in Hart. eexists _, a. by split_and!.
Qed.

(** When the runner reports a succeeded backup with an id, either the run and
    its artifact are both recorded, with the digest the runner reported, and
    the runner is asked to prune; or nothing is recorded, nothing is asked,
    and the run is kept for recovery. *)
Theorem backup_completion_atomic policy pending run attempt answer backup_id w :
  default "succeeded" (as_str answer.["outcome"]) = "succeeded" -> as_str answer.["backup_id"] = Some backup_id ->
  uuid7 backup_id = true ->
  let w' := (finish_backup policy pending run attempt (inr answer) w).2 in
  (completed (w_ops w') policy run backup_id (str_or_default answer.["backup_digest_hex"]) /\
   w_tasks w' = w_tasks w ++ [PruneTask policy (pn_scheduled_for pending) backup_id]) \/
  (w_ops w' = w_ops w /\ w_tasks w' = w_tasks w /\ br_id run ∈ b_recovering (w_state w')).
Proof.
  intros Ho Hid Hu. cbn zeta. destruct (finish_backup _ _ _ _ _ w) as [u w'] eqn:He. cbn [snd]. revert He.
  unfold finish_backup. intros (now & w1 & [= <- <-] & He)%bind_inv. apply bind_inv in He as (before & w1 & [= <- <-] & He).
  apply bind_inv in He as (s & w1 & [= <- <-] & He). apply bind_inv in He as (? & w1 & Hm & He). injection Hm as _ <-.
  match type of He with context [apply_backup_result ?r ?a] => remember r as run1 eqn:Hrun1 end.
  assert (br_id run1 = br_id run) as Hr1.
  { rewrite Hrun1. destruct (b_running (w_state w)) as [[[[learned ?] ?] ?]|]; [|done]. by destruct (_ && _). }
  clear Hrun1. destruct (apply_succeeded run1 answer backup_id Ho Hid Hu) as (run2 & Ha & Hr2 & Hst & Hart & Hdig).
  rewrite Ha in He. cbn zeta in He. apply bind_inv in He as (g & w1 & [= <- <-] & He).
  apply bind_inv in He as (saved & w1 & Hs & He). cbn [w_failures set_state] in Hs. rewrite Z.eqb_refl in Hs. cbn [negb] in Hs.
  apply save_result_cases in Hs as [Ht Hs]; [|done|by cbn; rewrite Hart]. destruct saved; cbn [negb] in He.
  2:{ injection He as _ <-. right. split_and!; [exact Hs|exact Ht|]. cbn. rewrite Hr2, Hr1. set_solver. }
  left. cbn in Hs, Ht. unfold completed in *. cbn in Hs. rewrite Hart, Hdig, Hr2, Hr1 in Hs.
  do 3 (apply bind_inv in He as (? & ? & [= _ <-] & He)). apply bind_inv in He as (? & ? & [= _ <-] & He).
  cbn [andb] in He. do 1 (apply bind_inv in He as (? & ? & [= _ <-] & He)).
  cbn [br_status backup_finished backup_of_status] in He. rewrite Hst in He. cbn in He. injection He as _ <-.
  cbn. by rewrite Ht.
Qed.

(** ** Pruning *)

Context {PL : ProstLaws}.

(** Every artifact is stored under its own id. *)
Definition own_ids (o : Ops) : Prop :=
  forall id row a, record_of o KArtifact id = Some row -> decode artifact (or_body row) = Some a -> ba_id a = id.

Definition own_id (r : OpsRow) : bool :=
  negb (same_kind (or_kind r) KArtifact)
  || match decode artifact (or_body r) with Some a => String.eqb (ba_id a) (or_id r) | None => true end.

Lemma own_ids_check o : forallb own_id (o_records o) = true -> own_ids o.
Proof.
  intros H id row a Hr Hd. apply find_first_Some in Hr as [Hin [Hk Hid]%is_record_true].
  rewrite forallb_forall in H. apply list_elem_of_In, H in Hin. unfold own_id in Hin. rewrite Hk, Hd in Hin.
  cbn in Hin. apply String.eqb_eq in Hin. congruence.
Qed.

Definition foreign (o : Ops) (policy : PolicyDef) (id : string) : Prop :=
  exists row a, record_of o KArtifact id = Some row /\ decode artifact (or_body row) = Some a /\
    ba_policy_id a <> po_resource_id policy.

Lemma get_artifact_spec id w a w' : get_artifact id w = (a, w') -> w_ops w' = w_ops w /\
  forall x, a = Some x -> exists row, record_of (w_ops w) KArtifact id = Some row /\ decode artifact (or_body row) = Some x.
Proof.
  unfold get_artifact. intros (r & w1 & Hc & He)%bind_inv. apply ret_inv in He as [-> ->].
  apply checked_cases in Hc as [(-> & Q & _)|(v & o & w2 & -> & Hf & _ & _ & ->)]; [split; [apply Q|done]|].
  unfold reads in Hf. inv_ok Hf. simplify_eq. split; [done|]. intros y Hy. unfold try_get in Hx. fold (record_of (w_ops w) KArtifact id) in Hx.
  destruct (record_of (w_ops w) KArtifact id) as [row|]; [|by simplify_eq]. inv_ok Hx. simplify_eq. by exists row.
Qed.

Lemma put_artifact_spec a w k id : own_ids (w_ops w) ->
  own_ids (w_ops (put_artifact a w).2) /\
  (k <> KArtifact \/ ba_id a <> id -> record_of (w_ops (put_artifact a w).2) k id = record_of (w_ops w) k id).
Proof.
  intros Hown. destruct (put_artifact a w) as [u w'] eqn:He. cbn [snd]. revert He. unfold put_artifact.
  intros (r & w1 & Hc & He)%bind_inv. apply ret_inv in He as [_ ->].
  apply checked_cases in Hc as [(_ & (_ & -> & _ & _) & _)|(v & o & w2 & _ & Hf & _ & _ & ->)]; [done|].
  cbn [w_ops set_ops]. pose proof (fun k id => write_record_of _ _ _ _ _ k id Hf) as Hw. split.
  - intros i row x. rewrite Hw. cbn [en_id artifact_entry]. destruct (_ && _) eqn:Hk; [|apply Hown].
    intros [= <-]. cbn [or_body row_of_entry en_body artifact_entry]. rewrite artifact_round. intros [= <-].
    apply andb_true_iff in Hk as [_ Hk]. by apply String.eqb_eq.
  - intros Hne. rewrite Hw. cbn [en_id artifact_entry]. unfold same_kind.
    destruct (String.eqb_spec (ba_id a) id), (bool_decide_reflect (KArtifact = k)); naive_solver.
Qed.

Lemma pruned_artifact_spares policy now id' w k id : own_ids (w_ops w) ->
  (k <> KArtifact \/ id' <> id \/ foreign (w_ops w) policy id) ->
  own_ids (w_ops (pruned_artifact policy now id' w).2) /\
  record_of (w_ops (pruned_artifact policy now id' w).2) k id = record_of (w_ops w) k id.
Proof.
  intros Hown Hs. destruct (pruned_artifact policy now id' w) as [u w'] eqn:He. cbn [snd]. revert He. unfold pruned_artifact.
  intros (a & w1 & Hg & He)%bind_inv. apply get_artifact_spec in Hg as [Hw Ha].
  destruct a as [a|]; [|apply ret_inv in He as [_ ->]; by rewrite Hw].
  destruct (Ha a eq_refl) as (row & Hrow & Hdec). destruct (String.eqb_spec (ba_policy_id a) (po_resource_id policy)) as [Hp|];
    [|apply ret_inv in He as [_ ->]; by rewrite Hw].
  pose proof (Hown _ _ _ Hrow Hdec) as Hid. rewrite <- Hw in Hown.
  destruct (put_artifact_spec (with_expires a now) w1 k id Hown) as [H1 H2]. rewrite He in H1, H2. cbn [snd] in H1, H2.
  split; [done|]. rewrite H2, Hw; [done|]. cbn [ba_id with_expires]. rewrite Hid.
  destruct Hs as [|[|(row' & a' & Hr' & Hd' & Hf)]]; [by left|by right|right]. intros ->. congruence.
Qed.

Lemma prune_loop_spares policy now k id l : forall w, own_ids (w_ops w) ->
  (k <> KArtifact \/ Forall (fun id' => id' <> id) l \/ foreign (w_ops w) policy id) ->
  record_of (w_ops (mfor (pruned_artifact policy now) l w).2) k id = record_of (w_ops w) k id.
Proof.
  induction l as [|id' l IH]; intros w Hown Hs; [done|]. cbn [mfor]. unfold bind.
  assert (k <> KArtifact \/ id' <> id \/ foreign (w_ops w) policy id) as Hs1.
  { destruct Hs as [|[H|]]; [by left|right; left; by inversion H|by right; right]. }
  destruct (pruned_artifact_spares policy now id' w k id Hown Hs1) as [Hown1 Hrec].
  assert (foreign (w_ops w) policy id -> foreign (w_ops (pruned_artifact policy now id' w).2) policy id) as Hfor.
  { intros Hf. destruct (pruned_artifact_spares policy now id' w KArtifact id Hown) as [_ Hr]; [by right; right|].
    destruct Hf as (row & a & ? & ? & ?). exists row, a. by rewrite Hr. }
  destruct (pruned_artifact policy now id' w) as [u w1]. cbn [snd] in *. rewrite IH; [done|done|].
  destruct Hs as [|[H|]]; [by left|right; left; by inversion H|right; right; by apply Hfor].
Qed.

(** After the runner's answer to [backup_prune], every record but an artifact
    is as before, and so is every artifact the runner does not name, the new
    backup even if it is named, and every artifact of another policy. *)
Theorem prune_spares policy backup_id answer w k id :
  own_ids (w_ops w) ->
  (k <> KArtifact \/ ~ id ∈ deleted_ids answer backup_id \/ id = backup_id \/ foreign (w_ops w) policy id) ->
  record_of (w_ops (prune_answered policy backup_id (inr answer) w).2) k id = record_of (w_ops w) k id.
Proof.
  intros Hown Hs. unfold prune_answered, bind at 1. cbn [now_ asks fst snd]. unfold bind.
  pose proof (prune_loop_spares policy (w_now w) k id (deleted_ids answer backup_id) w Hown) as H.
  destruct (mfor _ _ w) as [u w1]. cbn [snd log emit set_out w_ops] in *. apply H.
  destruct Hs as [|[Hn|[->|]]]; [by left|right; left|right; left|by right; right].
  - apply Forall_forall. intros x Hx ->. done.
  - unfold deleted_ids. destruct (as_array _); [|constructor]. apply Forall_forall. intros x.
    rewrite list_elem_of_In, filter_In. intros [_ Hx] ->. by rewrite String.eqb_refl in Hx.
Qed.

End records.

(** * Backups at work

    Two databases of one project with a backup policy each, both at every
    tenth minute: the second waits for the first.  The witnesses of the
    backup theorems evaluate this world, and so does the theorem about a
    waiting backup and a restart. *)

Import Definitions.

#[local] Existing Instance toy_crypto.
#[local] Existing Instance canonical_reader.
#[local] Existing Instance wire.
#[local] Existing Instance plain_time.
#[local] Existing Instance day_jiff.
#[local] Existing Instance utc_only.
#[local] Existing Instance counting_host.

Definition one_server : BackupHost := {| server_recipient := "age1server" |}.
#[local] Existing Instance one_server.

Definition database_a : string := "01a0cdb5-3500-70c1-8000-00000000000a".
Definition database_b : string := "01a0cdb5-3500-70c1-8000-00000000000b".

Definition policy_action_of (resource : string) : Value :=
  obj [("kind", str "backup.policy.set"); ("params", obj
    [ ("resource_id", str resource); ("schedule", str "*/10 * * * *"); ("timezone", str "UTC");
      ("keep_daily", nat_value 7); ("keep_weekly", nat_value 4); ("keep_monthly", nat_value 6);
      ("verify_schedule", str "0 3 * * *"); ("destination_ref", str "store"); ("channel_ids", VArray []) ])].

Definition backup_envelope : string :=
  default "" (canonicalize (obj [("plan", obj [("actions", VArray [policy_action_of database_a; policy_action_of database_b])])])).

Definition backup_admission : AdmissionRow :=
  {| ad_plan_id := plan_a; ad_plan_digest_hex := hex_a; ad_signed_plan_json := backup_envelope; ad_submitter := "client";
     ad_operation_id := plan_a; ad_admitted_at := "2026-01-01T00:00:00Z"; ad_finished_at := Some "2026-01-01T00:00:00Z";
     ad_outcome := "succeeded"; ad_admission_seq := 1; ad_nonce := ""; ad_author_kind := "user";
     ad_signer_key_ids := []; ad_action_kinds := ["backup.policy.set"]; ad_project_id := project_a;
     ad_environment := "production"; ad_head_before_hex := ""; ad_head_after_hex := ""; ad_rule_id := None;
     ad_delivery_id := None; ad_expires_at := "2026-01-01T00:10:00Z"; ad_environment_id := env_id_a |}.

Definition backup_action (index : Z) : ActionRow :=
  {| ac_plan_id := plan_a; ac_action_index := index; ac_kind := "backup.policy.set"; ac_consumed_at := None;
     ac_finished_at := Some "2026-01-01T00:00:00Z"; ac_outcome := "succeeded"; ac_consumed_seq := None;
     ac_result_seq := None; ac_deployment_id := None |}.

Definition backup_db : Db :=
  with_actions (with_admissions (empty_db 0 None) [backup_admission]) [backup_action 0; backup_action 1].

Definition backups_0 : BackupWorld :=
  {| w_state := empty_backups; w_ops := empty_ops; w_failures := 0; w_db := backup_db; w_log := Some []; w_now := now_0;
     w_faults := []; w_draws := 0; w_tasks := []; w_out := [] |}.

Definition backups_at (s : Z) (w : BackupWorld) : BackupWorld :=
  {| w_state := w_state w; w_ops := w_ops w; w_failures := w_failures w; w_db := w_db w; w_log := w_log w;
     w_now := now_0 + s; w_faults := w_faults w; w_draws := w_draws w; w_tasks := w_tasks w; w_out := w_out w |}.

Definition run {A} (m : bact A) (w : BackupWorld) : BackupWorld := (m w).2.
Definition backup_tick (s : Z) (w : BackupWorld) : BackupWorld := run BackupSched.tick (backups_at s w).

Definition backups_1 : BackupWorld := run BackupSched.new_scheduler backups_0.
(** 00:10, 300 s later: both policies fire, one backup runs and one waits. *)
Definition backups_2 : BackupWorld := backup_tick 300 (backup_tick 290 (backup_tick 180 (backup_tick 90 (backup_tick 0 backups_1)))).

Example first_backup_runs :
  (length (w_tasks backups_2), length (b_queue (w_state backups_2)), b_server_busy (w_state backups_2), w_failures backups_2)
  = (1%nat, 1%nat, true, 0).
Proof. vm_compute. reflexivity. Qed.

Definition backup_answer : Value := obj
  [("outcome", str "succeeded"); ("backup_id", str plan_b); ("backup_digest_hex", str hex_a); ("size_bytes", nat_value 10)].

(** The first backup ends and is pruned; then the second starts. *)
Definition answered (answer : Value) (w : BackupWorld) : BackupWorld :=
  match w_tasks w with
  | t :: rest => run (BackupSched.complete t (inr answer)) (set_tasks rest w)
  | [] => w
  end.
Definition prune_answer : Value := obj [("deleted", VArray [str plan_b; str plan_a])].
Definition backups_3 : BackupWorld := answered backup_answer backups_2.
Definition backups_4 : BackupWorld := answered prune_answer backups_3.

Example second_backup_runs :
  (task_op <$> w_tasks backups_3, task_op <$> w_tasks backups_4, length (b_queue (w_state backups_4)))
  = (["backup_prune"], ["backup_run"], 0%nat).
Proof. vm_compute. reflexivity. Qed.

(** ** Witnesses *)

Lemma tick_path s w : rtc backup_step w (backup_tick s w).
Proof.
  eapply rtc_l; [apply (bs_env w (w_db w) (w_log w) (now_0 + s) (w_faults w)); done|]. apply rtc_once, bs_tick.
Qed.

Definition firing : BackupWorld := backup_tick 300 (backup_tick 0 backups_1).


Definition sample_policy : PolicyDef :=
  define_policy {| plan_id := plan_a; plan_digest_hex := hex_a; action_index := 0; admission_seq := 1;
    admitted_at := "2026-01-01T00:00:00Z"; operation_id := plan_a; kind := "backup.policy.set";
    params := (policy_action_of database_a).["params"]; scope := (project_a, "production", env_id_a);
    outcome_text := "succeeded"; finished_at := Some "2026-01-01T00:00:00Z" |}.

Definition fire_b : Z := now_0 + 300.

Lemma backup_start_effect : ~ unmoved backups_1 (start_backup sample_policy fire_b backups_1).2.
Proof. intros (_ & _ & H). apply (f_equal length) in H. vm_compute in H. discriminate. Qed.

Lemma backup_fire_time_once_witness :
  unmoved (start_backup sample_policy fire_b backups_1).2
    (start_backup sample_policy fire_b (start_backup sample_policy fire_b backups_1).2).2.
Proof.
  refine (backup_fire_time_once sample_policy fire_b backups_1 sample_policy _ _ eq_refl backup_start_effect (rtc_refl _ _)).
  vm_compute. reflexivity.
Defined.

Definition sample_pending : Pending :=
  {| pn_resource_id := database_a; pn_policy := sample_policy;
     pn_run := new_backup plan_a database_a BackupRunStatus.Pending BackupTrigger.Schedule;
     pn_scheduled_for := fire_b; pn_retry_at := None |}.

Lemma backup_completion_atomic_witness :
  let w' := (finish_backup sample_policy sample_pending (pn_run sample_pending) 1 (inr backup_answer) backups_1).2 in
  (completed (w_ops w') sample_policy (pn_run sample_pending) plan_b hex_a /\
   w_tasks w' = w_tasks backups_1 ++ [PruneTask sample_policy fire_b plan_b]) \/
  (w_ops w' = w_ops backups_1 /\ w_tasks w' = w_tasks backups_1 /\
   br_id (pn_run sample_pending) ∈ b_recovering (w_state w')).
Proof.
  refine (backup_completion_atomic sample_policy sample_pending (pn_run sample_pending) 1 backup_answer plan_b backups_1 _ _ _);
    vm_compute; reflexivity.
Defined.

(** The runner says it deleted the new backup too. *)
Lemma prune_spares_witness : is_some (record_of (w_ops backups_3) KArtifact plan_b) = true /\
  record_of (w_ops (prune_answered sample_policy plan_b (inr prune_answer) backups_3).2) KArtifact plan_b
  = record_of (w_ops backups_3) KArtifact plan_b.
Proof.
  split; [vm_compute; reflexivity|].
  refine (prune_spares (PL := wire_laws) sample_policy plan_b prune_answer backups_3 KArtifact plan_b _ _).
  - apply own_ids_check. vm_compute. reflexivity.
  - right. right. left. reflexivity.
Defined.

(** ** A waiting backup and a restart *)

(** The agent restarts while the second backup waits; the first one's result
    is in the runner's log.  The waiting run was never started, so no result
    of it can appear: the server slot stays taken and no backup of any
    policy starts at the fire times that follow. *)
Definition first_lines : list Value :=
  let line event := obj [("v", nat_value 1); ("event", str event); ("op", str "backup_run"); ("run_id", str plan_b);
    ("plan_id", str plan_a); ("plan_digest_hex", str hex_a); ("action_index", nat_value 0); ("attempt", nat_value 1);
    ("scheduled_for", str "2026-01-01T00:10:00Z"); ("outcome", str "succeeded"); ("backup_id", str plan_b)] in
  [line "run"; line "run_result"].

Definition restarted : BackupWorld :=
  run BackupSched.new_scheduler (set_log (Some first_lines) (set_tasks [] (set_ops (open_ops (w_ops backups_2)) backups_2))).

Definition later : BackupWorld :=
  backup_tick 1500 (backup_tick 1400 (backup_tick 1300 (backup_tick 1200 (backup_tick 1100 (backup_tick 1000
    (backup_tick 900 (backup_tick 800 (backup_tick 700 (backup_tick 600 (backup_tick 500 (backup_tick 400 restarted))))))))))).

Definition status_at (slot : string) (w : BackupWorld) : list (string * Z) :=
  (fun r => (or_subject r, or_status r)) <$> select (fun r => String.eqb (or_slot r) slot) (o_records (w_ops w)).

Theorem waiting_backup_blocks_after_restart :
  status_at "2026-01-01T00:10:00Z" later = [(database_a, BackupRunStatus.Succeeded); (database_b, BackupRunStatus.Pending)] /\
  status_at "2026-01-01T00:20:00Z" later = [(database_a, BackupRunStatus.Pending)] /\
  b_server_busy (w_state later) = true /\ b_running (w_state later) = None /\ w_tasks later = [] /\ w_failures later = 0.
Proof. split_and!; vm_compute; reflexivity. Qed.
