(* ===== verification/StoreOpen.v ===== *)
(** * Opening the admission store

    [AdmissionStore::open] and [reseed] of src/admissions/mod.rs with the
    functions they call, and src/trust_reset.rs.  The file system is the nodes
    at the paths these functions touch; any call into the kernel or SQLite may
    fail ([w_faults], one answer per call), and an error return changes
    nothing more, so a fault is also a crash at that point.  The contents of
    a database are those of the file and its log together. *)

From S2P Require Import Prelude RustStr PlanCode Calendar Store Effects.

(** * The versions of the admission store

    src/admissions/schema_v1.sql, schema_v1_agent.sql, schema_v2.sql and
    schema_v3.sql as functions on the tables of the version before, and
    [MIGRATIONS] of mod.rs.  [PRAGMA user_version] is written in the
    transaction that changes the tables, so here the shape of the tables is
    the version.  SQLite's date functions are the class [SqliteStamp]. *)

(** ** Tables of the older versions *)

Record AdmissionRow1 := {
  a1_plan_id : string; a1_plan_digest_hex : string; a1_signed_plan_json : string; a1_submitter : string;
  a1_operation_id : string; a1_admitted_at : string; a1_finished_at : option string; a1_outcome : string;
  a1_admission_seq : Z; a1_nonce : string; a1_author_kind : string; a1_signer_key_ids : list string;
  a1_action_kinds : list string; a1_project_id : string; a1_environment : string; a1_head_before_hex : string;
  a1_head_after_hex : string; a1_rule_id : option string; a1_delivery_id : option string; a1_expires_at : string
}.

Record SealedRow1 := { s1_ciphertext_digest_hex : string; s1_plan_id : string; s1_ciphertext : string }.

Record DeliveryRow1 := {
  d1_delivery_id : string; d1_provider : string; d1_body_digest_hex : string; d1_repo : string; d1_ref : string;
  d1_commit_sha : string; d1_commit_time : string; d1_received_at : string; d1_status : string
}.

(** The tables no migration reshapes.  [meta] has at most one row. *)
Record Common := {
  k_meta : option MetaRow; k_seen : list SeenRow; k_actions : list ActionRow; k_specs : list SpecRow;
  k_heads : list HeadRow; k_rules : list RuleRow; k_invocations : list InvocationRow;
  k_consumptions : list ConsumptionRow; k_builds : list BuildRow; k_cursor : option CursorRow;
  k_service_specs : list ServiceSpecRow; k_deployed : list DeployedCommitRow; k_events : list EventRow
}.

Definition no_rows : Common :=
  {| k_meta := None; k_seen := []; k_actions := []; k_specs := []; k_heads := []; k_rules := [];
     k_invocations := []; k_consumptions := []; k_builds := []; k_cursor := None; k_service_specs := [];
     k_deployed := []; k_events := [] |}.

(** [Newer]: tables of a later agent. *)
Inductive Tables :=
| NoTables
| Tables1 (k : Common) (admissions : list AdmissionRow1) (sealed : list SealedRow1) (deliveries : list DeliveryRow1)
| Tables2 (k : Common) (admissions : list AdmissionRow) (sealed : list SealedRow) (deliveries : list DeliveryRow1)
| Tables3 (k : Common) (admissions : list AdmissionRow) (sealed : list SealedRow) (deliveries : list DeliveryRow)
    (rejected : list RejectedRow)
| Newer (version : positive).

Definition SCHEMA_VERSION : Z := 3.

Definition user_version (t : Tables) : Z :=
  match t with
  | NoTables => 0
  | Tables1 _ _ _ _ => 1
  | Tables2 _ _ _ _ => 2
  | Tables3 _ _ _ _ _ => SCHEMA_VERSION
  | Newer version => SCHEMA_VERSION + Zpos version
  end.

(** [COUNT( * ) FROM meta WHERE id = 1]; [None] when there is no such table. *)
Definition meta_row (t : Tables) : option (option MetaRow) :=
  match t with
  | Tables1 k _ _ _ | Tables2 k _ _ _ | Tables3 k _ _ _ _ => Some (k_meta k)
  | _ => None
  end.

Definition with_meta (m : option MetaRow) (k : Common) : Common :=
  {| k_meta := m; k_seen := k_seen k; k_actions := k_actions k; k_specs := k_specs k; k_heads := k_heads k;
     k_rules := k_rules k; k_invocations := k_invocations k; k_consumptions := k_consumptions k;
     k_builds := k_builds k; k_cursor := k_cursor k; k_service_specs := k_service_specs k;
     k_deployed := k_deployed k; k_events := k_events k |}.

(** [UPDATE meta SET schema_version = version]. *)
Definition set_schema_version (version : Z) (k : Common) : Common :=
  with_meta (option_map (fun m => {| me_store_created_at := me_store_created_at m; me_schema_version := version;
                                     me_quarantine_ends_at := me_quarantine_ends_at m |}) (k_meta k)) k.

(** The store the rest of the development works on. *)
Definition db_of (t : Tables) : option Db :=
  match t with
  | Tables3 k admissions sealed deliveries rejected =>
      match k_meta k with
      | Some m =>
          Some {| t_meta := m; t_seen := k_seen k; t_admissions := admissions; t_actions := k_actions k;
                  t_specs := k_specs k; t_heads := k_heads k; t_rules := k_rules k; t_invocations := k_invocations k;
                  t_deliveries := deliveries; t_consumptions := k_consumptions k; t_builds := k_builds k;
                  t_sealed := sealed; t_cursor := k_cursor k; t_service_specs := k_service_specs k;
                  t_deployed := k_deployed k; t_events := k_events k; t_rejected := rejected |}
      | None => None
      end
  | _ => None
  end.

(** ** The steps *)

Class SqliteStamp : Type := {
  (** [strftime('%Y-%m-%dT%H:%M:%SZ', text, '+7 days')]; NULL on a text that
      is no time. *)
  seven_days_later : string -> option string;
  (** [strftime('%Y-%m-%dT%H:%M:%SZ', 'now')]. *)
  stamp_now : Z -> string
}.

Class SqliteStampLaws `{SqliteStamp} : Prop := {
  seven_days_timestamp s t : timestamp s = Some t -> seven_days_later s = Some (format_timestamp (t + 7 * 86400));
  stamp_now_format now : stamp_now now = format_timestamp now
}.

(** schema_v1.sql and schema_v1_agent.sql. *)
Definition schema_v1 (t : Tables) : option Tables :=
  match t with NoTables => Some (Tables1 no_rows [] [] []) | _ => None end.

Definition add_environment_id (a : AdmissionRow1) : AdmissionRow :=
  {| ad_plan_id := a1_plan_id a; ad_plan_digest_hex := a1_plan_digest_hex a;
     ad_signed_plan_json := a1_signed_plan_json a; ad_submitter := a1_submitter a;
     ad_operation_id := a1_operation_id a; ad_admitted_at := a1_admitted_at a; ad_finished_at := a1_finished_at a;
     ad_outcome := a1_outcome a; ad_admission_seq := a1_admission_seq a; ad_nonce := a1_nonce a;
     ad_author_kind := a1_author_kind a; ad_signer_key_ids := a1_signer_key_ids a;
     ad_action_kinds := a1_action_kinds a; ad_project_id := a1_project_id a; ad_environment := a1_environment a;
     ad_head_before_hex := a1_head_before_hex a; ad_head_after_hex := a1_head_after_hex a;
     ad_rule_id := a1_rule_id a; ad_delivery_id := a1_delivery_id a; ad_expires_at := a1_expires_at a;
     ad_environment_id := "" |}.

Definition add_scope (s : SealedRow1) : SealedRow :=
  {| se_ciphertext_digest_hex := s1_ciphertext_digest_hex s; se_plan_id := s1_plan_id s;
     se_ciphertext := s1_ciphertext s; se_action_index := -1; se_project_id := ""; se_environment := "";
     se_service_id := ""; se_name := "" |}.

Definition schema_v2 (t : Tables) : option Tables :=
  match t with
  | Tables1 k admissions sealed deliveries =>
      Some (Tables2 (set_schema_version 2 k) (add_environment_id <$> admissions) (add_scope <$> sealed) deliveries)
  | _ => None
  end.

Section rebuild.
Context {SS : SqliteStamp}.

(** One row of [INSERT INTO deliveries_v3 ... SELECT]; [None] when the row
    violates a constraint of the new table. *)
Definition rebuild_delivery (now : Z) (d : DeliveryRow1) : option DeliveryRow :=
  match seven_days_later (d1_received_at d) with
  | None => None
  | Some expires =>
      let status := if String.eqb (d1_status d) "verified"
                    then if String.ltb (stamp_now now) expires then "pending" else "expired"
                    else d1_status d in
      if contains_str PROVIDER_CHECK (d1_provider d) && contains_str STATUS_CHECK status
      then Some {| dl_delivery_id := d1_delivery_id d; dl_provider := d1_provider d; dl_event := "push";
                   dl_body_digest_hex := d1_body_digest_hex d; dl_repo := d1_repo d; dl_ref := d1_ref d;
                   dl_commit_sha := d1_commit_sha d; dl_commit_time := d1_commit_time d; dl_environments := [];
                   dl_received_at := d1_received_at d; dl_expires_at := expires; dl_status := status |}
      else None
  end.

Definition schema_v3 (now : Z) (t : Tables) : option Tables :=
  match t with
  | Tables2 k admissions sealed deliveries =>
      match mapM (rebuild_delivery now) deliveries with
      | Some rows => Some (Tables3 (set_schema_version 3 k) admissions sealed rows [])
      | None => None
      end
  | _ => None
  end.

(** ** [pragma_foreign_key_check] *)

Definition dangling {A} (ids : list string) (key : A -> string) (rows : list A) : Z :=
  count (fun r => negb (contains_str ids (key r))) rows.

Definition dangling_opt {A} (ids : list string) (key : A -> option string) (rows : list A) : Z :=
  count (fun r => is_some_and (key r) (fun id => negb (contains_str ids id))) rows.

(** The violations in tables that refer to plans [plans] and deliveries
    [deliveries]. *)
Definition references (k : Common) (sealed : list SealedRow) (plans deliveries : list string) : Z :=
  dangling plans ac_plan_id (k_actions k) + dangling plans sp_admitted_plan_id (k_specs k)
  + dangling plans hd_plan_id (k_heads k) + dangling plans rl_created_plan_id (k_rules k)
  + dangling_opt plans rl_revoked_plan_id (k_rules k) + dangling plans iv_plan_id (k_invocations k)
  + dangling deliveries cs_delivery_id (k_consumptions k) + dangling plans cs_plan_id (k_consumptions k)
  + dangling_opt deliveries bd_delivery_id (k_builds k) + dangling plans se_plan_id sealed
  + dangling (sp_spec_digest_hex <$> k_specs k) ss_spec_digest_hex (k_service_specs k)
  + dangling plans ss_plan_id (k_service_specs k) + dangling plans dc_plan_id (k_deployed k).

Definition foreign_key_check (t : Tables) : Z :=
  match t with
  | Tables1 k admissions sealed deliveries =>
      references k (add_scope <$> sealed) (a1_plan_id <$> admissions) (d1_delivery_id <$> deliveries)
  | Tables2 k admissions sealed deliveries =>
      references k sealed (ad_plan_id <$> admissions) (d1_delivery_id <$> deliveries)
  | Tables3 k admissions sealed deliveries _ =>
      references k sealed (ad_plan_id <$> admissions) (dl_delivery_id <$> deliveries)
  | _ => 0
  end.

(** ** [MIGRATIONS] *)

Record Migration := { mg_sql : Z -> Tables -> option Tables; mg_rebuilds : bool }.

Definition MIGRATIONS : list Migration :=
  [{| mg_sql := fun _ => schema_v1; mg_rebuilds := false |};
   {| mg_sql := fun _ => schema_v2; mg_rebuilds := false |};
   {| mg_sql := schema_v3; mg_rebuilds := true |}].

(** What [apply_migration] commits when nothing else fails. *)
Definition migrated (now : Z) (step : Migration) (t : Tables) : option Tables :=
  match mg_sql step now t with
  | Some t' => if mg_rebuilds step && negb (foreign_key_check t' =? 0) then None else Some t'
  | None => None
  end.

End rebuild.

(** ** The disk *)

Record StoreOwner := { uid : Z; gid : Z }.

Inductive Contents :=
| Garbage
| Sqlite (quick_check : string) (tables : Tables).

Inductive Node :=
| Regular (mode : Z) (owner : option StoreOwner) (contents : Contents)
| Directory (mode : Z) (owner : option StoreOwner)
| Symlink
| Special.

Record World := { w_nodes : gmap string Node; w_faults : list bool }.

Definition io (A : Type) : Type := st World (store_result A).

Definition fail {A} (e : StoreError.t) : io A := ret (Err e).
Definition done {A} (a : A) : io A := ret (Ok a).

(** A call that may fail. *)
Definition call (e : StoreError.t) : io unit := fun w =>
  match w_faults w with
  | true :: rest => (Err e, {| w_nodes := w_nodes w; w_faults := rest |})
  | false :: rest => (Ok tt, {| w_nodes := w_nodes w; w_faults := rest |})
  | [] => (Ok tt, w)
  end.

Definition sys : io unit := call StoreError.Io.
Definition sql : io unit := call StoreError.Sqlite.

Definition set_node (path : string) (n : Node) : io unit := fun w =>
  (Ok tt, {| w_nodes := <[path := n]> (w_nodes w); w_faults := w_faults w |}).

Definition node (path : string) : io (option Node) := asks (fun w => Ok (w_nodes w !! path)).

(** [fs::symlink_metadata]; [None] is [NotFound]. *)
Definition symlink_metadata (path : string) : io (option Node) := run! sys in node path.

Definition update_node (path : string) (f : Node -> Node) : io unit :=
  run! sys in
  try! n := node path in
  match n with Some n => set_node path (f n) | None => fail StoreError.Io end.

Definition chown (path : string) (o : StoreOwner) : io unit :=
  update_node path (fun n => match n with
    | Regular mode _ c => Regular mode (Some o) c
    | Directory mode _ => Directory mode (Some o)
    | other => other
    end).

Definition set_permissions (path : string) (mode : Z) : io unit :=
  update_node path (fun n => match n with
    | Regular _ o c => Regular mode o c
    | Directory _ o => Directory mode o
    | other => other
    end).

(** [fs::rename]: an existing target is replaced.  [false] is [NotFound]. *)
Definition rename (from to : string) : io bool :=
  run! sys in
  try! n := node from in
  match n with
  | None => done false
  | Some n => fun w =>
      (Ok true, {| w_nodes := <[to := n]> (delete from (w_nodes w)); w_faults := w_faults w |})
  end.

(** ** Files and directories *)

Definition FILE_MODE : Z := 416. (* 0o640 *)
Definition DIR_MODE : Z := 488. (* 0o750 *)
Definition OWNED_DIR_MODE : Z := 1512. (* 0o2750 *)

Record StoreConfig := { path : string; sc_owner : option StoreOwner }.

(** [str::rfind] of a byte and the text before it. *)
Fixpoint before_last (sep : ascii) (s : string) : option string :=
  match s with
  | EmptyString => None
  | String b r =>
      match before_last sep r with
      | Some d => Some (String b d)
      | None => if Ascii.eqb b sep then Some "" else None
      end
  end.

(** [Path::parent] of a path without repeated or trailing slashes. *)
Definition parent (p : string) : option string :=
  if is_empty p || String.eqb p "/" then None
  else match before_last "/" p with None => Some "" | Some "" => Some "/" | Some d => Some d end.

Definition ensure_dir (p : string) (o : option StoreOwner) : io unit :=
  match parent p with
  | None => fail (StoreError.Unsafe "store path has no directory")
  | Some dir =>
      try! meta := symlink_metadata dir in
      run! match meta with
           | Some (Directory _ _) => done tt
           | Some _ => fail (StoreError.Unsafe (dir +:+ " is not a directory"))
           | None => run! sys in set_node dir (Directory DIR_MODE None)
           end in
      match o with
      | Some o => run! chown dir o in set_permissions dir OWNED_DIR_MODE
      | None => set_permissions dir DIR_MODE
      end
  end.

Definition secure_file (p : string) (o : option StoreOwner) : io unit :=
  run! match o with Some o => chown p o | None => done tt end in set_permissions p FILE_MODE.

Fixpoint try_each {A} (f : A -> io unit) (l : list A) : io unit :=
  match l with [] => done tt | x :: rest => run! f x in try_each f rest end.

Definition secure_files (config : StoreConfig) : io unit :=
  try_each (fun suffix =>
    let p := path config +:+ suffix in
    try! meta := symlink_metadata p in
    match meta with
    | Some (Regular _ _ _) => secure_file p (sc_owner config)
    | Some _ => fail (StoreError.Unsafe (p +:+ " is not a regular file"))
    | None => done tt
    end) [""; "-wal"; "-shm"].

(** [format_timestamp(now).replace(':', "")]. *)
Fixpoint drop_byte (b : ascii) (s : string) : string :=
  match s with
  | EmptyString => ""
  | String c r => if Ascii.eqb c b then drop_byte b r else String c (drop_byte b r)
  end.

Definition aside (p : string) (now : Z) : string := p +:+ ".corrupt-" +:+ drop_byte ":" (format_timestamp now).

Definition move_aside (p : string) (now : Z) : io string :=
  let target := aside p now in
  try! moved := rename p target in
  run! (if moved : bool then done tt else fail StoreError.Io) in
  run! try_each (fun suffix => try! _ := rename (p +:+ suffix) (target +:+ suffix) in done tt) ["-wal"; "-shm"] in
  done target.

(** ** The database *)

Section sqlite.
Context {SS : SqliteStamp}.

(** A query on the file at [p]; a file that is no database answers with an
    error. *)
Definition tables_of (p : string) : io (string * Tables) :=
  run! sql in
  try! n := node p in
  match n with
  | Some (Regular _ _ (Sqlite quick t)) => done (quick, t)
  | _ => fail StoreError.Sqlite
  end.

(** A committed transaction. *)
Definition commit (p : string) (t : Tables) : io unit :=
  run! sql in
  try! n := node p in
  match n with
  | Some (Regular mode o (Sqlite quick _)) => set_node p (Regular mode o (Sqlite quick t))
  | _ => fail StoreError.Sqlite
  end.

(** SQLite keeps its log beside the database, with its mode and owner. *)
Definition make_beside (p suffix : string) : io unit :=
  try! n := node p in
  try! b := node (p +:+ suffix) in
  match n, b with
  | Some (Regular mode o _), None => set_node (p +:+ suffix) (Regular mode o Garbage)
  | _, _ => done tt
  end.

Definition configure (p : string) : io unit :=
  run! tables_of p in
  run! make_beside p "-wal" in
  run! make_beside p "-shm" in
  run! sql in run! sql in run! sql in sql.

Definition apply_migration (p : string) (now : Z) (step : Migration) : io unit :=
  try! (_, t) := tables_of p in
  match mg_sql step now t with
  | None => fail StoreError.Sqlite
  | Some t' =>
      if mg_rebuilds step && negb (foreign_key_check t' =? 0)
      then fail (StoreError.Unsafe "migration: foreign key violations")
      else commit p t'
  end.

Definition migrate_step (p : string) (now : Z) (step : Migration) : io unit :=
  run! (if mg_rebuilds step then sql else done tt) in
  let! applied := apply_migration p now step in
  run! (if mg_rebuilds step then sql else done tt) in
  ret applied.

Definition migrate (p : string) (now : Z) : io unit :=
  try! (_, t) := tables_of p in
  if SCHEMA_VERSION <? user_version t then fail (StoreError.TooNew (user_version t))
  else try_each (migrate_step p now) (drop (Z.to_nat (user_version t)) MIGRATIONS).

Definition open_existing (p : string) (now : Z) : io unit :=
  run! sql in
  try! (quick, _) := tables_of p in
  run! (if String.eqb quick "ok" then done tt else fail (StoreError.Unsafe ("quick_check: " +:+ quick))) in
  try! (_, t) := tables_of p in
  run! (if user_version t =? 0 then fail (StoreError.Unsafe "uninitialised store") else done tt) in
  run! configure p in
  run! migrate p now in
  try! (_, t) := tables_of p in
  match meta_row t with
  | Some (Some _) => done tt
  | Some None => fail (StoreError.Unsafe "meta row missing")
  | None => fail StoreError.Sqlite
  end.

(** [INSERT INTO meta]; its PRIMARY KEY allows one row. *)
Definition insert_meta (m : MetaRow) (t : Tables) : option Tables :=
  match t with
  | Tables3 k admissions sealed deliveries rejected =>
      match k_meta k with
      | None => Some (Tables3 (with_meta (Some m) k) admissions sealed deliveries rejected)
      | Some _ => None
      end
  | _ => None
  end.

Definition create_new (p : string) : io unit :=
  run! sys in
  try! n := node p in
  match n with
  | Some _ => fail StoreError.Io
  | None => set_node p (Regular FILE_MODE None (Sqlite "ok" NoTables))
  end.

Definition create (config : StoreConfig) (now : Z) (quarantine_ends_at : option Z) : io unit :=
  let p := path config in
  run! create_new p in
  run! secure_file p (sc_owner config) in
  run! sql in
  run! configure p in
  run! migrate p now in
  try! (_, t) := tables_of p in
  match insert_meta {| me_store_created_at := format_timestamp now; me_schema_version := SCHEMA_VERSION;
                       me_quarantine_ends_at := option_map format_timestamp quarantine_ends_at |} t with
  | Some t' => commit p t'
  | None => fail StoreError.Sqlite
  end.

(** ** Opening *)

Record OpenReport := {
  created : bool; recreated : bool; moved_aside : option string; report_quarantine : option Z
}.

Definition default_report : OpenReport :=
  {| created := false; recreated := false; moved_aside := None; report_quarantine := None |}.

(** [store.quarantine_ends_at()]. *)
Definition read_quarantine (p : string) : io (option Z) :=
  try! (_, t) := tables_of p in
  match meta_row t with
  | Some m => done (match m with
                    | Some m => match me_quarantine_ends_at m with Some s => timestamp s | None => None end
                    | None => None
                    end)
  | None => fail StoreError.Sqlite
  end.

(** The end of [open]: a new store. *)
Definition open_new (config : StoreConfig) (now : Z) (aside_path : option string) (recreated : bool) : io OpenReport :=
  let quarantine := if recreated then Some (now + QUARANTINE_SECONDS) else None in
  run! create config now quarantine in
  run! secure_files config in
  done {| created := true; recreated := recreated; moved_aside := aside_path; report_quarantine := quarantine |}.

Definition open_aside (config : StoreConfig) (now : Z) : io OpenReport :=
  try! target := move_aside (path config) now in open_new config now (Some target) true.

Definition open (config : StoreConfig) (trust_present : bool) (now : Z) : io OpenReport :=
  run! ensure_dir (path config) (sc_owner config) in
  try! meta := symlink_metadata (path config) in
  match meta with
  | Some (Regular _ _ _) =>
      let! existing := open_existing (path config) now in
      match existing with
      | Ok _ =>
          run! secure_files config in
          try! q := read_quarantine (path config) in
          done {| created := false; recreated := false; moved_aside := None; report_quarantine := q |}
      | Err (StoreError.TooNew version) => fail (StoreError.TooNew version)
      | Err _ => open_aside config now
      | Panic => ret Panic
      end
  | Some _ => open_aside config now
  | None => open_new config now None trust_present
  end.

Definition reseed (config : StoreConfig) (now : Z) : io OpenReport :=
  try! meta := symlink_metadata (path config) in
  try! moved := match meta with
                | Some _ => try! target := move_aside (path config) now in done (Some target)
                | None => done None
                end in
  try! report := open config true now in
  if negb (recreated report) then fail (StoreError.Unsafe "re-seed opened an existing store")
  else done {| created := created report; recreated := recreated report;
               moved_aside := match moved_aside report with None => moved | some => some end;
               report_quarantine := report_quarantine report |}.

End sqlite.

(** ** Resetting trust *)

Inductive TrustResetError :=
| Flag | Root | Tty | Confirm | ResetIo (message : string) | ResetStore (e : StoreError.t).

Inductive TrustResetDone := Reset (backup : string) | AlreadyBootstrap.

Record TrustResetPaths := { trusted_keys : string; admissions_db : string; audit_log : string }.

(** [path.with_file_name(name.bak-stamp)]. *)
Definition backup_path (p : string) (now : Z) : string := p +:+ ".bak-" +:+ drop_byte ":" (format_timestamp now).

(** The line that is appended is not modelled. *)
Definition append_audit (p : string) : io unit :=
  run! match parent p with
       | Some d => if is_empty d then done tt
                   else run! sys in
                        try! n := node d in
                        match n with
                        | None => set_node d (Directory DIR_MODE None)
                        | Some _ => done tt
                        end
       | None => done tt
       end in
  run! sys in
  try! n := node p in
  run! match n with
       | None => set_node p (Regular FILE_MODE None Garbage)
       | Some (Directory _ _) => fail StoreError.Io
       | Some _ => done tt
       end in
  run! sys in sys.

Definition reset_io (m : io TrustResetDone) : st World (outcome TrustResetError TrustResetDone) :=
  let! r := m in
  ret (match r with Ok d => Ok d | Err StoreError.Io => Err (ResetIo "") | Err e => Err (ResetStore e) | Panic => Panic end).

Section reset.
Context {SS : SqliteStamp}.

(** The reset after its gates; an [Unsafe] error of its own is an I/O error
    of the source. *)
Definition reset_files (paths : TrustResetPaths) (now : Z) (o : option StoreOwner) : io TrustResetDone :=
  try! meta := symlink_metadata (trusted_keys paths) in
  match meta with
  | None => done AlreadyBootstrap
  | Some (Regular _ _ _) | Some Symlink =>
      run! reseed {| path := admissions_db paths; sc_owner := o |} now in
      let backup := backup_path (trusted_keys paths) now in
      let! existing := symlink_metadata backup in
      match existing with
      | Ok (Some _) => fail (StoreError.Unsafe "trust reset backup already exists")
      | _ =>
          try! moved := rename (trusted_keys paths) backup in
          run! (if moved : bool then done tt else fail StoreError.Io) in
          run! append_audit (audit_log paths) in
          done (Reset backup)
      end
  | Some _ => fail (StoreError.Unsafe "trusted-keys.json is not a file")
  end.

(** [confirm]: the line the operator typed, or an error reading it. *)
Definition trust_reset (paths : TrustResetPaths) (understand : bool) (euid : Z) (tty : bool) (now : Z)
    (o : option StoreOwner) (confirm : option string) : st World (outcome TrustResetError TrustResetDone) :=
  if negb understand then ret (Err Flag)
  else if negb (euid =? 0) then ret (Err Root)
  else if negb tty then ret (Err Tty)
  else match confirm with
       | None => ret (Err (ResetIo "confirm"))
       | Some line =>
           if negb (String.eqb (trim line) "yes") then ret (Err Confirm)
           else reset_io (reset_files paths now o)
       end.

End reset.
