(* ===== verification/StoreOpenFacts.v ===== *)
(** * What opening the admission store guarantees

    Any sequence of starts, with any calls failing, keeps the records of the
    store or leaves an empty one in quarantine; a store is never deleted; and
    a trust reset re-seeds the store before it touches the trusted keys. *)

From S2P Require Import Prelude RustStr PlanCode Calendar Effects Store StoreOpen.

(** ** What the calls leave at the path of the store *)

Lemma str_app_longer a b : b <> "" -> a <> a +:+ b.
Proof.
  intros Hb H. apply (f_equal String.length) in H. rewrite str_app_length in H. destruct b; [done|]. cbn in H. lia.
Qed.

Lemma before_last_shorter sep s d : before_last sep s = Some d -> (String.length d < String.length s)%nat.
Proof.
  revert d; induction s as [|b s IH]; intros d; cbn; [done|]. destruct (before_last sep s) as [d'|] eqn:Hd.
  - intros [= <-]. cbn. specialize (IH _ eq_refl). lia.
  - destruct (Ascii.eqb b sep); [|done]. intros [= <-]. cbn. lia.
Qed.

Lemma parent_other p d : parent p = Some d -> d <> p.
Proof.
  unfold parent. destruct (is_empty p) eqn:He; [done|]. destruct (String.eqb p "/") eqn:Hr; [done|]. cbn [orb].
  destruct (before_last "/" p) as [e|] eqn:Hb.
  - apply before_last_shorter in Hb. destruct e; intros [= <-] <-; [done|]. cbn in *. lia.
  - intros [= <-] <-. done.
Qed.

Section at_path.
Context {SS : SqliteStamp} (p : string).

Definition held (w : World) : option Contents :=
  match w_nodes w !! p with Some (Regular _ _ c) => Some c | _ => None end.

Definition same : relation World := fun w w' => held w' = held w.

#[local] Instance same_preorder : PreOrder same.
Proof. split; [by intros w|intros a b c H1 H2; unfold same in *; congruence]. Qed.

Lemma same_done {A} (a : A) : keeps same (done a).
Proof. done. Qed.
Lemma same_fail {A} e : keeps same (@fail A e).
Proof. done. Qed.
Lemma same_call e : keeps same (call e).
Proof. intros w. unfold call, same. by destruct (w_faults w) as [|[]]. Qed.
Lemma same_node q : keeps same (node q).
Proof. done. Qed.
Lemma same_set_node q n : q <> p -> keeps same (set_node q n).
Proof. intros Hq w. unfold same, held, set_node. cbn. by rewrite lookup_insert_ne. Qed.

(** Changes of mode and owner. *)
Lemma same_update q f : (forall n, match f n, n with Regular _ _ c', Regular _ _ c => c' = c
                                   | Regular _ _ _, _ | _, Regular _ _ _ => False | _, _ => True end) ->
  keeps same (update_node q f).
Proof.
  intros Hf. apply keeps_try; [apply same_call|]. intros []. intros w. unfold node, asks, try_bind, bind, same. cbn.
  destruct (w_nodes w !! q) as [n|] eqn:Hn; [|done]. cbn. unfold held. cbn.
  destruct (decide (q = p)) as [->|Hq]; [|by rewrite lookup_insert_ne]. rewrite lookup_insert_eq, Hn.
  specialize (Hf n). destruct (f n), n; naive_solver.
Qed.

Lemma same_chown q o : keeps same (chown q o).
Proof. apply same_update. by intros []. Qed.
Lemma same_permissions q mode : keeps same (set_permissions q mode).
Proof. apply same_update. by intros []. Qed.

End at_path.

#[local] Existing Instance same_preorder.
Create HintDb same_path.
#[export] Hint Resolve same_done same_fail same_call same_node same_set_node same_chown same_permissions : same_path.

(** Opens a call down to primitives. *)
Ltac same_path :=
  repeat match goal with
  | |- keeps _ _ => solve [eauto 2 with same_path typeclass_instances]
  | |- keeps _ (try_bind _ _) => apply keeps_try; [|intros ?]
  | |- keeps _ (Effects.bind _ _) => apply keeps_bind; [|intros ?]
  | |- keeps _ (if ?x then _ else _) => destruct x
  | |- keeps _ (let '_ := ?x in _) => destruct x
  | |- keeps _ (match ?x with _ => _ end) => destruct x
  end.

Section steps.
Context {SS : SqliteStamp} (p : string).

Lemma same_each {A} (f : A -> io unit) l : (forall x, keeps (same p) (f x)) -> keeps (same p) (try_each f l).
Proof. intros Hf. induction l; cbn [try_each]; same_path. Qed.

Lemma same_metadata q : keeps (same p) (symlink_metadata q).
Proof. unfold symlink_metadata, sys. same_path. Qed.

Lemma same_secure_file q o : keeps (same p) (secure_file q o).
Proof. unfold secure_file. same_path. Qed.

Lemma same_secure_files config : keeps (same p) (secure_files config).
Proof. apply same_each. intros x. apply keeps_try; [apply same_metadata|]. intros [[]|]; same_path. apply same_secure_file. Qed.

Lemma same_ensure_dir o : keeps (same p) (ensure_dir p o).
Proof.
  unfold ensure_dir, sys. destruct (parent p) as [d|] eqn:Hd; [|same_path]. apply parent_other in Hd.
  apply keeps_try; [apply same_metadata|]. intros n. same_path.
Qed.

Lemma same_tables_of q : keeps (same p) (tables_of q).
Proof. unfold tables_of, sql. same_path. Qed.

Lemma same_beside suffix : suffix <> "" -> keeps (same p) (make_beside p suffix).
Proof. intros Hs. unfold make_beside. pose proof (str_app_longer p suffix Hs). same_path. Qed.

Lemma same_configure : keeps (same p) (configure p).
Proof.
  unfold configure, sql. apply keeps_try; [apply same_tables_of|]. intros _.
  apply keeps_try; [by apply same_beside|]. intros _. apply keeps_try; [by apply same_beside|]. intros _. same_path.
Qed.

Lemma same_read_quarantine : keeps (same p) (read_quarantine p).
Proof. unfold read_quarantine. apply keeps_try; [apply same_tables_of|]. intros [q t]. same_path. Qed.

End steps.

(** ** Reasoning about the contents at the path *)

Section triples.
Context {SS : SqliteStamp} (p : string).
Abbreviation cond := (option Contents -> Prop).

(** From contents with [φ]: whatever happens the contents end with [I], and
    with [ψ a] when the call returns [a]. *)
Definition spec {A} (φ : cond) (m : io A) (I : cond) (ψ : A -> cond) : Prop :=
  forall w, φ (held p w) -> I (held p (m w).2) /\ forall a, (m w).1 = Ok a -> ψ a (held p (m w).2).

Lemma spec_try {A B} φ (m : io A) (k : A -> io B) I ψ χ :
  spec φ m I ψ -> (forall a, spec (ψ a) (k a) I χ) -> spec φ (try_bind m k) I χ.
Proof.
  intros Hm Hk w Hw. destruct (Hm w Hw) as [HI Hok]. unfold try_bind, bind. destruct (m w) as [[a|e|] w1]; cbn in *.
  - by apply Hk, Hok.
  - split; [done|]. by intros a [=].
  - split; [done|]. by intros a [=].
Qed.

Lemma spec_weaken {A} (φ φ' : cond) (m : io A) (I I' : cond) (ψ ψ' : A -> cond) :
  spec φ m I ψ -> (forall h, φ' h -> φ h) -> (forall h, I h -> I' h) -> (forall a h, ψ a h -> ψ' a h) -> spec φ' m I' ψ'.
Proof. intros Hm H1 H2 H3 w Hw. destruct (Hm w (H1 _ Hw)) as [HI Hok]. split; [by apply H2|]. intros a Ha. apply H3, Hok, Ha. Qed.

Lemma spec_same {A} (φ : cond) (m : io A) : keeps (same p) m -> spec φ m φ (fun _ => φ).
Proof. intros Hm w Hw. specialize (Hm w). unfold same in Hm. rewrite Hm. by split. Qed.

Lemma spec_skip {A B} φ (m : io A) (k : A -> io B) I χ :
  keeps (same p) m -> (forall h, φ h -> I h) -> (forall a, spec φ (k a) I χ) -> spec φ (try_bind m k) I χ.
Proof.
  intros Hm HI Hk. eapply spec_try; [|exact Hk].
  apply (spec_weaken φ φ m φ I (fun _ => φ) (fun _ => φ)); auto using spec_same.
Qed.

Lemma spec_done {A} (φ : cond) (a : A) (I : cond) (χ : A -> cond) :
  (forall h, φ h -> I h /\ χ a h) -> spec φ (done a) I χ.
Proof. intros H w Hw. cbn. destruct (H _ Hw). split; [done|]. by intros b [= <-]. Qed.

Lemma spec_fail {A} (φ : cond) e (I : cond) (χ : A -> cond) : (forall h, φ h -> I h) -> spec φ (fail e) I χ.
Proof. intros H w Hw. cbn. split; [by apply H|]. by intros b [=]. Qed.

(** The result is looked at, errors included. *)
Lemma spec_catch {A B} φ (m : io A) (k : store_result A -> io B) I ψ χ :
  spec φ m I ψ -> (forall a, spec (ψ a) (k (Ok a)) I χ) -> (forall e, spec I (k (Err e)) I χ) ->
  spec I (k Panic) I χ -> spec φ (Effects.bind m k) I χ.
Proof.
  intros Hm Hok Herr Hp w Hw. destruct (Hm w Hw) as [HI H]. unfold Effects.bind. destruct (m w) as [[a|e|] w1]; cbn in *.
  - by apply Hok, H.
  - by apply Herr.
  - by apply Hp.
Qed.

Lemma spec_tables {B} (φ : cond) (k : string * Tables -> io B) I χ :
  (forall h, φ h -> I h) ->
  (forall q t, φ (Some (Sqlite q t)) -> spec (eq (Some (Sqlite q t))) (k (q, t)) I χ) ->
  spec φ (try_bind (tables_of p) k) I χ.
Proof.
  intros HI Hk. eapply (spec_try _ _ _ _ (fun '(q, t) h => φ h /\ h = Some (Sqlite q t))).
  - unfold tables_of, sql. apply spec_skip; [apply same_call|done|]. intros _ w Hw. unfold try_bind, node, asks, bind. cbn.
    unfold held in *. destruct (w_nodes w !! p) as [[mode o [|q t]| | |]|] eqn:Hn; cbn; rewrite ?Hn; (split; [auto|]);
      intros a [=]; subst; done.
  - intros [q t] w [Hw Hh]. rewrite Hh in Hw. by apply (Hk q t Hw w).
Qed.

Lemma spec_commit q t t' (I : cond) (χ : unit -> cond) :
  I (Some (Sqlite q t)) -> I (Some (Sqlite q t')) -> χ tt (Some (Sqlite q t')) ->
  spec (eq (Some (Sqlite q t))) (commit p t') I χ.
Proof.
  intros H1 H2 H3. unfold commit, sql. apply spec_skip; [apply same_call|by intros h <-|]. intros _ w Hw.
  unfold try_bind, node, asks, bind. cbn. unfold held in *.
  destruct (w_nodes w !! p) as [[mode o [|q' t0]| | |]|] eqn:Hn; try done. injection Hw as <- <-. cbn.
  rewrite lookup_insert_eq. split; [done|]. by intros [] _.
Qed.

Lemma spec_metadata {B} (φ : cond) (k : option Node -> io B) I χ :
  (forall h, φ h -> I h) ->
  (forall mode o c, φ (Some c) -> spec (eq (Some c)) (k (Some (Regular mode o c))) I χ) ->
  (forall n, spec (fun h => φ h /\ h = None) (k n) I χ \/ exists mode o c, n = Some (Regular mode o c)) ->
  spec φ (try_bind (symlink_metadata p) k) I χ.
Proof.
  intros HI Hr Hn. eapply (spec_try _ _ _ _ (fun n h => φ h /\
    h = match n with Some (Regular _ _ c) => Some c | _ => None end)).
  - unfold symlink_metadata, sys. apply spec_skip; [apply same_call|done|]. intros _ w Hw. cbn. split; [by apply HI|].
    intros a [= <-]. done.
  - intros n. destruct n as [[mode o c| | |]|]; [intros w [Hw Hh]; rewrite Hh in Hw; by apply (Hr mode o c Hw w)|..];
      match goal with |- context [k ?n] => destruct (Hn n) as [H|(?&?&?&?)]; [|done] end;
      by (eapply spec_weaken; [exact H|..]).
Qed.

(** The store is gone from its path once it was renamed. *)
Lemma spec_rename (φ : cond) to (I : cond) :
  to <> p -> (forall h, φ h -> I h) -> I None -> spec φ (rename p to) I (fun _ h => h = None).
Proof.
  intros Hto HI Hnone. unfold rename, sys. apply spec_skip; [apply same_call|done|]. intros _ w Hw.
  unfold try_bind, node, asks, bind. cbn. unfold held in *. destruct (w_nodes w !! p) as [n|] eqn:Hn; cbn.
  - rewrite lookup_insert_ne, lookup_delete_eq by done. split; [done|]. by intros a _.
  - rewrite Hn. split; [done|]. by intros a _.
Qed.

Lemma same_rename from to : from <> p -> to <> p -> keeps (same p) (rename from to).
Proof.
  intros Hf Ht. unfold rename, sys. apply keeps_try; [apply same_call|]. intros _ w.
  unfold try_bind, node, asks, bind, same. cbn. destruct (w_nodes w !! from) as [n|] eqn:Hn; [|done]. cbn. unfold held. cbn.
  by rewrite lookup_insert_ne, lookup_delete_ne by done.
Qed.

Lemma spec_move_aside now (φ I : cond) :
  (forall h, φ h -> I h) -> I None -> spec φ (move_aside p now) I (fun _ h => h = None).
Proof.
  intros HI Hn. unfold move_aside. set (stamp := drop_byte ":" (format_timestamp now)).
  change (aside p now) with (p +:+ ".corrupt-" +:+ stamp).
  assert (forall s, s <> "" -> p +:+ s <> p) as Hne by (intros s Hs; by apply not_eq_sym, str_app_longer).
  eapply spec_try; [apply spec_rename; [by apply Hne|exact HI|done]|]. intros moved.
  apply spec_skip; [destruct moved; done|by intros h ->|]. intros _.
  apply spec_skip; [|by intros h ->|by intros _; apply spec_done; intros h ->].
  assert (forall s, s <> "" -> keeps (same p) (try! _ := rename (p +:+ s) ((p +:+ ".corrupt-" +:+ stamp) +:+ s) in done tt)) as Hs.
  { intros s Hs. apply keeps_try; [|done]. apply same_rename; [by apply Hne|]. rewrite <- str_app_assoc. by apply Hne. }
  cbn [try_each]. apply keeps_try; [by apply Hs|]. intros _. apply keeps_try; [by apply Hs|done].
Qed.

(** ** Migrations *)

(** Conditions a migration of the tables keeps. *)
Definition upgradable (J : cond) : Prop :=
  forall q t t' now step, J (Some (Sqlite q t)) -> migrated now step t = Some t' -> step ∈ MIGRATIONS ->
    J (Some (Sqlite q t')).

Definition at_version (J : cond) (v : Z) : cond :=
  fun h => J h /\ exists q t, h = Some (Sqlite q t) /\ user_version t = v.

Lemma migrated_version now step t t' v :
  MIGRATIONS !! v = Some step -> user_version t = Z.of_nat v -> migrated now step t = Some t' ->
  user_version t' = Z.of_nat v + 1.
Proof.
  unfold migrated. intros Hs Hv Hm. destruct v as [|[|[|v]]]; try done; injection Hs as <-; cbn in Hm;
    destruct t; try done; cbn in *.
  - by injection Hm as <-.
  - by injection Hm as <-.
  - destruct (mapM _ _); [|done]. case_match; [done|]. by injection Hm as <-.
Qed.

Lemma spec_apply_migration now step J v :
  upgradable J -> MIGRATIONS !! v = Some step ->
  spec (at_version J (Z.of_nat v)) (apply_migration p now step) J (fun _ => at_version J (Z.of_nat v + 1)).
Proof.
  intros HJ Hs. unfold apply_migration. apply spec_tables; [by intros h []|].
  intros q t (Hj & q' & t0 & [= <- <-] & Hv). destruct (mg_sql step now t) as [t'|] eqn:Hm; [|by apply spec_fail; intros h <-].
  destruct (mg_rebuilds step && _) eqn:Hr; [by apply spec_fail; intros h <-|].
  assert (migrated now step t = Some t') as Hmig by (unfold migrated; by rewrite Hm, Hr).
  assert (J (Some (Sqlite q t'))) as Hj' by (eapply HJ; [exact Hj|exact Hmig|by eapply list_elem_of_lookup_2]).
  apply spec_commit; [done|done|]. split; [done|]. exists q, t'. split; [done|]. by eapply migrated_version.
Qed.

Lemma spec_migrate_step now step J v :
  upgradable J -> MIGRATIONS !! v = Some step ->
  spec (at_version J (Z.of_nat v)) (migrate_step p now step) J (fun _ => at_version J (Z.of_nat v + 1)).
Proof.
  intros HJ Hs. unfold migrate_step, sql. apply spec_skip; [destruct (mg_rebuilds step); [apply same_call|done]|by intros h []|].
  intros _. eapply spec_catch; [by apply spec_apply_migration|..].
  - intros []. apply spec_skip; [destruct (mg_rebuilds step); [apply same_call|done]|by intros h []|]. intros _.
    apply spec_done. intros h Hh. split; [by destruct Hh|done].
  - intros e. apply spec_skip; [destruct (mg_rebuilds step); [apply same_call|done]|done|]. intros _. by apply spec_fail.
  - apply spec_skip; [destruct (mg_rebuilds step); [apply same_call|done]|done|]. intros _ w Hw. by split.
Qed.

Lemma spec_migrations now J n : forall v,
  upgradable J -> (v + n = 3)%nat ->
  spec (at_version J (Z.of_nat v)) (try_each (migrate_step p now) (drop v MIGRATIONS)) J (fun _ => at_version J 3).
Proof.
  induction n as [|n IH]; intros v HJ Hv.
  - assert (v = 3%nat) as -> by lia. apply spec_done. intros h Hh. split; [by destruct Hh|done].
  - destruct (MIGRATIONS !! v) as [step|] eqn:Hs; [|apply lookup_ge_None in Hs; cbn in Hs; lia].
    rewrite (drop_S _ step) by done. cbn [try_each]. eapply spec_try; [by apply spec_migrate_step|]. intros [].
    replace (Z.of_nat v + 1) with (Z.of_nat (S v)) by lia. apply IH; [done|lia].
Qed.

Lemma user_version_bound t : 0 <= user_version t.
Proof. unfold user_version, SCHEMA_VERSION. destruct t; lia. Qed.

Lemma spec_migrate now J : upgradable J -> spec J (migrate p now) J (fun _ => at_version J 3).
Proof.
  intros HJ. unfold migrate. apply spec_tables; [done|]. intros q t Hj. unfold SCHEMA_VERSION.
  pose proof (user_version_bound t). destruct (Z.ltb_spec 3 (user_version t)); [by apply spec_fail; intros h <-|].
  eapply spec_weaken; [apply (spec_migrations now J (3 - Z.to_nat (user_version t)) (Z.to_nat (user_version t)) HJ); lia|..]; try done.
  intros h <-. split; [done|]. exists q, t. split; [done|]. lia.
Qed.

Lemma spec_open_existing now J :
  upgradable J ->
  spec J (open_existing p now) J
    (fun _ h => J h /\ exists q t db, h = Some (Sqlite q t) /\ db_of t = Some db).
Proof.
  intros HJ. unfold open_existing, sql. apply spec_skip; [apply same_call|done|]. intros _.
  apply spec_tables; [done|]. intros q t Hj. apply spec_skip; [by destruct (String.eqb q "ok")|by intros h <-|]. intros _.
  apply spec_tables; [by intros h <-|]. intros q' t' [= <- <-].
  apply spec_skip; [by destruct (_ =? 0)|by intros h <-|]. intros _.
  apply spec_skip; [apply same_configure|by intros h <-|]. intros _.
  eapply spec_try; [eapply spec_weaken; [by apply spec_migrate|by intros h <-|done|done]|]. intros ?.
  apply spec_tables; [by intros h []|]. intros q1 t1 (Hj1 & q2 & t2 & [= <- <-] & Hv).
  destruct (meta_row t1) as [[m|]|] eqn:Hm; [|by apply spec_fail; intros h <-..].
  apply spec_done. intros h <-. split; [done|]. split; [done|]. exists q1, t1.
  destruct t1; try done; cbn in Hm. injection Hm as Hm. cbn. rewrite Hm. eauto.
Qed.

(** ** What can be at the path *)

Inductive upgraded : Tables -> Tables -> Prop :=
| upgraded_refl t : upgraded t t
| upgraded_step t t1 t2 now step :
    upgraded t t1 -> step ∈ MIGRATIONS -> migrated now step t1 = Some t2 -> upgraded t t2.

(** A new, empty store in quarantine since [now]. *)
Definition fresh_meta (now : Z) (q : option Z) : MetaRow :=
  {| me_store_created_at := format_timestamp now; me_schema_version := SCHEMA_VERSION;
     me_quarantine_ends_at := option_map format_timestamp q |}.

Definition fresh (now : Z) (q : option Z) : Tables :=
  Tables3 (with_meta (Some (fresh_meta now q)) no_rows) [] [] [] [].

Lemma db_of_fresh now q : db_of (fresh now q) = Some (empty_db now q).
Proof. done. Qed.

(** Tables on the way to a new store. *)
Inductive unfinished : Tables -> Prop :=
| unfinished_0 : unfinished NoTables
| unfinished_1 : unfinished (Tables1 no_rows [] [] [])
| unfinished_2 : unfinished (Tables2 no_rows [] [] [])
| unfinished_3 : unfinished (Tables3 no_rows [] [] [] []).

(** Since the contents were [orig] and stores were opened at [times]: the
    path holds no database, one that was never finished, [orig] as later
    versions of the agent have it, or a new store in quarantine. *)
Inductive lineage (orig : option Contents) (times : list Z) : option Contents -> Prop :=
| lineage_none : lineage orig times None
| lineage_garbage : lineage orig times (Some Garbage)
| lineage_unfinished q t : unfinished t -> lineage orig times (Some (Sqlite q t))
| lineage_orig q t0 t : orig = Some (Sqlite q t0) -> upgraded t0 t -> lineage orig times (Some (Sqlite q t))
| lineage_fresh q now :
    now ∈ times -> lineage orig times (Some (Sqlite q (fresh now (Some (now + QUARANTINE_SECONDS))))).

Lemma unfinished_upgradable t t' now step :
  unfinished t -> migrated now step t = Some t' -> step ∈ MIGRATIONS -> unfinished t'.
Proof.
  intros Ht Hm Hs. unfold MIGRATIONS in Hs. rewrite !elem_of_cons, elem_of_nil in Hs.
  destruct Hs as [->|[->|[->|[]]]], Ht; vm_compute in Hm; try done; injection Hm as <-;
    first [exact unfinished_1|exact unfinished_2|exact unfinished_3].
Qed.

Lemma fresh_upgrades now q now' step : step ∈ MIGRATIONS -> migrated now' step (fresh now q) = None.
Proof.
  intros Hs. unfold MIGRATIONS in Hs. rewrite !elem_of_cons, elem_of_nil in Hs. by destruct Hs as [->|[->|[->|[]]]].
Qed.

Lemma lineage_upgradable orig times : upgradable (lineage orig times).
Proof.
  intros q t t' now step Hl Hm Hs. inversion Hl; subst.
  - apply lineage_unfinished. by eapply unfinished_upgradable.
  - eapply lineage_orig; [done|]. by econstructor.
  - by rewrite fresh_upgrades in Hm.
Qed.

Lemma lineage_later orig times now h : lineage orig times h -> lineage orig (now :: times) h.
Proof.
  intros []; [constructor..| | |].
  - by apply lineage_unfinished.
  - by eapply lineage_orig.
  - apply lineage_fresh. by right.
Qed.

Definition building (h : option Contents) : Prop :=
  h = None \/ exists t, h = Some (Sqlite "ok" t) /\ unfinished t.

Lemma building_upgradable : upgradable building.
Proof.
  intros q t t' now step [|(t0 & [= -> ->] & Hu)] Hm Hs; [done|]. right. exists t'. split; [done|].
  by eapply unfinished_upgradable.
Qed.

Lemma building_lineage orig times h : building h -> lineage orig times h.
Proof. intros [->|(t & -> & Hu)]; [constructor|]. by apply lineage_unfinished. Qed.

Lemma spec_create_new (φ : cond) :
  (forall h, φ h -> building h) -> spec φ (create_new p) building (fun _ => building).
Proof.
  intros Hb. unfold create_new, sys. apply spec_skip; [apply same_call|done|]. intros _ w Hw.
  unfold try_bind, node, asks, bind. cbn. destruct (w_nodes w !! p) as [n|] eqn:Hn; cbn.
  - split; [by apply Hb|]. by intros a [=].
  - assert (building (held p {| w_nodes := <[p := Regular FILE_MODE None (Sqlite "ok" NoTables)]> (w_nodes w);
                                w_faults := w_faults w |})) as H; [|by split].
    unfold held. cbn. rewrite lookup_insert_eq. right. exists NoTables. split; [done|constructor].
Qed.

Lemma spec_create config now q (I : cond) :
  path config = p -> (forall h, building h -> I h) -> I (Some (Sqlite "ok" (fresh now q))) ->
  spec (eq None) (create config now q) I (fun _ => eq (Some (Sqlite "ok" (fresh now q)))).
Proof.
  intros Hp HI Hf. unfold create, sql. rewrite Hp.
  apply (spec_try _ _ _ _ (fun _ => building)).
  { apply (spec_weaken building _ _ building _ (fun _ => building)); [by apply spec_create_new|by left|done|done]. }
  intros [].
  apply spec_skip; [apply same_secure_file|done|]. intros _. apply spec_skip; [apply same_call|done|]. intros _.
  apply spec_skip; [apply same_configure|done|]. intros _.
  apply (spec_try _ _ _ _ (fun _ => at_version building 3)).
  { eapply spec_weaken; [apply spec_migrate, building_upgradable|done|done|done]. }
  intros [].
  apply spec_tables; [intros h [Hb _]; auto|].
  intros q0 t ([|(t0 & [= -> <-] & Hu)] & q1 & t1 & [= <- <-] & Hv); [done|].
  destruct Hu; try done. apply spec_commit; [|done|done]. apply HI. right. eexists. split; [done|constructor].
Qed.

(** What a successful open leaves: [orig] upgraded, or a store opened as new
    at one of [times], in quarantine. *)
Definition settled (orig : option Contents) (times : list Z) (h : option Contents) : Prop :=
  exists q t db, h = Some (Sqlite q t) /\ db_of t = Some db /\
    ((exists t0, orig = Some (Sqlite q t0) /\ upgraded t0 t) \/
     exists now, now ∈ times /\ db = empty_db now (Some (now + QUARANTINE_SECONDS))).

Lemma lineage_settled orig times q t db :
  lineage orig times (Some (Sqlite q t)) -> db_of t = Some db -> settled orig times (Some (Sqlite q t)).
Proof.
  intros Hl Hd. inversion Hl as [| |q' t' Hu|q' t0 t' Ho Hup|q' now Hn]; subst.
  - by inversion Hu; subst.
  - exists q, t, db. split_and!; [done|done|left; eauto].
  - exists q. eexists _, _. split; [done|]. split; [apply db_of_fresh|]. right. eauto.
Qed.

Section opening.
Context (orig : option Contents) (times : list Z) (config : StoreConfig) (now : Z).
Context (Hpath : path config = p).

Abbreviation later := (lineage orig (now :: times)).

(** A report says the truth about what is at the path. *)
Definition opened (report : OpenReport) (h : option Contents) : Prop :=
  later h /\ settled orig (now :: times) h /\
  (recreated report = true -> h = Some (Sqlite "ok" (fresh now (Some (now + QUARANTINE_SECONDS))))).

Lemma spec_open_new a : spec (eq None) (open_new config now a true) later opened.
Proof.
  assert (later (Some (Sqlite "ok" (fresh now (Some (now + QUARANTINE_SECONDS)))))) as Hf by (apply lineage_fresh; by left).
  unfold open_new. eapply spec_try; [apply spec_create; [done|apply building_lineage|done]|]. intros [].
  apply spec_skip; [apply same_secure_files|by intros h <-|]. intros _. apply spec_done. intros h <-.
  split; [done|]. split_and!; [done| |done]. eapply lineage_settled; [done|apply db_of_fresh].
Qed.

Lemma spec_open_aside : spec later (open_aside config now) later opened.
Proof.
  unfold open_aside. rewrite Hpath. eapply spec_try; [apply spec_move_aside; [done|constructor]|]. intros target.
  eapply spec_weaken; [apply spec_open_new|..]; auto.
Qed.

(** One attempt to open the store of a server that has trusted keys. *)
Lemma spec_open : spec (lineage orig times) (open config true now) later opened.
Proof.
  apply (spec_weaken later _ _ later later opened opened); [|apply lineage_later|done|done].
  unfold open. rewrite Hpath. apply spec_skip; [apply same_ensure_dir|done|]. intros _.
  apply spec_metadata; [done| |].
  - intros mode o c Hc.
    apply (spec_catch _ _ _ _ (fun _ h => later h /\ exists q t db, h = Some (Sqlite q t) /\ db_of t = Some db)).
    + eapply spec_weaken; [apply spec_open_existing, lineage_upgradable|by intros h <-|done|done].
    + intros []. apply spec_skip; [apply same_secure_files|by intros h []|]. intros _.
      apply spec_skip; [apply same_read_quarantine|by intros h []|]. intros q. apply spec_done.
      intros h (Hl & q' & t & db & -> & Hd). split; [done|]. split_and!; [done|by eapply lineage_settled|done].
    + intros []; [apply spec_open_aside..|by apply spec_fail].
    + intros w Hw. by split.
  - intros [[mode o c|mode o| |]|]; [right; eauto|left..].
    + eapply spec_weaken; [apply spec_open_aside|by intros h []|auto|auto].
    + eapply spec_weaken; [apply spec_open_aside|by intros h []|auto|auto].
    + eapply spec_weaken; [apply spec_open_aside|by intros h []|auto|auto].
    + eapply spec_weaken; [apply spec_open_new|by intros h [_ ->]|auto|auto].
Qed.

(** A re-seed that returns leaves a new store in quarantine. *)
Lemma spec_reseed :
  spec (lineage orig times) (reseed config now) later
    (fun _ => eq (Some (Sqlite "ok" (fresh now (Some (now + QUARANTINE_SECONDS)))))).
Proof.
  unfold reseed. rewrite Hpath. apply spec_skip; [apply same_metadata|apply lineage_later|]. intros meta.
  apply (spec_try _ _ _ _ (fun _ => lineage orig times)).
  { destruct meta as [n|]; [|apply spec_done; intros h Hh; split; [by apply lineage_later|done]].
    eapply spec_try; [apply spec_move_aside; [apply lineage_later|constructor]|]. intros target. apply spec_done.
    intros h ->. split; constructor. }
  intros moved. eapply spec_try; [apply spec_open|]. intros report.
  destruct (recreated report) eqn:Hr; cbn [negb]; [apply spec_done|apply spec_fail]; intros h (Hl & _ & Hrep); [|done].
  split; [done|]. by rewrite Hrep.
Qed.

End opening.
End triples.

(** ** What an upgrade keeps *)

(** What every version of the store has in common: the tables no migration
    reshapes, admissions as the last version has them, sealed bytes with
    their digest and plan, and deliveries as they were received. *)
Record Records := {
  r_created_at : option string; r_quarantine : option (option string); r_common : Common;
  r_admissions : list AdmissionRow; r_sealed : list (string * string * string);
  r_deliveries : list (string * string * string * string * string * string * string * string)
}.

Definition records_of (k : Common) (admissions : list AdmissionRow) (sealed : list (string * string * string))
    (deliveries : list (string * string * string * string * string * string * string * string)) : Records :=
  {| r_created_at := me_store_created_at <$> k_meta k; r_quarantine := me_quarantine_ends_at <$> k_meta k;
     r_common := with_meta None k; r_admissions := admissions; r_sealed := sealed; r_deliveries := deliveries |}.

Definition sealed_bytes (s : SealedRow) : string * string * string :=
  (se_ciphertext_digest_hex s, se_plan_id s, se_ciphertext s).

Definition received (d : DeliveryRow) : string * string * string * string * string * string * string * string :=
  (dl_delivery_id d, dl_provider d, dl_body_digest_hex d, dl_repo d, dl_ref d, dl_commit_sha d, dl_commit_time d,
   dl_received_at d).

Definition received1 (d : DeliveryRow1) : string * string * string * string * string * string * string * string :=
  (d1_delivery_id d, d1_provider d, d1_body_digest_hex d, d1_repo d, d1_ref d, d1_commit_sha d, d1_commit_time d,
   d1_received_at d).

Definition records (t : Tables) : option Records :=
  match t with
  | Tables1 k admissions sealed deliveries =>
      Some (records_of k (add_environment_id <$> admissions) ((fun s => sealed_bytes (add_scope s)) <$> sealed)
              (received1 <$> deliveries))
  | Tables2 k admissions sealed deliveries =>
      Some (records_of k admissions (sealed_bytes <$> sealed) (received1 <$> deliveries))
  | Tables3 k admissions sealed deliveries _ =>
      Some (records_of k admissions (sealed_bytes <$> sealed) (received <$> deliveries))
  | _ => None
  end.

Section upgrades.
Context {SS : SqliteStamp}.

Lemma rebuild_received now d d' : rebuild_delivery now d = Some d' -> received d' = received1 d.
Proof. unfold rebuild_delivery. destruct (seven_days_later _); [|done]. destruct (_ && _); [|done]. by intros [= <-]. Qed.

Lemma records_of_version v k a s d : records_of (set_schema_version v k) a s d = records_of k a s d.
Proof. unfold records_of, set_schema_version. cbn. by destruct (k_meta k). Qed.

Lemma migrated_records now step t t' r :
  step ∈ MIGRATIONS -> migrated now step t = Some t' -> records t = Some r -> records t' = Some r.
Proof.
  intros Hs Hm Hr. unfold MIGRATIONS in Hs. rewrite !elem_of_cons, elem_of_nil in Hs. unfold migrated in Hm.
  destruct Hs as [->|[->|[->|[]]]]; cbn [mg_sql mg_rebuilds andb] in Hm; destruct t; try done.
  - cbn in Hm. injection Hm as <-. rewrite <- Hr. cbn [records]. rewrite records_of_version.
    by rewrite <- list_fmap_compose.
  - cbn [schema_v3] in Hm. destruct (mapM _ _) as [rows|] eqn:Hrows; [|done].
    destruct (negb _); [done|]. injection Hm as <-. rewrite <- Hr. cbn [records]. rewrite records_of_version.
    do 2 f_equal. apply mapM_Some in Hrows. clear -Hrows. induction Hrows as [|d d' ds ds' Hd _ IH]; [done|].
    cbn. rewrite IH. f_equal. by eapply rebuild_received.
Qed.

Lemma upgraded_records t t' r : upgraded t t' -> records t = Some r -> records t' = Some r.
Proof. induction 1; intros Hr; [done|]. eapply migrated_records; eauto. Qed.

Lemma upgraded_from_nothing t t' : upgraded t t' -> unfinished t -> unfinished t'.
Proof. induction 1; intros Hu; [done|]. eapply unfinished_upgradable; [by apply IHupgraded|done|done]. Qed.

Lemma upgraded_from_newer t t' v : upgraded t t' -> t = Newer v -> t' = Newer v.
Proof.
  induction 1 as [|t t1 t2 now step _ IH Hs Hm]; intros Ht; [done|]. rewrite (IH Ht) in Hm.
  unfold MIGRATIONS in Hs. rewrite !elem_of_cons, elem_of_nil in Hs. by destruct Hs as [->|[->|[->|[]]]].
Qed.

(** A store that can be used was upgraded from one with the same records. *)
Lemma upgraded_same_records t t' db :
  upgraded t t' -> db_of t' = Some db -> exists r, records t = Some r /\ records t' = Some r.
Proof.
  intros Hu Hd. destruct (records t) as [r|] eqn:Hr; [exists r; split; [done|by eapply upgraded_records]|].
  destruct t; try done.
  - apply upgraded_from_nothing in Hu; [|constructor]. by inversion Hu; subst.
  - by rewrite (upgraded_from_newer _ _ _ Hu eq_refl) in Hd.
Qed.

(** ** Attempts to open the store *)

(** A start of the agent with trusted keys present: when, and which of its
    calls fail. *)
Record Attempt := { at_now : Z; at_faults : list bool }.

Definition attempt (config : StoreConfig) (a : Attempt) (nodes : gmap string Node)
  : store_result OpenReport * gmap string Node :=
  let '(r, w) := open config true (at_now a) {| w_nodes := nodes; w_faults := at_faults a |} in (r, w_nodes w).

Definition attempts (config : StoreConfig) (l : list Attempt) (nodes : gmap string Node) : gmap string Node :=
  fold_right (fun a nodes => snd (attempt config a nodes)) nodes l.

Lemma attempts_lineage config nodes l :
  let contents (nodes : gmap string Node) := held (path config) {| w_nodes := nodes; w_faults := [] |} in
  lineage (contents nodes) (at_now <$> l) (contents (attempts config l nodes)).
Proof.
  cbv zeta. induction l as [|a l IH]; cbn [attempts fold_right].
  - unfold held at 2. cbn [w_nodes]. unfold held. cbn [w_nodes].
    destruct (nodes !! path config) as [[mode o [|q t]| | |]|]; [constructor| |constructor..].
    eapply lineage_orig; [done|constructor].
  - rewrite fmap_cons. fold (attempts config l nodes). unfold attempt.
    destruct (spec_open (path config) _ _ config (at_now a) eq_refl
      {| w_nodes := attempts config l nodes; w_faults := at_faults a |} IH) as [H _].
    by destruct (open config true (at_now a) _) as [r w].
Qed.

(** C9. A server with trusted keys starts any number of times, and at each
    start any calls into the file system or the database may fail or the
    process may be killed between them.  When a start reports the store open,
    the store has every record of the one that was there at the beginning
    (upgraded to the current schema), or it is an empty one that refuses
    every plan until 1200 seconds after it was created at one of these
    starts: replay protection is never lost silently. *)
Theorem store_never_forgets config before last nodes report :
  (attempt config last (attempts config before nodes)).1 = Ok report ->
  exists mode o q t db,
    (attempt config last (attempts config before nodes)).2 !! path config = Some (Regular mode o (Sqlite q t)) /\
    db_of t = Some db /\
    ((exists mode0 o0 t0 r, nodes !! path config = Some (Regular mode0 o0 (Sqlite q t0)) /\
        records t0 = Some r /\ records t = Some r) \/
     exists now, now ∈ (at_now <$> last :: before) /\ db = empty_db now (Some (now + QUARANTINE_SECONDS))).
Proof.
  pose proof (attempts_lineage config nodes before) as Hl. cbv zeta in Hl. unfold attempt.
  destruct (spec_open (path config) _ _ config (at_now last) eq_refl
    {| w_nodes := attempts config before nodes; w_faults := at_faults last |} Hl) as [_ Hok].
  destruct (open config true (at_now last) _) as [r w]. cbn [fst snd] in *. intros ->.
  destruct (Hok report eq_refl) as (_ & (q & t & db & Hh & Hd & Hs) & _). unfold held in Hh.
  destruct (w_nodes w !! path config) as [[mode o c| | |]|] eqn:Hn; try done. injection Hh as ->.
  exists mode, o, q, t, db. split; [done|]. split; [done|]. destruct Hs as [(t0 & Ho & Hu)|Hs]; [left|right; exact Hs].
  unfold held in Ho. cbn [w_nodes] in Ho. destruct (nodes !! path config) as [[mode0 o0 c0| | |]|]; try done.
  injection Ho as ->. destruct (upgraded_same_records t0 t db Hu Hd) as (rs & H1 & H2). exists mode0, o0, t0, rs. done.
Qed.

End upgrades.

(** ** Which paths are touched *)

Definition only (T : list string) : relation World :=
  fun w w' => forall q, q ∉ T -> w_nodes w' !! q = w_nodes w !! q.

#[local] Instance only_preorder T : PreOrder (only T).
Proof. split; [by intros w q Hq|]. intros a b c H1 H2 q Hq. rewrite H2, H1 by done. done. Qed.

Section touched.
Context {SS : SqliteStamp} (T : list string).

Lemma only_try {A B} (m : io A) (k : A -> io B) :
  keeps (only T) m -> (forall a, keeps (only T) (k a)) -> keeps (only T) (try_bind m k).
Proof. intros Hm Hk. apply keeps_bind; [done|]. intros []; [apply Hk|intros w; reflexivity..]. Qed.

Lemma only_call e : keeps (only T) (call e).
Proof. intros w q _. unfold call. by destruct (w_faults w) as [|[]]. Qed.
Lemma only_node q : keeps (only T) (node q).
Proof. done. Qed.
Lemma only_done {A} (a : A) : keeps (only T) (done a).
Proof. done. Qed.
Lemma only_fail {A} e : keeps (only T) (@fail A e).
Proof. done. Qed.
Lemma only_ret {A} (r : store_result A) : keeps (only T) (ret r).
Proof. done. Qed.
Lemma only_set_node q n : q ∈ T -> keeps (only T) (set_node q n).
Proof. intros Hq w q' Hq'. cbn. by rewrite lookup_insert_ne by (intros ->; done). Qed.

Lemma only_update q f : q ∈ T -> keeps (only T) (update_node q f).
Proof.
  intros Hq. apply only_try; [apply only_call|]. intros _. apply only_try; [apply only_node|].
  intros [n|]; [by apply only_set_node|apply only_fail].
Qed.

Lemma only_rename from to : from ∈ T -> to ∈ T -> keeps (only T) (rename from to).
Proof.
  intros Hf Ht. apply only_try; [apply only_call|]. intros _. apply only_try; [apply only_node|].
  intros [n|]; [|apply only_done]. intros w q Hq. cbn.
  by rewrite lookup_insert_ne, lookup_delete_ne by (intros ->; done).
Qed.

Lemma only_each {A} (f : A -> io unit) l : (forall x, x ∈ l -> keeps (only T) (f x)) -> keeps (only T) (try_each f l).
Proof.
  induction l as [|x l IH]; intros Hf; cbn [try_each]; [apply only_done|].
  apply only_try; [apply Hf; by left|]. intros _. apply IH. intros y Hy. apply Hf. by right.
Qed.

End touched.

Create HintDb only_paths.
#[export] Hint Resolve only_call only_node only_done only_fail only_ret only_set_node only_update only_rename : only_paths.

(** Opens a call down to primitives. *)
Ltac only_paths :=
  repeat match goal with
  | |- keeps _ _ => solve [eauto 3 with only_paths typeclass_instances]
  | |- keeps _ (try_bind _ _) => apply only_try; [|intros ?]
  | |- keeps _ (Effects.bind _ _) => apply keeps_bind; [|intros ?]
  | |- keeps _ (try_each _ _) => apply only_each; intros ? ?
  | |- keeps _ (if ?x then _ else _) => destruct x
  | |- keeps _ (let '_ := ?x in _) => destruct x
  | |- keeps _ (match ?x with _ => _ end) => destruct x
  end.

(** The paths of the store, and those it is moved to. *)
Definition store_paths (p : string) : list string :=
  [p; p +:+ "-wal"; p +:+ "-shm"] ++ match parent p with Some d => [d] | None => [] end.

Definition aside_paths (p : string) (now : Z) : list string :=
  [aside p now; aside p now +:+ "-wal"; aside p now +:+ "-shm"].

Section footprint.
Context {SS : SqliteStamp} (config : StoreConfig) (now : Z).
Context (T : list string).
Abbreviation p := (path config).
Context (Hp : p ∈ T) (Hwal : p +:+ "-wal" ∈ T) (Hshm : p +:+ "-shm" ∈ T).

Lemma only_tables_of q : keeps (only T) (tables_of q).
Proof. unfold tables_of, sql. only_paths. Qed.

Lemma only_commit t : keeps (only T) (commit p t).
Proof. unfold commit, sql. only_paths. Qed.

Lemma only_secure_file q o : q ∈ T -> keeps (only T) (secure_file q o).
Proof. intros Hq. unfold secure_file, chown, set_permissions. only_paths. Qed.

Lemma only_secure_files : keeps (only T) (secure_files config).
Proof.
  unfold secure_files. apply only_each. intros s Hs. assert (p +:+ s ∈ T) as Hin.
  { rewrite !elem_of_cons, elem_of_nil in Hs. destruct Hs as [->|[->|[->|[]]]]; by rewrite ?str_app_nil_r. }
  unfold symlink_metadata, sys. apply only_try; [only_paths|]. intros [[]|]; only_paths. by apply only_secure_file.
Qed.

Lemma only_configure : keeps (only T) (configure p).
Proof.
  unfold configure, make_beside, sql. apply only_try; [apply only_tables_of|]. intros _. only_paths.
Qed.

Lemma only_migrate : keeps (only T) (migrate p now).
Proof.
  unfold migrate. apply only_try; [apply only_tables_of|]. intros [q t]. destruct (_ <? _); [only_paths|].
  apply only_each. intros step _. unfold migrate_step, sql. apply only_try; [only_paths|]. intros _.
  apply keeps_bind; [|intros r; only_paths]. unfold apply_migration. apply only_try; [apply only_tables_of|].
  intros [q' t']. only_paths. apply only_commit.
Qed.

Lemma only_create q : keeps (only T) (create config now q).
Proof.
  unfold create, create_new, sys, sql. apply only_try; [only_paths|]. intros _.
  apply only_try; [by apply only_secure_file|]. intros _. apply only_try; [only_paths|]. intros _.
  apply only_try; [apply only_configure|]. intros _. apply only_try; [apply only_migrate|]. intros _.
  apply only_try; [apply only_tables_of|]. intros [q' t']. only_paths. apply only_commit.
Qed.

Lemma only_open_existing : keeps (only T) (open_existing p now).
Proof.
  unfold open_existing, sql. apply only_try; [only_paths|]. intros _. apply only_try; [apply only_tables_of|].
  intros [q t]. apply only_try; [only_paths|]. intros _. apply only_try; [apply only_tables_of|]. intros [q' t'].
  apply only_try; [only_paths|]. intros _. apply only_try; [apply only_configure|]. intros _.
  apply only_try; [apply only_migrate|]. intros _. apply only_try; [apply only_tables_of|]. intros [q1 t1]. only_paths.
Qed.

Lemma only_open_new a r : keeps (only T) (open_new config now a r).
Proof.
  unfold open_new. apply only_try; [apply only_create|]. intros _. apply only_try; [apply only_secure_files|].
  intros _. only_paths.
Qed.

Context (Hdir : forall d, parent p = Some d -> d ∈ T).
Context (Haside : forall q, q ∈ aside_paths p now -> q ∈ T).

Lemma only_ensure_dir o : keeps (only T) (ensure_dir p o).
Proof.
  unfold ensure_dir, symlink_metadata, sys, chown, set_permissions. destruct (parent p) as [d|] eqn:Hd; [|only_paths].
  specialize (Hdir d eq_refl). only_paths.
Qed.

Lemma only_move_aside : keeps (only T) (move_aside p now).
Proof.
  assert (forall q, q = aside p now \/ q = aside p now +:+ "-wal" \/ q = aside p now +:+ "-shm" -> q ∈ T) as Ha.
  { intros q Hq. apply Haside. unfold aside_paths. rewrite !elem_of_cons. tauto. }
  unfold move_aside. apply only_try; [apply only_rename; auto|]. intros moved.
  apply only_try; [only_paths|]. intros _. apply only_try; [|intros _; only_paths]. apply only_each. intros s Hs.
  rewrite !elem_of_cons, elem_of_nil in Hs.
  destruct Hs as [->|[->|[]]]; (apply only_try; [apply only_rename; auto|intros _; only_paths]).
Qed.

Lemma only_open trust : keeps (only T) (open config trust now).
Proof.
  assert (keeps (only T) (open_aside config now)) as Ha.
  { unfold open_aside. apply only_try; [apply only_move_aside|]. intros target. apply only_open_new. }
  unfold open, symlink_metadata, sys. apply only_try; [apply only_ensure_dir|]. intros _.
  apply only_try; [only_paths|]. intros [[mode o c|mode o| |]|]; try done; [|apply only_open_new].
  apply keeps_bind; [apply only_open_existing|]. intros [r|e|]; [|destruct e; only_paths|only_paths].
  apply only_try; [apply only_secure_files|]. intros _. unfold read_quarantine.
  apply only_try; [apply only_try; [apply only_tables_of|intros [q t]; only_paths]|]. intros q. only_paths.
Qed.

Lemma only_reseed : keeps (only T) (reseed config now).
Proof.
  unfold reseed, symlink_metadata, sys. apply only_try; [only_paths|]. intros meta.
  apply only_try; [|intros moved].
  - destruct meta; [|only_paths]. apply only_try; [apply only_move_aside|]. intros target. only_paths.
  - apply only_try; [apply only_open|]. intros report. only_paths.
Qed.

End footprint.

(** ** A trust reset *)

Section reset.
Context {SS : SqliteStamp} (paths : TrustResetPaths) (now : Z) (o : option StoreOwner).
Abbreviation db := (admissions_db paths).
Abbreviation keys := (trusted_keys paths).
Abbreviation config := {| path := db; sc_owner := o |}.
Abbreviation backup := (backup_path keys now).

(** The paths of the store and of the audit log are not those of the keys. *)
Definition audit_paths (p : string) : list string := p :: match parent p with Some d => [d] | None => [] end.

Definition apart : Prop :=
  keys ∉ store_paths db ++ aside_paths db now ++ audit_paths (audit_log paths) /\
  backup ∉ store_paths db ++ aside_paths db now ++ audit_paths (audit_log paths) /\
  db ∉ audit_paths (audit_log paths).

Context (Hapart : apart).

Lemma reseed_footprint : keeps (only (store_paths db ++ aside_paths db now)) (reseed config now).
Proof.
  apply (only_reseed config now); cbn [path]; unfold store_paths, aside_paths.
  1-3: rewrite !elem_of_app, !elem_of_cons; tauto.
  - intros d ->. rewrite !elem_of_app, !elem_of_cons. tauto.
  - intros q Hq. rewrite elem_of_app. by right.
Qed.

Lemma audit_footprint p : keeps (only (audit_paths p)) (append_audit p).
Proof.
  unfold append_audit, audit_paths, sys. apply only_try.
  - destruct (parent p) as [d|]; only_paths. apply only_set_node. by right; left.
  - intros _. apply only_try; [only_paths|]. intros _. apply only_try; [only_paths|]. intros n.
    apply only_try; [|intros _; only_paths]. destruct n as [[]|]; only_paths. apply only_set_node. by left.
Qed.

Lemma keys_not_backup : keys <> backup.
Proof. unfold backup_path. by apply str_app_longer. Qed.

Lemma metadata_inv q (w w1 : World) r :
  symlink_metadata q w = (r, w1) -> w_nodes w1 = w_nodes w /\ forall n, r = Ok n -> n = w_nodes w !! q.
Proof.
  unfold symlink_metadata, sys, call, node, try_bind, Effects.bind, asks.
  destruct (w_faults w) as [|[] l]; intros [= <- <-]; (split; [done|]); by intros n [= <-].
Qed.

Lemma rename_inv from to (w w1 : World) r :
  rename from to w = (r, w1) ->
  (r <> Ok true /\ w_nodes w1 = w_nodes w) \/
  (r = Ok true /\ exists n, w_nodes w !! from = Some n /\ w_nodes w1 = <[to := n]> (delete from (w_nodes w))).
Proof.
  unfold rename, sys, call, node, try_bind, Effects.bind, asks.
  destruct (w_faults w) as [|[] l]; cbn; try (intros [= <- <-]; by left);
    (destruct (w_nodes w !! from) as [n|]; intros [= <- <-]; [right; eauto|by left]).
Qed.

Lemma try_step {A B} (m : io A) (k : A -> io B) w :
  exists r w1, m w = (r, w1) /\
    try_bind m k w = match r with Ok a => k a w1 | Err e => (Err e, w1) | Panic => (Panic, w1) end.
Proof. unfold try_bind, Effects.bind. destruct (m w) as [r w1]. exists r, w1. by destruct r. Qed.

Lemma lineage_start h : lineage h [] h.
Proof. destruct h as [[|q t]|]; [constructor| |constructor]. eapply lineage_orig; [done|constructor]. Qed.

Lemma reseed_inv (w w1 : World) r :
  reseed config now w = (r, w1) ->
  (forall q, q ∉ store_paths db ++ aside_paths db now -> w_nodes w1 !! q = w_nodes w !! q) /\
  (forall report, r = Ok report -> held db w1 = Some (Sqlite "ok" (fresh now (Some (now + QUARANTINE_SECONDS))))).
Proof.
  intros Hr. split.
  - intros q Hq. pose proof (reseed_footprint w q Hq) as H. by rewrite Hr in H.
  - intros report ->. destruct (spec_reseed db (held db w) [] config now eq_refl w (lineage_start _)) as [_ H].
    rewrite Hr in H. symmetry. by eapply H.
Qed.

(** The keys are where they were, or the store is a new one in quarantine and
    the keys are at the backup path. *)
Definition keys_safe (w w' : World) : Prop :=
  w_nodes w' !! keys = w_nodes w !! keys \/
  (w_nodes w' !! keys = None /\ w_nodes w' !! backup = w_nodes w !! keys /\
   held db w' = Some (Sqlite "ok" (fresh now (Some (now + QUARANTINE_SECONDS))))).

(** The second half: the keys are moved after the store was re-seeded. *)
Lemma move_keys_safe w w1 :
  w_nodes w1 !! keys = w_nodes w !! keys ->
  held db w1 = Some (Sqlite "ok" (fresh now (Some (now + QUARANTINE_SECONDS)))) ->
  keys_safe w (try_bind (rename keys backup) (fun moved : bool =>
     run! (if moved then done tt else fail StoreError.Io) in
     run! append_audit (audit_log paths) in done (Reset backup)) w1).2.
Proof.
  intros Hk Hd. destruct Hapart as (Ha1 & Ha2 & Ha3). rewrite !elem_of_app in Ha1, Ha2.
  destruct (try_step (rename keys backup) (fun moved : bool =>
     run! (if moved then done tt else fail StoreError.Io) in
     run! append_audit (audit_log paths) in done (Reset backup)) w1) as (r & w2 & Hr & ->).
  apply rename_inv in Hr as [[Hr Hn]|(-> & n & Hn & Hw2)].
  - left. destruct r as [[]|e|]; [done|..]; cbn; by rewrite Hn, Hk.
  - right. destruct (try_step (append_audit (audit_log paths)) (fun _ => done (Reset backup)) w2)
      as (ra & w3 & Hra & Heq).
    assert (forall q, q ∉ audit_paths (audit_log paths) -> w_nodes w3 !! q = w_nodes w2 !! q) as Hout.
    { intros q Hq. pose proof (audit_footprint (audit_log paths) w2 q Hq) as H. by rewrite Hra in H. }
    match goal with |- w_nodes ?x !! _ = None /\ _ => assert (w_nodes x = w_nodes w3) as Hw;
      [|generalize dependent x; intros wf Hw] end.
    { change (w_nodes (try_bind (append_audit (audit_log paths)) (fun _ => done (Reset backup)) w2).2 = w_nodes w3).
      rewrite Heq. by destruct ra. }
    unfold held. rewrite Hw.
    pose proof (not_eq_sym keys_not_backup). assert (db <> keys) as Hdk.
    { intros He. apply Ha1. left. unfold store_paths. rewrite He. by left. }
    assert (db <> backup) as Hdb. { intros He. apply Ha2. left. unfold store_paths. rewrite He. by left. }
    rewrite !Hout, Hw2 by tauto. split_and!.
    + by rewrite lookup_insert_ne, lookup_delete_eq.
    + rewrite lookup_insert_eq. congruence.
    + by rewrite lookup_insert_ne, lookup_delete_ne.
Qed.

Lemma reset_files_safe w : keys_safe w (reset_files paths now o w).2.
Proof.
  unfold reset_files.
  match goal with |- keys_safe w (try_bind ?m ?k w).2 => destruct (try_step m k w) as (r & w1 & Hr & ->) end.
  apply metadata_inv in Hr as [Hw1 _]. assert (w_nodes w1 !! keys = w_nodes w !! keys) as Hk1 by (by rewrite Hw1).
  destruct r as [n|e|]; [|by left..].
  assert (keys_safe w (try_bind (reseed config now) (fun _ =>
      let! existing := symlink_metadata backup in
      match existing with
      | Ok (Some _) => fail (StoreError.Unsafe "trust reset backup already exists")
      | _ => try_bind (rename keys backup) (fun moved : bool =>
               run! (if moved then done tt else fail StoreError.Io) in
               run! append_audit (audit_log paths) in done (Reset backup))
      end) w1).2) as Hgo; [|destruct n as [[]|]; try done; by left].
  match goal with |- keys_safe w (try_bind ?m ?k w1).2 => destruct (try_step m k w1) as (r2 & w2 & Hr2 & ->) end.
  apply reseed_inv in Hr2 as [Hout Hfresh]. destruct Hapart as (Ha1 & Ha2 & Ha3).
  assert (w_nodes w2 !! keys = w_nodes w !! keys) as Hk2.
  { rewrite <- Hk1. apply Hout. rewrite app_assoc, elem_of_app in Ha1. tauto. }
  destruct r2 as [report|e|]; [|by left..]. specialize (Hfresh report eq_refl). unfold Effects.bind.
  destruct (symlink_metadata backup w2) as [r3 w3] eqn:Hr3. apply metadata_inv in Hr3 as [Hw3 _].
  assert (w_nodes w3 !! keys = w_nodes w !! keys) as Hk3 by (by rewrite Hw3).
  assert (held db w3 = Some (Sqlite "ok" (fresh now (Some (now + QUARANTINE_SECONDS))))) as Hh3
    by (unfold held in *; by rewrite Hw3).
  destruct r3 as [[n3|]|e|]; [by left|by apply move_keys_safe..].
Qed.

(** C11. A trust reset needs the flag, root, a terminal and a typed "yes", and
    without them it changes nothing at all.  Otherwise, whichever of its
    steps fails or is never reached: as long as the admission store has not
    been re-seeded into an empty one in quarantine, trusted-keys.json stays
    in place; and once it is gone from its place it is, unchanged, at the
    backup path. *)
Theorem trust_reset_safe understand euid tty confirm w :
  ((understand && (euid =? 0) && tty && is_some_and confirm (fun line => String.eqb (trim line) "yes")) = false ->
   (trust_reset paths understand euid tty now o confirm w).2 = w) /\
  keys_safe w (trust_reset paths understand euid tty now o confirm w).2.
Proof.
  unfold trust_reset, reset_io. destruct understand, (euid =? 0), tty; cbn [negb andb]; try (split; [done|by left]).
  destruct confirm as [line|]; [|by split; [|left]]. cbn [is_some_and].
  destruct (String.eqb (trim line) "yes"); cbn [negb]; [|by split; [|left]].
  split; [done|]. pose proof (reset_files_safe w) as H. unfold Effects.bind.
  by destruct (reset_files paths now o w) as [[]  w1].
Qed.

End reset.

(** ** Upgrades of sound stores *)

(** Every reference resolves, the meta row is there, and deliveries are as
    the earlier versions wrote them. *)
Definition sound_delivery (d : DeliveryRow1) : bool :=
  is_some (timestamp (d1_received_at d)) && contains_str ["github"; "gitlab"] (d1_provider d)
  && contains_str ["verified"; "stale"; "ignored"] (d1_status d).

Definition sound (t : Tables) : bool :=
  (foreign_key_check t =? 0) &&
  match t with
  | Tables1 k _ _ deliveries | Tables2 k _ _ deliveries => is_some (k_meta k) && forallb sound_delivery deliveries
  | Tables3 k _ _ _ _ => is_some (k_meta k)
  | _ => false
  end.

Section sound.
Context {SS : SqliteStamp}.

(** The migrations a store still needs, one after the other. *)
Definition migrate_all (now : Z) (t : Tables) : option Tables :=
  fold_left (fun t step => match t with Some t => migrated now step t | None => None end)
    (drop (Z.to_nat (user_version t)) MIGRATIONS) (Some t).

Context {SL : SqliteStampLaws}.

Lemma contains_subset l l' s : forallb (contains_str l') l = true -> contains_str l s = true -> contains_str l' s = true.
Proof.
  unfold contains_str. intros Hall Hs. apply existsb_exists in Hs as (x & Hx & Heq). apply String.eqb_eq in Heq as ->.
  by eapply forallb_forall in Hall.
Qed.

Lemma rebuild_sound now d :
  sound_delivery d = true -> exists d', rebuild_delivery now d = Some d' /\ dl_delivery_id d' = d1_delivery_id d.
Proof.
  unfold sound_delivery, rebuild_delivery. intros H. apply andb_true_iff in H as [[Ht Hp]%andb_true_iff Hs].
  destruct (timestamp (d1_received_at d)) as [t|] eqn:Hts; [|done]. rewrite (seven_days_timestamp _ _ Hts).
  assert (contains_str PROVIDER_CHECK (d1_provider d) = true) as -> by (by eapply contains_subset; [|exact Hp]). cbn [andb].
  destruct (String.eqb (d1_status d) "verified") eqn:Hv.
  - destruct (String.ltb _ _); cbn; eauto.
  - assert (contains_str STATUS_CHECK (d1_status d) = true) as ->; [|eauto].
    unfold contains_str in Hs. cbn in Hs. rewrite Hv in Hs. cbn [orb] in Hs.
    by eapply (contains_subset ["stale"; "ignored"]).
Qed.

Lemma rebuild_all now ds :
  forallb sound_delivery ds = true ->
  exists rows, mapM (rebuild_delivery now) ds = Some rows /\ dl_delivery_id <$> rows = d1_delivery_id <$> ds.
Proof.
  induction ds as [|d ds IH]; [by exists []|]. cbn [forallb]. intros [Hd Hds]%andb_true_iff.
  destruct (rebuild_sound now d Hd) as (d' & Hd' & Hid). destruct (IH Hds) as (rows & Hrows & Hids).
  exists (d' :: rows). cbn. rewrite Hd', Hrows. cbn. by rewrite Hid, Hids.
Qed.

Lemma references_version v k s plans deliveries :
  references (set_schema_version v k) s plans deliveries = references k s plans deliveries.
Proof.
  unfold references, set_schema_version. cbn [with_meta k_actions k_specs k_heads k_rules k_invocations
    k_consumptions k_builds k_service_specs k_deployed]. reflexivity.
Qed.

Lemma meta_version v k : is_some (k_meta (set_schema_version v k)) = is_some (k_meta k).
Proof. unfold set_schema_version. cbn [k_meta with_meta]. by destruct (k_meta k). Qed.

Lemma upgrade_2 now k a s d :
  sound (Tables1 k a s d) = true ->
  exists t', migrated now {| mg_sql := fun _ => schema_v2; mg_rebuilds := false |} (Tables1 k a s d) = Some t' /\
    sound t' = true /\ user_version t' = 2.
Proof.
  intros Hs. eexists. split; [reflexivity|]. split; [|done]. rewrite <- Hs. unfold sound. cbn [foreign_key_check].
  by rewrite <- list_fmap_compose, references_version, meta_version.
Qed.

Lemma upgrade_3 now k a s d :
  sound (Tables2 k a s d) = true ->
  exists t', migrated now {| mg_sql := schema_v3; mg_rebuilds := true |} (Tables2 k a s d) = Some t' /\
    sound t' = true /\ user_version t' = 3.
Proof.
  unfold sound at 1. cbn [foreign_key_check]. intros [Hf [Hm Hd]%andb_true_iff]%andb_true_iff.
  destruct (rebuild_all now d Hd) as (rows & Hrows & Hids). unfold migrated. cbn [mg_sql mg_rebuilds schema_v3 andb].
  rewrite Hrows. set (t' := Tables3 _ _ _ _ _).
  assert (foreign_key_check t' = references k s (ad_plan_id <$> a) (d1_delivery_id <$> d)) as Hfk.
  { subst t'. cbn [foreign_key_check]. rewrite references_version, Hids. reflexivity. }
  rewrite Hfk, Hf. cbn [negb]. exists t'. split; [done|]. split; [|done]. unfold sound. rewrite Hfk, Hf. cbn [andb].
  subst t'. cbn [andb]. by rewrite meta_version.
Qed.

Lemma sound_db t : sound t = true -> user_version t = 3 -> exists db, db_of t = Some db.
Proof.
  unfold sound. intros [_ H]%andb_true_iff Hv. destruct t; try done. cbn. destruct (k_meta k); [eauto|done].
Qed.

(** C10. The upgrade of a sound store from any earlier version to the current
    schema never fails and loses nothing: the result can be used at once, has
    the same records, and every reference in it resolves. *)
Theorem upgrade_lossless now t :
  sound t = true ->
  exists t' db, migrate_all now t = Some t' /\ db_of t' = Some db /\ sound t' = true /\ records t' = records t.
Proof.
  intros Hs.
  assert (exists t', migrate_all now t = Some t' /\ upgraded t t' /\ sound t' = true /\ user_version t' = 3)
    as (t' & Hm & Hu & Hs' & Hv).
  { assert (forall k a s d, sound (Tables2 k a s d) = true ->
      exists t', migrated now {| mg_sql := schema_v3; mg_rebuilds := true |} (Tables2 k a s d) = Some t' /\
        upgraded (Tables2 k a s d) t' /\ sound t' = true /\ user_version t' = 3) as H3.
    { intros k a s d H. destruct (upgrade_3 now k a s d H) as (t' & Hm & Hs' & Hv). exists t'. split_and!; try done.
      eapply upgraded_step; [constructor| |exact Hm]. unfold MIGRATIONS. rewrite !elem_of_cons. tauto. }
    destruct t as [|k a s d|k a s d|k a s d r|v]; try (unfold sound in Hs; by rewrite andb_false_r in Hs).
    - destruct (upgrade_2 now k a s d Hs) as (t2 & Hm2 & Hs2 & Hv2). destruct t2 as [| |k2 a2 s2 d2| |]; try done.
      destruct (H3 _ _ _ _ Hs2) as (t3 & Hm3 & Hu3 & Hs3 & Hv3). exists t3. split_and!; try done.
      + unfold migrate_all. change (drop _ MIGRATIONS) with (drop 1 MIGRATIONS). cbn [fold_left drop MIGRATIONS].
        by rewrite Hm2.
      + eapply upgraded_step; [eapply upgraded_step; [constructor| |exact Hm2]| |exact Hm3]; unfold MIGRATIONS;
          rewrite !elem_of_cons; tauto.
    - destruct (H3 _ _ _ _ Hs) as (t3 & Hm3 & Hu3 & Hs3 & Hv3). by exists t3.
    - exists (Tables3 k a s d r). split_and!; [done|constructor|done|done]. }
  destruct (sound_db t' Hs' Hv) as [db Hd]. exists t', db. split_and!; try done.
  destruct (upgraded_same_records t t' db Hu Hd) as (r & -> & ->). done.
Qed.

End sound.

(** ** A store of an earlier version *)

#[local] Instance plain_stamp : SqliteStamp :=
  {| seven_days_later := fun s => match timestamp s with Some t => Some (format_timestamp (t + 7 * 86400)) | None => None end;
     stamp_now := format_timestamp |}.

#[local] Instance plain_stamp_laws : SqliteStampLaws.
Proof. split; [|done]. intros s t H. cbn. by rewrite H. Qed.

Definition here : StoreConfig :=
  {| path := "/var/lib/permanu/agent/admissions.db"; sc_owner := Some {| uid := 990; gid := 991 |} |}.

Definition old_delivery : DeliveryRow1 :=
  {| d1_delivery_id := "d-1"; d1_provider := "github"; d1_body_digest_hex := "00"; d1_repo := "r"; d1_ref := "main";
     d1_commit_sha := "c"; d1_commit_time := "2026-09-23T10:00:00Z"; d1_received_at := "2026-09-23T10:00:00Z";
     d1_status := "verified" |}.

Definition old_common (consumptions : list ConsumptionRow) : Common :=
  {| k_meta := Some {| me_store_created_at := "2026-09-01T00:00:00Z"; me_schema_version := 2;
                       me_quarantine_ends_at := None |};
     k_seen := []; k_actions := []; k_specs := []; k_heads := []; k_rules := []; k_invocations := [];
     k_consumptions := consumptions; k_builds := []; k_cursor := None; k_service_specs := []; k_deployed := [];
     k_events := [] |}.

Definition old_store (consumptions : list ConsumptionRow) : Tables :=
  Tables2 (old_common consumptions) [] [] [old_delivery].

Definition disk (t : Tables) : gmap string Node :=
  {[ "/var/lib/permanu/agent" := Directory DIR_MODE None;
     "/var/lib/permanu/agent/admissions.db" := Regular FILE_MODE None (Sqlite "ok" t) ]}.

Lemma upgrade_lossless_witness :
  sound (old_store []) = true /\
  exists t' db, migrate_all 1790157900 (old_store []) = Some t' /\ db_of t' = Some db /\ sound t' = true /\
    records t' = records (old_store []).
Proof. split; [reflexivity|]. exact (upgrade_lossless 1790157900 (old_store []) eq_refl). Defined.

(** The first start dies while it repairs the directory, the second opens
    the store. *)
Definition killed : Attempt := {| at_now := 1790157900; at_faults := [false; true] |}.
Definition undisturbed : Attempt := {| at_now := 1790158000; at_faults := [] |}.
Definition as_it_was : OpenReport :=
  {| created := false; recreated := false; moved_aside := None; report_quarantine := None |}.

Lemma second_start : (attempt here undisturbed (attempts here [killed] (disk (old_store [])))).1 = Ok as_it_was.
Proof. vm_compute. reflexivity. Qed.

Lemma store_never_forgets_witness :
  (attempt here undisturbed (attempts here [killed] (disk (old_store [])))).1 = Ok as_it_was /\
  exists t db, db_of t = Some db /\
    ((exists mode0 o0 q t0 r, disk (old_store []) !! path here = Some (Regular mode0 o0 (Sqlite q t0)) /\
        records t0 = Some r /\ records t = Some r) \/
     exists now, now ∈ (at_now <$> [undisturbed; killed]) /\ db = empty_db now (Some (now + QUARANTINE_SECONDS))).
Proof.
  split; [exact second_start|].
  destruct (store_never_forgets here [killed] undisturbed (disk (old_store [])) as_it_was second_start)
    as (mode & o & q & t & db & _ & Hd & [(mode0 & o0 & t0 & r & H)|H]);
    exists t, db; (split; [exact Hd|]); [left|right; exact H].
  exists mode0, o0, q, t0, r. exact H.
Defined.

(** A migration that meets a dangling reference fails and is rolled back, and
    the store it leaves is then set aside like a corrupt one. *)
Theorem violating_store_set_aside :
  let dangling := old_store [{| cs_delivery_id := "gone"; cs_rule_id := "r"; cs_plan_id := "p"; cs_consumed_at := "" |}] in
  let '(r, nodes) := attempt here {| at_now := 1790157900; at_faults := [] |} (disk dangling) in
  r = Ok {| created := true; recreated := true; moved_aside := Some (aside (path here) 1790157900);
            report_quarantine := Some 1790159100 |} /\
  nodes !! aside (path here) 1790157900 = Some (Regular FILE_MODE None (Sqlite "ok" dangling)).
Proof. by vm_compute. Qed.

Definition production : TrustResetPaths :=
  {| trusted_keys := "/etc/permanu/trusted-keys.json"; admissions_db := "/var/lib/permanu/agent/admissions.db";
     audit_log := "/var/log/permanu/audit.log" |}.

Lemma trust_reset_safe_witness :
  apart production 1790157900 /\
  (trust_reset production true 0 true 1790157900 None (Some "no") {| w_nodes := disk (old_store []); w_faults := [] |}).2 =
    {| w_nodes := disk (old_store []); w_faults := [] |}.
Proof.
  assert (apart production 1790157900) as Ha.
  { unfold apart. split_and!; (apply (bool_decide_unpack _); vm_compute; exact I). }
  split; [exact Ha|].
  exact (proj1 (trust_reset_safe production 1790157900 None Ha true 0 true (Some "no")
    {| w_nodes := disk (old_store []); w_faults := [] |}) eq_refl).
Defined.
