(* ===== verification/Telemetry.v ===== *)
(** * The telemetry store

    src/local/telemetry/store.rs: records of five kinds in append-only
    segments, one directory per producer, with a sparse block index, eviction
    by age and size, a disk guard, and ordered scans of a snapshot.

    A file is its bytes.  The bytes a segment's [BufWriter] holds back are kept
    beside it, so a crash leaves the file without them.  A call on a directory
    entry (create, rename, remove, open) or a write of data may fail
    ([tl_meta], [tl_data]); a write that fails has written nothing.  Times are
    nanoseconds since the epoch; modes and groups of files are left out. *)

From S2P Require Import Prelude RustStr BTree Json PlanCode Calendar Effects Crypto Store.

(** ** Kinds and producers *)

Definition STORE_VERSION : Z := 1.
Definition SEGMENT_MAX_BYTES : Z := 32 * 1024 * 1024.
Definition SEGMENT_MAX_AGE : Z := 3600 * 1000000000.
Definition BLOCK_BYTES : Z := 64 * 1024.
Definition FRAME_HEADER : Z := 4 + 8 + 8 + 1.
Definition IDX_ENTRY : Z := 33.
Definition MAX_FRAME : Z := 8 * 1024 * 1024.
Definition GIB : Z := 2 ^ 30.
Definition MIB : Z := 2 ^ 20.
Definition DAY_NANOS : Z := 86400 * 1000000000.
Definition EVICTED_SPANS : Z := 4096.
Definition WRITER_BYTES : Z := 256 * 1024.

Inductive Kind := Logs | Traces | Metrics | Analytics | Http.

#[global] Instance Kind_eq_dec : EqDecision Kind.
Proof. solve_decision. Defined.

Definition ALL_KINDS : list Kind := [Logs; Traces; Metrics; Analytics; Http].

Definition kind_dir (k : Kind) : string :=
  match k with
  | Logs => "logs" | Traces => "traces" | Metrics => "metrics" | Analytics => "analytics" | Http => "http"
  end.

Record Retention := { max_age_days : Z; max_bytes : Z }.

Definition default_retention (k : Kind) : Retention :=
  match k with
  | Logs => {| max_age_days := 7; max_bytes := GIB |}
  | Traces => {| max_age_days := 3; max_bytes := 512 * MIB |}
  | Metrics => {| max_age_days := 15; max_bytes := 256 * MIB |}
  | Analytics => {| max_age_days := 30; max_bytes := 256 * MIB |}
  | Http => {| max_age_days := 7; max_bytes := 256 * MIB |}
  end.

Definition retention_valid (r : Retention) : bool :=
  in_range 1 3650 (max_age_days r) && in_range (2 ^ 20) (2 ^ 53 - 1) (max_bytes r).

Inductive Producer := System | Project (id : string) | Otlp (id : string) | OtlpUnattributed.

#[global] Instance Producer_eq_dec : EqDecision Producer.
Proof. solve_decision. Defined.

Definition valid_id (id : string) : bool :=
  negb (is_empty id) && (len id <=? 64) && all_bytes (fun b => is_ascii_alphanumeric b || one_of "-_" b) id.

Definition dir_name (p : Producer) : string :=
  match p with
  | System => "system"
  | Project id => "project:" +:+ id
  | Otlp id => "otlp:" +:+ id
  | OtlpUnattributed => "otlp:unattributed"
  end.

Definition parse_producer (name : string) : option Producer :=
  if String.eqb name "system" then Some System
  else if String.eqb name "otlp:unattributed" then Some OtlpUnattributed
  else match strip_prefix "project:" name with
       | Some id => if valid_id id then Some (Project id) else None
       | None => match strip_prefix "otlp:" name with
                 | Some id => if valid_id id then Some (Otlp id) else None
                 | None => None
                 end
       end.

Definition is_otlp (p : Producer) : bool := match p with Otlp _ | OtlpUnattributed => true | _ => false end.

(** The derived order of producers, as an order of texts. *)
Definition order_key (p : Producer) : string :=
  match p with System => "0" | Project id => "1" +:+ id | Otlp id => "2" +:+ id | OtlpUnattributed => "3" end.

(** ** Cursors *)

Record Cursor := { cu_kind : Kind; cu_producer : Producer; cu_segment : Z; cu_seq : Z }.

Section cursor.
Context {CR : Crypto}.

Definition encode_cursor (c : Cursor) : string :=
  url_encode (join_str "|" ["t1"; kind_dir (cu_kind c); dir_name (cu_producer c); dec_string (cu_segment c);
                            dec_string (cu_seq c)]).

Definition decode_cursor (cursor : string) : option Cursor :=
  if 256 <? len cursor then None
  else
    bytes ← url_decode cursor;
    text ← (if utf8_valid bytes then Some bytes else None);
    match split "|" text with
    | ["t1"; kind; producer; segment; seq] =>
        kind ← find_first (fun k => String.eqb (kind_dir k) kind) ALL_KINDS;
        producer ← parse_producer producer;
        segment ← parse_u64 segment;
        seq ← parse_u64 seq;
        Some {| cu_kind := kind; cu_producer := producer; cu_segment := segment; cu_seq := seq |}
    | _ => None
    end.

End cursor.

(** ** Frames *)

(** [to_le_bytes] of an integer of [n] bytes. *)
Fixpoint le_bytes (n : nat) (z : Z) : string :=
  match n with
  | O => ""
  | S n => String (byte_of (Z.to_N (z mod 256))) (le_bytes n (z / 256))
  end.

(** [from_le_bytes]. *)
Fixpoint le_value (s : string) : Z :=
  match s with
  | EmptyString => 0
  | String b r => Z.of_N (code b) + 256 * le_value r
  end.

Definition u64_at (bytes : string) (at_ : nat) : Z := le_value (String.substring at_ 8 bytes).

(** [as i64]. *)
Definition i64_of_u64 (n : Z) : Z := if n <? 2 ^ 63 then n else n - 2 ^ 64.
Definition i64_at (bytes : string) (at_ : nat) : Z := i64_of_u64 (u64_at bytes at_).

Definition idx_entry (tag a b c d : Z) : string :=
  le_bytes 1 tag +:+ le_bytes 8 a +:+ le_bytes 8 b +:+ le_bytes 8 c +:+ le_bytes 8 d.

(** A record as a segment holds it. *)
Record Rec := { r_seq : Z; r_ts : Z; r_tag : Z; r_payload : string }.

Definition frame_len (payload : string) : Z := FRAME_HEADER + len payload.

Definition frame (r : Rec) : string :=
  le_bytes 4 (frame_len (r_payload r) - 4) +:+ le_bytes 8 (r_seq r) +:+ le_bytes 8 (r_ts r)
  +:+ le_bytes 1 (r_tag r) +:+ r_payload r.

(** The first frame of [bytes] and what follows; [None] is a torn or corrupt
    one. *)
Definition first_frame (bytes : string) : option (Rec * string) :=
  if FRAME_HEADER <=? len bytes then
    let l := le_value (slice_to 4 bytes) in
    if in_range (FRAME_HEADER - 4) MAX_FRAME l && (l <=? len bytes - 4) then
      Some ({| r_seq := u64_at bytes 4; r_ts := i64_at bytes 12; r_tag := le_value (String.substring 20 1 bytes);
               r_payload := String.substring 21 (Z.to_nat (4 + l - 21)) bytes |},
            slice_from (Z.to_nat (4 + l)) bytes)
    else None
  else None.

(** The frames up to the first torn one, and how many bytes they take. *)
Fixpoint frames_fuel (fuel : nat) (bytes : string) : list Rec * Z :=
  match fuel with
  | O => ([], 0)
  | S fuel =>
      match first_frame bytes with
      | None => ([], 0)
      | Some (r, rest) => let '(rs, valid) := frames_fuel fuel rest in (r :: rs, frame_len (r_payload r) + valid)
      end
  end.

Definition parse_frames (bytes : string) : list Rec * Z := frames_fuel (S (String.length bytes)) bytes.

(** ** State *)

Record Segment := {
  first_seq : Z; last_seq : Z; records : Z; seg_bytes : Z; idx_bytes : Z; min_ts : Z; max_ts : Z;
  blocks : list (Z * Z); closed : bool
}.

Definition segment_size (s : Segment) : Z := seg_bytes s + idx_bytes s.

(** [seg] is the bytes the writer has not written yet. *)
Record OpenFiles := { of_buffer : string; of_opened : Z; of_block_fill : Z }.

Record ProducerData := { pd_segments : list Segment; pd_open : option OpenFiles }.

Definition default_producer : ProducerData := {| pd_segments := []; pd_open := None |}.

Definition sum (l : list Z) : Z := fold_right Z.add 0 l.

Definition producer_size (d : ProducerData) : Z := sum (segment_size <$> pd_segments d).

Record Counters := {
  dropped_total : Z; evicted_total : Z; evicted_bytes_total : Z; redacted_total : Z; appended_total : Z
}.

(** [BTreeMap<Producer, ProducerData>], in the order of the producers. *)
Definition Producers : Type := bmap (Producer * ProducerData).

Record KindData := {
  kd_next_seq : Z; kd_producers : Producers; kd_counters : Counters; kd_evicted : list (Z * Z)
}.

Definition default_kind : KindData :=
  {| kd_next_seq := 0; kd_producers := [];
     kd_counters := {| dropped_total := 0; evicted_total := 0; evicted_bytes_total := 0; redacted_total := 0;
                     appended_total := 0 |};
     kd_evicted := [] |}.

Record GuardState := { g_paused : bool; g_system_paused : bool; g_free : Z; g_total : Z }.

Record TelemetryStore := {
  s_retention : Kind -> Retention; s_segment_max_bytes : Z; s_segment_max_age : Z; s_kinds : Kind -> KindData;
  s_guard : GuardState; s_reset_at : option Z
}.

(** The files of one segment, by its first sequence number. *)
Record SegFile := { sg_seg : option string; sg_idx : option string }.

#[global] Instance SegFile_eq_dec : EqDecision SegFile.
Proof. solve_decision. Defined.

Notation Dir := (gmap Z SegFile).

(** The root directory: [store.json], [retention.json] (whether it is a
    regular file, and its bytes), whether there is any other entry, and the
    producers' directories of each kind. *)
Record RootDir := {
  ro_store_json : option string; ro_retention : option (bool * string); ro_other : bool; ro_kinds : Kind -> bmap Dir
}.

Record Tel := {
  tl_root : option RootDir; tl_aside : list (string * RootDir); tl_store : TelemetryStore;
  tl_meta : list bool; tl_data : list bool
}.

Definition io (A : Type) : Type := st Tel (outcome unit A).

Definition done {A} (a : A) : io A := ret (Ok a).
Definition failed {A} : io A := ret (Err tt).

Definition set_root (r : option RootDir) (t : Tel) : Tel :=
  {| tl_root := r; tl_aside := tl_aside t; tl_store := tl_store t; tl_meta := tl_meta t; tl_data := tl_data t |}.
Definition set_store (s : TelemetryStore) (t : Tel) : Tel :=
  {| tl_root := tl_root t; tl_aside := tl_aside t; tl_store := s; tl_meta := tl_meta t; tl_data := tl_data t |}.

(** A call on a directory entry, and a write of data. *)
Definition meta_call : st Tel bool := fun t =>
  match tl_meta t with
  | b :: rest => (negb b, {| tl_root := tl_root t; tl_aside := tl_aside t; tl_store := tl_store t; tl_meta := rest;
                             tl_data := tl_data t |})
  | [] => (true, t)
  end.
Definition data_call : st Tel bool := fun t =>
  match tl_data t with
  | b :: rest => (negb b, {| tl_root := tl_root t; tl_aside := tl_aside t; tl_store := tl_store t;
                             tl_meta := tl_meta t; tl_data := rest |})
  | [] => (true, t)
  end.

Definition sys : io unit := let! ok := meta_call in if ok : bool then done tt else failed.
Definition write : io unit := let! ok := data_call in if ok : bool then done tt else failed.

(** *** Parts of the state *)

Definition kset {A} (k : Kind) (a : A) (f : Kind -> A) : Kind -> A := fun k' => if decide (k' = k) then a else f k'.

Definition pget (p : Producer) (m : Producers) : option ProducerData := snd <$> bget (order_key p) m.
Definition pset (p : Producer) (d : ProducerData) (m : Producers) : Producers := binsert (order_key p) (p, d) m.

Definition with_kinds (f : Kind -> KindData) (s : TelemetryStore) : TelemetryStore :=
  {| s_retention := s_retention s; s_segment_max_bytes := s_segment_max_bytes s;
     s_segment_max_age := s_segment_max_age s; s_kinds := f; s_guard := s_guard s; s_reset_at := s_reset_at s |}.
Definition with_producers (m : Producers) (k : KindData) : KindData :=
  {| kd_next_seq := kd_next_seq k; kd_producers := m; kd_counters := kd_counters k; kd_evicted := kd_evicted k |}.
Definition with_counters (c : Counters) (k : KindData) : KindData :=
  {| kd_next_seq := kd_next_seq k; kd_producers := kd_producers k; kd_counters := c; kd_evicted := kd_evicted k |}.

Definition kind_data (k : Kind) (t : Tel) : KindData := s_kinds (tl_store t) k.
Definition producer_data (k : Kind) (p : Producer) (t : Tel) : option ProducerData := pget p (kd_producers (kind_data k t)).

Definition modify_kind (k : Kind) (f : KindData -> KindData) : st Tel unit := fun t =>
  (tt, set_store (with_kinds (kset k (f (kind_data k t)) (s_kinds (tl_store t))) (tl_store t)) t).

Definition modify_producer (k : Kind) (p : Producer) (f : ProducerData -> ProducerData) : st Tel unit :=
  modify_kind k (fun kd => match pget p (kd_producers kd) with
                           | Some d => with_producers (pset p (f d) (kd_producers kd)) kd
                           | None => kd
                           end).

(** The last segment of a producer. *)
Fixpoint update_last {A} (f : A -> A) (l : list A) : list A :=
  match l with [] => [] | [x] => [f x] | x :: rest => x :: update_last f rest end.

Definition modify_last (k : Kind) (p : Producer) (f : Segment -> Segment) : st Tel unit :=
  modify_producer k p (fun d => {| pd_segments := update_last f (pd_segments d); pd_open := pd_open d |}).
Definition modify_open (k : Kind) (p : Producer) (o : option OpenFiles) : st Tel unit :=
  modify_producer k p (fun d => {| pd_segments := pd_segments d; pd_open := o |}).

(** The files of a producer. *)
Definition dir_of (k : Kind) (p : Producer) (r : RootDir) : Dir := default ∅ (bget (dir_name p) (ro_kinds r k)).
Definition files_of (k : Kind) (p : Producer) (t : Tel) : Dir :=
  match tl_root t with Some r => dir_of k p r | None => ∅ end.

Definition with_dirs (f : Kind -> bmap Dir) (r : RootDir) : RootDir :=
  {| ro_store_json := ro_store_json r; ro_retention := ro_retention r; ro_other := ro_other r; ro_kinds := f |}.

Definition modify_dirs (k : Kind) (f : bmap Dir -> bmap Dir) : st Tel unit := fun t =>
  (tt, set_root (option_map (fun r => with_dirs (kset k (f (ro_kinds r k)) (ro_kinds r)) r) (tl_root t)) t).

Definition modify_file (k : Kind) (p : Producer) (first : Z) (f : SegFile -> SegFile) : st Tel unit :=
  modify_dirs k (fun m => match bget (dir_name p) m with
    | Some d => binsert (dir_name p) (match d !! first with Some sf => <[first := f sf]> d | None => d end) m
    | None => m
    end).

Definition no_file : SegFile := {| sg_seg := None; sg_idx := None |}.
Definition with_seg (s : option string) (f : SegFile) : SegFile := {| sg_seg := s; sg_idx := sg_idx f |}.
Definition with_idx (s : option string) (f : SegFile) : SegFile := {| sg_seg := sg_seg f; sg_idx := s |}.

(** Appends to a file that is open. *)
Definition append_seg (bytes : string) (f : SegFile) : SegFile := with_seg ((fun s => s +:+ bytes) <$> sg_seg f) f.
Definition append_idx (bytes : string) (f : SegFile) : SegFile := with_idx ((fun s => s +:+ bytes) <$> sg_idx f) f.

(** ** Segments *)

Definition new_segment (first : Z) : Segment :=
  {| first_seq := first; last_seq := first; records := 0; seg_bytes := 0; idx_bytes := 0; min_ts := i64_max;
     max_ts := i64_min; blocks := []; closed := false |}.

(** [create_new] of one of the files of a segment: an existing file is an
    error. *)
Definition create_file (k : Kind) (p : Producer) (first : Z) (is_seg : bool) : io unit :=
  run! sys in
  let! there := asks (fun t => default no_file (files_of k p t !! first)) in
  if is_some (if is_seg then sg_seg there else sg_idx there) then failed
  else
    do! modify_dirs k (fun m =>
          binsert (dir_name p)
            (<[first := if is_seg then with_seg (Some "") there else with_idx (Some "") there]>
               (default ∅ (bget (dir_name p) m))) m) in
    done tt.

(** [mkdir] of the producer's directory. *)
Definition make_dir (k : Kind) (p : Producer) : io unit :=
  let! there := asks (fun t => match tl_root t with Some r => bcontains (dir_name p) (ro_kinds r k) | None => false end) in
  if there : bool then done tt
  else
    run! sys in
    do! modify_dirs k (binsert (dir_name p) ∅) in
    done tt.

Definition open_segment (k : Kind) (p : Producer) (first now : Z) : io unit :=
  run! make_dir k p in
  run! create_file k p first true in
  run! create_file k p first false in
  do! modify_kind k (fun kd =>
        let d := default default_producer (pget p (kd_producers kd)) in
        with_producers (pset p {| pd_segments := pd_segments d ++ [new_segment first];
                                  pd_open := Some {| of_buffer := ""; of_opened := now; of_block_fill := 0 |} |}
                          (kd_producers kd)) kd) in
  done tt.

(** [BufWriter::flush] of the open segment's writer. *)
Definition flush_open (k : Kind) (p : Producer) (first : Z) (o : OpenFiles) : io unit :=
  if is_empty (of_buffer o) then done tt
  else
    run! write in
    do! modify_file k p first (append_seg (of_buffer o)) in
    done tt.

Definition write_idx (k : Kind) (p : Producer) (first : Z) (entry : string) : io unit :=
  run! write in
  do! modify_file k p first (append_idx entry) in
  done tt.

(** [open.take()] drops the files when it ends; the writer's last bytes are
    lost with it when they cannot be written. *)
Definition close_open (k : Kind) (p : Producer) : io unit :=
  let! d := asks (producer_data k p) in
  match d with
  | None => done tt
  | Some d =>
      match pd_open d with
      | None => done tt
      | Some o =>
          do! modify_open k p None in
          match last (pd_segments d) with
          | None => done tt
          | Some s =>
              let! flushed := flush_open k p (first_seq s) o in
              match flushed with
              | Ok _ =>
                  run! write_idx k p (first_seq s) (idx_entry 2 (records s) (last_seq s) (min_ts s) (max_ts s)) in
                  do! modify_last k p (fun s =>
                        {| first_seq := first_seq s; last_seq := last_seq s; records := records s; seg_bytes := seg_bytes s;
                           idx_bytes := idx_bytes s + IDX_ENTRY; min_ts := min_ts s; max_ts := max_ts s;
                           blocks := blocks s; closed := true |}) in
                  done tt
              | _ => let! _ := flush_open k p (first_seq s) o in failed
              end
          end
      end
  end.

(** [BufWriter::write_all] of one frame. *)
Definition write_frame (k : Kind) (p : Producer) (first : Z) (o : OpenFiles) (bytes : string) : io string :=
  try! buffer := (if WRITER_BYTES <? len (of_buffer o) + len bytes
                  then run! flush_open k p first o in done "" else done (of_buffer o)) in
  if WRITER_BYTES <=? len bytes then
    do! modify_open k p (Some {| of_buffer := buffer; of_opened := of_opened o; of_block_fill := of_block_fill o |}) in
    run! write in
    do! modify_file k p first (append_seg bytes) in
    done buffer
  else done (buffer +:+ bytes).

(** [SystemTime::duration_since(opened).is_ok_and(|age| age >= max)]. *)
Definition aged (now opened max : Z) : bool := (opened <=? now) && (max <=? now - opened).

Definition must_rotate (k : Kind) (p : Producer) (flen now : Z) (t : Tel) : bool :=
  match producer_data k p t with
  | Some d =>
      match pd_open d, last (pd_segments d) with
      | Some o, Some s => (s_segment_max_bytes (tl_store t) <? seg_bytes s + flen)
                          || aged now (of_opened o) (s_segment_max_age (tl_store t))
      | _, _ => false
      end
  | None => false
  end.

(** The block entry of a frame that starts a block. *)
Definition index_block (k : Kind) (p : Producer) (seq ts : Z) (s : Segment) (o : OpenFiles) : io OpenFiles :=
  if (BLOCK_BYTES <=? of_block_fill o) || bool_decide (blocks s = []) then
    run! write_idx k p (first_seq s) (idx_entry 1 (seg_bytes s) seq ts 0) in
    let o := {| of_buffer := of_buffer o; of_opened := of_opened o; of_block_fill := 0 |} in
    do! modify_last k p (fun s =>
          {| first_seq := first_seq s; last_seq := last_seq s; records := records s; seg_bytes := seg_bytes s;
             idx_bytes := idx_bytes s + IDX_ENTRY; min_ts := min_ts s; max_ts := max_ts s;
             blocks := blocks s ++ [(seg_bytes s, seq)]; closed := closed s |}) in
    do! modify_open k p (Some o) in
    done o
  else done o.

(** The frame and what memory says of it. *)
Definition append_record (k : Kind) (p : Producer) (r : Rec) : io Z :=
  let flen := frame_len (r_payload r) in
  let! d := asks (producer_data k p) in
  match d with
  | Some {| pd_segments := segments; pd_open := Some o |} =>
      match last segments with
      | None => failed
      | Some s =>
          try! o := index_block k p (r_seq r) (r_ts r) s o in
          try! buffer := write_frame k p (first_seq s) o (frame r) in
          do! modify_open k p (Some {| of_buffer := buffer; of_opened := of_opened o;
                                       of_block_fill := of_block_fill o + flen |}) in
          do! modify_last k p (fun s =>
                {| first_seq := first_seq s; last_seq := r_seq r; records := records s + 1;
                   seg_bytes := seg_bytes s + flen; idx_bytes := idx_bytes s; min_ts := Z.min (min_ts s) (r_ts r);
                   max_ts := Z.max (max_ts s) (r_ts r); blocks := blocks s; closed := closed s |}) in
          do! modify_kind k (fun kd => {| kd_next_seq := r_seq r + 1; kd_producers := kd_producers kd;
                                          kd_counters := kd_counters kd; kd_evicted := kd_evicted kd |}) in
          done (r_seq r)
      end
  | _ => failed
  end.

Definition try_append (k : Kind) (p : Producer) (ts tag : Z) (payload : string) (now : Z) : io Z :=
  let flen := frame_len payload in
  if MAX_FRAME <? flen - 4 then failed
  else
    let! rotate := asks (must_rotate k p flen now) in
    run! (if rotate : bool then close_open k p else done tt) in
    let! seq := asks (fun t => kd_next_seq (kind_data k t)) in
    let! has_open := asks (fun t => match producer_data k p t with Some d => is_some (pd_open d) | None => false end) in
    run! (if has_open : bool then done tt else open_segment k p seq now) in
    append_record k p {| r_seq := seq; r_ts := ts; r_tag := tag; r_payload := payload |}.

(** ** The disk guard *)

Definition check_disk (free : option (Z * Z)) : st Tel GuardState := fun t =>
  match free with
  | None => (s_guard (tl_store t), t)
  | Some (free, total) =>
      let ratio pct := total / 100 * pct in
      let low := (free <? ratio 5) || (free <? GIB) in
      let high := (ratio 8 <? free) && (GIB + GIB / 2 <? free) in
      let guard := {| g_paused := if low then true else if high then false else g_paused (s_guard (tl_store t));
                      g_system_paused := free <? 256 * MIB; g_free := free; g_total := total |} in
      let s := tl_store t in
      (guard, set_store {| s_retention := s_retention s; s_segment_max_bytes := s_segment_max_bytes s;
                           s_segment_max_age := s_segment_max_age s; s_kinds := s_kinds s; s_guard := guard;
                           s_reset_at := s_reset_at s |} t)
  end.

Inductive Appended := Stored (seq : Z) | Paused | AppendFailed.

Definition count_dropped (k : Kind) : st Tel unit := modify_kind k (fun kd => with_counters
  {| dropped_total := dropped_total (kd_counters kd) + 1; evicted_total := evicted_total (kd_counters kd);
     evicted_bytes_total := evicted_bytes_total (kd_counters kd); redacted_total := redacted_total (kd_counters kd);
     appended_total := appended_total (kd_counters kd) |} kd).
Definition count_appended (k : Kind) : st Tel unit := modify_kind k (fun kd => with_counters
  {| dropped_total := dropped_total (kd_counters kd); evicted_total := evicted_total (kd_counters kd);
     evicted_bytes_total := evicted_bytes_total (kd_counters kd); redacted_total := redacted_total (kd_counters kd);
     appended_total := appended_total (kd_counters kd) + 1 |} kd).

Definition append (k : Kind) (p : Producer) (ts tag : Z) (payload : string) (now : Z) : st Tel Appended :=
  let! guard := asks (fun t => s_guard (tl_store t)) in
  if (if decide (p = System) then g_system_paused guard else g_paused guard) : bool then
    do! count_dropped k in ret Paused
  else
    let! r := try_append k p ts tag payload now in
    match r with
    | Ok seq => do! count_appended k in ret (Stored seq)
    | _ => do! count_dropped k in ret AppendFailed
    end.

(** ** Flushing and closing *)

Definition flush_producer (k : Kind) (p : Producer) : st Tel unit :=
  let! d := asks (producer_data k p) in
  match d with
  | Some {| pd_segments := segments; pd_open := Some o |} =>
      match last segments with
      | Some s =>
          let! r := flush_open k p (first_seq s) o in
          match r with
          | Ok _ => modify_open k p (Some {| of_buffer := ""; of_opened := of_opened o; of_block_fill := of_block_fill o |})
          | _ => ret tt
          end
      | None => ret tt
      end
  | _ => ret tt
  end.

Definition producers_of (k : Kind) (t : Tel) : list Producer := (fun e => e.2.1) <$> kd_producers (kind_data k t).

Definition flush : st Tel unit :=
  mfor (fun k => let! ps := asks (producers_of k) in mfor (flush_producer k) ps) ALL_KINDS.

Definition close_all : st Tel unit :=
  mfor (fun k => let! ps := asks (producers_of k) in
                 mfor (fun p => let! _ := close_open k p in ret tt) ps) ALL_KINDS.

(** ** Eviction *)

(** [fs::remove_file], its result not looked at. *)
Definition remove_file (k : Kind) (p : Producer) (first : Z) (is_seg : bool) : st Tel unit :=
  let! ok := meta_call in
  if ok : bool then
    modify_dirs k (fun m => match bget (dir_name p) m with
      | Some d => match d !! first with
                  | Some f =>
                      let f := if is_seg then with_seg None f else with_idx None f in
                      binsert (dir_name p) (if is_some (sg_seg f) || is_some (sg_idx f) then <[first := f]> d
                                            else delete first d) m
                  | None => m
                  end
      | None => m
      end)
  else ret tt.

(** [fs::remove_dir] removes an empty directory. *)
Definition remove_dir (k : Kind) (p : Producer) : st Tel unit :=
  let! ok := meta_call in
  if ok : bool then
    modify_dirs k (fun m => if bool_decide (bget (dir_name p) m = Some ∅) then bremove (dir_name p) m else m)
  else ret tt.

(** [VecDeque] of at most [EVICTED_SPANS] spans. *)
Definition remember_span (span : Z * Z) (l : list (Z * Z)) : list (Z * Z) :=
  (if lenl l =? EVICTED_SPANS then tail l else l) ++ [span].

Definition delete_oldest (k : Kind) (p : Producer) : io bool :=
  let! needs_close := asks (fun t => match producer_data k p t with
                                     | Some d => match pd_segments d with s :: _ => negb (closed s) | [] => false end
                                     | None => false
                                     end) in
  run! (if needs_close : bool then close_open k p else done tt) in
  let! d := asks (producer_data k p) in
  match d with
  | Some {| pd_segments := s :: rest; pd_open := o |} =>
      do! modify_producer k p (fun _ => {| pd_segments := rest; pd_open := o |}) in
      do! remove_file k p (first_seq s) true in
      do! remove_file k p (first_seq s) false in
      do! modify_kind k (fun kd =>
            let c := kd_counters kd in
            {| kd_next_seq := kd_next_seq kd; kd_producers := kd_producers kd;
               kd_counters := {| dropped_total := dropped_total c; evicted_total := evicted_total c + records s;
                                 evicted_bytes_total := evicted_bytes_total c + segment_size s;
                                 redacted_total := redacted_total c; appended_total := appended_total c |};
               kd_evicted := if 0 <? records s then remember_span (min_ts s, max_ts s) (kd_evicted kd)
                             else kd_evicted kd |}) in
      do! (if bool_decide (rest = []) then
             do! modify_kind k (fun kd => with_producers (bremove (order_key p) (kd_producers kd)) kd) in
             remove_dir k p
           else ret tt) in
      done true
  | _ => done false
  end.

Definition retention (k : Kind) (t : Tel) : Retention := s_retention (tl_store t) k.

(** [i64::from(days).saturating_mul(DAY_NANOS)]; a [u32] of days fits. *)
Definition cutoff_of (k : Kind) (now : Z) (t : Tel) : Z :=
  now - Z.min i64_max (max_age_days (retention k t) * DAY_NANOS).

Definition oldest_expired (k : Kind) (p : Producer) (cutoff : Z) (t : Tel) : bool :=
  match producer_data k p t with
  | Some d => match pd_segments d with
              | s :: _ => closed s && (0 <? records s) && (max_ts s <? cutoff)
              | [] => false
              end
  | None => false
  end.

(** Each round removes a segment. *)
Fixpoint evict_age (fuel : nat) (k : Kind) (p : Producer) (cutoff : Z) : st Tel unit :=
  match fuel with
  | O => ret tt
  | S fuel =>
      let! expired := asks (oldest_expired k p cutoff) in
      if expired : bool then
        let! r := delete_oldest k p in
        match r with Ok true => evict_age fuel k p cutoff | _ => ret tt end
      else ret tt
  end.

Definition kind_size (k : Kind) (t : Tel) : Z := sum ((fun e => producer_size e.2.2) <$> kd_producers (kind_data k t)).

(** [max_by_key]: the last of the greatest. *)
Fixpoint max_by_key {A} (key : A -> Z) (l : list A) : option A :=
  match l with
  | [] => None
  | x :: rest => match max_by_key key rest with
                 | Some y => Some (if key x <=? key y then y else x)
                 | None => Some x
                 end
  end.

Definition victim (max : Z) (m : Producers) : option Producer :=
  let reserved := max / 4 in
  let unreserved := max - reserved in
  let system := match pget System m with Some d => producer_size d | None => 0 end in
  if reserved <? system then Some System
  else
    let others := List.filter (fun e => 0 <? e.2)
                    ((fun e => (e.2.1, producer_size e.2.2)) <$>
                       List.filter (fun e => negb (bool_decide (e.2.1 = System))) m) in
    if bool_decide (others = []) then None
    else
      let share := unreserved / lenl others in
      let otlp := sum (snd <$> List.filter (fun e => is_otlp e.1) others) in
      let pool := if max / 2 <? otlp then List.filter (fun e => is_otlp e.1) others else others in
      fst <$> max_by_key (fun e => e.2 - share) (List.filter (fun e => share <? e.2) pool).

Fixpoint evict_round (fuel : nat) (k : Kind) (max : Z) : st Tel unit :=
  match fuel with
  | O => ret tt
  | S fuel =>
      let! over := asks (fun t => max / 10 * 9 <? kind_size k t) in
      if over : bool then
        let! v := asks (fun t => victim max (kd_producers (kind_data k t))) in
        match v with
        | None => ret tt
        | Some p => let! r := delete_oldest k p in match r with Ok true => evict_round fuel k max | _ => ret tt end
        end
      else ret tt
  end.

(** Every round removes a segment, so there are no more rounds than segments. *)
Definition segment_count (k : Kind) (t : Tel) : nat :=
  fold_right Nat.add O ((fun e => length (pd_segments e.2.2)) <$> kd_producers (kind_data k t)).

Definition evict_size (k : Kind) : st Tel unit :=
  let! max := asks (fun t => max_bytes (retention k t)) in
  let! over := asks (fun t => max <? kind_size k t) in
  if over : bool then let! n := asks (segment_count k) in evict_round (S n) k max else ret tt.

Definition enforce_kind (now : Z) (k : Kind) : st Tel unit :=
  let! stale := asks (fun t => (fun e => e.2.1) <$>
    List.filter (fun e => match pd_open e.2.2 with
                          | Some o => aged now (of_opened o) (s_segment_max_age (tl_store t))
                          | None => false
                          end) (kd_producers (kind_data k t))) in
  do! mfor (fun p => let! _ := close_open k p in ret tt) stale in
  let! cutoff := asks (cutoff_of k now) in
  let! ps := asks (producers_of k) in
  do! mfor (fun p =>
        let! n := asks (fun t => match producer_data k p t with Some d => length (pd_segments d) | None => O end) in
        evict_age (S n) k p cutoff) ps in
  evict_size k.

Definition enforce (now : Z) : st Tel unit := mfor (enforce_kind now) ALL_KINDS.

(** ** Opening *)

Record StoreOptions := { so_retention : Kind -> Retention; so_segment_max_bytes : Z; so_segment_max_age : Z }.

Definition default_options : StoreOptions :=
  {| so_retention := default_retention; so_segment_max_bytes := SEGMENT_MAX_BYTES; so_segment_max_age := SEGMENT_MAX_AGE |}.

(** [chunks_exact(IDX_ENTRY)]. *)
Fixpoint chunks (n : nat) (idx : string) : list string :=
  match n with
  | O => []
  | S n => slice_to 33 idx :: chunks n (slice_from 33 idx)
  end.

Definition idx_entries (idx : string) : list string := chunks (Z.to_nat (len idx / IDX_ENTRY)) idx.

Definition entry_tag (entry : string) : Z := le_value (slice_to 1 entry).

Definition idx_blocks (entries : list string) : list (Z * Z) :=
  (fun e => (u64_at e 1, u64_at e 9)) <$> List.filter (fun e => entry_tag e =? 1) entries.

(** The last summary. *)
Definition idx_summary (entries : list string) : option (Z * Z * Z * Z) :=
  (fun e => (u64_at e 1, u64_at e 9, i64_at e 17, i64_at e 25)) <$>
    last (List.filter (fun e => entry_tag e =? 2) entries).

(** The index a scan of the frames rebuilds: [(blocks, offset, fill)]. *)
Definition rebuild_step (acc : list (Z * Z) * Z * Z) (r : Rec) : list (Z * Z) * Z * Z :=
  let '(blocks, offset, fill) := acc in
  let '(blocks, fill) := if BLOCK_BYTES <=? fill then (blocks ++ [(offset, r_seq r)], 0) else (blocks, fill) in
  (blocks, offset + frame_len (r_payload r), fill + frame_len (r_payload r)).

Definition rebuild (rs : list Rec) : list (Z * Z) := (fold_left rebuild_step rs ([], 0, BLOCK_BYTES)).1.1.

Definition recovered_segment (first : Z) (rs : list Rec) (valid idx_len : Z) : Segment :=
  {| first_seq := first; last_seq := fold_left (fun _ r => r_seq r) rs 0; records := lenl rs; seg_bytes := valid;
     idx_bytes := idx_len; min_ts := fold_left (fun m r => Z.min m (r_ts r)) rs i64_max;
     max_ts := fold_left (fun m r => Z.max m (r_ts r)) rs i64_min; blocks := rebuild rs; closed := true |}.

(** Crash recovery: scan, cut a torn tail, rebuild and close. *)
Definition recover_segment (k : Kind) (p : Producer) (first : Z) (bytes : string) : io (option Segment) :=
  let '(rs, valid) := parse_frames bytes in
  match rs with
  | [] => do! remove_file k p first true in do! remove_file k p first false in done None
  | _ =>
      run! (if valid <? len bytes then
              run! sys in
              do! modify_file k p first (with_seg (Some (slice_to (Z.to_nat valid) bytes))) in done tt
            else done tt) in
      let s := recovered_segment first rs valid 0 in
      let idx_out := concat_str ((fun b => idx_entry 1 b.1 b.2 0 0) <$> blocks s)
                     +:+ idx_entry 2 (records s) (last_seq s) (min_ts s) (max_ts s) in
      run! write in
      run! sys in
      do! modify_file k p first (with_idx (Some idx_out)) in
      done (Some (recovered_segment first rs valid (len idx_out)))
  end.

Definition load_segment (k : Kind) (p : Producer) (first : Z) : io (option Segment) :=
  let! f := asks (fun t => default no_file (files_of k p t !! first)) in
  match sg_seg f with
  | None => failed
  | Some bytes =>
      let idx := default "" (sg_idx f) in
      let entries := idx_entries idx in
      match idx_summary entries with
      | Some (n, last, lo, hi) =>
          done (Some {| first_seq := first; last_seq := last; records := n; seg_bytes := len bytes; idx_bytes := len idx;
                        min_ts := lo; max_ts := hi; blocks := idx_blocks entries; closed := true |})
      | None => recover_segment k p first bytes
      end
  end.

(** The segments a directory holds, in order; an unreadable one is skipped. *)
Fixpoint load_segments (k : Kind) (p : Producer) (firsts : list Z) (acc : list Segment) : st Tel (list Segment) :=
  match firsts with
  | [] => ret acc
  | first :: rest =>
      let! r := load_segment k p first in
      load_segments k p rest (match r with Ok (Some s) => acc ++ [s] | _ => acc end)
  end.

Definition firsts_of (d : Dir) : list Z :=
  order_asc (fun z => z) (fst <$> List.filter (fun e => is_some (sg_seg e.2)) (map_to_list d)).

Fixpoint load_producers (k : Kind) (names : list string) : st Tel unit :=
  match names with
  | [] => ret tt
  | name :: rest =>
      do! match parse_producer name with
          | None => ret tt
          | Some p =>
              let! firsts := asks (fun t => firsts_of (files_of k p t)) in
              let! segments := load_segments k p firsts [] in
              if bool_decide (segments = []) then ret tt
              else modify_kind k (fun kd =>
                     {| kd_next_seq := fold_left (fun n s => Z.max n (last_seq s + 1)) segments (kd_next_seq kd);
                        kd_producers := pset p {| pd_segments := segments; pd_open := None |} (kd_producers kd);
                        kd_counters := kd_counters kd; kd_evicted := kd_evicted kd |})
          end in
      load_producers k rest
  end.

Definition load_kind (k : Kind) : io unit :=
  run! sys in
  do! modify_kind k (fun kd => {| kd_next_seq := 1; kd_producers := kd_producers kd; kd_counters := kd_counters kd;
                                  kd_evicted := kd_evicted kd |}) in
  let! names := asks (fun t => match tl_root t with Some r => bkeys (ro_kinds r k) | None => [] end) in
  do! load_producers k names in
  done tt.

Section open.
Context {JR : JsonReader} {JW : JsonWriter}.

Definition from_json (bytes : string) : option Value := value_of_raw <$> deserialize bytes.

Definition store_version (r : RootDir) : option Z :=
  bytes ← ro_store_json r; v ← from_json bytes; as_u64 (idx v "version").

Definition has_data (r : RootDir) : bool := is_some (ro_store_json r) || is_some (ro_retention r) || ro_other r.

Definition raw_u (bound : Z) (r : Raw) : option Z :=
  match r with RNumber (PosInt n) => if n <=? bound then Some n else None | _ => None end.

(** [Retention] from the two fields of an object, or from a pair. *)
Definition policy_of (r : Raw) : option Retention :=
  match r with
  | RMap m =>
      match List.filter (fun e => String.eqb e.1 "max_age_days") m, List.filter (fun e => String.eqb e.1 "max_bytes") m with
      | [(_, days)], [(_, bytes)] =>
          if (length m =? 2)%nat then
            d ← raw_u (2 ^ 32 - 1) days; b ← raw_u u64_max bytes; Some {| max_age_days := d; max_bytes := b |}
          else None
      | _, _ => None
      end
  | RSeq [days; bytes] => d ← raw_u (2 ^ 32 - 1) days; b ← raw_u u64_max bytes; Some {| max_age_days := d; max_bytes := b |}
  | _ => None
  end.

Definition policies_of (bytes : string) : option (list Retention) :=
  r ← deserialize bytes;
  match r with RSeq items => if (length items =? 5)%nat then collect_opt (policy_of <$> items) else None | _ => None end.

Definition retention_of (l : list Retention) (k : Kind) : Retention :=
  default (default_retention k) (l !! match k with Logs => 0 | Traces => 1 | Metrics => 2 | Analytics => 3 | Http => 4 end)%nat.

(** The retention policies of [retention.json], or those of the options. *)
Definition load_policies (opts : StoreOptions) (r : RootDir) : outcome unit (Kind -> Retention) :=
  match ro_retention r with
  | None => Ok (so_retention opts)
  | Some (regular, bytes) =>
      check? regular && (len bytes <=? 4096) else tt in
      let? policies := ok_or (policies_of bytes) tt in
      check? forallb retention_valid policies else tt in
      Ok (retention_of policies)
  end.

Definition empty_root : RootDir := {| ro_store_json := None; ro_retention := None; ro_other := false; ro_kinds := fun _ => [] |}.

Definition store_json (now : Z) : string := to_vec (json_object
  [("version", VNumber (PosInt STORE_VERSION)); ("created_at", VString (format_timestamp (if 0 <=? now then now / 1000000000 else 0)));
   ("redaction_rules_version", VString "redaction-v1")]).

(** An unknown version, or data without one, is moved aside. *)
Definition move_aside (now : Z) : io (option Z) :=
  let! root := asks tl_root in
  match root with
  | None => done None
  | Some r =>
      run! sys in
      if negb (bool_decide (store_version r = Some STORE_VERSION)) && (is_some (store_version r) || has_data r) then
        run! sys in
        let secs := if 0 <=? now then now / 1000000000 else 0 in
        do! (fun t => (tt, {| tl_root := None; tl_aside := tl_aside t ++ [("telemetry." +:+ dec_string secs +:+ ".old", r)];
                              tl_store := tl_store t; tl_meta := tl_meta t; tl_data := tl_data t |})) in
        done (Some now)
      else done None
  end.

Fixpoint load_kinds (l : list Kind) : io unit :=
  match l with [] => done tt | k :: rest => run! load_kind k in load_kinds rest end.

Definition modify_root (f : RootDir -> RootDir) : st Tel unit := fun t => (tt, set_root (option_map f (tl_root t)) t).

Definition open (opts : StoreOptions) (now : Z) : io unit :=
  try! reset_at := move_aside now in
  let! root := asks tl_root in
  run! match root with
       | Some _ => done tt
       | None => run! sys in do! (fun t => (tt, set_root (Some empty_root) t)) in done tt
       end in
  try! policies := asks (fun t => match tl_root t with Some r => load_policies opts r | None => Err tt end) in
  let! fresh := asks (fun t => match tl_root t with Some r => negb (is_some (ro_store_json r)) | None => false end) in
  run! (if fresh : bool then
          run! write in
          run! sys in
          do! modify_root (fun r => {| ro_store_json := Some (store_json now); ro_retention := ro_retention r;
                                       ro_other := ro_other r; ro_kinds := ro_kinds r |}) in done tt
        else done tt) in
  do! (fun t => (tt, set_store {| s_retention := policies; s_segment_max_bytes := so_segment_max_bytes opts;
                                  s_segment_max_age := so_segment_max_age opts; s_kinds := fun _ => default_kind;
                                  s_guard := {| g_paused := false; g_system_paused := false; g_free := 0; g_total := 0 |};
                                  s_reset_at := reset_at |} t)) in
  do! modify_root (fun r => {| ro_store_json := ro_store_json r; ro_retention := ro_retention r; ro_other := true;
                               ro_kinds := ro_kinds r |}) in
  load_kinds ALL_KINDS.

Definition policy_json (r : Retention) : Value := json_object
  [("max_age_days", VNumber (PosInt (max_age_days r))); ("max_bytes", VNumber (PosInt (max_bytes r)))].

(** The retention file is written before the store uses the policy. *)
Definition set_retention (k : Kind) (policy : Retention) : io unit :=
  if retention_valid policy then
    let! policies := asks (fun t => kset k policy (s_retention (tl_store t))) in
    run! write in
    run! sys in
    do! modify_root (fun r => {| ro_store_json := ro_store_json r;
                                 ro_retention := Some (true, to_vec (VArray (policy_json <$> (policies <$> ALL_KINDS))));
                                 ro_other := ro_other r; ro_kinds := ro_kinds r |}) in
    run! sys in
    do! (fun t => let s := tl_store t in
                  (tt, set_store {| s_retention := policies; s_segment_max_bytes := s_segment_max_bytes s;
                                    s_segment_max_age := s_segment_max_age s; s_kinds := s_kinds s; s_guard := s_guard s;
                                    s_reset_at := s_reset_at s |} t)) in
    done tt
  else failed.

End open.

(** ** Reads *)

Record Usage := {
  us_kind : Kind; us_retention : Retention; us_bytes_used : Z; us_records : Z; us_oldest : option Z;
  us_newest : option Z; us_counters : Counters
}.

Definition all_segments (k : Kind) (t : Tel) : list Segment :=
  concat ((fun e => pd_segments e.2.2) <$> kd_producers (kind_data k t)).

Definition usage_of (now : Z) (t : Tel) (k : Kind) : Usage :=
  let cutoff := cutoff_of k now t in
  let held := List.filter (fun s => 0 <? records s) (all_segments k t) in
  {| us_kind := k; us_retention := retention k t; us_bytes_used := sum (segment_size <$> all_segments k t);
     us_records := sum (records <$> all_segments k t);
     us_oldest := fold_left (fun o s => let oldest := Z.max (min_ts s) cutoff in
                             Some (match o with Some o => Z.min o oldest | None => oldest end)) held None;
     us_newest := fold_left (fun o s => Some (match o with Some n => Z.max n (max_ts s) | None => max_ts s end)) held None;
     us_counters := kd_counters (kind_data k t) |}.

Definition usage (now : Z) (t : Tel) : list Usage := usage_of now t <$> ALL_KINDS.

Definition store_last_seq (k : Kind) (t : Tel) : Z := kd_next_seq (kind_data k t) - 1.

Definition cursor_live (c : Cursor) (t : Tel) : bool :=
  match producer_data (cu_kind c) (cu_producer c) t with
  | Some d => existsb (fun s => (first_seq s =? cu_segment c) && (cu_seq c <=? last_seq s)) (pd_segments d)
  | None => false
  end.

Definition evicted_at (k : Kind) (ts : Z) (t : Tel) : bool :=
  existsb (fun span => in_range span.1 span.2 ts) (kd_evicted (kind_data k t)).

(** *** Snapshots *)

(** [path] is the segment's file, by its first sequence number. *)
Record SegmentView := {
  sv_first : Z; sv_last : Z; sv_min_ts : Z; sv_max_ts : Z; sv_blocks : list (Z * Z); sv_readable : Z
}.

Record Snapshot := { sn_kind : Kind; sn_producers : list (Producer * list SegmentView); sn_min_ts : Z }.

Definition view_of (s : Segment) : SegmentView :=
  {| sv_first := first_seq s; sv_last := last_seq s; sv_min_ts := min_ts s; sv_max_ts := max_ts s;
     sv_blocks := blocks s; sv_readable := seg_bytes s |}.

Definition snapshot (k : Kind) (now : Z) : st Tel Snapshot :=
  do! flush in
  asks (fun t => {| sn_kind := k;
                    sn_producers := (fun e => (e.2.1, view_of <$> List.filter (fun s => 0 <? records s) (pd_segments e.2.2)))
                                      <$> kd_producers (kind_data k t);
                    sn_min_ts := cutoff_of k now t |}).

(** *** Scans *)

Inductive Direction := Forward | Backward.

Record ScanSpec := {
  sp_direction : Direction; sp_after_seq : option Z; sp_before_seq : option Z; sp_from_ts : Z; sp_to_ts : Z;
  sp_producers : option (list Producer)
}.

Record RawRecord := { rr_rec : Rec; rr_producer : Producer; rr_segment : Z }.

(** What is still to be read: the segments and, in the one being read, its
    bytes and the block ranges, in scan order; and the records read. *)
Record ProducerReader := {
  pr_producer : Producer; pr_segments : list SegmentView; pr_current : option (Z * string * list (Z * Z));
  pr_buffer : list RawRecord
}.

Section scan.
Context (spec : ScanSpec) (store_min_ts : Z).

Definition wanted_segment (s : SegmentView) : bool :=
  (Z.max (sp_from_ts spec) store_min_ts <=? sv_max_ts s) && (sv_min_ts s <=? sp_to_ts spec)
  && is_none_or (sp_after_seq spec) (fun a => a <? sv_last s)
  && is_none_or (sp_before_seq spec) (fun b => sv_first s <? b).

Definition wanted_record (r : Rec) : bool :=
  is_none_or (sp_after_seq spec) (fun a => a <? r_seq r) && is_none_or (sp_before_seq spec) (fun b => r_seq r <? b)
  && (sp_from_ts spec <=? r_ts r) && (store_min_ts <=? r_ts r) && (r_ts r <=? sp_to_ts spec).

(** The byte range of each block. *)
Fixpoint ranges (blocks : list (Z * Z)) (readable : Z) : list (Z * Z) :=
  match blocks with
  | [] => []
  | (start, _) :: rest => (start, Z.min (match rest with (next, _) :: _ => next | [] => readable end) readable) :: ranges rest readable
  end.

(** [rposition(..).unwrap_or(0)]: blocks wholly before the cursor. *)
Fixpoint skipped (after : Z) (blocks : list (Z * Z)) : nat :=
  match blocks with
  | [] => O
  | (_, first) :: rest =>
      if existsb (fun b => b.2 <=? after + 1) rest then S (skipped after rest) else O
  end.

Definition in_scan_order {A} (l : list A) : list A :=
  match sp_direction spec with Forward => l | Backward => rev l end.

Definition ranges_of (v : SegmentView) : list (Z * Z) :=
  let blocks := match sv_blocks v with [] => [(0, sv_first v)] | l => l end in
  let rs := ranges blocks (sv_readable v) in
  match sp_direction spec, sp_after_seq spec with
  | Forward, Some after => drop (skipped after blocks) rs
  | _, _ => in_scan_order rs
  end.

(** The wanted records of a byte range. *)
Definition read_range (p : Producer) (segment : Z) (bytes : string) (range : Z * Z) : outcome unit (list RawRecord) :=
  let '(start, end_) := range in
  if end_ <=? start then Ok []
  else
    check? end_ <=? len bytes else tt in
    let rs := (parse_frames (String.substring (Z.to_nat start) (Z.to_nat (end_ - start)) bytes)).1 in
    Ok (in_scan_order ((fun r => {| rr_rec := r; rr_producer := p; rr_segment := segment |}) <$> List.filter wanted_record rs)).

(** The loop of [fill] over the blocks of a segment: to the first block with
    records. *)
Fixpoint fill_blocks (p : Producer) (segment : Z) (bytes : string) (l : list (Z * Z)) : outcome unit (list RawRecord * list (Z * Z)) :=
  match l with
  | [] => Ok ([], [])
  | range :: rest =>
      let? out := read_range p segment bytes range in
      match out with [] => fill_blocks p segment bytes rest | _ => Ok (out, rest) end
  end.

(** And over the segments; a file that is gone was evicted since. *)
Fixpoint fill_segments (p : Producer) (files : Dir) (l : list SegmentView) : outcome unit ProducerReader :=
  match l with
  | [] => Ok {| pr_producer := p; pr_segments := []; pr_current := None; pr_buffer := [] |}
  | v :: rest =>
      if wanted_segment v then
        match f ← files !! sv_first v; sg_seg f with
        | None => fill_segments p files rest
        | Some bytes =>
            let? filled := fill_blocks p (sv_first v) bytes (ranges_of v) in
            match filled with
            | ([], _) => fill_segments p files rest
            | (out, rest_ranges) => Ok {| pr_producer := p; pr_segments := rest; pr_current := Some (sv_first v, bytes, rest_ranges);
                                   pr_buffer := out |}
            end
        end
      else fill_segments p files rest
  end.

Definition fill (files : Producer -> Dir) (r : ProducerReader) : outcome unit ProducerReader :=
  match pr_buffer r with
  | _ :: _ => Ok r
  | [] =>
      match pr_current r with
      | None => fill_segments (pr_producer r) (files (pr_producer r)) (pr_segments r)
      | Some (segment, bytes, l) =>
          let? filled := fill_blocks (pr_producer r) segment bytes l in
          match filled with
          | ([], _) => fill_segments (pr_producer r) (files (pr_producer r)) (pr_segments r)
          | (out, rest_ranges) => Ok {| pr_producer := pr_producer r; pr_segments := pr_segments r;
                                 pr_current := Some (segment, bytes, rest_ranges); pr_buffer := out |}
          end
      end
  end.

Record Scan := { sc_readers : list ProducerReader; sc_heap : list (Z * nat); sc_started : bool }.

Definition heap_key (seq : Z) : Z := match sp_direction spec with Forward => - seq | Backward => seq end.

(** [BinaryHeap::pop]: the greatest pair. *)
Definition pair_ltb (a b : Z * nat) : bool := (a.1 <? b.1) || ((a.1 =? b.1) && (a.2 <? b.2)%nat).

Fixpoint heap_pop (h : list (Z * nat)) : option ((Z * nat) * list (Z * nat)) :=
  match h with
  | [] => None
  | x :: rest =>
      match heap_pop rest with
      | None => Some (x, [])
      | Some (y, rest') => if pair_ltb x y then Some (y, x :: rest') else Some (x, y :: rest')
      end
  end.

(** [Scan::push]. *)
Definition scan_push (files : Producer -> Dir) (i : nat) (s : Scan) : outcome unit Scan :=
  match sc_readers s !! i with
  | None => Panic
  | Some r =>
      let? r := fill files r in
      Ok {| sc_readers := <[i := r]> (sc_readers s);
            sc_heap := match pr_buffer r with
                       | front :: _ => (heap_key (r_seq (rr_rec front)), i) :: sc_heap s
                       | [] => sc_heap s
                       end;
            sc_started := sc_started s |}
  end.

Fixpoint scan_start (files : Producer -> Dir) (l : list nat) (s : Scan) : outcome unit Scan :=
  match l with [] => Ok s | i :: rest => let? s := scan_push files i s in scan_start files rest s end.

(** [Iterator::next]. *)
Definition scan_next (files : Producer -> Dir) (s : Scan) : outcome unit (option (RawRecord * Scan)) :=
  let? s := (if sc_started s then Ok s
             else scan_start files (seq 0 (length (sc_readers s)))
                    {| sc_readers := sc_readers s; sc_heap := sc_heap s; sc_started := true |}) in
  match heap_pop (sc_heap s) with
  | None => Ok None
  | Some ((_, i), heap) =>
      match sc_readers s !! i with
      | None => Panic
      | Some r =>
          match pr_buffer r with
          | [] => Ok None
          | record :: buffer =>
              let r := {| pr_producer := pr_producer r; pr_segments := pr_segments r; pr_current := pr_current r;
                          pr_buffer := buffer |} in
              let? s := scan_push files i {| sc_readers := <[i := r]> (sc_readers s); sc_heap := heap;
                                             sc_started := sc_started s |} in
              Ok (Some (record, s))
          end
      end
  end.

(** The records a scan yields until it ends; [None] when [n] were not enough. *)
Fixpoint scan_all (n : nat) (files : Producer -> Dir) (s : Scan) : outcome unit (option (list RawRecord)) :=
  match n with
  | O => Ok None
  | S n =>
      let? r := scan_next files s in
      match r with
      | None => Ok (Some [])
      | Some (record, s) => let? rest := scan_all n files s in Ok (option_map (cons record) rest)
      end
  end.

End scan.

Definition scan (sn : Snapshot) (spec : ScanSpec) : Scan :=
  {| sc_readers := (fun e => {| pr_producer := e.1; pr_segments := in_scan_order spec e.2; pr_current := None; pr_buffer := [] |})
                     <$> List.filter (fun e => is_none_or (sp_producers spec) (fun ps => existsb (fun p => bool_decide (p = e.1)) ps))
                           (sn_producers sn);
     sc_heap := []; sc_started := false |}.
