(* ===== verification/TelemetryFacts.v ===== *)
(** * What the telemetry store keeps

    Frames and index entries read back as they were written; every operation
    of the store keeps memory and disk in agreement, an append adds exactly
    its record, and a restart keeps what was flushed. *)

From S2P Require Import Prelude RustStr BTree Json PlanCode Calendar Effects Crypto Store ReconcileFacts Telemetry.

(** ** Integers as bytes *)

Lemma le_bytes_length n z : String.length (le_bytes n z) = n.
Proof. revert z. induction n as [|n IH]; intros z; cbn; [done|]. by rewrite IH. Qed.

Lemma le_value_bytes n z : le_value (le_bytes n z) = z mod 256 ^ Z.of_nat n.
Proof.
  revert z. induction n as [|n IH]; intros z; [by rewrite Z.mod_1_r|]. cbn [le_bytes le_value]. rewrite IH.
  pose proof (Z.mod_pos_bound z 256 eq_refl). unfold code, byte_of. rewrite N_ascii_embedding by lia. rewrite Z2N.id by lia.
  rewrite Nat2Z.inj_succ, Z.pow_succ_r by lia. rewrite Z.rem_mul_r by lia. done.
Qed.

Lemma le_value_id n z : 0 <= z < 256 ^ Z.of_nat n -> le_value (le_bytes n z) = z.
Proof. intros H. rewrite le_value_bytes. by apply Z.mod_small. Qed.

Lemma i64_of_le z : i64_min <= z <= i64_max -> i64_of_u64 (le_value (le_bytes 8 z)) = z.
Proof.
  intros H. rewrite le_value_bytes. change (256 ^ Z.of_nat 8) with (2 ^ 64). unfold i64_of_u64, i64_min, i64_max in *.
  destruct (Z.ltb_spec z 0).
  - assert (z mod 2 ^ 64 = z + 2 ^ 64) as -> by (symmetry; apply (Z.mod_unique_pos _ _ (-1)); lia).
    destruct (Z.ltb_spec (z + 2 ^ 64) (2 ^ 63)); lia.
  - rewrite Z.mod_small by lia. destruct (Z.ltb_spec z (2 ^ 63)); lia.
Qed.

(** A field after [n] bytes. *)
Lemma substring_field a b c n m : String.length a = n -> String.length b = m ->
  String.substring n m (a +:+ b +:+ c) = b.
Proof.
  intros <- <-. rewrite substring_slice. destruct (slice_at a (b +:+ c)) as [_ ->]. by destruct (slice_at b c) as [-> _].
Qed.

Lemma substring_last a b n m : String.length a = n -> (String.length b <= m)%nat -> String.substring n m (a +:+ b) = b.
Proof. intros <- Hm. rewrite substring_slice. destruct (slice_at a b) as [_ ->]. by apply slice_to_all. Qed.

(** ** Frames *)

Definition wf_rec (r : Rec) : Prop :=
  0 <= r_seq r <= u64_max /\ i64_min <= r_ts r <= i64_max /\ 0 <= r_tag r <= 255 /\ frame_len (r_payload r) - 4 <= MAX_FRAME.

Lemma frame_length r : len (frame r) = frame_len (r_payload r).
Proof. unfold frame, frame_len. rewrite !len_app. unfold len. rewrite !le_bytes_length. unfold FRAME_HEADER. lia. Qed.

Lemma frame_len_pos r : FRAME_HEADER <= frame_len (r_payload r).
Proof. unfold frame_len. pose proof (len_nonneg (r_payload r)). lia. Qed.

Lemma first_frame_app r rest : wf_rec r -> first_frame (frame r +:+ rest) = Some (r, rest).
Proof.
  intros (Hseq & Hts & Htag & Hlen). pose proof (frame_len_pos r) as Hpos. pose proof (frame_length r) as Hfl.
  unfold first_frame. rewrite len_app, Hfl. pose proof (len_nonneg rest) as Hr.
  destruct (Z.leb_spec FRAME_HEADER (frame_len (r_payload r) + len rest)); [|lia].
  set (L := frame_len (r_payload r)) in *.
  assert (le_value (slice_to 4 (frame r +:+ rest)) = L - 4) as ->.
  { unfold frame. rewrite <- str_app_assoc. fold L. destruct (slice_at (le_bytes 4 (L - 4))
      ((le_bytes 8 (r_seq r) +:+ le_bytes 8 (r_ts r) +:+ le_bytes 1 (r_tag r) +:+ r_payload r) +:+ rest)) as [Hs _].
    rewrite le_bytes_length in Hs. rewrite Hs. apply le_value_id. unfold MAX_FRAME, FRAME_HEADER in *. lia. }
  unfold in_range. destruct (Z.leb_spec (FRAME_HEADER - 4) (L - 4)); [|lia].
  destruct (Z.leb_spec (L - 4) MAX_FRAME); [|lia]. destruct (Z.leb_spec (L - 4) (L + len rest - 4)); [|lia]. cbn [andb].
  assert (slice_from (Z.to_nat (4 + (L - 4))) (frame r +:+ rest) = rest) as ->.
  { replace (Z.to_nat (4 + (L - 4))) with (String.length (frame r)) by (unfold len in Hfl; lia). apply slice_at. }
  unfold frame, u64_at, i64_at, u64_at. fold L. rewrite <- !str_app_assoc.
  f_equal. f_equal. destruct r as [seq ts tag payload]; cbn [r_seq r_ts r_tag r_payload] in *. f_equal.
  - rewrite (substring_field (le_bytes 4 (L - 4)) (le_bytes 8 seq)) by apply le_bytes_length.
    apply le_value_id. unfold u64_max in Hseq. lia.
  - rewrite (str_app_assoc (le_bytes 4 _)).
    rewrite (substring_field (le_bytes 4 (L - 4) +:+ le_bytes 8 seq) (le_bytes 8 ts)); [by apply i64_of_le| |apply le_bytes_length].
    by rewrite str_app_length, !le_bytes_length.
  - rewrite !(str_app_assoc (le_bytes 4 _)), !(str_app_assoc (le_bytes 4 _ +:+ _)).
    rewrite (substring_field ((le_bytes 4 (L - 4) +:+ le_bytes 8 seq) +:+ le_bytes 8 ts) (le_bytes 1 tag));
      [apply le_value_id; lia| |apply le_bytes_length]. by rewrite !str_app_length, !le_bytes_length.
  - rewrite !(str_app_assoc (le_bytes 4 _)), !(str_app_assoc (le_bytes 4 _ +:+ _)), !(str_app_assoc ((le_bytes 4 _ +:+ _) +:+ _)).
    apply substring_field; [by rewrite !str_app_length, !le_bytes_length|].
    unfold L, frame_len, FRAME_HEADER, len. lia.
Qed.

(** A strict prefix of a frame is torn. *)
Lemma first_frame_torn r a b : wf_rec r -> a +:+ b = frame r -> b <> "" -> first_frame a = None.
Proof.
  intros (_ & _ & _ & Hlen) Hab Hb. pose proof (frame_length r) as Hfl. pose proof (frame_len_pos r) as Hpos. rewrite <- Hab, len_app in Hfl.
  assert (0 < len b) as Hb0 by (destruct b; [done|unfold len; cbn; lia]). unfold first_frame.
  destruct (Z.leb_spec FRAME_HEADER (len a)); [|done].
  assert (slice_to 4 a = le_bytes 4 (frame_len (r_payload r) - 4)) as ->.
  { assert (slice_to 4 (a +:+ b) = slice_to 4 a) as <-.
    { clear -H. unfold FRAME_HEADER, len in H. destruct a as [|? [|? [|? [|? a]]]]; cbn in H; try lia. by destruct a. }
    rewrite Hab. unfold frame.
    destruct (slice_at (le_bytes 4 (frame_len (r_payload r) - 4))
      (le_bytes 8 (r_seq r) +:+ le_bytes 8 (r_ts r) +:+ le_bytes 1 (r_tag r) +:+ r_payload r)) as [Hs _].
    by rewrite le_bytes_length in Hs. }
  rewrite le_value_id by (unfold MAX_FRAME, FRAME_HEADER in *; lia).
  destruct (Z.leb_spec (frame_len (r_payload r) - 4) (len a - 4)); [lia|]. by rewrite andb_false_r.
Qed.

Definition frames_text (rs : list Rec) : string := concat_str (frame <$> rs).

Lemma frames_text_app a b : frames_text (a ++ b) = frames_text a +:+ frames_text b.
Proof. unfold frames_text. by rewrite fmap_app, concat_str_app. Qed.

Lemma frames_text_cons r rs : frames_text (r :: rs) = frame r +:+ frames_text rs.
Proof. done. Qed.

Lemma frames_fuel_text rs torn : Forall wf_rec rs -> first_frame torn = None -> forall fuel,
  (String.length (frames_text rs) < fuel)%nat -> frames_fuel fuel (frames_text rs +:+ torn) = (rs, len (frames_text rs)).
Proof.
  intros Hwf Ht. induction Hwf as [|r rs Hr _ IH]; intros [|fuel] Hf; try lia.
  - cbn [frames_fuel]. change (frames_text []) with "". rewrite str_app_nil_l, Ht. done.
  - rewrite frames_text_cons in *. cbn [frames_fuel]. rewrite <- str_app_assoc, first_frame_app by done.
    rewrite str_app_length in Hf. pose proof (frame_length r) as Hl. pose proof (frame_len_pos r). unfold FRAME_HEADER, len in *.
    rewrite IH by lia. by rewrite str_app_length, <- Hl, Nat2Z.inj_add.
Qed.

Lemma parse_frames_torn rs torn : Forall wf_rec rs -> first_frame torn = None ->
  parse_frames (frames_text rs +:+ torn) = (rs, len (frames_text rs)).
Proof. intros Hwf Ht. unfold parse_frames. apply frames_fuel_text; [done..|]. rewrite str_app_length. lia. Qed.

Lemma parse_frames_text rs : Forall wf_rec rs -> parse_frames (frames_text rs) = (rs, len (frames_text rs)).
Proof. intros Hwf. rewrite <- (str_app_nil_r (frames_text rs)) at 1. by apply parse_frames_torn. Qed.

(** A prefix of frames is some whole frames and a torn one. *)
Lemma frames_prefix rs : Forall wf_rec rs -> forall a b, a +:+ b = frames_text rs ->
  exists rs1 rs2 torn, rs = rs1 ++ rs2 /\ a = frames_text rs1 +:+ torn /\ first_frame torn = None.
Proof.
  induction 1 as [|r rs Hr Hwf IH]; intros a b Hab.
  - exists [], [], "". destruct a; [done|]. done.
  - rewrite frames_text_cons in Hab.
    assert ((exists a', a = frame r +:+ a' /\ a' +:+ b = frames_text rs) \/ (exists b', a +:+ b' = frame r /\ b' <> "")) as Hcase.
    { clear -Hab. revert a Hab. generalize (frame r) as f. induction f as [|x f IH]; intros a Hab.
      - left. by exists a.
      - destruct a as [|y a]; [right; by exists (String x f)|]. rewrite !str_app_cons in Hab. injection Hab as -> Hab.
        destruct (IH a Hab) as [(a' & -> & H)|(b' & <- & H)]; [left; by exists a'|right; by exists b']. }
    destruct Hcase as [(a' & -> & Ha')|(b' & Hb' & Hne)].
    + destruct (IH a' b Ha') as (rs1 & rs2 & torn & -> & -> & Ht). exists (r :: rs1), rs2, torn.
      split; [done|]. split; [|done]. by rewrite frames_text_cons, str_app_assoc.
    + exists [], (r :: rs), a. split; [done|]. split; [done|]. by eapply first_frame_torn.
Qed.

(** ** Index entries *)

Lemma idx_entry_length tag a b c d : String.length (idx_entry tag a b c d) = 33%nat.
Proof. unfold idx_entry. by rewrite !str_app_length, !le_bytes_length. Qed.

Lemma chunks_concat l : Forall (fun e => String.length e = 33%nat) l -> chunks (length l) (concat_str l) = l.
Proof.
  induction 1 as [|e l He _ IH]; [done|]. cbn [length chunks]. change (concat_str (e :: l)) with (e +:+ concat_str l).
  destruct (slice_at e (concat_str l)) as [H1 H2]. rewrite He in H1, H2. by rewrite H1, H2, IH.
Qed.

Lemma concat_length l : Forall (fun e => String.length e = 33%nat) l -> len (concat_str l) = 33 * lenl l.
Proof.
  induction 1 as [|e l He _ IH]; [done|]. change (concat_str (e :: l)) with (e +:+ concat_str l).
  rewrite len_app, IH, lenl_cons. unfold len. rewrite He. lia.
Qed.

Lemma idx_entries_concat l : Forall (fun e => String.length e = 33%nat) l -> idx_entries (concat_str l) = l.
Proof.
  intros H. unfold idx_entries. rewrite concat_length by done. unfold IDX_ENTRY. rewrite Z.mul_comm, Z.div_mul by lia.
  unfold lenl. rewrite Nat2Z.id. by apply chunks_concat.
Qed.

Definition u64_ok (z : Z) : Prop := 0 <= z <= u64_max.

Lemma entry_fields tag a b c d : 0 <= tag < 256 -> u64_ok a -> u64_ok b ->
  entry_tag (idx_entry tag a b c d) = tag /\ u64_at (idx_entry tag a b c d) 1 = a
  /\ u64_at (idx_entry tag a b c d) 9 = b
  /\ (i64_min <= c <= i64_max -> i64_at (idx_entry tag a b c d) 17 = c)
  /\ (i64_min <= d <= i64_max -> i64_at (idx_entry tag a b c d) 25 = d).
Proof.
  unfold u64_ok, u64_max. intros Ht Ha Hb. unfold entry_tag, i64_at, u64_at, idx_entry. split_and!.
  - destruct (slice_at (le_bytes 1 tag) (le_bytes 8 a +:+ le_bytes 8 b +:+ le_bytes 8 c +:+ le_bytes 8 d)) as [H _].
    rewrite le_bytes_length in H. rewrite H. apply le_value_id. lia.
  - rewrite substring_field by apply le_bytes_length. apply le_value_id. lia.
  - rewrite (str_app_assoc (le_bytes 1 _)), substring_field by (rewrite ?str_app_length, ?le_bytes_length; done).
    apply le_value_id. lia.
  - intros Hc. rewrite !(str_app_assoc (le_bytes 1 _)), !(str_app_assoc (le_bytes 1 _ +:+ _)).
    rewrite substring_field by (rewrite ?str_app_length, ?le_bytes_length; done). by apply i64_of_le.
  - intros Hd. rewrite !(str_app_assoc (le_bytes 1 _)), !(str_app_assoc (le_bytes 1 _ +:+ _)),
      !(str_app_assoc ((le_bytes 1 _ +:+ _) +:+ _)).
    rewrite substring_last by (rewrite ?str_app_length, ?le_bytes_length; done). by apply i64_of_le.
Qed.

Definition block_entry (b : Z * Z) (ts : Z) : string := idx_entry 1 b.1 b.2 ts 0.
Definition summary_entry (s : Segment) : string := idx_entry 2 (records s) (last_seq s) (min_ts s) (max_ts s).

(** The index file of blocks, each with the time of its first record. *)
Definition block_entries (bs : list ((Z * Z) * Z)) : list string := (fun e => block_entry e.1 e.2) <$> bs.

Definition block_in_range (b : Z * Z) : Prop := u64_ok b.1 /\ u64_ok b.2.

Lemma block_entries_length bs : Forall (fun e => String.length e = 33%nat) (block_entries bs).
Proof. apply Forall_fmap, Forall_true. intros e. apply idx_entry_length. Qed.

Lemma filter_keep_all {A} (p : A -> bool) l : Forall (fun x => p x = true) l -> List.filter p l = l.
Proof. induction 1 as [|x l Hx _ IH]; cbn; [done|]. by rewrite Hx, IH. Qed.

Lemma filter_drop_all {A} (p : A -> bool) l : Forall (fun x => p x = false) l -> List.filter p l = [].
Proof. induction 1 as [|x l Hx _ IH]; cbn; [done|]. by rewrite Hx, IH. Qed.

Lemma block_entries_tag bs : Forall block_in_range (fst <$> bs) ->
  Forall (fun e => entry_tag e = 1) (block_entries bs) /\ (fun e => (u64_at e 1, u64_at e 9)) <$> block_entries bs = fst <$> bs.
Proof.
  induction bs as [|[[o q] ts] bs IH]; [done|]. cbn [fmap list_fmap block_entries fst snd]. intros [[Ho Hq] Hbs]%Forall_cons.
  destruct (IH Hbs) as [IH1 IH2]. destruct (entry_fields 1 o q ts 0) as (H1 & H2 & H3 & _); [lia|done..|].
  split; [by constructor|]. unfold block_entry. cbn [fst snd]. rewrite H2, H3. f_equal. exact IH2.
Qed.

(** An index without summary, and a closed one. *)
Lemma open_index bs : Forall block_in_range (fst <$> bs) -> let es := idx_entries (concat_str (block_entries bs)) in
  idx_blocks es = fst <$> bs /\ idx_summary es = None.
Proof.
  intros Hbs. rewrite idx_entries_concat by apply block_entries_length. destruct (block_entries_tag bs Hbs) as [Ht Hf].
  unfold idx_blocks, idx_summary. rewrite filter_keep_all by (eapply Forall_impl; [exact Ht|]; intros e He; by rewrite He).
  rewrite filter_drop_all by (eapply Forall_impl; [exact Ht|]; intros e He; by rewrite He). done.
Qed.

Lemma closed_index bs s : Forall block_in_range (fst <$> bs) -> u64_ok (records s) -> u64_ok (last_seq s) ->
  i64_min <= min_ts s <= i64_max -> i64_min <= max_ts s <= i64_max ->
  let es := idx_entries (concat_str (block_entries bs) +:+ summary_entry s) in
  idx_blocks es = fst <$> bs /\ idx_summary es = Some (records s, last_seq s, min_ts s, max_ts s).
Proof.
  intros Hbs Hr Hl Hlo Hhi.
  assert (concat_str (block_entries bs) +:+ summary_entry s = concat_str (block_entries bs ++ [summary_entry s])) as ->.
  { rewrite concat_str_app. cbn [concat_str]. by rewrite str_app_nil_r. }
  rewrite idx_entries_concat.
  2:{ apply Forall_app. split; [apply block_entries_length|]. constructor; [apply idx_entry_length|done]. }
  destruct (block_entries_tag bs Hbs) as [Ht Hf].
  destruct (entry_fields 2 (records s) (last_seq s) (min_ts s) (max_ts s)) as (H1 & H2 & H3 & H4 & H5); [lia|done..|].
  unfold idx_blocks, idx_summary. rewrite !List.filter_app.
  rewrite (filter_keep_all (fun e => entry_tag e =? 1) (block_entries bs)) by (eapply Forall_impl; [exact Ht|]; intros e He; by rewrite He).
  rewrite (filter_drop_all (fun e => entry_tag e =? 2) (block_entries bs)) by (eapply Forall_impl; [exact Ht|]; intros e He; by rewrite He).
  unfold summary_entry. cbn [List.filter]. rewrite H1. change (2 =? 1) with false. change (2 =? 2) with true.
  cbv beta iota. rewrite app_nil_r. split; [done|]. cbn [app last fmap option_fmap option_map]. by rewrite H2, H3, H4, H5.
Qed.

(** ** The parts an operation changes *)

(** Distinct producers have distinct keys and directories. *)
Definition wf_producer (p : Producer) : Prop :=
  match p with
  | Project id => valid_id id = true
  | Otlp id => valid_id id = true /\ id <> "unattributed"
  | _ => True
  end.

Lemma order_key_inj p q : order_key p = order_key q -> p = q.
Proof. destruct p, q; cbn; intros H; try done; injection H as H; f_equal; exact H. Qed.

Lemma dir_name_parse p : wf_producer p -> parse_producer (dir_name p) = Some p.
Proof.
  destruct p as [|id|id|]; cbn [wf_producer dir_name]; [done| | |done].
  - intros Hv. unfold parse_producer.
    assert (String.eqb ("project:" +:+ id) "system" = false) as -> by reflexivity.
    assert (String.eqb ("project:" +:+ id) "otlp:unattributed" = false) as -> by reflexivity.
    assert (strip_prefix "project:" ("project:" +:+ id) = Some id) as -> by reflexivity. by rewrite Hv.
  - intros [Hv Hne]. unfold parse_producer.
    assert (String.eqb ("otlp:" +:+ id) "system" = false) as -> by reflexivity.
    assert (strip_prefix "project:" ("otlp:" +:+ id) = None) as -> by reflexivity.
    assert (strip_prefix "otlp:" ("otlp:" +:+ id) = Some id) as -> by reflexivity. rewrite Hv.
    destruct (String.eqb_spec ("otlp:" +:+ id) "otlp:unattributed") as [He|]; [|done]. injection He as He. by destruct Hne.
Qed.

Lemma dir_name_inj p q : wf_producer p -> wf_producer q -> dir_name p = dir_name q -> p = q.
Proof. intros Hp Hq H. apply dir_name_parse in Hp, Hq. congruence. Qed.

Lemma pget_pset p q d m : pget p (pset q d m) = if decide (p = q) then Some d else pget p m.
Proof.
  unfold pget, pset. rewrite bget_insert. destruct (decide (p = q)) as [->|Hne]; [by rewrite String.eqb_refl|].
  destruct (String.eqb_spec (order_key p) (order_key q)) as [He|]; [|done]. by apply order_key_inj in He.
Qed.

Lemma kset_eq {A} k (a : A) f : kset k a f k = a.
Proof. unfold kset. by rewrite decide_True. Qed.

Lemma kset_ne {A} k k' (a : A) f : k' <> k -> kset k a f k' = f k'.
Proof. intros H. unfold kset. by rewrite decide_False. Qed.

Definition sorted_dirs (t : Tel) : Prop := forall r, tl_root t = Some r -> forall k, bsorted (ro_kinds r k).

(** An operation on the producer [p] of kind [k]: the rest is as it was. *)
Record only (k : Kind) (p : Producer) (t t' : Tel) : Prop := {
  on_root : is_Some (tl_root t) <-> is_Some (tl_root t');
  on_kind : forall k', k' <> k -> kind_data k' t' = kind_data k' t;
  on_dirs : forall k' q, k' <> k -> files_of k' q t' = files_of k' q t;
  on_producer : forall q, q <> p -> producer_data k q t' = producer_data k q t;
  on_files : forall q, wf_producer p -> wf_producer q -> q <> p -> files_of k q t' = files_of k q t;
  on_sorted : bsorted (kd_producers (kind_data k t)) -> bsorted (kd_producers (kind_data k t'));
  on_keys : Forall (fun e => e.1 = order_key e.2.1) (kd_producers (kind_data k t)) ->
            Forall (fun e => e.1 = order_key e.2.1) (kd_producers (kind_data k t'));
  on_config : s_retention (tl_store t') = s_retention (tl_store t)
    /\ s_segment_max_bytes (tl_store t') = s_segment_max_bytes (tl_store t)
    /\ s_segment_max_age (tl_store t') = s_segment_max_age (tl_store t);
  on_data : tl_data t = [] -> tl_data t' = [];
  on_meta : tl_meta t = [] -> tl_meta t' = [];
  on_sorted_dirs : sorted_dirs t -> sorted_dirs t'
}.

#[export] Instance only_preorder k p : PreOrder (only k p).
Proof.
  split; [intros t; by split|]. intros a b c [A1 A2 A3 A4 A5 A6 A7 (A8 & A9 & A10) A11 A12 A13] [B1 B2 B3 B4 B5 B6 B7 (B8 & B9 & B10) B11 B12 B13].
  split; try (intros; etrans; eauto; fail); try tauto; try (intros; rewrite B2, A2 by done; done).
  - intros k' q Hk. by rewrite B3, A3.
  - intros q Hq. by rewrite B4, A4.
  - intros q Hp Hq Hne. by rewrite B5, A5.
  - split_and!; congruence.
Qed.

Create HintDb only.

Ltac only_steps :=
  repeat match goal with
  | |- keeps _ _ => solve [eauto 2 with only typeclass_instances]
  | |- keeps _ (try_bind _ _) => apply keeps_try; [|intros ?]
  | |- keeps _ (Effects.bind _ _) => apply keeps_bind; [|intros ?]
  | |- keeps _ (let '_ := ?x in _) => destruct x
  | |- keeps _ (match ?x with _ => _ end) => destruct x
  end.


Section touches.
Context (k : Kind) (p : Producer).

Lemma kind_data_modify f t k' : kind_data k' (modify_kind k f t).2 = if decide (k' = k) then f (kind_data k t) else kind_data k' t.
Proof. unfold kind_data, modify_kind, kset. cbn. by destruct (decide (k' = k)) as [->|]. Qed.

Lemma only_modify_kind f :
  (forall kd q, q <> p -> pget q (kd_producers (f kd)) = pget q (kd_producers kd)) ->
  (forall kd, bsorted (kd_producers kd) -> bsorted (kd_producers (f kd))) ->
  (forall kd, Forall (fun e => e.1 = order_key e.2.1) (kd_producers kd) ->
     Forall (fun e => e.1 = order_key e.2.1) (kd_producers (f kd))) ->
  keeps (only k p) (modify_kind k f).
Proof.
  intros H1 H2 H3 t. split; try done.
  - intros k' Hk. rewrite kind_data_modify. by rewrite decide_False.
  - intros q Hq. unfold producer_data. rewrite kind_data_modify, decide_True by done. by apply H1.
  - rewrite kind_data_modify, decide_True by done. apply H2.
  - rewrite kind_data_modify, decide_True by done. apply H3.
Qed.

Lemma only_modify_producer f : keeps (only k p) (modify_producer k p f).
Proof.
  apply only_modify_kind.
  - intros kd q Hq. destruct (pget p (kd_producers kd)); [|done]. cbn [with_producers kd_producers]. by rewrite pget_pset, decide_False.
  - intros kd Hs. destruct (pget p (kd_producers kd)); [|done]. by apply binsert_sorted.
  - intros kd Hs. destruct (pget p (kd_producers kd)); [|done]. by apply binsert_Forall.
Qed.

Lemma files_of_modify f t k' q : files_of k' q (modify_dirs k f t).2 =
  if decide (k' = k) then match tl_root t with Some r => default ∅ (bget (dir_name q) (f (ro_kinds r k))) | None => ∅ end
  else files_of k' q t.
Proof.
  unfold files_of, modify_dirs, dir_of. cbn. destruct (tl_root t) as [r|]; cbn; [|by destruct (decide (k' = k))].
  unfold kset. by destruct (decide (k' = k)).
Qed.

Lemma only_modify_dirs f : (forall m, bsorted m -> bsorted (f m)) ->
  (forall m n, n <> dir_name p -> bget n (f m) = bget n m) -> keeps (only k p) (modify_dirs k f).
Proof.
  intros Hsd Hf t. split; try done.
  - cbn. by destruct (tl_root t).
  - intros k' q Hk. rewrite files_of_modify. by rewrite decide_False.
  - intros q Hp Hq Hne. rewrite files_of_modify, decide_True by done. unfold files_of, dir_of.
    destruct (tl_root t) as [r|]; [|done]. rewrite Hf; [done|]. intros He. by apply dir_name_inj in He.
  - intros Hs r' Hr' k'. cbn in Hr'. destruct (tl_root t) as [r|] eqn:Hr; [|done]. injection Hr' as <-. cbn. unfold kset.
    destruct (decide (k' = k)) as [->|]; [apply Hsd|]; by apply Hs.
Qed.

Lemma only_meta : keeps (only k p) meta_call.
Proof. intros t. unfold meta_call. destruct (tl_meta t) eqn:Hm; split; try done. by rewrite Hm. Qed.

Lemma only_data : keeps (only k p) data_call.
Proof. intros t. unfold data_call. destruct (tl_data t) eqn:Hd; split; try done. by rewrite Hd. Qed.

Lemma only_done_io {A} (a : A) : keeps (only k p) (done a).
Proof. apply keeps_ret. Qed.
Lemma only_failed {A} : keeps (only k p) (@failed A).
Proof. apply keeps_ret. Qed.

Hint Resolve only_modify_producer only_meta only_data only_done_io only_failed keeps_ret keeps_asks : only.

Lemma only_sys : keeps (only k p) sys.
Proof. unfold sys. only_steps. Qed.
Lemma only_write : keeps (only k p) write.
Proof. unfold write. only_steps. Qed.

Lemma only_modify_file first f : keeps (only k p) (modify_file k p first f).
Proof.
  unfold modify_file. apply only_modify_dirs; [intros m Hm; destruct (bget (dir_name p) m); [by apply binsert_sorted|done]|]. intros m n Hn. destruct (bget (dir_name p) m); [|done].
  rewrite bget_insert. by destruct (String.eqb_spec n (dir_name p)).
Qed.

Hint Resolve only_sys only_write only_modify_file : only.

Lemma only_create_file first b : keeps (only k p) (create_file k p first b).
Proof.
  unfold create_file. only_steps. apply only_modify_dirs; [intros m Hm; by apply binsert_sorted|]. intros m n Hn. rewrite bget_insert. by destruct (String.eqb_spec n (dir_name p)).
Qed.

Lemma only_make_dir : keeps (only k p) (make_dir k p).
Proof.
  unfold make_dir. only_steps. apply only_modify_dirs; [intros m Hm; by apply binsert_sorted|]. intros m n Hn. rewrite bget_insert. by destruct (String.eqb_spec n (dir_name p)).
Qed.

Hint Resolve only_create_file only_make_dir : only.

Lemma only_open_segment first now : keeps (only k p) (open_segment k p first now).
Proof.
  unfold open_segment. only_steps. apply only_modify_kind.
  - intros kd q Hq. cbn [with_producers kd_producers]. by rewrite pget_pset, decide_False.
  - intros kd Hs. by apply binsert_sorted.
  - intros kd Hs. by apply binsert_Forall.
Qed.

Lemma only_flush_open first o : keeps (only k p) (flush_open k p first o).
Proof. unfold flush_open. only_steps. Qed.

Lemma only_write_idx first e : keeps (only k p) (write_idx k p first e).
Proof. unfold write_idx. only_steps. Qed.

Hint Resolve only_open_segment only_flush_open only_write_idx : only.

Lemma only_close : keeps (only k p) (close_open k p).
Proof. unfold close_open, modify_open, modify_last. only_steps. Qed.

Lemma only_remove_file first b : keeps (only k p) (remove_file k p first b).
Proof.
  unfold remove_file. only_steps. apply only_modify_dirs; [intros m Hm; destruct (bget (dir_name p) m); [|done]; destruct (_ !! _); [by apply binsert_sorted|done]|].
  intros m n Hn. destruct (bget (dir_name p) m); [|done].
  destruct (_ !! _); [|done]. rewrite bget_insert. by destruct (String.eqb_spec n (dir_name p)).
Qed.

Hint Resolve only_close only_remove_file : only.

Lemma only_index_block seq ts s o : keeps (only k p) (index_block k p seq ts s o).
Proof. unfold index_block, modify_last, modify_open. only_steps. Qed.

Lemma only_write_frame first o bytes : keeps (only k p) (write_frame k p first o bytes).
Proof. unfold write_frame, modify_open. only_steps. Qed.

Hint Resolve only_index_block only_write_frame : only.

Lemma only_next_seq seq : keeps (only k p) (modify_kind k (fun kd =>
  {| kd_next_seq := seq; kd_producers := kd_producers kd; kd_counters := kd_counters kd; kd_evicted := kd_evicted kd |})).
Proof. by apply only_modify_kind. Qed.

Hint Resolve only_next_seq : only.

Lemma only_append_record r : keeps (only k p) (append_record k p r).
Proof. unfold append_record, modify_last, modify_open. only_steps. Qed.

Hint Resolve only_append_record : only.

Lemma only_try_append ts tag payload now : keeps (only k p) (try_append k p ts tag payload now).
Proof. unfold try_append. only_steps. Qed.

End touches.

#[export] Hint Resolve only_modify_producer only_meta only_data only_done_io only_failed only_sys only_write only_modify_file
  only_create_file only_make_dir only_open_segment only_flush_open only_write_idx only_close only_remove_file
  only_append_record only_try_append keeps_ret keeps_asks : only.

(** ** Memory and disk *)

(** Where the blocks of an index start, and that a block's sequence number is
    above the records before it. *)
Fixpoint laid (off : Z) (bs : list (Z * Z)) (groups : list (list Rec)) : Prop :=
  match bs, groups with
  | [], [] => True
  | (o, q) :: bs, g :: gs => o = off /\ Forall (fun b => Forall (fun r => r_seq r < b.2) g) bs
                             /\ laid (off + len (frames_text g)) bs gs
  | _, _ => False
  end.

Record seg_ok (s : Segment) (rs : list Rec) : Prop := {
  sk_wf : Forall wf_rec rs;
  sk_bytes : seg_bytes s = len (frames_text rs);
  sk_small : seg_bytes s <= 2 ^ 62;
  sk_idx : 0 <= idx_bytes s;
  sk_records : records s = lenl rs;
  sk_sorted : StronglySorted (fun a b => r_seq a < r_seq b) rs;
  sk_range : 0 <= first_seq s <= last_seq s /\ last_seq s <= u64_max;
  sk_seqs : Forall (fun r => first_seq s <= r_seq r <= last_seq s) rs;
  sk_times : Forall (fun r => min_ts s <= r_ts r <= max_ts s) rs;
  sk_bounds : (i64_min <= min_ts s <= i64_max) /\ (i64_min <= max_ts s <= i64_max);
  sk_blocks : exists groups, concat groups = rs /\ laid 0 (blocks s) groups;
  sk_in_range : Forall block_in_range (blocks s)
}.

(** A segment of memory and its two files; [buffer] is what its writer holds
    back. *)
Definition held (files : Dir) (buffer : string) (s : Segment) (rs : list Rec) : Prop :=
  seg_ok s rs /\ exists bytes bs,
    files !! first_seq s = Some {| sg_seg := Some bytes;
      sg_idx := Some (concat_str (block_entries bs) +:+ (if closed s then summary_entry s else "")) |}
    /\ bytes +:+ buffer = frames_text rs /\ fst <$> bs = blocks s.

(** The segments of a producer, in order: all but the last are closed, and the
    last is when nothing is open. *)
Definition ordered (l : list Segment) : Prop := StronglySorted (fun a b => last_seq a < first_seq b) l.

Definition chain (files : Dir) (o : option OpenFiles) (l : list Segment) (rl : list (list Rec)) : Prop :=
  exists init rinit s rs, l = init ++ [s] /\ rl = rinit ++ [rs]
    /\ Forall2 (fun s rs => closed s = true /\ held files "" s rs) init rinit
    /\ closed s = negb (is_some o) /\ held files (match o with Some o => of_buffer o | None => "" end) s rs
    /\ ordered l.

Lemma held_files files files' buffer s rs : files' !! first_seq s = files !! first_seq s -> held files buffer s rs ->
  held files' buffer s rs.
Proof. intros He [Hs (bytes & bs & Hf & H)]. split; [done|]. exists bytes, bs. by rewrite He. Qed.

Lemma ordered_app l s : ordered (l ++ [s]) <-> ordered l /\ Forall (fun a => last_seq a < first_seq s) l.
Proof.
  unfold ordered. induction l as [|a l IH]; cbn [app].
  - split; [split; constructor|]. intros _. repeat constructor.
  - split.
    + intros H. apply StronglySorted_inv in H as [H Ha]. apply IH in H as [H Hl]. apply Forall_app in Ha as [Ha Has].
      apply Forall_cons in Has as [Has _]. split; constructor; done.
    + intros [H Hl]. apply StronglySorted_inv in H as [H Ha]. apply Forall_cons in Hl as [Hla Hl].
      constructor; [by apply IH|]. apply Forall_app. split; [done|]. by constructor.
Qed.

(** The last segment and its files change. *)
Lemma chain_update files files' o o' init s s' rinit rs rs' : chain files o (init ++ [s]) (rinit ++ [rs]) ->
  first_seq s' = first_seq s -> (forall z, z <> first_seq s -> files' !! z = files !! z) ->
  closed s' = negb (is_some o') -> held files' (match o' with Some o => of_buffer o | None => "" end) s' rs' ->
  chain files' o' (init ++ [s']) (rinit ++ [rs']).
Proof.
  intros (init0 & rinit0 & s0 & rs0 & He & Hre & Hinit & Hc & Hs & Ho) Hfirst Hfiles Hc' Hs'.
  apply app_inj_tail in He as [<- <-]. apply app_inj_tail in Hre as [<- <-].
  exists init, rinit, s', rs'. split_and!; try done.
  - apply ordered_app in Ho as [Ho Hlt]. clear -Hinit Hlt Hfiles. induction Hinit as [|a ra init rinit [Hca Ha] _ IH]; [constructor|].
    apply Forall_cons in Hlt as [Hlt1 Hlt]. constructor; [|by apply IH]. split; [done|]. eapply held_files; [|exact Ha].
    apply Hfiles. destruct Ha as [Ha _]. pose proof (sk_range _ _ Ha). lia.
  - apply ordered_app in Ho as [Ho Hlt]. apply ordered_app. split; [done|]. by rewrite Hfirst.
Qed.

(** A new segment behind closed ones. *)
Lemma chain_snoc files files' o' l rl s rs : chain files None l rl \/ (l = [] /\ rl = []) ->
  Forall (fun a => last_seq a < first_seq s) l -> (forall z, z <> first_seq s -> files' !! z = files !! z) ->
  closed s = negb (is_some o') -> held files' (match o' with Some o => of_buffer o | None => "" end) s rs ->
  chain files' o' (l ++ [s]) (rl ++ [rs]).
Proof.
  intros Hl Hlt Hfiles Hc Hs. exists l, rl, s, rs. split_and!; try done.
  - destruct Hl as [(init & rinit & a & ra & -> & -> & Hinit & Hca & Ha & _)|[-> ->]]; [|constructor].
    assert (Forall2 (fun s rs => closed s = true /\ held files "" s rs) (init ++ [a]) (rinit ++ [ra])) as Hall.
    { apply Forall2_app; [done|]. by constructor. }
    clear -Hall Hlt Hfiles. revert Hlt. induction Hall as [|b rb m rm [Hcb Hb] _ IH]; intros Hlt; [constructor|].
    apply Forall_cons in Hlt as [Hlt1 Hlt]. constructor; [|by apply IH]. split; [done|]. eapply held_files; [|exact Hb].
    apply Hfiles. destruct Hb as [Hb _]. pose proof (sk_range _ _ Hb). lia.
  - apply ordered_app. split; [|done]. destruct Hl as [(? & ? & ? & ? & -> & _ & _ & _ & _ & Ho)|[-> _]]; [done|constructor].
Qed.

(** ** Single calls *)

Section calls.
Context (k : Kind) (p : Producer).

Definition local (t : Tel) : option ProducerData * Dir * Z := (producer_data k p t, files_of k p t, kd_next_seq (kind_data k t)).

Lemma producer_modify f t : local (modify_producer k p f t).2 =
  (f <$> producer_data k p t, files_of k p t, kd_next_seq (kind_data k t)).
Proof.
  unfold local, producer_data, modify_producer. rewrite kind_data_modify, decide_True by done.
  destruct (pget p (kd_producers (kind_data k t))) eqn:Hp; cbn [fmap option_fmap option_map]; [|by rewrite Hp].
  cbn [with_producers kd_producers kd_next_seq]. by rewrite pget_pset, decide_True.
Qed.

Lemma file_modify first f t : local (modify_file k p first f t).2 =
  (producer_data k p t, alter f first (files_of k p t), kd_next_seq (kind_data k t)).
Proof.
  enough (files_of k p (modify_file k p first f t).2 = alter f first (files_of k p t)) as H by (unfold local; by rewrite H).
  unfold modify_file. rewrite files_of_modify, decide_True by done.
  unfold files_of, dir_of. destruct (tl_root t) as [r|]; [|done].
  destruct (bget (dir_name p) (ro_kinds r k)) as [d|] eqn:Hd; cbn [default]; [|by rewrite Hd].
  rewrite bget_insert, String.eqb_refl. cbn [default]. unfold id. apply map_eq. intros z.
  destruct (d !! first) as [sf|] eqn:Hf.
  - destruct (decide (z = first)) as [->|Hz]; [by rewrite lookup_insert_eq, lookup_alter_eq, Hf|by rewrite lookup_insert_ne, lookup_alter_ne].
  - destruct (decide (z = first)) as [->|Hz]; [by rewrite lookup_alter_eq, Hf|by rewrite lookup_alter_ne].
Qed.

Lemma write_ok t : tl_data t = [] -> write t = (Ok tt, t).
Proof. intros H. unfold write, bind, data_call. by rewrite H. Qed.

Lemma flush_open_ok first o t : tl_data t = [] -> exists t', flush_open k p first o t = (Ok tt, t') /\ tl_data t' = []
  /\ local t' = (producer_data k p t, alter (append_seg (of_buffer o)) first (files_of k p t), kd_next_seq (kind_data k t)).
Proof.
  intros Hd. unfold flush_open. destruct (is_empty (of_buffer o)) eqn:He.
  - exists t. split_and!; try done. unfold local. f_equal. f_equal. apply String.eqb_eq in He. rewrite He.
    symmetry. apply map_eq. intros z. destruct (decide (z = first)) as [->|Hz]; [|by rewrite lookup_alter_ne].
    rewrite lookup_alter_eq. destruct (files_of k p t !! first) as [[[b|] i]|]; try done. unfold append_seg, with_seg.
    cbn. by rewrite str_app_nil_r.
  - unfold try_bind, bind. rewrite write_ok by done. eexists. split; [reflexivity|]. split; [done|]. apply file_modify.
Qed.

Lemma write_idx_ok first e t : tl_data t = [] -> exists t', write_idx k p first e t = (Ok tt, t') /\ tl_data t' = []
  /\ local t' = (producer_data k p t, alter (append_idx e) first (files_of k p t), kd_next_seq (kind_data k t)).
Proof.
  intros Hd. unfold write_idx, try_bind, bind. rewrite write_ok by done. eexists. split; [reflexivity|]. split; [done|]. apply file_modify.
Qed.

End calls.

(** ** Closing, opening and appending *)

Definition close_segment (s : Segment) : Segment :=
  {| first_seq := first_seq s; last_seq := last_seq s; records := records s; seg_bytes := seg_bytes s;
     idx_bytes := idx_bytes s + IDX_ENTRY; min_ts := min_ts s; max_ts := max_ts s; blocks := blocks s; closed := true |}.

Lemma update_last_app {A} (f : A -> A) l x : update_last f (l ++ [x]) = l ++ [f x].
Proof. induction l as [|y l IH]; [done|]. cbn. rewrite IH. by destruct l. Qed.

Lemma seg_ok_same s s' rs : first_seq s' = first_seq s -> last_seq s' = last_seq s -> records s' = records s ->
  seg_bytes s' = seg_bytes s -> min_ts s' = min_ts s -> max_ts s' = max_ts s -> blocks s' = blocks s ->
  0 <= idx_bytes s' -> seg_ok s rs -> seg_ok s' rs.
Proof. intros E1 E2 E3 E4 E5 E6 E7 E8 []. split; rewrite ?E1, ?E2, ?E3, ?E4, ?E5, ?E6, ?E7; done || lia. Qed.

Lemma held_close files buffer s rs : closed s = false -> held files buffer s rs ->
  held (alter (append_idx (summary_entry s)) (first_seq s) (alter (append_seg buffer) (first_seq s) files)) "" (close_segment s) rs.
Proof.
  intros Hc [Hs (bytes & bs & Hf & Hb & Hbs)]. split; [eapply (seg_ok_same s); try done; cbn; pose proof (sk_idx _ _ Hs); unfold IDX_ENTRY; lia|].
  exists (bytes +:+ buffer), bs. rewrite Hc, str_app_nil_r in Hf. cbn [first_seq close_segment closed blocks].
  rewrite !lookup_alter_eq, Hf, str_app_nil_r. by split_and!.
Qed.

Section local_ops.
Context (k : Kind) (p : Producer).

Notation loc := (local k p).

Lemma local_inv t d f n : loc t = (d, f, n) -> producer_data k p t = d /\ files_of k p t = f /\ kd_next_seq (kind_data k t) = n.
Proof. unfold local. by intros [= -> -> ->]. Qed.

Lemma close_open_ok t d rl : tl_data t = [] -> producer_data k p t = Some d ->
  chain (files_of k p t) (pd_open d) (pd_segments d) rl ->
  exists t' d' files', close_open k p t = (Ok tt, t') /\ tl_data t' = []
    /\ loc t' = (Some d', files', kd_next_seq (kind_data k t)) /\ pd_open d' = None
    /\ chain files' None (pd_segments d') rl /\ last_seq <$> pd_segments d' = last_seq <$> pd_segments d
    /\ first_seq <$> pd_segments d' = first_seq <$> pd_segments d
    /\ pd_segments d' = (if is_some (pd_open d) then update_last close_segment (pd_segments d) else pd_segments d).
Proof.
  intros Hdata Hd Hch. unfold close_open, bind at 1, asks. rewrite Hd. destruct (pd_open d) as [o|] eqn:Ho.
  2:{ exists t, d, (files_of k p t). unfold local. rewrite Hd. by split_and!. }
  pose proof Hch as (init & rinit & s & rs & Hl & Hrl & Hinit & Hc & Hs & Hord). cbn [is_some negb] in Hc.
  unfold bind at 1. destruct (modify_open k p None t) as [[] t1] eqn:Ht1.
  pose proof (producer_modify k p (fun d => {| pd_segments := pd_segments d; pd_open := None |}) t) as Hloc1.
  unfold modify_open in Ht1. rewrite Ht1 in Hloc1. cbn [snd] in Hloc1. rewrite Hd in Hloc1.
  assert (tl_data t1 = []) as Hdata1 by (by injection Ht1 as <-).
  rewrite Hl, last_snoc. destruct (flush_open_ok k p (first_seq s) o t1 Hdata1) as (t2 & Ht2 & Hdata2 & Hloc2).
  apply local_inv in Hloc1 as (P1 & F1 & N1). rewrite P1, F1, N1 in Hloc2. apply local_inv in Hloc2 as (P2 & F2 & N2).
  unfold bind at 1. rewrite Ht2.
  destruct (write_idx_ok k p (first_seq s) (summary_entry s) t2 Hdata2) as (t3 & Ht3 & Hdata3 & Hloc3).
  rewrite P2, F2, N2 in Hloc3. apply local_inv in Hloc3 as (P3 & F3 & N3).
  unfold try_bind at 1, bind at 1. unfold summary_entry in Ht3. rewrite Ht3. unfold bind at 1.
  destruct (modify_last k p _ t3) as [[] t4] eqn:Ht4. unfold modify_last in Ht4.
  pose proof (producer_modify k p (fun d => {| pd_segments := update_last close_segment (pd_segments d); pd_open := pd_open d |}) t3) as Hloc4.
  unfold close_segment in Hloc4. rewrite Ht4 in Hloc4. cbn [snd] in Hloc4. rewrite P3, F3, N3 in Hloc4.
  fold close_segment in Hloc4. cbn [fmap option_fmap option_map pd_segments pd_open] in Hloc4. rewrite Hl, update_last_app in Hloc4.
  exists t4, {| pd_segments := init ++ [close_segment s]; pd_open := None |}. eexists. split; [reflexivity|].
  split; [injection Ht4 as <-; by rewrite <- Hdata3|]. split; [exact Hloc4|]. split; [done|]. cbn [pd_segments].
  cbn [is_some]. rewrite ?update_last_app, !fmap_app. split_and!; try done. rewrite Hrl. rewrite Hl, Hrl in Hch.
  eapply chain_update; [exact Hch|done| |done|].
  - intros z Hz. by rewrite !lookup_alter_ne.
  - by apply held_close.
Qed.

End local_ops.

(** *** Records of a segment *)

Lemma laid_block gs : forall off bs q, laid off bs gs -> Forall (fun r => r_seq r < q) (concat gs) ->
  laid off (bs ++ [(off + len (frames_text (concat gs)), q)]) (gs ++ [[]]).
Proof.
  induction gs as [|g gs IH]; intros off [|[o b] bs] q; cbn [laid]; try done.
  - intros _ _. change (len (frames_text (concat []))) with 0. cbn [app laid]. split_and!; [lia|constructor|done].
  - intros (-> & Hg & Hl) Hq. cbn [concat] in Hq. apply Forall_app in Hq as [Hq1 Hq2]. cbn [app laid concat].
    split; [done|]. split; [apply Forall_app; split; [done|]; constructor; done|].
    rewrite frames_text_app, len_app, Z.add_assoc. by apply IH.
Qed.

Lemma laid_record gs : forall off bs g r, laid off bs (gs ++ [g]) -> laid off bs (gs ++ [g ++ [r]]).
Proof.
  induction gs as [|g0 gs IH]; intros off [|[o b] bs] g r; cbn [laid app]; try done.
  - destruct bs; [|by destruct p; intros (_ & _ & [])]. intros (-> & _ & _). by split_and!.
  - intros (-> & Hg & Hl). split_and!; [done|done|by apply IH].
Qed.

Definition add_block (seq : Z) (s : Segment) : Segment :=
  {| first_seq := first_seq s; last_seq := last_seq s; records := records s; seg_bytes := seg_bytes s;
     idx_bytes := idx_bytes s + IDX_ENTRY; min_ts := min_ts s; max_ts := max_ts s;
     blocks := blocks s ++ [(seg_bytes s, seq)]; closed := closed s |}.

Definition add_record (r : Rec) (s : Segment) : Segment :=
  {| first_seq := first_seq s; last_seq := r_seq r; records := records s + 1;
     seg_bytes := seg_bytes s + frame_len (r_payload r); idx_bytes := idx_bytes s; min_ts := Z.min (min_ts s) (r_ts r);
     max_ts := Z.max (max_ts s) (r_ts r); blocks := blocks s; closed := closed s |}.

(** [r] may follow the records of [s]. *)
Definition follows (s : Segment) (rs : list Rec) (r : Rec) : Prop :=
  wf_rec r /\ last_seq s <= r_seq r /\ Forall (fun a => r_seq a < r_seq r) rs
  /\ seg_bytes s + frame_len (r_payload r) <= 2 ^ 62.

Lemma seg_ok_block s rs r : seg_ok s rs -> follows s rs r -> seg_ok (add_block (r_seq r) s) rs.
Proof.
  intros [] ((Hseq & _) & Hlast & Hlt & Hsize). split; try done.
  - cbn. unfold IDX_ENTRY. lia.
  - destruct sk_blocks0 as (gs & <- & Hl). exists (gs ++ [[]]). split; [rewrite concat_app; cbn; by rewrite app_nil_r|].
    cbn [blocks add_block]. rewrite sk_bytes0. replace (len (frames_text (concat gs))) with (0 + len (frames_text (concat gs))) by lia.
    by apply laid_block.
  - cbn [blocks add_block]. apply Forall_app. split; [done|]. constructor; [|done]. split; [|done]. cbn. unfold u64_ok, u64_max.
    pose proof (len_nonneg (frames_text rs)). lia.
Qed.

Lemma seqs_snoc {A} (f : A -> Z) l x : StronglySorted (fun a b => f a < f b) l -> Forall (fun a => f a < f x) l ->
  StronglySorted (fun a b => f a < f b) (l ++ [x]).
Proof.
  induction 1 as [|a l Hl IH Ha]; intros Hx; cbn; [repeat constructor|]. apply Forall_cons in Hx as [Hax Hx].
  constructor; [by apply IH|]. apply Forall_app. split; [done|]. by constructor.
Qed.

Lemma seg_ok_record s rs r : seg_ok s rs -> follows s rs r -> blocks s <> [] -> seg_ok (add_record r s) (rs ++ [r]).
Proof.
  intros [] (Hwf & Hlast & Hlt & Hsize) Hb. pose proof Hwf as (Hseq & Hts & _). split; cbn; try done.
  - apply Forall_app. split; [done|]. by constructor.
  - rewrite frames_text_app, len_app, frames_text_cons, len_app, sk_bytes0, frame_length. change (len (frames_text [])) with 0. lia.
  - rewrite lenl_app, sk_records0. done.
  - by apply (seqs_snoc r_seq).
  - unfold u64_max in *. lia.
  - apply Forall_app. split; [|constructor; [lia|done]]. apply Forall_forall. intros a Ha.
    rewrite Forall_forall in sk_seqs0. specialize (sk_seqs0 a Ha). lia.
  - apply Forall_app. split; [|constructor; [lia|done]]. eapply Forall_impl; [exact sk_times0|]. cbn. lia.
  - lia.
  - destruct sk_blocks0 as (gs & <- & Hl). destruct gs as [|g gs _] using rev_ind; [by destruct (blocks s) as [|[]]|].
    exists (gs ++ [g ++ [r]]). split; [|by apply laid_record]. rewrite !concat_app. cbn. by rewrite !app_nil_r, app_assoc.
Qed.

(** *** Appending to the open segment *)

Lemma append_seg_app a b f : append_seg b (append_seg a f) = append_seg (a +:+ b) f.
Proof. destruct f as [[s|] i]; unfold append_seg, with_seg; cbn; [|done]. by rewrite str_app_assoc. Qed.

Section append.
Context (k : Kind) (p : Producer).

Notation loc := (local k p).

Lemma write_frame_ok first o bytes t d : tl_data t = [] -> producer_data k p t = Some d -> pd_open d = Some o ->
  exists t' d' buffer extra, write_frame k p first o bytes t = (Ok buffer, t') /\ tl_data t' = []
    /\ loc t' = (Some d', alter (append_seg extra) first (files_of k p t), kd_next_seq (kind_data k t))
    /\ extra +:+ buffer = of_buffer o +:+ bytes /\ pd_segments d' = pd_segments d.
Proof.
  intros Hdata Hd Ho. unfold write_frame. set (flushes := WRITER_BYTES <? len (of_buffer o) + len bytes).
  assert (exists t1 buffer1 extra1, (if flushes then run! flush_open k p first o in done "" else done (of_buffer o)) t
    = (Ok buffer1, t1) /\ tl_data t1 = [] /\ loc t1 = (Some d, alter (append_seg extra1) first (files_of k p t), kd_next_seq (kind_data k t))
    /\ extra1 +:+ buffer1 = of_buffer o /\ (flushes = true -> buffer1 = "")) as (t1 & b1 & e1 & H1 & Hd1 & Hl1 & Hb1 & He1).
  { destruct flushes.
    - destruct (flush_open_ok k p first o t Hdata) as (t1 & Ht1 & Hdata1 & Hloc1). exists t1, "", (of_buffer o).
      unfold try_bind, bind. rewrite Ht1. rewrite Hd in Hloc1. split_and!; try done. by rewrite str_app_nil_r.
    - exists t, (of_buffer o), "". split_and!; try done. unfold local. rewrite Hd. f_equal. f_equal.
      symmetry. apply map_eq. intros z. destruct (decide (z = first)) as [->|Hz]; [|by rewrite lookup_alter_ne].
      rewrite lookup_alter_eq. destruct (files_of k p t !! first) as [[[b|] i]|]; try done. unfold append_seg, with_seg.
      cbn. by rewrite str_app_nil_r. }
  unfold try_bind at 1, bind at 1. rewrite H1. apply local_inv in Hl1 as (P1 & F1 & N1).
  destruct (Z.leb_spec WRITER_BYTES (len bytes)).
  - unfold bind at 1. destruct (modify_open k p _ t1) as [[] t2] eqn:Ht2.
    set (o1 := {| of_buffer := b1; of_opened := of_opened o; of_block_fill := of_block_fill o |}) in *.
    pose proof (producer_modify k p (fun d => {| pd_segments := pd_segments d; pd_open := Some o1 |}) t1) as Hl2.
    unfold modify_open in Ht2. rewrite Ht2 in Hl2. cbn [snd] in Hl2. rewrite P1, F1, N1 in Hl2.
    assert (tl_data t2 = []) as Hd2 by (injection Ht2 as <-; done). apply local_inv in Hl2 as (P2 & F2 & N2).
    unfold try_bind, bind. rewrite write_ok by done. pose proof (file_modify k p first (append_seg bytes) t2) as Hl3.
    destruct (modify_file k p first (append_seg bytes) t2) as [[] t3] eqn:Ht3. cbn [snd] in Hl3. rewrite P2, F2, N2 in Hl3.
    exists t3, {| pd_segments := pd_segments d; pd_open := Some o1 |}, b1, (e1 +:+ bytes). split; [reflexivity|]. split; [injection Ht3 as <-; done|].
    split; [|split; [|done]].
    + rewrite Hl3. cbn [fmap option_fmap option_map]. f_equal. f_equal. apply map_eq. intros z.
      destruct (decide (z = first)) as [->|Hz]; [|by rewrite !lookup_alter_ne]. rewrite !lookup_alter_eq.
      destruct (files_of k p t !! first); [|done]. cbn. by rewrite append_seg_app.
    + assert (b1 = "") as ->.
      { destruct flushes eqn:Hf; [by apply He1|]. unfold flushes in Hf. apply Z.ltb_ge in Hf.
        assert (len (of_buffer o) = 0) as Hlen by (pose proof (len_nonneg (of_buffer o)); lia).
        rewrite <- Hb1, len_app in Hlen. pose proof (len_nonneg e1). pose proof (len_nonneg b1).
        destruct b1; [done|]. unfold len in *. cbn in *. lia. }
      rewrite str_app_nil_r in *. by subst.
  - exists t1, d, (b1 +:+ bytes), e1. split; [done|]. split; [done|].
    split; [unfold local; by rewrite P1, F1, N1|]. split; [|done]. by rewrite str_app_assoc, Hb1.
Qed.

Lemma index_block_ok seq ts s o t d : tl_data t = [] -> producer_data k p t = Some d -> pd_open d = Some o ->
  last (pd_segments d) = Some s -> exists t' s' o' d' e, index_block k p seq ts s o t = (Ok o', t') /\ tl_data t' = []
    /\ loc t' = (Some d', alter (append_idx e) (first_seq s) (files_of k p t), kd_next_seq (kind_data k t))
    /\ pd_open d' = Some o' /\ of_buffer o' = of_buffer o
    /\ (s' = s /\ blocks s <> [] /\ e = "" /\ pd_segments d' = pd_segments d
        \/ s' = add_block seq s /\ e = block_entry (seg_bytes s, seq) ts /\ pd_segments d' = update_last (add_block seq) (pd_segments d)).
Proof.
  intros Hdata Hd Ho Hl. unfold index_block. destruct (_ || _) eqn:Hc.
  - destruct (write_idx_ok k p (first_seq s) (idx_entry 1 (seg_bytes s) seq ts 0) t Hdata) as (t1 & Ht1 & Hdata1 & Hloc1).
    rewrite Hd in Hloc1. apply local_inv in Hloc1 as (P1 & F1 & N1). unfold try_bind, bind at 1. rewrite Ht1. unfold bind at 1.
    destruct (modify_last k p _ t1) as [[] t2] eqn:Ht2. unfold modify_last in Ht2.
    pose proof (producer_modify k p (fun d => {| pd_segments := update_last (add_block seq) (pd_segments d); pd_open := pd_open d |}) t1) as Hloc2.
    unfold add_block in Hloc2. rewrite Ht2 in Hloc2. fold (add_block seq) in Hloc2. cbn [snd] in Hloc2.
    rewrite P1, F1, N1 in Hloc2. cbn [fmap option_fmap option_map] in Hloc2. apply local_inv in Hloc2 as (P2 & F2 & N2).
    set (o1 := {| of_buffer := of_buffer o; of_opened := of_opened o; of_block_fill := 0 |}) in *.
    unfold bind. destruct (modify_open k p (Some o1) t2) as [[] t3] eqn:Ht3. unfold modify_open in Ht3.
    pose proof (producer_modify k p (fun d => {| pd_segments := pd_segments d; pd_open := Some o1 |}) t2) as Hloc3.
    rewrite Ht3 in Hloc3. cbn [snd] in Hloc3. rewrite P2, F2, N2 in Hloc3. cbn [fmap option_fmap option_map pd_segments] in Hloc3.
    eexists t3, (add_block seq s), o1, _, _. split; [reflexivity|].
    split; [injection Ht3 as <-; injection Ht2 as <-; done|]. split; [exact Hloc3|]. split; [done|]. split; [done|]. right. by split_and!.
  - apply orb_false_iff in Hc as [_ Hc]. apply bool_decide_eq_false in Hc.
    exists t, s, o, d, "". split_and!; try done; [|by left]. unfold local. rewrite Hd. f_equal. f_equal.
    symmetry. apply map_eq. intros z. destruct (decide (z = first_seq s)) as [->|Hz]; [|by rewrite lookup_alter_ne].
    rewrite lookup_alter_eq. destruct (files_of k p t !! first_seq s) as [[b [i|]]|]; try done. unfold append_idx, with_idx.
    cbn. by rewrite str_app_nil_r.
Qed.

Lemma held_add files o s rs r extra buffer : held files (of_buffer o) s rs -> closed s = false -> follows s rs r -> blocks s <> [] ->
  extra +:+ buffer = of_buffer o +:+ frame r ->
  held (alter (append_seg extra) (first_seq s) files) buffer (add_record r s) (rs ++ [r]).
Proof.
  intros [Hs (bytes & bs & Hf & Hb & Hbs)] Hc Hr Hne He. split; [by apply seg_ok_record|].
  exists (bytes +:+ extra), bs. cbn [first_seq add_record closed blocks]. rewrite Hc in *. rewrite lookup_alter_eq, Hf.
  split_and!; try done. rewrite frames_text_app, <- Hb, <- str_app_assoc, He, frames_text_cons.
  change (frames_text []) with "". by rewrite str_app_nil_r, str_app_assoc.
Qed.

Lemma held_block files buffer s rs r : held files buffer s rs -> closed s = false -> follows s rs r ->
  held (alter (append_idx (block_entry (seg_bytes s, r_seq r) (r_ts r))) (first_seq s) files) buffer (add_block (r_seq r) s) rs.
Proof.
  intros [Hs (bytes & bs & Hf & Hb & Hbs)] Hc Hr. split; [by apply seg_ok_block|].
  exists bytes, (bs ++ [((seg_bytes s, r_seq r), r_ts r)]). cbn [first_seq add_block closed blocks]. rewrite Hc in *.
  rewrite lookup_alter_eq, Hf. split_and!; [|done|by rewrite fmap_app, Hbs]. cbn. do 3 f_equal.
  unfold block_entries. rewrite fmap_app, concat_str_app. cbn [fmap list_fmap concat_str]. by rewrite !str_app_nil_r.
Qed.

Lemma held_same_files files buffer s rs : held files buffer s rs ->
  held (alter (append_idx "") (first_seq s) files) buffer s rs.
Proof.
  intros [Hs (bytes & bs & Hf & Hb & Hbs)]. split; [done|]. exists bytes, bs. rewrite lookup_alter_eq, Hf. split_and!; try done.
  cbn. unfold append_idx, with_idx. cbn. by rewrite str_app_nil_r.
Qed.

Lemma append_record_ok r t d o init s rinit rs : tl_data t = [] -> producer_data k p t = Some d -> pd_open d = Some o ->
  pd_segments d = init ++ [s] -> chain (files_of k p t) (Some o) (init ++ [s]) (rinit ++ [rs]) -> follows s rs r ->
  exists t' d' s' files', append_record k p r t = (Ok (r_seq r), t') /\ tl_data t' = []
    /\ loc t' = (Some d', files', r_seq r + 1) /\ is_some (pd_open d') = true /\ pd_segments d' = init ++ [s']
    /\ chain files' (pd_open d') (init ++ [s']) (rinit ++ [rs ++ [r]]) /\ last_seq s' = r_seq r /\ first_seq s' = first_seq s.
Proof.
  intros Hdata Hd Ho Hl Hch Hr. unfold append_record, bind at 1, asks. rewrite Hd. destruct d as [segments open]. cbn in Ho, Hl.
  subst open segments. rewrite last_snoc.
  assert (closed s = false /\ held (files_of k p t) (of_buffer o) s rs) as [Hc Hs].
  { destruct Hch as (i0 & ri0 & s0 & rs0 & He & Hre & _ & Hc & Hs & _). apply app_inj_tail in He as [_ <-].
    apply app_inj_tail in Hre as [_ <-]. done. }
  destruct (index_block_ok (r_seq r) (r_ts r) s o t {| pd_segments := init ++ [s]; pd_open := Some o |} Hdata Hd eq_refl)
    as (t1 & s1 & o1 & d1 & e & Ht1 & Hdata1 & Hloc1 & Ho1 & Hbuf & Hcase); [apply last_snoc|].
  unfold try_bind at 1, bind at 1. rewrite Ht1. apply local_inv in Hloc1 as (P1 & F1 & N1).
  assert (first_seq s1 = first_seq s /\ closed s1 = false /\ pd_segments d1 = init ++ [s1] /\ blocks s1 <> []
    /\ held (files_of k p t1) (of_buffer o1) s1 rs /\ follows s1 rs r) as (Hfirst & Hc1 & Hl1 & Hb1 & Hs1 & Hr1).
  { rewrite Hbuf, F1. destruct Hcase as [(-> & Hb & -> & Hseg)|(-> & -> & Hseg)].
    - split_and!; try done. by apply held_same_files.
    - cbn [pd_segments] in Hseg. rewrite update_last_app in Hseg. split_and!; try done.
      + cbn. by destruct (blocks s).
      + by apply held_block. }
  destruct (write_frame_ok (first_seq s) o1 (frame r) t1 d1 Hdata1 P1 Ho1)
    as (t2 & d2 & buffer & extra & Ht2 & Hdata2 & Hloc2 & Hextra & Hseg2).
  unfold try_bind at 1, bind at 1. rewrite Ht2. apply local_inv in Hloc2 as (P2 & F2 & N2). unfold bind at 1.
  set (o3 := {| of_buffer := buffer; of_opened := of_opened o1; of_block_fill := of_block_fill o1 + frame_len (r_payload r) |}).
  destruct (modify_open k p (Some o3) t2) as [[] t3] eqn:Ht3. unfold modify_open in Ht3.
  pose proof (producer_modify k p (fun d => {| pd_segments := pd_segments d; pd_open := Some o3 |}) t2) as Hloc3.
  rewrite Ht3 in Hloc3. cbn [snd] in Hloc3. rewrite P2 in Hloc3. cbn [fmap option_fmap option_map] in Hloc3.
  rewrite Hseg2, Hl1 in Hloc3. apply local_inv in Hloc3 as (P3 & F3 & N3). unfold bind at 1.
  destruct (modify_last k p _ t3) as [[] t4] eqn:Ht4. unfold modify_last in Ht4.
  pose proof (producer_modify k p (fun d => {| pd_segments := update_last (add_record r) (pd_segments d); pd_open := pd_open d |}) t3) as Hloc4.
  unfold add_record in Hloc4. rewrite Ht4 in Hloc4. fold (add_record r) in Hloc4. cbn [snd] in Hloc4. rewrite P3 in Hloc4.
  cbn [fmap option_fmap option_map pd_segments pd_open] in Hloc4. rewrite update_last_app in Hloc4.
  apply local_inv in Hloc4 as (P4 & F4 & N4). unfold bind.
  match goal with |- context [modify_kind k ?f t4] => set (fk := f) end.
  destruct (modify_kind k fk t4) as [[] t5] eqn:Ht5.
  assert (loc t5 = (Some {| pd_segments := init ++ [add_record r s1]; pd_open := Some o3 |}, files_of k p t2, r_seq r + 1)) as Hloc5.
  { unfold local. rewrite <- F3, <- F4, <- P4. injection Ht5 as <-. unfold producer_data, kind_data. cbn. by rewrite kset_eq. }
  exists t5, {| pd_segments := init ++ [add_record r s1]; pd_open := Some o3 |}, (add_record r s1), (files_of k p t2).
  split; [done|]. split; [injection Ht5 as <-; injection Ht4 as <-; injection Ht3 as <-; done|]. split; [exact Hloc5|].
  split_and!; try done. rewrite F2, F1. eapply chain_update; [exact Hch|done| |done|].
  - intros z Hz. by rewrite !lookup_alter_ne.
  - rewrite <- F1. rewrite <- Hfirst. by apply (held_add _ o1).
Qed.

End append.

Section opening.
Context (k : Kind) (p : Producer).

Notation loc := (local k p).

(** What a call on a directory entry leaves. *)
Definition same (t t' : Tel) : Prop := tl_root t' = tl_root t /\ tl_store t' = tl_store t /\ tl_data t' = tl_data t.

Lemma same_local t t' : same t t' -> loc t' = loc t.
Proof. intros (R & S & _). unfold local, producer_data, files_of, kind_data. by rewrite R, S. Qed.

Lemma sys_same t r t' : sys t = (r, t') -> same t t'.
Proof.
  unfold sys, bind, meta_call. destruct (tl_meta t) as [|[] rest]; cbn; intros H; apply ret_inv in H as [_ ->]; done.
Qed.

Lemma sys_meta t r t' : sys t = (r, t') -> tl_meta t = [] -> tl_meta t' = [].
Proof. unfold sys, bind, meta_call. intros H Hm. rewrite Hm in H. cbn in H. by apply ret_inv in H as [_ ->]. Qed.

Lemma create_file_cases first b t r t' : is_Some (tl_root t) -> create_file k p first b t = (r, t') ->
  tl_data t' = tl_data t /\ is_Some (tl_root t') /\ producer_data k p t' = producer_data k p t
  /\ kd_next_seq (kind_data k t') = kd_next_seq (kind_data k t)
  /\ (let there := default no_file (files_of k p t !! first) in
      r = Ok tt /\ files_of k p t' = <[first := if b then with_seg (Some "") there else with_idx (Some "") there]> (files_of k p t)
      \/ r <> Ok tt /\ files_of k p t' = files_of k p t).
Proof.
  intros Hroot. unfold create_file. intros (c & t1 & Hc%sys_same & H)%bind_inv. pose proof (same_local _ _ Hc) as Hloc.
  destruct Hc as (R & S & D). unfold local in Hloc. injection Hloc as P1 F1 N1.
  destruct c as [[]|[]|]; [|apply ret_inv in H as [-> ->]; rewrite R, D, P1, F1, N1; split_and!; try done; by right..].
  unfold bind at 1, asks in H. rewrite F1 in H. destruct (is_some _).
  { apply ret_inv in H as [-> ->]. rewrite R, D, P1, F1, N1. split_and!; try done. by right. }
  apply bind_inv in H as ([] & t2 & Ht2 & H). apply ret_inv in H as [-> ->].
  split; [injection Ht2 as <-; done|]. split; [injection Ht2 as <-; cbn; rewrite R; by destruct (tl_root t)|].
  split; [injection Ht2 as <-; done|]. split; [injection Ht2 as <-; done|]. left. split; [done|].
  match type of Ht2 with modify_dirs k ?f t1 = _ => pose proof (files_of_modify k f t1 k p) as Hfm end.
  rewrite Ht2 in Hfm. cbn [snd] in Hfm. rewrite decide_True in Hfm by done. rewrite Hfm, R.
  destruct (tl_root t) as [r|] eqn:Hr; [|by destruct Hroot]. rewrite bget_insert, String.eqb_refl. cbn [default]. unfold id.
  unfold files_of, dir_of. by rewrite Hr.
Qed.

Lemma make_dir_cases t r t' : is_Some (tl_root t) -> make_dir k p t = (r, t') ->
  tl_data t' = tl_data t /\ is_Some (tl_root t') /\ loc t' = loc t.
Proof.
  intros Hroot. unfold make_dir, bind at 1, asks. destruct (tl_root t) as [root|] eqn:Hr; [|by destruct Hroot].
  destruct (bcontains (dir_name p) (ro_kinds root k)) eqn:Hb; [intros [_ ->]%ret_inv; by rewrite Hr|].
  intros (c & t1 & Hc%sys_same & H)%bind_inv. pose proof (same_local _ _ Hc) as Hloc. destruct Hc as (R & S & D).
  destruct c as [[]|[]|]; [|apply ret_inv in H as [-> ->]; rewrite R, Hr, D; by split_and!..].
  apply bind_inv in H as ([] & t2 & Ht2 & H). apply ret_inv in H as [-> ->].
  split; [injection Ht2 as <-; done|]. split; [injection Ht2 as <-; cbn; by rewrite R, Hr|]. rewrite <- Hloc.
  match type of Ht2 with modify_dirs k ?f t1 = _ => pose proof (files_of_modify k f t1 k p) as Hfm end.
  rewrite Ht2 in Hfm. cbn [snd] in Hfm. rewrite decide_True in Hfm by done.
  assert (files_of k p t2 = files_of k p t1) as Hff.
  { rewrite Hfm, R, Hr, bget_insert, String.eqb_refl. unfold files_of, dir_of. rewrite R, Hr.
    apply bcontains_false in Hb. by rewrite Hb. }
  unfold local. rewrite Hff. by injection Ht2 as <-.
Qed.

(** Opening a segment, or leaving at most a file nobody refers to. *)
Lemma open_segment_cases first now t r t' : is_Some (tl_root t) -> open_segment k p first now t = (r, t') ->
  tl_data t' = tl_data t /\ is_Some (tl_root t') /\ kd_next_seq (kind_data k t') = kd_next_seq (kind_data k t)
  /\ (forall z, z <> first -> files_of k p t' !! z = files_of k p t !! z)
  /\ (r = Ok tt /\ files_of k p t' !! first = Some {| sg_seg := Some ""; sg_idx := Some "" |}
      /\ producer_data k p t' = Some {| pd_segments := match producer_data k p t with Some d => pd_segments d | None => [] end ++ [new_segment first];
                                        pd_open := Some {| of_buffer := ""; of_opened := now; of_block_fill := 0 |} |}
      \/ r <> Ok tt /\ producer_data k p t' = producer_data k p t).
Proof.
  intros Hroot. unfold open_segment. intros (c & t1 & Hc & H)%bind_inv.
  destruct (make_dir_cases _ _ _ Hroot Hc) as (D1 & R1 & L1). unfold local in L1. injection L1 as P1 F1 N1.
  destruct c as [[]|[]|]; [|apply ret_inv in H as [-> ->]; rewrite D1, P1, F1, N1; split_and!; try done; by right..].
  apply bind_inv in H as (c & t2 & Hc2 & H). destruct (create_file_cases _ _ _ _ _ R1 Hc2) as (D2 & R2 & P2 & N2 & Hcase2).
  assert (forall z, z <> first -> files_of k p t2 !! z = files_of k p t !! z) as F2.
  { rewrite <- F1. destruct Hcase2 as [[_ ->]|[_ ->]]; [|done]. intros z Hz. by rewrite lookup_insert_ne. }
  destruct c as [[]|[]|]; [|apply ret_inv in H as [-> ->]; rewrite D2, P2, P1, N2, N1; split_and!; try done; by right..].
  destruct Hcase2 as [[_ F2e]|[? _]]; [|done].
  apply bind_inv in H as (c & t3 & Hc3 & H). destruct (create_file_cases _ _ _ _ _ R2 Hc3) as (D3 & R3 & P3 & N3 & Hcase3).
  assert (forall z, z <> first -> files_of k p t3 !! z = files_of k p t !! z) as F3.
  { intros z Hz. rewrite <- F2 by done. destruct Hcase3 as [[_ ->]|[_ ->]]; [|done]. by rewrite lookup_insert_ne. }
  destruct c as [[]|[]|]; [|apply ret_inv in H as [-> ->]; rewrite D3, D2, P3, P2, P1, N3, N2, N1; split_and!; try done; by right..].
  destruct Hcase3 as [[_ F3e]|[? _]]; [|done].
  apply bind_inv in H as ([] & t4 & Ht4 & H). apply ret_inv in H as [-> ->].
  assert (files_of k p t4 = files_of k p t3 /\ tl_data t4 = tl_data t3 /\ tl_root t4 = tl_root t3) as (F4 & D4 & R4)
    by (by injection Ht4 as <-).
  rewrite D4, R4, F4, D3, D2, D1. split; [done|]. split; [done|].
  match type of Ht4 with modify_kind k ?f t3 = _ => pose proof (kind_data_modify k f t3 k) as Hkd end.
  rewrite Ht4, decide_True in Hkd by done. cbn [snd] in Hkd. split.
  { rewrite Hkd. cbn [with_producers kd_next_seq]. by rewrite N3, N2, N1. }
  split; [done|]. left. split; [done|]. split.
  - rewrite F3e, lookup_insert_eq, F2e, lookup_insert_eq. done.
  - unfold producer_data at 1. rewrite Hkd. cbn [with_producers kd_producers]. rewrite pget_pset, decide_True by done.
    fold (producer_data k p t3). rewrite P3, P2, P1. by destruct (producer_data k p t).
Qed.

End opening.

(** ** The records of a producer *)

Definition raw (p : Producer) (s : Segment) (r : Rec) : RawRecord := {| rr_rec := r; rr_producer := p; rr_segment := first_seq s |}.
Definition raws (p : Producer) (s : Segment) (rs : list Rec) : list RawRecord := raw p s <$> rs.

Definition next_of (k : Kind) (t : Tel) : Z := kd_next_seq (kind_data k t).

(** The records of [p], in memory and on disk. *)
Definition recs (k : Kind) (p : Producer) (t : Tel) (l : list RawRecord) : Prop :=
  match producer_data k p t with
  | None => l = []
  | Some d => exists rl, chain (files_of k p t) (pd_open d) (pd_segments d) rl
      /\ Forall (fun s => last_seq s < next_of k t) (pd_segments d) /\ l = concat (zip_with (raws p) (pd_segments d) rl)
  end.

Lemma chain_files files files' o l rl : Forall (fun s => files' !! first_seq s = files !! first_seq s) l ->
  chain files o l rl -> chain files' o l rl.
Proof.
  intros Hf (init & rinit & s & rs & -> & -> & Hinit & Hc & Hs & Ho). apply Forall_app in Hf as [Hf Hfs].
  apply Forall_cons in Hfs as [Hfs _]. exists init, rinit, s, rs. split_and!; try done; [|by eapply held_files].
  clear -Hinit Hf. induction Hinit as [|a ra init rinit [Hca Ha] _ IH]; [constructor|].
  apply Forall_cons in Hf as [Hfa Hf]. constructor; [|by apply IH]. split; [done|]. by eapply held_files.
Qed.

Lemma chain_each files o l rl : chain files o l rl -> Forall2 (fun s rs => exists buffer, held files buffer s rs) l rl.
Proof.
  intros (init & rinit & s & rs & -> & -> & Hinit & _ & Hs & _). apply Forall2_app; [|constructor; [by eexists|done]].
  eapply Forall2_impl; [exact Hinit|]. intros a ra [_ Ha]. by eexists.
Qed.

Lemma chain_ranges files o l rl : chain files o l rl -> Forall (fun s => first_seq s <= last_seq s) l.
Proof.
  intros H%chain_each. induction H as [|s rs l rl [b [Hs _]] _ IH]; constructor; [|done]. pose proof (sk_range _ _ Hs). lia.
Qed.

Lemma zip_raws_first p l l' rl : first_seq <$> l' = first_seq <$> l -> zip_with (raws p) l' rl = zip_with (raws p) l rl.
Proof.
  revert l rl. induction l' as [|s' l' IH]; intros [|s l] rl; cbn; try done. intros [= Hs Hl]. destruct rl as [|rs rl]; [done|].
  cbn. f_equal; [|by apply IH]. unfold raws, raw. by rewrite Hs.
Qed.

Lemma forall_last_seq l l' n : last_seq <$> l' = last_seq <$> l -> Forall (fun s => last_seq s < n) l -> Forall (fun s => last_seq s < n) l'.
Proof.
  revert l. induction l' as [|s' l' IH]; intros [|s l] He H; cbn in He; try done. injection He as Hs Hl.
  apply Forall_cons in H as [H1 H2]. constructor; [by rewrite Hs|]. by apply (IH l).
Qed.

Section appends.
Context (k : Kind) (p : Producer).

Lemma recs_close t l : tl_data t = [] -> recs k p t l -> exists t', close_open k p t = (Ok tt, t')
  /\ tl_data t' = [] /\ recs k p t' l /\ next_of k t' = next_of k t
  /\ (forall d, producer_data k p t' = Some d -> pd_open d = None)
  /\ (is_Some (producer_data k p t) -> is_Some (producer_data k p t')).
Proof.
  intros Hdata Hr. unfold recs in *. destruct (producer_data k p t) as [d|] eqn:Hd.
  - destruct Hr as (rl & Hch & Hlt & ->).
    destruct (close_open_ok k p t d rl Hdata Hd Hch) as (t' & d' & files' & Ht' & Hdata' & Hloc & Ho & Hch' & Hls & Hfs & _).
    apply local_inv in Hloc as (P & F & N). exists t'. rewrite P. split_and!; try done; [|by intros ? [= <-]].
    exists rl. rewrite F, Ho. split; [done|]. unfold next_of in *. rewrite N. split; [by eapply forall_last_seq|].
    f_equal. symmetry. by apply zip_raws_first.
  - exists t. unfold close_open, bind at 1, asks. rewrite Hd. split_and!; try done.
Qed.

Lemma chain_last files o l rl : chain files o l rl -> exists init rinit s rs, l = init ++ [s] /\ rl = rinit ++ [rs]
  /\ length init = length rinit.
Proof.
  intros (init & rinit & s & rs & -> & -> & Hinit & _). exists init, rinit, s, rs. split_and!; try done. by eapply Forall2_length.
Qed.

Lemma held_bound files buffer s rs n : held files buffer s rs -> last_seq s < n -> Forall (fun a => r_seq a < n) rs.
Proof. intros [Hs _] Hn. eapply Forall_impl; [exact (sk_seqs _ _ Hs)|]. cbn. lia. Qed.

Lemma zip_snoc init rinit s rs : length init = length rinit ->
  concat (zip_with (raws p) (init ++ [s]) (rinit ++ [rs])) = concat (zip_with (raws p) init rinit) ++ raws p s rs.
Proof. intros Hlen. rewrite zip_with_app by done. rewrite concat_app. cbn. by rewrite app_nil_r. Qed.

(** Appending to the open segment. *)
Lemma chain_append t r d o init s rinit rs : tl_data t = [] -> producer_data k p t = Some d -> pd_open d = Some o ->
  pd_segments d = init ++ [s] -> chain (files_of k p t) (Some o) (init ++ [s]) (rinit ++ [rs]) ->
  Forall (fun a => last_seq a < r_seq r) init -> follows s rs r ->
  exists t', append_record k p r t = (Ok (r_seq r), t') /\ tl_data t' = [] /\ next_of k t' = r_seq r + 1
    /\ recs k p t' (concat (zip_with (raws p) (init ++ [s]) (rinit ++ [rs])) ++ [raw p s r]).
Proof.
  intros Hdata Hd Ho Hl Hch Hlt Hfol. destruct (chain_last _ _ _ _ Hch) as (i0 & ri0 & s0 & rs0 & He & Hre & Hlen).
  apply app_inj_tail in He as [<- <-]. apply app_inj_tail in Hre as [<- <-].
  destruct (append_record_ok k p r t d o init s rinit rs Hdata Hd Ho Hl Hch Hfol)
    as (t' & d' & s' & files' & Ht' & Hdata' & Hloc & Hopen & Hl' & Hch' & Hls & Hfs).
  apply local_inv in Hloc as (P & F & N). exists t'. split_and!; try done.
  unfold recs, next_of. rewrite P, F, N, Hl'. exists (rinit ++ [rs ++ [r]]). split; [done|]. split.
  - apply Forall_app. split; [|constructor; [lia|done]]. eapply Forall_impl; [exact Hlt|]. cbn. lia.
  - rewrite !zip_snoc by done. rewrite <- app_assoc. f_equal. unfold raws. rewrite fmap_app. unfold raw. by rewrite Hfs.
Qed.

Lemma recs_append t l r d o s : tl_data t = [] -> recs k p t l -> producer_data k p t = Some d -> pd_open d = Some o ->
  last (pd_segments d) = Some s -> wf_rec r -> r_seq r = next_of k t -> seg_bytes s + frame_len (r_payload r) <= 2 ^ 62 ->
  exists t', append_record k p r t = (Ok (r_seq r), t') /\ tl_data t' = [] /\ next_of k t' = r_seq r + 1
    /\ recs k p t' (l ++ [raw p s r]).
Proof.
  intros Hdata Hr Hd Ho Hlast Hwf Hseq Hsize. unfold recs in Hr. rewrite Hd, Ho in Hr. destruct Hr as (rl & Hch & Hlt & ->).
  destruct (chain_last _ _ _ _ Hch) as (init & rinit & s' & rs & Hl & -> & Hlen). rewrite Hl in *. rewrite last_snoc in Hlast.
  injection Hlast as ->. apply Forall_app in Hlt as [Hlti Hlts]. apply Forall_cons in Hlts as [Hlts _].
  eapply chain_append; try done; [by rewrite Hseq|].
  pose proof (chain_each _ _ _ _ Hch) as He. apply Forall2_app_inv_l in He as (a & b & _ & He & Hab).
  apply Forall2_cons_inv_l in He as (rs' & b' & [buffer Hheld] & Hb' & ->). apply Forall2_nil_inv_l in Hb' as ->.
  apply app_inj_tail in Hab as [_ <-]. split_and!; try done; [lia|]. rewrite Hseq. by eapply held_bound.
Qed.

(** A new segment is open and empty. *)
Lemma held_new files first : 0 <= first <= u64_max -> files !! first = Some {| sg_seg := Some ""; sg_idx := Some "" |} ->
  held files "" (new_segment first) [].
Proof.
  intros Hfirst Hf. split; [|by exists "", []]. split; cbn; unfold i64_min, i64_max; try done; try constructor; try lia. by exists [].
Qed.

Lemma recs_open_append t l r now x t1 : tl_data t = [] -> is_Some (tl_root t) -> recs k p t l ->
  (forall d, producer_data k p t = Some d -> pd_open d = None) -> wf_rec r -> r_seq r = next_of k t ->
  open_segment k p (r_seq r) now t = (x, t1) ->
  (x = Ok tt /\ exists t', append_record k p r t1 = (Ok (r_seq r), t') /\ tl_data t' = [] /\ next_of k t' = r_seq r + 1
     /\ recs k p t' (l ++ [raw p (new_segment (r_seq r)) r]))
  \/ (x <> Ok tt /\ tl_data t1 = [] /\ next_of k t1 = next_of k t /\ recs k p t1 l).
Proof.
  intros Hdata Hroot Hr Hclosed Hwf Hseq Hopen.
  destruct (open_segment_cases k p _ _ _ _ _ Hroot Hopen) as (D1 & R1 & N1 & Hfiles & [(-> & Hf & P1)|(Hx & P1)]).
  - left. split; [done|]. unfold recs in Hr.
    set (segs := match producer_data k p t with Some d => pd_segments d | None => [] end) in *.
    assert (exists rl, (chain (files_of k p t) None segs rl \/ (segs = [] /\ rl = [])) /\ Forall (fun a => last_seq a < r_seq r) segs
              /\ l = concat (zip_with (raws p) segs rl) /\ length segs = length rl) as (rl & Hch & Hlt & -> & Hlen).
    { unfold segs in *. destruct (producer_data k p t) as [d|] eqn:Hd; [|exists []; by split_and!; [right| | |]].
      destruct Hr as (rl & Hch & Hlt & ->). exists rl. rewrite (Hclosed d eq_refl) in Hch. rewrite Hseq. split_and!; try done; [by left|].
      by eapply Forall2_length, chain_each. }
    pose proof Hwf as (Hseqs & _ & _ & Hmax).
    assert (chain (files_of k p t1) (Some {| of_buffer := ""; of_opened := now; of_block_fill := 0 |}) (segs ++ [new_segment (r_seq r)]) (rl ++ [[]]))
      as Hch1 by (eapply (chain_snoc (files_of k p t)); try done; by apply held_new).
    destruct (chain_append t1 r _ _ segs (new_segment (r_seq r)) rl [] ltac:(congruence) P1 eq_refl eq_refl Hch1 Hlt) as (t' & Ht' & D' & N' & Hr').
    { split_and!; cbn; try done; unfold MAX_FRAME in *; lia. }
    exists t'. split_and!; try done. by rewrite zip_snoc, app_nil_r in Hr'.
  - right. split_and!; try done; [congruence|]. unfold recs, next_of in *. rewrite P1, N1. destruct (producer_data k p t) as [d|]; [|done].
    destruct Hr as (rl & Hch & Hlt & ->). exists rl. split_and!; try done. eapply chain_files; [|exact Hch].
    pose proof (chain_ranges _ _ _ _ Hch) as Hrg. apply Forall_forall. intros s Hs. rewrite Forall_forall in Hlt, Hrg. apply Hfiles.
    specialize (Hlt s Hs). specialize (Hrg s Hs). cbn in *. lia.
Qed.

End appends.

(** One append: exactly its record, with the next sequence number; or nothing. *)
Definition fits (ts tag : Z) : Prop := i64_min <= ts <= i64_max /\ 0 <= tag <= 255.

Lemma recs_try_append k p ts tag payload now t l x t' : tl_data t = [] -> is_Some (tl_root t) -> recs k p t l ->
  fits ts tag -> 0 <= next_of k t <= u64_max -> s_segment_max_bytes (tl_store t) <= 2 ^ 62 ->
  try_append k p ts tag payload now t = (x, t') ->
  let r := {| r_seq := next_of k t; r_ts := ts; r_tag := tag; r_payload := payload |} in
  (x = Ok (r_seq r) /\ next_of k t' = r_seq r + 1 /\ exists seg, recs k p t' (l ++ [ {| rr_rec := r; rr_producer := p; rr_segment := seg |} ]))
  \/ ((forall n, x <> Ok n) /\ next_of k t' = next_of k t /\ recs k p t' l).
Proof.
  intros Hdata Hroot Hr (Hts & Htag) Hnext Hmax H r. unfold try_append in H.
  destruct (Z.ltb_spec MAX_FRAME (frame_len payload - 4)) as [|Hlen]; [right; by apply ret_inv in H as [-> ->]|].
  assert (wf_rec r) as Hwf by (split_and!; cbn; lia).
  unfold bind at 1, asks in H.
  assert (exists t1, ((if must_rotate k p (frame_len payload) now t then close_open k p else done tt) : st Tel (outcome unit unit)) t = (Ok tt, t1)
    /\ tl_data t1 = [] /\ is_Some (tl_root t1) /\ recs k p t1 l /\ next_of k t1 = next_of k t
    /\ forall d o s, producer_data k p t1 = Some d -> pd_open d = Some o -> last (pd_segments d) = Some s ->
         seg_bytes s + frame_len payload <= 2 ^ 62) as (t1 & Ht1 & D1 & R1 & Hr1 & N1 & Hsmall).
  { destruct (must_rotate k p (frame_len payload) now t) eqn:Hm.
    - destruct (recs_close k p t l Hdata Hr) as (t1 & Ht1 & D1 & Hr1 & N1 & Hno & _). exists t1. split_and!; try done.
      + pose proof (only_close k p t) as Hon. rewrite Ht1 in Hon. by apply (on_root _ _ _ _ Hon).
      + intros d o s Hd Ho _. by rewrite (Hno d Hd) in Ho.
    - exists t. split_and!; try done. intros d o s Hd Ho Hs. unfold must_rotate in Hm. rewrite Hd, Ho, Hs in Hm.
      apply orb_false_iff in Hm as [Hm%Z.ltb_ge _]. lia. }
  unfold try_bind at 1, bind at 1 in H. rewrite Ht1 in H. unfold bind at 1, asks in H. unfold bind at 1, asks in H.
  fold (next_of k t1) in H. rewrite N1 in H. fold r in H.
  destruct (match producer_data k p t1 with Some d => is_some (pd_open d) | None => false end) eqn:Ho.
  - destruct (producer_data k p t1) as [d|] eqn:Hd; [|done]. destruct (pd_open d) as [o|] eqn:Hop; [|done].
    assert (exists s, last (pd_segments d) = Some s) as [s Hs].
    { unfold recs in Hr1. rewrite Hd in Hr1. destruct Hr1 as (rl & (? & ? & s & ? & -> & _) & _). exists s. by rewrite last_snoc. }
    destruct (recs_append k p t1 l r d o s D1 Hr1 Hd Hop Hs Hwf ltac:(done) (Hsmall d o s eq_refl Hop Hs)) as (t2 & Ht2 & D2 & N2 & Hr2).
    cbn [try_bind bind done ret] in H. unfold try_bind, bind, done, ret in H. rewrite Ht2 in H. injection H as <- <-. left.
    split_and!; try done. by exists (first_seq s).
  - destruct (open_segment k p (r_seq r) now t1) as [c t2] eqn:Hc.
    destruct (recs_open_append k p t1 l r now c t2 D1 R1 Hr1) as [(-> & t3 & Ht3 & D3 & N3 & Hr3)|(Hx & D2 & N2 & Hr2)]; try done.
    { intros d Hd. rewrite Hd in Ho. by destruct (pd_open d). }
    + cbn [r_seq r] in Hc. unfold try_bind, bind in H. rewrite Hc in H. fold r in H. rewrite Ht3 in H. injection H as <- <-. left.
      split_and!; try done. by exists (first_seq (new_segment (r_seq r))).
    + right. cbn [r_seq r] in Hc. unfold try_bind, bind in H. rewrite Hc in H. rewrite N1 in N2.
      destruct c as [[]| |]; [done|injection H as <- <-; by split_and!..].
Qed.
