(* ===== verification/TelemetryOps.v ===== *)
(** * The telemetry store as a log

    A kind of the store stands for the records of each of its producers.
    Between operations memory and disk agree ([store_ok]); an append adds its
    record, or nothing; flushing and closing change no record; eviction only
    takes records from the front of a producer. *)

From S2P Require Import Prelude RustStr BTree Json PlanCode Calendar Effects Crypto Store ReconcileFacts Telemetry TelemetryFacts.

#[local] Arguments parse_frames : simpl never.

(** ** The records a store holds *)

(** The frames of a segment: its file, and what the writer holds back. *)
Definition frames_of (files : Dir) (o : option OpenFiles) (s : Segment) : string :=
  default "" (f ← files !! first_seq s; sg_seg f)
  +:+ (if closed s then "" else match o with Some o => of_buffer o | None => "" end).

Definition stored_of (k : Kind) (p : Producer) (t : Tel) : list RawRecord :=
  match producer_data k p t with
  | Some d => concat ((fun s => raws p s (parse_frames (frames_of (files_of k p t) (pd_open d) s)).1) <$> pd_segments d)
  | None => []
  end.

(** The records of a kind. *)
Definition stored (k : Kind) (t : Tel) : list RawRecord := concat ((fun p => stored_of k p t) <$> producers_of k t).

Lemma held_frames files o s rs buffer : held files buffer s rs ->
  buffer = (if closed s then "" else match o with Some o => of_buffer o | None => "" end) ->
  (parse_frames (frames_of files o s)).1 = rs.
Proof.
  intros [Hs (bytes & bs & Hf & Hb & _)] He.
  assert (frames_of files o s = frames_text rs) as -> by (unfold frames_of; rewrite Hf, <- He; exact Hb).
  rewrite parse_frames_text; [done|]. apply (sk_wf _ _ Hs).
Qed.

Lemma chain_stored p files o l rl : chain files o l rl ->
  concat ((fun s => raws p s (parse_frames (frames_of files o s)).1) <$> l) = concat (zip_with (raws p) l rl).
Proof.
  intros (init & rinit & s & rs & -> & -> & Hinit & Hc & Hs & _). rewrite zip_with_app by (by eapply Forall2_length).
  rewrite fmap_app, !concat_app. f_equal; cbn.
  - induction Hinit as [|a ra init rinit [Hca Ha] _ IH]; cbn; [done|]. rewrite IH. f_equal.
    erewrite held_frames by (done || by rewrite Hca). done.
  - erewrite held_frames; [done|exact Hs|]. rewrite Hc. by destruct o.
Qed.

Lemma recs_stored k p t l : recs k p t l -> stored_of k p t = l.
Proof.
  unfold recs, stored_of. destruct (producer_data k p t) as [d|]; [|done]. intros (rl & Hch & _ & ->). by apply chain_stored.
Qed.

Lemma recs_below k p t l : recs k p t l -> Forall (fun a => r_seq (rr_rec a) < next_of k t) l.
Proof.
  unfold recs. destruct (producer_data k p t) as [d|]; [|intros ->; constructor]. intros (rl & Hch%chain_each & Hlt & ->).
  induction Hch as [|s rs l rl [b [Hs _]] _ IH]; cbn; [constructor|]. apply Forall_cons in Hlt as [Hlt1 Hlt].
  apply Forall_app. split; [|by apply IH]. unfold raws. apply Forall_fmap. eapply Forall_impl; [exact (sk_seqs _ _ Hs)|]. cbn. lia.
Qed.

(** ** The invariant *)

Record store_ok (t : Tel) : Prop := {
  ok_root : is_Some (tl_root t);
  ok_data : tl_data t = [];
  ok_max : s_segment_max_bytes (tl_store t) <= 2 ^ 62;
  ok_policy k : retention_valid (retention k t) = true;
  ok_sorted k : bsorted (kd_producers (kind_data k t));
  ok_keys k : Forall (fun e => e.1 = order_key e.2.1) (kd_producers (kind_data k t));
  ok_wf k p : is_Some (producer_data k p t) -> wf_producer p;
  ok_recs k p : recs k p t (stored_of k p t);
  ok_next k : 1 <= next_of k t;
  ok_apart k p q a b : a ∈ stored_of k p t -> b ∈ stored_of k q t -> r_seq (rr_rec a) = r_seq (rr_rec b) -> p = q
}.

Lemma stored_of_none k p t : producer_data k p t = None -> stored_of k p t = [].
Proof. unfold stored_of. by intros ->. Qed.

Lemma stored_of_same k p t t' : producer_data k p t' = producer_data k p t -> files_of k p t' = files_of k p t ->
  stored_of k p t' = stored_of k p t.
Proof. unfold stored_of. by intros -> ->. Qed.

Lemma recs_same k p t t' l : producer_data k p t' = producer_data k p t -> files_of k p t' = files_of k p t ->
  next_of k t <= next_of k t' -> recs k p t l -> recs k p t' l.
Proof.
  unfold recs. intros -> -> Hn. destruct (producer_data k p t) as [d|]; [|done]. intros (rl & Hch & Hlt & ->). exists rl.
  split_and!; try done. eapply Forall_impl; [exact Hlt|]. cbn. lia.
Qed.

(** One producer moves, the others stay. *)
Section moves.
Context {k : Kind} {p : Producer} {t t' : Tel}.
Context (Hok : store_ok t) (Hp : wf_producer p) (Hon : only k p t t').

Lemma others_data k' q : (k', q) <> (k, p) -> producer_data k' q t' = producer_data k' q t.
Proof.
  intros Hne. destruct (decide (k' = k)) as [->|Hk]; [apply (on_producer _ _ _ _ Hon); congruence|].
  unfold producer_data. by rewrite (on_kind _ _ _ _ Hon).
Qed.

Lemma others_files k' q : (k', q) <> (k, p) -> wf_producer q -> files_of k' q t' = files_of k' q t.
Proof.
  intros Hne Hq. destruct (decide (k' = k)) as [->|Hk]; [|by apply (on_dirs _ _ _ _ Hon)].
  apply (on_files _ _ _ _ Hon); [done..|congruence].
Qed.

Lemma others_stored k' q : (k', q) <> (k, p) -> stored_of k' q t' = stored_of k' q t.
Proof.
  intros Hne. pose proof (others_data k' q Hne) as Hd. destruct (producer_data k' q t) as [d|] eqn:He.
  - apply stored_of_same; [congruence|]. apply others_files; [done|]. apply (ok_wf _ Hok k'). by rewrite He.
  - by rewrite !stored_of_none.
Qed.

Lemma moved l' : recs k p t' l' -> next_of k t <= next_of k t' ->
  (forall a, a ∈ l' -> a ∈ stored_of k p t \/ next_of k t <= r_seq (rr_rec a)) -> store_ok t'.
Proof.
  intros Hr Hnext Hnew. pose proof (recs_stored _ _ _ _ Hr) as Hl. destruct (on_config _ _ _ _ Hon) as (Hret & Hmax & _).
  assert (forall k', next_of k' t <= next_of k' t') as Hnexts.
  { intros k'. destruct (decide (k' = k)) as [->|Hk]; [done|]. unfold next_of. by rewrite (on_kind _ _ _ _ Hon). }
  assert (forall k' q a, a ∈ stored_of k' q t -> r_seq (rr_rec a) < next_of k' t) as Hbelow.
  { intros k' q a Ha. pose proof (recs_below _ _ _ _ (ok_recs _ Hok k' q)) as Hb. rewrite Forall_forall in Hb. by apply Hb. }
  split.
  - apply (on_root _ _ _ _ Hon), ok_root, Hok.
  - apply (on_data _ _ _ _ Hon), ok_data, Hok.
  - rewrite Hmax. apply ok_max, Hok.
  - intros k'. unfold retention. rewrite Hret. apply (ok_policy _ Hok).
  - intros k'. destruct (decide (k' = k)) as [->|Hk]; [apply (on_sorted _ _ _ _ Hon), ok_sorted, Hok|].
    rewrite (on_kind _ _ _ _ Hon) by done. apply ok_sorted, Hok.
  - intros k'. destruct (decide (k' = k)) as [->|Hk]; [apply (on_keys _ _ _ _ Hon), ok_keys, Hok|].
    rewrite (on_kind _ _ _ _ Hon) by done. apply ok_keys, Hok.
  - intros k' q. destruct (decide ((k', q) = (k, p))) as [[= -> ->]|Hne]; [done|]. rewrite others_data by done. apply ok_wf, Hok.
  - intros k' q. destruct (decide ((k', q) = (k, p))) as [[= -> ->]|Hne]; [by rewrite Hl|]. rewrite others_stored by done.
    destruct (producer_data k' q t) as [d|] eqn:Hd.
    + eapply recs_same; [by apply others_data| |apply Hnexts|apply (ok_recs _ Hok)]. apply others_files; [done|].
      apply (ok_wf _ Hok k'). by rewrite Hd.
    + unfold recs. rewrite others_data, Hd by done. by apply stored_of_none.
  - intros k'. pose proof (ok_next _ Hok k'). specialize (Hnexts k'). lia.
  - assert (forall q a b, q <> p -> a ∈ stored_of k p t' -> b ∈ stored_of k q t' -> r_seq (rr_rec a) <> r_seq (rr_rec b)) as Hcross.
    { intros q a b Hq Ha Hb He. rewrite Hl in Ha. rewrite others_stored in Hb by congruence. destruct (Hnew a Ha) as [Ha'|Ha'].
      - apply Hq. symmetry. by eapply (ok_apart _ Hok k).
      - specialize (Hbelow _ _ _ Hb). lia. }
    intros k' q1 q2 a b Ha Hb He. destruct (decide (k' = k)) as [->|Hk].
    + destruct (decide (q1 = p)) as [->|H1], (decide (q2 = p)) as [->|H2]; [done|by destruct (Hcross q2 a b)|by destruct (Hcross q1 b a)|].
      rewrite others_stored in Ha, Hb by congruence. by eapply (ok_apart _ Hok k).
    + rewrite others_stored in Ha, Hb by congruence. by eapply (ok_apart _ Hok k').
Qed.

End moves.

(** ** Appends *)

Lemma only_counters k p f : keeps (only k p) (modify_kind k (fun kd => with_counters (f kd) kd)).
Proof. by apply only_modify_kind. Qed.

(** Counters do not touch a record. *)
Lemma counters_same k f t : let t' := (modify_kind k (fun kd => with_counters (f kd) kd) t).2 in
  (forall k' q, producer_data k' q t' = producer_data k' q t) /\ (forall k' q, files_of k' q t' = files_of k' q t)
  /\ (forall k', next_of k' t' = next_of k' t).
Proof.
  intros t'. unfold t', producer_data, next_of. split_and!; try done; intros k' *; rewrite kind_data_modify; by destruct (decide (k' = k)) as [->|].
Qed.

(** The kinds and producers that an operation left alone. *)
Definition untouched (k : Kind) (p : Producer) (t t' : Tel) : Prop :=
  forall k' q, (k', q) <> (k, p) -> stored_of k' q t' = stored_of k' q t.

(** What an append did to the log. *)
Definition appended (k : Kind) (p : Producer) (r : Rec) (a : Appended) (t t' : Tel) : Prop :=
  match a with
  | Stored seq => seq = r_seq r /\ next_of k t' = seq + 1
      /\ exists seg, stored_of k p t' = stored_of k p t ++ [ {| rr_rec := r; rr_producer := p; rr_segment := seg |} ]
  | Paused | AppendFailed => next_of k t' = next_of k t /\ stored_of k p t' = stored_of k p t
  end.

Lemma try_append_ok k p ts tag payload now t x t' : store_ok t -> wf_producer p -> fits ts tag -> next_of k t < u64_max ->
  try_append k p ts tag payload now t = (x, t') ->
  store_ok t' /\ untouched k p t t'
  /\ appended k p {| r_seq := next_of k t; r_ts := ts; r_tag := tag; r_payload := payload |}
       (match x with Ok n => Stored n | _ => AppendFailed end) t t'.
Proof.
  intros Hok Hp Hfits Hnext Hx. pose proof (keeps_eq _ _ _ _ (only_try_append k p ts tag payload now) Hx) as Hon.
  pose proof (ok_next _ Hok k) as Hn.
  destruct (recs_try_append k p ts tag payload now t _ x t' (ok_data _ Hok) (ok_root _ Hok) (ok_recs _ Hok k p) Hfits ltac:(lia) (ok_max _ Hok) Hx)
    as [(-> & N & seg & Hr)|(Hno & N & Hr)].
  - split; [|split; [intros k' q; by apply (others_stored Hok Hp Hon)|]].
    + eapply (moved Hok Hp Hon); [exact Hr|cbn in N; lia|]. intros a [Ha|Ha%list_elem_of_singleton]%elem_of_app; [by left|right].
      subst a. cbn. lia.
    + cbn. split_and!; try done. exists seg. by apply recs_stored.
  - split; [|split; [intros k' q; by apply (others_stored Hok Hp Hon)|]].
    + eapply (moved Hok Hp Hon); [exact Hr|lia|]. intros a Ha. by left.
    + apply recs_stored in Hr. destruct x; [by destruct (Hno a)|done..].
Qed.

Lemma counted k p f t : store_ok t -> wf_producer p ->
  let t' := (modify_kind k (fun kd => with_counters (f kd) kd) t).2 in
  store_ok t' /\ (forall k' q, stored_of k' q t' = stored_of k' q t) /\ forall k', next_of k' t' = next_of k' t.
Proof.
  intros Hok Hp t'. destruct (counters_same k f t) as (Hd & Hf & Hn). fold t' in Hd, Hf, Hn. split_and!; try done.
  - eapply (moved Hok Hp (only_counters k p f t)); [|by rewrite Hn|intros a Ha; left; exact Ha].
    eapply recs_same; [apply Hd|apply Hf|by rewrite Hn|]. apply ok_recs, Hok.
  - intros k' q. by apply stored_of_same.
Qed.

(** Counting after an append. *)
Lemma counted_appended k p f r a t t' : store_ok t' -> wf_producer p -> untouched k p t t' -> appended k p r a t t' ->
  let t'' := (modify_kind k (fun kd => with_counters (f kd) kd) t').2 in
  store_ok t'' /\ untouched k p t t'' /\ appended k p r a t t''.
Proof.
  intros Hok Hp Hu Ha t''. destruct (counted k p f t' Hok Hp) as (Hok' & Hs & Hn). fold t'' in Hok', Hs, Hn. split_and!; [done| |].
  - intros k' q Hne. rewrite Hs. by apply Hu.
  - unfold appended in *. by rewrite Hs, Hn.
Qed.

(** Whether the guard holds back the records of [p]. *)
Definition held_back (p : Producer) (t : Tel) : bool :=
  if decide (p = System) then g_system_paused (s_guard (tl_store t)) else g_paused (s_guard (tl_store t)).

(** Stored exactly, or not at all; paused exactly when the guard says so. *)
Lemma append_ok k p ts tag payload now t : store_ok t -> wf_producer p -> fits ts tag -> next_of k t < u64_max ->
  let '(a, t') := append k p ts tag payload now t in
  store_ok t' /\ untouched k p t t'
  /\ appended k p {| r_seq := next_of k t; r_ts := ts; r_tag := tag; r_payload := payload |} a t t'
  /\ (a = Paused <-> held_back p t = true).
Proof.
  intros Hok Hp Hfits Hnext. unfold append, bind at 1, asks. cbv beta iota. fold (held_back p t).
  set (r := {| r_seq := next_of k t; r_ts := ts; r_tag := tag; r_payload := payload |}).
  destruct (held_back p t) eqn:Hb; unfold bind, count_dropped, count_appended.
  - match goal with |- context [modify_kind k (fun kd => with_counters (@?f kd) kd) t] =>
      destruct (counted_appended k p f r Paused t t Hok Hp ltac:(done) ltac:(done)) as (H1 & H2 & H3) end.
    by split_and!.
  - destruct (try_append k p ts tag payload now t) as [x t1] eqn:Hx.
    destruct (try_append_ok k p ts tag payload now t x t1 Hok Hp Hfits Hnext Hx) as (Hok1 & Hu & Ha).
    destruct x as [seq|e|];
      match goal with |- context [modify_kind k (fun kd => with_counters (@?f kd) kd) t1] =>
        destruct (counted_appended k p f r _ t t1 Hok1 Hp Hu Ha) as (H1 & H2 & H3) end; by split_and!.
Qed.

(** ** Flushing and closing *)

(** The writer of [p] holds nothing back. *)
Definition flushed (k : Kind) (p : Producer) (t : Tel) : Prop :=
  forall d o, producer_data k p t = Some d -> pd_open d = Some o -> of_buffer o = "".

Lemma held_flush files buffer s rs : held files buffer s rs -> held (alter (append_seg buffer) (first_seq s) files) "" s rs.
Proof.
  intros [Hs (bytes & bs & Hf & Hb & Hbs)]. split; [done|]. exists (bytes +:+ buffer), bs.
  rewrite lookup_alter_eq, Hf, str_app_nil_r. by split_and!.
Qed.

Lemma only_flush_producer k p : keeps (only k p) (flush_producer k p).
Proof. unfold flush_producer, modify_open. only_steps. Qed.

Lemma recs_flush k p t l : tl_data t = [] -> recs k p t l -> exists t', flush_producer k p t = (tt, t')
  /\ recs k p t' l /\ next_of k t' = next_of k t /\ flushed k p t'.
Proof.
  intros Hdata Hr. unfold flush_producer, bind at 1, asks. unfold recs, flushed in *.
  destruct (producer_data k p t) as [[segs [o|]]|] eqn:Hd; cbn [pd_segments pd_open] in *.
  - destruct Hr as (rl & Hch & Hlt & ->). pose proof Hch as (init & rinit & s & rs & -> & -> & _ & Hc & Hs & _). rewrite last_snoc.
    destruct (flush_open_ok k p (first_seq s) o t Hdata) as (t1 & Ht1 & D1 & L1). unfold bind. rewrite Ht1.
    apply local_inv in L1 as (P1 & F1 & N1). set (o' := {| of_buffer := ""; of_opened := of_opened o; of_block_fill := of_block_fill o |}).
    exists (modify_open k p (Some o') t1).2. split; [done|].
    pose proof (producer_modify k p (fun d => {| pd_segments := pd_segments d; pd_open := Some o' |}) t1) as L2.
    fold (modify_open k p (Some o')) in L2. rewrite P1, Hd, F1, N1 in L2. apply local_inv in L2 as (P2 & F2 & N2).
    unfold next_of. rewrite P2, F2, N2. cbn [fmap option_fmap option_map pd_segments pd_open]. split_and!; [|done|by intros ? ? [= <-] [= <-]].
    exists (rinit ++ [rs]). split_and!; try done. eapply chain_update; [exact Hch|done| |done|by apply held_flush].
    intros z Hz. by rewrite lookup_alter_ne.
  - exists t. rewrite Hd. split_and!; [done..|]. by intros d o [= <-].
  - exists t. by rewrite Hd.
Qed.

(** Operations that go from agreement to agreement, with the records related
    by [Q]. *)
Definition evolve (Q : relation (list RawRecord)) (t t' : Tel) : Prop := store_ok t ->
  store_ok t' /\ (forall k p, Q (stored_of k p t) (stored_of k p t')) /\ forall k, next_of k t' = next_of k t.

#[export] Instance evolve_preorder Q : PreOrder Q -> PreOrder (evolve Q).
Proof.
  intros HQ. split; [intros t H; split_and!; [done|intros; reflexivity|done]|]. intros a b c Hab Hbc Ha.
  destruct (Hab Ha) as (Hb & Q1 & N1). destruct (Hbc Hb) as (Hc & Q2 & N2). split_and!; [done|intros; etrans; eauto|intros; congruence].
Qed.

Lemma evolve_one {A} Q `{!PreOrder Q} k p (m : st Tel A) : keeps (only k p) m ->
  (forall t l, producer_data k p t = None -> tl_data t = [] -> recs k p t l -> (m t).2 = t) ->
  (forall t l, is_Some (producer_data k p t) -> store_ok t -> recs k p t l -> exists l', recs k p (m t).2 l' /\ Q l l' /\ l' ⊆ l
                 /\ next_of k (m t).2 = next_of k t) ->
  keeps (evolve Q) m.
Proof.
  intros Hon Hno Hyes t Hok. destruct (producer_data k p t) as [d|] eqn:Hd.
  - pose proof (ok_wf _ Hok k p ltac:(by rewrite Hd)) as Hp. specialize (Hon t).
    destruct (Hyes t _ ltac:(by rewrite Hd) Hok (ok_recs _ Hok k p)) as (l' & Hr & Hq & Hsub & Hn). split_and!.
    + eapply (moved Hok Hp Hon); [exact Hr|lia|]. intros a Ha. left. by apply Hsub.
    + intros k' q. destruct (decide ((k', q) = (k, p))) as [[= -> ->]|Hne]; [by rewrite (recs_stored _ _ _ _ Hr)|].
      by rewrite (others_stored Hok Hp Hon).
    + intros k'. destruct (decide (k' = k)) as [->|Hk]; [done|]. unfold next_of. by rewrite (on_kind _ _ _ _ Hon).
  - rewrite (Hno t _ Hd (ok_data _ Hok) (ok_recs _ Hok k p)). by split_and!.
Qed.

Lemma evolve_flush_producer k p : keeps (evolve eq) (flush_producer k p).
Proof.
  apply (evolve_one eq k p); [apply only_flush_producer| |].
  - intros t l Hd _ _. unfold flush_producer, bind at 1, asks. by rewrite Hd.
  - intros t l _ Hok Hr. destruct (recs_flush k p t l (ok_data _ Hok) Hr) as (t' & -> & Hr' & Hn & _). exists l. by split_and!.
Qed.

Lemma evolve_close k p : keeps (evolve eq) (close_open k p).
Proof.
  apply (evolve_one eq k p); [apply only_close| |].
  - intros t l Hd _ _. unfold close_open, bind at 1, asks. by rewrite Hd.
  - intros t l _ Hok Hr. destruct (recs_close k p t l (ok_data _ Hok) Hr) as (t' & -> & _ & Hr' & Hn & _). exists l. by split_and!.
Qed.

Create HintDb evolve.
#[export] Hint Resolve evolve_flush_producer evolve_close : evolve.

Ltac evolve_steps :=
  repeat match goal with
  | |- keeps _ (ret _) => apply keeps_ret
  | |- keeps _ (asks _) => apply keeps_asks
  | |- keeps _ _ => solve [eauto 2 with evolve]
  | |- keeps _ (mfor _ _) => apply keeps_mfor; intros ?
  | |- keeps _ (Effects.bind _ _) => apply keeps_bind; [|intros ?]
  | |- keeps _ (match ?x with _ => _ end) => destruct x
  end.

Lemma evolve_flush : keeps (evolve eq) flush.
Proof. unfold flush. evolve_steps. Qed.

Lemma evolve_close_all : keeps (evolve eq) close_all.
Proof. unfold close_all. evolve_steps. Qed.

(** ** Files and segments *)

Definition segments (k : Kind) (p : Producer) (t : Tel) : list Segment :=
  match producer_data k p t with Some d => pd_segments d | None => [] end.

(** The directory lists the producer's segments. *)
Definition lists (files : Dir) (l : list Segment) : Prop := forall z, is_Some (files !! z) <-> z ∈ first_seq <$> l.

(** An operation that opens and drops no segment, and no file. *)
Definition steady (k : Kind) (p : Producer) (t t' : Tel) : Prop :=
  (forall z, is_Some (files_of k p t' !! z) <-> is_Some (files_of k p t !! z)) /\ first_seq <$> segments k p t' = first_seq <$> segments k p t.

#[export] Instance steady_preorder k p : PreOrder (steady k p).
Proof. split; [by intros t|]. intros a b c [A1 A2] [B1 B2]. split; [intros z; by rewrite B1|congruence]. Qed.

Lemma steady_lists k p t t' : steady k p t t' -> lists (files_of k p t) (segments k p t) -> lists (files_of k p t') (segments k p t').
Proof. intros [H1 H2] Hl z. by rewrite H1, H2. Qed.

Section steady.
Context (k : Kind) (p : Producer).

Lemma steady_modify_producer f : (forall d, first_seq <$> pd_segments (f d) = first_seq <$> pd_segments d) -> keeps (steady k p) (modify_producer k p f).
Proof.
  intros Hf t. pose proof (producer_modify k p f t) as L. apply local_inv in L as (P & F & _). split; [by rewrite F|]. unfold segments. rewrite P.
  destruct (producer_data k p t); [apply Hf|done].
Qed.

Lemma steady_modify_open o : keeps (steady k p) (modify_open k p o).
Proof. by apply steady_modify_producer. Qed.

Lemma steady_modify_last f : (forall s, first_seq (f s) = first_seq s) -> keeps (steady k p) (modify_last k p f).
Proof.
  intros Hf. apply steady_modify_producer. intros d. cbn. induction (pd_segments d) as [|s [|s' l] IH]; cbn in *; [done|by rewrite Hf|by rewrite IH].
Qed.

Lemma steady_modify_file first f : keeps (steady k p) (modify_file k p first f).
Proof.
  intros t. pose proof (file_modify k p first f t) as L. apply local_inv in L as (P & F & _). split; [|unfold segments; by rewrite P].
  intros z. rewrite F. destruct (decide (z = first)) as [->|Hz]; [by rewrite lookup_alter_eq, fmap_is_Some|by rewrite lookup_alter_ne].
Qed.

Lemma steady_modify_kind f : (forall kd, kd_producers (f kd) = kd_producers kd) -> keeps (steady k p) (modify_kind k f).
Proof.
  intros Hf t. split; [done|]. unfold segments, producer_data. rewrite kind_data_modify, decide_True by done. by rewrite Hf.
Qed.

Lemma steady_meta : keeps (steady k p) meta_call.
Proof. intros t. unfold meta_call. by destruct (tl_meta t). Qed.

Lemma steady_data : keeps (steady k p) data_call.
Proof. intros t. unfold data_call. by destruct (tl_data t). Qed.

End steady.

Create HintDb steady.
#[export] Hint Resolve steady_modify_open steady_modify_file steady_meta steady_data : steady.

Ltac steady_steps :=
  repeat match goal with
  | |- keeps _ (ret _) => apply keeps_ret
  | |- keeps _ (done _) => apply keeps_ret
  | |- keeps _ failed => apply keeps_ret
  | |- keeps _ (asks _) => apply keeps_asks
  | |- keeps _ (modify_last _ _ _) => apply steady_modify_last; done
  | |- keeps _ (modify_kind _ _) => apply steady_modify_kind; done
  | |- keeps _ _ => solve [eauto 2 with steady]
  | |- keeps _ (try_bind _ _) => apply keeps_try; [|intros ?]
  | |- keeps _ (Effects.bind _ _) => apply keeps_bind; [|intros ?]
  | |- keeps _ (match ?x with _ => _ end) => destruct x
  end.

Lemma steady_flush_open k p first o : keeps (steady k p) (flush_open k p first o).
Proof. unfold flush_open, write. steady_steps. Qed.
Lemma steady_write_idx k p first e : keeps (steady k p) (write_idx k p first e).
Proof. unfold write_idx, write. steady_steps. Qed.

#[export] Hint Resolve steady_flush_open steady_write_idx : steady.

Lemma steady_close k p : keeps (steady k p) (close_open k p).
Proof. unfold close_open. steady_steps. Qed.

Lemma steady_flush k p : keeps (steady k p) (flush_producer k p).
Proof. unfold flush_producer. steady_steps. Qed.

Lemma steady_append k p r : keeps (steady k p) (append_record k p r).
Proof. unfold append_record, index_block, write_frame, write. steady_steps. Qed.

(** ** Eviction *)

Lemma bget_remove_ne {V} (k k' : string) (m : bmap V) : k <> k' -> bget k (bremove k' m) = bget k m.
Proof.
  intros Hne. induction m as [|[k1 v1] m IH]; cbn; [done|]. destruct (String.eqb_spec k' k1) as [->|]; cbn.
  - by destruct (String.eqb_spec k k1).
  - by rewrite IH.
Qed.

Lemma only_remove_dir k p : keeps (only k p) (remove_dir k p).
Proof.
  unfold remove_dir. only_steps.
  apply only_modify_dirs; [intros m Hm; destruct (bool_decide _); [by apply bremove_sorted|done]|]. intros m n Hn. destruct (bool_decide _); [|done]. by apply bget_remove_ne.
Qed.

Lemma only_remove_producer k p : keeps (only k p) (modify_kind k (fun kd => with_producers (bremove (order_key p) (kd_producers kd)) kd)).
Proof.
  apply only_modify_kind; intros kd; cbn [with_producers kd_producers].
  - intros q Hq. unfold pget. rewrite bget_remove_ne; [done|]. intros He%order_key_inj. congruence.
  - apply bremove_sorted.
  - apply bremove_Forall.
Qed.

(** The book-keeping of an eviction. *)
Lemma only_evicted k p s : keeps (only k p) (modify_kind k (fun kd =>
  let c := kd_counters kd in
  {| kd_next_seq := kd_next_seq kd; kd_producers := kd_producers kd;
     kd_counters := {| dropped_total := dropped_total c; evicted_total := evicted_total c + records s;
                       evicted_bytes_total := evicted_bytes_total c + segment_size s;
                       redacted_total := redacted_total c; appended_total := appended_total c |};
     kd_evicted := if 0 <? records s then remember_span (min_ts s, max_ts s) (kd_evicted kd) else kd_evicted kd |})).
Proof. by apply only_modify_kind. Qed.

#[export] Hint Resolve only_remove_dir only_remove_producer only_evicted : only.

Lemma only_delete k p : keeps (only k p) (delete_oldest k p).
Proof. unfold delete_oldest. only_steps. Qed.

(** The segments behind the first. *)
Lemma chain_tail files files' o s rest rs rl : chain files o (s :: rest) (rs :: rl) -> rest <> [] ->
  (forall z, z <> first_seq s -> files' !! z = files !! z) -> chain files' o rest rl.
Proof.
  intros (init & rinit & a & ra & Hl & Hrl & Hinit & Hc & Ha & Ho) Hne Hfiles.
  destruct init as [|s0 init]; [by injection Hl as -> ->|]. injection Hl as <- ->.
  apply Forall2_cons_inv_l in Hinit as (rs0 & rinit0 & [_ Hs] & Hinit' & ->). injection Hrl as <- ->.
  apply StronglySorted_inv in Ho as [Ho Hlt]. eapply (chain_files files).
  - eapply Forall_impl; [exact Hlt|]. cbn. intros b Hb. apply Hfiles. destruct Hs as [Hs _]. pose proof (sk_range _ _ Hs). lia.
  - exists init, rinit0, a, ra. by split_and!.
Qed.

Lemma remove_file_local k p first b t : let t' := (remove_file k p first b t).2 in
  producer_data k p t' = producer_data k p t /\ next_of k t' = next_of k t
  /\ (forall z, z <> first -> files_of k p t' !! z = files_of k p t !! z).
Proof.
  intros t'. unfold t', remove_file, bind.
  assert (exists ok t1, meta_call t = (ok, t1) /\ same t t1) as (ok & t1 & -> & Hs).
  { unfold meta_call, same. destruct (tl_meta t); eauto 10. }
  apply (same_local k p) in Hs. apply local_inv in Hs as (P & F & N). unfold next_of in *. rewrite <- P, <- F, <- N.
  destruct ok; [|done]. split; [done|]. split; [done|]. intros z Hz.
  rewrite files_of_modify, decide_True by done. unfold files_of, dir_of. destruct (tl_root t1) as [r|]; [|done].
  destruct (bget (dir_name p) (ro_kinds r k)) as [d|] eqn:Hd; [|by rewrite Hd]. destruct (d !! first) as [f|]; [|by rewrite Hd].
  rewrite bget_insert, String.eqb_refl. cbn [default]. unfold id. destruct (is_some _ || is_some _); [by rewrite lookup_insert_ne|by rewrite lookup_delete_ne].
Qed.

(** No call on a directory entry and no write fails. *)
Definition quiet (t : Tel) : Prop := tl_meta t = [] /\ tl_data t = [].

Lemma quiet_sys t : quiet t -> sys t = (Ok tt, t).
Proof. intros [Hm _]. unfold sys, bind, meta_call. by rewrite Hm. Qed.

Lemma quiet_write t : quiet t -> write t = (Ok tt, t).
Proof. intros [_ Hd]. by apply write_ok. Qed.

Section quiet_removal.
Context (k : Kind) (p : Producer).

Lemma quiet_remove first b t : quiet t -> quiet (remove_file k p first b t).2.
Proof. intros [Hm Hd]. unfold quiet, remove_file, bind, meta_call. by rewrite Hm. Qed.

Lemma remove_file_quiet first b t : quiet t ->
  files_of k p (remove_file k p first b t).2 =
    match files_of k p t !! first with
    | Some f => let f := if b then with_seg None f else with_idx None f in
                if is_some (sg_seg f) || is_some (sg_idx f) then <[first := f]> (files_of k p t) else delete first (files_of k p t)
    | None => files_of k p t
    end.
Proof.
  intros [Hm _]. unfold remove_file, bind, meta_call. rewrite Hm. rewrite files_of_modify, decide_True by done. unfold files_of, dir_of.
  destruct (tl_root t) as [r|]; [|done]. destruct (bget (dir_name p) (ro_kinds r k)) as [d|] eqn:Hd; cbn [default]; [|by rewrite Hd].
  unfold id. destruct (d !! first) as [f|]; [|by rewrite Hd]. by rewrite bget_insert, String.eqb_refl.
Qed.

Lemma remove_both first t : quiet t ->
  files_of k p (remove_file k p first false (remove_file k p first true t).2).2 = delete first (files_of k p t).
Proof.
  intros Hq. rewrite remove_file_quiet by (by apply quiet_remove). rewrite remove_file_quiet by done.
  destruct (files_of k p t !! first) as [[sg ix]|] eqn:Hf.
  - cbn. destruct ix as [i|]; cbn.
    + rewrite lookup_insert_eq. cbn. by rewrite delete_insert_eq.
    + by rewrite lookup_delete_eq.
  - rewrite Hf. by rewrite delete_id.
Qed.

(** An empty directory is removed with no file. *)
Lemma remove_dir_files t : sorted_dirs t -> files_of k p (remove_dir k p t).2 = files_of k p t.
Proof.
  intros Hsd. unfold remove_dir, bind.
  assert (exists ok t1, meta_call t = (ok, t1) /\ tl_root t1 = tl_root t) as (ok & t1 & -> & Hr1).
  { unfold meta_call. destruct (tl_meta t); eauto. }
  destruct ok; [|cbn; unfold files_of; by rewrite Hr1]. rewrite files_of_modify, decide_True by done. unfold files_of, dir_of. rewrite Hr1.
  destruct (tl_root t) as [r|] eqn:Hr; [|done]. case_bool_decide as He; [|done]. rewrite bget_remove by (by apply Hsd).
  by rewrite String.eqb_refl, He.
Qed.

End quiet_removal.

(** The first segment, its files and, with the last one, the producer go. *)
Lemma drop_first k p t d s rest rs rl l : store_ok t -> producer_data k p t = Some d -> pd_segments d = s :: rest ->
  chain (files_of k p t) (pd_open d) (s :: rest) (rs :: rl) -> Forall (fun a => last_seq a < next_of k t) (s :: rest) ->
  l = concat (zip_with (raws p) rest rl) ->
  forall t', snd ((do! modify_producer k p (fun _ => {| pd_segments := rest; pd_open := pd_open d |}) in
         do! remove_file k p (first_seq s) true in
         do! remove_file k p (first_seq s) false in
         do! modify_kind k (fun kd =>
            let c := kd_counters kd in
            {| kd_next_seq := kd_next_seq kd; kd_producers := kd_producers kd;
               kd_counters := {| dropped_total := dropped_total c; evicted_total := evicted_total c + records s;
                                 evicted_bytes_total := evicted_bytes_total c + segment_size s;
                                 redacted_total := redacted_total c; appended_total := appended_total c |};
               kd_evicted := if 0 <? records s then remember_span (min_ts s, max_ts s) (kd_evicted kd)
                             else kd_evicted kd |}) in
         (if bool_decide (rest = []) then
            do! modify_kind k (fun kd => with_producers (bremove (order_key p) (kd_producers kd)) kd) in
            remove_dir k p
          else ret tt)) t) = t' ->
  recs k p t' l /\ next_of k t' = next_of k t
  /\ producer_data k p t' = (if bool_decide (rest = []) then None else Some {| pd_segments := rest; pd_open := pd_open d |})
  /\ (quiet t -> sorted_dirs t -> files_of k p t' = delete (first_seq s) (files_of k p t)).
Proof.
  intros Hok Hd Hsegs Hch Hlt ->. unfold bind at 1.
  destruct (modify_producer k p _ t) as [[] t1] eqn:Ht1.
  pose proof (producer_modify k p (fun _ => {| pd_segments := rest; pd_open := pd_open d |}) t) as L1. rewrite Ht1, Hd in L1.
  apply local_inv in L1 as (P1 & F1 & N1). pose proof (keeps_eq _ _ _ _ (only_modify_producer k p _) Ht1) as O1.
  unfold bind at 1. destruct (remove_file k p (first_seq s) true t1) as [[] t2] eqn:Ht2.
  destruct (remove_file_local k p (first_seq s) true t1) as (P2 & N2 & F2). rewrite Ht2 in P2, N2, F2. cbn [snd] in *.
  pose proof (keeps_eq _ _ _ _ (only_remove_file k p _ _) Ht2) as O2.
  unfold bind at 1. destruct (remove_file k p (first_seq s) false t2) as [[] t3] eqn:Ht3.
  destruct (remove_file_local k p (first_seq s) false t2) as (P3 & N3 & F3). rewrite Ht3 in P3, N3, F3. cbn [snd] in *.
  pose proof (keeps_eq _ _ _ _ (only_remove_file k p _ _) Ht3) as O3.
  unfold bind at 1. destruct (modify_kind k _ t3) as [[] t4] eqn:Ht4.
  pose proof (keeps_eq _ _ _ _ (only_evicted k p s) Ht4) as O4.
  assert (producer_data k p t4 = producer_data k p t3 /\ files_of k p t4 = files_of k p t3 /\ next_of k t4 = next_of k t3) as (P4 & F4 & N4).
  { match type of Ht4 with modify_kind k ?f t3 = _ => pose proof (kind_data_modify k f t3 k) as Hk end.
    rewrite Ht4, decide_True in Hk by done. unfold producer_data, next_of. cbn [snd] in Hk. rewrite Hk. split_and!; try done. by injection Ht4 as <-. }
  unfold next_of in *. rewrite P3, P2, P1 in P4. cbn [fmap option_fmap option_map] in P4.
  assert (quiet t -> files_of k p t4 = delete (first_seq s) (files_of k p t)) as Hgone.
  { intros Hq. rewrite F4, <- F1. assert (quiet t1) as Hq1 by (by injection Ht1 as <-). pose proof (remove_both k p (first_seq s) t1 Hq1) as Hrm.
    rewrite Ht2 in Hrm. cbn [snd] in Hrm. by rewrite Ht3 in Hrm. }
  assert (sorted_dirs t -> sorted_dirs t4) as Hsd4.
  { intros Hsd. repeat match goal with O : only k p ?a ?b |- sorted_dirs ?b => apply (on_sorted_dirs _ _ _ _ O) end. done. }
  case_bool_decide as Hr; intros t' Ht'.
  - unfold bind in Ht'. match type of Ht' with context [modify_kind k ?f t4] => pose proof (kind_data_modify k f t4 k) as Hk end.
    destruct (modify_kind k _ t4) as [[] t5] eqn:Ht5. rewrite decide_True in Hk by done. cbn [snd with_producers] in Hk.
    assert (kind_data k t' = kind_data k t5) as He.
    { subst t'. unfold remove_dir, bind, meta_call. destruct (tl_meta t5) as [|[] ?]; done. }
    assert (producer_data k p t' = None) as Hn.
    { unfold producer_data. rewrite He, Hk. cbn [with_producers kd_producers]. unfold pget. rewrite bget_remove, String.eqb_refl; [done|].
      repeat match goal with O : only k p ?a ?b |- bsorted (kd_producers (kind_data k ?b)) => apply (on_sorted _ _ _ _ O) end. apply ok_sorted, Hok. }
    assert (quiet t -> sorted_dirs t -> files_of k p t' = delete (first_seq s) (files_of k p t)) as Hfin.
    { intros Hq Hsd. rewrite <- Hgone by done. subst t'. apply Hsd4 in Hsd.
      assert (tl_root t5 = tl_root t4 /\ tl_meta t5 = tl_meta t4) as [R5 M5] by (by injection Ht5 as <-).
      rewrite remove_dir_files; [unfold files_of; by rewrite R5|]. unfold sorted_dirs. by rewrite R5. }
    unfold recs. rewrite Hn, Hr. split_and!; [by destruct rl| |done|done]. rewrite He, Hk. cbn [with_producers kd_next_seq]. congruence.
  - cbn [ret snd] in Ht'. subst t'. split_and!; [|congruence|done|by intros Hq _; apply Hgone]. unfold recs. rewrite P4. exists rl. split_and!; [|..|done].
    + eapply chain_tail; [exact Hch|done|]. intros z Hz. by rewrite F4, F3, F2, F1.
    + apply Forall_cons in Hlt as [_ Hlt]. eapply Forall_impl; [exact Hlt|]. unfold next_of. cbn. intros. congruence || lia.
Qed.

Lemma delete_ok k p t d : store_ok t -> producer_data k p t = Some d ->
  exists s rest gone l' t', pd_segments d = s :: rest /\ delete_oldest k p t = (Ok true, t') /\ stored_of k p t = gone ++ l'
    /\ recs k p t' l' /\ next_of k t' = next_of k t
    /\ (closed s = true -> Forall (fun a => r_ts (rr_rec a) <= max_ts s) gone
          /\ match producer_data k p t' with Some d' => pd_segments d' | None => [] end = rest)
    /\ 0 <= segment_size s
    /\ match producer_data k p t' with Some d' => length (pd_segments d') = length rest | None => rest = [] end
    /\ (quiet t -> sorted_dirs t -> lists (files_of k p t) (segments k p t) -> lists (files_of k p t') (segments k p t')).
Proof.
  intros Hok Hd. pose proof (ok_recs _ Hok k p) as Hr. pose proof Hr as Hr0. unfold recs in Hr0. rewrite Hd in Hr0.
  destruct Hr0 as (rl0 & Hch0 & _ & _).
  assert (exists s rest, pd_segments d = s :: rest) as (s & rest & Hs).
  { destruct Hch0 as ([|a init] & ? & b & ? & -> & _); eauto. }
  assert (exists t1 d1 s1 rest1, ((if negb (closed s) then close_open k p else done tt) : st Tel (outcome unit unit)) t = (Ok tt, t1)
    /\ store_ok t1 /\ recs k p t1 (stored_of k p t) /\ next_of k t1 = next_of k t /\ producer_data k p t1 = Some d1 /\ pd_segments d1 = s1 :: rest1
    /\ (closed s = true -> s1 = s /\ rest1 = rest) /\ length rest1 = length rest) as (t1 & d1 & s1 & rest1 & Ht1 & Hok1 & Hr1 & N1 & Hd1 & Hs1 & Hc1 & Hlen).
  { destruct (closed s) eqn:Hc; cbn [negb].
    - exists t, d, s, rest. by split_and!.
    - destruct (close_open_ok k p t d rl0 (ok_data _ Hok) Hd Hch0) as (t1 & d1 & files1 & Ht1 & _ & L1 & _ & _ & Hls & _).
      destruct (recs_close k p t _ (ok_data _ Hok) Hr) as (t1' & Ht1' & _ & Hr1 & N1 & _). rewrite Ht1 in Ht1'. injection Ht1' as <-.
      pose proof (evolve_close k p t Hok) as (Hok1 & _). rewrite Ht1 in Hok1. apply local_inv in L1 as (P1 & _).
      rewrite Hs in Hls. destruct (pd_segments d1) as [|s1 rest1] eqn:Hs1; [done|]. injection Hls as _ Hls. apply (f_equal length) in Hls.
      rewrite !length_fmap in Hls. exists t1, d1, s1, rest1. by split_and!. }
  unfold delete_oldest, bind at 1, asks. rewrite Hd, Hs. unfold try_bind, bind at 1. rewrite Ht1. unfold bind at 1. rewrite Hd1.
  destruct d1 as [segs1 o1]. cbn [pd_segments] in Hs1. subst segs1.
  pose proof Hr1 as Hr1'. unfold recs in Hr1. rewrite Hd1 in Hr1. destruct Hr1 as (rl & Hch & Hlt & Hl). cbn [pd_segments pd_open] in *.
  destruct rl as [|rs rl]; [by destruct Hch as (? & [|? ?] & ? & ? & ? & ? & _)|]. cbn [zip_with concat] in Hl.
  pose proof (drop_first k p t1 _ s1 rest1 rs rl _ Hok1 Hd1 eq_refl Hch Hlt eq_refl _ eq_refl) as (Hr' & N' & P' & F').
  set (t' := snd _) in Hr', N', P', F'. exists s, rest, (raws p s1 rs), (concat (zip_with (raws p) rest1 rl)), t'.
  split_and!; [done| |done..|congruence| | | |].
  - unfold t'. cbn [pd_open]. unfold bind.
    repeat match goal with |- context [let '(a, s) := ?m in _] => let x := fresh "x" in let y := fresh "y" in destruct m as [x y] end; try done.
  - intros Hc. destruct (Hc1 Hc) as [-> ->]. split; [|rewrite P'; by case_bool_decide]. apply chain_each in Hch.
    apply Forall2_cons in Hch as [[b [Hseg _]] _]. unfold raws. apply Forall_fmap. eapply Forall_impl; [exact (sk_times _ _ Hseg)|]. cbn. lia.
  - apply chain_each in Hch0. rewrite Hs in Hch0. apply Forall2_cons_inv_l in Hch0 as (? & ? & [b [Hseg _]] & _ & _).
    pose proof (sk_bytes _ _ Hseg). pose proof (sk_idx _ _ Hseg). pose proof (len_nonneg (frames_text x)). unfold segment_size. lia.
  - rewrite P'. case_bool_decide as He; [|by cbn]. subst rest1. by destruct rest.
  - intros Hq Hsd Hls. assert (steady k p t t1 /\ only k p t t1) as [Hst Hon1].
    { destruct (negb (closed s)); [|injection Ht1 as <-; by split]. pose proof (steady_close k p t). pose proof (only_close k p t). by rewrite Ht1 in *. }
    apply (steady_lists _ _ _ _ Hst) in Hls. unfold segments in Hls. rewrite Hd1 in Hls. cbn [pd_segments] in Hls.
    assert (quiet t1) as Hq1 by (destruct Hq; split; [by apply (on_meta _ _ _ _ Hon1)|by apply (on_data _ _ _ _ Hon1)]).
    rewrite (F' Hq1 (on_sorted_dirs _ _ _ _ Hon1 Hsd)).
    assert (segments k p t' = rest1) as -> by (unfold segments; rewrite P'; by case_bool_decide).
    destruct Hch as (? & ? & ? & ? & _ & _ & _ & _ & _ & Ho). apply StronglySorted_inv in Ho as [_ Ho]. rewrite Forall_forall in Ho.
    assert (first_seq s1 ∉ first_seq <$> rest1) as Hni.
    { intros (a & He & Ha)%list_elem_of_fmap. specialize (Ho a Ha). pose proof (ok_recs _ Hok1 k p) as Hrr. unfold recs in Hrr. rewrite Hd1 in Hrr.
      destruct Hrr as (? & Hc & _). apply chain_ranges in Hc. apply Forall_cons in Hc as [Hc _]. lia. }
    intros z. specialize (Hls z). cbn [fmap list_fmap] in Hls. rewrite elem_of_cons in Hls. destruct (decide (z = first_seq s1)) as [->|Hz].
    + rewrite lookup_delete_eq. split; [by intros []|done].
    + rewrite lookup_delete_ne by done. rewrite Hls. split; [by intros [|]|by right].
Qed.

(** *** Sums over the producers *)

Definition entries_ok (m : Producers) : Prop := bsorted m /\ Forall (fun e => e.1 = order_key e.2.1) m.

Definition total (f : ProducerData -> Z) (m : Producers) : Z := sum ((fun e => f e.2.2) <$> m).

Lemma total_remove f s m : bsorted m ->
  total f m = match bget s m with Some e => f e.2 | None => 0 end + total f (bremove s m).
Proof.
  induction m as [|[s' e] m IH]; [done|]. intros [Hm _]%bsorted_cons. cbn [bget bremove].
  destruct (String.eqb_spec s s') as [->|]; [done|]. change (f e.2 + total f m = match bget s m with Some e => f e.2 | None => 0 end
    + (f e.2 + total f (bremove s m))). rewrite (IH Hm). lia.
Qed.

Lemma bget_order_key s (m : Producers) e : Forall (fun e => e.1 = order_key e.2.1) m -> bget s m = Some e -> s = order_key e.1.
Proof. intros Hk Hg%bget_In. rewrite Forall_forall in Hk. by apply (Hk (s, e)). Qed.

(** Only [p] changed. *)
Lemma total_change f p (m m' : Producers) : entries_ok m -> entries_ok m' -> (forall q, q <> p -> pget q m' = pget q m) ->
  total f m' - match pget p m' with Some d => f d | None => 0 end = total f m - match pget p m with Some d => f d | None => 0 end.
Proof.
  intros [Hs Hk] [Hs' Hk'] Hq. rewrite (total_remove f (order_key p) m), (total_remove f (order_key p) m') by done.
  assert (bremove (order_key p) m' = bremove (order_key p) m) as ->.
  { apply bmap_eq; [by apply bremove_sorted..|]. intros s. rewrite !bget_remove by done. destruct (String.eqb_spec s (order_key p)) as [->|Hne]; [done|].
    assert (forall q, s = order_key q -> snd <$> bget s m' = snd <$> bget s m) as Hsnd by (intros q ->; apply (Hq q); congruence).
    destruct (bget s m') as [[q' d']|] eqn:E', (bget s m) as [[q d]|] eqn:E; [| | |done].
    - pose proof (bget_order_key _ _ _ Hk' E'). pose proof (bget_order_key _ _ _ Hk E). cbn in *.
      assert (q' = q) as -> by (apply order_key_inj; congruence). specialize (Hsnd q ltac:(congruence)). cbn in Hsnd. congruence.
    - pose proof (bget_order_key _ _ _ Hk' E'). by specialize (Hsnd q' ltac:(done)).
    - pose proof (bget_order_key _ _ _ Hk E). by specialize (Hsnd q ltac:(done)). }
  unfold pget. destruct (bget (order_key p) m'), (bget (order_key p) m); cbn; lia.
Qed.

Lemma kind_size_total k t : kind_size k t = total producer_size (kd_producers (kind_data k t)).
Proof. done. Qed.

Definition seg_count (d : ProducerData) : Z := lenl (pd_segments d).

Lemma segment_count_total k t : Z.of_nat (segment_count k t) = total seg_count (kd_producers (kind_data k t)).
Proof.
  unfold segment_count, total, seg_count. induction (kd_producers _) as [|e m IH]; [done|]. cbn. rewrite Nat2Z.inj_add, IH. done.
Qed.

Lemma ok_entries t k : store_ok t -> entries_ok (kd_producers (kind_data k t)).
Proof. intros H. split; [apply ok_sorted, H|apply ok_keys, H]. Qed.

(** A delete takes one segment. *)
Lemma delete_count k p t t' x : store_ok t -> is_Some (producer_data k p t) -> delete_oldest k p t = (x, t') ->
  store_ok t' /\ x = Ok true /\ S (segment_count k t') = segment_count k t.
Proof.
  intros Hok [d Hd] Hx. pose proof (keeps_eq _ _ _ _ (only_delete k p) Hx) as Hon.
  pose proof (ok_wf _ Hok k p ltac:(by rewrite Hd)) as Hp.
  destruct (delete_ok k p t d Hok Hd) as (s & rest & gone & l' & t'' & Hs & Ht & Hl & Hr & N & _ & _ & Hlen & _). rewrite Ht in Hx. injection Hx as <- <-.
  assert (store_ok t'') as Hok'.
  { eapply (moved Hok Hp Hon); [exact Hr|lia|]. intros a Ha. left. rewrite Hl. set_solver. }
  split_and!; [done..|]. apply Nat2Z.inj. rewrite Nat2Z.inj_succ, !segment_count_total.
  pose proof (total_change seg_count p _ _ (ok_entries _ k Hok) (ok_entries _ k Hok') (on_producer _ _ _ _ Hon)) as He.
  fold (producer_data k p t) in He. fold (producer_data k p t'') in He. rewrite Hd in He. unfold seg_count, lenl in *. rewrite Hs in He.
  destruct (producer_data k p t'') as [d'|]; [rewrite Hlen in He|subst rest]; cbn [length] in He; lia.
Qed.

(** *** What eviction takes *)

Definition dropped (P : RawRecord -> Prop) (l l' : list RawRecord) : Prop := exists gone, l = gone ++ l' /\ Forall P gone.

#[export] Instance dropped_preorder P : PreOrder (dropped P).
Proof.
  split; [intros l; by exists []|]. intros a b c (g1 & -> & H1) (g2 & -> & H2). exists (g1 ++ g2).
  rewrite <- app_assoc. split; [done|]. by apply Forall_app.
Qed.

Lemma dropped_impl (P Q : RawRecord -> Prop) l l' : (forall a, P a -> Q a) -> dropped P l l' -> dropped Q l l'.
Proof. intros H (g & -> & Hg). exists g. split; [done|]. by eapply Forall_impl. Qed.

Lemma evolve_impl (Q1 Q2 : relation (list RawRecord)) t t' : (forall l l', Q1 l l' -> Q2 l l') -> evolve Q1 t t' -> evolve Q2 t t'.
Proof. intros H He Hok. destruct (He Hok) as (H1 & H2 & H3). split_and!; [done|intros; by apply H|done]. Qed.

(** Records older than a cutoff. *)
Definition older (cutoff : Z) (a : RawRecord) : Prop := r_ts (rr_rec a) < cutoff.

Lemma delete_evolves k p t : store_ok t -> is_Some (producer_data k p t) ->
  let t' := (delete_oldest k p t).2 in store_ok t' /\ (forall k' q, dropped (fun _ => True) (stored_of k' q t) (stored_of k' q t'))
  /\ (forall k', next_of k' t' = next_of k' t)
  /\ forall cutoff, oldest_expired k p cutoff t = true ->
       (forall k' q, dropped (older cutoff) (stored_of k' q t) (stored_of k' q t')) /\ kind_size k t' <= kind_size k t.
Proof.
  intros Hok [d Hd] t'. pose proof (only_delete k p t) as Hon. fold t' in Hon. pose proof (ok_wf _ Hok k p ltac:(by rewrite Hd)) as Hp.
  destruct (delete_ok k p t d Hok Hd) as (s & rest & gone & l' & t1 & Hs & Ht & Hl & Hr & N & Hold & Hsize & _).
  assert (t1 = t') as -> by (unfold t'; by rewrite Ht). pose proof (recs_stored _ _ _ _ Hr) as Hst.
  assert (store_ok t') as Hok'.
  { eapply (moved Hok Hp Hon); [exact Hr|lia|]. intros a Ha. left. rewrite Hl. set_solver. }
  assert (forall P : RawRecord -> Prop, Forall P gone -> forall k' q, dropped P (stored_of k' q t) (stored_of k' q t')) as Hdrop.
  { intros P HP k' q. destruct (decide ((k', q) = (k, p))) as [[= -> ->]|Hne]; [rewrite Hst, Hl; by exists gone|].
    by rewrite (others_stored Hok Hp Hon). }
  split_and!; [done|apply Hdrop; by apply Forall_true| |].
  - intros k'. destruct (decide (k' = k)) as [->|Hk]; [done|]. unfold next_of. by rewrite (on_kind _ _ _ _ Hon).
  - intros cutoff He. unfold oldest_expired in He. rewrite Hd, Hs in He. bsplit. split.
    + apply Hdrop. eapply Forall_impl; [by apply (Hold H)|]. unfold older. cbn. lia.
    + rewrite !kind_size_total. destruct (Hold H) as [_ Hrest].
      pose proof (total_change producer_size p _ _ (ok_entries _ k Hok) (ok_entries _ k Hok') (on_producer _ _ _ _ Hon)) as Ht'.
      fold (producer_data k p t) in Ht'. fold (producer_data k p t') in Ht'. rewrite Hd in Ht'. assert (producer_size d = segment_size s + sum (segment_size <$> rest)) as Hd' by (unfold producer_size; by rewrite Hs).
      assert (match producer_data k p t' with Some d => producer_size d | None => 0 end = sum (segment_size <$> rest)) as He'.
      { rewrite <- Hrest. by destruct (producer_data k p t'). }
      lia.
Qed.

(** *** By age *)

Definition elsewhere (k : Kind) (t t' : Tel) : Prop :=
  s_retention (tl_store t') = s_retention (tl_store t) /\ s_segment_max_age (tl_store t') = s_segment_max_age (tl_store t)
  /\ forall k', k' <> k -> kind_data k' t' = kind_data k' t /\ forall q, files_of k' q t' = files_of k' q t.

#[export] Instance elsewhere_preorder k : PreOrder (elsewhere k).
Proof.
  split; [by intros t|]. intros a b c (R1 & A1 & H1) (R2 & A2 & H2). split_and!; [congruence..|]. intros k' Hk.
  destruct (H1 k' Hk) as [E1 F1], (H2 k' Hk) as [E2 F2]. split; [congruence|]. intros q. by rewrite F2.
Qed.

Lemma only_elsewhere {A} k p (m : st Tel A) : keeps (only k p) m -> keeps (elsewhere k) m.
Proof.
  intros Hm t. specialize (Hm t). destruct (on_config _ _ _ _ Hm) as (R & _ & M). split_and!; [done..|]. intros k' Hk.
  split; [by apply (on_kind _ _ _ _ Hm)|]. intros q. by apply (on_dirs _ _ _ _ Hm).
Qed.

Lemma expired_there k p cutoff t : oldest_expired k p cutoff t = true -> is_Some (producer_data k p t).
Proof. unfold oldest_expired. by destruct (producer_data k p t). Qed.

(** The records of a kind only lose old ones, and the kind does not grow. *)
Definition ages (k : Kind) (cutoff : Z) (t t' : Tel) : Prop :=
  evolve (dropped (older cutoff)) t t' /\ (store_ok t -> kind_size k t' <= kind_size k t) /\ elsewhere k t t'.

#[export] Instance ages_preorder k cutoff : PreOrder (ages k cutoff).
Proof.
  split; [intros t; split_and!; [reflexivity|done|reflexivity]|]. intros a b c (E1 & S1 & L1) (E2 & S2 & L2).
  split_and!; [by etrans| |by etrans]. intros Hok. specialize (S1 Hok). destruct (E1 Hok) as (Hb & _). specialize (S2 Hb). lia.
Qed.

Lemma ages_evict fuel k p cutoff : keeps (ages k cutoff) (evict_age fuel k p cutoff).
Proof.
  induction fuel as [|fuel IH]; cbn [evict_age]; [apply keeps_ret|]. intros t. unfold bind at 1, asks.
  destruct (oldest_expired k p cutoff t) eqn:He; [|apply (keeps_ret (R := ages k cutoff) tt)].
  assert (ages k cutoff t (delete_oldest k p t).2) as Hd.
  { split_and!; [| |apply only_elsewhere with (p := p), only_delete].
    - intros Hok. destruct (delete_evolves k p t Hok (expired_there _ _ _ _ He)) as (H1 & _ & H3 & H4).
      by destruct (H4 cutoff He) as [H5 _].
    - intros Hok. destruct (delete_evolves k p t Hok (expired_there _ _ _ _ He)) as (_ & _ & _ & H4). by apply (H4 cutoff). }
  unfold bind. destruct (delete_oldest k p t) as [r t1]. cbn [snd] in Hd. etrans; [exact Hd|].
  destruct r as [[]| |]; [apply IH|apply (keeps_ret (R := ages k cutoff) tt)..].
Qed.

(** *** Closing the stale segments *)

Lemma sum_app a b : sum (a ++ b) = sum a + sum b.
Proof. induction a as [|x a IH]; cbn; [done|]. fold (sum (a ++ b)) (sum a). lia. Qed.

Lemma close_size k p t : store_ok t -> kind_size k (close_open k p t).2 <= kind_size k t + IDX_ENTRY.
Proof.
  intros Hok. pose proof (evolve_close k p t Hok) as (Hok' & _). pose proof (only_close k p t) as Hon.
  destruct (producer_data k p t) as [d|] eqn:Hd.
  2:{ unfold close_open, bind at 1, asks. rewrite Hd. cbn. unfold IDX_ENTRY. lia. }
  pose proof (ok_recs _ Hok k p) as Hr. unfold recs in Hr. rewrite Hd in Hr. destruct Hr as (rl & Hch & _).
  destruct (close_open_ok k p t d rl (ok_data _ Hok) Hd Hch) as (t' & d' & f' & Ht' & _ & L & _ & _ & _ & _ & Hs).
  rewrite Ht' in *. cbn [snd] in *. apply local_inv in L as (P & _). rewrite !kind_size_total.
  pose proof (total_change producer_size p _ _ (ok_entries _ k Hok) (ok_entries _ k Hok') (on_producer _ _ _ _ Hon)) as Ht.
  fold (producer_data k p t) in Ht. fold (producer_data k p t') in Ht. rewrite Hd, P in Ht.
  assert (producer_size d' <= producer_size d + IDX_ENTRY); [|lia]. unfold producer_size. rewrite Hs.
  destruct Hch as (init & ? & s & ? & -> & _). destruct (is_some _); [|unfold IDX_ENTRY; lia].
  rewrite update_last_app, !fmap_app, !sum_app. cbn. unfold segment_size, close_segment. cbn. lia.
Qed.

Lemma close_each k l : forall t, store_ok t ->
  let t' := (mfor (fun p => let! _ := close_open k p in ret tt) l t).2 in
  evolve eq t t' /\ kind_size k t' <= kind_size k t + IDX_ENTRY * lenl l /\ elsewhere k t t'.
Proof.
  induction l as [|p l IH]; intros t Hok; cbn zeta.
  - split_and!; [reflexivity|cbn [mfor ret snd]; unfold lenl; cbn [length]; lia|reflexivity].
  - pose proof (evolve_close k p t) as E1. pose proof (close_size k p t Hok) as S1.
    pose proof (only_elsewhere k p _ (only_close k p) t) as L1.
    set (f := fun p => let! _ := close_open k p in ret tt) in *.
    assert (mfor f (p :: l) t = mfor f l (close_open k p t).2) as -> by (cbn [mfor]; unfold f at 1, bind; by destruct (close_open k p t)).
    destruct (E1 Hok) as (Hok1 & _). destruct (IH _ Hok1) as (E2 & S2 & L2). split_and!; [by etrans|rewrite lenl_cons; lia|by etrans].
Qed.

(** *** By size *)

Lemma max_by_key_in {A} (key : A -> Z) l x : max_by_key key l = Some x -> x ∈ l.
Proof.
  revert x. induction l as [|y l IH]; cbn; [done|]. intros x. destruct (max_by_key key l) as [z|].
  - destruct (key y <=? key z); intros [= <-]; [apply list_elem_of_further, IH; done|apply list_elem_of_here].
  - intros [= <-]. apply list_elem_of_here.
Qed.

Lemma victim_there max m p : entries_ok m -> 0 <= max -> victim max m = Some p -> is_Some (pget p m).
Proof.
  intros [Hs Hk] Hmax. unfold victim. destruct (Z.ltb_spec (max / 4) (match pget System m with Some d => producer_size d | None => 0 end)) as [Hsys|_].
  { intros [= <-]. destruct (pget System m); [done|]. pose proof (Z.div_pos max 4). lia. }
  case_bool_decide; [done|]. intros He. apply fmap_Some in He as ([q z] & Hin%max_by_key_in & ->).
  assert ((q, z) ∈ (fun e : string * (Producer * ProducerData) => (e.2.1, producer_size e.2.2)) <$> m) as Hm.
  { apply list_elem_of_In, filter_In in Hin as [Hin _].
    assert (In (q, z) (List.filter (fun e => 0 <? e.2) ((fun e : string * (Producer * ProducerData) => (e.2.1, producer_size e.2.2)) <$>
      List.filter (fun e => negb (bool_decide (e.2.1 = System))) m))) as Hin2.
    { destruct (_ <? _) in Hin; [by apply filter_In in Hin as [Hin _]|done]. }
    apply filter_In in Hin2 as [Hin2%list_elem_of_In _]. apply list_elem_of_fmap in Hin2 as (e & -> & He%list_elem_of_In).
    apply filter_In in He as [He%list_elem_of_In _]. apply list_elem_of_fmap. eauto. }
  apply list_elem_of_fmap in Hm as ([s [q' d]] & [= -> ->] & Hin'). cbn. unfold pget.
  rewrite Forall_forall in Hk. pose proof (Hk _ Hin') as Hkey. cbn in Hkey. subst s. by rewrite (In_bget _ _ _ Hs Hin').
Qed.

(** The size rule ends below nine tenths, or with nobody above their share. *)
Definition settled (k : Kind) (max : Z) (t : Tel) : Prop :=
  kind_size k t <= max \/ victim max (kd_producers (kind_data k t)) = None.

Lemma evict_round_step fuel k max t : evict_round (S fuel) k max t =
  if max / 10 * 9 <? kind_size k t then
    match victim max (kd_producers (kind_data k t)) with
    | None => (tt, t)
    | Some p => let '(r, t1) := delete_oldest k p t in match r with Ok true => evict_round fuel k max t1 | _ => (tt, t1) end
    end
  else (tt, t).
Proof.
  cbn [evict_round]. unfold bind, asks. destruct (_ <? _); [|done]. destruct (victim _ _); [|done].
  by destruct (delete_oldest k p t) as [[[]| |] t1].
Qed.

Lemma evict_round_ok k max : 0 <= max -> forall fuel t, store_ok t -> (segment_count k t < fuel)%nat ->
  let t' := (evict_round fuel k max t).2 in
  evolve (dropped (fun _ => True)) t t' /\ elsewhere k t t' /\ settled k max t'.
Proof.
  intros Hmax. induction fuel as [|fuel IH]; intros t Hok Hfuel; [lia|]. cbn zeta. rewrite evict_round_step.
  destruct (Z.ltb_spec (max / 10 * 9) (kind_size k t)) as [Hover|Hunder].
  2:{ split_and!; [reflexivity..|]. left. cbn. pose proof (Z.div_mod max 10). pose proof (Z.mod_pos_bound max 10). lia. }
  destruct (victim max (kd_producers (kind_data k t))) as [p|] eqn:Hv.
  2:{ split_and!; [reflexivity..|]. by right. }
  pose proof (victim_there _ _ _ (ok_entries _ k Hok) Hmax Hv) as Hp. fold (producer_data k p t) in Hp.
  pose proof (delete_evolves k p t Hok Hp) as (Hok1 & Q1 & N1 & _).
  pose proof (only_elsewhere k p _ (only_delete k p) t) as L1.
  destruct (delete_oldest k p t) as [x t1] eqn:Hx. destruct (delete_count k p t t1 x Hok Hp Hx) as (_ & -> & Hc). cbn [snd] in *.
  destruct (IH t1 Hok1 ltac:(lia)) as (E2 & L2 & S2). split_and!; [|by etrans|done]. etrans; [|exact E2]. intros _. by split_and!.
Qed.

(** ** Enforcement *)

(** What a kind keeps: only old records go, unless the kind was above its size
    with every open segment closed. *)
Definition enforced (now : Z) (k : Kind) (t t' : Tel) : Prop :=
  let max := max_bytes (retention k t) in
  (forall p, dropped (fun a => older (cutoff_of k now t) a
                \/ max < kind_size k t + IDX_ENTRY * lenl (producers_of k t)) (stored_of k p t) (stored_of k p t'))
  /\ settled k max t'.

Lemma enforce_kind_ok now k t : store_ok t -> let t' := (enforce_kind now k t).2 in
  store_ok t' /\ next_of k t' = next_of k t /\ elsewhere k t t' /\ enforced now k t t'.
Proof.
  intros Hok t'. assert (snd (enforce_kind now k t) = t') as He by done. clearbody t'. unfold enforce_kind, bind at 1, asks at 1 in He.
  set (stale := (fun e => e.2.1) <$> List.filter _ _) in He.
  assert (lenl stale <= lenl (producers_of k t)) as Hlen.
  { unfold stale, producers_of, lenl. rewrite !length_fmap. apply inj_le. apply filter_length_le. }
  destruct (close_each k stale t Hok) as (E1 & S1 & L1). unfold bind at 1 in He. destruct (mfor _ stale t) as [[] t1]. cbn [snd] in *.
  destruct (E1 Hok) as (Hok1 & Q1 & N1). unfold bind at 1, asks at 1 in He.
  assert (cutoff_of k now t1 = cutoff_of k now t) as Hcut by (unfold cutoff_of, retention; destruct L1 as (-> & _); done).
  rewrite Hcut in He. unfold bind at 1, asks at 1 in He. unfold bind at 1 in He.
  match type of He with context [mfor ?f (producers_of k t1) t1] => assert (ages k (cutoff_of k now t) t1 (mfor f (producers_of k t1) t1).2) as (E2 & S2 & L2) end.
  { apply keeps_mfor. intros p. apply keeps_bind; [apply keeps_asks|]. intros n. apply ages_evict. }
  destruct (mfor _ (producers_of k t1) t1) as [[] t2]. cbn [snd] in *. destruct (E2 Hok1) as (Hok2 & Q2 & N2). specialize (S2 Hok1).
  assert (retention k t2 = retention k t) as Hret by (unfold retention; destruct L1 as (<- & _), L2 as (<- & _); done).
  unfold evict_size, bind at 1, asks at 1 in He. unfold bind at 1, asks at 1 in He. rewrite Hret in He. set (max := max_bytes (retention k t)) in He.
  assert (0 <= max) as Hmax.
  { pose proof (ok_policy _ Hok k) as Hp. unfold retention_valid in Hp. bsplit. unfold max. unfold in_range in *. bsplit. lia. }
  destruct (Z.ltb_spec max (kind_size k t2)) as [Hover|Hunder].
  - unfold bind, asks in He. destruct (evict_round_ok k max Hmax (S (segment_count k t2)) t2 Hok2 ltac:(lia)) as (E3 & L3 & S3).
    rewrite He in E3, L3, S3. destruct (E3 Hok2) as (Hok3 & Q3 & N3). split_and!; [done|by rewrite N3, N2, N1|by etrans; [|etrans]|].
    split; [|done]. intros p. rewrite Q1. etrans; [eapply dropped_impl; [|apply Q2]; auto|]. eapply dropped_impl; [|apply Q3].
    intros a _. right. fold max. unfold IDX_ENTRY in *. lia.
  - cbn [ret snd] in He. subst t'. split_and!; [done|by rewrite N2, N1|by etrans|]. split; [|by left]. intros p. rewrite Q1. eapply dropped_impl; [|apply Q2]. auto.
Qed.

(** The same kind, in memory and on disk. *)
Definition same_kind (k : Kind) (t t' : Tel) : Prop :=
  s_retention (tl_store t') = s_retention (tl_store t) /\ kind_data k t' = kind_data k t /\ forall q, files_of k q t' = files_of k q t.

Lemma same_kind_stored k p t t' : same_kind k t t' -> stored_of k p t' = stored_of k p t.
Proof. intros (_ & Hk & Hf). apply stored_of_same; [|done]. unfold producer_data. by rewrite Hk. Qed.

Lemma elsewhere_same k k' t t' : elsewhere k t t' -> k' <> k -> same_kind k' t t'.
Proof. intros (R & _ & H) Hk. destruct (H k' Hk). by split_and!. Qed.

Lemma enforced_same now k t t1 t2 t' : same_kind k t t1 -> enforced now k t1 t2 -> same_kind k t2 t' -> enforced now k t t'.
Proof.
  intros H1 [Hd Hs] H2. destruct H1 as (R1 & K1 & F1) eqn:E1. clear E1. pose proof H2 as (R2 & K2 & F2).
  unfold enforced, settled, cutoff_of, retention, kind_size, producers_of in *. rewrite R1, K1 in Hd. rewrite K2. rewrite R1 in Hs. split; [|done].
  intros p. rewrite (same_kind_stored k p t2 t' H2). rewrite <- (same_kind_stored k p t t1); [apply Hd|by split_and!].
Qed.

Lemma enforce_each now l : NoDup l -> forall t, store_ok t -> let t' := (mfor (enforce_kind now) l t).2 in
  store_ok t' /\ (forall k, next_of k t' = next_of k t) /\ (forall k, k ∈ l -> enforced now k t t') /\ (forall k, k ∉ l -> same_kind k t t').
Proof.
  induction 1 as [|k l Hk Hnd IH]; intros t Hok; cbn zeta; [split_and!; [done..|set_solver|done]|].
  assert (mfor (enforce_kind now) (k :: l) t = mfor (enforce_kind now) l (enforce_kind now k t).2) as ->
    by (cbn [mfor]; unfold bind at 1; by destruct (enforce_kind now k t)).
  destruct (enforce_kind_ok now k t Hok) as (Hok1 & N1 & L1 & E1). set (t1 := (enforce_kind now k t).2) in *.
  destruct (IH t1 Hok1) as (Hok2 & N2 & E2 & S2). set (t2 := (mfor _ l t1).2) in *.
  assert (same_kind k t t) as Hrefl by done. split_and!; [done|..].
  - intros k'. rewrite N2. destruct (decide (k' = k)) as [->|Hne]; [done|]. destruct (elsewhere_same _ k' _ _ L1 Hne) as (_ & Hd & _).
    unfold next_of. by rewrite Hd.
  - intros k' [->|Hin]%elem_of_cons; [eapply enforced_same; [done|exact E1|by apply S2]|].
    eapply enforced_same; [|by apply E2|by split_and!]. eapply elsewhere_same; [exact L1|]. intros ->. done.
  - intros k' [Hne Hni]%not_elem_of_cons. destruct (elsewhere_same _ k' _ _ L1 Hne) as (R1 & D1 & F1). destruct (S2 k' Hni) as (R2 & D2 & F2).
    split_and!; [congruence..|]. intros q. by rewrite F2.
Qed.

Lemma enforce_ok now t : store_ok t -> let t' := (enforce now t).2 in
  store_ok t' /\ (forall k, next_of k t' = next_of k t) /\ forall k, enforced now k t t'.
Proof.
  intros Hok t'. destruct (enforce_each now ALL_KINDS ltac:(repeat constructor; set_solver) t Hok) as (H1 & H2 & H3 & _).
  split_and!; [done..|]. intros k. apply H3. destruct k; set_solver.
Qed.

(** ** Calls that change no record *)

Definition same_store (t t' : Tel) : Prop :=
  (is_Some (tl_root t) -> is_Some (tl_root t')) /\ (forall k q, files_of k q t' = files_of k q t) /\ (tl_data t = [] -> tl_data t' = [])
  /\ s_kinds (tl_store t') = s_kinds (tl_store t) /\ s_segment_max_bytes (tl_store t') = s_segment_max_bytes (tl_store t)
  /\ forall k, retention_valid (retention k t) = true -> retention_valid (retention k t') = true.

Lemma same_store_ok t t' : same_store t t' -> store_ok t -> store_ok t' /\ forall k p, stored_of k p t' = stored_of k p t.
Proof.
  intros (R & Hf & D & K & M & P) Hok.
  assert (forall k, kind_data k t' = kind_data k t) as Hk by (intros k; unfold kind_data; by rewrite K).
  assert (forall k q, producer_data k q t' = producer_data k q t) as Hp by (intros k q; unfold producer_data; by rewrite Hk).
  assert (forall k p, stored_of k p t' = stored_of k p t) as Hs by (intros; by apply stored_of_same).
  split; [|done]. split.
  - apply R, ok_root, Hok.
  - apply D, ok_data, Hok.
  - rewrite M. apply ok_max, Hok.
  - intros k. apply P, (ok_policy _ Hok).
  - intros k. rewrite Hk. apply ok_sorted, Hok.
  - intros k. rewrite Hk. apply ok_keys, Hok.
  - intros k p. rewrite Hp. apply ok_wf, Hok.
  - intros k p. rewrite Hs. eapply recs_same; [apply Hp|apply Hf|unfold next_of; by rewrite Hk|]. apply ok_recs, Hok.
  - intros k. unfold next_of. rewrite Hk. apply (ok_next _ Hok).
  - intros k p q a b. rewrite !Hs. apply (ok_apart _ Hok).
Qed.

Lemma check_disk_same free t : same_store t (check_disk free t).2.
Proof. destruct free as [[]|]; done. Qed.

Lemma snapshot_state k now t : (snapshot k now t).2 = (flush t).2.
Proof. unfold snapshot, bind. by destruct (flush t). Qed.

Section policies.
Context {JW : JsonWriter}.

Lemma write_same t r t' : write t = (r, t') -> tl_root t' = tl_root t /\ tl_store t' = tl_store t /\ (tl_data t = [] -> tl_data t' = [])
  /\ tl_meta t' = tl_meta t.
Proof. unfold write, bind, data_call. destruct (tl_data t) as [|[] rest] eqn:Hd; cbn; intros H; apply ret_inv in H as [_ ->]; by split_and!. Qed.

(** The store as it is, but for its policies and the file of them. *)
Lemma policies_same t t' : option_map ro_kinds (tl_root t') = option_map ro_kinds (tl_root t) -> s_kinds (tl_store t') = s_kinds (tl_store t) ->
  (tl_data t = [] -> tl_data t' = []) -> s_segment_max_bytes (tl_store t') = s_segment_max_bytes (tl_store t) ->
  (forall k, retention_valid (retention k t) = true -> retention_valid (retention k t') = true) -> same_store t t'.
Proof.
  intros R K D M P. split_and!; try done.
  - destruct (tl_root t), (tl_root t'); by try intros [].
  - intros k q. unfold files_of, dir_of. destruct (tl_root t), (tl_root t'); try done. injection R as ->. done.
Qed.

Lemma set_retention_same k policy t : same_store t (set_retention k policy t).2
  /\ (tl_meta t = [] -> tl_meta (set_retention k policy t).2 = []) /\ (sorted_dirs t -> sorted_dirs (set_retention k policy t).2).
Proof.
  destruct (set_retention k policy t) as [x t'] eqn:Ht'. cbn [snd]. unfold set_retention in Ht'.
  enough (option_map ro_kinds (tl_root t') = option_map ro_kinds (tl_root t) /\ s_kinds (tl_store t') = s_kinds (tl_store t)
    /\ (tl_data t = [] -> tl_data t' = []) /\ s_segment_max_bytes (tl_store t') = s_segment_max_bytes (tl_store t)
    /\ (forall k, retention_valid (retention k t) = true -> retention_valid (retention k t') = true) /\ (tl_meta t = [] -> tl_meta t' = []))
    as (R & K & D & M & P & Q).
  { split; [by apply policies_same|]. split; [done|]. intros Hs r' Hr' k'. rewrite Hr' in R. destruct (tl_root t) as [r|] eqn:Hr; [|done].
    injection R as ->. by apply Hs. }
  destruct (retention_valid policy) eqn:Hv; [|by apply ret_inv in Ht' as [_ ->]]. unfold bind at 1, asks in Ht'.
  set (policies := kset k policy (s_retention (tl_store t))) in Ht'. unfold try_bind at 1, bind at 1 in Ht'.
  destruct (write t) as [r1 t1] eqn:H1. apply write_same in H1 as (R1 & S1 & D1 & M1).
  destruct r1 as [[]|e|]; [|injection Ht' as _ <-; unfold retention; rewrite R1, S1, M1; by split_and!..].
  unfold try_bind at 1, bind at 1 in Ht'. destruct (sys t1) as [r2 t2] eqn:H2. pose proof (sys_meta _ _ _ H2) as M2. apply sys_same in H2 as (R2 & S2 & D2).
  rewrite R1 in R2. rewrite S1 in S2.
  destruct r2 as [[]|e|]; [|injection Ht' as _ <-; unfold retention; rewrite R2, S2, D2; rewrite M1 in M2; by split_and!..].
  unfold bind at 1 in Ht'. destruct (modify_root _ t2) as [[] t3] eqn:H3. unfold try_bind at 1, bind at 1 in Ht'.
  assert (option_map ro_kinds (tl_root t3) = option_map ro_kinds (tl_root t) /\ tl_store t3 = tl_store t /\ tl_data t3 = tl_data t2 /\ tl_meta t3 = tl_meta t2)
    as (R3 & S3 & D3 & M3).
  { injection H3 as <-. cbn. rewrite R2, S2. split_and!; try done. by destruct (tl_root t). }
  destruct (sys t3) as [r4 t4] eqn:H4. pose proof (sys_meta _ _ _ H4) as M4. apply sys_same in H4 as (R4 & S4 & D4). rewrite S3 in S4. rewrite D3, D2 in D4.
  rewrite M3 in M4. rewrite M1 in M2.
  destruct r4 as [[]|e|]; [|injection Ht' as _ <-; unfold retention; rewrite R4, R3, S4, D4; split_and!; by auto..].
  injection Ht' as _ <-. cbn. rewrite R4, R3, S4, D4. split_and!; try done; [|by auto].
  intros k' H. unfold retention. cbn. unfold policies, kset. by destruct (decide (k' = k)) as [->|].
Qed.

End policies.
