(* ===== verification/TelemetryScan.v ===== *)
(** * Scans of the telemetry store

    A scan of a snapshot yields the wanted records, each once, in the order of
    their sequence numbers: a producer's reader yields what its segments hold
    of them, block by block, and the heap merges the readers. *)

From S2P Require Import Prelude RustStr BTree Json PlanCode Calendar Effects Crypto Store ReconcileFacts Telemetry TelemetryFacts TelemetryOps.

#[local] Arguments parse_frames : simpl never.

(** ** A producer's reader *)

Section readers.
Context (spec : ScanSpec) (smin : Z).

Notation wr := (wanted_record spec smin).
Notation order := (in_scan_order spec).

Definition raw_in (p : Producer) (segment : Z) (r : Rec) : RawRecord := {| rr_rec := r; rr_producer := p; rr_segment := segment |}.

(** What a scan yields of a block. *)
Definition yield_block (p : Producer) (segment : Z) (g : list Rec) : list RawRecord := order (raw_in p segment <$> List.filter wr g).

Lemma order_nil {A} : order (@nil A) = [].
Proof. unfold in_scan_order. by destruct (sp_direction spec). Qed.

Lemma order_nil_inv {A} (l : list A) : order l = [] -> l = [].
Proof. unfold in_scan_order. destruct (sp_direction spec); [done|]. intros H. by apply (f_equal (@rev A)) in H; rewrite rev_involutive in H. Qed.

Lemma rev_concat {A} (ls : list (list A)) : rev (concat ls) = concat (rev (@rev A <$> ls)).
Proof.
  induction ls as [|l ls IH]; [done|]. cbn. rewrite rev_app_distr, IH, concat_app. cbn. by rewrite app_nil_r.
Qed.

Lemma order_concat {A} (ls : list (list A)) : order (concat ls) = concat (order (order <$> ls)).
Proof.
  unfold in_scan_order. destruct (sp_direction spec); [by rewrite list_fmap_id|]. apply rev_concat.
Qed.

Lemma order_perm {A} (l : list A) : order l ≡ₚ l.
Proof. unfold in_scan_order. destruct (sp_direction spec); [done|]. by rewrite <- Permutation_rev. Qed.

Lemma filter_concat {A} (f : A -> bool) ls : List.filter f (concat ls) = concat (List.filter f <$> ls).
Proof. induction ls as [|l ls IH]; [done|]. cbn. by rewrite List.filter_app, IH. Qed.

Lemma fmap_concat {A B} (f : A -> B) (ls : list (list A)) : f <$> concat ls = concat ((fun l : list A => f <$> l) <$> ls).
Proof. induction ls as [|l ls IH]; [done|]. cbn. by rewrite fmap_app, IH. Qed.

(** The blocks of a segment, in scan order, yield its records in scan order. *)
Lemma yield_blocks p segment gs : concat (order (yield_block p segment <$> gs)) = yield_block p segment (concat gs).
Proof.
  unfold yield_block at 2. rewrite filter_concat, fmap_concat, order_concat. f_equal. f_equal. rewrite <- !list_fmap_compose. done.
Qed.

(** *** Blocks and bytes *)

(** The bytes of [range] are the frames of [g]. *)
Definition covers (bytes : string) (range : Z * Z) (g : list Rec) : Prop :=
  Forall wf_rec g /\ 0 <= range.1 /\ range.2 <= len bytes /\ range.2 - range.1 = len (frames_text g)
  /\ String.substring (Z.to_nat range.1) (Z.to_nat (range.2 - range.1)) bytes = frames_text g.

Lemma frames_text_pos g : g <> [] -> 0 < len (frames_text g).
Proof.
  destruct g as [|r g]; [done|]. intros _. rewrite frames_text_cons, len_app, frame_length. pose proof (len_nonneg (frames_text g)).
  unfold frame_len, FRAME_HEADER. pose proof (len_nonneg (r_payload r)). lia.
Qed.

Lemma read_range_ok p segment bytes range g : covers bytes range g ->
  read_range spec smin p segment bytes range = Ok (yield_block p segment g).
Proof.
  intros (Hwf & H0 & Hlen & Hd & Hs). destruct range as [a b]. cbn [fst snd] in *. unfold read_range.
  destruct (Z.leb_spec b a) as [Hle|Hlt].
  - destruct g as [|r g]; [unfold yield_block; cbn; by rewrite order_nil|]. pose proof (frames_text_pos (r :: g) ltac:(done)). lia.
  - apply Z.leb_le in Hlen. rewrite Hlen. cbn [negb]. rewrite Hs, parse_frames_text by done. done.
Qed.

Lemma fill_blocks_ok p segment bytes l gs : Forall2 (covers bytes) l gs ->
  exists out rest gs', fill_blocks spec smin p segment bytes l = Ok (out, rest) /\ Forall2 (covers bytes) rest gs'
    /\ out ++ concat (yield_block p segment <$> gs') = concat (yield_block p segment <$> gs) /\ (out = [] -> gs' = []).
Proof.
  induction 1 as [|range g l gs Hc Hl IH]; cbn [fill_blocks].
  - exists [], [], []. by split_and!.
  - rewrite (read_range_ok _ _ _ _ _ Hc). cbn. destruct (yield_block p segment g) as [|x out] eqn:Hy; [done|].
    exists (x :: out), l, gs. by split_and!.
Qed.

(** *** Segments *)

(** What a scan yields of the segment of a view. *)
Definition yields (p : Producer) (files : Dir) (v : SegmentView) (out : list RawRecord) : Prop :=
  (wanted_segment spec smin v = false -> out = [])
  /\ exists f bytes gs, files !! sv_first v = Some f /\ sg_seg f = Some bytes /\ Forall2 (covers bytes) (ranges_of spec v) gs
       /\ concat (yield_block p (sv_first v) <$> gs) = out.

Definition current_yields (p : Producer) (c : option (Z * string * list (Z * Z))) (out : list RawRecord) : Prop :=
  match c with
  | None => out = []
  | Some (segment, bytes, l) => exists gs, Forall2 (covers bytes) l gs /\ out = concat (yield_block p segment <$> gs)
  end.

(** What a reader is still to yield. *)
Definition reads (files : Producer -> Dir) (r : ProducerReader) (out : list RawRecord) : Prop :=
  exists cur outs, current_yields (pr_producer r) (pr_current r) cur
    /\ Forall2 (yields (pr_producer r) (files (pr_producer r))) (pr_segments r) outs /\ out = pr_buffer r ++ cur ++ concat outs.

(** A reader with an empty buffer is at its end. *)
Definition ready (r : ProducerReader) (out : list RawRecord) : Prop := pr_buffer r = [] -> out = [].

Lemma fill_segments_ok p files l outs : Forall2 (yields p (files p)) l outs ->
  exists r, fill_segments spec smin p (files p) l = Ok r /\ reads files r (concat outs) /\ ready r (concat outs).
Proof.
  induction 1 as [|v out l outs [Hw (f & bytes & gs & Hf & Hb & Hc & Hy)] Hl IH]; cbn [fill_segments concat].
  - eexists. split; [done|]. split; [|done]. exists [], []. by split_and!.
  - destruct (wanted_segment spec smin v); [|by rewrite (Hw eq_refl)]. rewrite Hf. cbn. rewrite Hb.
    destruct (fill_blocks_ok p (sv_first v) bytes _ gs Hc) as (o & rest & gs' & -> & Hr & He & Hno). cbn.
    destruct o as [|x o].
    + rewrite (Hno eq_refl) in He. cbn in He. rewrite <- He in Hy. by rewrite <- Hy.
    + eexists. split; [done|]. split; [|by intros ?]. exists (concat (yield_block p (sv_first v) <$> gs')), outs.
      split_and!; [by exists gs'|done|]. cbn [pr_buffer]. by rewrite app_assoc, He, Hy.
Qed.

Lemma fill_ok files r out : reads files r out ->
  exists r', fill spec smin files r = Ok r' /\ reads files r' out /\ ready r' out.
Proof.
  intros Hr. unfold fill. destruct (pr_buffer r) as [|x b] eqn:Hb.
  2:{ exists r. split_and!; [done..|]. unfold ready. by rewrite Hb. }
  destruct Hr as (cur & outs & Hcur & Hs & ->). rewrite Hb. cbn [app].
  destruct (pr_current r) as [[[segment bytes] l]|]; cbn [current_yields] in Hcur.
  - destruct Hcur as (gs & Hc & ->). destruct (fill_blocks_ok (pr_producer r) segment bytes l gs Hc) as (o & rest & gs' & -> & Hrest & He & Hno).
    cbn. destruct o as [|y o].
    + rewrite (Hno eq_refl) in He. cbn in He. rewrite <- He. by apply fill_segments_ok.
    + eexists. split; [done|]. split; [|by intros ?]. exists (concat (yield_block (pr_producer r) segment <$> gs')), outs.
      split_and!; [by exists gs'|done|]. cbn [pr_buffer]. by rewrite app_assoc, He.
  - rewrite Hcur. by apply fill_segments_ok.
Qed.

(** *** The view of a segment *)

Lemma ranges_covered : forall gs off bs pre extra, laid off bs gs -> Forall wf_rec (concat gs) -> len pre = off ->
  Forall2 (covers (pre +:+ frames_text (concat gs) +:+ extra)) (ranges bs (off + len (frames_text (concat gs)))) gs.
Proof.
  induction gs as [|g gs IH]; intros off [|[o q] bs] pre extra; cbn [laid]; try done.
  intros (-> & _ & Hl) Hwf Hpre. cbn [concat] in *. apply Forall_app in Hwf as [Hg Hwf]. rewrite frames_text_app, len_app.
  pose proof (len_nonneg (frames_text g)). pose proof (len_nonneg (frames_text (concat gs))). pose proof (len_nonneg extra). pose proof (len_nonneg pre).
  cbn [ranges]. constructor.
  - assert (Z.min (match bs with (next, _) :: _ => next | [] => off + (len (frames_text g) + len (frames_text (concat gs))) end)
              (off + (len (frames_text g) + len (frames_text (concat gs)))) = off + len (frames_text g)) as ->.
    { destruct bs as [|[n b] bs], gs as [|g' gs]; cbn [laid] in Hl; try done; [cbn; unfold len; cbn; lia|]. destruct Hl as (-> & _). lia. }
    split_and!; cbn [fst snd]; [done|lia|rewrite !len_app; lia|lia|].
    rewrite <- Hpre. replace (len pre + len (frames_text g) - len pre) with (len (frames_text g)) by lia. unfold len. rewrite !Nat2Z.id.
    rewrite substring_slice. destruct (slice_at pre ((frames_text g +:+ frames_text (concat gs)) +:+ extra)) as [_ ->].
    rewrite <- str_app_assoc. apply slice_at.
  - specialize (IH (off + len (frames_text g)) bs (pre +:+ frames_text g) extra Hl Hwf).
    rewrite Z.add_assoc. rewrite !str_app_assoc in *. apply IH. rewrite len_app. lia.
Qed.

Lemma skipped_unwanted after : sp_after_seq spec = Some after -> forall gs off bs p segment, laid off bs gs ->
  concat (yield_block p segment <$> drop (skipped after bs) gs) = concat (yield_block p segment <$> gs).
Proof.
  intros Ha. induction gs as [|g gs IH]; intros off [|[o q] bs] p segment; cbn [laid]; try done.
  intros (_ & Hg & Hl). cbn [skipped]. destruct (existsb _ bs) eqn:He; [|done]. cbn [drop fmap list_fmap concat]. rewrite (IH _ _ _ _ Hl).
  assert (List.filter wr g = []) as Hnone.
  { apply existsb_exists in He as (b & Hb%list_elem_of_In & Hle). rewrite Forall_forall in Hg. specialize (Hg b Hb). clear -Ha Hg Hle.
    induction g as [|r g IH]; [done|]. apply Forall_cons in Hg as [Hr Hg]. cbn [List.filter].
    assert (wr r = false) as ->; [|by apply IH]. unfold wanted_record. rewrite Ha. cbn [is_none_or].
    assert (after <? r_seq r = false) as -> by lia. done. }
  unfold yield_block at 2. rewrite Hnone. cbn. by rewrite order_nil.
Qed.

Lemma Forall2_rev {A B} (R : A -> B -> Prop) l k : Forall2 R l k -> Forall2 R (rev l) (rev k).
Proof. induction 1; cbn; [constructor|]. apply Forall2_app; [done|]. by constructor. Qed.

Lemma order_Forall2 {A B} (R : A -> B -> Prop) l k : Forall2 R l k -> Forall2 R (order l) (order k).
Proof. unfold in_scan_order. destruct (sp_direction spec); [done|]. apply Forall2_rev. Qed.

Lemma order_fmap {A B} (f : A -> B) l : order (f <$> l) = f <$> order l.
Proof. unfold in_scan_order. destruct (sp_direction spec); [done|]. symmetry. apply map_rev. Qed.

(** Nothing of a segment that is not wanted is wanted. *)
Lemma unwanted_segment s rs : seg_ok s rs -> wanted_segment spec smin (view_of s) = false -> List.filter wr rs = [].
Proof.
  intros Hs Hw. pose proof (sk_seqs _ _ Hs) as Hq. pose proof (sk_times _ _ Hs) as Ht. clear Hs. induction rs as [|r rs IH]; [done|].
  apply Forall_cons in Hq as [Hq1 Hq]. apply Forall_cons in Ht as [Ht1 Ht]. cbn [List.filter].
  assert (wr r = false) as ->; [|by apply IH]. clear IH. unfold wanted_segment, wanted_record, view_of, is_none_or in *. cbn in Hw.
  apply not_true_is_false. intros Hr. bsplit. apply not_true_iff_false in Hw. apply Hw.
  destruct (sp_after_seq spec), (sp_before_seq spec); rewrite ?andb_true_iff; split_and!; try done; lia.
Qed.

Lemma ranges_yield p bytes v gs : sv_blocks v <> [] -> laid 0 (sv_blocks v) gs ->
  Forall2 (covers bytes) (ranges (sv_blocks v) (sv_readable v)) gs ->
  exists gs', Forall2 (covers bytes) (ranges_of spec v) gs'
    /\ concat (yield_block p (sv_first v) <$> gs') = yield_block p (sv_first v) (concat gs).
Proof.
  intros Hne Hl Hc. rewrite <- yield_blocks. unfold ranges_of. destruct (sv_blocks v) as [|b0 bs0] eqn:Hbs; [done|]. rewrite <- Hbs in *.
  assert (forall g, concat (order (yield_block p (sv_first v) <$> g)) = concat (yield_block p (sv_first v) <$> order g)) as Ho
    by (intros g; by rewrite order_fmap).
  assert (exists gs', Forall2 (covers bytes) (order (ranges (sv_blocks v) (sv_readable v))) gs'
    /\ concat (yield_block p (sv_first v) <$> gs') = concat (order (yield_block p (sv_first v) <$> gs))) as Hall.
  { exists (order gs). split; [by apply order_Forall2|]. by rewrite Ho. }
  destruct (sp_direction spec) eqn:Hdir; [|done]. destruct (sp_after_seq spec) as [after|] eqn:Ha; [|done].
  exists (drop (skipped after (sv_blocks v)) gs). split; [by apply Forall2_drop|].
  rewrite (skipped_unwanted after Ha gs 0) by done. unfold in_scan_order. by rewrite Hdir.
Qed.

Lemma view_yields p files s rs : held files "" s rs -> rs <> [] -> yields p files (view_of s) (yield_block p (first_seq s) rs).
Proof.
  intros [Hs (bytes & bs & Hf & Hb & _)] Hne. rewrite str_app_nil_r in Hb. split.
  - intros Hw. unfold yield_block. rewrite (unwanted_segment s rs Hs Hw). cbn. apply order_nil.
  - destruct (sk_blocks _ _ Hs) as (gs & Hgs & Hl). pose proof (sk_wf _ _ Hs) as Hwf. rewrite <- Hgs in Hwf.
    pose proof (ranges_covered gs 0 (blocks s) "" "" Hl Hwf eq_refl) as Hc. rewrite str_app_nil_r, str_app_nil_l in Hc.
    rewrite Z.add_0_l, Hgs in Hc. rewrite <- (sk_bytes _ _ Hs), <- Hb in Hc.
    assert (blocks s <> []) as Hbl. { intros He. rewrite He in Hl. destruct gs; [|done]. by subst rs. }
    destruct (ranges_yield p bytes (view_of s) gs Hbl Hl Hc) as (gs' & Hc' & Hy). rewrite Hgs in Hy. eexists _, bytes, gs'. by split_and!.
Qed.

End readers.

(** ** The merge *)

Lemma pair_ltb_false a b : pair_ltb a b = false <-> b.1 < a.1 \/ (b.1 = a.1 /\ (b.2 <= a.2)%nat).
Proof. unfold pair_ltb. rewrite orb_false_iff, andb_false_iff, Z.ltb_ge, Z.eqb_neq, Nat.ltb_ge. lia. Qed.

Lemma pair_ltb_true a b : pair_ltb a b = true -> pair_ltb b a = false.
Proof. rewrite pair_ltb_false. unfold pair_ltb. rewrite orb_true_iff, andb_true_iff, Z.ltb_lt, Z.eqb_eq, Nat.ltb_lt. lia. Qed.

Lemma pair_ltb_trans a b c : pair_ltb b a = false -> pair_ltb c b = false -> pair_ltb c a = false.
Proof. rewrite !pair_ltb_false. lia. Qed.

(** The heap gives its greatest element. *)
Lemma heap_pop_ok h : match heap_pop h with
  | None => h = []
  | Some (x, rest) => h ≡ₚ x :: rest /\ Forall (fun y => pair_ltb x y = false) h
  end.
Proof.
  induction h as [|x h IH]; cbn [heap_pop]; [done|]. destruct (heap_pop h) as [[y rest]|].
  - destruct IH as [Hp Hall]. destruct (pair_ltb x y) eqn:Hlt.
    + split; [rewrite Hp; apply Permutation_swap|]. constructor; [by apply pair_ltb_true|done].
    + split; [by rewrite Hp|]. constructor; [apply pair_ltb_false; lia|]. eapply Forall_impl; [exact Hall|]. cbn. intros z Hz.
      eapply pair_ltb_trans; [exact Hz|]. done.
  - subst h. split; [done|]. constructor; [apply pair_ltb_false; lia|done].
Qed.

Section merge.
Context (spec : ScanSpec) (smin : Z) (files : Producer -> Dir).

Definition seq_of (a : RawRecord) : Z := r_seq (rr_rec a).

Definition before (a b : RawRecord) : Prop :=
  match sp_direction spec with Forward => seq_of a < seq_of b | Backward => seq_of b < seq_of a end.

(** What reader [i] has in the heap. *)
Definition entry (readers : list ProducerReader) (i : nat) : option (Z * nat) :=
  match readers !! i with
  | Some r => match pr_buffer r with front :: _ => Some (heap_key spec (seq_of front), i) | [] => None end
  | None => None
  end.

(** The readers of [idx] are in the heap. *)
Record merging (s : Scan) (outs : list (list RawRecord)) (idx : list nat) : Prop := {
  me_reads : Forall2 (reads spec smin files) (sc_readers s) outs;
  me_heap : sc_heap s ≡ₚ omap (entry (sc_readers s)) idx;
  me_ready i r out : i ∈ idx -> sc_readers s !! i = Some r -> outs !! i = Some out -> ready r out;
  me_distinct : NoDup idx;
  me_started : sc_started s = true
}.

Lemma entry_insert readers i j r : i <> j -> entry (<[i := r]> readers) j = entry readers j.
Proof. intros H. unfold entry. by rewrite list_lookup_insert_ne. Qed.

Lemma omap_ext_in {A B} (f g : A -> option B) (l : list A) : Forall (fun x => f x = g x) l -> omap f l = omap g l.
Proof. induction 1 as [|x l Hx _ IH]; cbn; [done|]. by rewrite Hx, IH. Qed.

Lemma omap_insert readers i r (idx : list nat) : i ∉ idx -> omap (entry (<[i := r]> readers)) idx = omap (entry readers) idx.
Proof. intros H. apply omap_ext_in, Forall_forall. intros j Hj. apply entry_insert. intros ->. done. Qed.

Lemma push_ok s outs idx i : merging s outs idx -> i ∉ idx -> (i < length (sc_readers s))%nat ->
  exists s', scan_push spec smin files i s = Ok s' /\ merging s' outs (i :: idx) /\ length (sc_readers s') = length (sc_readers s).
Proof.
  intros [Hr Hh Hready Hnd Hst] Hi Hlt. destruct (lookup_lt_is_Some_2 _ _ Hlt) as [r Hri].
  destruct (Forall2_lookup_l _ _ _ _ _ Hr Hri) as (out & Hout & Hreads). unfold scan_push. rewrite Hri.
  destruct (fill_ok spec smin files r out Hreads) as (r' & -> & Hr' & Hdone). eexists. split; [reflexivity|]. cbn [sc_readers]. rewrite length_insert.
  split; [|done]. split; cbn [sc_readers sc_heap sc_started]; [| | |by constructor|done].
  - rewrite <- (list_insert_id outs i out Hout). by apply Forall2_insert.
  - cbn [omap list_omap]. rewrite omap_insert by done. unfold entry at 1. rewrite list_lookup_insert_eq by done.
    destruct (pr_buffer r') as [|front b]; cbn; [done|]. by rewrite Hh.
  - intros j r0 o [->|Hj]%elem_of_cons.
    + rewrite list_lookup_insert_eq by done. intros [= <-] Ho. rewrite Hout in Ho. by injection Ho as <-.
    + rewrite list_lookup_insert_ne by (intros ->; done). by apply Hready.
Qed.

Lemma start_ok l : forall s outs idx, merging s outs idx -> NoDup l -> (forall i, i ∈ l -> i ∉ idx /\ (i < length (sc_readers s))%nat) ->
  exists s', scan_start spec smin files l s = Ok s' /\ merging s' outs (rev l ++ idx) /\ length (sc_readers s') = length (sc_readers s).
Proof.
  induction l as [|i l IH]; intros s outs idx Hm Hnd Hin; cbn [scan_start]; [by exists s|]. apply NoDup_cons in Hnd as [Hi Hnd].
  destruct (Hin i) as [Hni Hlt]; [apply list_elem_of_here|]. destruct (push_ok s outs idx i Hm Hni Hlt) as (s1 & -> & Hm1 & Hlen). cbn.
  destruct (IH s1 outs (i :: idx) Hm1 Hnd) as (s2 & Hs2 & Hm2 & Hlen2).
  { intros j Hj. rewrite Hlen. destruct (Hin j) as [Hnj Hjl]; [by apply list_elem_of_further|]. split; [|done]. apply not_elem_of_cons.
    split; [intros ->; done|done]. }
  exists s2. rewrite <- app_assoc. split_and!; [done..|congruence].
Qed.

(** A ready reader shows its first record. *)
Lemma reads_front r out : reads spec smin files r out -> ready r out ->
  match out with
  | [] => pr_buffer r = []
  | a :: rest => exists b, pr_buffer r = a :: b
      /\ reads spec smin files {| pr_producer := pr_producer r; pr_segments := pr_segments r; pr_current := pr_current r; pr_buffer := b |} rest
  end.
Proof.
  intros (cur & outs & Hc & Hs & He) Hready. destruct (pr_buffer r) as [|a b] eqn:Hb; cbn [app] in He.
  - by rewrite (Hready Hb).
  - subst out. exists b. split; [done|]. by exists cur, outs.
Qed.

Lemma elem_of_omap_entry readers (idx : list nat) x : x ∈ omap (entry readers) idx -> x.2 ∈ idx /\ entry readers x.2 = Some x.
Proof.
  intros (i & Hi & He)%list_elem_of_omap. assert (x.2 = i) as ->; [|done]. unfold entry in He. destruct (readers !! i); [|done].
  destruct (pr_buffer p); [done|]. by injection He as <-.
Qed.

Lemma next_ok s outs idx : merging s outs idx -> idx ≡ₚ seq 0 (length outs) ->
  (concat outs = [] /\ scan_next spec smin files s = Ok None)
  \/ exists i a out s' idx', outs !! i = Some (a :: out) /\ scan_next spec smin files s = Ok (Some (a, s'))
     /\ merging s' (<[i := out]> outs) idx' /\ idx' ≡ₚ seq 0 (length outs)
     /\ (forall j b rest, outs !! j = Some (b :: rest) -> heap_key spec (seq_of b) <= heap_key spec (seq_of a)).
Proof.
  intros Hm Hidx. pose proof Hm as [Hr Hh Hready Hnd Hst]. unfold scan_next. rewrite Hst. cbn.
  assert (forall j b rest, outs !! j = Some (b :: rest) -> (heap_key spec (seq_of b), j) ∈ omap (entry (sc_readers s)) idx) as Hfront.
  { intros j b rest Hj. assert (j ∈ idx) as Hin. { rewrite Hidx. apply elem_of_seq. apply lookup_lt_Some in Hj. lia. }
    destruct (Forall2_lookup_r _ _ _ _ _ Hr Hj) as (r & Hrj & Hreads). pose proof (reads_front _ _ Hreads (Hready _ _ _ Hin Hrj Hj)) as (c & Hc & _).
    apply list_elem_of_omap. exists j. split; [done|]. unfold entry. by rewrite Hrj, Hc. }
  pose proof (heap_pop_ok (sc_heap s)) as Hpop. destruct (heap_pop (sc_heap s)) as [[[key i] rest]|].
  - right. destruct Hpop as [Hperm Hmax]. assert ((key, i) ∈ omap (entry (sc_readers s)) idx) as Hin by (rewrite <- Hh, Hperm; apply list_elem_of_here).
    destruct (elem_of_omap_entry _ _ _ Hin) as [Hi He]. cbn [snd] in Hi, He. unfold entry in He.
    destruct (sc_readers s !! i) as [r|] eqn:Hri; [|done]. destruct (pr_buffer r) as [|a b] eqn:Hb; [done|]. injection He as <-.
    destruct (Forall2_lookup_l _ _ _ _ _ Hr Hri) as (out & Hout & Hreads).
    pose proof (reads_front _ _ Hreads (Hready _ _ _ Hi Hri Hout)) as Hf. destruct out as [|a' out]; [congruence|]. destruct Hf as (b' & Hb' & Hreads').
    rewrite Hb in Hb'. injection Hb' as <- <-.
    apply elem_of_Permutation in Hi as [idx' Hidx']. pose proof Hnd as Hnd'. rewrite Hidx' in Hnd'. apply NoDup_cons in Hnd' as [Hni Hnd'].
    set (r' := {| pr_producer := pr_producer r; pr_segments := pr_segments r; pr_current := pr_current r; pr_buffer := b |}) in *.
    set (s1 := {| sc_readers := <[i := r']> (sc_readers s); sc_heap := rest; sc_started := sc_started s |}).
    assert (merging s1 (<[i := out]> outs) idx') as Hm1.
    { split; cbn [sc_readers sc_heap sc_started s1]; [by apply Forall2_insert| | |done|done].
      - rewrite omap_insert by done. rewrite Hperm, Hidx' in Hh. cbn [omap list_omap] in Hh. unfold entry at 1 in Hh. rewrite Hri, Hb in Hh.
        by apply Permutation_cons_inv in Hh.
      - intros j r0 o Hj. assert (i <> j) as Hne by (intros ->; done). rewrite !list_lookup_insert_ne by done. apply Hready.
        rewrite Hidx'. by apply list_elem_of_further. }
    destruct (push_ok s1 _ idx' i Hm1 Hni) as (s2 & Hs2 & Hm2 & _).
    { cbn [sc_readers s1]. rewrite length_insert. by eapply lookup_lt_Some. }
    exists i, a, out, s2, (i :: idx'). fold s1. rewrite Hs2. cbn. split_and!; [done..|by rewrite <- Hidx'|].
    intros j b0 rest0 Hj. specialize (Hfront j b0 rest0 Hj). rewrite <- Hh in Hfront. rewrite Forall_forall in Hmax.
    specialize (Hmax _ Hfront). apply pair_ltb_false in Hmax. cbn in Hmax. lia.
  - left. split; [|done]. assert (omap (entry (sc_readers s)) idx = []) as Hnil by (apply Permutation_nil_r; by rewrite <- Hh, Hpop).
    rewrite Hnil in Hfront. clear -Hfront. assert (forall j o, outs !! j = Some o -> o = []) as Hall.
    { intros j [|b rest] Hj; [done|]. specialize (Hfront j b rest Hj). set_solver. }
    clear Hfront. induction outs as [|o outs IH]; [done|]. cbn. rewrite (Hall 0%nat o eq_refl). apply IH. intros j. apply (Hall (S j)).
Qed.

Lemma concat_take (outs : list (list RawRecord)) i a out : outs !! i = Some (a :: out) -> concat outs ≡ₚ a :: concat (<[i := out]> outs).
Proof.
  revert i. induction outs as [|o outs IH]; intros [|i]; cbn; try done; [by intros [= ->]|]. intros H. rewrite (IH _ H).
  by rewrite Permutation_middle.
Qed.

Lemma before_head a outs i out : outs !! i = Some (a :: out) -> Forall (StronglySorted before) outs -> NoDup (seq_of <$> concat outs) ->
  (forall j b rest, outs !! j = Some (b :: rest) -> heap_key spec (seq_of b) <= heap_key spec (seq_of a)) ->
  Forall (before a) (concat (<[i := out]> outs)).
Proof.
  intros Hi Hs Hnd Hmax. rewrite (concat_take _ _ _ _ Hi) in Hnd. cbn [fmap list_fmap] in Hnd. apply NoDup_cons in Hnd as [Hni _].
  apply Forall_forall. intros b Hb. assert (seq_of b <> seq_of a) as Hne. { intros He. apply Hni. rewrite <- He. by apply list_elem_of_fmap_2. }
  apply list_elem_of_In, in_concat in Hb as (o & Ho%list_elem_of_In & Hb%list_elem_of_In).
  apply list_elem_of_lookup in Ho as [j Hj].
  assert (exists c rest, outs !! j = Some (c :: rest) /\ b ∈ c :: rest) as (c & rest & Hc & Hbc).
  { destruct (decide (i = j)) as [<-|Hij].
    - rewrite list_lookup_insert_eq in Hj by (by eapply lookup_lt_Some). injection Hj as <-. exists a, out. split; [done|]. by apply list_elem_of_further.
    - rewrite list_lookup_insert_ne in Hj by done. destruct o as [|c rest]; [set_solver|]. eauto. }
  specialize (Hmax j c rest Hc). rewrite Forall_lookup in Hs. specialize (Hs j _ Hc). apply StronglySorted_inv in Hs as [_ Hcb].
  rewrite Forall_forall in Hcb. unfold before, heap_key in *. apply elem_of_cons in Hbc as [->|Hbc]; [|specialize (Hcb b Hbc)];
    destruct (sp_direction spec); lia.
Qed.

Lemma sorted_take outs i a out : outs !! i = Some (a :: out) -> Forall (StronglySorted before) outs ->
  Forall (StronglySorted before) (<[i := out]> outs).
Proof.
  intros Hi Hs. apply Forall_insert; [done|]. rewrite Forall_lookup in Hs. by apply (Hs i), StronglySorted_inv in Hi as [? _].
Qed.

Lemma scan_rest n : forall s outs idx, merging s outs idx -> idx ≡ₚ seq 0 (length outs) -> (length (concat outs) < n)%nat ->
  Forall (StronglySorted before) outs -> NoDup (seq_of <$> concat outs) ->
  exists out, scan_all spec smin n files s = Ok (Some out) /\ out ≡ₚ concat outs /\ StronglySorted before out.
Proof.
  induction n as [|n IH]; intros s outs idx Hm Hidx Hn Hs Hnd; [lia|]. cbn [scan_all].
  destruct (next_ok s outs idx Hm Hidx) as [(He & ->)|(i & a & o & s' & idx' & Hi & -> & Hm' & Hidx' & Hmax)]; cbn.
  - exists []. rewrite He. by split_and!; [| |constructor].
  - pose proof (concat_take _ _ _ _ Hi) as Hp. pose proof (before_head _ _ _ _ Hi Hs Hnd Hmax) as Hb.
    destruct (IH s' (<[i := o]> outs) idx' Hm') as (out & -> & Hout & Hsort).
    + by rewrite length_insert.
    + apply Permutation_length in Hp. cbn in Hp. lia.
    + by eapply sorted_take.
    + rewrite Hp in Hnd. cbn in Hnd. by apply NoDup_cons in Hnd as [_ Hnd].
    + cbn. exists (a :: out). split_and!; [done|by rewrite Hout, Hp|]. constructor; [done|]. by rewrite Hout.
Qed.

(** A scan that has not started. *)
Lemma scan_fresh n s outs : Forall2 (reads spec smin files) (sc_readers s) outs -> sc_heap s = [] -> sc_started s = false ->
  (length (concat outs) < n)%nat -> Forall (StronglySorted before) outs -> NoDup (seq_of <$> concat outs) ->
  exists out, scan_all spec smin n files s = Ok (Some out) /\ out ≡ₚ concat outs /\ StronglySorted before out.
Proof.
  intros Hr Hh Hst Hn Hs Hnd. set (s0 := {| sc_readers := sc_readers s; sc_heap := sc_heap s; sc_started := true |}).
  assert (merging s0 outs []) as Hm0 by (split; cbn; [done|by rewrite Hh|set_solver|constructor|done]).
  destruct (start_ok (seq 0 (length (sc_readers s))) s0 outs [] Hm0) as (s1 & Hs1 & Hm1 & Hlen).
  { apply NoDup_seq. } { intros i Hi%elem_of_seq. cbn. split; [set_solver|lia]. }
  destruct n as [|n]; [lia|].
  assert (scan_all spec smin (S n) files s = scan_all spec smin (S n) files s1) as ->.
  { assert (scan_next spec smin files s = scan_next spec smin files s1) as He; [|cbn [scan_all]; by rewrite He].
    unfold scan_next. rewrite Hst, (me_started _ _ _ Hm1). fold s0. by rewrite Hs1. }
  eapply scan_rest; [exact Hm1| |done..]. rewrite app_nil_r, <- Permutation_rev. by rewrite (Forall2_length _ _ _ Hr).
Qed.

End merge.

(** ** Flushed stores *)

(** The same producers, when each of them is there as before. *)
Lemma same_roster p (m m' : Producers) : entries_ok m -> entries_ok m' -> (forall q, q <> p -> pget q m' = pget q m) ->
  (is_Some (pget p m') <-> is_Some (pget p m)) -> (fun e => e.2.1) <$> m' = (fun e => e.2.1) <$> m.
Proof.
  intros [Hs Hk] [Hs' Hk'] Hq Hp. set (names := fun m : Producers => (fun e => (e.1, e.2.1)) <$> m).
  assert (forall m s, bget s (names m) = fst <$> bget s m) as Hget.
  { intros m0 s. induction m0 as [|[s0 e0] m0 IH]; cbn; [done|]. by destruct (String.eqb s s0). }
  assert (forall m, bsorted m -> bsorted (names m)) as Hsort.
  { intros m0 H. induction H as [|e m0 _ IH He]; cbn; constructor; [done|]. apply Forall_fmap. eapply Forall_impl; [exact He|]. done. }
  assert (names m' = names m) as He.
  { apply bmap_eq; [by apply Hsort..|]. intros s. rewrite !Hget.
    assert (forall q, s = order_key q -> is_Some (bget s m') <-> is_Some (bget s m)) as Hiff.
    { intros q ->. destruct (decide (q = p)) as [->|Hne]; [unfold pget in Hp; by rewrite !fmap_is_Some in Hp|]. specialize (Hq q Hne). unfold pget in Hq.
      rewrite <- !(fmap_is_Some snd). by rewrite Hq. }
    destruct (bget s m') as [[q' d']|] eqn:E', (bget s m) as [[q d]|] eqn:E; [| | |done].
    - pose proof (bget_order_key _ _ _ Hk' E') as H1. pose proof (bget_order_key _ _ _ Hk E) as H2. cbn in *. f_equal. apply order_key_inj. congruence.
    - destruct (proj1 (Hiff q' (bget_order_key _ _ _ Hk' E'))) as [? ?]; [by eexists|done].
    - destruct (proj2 (Hiff q (bget_order_key _ _ _ Hk E))) as [? ?]; [by eexists|done]. }
  apply (f_equal (fmap snd)) in He. unfold names in He. by rewrite <- !list_fmap_compose in He.
Qed.

(** Everything flushed stays so, and the producers and policies are as they
    were. *)
Definition calmer (t t' : Tel) : Prop :=
  (forall k p, flushed k p t -> flushed k p t') /\ (forall k p, producer_data k p t = None -> producer_data k p t' = None)
  /\ (forall k, producers_of k t' = producers_of k t) /\ s_retention (tl_store t') = s_retention (tl_store t).

#[local] Instance calmer_preorder : PreOrder calmer.
Proof.
  split; [by intros t|]. intros a b c (H1 & H2 & H3 & H4) (H5 & H6 & H7 & H8). split_and!; [by eauto..|intros; by rewrite H7|congruence].
Qed.

Lemma calmer_only k p t t' : store_ok t -> store_ok t' -> only k p t t' -> (flushed k p t -> flushed k p t') ->
  (is_Some (producer_data k p t') <-> is_Some (producer_data k p t)) -> calmer t t'.
Proof.
  intros Hok Hok' Hon H1 H2. assert (forall k' q, (k', q) <> (k, p) -> producer_data k' q t' = producer_data k' q t) as Hd by (intros; by eapply others_data).
  split_and!.
  - intros k' q. destruct (decide ((k', q) = (k, p))) as [[= -> ->]|Hne]; try done. unfold flushed. by rewrite Hd.
  - intros k' q. destruct (decide ((k', q) = (k, p))) as [[= -> ->]|Hne]; [|by rewrite Hd]. intros Hn. rewrite Hn in H2.
    destruct (producer_data k p t'); [|done]. by destruct (proj1 H2 ltac:(by eexists)).
  - intros k'. unfold producers_of. destruct (decide (k' = k)) as [->|Hne]; [|by rewrite (on_kind _ _ _ _ Hon)].
    apply (same_roster p); [by apply ok_entries..|apply (on_producer _ _ _ _ Hon)|exact H2].
  - by destruct (on_config _ _ _ _ Hon) as (H & _).
Qed.

Lemma modify_producer_there k p f t : is_Some (producer_data k p (modify_producer k p f t).2) <-> is_Some (producer_data k p t).
Proof. pose proof (producer_modify k p f t) as L. apply local_inv in L as (-> & _). by rewrite fmap_is_Some. Qed.

Lemma flush_there k p t : is_Some (producer_data k p (flush_producer k p t).2) <-> is_Some (producer_data k p t).
Proof.
  unfold flush_producer, bind at 1, asks. destruct (producer_data k p t) as [[l [o|]]|] eqn:Hd; [|cbn [ret snd]; by rewrite Hd..].
  destruct (last l) as [s|]; [|cbn [ret snd]; by rewrite Hd]. unfold bind. destruct (flush_open k p (first_seq s) o t) as [r t1] eqn:Ht1.
  assert (producer_data k p t1 = producer_data k p t) as H1.
  { unfold flush_open in Ht1. destruct (is_empty _); [by apply ret_inv in Ht1 as [_ ->]|]. unfold try_bind, bind, write, data_call in Ht1.
    unfold bind in Ht1. destruct (tl_data t) as [|[] rest]; by injection Ht1 as <- <-. }
  destruct r; [unfold modify_open; rewrite modify_producer_there|cbn [ret snd]..]; by rewrite H1, Hd.
Qed.

Lemma flush_producer_flushed k p t : store_ok t ->
  let t' := (flush_producer k p t).2 in store_ok t' /\ flushed k p t' /\ calmer t t'.
Proof.
  intros Hok t'. destruct (recs_flush k p t _ (ok_data _ Hok) (ok_recs _ Hok k p)) as (t1 & Ht1 & _ & _ & Hf).
  assert (t1 = t') as -> by (unfold t'; by rewrite Ht1). assert (store_ok t') as Hok' by (by apply evolve_flush_producer). split_and!; [done..|].
  eapply calmer_only; [done|done|apply only_flush_producer|done|apply flush_there].
Qed.

Lemma flush_list_flushed k l : forall t, store_ok t ->
  let t' := (mfor (flush_producer k) l t).2 in store_ok t' /\ (forall p, p ∈ l -> flushed k p t') /\ calmer t t'.
Proof.
  induction l as [|p l IH]; intros t Hok; cbn zeta; [split_and!; [done|set_solver|reflexivity]|].
  assert (mfor (flush_producer k) (p :: l) t = mfor (flush_producer k) l (flush_producer k p t).2) as ->
    by (cbn [mfor]; unfold bind; by destruct (flush_producer k p t)).
  destruct (flush_producer_flushed k p t Hok) as (Hok1 & Hf1 & Hc1). destruct (IH _ Hok1) as (Hok2 & Hf2 & Hc2).
  split_and!; [done| |by etrans]. intros q [->|Hq]%elem_of_cons; [by apply Hc2|by apply Hf2].
Qed.

Lemma producers_of_elem k p t : store_ok t -> p ∈ producers_of k t <-> is_Some (producer_data k p t).
Proof.
  intros Hok. unfold producers_of, producer_data, pget. split.
  - intros ([s [q d]] & -> & Hin)%list_elem_of_fmap. cbn. pose proof (ok_keys _ Hok k) as Hk. rewrite Forall_forall in Hk.
    pose proof (Hk _ Hin) as He. cbn in He. subst s. by rewrite (In_bget _ _ _ (ok_sorted _ Hok k) Hin).
  - destruct (bget (order_key p) (kd_producers (kind_data k t))) as [[q d]|] eqn:Hg; [|by intros []]. intros _.
    pose proof (bget_order_key _ _ _ (ok_keys _ Hok k) Hg) as He. apply order_key_inj in He. cbn in He. subst q.
    apply list_elem_of_fmap. eexists. split; [|by apply bget_In]. done.
Qed.

Lemma flush_kinds_flushed l : forall t, store_ok t ->
  let t' := (mfor (fun k => let! ps := asks (producers_of k) in mfor (flush_producer k) ps) l t).2 in
  store_ok t' /\ (forall k p, k ∈ l -> flushed k p t') /\ calmer t t'.
Proof.
  induction l as [|k l IH]; intros t Hok; cbn zeta; [split_and!; [done|set_solver|reflexivity]|].
  set (f := fun k => let! ps := asks (producers_of k) in mfor (flush_producer k) ps) in *.
  assert (mfor f (k :: l) t = mfor f l (mfor (flush_producer k) (producers_of k t) t).2) as ->
    by (cbn [mfor]; unfold f at 1, bind, asks; by destruct (mfor (flush_producer k) (producers_of k t) t)).
  destruct (flush_list_flushed k (producers_of k t) t Hok) as (Hok1 & Hf1 & Hc1). destruct (IH _ Hok1) as (Hok2 & Hf2 & Hc2).
  split_and!; [done| |by etrans]. intros k' p [->|Hk]%elem_of_cons; [|by apply Hf2]. apply Hc2.
  destruct (producer_data k p t) as [d|] eqn:Hd; [apply Hf1, producers_of_elem; [done|by rewrite Hd]|].
  intros d o He. destruct Hc1 as (_ & Hn & _). by rewrite (Hn _ _ Hd) in He.
Qed.

Lemma flush_flushed t : store_ok t -> let t' := (flush t).2 in store_ok t' /\ (forall k p, flushed k p t')
  /\ (forall k, stored k t' = stored k t) /\ s_retention (tl_store t') = s_retention (tl_store t).
Proof.
  intros Hok. destruct (flush_kinds_flushed ALL_KINDS t Hok) as (H1 & H2 & _ & _ & H3 & H4). split_and!; [done| | |done].
  - intros k p. apply H2. destruct k; set_solver.
  - intros k. unfold stored. fold flush in H3. rewrite H3. f_equal. apply list_fmap_ext. intros _ p _. destruct (evolve_flush t Hok) as (_ & He & _).
    by rewrite He.
Qed.

(** ** The records of a kind *)

Lemma raws_sorted p s rs : seg_ok s rs -> StronglySorted (fun a b => seq_of a < seq_of b) (raws p s rs).
Proof.
  intros Hs. pose proof (sk_sorted _ _ Hs) as H. clear Hs. unfold raws. induction H as [|r rs _ IH Hr]; cbn; constructor; [done|].
  apply Forall_fmap. eapply Forall_impl; [exact Hr|]. done.
Qed.

Lemma sorted_app {A} (R : relation A) l1 l2 : StronglySorted R l1 -> StronglySorted R l2 -> (forall a b, a ∈ l1 -> b ∈ l2 -> R a b) ->
  StronglySorted R (l1 ++ l2).
Proof.
  intros H1 H2 H12. induction H1 as [|a l1 _ IH Ha]; cbn; [done|]. constructor.
  - apply IH. intros x y Hx. apply H12. by apply list_elem_of_further.
  - apply Forall_app. split; [done|]. apply Forall_forall. intros b Hb. apply H12; [apply list_elem_of_here|done].
Qed.

Lemma raws_range p s rs a : seg_ok s rs -> a ∈ raws p s rs -> first_seq s <= seq_of a <= last_seq s /\ rr_producer a = p.
Proof.
  intros Hs Ha. unfold raws in Ha. apply list_elem_of_fmap in Ha as (r & -> & Hr). split; [|done]. pose proof (sk_seqs _ _ Hs) as H.
  rewrite Forall_forall in H. by apply H.
Qed.

Lemma held_list_sorted p files l rl : Forall2 (fun s rs => exists b, held files b s rs) l rl -> ordered l ->
  StronglySorted (fun a b => seq_of a < seq_of b) (concat (zip_with (raws p) l rl))
  /\ forall a, a ∈ concat (zip_with (raws p) l rl) -> rr_producer a = p /\ exists s, s ∈ l /\ first_seq s <= seq_of a.
Proof.
  induction 1 as [|s rs l rl [b [Hs _]] _ IH]; intros Ho; cbn; [split; [constructor|set_solver]|].
  apply StronglySorted_inv in Ho as [Ho Hlt]. destruct (IH Ho) as [IH1 IH2]. split.
  - apply sorted_app; [by apply raws_sorted|done|]. intros x y Hx Hy. destruct (IH2 y Hy) as (_ & s' & Hs' & Hge). destruct (raws_range _ _ _ _ Hs Hx) as [Hr _].
    rewrite Forall_forall in Hlt. specialize (Hlt s' Hs'). lia.
  - intros a [Ha|Ha]%elem_of_app.
    + destruct (raws_range _ _ _ _ Hs Ha) as [Hr Hp]. split; [done|]. exists s. split; [apply list_elem_of_here|lia].
    + destruct (IH2 a Ha) as (Hp & s' & Hs' & Hge). split; [done|]. exists s'. split; [by apply list_elem_of_further|done].
Qed.

Lemma stored_of_sorted k p t : store_ok t -> StronglySorted (fun a b => seq_of a < seq_of b) (stored_of k p t)
  /\ Forall (fun a => rr_producer a = p) (stored_of k p t).
Proof.
  intros Hok. pose proof (ok_recs _ Hok k p) as Hr. unfold recs in Hr. destruct (producer_data k p t) as [d|]; [|rewrite Hr; split; constructor].
  destruct Hr as (rl & Hch & _ & Heq). rewrite Heq. pose proof Hch as (? & ? & ? & ? & _ & _ & _ & _ & _ & Ho).
  destruct (held_list_sorted p _ _ _ (chain_each _ _ _ _ Hch) Ho) as [H1 H2]. split; [done|]. apply Forall_forall. intros a Ha. by apply H2.
Qed.

Lemma sorted_nodup l : StronglySorted (fun a b => seq_of a < seq_of b) l -> NoDup (seq_of <$> l).
Proof.
  induction 1 as [|a l _ IH Ha]; cbn; constructor; [|done]. intros (b & He & Hb)%list_elem_of_fmap. rewrite Forall_forall in Ha.
  specialize (Ha b Hb). lia.
Qed.

Lemma producers_nodup k t : store_ok t -> NoDup (producers_of k t).
Proof.
  intros Hok. pose proof (bsorted_NoDup _ (ok_sorted _ Hok k)) as Hnd. pose proof (ok_keys _ Hok k) as Hk.
  unfold producers_of, bkeys in *. induction (kd_producers (kind_data k t)) as [|[s [p d]] m IH]; cbn in *; [constructor|].
  apply NoDup_cons in Hnd as [Hni Hnd]. apply Forall_cons in Hk as [Hs Hk]. constructor; [|by apply IH]. cbn in Hs. subst s.
  intros ([s' [p' d']] & -> & Hin)%list_elem_of_fmap. apply Hni. apply list_elem_of_fmap. exists (s', (p', d')). split; [|done].
  rewrite Forall_forall in Hk. symmetry. by apply (Hk _ Hin).
Qed.

Lemma stored_nodup k t : store_ok t -> NoDup (seq_of <$> stored k t).
Proof.
  intros Hok. unfold stored. pose proof (producers_nodup k t Hok) as Hnd. induction Hnd as [|p ps Hp _ IH]; cbn; [constructor|].
  rewrite fmap_app. apply NoDup_app. split_and!; [by apply sorted_nodup, stored_of_sorted| |done].
  intros z (a & -> & Ha)%list_elem_of_fmap (b & He & Hb)%list_elem_of_fmap. apply list_elem_of_In, in_concat in Hb as (l & Hl%list_elem_of_In & Hb%list_elem_of_In).
  apply list_elem_of_fmap in Hl as (q & -> & Hq). assert (p = q) as -> by (by eapply (ok_apart _ Hok k)). done.
Qed.

Lemma filter_nodup (f : RawRecord -> bool) l : NoDup (seq_of <$> l) -> NoDup (seq_of <$> List.filter f l).
Proof.
  induction l as [|a l IH]; cbn; [done|]. intros [Ha Hl]%NoDup_cons. destruct (f a); [|by apply IH]. cbn. constructor; [|by apply IH].
  intros (b & He & Hb%list_elem_of_In)%list_elem_of_fmap. apply filter_In in Hb as [Hb%list_elem_of_In _]. apply Ha. rewrite He.
  by apply list_elem_of_fmap_2.
Qed.

Lemma filter_sorted (R : relation RawRecord) (f : RawRecord -> bool) l : StronglySorted R l -> StronglySorted R (List.filter f l).
Proof.
  induction 1 as [|a l _ IH Ha]; cbn; [constructor|]. destruct (f a); [|done]. constructor; [done|]. apply Forall_forall.
  intros b Hb%list_elem_of_In. apply filter_In in Hb as [Hb%list_elem_of_In _]. rewrite Forall_forall in Ha. by apply Ha.
Qed.

Lemma rev_sorted {A} (R : relation A) l : StronglySorted R l -> StronglySorted (fun a b => R b a) (rev l).
Proof.
  induction 1 as [|a l _ IH Ha]; cbn; [constructor|]. apply sorted_app; [done|repeat constructor|]. intros x y Hx ->%list_elem_of_singleton.
  rewrite Forall_forall in Ha. apply Ha. apply list_elem_of_In. apply in_rev. by apply list_elem_of_In.
Qed.

(** ** Scans of a snapshot *)

Section scans.
Context (spec : ScanSpec) (smin : Z).

Definition chosen (p : Producer) : bool := is_none_or (sp_producers spec) (fun ps => existsb (fun q => bool_decide (q = p)) ps).
Definition want (a : RawRecord) : bool := wanted_record spec smin (rr_rec a).

(** What a scan yields of one producer. *)
Definition yield_producer (k : Kind) (t : Tel) (p : Producer) : list RawRecord := in_scan_order spec (List.filter want (stored_of k p t)).

Lemma yield_sorted k t p : store_ok t -> StronglySorted (before spec) (yield_producer k t p).
Proof.
  intros Hok. destruct (stored_of_sorted k p t Hok) as [Hs _]. apply (filter_sorted _ want) in Hs. unfold yield_producer, in_scan_order, before.
  destruct (sp_direction spec); [done|]. by apply rev_sorted in Hs.
Qed.

Lemma yield_producers k t ps : store_ok t ->
  concat (yield_producer k t <$> List.filter chosen ps) ≡ₚ List.filter (fun a => chosen (rr_producer a) && want a) (concat ((fun p => stored_of k p t) <$> ps)).
Proof.
  intros Hok. induction ps as [|p ps IH]; [done|]. cbn. rewrite List.filter_app, <- IH. destruct (stored_of_sorted k p t Hok) as [_ Hp].
  assert (List.filter (fun a => chosen (rr_producer a) && want a) (stored_of k p t) = if chosen p then List.filter want (stored_of k p t) else []) as ->.
  { induction Hp as [|a l Ha _ IHl]; cbn; [by destruct (chosen p)|]. rewrite Ha, IHl. by destruct (chosen p). }
  destruct (chosen p); cbn; [|done]. unfold yield_producer. by rewrite order_perm.
Qed.

(** The views of a producer's segments yield its records. *)
Lemma views_yield p files l rl : Forall2 (held files "") l rl ->
  exists outs, Forall2 (yields spec smin p files) (view_of <$> List.filter (fun s => 0 <? records s) l) outs
    /\ concat (in_scan_order spec outs) = in_scan_order spec (List.filter want (concat (zip_with (raws p) l rl))).
Proof.
  intros Hl. assert (exists outs, Forall2 (yields spec smin p files) (view_of <$> List.filter (fun s => 0 <? records s) l) (in_scan_order spec <$> outs)
    /\ concat outs = List.filter want (concat (zip_with (raws p) l rl))) as (outs & H1 & H2).
  { induction Hl as [|s rs l rl Hs _ (outs & IH1 & IH2)]; [exists []; by split; [constructor|]|]. cbn [List.filter zip_with concat].
    rewrite List.filter_app, <- IH2. pose proof Hs as [Hseg _]. rewrite (sk_records _ _ Hseg).
    assert (List.filter want (raws p s rs) = raw_in p (first_seq s) <$> List.filter (wanted_record spec smin) rs) as ->.
    { unfold raws. clear. induction rs as [|r rs IH]; [done|]. cbn. rewrite IH. unfold want, raw. cbn. by destruct (wanted_record spec smin r). }
    destruct rs as [|r rs].
    - exists outs. by split.
    - assert (0 <? lenl (r :: rs) = true) as -> by (apply Z.ltb_lt; rewrite lenl_cons; pose proof (lenl_nonneg rs); lia).
      exists ((raw_in p (first_seq s) <$> List.filter (wanted_record spec smin) (r :: rs)) :: outs). split; [|done].
      cbn [fmap list_fmap]. constructor; [|done]. by apply view_yields. }
  exists (in_scan_order spec <$> outs). split; [done|]. by rewrite <- order_concat, H2.
Qed.

Lemma stored_held k p t d : store_ok t -> flushed k p t -> producer_data k p t = Some d ->
  exists rl, Forall2 (held (files_of k p t) "") (pd_segments d) rl /\ stored_of k p t = concat (zip_with (raws p) (pd_segments d) rl).
Proof.
  intros Hok Hf Hd. pose proof (ok_recs _ Hok k p) as Hr. unfold recs in Hr. rewrite Hd in Hr. destruct Hr as (rl & Hch & _ & He). exists rl. split; [|done].
  destruct Hch as (init & rinit & s & rs & -> & -> & Hinit & _ & Hs & _). apply Forall2_app; [eapply Forall2_impl; [exact Hinit|]; by intros ? ? [_ ?]|].
  constructor; [|done]. destruct (pd_open d) as [o|] eqn:Ho; [|done]. by rewrite (Hf d o Hd Ho) in Hs.
Qed.

Lemma reader_reads k t p d : store_ok t -> flushed k p t -> producer_data k p t = Some d ->
  reads spec smin (fun q => files_of k q t)
    {| pr_producer := p; pr_segments := in_scan_order spec (view_of <$> List.filter (fun s => 0 <? records s) (pd_segments d)); pr_current := None; pr_buffer := [] |}
    (yield_producer k t p).
Proof.
  intros Hok Hf Hd. destruct (stored_held k p t d Hok Hf Hd) as (rl & Hl & He). destruct (views_yield p _ _ _ Hl) as (outs & H1 & H2).
  exists [], (in_scan_order spec outs). cbn. split_and!; [done|by apply order_Forall2|]. unfold yield_producer. by rewrite He, H2.
Qed.

End scans.

(** C14. A scan of a snapshot ends, without an error, and yields exactly the
    wanted records of the kind, each once: those of the chosen producers inside
    the cursor and time bounds and not older than the retention cutoff, in the
    order of their sequence numbers, forward or backward. *)
Theorem scan_exact k now spec t : store_ok t ->
  let '(sn, t') := snapshot k now t in
  exists out, scan_all spec (sn_min_ts sn) (S (length (stored k t))) (fun p => files_of k p t') (scan sn spec) = Ok (Some out)
    /\ out ≡ₚ List.filter (fun a => chosen spec (rr_producer a) && want spec (cutoff_of k now t) a) (stored k t)
    /\ StronglySorted (before spec) out.
Proof.
  intros Hok. destruct (flush_flushed t Hok) as (Hok' & Hf & Hst & Hret). unfold snapshot, bind, asks. destruct (flush t) as [[] t']. cbn [snd sn_min_ts] in *.
  assert (cutoff_of k now t' = cutoff_of k now t) as Hcut by (unfold cutoff_of, retention; by rewrite Hret).
  set (smin := cutoff_of k now t'). set (ps := List.filter (chosen spec) (producers_of k t')).
  pose proof (yield_producers spec smin k t' (producers_of k t') Hok') as Hperm. fold (stored k t') in Hperm. rewrite Hst in Hperm.
  destruct (scan_fresh spec smin (fun p => files_of k p t') (S (length (stored k t)))
    (scan {| sn_kind := k; sn_producers := (fun e => (e.2.1, view_of <$> List.filter (fun s => 0 <? records s) (pd_segments e.2.2))) <$> kd_producers (kind_data k t');
             sn_min_ts := smin |} spec) (yield_producer spec smin k t' <$> ps)) as (out & H1 & H2 & H3); try done.
  - unfold ps, scan, producers_of. cbn [sn_producers sc_readers].
    assert (Forall (fun e => producer_data k e.2.1 t' = Some e.2.2) (kd_producers (kind_data k t'))) as Hall.
    { apply Forall_forall. intros [s [p d]] Hin. pose proof (ok_keys _ Hok' k) as Hk. rewrite Forall_forall in Hk. pose proof (Hk _ Hin) as He. cbn in He.
      subst s. unfold producer_data, pget. cbn [fst snd]. by rewrite (In_bget _ _ _ (ok_sorted _ Hok' k) Hin). }
    induction Hall as [|[s [p d]] m Hd _ IH]; [constructor|]. cbn. unfold chosen at 1. destruct (is_none_or _ _); [|done]. cbn. constructor; [|done].
    by apply reader_reads.
  - apply Permutation_length in Hperm. fold ps in Hperm. rewrite Hperm. pose proof (filter_length_le (fun a => chosen spec (rr_producer a) && want spec smin a) (stored k t)). lia.
  - apply Forall_fmap. apply Forall_forall. intros p _. by apply yield_sorted.
  - fold ps in Hperm. rewrite Hperm. apply filter_nodup. rewrite <- Hst. by apply stored_nodup.
  - exists out. rewrite <- Hcut. fold ps in Hperm. split_and!; [done| |done]. by rewrite H2, Hperm.
Qed.
