(* ===== verification/TelemetryOpen.v ===== *)
(** * Restarting the telemetry store

    What a crash leaves is the files without the bytes the writers held back.
    Opening the store reads every closed segment from its index and rebuilds
    an open one from its whole frames, so a restart keeps exactly the records
    on disk. *)

From S2P Require Import Prelude RustStr BTree Json PlanCode Calendar Effects Crypto Store ReconcileFacts Telemetry TelemetryFacts.
From S2P Require Import TelemetryOps TelemetryScan.

#[local] Arguments parse_frames : simpl never.

(** ** Rebuilding a segment *)

(** The state of the rebuild after some frames. *)
Definition rebuilt (pre : list Rec) (acc : list (Z * Z) * Z * Z) : Prop :=
  let '(bs, offset, fill) := acc in
  offset = len (frames_text pre) /\ (exists gs, concat gs = pre /\ laid 0 bs gs) /\ (bs = [] -> BLOCK_BYTES <= fill)
  /\ Forall (fun b => 0 <= b.1 <= offset /\ exists r, r ∈ pre /\ b.2 = r_seq r) bs.

Lemma frames_text_snoc rs r : len (frames_text (rs ++ [r])) = len (frames_text rs) + frame_len (r_payload r).
Proof. rewrite frames_text_app, len_app, frames_text_cons, len_app, frame_length. change (len (frames_text [])) with 0. lia. Qed.

Lemma rebuild_step_ok pre acc r : rebuilt pre acc -> Forall (fun a => r_seq a < r_seq r) pre -> rebuilt (pre ++ [r]) (rebuild_step acc r).
Proof.
  destruct acc as [[bs offset] fill]. intros (-> & (gs & Hgs & Hl) & Hne & Hbs) Hlt. unfold rebuild_step.
  pose proof (len_nonneg (frames_text pre)). pose proof (len_nonneg (r_payload r)).
  assert (Forall (fun b => 0 <= b.1 <= len (frames_text pre) + frame_len (r_payload r) /\ exists r0, r0 ∈ pre ++ [r] /\ b.2 = r_seq r0) bs) as Hbs'.
  { eapply Forall_impl; [exact Hbs|]. intros b (Hb & r0 & Hr0 & He). cbn beta. unfold frame_len, FRAME_HEADER. split; [lia|]. exists r0. set_solver. }
  destruct (Z.leb_spec BLOCK_BYTES fill) as [Hfull|Hsome].
  - split; [by rewrite frames_text_snoc|]. split_and!.
    + exists (gs ++ [[r]]). split; [rewrite concat_app, Hgs; cbn; by rewrite ?app_nil_r|]. apply (laid_record gs _ _ []).
      rewrite <- Hgs in *. pose proof (laid_block gs 0 bs (r_seq r) Hl Hlt) as Hb. by rewrite Z.add_0_l in Hb.
    + by intros ?%app_nil%proj2.
    + apply Forall_app. split; [done|]. constructor; [|done]. cbn [fst snd]. unfold frame_len, FRAME_HEADER. split; [lia|]. exists r. set_solver.
  - assert (bs <> []) as Hb by (intros He; specialize (Hne He); lia).
    destruct gs as [|g gs _] using rev_ind; [by destruct bs as [|[]]|]. split; [by rewrite frames_text_snoc|]. split_and!; [|done|done].
    exists (gs ++ [g ++ [r]]). split; [|by apply laid_record]. rewrite <- Hgs, !concat_app. cbn. by rewrite !app_nil_r, app_assoc.
Qed.

Lemma sorted_below (l : list Rec) r : StronglySorted (fun a b => r_seq a < r_seq b) (l ++ [r]) ->
  StronglySorted (fun a b => r_seq a < r_seq b) l /\ Forall (fun a => r_seq a < r_seq r) l.
Proof.
  induction l as [|a l IH]; cbn; [by split; constructor|]. intros H. apply StronglySorted_inv in H as [H Ha]. destruct (IH H) as [H1 H2].
  apply Forall_app in Ha as [Ha1 Ha2]. apply Forall_cons in Ha2 as [Ha2 _]. split; by constructor.
Qed.

Lemma rebuild_ok rs : StronglySorted (fun a b => r_seq a < r_seq b) rs -> rebuilt rs (fold_left rebuild_step rs ([], 0, BLOCK_BYTES)).
Proof.
  induction rs as [|r rs IH] using rev_ind; intros Hs.
  - cbn. split_and!; [done|by exists []|done|constructor].
  - destruct (sorted_below _ _ Hs) as [H1 H2]. rewrite fold_left_app. cbn [fold_left]. by apply rebuild_step_ok; [apply IH|].
Qed.

Lemma fold_min rs : forall m, let f := fold_left (fun m r => Z.min m (r_ts r)) rs m in f <= m /\ Forall (fun r => f <= r_ts r) rs.
Proof.
  induction rs as [|r rs IH]; intros m; cbn; [split; [lia|constructor]|]. destruct (IH (Z.min m (r_ts r))) as [H1 H2]. split; [lia|].
  constructor; [lia|done].
Qed.

Lemma fold_max rs : forall m, let f := fold_left (fun m r => Z.max m (r_ts r)) rs m in m <= f /\ Forall (fun r => r_ts r <= f) rs.
Proof.
  induction rs as [|r rs IH]; intros m; cbn; [split; [lia|constructor]|]. destruct (IH (Z.max m (r_ts r))) as [H1 H2]. split; [lia|].
  constructor; [lia|done].
Qed.

Lemma fold_min_bound rs : Forall wf_rec rs -> forall m, i64_min <= m <= i64_max ->
  i64_min <= fold_left (fun m r => Z.min m (r_ts r)) rs m <= i64_max /\ i64_min <= fold_left (fun m r => Z.max m (r_ts r)) rs m <= i64_max.
Proof.
  induction 1 as [|r rs (_ & Ht & _) _ IH]; intros m Hm; cbn; [done|]. split; [apply IH; lia|apply (IH (Z.max m (r_ts r))); lia].
Qed.

(** The segment that recovery makes of whole frames. *)
Lemma recovered_ok first rs idx_len : Forall wf_rec rs -> StronglySorted (fun a b => r_seq a < r_seq b) rs -> rs <> [] ->
  Forall (fun r => first <= r_seq r) rs -> 0 <= first -> len (frames_text rs) <= 2 ^ 62 -> 0 <= idx_len ->
  seg_ok (recovered_segment first rs (len (frames_text rs)) idx_len) rs /\ Forall (fun r => r_seq r <= last_seq (recovered_segment first rs 0 0)) rs.
Proof.
  intros Hwf Hsort Hne Hge Hfirst Hsize Hidx. destruct rs as [|r rs _] using rev_ind; [done|]. clear Hne.
  destruct (sorted_below _ _ Hsort) as [_ Hlt].
  assert (fold_left (fun _ r => r_seq r) (rs ++ [r]) 0 = r_seq r) as Hlast by (by rewrite fold_left_app).
  assert (Forall (fun a => r_seq a <= r_seq r) (rs ++ [r])) as Hle.
  { apply Forall_app. split; [eapply Forall_impl; [exact Hlt|]; cbn; lia|by constructor]. }
  split; [|cbn; by rewrite Hlast].
  pose proof (rebuild_ok _ Hsort) as Hreb. unfold rebuild. destruct (fold_left rebuild_step (rs ++ [r]) ([], 0, BLOCK_BYTES)) as [[bs off] fill] eqn:Hf.
  destruct Hreb as (-> & Hl & _ & Hbs).
  assert (wf_rec r /\ first <= r_seq r) as [(Hr & _) Hfr] by (apply Forall_app in Hwf as [_ Hwf], Hge as [_ Hge]; by apply Forall_cons in Hwf as [? _], Hge as [? _]).
  pose proof (fold_min (rs ++ [r]) i64_max) as [_ Hmin]. pose proof (fold_max (rs ++ [r]) i64_min) as [_ Hmax].
  split; cbn [recovered_segment records seg_bytes idx_bytes first_seq last_seq min_ts max_ts blocks]; rewrite ?Hlast; unfold rebuild; rewrite ?Hf; try done.
  - lia.
  - apply Forall_forall. intros a Ha. rewrite Forall_forall in Hge, Hle. split; [by apply Hge|by apply Hle].
  - apply Forall_forall. intros a Ha. rewrite Forall_forall in Hmin, Hmax. split; [by apply Hmin|by apply Hmax].
  - split; apply fold_min_bound; unfold i64_min, i64_max; lia || done.
  - eapply Forall_impl; [exact Hbs|]. intros b (Hb & r0 & Hr0 & He). split; unfold u64_ok, u64_max; [lia|]. rewrite He.
    rewrite Forall_forall in Hwf. by destruct (Hwf _ Hr0) as (? & _).
Qed.

(** ** Loading a segment *)

(** The whole frames of a segment's file. *)
Definition disk_frames (files : Dir) (s : Segment) : list Rec := (parse_frames (default "" (f ← files !! first_seq s; sg_seg f))).1.

Lemma alter_other {A} (f : A -> A) (first z : Z) (m : gmap Z A) : z <> first -> alter f first m !! z = m !! z.
Proof. intros H. by rewrite lookup_alter_ne. Qed.

Section load.
Context (k : Kind) (p : Producer).

(** A step of loading: the files of one segment change, and nothing of memory. *)
Record loads (first : Z) (t t' : Tel) : Prop := {
  ld_only : only k p t t';
  ld_kind : kind_data k t' = kind_data k t;
  ld_quiet : quiet t -> quiet t';
  ld_files : forall z, z <> first -> files_of k p t' !! z = files_of k p t !! z
}.

#[local] Instance loads_preorder first : PreOrder (loads first).
Proof.
  split; [intros t; split; [reflexivity|done..]|]. intros a b c [A1 A2 A3 A4] [B1 B2 B3 B4]. split; [by etrans|congruence|auto|].
  intros z Hz. by rewrite B4, A4.
Qed.

Lemma loads_modify_file first f t : loads first t (modify_file k p first f t).2.
Proof.
  pose proof (file_modify k p first f t) as L. apply local_inv in L as (_ & F & _). split; [apply only_modify_file|done|done|].
  intros z Hz. rewrite F. by apply alter_other.
Qed.

Lemma loads_remove first b t : loads first t (remove_file k p first b t).2.
Proof.
  pose proof (remove_file_local k p first b t) as (_ & _ & F). split; [apply only_remove_file| | |exact F].
  - unfold remove_file, bind, meta_call. by destruct (tl_meta t) as [|[] ?].
  - intros [Hm Hd]. unfold remove_file, bind, meta_call. by rewrite Hm.
Qed.

(** What is loaded for the segment [s]: its whole frames on disk. *)
Definition reloaded (files' : Dir) (s : Segment) (rs1 : list Rec) (o : option Segment) : Prop :=
  match o with
  | None => rs1 = [] /\ files' !! first_seq s = None
  | Some s' => held files' "" s' rs1 /\ closed s' = true /\ first_seq s' = first_seq s /\ last_seq s' <= last_seq s
  end.

Lemma load_closed s rs t : closed s = true -> held (files_of k p t) "" s rs ->
  exists s', load_segment k p (first_seq s) t = (Ok (Some s'), t) /\ reloaded (files_of k p t) s rs (Some s').
Proof.
  intros Hc [Hs (bytes & bs & Hf & Hb & Hbs)]. rewrite str_app_nil_r in Hb. rewrite Hc in Hf. unfold load_segment, bind, asks.
  assert (default no_file (files_of k p t !! first_seq s)
    = {| sg_seg := Some bytes; sg_idx := Some (concat_str (block_entries bs) +:+ summary_entry s) |}) as -> by (by rewrite Hf).
  cbn [sg_seg sg_idx default]. unfold id. pose proof (sk_range _ _ Hs) as Hr. pose proof (sk_bounds _ _ Hs) as [Hlo Hhi].
  pose proof (sk_in_range _ _ Hs) as Hin. rewrite <- Hbs in Hin.
  assert (u64_ok (records s)) as Hrec.
  { rewrite (sk_records _ _ Hs). pose proof (sk_small _ _ Hs) as Hsm. rewrite (sk_bytes _ _ Hs) in Hsm. unfold u64_ok, u64_max.
    pose proof (lenl_nonneg rs). assert (lenl rs <= len (frames_text rs)); [|lia]. clear. induction rs as [|r rs IH]; [done|].
    rewrite lenl_cons, frames_text_cons, len_app, frame_length. unfold frame_len, FRAME_HEADER. pose proof (len_nonneg (r_payload r)). lia. }
  destruct (closed_index bs s Hin Hrec) as [Hblocks Hsum]; [unfold u64_ok; lia|done..|]. cbv zeta in Hblocks, Hsum. rewrite Hsum, Hblocks, Hbs.
  eexists. split; [reflexivity|]. cbn [reloaded closed first_seq last_seq]. split_and!; try done.
  split; [eapply (seg_ok_same s); try done; [cbn; by rewrite (sk_bytes _ _ Hs), Hb|cbn; apply len_nonneg]|].
  exists bytes, bs. cbn [first_seq closed blocks]. by rewrite str_app_nil_r.
Qed.

(** Cutting a torn tail. *)
Lemma cut_ok first bytes valid f t : quiet t -> files_of k p t !! first = Some f -> sg_seg f = Some bytes -> valid <= len bytes ->
  let t' := ((if valid <? len bytes then
              run! sys in
              do! modify_file k p first (with_seg (Some (slice_to (Z.to_nat valid) bytes))) in done tt
            else done tt) : st Tel (outcome unit unit)) t in
  t'.1 = Ok tt /\ loads first t t'.2 /\ files_of k p t'.2 !! first = Some (with_seg (Some (slice_to (Z.to_nat valid) bytes)) f).
Proof.
  intros Hq Hf Hb Hv. cbn zeta. destruct (Z.ltb_spec valid (len bytes)) as [Hlt|Hge].
  - unfold try_bind, bind. rewrite quiet_sys by done.
    pose proof (file_modify k p first (with_seg (Some (slice_to (Z.to_nat valid) bytes))) t) as L.
    pose proof (loads_modify_file first (with_seg (Some (slice_to (Z.to_nat valid) bytes))) t) as Hld.
    destruct (modify_file k p first _ t) as [[] t1]. cbn [done ret fst snd] in *. apply local_inv in L as (_ & F & _).
    split_and!; [done..|]. rewrite F, lookup_alter_eq, Hf. done.
  - cbn [done ret fst snd]. split; [done|]. split; [reflexivity|]. rewrite Hf. f_equal. assert (valid = len bytes) as -> by lia.
    unfold len. rewrite Nat2Z.id, slice_to_all by lia. destruct f as [sg ix]. cbn in *. by rewrite Hb.
Qed.

Lemma recovered_index first rs valid n m : let s := recovered_segment first rs valid n in
  concat_str ((fun b => idx_entry 1 b.1 b.2 0 0) <$> blocks s) +:+ idx_entry 2 (records s) (last_seq s) (min_ts s) (max_ts s)
  = concat_str (block_entries ((fun b => (b, 0)) <$> blocks s)) +:+ summary_entry (recovered_segment first rs valid m).
Proof. cbn zeta. unfold block_entries. rewrite <- list_fmap_compose. done. Qed.

(** A segment a crash left open is rebuilt from its whole frames. *)
Lemma load_open buffer s rs t : quiet t -> closed s = false -> held (files_of k p t) buffer s rs ->
  exists o t' rs2, load_segment k p (first_seq s) t = (Ok o, t') /\ loads (first_seq s) t t' /\ rs = disk_frames (files_of k p t) s ++ rs2
    /\ reloaded (files_of k p t') s (disk_frames (files_of k p t) s) o.
Proof.
  intros Hq Hc [Hs (bytes & bs & Hf & Hb & Hbs)]. rewrite Hc, str_app_nil_r in Hf.
  destruct (frames_prefix rs (sk_wf _ _ Hs) bytes buffer Hb) as (rs1 & rs2 & torn & -> & Hbytes & Ht).
  pose proof (sk_wf _ _ Hs) as Hwf. apply Forall_app in Hwf as [Hwf _].
  assert (parse_frames bytes = (rs1, len (frames_text rs1))) as Hparse by (rewrite Hbytes; by apply parse_frames_torn).
  assert (disk_frames (files_of k p t) s = rs1) as Hdisk by (unfold disk_frames; rewrite Hf; cbn; by rewrite Hparse). rewrite Hdisk.
  unfold load_segment, bind at 1, asks.
  assert (default no_file (files_of k p t !! first_seq s) = {| sg_seg := Some bytes; sg_idx := Some (concat_str (block_entries bs)) |}) as -> by (by rewrite Hf).
  cbn [sg_seg sg_idx default]. unfold id. pose proof (sk_in_range _ _ Hs) as Hin. rewrite <- Hbs in Hin.
  destruct (open_index bs Hin) as [_ Hsum]. cbv zeta in Hsum. rewrite Hsum. unfold recover_segment. rewrite Hparse.
  destruct rs1 as [|r rs1].
  - unfold bind at 1. destruct (remove_file k p (first_seq s) true t) as [[] t1] eqn:H1. unfold bind at 1.
    destruct (remove_file k p (first_seq s) false t1) as [[] t2] eqn:H2. exists None, t2, rs2. split_and!; try done.
    { pose proof (loads_remove (first_seq s) true t) as L1. pose proof (loads_remove (first_seq s) false t1) as L2.
      rewrite H1 in L1. rewrite H2 in L2. by etrans. }
    pose proof (remove_both k p (first_seq s) t Hq) as Hrm. rewrite H1 in Hrm. cbn [snd] in Hrm. rewrite H2 in Hrm. cbn [snd] in Hrm. rewrite Hrm.
    split; [done|]. by rewrite lookup_delete_eq.
  - set (rs0 := r :: rs1) in *. pose proof (sk_seqs _ _ Hs) as Hq1. apply Forall_app in Hq1 as [Hseqs _].
    pose proof (len_nonneg torn) as Htorn.
    assert (len (frames_text rs0) <= len bytes) as Hle by (rewrite Hbytes, len_app; lia).
    assert (slice_to (Z.to_nat (len (frames_text rs0))) bytes = frames_text rs0) as Hslice.
    { rewrite Hbytes. unfold len. rewrite Nat2Z.id. apply slice_at. }
    destruct (cut_ok (first_seq s) bytes (len (frames_text rs0)) _ t Hq Hf eq_refl Hle) as (Hr1 & L1 & F1).
    unfold try_bind at 1, bind at 1. match type of Hr1 with fst ?x = _ => destruct x as [x1 t1] end. cbn [fst snd] in *. subst x1. rewrite Hslice in F1.
    pose proof (ld_quiet _ _ _ L1 Hq) as Hq'. unfold try_bind at 1, bind at 1. rewrite quiet_write by done.
    unfold try_bind at 1, bind at 1. rewrite quiet_sys by done. unfold bind at 1.
    rewrite (recovered_index _ _ _ 0 0).
    set (idx := concat_str (block_entries ((fun b => (b, 0)) <$> blocks (recovered_segment (first_seq s) rs0 (len (frames_text rs0)) 0)))
                +:+ summary_entry (recovered_segment (first_seq s) rs0 (len (frames_text rs0)) 0)).
    destruct (modify_file k p (first_seq s) (with_idx (Some idx)) t1) as [[] t2] eqn:H2.
    pose proof (file_modify k p (first_seq s) (with_idx (Some idx)) t1) as Lf. rewrite H2 in Lf. cbn [snd] in Lf. apply local_inv in Lf as (_ & F2 & _).
    exists (Some (recovered_segment (first_seq s) rs0 (len (frames_text rs0)) (len idx))), t2, rs2. split_and!; try done.
    + etrans; [exact L1|]. pose proof (loads_modify_file (first_seq s) (with_idx (Some idx)) t1) as L2. by rewrite H2 in L2.
    + pose proof (sk_range _ _ Hs) as Hrg. pose proof (sk_sorted _ _ Hs) as Hsort.
      assert (StronglySorted (fun a b => r_seq a < r_seq b) rs0) as Hsort0.
      { clear -Hsort. induction rs0 as [|a l IH]; [constructor|]. cbn in Hsort. apply StronglySorted_inv in Hsort as [Hsort Ha].
        apply Forall_app in Ha as [Ha _]. constructor; [by apply IH|done]. }
      destruct (recovered_ok (first_seq s) rs0 (len idx) Hwf Hsort0 ltac:(done)) as [Hseg Hlast]; [|lia| |apply len_nonneg|].
      { eapply Forall_impl; [exact Hseqs|]. cbn. lia. }
      { pose proof (sk_small _ _ Hs) as Hsm. rewrite (sk_bytes _ _ Hs), frames_text_app, len_app in Hsm. pose proof (len_nonneg (frames_text rs2)). lia. }
      split_and!; [|done|done|].
      * split; [done|]. exists (frames_text rs0), ((fun b => (b, 0)) <$> rebuild rs0). cbn [first_seq recovered_segment closed blocks].
        rewrite F2, lookup_alter_eq, F1, str_app_nil_r, <- list_fmap_compose. split_and!; [done..|]. apply list_fmap_id.
      * rewrite Forall_forall in Hseqs. destruct (exists_last (l := rs0) ltac:(done)) as (l & a & He).
        cbn [last_seq recovered_segment]. rewrite He, fold_left_app. cbn [fold_left]. apply Hseqs. rewrite He. apply elem_of_app. right. apply list_elem_of_here.
Qed.

(** ** Loading a producer *)

(** The segments of a crashed store: a closed one is all on disk. *)
Definition left_by (files : Dir) (s : Segment) (rs : list Rec) : Prop := exists b, held files b s rs /\ (closed s = true -> b = "").

Definition disk_records (files : Dir) (l : list Segment) : list RawRecord := concat ((fun s => raws p s (disk_frames files s)) <$> l).

Lemma load_left s rs t : quiet t -> left_by (files_of k p t) s rs ->
  exists o t', load_segment k p (first_seq s) t = (Ok o, t') /\ loads (first_seq s) t t'
    /\ reloaded (files_of k p t') s (disk_frames (files_of k p t) s) o.
Proof.
  intros Hq (b & Hh & Hb). destruct (closed s) eqn:Hc.
  - rewrite (Hb eq_refl) in Hh. destruct (load_closed s rs t Hc Hh) as (s' & Hl & Hr). exists (Some s'), t. split; [done|]. split; [reflexivity|].
    assert (disk_frames (files_of k p t) s = rs) as ->; [|done]. destruct Hh as [Hs (bytes & bs & Hf & Hbb & _)]. unfold disk_frames. rewrite Hf. cbn.
    rewrite str_app_nil_r in Hbb. rewrite Hbb, parse_frames_text; [done|]. apply (sk_wf _ _ Hs).
  - destruct (load_open b s rs t Hq Hc Hh) as (o & t' & rs2 & H1 & H2 & _ & H4). eauto.
Qed.

Lemma left_files files files' s rs : files' !! first_seq s = files !! first_seq s -> left_by files s rs -> left_by files' s rs.
Proof. intros He (b & Hh & Hb). exists b. split; [|done]. by eapply held_files. Qed.

Lemma left_range files s rs : left_by files s rs -> first_seq s <= last_seq s.
Proof. intros (b & [Hs _] & _). pose proof (sk_range _ _ Hs). lia. Qed.

Lemma load_segments_ok : forall segs rl t acc, quiet t -> Forall2 (left_by (files_of k p t)) segs rl -> ordered segs ->
  exists segs' rl' t', load_segments k p (first_seq <$> segs) acc t = (acc ++ segs', t')
    /\ only k p t t' /\ kind_data k t' = kind_data k t /\ quiet t'
    /\ (forall z, z ∉ first_seq <$> segs -> files_of k p t' !! z = files_of k p t !! z)
    /\ (forall z, z ∈ first_seq <$> segs -> is_Some (files_of k p t' !! z) -> z ∈ first_seq <$> segs')
    /\ Forall2 (fun s rs => closed s = true /\ held (files_of k p t') "" s rs) segs' rl' /\ ordered segs'
    /\ (forall s', s' ∈ segs' -> exists s, s ∈ segs /\ first_seq s' = first_seq s /\ last_seq s' <= last_seq s)
    /\ concat (zip_with (raws p) segs' rl') = disk_records (files_of k p t) segs.
Proof.
  induction segs as [|s segs IH]; intros rl t acc Hq Hl Ho.
  { exists [], [], t. cbn [load_segments fmap list_fmap]. rewrite app_nil_r. split_and!; try done; by intros ? ?%elem_of_nil. }
  apply Forall2_cons_inv_l in Hl as (rs & rl0 & Hs & Hl & ->). apply StronglySorted_inv in Ho as [Ho Hlt].
  destruct (load_left s rs t Hq Hs) as (o & t1 & Ht1 & L1 & Hre). pose proof (ld_quiet _ _ _ L1 Hq) as Hq1.
  assert (Forall (fun a => files_of k p t1 !! first_seq a = files_of k p t !! first_seq a) segs) as Hsame.
  { eapply Forall_impl; [exact Hlt|]. cbn. intros a Ha. apply (ld_files _ _ _ L1). pose proof (left_range _ _ _ Hs). lia. }
  assert (Forall2 (left_by (files_of k p t1)) segs rl0) as Hl1.
  { clear -Hl Hsame. induction Hl as [|a ra segs rl0 Ha _ IH]; [constructor|]. apply Forall_cons in Hsame as [H1 H2]. constructor; [|by apply IH].
    by eapply left_files. }
  destruct (IH rl0 t1 (match o with Some s' => acc ++ [s'] | None => acc end) Hq1 Hl1 Ho)
    as (segs' & rl' & t2 & Ht2 & O2 & K2 & Hq2 & F2 & G2 & H2 & Ho2 & Hb2 & Hd2).
  assert (disk_records (files_of k p t1) segs = disk_records (files_of k p t) segs) as Hdisk.
  { unfold disk_records. f_equal. apply list_fmap_ext. intros i a Ha. unfold disk_frames. rewrite Forall_lookup in Hsame. by rewrite (Hsame i a Ha). }
  assert (first_seq s ∉ first_seq <$> segs) as Hni.
  { intros (a & He & Ha)%list_elem_of_fmap. rewrite Forall_forall in Hlt. specialize (Hlt a Ha). pose proof (left_range _ _ _ Hs). lia. }
  cbn [fmap list_fmap load_segments]. unfold bind. rewrite Ht1.
  assert (only k p t t2) as O by (by etrans; [apply (ld_only _ _ _ L1)|]).
  assert (kind_data k t2 = kind_data k t) as K by (rewrite K2; apply (ld_kind _ _ _ L1)).
  assert (forall z, z ∉ first_seq s :: (first_seq <$> segs) -> files_of k p t2 !! z = files_of k p t !! z) as F.
  { intros z [Hz Hz']%not_elem_of_cons. rewrite F2 by done. by apply (ld_files _ _ _ L1). }
  assert (forall s', s' ∈ segs' -> exists a, a ∈ s :: segs /\ first_seq s' = first_seq a /\ last_seq s' <= last_seq a) as Hb.
  { intros s' Hs'. destruct (Hb2 s' Hs') as (a & Ha & H). exists a. split; [by apply list_elem_of_further|done]. }
  unfold disk_records in *. cbn [fmap list_fmap concat]. destruct o as [s'|]; cbn [reloaded] in Hre.
  - destruct Hre as (Hh & Hc & Hf & Hla). exists (s' :: segs'), (disk_frames (files_of k p t) s :: rl'), t2. rewrite Ht2, <- app_assoc.
    split_and!; try done.
    + intros z [->|Hz]%elem_of_cons Hsome; [cbn; rewrite Hf; apply list_elem_of_here|]. cbn. apply list_elem_of_further. by apply G2.
    + constructor; [|done]. split; [done|]. eapply held_files; [|exact Hh]. rewrite Hf. by apply F2.
    + constructor; [done|]. apply Forall_forall. intros a Ha. destruct (Hb2 a Ha) as (b & Hb' & -> & _). rewrite Forall_forall in Hlt.
      specialize (Hlt b Hb'). lia.
    + intros a [->|Ha]%elem_of_cons; [|by apply Hb]. exists s. split; [apply list_elem_of_here|done].
    + cbn [zip_with concat]. rewrite Hd2, Hdisk. f_equal. unfold raws, raw. by rewrite Hf.
  - destruct Hre as [Hre Hgone]. exists segs', rl', t2. rewrite Ht2. split_and!; try done; [|rewrite Hd2, Hdisk, Hre; done].
    intros z [->|Hz]%elem_of_cons Hsome; [|by apply G2]. rewrite F2, Hgone in Hsome by done. by destruct Hsome.
Qed.

End load.

(** ** Loading a kind *)

Lemma chain_closed files l rl : Forall2 (fun s rs => closed s = true /\ held files "" s rs) l rl -> ordered l -> l <> [] -> chain files None l rl.
Proof.
  intros Hl Ho Hne. destruct (exists_last Hne) as (init & s & ->). apply Forall2_app_inv_l in Hl as (rinit & rs & Hi & Hs & ->).
  apply Forall2_cons_inv_l in Hs as (r0 & ? & [Hc Hh] & Hnil & ->). apply Forall2_nil_inv_l in Hnil as ->.
  exists init, rinit, s, r0. by split_and!.
Qed.

Lemma parse_producer_name name p : parse_producer name = Some p -> wf_producer p /\ dir_name p = name.
Proof.
  unfold parse_producer. destruct (String.eqb_spec name "system") as [->|_]; [by intros [= <-]|].
  destruct (String.eqb_spec name "otlp:unattributed") as [->|Hne]; [by intros [= <-]|].
  destruct (strip_prefix "project:" name) as [id|] eqn:Hp.
  - destruct (valid_id id) eqn:Hv; [|done]. intros [= <-]. split; [done|]. by apply strip_prefix_Some in Hp.
  - destruct (strip_prefix "otlp:" name) as [id|] eqn:Ho; [|done]. destruct (valid_id id) eqn:Hv; [|done]. intros [= <-].
    apply strip_prefix_Some in Ho. split; [|done]. split; [done|]. intros ->. apply Hne. rewrite Ho. done.
Qed.

Lemma sorted_firsts l : ordered l -> Forall (fun s => first_seq s <= last_seq s) l -> StronglySorted Z.lt (first_seq <$> l).
Proof.
  unfold ordered. induction 1 as [|s l _ IH Hs]; intros Hr; cbn; constructor.
  - apply IH. by apply Forall_cons in Hr as [_ ?].
  - apply Forall_cons in Hr as [Hr _]. apply Forall_fmap. eapply Forall_impl; [exact Hs|]. cbn. lia.
Qed.

Lemma strictly_sorted_eq (l1 l2 : list Z) : StronglySorted Z.lt l1 -> StronglySorted Z.lt l2 -> (forall z, z ∈ l1 <-> z ∈ l2) -> l1 = l2.
Proof.
  intros H1. revert l2. induction H1 as [|a l1 H1 IH Ha]; intros l2 H2 Hz.
  - destruct l2 as [|b l2]; [done|]. specialize (Hz b). set_solver.
  - destruct H2 as [|b l2 H2 Hb]; [specialize (Hz a); set_solver|]. rewrite Forall_forall in Ha, Hb.
    assert (a = b) as ->.
    { assert (a ∈ b :: l2) as H by (apply Hz, list_elem_of_here). assert (b ∈ a :: l1) as H' by (apply Hz, list_elem_of_here).
      apply elem_of_cons in H as [->|H]; [done|]. apply elem_of_cons in H' as [->|H']; [done|]. specialize (Ha b H'). specialize (Hb a H). lia. }
    f_equal. apply IH; [done|]. intros z. specialize (Hz z). rewrite !elem_of_cons in Hz. split; intros H.
    + destruct (proj1 Hz (or_intror H)) as [->|]; [|done]. specialize (Ha b H). lia.
    + destruct (proj2 Hz (or_intror H)) as [->|]; [|done]. specialize (Hb b H). lia.
Qed.

Lemma nodup_ordered_strict (l : list Z) : NoDup l -> StronglySorted (fun a b => a <= b) l -> StronglySorted Z.lt l.
Proof.
  intros Hnd Hs. induction Hs as [|a l _ IH Ha]; constructor; apply NoDup_cons in Hnd as [Hni Hnd]; [by apply IH|].
  rewrite Forall_forall in *. intros b Hb. specialize (Ha b Hb). assert (a <> b) by (intros ->; done). lia.
Qed.

Lemma nodup_fst_filter {A B} (f : A * B -> bool) m : NoDup (fst <$> m) -> NoDup (fst <$> List.filter f m).
Proof.
  induction m as [|e m IH]; cbn; [done|]. intros [Hni Hnd]%NoDup_cons. destruct (f e); cbn; [|by apply IH]. constructor; [|by apply IH].
  intros (e' & He & Hin%list_elem_of_In)%list_elem_of_fmap. apply filter_In in Hin as [Hin%list_elem_of_In _]. apply Hni. rewrite He. by apply list_elem_of_fmap_2.
Qed.

Lemma firsts_of_ok files l rl : lists files l -> Forall2 (left_by files) l rl -> ordered l -> firsts_of files = first_seq <$> l.
Proof.
  intros Hd Hl Ho. unfold firsts_of. set (keys := fst <$> _).
  assert (forall z, z ∈ keys <-> z ∈ first_seq <$> l) as Hkeys.
  { intros z. unfold keys. rewrite list_elem_of_fmap. split.
    - intros ([z' f] & -> & Hin%list_elem_of_In). apply filter_In in Hin as [Hin%list_elem_of_In _]. apply elem_of_map_to_list in Hin. cbn.
      apply Hd. by rewrite Hin.
    - intros Hz. destruct (proj2 (Hd z) Hz) as [f Hf]. exists (z, f). split; [done|]. apply list_elem_of_In, filter_In. split.
      + by apply list_elem_of_In, elem_of_map_to_list.
      + apply list_elem_of_fmap in Hz as (s & -> & Hs). apply list_elem_of_lookup in Hs as [i Hi].
        destruct (Forall2_lookup_l _ _ _ _ _ Hl Hi) as (rs & _ & b & [_ (bytes & bs & Hf' & _)] & _). rewrite Hf in Hf'. by injection Hf' as ->. }
  assert (NoDup keys) as Hnd.
  { apply nodup_fst_filter, NoDup_fst_map_to_list. }
  apply strictly_sorted_eq.
  - apply nodup_ordered_strict; [by rewrite order_asc_perm|]. pose proof (order_asc_ordered (fun z : Z => z) keys) as Hor. exact Hor.
  - apply sorted_firsts; [done|]. clear -Hl. induction Hl as [|s rs l rl Hs _ IH]; constructor; [by eapply left_range|done].
  - intros z. rewrite order_asc_perm. apply Hkeys.
Qed.

Lemma fold_next (l : list Segment) : forall n, n <= fold_left (fun n s => Z.max n (last_seq s + 1)) l n
  /\ Forall (fun s => last_seq s < fold_left (fun n s => Z.max n (last_seq s + 1)) l n) l.
Proof.
  induction l as [|s l IH]; intros n; cbn; [split; [lia|constructor]|]. destruct (IH (Z.max n (last_seq s + 1))) as [H1 H2].
  split; [lia|]. constructor; [lia|done].
Qed.

Section load_kind.
Context (k : Kind) (segs : Producer -> list Segment).

(** What a crash left of [p]. *)
Definition crashed (p : Producer) (t : Tel) : Prop :=
  lists (files_of k p t) (segs p) /\ ordered (segs p) /\ exists rl, Forall2 (left_by (files_of k p t)) (segs p) rl.

(** One directory. *)
Definition load_name (name : string) : st Tel unit :=
  match parse_producer name with
  | None => ret tt
  | Some p =>
      let! firsts := asks (fun t => firsts_of (files_of k p t)) in
      let! segments := load_segments k p firsts [] in
      if bool_decide (segments = []) then ret tt
      else modify_kind k (fun kd =>
             {| kd_next_seq := fold_left (fun n s => Z.max n (last_seq s + 1)) segments (kd_next_seq kd);
                kd_producers := pset p {| pd_segments := segments; pd_open := None |} (kd_producers kd);
                kd_counters := kd_counters kd; kd_evicted := kd_evicted kd |})
  end.

Lemma load_producers_cons name rest t : load_producers k (name :: rest) t = load_producers k rest (load_name name t).2.
Proof. cbn [load_producers]. fold (load_name name). unfold bind. by destruct (load_name name t) as [[] t1]. Qed.

Lemma load_name_ok name p t : quiet t -> parse_producer name = Some p -> crashed p t -> producer_data k p t = None ->
  let t' := (load_name name t).2 in
  only k p t t' /\ quiet t' /\ next_of k t <= next_of k t' /\ recs k p t' (disk_records p (files_of k p t) (segs p))
  /\ lists (files_of k p t') (segments k p t').
Proof.
  intros Hq Hp (Hls & Ho & rl & Hl) Hnone t'. assert (snd (load_name name t) = t') as Ht' by done. clearbody t'. unfold load_name in Ht'. rewrite Hp in Ht'. unfold bind at 1, asks in Ht'.
  rewrite (firsts_of_ok _ _ _ Hls Hl Ho) in Ht'. destruct (load_segments_ok k p (segs p) rl t [] Hq Hl Ho)
    as (segs' & rl' & t1 & Ht1 & O1 & K1 & Hq1 & F1 & G1 & H1 & Ho1 & Hb1 & Hd1). cbn [app] in Ht1. unfold bind in Ht'. rewrite Ht1 in Ht'. rewrite <- Hd1.
  assert (producer_data k p t1 = None) as Hn1 by (unfold producer_data; rewrite K1; exact Hnone).
  assert (lists (files_of k p t1) segs') as Hdom.
  { intros z. split.
    - intros Hz. destruct (decide (z ∈ first_seq <$> segs p)) as [Hin|Hni]; [by apply G1|]. rewrite F1 in Hz by done. by apply Hls in Hz.
    - intros (s & -> & Hs)%list_elem_of_fmap. apply list_elem_of_lookup in Hs as [i Hi].
      destruct (Forall2_lookup_l _ _ _ _ _ H1 Hi) as (rs & _ & _ & _ & bytes & bs & Hf & _). by rewrite Hf. }
  destruct (bool_decide (segs' = [])) eqn:He; [apply bool_decide_eq_true in He|apply bool_decide_eq_false in He].
  - subst segs'. cbn [ret snd] in Ht'. subst t'. split_and!; try done; [unfold next_of; by rewrite K1|unfold recs; by rewrite Hn1|]. unfold segments. by rewrite Hn1.
  - match type of Ht' with context [modify_kind k ?f t1] => set (g := f) in Ht' end. subst t'.
    pose proof (kind_data_modify k g t1 k) as Hkd. rewrite decide_True in Hkd by done. unfold g in Hkd at 2. cbn beta in Hkd.
    destruct (fold_next segs' (kd_next_seq (kind_data k t1))) as [Hn Hlt].
    assert (only k p t1 (modify_kind k g t1).2) as O2.
    { apply only_modify_kind; unfold g; intros kd.
      - intros q Hne. cbn [kd_producers]. by rewrite pget_pset, decide_False.
      - intros Hs. by apply binsert_sorted.
      - intros Hs. by apply binsert_Forall. }
    assert (producer_data k p (modify_kind k g t1).2 = Some {| pd_segments := segs'; pd_open := None |}) as Hpd.
    { unfold producer_data. rewrite Hkd. cbn [kd_producers]. by rewrite pget_pset, decide_True. }
    split_and!; [by etrans|done| | |unfold segments; by rewrite Hpd].
    + unfold next_of. rewrite Hkd. cbn [kd_next_seq]. rewrite K1 in *. lia.
    + unfold recs. rewrite Hpd. exists rl'. split_and!; [by apply chain_closed| |done]. unfold next_of. rewrite Hkd. cbn [kd_next_seq]. done.
Qed.

(** The directories [names] are still to be loaded, the others are. *)
Record loading (names : list string) (t0 t : Tel) : Prop := {
  lo_quiet : quiet t;
  lo_elsewhere : elsewhere k t0 t /\ (sorted_dirs t0 -> sorted_dirs t) /\ (is_Some (tl_root t0) <-> is_Some (tl_root t)) /\ s_segment_max_bytes (tl_store t) = s_segment_max_bytes (tl_store t0);
  lo_sorted : bsorted (kd_producers (kind_data k t)) /\ Forall (fun e => e.1 = order_key e.2.1) (kd_producers (kind_data k t));
  lo_next : 1 <= next_of k t;
  lo_wf p : is_Some (producer_data k p t) -> wf_producer p;
  lo_todo p : wf_producer p -> dir_name p ∈ names -> producer_data k p t = None /\ files_of k p t = files_of k p t0;
  lo_done p : wf_producer p -> dir_name p ∉ names -> recs k p t (disk_records p (files_of k p t0) (segs p))
    /\ lists (files_of k p t) (segments k p t)
}.

Lemma load_names_ok t0 : (forall p, wf_producer p -> crashed p t0) -> forall names t, NoDup names -> loading names t0 t ->
  loading [] t0 (load_producers k names t).2.
Proof.
  intros Hcr. induction names as [|name names IH]; intros t Hnd Hlo; [done|]. apply NoDup_cons in Hnd as [Hni Hnd].
  rewrite load_producers_cons. apply IH; [done|]. clear IH. destruct Hlo as [Hq (He & Hsd & Hr & Hm) [Hs Hk] Hn Hwf Htodo Hdone].
  destruct (parse_producer name) as [p|] eqn:Hp.
  - destruct (parse_producer_name _ _ Hp) as [Hpwf Hdir]. destruct (Htodo p Hpwf) as [Hnone Hfiles]; [rewrite Hdir; apply list_elem_of_here|].
    assert (crashed p t) as Hcp by (unfold crashed; rewrite Hfiles; by apply Hcr).
    destruct (load_name_ok name p t Hq Hp Hcp Hnone) as (O & Hq' & Hn' & Hrec & Hdom). set (t' := (load_name name t).2) in *. rewrite Hfiles in Hrec.
    assert (forall q, wf_producer q -> q <> p -> producer_data k q t' = producer_data k q t /\ files_of k q t' = files_of k q t) as Hother.
    { intros q Hq1 Hne. split; [by apply (on_producer _ _ _ _ O)|by apply (on_files _ _ _ _ O)]. }
    split; [done| | |lia| | |].
    + destruct (on_config _ _ _ _ O) as (Hc1 & Hc2 & Hc3). split_and!; [|intros H; by apply (on_sorted_dirs _ _ _ _ O), Hsd|rewrite Hr; apply (on_root _ _ _ _ O)|congruence].
      etrans; [exact He|]. split_and!; [done..|]. intros k' Hk'. split; [by apply (on_kind _ _ _ _ O)|]. intros q. by apply (on_dirs _ _ _ _ O).
    + split; [by apply (on_sorted _ _ _ _ O)|by apply (on_keys _ _ _ _ O)].
    + intros q. destruct (decide (q = p)) as [->|Hne]; [done|]. rewrite (on_producer _ _ _ _ O) by done. apply Hwf.
    + intros q Hq1 Hin. assert (q <> p) as Hne by (intros ->; rewrite Hdir in Hin; done). destruct (Hother q Hq1 Hne) as [-> ->].
      apply Htodo; [done|]. by apply list_elem_of_further.
    + intros q Hq1 Hin. destruct (decide (q = p)) as [->|Hne]; [done|]. destruct (Hother q Hq1 Hne) as [Hd Hf].
      destruct (Hdone q Hq1) as [H1 H2]; [apply not_elem_of_cons; split; [intros Heq; apply Hne; apply dir_name_inj; congruence|done]|].
      rewrite Hf. split; [by eapply recs_same|]. unfold segments. by rewrite Hd.
  - assert ((load_name name t).2 = t) as -> by (unfold load_name; by rewrite Hp). split; try done.
    + intros q Hq1 Hin. apply Htodo; [done|]. by apply list_elem_of_further.
    + intros q Hq1 Hin. apply Hdone; [done|]. apply not_elem_of_cons. split; [|done]. intros <-. by rewrite (dir_name_parse q Hq1) in Hp.
Qed.

End load_kind.

(** ** The whole store *)

(** Every file is of a segment in memory. *)
Definition tidy (t : Tel) : Prop :=
  sorted_dirs t /\ forall k p, wf_producer p -> lists (files_of k p t) (segments k p t).

(** The records of [p] whose frames are whole on disk. *)
Definition on_disk (k : Kind) (p : Producer) (t : Tel) : list RawRecord := disk_records p (files_of k p t) (segments k p t).

Lemma load_kind_ok k segs t : quiet t -> kind_data k t = default_kind -> is_Some (tl_root t) -> sorted_dirs t ->
  (forall p, wf_producer p -> crashed k segs p t) ->
  exists t', load_kind k t = (Ok tt, t') /\ loading k segs [] t t'.
Proof.
  intros Hq Hk [r Hr] Hsd Hcr. unfold load_kind, try_bind, bind at 1. rewrite quiet_sys by done. unfold bind at 1.
  match goal with |- context [modify_kind k ?f t] => pose proof (kind_data_modify k f t k) as Hkd; destruct (modify_kind k f t) as [[] t1] eqn:Ht1 end.
  rewrite decide_True, Hk in Hkd by done. cbn [snd] in Hkd. unfold bind at 1, asks.
  assert (tl_root t1 = Some r) as Hr1 by (injection Ht1 as <-; done). rewrite Hr1. unfold bind.
  assert (forall q, files_of k q t1 = files_of k q t) as Hf1 by (intros q; unfold files_of; by rewrite Hr1, Hr).
  assert (forall q, producer_data k q t1 = None) as Hp1 by (intros q; unfold producer_data; by rewrite Hkd).
  assert (loading k segs (bkeys (ro_kinds r k)) t t1) as Hlo.
  { split.
    - by injection Ht1 as <-.
    - split_and!; [|unfold sorted_dirs; by rewrite Hr1, Hr in *|by rewrite Hr1, Hr|by injection Ht1 as <-].
      split_and!; [by injection Ht1 as <-..|]. intros k' Hne. split; [|intros q; unfold files_of; by rewrite Hr1, Hr].
      injection Ht1 as <-. unfold kind_data. cbn. by rewrite kset_ne.
    - rewrite Hkd. split; [constructor|done].
    - unfold next_of. rewrite Hkd. done.
    - intros p. rewrite Hp1. by intros [].
    - intros p Hp _. by rewrite Hp1, Hf1.
    - intros p Hp Hni. assert (files_of k p t = ∅) as He.
      { unfold files_of, dir_of. rewrite Hr. apply bget_None in Hni. by rewrite Hni. }
      destruct (Hcr p Hp) as (Hls & _ & _). rewrite Hf1. unfold segments, recs. rewrite Hp1, He.
      assert (segs p = []) as ->; [|by split; [|intros z; rewrite lookup_empty; split; [by intros []|by intros ?%elem_of_nil]]].
      destruct (segs p) as [|s l] eqn:Hs; [done|]. destruct (proj2 (Hls (first_seq s))) as [f Hf]; [rewrite ?Hs; apply list_elem_of_here|].
      by rewrite He in Hf. }
  pose proof (load_names_ok k segs t Hcr _ t1 (bsorted_NoDup _ (Hsd r Hr k)) Hlo) as Hdone.
  destruct (load_producers k (bkeys (ro_kinds r k)) t1) as [[] t2]. by exists t2.
Qed.

Lemma crashed_same k segs p t t' : files_of k p t' = files_of k p t -> crashed k segs p t -> crashed k segs p t'.
Proof. unfold crashed. by intros ->. Qed.

(** What loading the kinds [l] makes of them. *)
Definition loaded (segs : Kind -> Producer -> list Segment) (l : list Kind) (t t' : Tel) : Prop :=
  quiet t' /\ sorted_dirs t' /\ is_Some (tl_root t') /\ s_segment_max_bytes (tl_store t') = s_segment_max_bytes (tl_store t)
  /\ s_retention (tl_store t') = s_retention (tl_store t)
  /\ (forall k, k ∉ l -> same_kind k t t')
  /\ forall k, k ∈ l -> entries_ok (kd_producers (kind_data k t')) /\ 1 <= next_of k t' /\ (forall p, is_Some (producer_data k p t') -> wf_producer p)
       /\ forall p, wf_producer p -> recs k p t' (disk_records p (files_of k p t) (segs k p)) /\ lists (files_of k p t') (segments k p t').

Lemma load_kinds_ok segs l : NoDup l -> forall t, quiet t -> (forall k, k ∈ l -> kind_data k t = default_kind) -> is_Some (tl_root t) -> sorted_dirs t ->
  (forall k p, k ∈ l -> wf_producer p -> crashed k (segs k) p t) ->
  exists t', load_kinds l t = (Ok tt, t') /\ loaded segs l t t'.
Proof.
  induction 1 as [|k l Hni Hnd IH]; intros t Hq Hk Hr Hsd Hcr; cbn [load_kinds].
  { exists t. split; [done|]. split_and!; try done. by intros k ?%elem_of_nil. }
  destruct (load_kind_ok k (segs k) t Hq (Hk k (list_elem_of_here _ _)) Hr Hsd) as (t1 & Ht1 & [Hq1 (He1 & Hsd1 & Hr1 & Hm1) Hs1 Hn1 Hwf1 _ Hd1]).
  { intros p Hp. apply Hcr; [apply list_elem_of_here|done]. }
  unfold try_bind, bind. rewrite Ht1. destruct He1 as (Hret & Hage & Helse).
  destruct (IH t1 Hq1) as (t2 & Ht2 & (Hq2 & Hsd2 & Hr2 & Hm2 & Hret2 & Hout2 & Hin2)).
  - intros k' Hin. destruct (Helse k') as [-> _]; [intros ->; done|]. apply Hk. by apply list_elem_of_further.
  - by apply Hr1.
  - by apply Hsd1.
  - intros k' p Hin Hp. destruct (Helse k') as [_ Hf]; [intros ->; done|]. eapply crashed_same; [apply Hf|]. apply Hcr; [by apply list_elem_of_further|done].
  - exists t2. split; [done|]. split_and!; try done; try congruence.
    + intros k' [Hne Hn']%not_elem_of_cons. destruct (Hout2 k' Hn') as (R2 & K2 & F2). destruct (Helse k' Hne) as [K1 F1].
      split_and!; [congruence..|]. intros q. by rewrite F2.
    + intros k' [->|Hin]%elem_of_cons.
      * destruct (Hout2 k Hni) as (_ & K2 & F2). unfold next_of, producer_data, segments. rewrite K2. split_and!; [done..|].
        intros p Hp. destruct (Hd1 p Hp) as [H1 H2]; [by intros ?%elem_of_nil|]. rewrite F2. split; [|unfold segments, producer_data in *; by rewrite K2].
        eapply recs_same; [unfold producer_data; by rewrite K2|done|unfold next_of; by rewrite K2|done].
      * destruct (Helse k') as [_ Hf]; [intros ->; done|]. destruct (Hin2 k' Hin) as (H1 & H2 & H3 & H4). split_and!; [done..|].
        intros p Hp. rewrite <- Hf. by apply H4.
Qed.

Lemma disk_prefix files b s rs : held files b s rs -> exists rs2, rs = disk_frames files s ++ rs2 /\ (b = "" -> rs2 = []).
Proof.
  intros [Hs (bytes & bs & Hf & Hb & _)]. pose proof (sk_wf _ _ Hs) as Hwf. unfold disk_frames. rewrite Hf. cbn.
  destruct (frames_prefix rs Hwf bytes b Hb) as (rs1 & rs2 & torn & -> & Hbytes & Ht). apply Forall_app in Hwf as [Hwf1 Hwf2]. exists rs2.
  assert (parse_frames bytes = (rs1, len (frames_text rs1))) as -> by (rewrite Hbytes; by apply parse_frames_torn). split; [done|].
  intros ->. rewrite str_app_nil_r in Hb. assert (parse_frames bytes = (rs1, len (frames_text rs1))) as H1 by (rewrite Hbytes; by apply parse_frames_torn).
  rewrite Hb, parse_frames_text in H1 by (by apply Forall_app). injection H1 as H1 _. apply (f_equal length) in H1.
  rewrite length_app in H1. destruct rs2; [done|]. cbn in H1. lia.
Qed.

(** What is on disk is what is stored, but for the last records of an open
    segment; flushed, it is all of it. *)
Lemma on_disk_prefix k p t : store_ok t -> exists lost, stored_of k p t = on_disk k p t ++ lost /\ (flushed k p t -> lost = []).
Proof.
  intros Hok. pose proof (ok_recs _ Hok k p) as Hr. unfold recs in Hr. unfold on_disk, segments, flushed.
  destruct (producer_data k p t) as [d|]; [|exists []; by rewrite Hr]. destruct Hr as (rl & (init & rinit & s & rs & -> & -> & Hi & _ & Hs & _) & _ & ->).
  rewrite zip_snoc by (by eapply Forall2_length). destruct (disk_prefix _ _ _ _ Hs) as (rs2 & Hrs & Hno). exists (raws p s rs2). split.
  - unfold disk_records. rewrite fmap_app, concat_app. cbn. rewrite app_nil_r, <- app_assoc. f_equal.
    + induction Hi as [|a ra init rinit [_ Ha] _ IH]; cbn; [done|]. rewrite IH. f_equal. destruct (disk_prefix _ _ _ _ Ha) as (r2 & -> & Hn).
      by rewrite (Hn eq_refl), app_nil_r.
    + rewrite Hrs at 1. unfold raws. by rewrite fmap_app.
  - intros Hf. rewrite Hno; [done|]. destruct (pd_open d) as [o|] eqn:Ho; [|done]. by apply (Hf d o).
Qed.

Lemma crashed_tidy k p t : store_ok t -> tidy t -> wf_producer p -> crashed k (fun p => segments k p t) p t.
Proof.
  intros Hok [_ Ht] Hp. split; [by apply Ht|]. pose proof (ok_recs _ Hok k p) as Hr. unfold recs, segments in *.
  destruct (producer_data k p t) as [d|]; [|split; [constructor|by exists []]].
  destruct Hr as (rl & (init & rinit & s & rs & -> & -> & Hi & Hc & Hs & Ho) & _ & _). split; [done|]. exists (rinit ++ [rs]).
  apply Forall2_app; [|constructor; [|done]].
  - eapply Forall2_impl; [exact Hi|]. intros a ra [Hca Ha]. by exists "".
  - eexists. split; [exact Hs|]. rewrite Hc. by destruct (pd_open d).
Qed.

Section restart.
Context {JR : JsonReader} {JW : JsonWriter}.

Lemma default_retention_valid k : retention_valid (default_retention k) = true.
Proof. by destruct k. Qed.

Lemma policies_valid opts r policies : (forall k, retention_valid (so_retention opts k) = true) -> load_policies opts r = Ok policies ->
  forall k, retention_valid (policies k) = true.
Proof.
  intros Ho. unfold load_policies. destruct (ro_retention r) as [[regular bytes]|]; [|by intros [= <-]].
  destruct (regular && (len bytes <=? 4096)); [|done]. cbn. destruct (policies_of bytes) as [l|]; [|done]. cbn.
  destruct (forallb retention_valid l) eqn:Hl; [|done]. intros [= <-] k. unfold retention_of.
  destruct (l !! _) as [x|] eqn:Hx; cbn; [|apply default_retention_valid]. rewrite forallb_forall in Hl. apply Hl. apply list_elem_of_In.
  by eapply list_elem_of_lookup_2.
Qed.

(** The options a store is opened with. *)
Definition options_ok (opts : StoreOptions) : Prop :=
  so_segment_max_bytes opts <= 2 ^ 62 /\ forall k, retention_valid (so_retention opts k) = true.


(** A store whose kinds were all loaded from what [t0] left. *)
Lemma loaded_ok t0 t t' : store_ok t0 -> (forall k p, files_of k p t = files_of k p t0) ->
  s_segment_max_bytes (tl_store t) <= 2 ^ 62 -> (forall k, retention_valid (s_retention (tl_store t) k) = true) ->
  loaded (fun k p => segments k p t0) ALL_KINDS t t' ->
  store_ok t' /\ tidy t' /\ forall k p, stored_of k p t' = on_disk k p t0.
Proof.
  intros Hok Hf Hmax Hpol (Hq & Hsd & Hr & Hm & Hret & _ & Hin).
  assert (forall k : Kind, k ∈ ALL_KINDS) as Hall by (intros []; set_solver).
  assert (forall k p, wf_producer p -> recs k p t' (on_disk k p t0)) as Hrecs.
  { intros k p Hp. destruct (Hin k (Hall k)) as (_ & _ & _ & H). destruct (H p Hp) as [H1 _]. by rewrite Hf in H1. }
  assert (forall k p, stored_of k p t' = on_disk k p t0) as Hst.
  { intros k p. destruct (producer_data k p t') as [d|] eqn:Hd.
    - apply recs_stored, Hrecs. destruct (Hin k (Hall k)) as (_ & _ & H & _). apply H. by rewrite Hd.
    - rewrite stored_of_none by done. unfold on_disk, segments. destruct (producer_data k p t0) as [d0|] eqn:Hd0; [|done].
      pose proof (Hrecs k p (ok_wf _ Hok k p ltac:(by rewrite Hd0))) as Hrp. unfold recs in Hrp. rewrite Hd in Hrp.
      unfold on_disk, segments in Hrp. by rewrite Hd0 in Hrp. }
  split_and!; [|split; [done|]|done].
  - split.
    + done.
    + by destruct Hq.
    + by rewrite Hm.
    + intros k. unfold retention. by rewrite Hret.
    + intros k. by destruct (Hin k (Hall k)) as ([H _] & _).
    + intros k. by destruct (Hin k (Hall k)) as ([_ H] & _).
    + intros k. by destruct (Hin k (Hall k)) as (_ & _ & H & _).
    + intros k p. rewrite Hst. destruct (producer_data k p t') as [d|] eqn:Hd.
      * apply Hrecs. destruct (Hin k (Hall k)) as (_ & _ & H & _). apply H. by rewrite Hd.
      * rewrite <- Hst. unfold recs. rewrite Hd. by apply stored_of_none.
    + intros k. by destruct (Hin k (Hall k)) as (_ & H & _).
    + intros k p q a b. rewrite !Hst. destruct (on_disk_prefix k p t0 Hok) as (l1 & H1 & _), (on_disk_prefix k q t0 Hok) as (l2 & H2 & _).
      intros Ha Hb. apply (ok_apart _ Hok k); [rewrite H1|rewrite H2]; apply elem_of_app; by left.
  - intros k p Hp. destruct (Hin k (Hall k)) as (_ & _ & _ & H). by apply H.
Qed.

Lemma restart_ok opts now t r policies : store_ok t -> tidy t -> quiet t -> options_ok opts -> tl_root t = Some r ->
  store_version r = Some STORE_VERSION -> load_policies opts r = Ok policies ->
  exists t', open opts now t = (Ok tt, t') /\ store_ok t' /\ tidy t' /\ quiet t' /\ forall k p, stored_of k p t' = on_disk k p t.
Proof.
  intros Hok Ht Hq [Hmax Hval] Hr Hv Hp. unfold open, move_aside.
  assert (is_some (ro_store_json r) = true) as Hj by (unfold store_version in Hv; by destruct (ro_store_json r)).
  unfold try_bind at 1, bind at 1. unfold bind at 1, asks. rewrite Hr. unfold try_bind at 1, bind at 1. rewrite quiet_sys by done.
  rewrite bool_decide_true by done. cbn [negb andb]. unfold done at 1, ret at 1. unfold bind at 1, asks. rewrite Hr.
  unfold try_bind at 1, bind at 1, done at 1, ret at 1. unfold try_bind at 1, bind at 1, asks. rewrite Hr, Hp. unfold bind at 1. rewrite Hr, Hj. cbn [negb].
  unfold try_bind at 1, bind at 1, done at 1, ret at 1. unfold bind at 1. unfold bind at 1. cbv beta iota zeta.
  match goal with |- context [modify_root ?f ?s] => destruct (modify_root f s) as [[] t1] eqn:Ht1 end.
  assert (forall k p, files_of k p t1 = files_of k p t) as Hf.
  { intros k p. injection Ht1 as <-. unfold files_of. cbn. by rewrite Hr. }
  destruct (load_kinds_ok (fun k p => segments k p t) ALL_KINDS) with (t := t1) as (t' & Ht' & Hlo).
  - repeat constructor; set_solver.
  - by injection Ht1 as <-.
  - intros k _. by injection Ht1 as <-.
  - injection Ht1 as <-. cbn. by rewrite Hr.
  - destruct Ht as [Hs _]. intros r' Hr' k. injection Ht1 as <-. cbn in Hr'. rewrite Hr in Hr'. injection Hr' as <-. cbn. by apply Hs.
  - intros k p _ Hpw. eapply crashed_same; [apply Hf|]. by apply crashed_tidy.
  - exists t'. split; [done|]. destruct (loaded_ok t t1 t' Hok Hf) as (H1 & H2 & H3).
    + by injection Ht1 as <-.
    + injection Ht1 as <-. cbn. by eapply policies_valid.
    + done.
    + split_and!; try done; apply Hlo.
Qed.

End restart.


(** ** Without faults *)

(** A store that is well, and has no stray file. *)
Definition well (t : Tel) : Prop := store_ok t /\ quiet t /\ tidy t.

Definition tidies (t t' : Tel) : Prop := well t -> well t'.

#[export] Instance tidies_preorder : PreOrder tidies.
Proof. split; unfold tidies; [by intros t|]. intros a b c H1 H2 H. auto. Qed.

Lemma only_quiet k p t t' : only k p t t' -> quiet t -> quiet t'.
Proof. intros H [Hm Hd]. split; [by apply (on_meta _ _ _ _ H)|by apply (on_data _ _ _ _ H)]. Qed.

Lemma only_tidy k p t t' : store_ok t -> tidy t -> wf_producer p -> only k p t t' -> lists (files_of k p t') (segments k p t') -> tidy t'.
Proof.
  intros Hok [Hs Ht] Hp Hon Hl. split; [by apply (on_sorted_dirs _ _ _ _ Hon)|]. intros k' q Hq.
  destruct (decide ((k', q) = (k, p))) as [[= -> ->]|Hne]; [done|]. unfold segments.
  rewrite (others_data Hon k' q Hne), (others_files Hp Hon k' q Hne Hq). by apply Ht.
Qed.

Lemma tidies_steady {A} Q k p (m : st Tel A) : keeps (evolve Q) m -> keeps (only k p) m -> keeps (steady k p) m ->
  (forall t, producer_data k p t = None -> (m t).2 = t) -> keeps tidies m.
Proof.
  intros Hev Hon Hst Hno t (Hok & Hq & Ht). destruct (producer_data k p t) as [d|] eqn:Hd; [|rewrite (Hno t Hd); by split; [|split]].
  pose proof (ok_wf _ Hok k p ltac:(by rewrite Hd)) as Hp. split; [by apply Hev|]. split; [by eapply only_quiet; [apply Hon|]|].
  eapply only_tidy; [exact Hok|exact Ht|exact Hp|apply Hon|]. eapply steady_lists; [apply Hst|]. by apply Ht.
Qed.

Lemma tidies_close k p : keeps tidies (close_open k p).
Proof.
  eapply tidies_steady; [apply evolve_close|apply only_close|apply steady_close|]. intros t Hd. unfold close_open, bind at 1, asks. by rewrite Hd.
Qed.

Lemma tidies_flush k p : keeps tidies (flush_producer k p).
Proof.
  eapply tidies_steady; [apply evolve_flush_producer|apply only_flush_producer|apply steady_flush|].
  intros t Hd. unfold flush_producer, bind at 1, asks. by rewrite Hd.
Qed.

Lemma tidies_delete k p : keeps tidies (delete_oldest k p).
Proof.
  intros t (Hok & Hq & Ht). destruct (producer_data k p t) as [d|] eqn:Hd.
  - pose proof (ok_wf _ Hok k p ltac:(by rewrite Hd)) as Hp. pose proof (delete_evolves k p t Hok ltac:(by rewrite Hd)) as (Hok' & _).
    pose proof (only_delete k p t) as Hon. destruct (delete_ok k p t d Hok Hd) as (s & rest & gone & l' & t' & _ & Ht' & _ & _ & _ & _ & _ & _ & Hl).
    rewrite Ht' in *. cbn [snd] in *. split; [done|]. split; [by eapply only_quiet|]. eapply only_tidy; [exact Hok|exact Ht|exact Hp|exact Hon|].
    apply Hl; [done|apply Ht|]. by apply Ht.
  - assert ((delete_oldest k p t).2 = t) as ->; [|done]. unfold delete_oldest, bind at 1, asks. rewrite Hd. unfold try_bind, bind. cbn. by rewrite Hd.
Qed.

Create HintDb tidies.
#[export] Hint Resolve tidies_close tidies_flush tidies_delete : tidies.

Ltac tidies_steps :=
  repeat match goal with
  | |- keeps _ (ret _) => apply keeps_ret
  | |- keeps _ (asks _) => apply keeps_asks
  | |- keeps _ _ => solve [eauto 2 with tidies]
  | |- keeps _ (mfor _ _) => apply keeps_mfor; intros ?
  | |- keeps _ (Effects.bind _ _) => apply keeps_bind; [|intros ?]
  | |- keeps _ (match ?x with _ => _ end) => destruct x
  end.

Lemma tidies_evict_age fuel k p cutoff : keeps tidies (evict_age fuel k p cutoff).
Proof. induction fuel; cbn [evict_age]; tidies_steps. Qed.

Lemma tidies_evict_round fuel k max : keeps tidies (evict_round fuel k max).
Proof. induction fuel; cbn [evict_round]; tidies_steps. Qed.

#[export] Hint Resolve tidies_evict_age tidies_evict_round : tidies.

Lemma tidies_enforce now : keeps tidies (enforce now).
Proof. unfold enforce, enforce_kind, evict_size. tidies_steps. Qed.

Lemma tidies_flush_all : keeps tidies flush.
Proof. unfold flush. tidies_steps. Qed.

Lemma tidies_close_all : keeps tidies close_all.
Proof. unfold close_all. tidies_steps. Qed.

(** *** Appends *)

Lemma create_file_quiet k p first (b : bool) t : quiet t ->
  is_some (let there := default no_file (files_of k p t !! first) in if b then sg_seg there else sg_idx there) = false ->
  (create_file k p first b t).1 = Ok tt.
Proof.
  intros Hq Hf. unfold create_file, try_bind, bind at 1. rewrite quiet_sys by done. unfold bind at 1, asks. cbv zeta in Hf. by rewrite Hf.
Qed.

Lemma open_segment_quiet k p first now t : quiet t -> is_Some (tl_root t) -> files_of k p t !! first = None ->
  (open_segment k p first now t).1 = Ok tt.
Proof.
  intros Hq Hroot Hf. unfold open_segment, try_bind, bind at 1. destruct (make_dir k p t) as [r1 t1] eqn:H1.
  pose proof (make_dir_cases k p t r1 t1 Hroot H1) as (_ & Hroot1 & L1). pose proof (keeps_eq _ _ _ _ (only_make_dir k p) H1) as O1.
  unfold local in L1. injection L1 as P1 F1 N1.
  assert (r1 = Ok tt) as ->.
  { unfold make_dir, bind at 1, asks in H1. destruct (match tl_root t with Some r => bcontains (dir_name p) (ro_kinds r k) | None => false end); [by injection H1 as <- _|].
    unfold try_bind, bind at 1 in H1. rewrite quiet_sys in H1 by done. by injection H1 as <- _. }
  pose proof (only_quiet _ _ _ _ O1 Hq) as Hq1. unfold bind at 1. destruct (create_file k p first true t1) as [r2 t2] eqn:H2.
  pose proof (create_file_quiet k p first true t1 Hq1) as E2. rewrite F1, Hf, H2 in E2. specialize (E2 eq_refl). cbn [fst] in E2. subst r2.
  pose proof (keeps_eq _ _ _ _ (only_create_file k p first true) H2) as O2. pose proof (only_quiet _ _ _ _ O2 Hq1) as Hq2.
  destruct (create_file_cases k p first true t1 _ t2 Hroot1 H2) as (_ & _ & _ & _ & [[_ F2]|[? _]]); [|done]. rewrite F1, Hf in F2.
  unfold bind at 1. destruct (create_file k p first false t2) as [r3 t3] eqn:H3.
  pose proof (create_file_quiet k p first false t2 Hq2) as E3. rewrite F2, lookup_insert_eq, H3 in E3. specialize (E3 eq_refl). cbn [fst] in E3. subst r3. done.
Qed.

(** The next sequence number has no file yet. *)
Lemma next_free k p t : well t -> wf_producer p -> files_of k p t !! next_of k t = None.
Proof.
  intros (Hok & _ & _ & Ht) Hp. destruct (files_of k p t !! next_of k t) as [f|] eqn:Hf; [|done]. exfalso.
  assert (next_of k t ∈ first_seq <$> segments k p t) as (s & He & Hs)%list_elem_of_fmap by (apply (Ht k p Hp); by rewrite Hf).
  pose proof (ok_recs _ Hok k p) as Hr. unfold recs, segments in *. destruct (producer_data k p t) as [d|]; [|set_solver].
  destruct Hr as (rl & Hch & Hlt & _). apply chain_ranges in Hch. rewrite Forall_forall in Hch, Hlt. specialize (Hch s Hs). specialize (Hlt s Hs). cbn in *. lia.
Qed.

Lemma open_segment_lists k p first now t t' : quiet t -> is_Some (tl_root t) -> files_of k p t !! first = None ->
  open_segment k p first now t = (Ok tt, t') -> lists (files_of k p t) (segments k p t) -> lists (files_of k p t') (segments k p t').
Proof.
  intros Hq Hroot Hf Ho Hl. destruct (open_segment_cases k p _ _ _ _ _ Hroot Ho) as (_ & _ & _ & Hother & [(_ & Hfirst & P)|(? & _)]); [|done].
  assert (segments k p t' = segments k p t ++ [new_segment first]) as -> by (unfold segments; rewrite P; by destruct (producer_data k p t)).
  intros z. rewrite fmap_app, elem_of_app. cbn. rewrite list_elem_of_singleton. destruct (decide (z = first)) as [->|Hz].
  - rewrite Hfirst. split; [by right|by eexists].
  - rewrite Hother by done. rewrite (Hl z). tauto.
Qed.

Lemma try_append_well k p ts tag payload now t x t' : well t -> wf_producer p -> fits ts tag -> next_of k t < u64_max ->
  try_append k p ts tag payload now t = (x, t') -> well t' /\ (frame_len payload - 4 <= MAX_FRAME -> exists n, x = Ok n).
Proof.
  intros Hw Hp Hfits Hnext Hx. pose proof Hw as (Hok & Hq & Ht). pose proof (try_append_ok k p ts tag payload now t x t' Hok Hp Hfits Hnext Hx) as (Hok' & _).
  pose proof (keeps_eq _ _ _ _ (only_try_append k p ts tag payload now) Hx) as Hon.
  enough (lists (files_of k p t') (segments k p t') /\ (frame_len payload - 4 <= MAX_FRAME -> exists n, x = Ok n)) as [Hl Hn].
  { split; [|done]. split; [done|]. split; [by eapply only_quiet|]. exact (only_tidy k p t t' Hok Ht Hp Hon Hl). }
  unfold try_append in Hx. destruct (Z.ltb_spec MAX_FRAME (frame_len payload - 4)) as [|Hlen].
  { apply ret_inv in Hx as [_ ->]. split; [by apply Ht|lia]. }
  unfold bind at 1, asks in Hx.
  assert (exists t1, ((if must_rotate k p (frame_len payload) now t then close_open k p else done tt) : st Tel (outcome unit unit)) t = (Ok tt, t1)
    /\ well t1 /\ next_of k t1 = next_of k t /\ s_segment_max_bytes (tl_store t1) = s_segment_max_bytes (tl_store t)
    /\ forall d o s, producer_data k p t1 = Some d -> pd_open d = Some o -> last (pd_segments d) = Some s ->
         seg_bytes s + frame_len payload <= 2 ^ 62) as (t1 & Ht1 & Hw1 & N1 & M1 & Hsmall).
  { destruct (must_rotate k p (frame_len payload) now t) eqn:Hm.
    - pose proof (tidies_close k p t Hw) as Hw1. destruct (recs_close k p t _ (ok_data _ Hok) (ok_recs _ Hok k p)) as (t1 & Ht1 & _ & _ & N1 & Hno & _).
      pose proof (only_close k p t) as Hon1. rewrite Ht1 in Hw1, Hon1. exists t1. destruct (on_config _ _ _ _ Hon1) as (_ & M1 & _).
      split; [done|]. split; [done|]. split; [done|]. split; [done|]. intros d o s Hd Ho _. by rewrite (Hno d Hd) in Ho.
    - exists t. split; [done|]. split; [done|]. split; [done|]. split; [done|]. intros d o s Hd Ho Hs. unfold must_rotate in Hm. rewrite Hd, Ho, Hs in Hm.
      apply orb_false_iff in Hm as [Hm%Z.ltb_ge _]. pose proof (ok_max _ Hok). lia. }
  unfold try_bind at 1, bind at 1 in Hx. rewrite Ht1 in Hx. unfold bind at 1, asks in Hx. unfold bind at 1, asks in Hx.
  fold (next_of k t1) in Hx. set (r := {| r_seq := next_of k t1; r_ts := ts; r_tag := tag; r_payload := payload |}) in *.
  pose proof Hw1 as (Hok1 & Hq1 & Htd1). pose proof (ok_next _ Hok1 k) as Hn1. destruct Hfits as [Hts Htag].
  assert (wf_rec r) as Hwf by (split_and!; cbn; lia).
  destruct (match producer_data k p t1 with Some d => is_some (pd_open d) | None => false end) eqn:Ho.
  - destruct (producer_data k p t1) as [d|] eqn:Hd; [|done]. destruct (pd_open d) as [o|] eqn:Hop; [|done].
    assert (exists s, last (pd_segments d) = Some s) as [s Hs].
    { pose proof (ok_recs _ Hok1 k p) as Hr1. unfold recs in Hr1. rewrite Hd in Hr1. destruct Hr1 as (rl & (? & ? & s & ? & -> & _) & _). exists s. by rewrite last_snoc. }
    destruct (recs_append k p t1 _ r d o s (ok_data _ Hok1) (ok_recs _ Hok1 k p) Hd Hop Hs Hwf ltac:(done) (Hsmall d o s eq_refl Hop Hs)) as (t2 & Ht2 & _).
    unfold try_bind, bind, done, ret in Hx. rewrite Ht2 in Hx. injection Hx as <- <-. split; [|by eexists].
    pose proof (steady_append k p r t1) as Hst. rewrite Ht2 in Hst. eapply steady_lists; [exact Hst|]. by apply Htd1.
  - pose proof (open_segment_quiet k p (next_of k t1) now t1 Hq1 (ok_root _ Hok1) (next_free k p t1 Hw1 Hp)) as Hopen.
    destruct (open_segment k p (next_of k t1) now t1) as [c t2] eqn:Hc. cbn [fst] in Hopen. subst c.
    destruct (recs_open_append k p t1 _ r now (Ok tt) t2 (ok_data _ Hok1) (ok_root _ Hok1) (ok_recs _ Hok1 k p)) as [(_ & t3 & Ht3 & _)|(? & _)]; try done.
    { intros d Hd. rewrite Hd in Ho. by destruct (pd_open d). }
    unfold try_bind, bind in Hx. rewrite Hc in Hx. fold r in Hx. rewrite Ht3 in Hx. injection Hx as <- <-. split; [|by eexists].
    pose proof (steady_append k p r t2) as Hst. rewrite Ht3 in Hst. eapply steady_lists; [exact Hst|].
    eapply open_segment_lists; [exact Hq1|apply (ok_root _ Hok1)|by apply next_free|exact Hc|]. by apply Htd1.
Qed.

Lemma well_counters k p f t : well t -> wf_producer p -> well (modify_kind k (fun kd => with_counters (f kd) kd) t).2.
Proof.
  intros (Hok & Hq & Ht) Hp. destruct (counted k p f t Hok Hp) as (H1 & _). pose proof (only_counters k p f t) as Hon.
  split; [done|]. split; [by eapply only_quiet|]. eapply only_tidy; [exact Hok|exact Ht|exact Hp|exact Hon|].
  destruct (counters_same k f t) as (Hd & Hf & _). unfold segments. rewrite Hd, Hf. by apply Ht.
Qed.

(** Without faults an append that is not held back and not too large stores
    its record. *)
Lemma append_well k p ts tag payload now t : well t -> wf_producer p -> fits ts tag -> next_of k t < u64_max ->
  let '(a, t') := append k p ts tag payload now t in
  well t' /\ (held_back p t = false -> frame_len payload - 4 <= MAX_FRAME -> a = Stored (next_of k t)).
Proof.
  intros Hw Hp Hfits Hnext. unfold append, bind at 1, asks. cbv beta iota. fold (held_back p t).
  destruct (held_back p t); unfold bind, count_dropped, count_appended; [split; [by apply (well_counters k p)|done]|].
  destruct (try_append k p ts tag payload now t) as [x t1] eqn:Hx. destruct (try_append_well _ _ _ _ _ _ _ _ _ Hw Hp Hfits Hnext Hx) as [Hw1 Hn].
  pose proof Hw as (Hok & _). destruct (try_append_ok _ _ _ _ _ _ _ _ _ Hok Hp Hfits Hnext Hx) as (_ & _ & Ha).
  destruct x as [n|e|]; (split; [by apply (well_counters k p)|]); intros _ Hlen; destruct (Hn Hlen) as [m [= Hm]]. cbn in Ha. by destruct Ha as (-> & _).
Qed.

(** ** Histories *)

Section histories.
Context {JR : JsonReader} {JW : JsonWriter}.

(** A call of the store: a producer's identifier has been checked and a record
    has the types of its fields. *)
Inductive step : Tel -> Tel -> Prop :=
| step_append k p ts tag payload now t : wf_producer p -> fits ts tag -> next_of k t < u64_max -> step t (append k p ts tag payload now t).2
| step_flush t : step t (flush t).2
| step_close_all t : step t (close_all t).2
| step_enforce now t : step t (enforce now t).2
| step_check_disk free t : step t (check_disk free t).2
| step_snapshot k now t : step t (snapshot k now t).2
| step_set_retention k policy t : step t (set_retention k policy t).2.

(** Calls and restarts of a store that began as an empty directory, with no
    file system call failing.  A crash is a restart: opening reads nothing of
    memory. *)
Inductive reach : Tel -> Prop :=
| reach_first opts now t t' : options_ok opts -> quiet t -> tl_root t = None -> open opts now t = (Ok tt, t') -> reach t'
| reach_step t t' : reach t -> step t t' -> reach t'
| reach_restart opts now t t' r policies : reach t -> options_ok opts -> tl_root t = Some r -> store_version r = Some STORE_VERSION ->
    load_policies opts r = Ok policies -> open opts now t = (Ok tt, t') -> reach t'.

Lemma same_well t t' : same_store t t' -> (tl_meta t = [] -> tl_meta t' = []) -> (sorted_dirs t -> sorted_dirs t') -> well t -> well t'.
Proof.
  intros Hs Hm Hd (Hok & [Hq1 Hq2] & Ht1 & Ht2). destruct (same_store_ok _ _ Hs Hok) as [Hok' _]. destruct Hs as (_ & Hf & D & K & _).
  split; [done|]. split; [split; auto|]. split; [auto|]. intros k p Hp. unfold segments, producer_data, kind_data. rewrite Hf, K. by apply Ht2.
Qed.

Lemma step_well t t' : step t t' -> well t -> well t'.
Proof.
  intros [k p ts tag payload now u Hp Hf Hn|u|u|now u|free u|k now u|k policy u] Hw.
  - pose proof (append_well k p ts tag payload now u Hw Hp Hf Hn) as H. destruct (append k p ts tag payload now u). by destruct H.
  - by apply tidies_flush_all.
  - by apply tidies_close_all.
  - by apply tidies_enforce.
  - eapply same_well; [apply check_disk_same|by destruct free as [[]|]..|done].
  - rewrite snapshot_state. by apply tidies_flush_all.
  - destruct (set_retention_same k policy u) as (H1 & H2 & H3). by eapply same_well.
Qed.

(** A first start makes an empty store. *)
Lemma first_well opts now t t' : options_ok opts -> quiet t -> tl_root t = None -> open opts now t = (Ok tt, t') -> well t'.
Proof.
  intros [Hmax Hval] Hq Hr. unfold open, move_aside. unfold try_bind at 1, bind at 1. unfold bind at 1, asks. rewrite Hr.
  unfold done at 1, ret at 1. unfold bind at 1, asks. rewrite Hr. unfold try_bind at 1, bind at 1. unfold try_bind at 1, bind at 1. rewrite quiet_sys by done.
  unfold bind at 1. unfold done at 1, ret at 1. unfold try_bind at 1, bind at 1, asks. cbn [tl_root set_root]. unfold load_policies at 1. cbn [ro_retention empty_root].
  unfold bind at 1. cbn [tl_root set_root ro_store_json empty_root is_some negb]. unfold try_bind at 1, bind at 1. unfold try_bind at 1, bind at 1.
  rewrite quiet_write by done. unfold try_bind at 1, bind at 1. rewrite quiet_sys by done. unfold bind at 1.
  match goal with |- context [modify_root ?f ?s] => destruct (modify_root f s) as [[] t1] eqn:Ht1 end. unfold done at 1, ret at 1.
  unfold bind at 1. unfold bind at 1. cbv beta iota zeta.
  match goal with |- context [modify_root ?f ?s] => destruct (modify_root f s) as [[] t2] eqn:Ht2 end. intros Hload.
  assert (quiet t2 /\ (forall k, kind_data k t2 = default_kind) /\ (forall k p, files_of k p t2 = ∅) /\ sorted_dirs t2 /\ is_Some (tl_root t2)
    /\ s_segment_max_bytes (tl_store t2) = so_segment_max_bytes opts /\ s_retention (tl_store t2) = so_retention opts) as (Q & K & F & S & R & M & P).
  { injection Ht1 as <-. injection Ht2 as <-. split_and!; try done. intros r' Hr' k. injection Hr' as <-. constructor. }
  set (t0 := set_store (with_kinds (fun _ => {| kd_next_seq := 1; kd_producers := []; kd_counters := kd_counters default_kind; kd_evicted := [] |}) (tl_store t2)) t2).
  assert (store_ok t0) as Hok0.
  { split; try done.
    - by destruct Q.
    - change (s_segment_max_bytes (tl_store t2) <= 2 ^ 62). by rewrite M.
    - intros k. unfold retention. change (retention_valid (s_retention (tl_store t2) k) = true). by rewrite P.
    - intros k. constructor.
    - intros k p. by intros [].
    - intros k p q a b. by intros ?%elem_of_nil. }
  destruct (load_kinds_ok (fun k p => segments k p t0) ALL_KINDS ltac:(repeat constructor; set_solver) t2 Q) as (t3 & Ht3 & Hlo); try done.
  { intros k p _ _. split; [|split; [constructor|by exists []]]. rewrite F. intros z. rewrite lookup_empty. split; [by intros []|by intros ?%elem_of_nil]. }
  rewrite Hload in Ht3. injection Ht3 as <-. destruct (loaded_ok t0 t2 t' Hok0) as (H1 & H2 & _); [done|by rewrite M|by rewrite P|done|].
  split; [done|]. split; [apply Hlo|done].
Qed.

Lemma reach_well t : reach t -> well t.
Proof.
  induction 1 as [opts now t t' Ho Hq Hr Hopen|t t' _ IH Hs|opts now t t' r policies _ (Hok & Hq & Ht) Ho Hr Hv Hp Hopen].
  - by eapply first_well.
  - by eapply step_well.
  - destruct (restart_ok opts now t r policies Hok Ht Hq Ho Hr Hv Hp) as (t1 & Ht1 & H1 & H2 & H3 & _). rewrite Hopen in Ht1. injection Ht1 as <-.
    by split; [|split].
Qed.


End histories.
