(* ===== verification/TelemetryLog.v ===== *)
(** * The telemetry store: appends, retention and samples

    What an append and an enforcement do to the records of a kind, sample
    histories, and what the store does not do. *)

From S2P Require Import Prelude RustStr BTree Json Jcs JsonRead PlanCode Calendar Effects Crypto Store ReconcileFacts Telemetry TelemetryFacts.
From S2P Require Import TelemetryOps TelemetryScan TelemetryOpen.

#[local] Arguments parse_frames : simpl never.

(** ** A kind, producer by producer *)

(** The producers but [p]. *)
Definition rest_of (k : Kind) (p : Producer) (t : Tel) : Producers := bremove (order_key p) (kd_producers (kind_data k t)).

Definition stored_rest (k : Kind) (p : Producer) (t : Tel) : list RawRecord := concat ((fun e => stored_of k e.2.1 t) <$> rest_of k p t).

Lemma stored_split k p t : store_ok t -> stored k t ≡ₚ stored_of k p t ++ stored_rest k p t.
Proof.
  intros Hok. unfold stored, stored_rest, rest_of, producers_of. rewrite <- list_fmap_compose. change (compose (fun q => stored_of k q t) (fun e : string * (Producer * ProducerData) => e.2.1))
    with (fun e : string * (Producer * ProducerData) => stored_of k e.2.1 t).
  assert (match bget (order_key p) (kd_producers (kind_data k t)) with Some e => e.1 = p | None => stored_of k p t = [] end) as Hp.
  { destruct (bget (order_key p) (kd_producers (kind_data k t))) as [e|] eqn:Hg; [symmetry; apply order_key_inj; by eapply bget_order_key; [apply (ok_keys _ Hok)|]|].
    apply stored_of_none. unfold producer_data, pget. by rewrite Hg. }
  induction (kd_producers (kind_data k t)) as [|[s e] m IH]; cbn in *; [by rewrite Hp|]. destruct (String.eqb_spec (order_key p) s) as [Heq|Hne].
  - cbn. by rewrite Hp.
  - cbn. rewrite (IH Hp). rewrite !app_assoc. apply Permutation_app_tail. apply Permutation_app_comm.
Qed.

Lemma rest_ne k p t e : store_ok t -> e ∈ rest_of k p t -> e.2.1 <> p /\ producer_data k e.2.1 t = Some e.2.2.
Proof.
  intros Hok He. unfold rest_of in He. destruct e as [s [q d]]. cbn.
  pose proof (bremove_sorted (order_key p) _ (ok_sorted _ Hok k)) as Hs. pose proof (In_bget _ _ _ Hs He) as Hg.
  rewrite bget_remove in Hg by apply (ok_sorted _ Hok). destruct (String.eqb_spec s (order_key p)) as [|Hne]; [done|].
  pose proof (bget_order_key _ _ _ (ok_keys _ Hok k) Hg) as ->. cbn in *. split; [congruence|]. unfold producer_data, pget. by rewrite Hg.
Qed.

(** Another producer's records, after a call on [p]. *)
Lemma rest_same k p t t' : store_ok t -> store_ok t' -> only k p t t' -> untouched k p t t' -> stored_rest k p t' = stored_rest k p t.
Proof.
  intros Hok Hok' Hon Hu. assert (rest_of k p t' = rest_of k p t) as Hr.
  { unfold rest_of. apply bmap_eq; [apply bremove_sorted, ok_sorted; done..|]. intros s. rewrite !bget_remove by (apply ok_sorted; done).
    destruct (String.eqb_spec s (order_key p)) as [|Hne]; [done|].
    assert (forall q, s = order_key q -> snd <$> bget s (kd_producers (kind_data k t')) = snd <$> bget s (kd_producers (kind_data k t))) as Hq.
    { intros q ->. apply (on_producer _ _ _ _ Hon). congruence. }
    destruct (bget s (kd_producers (kind_data k t'))) as [[q' d']|] eqn:E', (bget s (kd_producers (kind_data k t))) as [[q d]|] eqn:E; [| | |done].
    - pose proof (bget_order_key _ _ _ (ok_keys _ Hok' k) E') as H1. pose proof (bget_order_key _ _ _ (ok_keys _ Hok k) E) as H2. cbn in *.
      specialize (Hq q H2). cbn in Hq. assert (q' = q) as -> by (apply order_key_inj; congruence). congruence.
    - by specialize (Hq q' (bget_order_key _ _ _ (ok_keys _ Hok' k) E')).
    - by specialize (Hq q (bget_order_key _ _ _ (ok_keys _ Hok k) E)). }
  unfold stored_rest. rewrite Hr. f_equal. apply list_fmap_ext. intros i e He. apply Hu. apply list_elem_of_lookup_2 in He.
  destruct (rest_ne k p t e Hok He) as [Hne _]. congruence.
Qed.

Lemma only_append k p ts tag payload now : keeps (only k p) (append k p ts tag payload now).
Proof.
  unfold append, count_dropped, count_appended. apply keeps_bind; [apply keeps_asks|]. intros g. destruct (if decide (p = System) then _ else _).
  - apply keeps_bind; [apply only_counters|]. intros. apply keeps_ret.
  - apply keeps_bind; [apply only_try_append|]. intros []; (apply keeps_bind; [apply only_counters|]; intros; apply keeps_ret).
Qed.

(** C16. An append, whatever call on a directory entry fails, adds to its kind
    exactly its record, with the kind's next sequence number, or nothing; the
    other kinds are as they were, memory and disk agree again, and it is
    refused as paused exactly when the disk guard holds its producer back. *)
Theorem append_exact k p ts tag payload now t : store_ok t -> wf_producer p -> fits ts tag -> next_of k t < u64_max ->
  let '(a, t') := append k p ts tag payload now t in
  store_ok t' /\ (forall k', k' <> k -> stored k' t' = stored k' t) /\ (a = Paused <-> held_back p t = true)
  /\ match a with
     | Stored seq => seq = next_of k t /\ next_of k t' = seq + 1 /\ exists seg, stored k t' ≡ₚ
         {| rr_rec := {| r_seq := seq; r_ts := ts; r_tag := tag; r_payload := payload |}; rr_producer := p; rr_segment := seg |} :: stored k t
     | _ => next_of k t' = next_of k t /\ stored k t' ≡ₚ stored k t
     end.
Proof.
  intros Hok Hp Hf Hn. pose proof (append_ok k p ts tag payload now t Hok Hp Hf Hn) as H. pose proof (only_append k p ts tag payload now t) as Hon.
  destruct (append k p ts tag payload now t) as [a t']. destruct H as (Hok' & Hu & Ha & Hpaused). cbn [snd] in Hon.
  pose proof (rest_same k p t t' Hok Hok' Hon Hu) as Hrest. split_and!; [done| |apply Hpaused..|].
  - intros k' Hne. unfold stored, producers_of. rewrite (on_kind _ _ _ _ Hon) by done. f_equal. apply list_fmap_ext. intros i q _. apply Hu. congruence.
  - pose proof (stored_split k p t Hok) as H1. pose proof (stored_split k p t' Hok') as H2. rewrite Hrest in H2.
    destruct a as [seq| |]; cbn [appended] in Ha; [|destruct Ha as [-> Hs]; rewrite Hs in H2; split; [done|]; by rewrite H1, H2..].
    destruct Ha as (-> & Hnext & seg & Hs). split_and!; [done..|]. exists seg. rewrite H1, H2, Hs, <- app_assoc. cbn. by rewrite <- Permutation_middle.
Qed.

Lemma stored_elem k a t : store_ok t -> a ∈ stored k t <-> a ∈ stored_of k (rr_producer a) t.
Proof.
  intros Hok. unfold stored. rewrite list_elem_of_In, in_concat. split.
  - intros (l & Hl%list_elem_of_In & Ha%list_elem_of_In). apply list_elem_of_fmap in Hl as (p & -> & _).
    destruct (stored_of_sorted k p t Hok) as [_ Hp]. rewrite Forall_forall in Hp. by rewrite (Hp a Ha).
  - intros Ha. exists (stored_of k (rr_producer a) t). split; [|by apply list_elem_of_In]. apply list_elem_of_In, list_elem_of_fmap.
    exists (rr_producer a). split; [done|]. apply producers_of_elem; [done|]. unfold stored_of in Ha. destruct (producer_data k (rr_producer a) t); [by eexists|set_solver].
Qed.

Lemma sorted_across (l1 l2 : list RawRecord) a b : StronglySorted (fun a b => seq_of a < seq_of b) (l1 ++ l2) -> a ∈ l1 -> b ∈ l2 -> seq_of a < seq_of b.
Proof.
  induction l1 as [|x l1 IH]; cbn; [set_solver|]. intros Hs Ha Hb. apply StronglySorted_inv in Hs as [Hs Hx]. apply elem_of_cons in Ha as [->|Ha]; [|by apply IH].
  rewrite Forall_forall in Hx. apply Hx. apply elem_of_app. by right.
Qed.

(** C17. Enforcing retention, whatever call on a directory entry fails, only
    takes records: of each producer its first ones, and only records older than
    the kind's cutoff unless the kind was above its size with its open segments
    closed.  Every kind ends within its size, or with no producer the size rule
    would take from; memory and disk agree, and sequence numbers go on. *)
Theorem enforce_exact now t : store_ok t -> let t' := (enforce now t).2 in
  store_ok t' /\ forall k, next_of k t' = next_of k t
    /\ (forall a, a ∈ stored k t' -> a ∈ stored k t)
    /\ (forall a, a ∈ stored k t -> a ∉ stored k t' ->
          (r_ts (rr_rec a) < cutoff_of k now t \/ max_bytes (retention k t) < kind_size k t + IDX_ENTRY * lenl (producers_of k t))
          /\ forall b, b ∈ stored k t' -> rr_producer b = rr_producer a -> r_seq (rr_rec a) < r_seq (rr_rec b))
    /\ (kind_size k t' <= max_bytes (retention k t) \/ victim (max_bytes (retention k t)) (kd_producers (kind_data k t')) = None).
Proof.
  intros Hok t'. destruct (enforce_ok now t Hok) as (Hok' & Hn & He). fold t' in Hok', Hn, He. split; [done|]. intros k. destruct (He k) as [Hd Hs].
  split_and!; [done| | |done].
  - intros a. rewrite !stored_elem by done. destruct (Hd (rr_producer a)) as (gone & -> & _). intros Ha. apply elem_of_app. by right.
  - intros a. rewrite !stored_elem by done. destruct (Hd (rr_producer a)) as (gone & Heq & Hg). intros Ha Hna. rewrite Heq in Ha. apply elem_of_app in Ha as [Ha|]; [|done].
    rewrite Forall_forall in Hg. split; [by apply Hg|]. intros b Hb Hp. rewrite stored_elem, Hp in Hb by done.
    destruct (stored_of_sorted k (rr_producer a) t Hok) as [Hsort _]. rewrite Heq in Hsort. by eapply sorted_across.
Qed.

(** ** Samples *)

Module Sample.

#[local] Instance reader : JsonReader := canonical_reader.
#[local] Instance writer : JsonWriter := {| to_vec := fun v => default "" (canonicalize v) |}.

Definition opts : StoreOptions := {| so_retention := default_retention; so_segment_max_bytes := 60; so_segment_max_age := 3600000000000 |}.
Definition now : Z := 1700000000000000000.

Definition blank : Tel :=
  {| tl_root := None; tl_aside := [];
     tl_store := {| s_retention := default_retention; s_segment_max_bytes := 0; s_segment_max_age := 0; s_kinds := fun _ => default_kind;
                    s_guard := {| g_paused := false; g_system_paused := false; g_free := 0; g_total := 0 |}; s_reset_at := None |};
     tl_meta := []; tl_data := [] |}.

Definition opened : Tel := (open opts now blank).2.

Definition shop : Producer := Project "shop".

(** Records of two producers, in small segments; some of them not flushed. *)
Definition append_all (l : list (Producer * Z * string)) (t : Tel) : Tel :=
  fold_left (fun t e => (append Logs e.1.1 e.1.2 1 e.2 now t).2) l t.

Definition flushed_store : Tel :=
  (flush (append_all [(System, now, "boot"); (shop, now + 1, "order"); (System, now + 2, "a longer line of the log"); (shop, now + 3, "paid")] opened)).2.
Definition sample : Tel := append_all [(shop, now + 4, "sent"); (System, now + 5, "idle")] flushed_store.

Lemma options_good : options_ok opts.
Proof. split; [by apply Z.leb_le|]. intros []; reflexivity. Qed.

Lemma opened_reach : reach opened.
Proof.
  apply (reach_first opts now blank opened options_good); [done|done|]. unfold opened.
  assert ((open opts now blank).1 = Ok tt) as H by (vm_compute; reflexivity). destruct (open opts now blank). cbn in *. by rewrite H.
Qed.

Definition plain (e : Producer * Z * string) (t : Tel) : bool :=
  in_range i64_min i64_max e.1.2 && (next_of Logs t <? u64_max)
  && match e.1.1 with Project id => valid_id id | System => true | _ => false end.

Lemma append_all_reach l : forall t, reach t ->
  fold_right andb true ((fun n => match l !! n with Some e => plain e (append_all (take n l) t) | None => true end) <$> seq 0 (length l)) = true ->
  reach (append_all l t).
Proof.
  induction l as [|e l IH]; intros t Ht Hall; [done|]. change (append_all (e :: l) t) with (append_all l (append Logs e.1.1 e.1.2 1 e.2 now t).2).
  cbn [length seq fmap list_fmap fold_right] in Hall. apply andb_true_iff in Hall as [He Hall]. apply IH.
  - cbn in He. unfold plain in He. bsplit. eapply reach_step; [exact Ht|]. apply step_append.
    + destruct (e.1.1); done.
    + unfold fits, in_range in *. bsplit. lia.
    + cbn in *. lia.
  - rewrite <- fmap_S_seq in Hall. rewrite <- list_fmap_compose in Hall. exact Hall.
Qed.

Lemma flushed_reach : reach flushed_store.
Proof. eapply reach_step; [|apply step_flush]. apply append_all_reach; [apply opened_reach|]. vm_compute. reflexivity. Qed.

Lemma sample_reach : reach sample.
Proof. apply append_all_reach; [apply flushed_reach|]. vm_compute. reflexivity. Qed.

Lemma sample_ok : store_ok sample.
Proof. apply (reach_well _ sample_reach). Qed.

Definition the_root : RootDir := default empty_root (tl_root sample).

Lemma append_exact_witness : store_ok sample /\ wf_producer shop /\ fits (now + 6) 1 /\ next_of Logs sample < u64_max
  /\ exists a t', append Logs shop (now + 6) 1 "late" now sample = (a, t') /\ a = Stored 7 /\ length (stored Logs t') = 7%nat.
Proof.
  pose proof sample_ok as Hok. assert (wf_producer shop) as Hp by done. assert (fits (now + 6) 1) as Hf by (vm_compute; repeat split; discriminate).
  assert (next_of Logs sample < u64_max) as Hn by (vm_compute; reflexivity). split; [exact Hok|]. split; [exact Hp|]. split; [exact Hf|]. split; [exact Hn|].
  pose proof (append_exact Logs shop (now + 6) 1 "late" now sample Hok Hp Hf Hn) as H.
  destruct (append Logs shop (now + 6) 1 "late" now sample) as [a t'] eqn:Ha. exists a, t'. split; [reflexivity|].
  assert (a = Stored 7) as -> by (change a with (fst (a, t')); rewrite <- Ha; vm_compute; reflexivity). split; [reflexivity|].
  destruct H as (_ & _ & _ & _ & _ & seg & H). apply Permutation_length in H. rewrite H. vm_compute. reflexivity.
Defined.

(** Nothing of the sample has expired. *)
Lemma enforce_exact_witness : store_ok sample /\ next_of Logs (enforce now sample).2 = 7
  /\ kind_size Logs (enforce now sample).2 <= max_bytes (retention Logs sample).
Proof.
  pose proof sample_ok as Hok. split; [exact Hok|]. pose proof (enforce_exact now sample Hok) as [_ H].
  destruct (H Logs) as (Hn & _). split; [rewrite Hn; vm_compute; reflexivity|]. vm_compute. discriminate.
Defined.

Definition all_of (d : Direction) : ScanSpec :=
  {| sp_direction := d; sp_after_seq := Some 1; sp_before_seq := None; sp_from_ts := 0; sp_to_ts := i64_max; sp_producers := None |}.

(** The records after the first, newest first. *)
Lemma scan_exact_witness : store_ok sample
  /\ exists sn t' out, snapshot Logs now sample = (sn, t')
     /\ scan_all (all_of Backward) (sn_min_ts sn) (S (length (stored Logs sample))) (fun p => files_of Logs p t') (scan sn (all_of Backward)) = Ok (Some out)
     /\ seq_of <$> out = [6; 5; 4; 3; 2].
Proof.
  pose proof sample_ok as Hok. split; [exact Hok|]. pose proof (scan_exact Logs now (all_of Backward) sample Hok) as H.
  destruct (snapshot Logs now sample) as [sn t'] eqn:Hs. destruct H as (out & H & _). exists sn, t', out. split; [reflexivity|]. split; [exact H|].
  change sn with (fst (sn, t')) in H. change t' with (snd (sn, t')) in H at 2. rewrite <- Hs in H.
  assert (scan_all (all_of Backward) (sn_min_ts (snapshot Logs now sample).1) (S (length (stored Logs sample)))
    (fun p => files_of Logs p (snapshot Logs now sample).2) (scan (snapshot Logs now sample).1 (all_of Backward)) = Ok (Some out)) as H' by exact H.
  vm_compute in H'. injection H' as <-. vm_compute. reflexivity.
Defined.


(** *** A kind that stays above its size *)

Definition segment_of (size : Z) : Segment :=
  {| first_seq := 1; last_seq := 1; records := 1; seg_bytes := size; idx_bytes := 0; min_ts := now; max_ts := now; blocks := [(0, 1)]; closed := true |}.

(** Three otlp producers below their share, together above half of the kind,
    and a project at three times its share. *)
Definition crowded : Tel :=
  set_store (with_kinds (fun k => with_producers
    (fold_left (fun m e => pset e.1 {| pd_segments := [segment_of e.2]; pd_open := None |} m)
      [(Project "big", 600000); (Otlp "a", 190000); (Otlp "b", 190000); (Otlp "c", 190000)] []) (kind_data k opened))
    {| s_retention := fun _ => {| max_age_days := 7; max_bytes := 2 ^ 20 |}; s_segment_max_bytes := 60; s_segment_max_age := 3600000000000;
       s_kinds := s_kinds (tl_store opened); s_guard := s_guard (tl_store opened); s_reset_at := None |}) opened.

(** Enforcement takes nothing although the kind is above its size. *)
Example crowded_stays : max_bytes (retention Logs crowded) < kind_size Logs crowded
  /\ kind_size Logs (enforce now crowded).2 = kind_size Logs crowded.
Proof. split; vm_compute; reflexivity. Qed.

(** *** An index file that could not be created *)

Definition failing (l : list bool) (t : Tel) : Tel :=
  {| tl_root := tl_root t; tl_aside := tl_aside t; tl_store := tl_store t; tl_meta := l; tl_data := [] |}.

(** Creating the index fails once; the append after it fails on the segment
    file that is there. *)
Example index_failure_sticks :
  let '(a, t) := append Logs System now 1 "one" now (failing [false; false; true] opened) in
  let '(b, _) := append Logs System now 1 "two" now t in
  a = AppendFailed /\ tl_meta t = [] /\ b = AppendFailed.
Proof. vm_compute. repeat split. Qed.

(** *** Sequence numbers that start again *)

Definition later : Z := now + 30 * DAY_NANOS.
Definition first_cursor : Cursor := {| cu_kind := Logs; cu_producer := System; cu_segment := 1; cu_seq := 1 |}.

(** The only record of the kind is evicted, the store restarts, and the cursor
    of the evicted record is that of a new one. *)
Example cursor_returns :
  let t1 := (append Logs System now 1 "old" now opened).2 in
  let t2 := (enforce later t1).2 in
  let t3 := (append Logs System later 1 "new" later (open opts later t2).2).2 in
  cursor_live first_cursor t1 = true /\ cursor_live first_cursor t2 = false /\ cursor_live first_cursor t3 = true.
Proof. vm_compute. repeat split. Qed.

End Sample.
